(* ===== verification/_CoqProject ===== *)
-Q . S2P
Prelude.v
X86State.v
FlagSpec.v
FlagHelpers.v
AddressSpace.v
AddressSpaceInv.v
AddressSpaceAccess.v
AddressSpaceWrite.v
AddressSpaceMap.v
AddressSpaceProtect.v
ExecutionContext.v
MemoryArithmetic.v
RuntimeMemory.v
RuntimeArith.v
VectorHelpers.v
VectorLanes.v
VectorMemory.v
MappingBatch.v
StartupStack.v
AArch64.v
Assembler.v
AssemblerSpec.v
AssemblerFlow.v
AssemblerStack.v
AssemblerBranch.v
IR.v
IRBuilder.v
IRVerify.v
IRVerifySpec.v
IRBuilderSpec.v
Optimization.v
IRSemantics.v
OptimizationInv.v
BuilderClosed.v
OptimizationSpec.v
X86Instruction.v
DecodeBase.v
DecodeVex.v
DecodeRepeat.v
DecodeControlTransfer.v
DecodeExtended.v
DecodeAtomic.v
DecodeOperandOverride.v
DecodeScalarSpecial.v
DecodeSimdLanes.v
DecodeSimdMemory.v
DecodeGeneral.v
Decoder.v
DecodeSpec.v
DecodeFamiliesSpec.v
DecodeGeneralSpec.v
DecoderSpec.v
LoweringBase.v
LowerData.v
LowerArithmetic.v
LowerAtomic.v
LowerShift.v
LowerLogic.v
LowerVectorMove.v
LowerFloat.v
LowerVector.v
LowerControl.v
Lowering.v
LoweringRules.v
LoweringSpec.v
LowerScalarSpec.v
LowerVectorSpec.v
LoweringCorrect.v
BackendAnalysis.v
BackendPlan.v
BackendAnalysisSpec.v
BackendBase.v
BackendScalar.v
BackendMemory.v
Backend.v
BackendLogic.v
BackendFlags.v
BackendSelect.v
BackendCorrect.v
Translator.v
