(* ===== verification/Prelude.v ===== *)
(** Rosa, a user-mode x86-64 to ARM64 binary translator for Darwin: a verification
    development of its core.

    * The program

    Guest code is decoded ([src/x86/Decode*.cpp]), lowered to an intermediate
    representation ([src/x86/Lowering.cpp], [src/ir/IR.cpp]), optimised
    ([src/ir/Optimization.cpp]), and compiled to ARM64 ([src/arm64/Backend.cpp]
    over [src/arm64/Assembler.cpp]).  The generated code works on an [X86State]
    ([src/x86/Registers.h]) and calls helper functions ([src/dbt/FlagHelpers.cpp],
    [src/dbt/MemoryArithmetic.cpp], [src/dbt/RuntimeHelpers.cpp]) that reach guest
    memory through an execution context ([src/dbt/ExecutionContext.h]) and the
    guest address space ([src/guest/AddressSpace.cpp]).  The loader maps the
    program ([src/guest/MappingBatch.cpp]) and builds its first stack
    ([src/guest/StartupStack.cpp]).

    All paths in the development are relative to the repository's [src/] directory.

    * Conventions

    A machine word is an integer [Z] with its wrap-around written out ([u8], [u16],
    [u32], [u64], [wrap w], [signed w]).  A C++ call that may fail has an [outcome]:
    [Ok], [Throw] with the kind and the text of the exception, or [Undefined] for
    behaviour the language does not define (a read outside a vector).  Code that
    changes an object is in the state monad [M] over that object: the state comes
    back with [Throw] too, as the caller of the C++ code would see it.

    * The files

    - [Prelude]: words, outcomes, the monad, bytes, tactics, generic lemmas.
    - [X86State]: registers, RFLAGS and the field offsets generated code uses
      ([src/x86/Registers.h], [src/x86/Flags.h]).  The fields do not overlap.
    - [FlagSpec], [FlagHelpers]: the flag updates of [src/dbt/FlagHelpers.cpp];
      each is proved to set the six arithmetic flags the architecture manual
      defines and to leave the others alone ([FlagSpec] is the reference).
    - [AddressSpace]: the class of [src/guest/AddressSpace.cpp], whole: mappings, the
      lookup cache, reads, writes, creation, protection, deallocation, lazy file
      pages.  [AddressSpaceInv] has the invariant [space_ok] (sorted, disjoint,
      page aligned mappings; cache entries that tell the truth) and the search;
      [AddressSpaceAccess] reads, [AddressSpaceWrite] writes and round trips,
      [AddressSpaceMap] creation, [AddressSpaceProtect] protection and removal.
      The reference model is the byte-wise function [byte_at]: which address holds
      which byte under which permissions.
    - [MappingBatch]: several segments mapped at once; either all appear, as mapping
      them one after the other would make them, or none does.
    - [StartupStack]: the initial stack; its strings, pointers and alignment.
    - [ExecutionContext], [MemoryArithmetic]: the 49 read-modify-write helpers; each
      refines load, compute, store, flags, and a fault changes nothing.
    - [RuntimeMemory], [RuntimeArith]: loads and stores with the direct memory cache,
      string instructions (which terminate), divisions (which fault exactly when
      the quotient does not fit), bit scans, CPUID.
    - [VectorHelpers], [VectorLanes], [VectorMemory]: the integer vector helpers, each
      equal to a lane-wise specification.
    - [AArch64]: the instructions the assembler emits, their encodings and their
      meaning.  [Assembler]: [src/arm64/Assembler.cpp].  [AssemblerSpec],
      [AssemblerFlow], [AssemblerStack], [AssemblerBranch]: every emission function
      emits the word whose meaning it names, register saves are transparent,
      [finish] resolves every branch or reports the one out of reach.
    - [X86Instruction]: opcodes, operands and decoded instructions
      ([src/x86/Instruction.h]).  [DecodeBase]: the cursor, prefixes, immediates and
      the two memory operand decoders ([src/x86/DecodeInternal.h]).  [DecodeVex],
      [DecodeScalarSpecial], [DecodeOperandOverride], [DecodeSimdLanes],
      [DecodeSimdMemory], [DecodeRepeat], [DecodeControlTransfer], [DecodeAtomic],
      [DecodeExtended], [DecodeGeneral]: one file for each [src/x86/Decode*.cpp],
      branch for branch.  [Decoder]: [src/x86/Decoder.cpp], which tries the families
      in order, and the loop that decodes a block.
    - [DecodeSpec]: what a decoded instruction is ([instruction_ok]: operands of the
      kinds its opcode takes, values in their ranges, exact targets, a prefix of
      the code of one to fifteen bytes), and the rules and tactics that carry a proof
      through a decoder.  [DecodeFamiliesSpec], [DecodeGeneralSpec]: every family keeps it.
      [DecoderSpec]: so does the decoder; decoding a block ends and cuts the code
      into the instructions it spells.
    - [LoweringBase]: operands, optional values, the effective address.  [LowerData],
      [LowerArithmetic], [LowerAtomic], [LowerShift], [LowerLogic], [LowerVectorMove],
      [LowerFloat], [LowerVector], [LowerControl]: the 208 cases of the switch of
      [x86::lowerToIr] in [src/x86/Lowering.cpp], one definition each, in the monad over
      the block that is built.  [Lowering]: the switch and the loop.
    - [LoweringRules]: what each builder method needs and gives.  [LoweringSpec]: the
      promise of lowering an instruction ([lowered_by], [ended_by]), its rules and
      tactics.  [LowerScalarSpec], [LowerVectorSpec]: every case keeps it.
      [LoweringCorrect]: a decoded block becomes a block the verifier accepts.
    - [IR], [IRBuilder], [IRVerify]: operations, the methods of [ir::Builder] and
      [ir::verify].  [IRVerifySpec]: the verifier accepts exactly single assignment
      blocks with one exit at the end.  [IRBuilderSpec]: builder calls make such
      blocks.
    - [Optimization]: [ir::optimizeBlock].  [IRSemantics]: what a block means.
      [OptimizationInv], [BuilderClosed], [OptimizationSpec]: the pass returns a
      block the verifier accepts that means the same, by a simulation.
    - [BackendAnalysis]: the analyses of [src/arm64/Backend.cpp] before it emits anything: dead,
      fused, sunk and deferred flag updates, and [allocateHostRegisters].  [BackendPlan]:
      the first part of [compile], the [Plan] of a block: folded immediates, pinned
      constants and registers, widened byte writes, the loads and stores of a loop that
      go straight to memory, what the prologue saves.  [BackendAnalysisSpec]: the
      allocator never gives two values that are needed together one register, and the
      plan of a block that does not loop to itself is right.
    - [BackendBase], [BackendScalar], [BackendMemory], [Backend]: the emission of code, one
      [emit_...] for each case of the switch of [compile], in the monad over [Assembler];
      prologue, epilogue, exits, self edge; [Backend.compile] is the whole.  The
      addresses of the runtime helpers are the parameter [g_pointer].
    - [BackendLogic]: a Hoare logic for emitted code, whose triples relate what the code
      being emitted will do from here to the labels it may branch to.  [BackendFlags]:
      the inline flag updates.  [BackendSelect]: the code of every operation on the
      guest registers and flags.  [BackendCorrect]: exits, the simulation of
      [IRSemantics] by the code of a whole block, and the theorem about [compile].
    - [Translator]: [Translator::translate] of [src/dbt/Translator.cpp]: decoder, lowering,
      optimiser and backend composed, with the theorem about the whole, from bytes of
      guest code to the run of the ARM64 code; and three programs the backend
      compiles wrongly.

    * Bounds and fuel

    Loops of the source are recursive functions.  [readInto_loop], [write_validate],
    [write_copy] take the number of bytes: every round handles at least one.
    [protect_check] takes the number of mappings plus one: every round leaves a
    mapping behind.  [while_rcx] takes RCX rounds: each one decrements RCX.  [resolve_loop]
    takes the number of values: a chain of replacements has one link.
    [decodeBlock_loop] takes the number of bytes plus one: every instruction has one.
    The loop over
    the 0x66 prefixes of a long NOP ([decodeScalarSpecial_skipPrefixes]) takes the
    number of bytes.  In each case
    a theorem shows that the fuel is never used up on the states the code reaches.

    A lowered instruction is allowed [most_values] (1024) value numbers, far more than any
    case uses; a block of fewer than 2^22 instructions then cannot exhaust the 32-bit
    counter.  The blocks whose machine code is proved right have at most 100 operations; none
    of them takes more than 80 instructions, so every branch is in reach.  [execute] takes
    the number of instructions: the theorem gives a number from which on the result no
    longer changes.  Where the source calls two builder methods in the arguments of a third, C++
    leaves their order open; the model evaluates them from left to right.

    * Not modelled

    Host system calls ([mmap], [mprotect], [open], [pread]), clocks and fences; file
    contents are a parameter where the code reads them.  Floating point helpers,
    which use the host's unit.  Diagnostics ([src/debug]), the command line, the LLVM
    backend, the dispatcher and the block cache, Mach ports and Darwin system calls, Mach-O
    parsing.  The code of an operation that calls a helper (guest memory, vectors, the less
    common flag updates) and of a block that loops to itself is defined, but its meaning
    is not proved: there the theorems show the plan's register allocation only, and three
    of the findings are about such loops.  What an x86 instruction does is not defined
    apart from the code: lowering is proved to make verified blocks.

    * Possible extensions

    The calls of helpers, whose definitions [MemoryArithmetic], [RuntimeMemory] and the vector
    files have, in the Hoare logic of [BackendLogic]; self edges, once the plan checks for
    what the findings show; the block cache on disk and the port name space.

    This file: the shared prelude. *)
From Stdlib Require Export ZArith Lia Bool.
From stdpp Require Export base tactics numbers gmap strings option list.

#[export] Set Default Proof Using "Type".

(** ** Notation scope of the development *)

Declare Scope rosa_scope.
Delimit Scope rosa_scope with rosa.
#[global] Open Scope Z_scope.

(** ** Fixed-width unsigned integers

    A C++ [uintN_t] is a [Z] in [0, 2^N); every place where the source wraps
    is written out with [wrap]. *)

Definition wrap (w x : Z) : Z := x mod 2 ^ w.
Definition u8 (x : Z) : Z := wrap 8 x.
Definition u16 (x : Z) : Z := wrap 16 x.
Definition u32 (x : Z) : Z := wrap 32 x.
Definition u64 (x : Z) : Z := wrap 64 x.

(** Two's complement reading of a [w]-bit word ([std::bit_cast<std::intN_t>]). *)
Definition signed (w x : Z) : Z := if 2 ^ (w - 1) <=? x then x - 2 ^ w else x.

(** [~x] on [uint64_t]. *)
Definition not64 (x : Z) : Z := u64 (Z.lnot x).

Definition UINT32_MAX : Z := 2 ^ 32 - 1.
Definition UINT64_MAX : Z := 2 ^ 64 - 1.

Definition in_range (w x : Z) : Prop := 0 <= x < 2 ^ w.

(** ** Outcomes of C++ code: a value, a thrown exception, or undefined
    behaviour (an out-of-bounds access of a vector or span). *)

Inductive exn : Type :=
| runtime_error (what : string)
| invalid_argument (what : string)
| overflow_error (what : string)
| logic_error (what : string)
(** [x86::DecodeError]: the address and the bytes that were not decoded. *)
| decode_error (address : Z) (remaining : list Z) (what : string)
(** [std::get] of another alternative of a variant. *)
| bad_variant_access.

Inductive outcome (A : Type) : Type :=
| Ok (a : A)
| Throw (e : exn)
| Undefined.
Arguments Ok {_} _.
Arguments Throw {_} _.
Arguments Undefined {_}.

#[export] Instance exn_eq_dec : EqDecision exn.
Proof. solve_decision. Defined.

Definition outcome_bind {A B} (c : outcome A) (k : A -> outcome B) : outcome B :=
  match c with
  | Ok a => k a
  | Throw e => Throw e
  | Undefined => Undefined
  end.

(** State-passing computations: like C++, the state reached before a throw is
    kept. *)
Definition M (S A : Type) : Type := S -> S * outcome A.

Definition ret {S A} (a : A) : M S A := fun s => (s, Ok a).
Definition throw {S A} (e : exn) : M S A := fun s => (s, Throw e).
Definition undefined {S A} : M S A := fun s => (s, Undefined).
Definition bind {S A B} (c : M S A) (k : A -> M S B) : M S B :=
  fun s => match c s with
           | (s', Ok a) => k a s'
           | (s', Throw e) => (s', Throw e)
           | (s', Undefined) => (s', Undefined)
           end.
Definition get {S} : M S S := fun s => (s, Ok s).
Definition modify {S} (f : S -> S) : M S unit := fun s => (f s, Ok tt).
Definition lift {S A} (c : outcome A) : M S A := fun s => (s, c).

Notation "'let!' x ':=' c 'in' k" := (outcome_bind c (fun x => k))
  (at level 10, x pattern, c at level 100, k at level 200) : rosa_scope.
Notation "'do!' x '<-' c ';' k" := (bind c (fun x => k))
  (at level 10, x pattern, c at level 100, k at level 200) : rosa_scope.
Notation "c ';;;' k" := (bind c (fun _ => k))
  (at level 199, right associativity) : rosa_scope.
#[global] Open Scope rosa_scope.

(** [throw_if c e k]: the guard [if (c) throw e;] followed by [k]. *)
Definition guard {A} (c : bool) (e : exn) (k : outcome A) : outcome A :=
  if c then Throw e else k.

(** ** Bytes, little-endian words and spans *)

Fixpoint le_bytes (n : nat) (v : Z) : list Z :=
  match n with
  | O => []
  | S n' => u8 v :: le_bytes n' (Z.shiftr v 8)
  end.

Fixpoint le_value (bs : list Z) : Z :=
  match bs with
  | [] => 0
  | b :: bs' => Z.lor b (Z.shiftl (le_value bs') 8)
  end.

Definition is_byte (b : Z) : Prop := 0 <= b < 256.
Definition bytes_ok (l : list Z) : Prop := Forall is_byte l.

(** [span.subspan(off, n)] on in-range arguments. *)
Definition subspan (l : list Z) (off n : Z) : list Z :=
  take (Z.to_nat n) (drop (Z.to_nat off) l).

(** [std::copy_n(bytes, dst + off)] on in-range arguments. *)
Definition overwrite (l : list Z) (off : Z) (bytes : list Z) : list Z :=
  take (Z.to_nat off) l ++ bytes ++ drop (Z.to_nat off + length bytes) l.

Definition zlength {A} (l : list A) : Z := Z.of_nat (length l).

(** [std::popcount] on an unsigned value. *)
Fixpoint popcount_pos (p : positive) : Z :=
  match p with
  | xH => 1
  | xO p' => popcount_pos p'
  | xI p' => 1 + popcount_pos p'
  end.
Definition popcount (x : Z) : Z :=
  match x with Zpos p => popcount_pos p | _ => 0 end.

(** ** Tactics *)

(** Turn every boolean comparison in the context and goal into arithmetic. *)
Ltac bool_to_prop :=
  repeat match goal with
  | H : (_ && _) = true |- _ => apply andb_prop in H as [? ?]
  | H : (_ || _) = false |- _ => apply orb_false_elim in H as [? ?]
  | H : (_ || _) = true |- _ => apply orb_prop in H
  | H : (_ && _) = false |- _ => apply andb_false_iff in H
  | H : negb _ = true |- _ => apply negb_true_iff in H
  | H : negb _ = false |- _ => apply negb_false_iff in H
  | H : (_ <? _) = true |- _ => apply Z.ltb_lt in H
  | H : (_ <? _) = false |- _ => apply Z.ltb_ge in H
  | H : (_ <=? _) = true |- _ => apply Z.leb_le in H
  | H : (_ <=? _) = false |- _ => apply Z.leb_gt in H
  | H : (_ =? _) = true |- _ => apply Z.eqb_eq in H
  | H : (_ =? _) = false |- _ => apply Z.eqb_neq in H
  end.

(** Case-split on the innermost condition of the goal. *)
Ltac case_if :=
  match goal with
  | |- context [if ?b then _ else _] =>
      lazymatch b with
      | context [if _ then _ else _] => fail
      | _ => destruct b eqn:?
      end
  end.

(** Equality of two integers, bit by bit. *)
Create Rewrite HintDb rosa_bits.
#[export] Hint Rewrite Z.lor_spec Z.land_spec Z.lxor_spec Z.bits_0 : rosa_bits.
#[export] Hint Rewrite Z.lnot_spec Z.shiftr_spec Z.shiftl_spec using lia : rosa_bits.

Ltac bitwise :=
  apply Z.bits_inj'; intros ?i ?Hi; autorewrite with rosa_bits.

(** ** Lemmas on words *)

Lemma wrap_range w x : 0 <= w -> in_range w (wrap w x).
Proof. intros Hw. apply Z.mod_pos_bound. lia. Qed.

Lemma wrap_small w x : in_range w x -> wrap w x = x.
Proof. apply Z.mod_small. Qed.

Lemma u8_small x : 0 <= x < 256 -> u8 x = x.
Proof. intros. apply Z.mod_small. lia. Qed.

Lemma u8_range x : 0 <= u8 x < 256.
Proof. apply (wrap_range 8). lia. Qed.

Lemma u64_small x : 0 <= x < 2 ^ 64 -> u64 x = x.
Proof. apply Z.mod_small. Qed.

Lemma u64_range x : 0 <= u64 x < 2 ^ 64.
Proof. apply (wrap_range 64). lia. Qed.

Lemma wrap_land w x : 0 <= w -> wrap w x = Z.land x (Z.ones w).
Proof. intros. unfold wrap. by rewrite Z.land_ones by done. Qed.

Lemma wrap_testbit w x i : 0 <= w -> 0 <= i ->
  Z.testbit (wrap w x) i = (i <? w) && Z.testbit x i.
Proof.
  intros Hw Hi. unfold wrap. destruct (Z.ltb_spec i w); cbn.
  - by apply Z.mod_pow2_bits_low.
  - apply Z.mod_pow2_bits_high. lia.
Qed.

Lemma testbit_above w x i : in_range w x -> 0 <= w <= i -> Z.testbit x i = false.
Proof.
  intros Hx Hi. rewrite <- (wrap_small w x Hx), wrap_testbit by lia.
  by destruct (Z.ltb_spec i w); [lia|].
Qed.

(** Bitwise operations on words. *)
Lemma wrap_bitop (f : bool -> bool -> bool) (op : Z -> Z -> Z) w x y :
  (forall n, 0 <= n -> Z.testbit (op x y) n = f (Z.testbit x n) (Z.testbit y n)) ->
  f false false = false -> 0 <= w -> in_range w x -> in_range w y -> wrap w (op x y) = op x y.
Proof.
  intros Hop Hf Hw Hx Hy. apply Z.bits_inj'. intros n Hn. rewrite wrap_testbit by lia.
  destruct (Z.ltb_spec n w); cbn; [done|]. rewrite Hop by done.
  by rewrite (testbit_above w x), (testbit_above w y) by (done || lia).
Qed.

Lemma wrap_land_id w x y : 0 <= w -> in_range w x -> in_range w y -> wrap w (Z.land x y) = Z.land x y.
Proof. apply (wrap_bitop andb). { intros. apply Z.land_spec. } done. Qed.

Lemma wrap_lor_id w x y : 0 <= w -> in_range w x -> in_range w y -> wrap w (Z.lor x y) = Z.lor x y.
Proof. apply (wrap_bitop orb). { intros. apply Z.lor_spec. } done. Qed.

Lemma wrap_lxor_id w x y : 0 <= w -> in_range w x -> in_range w y -> wrap w (Z.lxor x y) = Z.lxor x y.
Proof. apply (wrap_bitop xorb). { intros. apply Z.lxor_spec. } done. Qed.

Lemma in_range_le k n x : in_range k x -> 0 <= k <= n -> in_range n x.
Proof. unfold in_range. intros [? ?] ?. pose proof (Z.pow_le_mono_r 2 k n). lia. Qed.

Lemma shiftr_range w x k : 0 <= w -> 0 <= k -> in_range w x -> in_range w (Z.shiftr x k).
Proof.
  intros Hw Hk [H0 H1]. rewrite Z.shiftr_div_pow2 by done.
  pose proof (Z.pow_pos_nonneg 2 k ltac:(lia) Hk).
  split; [apply Z.div_pos; lia|]. apply Z.div_lt_upper_bound; [lia|]. nia.
Qed.

Lemma lor_range w x y : 0 <= w -> in_range w x -> in_range w y -> in_range w (Z.lor x y).
Proof. intros Hw Hx Hy. rewrite <- (wrap_lor_id w) by done. by apply wrap_range. Qed.

Lemma land_range_r w x y : 0 <= w -> in_range w y -> in_range w (Z.land x y).
Proof.
  intros Hw Hy. rewrite <- (wrap_small w y Hy), wrap_land, Z.land_assoc, <- wrap_land by done.
  by apply wrap_range.
Qed.

Lemma wrap_weaken w n x : 0 <= w <= n -> wrap w (wrap n x) = wrap w x.
Proof.
  intros Hw. apply Z.bits_inj'. intros i Hi. rewrite !wrap_testbit by lia.
  destruct (Z.ltb_spec i w), (Z.ltb_spec i n); try done; lia.
Qed.

Lemma lor_disjoint k x b : 0 <= k -> x mod 2 ^ k = 0 -> in_range k b -> Z.lor x b = x + b.
Proof.
  intros Hk Hx Hb. assert (Z.land x b = 0) as Hl.
  { apply Z.bits_inj'. intros i Hi. rewrite Z.land_spec, Z.bits_0. destruct (Z.ltb_spec i k).
    - rewrite <- (Z.mod_pow2_bits_low x k i) by lia. by rewrite Hx, Z.bits_0.
    - by rewrite (testbit_above k b), andb_false_r by (done || lia). }
  rewrite Z.add_nocarry_lxor by done. symmetry. by apply Z.lxor_lor.
Qed.

(** The sign bit of a [w]-bit word. *)
Lemma testbit_msb w x : 0 < w -> in_range w x ->
  Z.testbit x (w - 1) = (2 ^ (w - 1) <=? x).
Proof.
  intros Hw [Hx0 Hx1]. replace (2 ^ w) with (2 * 2 ^ (w - 1)) in Hx1
    by (rewrite <- Z.pow_succ_r by lia; f_equal; lia).
  rewrite Z.testbit_eqb by lia.
  destruct (Z.leb_spec (2 ^ (w - 1)) x) as [H|H].
  - replace (x / 2 ^ (w - 1)) with 1; [done|].
    apply (Z.div_unique_pos _ _ _ (x - 2 ^ (w - 1))); lia.
  - by rewrite Z.div_small by lia.
Qed.

Lemma land_pow2_testbit x i : 0 <= i ->
  (Z.land x (2 ^ i) =? 0) = negb (Z.testbit x i).
Proof.
  intros Hi. destruct (Z.testbit x i) eqn:E; cbn.
  - apply Z.eqb_neq. intros H. apply (f_equal (fun z => Z.testbit z i)) in H.
    rewrite Z.land_spec, E, Z.pow2_bits_true, Z.bits_0 in H by lia. done.
  - apply Z.eqb_eq. apply Z.bits_inj'. intros j Hj.
    rewrite Z.land_spec, Z.bits_0, Z.pow2_bits_eqb by lia.
    destruct (Z.eqb_spec i j) as [->|]; [by rewrite E|by rewrite andb_false_r].
Qed.

Lemma shiftr_msb w x : 0 < w -> in_range w x ->
  (Z.shiftr x (w - 1) =? 0) = negb (2 ^ (w - 1) <=? x).
Proof.
  intros Hw Hx. rewrite <- testbit_msb by done.
  rewrite Z.shiftr_div_pow2, Z.testbit_eqb by lia.
  assert (0 <= x / 2 ^ (w - 1) < 2) as ?.
  { destruct Hx. split; [apply Z.div_pos; lia|]. apply Z.div_lt_upper_bound; [lia|].
    replace (2 ^ (w - 1) * 2) with (2 ^ w); [done|].
    rewrite Z.mul_comm, <- Z.pow_succ_r by lia. f_equal; lia. }
  assert (x / 2 ^ (w - 1) = 0 \/ x / 2 ^ (w - 1) = 1) as [-> | ->] by lia; done.
Qed.

(** ** Lemmas on computations and spans *)

Lemma bind_ok {S A B} (c : M S A) (k : A -> M S B) s s' a :
  c s = (s', Ok a) -> bind c k s = k a s'.
Proof. unfold bind. by intros ->. Qed.

Lemma bind_throw {S A B} (c : M S A) (k : A -> M S B) s s' e :
  c s = (s', Throw e) -> bind c k s = (s', Throw e).
Proof. unfold bind. by intros ->. Qed.

Lemma bind_assoc {S A B C} (c : M S A) (k : A -> M S B) (h : B -> M S C) s :
  bind (bind c k) h s = bind c (fun a => bind (k a) h) s.
Proof. unfold bind. by destruct (c s) as [? []]. Qed.

Lemma outcome_bind_assoc {A B C} (c : outcome A) (k : A -> outcome B) (h : B -> outcome C) :
  outcome_bind (outcome_bind c k) h = outcome_bind c (fun a => outcome_bind (k a) h).
Proof. by destruct c. Qed.

Lemma subspan_cons l off n : 0 <= off -> 0 < n -> off < zlength l ->
  exists b, l !! Z.to_nat off = Some b /\
    subspan l off n = b :: subspan l (off + 1) (n - 1).
Proof.
  unfold subspan, zlength. intros Ho Hn Hl.
  destruct (lookup_lt_is_Some_2 l (Z.to_nat off)) as [b Hb]; [lia|].
  exists b. split; [done|]. rewrite (drop_S l b) by done.
  replace (Z.to_nat n) with (S (Z.to_nat (n - 1))) by lia.
  replace (Z.to_nat (off + 1)) with (S (Z.to_nat off)) by lia. done.
Qed.

Lemma subspan_nil l off n : n <= 0 -> subspan l off n = [].
Proof. unfold subspan. intros. by replace (Z.to_nat n) with O by lia. Qed.

Lemma length_subspan l off n : 0 <= off -> 0 <= n -> off + n <= zlength l ->
  length (subspan l off n) = Z.to_nat n.
Proof. unfold subspan, zlength. intros. rewrite length_take, length_drop. lia. Qed.

Lemma length_overwrite l off d : 0 <= off -> off + zlength d <= zlength l ->
  length (overwrite l off d) = length l.
Proof.
  unfold overwrite, zlength. intros.
  rewrite !length_app, length_take, length_drop. lia.
Qed.

Lemma lookup_overwrite l off d i : 0 <= off -> off + zlength d <= zlength l ->
  overwrite l off d !! i =
  if decide (Z.to_nat off <= i < Z.to_nat off + length d)%nat
  then d !! (i - Z.to_nat off)%nat else l !! i.
Proof.
  unfold overwrite, zlength. intros.
  case_decide as Hd.
  - rewrite lookup_app_r by (rewrite length_take; lia).
    rewrite length_take, lookup_app_l by lia. f_equal. lia.
  - destruct (decide (i < Z.to_nat off)%nat).
    + rewrite lookup_app_l by (rewrite length_take; lia). apply lookup_take_lt. lia.
    + rewrite lookup_app_r by (rewrite length_take; lia).
      rewrite lookup_app_r by (rewrite length_take; lia).
      rewrite lookup_drop, length_take. f_equal. lia.
Qed.

(** Little-endian words round-trip through their bytes. *)
Lemma le_value_le_bytes n : forall v, 0 <= v < 2 ^ (8 * Z.of_nat n) -> le_value (le_bytes n v) = v.
Proof.
  induction n as [|n IH]; intros v Hv; cbn [le_bytes le_value].
  { change (2 ^ (8 * Z.of_nat 0)) with 1 in Hv. lia. }
  assert (0 <= Z.shiftr v 8 < 2 ^ (8 * Z.of_nat n)) as Hs.
  { rewrite Z.shiftr_div_pow2 by lia. split; [apply Z.div_pos; lia|].
    apply Z.div_lt_upper_bound; [lia|]. rewrite <- Z.pow_add_r by lia.
    replace (8 + 8 * Z.of_nat n) with (8 * Z.of_nat (S n)) by lia. lia. }
  rewrite IH by done. apply Z.bits_inj'. intros i Hi. unfold u8.
  rewrite Z.lor_spec, wrap_testbit by lia. destruct (Z.ltb_spec i 8).
  - rewrite Z.shiftl_spec_low by lia. cbn. by rewrite orb_false_r.
  - rewrite Z.shiftl_spec, Z.shiftr_spec by lia. cbn. f_equal. lia.
Qed.

Lemma length_le_bytes n v : length (le_bytes n v) = n.
Proof. revert v. induction n as [|n IH]; intros v; cbn; [done|]. by rewrite IH. Qed.

Lemma le_bytes_ok n v : bytes_ok (le_bytes n v).
Proof.
  revert v. induction n as [|n IH]; intros v; constructor; [apply u8_range|apply IH].
Qed.

Lemma take_le_bytes n k : forall v, (n <= k)%nat -> take n (le_bytes k v) = le_bytes n v.
Proof.
  revert k. induction n as [|n IH]; intros [|k] v Hk; cbn [take le_bytes]; [done|done|lia|].
  rewrite IH by lia. done.
Qed.

Lemma shiftr_wrap w k x : 0 <= k <= w -> Z.shiftr (wrap w x) k = wrap (w - k) (Z.shiftr x k).
Proof.
  intros Hk. apply Z.bits_inj'. intros i Hi.
  rewrite Z.shiftr_spec, !wrap_testbit, Z.shiftr_spec by lia.
  destruct (Z.ltb_spec (i + k) w), (Z.ltb_spec i (w - k)); try done; lia.
Qed.

(** Only the low bits of a word reach its bytes. *)
Lemma le_bytes_wrap n : forall v, le_bytes n (wrap (8 * Z.of_nat n) v) = le_bytes n v.
Proof.
  induction n as [|n IH]; intros v; cbn [le_bytes]; [done|]. f_equal.
  - unfold u8. apply wrap_weaken. lia.
  - rewrite shiftr_wrap by lia. replace (8 * Z.of_nat (S n) - 8) with (8 * Z.of_nat n) by lia. apply IH.
Qed.

Lemma word_literal4 v : [u8 v; u8 (Z.shiftr v 8); u8 (Z.shiftr v 16); u8 (Z.shiftr v 24)] = le_bytes 4 v.
Proof. cbn [le_bytes]. rewrite !Z.shiftr_shiftr by lia. done. Qed.


(** A byte or-ed below shifted bits adds to them. *)
Lemma lor_add_low b x : 0 <= b < 2 ^ 8 -> Z.lor b (Z.shiftl x 8) = b + Z.shiftl x 8.
Proof.
  intros Hb. assert (Z.land b (Z.shiftl x 8) = 0) as Hl.
  { apply Z.bits_inj'. intros i Hi. rewrite Z.land_spec, Z.bits_0. destruct (Z.ltb_spec i 8).
    - by rewrite Z.shiftl_spec_low, andb_false_r by lia.
    - by rewrite (testbit_above 8) by (done || lia). }
  rewrite Z.add_nocarry_lxor by done. symmetry. by apply Z.lxor_lor.
Qed.

Lemma le_value_range l : bytes_ok l -> in_range (8 * zlength l) (le_value l).
Proof.
  unfold zlength, in_range. induction l as [|b l IH]; intros Hl; [done|].
  apply Forall_cons in Hl as [Hb Hl]. specialize (IH Hl). unfold is_byte in Hb. cbn [le_value length].
  assert (Z.lor b (Z.shiftl (le_value l) 8) = b + le_value l * 2 ^ 8) as ->.
  { rewrite <- Z.shiftl_mul_pow2 by lia. rewrite lor_add_low; [done|lia]. }
  replace (8 * Z.of_nat (S (length l))) with (8 * Z.of_nat (length l) + 8) by lia.
  rewrite Z.pow_add_r by lia. nia.
Qed.

(** [x & ~(2^k - 1)]: rounding down to a power of two. *)
Lemma land_not64_ones x k : 0 <= k <= 64 -> 0 <= x < 2 ^ 64 ->
  Z.land x (not64 (2 ^ k - 1)) = x - x mod 2 ^ k.
Proof.
  intros Hk Hx. unfold not64, u64. replace (2 ^ k - 1) with (Z.ones k) by (rewrite Z.ones_equiv; lia).
  assert (Z.land x (wrap 64 (Z.lnot (Z.ones k))) = Z.shiftl (Z.shiftr x k) k) as ->.
  { apply Z.bits_inj'. intros i Hi.
    rewrite Z.land_spec, wrap_testbit, Z.lnot_spec, Z.testbit_ones by lia.
    rewrite Z.shiftl_spec by lia. destruct (Z.ltb_spec i k).
    - rewrite (Z.testbit_neg_r _ (i - k)) by lia.
      replace (0 <=? i) with true by (symmetry; apply Z.leb_le; lia). cbn. by rewrite !andb_false_r.
    - rewrite Z.shiftr_spec by lia. replace (i - k + k) with i by lia. rewrite !andb_false_r. cbn.
      rewrite andb_true_r. destruct (Z.ltb_spec i 64); [by rewrite andb_true_r|].
      rewrite andb_false_r. symmetry. apply (testbit_above 64); [done|lia]. }
  rewrite Z.shiftl_mul_pow2, Z.shiftr_div_pow2 by lia.
  pose proof (Z.div_mod x (2 ^ k)). lia.
Qed.

(** [overwrite] on a list split at the written range. *)
Lemma overwrite_app pre mid post d : length mid = length d ->
  overwrite (pre ++ mid ++ post) (zlength pre) d = pre ++ d ++ post.
Proof.
  intros Hl. unfold overwrite, zlength. rewrite Nat2Z.id, take_app_length.
  f_equal. f_equal. rewrite drop_app_ge by lia.
  replace (length pre + length d - length pre)%nat with (length mid) by lia.
  by rewrite drop_app_length.
Qed.

(** Replacing the low bits of a word. *)
Lemma low_bits_cleared x k : 0 <= k -> (x - wrap k x) mod 2 ^ k = 0.
Proof.
  intros Hk. unfold wrap. rewrite Zminus_mod_idemp_r, Z.sub_diag. apply Z.mod_0_l.
  pose proof (Z.pow_pos_nonneg 2 k). lia.
Qed.

Lemma merge_low w x v : 0 <= w <= 64 -> in_range 64 x -> in_range w v ->
  Z.lor (Z.land x (not64 (Z.ones w))) v = x - wrap w x + v.
Proof.
  intros Hw Hx Hv. replace (Z.ones w) with (2 ^ w - 1) by (rewrite Z.ones_equiv; lia).
  rewrite land_not64_ones by done. apply (lor_disjoint w); [lia| |done]. apply low_bits_cleared. lia.
Qed.

(** ** Hexadecimal text *)

Local Open Scope string_scope.
Definition hex_digit (d : Z) : string :=
  default "" (["0"; "1"; "2"; "3"; "4"; "5"; "6"; "7"; "8"; "9"; "a"; "b"; "c"; "d"; "e"; "f"]
              !! Z.to_nat d).
Fixpoint hex_digits (fuel : nat) (v : Z) : string :=
  match fuel with
  | O => ""
  | S fuel' => if (v <? 16)%Z then hex_digit v else hex_digits fuel' (v / 16)%Z +:+ hex_digit (v mod 16)%Z
  end.
Local Close Scope string_scope.
