(* ===== verification/X86State.v ===== *)
(** The guest architectural state ([src/x86/Registers.h]) and the RFLAGS bit
    constants ([src/x86/Flags.h]).

    A 64-bit register is a [Z] in [0, 2^64).  The sixteen general-purpose
    registers are kept in one list indexed by the encoding of [Register]; the
    C++ struct stores them in another order, which [registerOffset] maps. *)
From S2P Require Import Prelude.

(** ** Registers *)

Inductive Register : Type :=
| Rax | Rcx | Rdx | Rbx | Rsp | Rbp | Rsi | Rdi
| R8 | R9 | R10 | R11 | R12 | R13 | R14 | R15.

#[export] Instance Register_eq_dec : EqDecision Register.
Proof. solve_decision. Defined.

Definition Register_encoding (r : Register) : nat :=
  match r with
  | Rax => 0 | Rcx => 1 | Rdx => 2 | Rbx => 3 | Rsp => 4 | Rbp => 5 | Rsi => 6 | Rdi => 7
  | R8 => 8 | R9 => 9 | R10 => 10 | R11 => 11 | R12 => 12 | R13 => 13 | R14 => 14 | R15 => 15
  end%nat.

Definition all_registers : list Register :=
  [Rax; Rcx; Rdx; Rbx; Rsp; Rbp; Rsi; Rdi; R8; R9; R10; R11; R12; R13; R14; R15].

(** Byte offsets of the fields of [X86State], in declaration order. *)
Definition registerOffset (r : Register) : Z :=
  match r with
  | Rax => 0 | Rbx => 8 | Rcx => 16 | Rdx => 24 | Rsi => 32 | Rdi => 40 | Rbp => 48 | Rsp => 56
  | R8 => 64 | R9 => 72 | R10 => 80 | R11 => 88 | R12 => 96 | R13 => 104 | R14 => 112 | R15 => 120
  end.

Definition ripOffset : Z := 128.
Definition rflagsOffset : Z := 136.
Definition xmmOffset : Z := 144.
Definition ymmUpperOffset : Z := 400.
Definition gsBaseOffset : Z := 656.

(** An XMM register is its number 0..15; [sizeof(XmmValue)] is 16. *)
Definition xmmLaneOffset (reg : Z) (high : bool) : Z :=
  xmmOffset + reg * 16 + (if high then 8 else 0).
Definition ymmUpperLaneOffset (reg : Z) (high : bool) : Z :=
  ymmUpperOffset + reg * 16 + (if high then 8 else 0).

Record XmmValue := mkXmmValue { low : Z; high : Z }.

Record X86State := mkX86State {
  gpr : list Z;
  rip : Z;
  rflags : Z;
  xmm : list XmmValue;
  ymmUpper : list XmmValue;
  gsBase : Z
}.

(** Value-initialised state: every field zero except [rflags{0x2}]. *)
Definition initialState : X86State :=
  mkX86State (replicate 16 0) 0 0x2
    (replicate 16 (mkXmmValue 0 0)) (replicate 16 (mkXmmValue 0 0)) 0.

Definition set_rflags (flags : Z) (s : X86State) : X86State :=
  mkX86State s.(gpr) s.(rip) flags s.(xmm) s.(ymmUpper) s.(gsBase).
Definition set_rip (v : Z) (s : X86State) : X86State :=
  mkX86State s.(gpr) v s.(rflags) s.(xmm) s.(ymmUpper) s.(gsBase).
Definition set_gpr (r : Register) (v : Z) (s : X86State) : X86State :=
  mkX86State (<[Register_encoding r := v]> s.(gpr)) s.(rip) s.(rflags)
    s.(xmm) s.(ymmUpper) s.(gsBase).
Definition get_gpr (r : Register) (s : X86State) : Z :=
  s.(gpr) !!! Register_encoding r.

(** ** RFLAGS bits *)

Definition flagCarry : Z := 2 ^ 0.
Definition flagReservedOne : Z := 2 ^ 1.
Definition flagParity : Z := 2 ^ 2.
Definition flagAuxiliaryCarry : Z := 2 ^ 4.
Definition flagZero : Z := 2 ^ 6.
Definition flagSign : Z := 2 ^ 7.
Definition flagOverflow : Z := 2 ^ 11.
Definition flagDirection : Z := 2 ^ 10.
Definition arithmeticFlagMask : Z :=
  Z.lor (Z.lor (Z.lor (Z.lor (Z.lor flagCarry flagParity) flagAuxiliaryCarry) flagZero)
    flagSign) flagOverflow.

(** ** Well-formed states and register access *)

Record state_ok (s : X86State) : Prop := {
  state_ok_gpr : length s.(gpr) = 16%nat /\ Forall (in_range 64) s.(gpr);
  state_ok_rip : in_range 64 s.(rip);
  state_ok_rflags : in_range 64 s.(rflags)
}.

Lemma Register_encoding_inj r1 r2 :
  Register_encoding r1 = Register_encoding r2 -> r1 = r2.
Proof. by destruct r1, r2. Qed.

Lemma Register_encoding_bound r : (Register_encoding r < 16)%nat.
Proof. destruct r; cbn; lia. Qed.

Lemma get_set_gpr_eq r v s : length s.(gpr) = 16%nat -> get_gpr r (set_gpr r v s) = v.
Proof.
  intros Hl. unfold get_gpr, set_gpr; cbn.
  apply list_lookup_total_insert_eq. rewrite Hl. apply Register_encoding_bound.
Qed.

Lemma get_set_gpr_ne r1 r2 v s : r1 <> r2 -> get_gpr r2 (set_gpr r1 v s) = get_gpr r2 s.
Proof.
  intros Hne. unfold get_gpr, set_gpr; cbn. apply list_lookup_total_insert_ne.
  intros He. by apply Hne, Register_encoding_inj.
Qed.

Lemma get_gpr_range r s : state_ok s -> in_range 64 (get_gpr r s).
Proof.
  intros [[Hl Hg] _ _]. unfold get_gpr. rewrite Forall_lookup in Hg.
  apply (Hg (Register_encoding r)), list_lookup_lookup_total_lt. rewrite Hl. apply Register_encoding_bound.
Qed.

Lemma set_gpr_id r s : state_ok s -> set_gpr r (get_gpr r s) s = s.
Proof.
  intros [[Hl _] _ _]. destruct s as [g rip0 fl x y gs]. unfold set_gpr, get_gpr; cbn in *. f_equal.
  apply list_insert_id, list_lookup_lookup_total_lt. rewrite Hl. apply Register_encoding_bound.
Qed.

Lemma state_ok_set_gpr r v s : state_ok s -> in_range 64 v -> state_ok (set_gpr r v s).
Proof.
  intros [[Hl Hg] Hr Hf] Hv. split; [|done|done]. cbn. split; [by rewrite length_insert|].
  by apply Forall_insert.
Qed.

(** ** Layout *)

(** The byte offset of every 64-bit slot generated code addresses. *)
Definition state_slots : list Z :=
  map registerOffset all_registers ++ [ripOffset; rflagsOffset; gsBaseOffset] ++
  flat_map (fun r => [xmmLaneOffset r false; xmmLaneOffset r true;
                      ymmUpperLaneOffset r false; ymmUpperLaneOffset r true]) (seqZ 0 16).

(** [sizeof(X86State)]: the fields end at 664 and the type is aligned to 16. *)
Definition state_size : Z := 672.

(** The offsets through which generated code reaches the guest state never
    overlap: the slots of the registers, the instruction pointer, the flags, the
    vector lanes and the segment base are 8-byte aligned, lie inside the
    structure, fill all of it up to its final padding, and any two different
    slots are at least eight bytes apart. *)
Theorem state_slots_disjoint :
  NoDup state_slots /\
  (forall a, a ∈ state_slots <-> 0 <= a < state_size - 8 /\ a mod 8 = 0) /\
  forall a b, a ∈ state_slots -> b ∈ state_slots -> a <> b -> a + 8 <= b \/ b + 8 <= a.
Proof.
  assert (forall a, a ∈ state_slots <-> 0 <= a < state_size - 8 /\ a mod 8 = 0) as Hin.
  { intros a. assert (state_slots ≡ₚ map (Z.mul 8) (seqZ 0 83)) as ->
      by (apply (bool_decide_unpack _); vm_compute; done).
    change (map (Z.mul 8) (seqZ 0 83)) with (Z.mul 8 <$> seqZ 0 83).
    rewrite list_elem_of_fmap. unfold state_size. split.
    - intros (k & -> & Hk%elem_of_seqZ). split; [lia|]. by rewrite Z.mul_comm, Z.mod_mul.
    - intros [Ha Hm]. exists (a / 8). pose proof (Z.div_mod a 8). split; [lia|].
      apply elem_of_seqZ. lia. }
  split; [apply (bool_decide_unpack _); vm_compute; done|]. split; [done|].
  intros a b [Ha Ma]%Hin [Hb Mb]%Hin Hne.
  pose proof (Z.div_mod a 8). pose proof (Z.div_mod b 8). lia.
Qed.
