(* ===== verification/FlagSpec.v ===== *)
(** Reference semantics of the x86 arithmetic flags and the width-parametric
    lemmas that connect it to the bit tricks of [src/dbt/FlagHelpers.cpp].

    The specification is arithmetic: carries, borrows and signed overflow are
    stated on unbounded integers, parity on the low byte, and a flag update is
    one [commit] of the replaced bits into RFLAGS. *)
From S2P Require Import Prelude X86State.

(** ** Specification *)

Record flags := mkFlags { CF : bool; PF : bool; AF : bool; ZF : bool; SF : bool; OF : bool }.

Definition flag_if (c : bool) (flag : Z) : Z := if c then flag else 0.

Definition encode_flags (f : flags) : Z :=
  Z.lor (Z.lor (Z.lor (Z.lor (Z.lor (flag_if f.(CF) flagCarry) (flag_if f.(PF) flagParity))
    (flag_if f.(AF) flagAuxiliaryCarry)) (flag_if f.(ZF) flagZero))
    (flag_if f.(SF) flagSign)) (flag_if f.(OF) flagOverflow).

(** Replace the bits of [mask] in [old] by those of [f]; bit 1 reads as one. *)
Definition commit (mask : Z) (f : flags) (old : Z) : Z :=
  Z.lor (Z.lor (Z.land old (not64 mask)) flagReservedOne) (encode_flags f).

Lemma commit_testbit mask f old i : 0 <= i < 64 ->
  Z.testbit (commit mask f old) i =
  Z.testbit old i && negb (Z.testbit mask i) || (i =? 1) || Z.testbit (encode_flags f) i.
Proof.
  intros Hi. unfold commit, not64, u64. rewrite !Z.lor_spec, Z.land_spec, wrap_testbit,
    Z.lnot_spec by lia. unfold flagReservedOne. rewrite Z.pow2_bits_eqb by lia.
  rewrite (proj2 (Z.ltb_lt i 64)) by lia. by rewrite (Z.eqb_sym 1).
Qed.

Lemma encode_flags_CF f : Z.testbit (encode_flags f) 0 = f.(CF).
Proof. destruct f as [[] [] [] [] [] []]; reflexivity. Qed.

(** PF: an even number of one bits in the low byte. *)
Definition parity_even (x : Z) : bool :=
  negb (fold_right xorb false (map (fun i => Z.testbit x i) [0; 1; 2; 3; 4; 5; 6; 7])).

Definition signed_overflow (w x : Z) : bool := negb ((- 2 ^ (w - 1) <=? x) && (x <? 2 ^ (w - 1))).

(** Zero, sign and parity of a [w]-bit result, the part all families share. *)
Definition result_flags (w res : Z) (cf af oflow : bool) : flags :=
  mkFlags cf (parity_even res) af (res =? 0) (2 ^ (w - 1) <=? res) oflow.

Definition adc_spec (w l r c : Z) : flags :=
  result_flags w (wrap w (l + r + c)) (2 ^ w <=? l + r + c)
    (16 <=? l mod 16 + r mod 16 + c)
    (signed_overflow w (signed w l + signed w r + c)).
Definition add_spec (w l r : Z) : flags := adc_spec w l r 0.

(** AF of a subtraction with borrow is the borrow into bit 4 of [l - r - b]. *)
Definition sbb_spec (w l r b : Z) : flags :=
  result_flags w (wrap w (l - r - b)) (l <? r + b)
    (l mod 16 <? r mod 16 + b)
    (signed_overflow w (signed w l - signed w r - b)).
Definition sub_spec (w l r : Z) : flags := sbb_spec w l r 0.

Definition logic_spec (w res : Z) : flags := result_flags w res false false false.

(** Shifts by [1 <= c]: CF is the last bit shifted out, OF is defined for a
    one-bit shift only. *)
Definition shl_spec (w l c : Z) : flags :=
  let res := wrap w (l * 2 ^ c) in
  let cf := Z.odd (l * 2 ^ c / 2 ^ w) in
  result_flags w res cf false ((c =? 1) && xorb (2 ^ (w - 1) <=? res) cf).
Definition shr_spec (w l c : Z) : flags :=
  result_flags w (l / 2 ^ c) (Z.odd (l / 2 ^ (c - 1))) false
    ((c =? 1) && (2 ^ (w - 1) <=? l)).
Definition sar_spec (w l c : Z) : flags :=
  result_flags w (wrap w (signed w l / 2 ^ c)) (Z.odd (signed w l / 2 ^ (c - 1))) false false.
(** SHRD: bits of [high] enter from the left. *)
Definition shrd_result (w l high c : Z) : Z := wrap w ((l + high * 2 ^ w) / 2 ^ c).
Definition shrd_spec (w l high c : Z) : flags :=
  let res := shrd_result w l high c in
  result_flags w res (Z.odd (l / 2 ^ (c - 1))) false
    ((c =? 1) && xorb (2 ^ (w - 1) <=? l) (2 ^ (w - 1) <=? res)).

Definition rotl (w x c : Z) : Z := wrap w (x * 2 ^ c) + x / 2 ^ (w - c).
Definition rotr (w x c : Z) : Z := x / 2 ^ c + wrap w (x * 2 ^ (w - c)).

(** Bits a shift by [c] replaces: OF only when the count is one. *)
Definition shift_mask (c : Z) : Z :=
  Z.lor (Z.lor (Z.lor (Z.lor flagCarry flagParity) flagZero) flagSign)
    (flag_if (c =? 1) flagOverflow).
Definition rotate_mask (c : Z) : Z := Z.lor flagCarry (flag_if (c =? 1) flagOverflow).

(** ** [if (c) flags |= flag;] *)

Definition set_if (c : bool) (flag flags : Z) : Z := if c then Z.lor flags flag else flags.

Lemma set_if_lor c flag fl : set_if c flag fl = Z.lor fl (flag_if c flag).
Proof. destruct c; cbn; [done | by rewrite Z.lor_0_r]. Qed.

(** The chain of conditional ORs every helper ends with is one [commit]. *)
Lemma commit_chain mask old cf pf af zf sf oflow :
  set_if oflow flagOverflow (set_if sf flagSign (set_if zf flagZero
    (set_if af flagAuxiliaryCarry (set_if pf flagParity (set_if cf flagCarry
      (Z.lor (Z.land old (not64 mask)) flagReservedOne)))))) =
  commit mask (mkFlags cf pf af zf sf oflow) old.
Proof. rewrite !set_if_lor. unfold commit, encode_flags; cbn. by rewrite !Z.lor_assoc. Qed.

Lemma land_1_flag x n : 0 <= n -> Z.land (Z.shiftr x n) 1 = flag_if (Z.testbit x n) flagCarry.
Proof.
  intros Hn. change 1 with (Z.ones 1). rewrite Z.land_ones, Z.shiftr_div_pow2 by lia.
  change (2 ^ 1) with 2. rewrite Zmod_odd. unfold flag_if, flagCarry.
  rewrite Z.testbit_odd, Z.shiftr_div_pow2 by lia. done.
Qed.

(** ** Parity *)

Lemma parity_even_byte : forall b : Z, 0 <= b < 256 ->
  (popcount b mod 2 =? 0) = parity_even b.
Proof.
  assert (forallb (fun n => Bool.eqb (popcount (Z.of_nat n) mod 2 =? 0)
    (parity_even (Z.of_nat n))) (seq 0 256) = true) as H by (vm_compute; reflexivity).
  intros b Hb. rewrite forallb_forall in H. specialize (H (Z.to_nat b)).
  rewrite Z2Nat.id in H by lia. apply Bool.eqb_prop, H, in_seq. lia.
Qed.

Lemma parity_even_low x : parity_even (Z.land x 0xFF) = parity_even x.
Proof.
  unfold parity_even. do 2 f_equal. apply map_ext_in. intros i Hi.
  rewrite Z.land_spec. change 0xFF with (Z.ones 8).
  rewrite Z.ones_spec_low, andb_true_r; [done|].
  cbn in Hi. lia.
Qed.

Lemma popcount_low_parity x : (popcount (Z.land x 0xFF) mod 2 =? 0) = parity_even x.
Proof.
  rewrite <- parity_even_low. apply parity_even_byte.
  change 0xFF with (Z.ones 8). rewrite Z.land_ones by lia. apply Z.mod_pos_bound. lia.
Qed.

(** ** Sign bits *)

Lemma sign_land w x k : 0 < w -> in_range w x -> k = 2 ^ (w - 1) ->
  negb (Z.land x k =? 0) = (2 ^ (w - 1) <=? x).
Proof.
  intros Hw Hx ->. rewrite land_pow2_testbit, negb_involutive by lia. by apply testbit_msb.
Qed.

Lemma sign_shiftr w x k : 0 < w -> in_range w x -> k = w - 1 ->
  negb (Z.shiftr x k =? 0) = (2 ^ (w - 1) <=? x).
Proof. intros Hw Hx ->. by rewrite shiftr_msb, negb_involutive. Qed.

Lemma pow2_half w : 0 < w -> 2 ^ w = 2 * 2 ^ (w - 1).
Proof. intros. rewrite <- Z.pow_succ_r by lia. f_equal; lia. Qed.

(** ** Auxiliary carry: bit 4 of [l ^ r ^ (l + r + c)] *)

Lemma bit4 x : Z.testbit x 4 = (16 <=? x mod 32).
Proof.
  rewrite Z.testbit_eqb by lia. change (2 ^ 4) with 16.
  assert (x mod 32 = x mod 16 + 16 * ((x / 16) mod 2)) as ->
    by (rewrite <- Z.rem_mul_r by lia; reflexivity).
  pose proof (Z.mod_pos_bound x 16). pose proof (Z.mod_pos_bound (x / 16) 2).
  destruct (Z.eqb_spec ((x / 16) mod 2) 1), (Z.leb_spec 16 (x mod 16 + 16 * ((x / 16) mod 2))); lia.
Qed.

Lemma wrap_mod_small w x k : 0 <= k <= w -> wrap w x mod 2 ^ k = x mod 2 ^ k.
Proof.
  intros Hk. unfold wrap. replace (2 ^ w) with (2 ^ k * 2 ^ (w - k)).
  - rewrite Z.rem_mul_r, Z.mul_comm, Z_mod_plus_full by lia. apply Z.mod_mod. lia.
  - rewrite <- Z.pow_add_r by lia. f_equal. lia.
Qed.

Lemma aux_xor l r res : negb (Z.land (Z.lxor (Z.lxor l r) res) 0x10 =? 0) =
  xorb (xorb (16 <=? l mod 32) (16 <=? r mod 32)) (16 <=? res mod 32).
Proof.
  change 0x10 with (2 ^ 4). rewrite land_pow2_testbit, negb_involutive by lia.
  by rewrite !Z.lxor_spec, !bit4.
Qed.

Ltac solve_aux :=
  repeat match goal with
  | |- context [?a <=? ?b] => destruct (Z.leb_spec a b)
  | |- context [?a <? ?b] => destruct (Z.ltb_spec a b)
  end; cbn; try reflexivity; exfalso; Z.div_mod_to_equations; lia.

Lemma aux_add w l r c res : 5 <= w -> 0 <= c <= 1 -> wrap w res = wrap w (l + r + c) ->
  negb (Z.land (Z.lxor (Z.lxor l r) res) 0x10 =? 0) = (16 <=? l mod 16 + r mod 16 + c).
Proof.
  intros Hw Hc Hres. rewrite aux_xor.
  apply (f_equal (fun z => z mod 2 ^ 5)) in Hres. rewrite !wrap_mod_small in Hres by lia.
  change (2 ^ 5) with 32 in Hres. rewrite Hres. solve_aux.
Qed.

Lemma aux_sub w l r b res : 5 <= w -> 0 <= b <= 1 -> wrap w res = wrap w (l - r - b) ->
  negb (Z.land (Z.lxor (Z.lxor l r) res) 0x10 =? 0) = (l mod 16 <? r mod 16 + b).
Proof.
  intros Hw Hb Hres. rewrite aux_xor.
  apply (f_equal (fun z => z mod 2 ^ 5)) in Hres. rewrite !wrap_mod_small in Hres by lia.
  change (2 ^ 5) with 32 in Hres. rewrite Hres. solve_aux.
Qed.

(** ** Overflow: the sign-bit identities *)

Definition ovf_add (l r res : Z) : Z := Z.land (Z.lnot (Z.lxor l r)) (Z.lxor l res).
Definition ovf_sub (l r res : Z) : Z := Z.land (Z.lxor l r) (Z.lxor l res).

Lemma lxor_range w x y : 0 <= w -> in_range w x -> in_range w y -> in_range w (Z.lxor x y).
Proof.
  intros Hw [Hx Hx'] [Hy Hy']. split; [by rewrite Z.lxor_nonneg|].
  destruct (Z.eq_dec (Z.lxor x y) 0) as [->|Hne]; [lia|].
  assert (0 <= Z.lxor x y) by (by rewrite Z.lxor_nonneg).
  apply Z.log2_lt_pow2; [lia|].
  pose proof (Z.log2_lxor x y Hx Hy) as Hlog.
  destruct (Z.eq_dec x 0) as [->|], (Z.eq_dec y 0) as [->|]; cbn in *.
  - done.
  - rewrite Z.lxor_0_l in *. by apply Z.log2_lt_pow2; [lia|].
  - rewrite Z.lxor_0_r in *. by apply Z.log2_lt_pow2; [lia|].
  - assert (Z.log2 x < w) by (apply Z.log2_lt_pow2; lia).
    assert (Z.log2 y < w) by (apply Z.log2_lt_pow2; lia). lia.
Qed.

Lemma signed_msb w x : 0 < w -> in_range w x ->
  signed w x = x - (if Z.testbit x (w - 1) then 2 ^ w else 0).
Proof.
  intros Hw Hx. unfold signed. rewrite testbit_msb by done. case_if; lia.
Qed.

Ltac solve_cmp :=
  repeat match goal with
  | |- context [?a =? ?b] => destruct (Z.eqb_spec a b)
  | |- context [?a <=? ?b] => destruct (Z.leb_spec a b)
  | |- context [?a <? ?b] => destruct (Z.ltb_spec a b)
  end; cbn; try reflexivity; exfalso; lia.

Lemma wrap_cases w x : 0 < w -> - 2 ^ w <= x < 2 * 2 ^ w ->
  wrap w x = x \/ wrap w x = x - 2 ^ w \/ wrap w x = x + 2 ^ w.
Proof.
  intros Hw Hx. unfold wrap.
  assert (x < 0 \/ 0 <= x < 2 ^ w \/ 2 ^ w <= x) as [H|[H|H]] by lia.
  - right; right. symmetry. apply (Z.mod_unique_pos _ _ (-1)); lia.
  - left. apply Z.mod_small. lia.
  - right; left. symmetry. apply (Z.mod_unique_pos _ _ 1); lia.
Qed.

Lemma overflow_add w l r c res : 1 < w -> in_range w l -> in_range w r -> 0 <= c <= 1 ->
  res = wrap w (l + r + c) ->
  Z.testbit (ovf_add l r res) (w - 1) = signed_overflow w (signed w l + signed w r + c).
Proof.
  intros Hw Hl Hr Hc ->. unfold ovf_add, signed_overflow, signed.
  pose proof (wrap_range w (l + r + c)) as Hwr.
  rewrite Z.land_spec, Z.lnot_spec, !Z.lxor_spec, !testbit_msb by (lia || auto with lia).
  unfold in_range in *. pose proof (pow2_half w).
  destruct (wrap_cases w (l + r + c)) as [E|[E|E]]; [lia|lia|..]; rewrite E in *; solve_cmp.
Qed.

Lemma overflow_sub w l r b res : 1 < w -> in_range w l -> in_range w r -> 0 <= b <= 1 ->
  res = wrap w (l - r - b) ->
  Z.testbit (ovf_sub l r res) (w - 1) = signed_overflow w (signed w l - signed w r - b).
Proof.
  intros Hw Hl Hr Hc ->. unfold ovf_sub, signed_overflow, signed.
  pose proof (wrap_range w (l - r - b)) as Hwr.
  rewrite Z.land_spec, !Z.lxor_spec, !testbit_msb by (lia || auto with lia).
  unfold in_range in *. pose proof (pow2_half w).
  destruct (wrap_cases w (l - r - b)) as [E|[E|E]]; [lia|lia|..]; rewrite E in *; solve_cmp.
Qed.

(** Both ways the source tests the sign bit of an overflow word. *)
Lemma msb_land w x k : 0 < w -> k = 2 ^ (w - 1) ->
  negb (Z.land x k =? 0) = Z.testbit x (w - 1).
Proof. intros Hw ->. by rewrite land_pow2_testbit, negb_involutive by lia. Qed.

Lemma msb_shiftr w x k : 0 < w -> in_range w x -> k = w - 1 ->
  negb (Z.shiftr x k =? 0) = Z.testbit x (w - 1).
Proof. intros. rewrite (sign_shiftr w) by done. by rewrite testbit_msb. Qed.

Lemma ovf_add_range w l r res : 0 <= w -> in_range w l -> in_range w res ->
  in_range w (ovf_add l r res).
Proof. intros. apply land_range_r; [done|]. by apply lxor_range. Qed.

Lemma ovf_sub_range w l r res : 0 <= w -> in_range w l -> in_range w res ->
  in_range w (ovf_sub l r res).
Proof. intros. apply land_range_r; [done|]. by apply lxor_range. Qed.

(** ** Carries *)

Lemma carry_wrap_add w l r : 0 < w -> in_range w l -> in_range w r ->
  (wrap w (l + r) <? l) = (2 ^ w <=? l + r).
Proof.
  intros Hw Hl Hr. unfold in_range in *.
  destruct (wrap_cases w (l + r)) as [E|[E|E]]; [lia|lia|..];
    pose proof (wrap_range w (l + r)); unfold in_range in *; rewrite E in *; solve_cmp.
Qed.

Lemma carry_wrap_adc w l r c : 0 < w -> in_range w l -> in_range w r -> 0 <= c <= 1 ->
  (wrap w (l + r) <? l) || (wrap w (wrap w (l + r) + c) <? wrap w (l + r)) =
  (2 ^ w <=? l + r + c).
Proof.
  intros Hw Hl Hr Hc. pose proof (wrap_range w (l + r)) as H1.
  pose proof (pow2_half w Hw). assert (0 < 2 ^ (w - 1)) by lia.
  unfold in_range in *.
  destruct (wrap_cases w (wrap w (l + r) + c)) as [E'|[E'|E']]; [lia|lia|..];
    pose proof (wrap_range w (wrap w (l + r) + c)) as H2; unfold in_range in *; rewrite E' in *;
    destruct (wrap_cases w (l + r)) as [E|[E|E]]; try lia; rewrite E in *; solve_cmp.
Qed.

Lemma borrow_wrap_sbb w l r b : 0 < w -> in_range w l -> in_range w r -> 0 <= b <= 1 ->
  (wrap w (r + b) <? r) || (l <? wrap w (r + b)) = (l <? r + b).
Proof.
  intros Hw Hl Hr Hb. pose proof (wrap_range w (r + b)) as H1.
  pose proof (pow2_half w Hw). assert (0 < 2 ^ (w - 1)) by lia. unfold in_range in *.
  destruct (wrap_cases w (r + b)) as [E|[E|E]]; [lia|lia|..]; rewrite E in *; solve_cmp.
Qed.
