(* ===== verification/FlagHelpers.v ===== *)
(** The flag-update helpers of [src/dbt/FlagHelpers.cpp] and the templates of
    [src/dbt/FlagSemantics.h], one definition per function, and their
    correctness against [FlagSpec].

    Arguments are the raw 64-bit registers generated code passes; each narrow
    helper first truncates them as its C++ casts do.  [Z.lnot] stands for a
    complement that the source masks at once, where the unbounded and the
    fixed-width complement agree. *)
From S2P Require Import Prelude X86State FlagSpec.

(** ** Definitions *)

(** [__builtin_mul_overflow] on [w]-bit signed operands. *)
Definition mul_overflow (w x y : Z) : bool :=
  negb ((- 2 ^ (w - 1) <=? x * y) && (x * y <? 2 ^ (w - 1))).

Definition updateAddFlags64 (state : X86State) (lhs rhs result : Z) : X86State :=
  let flags := Z.lor (Z.land state.(rflags) (not64 arithmeticFlagMask)) flagReservedOne in
  let flags := set_if (result <? lhs) flagCarry flags in
  let flags := set_if (popcount (Z.land result 0xFF) mod 2 =? 0) flagParity flags in
  let flags := set_if (negb (Z.land (Z.lxor (Z.lxor lhs rhs) result) 0x10 =? 0)) flagAuxiliaryCarry flags in
  let flags := set_if (result =? 0) flagZero flags in
  let flags := set_if (negb (Z.shiftr result 63 =? 0)) flagSign flags in
  let flags := set_if (negb (Z.shiftr (Z.land (Z.lnot (Z.lxor lhs rhs)) (Z.lxor lhs result)) 63 =? 0)) flagOverflow flags in
  set_rflags flags state.

Definition updateAddFlags8 (state : X86State) (lhsValue rhsValue resultValue : Z) : X86State :=
  let lhs := u8 lhsValue in
  let rhs := u8 rhsValue in
  let result := u8 resultValue in
  let flags := Z.lor (Z.land state.(rflags) (not64 arithmeticFlagMask)) flagReservedOne in
  let flags := set_if (0xFF <? lhs + rhs) flagCarry flags in
  let flags := set_if (popcount result mod 2 =? 0) flagParity flags in
  let flags := set_if (negb (Z.land (Z.lxor (Z.lxor lhs rhs) result) 0x10 =? 0)) flagAuxiliaryCarry flags in
  let flags := set_if (result =? 0) flagZero flags in
  let flags := set_if (negb (Z.land result 0x80 =? 0)) flagSign flags in
  let flags := set_if (negb (Z.land (Z.land (Z.lnot (Z.lxor lhs rhs)) (Z.lxor lhs result)) 0x80 =? 0)) flagOverflow flags in
  set_rflags flags state.

Definition updateAddFlags16 (state : X86State) (lhsValue rhsValue resultValue : Z) : X86State :=
  let lhs := u16 lhsValue in
  let rhs := u16 rhsValue in
  let result := u16 resultValue in
  let flags := Z.lor (Z.land state.(rflags) (not64 arithmeticFlagMask)) flagReservedOne in
  let flags := set_if (0xFFFF <? lhs + rhs) flagCarry flags in
  let flags := set_if (popcount (Z.land result 0xFF) mod 2 =? 0) flagParity flags in
  let flags := set_if (negb (Z.land (Z.lxor (Z.lxor lhs rhs) result) 0x10 =? 0)) flagAuxiliaryCarry flags in
  let flags := set_if (result =? 0) flagZero flags in
  let flags := set_if (negb (Z.land result 0x8000 =? 0)) flagSign flags in
  let flags := set_if (negb (Z.land (Z.land (Z.lnot (Z.lxor lhs rhs)) (Z.lxor lhs result)) 0x8000 =? 0)) flagOverflow flags in
  set_rflags flags state.

Definition updateAddFlags32 (state : X86State) (lhsValue rhsValue resultValue : Z) : X86State :=
  let lhs := u32 lhsValue in
  let rhs := u32 rhsValue in
  let result := u32 resultValue in
  let flags := Z.lor (Z.land state.(rflags) (not64 arithmeticFlagMask)) flagReservedOne in
  let flags := set_if (0xFFFFFFFF <? lhs + rhs) flagCarry flags in
  let flags := set_if (popcount (Z.land result 0xFF) mod 2 =? 0) flagParity flags in
  let flags := set_if (negb (Z.land (Z.lxor (Z.lxor lhs rhs) result) 0x10 =? 0)) flagAuxiliaryCarry flags in
  let flags := set_if (result =? 0) flagZero flags in
  let flags := set_if (negb (Z.land result 0x80000000 =? 0)) flagSign flags in
  let flags := set_if (negb (Z.land (Z.land (Z.lnot (Z.lxor lhs rhs)) (Z.lxor lhs result)) 0x80000000 =? 0)) flagOverflow flags in
  set_rflags flags state.

Definition updateAdcFlags8 (state : X86State) (lhsValue rhsValue carryValue : Z) : X86State :=
  let lhs := u8 lhsValue in
  let rhs := u8 rhsValue in
  let carry := u8 (Z.land carryValue 1) in
  let wideResult := lhs + rhs + carry in
  let result := u8 wideResult in
  let flags := Z.lor (Z.land state.(rflags) (not64 arithmeticFlagMask)) flagReservedOne in
  let flags := set_if (0xFF <? wideResult) flagCarry flags in
  let flags := set_if (popcount result mod 2 =? 0) flagParity flags in
  let flags := set_if (0xF <? Z.land lhs 0xF + Z.land rhs 0xF + carry) flagAuxiliaryCarry flags in
  let flags := set_if (result =? 0) flagZero flags in
  let flags := set_if (negb (Z.land result 0x80 =? 0)) flagSign flags in
  let signedResult := signed 8 lhs + signed 8 rhs + carry in
  let flags := set_if ((2 ^ 7 - 1 <? signedResult) || (signedResult <? - 2 ^ 7)) flagOverflow flags in
  set_rflags flags state.

Definition updateAdcFlags32 (state : X86State) (lhsValue rhsValue carryValue : Z) : X86State :=
  let lhs := u32 lhsValue in
  let rhs := u32 rhsValue in
  let carry := u32 (Z.land carryValue 1) in
  let wideResult := lhs + rhs + carry in
  let result := u32 wideResult in
  let flags := Z.lor (Z.land state.(rflags) (not64 arithmeticFlagMask)) flagReservedOne in
  let flags := set_if (0xFFFFFFFF <? wideResult) flagCarry flags in
  let flags := set_if (popcount (Z.land result 0xFF) mod 2 =? 0) flagParity flags in
  let flags := set_if (0xF <? Z.land lhs 0xF + Z.land rhs 0xF + carry) flagAuxiliaryCarry flags in
  let flags := set_if (result =? 0) flagZero flags in
  let flags := set_if (negb (Z.land result 0x80000000 =? 0)) flagSign flags in
  let signedResult := signed 32 lhs + signed 32 rhs + carry in
  let flags := set_if ((2 ^ 31 - 1 <? signedResult) || (signedResult <? - 2 ^ 31)) flagOverflow flags in
  set_rflags flags state.

Definition updateAdcFlags64 (state : X86State) (lhs rhs carryValue : Z) : X86State :=
  let carry := Z.land carryValue 1 in
  let sum := u64 (lhs + rhs) in
  let result := u64 (sum + carry) in
  let flags := Z.lor (Z.land state.(rflags) (not64 arithmeticFlagMask)) flagReservedOne in
  let flags := set_if ((sum <? lhs) || (result <? sum)) flagCarry flags in
  let flags := set_if (popcount (Z.land result 0xFF) mod 2 =? 0) flagParity flags in
  let flags := set_if (0xF <? Z.land lhs 0xF + Z.land rhs 0xF + carry) flagAuxiliaryCarry flags in
  let flags := set_if (result =? 0) flagZero flags in
  let flags := set_if (negb (Z.shiftr result 63 =? 0)) flagSign flags in
  let flags := set_if (negb (Z.shiftr (Z.land (Z.lnot (Z.lxor lhs rhs)) (Z.lxor lhs result)) 63 =? 0)) flagOverflow flags in
  set_rflags flags state.

Definition updateSbbFlags8 (state : X86State) (lhsValue rhsValue borrowValue : Z) : X86State :=
  let lhs := u8 lhsValue in
  let rhs := u8 rhsValue in
  let borrow := u8 (Z.land borrowValue 1) in
  let wideSubtrahend := rhs + borrow in
  let result := u8 (lhs - wideSubtrahend) in
  let flags := Z.lor (Z.land state.(rflags) (not64 arithmeticFlagMask)) flagReservedOne in
  let flags := set_if (lhs <? wideSubtrahend) flagCarry flags in
  let flags := set_if (popcount result mod 2 =? 0) flagParity flags in
  let flags := set_if (negb (Z.land (Z.lxor (Z.lxor lhs rhs) result) 0x10 =? 0)) flagAuxiliaryCarry flags in
  let flags := set_if (result =? 0) flagZero flags in
  let flags := set_if (negb (Z.land result 0x80 =? 0)) flagSign flags in
  let flags := set_if (negb (Z.land (Z.land (Z.lxor lhs rhs) (Z.lxor lhs result)) 0x80 =? 0)) flagOverflow flags in
  set_rflags flags state.

Definition updateSbbFlags16 (state : X86State) (lhsValue rhsValue borrowValue : Z) : X86State :=
  let lhs := u16 lhsValue in
  let rhs := u16 rhsValue in
  let borrow := u16 (Z.land borrowValue 1) in
  let wideSubtrahend := rhs + borrow in
  let result := u16 (lhs - wideSubtrahend) in
  let flags := Z.lor (Z.land state.(rflags) (not64 arithmeticFlagMask)) flagReservedOne in
  let flags := set_if (lhs <? wideSubtrahend) flagCarry flags in
  let flags := set_if (popcount (Z.land result 0xFF) mod 2 =? 0) flagParity flags in
  let flags := set_if (negb (Z.land (Z.lxor (Z.lxor lhs rhs) result) 0x10 =? 0)) flagAuxiliaryCarry flags in
  let flags := set_if (result =? 0) flagZero flags in
  let flags := set_if (negb (Z.land result 0x8000 =? 0)) flagSign flags in
  let flags := set_if (negb (Z.land (Z.land (Z.lxor lhs rhs) (Z.lxor lhs result)) 0x8000 =? 0)) flagOverflow flags in
  set_rflags flags state.

Definition updateSbbFlags32 (state : X86State) (lhsValue rhsValue borrowValue : Z) : X86State :=
  let lhs := u32 lhsValue in
  let rhs := u32 rhsValue in
  let borrow := u32 (Z.land borrowValue 1) in
  let wideSubtrahend := rhs + borrow in
  let result := u32 (lhs - wideSubtrahend) in
  let flags := Z.lor (Z.land state.(rflags) (not64 arithmeticFlagMask)) flagReservedOne in
  let flags := set_if (lhs <? wideSubtrahend) flagCarry flags in
  let flags := set_if (popcount (Z.land result 0xFF) mod 2 =? 0) flagParity flags in
  let flags := set_if (negb (Z.land (Z.lxor (Z.lxor lhs rhs) result) 0x10 =? 0)) flagAuxiliaryCarry flags in
  let flags := set_if (result =? 0) flagZero flags in
  let flags := set_if (negb (Z.land result 0x80000000 =? 0)) flagSign flags in
  let flags := set_if (negb (Z.land (Z.land (Z.lxor lhs rhs) (Z.lxor lhs result)) 0x80000000 =? 0)) flagOverflow flags in
  set_rflags flags state.

Definition updateSbbFlags64 (state : X86State) (lhs rhs borrowValue : Z) : X86State :=
  let borrow := Z.land borrowValue 1 in
  let subtrahend := u64 (rhs + borrow) in
  let result := u64 (lhs - subtrahend) in
  let flags := Z.lor (Z.land state.(rflags) (not64 arithmeticFlagMask)) flagReservedOne in
  let flags := set_if ((subtrahend <? rhs) || (lhs <? subtrahend)) flagCarry flags in
  let flags := set_if (popcount (Z.land result 0xFF) mod 2 =? 0) flagParity flags in
  let flags := set_if (negb (Z.land (Z.lxor (Z.lxor lhs rhs) result) 0x10 =? 0)) flagAuxiliaryCarry flags in
  let flags := set_if (result =? 0) flagZero flags in
  let flags := set_if (negb (Z.shiftr result 63 =? 0)) flagSign flags in
  let flags := set_if (negb (Z.shiftr (Z.land (Z.lxor lhs rhs) (Z.lxor lhs result)) 63 =? 0)) flagOverflow flags in
  set_rflags flags state.

Definition updateIncFlags (w : Z) (state : X86State) (originalValue resultValue : Z) : X86State :=
  let original := wrap w originalValue in
  let result := wrap w resultValue in
  let flags := Z.lor (Z.land state.(rflags)
    (not64 (Z.land arithmeticFlagMask (not64 flagCarry)))) flagReservedOne in
  let flags := set_if (popcount (Z.land result 0xFF) mod 2 =? 0) flagParity flags in
  let flags := set_if (negb (Z.land (Z.lxor (Z.lxor original 1) result) 0x10 =? 0)) flagAuxiliaryCarry flags in
  let flags := set_if (result =? 0) flagZero flags in
  let signBit := 2 ^ (w - 1) in
  let flags := set_if (negb (Z.land result signBit =? 0)) flagSign flags in
  let flags := set_if (original =? wrap w (signBit - 1)) flagOverflow flags in
  set_rflags flags state.

Definition updateIncFlags32 := updateIncFlags 32.

Definition updateIncFlags16 := updateIncFlags 16.

Definition updateIncFlags8 := updateIncFlags 8.

Definition updateIncFlags64 := updateIncFlags 64.

Definition updateDecFlags (w : Z) (state : X86State) (originalValue resultValue : Z) : X86State :=
  let original := wrap w originalValue in
  let result := wrap w resultValue in
  let flags := Z.lor (Z.land state.(rflags)
    (not64 (Z.land arithmeticFlagMask (not64 flagCarry)))) flagReservedOne in
  let flags := set_if (popcount (Z.land result 0xFF) mod 2 =? 0) flagParity flags in
  let flags := set_if (negb (Z.land (Z.lxor (Z.lxor original 1) result) 0x10 =? 0)) flagAuxiliaryCarry flags in
  let flags := set_if (result =? 0) flagZero flags in
  let signBit := 2 ^ (w - 1) in
  let flags := set_if (negb (Z.land result signBit =? 0)) flagSign flags in
  let flags := set_if (original =? signBit) flagOverflow flags in
  set_rflags flags state.

Definition updateDecFlags32 := updateDecFlags 32.

Definition updateDecFlags16 := updateDecFlags 16.

Definition updateDecFlags8 := updateDecFlags 8.

Definition updateDecFlags64 := updateDecFlags 64.

Definition updateSubFlags64 (state : X86State) (lhs rhs result : Z) : X86State :=
  let flags := Z.lor (Z.land state.(rflags) (not64 arithmeticFlagMask)) flagReservedOne in
  let flags := set_if (lhs <? rhs) flagCarry flags in
  let flags := set_if (popcount (Z.land result 0xFF) mod 2 =? 0) flagParity flags in
  let flags := set_if (negb (Z.land (Z.lxor (Z.lxor lhs rhs) result) 0x10 =? 0)) flagAuxiliaryCarry flags in
  let flags := set_if (result =? 0) flagZero flags in
  let flags := set_if (negb (Z.shiftr result 63 =? 0)) flagSign flags in
  let flags := set_if (negb (Z.shiftr (Z.land (Z.lxor lhs rhs) (Z.lxor lhs result)) 63 =? 0)) flagOverflow flags in
  set_rflags flags state.

Definition updateSubFlags8 (state : X86State) (lhsValue rhsValue resultValue : Z) : X86State :=
  let lhs := u8 lhsValue in
  let rhs := u8 rhsValue in
  let result := u8 resultValue in
  let flags := Z.lor (Z.land state.(rflags) (not64 arithmeticFlagMask)) flagReservedOne in
  let flags := set_if (lhs <? rhs) flagCarry flags in
  let flags := set_if (popcount result mod 2 =? 0) flagParity flags in
  let flags := set_if (negb (Z.land (Z.lxor (Z.lxor lhs rhs) result) 0x10 =? 0)) flagAuxiliaryCarry flags in
  let flags := set_if (result =? 0) flagZero flags in
  let flags := set_if (negb (Z.shiftr result 7 =? 0)) flagSign flags in
  let flags := set_if (negb (Z.shiftr (Z.land (Z.lxor lhs rhs) (Z.lxor lhs result)) 7 =? 0)) flagOverflow flags in
  set_rflags flags state.

Definition updateSubFlags16 (state : X86State) (lhsValue rhsValue resultValue : Z) : X86State :=
  let lhs := u16 lhsValue in
  let rhs := u16 rhsValue in
  let result := u16 resultValue in
  let flags := Z.lor (Z.land state.(rflags) (not64 arithmeticFlagMask)) flagReservedOne in
  let flags := set_if (lhs <? rhs) flagCarry flags in
  let flags := set_if (popcount (Z.land result 0xFF) mod 2 =? 0) flagParity flags in
  let flags := set_if (negb (Z.land (Z.lxor (Z.lxor lhs rhs) result) 0x10 =? 0)) flagAuxiliaryCarry flags in
  let flags := set_if (result =? 0) flagZero flags in
  let flags := set_if (negb (Z.shiftr result 15 =? 0)) flagSign flags in
  let flags := set_if (negb (Z.shiftr (Z.land (Z.lxor lhs rhs) (Z.lxor lhs result)) 15 =? 0)) flagOverflow flags in
  set_rflags flags state.

Definition updateSubFlags32 (state : X86State) (lhsValue rhsValue resultValue : Z) : X86State :=
  let lhs := u32 lhsValue in
  let rhs := u32 rhsValue in
  let result := u32 resultValue in
  let flags := Z.lor (Z.land state.(rflags) (not64 arithmeticFlagMask)) flagReservedOne in
  let flags := set_if (lhs <? rhs) flagCarry flags in
  let flags := set_if (popcount (Z.land result 0xFF) mod 2 =? 0) flagParity flags in
  let flags := set_if (negb (Z.land (Z.lxor (Z.lxor lhs rhs) result) 0x10 =? 0)) flagAuxiliaryCarry flags in
  let flags := set_if (result =? 0) flagZero flags in
  let flags := set_if (negb (Z.shiftr result 31 =? 0)) flagSign flags in
  let flags := set_if (negb (Z.shiftr (Z.land (Z.lxor lhs rhs) (Z.lxor lhs result)) 31 =? 0)) flagOverflow flags in
  set_rflags flags state.

Definition updateLogicFlags64 (state : X86State) (result : Z) : X86State :=
  let flags := Z.lor (Z.land state.(rflags) (not64 arithmeticFlagMask)) flagReservedOne in
  let flags := set_if (popcount (Z.land result 0xFF) mod 2 =? 0) flagParity flags in
  let flags := set_if (result =? 0) flagZero flags in
  let flags := set_if (negb (Z.shiftr result 63 =? 0)) flagSign flags in
  set_rflags flags state.

Definition updateLogicFlags32 (state : X86State) (result : Z) : X86State :=
  let result32 := u32 result in
  let flags := Z.lor (Z.land state.(rflags) (not64 arithmeticFlagMask)) flagReservedOne in
  let flags := set_if (popcount (Z.land result32 0xFF) mod 2 =? 0) flagParity flags in
  let flags := set_if (result32 =? 0) flagZero flags in
  let flags := set_if (negb (Z.shiftr result32 31 =? 0)) flagSign flags in
  set_rflags flags state.

Definition updateLogicFlags16 (state : X86State) (result : Z) : X86State :=
  let result16 := u16 result in
  let flags := Z.lor (Z.land state.(rflags) (not64 arithmeticFlagMask)) flagReservedOne in
  let flags := set_if (popcount (Z.land result16 0xFF) mod 2 =? 0) flagParity flags in
  let flags := set_if (result16 =? 0) flagZero flags in
  let flags := set_if (negb (Z.shiftr result16 15 =? 0)) flagSign flags in
  set_rflags flags state.

Definition updateLogicFlags8 (state : X86State) (result : Z) : X86State :=
  let result8 := u8 result in
  let flags := Z.lor (Z.land state.(rflags) (not64 arithmeticFlagMask)) flagReservedOne in
  let flags := set_if (popcount result8 mod 2 =? 0) flagParity flags in
  let flags := set_if (result8 =? 0) flagZero flags in
  let flags := set_if (negb (Z.shiftr result8 7 =? 0)) flagSign flags in
  set_rflags flags state.

Definition updateShiftLeftFlags64 (state : X86State) (lhs result unmaskedCount : Z) : X86State :=
  let count := u8 (Z.land unmaskedCount 0x3F) in
  if count =? 0 then state else
  let replacedFlags := (Z.lor (Z.lor (Z.lor flagCarry flagParity) flagZero) flagSign) in
  let replacedFlags := set_if (count =? 1) flagOverflow replacedFlags in
  let flags := Z.lor (Z.land state.(rflags) (not64 replacedFlags)) flagReservedOne in
  let carry := Z.land (Z.shiftr lhs (64 - count)) 1 in
  let flags := Z.lor flags carry in
  let flags := set_if (popcount (Z.land result 0xFF) mod 2 =? 0) flagParity flags in
  let flags := set_if (result =? 0) flagZero flags in
  let flags := set_if (negb (Z.shiftr result 63 =? 0)) flagSign flags in
  let flags := set_if ((count =? 1) && negb (Z.lxor (Z.land (Z.shiftr result 63) 1) carry =? 0)) flagOverflow flags in
  set_rflags flags state.

Definition updateShiftLeftFlags32 (state : X86State) (lhsValue resultValue unmaskedCount : Z) : X86State :=
  let count := u8 (Z.land unmaskedCount 0x1F) in
  if count =? 0 then state else
  let lhs := u32 lhsValue in
  let result := u32 resultValue in
  let replacedFlags := (Z.lor (Z.lor (Z.lor flagCarry flagParity) flagZero) flagSign) in
  let replacedFlags := set_if (count =? 1) flagOverflow replacedFlags in
  let flags := Z.lor (Z.land state.(rflags) (not64 replacedFlags)) flagReservedOne in
  let carry := Z.land (Z.shiftr lhs (32 - count)) 1 in
  let flags := Z.lor flags carry in
  let flags := set_if (popcount (Z.land result 0xFF) mod 2 =? 0) flagParity flags in
  let flags := set_if (result =? 0) flagZero flags in
  let flags := set_if (negb (Z.shiftr result 31 =? 0)) flagSign flags in
  let flags := set_if ((count =? 1) && negb (Z.lxor (Z.land (Z.shiftr result 31) 1) carry =? 0)) flagOverflow flags in
  set_rflags flags state.

Definition updateShiftLeftFlags8 (state : X86State) (lhsValue resultValue unmaskedCount : Z) : X86State :=
  let count := u8 (Z.land unmaskedCount 0x1F) in
  if count =? 0 then state else
  let lhs := u8 lhsValue in
  let result := u8 resultValue in
  let replacedFlags := Z.lor (Z.lor flagParity flagZero) flagSign in
  let replacedFlags := set_if (count <? 8) flagCarry replacedFlags in
  let replacedFlags := set_if (count =? 1) flagOverflow replacedFlags in
  let flags := Z.lor (Z.land state.(rflags) (not64 replacedFlags)) flagReservedOne in
  let carry := if count <? 8 then Z.land (Z.shiftr lhs (8 - count)) 1 else 0 in
  let flags := if count <? 8 then Z.lor flags carry else flags in
  let flags := set_if (popcount result mod 2 =? 0) flagParity flags in
  let flags := set_if (result =? 0) flagZero flags in
  let flags := set_if (negb (Z.shiftr result 7 =? 0)) flagSign flags in
  let flags := set_if ((count =? 1) && negb (Z.lxor (Z.land (Z.shiftr result 7) 1) carry =? 0)) flagOverflow flags in
  set_rflags flags state.

Definition updateRotateLeftFlags16 (state : X86State) (resultValue unmaskedCount : Z) : X86State :=
  let count := u8 (Z.land unmaskedCount 0x1F) in
  let effectiveCount := u8 (count mod 16) in
  if effectiveCount =? 0 then state else
  let result := u16 resultValue in
  let replacedFlags := set_if (effectiveCount =? 1) flagOverflow flagCarry in
  let flags := Z.lor (Z.land state.(rflags) (not64 replacedFlags)) flagReservedOne in
  let carry := Z.land result 1 in
  let flags := Z.lor flags carry in
  let flags := set_if ((effectiveCount =? 1) && negb (Z.lxor (Z.land (Z.shiftr result 15) 1) carry =? 0)) flagOverflow flags in
  set_rflags flags state.

Definition updateRotateLeftFlags32 (state : X86State) (resultValue unmaskedCount : Z) : X86State :=
  let count := u8 (Z.land unmaskedCount 0x1F) in
  if count =? 0 then state else
  let result := u32 resultValue in
  let replacedFlags := flagCarry in
  let replacedFlags := set_if (count =? 1) flagOverflow replacedFlags in
  let flags := Z.lor (Z.land state.(rflags) (not64 replacedFlags)) flagReservedOne in
  let carry := Z.land result 1 in
  let flags := Z.lor flags carry in
  let flags := set_if ((count =? 1) && negb (Z.lxor (Z.land (Z.shiftr result 31) 1) carry =? 0)) flagOverflow flags in
  set_rflags flags state.

Definition updateRotateLeftFlags64 (state : X86State) (result unmaskedCount : Z) : X86State :=
  let count := u8 (Z.land unmaskedCount 0x3F) in
  if count =? 0 then state else
  let replacedFlags := flagCarry in
  let replacedFlags := set_if (count =? 1) flagOverflow replacedFlags in
  let flags := Z.lor (Z.land state.(rflags) (not64 replacedFlags)) flagReservedOne in
  let carry := Z.land result 1 in
  let flags := Z.lor flags carry in
  let flags := set_if ((count =? 1) && negb (Z.lxor (Z.land (Z.shiftr result 63) 1) carry =? 0)) flagOverflow flags in
  set_rflags flags state.

Definition updateRotateRightFlags64 (state : X86State) (result unmaskedCount : Z) : X86State :=
  let count := u8 (Z.land unmaskedCount 0x3F) in
  if count =? 0 then state else
  let replacedFlags := flagCarry in
  let replacedFlags := set_if (count =? 1) flagOverflow replacedFlags in
  let flags := Z.lor (Z.land state.(rflags) (not64 replacedFlags)) flagReservedOne in
  let flags := Z.lor flags (Z.shiftr result 63) in
  let flags := set_if ((count =? 1) && negb (Z.land (Z.lxor (Z.shiftr result 63) (Z.shiftr result 62)) 1 =? 0)) flagOverflow flags in
  set_rflags flags state.

Definition updateRotateRightFlags32 (state : X86State) (resultValue unmaskedCount : Z) : X86State :=
  let count := u8 (Z.land unmaskedCount 0x1F) in
  if count =? 0 then state else
  let result := u32 resultValue in
  let replacedFlags := flagCarry in
  let replacedFlags := set_if (count =? 1) flagOverflow replacedFlags in
  let flags := Z.lor (Z.land state.(rflags) (not64 replacedFlags)) flagReservedOne in
  let flags := Z.lor flags (Z.shiftr result 31) in
  let flags := set_if ((count =? 1) && negb (Z.land (Z.lxor (Z.shiftr result 31) (Z.shiftr result 30)) 1 =? 0)) flagOverflow flags in
  set_rflags flags state.

Definition updateShiftRightFlags8 (state : X86State) (lhsValue resultValue unmaskedCount : Z) : X86State :=
  let count := u8 (Z.land unmaskedCount 0x1F) in
  if count =? 0 then state else
  let lhs := u8 lhsValue in
  let result := u8 resultValue in
  let replacedFlags := (Z.lor (Z.lor (Z.lor flagCarry flagParity) flagZero) flagSign) in
  let replacedFlags := set_if (count =? 1) flagOverflow replacedFlags in
  let flags := Z.lor (Z.land state.(rflags) (not64 replacedFlags)) flagReservedOne in
  let flags := Z.lor flags (Z.land (Z.shiftr lhs (count - 1)) 1) in
  let flags := set_if (popcount result mod 2 =? 0) flagParity flags in
  let flags := set_if (result =? 0) flagZero flags in
  let flags := set_if (negb (Z.shiftr result 7 =? 0)) flagSign flags in
  let flags := set_if ((count =? 1) && negb (Z.shiftr lhs 7 =? 0)) flagOverflow flags in
  set_rflags flags state.

Definition updateShiftRightFlags32 (state : X86State) (lhsValue resultValue unmaskedCount : Z) : X86State :=
  let count := u8 (Z.land unmaskedCount 0x1F) in
  if count =? 0 then state else
  let lhs := u32 lhsValue in
  let result := u32 resultValue in
  let replacedFlags := (Z.lor (Z.lor (Z.lor flagCarry flagParity) flagZero) flagSign) in
  let replacedFlags := set_if (count =? 1) flagOverflow replacedFlags in
  let flags := Z.lor (Z.land state.(rflags) (not64 replacedFlags)) flagReservedOne in
  let flags := Z.lor flags (Z.land (Z.shiftr lhs (count - 1)) 1) in
  let flags := set_if (popcount (Z.land result 0xFF) mod 2 =? 0) flagParity flags in
  let flags := set_if (result =? 0) flagZero flags in
  let flags := set_if (negb (Z.shiftr result 31 =? 0)) flagSign flags in
  let flags := set_if ((count =? 1) && negb (Z.shiftr lhs 31 =? 0)) flagOverflow flags in
  set_rflags flags state.

Definition updateShiftRightFlags64 (state : X86State) (lhs result unmaskedCount : Z) : X86State :=
  let count := u8 (Z.land unmaskedCount 0x3F) in
  if count =? 0 then state else
  let replacedFlags := (Z.lor (Z.lor (Z.lor flagCarry flagParity) flagZero) flagSign) in
  let replacedFlags := set_if (count =? 1) flagOverflow replacedFlags in
  let flags := Z.lor (Z.land state.(rflags) (not64 replacedFlags)) flagReservedOne in
  let flags := Z.lor flags (Z.land (Z.shiftr lhs (count - 1)) 1) in
  let flags := set_if (popcount (Z.land result 0xFF) mod 2 =? 0) flagParity flags in
  let flags := set_if (result =? 0) flagZero flags in
  let flags := set_if (negb (Z.shiftr result 63 =? 0)) flagSign flags in
  let flags := set_if ((count =? 1) && negb (Z.shiftr lhs 63 =? 0)) flagOverflow flags in
  set_rflags flags state.

Definition updateShiftRightArithmeticFlags32 (state : X86State) (lhsValue resultValue unmaskedCount : Z) : X86State :=
  let count := u8 (Z.land unmaskedCount 0x1F) in
  if count =? 0 then state else
  let lhs := u32 lhsValue in
  let result := u32 resultValue in
  let replacedFlags := (Z.lor (Z.lor (Z.lor flagCarry flagParity) flagZero) flagSign) in
  let replacedFlags := set_if (count =? 1) flagOverflow replacedFlags in
  let flags := Z.lor (Z.land state.(rflags) (not64 replacedFlags)) flagReservedOne in
  let flags := Z.lor flags (Z.land (Z.shiftr lhs (count - 1)) 1) in
  let flags := set_if (popcount (Z.land result 0xFF) mod 2 =? 0) flagParity flags in
  let flags := set_if (result =? 0) flagZero flags in
  let flags := set_if (negb (Z.shiftr result 31 =? 0)) flagSign flags in
  set_rflags flags state.

Definition updateShiftRightArithmeticFlags64 (state : X86State) (lhs result unmaskedCount : Z) : X86State :=
  let count := u8 (Z.land unmaskedCount 0x3F) in
  if count =? 0 then state else
  let replacedFlags := (Z.lor (Z.lor (Z.lor flagCarry flagParity) flagZero) flagSign) in
  let replacedFlags := set_if (count =? 1) flagOverflow replacedFlags in
  let flags := Z.lor (Z.land state.(rflags) (not64 replacedFlags)) flagReservedOne in
  let flags := Z.lor flags (Z.land (Z.shiftr lhs (count - 1)) 1) in
  let flags := set_if (popcount (Z.land result 0xFF) mod 2 =? 0) flagParity flags in
  let flags := set_if (result =? 0) flagZero flags in
  let flags := set_if (negb (Z.shiftr result 63 =? 0)) flagSign flags in
  set_rflags flags state.

Definition updateMultiplyFlags64 (state : X86State) (high : Z) : X86State :=
  let flags := Z.lor (Z.land state.(rflags) (not64 (Z.lor flagCarry flagOverflow))) flagReservedOne in
  let flags := set_if (negb (high =? 0)) (Z.lor flagCarry flagOverflow) flags in
  set_rflags flags state.

Definition updateSignedMultiplyFlags64 (state : X86State) (lhs rhs : Z) : X86State :=
  let overflow := mul_overflow 64 (signed 64 lhs) (signed 64 rhs) in
  let flags := Z.lor (Z.land state.(rflags) (not64 (Z.lor flagCarry flagOverflow))) flagReservedOne in
  let flags := set_if overflow (Z.lor flagCarry flagOverflow) flags in
  set_rflags flags state.

Definition updateSignedMultiplyFlags32 (state : X86State) (lhs rhs : Z) : X86State :=
  let overflow := mul_overflow 32 (signed 32 (u32 lhs)) (signed 32 (u32 rhs)) in
  let flags := Z.lor (Z.land state.(rflags) (not64 (Z.lor flagCarry flagOverflow))) flagReservedOne in
  let flags := set_if overflow (Z.lor flagCarry flagOverflow) flags in
  set_rflags flags state.

Definition updateBitTestFlags32 (state : X86State) (value unmaskedBitIndex : Z) : X86State :=
  let bitIndex := u8 (Z.land unmaskedBitIndex 0x1F) in
  let flags := Z.lor (Z.land state.(rflags) (not64 flagCarry)) flagReservedOne in
  let flags := Z.lor flags (Z.land (Z.shiftr value bitIndex) 1) in
  set_rflags flags state.

Definition updateBitTestFlags64 (state : X86State) (value unmaskedBitIndex : Z) : X86State :=
  let bitIndex := u8 (Z.land unmaskedBitIndex 0x3F) in
  let flags := Z.lor (Z.land state.(rflags) (not64 flagCarry)) flagReservedOne in
  let flags := Z.lor flags (Z.land (Z.shiftr value bitIndex) 1) in
  set_rflags flags state.

Definition updateShiftRightDoubleFlags64 (state : X86State) (original result unmaskedCount : Z) : X86State :=
  let count := u8 (Z.land unmaskedCount 0x3F) in
  if count =? 0 then state else
  let replacedFlags := (Z.lor (Z.lor (Z.lor flagCarry flagParity) flagZero) flagSign) in
  let replacedFlags := set_if (count =? 1) flagOverflow replacedFlags in
  let flags := Z.lor (Z.land state.(rflags) (not64 replacedFlags)) flagReservedOne in
  let flags := Z.lor flags (Z.land (Z.shiftr original (count - 1)) 1) in
  let flags := set_if (popcount (Z.land result 0xFF) mod 2 =? 0) flagParity flags in
  let flags := set_if (result =? 0) flagZero flags in
  let flags := set_if (negb (Z.shiftr result 63 =? 0)) flagSign flags in
  let flags := set_if ((count =? 1) && negb (Z.land (Z.shiftr (Z.lxor original result) 63) 1 =? 0)) flagOverflow flags in
  set_rflags flags state.

(** ** Automation *)

(** Evaluate constant powers of two. *)
Ltac pow2_consts :=
  repeat match goal with
  | |- context [2 ^ ?k] =>
      let v := eval vm_compute in (2 ^ k) in
      lazymatch v with Zpos _ => change (2 ^ k) with v end
  end.

Ltac cmp_consts := pow2_consts; solve_cmp.

Lemma wrap64 x : in_range 64 x -> wrap 64 x = x.
Proof. apply wrap_small. Qed.

Lemma carry_bit x : 0 <= Z.land x 1 <= 1.
Proof.
  replace (Z.land x 1) with (x mod 2) by (symmetry; apply (Z.land_ones x 1); lia).
  pose proof (Z.mod_pos_bound x 2). lia.
Qed.

Lemma wrap_carry w c : 0 < w -> 0 <= c <= 1 -> wrap w c = c.
Proof.
  intros Hw Hc. apply wrap_small. unfold in_range.
  pose proof (pow2_half w Hw). assert (0 < 2 ^ (w - 1)) by lia. lia.
Qed.

Lemma land_15 x : Z.land x 0xF = x mod 16.
Proof. by apply (Z.land_ones x 4). Qed.

Lemma wrap_add_l w x y : wrap w (wrap w x + y) = wrap w (x + y).
Proof. apply Zplus_mod_idemp_l. Qed.
Lemma wrap_add_r w x y : wrap w (x + wrap w y) = wrap w (x + y).
Proof. apply Zplus_mod_idemp_r. Qed.
Lemma wrap_sub_l w x y : wrap w (wrap w x - y) = wrap w (x - y).
Proof. apply Zminus_mod_idemp_l. Qed.
Lemma wrap_sub_r w x y : wrap w (x - wrap w y) = wrap w (x - y).
Proof. apply Zminus_mod_idemp_r. Qed.
Lemma wrap_wrap w x : wrap w (wrap w x) = wrap w x.
Proof. unfold wrap. apply Zmod_mod. Qed.

Create Rewrite HintDb wrap_norm.
#[export] Hint Rewrite wrap_add_l wrap_add_r wrap_sub_l wrap_sub_r wrap_wrap : wrap_norm.

Lemma wrap_word w x : 0 < w <= 64 -> in_range w (wrap w x).
Proof. intros. apply wrap_range. lia. Qed.
Create HintDb flag_range.
#[local] Hint Resolve wrap_word ovf_add_range ovf_sub_range : flag_range.
#[local] Hint Extern 4 (_ < _) => lia : flag_range.
#[local] Hint Extern 4 (_ <= _) => lia : flag_range.

Ltac fold_casts :=
  try change u8 with (wrap 8); try change u16 with (wrap 16);
  try change u32 with (wrap 32); try change u64 with (wrap 64).

(** One field of a flag record at width [w]: parity, sign, auxiliary carry or
    signed overflow; comparisons are left to [cmp_consts]. *)
Ltac flag_field w :=
  lazymatch goal with
  | |- (popcount (Z.land _ _) mod 2 =? 0) = _ => apply popcount_low_parity
  | |- (popcount _ mod 2 =? 0) = _ =>
      apply parity_even_byte; apply (wrap_range 8); lia
  | |- negb (Z.land (Z.lxor _ _) 0x10 =? 0) = (16 <=? _) =>
      apply (aux_add w); [lia | lia | autorewrite with wrap_norm; eassumption || reflexivity]
  | |- negb (Z.land (Z.lxor _ _) 0x10 =? 0) = (_ <? _) =>
      apply (aux_sub w); [lia | lia | autorewrite with wrap_norm; eassumption || reflexivity]
  | |- negb (Z.land _ _ =? 0) = (2 ^ _ <=? _) =>
      apply (sign_land w); [lia | solve [auto with flag_range] | reflexivity]
  | |- negb (Z.shiftr _ _ =? 0) = (2 ^ _ <=? _) =>
      apply (sign_shiftr w); [lia | solve [auto with flag_range] | reflexivity]
  | |- negb (Z.land (Z.land (Z.lnot _) _) _ =? 0) = signed_overflow _ _ =>
      etrans; [apply (msb_land w); [lia | reflexivity]
              | apply overflow_add; auto with flag_range lia]
  | |- negb (Z.shiftr (Z.land (Z.lnot _) _) _ =? 0) = signed_overflow _ _ =>
      etrans; [apply (msb_shiftr w); [lia | apply ovf_add_range; auto with flag_range | reflexivity]
              | apply overflow_add; auto with flag_range lia]
  | |- negb (Z.land (Z.land _ _) _ =? 0) = signed_overflow _ _ =>
      etrans; [apply (msb_land w); [lia | reflexivity]
              | apply overflow_sub; auto with flag_range lia]
  | |- negb (Z.shiftr (Z.land _ _) _ =? 0) = signed_overflow _ _ =>
      etrans; [apply (msb_shiftr w); [lia | apply ovf_sub_range; auto with flag_range | reflexivity]
              | apply overflow_sub; auto with flag_range lia]
  | |- (?x =? 0) = (?x =? 0) => reflexivity
  | |- ?b = ?b => reflexivity
  | |- _ => idtac
  end.

(** Turn a helper into one [commit] and split the flag record. *)
Ltac flag_commit w :=
  cbv zeta; rewrite ?commit_chain; f_equal; f_equal; f_equal; flag_field w.

(** ** Addition, with and without carry *)

Definition flags_result (mask : Z) (f : flags) (st : X86State) : X86State :=
  set_rflags (commit mask f st.(rflags)) st.

Section AddFlags.
Context (st : X86State) (l r res : Z).

Definition add_correct (w : Z) (helper : X86State -> Z -> Z -> Z -> X86State) : Prop :=
    wrap w res = wrap w (l + r) ->
    helper st l r res = flags_result arithmeticFlagMask (add_spec w (wrap w l) (wrap w r)) st.

Ltac add_case w :=
    intros He; unfold flags_result, add_spec, adc_spec, result_flags; fold_casts;
    assert (wrap w res = wrap w (wrap w l + wrap w r + 0)) as Hw
      by (rewrite Z.add_0_r; autorewrite with wrap_norm; exact He);
    pose proof (wrap_word w l) as Hl'; pose proof (wrap_word w r) as Hr'; rewrite <- ?Hw.

Lemma updateAddFlags8_eq : add_correct 8 updateAddFlags8.
Proof using Type.
    unfold add_correct, updateAddFlags8. add_case 8. flag_commit 8.
    unfold in_range in *; cmp_consts.
  Qed.

Lemma updateAddFlags16_eq : add_correct 16 updateAddFlags16.
Proof using Type.
    unfold add_correct, updateAddFlags16. add_case 16. flag_commit 16.
    unfold in_range in *; cmp_consts.
  Qed.

Lemma updateAddFlags32_eq : add_correct 32 updateAddFlags32.
Proof using Type.
    unfold add_correct, updateAddFlags32. add_case 32. flag_commit 32.
    unfold in_range in *; cmp_consts.
  Qed.

Lemma updateAddFlags64_eq : in_range 64 l -> in_range 64 r -> in_range 64 res ->
    add_correct 64 updateAddFlags64.
Proof using Type.
    intros Hl Hr Hres. unfold add_correct, updateAddFlags64. add_case 64.
    rewrite (wrap64 l), (wrap64 r) in * by done. pose proof Hw as Hw'.
    rewrite (wrap64 res) in Hw' |- * by done.
    flag_commit 64. rewrite Hw', Z.add_0_r. by apply carry_wrap_add.
  Qed.
End AddFlags.

Section AdcFlags.
Context (st : X86State) (l r cin : Z).

Definition adc_correct (w : Z) (helper : X86State -> Z -> Z -> Z -> X86State) : Prop :=
    helper st l r cin =
    flags_result arithmeticFlagMask (adc_spec w (wrap w l) (wrap w r) (Z.land cin 1)) st.

Ltac adc_case w :=
    unfold flags_result, adc_spec, result_flags; fold_casts;
    pose proof (wrap_word w l) as Hl'; pose proof (wrap_word w r) as Hr';
    pose proof (carry_bit cin) as Hc; set (c := Z.land cin 1) in *;
    rewrite ?(wrap_carry w c) by lia.

Ltac adc_rest :=
    unfold in_range, signed_overflow in *; rewrite ?land_15; cmp_consts.

Lemma updateAdcFlags8_eq : adc_correct 8 updateAdcFlags8.
Proof using Type.
    unfold adc_correct, updateAdcFlags8. adc_case 8. flag_commit 8; adc_rest.
  Qed.

Lemma updateAdcFlags32_eq : adc_correct 32 updateAdcFlags32.
Proof using Type.
    unfold adc_correct, updateAdcFlags32. adc_case 32. flag_commit 32; adc_rest.
  Qed.

Lemma updateAdcFlags64_eq : in_range 64 l -> in_range 64 r ->
    adc_correct 64 updateAdcFlags64.
Proof using Type.
    intros Hl Hr. unfold adc_correct, updateAdcFlags64. adc_case 64.
    rewrite (wrap64 l), (wrap64 r) in * by done.
    assert (wrap 64 (wrap 64 (l + r) + c) = wrap 64 (l + r + c)) as Hw
      by (autorewrite with wrap_norm; done).
    cbv zeta. rewrite Hw. flag_commit 64; [|adc_rest].
    rewrite <- Hw. by apply carry_wrap_adc.
  Qed.
End AdcFlags.

(** ** Subtraction, with and without borrow *)

Section SubFlags.
Context (st : X86State) (l r res : Z).

Definition sub_correct (w : Z) (helper : X86State -> Z -> Z -> Z -> X86State) : Prop :=
    wrap w res = wrap w (l - r) ->
    helper st l r res = flags_result arithmeticFlagMask (sub_spec w (wrap w l) (wrap w r)) st.

Ltac sub_case w :=
    intros He; unfold flags_result, sub_spec, sbb_spec, result_flags; fold_casts;
    assert (wrap w res = wrap w (wrap w l - wrap w r - 0)) as Hw
      by (rewrite Z.sub_0_r; autorewrite with wrap_norm; exact He);
    pose proof (wrap_word w l) as Hl'; pose proof (wrap_word w r) as Hr'; rewrite <- ?Hw.

Lemma updateSubFlags8_eq : sub_correct 8 updateSubFlags8.
Proof using Type.
    unfold sub_correct, updateSubFlags8. sub_case 8. flag_commit 8. by rewrite Z.add_0_r.
  Qed.

Lemma updateSubFlags16_eq : sub_correct 16 updateSubFlags16.
Proof using Type.
    unfold sub_correct, updateSubFlags16. sub_case 16. flag_commit 16. by rewrite Z.add_0_r.
  Qed.

Lemma updateSubFlags32_eq : sub_correct 32 updateSubFlags32.
Proof using Type.
    unfold sub_correct, updateSubFlags32. sub_case 32. flag_commit 32. by rewrite Z.add_0_r.
  Qed.

Lemma updateSubFlags64_eq : in_range 64 l -> in_range 64 r -> in_range 64 res ->
    sub_correct 64 updateSubFlags64.
Proof using Type.
    intros Hl Hr Hres. unfold sub_correct, updateSubFlags64. sub_case 64.
    rewrite (wrap64 l), (wrap64 r) in * by done. pose proof Hw as Hw'.
    rewrite (wrap64 res) in Hw' |- * by done.
    flag_commit 64. by rewrite Z.add_0_r.
  Qed.
End SubFlags.

Section SbbFlags.
Context (st : X86State) (l r bin : Z).

Definition sbb_correct (w : Z) (helper : X86State -> Z -> Z -> Z -> X86State) : Prop :=
    helper st l r bin =
    flags_result arithmeticFlagMask (sbb_spec w (wrap w l) (wrap w r) (Z.land bin 1)) st.

Ltac sbb_case w :=
    unfold flags_result, sbb_spec, result_flags; fold_casts;
    pose proof (wrap_word w l) as Hl'; pose proof (wrap_word w r) as Hr';
    pose proof (carry_bit bin) as Hb; set (b := Z.land bin 1) in *;
    rewrite ?(wrap_carry w b) by lia; cbv zeta; rewrite ?Z.sub_add_distr.

Lemma updateSbbFlags8_eq : sbb_correct 8 updateSbbFlags8.
Proof using Type. unfold sbb_correct, updateSbbFlags8. sbb_case 8. flag_commit 8. Qed.

Lemma updateSbbFlags16_eq : sbb_correct 16 updateSbbFlags16.
Proof using Type. unfold sbb_correct, updateSbbFlags16. sbb_case 16. flag_commit 16. Qed.

Lemma updateSbbFlags32_eq : sbb_correct 32 updateSbbFlags32.
Proof using Type. unfold sbb_correct, updateSbbFlags32. sbb_case 32. flag_commit 32. Qed.

Lemma updateSbbFlags64_eq : in_range 64 l -> in_range 64 r ->
    sbb_correct 64 updateSbbFlags64.
Proof using Type.
    intros Hl Hr. unfold sbb_correct, updateSbbFlags64. sbb_case 64.
    rewrite (wrap64 l), (wrap64 r) in * by done.
    assert (wrap 64 (l - wrap 64 (r + b)) = wrap 64 (l - r - b)) as Hw
      by (autorewrite with wrap_norm; f_equal; lia).
    rewrite Hw. flag_commit 64. by apply borrow_wrap_sbb.
  Qed.
End SbbFlags.

(** ** Increment and decrement: CF is preserved *)

Definition inc_dec_mask : Z := Z.land arithmeticFlagMask (not64 flagCarry).

(** INC is ADD 1, DEC is SUB 1, without their carry. *)
Definition clear_CF (f : flags) : flags := mkFlags false f.(PF) f.(AF) f.(ZF) f.(SF) f.(OF).
Definition inc_spec (w x : Z) : flags := clear_CF (add_spec w x 1).
Definition dec_spec (w x : Z) : flags := clear_CF (sub_spec w x 1).

Lemma commit_chain_nocarry mask old pf af zf sf oflow :
  set_if oflow flagOverflow (set_if sf flagSign (set_if zf flagZero
    (set_if af flagAuxiliaryCarry (set_if pf flagParity
      (Z.lor (Z.land old (not64 mask)) flagReservedOne))))) =
  commit mask (mkFlags false pf af zf sf oflow) old.
Proof. apply (commit_chain mask old false). Qed.

Section IncDecFlags.
Context (st : X86State) (x res w : Z) (Hw : 5 <= w <= 64).

Lemma signed_1 : signed w 1 = 1.
Proof using Hw.
    pose proof (Z.pow_le_mono_r 2 4 (w - 1)) as H. change (2 ^ 4) with 16 in H.
    unfold signed. destruct (Z.leb_spec (2 ^ (w - 1)) 1); [lia|done].
  Qed.

Ltac inc_dec_case :=
    unfold flags_result, inc_spec, dec_spec, add_spec, sub_spec, adc_spec, sbb_spec,
      result_flags, clear_CF, inc_dec_mask; cbn [CF PF AF ZF SF OF];
    pose proof (wrap_word w x ltac:(lia)) as Hx; pose proof (pow2_half w);
    pose proof (Z.pow_le_mono_r 2 4 (w - 1)) as H16; change (2 ^ 4) with 16 in H16.

Lemma updateIncFlags_eq : wrap w res = wrap w (x + 1) ->
    updateIncFlags w st x res = flags_result inc_dec_mask (inc_spec w (wrap w x)) st.
Proof using Hw.
    intros He. unfold updateIncFlags. inc_dec_case.
    assert (wrap w res = wrap w (wrap w x + 1 + 0)) as Hr
      by (rewrite Z.add_0_r; autorewrite with wrap_norm; done).
    cbv zeta. rewrite commit_chain_nocarry, <- !Hr. f_equal; f_equal; f_equal; flag_field w.
    unfold signed_overflow. rewrite signed_1. unfold signed, in_range in *.
    rewrite (wrap_small w (2 ^ (w - 1) - 1)) by (split; lia). solve_cmp.
  Qed.

Lemma updateDecFlags_eq : wrap w res = wrap w (x - 1) ->
    updateDecFlags w st x res = flags_result inc_dec_mask (dec_spec w (wrap w x)) st.
Proof using Hw.
    intros He. unfold updateDecFlags. inc_dec_case.
    assert (wrap w res = wrap w (wrap w x - 1 - 0)) as Hr
      by (rewrite Z.sub_0_r; autorewrite with wrap_norm; done).
    cbv zeta. rewrite commit_chain_nocarry, <- !Hr. f_equal; f_equal; f_equal; flag_field w.
    unfold signed_overflow. rewrite signed_1. unfold signed, in_range in *. solve_cmp.
  Qed.
End IncDecFlags.

(** ** Logic results *)

Lemma updateLogicFlags_chain mask old pf zf sf :
  set_if sf flagSign (set_if zf flagZero (set_if pf flagParity
    (Z.lor (Z.land old (not64 mask)) flagReservedOne))) =
  commit mask (mkFlags false pf false zf sf false) old.
Proof. apply (commit_chain mask old false pf false zf sf false). Qed.

Definition logic_correct (w : Z) (helper : X86State -> Z -> X86State) (st : X86State)
    (res : Z) : Prop :=
  helper st res = flags_result arithmeticFlagMask (logic_spec w (wrap w res)) st.

Ltac logic_case w :=
  unfold logic_correct, flags_result, logic_spec, result_flags; fold_casts;
  pose proof (wrap_word w); cbv zeta; rewrite updateLogicFlags_chain;
  f_equal; f_equal; f_equal; flag_field w.

Lemma updateLogicFlags8_eq st res : logic_correct 8 updateLogicFlags8 st res.
Proof. unfold updateLogicFlags8. logic_case 8. Qed.
Lemma updateLogicFlags16_eq st res : logic_correct 16 updateLogicFlags16 st res.
Proof. unfold updateLogicFlags16. logic_case 16. Qed.
Lemma updateLogicFlags32_eq st res : logic_correct 32 updateLogicFlags32 st res.
Proof. unfold updateLogicFlags32. logic_case 32. Qed.
Lemma updateLogicFlags64_eq st res : in_range 64 res -> logic_correct 64 updateLogicFlags64 st res.
Proof.
  intros Hr. unfold updateLogicFlags64, logic_correct. rewrite (wrap64 res) by done.
  logic_case 64.
Qed.

(** ** Shifts *)

Lemma masked_count cnt k : 0 <= k <= 8 -> u8 (Z.land cnt (Z.ones k)) = cnt mod 2 ^ k.
Proof.
  intros Hk. rewrite Z.land_ones by lia. apply wrap_small. unfold in_range.
  pose proof (Z.mod_pos_bound cnt (2 ^ k)). pose proof (Z.pow_le_mono_r 2 k 8). lia.
Qed.

Lemma shift_chain mask old cf pf zf sf oflow :
  set_if oflow flagOverflow (set_if sf flagSign (set_if zf flagZero (set_if pf flagParity
    (Z.lor (Z.lor (Z.land old (not64 mask)) flagReservedOne) (flag_if cf flagCarry))))) =
  commit mask (mkFlags cf pf false zf sf oflow) old.
Proof. rewrite <- set_if_lor. apply (commit_chain mask old cf pf false). Qed.

Lemma sar_chain mask old cf pf zf sf :
  set_if sf flagSign (set_if zf flagZero (set_if pf flagParity
    (Z.lor (Z.lor (Z.land old (not64 mask)) flagReservedOne) (flag_if cf flagCarry)))) =
  commit mask (mkFlags cf pf false zf sf false) old.
Proof. apply (shift_chain mask old cf pf zf sf false). Qed.

Lemma rotate_chain mask old cf oflow :
  set_if oflow flagOverflow
    (Z.lor (Z.lor (Z.land old (not64 mask)) flagReservedOne) (flag_if cf flagCarry)) =
  commit mask (mkFlags cf false false false false oflow) old.
Proof. apply (shift_chain mask old cf false false false). Qed.

Lemma odd_shift x n : 0 <= n -> Z.odd (x / 2 ^ n) = Z.testbit x n.
Proof. intros. by rewrite Z.testbit_odd, Z.shiftr_div_pow2. Qed.

Lemma bit0_flag x : Z.land x 1 = flag_if (Z.odd x) flagCarry.
Proof. apply (land_1_flag x 0). lia. Qed.

Lemma shiftr_flag w x k : 0 < w -> in_range w x -> k = w - 1 ->
  Z.shiftr x k = flag_if (2 ^ (w - 1) <=? x) flagCarry.
Proof.
  intros Hw Hx ->. pose proof (pow2_half w Hw). unfold in_range in *.
  rewrite Z.shiftr_div_pow2 by lia. unfold flag_if, flagCarry.
  destruct (Z.leb_spec (2 ^ (w - 1)) x).
  - symmetry. apply (Z.div_unique_pos _ _ _ (x - 2 ^ (w - 1))); lia.
  - apply Z.div_small. lia.
Qed.

Lemma lxor_flags a b :
  negb (Z.lxor (flag_if a flagCarry) (flag_if b flagCarry) =? 0) = xorb a b.
Proof. by destruct a, b. Qed.

Lemma msb_bit w x k : 0 < w -> in_range w x -> k = w - 1 ->
  Z.testbit x k = (2 ^ (w - 1) <=? x).
Proof. intros Hw Hx ->. by apply testbit_msb. Qed.

(** The last bit a left shift moves out of a [w]-bit word. *)
Lemma shl_out w l c : 0 <= c <= w -> Z.odd (l * 2 ^ c / 2 ^ w) = Z.testbit l (w - c).
Proof.
  intros Hc. rewrite <- odd_shift by lia. f_equal.
  replace (2 ^ w) with (2 ^ (w - c) * 2 ^ c) by (rewrite <- Z.pow_add_r by lia; f_equal; lia).
  apply Z.div_mul_cancel_r; lia.
Qed.

Lemma signed_testbit w l i : 0 <= i < w -> Z.testbit (signed w l) i = Z.testbit l i.
Proof.
  intros Hi. unfold signed. case_if; [|done].
  rewrite <- (Z.mod_pow2_bits_low (l - 2 ^ w) w), <- (Z.mod_pow2_bits_low l w) by lia.
  f_equal. rewrite <- (Z_mod_plus_full (l - 2 ^ w) 1 (2 ^ w)). f_equal. lia.
Qed.

Lemma wrap_shl_out w l c : 0 <= w <= c -> wrap w (l * 2 ^ c) = 0.
Proof.
  intros Hc. unfold wrap. replace (2 ^ c) with (2 ^ (c - w) * 2 ^ w)
    by (rewrite <- Z.pow_add_r by lia; f_equal; lia).
  rewrite Z.mul_assoc. apply Z_mod_mult.
Qed.

Definition masked (w cnt : Z) : Z := if w =? 64 then cnt mod 64 else cnt mod 32.

(** A shift or rotate helper: count zero leaves the state alone, otherwise the
    masked bits are replaced by [f]. *)
Definition shift_effect (c mask : Z) (f : flags) (st : X86State) : X86State :=
  if c =? 0 then st else flags_result mask f st.

Ltac shift_case w k :=
  fold_casts; cbv zeta; change (wrap 8 (Z.land ?c (Z.ones k))) with (u8 (Z.land c (Z.ones k)));
  unfold shift_effect, flags_result.

Section Shifts.
Context (st : X86State) (l res cnt : Z).

  (** The helpers mask the count with [0x3F] or [0x1F]. *)
Lemma count_64 : u8 (Z.land cnt 0x3F) = masked 64 cnt.
Proof using Type. by apply (masked_count cnt 6). Qed.
Lemma count_32 w : w <> 64 -> u8 (Z.land cnt 0x1F) = masked w cnt.
Proof using Type.
    intros Hw. unfold masked. rewrite (proj2 (Z.eqb_neq w 64)) by done.
    by apply (masked_count cnt 5).
  Qed.

Lemma bound_64 : 0 <= masked 64 cnt < 64.
Proof using Type. apply (Z.mod_pos_bound cnt 64). lia. Qed.
Lemma bound_32 w : w <> 64 -> 0 <= masked w cnt < 32.
Proof using Type.
    intros Hw. unfold masked. rewrite (proj2 (Z.eqb_neq w 64)) by done.
    apply Z.mod_pos_bound. lia.
  Qed.

Definition shl_correct (w : Z) (helper : X86State -> Z -> Z -> Z -> X86State) : Prop :=
    let c := masked w cnt in
    wrap w res = wrap w (l * 2 ^ c) ->
    helper st l res cnt = shift_effect c (shift_mask c) (shl_spec w (wrap w l) c) st.
Definition shr_correct (w : Z) (helper : X86State -> Z -> Z -> Z -> X86State) : Prop :=
    let c := masked w cnt in
    wrap w res = wrap w l / 2 ^ c ->
    helper st l res cnt = shift_effect c (shift_mask c) (shr_spec w (wrap w l) c) st.
Definition sar_correct (w : Z) (helper : X86State -> Z -> Z -> Z -> X86State) : Prop :=
    let c := masked w cnt in
    wrap w res = wrap w (signed w (wrap w l) / 2 ^ c) ->
    helper st l res cnt = shift_effect c (shift_mask c) (sar_spec w (wrap w l) c) st.

Ltac shift_start w Hcount Hbound :=
    let He := fresh "He" in
    intros He; cbv zeta; rewrite Hcount by lia;
    pose proof Hbound as Hb; try specialize (Hb ltac:(lia));
    set (c := masked w cnt) in *; unfold shift_effect, flags_result, shift_mask;
    destruct (Z.eqb_spec c 0) as [|Hc0]; [reflexivity|];
    fold_casts; pose proof (wrap_word w l) as Hl; pose proof (wrap_word w res) as Hr;
    rewrite ?(set_if_lor (c =? 1) flagOverflow).
Ltac shift_fields w :=
    rewrite ?land_1_flag by lia; rewrite ?shift_chain, ?sar_chain; f_equal; f_equal; f_equal; flag_field w.

Lemma wrap_mul_pow w x c : wrap w (wrap w x * 2 ^ c) = wrap w (x * 2 ^ c).
Proof using Type. apply Zmult_mod_idemp_l. Qed.

  (** The fields of SHL once the helper is a [commit]. *)
Ltac shl_finish w He :=
    unfold shl_spec, result_flags; rewrite shl_out, ?wrap_mul_pow, <- He by lia;
    shift_fields w; rewrite lxor_flags, (msb_bit w); auto with flag_range.

Lemma updateShiftLeftFlags32_eq : shl_correct 32 updateShiftLeftFlags32.
Proof using Type.
    unfold shl_correct, updateShiftLeftFlags32. shift_start 32 (count_32 32) (bound_32 32).
    shl_finish 32 He.
  Qed.

Lemma updateShiftLeftFlags64_eq : in_range 64 l -> in_range 64 res ->
    shl_correct 64 updateShiftLeftFlags64.
Proof using Type.
    intros Hl' Hr'. unfold shl_correct, updateShiftLeftFlags64. shift_start 64 count_64 bound_64.
    rewrite (wrap64 res Hr'), (wrap64 l Hl') in *. shl_finish 64 He.
  Qed.

  (** An 8-bit operand may be shifted by 8..31: the carry is undefined there
      and the helper preserves it. *)
Definition shl8_mask (c : Z) : Z :=
    if c <? 8 then shift_mask c else Z.lor (Z.lor flagParity flagZero) flagSign.
Definition shl8_spec (x c : Z) : flags :=
    if c <? 8 then shl_spec 8 x c else logic_spec 8 0.

Lemma updateShiftLeftFlags8_eq :
    let c := masked 8 cnt in
    wrap 8 res = wrap 8 (l * 2 ^ c) ->
    updateShiftLeftFlags8 st l res cnt =
    shift_effect c (shl8_mask c) (shl8_spec (wrap 8 l) c) st.
Proof using Type.
    unfold updateShiftLeftFlags8, shl8_mask, shl8_spec.
    shift_start 8 (count_32 8) (bound_32 8). destruct (Z.ltb_spec c 8); cbn [set_if].
    - shl_finish 8 He.
    - rewrite wrap_shl_out in He by lia. rewrite He, (proj2 (Z.eqb_neq c 1)) by lia.
      cbn [flag_if andb set_if]. rewrite Z.lor_0_r. apply (f_equal (fun z => set_rflags z st)).
      apply (updateLogicFlags_chain _ _ true true false).
  Qed.

Ltac shr_finish w He :=
    unfold shr_spec, result_flags; rewrite odd_shift, <- He by lia;
    shift_fields w; f_equal; flag_field w.

Lemma updateShiftRightFlags8_eq : shr_correct 8 updateShiftRightFlags8.
Proof using Type.
    unfold shr_correct, updateShiftRightFlags8. shift_start 8 (count_32 8) (bound_32 8).
    shr_finish 8 He.
  Qed.

Lemma updateShiftRightFlags32_eq : shr_correct 32 updateShiftRightFlags32.
Proof using Type.
    unfold shr_correct, updateShiftRightFlags32. shift_start 32 (count_32 32) (bound_32 32).
    shr_finish 32 He.
  Qed.

Lemma updateShiftRightFlags64_eq : in_range 64 l -> in_range 64 res ->
    shr_correct 64 updateShiftRightFlags64.
Proof using Type.
    intros Hl' Hr'. unfold shr_correct, updateShiftRightFlags64. shift_start 64 count_64 bound_64.
    rewrite (wrap64 res Hr'), (wrap64 l Hl') in *. shr_finish 64 He.
  Qed.

Ltac sar_finish w He :=
    unfold sar_spec, result_flags; rewrite odd_shift, signed_testbit, <- He by lia; shift_fields w.

Lemma updateShiftRightArithmeticFlags32_eq : sar_correct 32 updateShiftRightArithmeticFlags32.
Proof using Type.
    unfold sar_correct, updateShiftRightArithmeticFlags32.
    shift_start 32 (count_32 32) (bound_32 32). sar_finish 32 He.
  Qed.

Lemma updateShiftRightArithmeticFlags64_eq : in_range 64 l -> in_range 64 res ->
    sar_correct 64 updateShiftRightArithmeticFlags64.
Proof using Type.
    intros Hl' Hr'. unfold sar_correct, updateShiftRightArithmeticFlags64.
    shift_start 64 count_64 bound_64.
    rewrite (wrap64 res Hr'), (wrap64 l Hl') in *. sar_finish 64 He.
  Qed.

  (** SHRD: the helper sees the original destination and the result only. *)
Lemma updateShiftRightDoubleFlags64_eq high : in_range 64 l -> in_range 64 res ->
    let c := masked 64 cnt in
    res = shrd_result 64 l high c ->
    updateShiftRightDoubleFlags64 st l res cnt =
    shift_effect c (shift_mask c) (shrd_spec 64 l high c) st.
Proof using Type.
    intros Hl' Hr'. unfold updateShiftRightDoubleFlags64. shift_start 64 count_64 bound_64.
    rewrite (wrap64 res Hr'), (wrap64 l Hl') in *.
    unfold shrd_spec, result_flags. rewrite odd_shift, <- He by lia. shift_fields 64.
    rewrite Z.lxor_spec, !(msb_bit 64) by auto with flag_range lia.
    by destruct (c =? 1), (xorb _ _).
  Qed.
End Shifts.

(** ** Rotates *)

Definition rol_spec (w x c : Z) : flags :=
  let cf := Z.odd (x * 2 ^ c / 2 ^ w) in
  mkFlags cf false false false false ((c =? 1) && xorb (2 ^ (w - 1) <=? rotl w x c) cf).
Definition ror_spec (w x c : Z) : flags :=
  let res := rotr w x c in
  mkFlags (Z.odd (x / 2 ^ (c - 1))) false false false false
    ((c =? 1) && xorb (2 ^ (w - 1) <=? res) (Z.testbit res (w - 2))).

(** The bit rotated out is the low bit of the result of a left rotate ... *)
Lemma rotl_low w x c : 0 < c < w -> Z.odd (rotl w x c) = Z.testbit x (w - c).
Proof.
  intros Hc. unfold rotl. rewrite Z.odd_add, odd_shift, <- Z.bit0_odd by lia.
  rewrite wrap_testbit, Z.mul_pow2_bits_low by lia. by rewrite andb_false_r.
Qed.

(** ... and the top bit of the result of a right rotate. *)
Lemma rotr_msb w x c : 0 < c < w -> in_range w x ->
  (2 ^ (w - 1) <=? rotr w x c) = Z.testbit x (c - 1).
Proof.
  intros Hc Hx. unfold rotr.
  assert (wrap w (x * 2 ^ (w - c)) = (x mod 2 ^ c) * 2 ^ (w - c)) as ->.
  { unfold wrap. replace (2 ^ w) with (2 ^ c * 2 ^ (w - c))
      by (rewrite <- Z.pow_add_r by lia; f_equal; lia).
    apply Zmult_mod_distr_r. }
  assert (0 <= x / 2 ^ c < 2 ^ (w - c)).
  { unfold in_range in Hx. split; [apply Z.div_pos; lia|]. apply Z.div_lt_upper_bound; [lia|].
    rewrite <- Z.pow_add_r by lia. replace (c + (w - c)) with w by lia. lia. }
  assert (2 ^ (w - 1) = 2 ^ (c - 1) * 2 ^ (w - c)) as ->
    by (rewrite <- Z.pow_add_r by lia; f_equal; lia).
  replace (Z.testbit x (c - 1)) with (2 ^ (c - 1) <=? x mod 2 ^ c).
  - generalize dependent (x / 2 ^ c). generalize (2 ^ (c - 1)), (2 ^ (w - c)), (x mod 2 ^ c).
    intros a b m q Hq.
    destruct (Z.leb_spec (a * b) (q + m * b)), (Z.leb_spec a m); try done; exfalso; nia.
  - rewrite <- (testbit_msb c) by (lia || (apply Z.mod_pos_bound; lia)).
    apply Z.mod_pow2_bits_low. lia.
Qed.

Lemma xor_low x i j : 0 <= i -> 0 <= j ->
  negb (Z.land (Z.lxor (Z.shiftr x i) (Z.shiftr x j)) 1 =? 0) =
  xorb (Z.testbit x i) (Z.testbit x j).
Proof.
  intros Hi Hj. rewrite bit0_flag, <- Z.bit0_odd, Z.lxor_spec, !Z.shiftr_spec, !Z.add_0_l by lia.
  by destruct (xorb _ _).
Qed.

Section Rotates.
Context (st : X86State) (x res cnt : Z).

Definition rol_correct (w c : Z) (helper : X86State -> Z -> Z -> X86State) : Prop :=
    wrap w res = rotl w (wrap w x) c ->
    helper st res cnt = shift_effect c (rotate_mask c) (rol_spec w (wrap w x) c) st.
Definition ror_correct (w c : Z) (helper : X86State -> Z -> Z -> X86State) : Prop :=
    wrap w res = rotr w (wrap w x) c ->
    helper st res cnt = shift_effect c (rotate_mask c) (ror_spec w (wrap w x) c) st.

Ltac rotate_start w c Hcount :=
    let He := fresh "He" in
    intros He; cbv zeta; rewrite Hcount;
    unfold shift_effect, flags_result, rotate_mask;
    destruct (Z.eqb_spec c 0) as [|Hc0]; [reflexivity|];
    fold_casts; pose proof (wrap_word w x) as Hx; pose proof (wrap_word w res) as Hr;
    rewrite ?(set_if_lor (c =? 1) flagOverflow).
Ltac rol_finish w He :=
    unfold rol_spec; rewrite land_1_flag, bit0_flag, shl_out, <- He by lia;
    rewrite rotate_chain, lxor_flags, (msb_bit w) by auto with flag_range;
    rewrite He, rotl_low by lia; reflexivity.
Ltac ror_finish w He :=
    unfold ror_spec; rewrite odd_shift, <- He, xor_low by lia;
    rewrite (shiftr_flag w) by auto with flag_range;
    rewrite rotate_chain; f_equal; f_equal; f_equal;
    [rewrite He; apply rotr_msb; auto with flag_range lia
    |rewrite (msb_bit w) by auto with flag_range; reflexivity].

Lemma updateRotateLeftFlags32_eq : rol_correct 32 (masked 32 cnt) updateRotateLeftFlags32.
Proof using Type.
    unfold rol_correct, updateRotateLeftFlags32. pose proof (bound_32 cnt 32 ltac:(lia)).
    rotate_start 32 (masked 32 cnt) (count_32 cnt 32 ltac:(lia)). rol_finish 32 He.
  Qed.

Lemma updateRotateLeftFlags64_eq : in_range 64 res -> rol_correct 64 (masked 64 cnt) updateRotateLeftFlags64.
Proof using Type.
    intros Hr'. unfold rol_correct, updateRotateLeftFlags64. pose proof (bound_64 cnt).
    rotate_start 64 (masked 64 cnt) (count_64 cnt).
    rewrite (wrap64 res Hr') in *. rol_finish 64 He.
  Qed.

Lemma updateRotateRightFlags32_eq : ror_correct 32 (masked 32 cnt) updateRotateRightFlags32.
Proof using Type.
    unfold ror_correct, updateRotateRightFlags32. pose proof (bound_32 cnt 32 ltac:(lia)).
    rotate_start 32 (masked 32 cnt) (count_32 cnt 32 ltac:(lia)).
    ror_finish 32 He.
  Qed.

Lemma updateRotateRightFlags64_eq : in_range 64 res -> ror_correct 64 (masked 64 cnt) updateRotateRightFlags64.
Proof using Type.
    intros Hr'. unfold ror_correct, updateRotateRightFlags64. pose proof (bound_64 cnt).
    rotate_start 64 (masked 64 cnt) (count_64 cnt).
    rewrite (wrap64 res Hr') in *. ror_finish 64 He.
  Qed.

  (** The 16-bit rotate reduces the count modulo 16 first. *)
Lemma updateRotateLeftFlags16_eq : rol_correct 16 (masked 16 cnt mod 16) updateRotateLeftFlags16.
Proof using Type.
    intros He. unfold updateRotateLeftFlags16. cbv zeta. rewrite (count_32 cnt 16) by lia.
    pose proof (Z.mod_pos_bound (masked 16 cnt) 16).
    rewrite (u8_small (masked 16 cnt mod 16)) by lia.
    set (c := masked 16 cnt mod 16) in *. unfold shift_effect, flags_result, rotate_mask.
    destruct (Z.eqb_spec c 0) as [|Hc0]; [reflexivity|].
    fold_casts; pose proof (wrap_word 16 x) as Hx; pose proof (wrap_word 16 res) as Hr.
    rewrite ?(set_if_lor (c =? 1) flagOverflow). rol_finish 16 He.
  Qed.
End Rotates.

(** ** Multiplication and bit tests *)

Definition mul_mask : Z := Z.lor flagCarry flagOverflow.
Definition mul_spec (overflow : bool) : flags := mkFlags overflow false false false false overflow.
Definition bt_spec (bit : bool) : flags := mkFlags bit false false false false false.

Lemma mul_chain old o :
  set_if o mul_mask (Z.lor (Z.land old (not64 mul_mask)) flagReservedOne) =
  commit mul_mask (mul_spec o) old.
Proof. rewrite set_if_lor. unfold commit. f_equal. by destruct o. Qed.

Lemma bt_chain old b :
  Z.lor (Z.lor (Z.land old (not64 flagCarry)) flagReservedOne) (flag_if b flagCarry) =
  commit flagCarry (bt_spec b) old.
Proof. unfold commit. f_equal. by destruct b. Qed.

Lemma updateBitTestFlags64_eq st value index : updateBitTestFlags64 st value index =
  flags_result flagCarry (bt_spec (Z.testbit value (index mod 64))) st.
Proof.
  unfold updateBitTestFlags64. cbv zeta. rewrite (count_64 index : u8 (Z.land index 0x3F) = index mod 64).
  pose proof (Z.mod_pos_bound index 64). rewrite land_1_flag, bt_chain by lia. done.
Qed.

Lemma updateBitTestFlags32_eq st value index : updateBitTestFlags32 st value index =
  flags_result flagCarry (bt_spec (Z.testbit value (index mod 32))) st.
Proof.
  unfold updateBitTestFlags32. cbv zeta.
  rewrite (count_32 index 32 ltac:(lia) : u8 (Z.land index 0x1F) = index mod 32).
  pose proof (Z.mod_pos_bound index 32). rewrite land_1_flag, bt_chain by lia. done.
Qed.

(** ** Properties *)

(** The ADD helper of every width commits exactly the six arithmetic flags
    of [l + r] at that width (carry, parity, auxiliary carry, zero, sign and
    signed overflow) and preserves every other RFLAGS bit, whatever the
    registers hold above the operand width. *)
Theorem updateAddFlags_correct w helper :
  In (w, helper) [(8, updateAddFlags8); (16, updateAddFlags16);
                  (32, updateAddFlags32); (64, updateAddFlags64)] ->
  forall st l r res, in_range 64 l -> in_range 64 r -> in_range 64 res ->
  wrap w res = wrap w (l + r) ->
  helper st l r res = flags_result arithmeticFlagMask (add_spec w (wrap w l) (wrap w r)) st.
Proof.
  intros Hin st l r res Hl Hr Hres.
  destruct Hin as [E|[E|[E|[E|[]]]]]; injection E as <- <-;
    [apply updateAddFlags8_eq | apply updateAddFlags16_eq | apply updateAddFlags32_eq
    | by apply updateAddFlags64_eq].
Qed.

Lemma updateAddFlags_correct_witness :
  updateAddFlags8 initialState 0xFF 0x1 0x100 =
  flags_result arithmeticFlagMask (add_spec 8 (wrap 8 0xFF) (wrap 8 0x1)) initialState.
Proof.
  apply (updateAddFlags_correct 8 updateAddFlags8); [left; reflexivity | | | |];
    try (unfold in_range; lia). reflexivity.
Defined.

(** The SUB/CMP helper of every width commits exactly the six arithmetic
    flags of [l - r] at that width and preserves every other RFLAGS bit. *)
Theorem updateSubFlags_correct w helper :
  In (w, helper) [(8, updateSubFlags8); (16, updateSubFlags16);
                  (32, updateSubFlags32); (64, updateSubFlags64)] ->
  forall st l r res, in_range 64 l -> in_range 64 r -> in_range 64 res ->
  wrap w res = wrap w (l - r) ->
  helper st l r res = flags_result arithmeticFlagMask (sub_spec w (wrap w l) (wrap w r)) st.
Proof.
  intros Hin st l r res Hl Hr Hres.
  destruct Hin as [E|[E|[E|[E|[]]]]]; injection E as <- <-;
    [apply updateSubFlags8_eq | apply updateSubFlags16_eq | apply updateSubFlags32_eq
    | by apply updateSubFlags64_eq].
Qed.

Lemma updateSubFlags_correct_witness :
  updateSubFlags32 initialState 0 1 0xFFFFFFFFFFFFFFFF =
  flags_result arithmeticFlagMask (sub_spec 32 (wrap 32 0) (wrap 32 1)) initialState.
Proof.
  apply (updateSubFlags_correct 32 updateSubFlags32); [right; right; left; reflexivity | | | |];
    try (unfold in_range; lia). reflexivity.
Defined.

(** The ADC and SBB helpers of every implemented width compute the flags of
    [l + r + carry] and [l - r - borrow] from the operands and the low bit of
    the carry register alone. *)
Theorem updateAdcSbbFlags_correct w adc sbb :
  In (w, adc, sbb) [(8, updateAdcFlags8, updateSbbFlags8);
                    (32, updateAdcFlags32, updateSbbFlags32);
                    (64, updateAdcFlags64, updateSbbFlags64)] ->
  forall st l r c, in_range 64 l -> in_range 64 r ->
  adc st l r c =
    flags_result arithmeticFlagMask (adc_spec w (wrap w l) (wrap w r) (Z.land c 1)) st /\
  sbb st l r c =
    flags_result arithmeticFlagMask (sbb_spec w (wrap w l) (wrap w r) (Z.land c 1)) st /\
  updateSbbFlags16 st l r c =
    flags_result arithmeticFlagMask (sbb_spec 16 (wrap 16 l) (wrap 16 r) (Z.land c 1)) st.
Proof.
  intros Hin st l r c Hl Hr. split_and!; [..|apply updateSbbFlags16_eq].
  - destruct Hin as [E|[E|[E|[]]]]; injection E as <- <- <-;
      [apply updateAdcFlags8_eq | apply updateAdcFlags32_eq | by apply updateAdcFlags64_eq].
  - destruct Hin as [E|[E|[E|[]]]]; injection E as <- <- <-;
      [apply updateSbbFlags8_eq | apply updateSbbFlags32_eq | by apply updateSbbFlags64_eq].
Qed.

Lemma updateAdcSbbFlags_correct_witness :
  updateSbbFlags64 initialState 0 (2 ^ 64 - 1) 1 =
  flags_result arithmeticFlagMask (sbb_spec 64 (wrap 64 0) (wrap 64 (2 ^ 64 - 1)) (Z.land 1 1))
    initialState.
Proof.
  apply (updateAdcSbbFlags_correct 64 updateAdcFlags64 updateSbbFlags64);
    [right; right; left; reflexivity | unfold in_range; lia | unfold in_range; lia].
Defined.

(** INC and DEC set the flags of adding or subtracting one but leave CF
    as it was, at all four widths. *)
Theorem updateIncDecFlags_correct w inc dec :
  In (w, inc, dec) [(8, updateIncFlags8, updateDecFlags8);
                    (16, updateIncFlags16, updateDecFlags16);
                    (32, updateIncFlags32, updateDecFlags32);
                    (64, updateIncFlags64, updateDecFlags64)] ->
  forall st x up down, wrap w up = wrap w (x + 1) -> wrap w down = wrap w (x - 1) ->
  inc st x up = flags_result inc_dec_mask (inc_spec w (wrap w x)) st /\
  dec st x down = flags_result inc_dec_mask (dec_spec w (wrap w x)) st /\
  Z.testbit (inc st x up).(rflags) 0 = Z.testbit st.(rflags) 0.
Proof.
  intros Hin st x up down Hup Hdown.
  assert (inc = updateIncFlags w /\ dec = updateDecFlags w /\ 5 <= w <= 64) as (-> & -> & Hw).
  { destruct Hin as [E|[E|[E|[E|[]]]]]; injection E as <- <- <-; split_and!; done. }
  rewrite updateIncFlags_eq, updateDecFlags_eq by done. split_and!; [done|done|].
  unfold flags_result; cbn [rflags set_rflags]. rewrite commit_testbit, encode_flags_CF by lia.
  change (Z.testbit inc_dec_mask 0) with false. cbn. by rewrite andb_true_r, !orb_false_r.
Qed.

Lemma updateIncDecFlags_correct_witness :
  updateDecFlags16 initialState 0x8000 0x7FFF =
  flags_result inc_dec_mask (dec_spec 16 (wrap 16 0x8000)) initialState.
Proof.
  apply (updateIncDecFlags_correct 16 updateIncFlags16 updateDecFlags16
    ltac:(right; left; reflexivity) initialState 0x8000 0x8001 0x7FFF); reflexivity.
Defined.

(** The logic helpers clear CF, OF and AF and set PF, ZF and SF from the
    result truncated to the operand width. *)
Theorem updateLogicFlags_correct w helper :
  In (w, helper) [(8, updateLogicFlags8); (16, updateLogicFlags16);
                  (32, updateLogicFlags32); (64, updateLogicFlags64)] ->
  forall st res, in_range 64 res ->
  helper st res = flags_result arithmeticFlagMask (logic_spec w (wrap w res)) st.
Proof.
  intros Hin st res Hres.
  destruct Hin as [E|[E|[E|[E|[]]]]]; injection E as <- <-;
    [apply updateLogicFlags8_eq | apply updateLogicFlags16_eq | apply updateLogicFlags32_eq
    | by apply updateLogicFlags64_eq].
Qed.

Lemma updateLogicFlags_correct_witness :
  updateLogicFlags16 initialState 0x18000 =
  flags_result arithmeticFlagMask (logic_spec 16 (wrap 16 0x18000)) initialState.
Proof.
  apply (updateLogicFlags_correct 16 updateLogicFlags16);
    [right; left; reflexivity | unfold in_range; lia].
Defined.

(** SHL, SHR and SAR helpers: a masked count of zero leaves the state
    alone; otherwise CF is the last bit shifted out, PF, ZF and SF describe the
    result, OF is written for a count of one only and AF is preserved. *)
Theorem updateShiftFlags_correct w shl shr sar :
  In (w, shl, shr, sar)
    [(32, updateShiftLeftFlags32, updateShiftRightFlags32, updateShiftRightArithmeticFlags32);
     (64, updateShiftLeftFlags64, updateShiftRightFlags64, updateShiftRightArithmeticFlags64)] ->
  forall st l res cnt, in_range 64 l -> in_range 64 res ->
  let c := masked w cnt in
  let x := wrap w l in
  (wrap w res = wrap w (l * 2 ^ c) ->
     shl st l res cnt = shift_effect c (shift_mask c) (shl_spec w x c) st) /\
  (wrap w res = x / 2 ^ c ->
     shr st l res cnt = shift_effect c (shift_mask c) (shr_spec w x c) st) /\
  (wrap w res = wrap w (signed w x / 2 ^ c) ->
     sar st l res cnt = shift_effect c (shift_mask c) (sar_spec w x c) st).
Proof.
  intros Hin st l res cnt Hl Hres c x. subst c x.
  destruct Hin as [E|[E|[]]]; injection E as <- <- <- <-; split_and!.
  - apply updateShiftLeftFlags32_eq.
  - apply updateShiftRightFlags32_eq.
  - apply updateShiftRightArithmeticFlags32_eq.
  - by apply updateShiftLeftFlags64_eq.
  - by apply updateShiftRightFlags64_eq.
  - by apply updateShiftRightArithmeticFlags64_eq.
Qed.

Lemma updateShiftFlags_correct_witness :
  updateShiftLeftFlags32 initialState 0xC0000000 0x80000000 33 =
  shift_effect (masked 32 33) (shift_mask (masked 32 33))
    (shl_spec 32 (wrap 32 0xC0000000) (masked 32 33)) initialState.
Proof.
  pose proof (updateShiftFlags_correct 32 updateShiftLeftFlags32 updateShiftRightFlags32
    updateShiftRightArithmeticFlags32 ltac:(left; reflexivity) initialState
    0xC0000000 0x80000000 33 ltac:(unfold in_range; lia) ltac:(unfold in_range; lia)) as H.
  cbv zeta in H. exact (proj1 H ltac:(vm_compute; reflexivity)).
Defined.

(** The 8-bit shift helpers and SHRD: an 8-bit SHL by 8 or more preserves
    the undefined CF and reports a zero result, an 8-bit SHR and a 64-bit SHRD
    take CF from the last bit shifted out. *)
Theorem updateShiftFlags8_shrd_correct st l res high cnt :
  let c8 := masked 8 cnt in
  let c64 := masked 64 cnt in
  (wrap 8 res = wrap 8 (l * 2 ^ c8) ->
     updateShiftLeftFlags8 st l res cnt =
     shift_effect c8 (shl8_mask c8) (shl8_spec (wrap 8 l) c8) st) /\
  (wrap 8 res = wrap 8 l / 2 ^ c8 ->
     updateShiftRightFlags8 st l res cnt =
     shift_effect c8 (shift_mask c8) (shr_spec 8 (wrap 8 l) c8) st) /\
  (in_range 64 l -> in_range 64 res -> res = shrd_result 64 l high c64 ->
     updateShiftRightDoubleFlags64 st l res cnt =
     shift_effect c64 (shift_mask c64) (shrd_spec 64 l high c64) st).
Proof.
  intros c8 c64. split_and!.
  - apply updateShiftLeftFlags8_eq.
  - apply updateShiftRightFlags8_eq.
  - intros Hl Hr. by apply updateShiftRightDoubleFlags64_eq.
Qed.

Lemma updateShiftFlags8_shrd_correct_witness :
  updateShiftRightDoubleFlags64 initialState 1 (2 ^ 63) 1 =
  shift_effect (masked 64 1) (shift_mask (masked 64 1)) (shrd_spec 64 1 1 (masked 64 1))
    initialState.
Proof.
  pose proof (updateShiftFlags8_shrd_correct initialState 1 (2 ^ 63) 1 1) as H.
  cbv zeta in H. apply (proj2 (proj2 H));
    [unfold in_range; lia | unfold in_range; lia | vm_compute; reflexivity].
Defined.

(** Rotate helpers: CF is the bit rotated out, OF is written for a count of
    one only, and all other flags are preserved; the 16-bit form first reduces
    the count modulo 16. *)
Theorem updateRotateFlags_correct w c rol :
  forall cnt, In (w, c, rol)
    [(16, masked 16 cnt mod 16, updateRotateLeftFlags16);
     (32, masked 32 cnt, updateRotateLeftFlags32);
     (64, masked 64 cnt, updateRotateLeftFlags64)] ->
  forall st x res, in_range 64 res ->
  (wrap w res = rotl w (wrap w x) c ->
     rol st res cnt = shift_effect c (rotate_mask c) (rol_spec w (wrap w x) c) st) /\
  (forall ror, In (w, ror) [(32, updateRotateRightFlags32); (64, updateRotateRightFlags64)] ->
     wrap w res = rotr w (wrap w x) c ->
     ror st res cnt = shift_effect c (rotate_mask c) (ror_spec w (wrap w x) c) st).
Proof.
  intros cnt Hin st x res Hres. split.
  - destruct Hin as [E|[E|[E|[]]]]; injection E as <- <- <-;
      [apply updateRotateLeftFlags16_eq | apply updateRotateLeftFlags32_eq
      | by apply updateRotateLeftFlags64_eq].
  - intros ror [E|[E|[]]]; injection E as <- <-;
      destruct Hin as [E|[E|[E|[]]]]; simplify_eq;
      [apply updateRotateRightFlags32_eq | by apply updateRotateRightFlags64_eq].
Qed.

Lemma updateRotateFlags_correct_witness :
  updateRotateLeftFlags16 initialState 0x0003 17 =
  shift_effect 1 (rotate_mask 1) (rol_spec 16 (wrap 16 0x8001) 1) initialState.
Proof.
  exact (proj1 (updateRotateFlags_correct 16 1 updateRotateLeftFlags16 17
    ltac:(left; reflexivity) initialState 0x8001 0x0003 ltac:(unfold in_range; lia))
    ltac:(vm_compute; reflexivity)).
Defined.

(** C26: MUL sets CF and OF exactly when the full product does not fit 64 bits,
    IMUL exactly when the signed product does not fit the operand width, and BT
    copies the addressed bit into CF; nothing else changes. *)
Theorem updateMulBitFlags_correct st l r value index :
  in_range 64 l -> in_range 64 r ->
  updateMultiplyFlags64 st (l * r / 2 ^ 64) =
    flags_result mul_mask (mul_spec (2 ^ 64 <=? l * r)) st /\
  updateSignedMultiplyFlags64 st l r =
    flags_result mul_mask (mul_spec (signed_overflow 64 (signed 64 l * signed 64 r))) st /\
  updateSignedMultiplyFlags32 st l r =
    flags_result mul_mask
      (mul_spec (signed_overflow 32 (signed 32 (wrap 32 l) * signed 32 (wrap 32 r)))) st /\
  updateBitTestFlags64 st value index =
    flags_result flagCarry (bt_spec (Z.testbit value (index mod 64))) st /\
  updateBitTestFlags32 st value index =
    flags_result flagCarry (bt_spec (Z.testbit value (index mod 32))) st.
Proof.
  intros Hl Hr. unfold flags_result. split_and!.
  - unfold updateMultiplyFlags64. cbv zeta. fold mul_mask. rewrite mul_chain. do 3 f_equal.
    unfold in_range in *. destruct (Z.leb_spec (2 ^ 64) (l * r)).
    + apply negb_true_iff, Z.eqb_neq. intros E. apply Z.div_small_iff in E; lia.
    + by rewrite Z.div_small by nia.
  - unfold updateSignedMultiplyFlags64. cbv zeta. fold mul_mask. by rewrite mul_chain.
  - unfold updateSignedMultiplyFlags32. cbv zeta. fold mul_mask. by rewrite mul_chain.
  - apply updateBitTestFlags64_eq.
  - apply updateBitTestFlags32_eq.
Qed.

Lemma updateMulBitFlags_correct_witness :
  updateMultiplyFlags64 initialState (2 ^ 32 * 2 ^ 32 / 2 ^ 64) =
  flags_result mul_mask (mul_spec (2 ^ 64 <=? 2 ^ 32 * 2 ^ 32)) initialState.
Proof.
  exact (proj1 (updateMulBitFlags_correct initialState (2 ^ 32) (2 ^ 32) 0 0
    ltac:(unfold in_range; lia) ltac:(unfold in_range; lia))).
Defined.

(** ROL of a 16-bit operand by a masked count of exactly 16: the helper treats
    the reduced count as "no rotate" and leaves every flag alone, although the
    masked count is not zero. *)
Lemma updateRotateLeftFlags16_count_16 st res cnt :
  masked 16 cnt = 16 -> updateRotateLeftFlags16 st res cnt = st.
Proof.
  intros Hc. unfold updateRotateLeftFlags16. cbv zeta.
  by rewrite (count_32 cnt 16), Hc by lia.
Qed.

(** ** The helpers by family *)

(** C14: the arithmetic flag helpers of every implemented width commit exactly
    the flags of their operation at that width and preserve every other RFLAGS
    bit: ADD and SUB the six flags of the sum and the difference, ADC and SBB
    those with the low bit of the carry register, INC and DEC all but CF, and the
    logic helpers clear CF, OF and AF and set PF, ZF and SF from the result. *)
Theorem updateArithmeticFlags_correct st l r res c :
  in_range 64 l -> in_range 64 r -> in_range 64 res ->
  let six := flags_result arithmeticFlagMask in
  Forall (fun h => wrap h.1 res = wrap h.1 (l + r) ->
            h.2 st l r res = six (add_spec h.1 (wrap h.1 l) (wrap h.1 r)) st)
    [(8, updateAddFlags8); (16, updateAddFlags16); (32, updateAddFlags32); (64, updateAddFlags64)] /\
  Forall (fun h => wrap h.1 res = wrap h.1 (l - r) ->
            h.2 st l r res = six (sub_spec h.1 (wrap h.1 l) (wrap h.1 r)) st)
    [(8, updateSubFlags8); (16, updateSubFlags16); (32, updateSubFlags32); (64, updateSubFlags64)] /\
  Forall (fun h => h.2 st l r c = six (adc_spec h.1 (wrap h.1 l) (wrap h.1 r) (Z.land c 1)) st)
    [(8, updateAdcFlags8); (32, updateAdcFlags32); (64, updateAdcFlags64)] /\
  Forall (fun h => h.2 st l r c = six (sbb_spec h.1 (wrap h.1 l) (wrap h.1 r) (Z.land c 1)) st)
    [(8, updateSbbFlags8); (16, updateSbbFlags16); (32, updateSbbFlags32); (64, updateSbbFlags64)] /\
  Forall (fun h => wrap h.1 res = wrap h.1 (l + 1) ->
            h.2 st l res = flags_result inc_dec_mask (inc_spec h.1 (wrap h.1 l)) st)
    [(8, updateIncFlags8); (16, updateIncFlags16); (32, updateIncFlags32); (64, updateIncFlags64)] /\
  Forall (fun h => wrap h.1 res = wrap h.1 (l - 1) ->
            h.2 st l res = flags_result inc_dec_mask (dec_spec h.1 (wrap h.1 l)) st)
    [(8, updateDecFlags8); (16, updateDecFlags16); (32, updateDecFlags32); (64, updateDecFlags64)] /\
  Forall (fun h => h.2 st res = six (logic_spec h.1 (wrap h.1 res)) st)
    [(8, updateLogicFlags8); (16, updateLogicFlags16); (32, updateLogicFlags32); (64, updateLogicFlags64)].
Proof.
  intros Hl Hr Hres six. split_and!; apply List.Forall_forall; intros [w helper] Hin; cbn [fst snd].
  - by apply updateAddFlags_correct.
  - by apply updateSubFlags_correct.
  - destruct Hin as [E|[E|[E|[]]]]; injection E as <- <-;
      [apply updateAdcFlags8_eq | apply updateAdcFlags32_eq | by apply updateAdcFlags64_eq].
  - destruct Hin as [E|[E|[E|[E|[]]]]]; injection E as <- <-;
      [apply updateSbbFlags8_eq | apply updateSbbFlags16_eq | apply updateSbbFlags32_eq | by apply updateSbbFlags64_eq].
  - intros E. by destruct Hin as [H|[H|[H|[H|[]]]]]; injection H as <- <-; apply updateIncFlags_eq.
  - intros E. by destruct Hin as [H|[H|[H|[H|[]]]]]; injection H as <- <-; apply updateDecFlags_eq.
  - by apply updateLogicFlags_correct.
Qed.

Lemma updateArithmeticFlags_correct_witness :
  updateAddFlags8 initialState 0xFF 0x1 0x100 =
  flags_result arithmeticFlagMask (add_spec 8 (wrap 8 0xFF) (wrap 8 0x1)) initialState.
Proof.
  pose proof (updateArithmeticFlags_correct initialState 0xFF 0x1 0x100 0 ltac:(unfold in_range; lia)
    ltac:(unfold in_range; lia) ltac:(unfold in_range; lia)) as [H _].
  exact (Forall_inv H eq_refl).
Defined.

(** C25: the shift and rotate helpers: a masked count of zero leaves the state
    alone; otherwise CF is the last bit shifted or rotated out, shifts set PF, ZF
    and SF from the result, OF is written for a count of one only, and every
    other flag is preserved.  An 8-bit SHL by 8 or more preserves the undefined CF
    and a 16-bit rotate first reduces the count modulo 16. *)
Theorem updateShiftRotateFlags_correct st l res high cnt : in_range 64 l -> in_range 64 res ->
  let shifts w mask spec (helper : X86State -> Z -> Z -> Z -> X86State) :=
    helper st l res cnt = shift_effect (masked w cnt) (mask (masked w cnt)) (spec w (wrap w l) (masked w cnt)) st in
  (Forall (fun h => wrap h.1 res = wrap h.1 (l * 2 ^ masked h.1 cnt) -> shifts h.1 shift_mask shl_spec h.2)
     [(32, updateShiftLeftFlags32); (64, updateShiftLeftFlags64)] /\
   (wrap 8 res = wrap 8 (l * 2 ^ masked 8 cnt) -> shifts 8 shl8_mask (fun _ => shl8_spec) updateShiftLeftFlags8)) /\
  Forall (fun h => wrap h.1 res = wrap h.1 l / 2 ^ masked h.1 cnt -> shifts h.1 shift_mask shr_spec h.2)
    [(8, updateShiftRightFlags8); (32, updateShiftRightFlags32); (64, updateShiftRightFlags64)] /\
  Forall (fun h => wrap h.1 res = wrap h.1 (signed h.1 (wrap h.1 l) / 2 ^ masked h.1 cnt) ->
            shifts h.1 shift_mask sar_spec h.2)
    [(32, updateShiftRightArithmeticFlags32); (64, updateShiftRightArithmeticFlags64)] /\
  (res = shrd_result 64 l high (masked 64 cnt) ->
     shifts 64 shift_mask (fun w x c => shrd_spec w l high c) updateShiftRightDoubleFlags64) /\
  (forall w c rol, In (w, c, rol) [(16, masked 16 cnt mod 16, updateRotateLeftFlags16);
       (32, masked 32 cnt, updateRotateLeftFlags32); (64, masked 64 cnt, updateRotateLeftFlags64)] ->
     wrap w res = rotl w (wrap w l) c ->
     rol st res cnt = shift_effect c (rotate_mask c) (rol_spec w (wrap w l) c) st) /\
  Forall (fun h => let c := masked h.1 cnt in wrap h.1 res = rotr h.1 (wrap h.1 l) c ->
            h.2 st res cnt = shift_effect c (rotate_mask c) (ror_spec h.1 (wrap h.1 l) c) st)
    [(32, updateRotateRightFlags32); (64, updateRotateRightFlags64)].
Proof.
  intros Hl Hres shifts. unfold shifts. repeat (split || constructor); cbn [fst snd]; cbv zeta.
  - apply updateShiftLeftFlags32_eq.
  - by apply updateShiftLeftFlags64_eq.
  - apply updateShiftLeftFlags8_eq.
  - apply updateShiftRightFlags8_eq.
  - apply updateShiftRightFlags32_eq.
  - by apply updateShiftRightFlags64_eq.
  - apply updateShiftRightArithmeticFlags32_eq.
  - by apply updateShiftRightArithmeticFlags64_eq.
  - by apply updateShiftRightDoubleFlags64_eq.
  - intros w c rol Hin. by apply (updateRotateFlags_correct w c rol cnt Hin).
  - apply updateRotateRightFlags32_eq.
  - by apply updateRotateRightFlags64_eq.
Qed.

Lemma updateShiftRotateFlags_correct_witness :
  updateShiftLeftFlags32 initialState 0xC0000000 0x80000000 33 =
  shift_effect (masked 32 33) (shift_mask (masked 32 33))
    (shl_spec 32 (wrap 32 0xC0000000) (masked 32 33)) initialState.
Proof.
  pose proof (updateShiftRotateFlags_correct initialState 0xC0000000 0x80000000 0 33
    ltac:(unfold in_range; lia) ltac:(unfold in_range; lia)) as ((H & _) & _).
  exact (Forall_inv H ltac:(vm_compute; reflexivity)).
Defined.
