(* ===== verification/AddressSpace.v ===== *)
(** The guest address space: [src/guest/AddressSpace.h] and
    [src/guest/AddressSpace.cpp].

    The state is the vector of mappings ordered by base, the 16-entry lookup
    cache, the executable version and the host objects mappings share.  A
    [PrivateFileMapping] (a host [mmap] region) is shared by every slice of the
    mapping that created it, so its bytes live in a store [as_files] indexed by
    object identity and mappings hold the identity; the same holds for
    [LazyFilePageTransform].  References into the mapping vector are indices.

    [std::lower_bound] and [std::upper_bound] are modelled by the partition
    point they return on an ordered vector.  [::mmap], [::open], [::fstat] and
    [::sysconf] are parameters of the operations that call them. *)
From S2P Require Import Prelude.

(** ** Data *)

Definition guestPageSize : Z := 4096.

(** [Permission] is a bit set over [uint8_t]. *)
Definition Permission_None : Z := 0.
Definition Permission_Read : Z := 1.
Definition Permission_Write : Z := 2.
Definition Permission_Execute : Z := 4.
Definition Permission_or (lhs rhs : Z) : Z := Z.lor lhs rhs.

Definition hasPermission (actual required : Z) : bool := Z.land actual required =? required.
Definition isExecutable (permissions : Z) : bool := hasPermission permissions Permission_Execute.

Record Mapping := mkMapping {
  m_base : Z;
  m_size : Z;
  m_permissions : Z;
  m_maximumPermissions : Z;
  m_bytes : list Z;
  m_fileBytes : option nat;
  m_fileDataOffset : Z;
  m_lazyFileTransform : option nat;
  m_readableBytes : list Z;
  m_label : string
}.

Record MappingInfo := mkMappingInfo {
  i_base : Z; i_size : Z; i_permissions : Z; i_maximumPermissions : Z; i_label : string
}.

(** A lazily applied page transform; [lt_transform] is the caller's
    [std::function], which rewrites the span for one page or throws. *)
Record LazyFilePageTransform := mkLazy {
  lt_dataOffset : Z;
  lt_size : Z;
  lt_pageSize : Z;
  lt_transformedPages : list bool;
  lt_transform : list Z -> Z -> outcome (list Z)
}.

Record MappingLookupEntry := mkEntry {
  e_base : Z; e_end : Z; e_index : nat; e_valid : bool
}.

Definition mappingLookupSize : nat := 16.
Definition emptyEntry : MappingLookupEntry := mkEntry 0 0 0 false.
Definition emptyLookup : list MappingLookupEntry := replicate mappingLookupSize emptyEntry.

Record AddressSpace := mkAddressSpace {
  as_mappings : list Mapping;
  as_lookup : list MappingLookupEntry;
  as_executableVersion : Z;
  as_files : gmap nat (list Z);
  as_transforms : gmap nat LazyFilePageTransform;
  as_next : nat
}.

Definition emptySpace : AddressSpace := mkAddressSpace [] emptyLookup 0 ∅ ∅ 0.

Inductive ProtectResult := ProtectSuccess | InvalidAddress | ProtectionFailure | ProtectInvalidArgument.
Inductive DeallocateResult := DeallocateSuccess | DeallocateInvalidArgument.

(** ** State updates *)

Definition set_mappings (ms : list Mapping) (s : AddressSpace) : AddressSpace :=
  mkAddressSpace ms s.(as_lookup) s.(as_executableVersion) s.(as_files) s.(as_transforms) s.(as_next).
Definition set_lookup (l : list MappingLookupEntry) (s : AddressSpace) : AddressSpace :=
  mkAddressSpace s.(as_mappings) l s.(as_executableVersion) s.(as_files) s.(as_transforms) s.(as_next).
Definition set_files (f : gmap nat (list Z)) (s : AddressSpace) : AddressSpace :=
  mkAddressSpace s.(as_mappings) s.(as_lookup) s.(as_executableVersion) f s.(as_transforms) s.(as_next).
Definition set_transforms (t : gmap nat LazyFilePageTransform) (s : AddressSpace) : AddressSpace :=
  mkAddressSpace s.(as_mappings) s.(as_lookup) s.(as_executableVersion) s.(as_files) t s.(as_next).

(** [++executableVersion_] when [c] holds. *)
Definition bump_if (c : bool) (s : AddressSpace) : AddressSpace :=
  mkAddressSpace s.(as_mappings) s.(as_lookup)
    (if c then u64 (s.(as_executableVersion) + 1) else s.(as_executableVersion))
    s.(as_files) s.(as_transforms) s.(as_next).

(** [std::make_shared<PrivateFileMapping>] over fresh contents. *)
Definition new_file (contents : list Z) : M AddressSpace nat := fun s =>
  (mkAddressSpace s.(as_mappings) s.(as_lookup) s.(as_executableVersion)
     (<[s.(as_next) := contents]> s.(as_files)) s.(as_transforms) (S s.(as_next)),
   Ok s.(as_next)).
Definition new_transform (t : LazyFilePageTransform) : M AddressSpace nat := fun s =>
  (mkAddressSpace s.(as_mappings) s.(as_lookup) s.(as_executableVersion) s.(as_files)
     (<[s.(as_next) := t]> s.(as_transforms)) (S s.(as_next)),
   Ok s.(as_next)).

Definition invalidateMappingLookup : AddressSpace -> AddressSpace := set_lookup emptyLookup.

(** ** Search *)

Definition rangeContains (base mappingSize address accessSize : Z) : bool :=
  if (address <? base) || (mappingSize <? accessSize) then false
  else (address - base) <=? mappingSize - accessSize.

Fixpoint upper_bound (ms : list Mapping) (value : Z) : nat :=
  match ms with
  | [] => 0
  | m :: ms' => if value <? m.(m_base) then 0 else S (upper_bound ms' value)
  end.
Fixpoint lower_bound (ms : list Mapping) (value : Z) : nat :=
  match ms with
  | [] => 0
  | m :: ms' => if m.(m_base) <? value then S (lower_bound ms' value) else 0
  end.

Definition mappingContaining (address : Z) (s : AddressSpace) : option Mapping :=
  match upper_bound s.(as_mappings) address with
  | O => None
  | S next =>
      m ← s.(as_mappings) !! next;
      if rangeContains m.(m_base) m.(m_size) address 1 then Some m else None
  end.

Definition unmapped_error : exn := runtime_error "guest memory access is unmapped".
Definition permission_error : exn :=
  runtime_error "guest memory access violates mapping permissions".

Definition lookupIndex (address : Z) : nat :=
  let page := Z.shiftr address 12 in
  Z.to_nat (Z.land (Z.lxor (Z.lxor page (Z.shiftr page 16)) (Z.shiftr page 32)) 15).

(** The binary search of [find], which refills the cache entry. *)
Definition find_search (address size required : Z) : M AddressSpace nat := fun s =>
  match upper_bound s.(as_mappings) address with
  | O => (s, Throw unmapped_error)
  | S next =>
      match s.(as_mappings) !! next with
      | None => (s, Undefined)
      | Some m =>
          if rangeContains m.(m_base) m.(m_size) address size then
            if negb (hasPermission m.(m_permissions) required) then (s, Throw permission_error)
            else (set_lookup (<[lookupIndex address :=
                    mkEntry m.(m_base) (m.(m_base) + m.(m_size)) next true]> s.(as_lookup)) s,
                  Ok next)
          else (s, Throw unmapped_error)
      end
  end.

Definition find (address size required : Z) : M AddressSpace nat := fun s =>
  let cached := default emptyEntry (s.(as_lookup) !! lookupIndex address) in
  if cached.(e_valid) && (cached.(e_index) <? length s.(as_mappings))%nat &&
     (cached.(e_base) <=? address) && (address <? cached.(e_end)) &&
     (size <=? cached.(e_end) - address)
  then
    match s.(as_mappings) !! cached.(e_index) with
    | None => (s, Undefined)
    | Some mapping =>
        if mapping.(m_base) =? cached.(e_base) then
          if negb (hasPermission mapping.(m_permissions) required)
          then (s, Throw permission_error)
          else (s, Ok cached.(e_index))
        else find_search address size required s
    end
  else find_search address size required s.

(** Dereference of a reference returned by [find]. *)
Definition deref (i : nat) : M AddressSpace Mapping := fun s =>
  match s.(as_mappings) !! i with
  | Some m => (s, Ok m)
  | None => (s, Undefined)
  end.

(** ** Spans over vectors and host regions *)

Definition span_read (l : list Z) (off n : Z) : outcome (list Z) :=
  if (0 <=? off) && (0 <=? n) && (off + n <=? zlength l) then Ok (subspan l off n) else Undefined.
Definition span_write (l : list Z) (off : Z) (data : list Z) : outcome (list Z) :=
  if (0 <=? off) && (off + zlength data <=? zlength l) then Ok (overwrite l off data)
  else Undefined.

Definition file_contents (f : nat) : M AddressSpace (list Z) := fun s =>
  match s.(as_files) !! f with
  | Some l => (s, Ok l)
  | None => (s, Undefined)
  end.

(** ** Lazily transformed pages *)

(** The loop over [firstPage .. lastPage] of [materialize]. *)
Fixpoint materialize_pages (pages : list Z) (t f : nat) : M AddressSpace unit :=
  match pages with
  | [] => ret tt
  | page :: pages' => fun s =>
      match s.(as_transforms) !! t, s.(as_files) !! f with
      | Some lt, Some contents =>
          match lt.(lt_transformedPages) !! Z.to_nat page with
          | None => (s, Undefined)
          | Some true => materialize_pages pages' t f s
          | Some false =>
              match lt.(lt_transform) (subspan contents lt.(lt_dataOffset) lt.(lt_size)) page with
              | Throw e => (s, Throw e)
              | Undefined => (s, Undefined)
              | Ok bytes =>
                  let s1 := set_files
                    (<[f := overwrite contents lt.(lt_dataOffset) bytes]> s.(as_files)) s in
                  let lt' := mkLazy lt.(lt_dataOffset) lt.(lt_size) lt.(lt_pageSize)
                    (<[Z.to_nat page := true]> lt.(lt_transformedPages)) lt.(lt_transform) in
                  materialize_pages pages' t f
                    (set_transforms (<[t := lt']> s1.(as_transforms)) s1)
              end
          end
      | _, _ => (s, Undefined)
      end
  end.

Definition materialize (t f : nat) (dataOffset size : Z) : M AddressSpace unit := fun s =>
  if size =? 0 then (s, Ok tt) else
  match s.(as_transforms) !! t with
  | None => (s, Undefined)
  | Some lt =>
      if (dataOffset <? lt.(lt_dataOffset)) ||
         (lt.(lt_size) <? dataOffset - lt.(lt_dataOffset)) ||
         (lt.(lt_size) - (dataOffset - lt.(lt_dataOffset)) <? size)
      then (s, Throw (runtime_error "lazy guest file transform lies outside its backing mapping"))
      else
        let firstByte := dataOffset - lt.(lt_dataOffset) in
        let lastByte := firstByte + size - 1 in
        let firstPage := firstByte / lt.(lt_pageSize) in
        let lastPage := lastByte / lt.(lt_pageSize) in
        materialize_pages (seqZ firstPage (lastPage - firstPage + 1)) t f s
  end.

Definition materializeFileBytes (mapping : Mapping) (offset size : Z) : M AddressSpace unit :=
  match mapping.(m_lazyFileTransform), mapping.(m_fileBytes) with
  | Some t, Some f => materialize t f (mapping.(m_fileDataOffset) + offset) size
  | Some _, None => undefined
  | None, _ => ret tt
  end.

(** ** Reading *)

(** The bytes [offset, offset + n) of a mapping, from its vector or host region. *)
Definition mapping_read (mapping : Mapping) (offset n : Z) : M AddressSpace (list Z) :=
  match mapping.(m_fileBytes) with
  | Some f =>
      materializeFileBytes mapping offset n ;;;
      do! contents <- file_contents f;
      lift (span_read contents (mapping.(m_fileDataOffset) + offset) n)
  | None => lift (span_read mapping.(m_bytes) offset n)
  end.

Definition sparse_error : exn :=
  runtime_error "guest read targets unsupported sparse mapping data".

(** Throws when the range meets a byte the sparse mapping does not define. *)
Definition check_readable (mapping : Mapping) (offset chunk : Z) : M AddressSpace unit :=
  match mapping.(m_readableBytes) with
  | [] => ret tt
  | _ :: _ =>
      do! flags <- lift (span_read mapping.(m_readableBytes) offset chunk);
      if existsb (Z.eqb 0) flags then throw sparse_error else ret tt
  end.

Fixpoint readInto_loop (fuel : nat) (cursor remaining : Z) : M AddressSpace (list Z) :=
  match fuel with
  | O => if remaining <=? 0 then ret [] else undefined
  | S fuel' =>
      if remaining <=? 0 then ret [] else
      do! i <- find cursor 1 Permission_Read;
      do! mapping <- deref i;
      let offset := cursor - mapping.(m_base) in
      let chunk := Z.min remaining (mapping.(m_size) - offset) in
      check_readable mapping offset chunk ;;;
      do! data <- mapping_read mapping offset chunk;
      do! rest <- readInto_loop fuel' (u64 (cursor + chunk)) (remaining - chunk);
      ret (data ++ rest)
  end.

(** Every iteration copies at least one byte: [size] iterations suffice. *)
Definition readInto (address size : Z) : M AddressSpace (list Z) :=
  readInto_loop (Z.to_nat size) address size.

(** [readU64], [readU32] and [readU16] share this shape: a single-mapping fast
    path ([memcpy] on a little-endian host) and the byte-wise slow path. *)
Definition read_word (width address : Z) : M AddressSpace Z :=
  do! i <- find address 1 Permission_Read;
  do! mapping <- deref i;
  let offset := address - mapping.(m_base) in
  match mapping.(m_readableBytes) with
  | [] =>
      if width <=? mapping.(m_size) - offset then
        do! bytes <- mapping_read mapping offset width;
        ret (le_value bytes)
      else
        do! bytes <- readInto address width;
        ret (le_value bytes)
  | _ :: _ =>
      do! bytes <- readInto address width;
      ret (le_value bytes)
  end.

Definition readU64 (address : Z) : M AddressSpace Z := read_word 8 address.
Definition readU32 (address : Z) : M AddressSpace Z := read_word 4 address.
Definition readU16 (address : Z) : M AddressSpace Z := read_word 2 address.

Definition readU8 (address : Z) : M AddressSpace Z :=
  do! i <- find address 1 Permission_Read;
  do! mapping <- deref i;
  let offset := address - mapping.(m_base) in
  match mapping.(m_readableBytes) with
  | [] =>
      do! bytes <- mapping_read mapping offset 1;
      ret (le_value bytes)
  | _ :: _ =>
      do! bytes <- readInto address 1;
      ret (le_value bytes)
  end.

Definition readBytes (address size : Z) : M AddressSpace (list Z) := readInto address size.

Fixpoint validateAccess_loop (fuel : nat) (cursor remaining required : Z) : M AddressSpace unit :=
  match fuel with
  | O => if remaining <=? 0 then ret tt else undefined
  | S fuel' =>
      if remaining <=? 0 then ret tt else
      do! i <- find cursor 1 required;
      do! mapping <- deref i;
      let offset := cursor - mapping.(m_base) in
      let chunk := Z.min remaining (mapping.(m_size) - offset) in
      validateAccess_loop fuel' (u64 (cursor + chunk)) (remaining - chunk) required
  end.

Definition validateAccess (address size required : Z) : M AddressSpace unit :=
  validateAccess_loop (Z.to_nat size) address size required.

(** ** Writing *)

Definition set_bytes (m : Mapping) (bytes : list Z) : Mapping :=
  mkMapping m.(m_base) m.(m_size) m.(m_permissions) m.(m_maximumPermissions) bytes
    m.(m_fileBytes) m.(m_fileDataOffset) m.(m_lazyFileTransform) m.(m_readableBytes) m.(m_label).
Definition set_readable (m : Mapping) (readable : list Z) : Mapping :=
  mkMapping m.(m_base) m.(m_size) m.(m_permissions) m.(m_maximumPermissions) m.(m_bytes)
    m.(m_fileBytes) m.(m_fileDataOffset) m.(m_lazyFileTransform) readable m.(m_label).

(** Copy [data] to offset [offset] of mapping [i]. *)
Definition mapping_write (i : nat) (offset : Z) (data : list Z) : M AddressSpace unit :=
  do! mapping <- deref i;
  match mapping.(m_fileBytes) with
  | Some f =>
      do! contents <- file_contents f;
      do! contents' <- lift (span_write contents (mapping.(m_fileDataOffset) + offset) data);
      modify (fun s => set_files (<[f := contents']> s.(as_files)) s)
  | None =>
      do! bytes' <- lift (span_write mapping.(m_bytes) offset data);
      modify (fun s => set_mappings (<[i := set_bytes mapping bytes']> s.(as_mappings)) s)
  end.

(** First pass over the range: validate every byte, materialize lazy pages and
    note whether executable bytes change. *)
Fixpoint write_validate (fuel : nat) (cursor remaining : Z) (changes : bool) :
    M AddressSpace bool :=
  match fuel with
  | O => if remaining <=? 0 then ret changes else undefined
  | S fuel' =>
      if remaining <=? 0 then ret changes else
      do! i <- find cursor 1 Permission_Write;
      do! mapping <- deref i;
      let changes := changes || isExecutable mapping.(m_permissions) in
      let offset := cursor - mapping.(m_base) in
      let chunk := Z.min remaining (mapping.(m_size) - offset) in
      match mapping.(m_fileBytes) with
      | Some _ => materializeFileBytes mapping offset chunk
      | None => ret tt
      end ;;;
      write_validate fuel' (u64 (cursor + chunk)) (remaining - chunk) changes
  end.

(** Second pass: copy. *)
Fixpoint write_copy (fuel : nat) (cursor : Z) (data : list Z) : M AddressSpace unit :=
  match fuel with
  | O => match data with [] => ret tt | _ => undefined end
  | S fuel' =>
      match data with
      | [] => ret tt
      | _ =>
          do! i <- find cursor 1 Permission_Write;
          do! mapping <- deref i;
          let offset := cursor - mapping.(m_base) in
          let chunk := Z.min (zlength data) (mapping.(m_size) - offset) in
          mapping_write i offset (take (Z.to_nat chunk) data) ;;;
          write_copy fuel' (u64 (cursor + chunk)) (drop (Z.to_nat chunk) data)
      end
  end.

Definition writeBytes (address : Z) (bytes : list Z) : M AddressSpace unit :=
  match bytes with
  | [] => ret tt
  | _ =>
      do! i <- find address 1 Permission_Write;
      do! firstMapping <- deref i;
      let firstOffset := address - firstMapping.(m_base) in
      if zlength bytes <=? firstMapping.(m_size) - firstOffset then
        match firstMapping.(m_fileBytes) with
        | Some _ => materializeFileBytes firstMapping firstOffset (zlength bytes)
        | None => ret tt
        end ;;;
        mapping_write i firstOffset bytes ;;;
        modify (bump_if (isExecutable firstMapping.(m_permissions)))
      else
        do! changes <- write_validate (length bytes) address (zlength bytes) false;
        write_copy (length bytes) address bytes ;;;
        modify (bump_if changes)
  end.

Definition writeU64 (address value : Z) : M AddressSpace unit := writeBytes address (le_bytes 8 value).
Definition writeU32 (address value : Z) : M AddressSpace unit := writeBytes address (le_bytes 4 value).

(** ** Creating mappings *)

Definition invalid_mapping : exn :=
  invalid_argument "guest mappings must be nonempty and 4 KiB aligned".
Definition overlap_error : exn := invalid_argument "guest mapping overlaps an existing mapping".

Definition validateNewMapping (base size permissions maximumPermissions : Z)
    (s : AddressSpace) : outcome unit :=
  if (size =? 0) || negb (base mod guestPageSize =? 0) || negb (size mod guestPageSize =? 0)
  then Throw invalid_mapping
  else if UINT64_MAX - size <? base
  then Throw (invalid_argument "guest mapping address overflows")
  else if negb (hasPermission maximumPermissions permissions)
  then Throw (invalid_argument "guest mapping permissions exceed maximum permissions")
  else
    let end_ := base + size in
    let next := lower_bound s.(as_mappings) base in
    if (match s.(as_mappings) !! next with
        | Some n => n.(m_base) <? end_
        | None => false
        end)
    then Throw overlap_error
    else
      match next with
      | O => Ok tt
      | S previous =>
          match s.(as_mappings) !! previous with
          | Some p => if base <? p.(m_base) + p.(m_size) then Throw overlap_error else Ok tt
          | None => Undefined
          end
      end.

Definition insertMapping (mapping : Mapping) (s : AddressSpace) : AddressSpace :=
  let position := lower_bound s.(as_mappings) mapping.(m_base) in
  bump_if (isExecutable mapping.(m_permissions))
    (invalidateMappingLookup
       (set_mappings (take position s.(as_mappings) ++ mapping :: drop position s.(as_mappings)) s)).

(** [hostReserve] tells whether the anonymous [::mmap] of that size succeeds;
    fresh anonymous pages read as zero. *)
Definition mapAnonymous (hostReserve : Z -> bool) (base size permissions maximumPermissions : Z)
    (label : string) : M AddressSpace unit :=
  (fun s => (s, validateNewMapping base size permissions maximumPermissions s)) ;;;
  if maximumPermissions =? Permission_None then
    modify (insertMapping (mkMapping base size permissions maximumPermissions [] None 0 None [] label))
  else if negb (hostReserve size) then
    throw (runtime_error "cannot reserve anonymous guest backing")
  else
    do! backing <- new_file (replicate (Z.to_nat size) 0);
    modify (insertMapping
      (mkMapping base size permissions maximumPermissions [] (Some backing) 0 None [] label)).

Definition addMapping (base size permissions maximumPermissions : Z) (initialBytes : list Z)
    (label : string) : M AddressSpace unit :=
  (fun s => (s, validateNewMapping base size permissions maximumPermissions s)) ;;;
  let backing :=
    if negb (maximumPermissions =? Permission_None)
    then initialBytes ++ replicate (Z.to_nat size - length initialBytes) 0
    else [] in
  modify (insertMapping (mkMapping base size permissions maximumPermissions backing None 0 None [] label)).

Definition segment_bytes_error : exn :=
  invalid_argument "guest segment file bytes exceed virtual size".

Definition mapSegment (base size permissions maximumPermissions : Z) (fileBytes : list Z)
    (label : string) : M AddressSpace unit :=
  if size <? zlength fileBytes then throw segment_bytes_error
  else addMapping base size permissions maximumPermissions fileBytes label.

(** A private file mapping.  [hostFile] is the file's contents when [::open] and
    [::fstat] succeed, [hostPageSize] the result of [::sysconf], [hostMap] the
    contents of a successful [::mmap] of that offset and length. *)
Definition mapFileSegment (hostFile : option (list Z)) (hostPageSize : Z)
    (hostMap : list Z -> Z -> Z -> option (list Z))
    (base size permissions maximumPermissions fileOffset : Z) (label : string) :
    M AddressSpace unit :=
  (fun s => (s, validateNewMapping base size permissions maximumPermissions s)) ;;;
  match hostFile with
  | None => throw (runtime_error "cannot open guest file backing")
  | Some file =>
      if hostPageSize <=? 0 then
        throw (runtime_error "cannot query host page size for guest file backing")
      else if zlength file <? fileOffset then
        throw (invalid_argument "guest file-backed mapping exceeds source file")
      else
        let alignedOffset := fileOffset - fileOffset mod hostPageSize in
        let prefix := fileOffset - alignedOffset in
        if UINT64_MAX - size <? prefix then
          throw (invalid_argument "guest file-backed mapping size overflows")
        else
          let hostMappingSize := prefix + size in
          let available := zlength file - fileOffset in
          let sourceExtent := u64 (prefix + available) in
          let sourceRemainder := sourceExtent mod hostPageSize in
          let roundedSourceExtent :=
            if sourceRemainder =? 0 then sourceExtent
            else u64 (sourceExtent + (hostPageSize - sourceRemainder)) in
          if roundedSourceExtent <? hostMappingSize then
            throw (invalid_argument "guest file-backed mapping exceeds source file pages")
          else
            match hostMap file alignedOffset hostMappingSize with
            | None => throw (runtime_error "cannot map guest file backing")
            | Some contents =>
                do! backing <- new_file contents;
                modify (insertMapping (mkMapping base size permissions maximumPermissions []
                  (Some backing) prefix None [] label))
            end
  end.

Definition mapSparseReadOnly (base size dataOffset : Z) (data : list Z) (label : string) :
    M AddressSpace unit :=
  if (size <? dataOffset) || (size - dataOffset <? zlength data) then
    throw (invalid_argument "sparse guest data lies outside its mapping")
  else
    (fun s => (s, validateNewMapping base size Permission_Read Permission_Read s)) ;;;
    let backing := overwrite (replicate (Z.to_nat size) 0) dataOffset data in
    let readableBytes :=
      overwrite (replicate (Z.to_nat size) 0) dataOffset (replicate (length data) 1) in
    modify (insertMapping (mkMapping base size Permission_Read Permission_Read backing None 0 None
      readableBytes label)).

Definition populateSparseReadOnly (address : Z) (data : list Z) : M AddressSpace unit :=
  match data with
  | [] => ret tt
  | _ =>
      do! i <- find address (zlength data) Permission_Read;
      do! mapping <- deref i;
      match mapping.(m_readableBytes) with
      | [] => throw (invalid_argument "guest mapping is not sparse read-only data")
      | _ =>
          let offset := address - mapping.(m_base) in
          do! readable <- lift (span_write mapping.(m_readableBytes) offset
                                  (replicate (length data) 1));
          do! bytes <- lift (span_write mapping.(m_bytes) offset data);
          modify (fun s => set_mappings
            (<[i := set_bytes (set_readable mapping readable) bytes]> s.(as_mappings)) s)
      end
  end.

(** ** Protect and deallocate *)

Definition page_floor (x : Z) : Z := Z.land x (not64 (guestPageSize - 1)).

(** [addMappingCount]: the checked size of the rebuilt vector. *)
Definition addMappingCount (count amount : Z) : outcome Z :=
  if UINT64_MAX - count <? amount
  then Throw (overflow_error "guest mapping transformation count overflows")
  else Ok (count + amount).

Definition count_pieces (pieces : list (list Mapping)) : outcome Z :=
  fold_left (fun acc p => outcome_bind acc (fun n => addMappingCount n (zlength p))) pieces (Ok 0).

(** The [slice] lambda: the part of [source] in [sliceStart, sliceEnd). *)
Definition slice (source : Mapping) (sliceStart sliceEnd permissions maximumPermissions : Z) :
    Mapping :=
  let offset := sliceStart - source.(m_base) in
  let sliceSize := sliceEnd - sliceStart in
  mkMapping sliceStart sliceSize permissions maximumPermissions
    (subspan source.(m_bytes) offset sliceSize)
    source.(m_fileBytes) (source.(m_fileDataOffset) + offset) source.(m_lazyFileTransform)
    (subspan source.(m_readableBytes) offset sliceSize)
    source.(m_label).

Definition m_end (m : Mapping) : Z := m.(m_base) + m.(m_size).

(** The validation loop of [protect]. *)
Fixpoint protect_check (fuel : nat) (cursor end_ permissions : Z) (makePrivateCopy changes : bool)
    (s : AddressSpace) : outcome (ProtectResult * bool) :=
  match fuel with
  | O => if end_ <=? cursor then Ok (ProtectSuccess, changes) else Undefined
  | S fuel' =>
      if end_ <=? cursor then Ok (ProtectSuccess, changes) else
      match mappingContaining cursor s with
      | None => Ok (InvalidAddress, changes)
      | Some mapping =>
          if negb makePrivateCopy && negb (hasPermission mapping.(m_maximumPermissions) permissions)
          then Ok (ProtectionFailure, changes)
          else protect_check fuel' (Z.min end_ (m_end mapping)) end_ permissions makePrivateCopy
                 (changes || isExecutable mapping.(m_permissions)) s
      end
  end.

Definition protect_pieces (start end_ permissions : Z) (makePrivateCopy : bool) (m : Mapping) :
    list Mapping :=
  if (m_end m <=? start) || (end_ <=? m.(m_base)) then [m] else
  let protectedStart := Z.max m.(m_base) start in
  let protectedEnd := Z.min (m_end m) end_ in
  (if m.(m_base) <? start
   then [slice m m.(m_base) start m.(m_permissions) m.(m_maximumPermissions)] else []) ++
  [slice m protectedStart protectedEnd permissions
     (if makePrivateCopy then permissions else m.(m_maximumPermissions))] ++
  (if protectedEnd <? m_end m
   then [slice m protectedEnd (m_end m) m.(m_permissions) m.(m_maximumPermissions)] else []).

Definition protect (address size permissions : Z) (makePrivateCopy : bool) :
    M AddressSpace ProtectResult := fun s =>
  if size =? 0 then (s, Ok ProtectSuccess) else
  if UINT64_MAX - size <? address then (s, Ok ProtectInvalidArgument) else
  let unroundedEnd := address + size in
  if UINT64_MAX - (guestPageSize - 1) <? unroundedEnd then (s, Ok ProtectInvalidArgument) else
  let start := page_floor address in
  let end_ := page_floor (unroundedEnd + guestPageSize - 1) in
  match protect_check (S (length s.(as_mappings))) start end_ permissions makePrivateCopy
          (isExecutable permissions) s with
  | Throw e => (s, Throw e)
  | Undefined => (s, Undefined)
  | Ok (ProtectSuccess, changesExecutableMapping) =>
      let pieces := map (protect_pieces start end_ permissions makePrivateCopy) s.(as_mappings) in
      match count_pieces pieces with
      | Throw e => (s, Throw e)
      | Undefined => (s, Undefined)
      | Ok _ =>
          (bump_if changesExecutableMapping
             (invalidateMappingLookup (set_mappings (concat pieces) s)), Ok ProtectSuccess)
      end
  | Ok (failure, _) => (s, Ok failure)
  end.

Definition deallocate_pieces (start end_ : Z) (m : Mapping) : list Mapping :=
  if (m_end m <=? start) || (end_ <=? m.(m_base)) then [m] else
  (if m.(m_base) <? start
   then [slice m m.(m_base) start m.(m_permissions) m.(m_maximumPermissions)] else []) ++
  (if end_ <? m_end m
   then [slice m end_ (m_end m) m.(m_permissions) m.(m_maximumPermissions)] else []).

Definition deallocate (address size : Z) : M AddressSpace DeallocateResult := fun s =>
  if size =? 0 then (s, Ok DeallocateSuccess) else
  if UINT64_MAX - size <? address then (s, Ok DeallocateInvalidArgument) else
  let unroundedEnd := address + size in
  if UINT64_MAX - (guestPageSize - 1) <? unroundedEnd then (s, Ok DeallocateInvalidArgument) else
  let start := page_floor address in
  let end_ := page_floor (unroundedEnd + guestPageSize - 1) in
  let affected m := negb ((m_end m <=? start) || (end_ <=? m.(m_base))) in
  let removedExecutableMapping :=
    existsb (fun m => affected m && isExecutable m.(m_permissions)) s.(as_mappings) in
  let pieces := map (deallocate_pieces start end_) s.(as_mappings) in
  match count_pieces pieces with
  | Throw e => (s, Throw e)
  | Undefined => (s, Undefined)
  | Ok _ =>
      (bump_if removedExecutableMapping
         (invalidateMappingLookup (set_mappings (concat pieces) s)), Ok DeallocateSuccess)
  end.

(** ** Remaining operations *)

Definition mappingInfos (s : AddressSpace) : list MappingInfo :=
  map (fun m => mkMappingInfo m.(m_base) m.(m_size) m.(m_permissions) m.(m_maximumPermissions)
                  m.(m_label)) s.(as_mappings).

(** The view is the mapping's base and its byte vector, named by its index. *)
Definition directMemoryView (address required : Z) : M AddressSpace (option (Z * nat)) :=
  do! i <- find address 1 required;
  do! mapping <- deref i;
  if bool_decide (is_Some mapping.(m_fileBytes)) ||
     negb (bool_decide (mapping.(m_readableBytes) = [])) ||
     negb (zlength mapping.(m_bytes) =? mapping.(m_size)) ||
     (hasPermission required Permission_Write && isExecutable mapping.(m_permissions))
  then ret None
  else ret (Some (mapping.(m_base), i)).

(** The bytes from [address] to the end of its mapping. *)
Definition executableBytes (address : Z) : M AddressSpace (list Z) :=
  do! i <- find address 1 Permission_Execute;
  do! mapping <- deref i;
  let offset := address - mapping.(m_base) in
  match mapping.(m_fileBytes) with
  | Some _ => mapping_read mapping offset (mapping.(m_size) - offset)
  | None =>
      if offset <=? zlength mapping.(m_bytes) then ret (drop (Z.to_nat offset) mapping.(m_bytes))
      else undefined
  end.

Definition installLazyFilePageTransform (base pageSize : Z)
    (transform : option (list Z -> Z -> outcome (list Z))) : M AddressSpace unit :=
  match transform with
  | None => throw (invalid_argument "lazy guest file transform is invalid")
  | Some f =>
      if pageSize =? 0 then throw (invalid_argument "lazy guest file transform is invalid") else
      do! s <- get;
      let position := lower_bound s.(as_mappings) base in
      match s.(as_mappings) !! position with
      | Some m =>
          if negb (m.(m_base) =? base) || bool_decide (m.(m_fileBytes) = None) then
            throw (runtime_error "lazy guest file transform requires an exact file mapping")
          else if negb (m.(m_size) mod pageSize =? 0) then
            throw (invalid_argument "lazy guest file transform page geometry is invalid")
          else
            do! t <- new_transform (mkLazy m.(m_fileDataOffset) m.(m_size) pageSize
              (replicate (Z.to_nat ((m.(m_size) + pageSize - 1) / pageSize)) false) f);
            modify (fun s => set_mappings
              (<[position := mkMapping m.(m_base) m.(m_size) m.(m_permissions)
                 m.(m_maximumPermissions) m.(m_bytes) m.(m_fileBytes) m.(m_fileDataOffset)
                 (Some t) m.(m_readableBytes) m.(m_label)]> s.(as_mappings)) s)
      | None => throw (runtime_error "lazy guest file transform requires an exact file mapping")
      end
  end.

(** The mutable span of a file mapping: region, offset and length. *)
Definition mutablePrivateFileMappingBytes (base : Z) : M AddressSpace (nat * Z * Z) :=
  do! s <- get;
  let position := lower_bound s.(as_mappings) base in
  let error := runtime_error "guest loader requested a non-file-backed mapping" in
  match s.(as_mappings) !! position with
  | Some m =>
      match m.(m_fileBytes) with
      | Some f =>
          if negb (m.(m_base) =? base) then throw error else
          modify (bump_if (isExecutable m.(m_permissions))) ;;;
          materializeFileBytes m 0 m.(m_size) ;;;
          ret (f, m.(m_fileDataOffset), m.(m_size))
      | None => throw error
      end
  | None => throw error
  end.
