(* ===== verification/AddressSpaceInv.v ===== *)
(** The representation invariant of [AddressSpace] and the correctness of its
    cached search.

    [mapping_at] is the abstract view of the mapping vector: the mapping that
    contains an address.  The lookup cache is shown to be invisible: [find] with
    any coherent cache returns what the view prescribes. *)
From S2P Require Import Prelude AddressSpace.

(** ** Invariant *)

Definition contains (m : Mapping) (a : Z) : bool := (m.(m_base) <=? a) && (a <? m_end m).

(** Geometry [validateNewMapping] enforces on every mapping. *)
Record geometry (m : Mapping) : Prop := {
  geo_base : 0 <= m.(m_base);
  geo_size : 0 < m.(m_size);
  geo_end : m_end m <= UINT64_MAX;
  geo_base_aligned : m.(m_base) mod guestPageSize = 0;
  geo_size_aligned : m.(m_size) mod guestPageSize = 0
}.

(** Every byte of a mapping has a backing, in its own vector or in a live host
    region; only a mapping that can never be accessed may lack one. *)
Definition backed (files : gmap nat (list Z)) (m : Mapping) : Prop :=
  match m.(m_fileBytes) with
  | Some f => exists contents, files !! f = Some contents /\
      0 <= m.(m_fileDataOffset) /\ m.(m_fileDataOffset) + m.(m_size) <= zlength contents
  | None => zlength m.(m_bytes) = m.(m_size)
  end.

Record mapping_ok (files : gmap nat (list Z)) (m : Mapping) : Prop := {
  mok_geometry : geometry m;
  mok_permissions : 0 <= m.(m_permissions) < 8;
  mok_maximum : 0 <= m.(m_maximumPermissions) < 8;
  mok_within : hasPermission m.(m_maximumPermissions) m.(m_permissions) = true;
  mok_backed : (m.(m_maximumPermissions) = Permission_None /\ m.(m_fileBytes) = None) \/
    backed files m;
  mok_readable : m.(m_readableBytes) = [] \/ zlength m.(m_readableBytes) = m.(m_size);
  mok_vector : zlength m.(m_bytes) <= m.(m_size)
}.

Fixpoint ordered (ms : list Mapping) : Prop :=
  match ms with
  | [] => True
  | m :: ms' => Forall (fun n => m_end m <= n.(m_base)) ms' /\ ordered ms'
  end.

(** A valid cache entry records the bounds of a mapping of the vector; its index
    may be stale, which [find] detects by comparing bases. *)
Definition entry_ok (ms : list Mapping) (e : MappingLookupEntry) : Prop :=
  e.(e_valid) = true -> exists m, m ∈ ms /\ m.(m_base) = e.(e_base) /\ m_end m = e.(e_end).
Definition cache_ok (s : AddressSpace) : Prop :=
  length s.(as_lookup) = mappingLookupSize /\ Forall (entry_ok s.(as_mappings)) s.(as_lookup).

(** Slices of one host region never overlap inside it. *)
Definition disjoint_backing (m n : Mapping) : Prop :=
  match m.(m_fileBytes), n.(m_fileBytes) with
  | Some f, Some g => f = g ->
      m.(m_fileDataOffset) + m.(m_size) <= n.(m_fileDataOffset) \/
      n.(m_fileDataOffset) + n.(m_size) <= m.(m_fileDataOffset)
  | _, _ => True
  end.
Fixpoint alias_ok (ms : list Mapping) : Prop :=
  match ms with
  | [] => True
  | m :: ms' => Forall (disjoint_backing m) ms' /\ alias_ok ms'
  end.

Definition fresh_ok (s : AddressSpace) : Prop :=
  (forall f, is_Some (s.(as_files) !! f) -> (f < s.(as_next))%nat) /\
  Forall (fun m => forall f, m.(m_fileBytes) = Some f -> (f < s.(as_next))%nat) s.(as_mappings).

Record inv (s : AddressSpace) : Prop := {
  inv_ordered : ordered s.(as_mappings);
  inv_mappings : Forall (mapping_ok s.(as_files)) s.(as_mappings);
  inv_cache : cache_ok s;
  inv_alias : alias_ok s.(as_mappings);
  inv_fresh : fresh_ok s
}.

(** No mapping of the space is lazily transformed. *)
Definition eager (s : AddressSpace) : Prop :=
  Forall (fun m => m.(m_lazyFileTransform) = None) s.(as_mappings).

(** ** Abstract view *)

Fixpoint mapping_at (ms : list Mapping) (a : Z) : option Mapping :=
  match ms with
  | [] => None
  | m :: ms' => if contains m a then Some m else mapping_at ms' a
  end.

Definition mapping_byte (files : gmap nat (list Z)) (m : Mapping) (off : Z) : option Z :=
  match m.(m_fileBytes) with
  | Some f => files !! f ≫= fun l => l !! Z.to_nat (m.(m_fileDataOffset) + off)
  | None => m.(m_bytes) !! Z.to_nat off
  end.

(** The byte stored at a guest address, whatever its permissions. *)
Definition byte_at (s : AddressSpace) (a : Z) : option Z :=
  mapping_at s.(as_mappings) a ≫= fun m => mapping_byte s.(as_files) m (a - m.(m_base)).
Definition perm_at (s : AddressSpace) (a : Z) : option Z :=
  m_permissions <$> mapping_at s.(as_mappings) a.
Definition max_at (s : AddressSpace) (a : Z) : option Z :=
  m_maximumPermissions <$> mapping_at s.(as_mappings) a.

(** What a search for [size] bytes at [address] returns, cache aside. *)
Definition find_result (ms : list Mapping) (address size required : Z) : outcome nat :=
  match upper_bound ms address with
  | O => Throw unmapped_error
  | S i =>
      match ms !! i with
      | None => Undefined
      | Some m =>
          if rangeContains m.(m_base) m.(m_size) address size then
            if hasPermission m.(m_permissions) required then Ok i else Throw permission_error
          else Throw unmapped_error
      end
  end.

(** Two states that differ in their lookup cache only. *)
Definition same_memory (s s' : AddressSpace) : Prop := s' = set_lookup s'.(as_lookup) s.

(** ** Ordered vectors *)

Lemma contains_spec m a : contains m a = true <-> m.(m_base) <= a < m_end m.
Proof. unfold contains. rewrite andb_true_iff, Z.leb_le, Z.ltb_lt. lia. Qed.

Lemma contains_false m a : contains m a = false <-> ~ m.(m_base) <= a < m_end m.
Proof. rewrite <- contains_spec. by destruct (contains m a). Qed.

Lemma ordered_app l1 l2 : ordered (l1 ++ l2) <->
  ordered l1 /\ ordered l2 /\ Forall (fun a => Forall (fun b => m_end a <= b.(m_base)) l2) l1.
Proof.
  induction l1 as [|m l1 IH]; cbn.
  - split; [intros; split_and!; done|tauto].
  - rewrite IH. split.
    + intros [H (? & ? & ?)]. apply Forall_app in H as [? ?].
      by split_and!; auto.
    + intros ([H1 H2] & Ho & H). inversion H; subst.
      by split_and!; auto using Forall_app_2.
Qed.

Lemma ordered_take n ms : ordered ms -> ordered (take n ms).
Proof. intros H. rewrite <- (take_drop n ms), ordered_app in H. tauto. Qed.
Lemma ordered_drop n ms : ordered ms -> ordered (drop n ms).
Proof. intros H. rewrite <- (take_drop n ms), ordered_app in H. tauto. Qed.

Lemma ordered_lookup ms i j a b : ordered ms -> (i < j)%nat ->
  ms !! i = Some a -> ms !! j = Some b -> m_end a <= b.(m_base).
Proof.
  revert i j. induction ms as [|m ms IH]; intros i j Ho Hij Hi Hj; [done|].
  destruct Ho as [Hm Ho].
  destruct i as [|i], j as [|j]; cbn in *; try lia; simplify_eq.
  - rewrite Forall_lookup in Hm. by apply (Hm j).
  - apply (IH i j); auto with lia.
Qed.

Lemma mapping_at_lookup ms i m a : ordered ms -> Forall geometry ms ->
  ms !! i = Some m -> contains m a = true -> mapping_at ms a = Some m.
Proof.
  revert i. induction ms as [|n ms IH]; intros i Ho Hgs Hi Hc; [done|].
  destruct Ho as [Hn Ho]. inversion Hgs as [|? ? Hg Hgs']; subst.
  destruct i as [|i]; cbn in *; simplify_eq; [by rewrite Hc|].
  replace (contains n a) with false; [by apply (IH i)|].
  symmetry. rewrite contains_false. rewrite contains_spec in Hc.
  rewrite Forall_lookup in Hn. specialize (Hn _ _ Hi). lia.
Qed.

Lemma mapping_at_Some ms a m : mapping_at ms a = Some m ->
  contains m a = true /\ exists i, ms !! i = Some m.
Proof.
  induction ms as [|n ms IH]; cbn; [done|]. case_match; intros; simplify_eq.
  - split; [done|]. by exists O.
  - destruct IH as (? & i & ?); [done|]. split; [done|]. by exists (S i).
Qed.

Lemma mapping_at_None ms a : mapping_at ms a = None <-> Forall (fun m => contains m a = false) ms.
Proof.
  induction ms as [|n ms IH]; cbn; [done|]. rewrite Forall_cons.
  destruct (contains n a); [split; [done|by intros [? _]]|]. rewrite IH. tauto.
Qed.

Lemma mapping_at_app l1 l2 a : mapping_at (l1 ++ l2) a =
  match mapping_at l1 a with Some m => Some m | None => mapping_at l2 a end.
Proof. induction l1 as [|m l1 IH]; cbn; [done|]. by destruct (contains m a). Qed.

(** ** Partition points *)

Lemma upper_bound_length ms v : (upper_bound ms v <= length ms)%nat.
Proof. induction ms; cbn; [lia|]. case_if; lia. Qed.
Lemma lower_bound_length ms v : (lower_bound ms v <= length ms)%nat.
Proof. induction ms; cbn; [lia|]. case_if; lia. Qed.

Lemma upper_bound_S ms a i : upper_bound ms a = S i ->
  exists m, ms !! i = Some m /\ m.(m_base) <= a.
Proof.
  revert i. induction ms as [|n ms IH]; cbn; intros i; [done|].
  destruct (Z.ltb_spec a n.(m_base)); [done|]. intros [= E].
  destruct i as [|i]; [by exists n|]. apply (IH i E).
Qed.

Lemma upper_bound_hit ms i m a : ordered ms -> Forall geometry ms ->
  ms !! i = Some m -> contains m a = true -> upper_bound ms a = S i.
Proof.
  revert i. induction ms as [|n ms IH]; intros i Ho Hgs Hi Hc; [done|].
  destruct Ho as [Hn Ho]. inversion Hgs as [|? ? Hg Hgs']; subst.
  rewrite contains_spec in Hc. cbn. destruct i as [|i]; cbn in Hi; simplify_eq.
  - destruct (Z.ltb_spec a m.(m_base)); [lia|]. f_equal.
    destruct ms as [|n ms]; cbn; [done|].
    apply Forall_cons in Hn as [Hn _]. destruct (Z.ltb_spec a n.(m_base)); [done|lia].
  - pose proof Hn as Hn'. rewrite Forall_lookup in Hn'. specialize (Hn' _ _ Hi).
    destruct Hg as [_ Hsz _ _ _]. unfold m_end in *.
    destruct (Z.ltb_spec a n.(m_base)); [lia|].
    rewrite (IH i); auto. by rewrite contains_spec.
Qed.

Lemma rangeContains_spec m a n : 1 <= n ->
  rangeContains m.(m_base) m.(m_size) a n = true <-> m.(m_base) <= a /\ a + n <= m_end m.
Proof.
  intros Hn. unfold rangeContains, m_end.
  destruct (Z.ltb_spec a m.(m_base)), (Z.ltb_spec m.(m_size) n); cbn;
    rewrite ?Z.leb_le; split; intros; try done; lia.
Qed.

Lemma rangeContains_contains m a : rangeContains m.(m_base) m.(m_size) a 1 = contains m a.
Proof.
  apply Bool.eq_iff_eq_true. rewrite rangeContains_spec, contains_spec by lia. lia.
Qed.

(** [find_result] in terms of the abstract view. *)
Lemma find_result_view ms a n r : ordered ms -> Forall geometry ms -> 1 <= n ->
  find_result ms a n r =
  match mapping_at ms a with
  | Some m =>
      if a + n <=? m_end m
      then if hasPermission m.(m_permissions) r
           then Ok (Nat.pred (upper_bound ms a)) else Throw permission_error
      else Throw unmapped_error
  | None => Throw unmapped_error
  end.
Proof.
  intros Ho Hg Hn. destruct (mapping_at ms a) as [m|] eqn:Hm.
  - apply mapping_at_Some in Hm as (Hc & i & Hi).
    unfold find_result. rewrite (upper_bound_hit ms i m a), Hi by done. cbn.
    replace (rangeContains _ _ _ _) with (a + n <=? m_end m); [done|].
    apply Bool.eq_iff_eq_true. rewrite rangeContains_spec, Z.leb_le by lia.
    rewrite contains_spec in Hc. lia.
  - unfold find_result. destruct (upper_bound ms a) as [|i] eqn:Hub; [done|].
    apply upper_bound_S in Hub as (m & Hi & Hb). rewrite Hi.
    replace (rangeContains _ _ _ _) with false; [done|]. symmetry.
    apply not_true_is_false. rewrite rangeContains_spec by lia. intros [_ He].
    apply mapping_at_None in Hm. rewrite Forall_lookup in Hm.
    specialize (Hm _ _ Hi). rewrite contains_false in Hm. lia.
Qed.

(** ** The cached search *)

Lemma mappings_geometry files ms : Forall (mapping_ok files) ms -> Forall geometry ms.
Proof. intros H. eapply Forall_impl; [done|]. by intros m []. Qed.

Lemma ordered_base_unique ms i m n : ordered ms -> Forall geometry ms ->
  ms !! i = Some m -> n ∈ ms -> m.(m_base) = n.(m_base) -> m = n.
Proof.
  intros Ho Hg Hi [j Hj]%list_elem_of_lookup Hb.
  assert (forall k q, ms !! k = Some q -> mapping_at ms q.(m_base) = Some q) as H.
  { intros k q Hk. apply (mapping_at_lookup _ k); try done. apply contains_spec.
    rewrite Forall_lookup in Hg. destruct (Hg _ _ Hk) as [_ Hs _ _ _]. unfold m_end. lia. }
  apply H in Hi, Hj. congruence.
Qed.

Lemma lookupIndex_bound a : (lookupIndex a < 16)%nat.
Proof.
  unfold lookupIndex. match goal with |- context [Z.land ?x 15] => set (y := x) end.
  assert (Z.land y 15 = y mod 16) as -> by (by apply (Z.land_ones y 4)).
  pose proof (Z.mod_pos_bound y 16). lia.
Qed.

Lemma set_lookup_cache s : same_memory s s.
Proof. by destruct s. Qed.

Lemma same_memory_trans s1 s2 s3 : same_memory s1 s2 -> same_memory s2 s3 -> same_memory s1 s3.
Proof. unfold same_memory. intros -> ->. done. Qed.

Lemma inv_same_memory s s' : same_memory s s' -> cache_ok s' -> inv s -> inv s'.
Proof. intros -> Hc [Ho Hm _ Ha Hf]. by split. Qed.

Lemma eager_same_memory s s' : same_memory s s' -> eager s -> eager s'.
Proof. by intros ->. Qed.

Lemma find_search_spec a n r s : cache_ok s ->
  exists s', find_search a n r s = (s', find_result s.(as_mappings) a n r) /\
    same_memory s s' /\ cache_ok s'.
Proof.
  intros Hc. unfold find_search, find_result.
  assert (same_memory s s) by apply set_lookup_cache.
  destruct (upper_bound s.(as_mappings) a) as [|i] eqn:Hub; [by exists s|].
  destruct (s.(as_mappings) !! i) as [m|] eqn:Hi; [|by exists s].
  destruct (rangeContains _ _ _ _); [|by exists s].
  destruct (hasPermission _ _); cbn; [|by exists s].
  eexists; split_and!; [done|done|].
  destruct Hc as [Hl Hes]. split; cbn; [by rewrite length_insert|].
  apply Forall_insert; [done|]. intros _. exists m. cbn. split; [by eapply list_elem_of_lookup_2|done].
Qed.

(** [find] agrees with the uncached search on every coherent cache. *)
Lemma find_spec a n r s : ordered s.(as_mappings) -> Forall geometry s.(as_mappings) ->
  cache_ok s -> 1 <= n ->
  exists s', find a n r s = (s', find_result s.(as_mappings) a n r) /\
    same_memory s s' /\ cache_ok s'.
Proof.
  intros Ho Hg Hc Hn. unfold find.
  destruct (_ && _ && _ && _ && _) eqn:Hhit; [|by apply find_search_spec].
  bool_to_prop. rename H into Hv.
  set (e := default emptyEntry (s.(as_lookup) !! lookupIndex a)) in *.
  destruct (s.(as_mappings) !! e.(e_index)) as [m|] eqn:Hm.
  2:{ apply lookup_ge_None in Hm. apply Nat.ltb_lt in H3. lia. }
  destruct (Z.eqb_spec m.(m_base) e.(e_base)) as [Hb|]; [|by apply find_search_spec].
  assert (entry_ok s.(as_mappings) e) as He.
  { subst e. destruct (s.(as_lookup) !! lookupIndex a) eqn:El; [|done].
    destruct Hc as [_ Hes]. rewrite Forall_lookup in Hes. by eapply Hes. }
  destruct (He Hv) as (k & Hk & Hnb & Hne).
  rewrite <- (ordered_base_unique _ _ _ _ Ho Hg Hm Hk) in Hne by congruence.
  clear He. rename Hne into He. exists s. split_and!; [|by destruct s|done].
  assert (contains m a = true) as Hca by (rewrite contains_spec; lia).
  unfold find_result. rewrite (upper_bound_hit _ _ m a), Hm by done.
  rewrite (proj2 (rangeContains_spec m a n Hn)) by lia.
  by destruct (hasPermission _ _).
Qed.

Lemma find_inv a n r s : inv s -> 1 <= n ->
  exists s', find a n r s = (s', find_result s.(as_mappings) a n r) /\
    same_memory s s' /\ inv s'.
Proof.
  intros Hi Hn.
  destruct (find_spec a n r s) as (s' & E & Hs & Hc);
    [apply Hi | eapply mappings_geometry, Hi | apply Hi | done |].
  exists s'. split_and!; [done|done|]. by eapply inv_same_memory.
Qed.

(** C1: searching the guest mappings is independent of the lookup cache: on
    every well-formed space [find] returns the index of the unique mapping that
    holds the whole range when it grants the required permission, throws the
    permission error when it does not, the unmapped error when no mapping holds
    the range, never reads out of bounds, and changes nothing but the cache. *)
Theorem find_correct a n r s : inv s -> 1 <= n ->
  exists s', find a n r s = (s',
    match mapping_at s.(as_mappings) a with
    | Some m =>
        if a + n <=? m_end m
        then if hasPermission m.(m_permissions) r
             then Ok (Nat.pred (upper_bound s.(as_mappings) a)) else Throw permission_error
        else Throw unmapped_error
    | None => Throw unmapped_error
    end) /\ same_memory s s' /\ inv s'.
Proof.
  intros Hi Hn. destruct (find_inv a n r s Hi Hn) as (s' & E & Hs & Hi').
  exists s'. split_and!; [|done|done]. rewrite E, find_result_view; [done|apply Hi| |done].
  eapply mappings_geometry, Hi.
Qed.

(** ** A concrete space: an inaccessible page, a code page and two data pages. *)

Definition samplePageZero : Mapping := mkMapping 0 4096 0 0 [] None 0 None [] "__PAGEZERO".
Definition sampleCode : Mapping :=
  mkMapping 4096 4096 5 7 (replicate (Z.to_nat 4096) 144) None 0 None [] "__TEXT".
Definition sampleData : Mapping := mkMapping 8192 8192 3 3 [] (Some O) 0 None [] "__DATA".
Definition sampleSpace : AddressSpace :=
  mkAddressSpace [samplePageZero; sampleCode; sampleData] emptyLookup 0
    {[ O := replicate (Z.to_nat 8192) 7 ]} ∅ 1.

Lemma emptyLookup_ok ms : length emptyLookup = mappingLookupSize /\ Forall (entry_ok ms) emptyLookup.
Proof. split; [done|]. by apply Forall_replicate. Qed.

Lemma sampleSpace_inv : inv sampleSpace.
Proof.
  split.
  - cbn. unfold m_end. rewrite ?Forall_cons, ?Forall_nil. cbn. lia.
  - cbn [as_mappings as_files sampleSpace]. rewrite !Forall_cons, Forall_nil. unfold zlength.
    split_and!; [..|done]; repeat split; cbn; unfold m_end, UINT64_MAX, zlength; cbn; try lia;
      try (left; done).
    + right. cbn. by rewrite length_replicate.
    + by rewrite length_replicate.
    + right. exists (replicate (Z.to_nat 8192) 7). unfold zlength.
      rewrite length_replicate. split_and!; [done|cbn; lia|cbn; lia].
  - apply emptyLookup_ok.
  - cbn. repeat constructor.
  - split.
    + intros f. cbn. rewrite lookup_singleton_is_Some. intros <-. lia.
    + cbn [as_mappings sampleSpace]. rewrite !Forall_cons, Forall_nil.
      split_and!; try done; cbn; intros f [= <-]; lia.
Qed.

Lemma sampleSpace_eager : eager sampleSpace.
Proof. repeat constructor. Qed.

Lemma find_correct_witness : inv sampleSpace /\
  exists s', find 8200 8 Permission_Write sampleSpace = (s', Ok 2%nat).
Proof.
  split; [apply sampleSpace_inv|].
  destruct (find_correct 8200 8 Permission_Write sampleSpace sampleSpace_inv ltac:(lia))
    as (s' & E & _).
  exists s'. exact E.
Defined.
