(* ===== verification/AddressSpaceAccess.v ===== *)
(** Reading and writing guest memory: the chunked, cached operations of
    [AddressSpace] against a byte-at-a-time specification.

    [access] resolves one guest address, [fetch] reads one byte and [fetch_all]
    a run of bytes; [check_all] validates a run.  None of them mentions the
    lookup cache, chunks or fast paths. *)
From S2P Require Import Prelude AddressSpace AddressSpaceInv.

(** ** Specification *)

Definition access (s : AddressSpace) (required a : Z) : outcome Mapping :=
  match mapping_at s.(as_mappings) a with
  | None => Throw unmapped_error
  | Some m => if hasPermission m.(m_permissions) required then Ok m else Throw permission_error
  end.

(** The byte of a sparse mapping at this offset has not been populated. *)
Definition sparse_hole (m : Mapping) (off : Z) : bool :=
  match m.(m_readableBytes) !! Z.to_nat off with Some b => b =? 0 | None => false end.

Definition fetch (s : AddressSpace) (a : Z) : outcome Z :=
  let! m := access s Permission_Read a in
  if sparse_hole m (a - m.(m_base)) then Throw sparse_error
  else match mapping_byte s.(as_files) m (a - m.(m_base)) with
       | Some b => Ok b
       | None => Undefined
       end.

Fixpoint fetch_all (s : AddressSpace) (a : Z) (n : nat) : outcome (list Z) :=
  match n with
  | O => Ok []
  | S n' =>
      let! b := fetch s a in
      let! bs := fetch_all s (u64 (a + 1)) n' in
      Ok (b :: bs)
  end.

(** The first error among the [n] addresses from [a]. *)
Fixpoint check_all (s : AddressSpace) (required a : Z) (n : nat) : outcome unit :=
  match n with
  | O => Ok tt
  | S n' => let! _ := access s required a in check_all s required (u64 (a + 1)) n'
  end.

Definition exec_at (s : AddressSpace) (a : Z) : bool :=
  match perm_at s a with Some p => isExecutable p | None => false end.
Definition executable_in (s : AddressSpace) (a : Z) (n : nat) : bool :=
  existsb (fun k => exec_at s (a + Z.of_nat k)) (seq 0 n).

(** ** Resolving one address *)

Lemma same_memory_fields s s' : same_memory s s' ->
  s'.(as_mappings) = s.(as_mappings) /\ s'.(as_files) = s.(as_files) /\
  s'.(as_executableVersion) = s.(as_executableVersion) /\ s'.(as_transforms) = s.(as_transforms).
Proof. by intros ->. Qed.

Lemma access_same s s' r a : same_memory s s' -> access s' r a = access s r a.
Proof. by intros ->. Qed.

Lemma fetch_same s s' a : same_memory s s' -> fetch s' a = fetch s a.
Proof. by intros ->. Qed.

Lemma fetch_all_same s s' n : same_memory s s' -> forall a, fetch_all s' a n = fetch_all s a n.
Proof.
  intros Hs. induction n as [|n IH]; intros a; cbn; [done|].
  rewrite (fetch_same s s') by done. destruct (fetch s a); cbn; by rewrite ?IH.
Qed.

Lemma check_all_same s s' r n : same_memory s s' -> forall a, check_all s' r a n = check_all s r a n.
Proof.
  intros Hs. induction n as [|n IH]; intros a; cbn; [done|].
  rewrite (access_same s s') by done. destruct (access s r a); cbn; by rewrite ?IH.
Qed.

Lemma access_Ok s r a m : access s r a = Ok m ->
  mapping_at s.(as_mappings) a = Some m /\ hasPermission m.(m_permissions) r = true.
Proof. unfold access. repeat case_match; by intros [= <-]. Qed.

(** [find] followed by the dereference of its result resolves the address. *)
Lemma find_deref {A} a r s (k : nat -> Mapping -> M AddressSpace A) : inv s ->
  exists s', same_memory s s' /\ inv s' /\
  match access s r a with
  | Ok m => exists i, s.(as_mappings) !! i = Some m /\
      bind (find a 1 r) (fun i => bind (deref i) (k i)) s = k i m s'
  | Throw e => bind (find a 1 r) (fun i => bind (deref i) (k i)) s = (s', Throw e)
  | Undefined => False
  end.
Proof.
  intros Hi. destruct (find_inv a 1 r s Hi ltac:(lia)) as (s' & E & Hs & Hi').
  exists s'. split_and!; [done|done|].
  pose proof (mappings_geometry _ _ (inv_mappings _ Hi)) as Hg.
  pose proof (inv_ordered _ Hi) as Ho.
  rewrite find_result_view in E by (done || lia). unfold access.
  destruct (mapping_at s.(as_mappings) a) as [m|] eqn:Hm; [|by apply bind_throw].
  apply mapping_at_Some in Hm as (Hc & i & Hl). pose proof Hc as Hc'.
  rewrite contains_spec in Hc'.
  replace (a + 1 <=? m_end m) with true in E by (symmetry; apply Z.leb_le; lia).
  destruct (hasPermission _ _); [|by apply bind_throw].
  rewrite (upper_bound_hit _ i m a) in E by done. cbn in E.
  exists i. split; [done|]. rewrite (bind_ok _ _ _ _ _ E). unfold bind, deref.
  destruct (same_memory_fields _ _ Hs) as [-> _]. by rewrite Hl.
Qed.

(** ** Runs of bytes inside one mapping *)

Lemma access_in s r a m b : inv s -> access s r a = Ok m -> contains m b = true ->
  access s r b = Ok m.
Proof.
  intros Hi (Hm & Hp)%access_Ok Hb. apply mapping_at_Some in Hm as (_ & i & Hl).
  unfold access. rewrite (mapping_at_lookup _ i m b); [by rewrite Hp|apply Hi| |done|done].
  eapply mappings_geometry, Hi.
Qed.

Lemma access_mapping_ok s r a m : inv s -> access s r a = Ok m -> mapping_ok s.(as_files) m.
Proof.
  intros Hi (Hm & _)%access_Ok. apply mapping_at_Some in Hm as (_ & i & Hl).
  pose proof (inv_mappings _ Hi) as H. rewrite Forall_lookup in H. by eapply H.
Qed.

Lemma contains_bounds s r a m b : inv s -> access s r a = Ok m -> contains m b = true ->
  0 <= b < UINT64_MAX.
Proof.
  intros Hi Ha Hb. destruct (access_mapping_ok _ _ _ _ Hi Ha) as [[] _ _ _ _ _ _].
  rewrite contains_spec in Hb. lia.
Qed.

(** An accessible mapping has a backing. *)
Lemma access_backed s r a m : inv s -> access s r a = Ok m -> r <> 0 ->
  backed s.(as_files) m.
Proof.
  intros Hi Ha Hr. destruct (access_mapping_ok _ _ _ _ Hi Ha) as [_ _ _ Hw [[Hn _]|Hb] _ _]; [|done].
  apply access_Ok in Ha as [_ Hp]. unfold hasPermission in *. rewrite Hn in Hw.
  bool_to_prop. change (Z.land Permission_None (m_permissions m)) with 0 in Hw.
  rewrite <- Hw, Z.land_0_l in Hp. by subst.
Qed.

(** The bytes of a mapping, wherever they live. *)
Definition contents (files : gmap nat (list Z)) (m : Mapping) : list Z :=
  match m.(m_fileBytes) with
  | Some f => subspan (default [] (files !! f)) m.(m_fileDataOffset) m.(m_size)
  | None => m.(m_bytes)
  end.

Lemma subspan_subspan l a n b k : 0 <= a -> 0 <= b -> 0 <= k -> b + k <= n ->
  subspan (subspan l a n) b k = subspan l (a + b) k.
Proof.
  intros. unfold subspan. rewrite skipn_firstn_comm, take_take, drop_drop.
  f_equal; [lia|]. f_equal. lia.
Qed.

Lemma contents_length files m : geometry m -> backed files m -> zlength (contents files m) = m.(m_size).
Proof.
  intros [_ Hsz _ _ _]. unfold backed, contents. destruct m.(m_fileBytes) as [f|]; [|done].
  intros (l & Hl & Ho & Hlen). rewrite Hl. unfold zlength. cbn [default from_option id].
  rewrite length_subspan by lia. lia.
Qed.

Lemma mapping_byte_contents files m off : 0 <= off < m.(m_size) -> backed files m ->
  mapping_byte files m off = contents files m !! Z.to_nat off.
Proof.
  intros Hoff Hb. unfold backed, mapping_byte, contents in *.
  destruct m.(m_fileBytes) as [f|]; [|done]. destruct Hb as (l & Hl & Ho & Hlen).
  rewrite Hl. unfold subspan. cbn.
  rewrite lookup_take_lt, lookup_drop by lia. f_equal. lia.
Qed.

Lemma mapping_read_eager m off n s : m.(m_lazyFileTransform) = None -> geometry m ->
  backed s.(as_files) m -> 0 <= off -> 0 <= n -> off + n <= m.(m_size) ->
  mapping_read m off n s = (s, Ok (subspan (contents s.(as_files) m) off n)).
Proof.
  intros Hz [_ Hsz _ _ _] Hb Ho Hn Hon.
  unfold mapping_read, materializeFileBytes, contents, backed in *. rewrite Hz.
  destruct m.(m_fileBytes) as [f|].
  - destruct Hb as (l & Hl & Hd & Hlen). unfold bind, ret, file_contents, lift, span_read.
    rewrite Hl. cbn. destruct (_ && _ && _) eqn:Hc; [|bool_to_prop; lia].
    by rewrite subspan_subspan by lia.
  - unfold lift, span_read. destruct (_ && _ && _) eqn:Hc; [done|].
    rewrite Hb in Hc. bool_to_prop. destruct Hc as [Hc|Hc]; bool_to_prop; [|lia].
    destruct Hc; bool_to_prop; lia.
Qed.

Lemma check_readable_run m off n s : mapping_ok s.(as_files) m -> 0 <= off -> 0 <= n ->
  off + n <= m.(m_size) ->
  check_readable m off n s =
  (s, if existsb (Z.eqb 0) (subspan m.(m_readableBytes) off n) then Throw sparse_error else Ok tt).
Proof.
  intros Hm Ho Hn Hon. unfold check_readable. destruct (mok_readable _ _ Hm) as [->|Hl].
  - by unfold subspan; rewrite drop_nil, take_nil.
  - destruct m.(m_readableBytes) as [|r rs] eqn:E; [by unfold subspan; rewrite drop_nil, take_nil|].
    rewrite <- E in *. unfold bind, lift, span_read.
    replace (_ && _ && _) with true by (symmetry; rewrite !andb_true_iff, !Z.leb_le; lia).
    by destruct (existsb _ _).
Qed.

Lemma fetch_in s a m b : inv s -> access s Permission_Read a = Ok m -> contains m b = true ->
  fetch s b = if sparse_hole m (b - m.(m_base)) then Throw sparse_error
    else match contents s.(as_files) m !! Z.to_nat (b - m.(m_base)) with
         | Some v => Ok v | None => Undefined end.
Proof.
  intros Hi Ha Hb. unfold fetch. rewrite (access_in _ _ _ _ _ Hi Ha Hb). cbn.
  rewrite mapping_byte_contents; [done| |by eapply access_backed].
  rewrite contains_spec in Hb. unfold m_end in Hb. lia.
Qed.

(** A run that stays inside one mapping. *)
Lemma fetch_run s a m n : inv s -> access s Permission_Read a = Ok m ->
  forall b, m.(m_base) <= b -> b + Z.of_nat n <= m_end m ->
  fetch_all s b n =
  if existsb (Z.eqb 0) (subspan m.(m_readableBytes) (b - m.(m_base)) (Z.of_nat n))
  then Throw sparse_error
  else Ok (subspan (contents s.(as_files) m) (b - m.(m_base)) (Z.of_nat n)).
Proof.
  intros Hi Ha. pose proof (access_mapping_ok _ _ _ _ Hi Ha) as Hm.
  pose proof (access_backed _ _ _ _ Hi Ha ltac:(done)) as Hbk.
  pose proof (contents_length _ _ (mok_geometry _ _ Hm) Hbk) as Hlen.
  induction n as [|n IH]; intros b Hlo Hhi.
  - cbn [fetch_all]. rewrite !subspan_nil by lia. done.
  - assert (contains m b = true) as Hc by (rewrite contains_spec; lia).
    unfold m_end in Hhi. cbn [fetch_all]. rewrite (fetch_in s a m b) by done.
    pose proof (contains_bounds _ _ _ _ _ Hi Ha Hc) as Hbd. unfold UINT64_MAX in Hbd.
    destruct (subspan_cons (contents s.(as_files) m) (b - m.(m_base)) (Z.of_nat (S n)))
      as (v & Hv & Hsub); [lia|lia|lia|].
    rewrite Hv, Hsub. rewrite u64_small by lia. rewrite IH by (unfold m_end; lia).
    replace (Z.of_nat (S n) - 1) with (Z.of_nat n) by lia.
    replace (b + 1 - m.(m_base)) with (b - m.(m_base) + 1) by lia.
    unfold sparse_hole. destruct (mok_readable _ _ Hm) as [Hr|Hr].
    + rewrite Hr. cbn. by unfold subspan; rewrite !drop_nil, !take_nil.
    + destruct (subspan_cons m.(m_readableBytes) (b - m.(m_base)) (Z.of_nat (S n)))
        as (w & Hw & Hsubr); [lia|lia|lia|].
      rewrite Hw, Hsubr. replace (Z.of_nat (S n) - 1) with (Z.of_nat n) by lia.
      cbn [existsb]. rewrite (Z.eqb_sym w 0). destruct (0 =? w); cbn [orb]; [done|]. by destruct (existsb _ _).
Qed.

Lemma fetch_all_app s n k : forall a, 0 <= a -> a + Z.of_nat n < 2 ^ 64 ->
  fetch_all s a (n + k) =
  let! l1 := fetch_all s a n in
  let! l2 := fetch_all s (u64 (a + Z.of_nat n)) k in Ok (l1 ++ l2).
Proof.
  induction n as [|n IH]; intros a Ha Hn.
  - cbn. rewrite Z.add_0_r, u64_small by lia. by destruct (fetch_all _ _ _).
  - cbn [Nat.add fetch_all]. rewrite u64_small by lia.
    rewrite IH by lia. destruct (fetch s a); cbn; [|done|done].
    rewrite (u64_small (a + 1 + _)), u64_small by lia.
    replace (a + 1 + Z.of_nat n) with (a + Z.of_nat (S n)) by lia.
    destruct (fetch_all s (a + 1) n); cbn; [|done|done]. by destruct (fetch_all s _ k).
Qed.

Lemma eager_lookup s i m : eager s -> s.(as_mappings) !! i = Some m ->
  m.(m_lazyFileTransform) = None.
Proof. unfold eager. rewrite Forall_lookup. eauto. Qed.

Lemma same_memory_lookup s s' : same_memory s s' ->
  s'.(as_mappings) = s.(as_mappings) /\ s'.(as_files) = s.(as_files).
Proof. by intros ->. Qed.

Lemma access_contains s r a m : access s r a = Ok m -> contains m a = true.
Proof. intros [H _]%access_Ok. by apply mapping_at_Some in H as [? _]. Qed.

(** One chunk of [readInto]. *)
Lemma read_chunk s s' a m n : inv s -> eager s -> same_memory s s' ->
  access s Permission_Read a = Ok m -> 0 <= n -> a + n <= m_end m ->
  (check_readable m (a - m.(m_base)) n ;;; mapping_read m (a - m.(m_base)) n) s' =
  (s', fetch_all s a (Z.to_nat n)).
Proof.
  intros Hi He Hs Ha Hn Hend. pose proof (access_contains _ _ _ _ Ha) as Hc.
  rewrite contains_spec in Hc. unfold m_end in *.
  rewrite (fetch_run s a m) by (unfold m_end; done || lia). rewrite Z2Nat.id by lia.
  destruct (same_memory_lookup _ _ Hs) as [Em Ef].
  pose proof (access_mapping_ok _ _ _ _ Hi Ha) as Hm.
  pose proof (access_backed _ _ _ _ Hi Ha ltac:(done)) as Hbk.
  rewrite <- Ef in Hm, Hbk. rewrite <- Ef.
  apply access_Ok in Ha as [(_ & i & Hl)%mapping_at_Some _].
  unfold bind. rewrite check_readable_run by (done || lia).
  destruct (existsb _ _); [done|]. apply mapping_read_eager; try done; try lia; [|apply Hm].
  by eapply eager_lookup.
Qed.

Lemma fetch_all_fail s a n e : access s Permission_Read a = Throw e ->
  fetch_all s a (S n) = Throw e.
Proof. intros H. cbn. unfold fetch. by rewrite H. Qed.

Lemma readInto_loop_done fuel a n s : n <= 0 -> readInto_loop fuel a n s = (s, Ok []).
Proof. intros Hn. destruct fuel; cbn; by destruct (Z.leb_spec n 0); [|lia]. Qed.

Lemma readInto_loop_spec fuel : forall s a n, inv s -> eager s -> in_range 64 a ->
  (Z.to_nat n <= fuel)%nat ->
  exists s', readInto_loop fuel a n s = (s', fetch_all s a (Z.to_nat n)) /\
    same_memory s s' /\ inv s'.
Proof.
  induction fuel as [|fuel IH]; intros s a n Hi He Ha Hf; destruct (Z.leb_spec n 0).
  1,3: exists s; rewrite readInto_loop_done by done; replace (Z.to_nat n) with O by lia;
    split_and!; [done|apply set_lookup_cache|done].
  1: lia.
  cbn [readInto_loop]. destruct (Z.leb_spec n 0); [lia|].
  match goal with |- context [bind (find a 1 ?r) (fun i => bind (deref i) (@?k i))] =>
    destruct (find_deref a r s k Hi) as (s1 & Hs1 & Hi1 & Hcase) end.
  replace (Z.to_nat n) with (S (Z.to_nat (n - 1))) by lia.
  destruct (access s Permission_Read a) as [m|e|] eqn:Hacc; [|by exists s1; rewrite fetch_all_fail with (e := e)|done].
  destruct Hcase as (i & Hl & ->).
  pose proof (access_contains _ _ _ _ Hacc) as Hc.
  pose proof (contains_bounds _ _ _ _ _ Hi Hacc Hc) as Hb. unfold UINT64_MAX in Hb.
  pose proof (access_mapping_ok _ _ _ _ Hi Hacc) as [[_ _ Hmax _ _] _ _ _ _ _ _].
  unfold UINT64_MAX in Hmax. rewrite contains_spec in Hc. unfold m_end in Hc, Hmax.
  set (chunk := Z.min n _).
  assert (1 <= chunk <= n /\ a + chunk <= m_end m) as [Hch Hend] by (unfold m_end; lia).
  rewrite <- bind_assoc. unfold bind at 1. rewrite (read_chunk s) by (done || lia).
  destruct (IH s1 (u64 (a + chunk)) (n - chunk)) as (s2 & E2 & Hs2 & Hi2);
    [done|by eapply eager_same_memory|apply u64_range|lia|].
  rewrite (fetch_all_same s s1) in E2 by done.
  replace (S (Z.to_nat (n - 1))) with (Z.to_nat chunk + Z.to_nat (n - chunk))%nat by lia.
  rewrite fetch_all_app by (unfold m_end in Hend; lia). rewrite Z2Nat.id by lia.
  destruct (fetch_all s a (Z.to_nat chunk)) as [l1|e|]; cbn; [|by exists s1|by exists s1].
  exists s2. unfold bind. rewrite E2. split_and!; [|by eapply same_memory_trans|done].
  by destruct (fetch_all s _ _).
Qed.

Lemma readInto_spec a n s : inv s -> eager s -> in_range 64 a ->
  exists s', readInto a n s = (s', fetch_all s a (Z.to_nat n)) /\ same_memory s s' /\ inv s'.
Proof. intros. by apply readInto_loop_spec. Qed.

Definition word_at (s : AddressSpace) (a width : Z) : outcome Z :=
  let! bytes := fetch_all s a (Z.to_nat width) in Ok (le_value bytes).

Lemma bind_ret {S A B} (c : M S A) (f : A -> B) s s' o : c s = (s', o) ->
  bind c (fun a => ret (f a)) s = (s', outcome_bind o (fun a => Ok (f a))).
Proof. unfold bind. intros ->. by destruct o. Qed.

Lemma readInto_word a width s0 s : inv s -> eager s -> in_range 64 a -> same_memory s0 s ->
  exists s', bind (readInto a width) (fun bytes => ret (le_value bytes)) s =
      (s', word_at s0 a width) /\ same_memory s0 s' /\ inv s'.
Proof.
  intros Hi He Ha Hs. destruct (readInto_spec a width s Hi He Ha) as (s' & E & Hs' & Hi').
  exists s'. rewrite (fetch_all_same s0 s) in E by done.
  split_and!; [by apply bind_ret|by eapply same_memory_trans|done].
Qed.

(** The fast path: the word lies in one mapping without holes. *)
Lemma read_fast s s' a m width : inv s -> eager s -> same_memory s s' ->
  access s Permission_Read a = Ok m -> m.(m_readableBytes) = [] ->
  0 <= width -> a + width <= m_end m ->
  bind (mapping_read m (a - m.(m_base)) width) (fun bytes => ret (le_value bytes)) s' =
  (s', word_at s a width).
Proof.
  intros Hi He Hs Ha Hr Hw Hend. pose proof (read_chunk s s' a m width Hi He Hs Ha Hw Hend) as H.
  unfold check_readable in H. rewrite Hr in H. unfold bind, ret in H. by apply bind_ret.
Qed.

Lemma read_word_spec width a s : inv s -> eager s -> in_range 64 a -> 1 <= width ->
  exists s', read_word width a s = (s', word_at s a width) /\ same_memory s s' /\ inv s'.
Proof.
  intros Hi He Ha Hw. unfold read_word.
  match goal with |- context [bind (find a 1 ?r) (fun i => bind (deref i) (@?k i))] =>
    destruct (find_deref a r s k Hi) as (s1 & Hs1 & Hi1 & Hcase) end.
  destruct (access s Permission_Read a) as [m|e|] eqn:Hacc; [| |done].
  2:{ exists s1. rewrite Hcase. unfold word_at. replace (Z.to_nat width) with (S (Z.to_nat (width - 1))) by lia.
      by rewrite (fetch_all_fail _ _ _ e). }
  destruct Hcase as (i & Hl & ->).
  pose proof (eager_same_memory _ _ Hs1 He) as He1.
  destruct m.(m_readableBytes) eqn:Hr; [|by apply readInto_word].
  destruct (Z.leb_spec width (m.(m_size) - (a - m.(m_base)))); [|by apply readInto_word].
  exists s1. split_and!; [|done|done]. apply read_fast; try done; [lia|]. unfold m_end. lia.
Qed.

Lemma readU8_spec a s : inv s -> eager s -> in_range 64 a ->
  exists s', readU8 a s = (s', word_at s a 1) /\ same_memory s s' /\ inv s'.
Proof.
  intros Hi He Ha. unfold readU8.
  match goal with |- context [bind (find a 1 ?r) (fun i => bind (deref i) (@?k i))] =>
    destruct (find_deref a r s k Hi) as (s1 & Hs1 & Hi1 & Hcase) end.
  destruct (access s Permission_Read a) as [m|e|] eqn:Hacc; [| |done].
  2:{ exists s1. rewrite Hcase. unfold word_at. change (Z.to_nat 1) with (S O).
      by rewrite (fetch_all_fail _ _ _ e). }
  destruct Hcase as (i & Hl & ->).
  pose proof (eager_same_memory _ _ Hs1 He) as He1.
  destruct m.(m_readableBytes) eqn:Hr; [|by apply readInto_word].
  exists s1. split_and!; [|done|done]. apply read_fast; try done.
  apply access_contains in Hacc. rewrite contains_spec in Hacc. lia.
Qed.

Lemma fetch_defined s a : inv s -> fetch s a <> Undefined.
Proof.
  intros Hi. unfold fetch. destruct (access s Permission_Read a) as [m|e|] eqn:Ha; cbn; [|done|].
  2:{ unfold access in Ha. repeat case_match; done. }
  destruct (sparse_hole _ _); [done|].
  pose proof (access_contains _ _ _ _ Ha) as Hc. rewrite contains_spec in Hc. unfold m_end in Hc.
  pose proof (access_mapping_ok _ _ _ _ Hi Ha) as Hm.
  pose proof (access_backed _ _ _ _ Hi Ha ltac:(done)) as Hbk.
  rewrite mapping_byte_contents by (done || lia).
  pose proof (contents_length _ _ (mok_geometry _ _ Hm) Hbk) as Hlen.
  destruct (lookup_lt_is_Some_2 (contents s.(as_files) m) (Z.to_nat (a - m.(m_base)))) as [b ->];
    [unfold zlength in Hlen; lia|done].
Qed.

Lemma fetch_all_defined s n : inv s -> forall a, fetch_all s a n <> Undefined.
Proof.
  intros Hi. induction n as [|n IH]; intros a; cbn; [done|].
  pose proof (fetch_defined s a Hi). destruct (fetch s a); cbn; [|done|done].
  specialize (IH (u64 (a + 1))). by destruct (fetch_all s _ n).
Qed.

Lemma word_at_defined s a w : inv s -> word_at s a w <> Undefined.
Proof.
  intros Hi. unfold word_at. pose proof (fetch_all_defined s (Z.to_nat w) Hi a).
  by destruct (fetch_all _ _ _).
Qed.


