(* ===== verification/AddressSpaceWrite.v ===== *)
(** Writing guest memory: [writeBytes] against a byte-at-a-time specification.

    A write either faults, in which case guest memory is untouched, or updates
    exactly the addressed bytes; it advances the executable version exactly when
    one of them lies in an executable mapping. *)
From S2P Require Import Prelude AddressSpace AddressSpaceInv AddressSpaceAccess.

(** ** Layout-preserving updates *)

(** Mappings that agree on everything but the contents of their vectors. *)
Definition shape (m : Mapping) : Mapping := set_bytes m [].
Definition same_shape (s s' : AddressSpace) : Prop :=
  map shape s'.(as_mappings) = map shape s.(as_mappings) /\
  s'.(as_transforms) = s.(as_transforms) /\ s'.(as_next) = s.(as_next).

Lemma shape_fields m n : shape m = shape n ->
  m.(m_base) = n.(m_base) /\ m.(m_size) = n.(m_size) /\ m.(m_permissions) = n.(m_permissions) /\
  m.(m_maximumPermissions) = n.(m_maximumPermissions) /\ m.(m_fileBytes) = n.(m_fileBytes) /\
  m.(m_fileDataOffset) = n.(m_fileDataOffset) /\ m.(m_readableBytes) = n.(m_readableBytes) /\
  m.(m_lazyFileTransform) = n.(m_lazyFileTransform).
Proof. destruct m, n. unfold shape, set_bytes. cbn. intros [=]. by subst. Qed.

Lemma cons_inj {A} (x y : A) l k : x :: l = y :: k -> x = y /\ l = k.
Proof. by intros [= -> ->]. Qed.

Lemma mapping_at_shape ms ms' a : map shape ms' = map shape ms ->
  shape <$> mapping_at ms' a = shape <$> mapping_at ms a.
Proof.
  revert ms'. induction ms as [|m ms IH]; intros [|m' ms']; cbn; [done..|].
  intros [Hm Hms]%cons_inj. destruct (shape_fields _ _ Hm) as (Eb & Es & _).
  unfold contains, m_end. rewrite Eb, Es. case_match; cbn; [by f_equal|by apply IH].
Qed.

Lemma perm_at_shape s s' a : same_shape s s' -> perm_at s' a = perm_at s a.
Proof.
  intros [Hs _]. pose proof (mapping_at_shape _ _ a Hs) as H. unfold perm_at.
  destruct (mapping_at s'.(as_mappings) a), (mapping_at s.(as_mappings) a); [|done..].
  apply (inj Some) in H. cbn. f_equal. by destruct (shape_fields _ _ H) as (_ & _ & ? & _).
Qed.

Lemma access_shape s s' r a : same_shape s s' ->
  match access s r a, access s' r a with
  | Ok m, Ok m' => shape m' = shape m
  | Throw e, Throw e' => e' = e
  | _, _ => False
  end.
Proof.
  intros [Hs _]. pose proof (mapping_at_shape _ _ a Hs) as H. unfold access.
  destruct (mapping_at s'.(as_mappings) a) as [m'|], (mapping_at s.(as_mappings) a) as [m|];
    [|done..].
  apply (inj Some) in H. destruct (shape_fields _ _ H) as (_ & _ & -> & _). by destruct (hasPermission _ _).
Qed.

Lemma same_shape_refl s : same_shape s s.
Proof. done. Qed.
Lemma same_shape_trans s1 s2 s3 : same_shape s1 s2 -> same_shape s2 s3 -> same_shape s1 s3.
Proof. unfold same_shape. intros (-> & -> & ->) H. exact H. Qed.
Lemma same_memory_shape s s' : same_memory s s' -> same_shape s s'.
Proof. by intros ->. Qed.

Create HintDb rosa_shape.
#[export] Hint Resolve same_shape_refl same_memory_shape same_shape_trans : rosa_shape.

Lemma check_all_shape s s' r n : same_shape s s' -> forall a, check_all s' r a n = check_all s r a n.
Proof.
  intros Hs. induction n as [|n IH]; intros a; cbn; [done|].
  pose proof (access_shape s s' r a Hs).
  destruct (access s r a), (access s' r a); try done; cbn; [apply IH|by f_equal].
Qed.

Lemma geometry_shape m m' : shape m' = shape m -> geometry m -> geometry m'.
Proof.
  intros (Eb & Es & _)%shape_fields []. split; unfold m_end in *; by rewrite ?Eb, ?Es.
Qed.

(** Transport of the list invariants along [map shape]. *)
Lemma Forall_shape (P : Mapping -> Prop) ms ms' :
  (forall m m', shape m' = shape m -> P m -> P m') ->
  map shape ms' = map shape ms -> Forall P ms -> Forall P ms'.
Proof.
  intros HP. revert ms'. induction ms as [|m ms IH]; intros [|m' ms']; cbn; [done..|].
  intros [Hm Hms]%cons_inj. rewrite !Forall_cons. intros [? ?]. eauto.
Qed.

Lemma ordered_shape ms ms' : map shape ms' = map shape ms -> ordered ms -> ordered ms'.
Proof.
  revert ms'. induction ms as [|m ms IH]; intros [|m' ms']; cbn; [done..|].
  intros [Hm Hms]%cons_inj [Hf Ho]. split; [|by apply IH].
  destruct (shape_fields _ _ Hm) as (Eb & Es & _).
  replace (m_end m') with (m_end m) by (unfold m_end; congruence).
  eapply Forall_shape; [|done|exact Hf]. intros n n' (En & _)%shape_fields. by rewrite En.
Qed.

Lemma alias_shape ms ms' : map shape ms' = map shape ms -> alias_ok ms -> alias_ok ms'.
Proof.
  revert ms'. induction ms as [|m ms IH]; intros [|m' ms']; cbn; [done..|].
  intros [Hm Hms]%cons_inj [Hf Ho]. split; [|by apply IH].
  destruct (shape_fields _ _ Hm) as (Eb & Es & _ & _ & Ef & Ed & _).
  apply (Forall_impl (disjoint_backing m)); [|intros n; unfold disjoint_backing; by rewrite Ef, Es, Ed].
  eapply Forall_shape; [|done|exact Hf].
  intros n n' (_ & Ens & _ & _ & Enf & End & _)%shape_fields.
  unfold disjoint_backing. by rewrite Enf, Ens, End.
Qed.

Lemma lookup_shape ms ms' i m' : map shape ms' = map shape ms -> ms' !! i = Some m' ->
  exists m, ms !! i = Some m /\ shape m' = shape m.
Proof.
  intros Hs Hi. assert (map shape ms' !! i = Some (shape m')) as H by (by rewrite list_lookup_fmap, Hi).
  rewrite Hs, list_lookup_fmap in H. destruct (ms !! i) as [m|]; [|done].
  apply (inj Some) in H. eauto.
Qed.

Lemma cache_shape s s' : same_shape s s' -> s'.(as_lookup) = s.(as_lookup) -> cache_ok s -> cache_ok s'.
Proof.
  intros [Hs _] El [Hl He]. split; rewrite El; [done|].
  eapply Forall_impl; [exact He|]. intros e Hent Hv.
  destruct (Hent Hv) as (n & [i Hn]%list_elem_of_lookup & Hb & Hend). symmetry in Hs.
  destruct (lookup_shape _ _ _ _ Hs Hn) as (m & Hm & (Eb & Es & _)%shape_fields).
  exists m. split; [by eapply list_elem_of_lookup_2|]. unfold m_end in *. rewrite <- Eb, <- Es. done.
Qed.

Lemma eager_shape s s' : same_shape s s' -> eager s -> eager s'.
Proof.
  intros [Hs _] He. eapply Forall_shape; [|done|exact He].
  intros m m' H%shape_fields Hm. destruct H as (_ & _ & _ & _ & _ & _ & _ & ->). done.
Qed.

(** ** Writing inside one mapping *)

Lemma disjoint_backing_sym m n : disjoint_backing m n -> disjoint_backing n m.
Proof.
  unfold disjoint_backing. destruct m.(m_fileBytes), n.(m_fileBytes); try done.
  intros H <-. destruct (H eq_refl); lia.
Qed.

Lemma alias_lookup ms i j a b : alias_ok ms -> i <> j ->
  ms !! i = Some a -> ms !! j = Some b -> disjoint_backing a b.
Proof.
  revert i j. induction ms as [|m ms IH]; intros i j Ho Hij Hi Hj; [done|].
  destruct Ho as [Hm Ho]. rewrite Forall_lookup in Hm.
  destruct i as [|i], j as [|j]; cbn in *; simplify_eq; [by eapply Hm| |].
  - apply disjoint_backing_sym. by eapply Hm.
  - eapply (IH i j); auto.
Qed.

Lemma mapping_at_insert ms i m m' x : ordered ms -> Forall geometry ms ->
  ms !! i = Some m -> shape m' = shape m ->
  mapping_at (<[i := m']> ms) x = if contains m x then Some m' else mapping_at ms x.
Proof.
  intros Ho Hg Hi Hs. destruct (shape_fields _ _ Hs) as (Eb & Es & _).
  assert (contains m' x = contains m x) as Ec by (unfold contains, m_end; by rewrite Eb, Es).
  revert i Hi. induction ms as [|n ms IH]; intros [|i] Hi; cbn in *; simplify_eq; [by rewrite Ec; case_if|].
  destruct Ho as [Hn Ho]. inversion Hg as [|? ? Hgn Hgs]; subst.
  destruct (contains n x) eqn:Hcn; [|by apply IH].
  destruct (contains m x) eqn:Hcm; [|done]. rewrite Forall_lookup in Hn. specialize (Hn _ _ Hi).
  rewrite contains_spec in *. lia.
Qed.

(** The bytes of the space after [d] was written at [a]. *)
Definition bytes_written (s s' : AddressSpace) (a : Z) (d : list Z) : Prop :=
  forall x, byte_at s' x =
    if decide (a <= x < a + zlength d) then d !! Z.to_nat (x - a) else byte_at s x.

Section MappingWrite.
Context (s : AddressSpace) (i : nat) (m : Mapping) (off : Z) (d : list Z).
Context (Hinv : inv s) (Hi : s.(as_mappings) !! i = Some m).
Context (Hb : backed s.(as_files) m) (Ho : 0 <= off) (Hend : off + zlength d <= m.(m_size)).

Lemma written_geometry : Forall geometry s.(as_mappings).
Proof using Hinv. eapply mappings_geometry, Hinv. Qed.

Lemma written_vector : m.(m_fileBytes) = None ->
  exists s', mapping_write i off d s = (s', Ok tt) /\ inv s' /\ same_shape s s' /\
    s'.(as_executableVersion) = s.(as_executableVersion) /\
    bytes_written s s' (m.(m_base) + off) d.
Proof using All.
  intros Hf. unfold mapping_write, bind, deref. rewrite Hi, Hf. unfold lift, span_write.
  unfold backed in Hb. rewrite Hf in Hb. rewrite Hb.
  destruct (_ && _) eqn:Hc; [|apply andb_false_iff in Hc; destruct Hc; bool_to_prop; lia].
  set (m' := set_bytes m (overwrite m.(m_bytes) off d)).
  eexists. split; [done|].
  assert (shape m' = shape m) as Hsh by done.
  match goal with |- inv ?s' /\ _ => assert (same_shape s s') as Hss end.
  { unfold same_shape. cbn. split_and!; [|done|done].
    rewrite list_fmap_insert. apply list_insert_id. by rewrite list_lookup_fmap, Hi. }
  split; [|split; [done|split; [done|]]].
  - destruct Hinv as [H1 H2 H3 H4 [H5 H6]]. split; cbn.
    + eapply ordered_shape; [apply Hss|done].
    + apply Forall_insert; [done|]. rewrite Forall_lookup in H2. destruct (H2 _ _ Hi) as [Hg ? ? ? _ ? Hvec].
      assert (length (overwrite m.(m_bytes) off d) = length m.(m_bytes)) as Hlen
        by (apply length_overwrite; unfold zlength in *; lia).
      split; try done; [by eapply geometry_shape| |].
      * right. unfold backed. cbn. rewrite Hf. unfold zlength in *. by rewrite Hlen.
      * cbn. unfold zlength in *. by rewrite Hlen.
    + by eapply cache_shape.
    + eapply alias_shape; [apply Hss|done].
    + split; cbn; [done|]. eapply Forall_shape; [|apply Hss|exact H6].
      intros ? ? (_ & _ & _ & _ & -> & _)%shape_fields. done.
  - intros x. unfold byte_at. cbn.
    rewrite (mapping_at_insert _ i m) by (done || apply Hinv || apply written_geometry).
    destruct (contains m x) eqn:Hc'.
    + apply contains_spec in Hc' as Hx. unfold m_end in Hx.
      rewrite (mapping_at_lookup _ i m x) by (done || apply Hinv || apply written_geometry).
      cbn. unfold mapping_byte. cbn. rewrite Hf, lookup_overwrite by (unfold zlength in *; lia).
      unfold zlength in *. repeat case_decide; try lia; [|done]. f_equal. lia.
    + rewrite contains_false in Hc'. unfold m_end in Hc'. rewrite decide_False by lia. done.
Qed.

Lemma written_file f : m.(m_fileBytes) = Some f ->
  exists s', mapping_write i off d s = (s', Ok tt) /\ inv s' /\ same_shape s s' /\
    s'.(as_executableVersion) = s.(as_executableVersion) /\
    bytes_written s s' (m.(m_base) + off) d.
Proof using All.
  intros Hf. unfold backed in Hb. rewrite Hf in Hb. destruct Hb as (l & Hl & Hd & Hlen).
  unfold mapping_write, bind, deref. rewrite Hi, Hf. unfold file_contents. rewrite Hl.
  unfold lift, span_write.
  destruct (_ && _) eqn:Hc; [|apply andb_false_iff in Hc; destruct Hc; bool_to_prop; lia].
  eexists. split; [done|].
  assert (forall n, backed s.(as_files) n ->
    backed (<[f := overwrite l (m.(m_fileDataOffset) + off) d]> s.(as_files)) n) as Hbk.
  { intros n. unfold backed. destruct n.(m_fileBytes) as [g|]; [|done].
    intros (k & Hk & Hn). destruct (decide (f = g)) as [<-|Hne].
    - rewrite lookup_insert_eq. eexists. split; [done|]. simplify_eq. unfold zlength in *.
      rewrite length_overwrite by (unfold zlength; lia). done.
    - rewrite lookup_insert_ne by done. eauto. }
  split; [|split; [done|split; [done|]]].
  - destruct Hinv as [H1 H2 H3 H4 [H5 H6]]. split; cbn; try done.
    + eapply Forall_impl; [exact H2|]. intros n [? ? ? ? Hn ?]. split; try done.
      destruct Hn; [by left|right]. by apply Hbk.
    + split; cbn; [|done]. intros g. destruct (decide (f = g)) as [<-|Hne].
      * intros _. apply H5. by exists l.
      * rewrite lookup_insert_ne by done. apply H5.
  - intros x. unfold byte_at. cbn. destruct (mapping_at s.(as_mappings) x) as [n|] eqn:Hn; cbn.
    2:{ rewrite decide_False; [done|]. intros Hx. apply mapping_at_None in Hn.
        rewrite Forall_lookup in Hn. specialize (Hn _ _ Hi). rewrite contains_false in Hn.
        unfold m_end in Hn. lia. }
    apply mapping_at_Some in Hn as (Hcn & j & Hj).
    pose proof (inv_alias _ Hinv) as Hal. pose proof (inv_ordered _ Hinv) as Hord.
    apply contains_spec in Hcn as Hx.
    destruct (decide (i = j)) as [<-|Hij].
    + assert (n = m) as -> by congruence. unfold m_end in Hx.
      unfold mapping_byte. rewrite Hf, lookup_insert_eq, Hl. cbn.
      rewrite lookup_overwrite by lia. unfold zlength in *. repeat case_decide; try lia; [|done].
      f_equal. lia.
    + pose proof (alias_lookup _ _ _ _ _ Hal Hij Hi Hj) as Hdis.
      assert (~ m.(m_base) <= x < m_end m) as Hout.
      { destruct (decide (i < j)%nat).
        - pose proof (ordered_lookup _ i j _ _ Hord ltac:(lia) Hi Hj). lia.
        - pose proof (ordered_lookup _ j i _ _ Hord ltac:(lia) Hj Hi). lia. }
      unfold m_end in Hout. rewrite decide_False by lia.
      unfold mapping_byte, disjoint_backing in *. rewrite Hf in Hdis.
      destruct n.(m_fileBytes) as [g|] eqn:Hg; [|done]. destruct (decide (f = g)) as [<-|Hne].
      * specialize (Hdis eq_refl). rewrite lookup_insert_eq, Hl. cbn.
        pose proof (inv_mappings _ Hinv) as Hms. rewrite Forall_lookup in Hms.
        assert (0 <= n.(m_fileDataOffset)) as Hn0.
        { destruct (Hms _ _ Hj) as [_ _ _ _ Hbn _ _]. unfold backed in Hbn.
          rewrite Hg in Hbn. destruct Hbn as [[_ Hbn]|(? & _ & ? & _)]; done. }
        rewrite lookup_overwrite by lia. unfold m_end, zlength in *. rewrite decide_False by lia.
        done.
      * by rewrite lookup_insert_ne by done.
Qed.

Lemma mapping_write_spec :
  exists s', mapping_write i off d s = (s', Ok tt) /\ inv s' /\ same_shape s s' /\
    s'.(as_executableVersion) = s.(as_executableVersion) /\
    bytes_written s s' (m.(m_base) + off) d.
Proof using All.
  destruct m.(m_fileBytes) as [f|] eqn:Hf; [by eapply written_file|by apply written_vector].
Qed.
End MappingWrite.

(** ** Runs of addresses *)

Lemma access_run s r a m n : inv s -> access s r a = Ok m ->
  forall b, m.(m_base) <= b -> b + Z.of_nat n <= m_end m -> check_all s r b n = Ok tt.
Proof.
  intros Hi Ha. induction n as [|n IH]; intros b Hlo Hhi; cbn [check_all]; [done|].
  assert (contains m b = true) as Hc by (rewrite contains_spec; lia).
  pose proof (contains_bounds _ _ _ _ _ Hi Ha Hc) as Hbd. unfold UINT64_MAX in Hbd.
  rewrite (access_in s r a m b) by done. cbn [outcome_bind]. rewrite u64_small by lia. apply IH; lia.
Qed.

Lemma check_all_app s r n k : forall a, 0 <= a -> a + Z.of_nat n < 2 ^ 64 ->
  check_all s r a (n + k) =
  outcome_bind (check_all s r a n) (fun _ => check_all s r (u64 (a + Z.of_nat n)) k).
Proof.
  induction n as [|n IH]; intros a Ha Hn.
  - cbn. by rewrite Z.add_0_r, u64_small by lia.
  - cbn [Nat.add check_all]. rewrite (u64_small (a + 1)) by lia. rewrite IH by lia.
    replace (a + 1 + Z.of_nat n) with (a + Z.of_nat (S n)) by lia. by destruct (access s r a).
Qed.

Lemma executable_in_app s a n k :
  executable_in s a (n + k) = executable_in s a n || executable_in s (a + Z.of_nat n) k.
Proof.
  unfold executable_in. rewrite seq_app, existsb_app. f_equal. cbn [Nat.add].
  assert (forall j, existsb (fun k => exec_at s (a + Z.of_nat k)) (seq (n + j) k) =
    existsb (fun k => exec_at s (a + Z.of_nat n + Z.of_nat k)) (seq j k)) as H.
  { induction k as [|k IH]; intros j; cbn; [done|]. f_equal; [f_equal; lia|].
    rewrite <- IH. by rewrite Nat.add_succ_r. }
  rewrite <- (H O). by rewrite Nat.add_0_r.
Qed.

Lemma executable_run s r a m n : inv s -> access s r a = Ok m -> (1 <= n)%nat ->
  a + Z.of_nat n <= m_end m -> executable_in s a n = isExecutable m.(m_permissions).
Proof.
  intros Hi Ha Hn Hend. pose proof (access_contains _ _ _ _ Ha) as Hc. rewrite contains_spec in Hc.
  assert (forall k, (k < n)%nat -> exec_at s (a + Z.of_nat k) = isExecutable m.(m_permissions)) as Hall.
  { intros k Hk. assert (contains m (a + Z.of_nat k) = true) as Hck by (rewrite contains_spec; lia).
    pose proof (access_in _ _ _ _ _ Hi Ha Hck) as [Hm _]%access_Ok.
    unfold exec_at, perm_at. by rewrite Hm. }
  unfold executable_in. destruct (isExecutable m.(m_permissions)).
  - apply existsb_exists. exists O. split; [apply in_seq; lia|]. apply (Hall O). lia.
  - apply not_true_is_false. rewrite existsb_exists. intros (k & [_ Hk]%in_seq & Hex).
    rewrite Hall in Hex by lia. done.
Qed.

(** The length of the run of [a] inside its mapping, at most [n]. *)
Lemma chunk_bounds s r a m n : inv s -> access s r a = Ok m -> 1 <= n ->
  let chunk := Z.min n (m.(m_size) - (a - m.(m_base))) in
  1 <= chunk <= n /\ 0 <= m.(m_base) <= a /\ a + chunk <= m_end m /\ m_end m < 2 ^ 64.
Proof.
  intros Hi Ha Hn chunk. subst chunk. pose proof (access_contains _ _ _ _ Ha) as Hc.
  rewrite contains_spec in Hc. pose proof (access_mapping_ok _ _ _ _ Hi Ha) as [[H0 _ Hmax _ _] _ _ _ _ _ _].
  unfold UINT64_MAX, m_end in *. lia.
Qed.

Lemma materialize_eager m off n s : m.(m_lazyFileTransform) = None ->
  materializeFileBytes m off n s = (s, Ok tt).
Proof. unfold materializeFileBytes. by intros ->. Qed.

Lemma check_all_fail s r a n e : access s r a = Throw e -> check_all s r a (S n) = Throw e.
Proof. intros H. cbn. by rewrite H. Qed.

Lemma exec_same s s' a n : same_memory s s' -> executable_in s' a n = executable_in s a n.
Proof. by intros ->. Qed.

(** The validation pass reports the first inaccessible byte, or whether an
    executable mapping is met. *)
Lemma write_validate_spec fuel : forall s a n c, inv s -> eager s -> in_range 64 a ->
  (Z.to_nat n <= fuel)%nat ->
  exists s', write_validate fuel a n c s =
      (s', let! _ := check_all s Permission_Write a (Z.to_nat n) in
           Ok (c || executable_in s a (Z.to_nat n))) /\
    same_memory s s' /\ inv s'.
Proof.
  induction fuel as [|fuel IH]; intros s a n c Hi He Ha Hf; cbn [write_validate];
    destruct (Z.leb_spec n 0).
  1,3: exists s; replace (Z.to_nat n) with O by lia; cbn; rewrite orb_false_r;
    split_and!; [done|apply set_lookup_cache|done].
  1: lia.
  match goal with |- context [bind (find a 1 ?r) (fun i => bind (deref i) (@?k i))] =>
    destruct (find_deref a r s k Hi) as (s1 & Hs1 & Hi1 & Hcase) end.
  replace (Z.to_nat n) with (S (Z.to_nat (n - 1))) by lia.
  destruct (access s Permission_Write a) as [m|e|] eqn:Hacc;
    [|by exists s1; rewrite Hcase, (check_all_fail _ _ _ _ e)|done].
  destruct Hcase as (i & Hl & ->).
  destruct (chunk_bounds _ _ _ _ n Hi Hacc ltac:(lia)) as (Hch & Hlo & Hend & Hmax).
  set (chunk := Z.min n _) in *.
  replace (S (Z.to_nat (n - 1))) with (Z.to_nat chunk + Z.to_nat (n - chunk))%nat by lia.
  rewrite check_all_app, executable_in_app, !Z2Nat.id by lia.
  rewrite (access_run s _ a m) by (done || lia).
  rewrite (executable_run s _ a m) by (done || lia). cbn [outcome_bind].
  destruct (IH s1 (u64 (a + chunk)) (n - chunk) (c || isExecutable m.(m_permissions)))
    as (s2 & E2 & Hs2 & Hi2); [done|by eapply eager_same_memory|apply u64_range|lia|].
  exists s2. split_and!; [|by eapply same_memory_trans|done].
  rewrite (check_all_same s s1), (exec_same s s1), u64_small in E2 by (done || lia).
  rewrite u64_small, orb_assoc by lia. unfold bind at 1.
  destruct m.(m_fileBytes); [rewrite materialize_eager by (by eapply eager_lookup)|unfold ret];
    exact E2.
Qed.

Lemma bytes_written_app s1 s2 s3 a d1 d2 : bytes_written s1 s2 a d1 ->
  bytes_written s2 s3 (a + zlength d1) d2 -> bytes_written s1 s3 a (d1 ++ d2).
Proof.
  intros H1 H2 x. unfold bytes_written in *. rewrite H2, H1. unfold zlength in *.
  rewrite length_app. repeat case_decide; try lia; try done.
  - rewrite lookup_app_r by lia. f_equal. lia.
  - rewrite lookup_app_l by lia. done.
Qed.

Lemma bytes_written_nil s a : bytes_written s s a [].
Proof. intros x. rewrite decide_False; [done|]. unfold zlength. cbn. lia. Qed.

Lemma bytes_written_same s1 s2 s3 a d : same_memory s1 s2 -> bytes_written s2 s3 a d ->
  bytes_written s1 s3 a d.
Proof. by intros ->. Qed.

Lemma write_copy_spec fuel : forall s a d, inv s -> eager s -> in_range 64 a ->
  (length d <= fuel)%nat -> check_all s Permission_Write a (length d) = Ok tt ->
  exists s', write_copy fuel a d s = (s', Ok tt) /\ inv s' /\ same_shape s s' /\
    s'.(as_executableVersion) = s.(as_executableVersion) /\ bytes_written s s' a d.
Proof.
  induction fuel as [|fuel IH]; intros s a d Hi He Ha Hf Hchk; cbn [write_copy].
  { destruct d; [|cbn in Hf; lia]. exists s. eauto 10 using bytes_written_nil with rosa_shape. }
  destruct d as [|v vs] eqn:Hd; [exists s; eauto 10 using bytes_written_nil with rosa_shape|].
  rewrite <- Hd in *. assert (1 <= zlength d) as Hlen by (subst; unfold zlength; cbn; lia).
  clear Hd v vs.
  match goal with |- context [bind (find a 1 ?r) (fun i => bind (deref i) (@?k i))] =>
    destruct (find_deref a r s k Hi) as (s1 & Hs1 & Hi1 & Hcase) end.
  destruct (access s Permission_Write a) as [m|e|] eqn:Hacc; [| |done].
  2:{ unfold zlength in Hlen. destruct (length d); [lia|].
      by rewrite (check_all_fail _ _ _ _ e) in Hchk. }
  destruct Hcase as (i & Hl & ->).
  destruct (chunk_bounds _ _ _ _ (zlength d) Hi Hacc Hlen) as (Hch & Hlo & Hend & Hmax).
  set (chunk := Z.min (zlength d) _) in *. unfold zlength in Hch.
  assert (zlength (take (Z.to_nat chunk) d) = chunk) as Htk
    by (unfold zlength; rewrite length_take; lia).
  destruct (same_memory_lookup _ _ Hs1) as [Em Ef].
  destruct (mapping_write_spec s1 i m (a - m.(m_base)) (take (Z.to_nat chunk) d))
    as (s2 & E2 & Hi2 & Hsh & Hv & Hw).
  { done. } { by rewrite Em. } { rewrite Ef. by eapply access_backed. } { lia. }
  { rewrite Htk. unfold m_end in Hend. lia. }
  rewrite (bind_ok _ _ _ _ _ E2).
  replace (m.(m_base) + (a - m.(m_base))) with a in Hw by lia.
  pose proof (same_shape_trans _ _ _ (same_memory_shape _ _ Hs1) Hsh) as Hsh2.
  replace (length d) with (Z.to_nat chunk + length (drop (Z.to_nat chunk) d))%nat in Hchk
    by (rewrite length_drop; lia).
  rewrite check_all_app, Z2Nat.id, (access_run s _ a m) in Hchk by (done || lia).
  destruct (IH s2 (u64 (a + chunk)) (drop (Z.to_nat chunk) d)) as (s3 & E3 & Hi3 & Hsh3 & Hv3 & Hw3).
  { done. } { by eapply eager_shape. } { apply u64_range. } { rewrite length_drop. lia. }
  { by rewrite (check_all_shape s s2). }
  exists s3. split; [done|]. split; [done|]. split; [by eapply same_shape_trans|]. split.
  - rewrite Hv3, Hv. apply (same_memory_fields _ _ Hs1).
  - rewrite <- (take_drop (Z.to_nat chunk) d). apply (bytes_written_app _ s2).
    + by eapply bytes_written_same.
    + rewrite Htk. by rewrite u64_small in Hw3 by lia.
Qed.

(** ** [writeBytes] *)

Lemma bump_if_inv c s : inv s -> inv (bump_if c s).
Proof. intros [? ? ? ? ?]. by split. Qed.

(** What a successful write of [d] at [a] does to the space. *)
Definition write_effect (s s' : AddressSpace) (a : Z) (d : list Z) : Prop :=
  inv s' /\ same_shape s s' /\ bytes_written s s' a d /\
  s'.(as_executableVersion) =
    (if executable_in s a (length d) then u64 (s.(as_executableVersion) + 1)
     else s.(as_executableVersion)).

Lemma write_effect_bump s s1 s2 a d c : same_memory s s1 -> inv s2 -> same_shape s1 s2 ->
  s2.(as_executableVersion) = s1.(as_executableVersion) -> bytes_written s1 s2 a d ->
  c = executable_in s a (length d) -> write_effect s (bump_if c s2) a d.
Proof.
  intros Hs Hi Hsh Hv Hw ->. destruct (same_memory_fields _ _ Hs) as (_ & _ & Ev & _).
  split; [by apply bump_if_inv|]. split; [|split].
  - eapply same_shape_trans; [by apply same_memory_shape|exact Hsh].
  - eapply bytes_written_same; [done|exact Hw].
  - cbn. by rewrite Hv, Ev.
Qed.

Lemma write_effect_same s s1 s2 a d : same_memory s s1 -> write_effect s1 s2 a d -> write_effect s s2 a d.
Proof.
  intros Hs (Hi & Hsh & Hw & Hv). destruct (same_memory_fields _ _ Hs) as (_ & _ & Ev & _).
  split; [done|]. split; [|split].
  - eapply same_shape_trans; [by apply same_memory_shape|exact Hsh].
  - by eapply bytes_written_same.
  - by rewrite Hv, Ev, (exec_same s s1).
Qed.

Lemma writeBytes_spec s a d : inv s -> eager s -> in_range 64 a ->
  match check_all s Permission_Write a (length d) with
  | Ok _ => exists s', writeBytes a d s = (s', Ok tt) /\ write_effect s s' a d
  | Throw e => exists s', writeBytes a d s = (s', Throw e) /\ same_memory s s' /\ inv s'
  | Undefined => False
  end.
Proof.
  intros Hi He Ha. unfold writeBytes. destruct d as [|v vs] eqn:Hd.
  { exists s. split; [done|]. split; [done|]. split; [done|]. split; [apply bytes_written_nil|done]. }
  rewrite <- Hd. assert (1 <= zlength d) as Hlen by (subst; unfold zlength; cbn; lia). clear Hd v vs.
  match goal with |- context [bind (find a 1 ?r) (fun i => bind (deref i) (@?k i))] =>
    destruct (find_deref a r s k Hi) as (s1 & Hs1 & Hi1 & Hcase) end.
  destruct (access s Permission_Write a) as [m|e|] eqn:Hacc; [| |done].
  2:{ assert (check_all s Permission_Write a (length d) = Throw e) as ->; [|by exists s1].
      unfold zlength in Hlen. destruct (length d); [lia|]. by apply check_all_fail. }
  destruct Hcase as (i & Hl & Hstep). rewrite Hstep. clear Hstep.
  destruct (chunk_bounds _ _ _ _ (zlength d) Hi Hacc Hlen) as (_ & Hlo & _ & Hmax).
  destruct (same_memory_lookup _ _ Hs1) as [Em Ef].
  destruct (Z.leb_spec (zlength d) (m.(m_size) - (a - m.(m_base)))) as [Hfit|_].
  - rewrite (access_run s _ a m) by (done || unfold zlength, m_end in *; lia).
    destruct (mapping_write_spec s1 i m (a - m.(m_base)) d) as (s2 & E2 & Hi2 & Hsh & Hv & Hw);
      [done|by rewrite Em|rewrite Ef; by eapply access_backed|lia|lia|].
    replace (m.(m_base) + (a - m.(m_base))) with a in Hw by lia.
    exists (bump_if (isExecutable m.(m_permissions)) s2). split.
    + unfold bind at 1. destruct m.(m_fileBytes);
        [rewrite materialize_eager by (by eapply eager_lookup)|unfold ret];
        by rewrite (bind_ok _ _ _ _ _ E2).
    + eapply write_effect_bump; try done. symmetry.
      eapply executable_run; try done; unfold zlength, m_end in *; lia.
  - destruct (write_validate_spec (length d) s1 a (zlength d) false) as (s2 & E2 & Hs2 & Hi2);
      [done|by eapply eager_same_memory|done|unfold zlength; lia|].
    rewrite (check_all_same s s1), (exec_same s s1) in E2 by done.
    unfold zlength in E2. rewrite Nat2Z.id in E2.
    pose proof (same_memory_trans _ _ _ Hs1 Hs2) as Hs12.
    unfold zlength. destruct (check_all s Permission_Write a (length d)) as [[]|e|] eqn:Hchk; cbn [outcome_bind orb] in E2.
    + destruct (write_copy_spec (length d) s2 a d) as (s3 & E3 & Hi3 & Hsh & Hv & Hw);
        [done|by eapply eager_same_memory|done|done|by rewrite (check_all_same s s2)|].
      exists (bump_if (executable_in s a (length d)) s3). split.
      { by rewrite (bind_ok _ _ _ _ _ E2), (bind_ok _ _ _ _ _ E3). }
      by eapply write_effect_bump.
    + exists s2. rewrite (bind_throw _ _ _ _ _ E2). done.
    + clear - Hchk. revert a Hchk. induction (length d) as [|n IH]; cbn; intros a; [done|].
      unfold access. repeat case_match; try done. apply IH.
Qed.



(** ** Reading back what was written *)

Lemma fetch_alt s a : inv s -> fetch s a =
  let! m := access s Permission_Read a in
  if sparse_hole m (a - m.(m_base)) then Throw sparse_error
  else match byte_at s a with Some b => Ok b | None => Undefined end.
Proof.
  intros Hi. unfold fetch. destruct (access s Permission_Read a) as [m|e|] eqn:Ha; [|done|done].
  cbn [outcome_bind]. apply access_Ok in Ha as [Hm _]. unfold byte_at. by rewrite Hm.
Qed.

Lemma fetch_Ok_bounds s a b : inv s -> fetch s a = Ok b -> 0 <= a < UINT64_MAX.
Proof.
  intros Hi. unfold fetch. destruct (access s Permission_Read a) as [m|e|] eqn:Ha; [|done|done].
  intros _. eapply contains_bounds; [done|done|]. by eapply access_contains.
Qed.

Lemma fetch_written s s' a b v : inv s -> inv s' -> same_shape s s' -> fetch s a = Ok b ->
  byte_at s' a = Some v -> fetch s' a = Ok v.
Proof.
  intros Hi Hi' Hs Hf Hb. rewrite fetch_alt in * by done. rewrite Hb.
  pose proof (access_shape s s' Permission_Read a Hs) as Hacc.
  destruct (access s Permission_Read a) as [m|e|]; [|done|done].
  destruct (access s' Permission_Read a) as [m'|e|]; [|done|done].
  destruct (shape_fields _ _ Hacc) as (Eb & _ & _ & _ & _ & _ & Er & _).
  cbn [outcome_bind] in *.
  replace (sparse_hole m' (a - m_base m')) with (sparse_hole m (a - m_base m))
    by (unfold sparse_hole; by rewrite Eb, Er).
  by destruct (sparse_hole _ _).
Qed.

Lemma fetch_all_written s s' e : inv s -> inv s' -> same_shape s s' -> forall b w,
  (forall j, (j < length e)%nat -> byte_at s' (b + Z.of_nat j) = e !! j) ->
  fetch_all s b (length e) = Ok w -> fetch_all s' b (length e) = Ok e.
Proof.
  intros Hi Hi' Hs. induction e as [|v e IH]; intros b w Hb Hf; cbn [length fetch_all] in *; [done|].
  destruct (fetch s b) as [c|x|] eqn:Hc; [|done|done]. cbn [outcome_bind] in Hf.
  pose proof (fetch_Ok_bounds _ _ _ Hi Hc) as Hbd. unfold UINT64_MAX in Hbd.
  rewrite u64_small in * by lia.
  destruct (fetch_all s (b + 1) (length e)) as [w'|x|] eqn:Hw; [|done|done].
  rewrite (fetch_written s s' b c v), (IH (b + 1) w'); try done.
  - intros j Hj. replace (b + 1 + Z.of_nat j) with (b + Z.of_nat (S j)) by lia. apply (Hb (S j)). lia.
  - rewrite <- (Z.add_0_r b). apply (Hb O). lia.
Qed.


