(* ===== verification/AddressSpaceMap.v ===== *)
(** Creating mappings: validation decides exactly whether the new range is
    well formed and free, and insertion adds that range to the view of the
    space and nothing else. *)
From S2P Require Import Prelude AddressSpace AddressSpaceInv AddressSpaceAccess AddressSpaceWrite.

(** ** Specification of validation: no search, no order *)

Definition overlaps (base size : Z) (m : Mapping) : bool :=
  (m.(m_base) <? base + size) && (base <? m_end m).

Definition creation_error (s : AddressSpace) (base size permissions maximum : Z) : option exn :=
  if (size =? 0) || negb (base mod guestPageSize =? 0) || negb (size mod guestPageSize =? 0)
  then Some invalid_mapping
  else if UINT64_MAX <? base + size
  then Some (invalid_argument "guest mapping address overflows")
  else if negb (hasPermission maximum permissions)
  then Some (invalid_argument "guest mapping permissions exceed maximum permissions")
  else if existsb (overlaps base size) s.(as_mappings) then Some overlap_error
  else None.

(** ** Partition points of an ordered vector *)

Lemma lower_bound_take ms v : Forall (fun m => m.(m_base) < v) (take (lower_bound ms v) ms).
Proof.
  induction ms as [|m ms IH]; cbn; [done|]. destruct (Z.ltb_spec m.(m_base) v); cbn; [|done].
  by constructor.
Qed.

Lemma lower_bound_drop ms v : ordered ms -> Forall geometry ms ->
  Forall (fun m => v <= m.(m_base)) (drop (lower_bound ms v) ms).
Proof.
  induction ms as [|m ms IH]; cbn; [done|]. intros [Hm Ho] Hg.
  inversion Hg as [|? ? Hgm Hgs]; subst.
  destruct (Z.ltb_spec m.(m_base) v); cbn; [by apply IH|]. constructor; [done|].
  eapply Forall_impl; [exact Hm|]. intros n Hn. destruct Hgm as [_ Hs _ _ _].
  unfold m_end in *. cbn in *. lia.
Qed.

Lemma lower_bound_last ms v p : lower_bound ms v = S p ->
  exists m, ms !! p = Some m /\ m.(m_base) < v.
Proof.
  intros Hp. destruct (lookup_lt_is_Some_2 ms p) as [m Hm].
  { pose proof (lower_bound_length ms v). lia. }
  exists m. split; [done|]. pose proof (lower_bound_take ms v) as Ht. rewrite Hp in Ht.
  rewrite Forall_lookup in Ht. apply (Ht p). by rewrite lookup_take_lt by lia.
Qed.

Lemma Forall_existsb_false {A} (f : A -> bool) l :
  existsb f l = false <-> Forall (fun x => f x = false) l.
Proof.
  induction l as [|x l IH]; cbn; [done|]. by rewrite orb_false_iff, IH, Forall_cons.
Qed.

(** The two neighbours of the insertion point decide the overlap of the whole
    vector. *)
Lemma neighbours_overlap ms base size : ordered ms -> Forall geometry ms -> 0 < size ->
  let p := lower_bound ms base in
  let next := match ms !! p with Some n => n.(m_base) <? base + size | None => false end in
  let previous := match p with
    | O => false
    | S q => match ms !! q with Some m => base <? m_end m | None => false end
    end in
  existsb (overlaps base size) ms = next || previous.
Proof.
  intros Ho Hg Hs p next previous. apply eq_true_iff_eq. rewrite existsb_exists, orb_true_iff.
  pose proof (lower_bound_take ms base) as Hlt. pose proof (lower_bound_drop ms base Ho Hg) as Hge.
  fold p in Hlt, Hge. rewrite Forall_lookup in Hlt, Hge. split.
  - intros (m & Hin & Hov). apply list_elem_of_In, list_elem_of_lookup in Hin as [i Hi].
    unfold overlaps in Hov. bool_to_prop. destruct (decide (i < p)%nat) as [Hip|Hip].
    + right. subst previous. destruct p as [|q] eqn:Hp; [lia|].
      destruct (lower_bound_last _ _ _ Hp) as (n & Hn & _). rewrite Hn. apply Z.ltb_lt.
      destruct (decide (i = q)) as [->|]; [by simplify_eq|].
      pose proof (ordered_lookup _ i q _ _ Ho ltac:(lia) Hi Hn).
      rewrite Forall_lookup in Hg. destruct (Hg _ _ Hn) as [_ Hsn _ _ _]. unfold m_end in *. lia.
    + left. subst next. destruct (lookup_lt_is_Some_2 ms p) as [n Hn].
      { apply lookup_lt_Some in Hi. lia. }
      rewrite Hn. apply Z.ltb_lt. destruct (decide (i = p)) as [->|]; [by simplify_eq|].
      pose proof (ordered_lookup _ p i _ _ Ho ltac:(lia) Hn Hi).
      rewrite Forall_lookup in Hg. destruct (Hg _ _ Hn) as [_ Hsn _ _ _]. unfold m_end in *. lia.
  - subst next previous. intros [Hnext|Hprev].
    + destruct (ms !! p) as [n|] eqn:Hn; [|done]. exists n. split.
      { apply list_elem_of_In. by eapply list_elem_of_lookup_2. }
      unfold overlaps. rewrite Hnext. apply Z.ltb_lt. pose proof (Hge O n) as Hb.
      rewrite lookup_drop, Nat.add_0_r in Hb. specialize (Hb Hn).
      rewrite Forall_lookup in Hg. destruct (Hg _ _ Hn) as [_ Hsn _ _ _]. unfold m_end. cbn in Hb. lia.
    + destruct p as [|q] eqn:Hp; [done|].
      destruct (lower_bound_last _ _ _ Hp) as (n & Hn & Hb). rewrite Hn in Hprev. exists n. split.
      { apply list_elem_of_In. by eapply list_elem_of_lookup_2. }
      unfold overlaps. rewrite Hprev, andb_true_r. apply Z.ltb_lt. lia.
Qed.

Lemma validateNewMapping_spec s base size permissions maximum : inv s -> 0 <= size ->
  validateNewMapping base size permissions maximum s =
  match creation_error s base size permissions maximum with Some e => Throw e | None => Ok tt end.
Proof.
  intros Hi Hs. unfold validateNewMapping, creation_error.
  pose proof (mappings_geometry _ _ (inv_mappings _ Hi)) as Hg.
  pose proof (inv_ordered _ Hi) as Ho.
  destruct (Z.eqb_spec size 0); [done|]. cbn [orb].
  destruct (_ || _); [done|].
  replace (UINT64_MAX - size <? base) with (UINT64_MAX <? base + size)
    by (apply eq_true_iff_eq; rewrite !Z.ltb_lt; lia).
  destruct (UINT64_MAX <? base + size); [done|].
  destruct (negb _); [done|].
  assert (0 < size) as Hsz by lia. rewrite (neighbours_overlap _ base size Ho Hg Hsz).
  destruct (match _ !! _ with Some n => _ | None => false end); [done|]. cbn [orb].
  destruct (lower_bound s.(as_mappings) base) as [|q] eqn:Hp; [done|].
  destruct (lower_bound_last _ _ _ Hp) as (k & -> & _). unfold m_end. by destruct (base <? _).
Qed.

Lemma creation_None s base size permissions maximum : inv s -> 0 <= size ->
  creation_error s base size permissions maximum = None ->
  0 < size /\ base mod guestPageSize = 0 /\ size mod guestPageSize = 0 /\
  base + size <= UINT64_MAX /\ hasPermission maximum permissions = true /\
  Forall (fun m => base + size <= m.(m_base) \/ m_end m <= base) s.(as_mappings).
Proof.
  unfold creation_error. intros _ Hs H. repeat case_match; try done. bool_to_prop.
  split_and!; try done; try lia.
  apply Forall_existsb_false in H3. eapply Forall_impl; [exact H3|]. intros m Hm.
  unfold overlaps in Hm. apply andb_false_iff in Hm. rewrite !Z.ltb_ge in Hm. lia.
Qed.

(** ** Insertion *)

(** A free range splits the vector at the insertion point. *)
Lemma lower_bound_split s base size : inv s -> 0 < size ->
  Forall (fun m => base + size <= m.(m_base) \/ m_end m <= base) s.(as_mappings) ->
  Forall (fun m => m_end m <= base) (take (lower_bound s.(as_mappings) base) s.(as_mappings)) /\
  Forall (fun m => base + size <= m.(m_base)) (drop (lower_bound s.(as_mappings) base) s.(as_mappings)).
Proof.
  intros Hi Hs Hf. pose proof (mappings_geometry _ _ (inv_mappings _ Hi)) as Hg.
  pose proof (lower_bound_take s.(as_mappings) base) as Ht.
  pose proof (lower_bound_drop s.(as_mappings) base (inv_ordered _ Hi) Hg) as Hd.
  rewrite !Forall_lookup in *. split; intros i m Hm.
  - specialize (Ht _ _ Hm). apply lookup_take_Some in Hm as [Hm _].
    specialize (Hf _ _ Hm). specialize (Hg _ _ Hm). destruct Hg. unfold m_end in *. cbn in *. lia.
  - specialize (Hd _ _ Hm). rewrite lookup_drop in Hm.
    specialize (Hf _ _ Hm). specialize (Hg _ _ Hm). destruct Hg. unfold m_end in *. cbn in *. lia.
Qed.

Lemma alias_app l1 l2 : alias_ok (l1 ++ l2) <->
  alias_ok l1 /\ alias_ok l2 /\ Forall (fun a => Forall (disjoint_backing a) l2) l1.
Proof.
  induction l1 as [|m l1 IH]; cbn.
  - split; [intros; split_and!; done|tauto].
  - rewrite Forall_app, Forall_cons, IH. tauto.
Qed.

Lemma insert_cache_ok s ms : cache_ok (invalidateMappingLookup (set_mappings ms s)).
Proof. apply emptyLookup_ok. Qed.

(** Inserting a well-formed mapping over a free range. *)
Lemma insertMapping_inv s m : inv s -> mapping_ok s.(as_files) m ->
  Forall (fun n => m_end m <= n.(m_base) \/ m_end n <= m.(m_base)) s.(as_mappings) ->
  Forall (disjoint_backing m) s.(as_mappings) ->
  (forall f, m.(m_fileBytes) = Some f -> (f < s.(as_next))%nat) ->
  inv (insertMapping m s).
Proof.
  intros Hi Hm Hfree Hdis Hfresh. pose proof Hi as [Ho Hms Hc Ha [Hf1 Hf2]].
  destruct (mok_geometry _ _ Hm) as [_ Hsz _ _ _].
  destruct (lower_bound_split s m.(m_base) m.(m_size) Hi Hsz Hfree) as [Ht Hd].
  apply bump_if_inv. set (p := lower_bound _ _) in *.
  rewrite <- (take_drop p s.(as_mappings)) in Ho, Hms, Ha, Hf2, Hdis.
  apply ordered_app in Ho as (Ho1 & Ho2 & Ho12). apply alias_app in Ha as (Ha1 & Ha2 & Ha12).
  rewrite Forall_app in Hms, Hf2, Hdis. destruct Hms, Hf2, Hdis as [Hdis1 Hdis2].
  split; cbn [as_mappings as_files invalidateMappingLookup set_lookup set_mappings].
  - apply ordered_app. cbn. split_and!; try done. rewrite Forall_lookup in *. intros i n Hn.
    rewrite Forall_cons. split; [by apply (Ht i)|by apply (Ho12 i)].
  - by apply Forall_app_2, Forall_cons_2.
  - apply insert_cache_ok.
  - apply alias_app. cbn. split_and!; try done. rewrite Forall_lookup in *. intros i n Hn.
    rewrite Forall_cons. split; [by apply disjoint_backing_sym, (Hdis1 i)|by apply (Ha12 i)].
  - split; [done|]. by apply Forall_app_2, Forall_cons_2.
Qed.

Lemma mapping_at_above ms x : Forall (fun m => x < m.(m_base)) ms -> mapping_at ms x = None.
Proof.
  intros H. apply mapping_at_None. eapply Forall_impl; [exact H|]. intros m Hm.
  apply contains_false. cbn in Hm. lia.
Qed.

Lemma mapping_at_below ms x : Forall (fun m => m_end m <= x) ms -> mapping_at ms x = None.
Proof.
  intros H. apply mapping_at_None. eapply Forall_impl; [exact H|]. intros m Hm.
  apply contains_false. cbn in Hm. lia.
Qed.

Lemma insertMapping_view s m x : inv s -> geometry m ->
  Forall (fun n => m_end m <= n.(m_base) \/ m_end n <= m.(m_base)) s.(as_mappings) ->
  mapping_at (insertMapping m s).(as_mappings) x =
  if contains m x then Some m else mapping_at s.(as_mappings) x.
Proof.
  intros Hi [_ Hsz _ _ _] Hfree.
  destruct (lower_bound_split s m.(m_base) m.(m_size) Hi Hsz Hfree) as [Ht Hd].
  unfold insertMapping. cbn [as_mappings bump_if invalidateMappingLookup set_lookup set_mappings].
  set (p := lower_bound _ _) in *.
  rewrite <- (take_drop p s.(as_mappings)) at 3. rewrite !mapping_at_app. cbn [mapping_at].
  destruct (contains m x) eqn:Hc; [|done]. apply contains_spec in Hc.
  rewrite (mapping_at_below (take p _)); [done|].
  eapply Forall_impl; [exact Ht|]. intros n Hn. cbn in Hn. lia.
Qed.

(** What creating the mapping [m] does to the space. *)
Definition creation_effect (s s' : AddressSpace) (base size permissions maximum : Z)
    (fill : Z -> option Z) : Prop :=
  inv s' /\
  (forall x, perm_at s' x = if decide (base <= x < base + size) then Some permissions else perm_at s x) /\
  (forall x, max_at s' x = if decide (base <= x < base + size) then Some maximum else max_at s x) /\
  (forall x, byte_at s' x = if decide (base <= x < base + size) then fill (x - base) else byte_at s x) /\
  s'.(as_executableVersion) =
    (if isExecutable permissions then u64 (s.(as_executableVersion) + 1) else s.(as_executableVersion)).

Lemma insert_effect s m : inv s -> mapping_ok s.(as_files) m ->
  Forall (fun n => m_end m <= n.(m_base) \/ m_end n <= m.(m_base)) s.(as_mappings) ->
  Forall (disjoint_backing m) s.(as_mappings) ->
  (forall f, m.(m_fileBytes) = Some f -> (f < s.(as_next))%nat) ->
  creation_effect s (insertMapping m s) m.(m_base) m.(m_size) m.(m_permissions)
    m.(m_maximumPermissions) (mapping_byte s.(as_files) m).
Proof.
  intros Hi Hm Hfree Hdis Hf.
  assert (forall x, contains m x = bool_decide (m.(m_base) <= x < m.(m_base) + m.(m_size))) as Hc.
  { intros x. apply eq_true_iff_eq. by rewrite contains_spec, bool_decide_eq_true. }
  split; [by apply insertMapping_inv|]. unfold perm_at, max_at, byte_at.
  split_and!; [| | |done]; intros x;
    rewrite insertMapping_view by (done || apply Hm); rewrite Hc; case_decide as H;
    rewrite ?bool_decide_true, ?bool_decide_false by done; done.
Qed.

(** A fresh host region is invisible until a mapping names it. *)
Lemma new_file_inv s c : inv s -> exists s1, new_file c s = (s1, Ok s.(as_next)) /\ inv s1 /\
  s1.(as_mappings) = s.(as_mappings) /\ s1.(as_executableVersion) = s.(as_executableVersion) /\
  s1.(as_next) = S s.(as_next) /\ s1.(as_files) !! s.(as_next) = Some c /\
  (forall x, byte_at s1 x = byte_at s x) /\
  Forall (fun m => forall f, m.(m_fileBytes) = Some f -> f <> s.(as_next)) s.(as_mappings).
Proof.
  intros Hi. pose proof Hi as [Ho Hms Hc Ha [Hf1 Hf2]]. eexists. split; [done|].
  cbn [as_mappings as_files as_next as_executableVersion].
  assert (Forall (fun m => forall f, m.(m_fileBytes) = Some f -> f <> s.(as_next)) s.(as_mappings)) as Hne.
  { eapply Forall_impl; [exact Hf2|]. intros m Hm f E. specialize (Hm _ E). lia. }
  split; [|split_and!; try done].
  - split; cbn; try done.
    + rewrite Forall_lookup in *. intros i m Hm. destruct (Hms _ _ Hm) as [? ? ? ? Hb ? ?]. split; try done.
      destruct Hb as [Hb|Hb]; [by left|right]. unfold backed in *. destruct m.(m_fileBytes) as [f|] eqn:E; [|done].
      rewrite lookup_insert_ne by (symmetry; by eapply Hne). done.
    + split; cbn.
      * intros f. destruct (decide (s.(as_next) = f)) as [<-|]; [lia|].
        rewrite lookup_insert_ne by done. intros H. specialize (Hf1 f H). lia.
      * eapply Forall_impl; [exact Hf2|]. intros m Hm f E. specialize (Hm _ E). lia.
  - apply lookup_insert_eq.
  - intros x. unfold byte_at. cbn. destruct (mapping_at s.(as_mappings) x) as [m|] eqn:Em; [|done].
    apply mapping_at_Some in Em as (_ & i & Hl). cbn. unfold mapping_byte.
    destruct m.(m_fileBytes) as [f|] eqn:E; [|done]. rewrite Forall_lookup in Hne.
    by rewrite lookup_insert_ne by (symmetry; by eapply Hne).
Qed.

Lemma creation_effect_from s s1 s' base size permissions maximum fill fill' :
  s1.(as_mappings) = s.(as_mappings) -> s1.(as_executableVersion) = s.(as_executableVersion) ->
  (forall x, byte_at s1 x = byte_at s x) ->
  (forall x, 0 <= x < size -> fill x = fill' x) ->
  creation_effect s1 s' base size permissions maximum fill ->
  creation_effect s s' base size permissions maximum fill'.
Proof.
  intros Em Ev Hb Hfill (Hi & Hp & Hm & Hby & Hv). unfold creation_effect.
  unfold perm_at, max_at in *. rewrite Em, Ev in *. split_and!; try done.
  intros x. rewrite Hby, Hb. case_decide; [|done]. apply Hfill. lia.
Qed.

Lemma vector_disjoint m ms : m.(m_fileBytes) = None -> Forall (disjoint_backing m) ms.
Proof. intros E. apply Forall_true. intros n. unfold disjoint_backing. by rewrite E. Qed.

Section Creation.
Context (s : AddressSpace) (base size permissions maximum : Z) (label : string).
Context (Hi : inv s) (Hbase : 0 <= base) (Hsize : 0 <= size).
Context (Hp : 0 <= permissions < 8) (Hm : 0 <= maximum < 8).

Definition anonymous_fill (_ : Z) : option Z := if maximum =? Permission_None then None else Some 0.
Definition segment_fill (fileBytes : list Z) (off : Z) : option Z :=
  if maximum =? Permission_None then None
  else if off <? zlength fileBytes then fileBytes !! Z.to_nat off else Some 0.

Lemma created_ok files bytes file readable :
  creation_error s base size permissions maximum = None ->
  let m := mkMapping base size permissions maximum bytes file 0 None readable label in
  (maximum = Permission_None /\ file = None \/ backed files m) ->
  readable = [] \/ zlength readable = size -> zlength bytes <= size -> mapping_ok files m.
Proof using Hi Hbase Hsize Hp Hm.
  intros Hc m Hb Hr Hv. apply creation_None in Hc as (H1 & H2 & H3 & H4 & H5 & _); try done.
Qed.

Lemma insert_vector bytes readable :
  creation_error s base size permissions maximum = None ->
  let m := mkMapping base size permissions maximum bytes None 0 None readable label in
  (maximum = Permission_None /\ bytes = [] \/ zlength bytes = size) ->
  readable = [] \/ zlength readable = size ->
  creation_effect s (insertMapping m s) base size permissions maximum (fun off => bytes !! Z.to_nat off).
Proof using Hi Hbase Hsize Hp Hm.
  intros Hc m Hb Hr. pose proof (creation_None _ _ _ _ _ Hi Hsize Hc) as (_ & _ & _ & _ & _ & Hfree).
  assert (mapping_ok s.(as_files) m) as Hok.
  { apply created_ok; try done; destruct Hb as [[? ->]|?]; auto; unfold zlength in *; cbn; lia. }
  exact (insert_effect s m Hi Hok Hfree (vector_disjoint m _ eq_refl) ltac:(done)).
Qed.

Lemma mapAnonymous_spec hostReserve :
  match creation_error s base size permissions maximum with
  | Some e => mapAnonymous hostReserve base size permissions maximum label s = (s, Throw e)
  | None =>
      if (maximum =? Permission_None) || hostReserve size then
        exists s', mapAnonymous hostReserve base size permissions maximum label s = (s', Ok tt) /\
          creation_effect s s' base size permissions maximum anonymous_fill
      else mapAnonymous hostReserve base size permissions maximum label s =
        (s, Throw (runtime_error "cannot reserve anonymous guest backing"))
  end.
Proof using Hi Hbase Hsize Hp Hm.
  unfold mapAnonymous. destruct (creation_error _ _ _ _ _) as [e|] eqn:Hc.
  { apply bind_throw. rewrite validateNewMapping_spec, Hc by done. done. }
  rewrite (bind_ok _ _ s s tt) by (rewrite validateNewMapping_spec, Hc by done; done).
  unfold anonymous_fill. destruct (Z.eqb_spec maximum Permission_None) as [Hz|Hz]; cbn [orb].
  - eexists. split; [done|]. eapply creation_effect_from; [..|apply insert_vector]; auto.
  - destruct (hostReserve size); cbn [negb]; [|done].
    destruct (new_file_inv s (replicate (Z.to_nat size) 0) Hi)
      as (s1 & E1 & Hi1 & Em & Ev & En & Ef & Hb & Hne).
    rewrite (bind_ok _ _ _ _ _ E1).
    pose proof (creation_None _ _ _ _ _ Hi Hsize Hc) as (_ & _ & _ & _ & _ & Hfree).
    eexists. split; [done|].
    set (m := mkMapping base size permissions maximum [] (Some s.(as_next)) 0 None [] label).
    eapply creation_effect_from; [done..| |apply (insert_effect s1 m)]; rewrite ?Em; try done.
    + intros x Hx. unfold mapping_byte. cbn. rewrite Ef. cbn.
      by rewrite lookup_replicate_2 by lia.
    + apply created_ok; auto. right. exists (replicate (Z.to_nat size) 0). cbn. unfold zlength.
      rewrite length_replicate. split_and!; [done|lia|lia].
    + eapply Forall_impl; [exact Hne|]. intros n Hn. unfold disjoint_backing. cbn.
      destruct n.(m_fileBytes) as [g|] eqn:Eg; [|done]. intros Hg. by destruct (Hn g Eg).
    + intros f [= <-]. lia.
Qed.

Lemma mapSegment_spec fileBytes :
  if size <? zlength fileBytes then
    mapSegment base size permissions maximum fileBytes label s = (s, Throw segment_bytes_error)
  else match creation_error s base size permissions maximum with
  | Some e => mapSegment base size permissions maximum fileBytes label s = (s, Throw e)
  | None =>
      exists s', mapSegment base size permissions maximum fileBytes label s = (s', Ok tt) /\
        creation_effect s s' base size permissions maximum (segment_fill fileBytes)
  end.
Proof using Hi Hbase Hsize Hp Hm.
  unfold mapSegment. destruct (Z.ltb_spec size (zlength fileBytes)) as [|Hlen]; [done|].
  unfold addMapping. destruct (creation_error _ _ _ _ _) as [e|] eqn:Hc.
  { apply bind_throw. rewrite validateNewMapping_spec, Hc by done. done. }
  rewrite (bind_ok _ _ s s tt) by (rewrite validateNewMapping_spec, Hc by done; done).
  eexists. split; [done|]. unfold segment_fill, zlength in *.
  destruct (Z.eqb_spec maximum Permission_None) as [Hz|Hz]; cbn [negb].
  - eapply creation_effect_from; [..|apply insert_vector]; auto.
  - eapply creation_effect_from; [done..| |apply insert_vector]; auto.
    + intros x Hx. cbn. destruct (Z.ltb_spec x (Z.of_nat (length fileBytes))).
      * by rewrite lookup_app_l by lia.
      * rewrite lookup_app_r by lia. by rewrite lookup_replicate_2 by lia.
    + right. unfold zlength. rewrite length_app, length_replicate. lia.
Qed.
End Creation.

(** C24: creating a mapping either fails leaving the space exactly as it was
    (misaligned or empty range, address overflow, permissions above the
    maximum, overlap with any existing mapping, too many file bytes, or a host
    reservation failure, in that order) or adds precisely the requested range:
    its permissions, its maximum permissions and its contents (zeroes, or the
    file bytes padded with zeroes; nothing when it can never be accessed), and
    it preserves the representation invariant and all other memory. *)
Theorem mapping_creation_correct s base size permissions maximum label hostReserve fileBytes :
  inv s -> 0 <= base -> 0 <= size -> 0 <= permissions < 8 -> 0 <= maximum < 8 ->
  let anonymous := mapAnonymous hostReserve base size permissions maximum label s in
  let segment := mapSegment base size permissions maximum fileBytes label s in
  let created result fill := exists s', result = (s', Ok tt) /\
    creation_effect s s' base size permissions maximum fill in
  match creation_error s base size permissions maximum with
  | Some e => anonymous = (s, Throw e) /\
      segment = (s, Throw (if size <? zlength fileBytes then segment_bytes_error else e))
  | None =>
      (if (maximum =? Permission_None) || hostReserve size
       then created anonymous (anonymous_fill maximum)
       else anonymous = (s, Throw (runtime_error "cannot reserve anonymous guest backing"))) /\
      (if size <? zlength fileBytes then segment = (s, Throw segment_bytes_error)
       else created segment (segment_fill maximum fileBytes))
  end.
Proof.
  intros Hi Hb Hs Hp Hm. cbv zeta.
  pose proof (mapAnonymous_spec s base size permissions maximum label Hi Hb Hs Hp Hm hostReserve) as HA.
  pose proof (mapSegment_spec s base size permissions maximum label Hi Hb Hs Hp Hm fileBytes) as HS.
  destruct (creation_error _ _ _ _ _); destruct (size <? zlength fileBytes); done.
Qed.

Lemma mapping_creation_correct_witness : inv sampleSpace /\
  exists s', mapSegment 16384 4096 3 7 [42] "heap" sampleSpace = (s', Ok tt) /\
    perm_at s' 16384 = Some 3 /\ byte_at s' 16384 = Some 42 /\ byte_at s' 8200 = Some 7.
Proof.
  split; [apply sampleSpace_inv|].
  pose proof (mapping_creation_correct sampleSpace 16384 4096 3 7 "heap" (fun _ => true) [42]
    sampleSpace_inv ltac:(lia) ltac:(lia) ltac:(lia) ltac:(lia)) as H.
  destruct H as (_ & s' & E & _ & Hp & _ & Hb & _). exists s'. split; [exact E|].
  rewrite Hp, !Hb. split_and!; reflexivity.
Defined.
