(* ===== verification/AddressSpaceProtect.v ===== *)
(** Changing protection and removing memory.

    [protect] and [deallocate] rebuild the mapping vector from slices of the old
    mappings.  [refines_mapping] says what every rebuilt vector has in common:
    each mapping is replaced by ordered slices of itself.  The invariant, the
    contents and the no-overflow of the size computation follow once for both. *)
From S2P Require Import Prelude AddressSpace AddressSpaceInv AddressSpaceAccess AddressSpaceWrite AddressSpaceMap.

(** ** Slices *)

Record slice_of (m q : Mapping) : Prop := {
  sl_geometry : geometry q;
  sl_lo : m.(m_base) <= q.(m_base);
  sl_hi : m_end q <= m_end m;
  sl_file : q.(m_fileBytes) = m.(m_fileBytes);
  sl_offset : q.(m_fileDataOffset) = m.(m_fileDataOffset) + (q.(m_base) - m.(m_base));
  sl_lazy : q.(m_lazyFileTransform) = m.(m_lazyFileTransform);
  sl_bytes : q.(m_bytes) = subspan m.(m_bytes) (q.(m_base) - m.(m_base)) q.(m_size);
  sl_readable : q.(m_readableBytes) = subspan m.(m_readableBytes) (q.(m_base) - m.(m_base)) q.(m_size)
}.

Definition refines_mapping (m : Mapping) (qs : list Mapping) : Prop :=
  ordered qs /\ Forall (slice_of m) qs.

Definition page_aligned (x : Z) : Prop := x mod guestPageSize = 0.

Lemma aligned_end m : geometry m -> page_aligned (m_end m).
Proof.
  intros [_ _ _ Hb Hs]. unfold page_aligned, m_end. by rewrite Z.add_mod, Hb, Hs by done.
Qed.

Lemma slice_slice_of m lo hi p mx : geometry m -> m.(m_base) <= lo -> lo < hi -> hi <= m_end m ->
  page_aligned lo -> page_aligned hi -> slice_of m (slice m lo hi p mx).
Proof.
  intros [H0 _ Hmax _ _] Hlo Hlt Hhi Al Ah. split; try done.
  2:{ cbn. unfold m_end. cbn. unfold m_end in Hhi. lia. }
  split; unfold m_end in *; cbn; try lia; [done|].
  unfold page_aligned in *. rewrite Zminus_mod, Al, Ah. done.
Qed.

Lemma slice_self m : geometry m -> zlength m.(m_bytes) <= m.(m_size) ->
  zlength m.(m_readableBytes) <= m.(m_size) -> slice_of m m.
Proof.
  intros Hg Hb Hr. split; try done; try lia.
  all: rewrite Z.sub_diag; unfold subspan, zlength in *; change (Z.to_nat 0) with O;
    by rewrite drop_0, take_ge by lia.
Qed.

Lemma slice_lookup l a n k : 0 <= a -> 0 <= k < n ->
  subspan l a n !! Z.to_nat k = l !! Z.to_nat (a + k).
Proof.
  intros. unfold subspan. rewrite lookup_take_lt, lookup_drop by lia. f_equal. lia.
Qed.

Lemma slice_of_byte files m q x : slice_of m q -> contains q x = true ->
  mapping_byte files q (x - q.(m_base)) = mapping_byte files m (x - m.(m_base)).
Proof.
  intros [Hg Hlo Hhi Hf Ho _ Hb _] Hx. apply contains_spec in Hx. unfold m_end in Hx.
  unfold mapping_byte. rewrite Hf, Ho. destruct m.(m_fileBytes) as [f|].
  - destruct (files !! f); cbn; [|done]. f_equal. lia.
  - rewrite Hb, slice_lookup by lia. f_equal. lia.
Qed.

Lemma slice_of_contains m q x : slice_of m q -> contains q x = true -> contains m x = true.
Proof. intros [_ ? ? _ _ _ _ _]. rewrite !contains_spec. lia. Qed.

Lemma slice_of_backed files m q : slice_of m q -> backed files m -> backed files q.
Proof.
  intros [[_ Hsz _ _ _] Hlo Hhi Hf Ho _ Hb _]. unfold backed, m_end in *. rewrite Hf.
  destruct m.(m_fileBytes) as [f|].
  - intros (l & Hl & H0 & Hlen). exists l. split_and!; [done|lia|lia].
  - intros Hlen. rewrite Hb. unfold zlength. rewrite length_subspan by lia. lia.
Qed.

Lemma slice_of_ok files m q : mapping_ok files m -> slice_of m q ->
  0 <= q.(m_permissions) < 8 -> 0 <= q.(m_maximumPermissions) < 8 ->
  hasPermission q.(m_maximumPermissions) q.(m_permissions) = true ->
  (q.(m_maximumPermissions) = Permission_None \/ m.(m_maximumPermissions) <> Permission_None) ->
  mapping_ok files q.
Proof.
  intros Hm Hq Hp Hx Hw Hmax. pose proof Hq as [[_ Hsz _ _ _] Hlo Hhi Hf _ _ Hbs Hr].
  split; try done; [apply Hq| | |].
  - destruct (mok_backed _ _ Hm) as [[H1 H2]|Hb]; [left; split; [by destruct Hmax|congruence]|right].
    by eapply slice_of_backed.
  - unfold m_end in *. rewrite Hr. destruct (mok_readable _ _ Hm) as [->|Hl].
    + left. unfold subspan. by rewrite drop_nil, take_nil.
    + right. unfold zlength. rewrite length_subspan by lia. lia.
  - rewrite Hbs. unfold subspan, zlength. rewrite length_take. lia.
Qed.

Lemma slices_disjoint m n a b :
  slice_of m a -> slice_of n b -> disjoint_backing m n -> disjoint_backing a b.
Proof.
  intros [_ ? ? Ha Hoa _ _ _] [_ ? ? Hb Hob _ _ _]. unfold disjoint_backing, m_end in *.
  rewrite Ha, Hb. destruct m.(m_fileBytes), n.(m_fileBytes); try done.
  intros H <-. specialize (H eq_refl). lia.
Qed.

Lemma slices_same_disjoint m a b : slice_of m a -> slice_of m b -> m_end a <= b.(m_base) ->
  disjoint_backing a b.
Proof.
  intros [_ ? ? Ha Hoa _ _ _] [_ ? ? Hb Hob _ _ _] Hab. unfold disjoint_backing, m_end in *.
  rewrite Ha, Hb. destruct m.(m_fileBytes); try done. intros _. lia.
Qed.

(** ** The rebuilt vector *)

Section Rebuild.
Context (pieces : Mapping -> list Mapping) (ms : list Mapping).
Context (Hord : ordered ms) (Href : Forall (fun m => refines_mapping m (pieces m)) ms).

Lemma rebuild_bounds : Forall (fun q => exists m, m ∈ ms /\ slice_of m q /\ q ∈ pieces m)
  (concat (map pieces ms)).
Proof using Href.
  rewrite Forall_concat, Forall_fmap. rewrite Forall_forall in *. intros m Hm. cbn.
  rewrite Forall_forall. intros q Hq. exists m. destruct (Href m Hm) as [_ Hs].
  rewrite Forall_forall in Hs. auto.
Qed.
End Rebuild.

Lemma rebuild_ordered pieces ms : ordered ms ->
  Forall (fun m => refines_mapping m (pieces m)) ms -> ordered (concat (map pieces ms)).
Proof.
  induction ms as [|m ms IH]; intros Ho Hr; cbn; [done|].
  destruct Ho as [Hm Ho]. inversion Hr as [|? ? [Hq Hs] Hrs]; subst.
  apply ordered_app. split_and!; [done|by apply IH|].
  eapply Forall_impl; [exact Hs|]. intros a [_ _ Ha _ _ _ _ _].
  eapply Forall_impl; [by apply rebuild_bounds|]. intros b (n & Hn & [_ Hb _ _ _ _ _ _] & _).
  rewrite Forall_forall in Hm. specialize (Hm n Hn). lia.
Qed.

Lemma rebuild_alias pieces ms : ordered ms -> alias_ok ms ->
  Forall (fun m => refines_mapping m (pieces m)) ms -> alias_ok (concat (map pieces ms)).
Proof.
  induction ms as [|m ms IH]; intros Ho Ha Hr; cbn; [done|].
  destruct Ho as [Hm Ho], Ha as [Hd Ha]. inversion Hr as [|? ? [Hq Hs] Hrs]; subst.
  apply alias_app. split_and!; [|by apply IH|].
  - clear -Hq Hs. induction (pieces m) as [|a qs IHq]; cbn; [done|].
    destruct Hq as [Hq1 Hq2]. inversion Hs as [|? ? Hsa Hss]; subst. split; [|by apply IHq].
    rewrite Forall_forall in *. intros b Hb. eapply slices_same_disjoint; eauto.
  - eapply Forall_impl; [exact Hs|]. intros a Hsa.
    eapply Forall_impl; [by apply rebuild_bounds|]. intros b (n & Hn & Hb & _).
    rewrite Forall_forall in Hm, Hd. eapply slices_disjoint; eauto.
Qed.

Lemma rebuild_view pieces ms x : ordered ms ->
  Forall (fun m => refines_mapping m (pieces m)) ms ->
  mapping_at (concat (map pieces ms)) x = mapping_at ms x ≫= fun m => mapping_at (pieces m) x.
Proof.
  induction ms as [|m ms IH]; intros Ho Hr; cbn; [done|].
  destruct Ho as [Hm Ho]. inversion Hr as [|? ? [Hq Hs] Hrs]; subst.
  rewrite mapping_at_app. destruct (contains m x) eqn:Hc; cbn.
  - destruct (mapping_at (pieces m) x) eqn:Hx; [done|]. apply mapping_at_None.
    eapply Forall_impl; [by apply rebuild_bounds|]. intros b (n & Hn & [_ Hb _ _ _ _ _ _] & _).
    rewrite Forall_forall in Hm. specialize (Hm n Hn). apply contains_spec in Hc.
    apply contains_false. lia.
  - replace (mapping_at (pieces m) x) with (@None Mapping); [by apply IH|]. symmetry.
    apply mapping_at_None. eapply Forall_impl; [exact Hs|]. intros a Ha.
    apply not_true_is_false. intros Hx. by rewrite (slice_of_contains m a) in Hc.
Qed.

(** ** The checked size of the rebuilt vector never overflows *)

Lemma ordered_count ms lo : ordered ms -> Forall geometry ms ->
  Forall (fun m => lo <= m.(m_base)) ms -> 0 <= lo <= UINT64_MAX -> lo + zlength ms <= UINT64_MAX.
Proof.
  revert lo. induction ms as [|m ms IH]; intros lo Ho Hg Hlo H0; [unfold zlength; cbn; lia|].
  destruct Ho as [Hm Ho]. inversion Hg as [|? ? [Hb Hs He _ _] Hgs]; subst.
  inversion Hlo; subst. specialize (IH (m_end m) Ho Hgs Hm).
  unfold zlength, m_end in *. cbn [length]. lia.
Qed.

Lemma count_pieces_acc (ps : list (list Mapping)) : forall n, 0 <= n -> n + zlength (concat ps) <= UINT64_MAX ->
  fold_left (fun acc p => outcome_bind acc (fun n => addMappingCount n (zlength p))) ps (Ok n) =
  Ok (n + zlength (concat ps)).
Proof.
  induction ps as [|p ps IH]; intros n Hn Hmax; cbn; [unfold zlength; cbn; f_equal; lia|].
  unfold zlength in *. cbn [concat] in Hmax |- *. rewrite length_app in Hmax. unfold addMappingCount.
  destruct (Z.ltb_spec (UINT64_MAX - n) (Z.of_nat (length p))); [lia|].
  rewrite IH by lia. rewrite length_app. f_equal. lia.
Qed.

Lemma count_pieces_ok ps : ordered (concat ps) -> Forall geometry (concat ps) ->
  count_pieces ps = Ok (zlength (concat ps)).
Proof.
  intros Ho Hg. assert (0 + zlength (concat ps) <= UINT64_MAX) as H.
  { apply ordered_count; try done. eapply Forall_impl; [exact Hg|]. by intros m [? _ _ _ _]. }
  unfold count_pieces. by rewrite count_pieces_acc by lia.
Qed.

(** Replacing the vector by a refinement of itself keeps the space well formed
    and every byte that is still mapped. *)
Lemma rebuild_inv pieces s c : inv s ->
  Forall (fun m => refines_mapping m (pieces m)) s.(as_mappings) ->
  Forall (mapping_ok s.(as_files)) (concat (map pieces s.(as_mappings))) ->
  inv (bump_if c (invalidateMappingLookup (set_mappings (concat (map pieces s.(as_mappings))) s))).
Proof.
  intros Hi Hr Hok. pose proof Hi as [Ho Hms _ Ha [Hf1 Hf2]]. apply bump_if_inv.
  split; cbn; [by apply rebuild_ordered|done|apply emptyLookup_ok|by apply rebuild_alias|].
  split; [done|]. eapply Forall_impl; [by apply rebuild_bounds|].
  intros q (m & Hm & Hq & _) f Hf. rewrite (sl_file _ _ Hq) in Hf.
  rewrite Forall_forall in Hf2. by eapply Hf2.
Qed.

(** ** Pieces of one mapping *)

Lemma mapping_ok_self files m : mapping_ok files m -> slice_of m m.
Proof.
  intros H. apply slice_self; [apply H|apply H|].
  pose proof (geo_size _ (mok_geometry _ _ H)).
  destruct (mok_readable _ _ H) as [-> | ->]; [|done]. unfold zlength. cbn. lia.
Qed.

Lemma contains_slice m lo hi p mx x : contains (slice m lo hi p mx) x = (lo <=? x) && (x <? hi).
Proof. unfold contains, m_end, slice. cbn. repeat f_equal. lia. Qed.

Lemma slice_end m lo hi p mx : m_end (slice m lo hi p mx) = hi.
Proof. unfold m_end, slice. cbn. lia. Qed.

Lemma disjoint_range m lo hi : ((m_end m <=? lo) || (hi <=? m.(m_base))) = false ->
  lo < m_end m /\ m.(m_base) < hi.
Proof. intros H. bool_to_prop. lia. Qed.

Section Pieces.
Context (files : gmap nat (list Z)) (start end_ : Z) (m : Mapping).
Context (Hm : mapping_ok files m).
Context (Hs : page_aligned start) (He : page_aligned end_) (Hse : start < end_).

Lemma aligned_max : page_aligned (Z.max m.(m_base) start).
Proof using Hm Hs.
  destruct (Z.max_spec m.(m_base) start) as [[_ ->]|[_ ->]]; [done|apply (mok_geometry _ _ Hm)].
Qed.
Lemma aligned_min : page_aligned (Z.min (m_end m) end_).
Proof using Hm He.
  destruct (Z.min_spec (m_end m) end_) as [[_ ->]|[_ ->]]; [|done].
  apply aligned_end, Hm.
Qed.

Lemma protect_pieces_refine p copy : refines_mapping m (protect_pieces start end_ p copy m).
Proof using Hm Hs He Hse.
  unfold protect_pieces. pose proof (mok_geometry _ _ Hm) as Hg. pose proof Hg as [_ Hsz _ Hb _].
  pose proof aligned_max as Hmax. pose proof aligned_min as Hmin.
  pose proof (aligned_end _ Hg) as Hend.
  destruct (_ || _) eqn:Hd.
  { split; [done|]. constructor; [by eapply mapping_ok_self|done]. }
  apply disjoint_range in Hd.
  assert (m.(m_base) < m_end m) by (unfold m_end; lia).
  split.
  - destruct (Z.ltb_spec m.(m_base) start), (Z.ltb_spec (Z.min (m_end m) end_) (m_end m)); cbn;
      rewrite ?Forall_cons, ?Forall_nil, ?slice_end; cbn; lia.
  - destruct (Z.ltb_spec m.(m_base) start), (Z.ltb_spec (Z.min (m_end m) end_) (m_end m)); cbn;
      repeat (apply Forall_cons_2); try apply Forall_nil_2; apply slice_slice_of; try done; lia.
Qed.

(** The piece that covers an address of [m]. *)
Lemma protect_pieces_view p copy x : contains m x = true ->
  exists q, mapping_at (protect_pieces start end_ p copy m) x = Some q /\
    q.(m_permissions) = (if decide (start <= x < end_) then p else m.(m_permissions)) /\
    q.(m_maximumPermissions) =
      (if decide (start <= x < end_) then if copy then p else m.(m_maximumPermissions)
       else m.(m_maximumPermissions)).
Proof using Hse.
  intros Hx. unfold protect_pieces. apply contains_spec in Hx as Hx'.
  destruct (_ || _) eqn:Hd.
  { exists m. cbn. rewrite Hx. apply orb_true_iff in Hd. rewrite !Z.leb_le in Hd.
    rewrite !decide_False by lia. done. }
  apply disjoint_range in Hd. rewrite !mapping_at_app.
  destruct (Z.ltb_spec m.(m_base) start), (Z.ltb_spec (Z.min (m_end m) end_) (m_end m));
    cbn [mapping_at]; rewrite ?contains_slice;
    repeat match goal with
    | |- context [(?a <=? x)] => destruct (Z.leb_spec a x)
    | |- context [(x <? ?b)] => destruct (Z.ltb_spec x b)
    end; cbn [andb]; try lia;
    eexists; (split; [done|]); cbn; case_decide; try lia; done.
Qed.

Lemma deallocate_pieces_refine : refines_mapping m (deallocate_pieces start end_ m).
Proof using Hm Hs He Hse.
  unfold deallocate_pieces. pose proof (mok_geometry _ _ Hm) as Hg. pose proof Hg as [_ Hsz _ Hb _].
  pose proof (aligned_end _ Hg) as Hend.
  destruct (_ || _) eqn:Hd.
  { split; [done|]. constructor; [by eapply mapping_ok_self|done]. }
  apply disjoint_range in Hd.
  split.
  - destruct (Z.ltb_spec m.(m_base) start), (Z.ltb_spec end_ (m_end m)); cbn;
      rewrite ?Forall_cons, ?Forall_nil, ?slice_end; cbn; lia.
  - destruct (Z.ltb_spec m.(m_base) start), (Z.ltb_spec end_ (m_end m)); cbn;
      repeat (apply Forall_cons_2); try apply Forall_nil_2; apply slice_slice_of; try done; lia.
Qed.

Lemma deallocate_pieces_view x : contains m x = true ->
  if decide (start <= x < end_) then mapping_at (deallocate_pieces start end_ m) x = None
  else exists q, mapping_at (deallocate_pieces start end_ m) x = Some q /\
    q.(m_permissions) = m.(m_permissions) /\ q.(m_maximumPermissions) = m.(m_maximumPermissions).
Proof using Hse.
  intros Hx. unfold deallocate_pieces. apply contains_spec in Hx as Hx'.
  destruct (_ || _) eqn:Hd.
  { apply orb_true_iff in Hd. rewrite !Z.leb_le in Hd. rewrite decide_False by lia.
    exists m. cbn. by rewrite Hx. }
  apply disjoint_range in Hd. rewrite !mapping_at_app.
  destruct (Z.ltb_spec m.(m_base) start), (Z.ltb_spec end_ (m_end m));
    cbn [mapping_at]; rewrite ?contains_slice;
    repeat match goal with
    | |- context [(?a <=? x)] => destruct (Z.leb_spec a x)
    | |- context [(x <? ?b)] => destruct (Z.ltb_spec x b)
    end; cbn [andb]; case_decide; try lia; try done;
    eexists; (split; [done|]); cbn; done.
Qed.
End Pieces.

(** ** Page rounding *)

Lemma page_floor_spec x : 0 <= x < 2 ^ 64 -> page_floor x = x - x mod guestPageSize.
Proof.
  intros Hx. apply (land_not64_ones x 12); [lia|done].
Qed.

Lemma page_floor_aligned x : 0 <= x < 2 ^ 64 -> page_aligned (page_floor x) /\
  page_floor x <= x < page_floor x + guestPageSize /\ 0 <= page_floor x.
Proof.
  intros Hx. rewrite page_floor_spec by done. unfold page_aligned, guestPageSize.
  pose proof (Z.mod_pos_bound x 4096). pose proof (Z.div_mod x 4096 ltac:(lia)).
  split_and!; try lia. replace (x - x mod 4096) with (x / 4096 * 4096) by lia. apply Z.mod_mul. lia.
Qed.

(** The page range of a request that does not overflow. *)
Definition range_start (address : Z) : Z := page_floor address.
Definition range_end (address size : Z) : Z := page_floor (address + size + guestPageSize - 1).

Lemma range_bounds address size : 0 <= address -> 0 < size ->
  address + size <= UINT64_MAX - (guestPageSize - 1) ->
  page_aligned (range_start address) /\ page_aligned (range_end address size) /\
  0 <= range_start address <= address /\ address + size <= range_end address size /\
  range_start address < range_end address size <= UINT64_MAX.
Proof.
  unfold UINT64_MAX, guestPageSize. intros Ha Hs Hmax.
  destruct (page_floor_aligned address) as (A1 & B1 & C1); [lia|].
  destruct (page_floor_aligned (address + size + guestPageSize - 1)) as (A2 & B2 & C2);
    [unfold guestPageSize; lia|].
  unfold range_start, range_end, guestPageSize in *. split_and!; try done; lia.
Qed.

(** ** Validation of [protect] *)

Lemma mappingContaining_spec a s : inv s -> mappingContaining a s = mapping_at s.(as_mappings) a.
Proof.
  intros Hi. pose proof (inv_ordered _ Hi) as Ho.
  pose proof (mappings_geometry _ _ (inv_mappings _ Hi)) as Hg. unfold mappingContaining.
  destruct (mapping_at s.(as_mappings) a) as [m|] eqn:Hm.
  - apply mapping_at_Some in Hm as (Hc & i & Hi'). rewrite (upper_bound_hit _ i m a), Hi' by done.
    cbn. by rewrite rangeContains_contains, Hc.
  - destruct (upper_bound s.(as_mappings) a) as [|i] eqn:Hub; [done|].
    apply upper_bound_S in Hub as (n & Hn & _). rewrite Hn. cbn. rewrite rangeContains_contains.
    apply mapping_at_None in Hm. rewrite Forall_lookup in Hm. by rewrite (Hm _ _ Hn).
Qed.

Definition protect_allowed (s : AddressSpace) (permissions : Z) (copy : bool) (x : Z) : Prop :=
  exists mx, max_at s x = Some mx /\ (copy = true \/ hasPermission mx permissions = true).

(** The result is decided by the first address of the range, if any, that is
    unmapped or whose maximum permissions forbid the change. *)
Definition protect_outcome (s : AddressSpace) (lo hi permissions : Z) (copy : bool)
    (r : ProtectResult) : Prop :=
  match r with
  | ProtectSuccess => forall x, lo <= x < hi -> protect_allowed s permissions copy x
  | InvalidAddress => exists x, lo <= x < hi /\ max_at s x = None /\
      forall y, lo <= y < x -> protect_allowed s permissions copy y
  | ProtectionFailure => exists x mx, lo <= x < hi /\ max_at s x = Some mx /\
      copy = false /\ hasPermission mx permissions = false /\
      forall y, lo <= y < x -> protect_allowed s permissions copy y
  | ProtectInvalidArgument => False
  end.

Definition ends_after (c : Z) (ms : list Mapping) : nat :=
  length (filter (fun m => c < m_end m) ms).

Lemma ends_after_decrease ms c c' m i : ms !! i = Some m -> c < m_end m <= c' ->
  (ends_after c' ms < ends_after c ms)%nat.
Proof.
  unfold ends_after. intros Hi Hc. revert i Hi.
  induction ms as [|n ms IH]; intros i Hi; [done|].
  assert (length (filter (fun m => (c' < m_end m)%Z) ms) <= length (filter (fun m => (c < m_end m)%Z) ms))%nat
    as Hle.
  { clear IH Hi. induction ms as [|k ms IH]; [done|]. rewrite !filter_cons.
    repeat case_decide; cbn; lia. }
  rewrite !filter_cons. destruct i as [|i]; cbn in Hi; simplify_eq.
  - rewrite decide_False, decide_True by lia. cbn. lia.
  - specialize (IH i Hi). repeat case_decide; cbn; lia.
Qed.

Lemma ends_after_bound ms c : (ends_after c ms <= length ms)%nat.
Proof. apply length_filter. Qed.

Lemma access_none s a m : mapping_at s.(as_mappings) a = Some m -> access s Permission_None a = Ok m.
Proof. intros Hm. unfold access, hasPermission. rewrite Hm. by rewrite Z.land_0_r. Qed.

Lemma max_at_run s a m x : inv s -> mapping_at s.(as_mappings) a = Some m -> contains m x = true ->
  max_at s x = Some m.(m_maximumPermissions).
Proof.
  intros Hi Hm%access_none Hx. pose proof (access_in _ _ _ _ _ Hi Hm Hx) as [E _]%access_Ok.
  unfold max_at. by rewrite E.
Qed.

Lemma protect_outcome_extend s lo mid hi p copy r : lo <= mid <= hi ->
  (forall y, lo <= y < mid -> protect_allowed s p copy y) ->
  protect_outcome s mid hi p copy r -> protect_outcome s lo hi p copy r.
Proof.
  intros Hmid Hall. assert (forall x, (forall y, mid <= y < x -> protect_allowed s p copy y) ->
    forall y, lo <= y < x -> protect_allowed s p copy y) as Hext.
  { intros x H y Hy. destruct (Z.lt_ge_cases y mid); [apply Hall; lia|apply H; lia]. }
  destruct r; cbn; [by apply Hext| | |done].
  - intros (x & Hx & Hn & H). exists x. split_and!; [lia|lia|done|by apply Hext].
  - intros (x & mx & Hx & Hn & Hc & Hp & H). exists x, mx. split_and!; try done; [lia|lia|by apply Hext].
Qed.

Lemma protect_check_spec fuel : forall s lo hi p copy ch, inv s -> 0 <= lo -> hi < 2 ^ 64 ->
  (ends_after lo s.(as_mappings) < fuel)%nat -> lo <= hi ->
  exists r ch', protect_check fuel lo hi p copy ch s = Ok (r, ch') /\
    protect_outcome s lo hi p copy r /\
    (r = ProtectSuccess -> ch' = ch || executable_in s lo (Z.to_nat (hi - lo))).
Proof.
  induction fuel as [|fuel IH]; intros s lo hi p copy ch Hi H0 Hmax Hf Hle; [lia|].
  cbn [protect_check]. destruct (Z.leb_spec hi lo).
  { exists ProtectSuccess, ch. replace (Z.to_nat (hi - lo)) with O by lia. cbn.
    rewrite orb_false_r. split_and!; [done| |done]. intros x Hx. lia. }
  rewrite mappingContaining_spec by done.
  destruct (mapping_at s.(as_mappings) lo) as [m|] eqn:Hm.
  2:{ exists InvalidAddress, ch. split_and!; [done| |done]. exists lo. unfold max_at. rewrite Hm.
      split_and!; [lia|lia|done|]. intros y Hy. lia. }
  pose proof Hm as (Hc & i & Hl)%mapping_at_Some. apply contains_spec in Hc as Hc'.
  destruct (_ && _) eqn:Hdeny.
  { apply andb_prop in Hdeny as [Hcp Hp%negb_true_iff]. apply negb_true_iff in Hcp as ->.
    exists ProtectionFailure, ch. split_and!; [done| |done].
    exists lo, m.(m_maximumPermissions). unfold max_at. rewrite Hm.
    split_and!; try lia; try done. }
  set (mid := Z.min hi (m_end m)).
  assert (forall y, lo <= y < mid -> protect_allowed s p copy y) as Hall.
  { intros y Hy. exists m.(m_maximumPermissions). split.
    - eapply max_at_run; [done|exact Hm|]. apply contains_spec. lia.
    - apply andb_false_iff in Hdeny as [Hd%negb_false_iff|Hd%negb_false_iff]; auto. }
  assert (executable_in s lo (Z.to_nat (mid - lo)) = isExecutable m.(m_permissions)) as Hex.
  { eapply executable_run; [done|by apply access_none|lia|lia]. }
  destruct (Z.eq_dec mid hi) as [Emid|Emid].
  - exists ProtectSuccess, (ch || isExecutable m.(m_permissions)). rewrite Emid in *.
    split_and!; [|done|by rewrite Hex].
    destruct fuel; cbn; destruct (Z.leb_spec hi hi); (lia || done).
  - assert (mid = m_end m) as Eend by lia.
    destruct (IH s mid hi p copy (ch || isExecutable m.(m_permissions))) as (r & ch' & E & Ho & Hch);
      [done|lia|done| |lia|].
    { pose proof (ends_after_decrease _ lo mid m i Hl ltac:(lia)). lia. }
    exists r, ch'. split_and!; [done|eapply protect_outcome_extend; [|exact Hall|exact Ho]; lia|].
    intros Hr. rewrite (Hch Hr), <- Hex.
    replace (Z.to_nat (hi - lo)) with (Z.to_nat (mid - lo) + Z.to_nat (hi - mid))%nat by lia.
    rewrite executable_in_app, Z2Nat.id by lia. replace (lo + (mid - lo)) with mid by lia.
    by rewrite orb_assoc.
Qed.

(** ** The rebuilt spaces *)

Lemma slice_at_base m qs q : refines_mapping m qs -> q ∈ qs -> mapping_at qs q.(m_base) = Some q /\
  contains m q.(m_base) = true /\ slice_of m q.
Proof.
  intros [Ho Hs] [i Hi]%list_elem_of_lookup. rewrite Forall_lookup in Hs.
  pose proof (Hs _ _ Hi) as Hq. pose proof (sl_geometry _ _ Hq) as [_ Hsz _ _ _].
  assert (contains q q.(m_base) = true) as Hc by (apply contains_spec; unfold m_end; lia).
  split_and!; [|by eapply slice_of_contains|done].
  apply (mapping_at_lookup _ i); try done. rewrite Forall_lookup. intros j n Hn. by eapply Hs.
Qed.

(** Every byte still mapped keeps its value. *)
Lemma rebuild_byte pieces s x : inv s ->
  Forall (fun m => refines_mapping m (pieces m)) s.(as_mappings) ->
  (mapping_at (concat (map pieces s.(as_mappings))) x ≫=
     fun m => mapping_byte s.(as_files) m (x - m.(m_base))) =
  match mapping_at (concat (map pieces s.(as_mappings))) x with
  | Some _ => byte_at s x
  | None => None
  end.
Proof.
  intros Hi Hr. rewrite rebuild_view by (done || apply Hi). unfold byte_at.
  destruct (mapping_at s.(as_mappings) x) as [m|] eqn:Hm; cbn; [|done].
  destruct (mapping_at (pieces m) x) as [q|] eqn:Hq; cbn; [|done].
  apply mapping_at_Some in Hm as (_ & i & Hl). rewrite Forall_lookup in Hr.
  destruct (Hr _ _ Hl) as [_ Hs]. apply mapping_at_Some in Hq as (Hc & j & Hj).
  rewrite Forall_lookup in Hs. by apply slice_of_byte; [eapply Hs|].
Qed.

Section ProtectEffect.
Context (s : AddressSpace) (lo hi p : Z) (copy : bool).
Context (Hi : inv s) (Hlo : page_aligned lo) (Hhi : page_aligned hi) (Hlt : lo < hi).

Lemma protect_refines :
  Forall (fun m => refines_mapping m (protect_pieces lo hi p copy m)) s.(as_mappings).
Proof using Hi Hlo Hhi Hlt.
  eapply Forall_impl; [apply (inv_mappings _ Hi)|]. intros m Hm. by eapply protect_pieces_refine.
Qed.

Lemma deallocate_refines :
  Forall (fun m => refines_mapping m (deallocate_pieces lo hi m)) s.(as_mappings).
Proof using Hi Hlo Hhi Hlt.
  eapply Forall_impl; [apply (inv_mappings _ Hi)|]. intros m Hm. by eapply deallocate_pieces_refine.
Qed.

Lemma protect_rebuilt_ok : 0 <= p < 8 ->
  (forall x, lo <= x < hi -> protect_allowed s p copy x) ->
  (copy = true -> forall x, lo <= x < hi -> max_at s x <> Some Permission_None) ->
  Forall (mapping_ok s.(as_files)) (concat (map (protect_pieces lo hi p copy) s.(as_mappings))).
Proof using Hi Hlo Hhi Hlt.
  intros Hp Hall Hcopy. eapply Forall_impl; [by apply rebuild_bounds, protect_refines|].
  intros q (m & Hm & Hq & Hin). pose proof (inv_mappings _ Hi) as Hms. rewrite Forall_forall in Hms.
  specialize (Hms m Hm). apply list_elem_of_lookup in Hm as [i Hl].
  destruct (slice_at_base m (protect_pieces lo hi p copy m) q) as (Hv & Hc & _);
    [by eapply protect_pieces_refine|exact Hin|].
  destruct (protect_pieces_view lo hi m Hlt p copy q.(m_base) Hc) as (q' & Hq' & Hqp & Hqm).
  simplify_eq. destruct Hms as [Hg Hmp Hmx Hw Hbk Hrd Hvec] eqn:E. clear E.
  assert (mapping_ok s.(as_files) m) as Hmok by (by split).
  assert (max_at s q.(m_base) = Some m.(m_maximumPermissions)) as Hmax.
  { unfold max_at. rewrite (mapping_at_lookup _ i m); try done; [apply Hi|].
    eapply mappings_geometry, Hi. }
  eapply slice_of_ok; [done|done|rewrite Hqp|rewrite Hqm|rewrite Hqp, Hqm|rewrite Hqm].
  all: case_decide as Hr; try done; destruct copy; try done.
  - unfold hasPermission. rewrite Z.land_diag. apply Z.eqb_refl.
  - destruct (Hall _ Hr) as (mx & E & [?|?]); [done|]. by simplify_eq.
  - right. intros Hz. apply (Hcopy eq_refl _ Hr). by rewrite Hmax, Hz.
  - destruct (decide (m.(m_maximumPermissions) = Permission_None)); auto.
  - destruct (decide (m.(m_maximumPermissions) = Permission_None)); auto.
  - destruct (decide (m.(m_maximumPermissions) = Permission_None)); auto.
Qed.

Lemma deallocate_rebuilt_ok :
  Forall (mapping_ok s.(as_files)) (concat (map (deallocate_pieces lo hi) s.(as_mappings))).
Proof using Hi Hlo Hhi Hlt.
  eapply Forall_impl; [by apply rebuild_bounds, deallocate_refines|].
  intros q (m & Hm & Hq & Hin). pose proof (inv_mappings _ Hi) as Hms. rewrite Forall_forall in Hms.
  specialize (Hms m Hm).
  destruct (slice_at_base m (deallocate_pieces lo hi m) q) as (Hv & Hc & _);
    [by eapply deallocate_pieces_refine|exact Hin|].
  pose proof (deallocate_pieces_view lo hi m Hlt q.(m_base) Hc) as Hview.
  rewrite Hv in Hview. case_decide; [done|]. destruct Hview as (q' & [= <-] & Hqp & Hqm).
  eapply slice_of_ok; [done|done|rewrite Hqp; apply Hms|rewrite Hqm; apply Hms
    |rewrite Hqp, Hqm; apply Hms|rewrite Hqm].
  destruct (decide (m.(m_maximumPermissions) = Permission_None)); auto.
Qed.
End ProtectEffect.

Lemma existsb_pointwise {A} (f g : A -> bool) l : (forall x, f x = g x) -> existsb f l = existsb g l.
Proof. intros H. induction l as [|x l IH]; cbn; [done|]. by rewrite H, IH. Qed.

(** ** The operations *)

(** The permissions, limits and bytes of a space where the range [lo, hi) has
    been given [p] (and the limit [p] for a private copy). *)
Definition protected (s s' : AddressSpace) (lo hi p : Z) (copy : bool) : Prop :=
  inv s' /\
  (forall x, perm_at s' x = if decide (lo <= x < hi) then Some p else perm_at s x) /\
  (forall x, max_at s' x =
     if decide (lo <= x < hi) then if copy then Some p else max_at s x else max_at s x) /\
  (forall x, byte_at s' x = byte_at s x) /\
  s'.(as_executableVersion) =
    (if isExecutable p || executable_in s lo (Z.to_nat (hi - lo))
     then u64 (s.(as_executableVersion) + 1) else s.(as_executableVersion)).

Lemma protect_rebuilt s lo hi p copy c : inv s -> page_aligned lo -> page_aligned hi -> lo < hi ->
  0 <= p < 8 -> (forall x, lo <= x < hi -> protect_allowed s p copy x) ->
  (copy = true -> forall x, lo <= x < hi -> max_at s x <> Some Permission_None) ->
  c = isExecutable p || executable_in s lo (Z.to_nat (hi - lo)) ->
  protected s (bump_if c (invalidateMappingLookup
    (set_mappings (concat (map (protect_pieces lo hi p copy) s.(as_mappings))) s))) lo hi p copy.
Proof.
  intros Hi Al Ah Hlt Hp Hall Hcopy ->.
  pose proof (protect_refines s lo hi p copy Hi Al Ah Hlt) as Hr.
  split; [by apply rebuild_inv; [..|apply protect_rebuilt_ok]|].
  assert (forall x, mapping_at s.(as_mappings) x = None ->
    mapping_at (concat (map (protect_pieces lo hi p copy) s.(as_mappings))) x = None /\
    ~ lo <= x < hi) as Hnone.
  { intros x Hx. rewrite rebuild_view by (done || apply Hi). rewrite Hx. split; [done|]. intros Hr'.
    destruct (Hall x Hr') as (mx & E & _). unfold max_at in E. by rewrite Hx in E. }
  assert (forall x m, mapping_at s.(as_mappings) x = Some m ->
    exists q, mapping_at (concat (map (protect_pieces lo hi p copy) s.(as_mappings))) x = Some q /\
    q.(m_permissions) = (if decide (lo <= x < hi) then p else m.(m_permissions)) /\
    q.(m_maximumPermissions) =
      (if decide (lo <= x < hi) then if copy then p else m.(m_maximumPermissions)
       else m.(m_maximumPermissions))) as Hsome.
  { intros x m Hx. rewrite rebuild_view by (done || apply Hi). rewrite Hx. cbn.
    apply protect_pieces_view; [done|]. by apply mapping_at_Some in Hx as [? _]. }
  unfold perm_at, max_at.
  cbn [as_mappings bump_if invalidateMappingLookup set_lookup set_mappings as_executableVersion].
  split_and!; [| | |done]; intros x.
  - destruct (mapping_at s.(as_mappings) x) as [m|] eqn:Hx.
    + destruct (Hsome x m Hx) as (q & -> & Hq & _). cbn. rewrite Hq. by case_decide.
    + destruct (Hnone x Hx) as [-> Hno]. by rewrite decide_False by done.
  - destruct (mapping_at s.(as_mappings) x) as [m|] eqn:Hx.
    + destruct (Hsome x m Hx) as (q & -> & _ & Hq). cbn. rewrite Hq. case_decide; [|done]. by destruct copy.
    + destruct (Hnone x Hx) as [-> Hno]. by rewrite decide_False by done.
  - unfold byte_at at 1. cbn [as_mappings as_files bump_if invalidateMappingLookup set_lookup set_mappings].
    rewrite rebuild_byte by done.
    destruct (mapping_at s.(as_mappings) x) as [m|] eqn:Hx.
    + by destruct (Hsome x m Hx) as (q & -> & _).
    + destruct (Hnone x Hx) as [-> _]. unfold byte_at. by rewrite Hx.
Qed.



(** C13: [deallocate] removes exactly the pages of the requested range: an
    overflowing request is rejected without effect; otherwise no address of the
    page range is mapped afterwards, every other address keeps its byte, its
    permissions and its limit, partially covered mappings are split, the
    invariant holds, and the executable version advances exactly when an
    executable mapping lost pages. *)
Theorem deallocate_correct s address size : inv s -> 0 <= address -> 0 <= size ->
  if size =? 0 then deallocate address size s = (s, Ok DeallocateSuccess)
  else if UINT64_MAX - (guestPageSize - 1) <? address + size
  then deallocate address size s = (s, Ok DeallocateInvalidArgument)
  else
    let lo := range_start address in
    let hi := range_end address size in
    exists s', deallocate address size s = (s', Ok DeallocateSuccess) /\ inv s' /\
      (forall x, perm_at s' x = if decide (lo <= x < hi) then None else perm_at s x) /\
      (forall x, max_at s' x = if decide (lo <= x < hi) then None else max_at s x) /\
      (forall x, byte_at s' x = if decide (lo <= x < hi) then None else byte_at s x) /\
      s'.(as_executableVersion) =
        (if existsb (fun m => overlaps lo (hi - lo) m && isExecutable m.(m_permissions)) s.(as_mappings)
         then u64 (s.(as_executableVersion) + 1) else s.(as_executableVersion)).
Proof.
  intros Hi Ha Hs. unfold deallocate. cbv zeta. destruct (Z.eqb_spec size 0); [done|].
  assert (0 < guestPageSize) as Hpg by done.
  destruct (Z.ltb_spec (UINT64_MAX - size) address).
  { by destruct (Z.ltb_spec (UINT64_MAX - (guestPageSize - 1)) (address + size)); [|lia]. }
  destruct (Z.ltb_spec (UINT64_MAX - (guestPageSize - 1)) (address + size)); [done|].
  destruct (range_bounds address size) as (A1 & A2 & B1 & B2 & B3); [lia|lia|lia|].
  unfold range_start, range_end in *.
  set (lo := page_floor address) in *. set (hi := page_floor (address + size + guestPageSize - 1)) in *.
  assert (lo < hi) as Hlt by lia.
  pose proof (deallocate_refines s lo hi Hi A1 A2 Hlt) as Hr.
  pose proof (deallocate_rebuilt_ok s lo hi Hi A1 A2 Hlt) as Hok.
  rewrite count_pieces_ok; [|by apply rebuild_ordered; [apply Hi|]|by eapply mappings_geometry].
  eexists. split; [done|]. split; [by apply rebuild_inv|].
  assert (forall x, let v := mapping_at (concat (map (deallocate_pieces lo hi) s.(as_mappings))) x in
    m_permissions <$> v = (if decide (lo <= x < hi) then None else perm_at s x) /\
    m_maximumPermissions <$> v = (if decide (lo <= x < hi) then None else max_at s x)) as Hview.
  { intros x. cbn. rewrite rebuild_view by (done || apply Hi). unfold perm_at, max_at.
    destruct (mapping_at s.(as_mappings) x) as [m|] eqn:Hx; cbn; [|by case_decide].
    apply mapping_at_Some in Hx as [Hc _].
    pose proof (deallocate_pieces_view lo hi m Hlt x Hc) as Hv.
    case_decide; [by rewrite Hv|]. destruct Hv as (q & -> & Hp & Hmx). cbn. by rewrite Hp, Hmx. }
  split_and!; [intros x; apply Hview|intros x; apply Hview| |].
  - intros x. unfold byte_at at 1.
    cbn [as_mappings as_files bump_if invalidateMappingLookup set_lookup set_mappings].
    rewrite rebuild_byte by done. destruct (Hview x) as [Hp _].
    destruct (mapping_at (concat _) x); cbn in Hp; case_decide; try done.
    unfold perm_at in Hp. unfold byte_at. by destruct (mapping_at s.(as_mappings) x).
  - cbn [as_executableVersion bump_if invalidateMappingLookup set_lookup set_mappings].
    erewrite existsb_pointwise; [done|]. intros m. cbn beta. f_equal. unfold overlaps.
    apply eq_true_iff_eq. rewrite negb_true_iff, orb_false_iff, andb_true_iff, !Z.leb_gt, !Z.ltb_lt. lia.
Qed.

Lemma deallocate_correct_witness : inv sampleSpace /\
  exists s', deallocate 8192 4096 sampleSpace = (s', Ok DeallocateSuccess) /\ inv s' /\
    perm_at s' 8192 = None /\ byte_at s' 12300 = Some 7.
Proof.
  split; [apply sampleSpace_inv|].
  pose proof (deallocate_correct sampleSpace 8192 4096 sampleSpace_inv ltac:(lia) ltac:(lia)) as H.
  destruct H as (s' & E & Hi & Hp & _ & Hb & _). exists s'. rewrite Hp, Hb.
  split_and!; [exact E|exact Hi|reflexivity|reflexivity].
Defined.

