(* ===== verification/ExecutionContext.v ===== *)
(** The execution context of generated code: [src/dbt/ExecutionContext.h], and
    the calling convention of the runtime helpers.

    A helper takes a context pointer and a guest state pointer and returns the
    state pointer or null.  Every helper has the same outer shape: a check of the
    pointers, a body that may throw, and a handler that stores the exception and
    the faulting access in the context.  [call] is that shape; a body is a
    computation over the context and the guest state, so the effects that
    precede a throw are kept.  The guest state pointer is never null. *)
From S2P Require Import Prelude X86State AddressSpace AddressSpaceInv AddressSpaceAccess AddressSpaceWrite.

(** A view of one mapping's bytes.  The host pointer [bytes] is the index of the
    mapping whose vector it points into. *)
Record DirectGuestMemoryCache := mkDirectCache {
  d_base : Z;
  d_size : Z;
  d_bytes : option nat;
  d_attempted : bool
}.

(** [timestampCounterReader] is a host function: its value when it is called. *)
Record GuestExecutionContext := mkContext {
  addressSpace : option AddressSpace;
  fault : option exn;
  faultAddress : Z;
  faultSize : Z;
  loadedValue : Z;
  timestampCounterReader : option Z;
  remainingBlockExecutions : Z;
  stopRepeating : Z;
  directMemoryEnabled : bool;
  directRead : DirectGuestMemoryCache;
  directWrite : DirectGuestMemoryCache;
  faultRip : Z
}.

Definition set_space (s : AddressSpace) (c : GuestExecutionContext) : GuestExecutionContext :=
  mkContext (Some s) c.(fault) c.(faultAddress) c.(faultSize) c.(loadedValue)
    c.(timestampCounterReader) c.(remainingBlockExecutions) c.(stopRepeating)
    c.(directMemoryEnabled) c.(directRead) c.(directWrite) c.(faultRip).
Definition set_fault (e : exn) (at_ : option (Z * Z)) (c : GuestExecutionContext) : GuestExecutionContext :=
  mkContext c.(addressSpace) (Some e)
    (match at_ with Some (a, _) => a | None => c.(faultAddress) end)
    (match at_ with Some (_, n) => n | None => c.(faultSize) end)
    c.(loadedValue) c.(timestampCounterReader) c.(remainingBlockExecutions) c.(stopRepeating)
    c.(directMemoryEnabled) c.(directRead) c.(directWrite) c.(faultRip).
Definition set_loadedValue (v : Z) (c : GuestExecutionContext) : GuestExecutionContext :=
  mkContext c.(addressSpace) c.(fault) c.(faultAddress) c.(faultSize) v
    c.(timestampCounterReader) c.(remainingBlockExecutions) c.(stopRepeating)
    c.(directMemoryEnabled) c.(directRead) c.(directWrite) c.(faultRip).
Definition set_stopRepeating (v : Z) (c : GuestExecutionContext) : GuestExecutionContext :=
  mkContext c.(addressSpace) c.(fault) c.(faultAddress) c.(faultSize) c.(loadedValue)
    c.(timestampCounterReader) c.(remainingBlockExecutions) v
    c.(directMemoryEnabled) c.(directRead) c.(directWrite) c.(faultRip).
Definition set_directRead (d : DirectGuestMemoryCache) (c : GuestExecutionContext) : GuestExecutionContext :=
  mkContext c.(addressSpace) c.(fault) c.(faultAddress) c.(faultSize) c.(loadedValue)
    c.(timestampCounterReader) c.(remainingBlockExecutions) c.(stopRepeating)
    c.(directMemoryEnabled) d c.(directWrite) c.(faultRip).
Definition set_directWrite (d : DirectGuestMemoryCache) (c : GuestExecutionContext) : GuestExecutionContext :=
  mkContext c.(addressSpace) c.(fault) c.(faultAddress) c.(faultSize) c.(loadedValue)
    c.(timestampCounterReader) c.(remainingBlockExecutions) c.(stopRepeating)
    c.(directMemoryEnabled) c.(directRead) d c.(faultRip).

(** ** Computations of a helper body *)

Definition Machine : Type := GuestExecutionContext * X86State.

Definition on_space {A} (c : M AddressSpace A) : M Machine A := fun m =>
  match m.1.(addressSpace) with
  | None => (m, Undefined)
  | Some s => let (s', r) := c s in ((set_space s' m.1, m.2), r)
  end.
Definition get_state : M Machine X86State := fun m => (m, Ok m.2).
Definition get_context : M Machine GuestExecutionContext := fun m => (m, Ok m.1).
Definition modify_state (f : X86State -> X86State) : M Machine unit := fun m => ((m.1, f m.2), Ok tt).
Definition modify_context (f : GuestExecutionContext -> GuestExecutionContext) : M Machine unit :=
  fun m => ((f m.1, m.2), Ok tt).

(** [memcpy] of the low [n] bytes of [value] to the slot of a register. *)
Definition copy_to_register (r : Register) (n value : Z) (state : X86State) : X86State :=
  set_gpr r (Z.lor (Z.land (get_gpr r state) (not64 (Z.ones (8 * n)))) (wrap (8 * n) value)) state.

(** [static_cast<x86::Register>] of an encoding that was checked. *)
Definition register_of (encoding : Z) : Register := nth (Z.to_nat encoding) all_registers Rax.

(** What a helper call leaves: the context, the guest state and whether the
    state pointer (rather than null) is returned. *)
Definition CallResult : Type := option GuestExecutionContext * X86State * bool.

(** The handler; [at_] is the access it records, when it records one. *)
Definition call (context : option GuestExecutionContext) (state : X86State) (message : string)
    (at_ : option (Z * Z)) (body : M Machine unit) : outcome CallResult :=
  match context with
  | None => Ok (None, state, false)
  | Some c =>
      match c.(addressSpace) with
      | None => Ok (Some (set_fault (runtime_error message) at_ c), state, false)
      | Some _ =>
          match body (c, state) with
          | ((c', state'), Ok _) => Ok (Some c', state', true)
          | ((c', state'), Throw e) => Ok (Some (set_fault e at_ c'), state', false)
          | (_, Undefined) => Undefined
          end
      end
  end.

(** ** Lemmas on bodies *)

Lemma set_space_space s c : addressSpace (set_space s c) = Some s.
Proof. done. Qed.
Lemma set_space_set_space s s' c : set_space s' (set_space s c) = set_space s' c.
Proof. done. Qed.
Lemma set_space_id s c : addressSpace c = Some s -> set_space s c = c.
Proof. destruct c. cbn. by intros ->. Qed.

Lemma on_space_run {A} (c : M AddressSpace A) s s' r ctx st : c s = (s', r) ->
  addressSpace ctx = Some s -> on_space c (ctx, st) = ((set_space s' ctx, st), r).
Proof. intros H E. unfold on_space. cbn [fst snd]. by rewrite E, H. Qed.

Lemma call_run ctx s st message at_ body : addressSpace ctx = Some s ->
  call (Some ctx) st message at_ body =
  match body (ctx, st) with
  | ((c', state'), Ok _) => Ok (Some c', state', true)
  | ((c', state'), Throw e) => Ok (Some (set_fault e at_ c'), state', false)
  | (_, Undefined) => Undefined
  end.
Proof. intros E. cbn. by rewrite E. Qed.

(** Calls without an address space only record the error. *)
Lemma call_null st message at_ body : call None st message at_ body = Ok (None, st, false).
Proof. done. Qed.
Lemma call_no_space ctx st message at_ body : addressSpace ctx = None ->
  call (Some ctx) st message at_ body = Ok (Some (set_fault (runtime_error message) at_ ctx), st, false).
Proof. intros E. cbn. by rewrite E. Qed.

(** ** Validation *)

Lemma validateAccess_loop_spec fuel : forall s a n r, inv s -> in_range 64 a -> (Z.to_nat n <= fuel)%nat ->
  exists s', validateAccess_loop fuel a n r s = (s', check_all s r a (Z.to_nat n)) /\ same_memory s s' /\ inv s'.
Proof.
  induction fuel as [|fuel IH]; intros s a n r Hi Ha Hn; cbn [validateAccess_loop];
    destruct (Z.leb_spec n 0).
  1,3: exists s; replace (Z.to_nat n) with 0%nat by lia;
    split_and!; [done|apply set_lookup_cache|done].
  1: lia.
  match goal with |- context [bind (find a 1 ?r) (fun i => bind (deref i) (@?k i))] =>
    destruct (find_deref a r s k Hi) as (s1 & Hs1 & Hi1 & Hcase) end.
  replace (Z.to_nat n) with (S (Z.to_nat (n - 1))) by lia.
  destruct (access s r a) as [m|e|] eqn:Hacc;
    [|by exists s1; rewrite Hcase, (check_all_fail _ _ _ _ e)|done].
  destruct Hcase as (i & Hl & ->).
  destruct (chunk_bounds _ _ _ _ n Hi Hacc ltac:(lia)) as (Hch & Hlo & Hend & Hmax).
  set (chunk := Z.min n _) in *.
  replace (S (Z.to_nat (n - 1))) with (Z.to_nat chunk + Z.to_nat (n - chunk))%nat by lia.
  rewrite check_all_app, !Z2Nat.id by lia. rewrite (access_run s _ a m) by (done || lia).
  cbn [outcome_bind].
  destruct (IH s1 (u64 (a + chunk)) (n - chunk) r) as (s2 & E2 & Hs2 & Hi2);
    [done|apply u64_range|lia|].
  exists s2. split_and!; [|by eapply same_memory_trans|done].
  by rewrite (check_all_same s s1) in E2.
Qed.

Lemma validateAccess_spec s a n r : inv s -> in_range 64 a ->
  exists s', validateAccess a n r s = (s', check_all s r a (Z.to_nat n)) /\ same_memory s s' /\ inv s'.
Proof. intros. by apply validateAccess_loop_spec. Qed.

Definition Permission_ReadWrite : Z := Permission_or Permission_Read Permission_Write.

Lemma access_defined s r a : access s r a <> Undefined.
Proof. unfold access. by destruct (mapping_at _ _) as [m|]; [destruct (hasPermission _ _)|]. Qed.

Lemma check_all_defined s r n : forall a, check_all s r a n <> Undefined.
Proof.
  induction n as [|n IH]; intros a; cbn; [done|].
  pose proof (access_defined s r a). destruct (access s r a); [apply IH|done|done].
Qed.

(** Access for reading and writing implies access for either. *)
Lemma hasPermission_weaken p r : (r = Permission_Read \/ r = Permission_Write) ->
  hasPermission p Permission_ReadWrite = true -> hasPermission p r = true.
Proof.
  unfold hasPermission, Permission_ReadWrite, Permission_or. intros Hr Hp%Z.eqb_eq.
  apply Z.eqb_eq. apply Z.bits_inj'. intros i Hi. rewrite Z.land_spec.
  pose proof (f_equal (fun z => Z.testbit z i) Hp) as E. cbn beta in E.
  rewrite Z.land_spec, Z.lor_spec in E.
  destruct Hr as [-> | ->], (Z.testbit p i), (Z.testbit Permission_Read i), (Z.testbit Permission_Write i);
    done.
Qed.

Lemma check_all_weaken s r n : (r = Permission_Read \/ r = Permission_Write) ->
  forall a, check_all s Permission_ReadWrite a n = Ok tt -> check_all s r a n = Ok tt.
Proof.
  intros Hr. induction n as [|n IH]; intros a; cbn [check_all]; [done|].
  unfold access. destruct (mapping_at _ a) as [m|]; [|done].
  destruct (hasPermission m.(m_permissions) Permission_ReadWrite) eqn:Hp; [|done].
  rewrite (hasPermission_weaken _ r) by done. cbn [outcome_bind]. apply IH.
Qed.

(** ** Well-formed spaces

    What a helper relies on: the invariant of the space, no lazily transformed
    mapping, and cells that hold bytes. *)
Definition byte_memory (s : AddressSpace) : Prop := forall a b, byte_at s a = Some b -> is_byte b.

Record space_ok (s : AddressSpace) : Prop := {
  space_inv : inv s;
  space_eager : eager s;
  space_bytes : byte_memory s
}.
#[export] Hint Resolve space_inv space_eager space_bytes : core.

Lemma byte_at_same s s' a : same_memory s s' -> byte_at s' a = byte_at s a.
Proof. intros ->. done. Qed.

Lemma space_ok_same s s' : space_ok s -> same_memory s s' -> inv s' -> space_ok s'.
Proof.
  intros [Hi He Hb] Hs Hi'. split; [done|by eapply eager_same_memory|].
  intros a b. rewrite (byte_at_same s s') by done. apply Hb.
Qed.

Lemma space_ok_written s s' a d : space_ok s -> bytes_ok d -> write_effect s s' a d -> space_ok s'.
Proof.
  intros [Hi He Hb] Hd (Hi' & Hsh & Hw & _). split; [done|by eapply eager_shape|].
  intros x b. rewrite Hw. case_decide; [|apply Hb].
  intros E. unfold bytes_ok in Hd. rewrite Forall_lookup in Hd. by eapply Hd.
Qed.

Lemma fetch_byte s a b : space_ok s -> fetch s a = Ok b -> is_byte b.
Proof.
  intros [Hi _ Hb]. rewrite fetch_alt by done.
  destruct (access s Permission_Read a) as [m|e|]; [|done|done]. cbn [outcome_bind].
  destruct (sparse_hole _ _); [done|]. destruct (byte_at s a) as [c|] eqn:E; [|done].
  intros [= <-]. by apply (Hb a).
Qed.

Lemma fetch_all_bytes s n : space_ok s -> forall a l, fetch_all s a n = Ok l ->
  bytes_ok l /\ length l = n.
Proof.
  intros Hs. induction n as [|n IH]; intros a l; cbn [fetch_all].
  { intros [= <-]. by split; [constructor|]. }
  destruct (fetch s a) as [b|e|] eqn:Hb; [|done|done]. cbn [outcome_bind].
  destruct (fetch_all s (u64 (a + 1)) n) as [bs|e|] eqn:Hbs; [|done|done]. intros [= <-].
  destruct (IH _ _ Hbs) as [Hok Hl]. split; [|cbn; by rewrite Hl].
  constructor; [by eapply fetch_byte|done].
Qed.

Lemma word_at_range s a w v : space_ok s -> 0 <= w -> word_at s a w = Ok v -> in_range (8 * w) v.
Proof.
  intros Hs Hw. unfold word_at. destruct (fetch_all _ _ _) as [l|e|] eqn:E; [|done|done].
  intros [= <-]. destruct (fetch_all_bytes _ _ Hs _ _ E) as [Hok Hl].
  pose proof (le_value_range l Hok) as H. unfold zlength in H. by rewrite Hl, Z2Nat.id in H by done.
Qed.

Lemma sampleSpace_ok : space_ok sampleSpace.
Proof.
  split; [apply sampleSpace_inv|apply sampleSpace_eager|].
  intros a b. unfold byte_at. cbn [as_mappings sampleSpace mapping_at as_files].
  assert (forall n c (v : Z), replicate n v !! c = Some b -> is_byte v -> is_byte b) as Hr
    by (intros n c v [-> _]%lookup_replicate; done).
  destruct (contains samplePageZero a), (contains sampleCode a), (contains sampleData a); cbn [mbind option_bind];
    unfold mapping_byte; cbn [m_fileBytes m_bytes samplePageZero sampleCode sampleData];
    rewrite ?lookup_nil, ?lookup_singleton_eq; cbn [mbind option_bind];
    first [done | intros H; eapply Hr; [exact H|unfold is_byte; lia]].
Qed.
