(* ===== verification/MemoryArithmetic.v ===== *)
(** Read-modify-write helpers of generated code: [src/dbt/MemoryArithmetic.cpp].

    Each helper validates the operand, reads it, computes, writes the result back
    and updates the guest registers and flags.  The host fences of the LOCK forms
    order nothing in a single-threaded guest and are not modelled.  The abstract
    operations below say what each instruction does to one memory operand and the
    guest state; [implements_rmw] is the contract that relates a helper to its
    operation, errors included. *)
From S2P Require Import Prelude X86State FlagSpec FlagHelpers AddressSpace AddressSpaceInv AddressSpaceAccess AddressSpaceWrite ExecutionContext.

Definition addGuest64 (context : option GuestExecutionContext) (state : X86State)
    (address source : Z) : outcome CallResult :=
  call context state "generated 64-bit guest add has no address space" (Some (address, 8)) (
    on_space (validateAccess address 8 (Permission_or Permission_Read Permission_Write)) ;;;
    do! original <- on_space (readU64 address);
    let result := u64 (original + source) in
    on_space (writeU64 address result) ;;;
    modify_state (fun state => updateAddFlags64 state original source result)).

Definition addGuest8 (context : option GuestExecutionContext) (state : X86State)
    (address sourceValue : Z) : outcome CallResult :=
  call context state "generated 8-bit guest add has no address space" (Some (address, 1)) (
    on_space (validateAccess address 1 (Permission_or Permission_Read Permission_Write)) ;;;
    do! original <- on_space (readU8 address);
    let result := u8 (original + (u8 sourceValue)) in
    on_space (writeBytes address [result]) ;;;
    modify_state (fun state => updateAddFlags8 state original (u8 sourceValue) result)).

Definition addGuest16 (context : option GuestExecutionContext) (state : X86State)
    (address sourceValue : Z) : outcome CallResult :=
  call context state "generated 16-bit guest add has no address space" (Some (address, 2)) (
    on_space (validateAccess address 2 (Permission_or Permission_Read Permission_Write)) ;;;
    do! original <- on_space (readU16 address);
    let source := u16 sourceValue in
    let result := u16 (original + source) in
    on_space (writeBytes address [u8 result; u8 (Z.shiftr result 8)]) ;;;
    modify_state (fun state => updateAddFlags16 state original source result)).

Definition addGuest32 (context : option GuestExecutionContext) (state : X86State)
    (address sourceValue : Z) : outcome CallResult :=
  call context state "generated 32-bit guest add has no address space" (Some (address, 4)) (
    on_space (validateAccess address 4 (Permission_or Permission_Read Permission_Write)) ;;;
    do! original <- on_space (readU32 address);
    let source := u32 sourceValue in
    let result := u32 (u32 (original + source)) in
    on_space (writeBytes address
      [u8 result; u8 (Z.shiftr result 8); u8 (Z.shiftr result 16); u8 (Z.shiftr result 24)]) ;;;
    modify_state (fun state => updateAddFlags32 state original source result)).

Definition subGuest64 (context : option GuestExecutionContext) (state : X86State)
    (address source : Z) : outcome CallResult :=
  call context state "generated 64-bit guest subtract has no address space" (Some (address, 8)) (
    on_space (validateAccess address 8 (Permission_or Permission_Read Permission_Write)) ;;;
    do! original <- on_space (readU64 address);
    let result := u64 (original - source) in
    on_space (writeU64 address result) ;;;
    modify_state (fun state => updateSubFlags64 state original source result)).

Definition subGuest32 (context : option GuestExecutionContext) (state : X86State)
    (address sourceValue : Z) : outcome CallResult :=
  call context state "generated 32-bit guest subtract has no address space" (Some (address, 4)) (
    on_space (validateAccess address 4 (Permission_or Permission_Read Permission_Write)) ;;;
    do! original <- on_space (readU32 address);
    let source := u32 sourceValue in
    let result := u32 (u32 (original - source)) in
    on_space (writeBytes address
      [u8 result; u8 (Z.shiftr result 8); u8 (Z.shiftr result 16); u8 (Z.shiftr result 24)]) ;;;
    modify_state (fun state => updateSubFlags32 state original source result)).

Definition subGuest8 (context : option GuestExecutionContext) (state : X86State)
    (address sourceValue : Z) : outcome CallResult :=
  call context state "generated 8-bit guest subtract has no address space" (Some (address, 1)) (
    on_space (validateAccess address 1 (Permission_or Permission_Read Permission_Write)) ;;;
    do! original <- on_space (readU8 address);
    let result := u8 (original - (u8 sourceValue)) in
    on_space (writeBytes address [result]) ;;;
    modify_state (fun state => updateSubFlags8 state original (u8 sourceValue) result)).

Definition orGuest8 (context : option GuestExecutionContext) (state : X86State)
    (address sourceValue : Z) : outcome CallResult :=
  call context state "generated 8-bit guest OR has no address space" (Some (address, 1)) (
    on_space (validateAccess address 1 (Permission_or Permission_Read Permission_Write)) ;;;
    do! original <- on_space (readU8 address);
    let result := u8 (Z.lor original (u8 sourceValue)) in
    on_space (writeBytes address [result]) ;;;
    modify_state (fun state => updateLogicFlags8 state result)).

Definition orGuest16 (context : option GuestExecutionContext) (state : X86State)
    (address sourceValue : Z) : outcome CallResult :=
  call context state "generated 16-bit guest OR has no address space" (Some (address, 2)) (
    on_space (validateAccess address 2 (Permission_or Permission_Read Permission_Write)) ;;;
    do! original <- on_space (readU16 address);
    let result := u16 (Z.lor original (u16 sourceValue)) in
    on_space (writeBytes address [u8 result; u8 (Z.shiftr result 8)]) ;;;
    modify_state (fun state => updateLogicFlags16 state result)).

Definition orGuest32 (context : option GuestExecutionContext) (state : X86State)
    (address sourceValue : Z) : outcome CallResult :=
  call context state "generated 32-bit guest OR has no address space" (Some (address, 4)) (
    on_space (validateAccess address 4 (Permission_or Permission_Read Permission_Write)) ;;;
    do! original <- on_space (readU32 address);
    let result := u32 (Z.lor original (u32 sourceValue)) in
    on_space (writeU32 address result) ;;;
    modify_state (fun state => updateLogicFlags32 state result)).

Definition orGuest64 (context : option GuestExecutionContext) (state : X86State)
    (address sourceValue : Z) : outcome CallResult :=
  call context state "generated 64-bit guest OR has no address space" (Some (address, 8)) (
    on_space (validateAccess address 8 (Permission_or Permission_Read Permission_Write)) ;;;
    do! original <- on_space (readU64 address);
    let result := Z.lor original sourceValue in
    on_space (writeU64 address result) ;;;
    modify_state (fun state => updateLogicFlags64 state result)).

Definition andGuest8 (context : option GuestExecutionContext) (state : X86State)
    (address sourceValue : Z) : outcome CallResult :=
  call context state "generated 8-bit guest AND has no address space" (Some (address, 1)) (
    on_space (validateAccess address 1 (Permission_or Permission_Read Permission_Write)) ;;;
    do! original <- on_space (readU8 address);
    let result := u8 (Z.land original (u8 sourceValue)) in
    on_space (writeBytes address [result]) ;;;
    modify_state (fun state => updateLogicFlags8 state result)).

Definition andGuest16 (context : option GuestExecutionContext) (state : X86State)
    (address sourceValue : Z) : outcome CallResult :=
  call context state "generated 16-bit guest AND has no address space" (Some (address, 2)) (
    on_space (validateAccess address 2 (Permission_or Permission_Read Permission_Write)) ;;;
    do! original <- on_space (readU16 address);
    let result := u16 (Z.land original (u16 sourceValue)) in
    on_space (writeBytes address [u8 result; u8 (Z.shiftr result 8)]) ;;;
    modify_state (fun state => updateLogicFlags16 state result)).

Definition andGuest64 (context : option GuestExecutionContext) (state : X86State)
    (address sourceValue : Z) : outcome CallResult :=
  call context state "generated 64-bit guest AND has no address space" (Some (address, 8)) (
    on_space (validateAccess address 8 (Permission_or Permission_Read Permission_Write)) ;;;
    do! original <- on_space (readU64 address);
    let result := Z.land original sourceValue in
    on_space (writeU64 address result) ;;;
    modify_state (fun state => updateLogicFlags64 state result)).

Definition andGuest32 (context : option GuestExecutionContext) (state : X86State)
    (address sourceValue : Z) : outcome CallResult :=
  call context state "generated 32-bit guest AND has no address space" (Some (address, 4)) (
    on_space (validateAccess address 4 (Permission_or Permission_Read Permission_Write)) ;;;
    do! original <- on_space (readU32 address);
    let result := u32 (Z.land original (u32 sourceValue)) in
    on_space (writeU32 address result) ;;;
    modify_state (fun state => updateLogicFlags32 state result)).

Definition incrementGuest8 (context : option GuestExecutionContext) (state : X86State)
    (address : Z) : outcome CallResult :=
  call context state "generated 8-bit guest increment has no address space" (Some (address, 1)) (
    on_space (validateAccess address 1 (Permission_or Permission_Read Permission_Write)) ;;;
    do! original <- on_space (readU8 address);
    let result := u8 (u32 (original + 1)) in
    on_space (writeBytes address [result]) ;;;
    modify_state (fun state => updateIncFlags8 state original result)).

Definition incrementGuest16 (context : option GuestExecutionContext) (state : X86State)
    (address : Z) : outcome CallResult :=
  call context state "generated 16-bit guest increment has no address space" (Some (address, 2)) (
    do! original <- on_space (readU16 address);
    let result := u16 (u32 (original + 1)) in
    on_space (writeBytes address [u8 result; u8 (Z.shiftr result 8)]) ;;;
    modify_state (fun state => updateIncFlags 16 state original result)).

Definition incrementGuest32 (context : option GuestExecutionContext) (state : X86State)
    (address : Z) : outcome CallResult :=
  call context state "generated 32-bit guest increment has no address space" (Some (address, 4)) (
    on_space (validateAccess address 4 (Permission_or Permission_Read Permission_Write)) ;;;
    do! original <- on_space (readU32 address);
    let result := u32 (u32 (original + 1)) in
    on_space (writeBytes address
      [u8 result; u8 (Z.shiftr result 8); u8 (Z.shiftr result 16); u8 (Z.shiftr result 24)]) ;;;
    modify_state (fun state => updateIncFlags32 state original result)).

Definition incrementGuest64 (context : option GuestExecutionContext) (state : X86State)
    (address : Z) : outcome CallResult :=
  call context state "generated 64-bit guest increment has no address space" (Some (address, 8)) (
    do! original <- on_space (readU64 address);
    let result := u64 (original + 1) in
    on_space (writeU64 address result) ;;;
    modify_state (fun state => updateIncFlags 64 state original result)).

Definition lockedIncrementGuest32 (context : option GuestExecutionContext) (state : X86State)
    (address : Z) : outcome CallResult :=
  call context state "generated LOCK INC has no guest address space" (Some (address, 4)) (
    on_space (validateAccess address 4 (Permission_or Permission_Read Permission_Write)) ;;;
    do! original <- on_space (readU32 address);
    let result := u32 (u32 (original + 1)) in
    on_space (writeBytes address
      [u8 result; u8 (Z.shiftr result 8); u8 (Z.shiftr result 16); u8 (Z.shiftr result 24)]) ;;;
    modify_state (fun state => updateIncFlags32 state original result)).

Definition lockedIncrementGuest64 (context : option GuestExecutionContext) (state : X86State)
    (address : Z) : outcome CallResult :=
  call context state "generated LOCK INC has no guest address space" (Some (address, 8)) (
    on_space (validateAccess address 8 (Permission_or Permission_Read Permission_Write)) ;;;
    do! original <- on_space (readU64 address);
    let result := u64 (original + 1) in
    on_space (writeU64 address result) ;;;
    modify_state (fun state => updateIncFlags64 state original result)).

Definition lockedDecrementGuest32 (context : option GuestExecutionContext) (state : X86State)
    (address : Z) : outcome CallResult :=
  call context state "generated LOCK DEC has no guest address space" (Some (address, 4)) (
    on_space (validateAccess address 4 (Permission_or Permission_Read Permission_Write)) ;;;
    do! original <- on_space (readU32 address);
    let result := u32 (u32 (original - 1)) in
    on_space (writeBytes address
      [u8 result; u8 (Z.shiftr result 8); u8 (Z.shiftr result 16); u8 (Z.shiftr result 24)]) ;;;
    modify_state (fun state => updateDecFlags32 state original result)).

Definition lockedDecrementGuest64 (context : option GuestExecutionContext) (state : X86State)
    (address : Z) : outcome CallResult :=
  call context state "generated LOCK DEC has no guest address space" (Some (address, 8)) (
    on_space (validateAccess address 8 (Permission_or Permission_Read Permission_Write)) ;;;
    do! original <- on_space (readU64 address);
    let result := u64 (original - 1) in
    on_space (writeU64 address result) ;;;
    modify_state (fun state => updateDecFlags64 state original result)).

Definition decrementGuest32 (context : option GuestExecutionContext) (state : X86State)
    (address : Z) : outcome CallResult :=
  call context state "generated 32-bit guest decrement has no address space" (Some (address, 4)) (
    on_space (validateAccess address 4 (Permission_or Permission_Read Permission_Write)) ;;;
    do! original <- on_space (readU32 address);
    let result := u32 (u32 (original - 1)) in
    on_space (writeBytes address
      [u8 result; u8 (Z.shiftr result 8); u8 (Z.shiftr result 16); u8 (Z.shiftr result 24)]) ;;;
    modify_state (fun state => updateDecFlags32 state original result)).

Definition decrementGuest16 (context : option GuestExecutionContext) (state : X86State)
    (address : Z) : outcome CallResult :=
  call context state "generated 16-bit guest decrement has no address space" (Some (address, 2)) (
    do! original <- on_space (readU16 address);
    let result := u16 (u32 (original - 1)) in
    on_space (writeBytes address [u8 result; u8 (Z.shiftr result 8)]) ;;;
    modify_state (fun state => updateDecFlags16 state original result)).

Definition decrementGuest64 (context : option GuestExecutionContext) (state : X86State)
    (address : Z) : outcome CallResult :=
  call context state "generated 64-bit guest decrement has no address space" (Some (address, 8)) (
    do! original <- on_space (readU64 address);
    let result := u64 (original - 1) in
    on_space (writeU64 address result) ;;;
    modify_state (fun state => updateDecFlags 64 state original result)).

Definition decrementGuest8 (context : option GuestExecutionContext) (state : X86State)
    (address : Z) : outcome CallResult :=
  call context state "generated 8-bit guest decrement has no address space" (Some (address, 1)) (
    on_space (validateAccess address 1 (Permission_or Permission_Read Permission_Write)) ;;;
    do! original <- on_space (readU8 address);
    let result := u8 (u32 (original - 1)) in
    on_space (writeBytes address [result]) ;;;
    modify_state (fun state => updateDecFlags8 state original result)).

Definition compareExchangeGuest8 (context : option GuestExecutionContext) (state : X86State)
    (address sourceValue : Z) : outcome CallResult :=
  call context state "generated byte CMPXCHG has no guest address space" (Some (address, 1)) (
    on_space (validateAccess address 1 (Permission_or Permission_Read Permission_Write)) ;;;
    do! memoryValue <- on_space (readU8 address);
    do! state <- get_state;
    let accumulator := u8 (get_gpr Rax state) in
    let result := u8 (memoryValue - accumulator) in
    (if accumulator =? memoryValue then
       let source := u8 sourceValue in
       on_space (writeBytes address [source])
     else
       modify_state (fun state =>
         set_gpr Rax (Z.lor (Z.land (get_gpr Rax state) (not64 0xFF)) memoryValue) state)) ;;;
    modify_state (fun state => updateSubFlags8 state memoryValue accumulator result)).

Definition compareExchangeGuest32 (context : option GuestExecutionContext) (state : X86State)
    (address sourceValue : Z) : outcome CallResult :=
  call context state "generated CMPXCHG has no guest address space" (Some (address, 4)) (
    on_space (validateAccess address 4 (Permission_or Permission_Read Permission_Write)) ;;;
    do! memoryValue <- on_space (readU32 address);
    do! state <- get_state;
    let accumulator := u32 (get_gpr Rax state) in
    let result := u32 (u32 (memoryValue - accumulator)) in
    (if accumulator =? memoryValue then
       let source := u32 sourceValue in
       on_space (writeBytes address
         [u8 source; u8 (Z.shiftr source 8); u8 (Z.shiftr source 16); u8 (Z.shiftr source 24)]) ;;;
       modify_state (set_gpr Rax accumulator)
     else
       modify_state (set_gpr Rax memoryValue)) ;;;
    modify_state (fun state => updateSubFlags32 state memoryValue accumulator result)).

Definition compareExchangeGuest64 (context : option GuestExecutionContext) (state : X86State)
    (address sourceValue : Z) : outcome CallResult :=
  call context state "generated 64-bit CMPXCHG has no guest address space" (Some (address, 8)) (
    on_space (validateAccess address 8 (Permission_or Permission_Read Permission_Write)) ;;;
    do! memoryValue <- on_space (readU64 address);
    do! state <- get_state;
    let accumulator := get_gpr Rax state in
    let result := u64 (memoryValue - accumulator) in
    (if accumulator =? memoryValue then
       on_space (writeBytes address (le_bytes 8 sourceValue))
     else
       modify_state (set_gpr Rax memoryValue)) ;;;
    modify_state (fun state => updateSubFlags64 state memoryValue accumulator result)).

Definition compareExchangeGuestPair (context : option GuestExecutionContext) (state : X86State)
    (address : Z) : outcome CallResult :=
  call context state "generated CMPXCHG16B has no guest address space" (Some (address, 16)) (
    if negb (Z.land address (16 - 1) =? 0) then
      throw (runtime_error "CMPXCHG16B requires a 16-byte aligned guest address")
    else
    on_space (validateAccess address 16 (Permission_or Permission_Read Permission_Write)) ;;;
    do! bytes <- on_space (readBytes address 16);
    let memoryLow := le_value (subspan bytes 0 8) in
    let memoryHigh := le_value (subspan bytes 8 8) in
    do! state <- get_state;
    if (get_gpr Rax state =? memoryLow) && (get_gpr Rdx state =? memoryHigh) then
      on_space (writeBytes address (le_bytes 8 (get_gpr Rbx state) ++ le_bytes 8 (get_gpr Rcx state))) ;;;
      modify_state (fun state => set_rflags (Z.lor state.(rflags) flagZero) state)
    else
      modify_state (set_gpr Rax memoryLow) ;;;
      modify_state (set_gpr Rdx memoryHigh) ;;;
      modify_state (fun state => set_rflags (Z.land state.(rflags) (not64 flagZero)) state)).

Definition exchangeGuest8 (context : option GuestExecutionContext) (state : X86State)
    (address sourceValue destinationEncoding : Z) : outcome CallResult :=
  call context state "generated byte XCHG has no guest address space" (Some (address, 1)) (
    if 15 <? destinationEncoding then
      throw (runtime_error "generated byte XCHG has an invalid guest register")
    else
    on_space (validateAccess address 1 (Permission_or Permission_Read Permission_Write)) ;;;
    do! oldValue <- on_space (readU8 address);
    let newValue := u8 sourceValue in
    on_space (writeBytes address [newValue]) ;;;
    let destination := register_of destinationEncoding in
    modify_state (copy_to_register destination 1 oldValue)).

Definition exchangeGuest32 (context : option GuestExecutionContext) (state : X86State)
    (address sourceValue destinationEncoding : Z) : outcome CallResult :=
  call context state "generated XCHG has no guest address space" (Some (address, 4)) (
    if 15 <? destinationEncoding then
      throw (runtime_error "generated XCHG has an invalid guest register")
    else
    on_space (validateAccess address 4 (Permission_or Permission_Read Permission_Write)) ;;;
    do! oldValue <- on_space (readU32 address);
    let newValue := u32 sourceValue in
    on_space (writeBytes address
      [u8 newValue; u8 (Z.shiftr newValue 8); u8 (Z.shiftr newValue 16); u8 (Z.shiftr newValue 24)]) ;;;
    let destination := register_of destinationEncoding in
    let zeroExtended := u64 oldValue in
    modify_state (copy_to_register destination 8 zeroExtended)).

Definition exchangeGuest64 (context : option GuestExecutionContext) (state : X86State)
    (address sourceValue destinationEncoding : Z) : outcome CallResult :=
  call context state "generated XCHG has no guest address space" (Some (address, 8)) (
    if 15 <? destinationEncoding then
      throw (runtime_error "generated XCHG has an invalid guest register")
    else
    on_space (validateAccess address 8 (Permission_or Permission_Read Permission_Write)) ;;;
    do! oldValue <- on_space (readU64 address);
    on_space (writeU64 address sourceValue) ;;;
    let destination := register_of destinationEncoding in
    modify_state (copy_to_register destination 8 oldValue)).

Definition lockedOrGuest64 (context : option GuestExecutionContext) (state : X86State)
    (address sourceValue : Z) : outcome CallResult :=
  call context state "generated qword LOCK OR has no guest address space" (Some (address, 8)) (
    on_space (validateAccess address 8 (Permission_or Permission_Read Permission_Write)) ;;;
    do! original <- on_space (readU64 address);
    let result := Z.lor original sourceValue in
    on_space (writeU64 address result) ;;;
    modify_state (fun state => updateLogicFlags64 state result)).

Definition lockedOrGuest32 (context : option GuestExecutionContext) (state : X86State)
    (address immediateValue : Z) : outcome CallResult :=
  call context state "generated LOCK OR has no guest address space" (Some (address, 4)) (
    on_space (validateAccess address 4 (Permission_or Permission_Read Permission_Write)) ;;;
    do! original <- on_space (readU32 address);
    let result := u32 (Z.lor original (u32 immediateValue)) in
    on_space (writeBytes address
      [u8 result; u8 (Z.shiftr result 8); u8 (Z.shiftr result 16); u8 (Z.shiftr result 24)]) ;;;
    modify_state (fun state => updateLogicFlags32 state result)).

Definition lockedOrGuest8 (context : option GuestExecutionContext) (state : X86State)
    (address immediateValue : Z) : outcome CallResult :=
  call context state "generated byte LOCK OR has no guest address space" (Some (address, 1)) (
    on_space (validateAccess address 1 (Permission_or Permission_Read Permission_Write)) ;;;
    do! original <- on_space (readU8 address);
    let result := u8 (Z.lor original (u8 immediateValue)) in
    on_space (writeBytes address [result]) ;;;
    modify_state (fun state => updateLogicFlags8 state result)).

Definition lockedOrGuest16 (context : option GuestExecutionContext) (state : X86State)
    (address immediateValue : Z) : outcome CallResult :=
  call context state "generated word LOCK OR has no guest address space" (Some (address, 2)) (
    on_space (validateAccess address 2 (Permission_or Permission_Read Permission_Write)) ;;;
    do! original <- on_space (readU16 address);
    let result := u16 (Z.lor original (u16 immediateValue)) in
    on_space (writeBytes address [u8 result; u8 (Z.shiftr result 8)]) ;;;
    modify_state (fun state => updateLogicFlags16 state result)).

Definition lockedAndGuest64 (context : option GuestExecutionContext) (state : X86State)
    (address immediateValue : Z) : outcome CallResult :=
  call context state "generated qword LOCK AND has no guest address space" (Some (address, 8)) (
    on_space (validateAccess address 8 (Permission_or Permission_Read Permission_Write)) ;;;
    do! original <- on_space (readU64 address);
    let result := Z.land original immediateValue in
    on_space (writeU64 address result) ;;;
    modify_state (fun state => updateLogicFlags64 state result)).

Definition lockedAndGuest32 (context : option GuestExecutionContext) (state : X86State)
    (address immediateValue : Z) : outcome CallResult :=
  call context state "generated LOCK AND has no guest address space" (Some (address, 4)) (
    on_space (validateAccess address 4 (Permission_or Permission_Read Permission_Write)) ;;;
    do! original <- on_space (readU32 address);
    let result := u32 (Z.land original (u32 immediateValue)) in
    on_space (writeBytes address
      [u8 result; u8 (Z.shiftr result 8); u8 (Z.shiftr result 16); u8 (Z.shiftr result 24)]) ;;;
    modify_state (fun state => updateLogicFlags32 state result)).

Definition lockedAndGuest16 (context : option GuestExecutionContext) (state : X86State)
    (address immediateValue : Z) : outcome CallResult :=
  call context state "generated word LOCK AND has no guest address space" (Some (address, 2)) (
    on_space (validateAccess address 2 (Permission_or Permission_Read Permission_Write)) ;;;
    do! original <- on_space (readU16 address);
    let result := u16 (Z.land original (u16 immediateValue)) in
    on_space (writeBytes address [u8 result; u8 (Z.shiftr result 8)]) ;;;
    modify_state (fun state => updateLogicFlags16 state result)).

Definition lockedAddGuest32 (context : option GuestExecutionContext) (state : X86State)
    (address sourceValue : Z) : outcome CallResult :=
  call context state "generated dword LOCK ADD has no guest address space" (Some (address, 4)) (
    on_space (validateAccess address 4 (Permission_or Permission_Read Permission_Write)) ;;;
    do! original <- on_space (readU32 address);
    let source := u32 sourceValue in
    let result := u32 (original + source) in
    on_space (writeBytes address
      [u8 result; u8 (Z.shiftr result 8); u8 (Z.shiftr result 16); u8 (Z.shiftr result 24)]) ;;;
    modify_state (fun state => updateAddFlags32 state original source result)).

Definition lockedAddGuest64 (context : option GuestExecutionContext) (state : X86State)
    (address source : Z) : outcome CallResult :=
  call context state "generated LOCK ADD has no guest address space" (Some (address, 8)) (
    on_space (validateAccess address 8 (Permission_or Permission_Read Permission_Write)) ;;;
    do! original <- on_space (readU64 address);
    let result := u64 (original + source) in
    on_space (writeU64 address result) ;;;
    modify_state (fun state => updateAddFlags64 state original source result)).

Definition lockedExchangeAddGuest16 (context : option GuestExecutionContext) (state : X86State)
    (address sourceValue sourceEncoding : Z) : outcome CallResult :=
  call context state "generated word LOCK XADD has no guest address space" (Some (address, 2)) (
    if 15 <? sourceEncoding then
      throw (runtime_error "generated word LOCK XADD has an invalid source register")
    else
    on_space (validateAccess address 2 (Permission_or Permission_Read Permission_Write)) ;;;
    do! original <- on_space (readU16 address);
    let source := u16 sourceValue in
    let result := u16 (original + source) in
    on_space (writeBytes address [u8 result; u8 (Z.shiftr result 8)]) ;;;
    let sourceRegister := register_of sourceEncoding in
    modify_state (copy_to_register sourceRegister 2 original) ;;;
    modify_state (fun state => updateAddFlags16 state original source result)).

Definition lockedExchangeAddGuest32 (context : option GuestExecutionContext) (state : X86State)
    (address sourceValue sourceEncoding : Z) : outcome CallResult :=
  call context state "generated LOCK XADD has no guest address space" (Some (address, 4)) (
    if 15 <? sourceEncoding then
      throw (runtime_error "generated LOCK XADD has an invalid source register")
    else
    on_space (validateAccess address 4 (Permission_or Permission_Read Permission_Write)) ;;;
    do! original <- on_space (readU32 address);
    let source := u32 sourceValue in
    let result := u32 (u32 (original + source)) in
    on_space (writeBytes address
      [u8 result; u8 (Z.shiftr result 8); u8 (Z.shiftr result 16); u8 (Z.shiftr result 24)]) ;;;
    let sourceRegister := register_of sourceEncoding in
    let zeroExtended := u64 original in
    modify_state (copy_to_register sourceRegister 8 zeroExtended) ;;;
    modify_state (fun state => updateAddFlags32 state original source result)).

Definition lockedExchangeAddGuest64 (context : option GuestExecutionContext) (state : X86State)
    (address sourceValue sourceEncoding : Z) : outcome CallResult :=
  call context state "generated 64-bit LOCK XADD has no guest address space" (Some (address, 8)) (
    if 15 <? sourceEncoding then
      throw (runtime_error "generated 64-bit LOCK XADD has an invalid source register")
    else
    on_space (validateAccess address 8 (Permission_or Permission_Read Permission_Write)) ;;;
    do! original <- on_space (readU64 address);
    let result := u64 (original + sourceValue) in
    on_space (writeU64 address result) ;;;
    let sourceRegister := register_of sourceEncoding in
    modify_state (copy_to_register sourceRegister 8 original) ;;;
    modify_state (fun state => updateAddFlags64 state original sourceValue result)).

Definition shiftLeftGuest64 (context : option GuestExecutionContext) (state : X86State)
    (address countValue : Z) : outcome CallResult :=
  call context state "generated 64-bit guest memory shift has no address space" (Some (address, 8)) (
    on_space (validateAccess address 8 (Permission_or Permission_Read Permission_Write)) ;;;
    do! original <- on_space (readU64 address);
    let count := u8 (Z.land countValue 0x3F) in
    let result := if count =? 0 then original else u64 (Z.shiftl original count) in
    on_space (writeU64 address result) ;;;
    modify_state (fun state => updateShiftLeftFlags64 state original result count)).

Definition shiftRightGuest32 (context : option GuestExecutionContext) (state : X86State)
    (address countValue : Z) : outcome CallResult :=
  call context state "generated 32-bit guest memory shift has no address space" (Some (address, 4)) (
    on_space (validateAccess address 4 (Permission_or Permission_Read Permission_Write)) ;;;
    do! original <- on_space (readU32 address);
    let count := u8 (Z.land countValue 0x1F) in
    let result := if count =? 0 then original else Z.shiftr original count in
    on_space (writeU32 address result) ;;;
    modify_state (fun state => updateShiftRightFlags32 state original result count)).

Definition shiftRightGuest64 (context : option GuestExecutionContext) (state : X86State)
    (address countValue : Z) : outcome CallResult :=
  call context state "generated 64-bit guest memory shift has no address space" (Some (address, 8)) (
    on_space (validateAccess address 8 (Permission_or Permission_Read Permission_Write)) ;;;
    do! original <- on_space (readU64 address);
    let count := u8 (Z.land countValue 0x3F) in
    let result := if count =? 0 then original else Z.shiftr original count in
    on_space (writeU64 address result) ;;;
    modify_state (fun state => updateShiftRightFlags64 state original result count)).

Definition lockedBitSetGuest32 (context : option GuestExecutionContext) (state : X86State)
    (address bitIndex : Z) : outcome CallResult :=
  call context state "generated LOCK BTS has no guest address space" (Some (address, 4)) (
    let unitAddress := u64 (address + (u64 ((Z.shiftr bitIndex 5) * 4))) in
    let bit := u32 (Z.land bitIndex 0x1F) in
    on_space (validateAccess unitAddress 4 (Permission_or Permission_Read Permission_Write)) ;;;
    do! original <- on_space (readU32 unitAddress);
    let result := Z.lor original (u32 (Z.shiftl 1 bit)) in
    on_space (writeBytes unitAddress
      [u8 result; u8 (Z.shiftr result 8); u8 (Z.shiftr result 16); u8 (Z.shiftr result 24)]) ;;;
    modify_state (fun state => updateBitTestFlags32 state original bit)).

Definition lockedBitSetGuest64 (context : option GuestExecutionContext) (state : X86State)
    (address bitIndex : Z) : outcome CallResult :=
  call context state "generated qword LOCK BTS has no guest address space" (Some (address, 8)) (
    let unitAddress := u64 (address + (u64 ((Z.shiftr bitIndex 6) * 8))) in
    let bit := u32 (Z.land bitIndex 0x3F) in
    on_space (validateAccess unitAddress 8 (Permission_or Permission_Read Permission_Write)) ;;;
    do! original <- on_space (readU64 unitAddress);
    let result := Z.lor original (u64 (Z.shiftl 1 bit)) in
    on_space (writeU64 unitAddress result) ;;;
    modify_state (fun state => updateBitTestFlags64 state original bit)).

(** ** Abstract operations

    An operation maps the guest state and the value of its memory operand to the
    value stored, if any, and the new guest state. *)
Definition Rmw : Type := X86State -> Z -> option Z * X86State.

Inductive AluOp := AluAdd | AluSub | AluOr | AluAnd | AluInc | AluDec.

Definition alu (op : AluOp) (w source : Z) : Rmw := fun st v =>
  let src := wrap w source in
  match op with
  | AluAdd => (Some (wrap w (v + src)), flags_result arithmeticFlagMask (add_spec w v src) st)
  | AluSub => (Some (wrap w (v - src)), flags_result arithmeticFlagMask (sub_spec w v src) st)
  | AluOr => (Some (Z.lor v src), flags_result arithmeticFlagMask (logic_spec w (Z.lor v src)) st)
  | AluAnd => (Some (Z.land v src), flags_result arithmeticFlagMask (logic_spec w (Z.land v src)) st)
  | AluInc => (Some (wrap w (v + 1)), flags_result inc_dec_mask (inc_spec w v) st)
  | AluDec => (Some (wrap w (v - 1)), flags_result inc_dec_mask (dec_spec w v) st)
  end.

Definition shift_left (w count : Z) : Rmw := fun st v =>
  let c := masked w count in
  (Some (wrap w (v * 2 ^ c)), shift_effect c (shift_mask c) (shl_spec w v c) st).
Definition shift_right (w count : Z) : Rmw := fun st v =>
  let c := masked w count in
  (Some (v / 2 ^ c), shift_effect c (shift_mask c) (shr_spec w v c) st).

Definition bit_set (bit : Z) : Rmw := fun st v =>
  (Some (Z.setbit v bit), flags_result flagCarry (bt_spec (Z.testbit v bit)) st).

(** Writing a sub-register: 8- and 16-bit writes keep the upper bits, a 32-bit
    write clears them. *)
Definition write_register (w : Z) (r : Register) (v : Z) (st : X86State) : X86State :=
  let old := get_gpr r st in
  set_gpr r (if w <? 32 then old - wrap w old + v else v) st.

Definition exchange (w source : Z) (r : Register) : Rmw := fun st v =>
  (Some (wrap w source), write_register w r v st).
Definition exchange_add (w source : Z) (r : Register) : Rmw := fun st v =>
  let src := wrap w source in
  (Some (wrap w (v + src)),
   flags_result arithmeticFlagMask (add_spec w v src) (write_register w r v st)).

(** The flags are those of [memory - accumulator]. *)
Definition compare_exchange (w source : Z) : Rmw := fun st v =>
  let accumulator := wrap w (get_gpr Rax st) in
  let flags := flags_result arithmeticFlagMask (sub_spec w v accumulator) in
  if accumulator =? v
  then (Some (wrap w source), flags (write_register w Rax accumulator st))
  else (None, flags (write_register w Rax v st)).

Definition compare_exchange_pair : Rmw := fun st v =>
  let low := v mod 2 ^ 64 in
  let high := v / 2 ^ 64 in
  if (get_gpr Rax st =? low) && (get_gpr Rdx st =? high)
  then (Some (get_gpr Rbx st + get_gpr Rcx st * 2 ^ 64), set_rflags (Z.setbit st.(rflags) 6) st)
  else (None, set_rflags (Z.clearbit st.(rflags) 6) (set_gpr Rdx high (set_gpr Rax low st))).

(** ** The contract

    [recorded] is the access reported with a fault, [operand] the address used;
    [precheck] is an error raised before memory is touched; without [validated]
    the operand is read before its writability is checked. *)
Record Operand := mkOperand {
  message : string;
  recorded : Z * Z;
  operand : Z;
  size : Z;
  precheck : option exn;
  validated : bool
}.

Definition operand_value (o : Operand) (s : AddressSpace) : outcome Z :=
  let n := Z.to_nat o.(size) in
  match o.(precheck) with
  | Some e => Throw e
  | None =>
      if o.(validated)
      then let! _ := check_all s Permission_ReadWrite o.(operand) n in word_at s o.(operand) o.(size)
      else let! v := word_at s o.(operand) o.(size) in
           let! _ := check_all s Permission_Write o.(operand) n in Ok v
  end.

Definition stored (o : Operand) (s s' : AddressSpace) (new : option Z) : Prop :=
  match new with
  | Some v => write_effect s s' o.(operand) (le_bytes (Z.to_nat o.(size)) v)
  | None => same_memory s s' /\ inv s'
  end.

(** A call on an accessible operand performs the operation and returns the
    state pointer; any other call returns null, records the error and changes
    neither guest memory nor the guest state. *)
Definition implements_rmw (helper : option GuestExecutionContext -> X86State -> outcome CallResult)
    (o : Operand) (f : Rmw) : Prop :=
  forall st, state_ok st ->
  helper None st = Ok (None, st, false) /\
  forall ctx, match ctx.(addressSpace) with
  | None => helper (Some ctx) st =
      Ok (Some (set_fault (runtime_error o.(message)) (Some o.(recorded)) ctx), st, false)
  | Some s => space_ok s ->
      match operand_value o s with
      | Ok v => let (new, st') := f st v in
          exists s', helper (Some ctx) st = Ok (Some (set_space s' ctx), st', true) /\
            stored o s s' new /\ space_ok s'
      | Throw e => exists s',
          helper (Some ctx) st =
            Ok (Some (set_fault e (Some o.(recorded)) (set_space s' ctx)), st, false) /\
          same_memory s s' /\ space_ok s'
      | Undefined => False
      end
  end.

(** ** Running a helper body *)

Section Body.
Context (o : Operand) (s : AddressSpace) (ctx : GuestExecutionContext) (st : X86State) (f : Rmw).
Context (Hs : addressSpace ctx = Some s) (Hok : space_ok s) (Hsize : 1 <= o.(size))
  (Ha : in_range 64 o.(operand)).

(** [c] is what remains of a body once the operand, of value [v], is read. *)
Definition finishes (s1 : AddressSpace) (v : Z) (c : M Machine unit) : Prop :=
  exists s', c (set_space s1 ctx, st) = ((set_space s' ctx, (f st v).2), Ok tt) /\
    stored o s s' (f st v).1 /\ space_ok s'.

Definition body_result (c : M Machine unit) : Prop :=
  match operand_value o s with
  | Ok v => exists s', c (ctx, st) = ((set_space s' ctx, (f st v).2), Ok tt) /\
      stored o s s' (f st v).1 /\ space_ok s'
  | Throw e => exists s', c (ctx, st) = ((set_space s' ctx, st), Throw e) /\
      same_memory s s' /\ space_ok s'
  | Undefined => False
  end.

Definition readable (s1 : AddressSpace) (rd : M AddressSpace Z) : Prop :=
  exists s2, rd s1 = (s2, word_at s o.(operand) o.(size)) /\ same_memory s s2 /\ space_ok s2.

Lemma reader_word s1 rd : same_memory s s1 -> space_ok s1 ->
  (inv s1 -> eager s1 -> in_range 64 o.(operand) -> exists s', rd s1 = (s', word_at s1 o.(operand) o.(size)) /\
    same_memory s1 s' /\ inv s') -> readable s1 rd.
Proof using Hok Hsize Ha.
  intros Hm Hok1 H. destruct H as (s2 & E & Hs2 & Hi2); [by apply Hok1|by apply Hok1|done|].
  exists s2. split_and!; [|by eapply same_memory_trans|by eapply space_ok_same].
  rewrite E. unfold word_at. by rewrite (fetch_all_same s s1).
Qed.

Lemma body_precheck e : o.(precheck) = Some e -> body_result (throw e).
Proof using Hs Hok.
  intros Hp. unfold body_result, operand_value. rewrite Hp. exists s.
  split; [by rewrite set_space_id|]. split; [apply set_lookup_cache|done].
Qed.

(** A validated body, for any reader whose result [r] encodes the operand. *)
Lemma body_validated_as {A} (r : outcome A) (value : A -> Z) rd (k : A -> M Machine unit) :
  o.(precheck) = None -> o.(validated) = true ->
  outcome_bind r (fun x => Ok (value x)) = word_at s o.(operand) o.(size) ->
  (forall s1, same_memory s s1 -> space_ok s1 ->
    exists s2, rd s1 = (s2, r) /\ same_memory s s2 /\ space_ok s2) ->
  (forall x s1, r = Ok x -> same_memory s s1 -> space_ok s1 ->
    check_all s Permission_Write o.(operand) (Z.to_nat o.(size)) = Ok tt -> finishes s1 (value x) (k x)) ->
  body_result (on_space (validateAccess o.(operand) o.(size) Permission_ReadWrite) ;;;
               bind (on_space rd) k).
Proof using Hs Hok Ha.
  intros Hp Hv Hr Hrd Hk. unfold body_result, operand_value. rewrite Hp, Hv.
  destruct (validateAccess_spec s o.(operand) o.(size) Permission_ReadWrite) as (s1 & E1 & Hs1 & Hi1);
    [by apply Hok|done|]. pose proof (space_ok_same _ _ Hok Hs1 Hi1) as Hok1.
  destruct (check_all s Permission_ReadWrite _ _) as [[]|e|] eqn:Hc.
  2:{ exists s1. split; [|done]. eapply bind_throw. by erewrite on_space_run. }
  2:{ by eapply check_all_defined. }
  cbn [outcome_bind]. destruct (Hrd s1 Hs1 Hok1) as (s2 & E2 & Hs2 & Hok2).
  erewrite bind_ok by (by erewrite on_space_run). cbn beta. rewrite <- Hr.
  destruct r as [x|e|] eqn:Er; cbn [outcome_bind] in *.
  - erewrite bind_ok by (by erewrite on_space_run). rewrite set_space_set_space.
    apply Hk; try done. apply check_all_weaken; [by right|done].
  - exists s2. split; [|done]. eapply bind_throw. by erewrite on_space_run.
  - eapply word_at_defined; [by apply Hok|exact (eq_sym Hr)].
Qed.

Lemma body_validated rd (k : Z -> M Machine unit) : o.(precheck) = None -> o.(validated) = true ->
  (forall s1, same_memory s s1 -> space_ok s1 -> readable s1 rd) ->
  (forall v s1, in_range (8 * o.(size)) v -> word_at s o.(operand) o.(size) = Ok v ->
    same_memory s s1 -> space_ok s1 ->
    check_all s Permission_Write o.(operand) (Z.to_nat o.(size)) = Ok tt -> finishes s1 v (k v)) ->
  body_result (on_space (validateAccess o.(operand) o.(size) Permission_ReadWrite) ;;;
               bind (on_space rd) k).
Proof using Hs Hok Hsize Ha.
  intros Hp Hv Hrd Hk. apply (body_validated_as (word_at s o.(operand) o.(size)) id); try done.
  - by destruct (word_at _ _ _).
  - intros v s1 Ev Hs1 Hok1 Hc. apply Hk; try done. eapply word_at_range; [exact Hok|lia|exact Ev].
Qed.

(** Without validation the write may still fail. *)
Lemma body_unvalidated rd data k : o.(precheck) = None -> o.(validated) = false ->
  (forall s1, same_memory s s1 -> space_ok s1 -> readable s1 rd) ->
  (forall v, in_range (8 * o.(size)) v -> exists new st', f st v = (Some new, st') /\
    data v = le_bytes (Z.to_nat o.(size)) new /\
    forall s', k v (set_space s' ctx, st) = ((set_space s' ctx, st'), Ok tt)) ->
  body_result (do! v <- on_space rd; on_space (writeBytes o.(operand) (data v)) ;;; k v).
Proof using Hs Hok Hsize Ha.
  intros Hp Hv Hrd Hf. unfold body_result, operand_value. rewrite Hp, Hv.
  destruct (Hrd s (set_lookup_cache s) Hok) as (s1 & E1 & Hs1 & Hok1).
  destruct (word_at s _ _) as [v|e|] eqn:Hw.
  2:{ exists s1. split; [|done]. eapply bind_throw. by erewrite on_space_run. }
  2:{ eapply word_at_defined; [by apply Hok|exact Hw]. }
  erewrite bind_ok by (by erewrite on_space_run). cbn [outcome_bind].
  destruct (Hf v) as (new & st' & Ef & Ed & Ek); [by eapply word_at_range; [exact Hok|lia|exact Hw]|].
  rewrite Ed.
  pose proof (writeBytes_spec s1 o.(operand) (le_bytes (Z.to_nat o.(size)) new)
    (space_inv _ Hok1) (space_eager _ Hok1) Ha) as H.
  rewrite length_le_bytes, (check_all_same s s1) in H by done.
  destruct (check_all s Permission_Write _ _) as [[]|e|]; [| |done].
  - destruct H as (s2 & E2 & Hw2). exists s2. cbn [outcome_bind].
    rewrite Ef. erewrite bind_ok by (by erewrite on_space_run).
    rewrite set_space_set_space. split_and!; [by rewrite Ek| |].
    + by eapply write_effect_same.
    + eapply space_ok_written; [exact Hok1|apply le_bytes_ok|exact Hw2].
  - destruct H as (s2 & E2 & Hs2 & Hi2). exists s2. cbn [outcome_bind].
    split; [|split; [by eapply same_memory_trans|by eapply space_ok_same]].
    eapply bind_throw. by erewrite on_space_run.
Qed.

(** What a body does after the operand is read: write and update the state, or
    update the state only. *)
Lemma finishes_write v s1 data new (k : M Machine unit) st' :
  same_memory s s1 -> space_ok s1 ->
  check_all s Permission_Write o.(operand) (Z.to_nat o.(size)) = Ok tt ->
  f st v = (Some new, st') -> data = le_bytes (Z.to_nat o.(size)) new ->
  (forall s', k (set_space s' ctx, st) = ((set_space s' ctx, st'), Ok tt)) ->
  finishes s1 v (on_space (writeBytes o.(operand) data) ;;; k).
Proof using Ha.
  intros Hs1 Hok1 Hc Ef -> Hk. unfold finishes. rewrite Ef. cbn [fst snd].
  pose proof (writeBytes_spec s1 o.(operand) (le_bytes (Z.to_nat o.(size)) new)
    (space_inv _ Hok1) (space_eager _ Hok1) Ha) as H.
  rewrite length_le_bytes, (check_all_same s s1), Hc in H by done. destruct H as (s2 & E2 & Hw2).
  exists s2. split_and!; [|by eapply write_effect_same|].
  - erewrite bind_ok by (by erewrite on_space_run). by rewrite set_space_set_space.
  - eapply space_ok_written; [exact Hok1|apply le_bytes_ok|exact Hw2].
Qed.

Lemma finishes_keep v s1 (k : M Machine unit) st' : same_memory s s1 -> space_ok s1 ->
  f st v = (None, st') -> k (set_space s1 ctx, st) = ((set_space s1 ctx, st'), Ok tt) ->
  finishes s1 v k.
Proof using Type.
  intros Hs1 Hok1 Ef Hk. unfold finishes. rewrite Ef. exists s1. split; [done|]. split; [|done].
  split; [done|]. by apply Hok1.
Qed.

Lemma finishes_get_state v s1 (k : X86State -> M Machine unit) : finishes s1 v (k st) ->
  finishes s1 v (bind get_state k).
Proof using Type. done. Qed.

Lemma finishes_assoc {A B} v s1 (c : M Machine A) (k : A -> M Machine B) (h : B -> M Machine unit) :
  finishes s1 v (bind c (fun a => bind (k a) h)) -> finishes s1 v (bind (bind c k) h).
Proof using Type. unfold finishes. by rewrite bind_assoc. Qed.
End Body.

Lemma implements_call o f (body : M Machine unit) : 1 <= o.(size) -> in_range 64 o.(operand) ->
  (forall ctx s st, state_ok st -> addressSpace ctx = Some s -> space_ok s ->
    body_result o s ctx st f body) ->
  implements_rmw (fun context state => call context state o.(message) (Some o.(recorded)) body) o f.
Proof.
  intros Hn Ha Hb st Hst. split; [done|]. intros ctx. destruct (addressSpace ctx) as [s|] eqn:Hs;
    [|by apply call_no_space]. intros Hok. specialize (Hb ctx s st Hst Hs Hok). unfold body_result in Hb.
  rewrite (call_run _ s) by done.
  destruct (operand_value o s) as [v|e|]; [|by destruct Hb as (s' & -> & Hb); exists s'|done].
  destruct (f st v) as [new st'], Hb as (s' & -> & Hb). by exists s'.
Qed.

(** ** The helpers *)

(** An arithmetic helper with the operation it performs. *)
Record AluHelper := mkAlu {
  alu_helper : option GuestExecutionContext -> X86State -> Z -> Z -> outcome CallResult;
  alu_op : AluOp;
  alu_width : Z;
  alu_validated : bool;
  alu_message : string
}.

Definition alu_operand (h : AluHelper) (address : Z) : Operand :=
  mkOperand h.(alu_message) (address, h.(alu_width) / 8) address (h.(alu_width) / 8) None h.(alu_validated).

Definition alu_correct (h : AluHelper) : Prop := forall address source,
  in_range 64 address -> in_range 64 source ->
  implements_rmw (fun context state => h.(alu_helper) context state address source)
    (alu_operand h address) (alu h.(alu_op) h.(alu_width) source).

(** Enter a helper, and resolve its read. *)
Ltac rmw_start := apply implements_call; [cbn; lia|done|];
  let ctx := fresh "ctx" in intros ctx s st Hst Hctx Hok; cbv zeta.
Ltac rmw_read := intros s1 Hs1 Hok1; apply reader_word; try done; intros Hi1 He1 Ha1;
  first [by apply readU8_spec | apply read_word_spec; done || (cbn; lia)].
Ltac rmw_validated := eapply body_validated; [done|done|cbn; lia|done|done|done|rmw_read|];
  intros v s1 Hv Hw Hs1 Hok1 Hc.

Ltac alu_start helper := intros address source Ha Hr;
  cbv beta delta [alu_operand] iota; cbn [alu_helper alu_op alu_width alu_message alu_validated];
  repeat match goal with
  | |- context [Z.div ?a 8] => let n := eval vm_compute in (Z.div a 8) in change (Z.div a 8) with n
  end;
  unfold helper; rmw_start.

(** Ranges of words. *)
Ltac word_range := lazymatch goal with
  | |- in_range _ (wrap ?n _) => first [apply wrap_range; lia | apply (in_range_le n); [apply wrap_range; lia|lia]]
  | |- in_range _ (u8 _) => apply (in_range_le 8); [apply wrap_range; lia|lia]
  | |- in_range _ (u16 _) => apply (in_range_le 16); [apply wrap_range; lia|lia]
  | |- in_range _ (u32 _) => apply (in_range_le 32); [apply wrap_range; lia|lia]
  | |- in_range _ (u64 _) => apply (in_range_le 64); [apply wrap_range; lia|lia]
  | |- in_range _ (Z.lor _ _) => apply lor_range; [lia|word_range|word_range]
  | |- in_range _ (Z.land _ _) => apply land_range_r; [lia|word_range]
  | H : in_range ?k ?v |- in_range _ ?v => apply (in_range_le k); [exact H|lia]
  end.

(** Casts of words that already fit disappear. *)
Ltac word_norm :=
  repeat change u8 with (wrap 8); repeat change u16 with (wrap 16);
  repeat change u32 with (wrap 32); repeat change u64 with (wrap 64);
  repeat match goal with
  | |- context [wrap ?w (wrap ?w ?x)] => rewrite (wrap_wrap w x)
  | |- context [wrap ?w (wrap ?n ?x)] => rewrite (wrap_weaken w n x) by lia
  | |- context [wrap ?w ?x] => rewrite (wrap_small w x) by word_range
  end.

Ltac same_bytes := cbn [size operand]; lazymatch goal with
  | |- [u8 ?r; u8 (Z.shiftr ?r 8)] = le_bytes _ ?x => change (le_bytes 2 r = le_bytes 2 x); f_equal; by word_norm
  | |- [u8 ?r; u8 (Z.shiftr ?r 8); _; _] = _ => rewrite word_literal4; f_equal; by word_norm
  | |- le_bytes _ _ = _ => f_equal; by word_norm
  | |- [_] = le_bytes _ ?x => apply (f_equal (fun b => [b])); by word_norm
  end.
Ltac word_eq := autorewrite with wrap_norm; word_norm; reflexivity.
Ltac state_is lemma := unfold modify_state, updateIncFlags8, updateIncFlags16, updateIncFlags32,
    updateIncFlags64, updateDecFlags8, updateDecFlags16, updateDecFlags32, updateDecFlags64; cbn [fst snd]; do 2 f_equal;
  rewrite lemma by (word_range || word_eq || lia); by word_norm.

Definition add_helpers : list AluHelper :=
  [mkAlu addGuest8 AluAdd 8 true
     "generated 8-bit guest add has no address space";
   mkAlu addGuest16 AluAdd 16 true
     "generated 16-bit guest add has no address space";
   mkAlu addGuest32 AluAdd 32 true
     "generated 32-bit guest add has no address space";
   mkAlu addGuest64 AluAdd 64 true
     "generated 64-bit guest add has no address space";
   mkAlu lockedAddGuest32 AluAdd 32 true
     "generated dword LOCK ADD has no guest address space";
   mkAlu lockedAddGuest64 AluAdd 64 true
     "generated LOCK ADD has no guest address space"].

Definition sub_helpers : list AluHelper :=
  [mkAlu subGuest8 AluSub 8 true
     "generated 8-bit guest subtract has no address space";
   mkAlu subGuest32 AluSub 32 true
     "generated 32-bit guest subtract has no address space";
   mkAlu subGuest64 AluSub 64 true
     "generated 64-bit guest subtract has no address space"].

Definition or_helpers : list AluHelper :=
  [mkAlu orGuest8 AluOr 8 true
     "generated 8-bit guest OR has no address space";
   mkAlu orGuest16 AluOr 16 true
     "generated 16-bit guest OR has no address space";
   mkAlu orGuest32 AluOr 32 true
     "generated 32-bit guest OR has no address space";
   mkAlu orGuest64 AluOr 64 true
     "generated 64-bit guest OR has no address space";
   mkAlu lockedOrGuest8 AluOr 8 true
     "generated byte LOCK OR has no guest address space";
   mkAlu lockedOrGuest16 AluOr 16 true
     "generated word LOCK OR has no guest address space";
   mkAlu lockedOrGuest32 AluOr 32 true
     "generated LOCK OR has no guest address space";
   mkAlu lockedOrGuest64 AluOr 64 true
     "generated qword LOCK OR has no guest address space"].

Definition and_helpers : list AluHelper :=
  [mkAlu andGuest8 AluAnd 8 true
     "generated 8-bit guest AND has no address space";
   mkAlu andGuest16 AluAnd 16 true
     "generated 16-bit guest AND has no address space";
   mkAlu andGuest32 AluAnd 32 true
     "generated 32-bit guest AND has no address space";
   mkAlu andGuest64 AluAnd 64 true
     "generated 64-bit guest AND has no address space";
   mkAlu lockedAndGuest16 AluAnd 16 true
     "generated word LOCK AND has no guest address space";
   mkAlu lockedAndGuest32 AluAnd 32 true
     "generated LOCK AND has no guest address space";
   mkAlu lockedAndGuest64 AluAnd 64 true
     "generated qword LOCK AND has no guest address space"].

Definition inc_helpers : list AluHelper :=
  [mkAlu (fun context state address _ => incrementGuest8 context state address) AluInc 8 true
     "generated 8-bit guest increment has no address space";
   mkAlu (fun context state address _ => incrementGuest16 context state address) AluInc 16 false
     "generated 16-bit guest increment has no address space";
   mkAlu (fun context state address _ => incrementGuest32 context state address) AluInc 32 true
     "generated 32-bit guest increment has no address space";
   mkAlu (fun context state address _ => incrementGuest64 context state address) AluInc 64 false
     "generated 64-bit guest increment has no address space";
   mkAlu (fun context state address _ => lockedIncrementGuest32 context state address) AluInc 32 true
     "generated LOCK INC has no guest address space";
   mkAlu (fun context state address _ => lockedIncrementGuest64 context state address) AluInc 64 true
     "generated LOCK INC has no guest address space"].

Definition dec_helpers : list AluHelper :=
  [mkAlu (fun context state address _ => decrementGuest8 context state address) AluDec 8 true
     "generated 8-bit guest decrement has no address space";
   mkAlu (fun context state address _ => decrementGuest16 context state address) AluDec 16 false
     "generated 16-bit guest decrement has no address space";
   mkAlu (fun context state address _ => decrementGuest32 context state address) AluDec 32 true
     "generated 32-bit guest decrement has no address space";
   mkAlu (fun context state address _ => decrementGuest64 context state address) AluDec 64 false
     "generated 64-bit guest decrement has no address space";
   mkAlu (fun context state address _ => lockedDecrementGuest32 context state address) AluDec 32 true
     "generated LOCK DEC has no guest address space";
   mkAlu (fun context state address _ => lockedDecrementGuest64 context state address) AluDec 64 true
     "generated LOCK DEC has no guest address space"].

Definition alu_helpers : list AluHelper :=
  add_helpers ++ sub_helpers ++ or_helpers ++ and_helpers ++ inc_helpers ++ dec_helpers.

Ltac alu_validated helper lemma := alu_start helper; rmw_validated; cbn [size operand] in *;
  eapply finishes_write; [done..|reflexivity|same_bytes|]; intros s'; state_is lemma.
Ltac alu_unvalidated helper lemma := alu_start helper;
  eapply body_unvalidated; [done|done|cbn; lia|done|done|done|rmw_read|];
  intros v Hv; cbn [size operand] in *; do 2 eexists; split; [reflexivity|]; split; [same_bytes|];
  intros s'; state_is lemma.

Lemma add_ok : Forall alu_correct add_helpers.
Proof.
  unfold add_helpers. repeat (apply List.Forall_cons || apply List.Forall_nil).
  - alu_validated addGuest8 updateAddFlags8_eq.
  - alu_validated addGuest16 updateAddFlags16_eq.
  - alu_validated addGuest32 updateAddFlags32_eq.
  - alu_validated addGuest64 updateAddFlags64_eq.
  - alu_validated lockedAddGuest32 updateAddFlags32_eq.
  - alu_validated lockedAddGuest64 updateAddFlags64_eq.
Qed.
Lemma sub_ok : Forall alu_correct sub_helpers.
Proof.
  unfold sub_helpers. repeat (apply List.Forall_cons || apply List.Forall_nil).
  - alu_validated subGuest8 updateSubFlags8_eq.
  - alu_validated subGuest32 updateSubFlags32_eq.
  - alu_validated subGuest64 updateSubFlags64_eq.
Qed.
Lemma or_ok : Forall alu_correct or_helpers.
Proof.
  unfold or_helpers. repeat (apply List.Forall_cons || apply List.Forall_nil).
  - alu_validated orGuest8 updateLogicFlags8_eq.
  - alu_validated orGuest16 updateLogicFlags16_eq.
  - alu_validated orGuest32 updateLogicFlags32_eq.
  - alu_validated orGuest64 updateLogicFlags64_eq.
  - alu_validated lockedOrGuest8 updateLogicFlags8_eq.
  - alu_validated lockedOrGuest16 updateLogicFlags16_eq.
  - alu_validated lockedOrGuest32 updateLogicFlags32_eq.
  - alu_validated lockedOrGuest64 updateLogicFlags64_eq.
Qed.
Lemma and_ok : Forall alu_correct and_helpers.
Proof.
  unfold and_helpers. repeat (apply List.Forall_cons || apply List.Forall_nil).
  - alu_validated andGuest8 updateLogicFlags8_eq.
  - alu_validated andGuest16 updateLogicFlags16_eq.
  - alu_validated andGuest32 updateLogicFlags32_eq.
  - alu_validated andGuest64 updateLogicFlags64_eq.
  - alu_validated lockedAndGuest16 updateLogicFlags16_eq.
  - alu_validated lockedAndGuest32 updateLogicFlags32_eq.
  - alu_validated lockedAndGuest64 updateLogicFlags64_eq.
Qed.
Lemma inc_ok : Forall alu_correct inc_helpers.
Proof.
  unfold inc_helpers. repeat (apply List.Forall_cons || apply List.Forall_nil).
  - alu_validated incrementGuest8 updateIncFlags_eq.
  - alu_unvalidated incrementGuest16 updateIncFlags_eq.
  - alu_validated incrementGuest32 updateIncFlags_eq.
  - alu_unvalidated incrementGuest64 updateIncFlags_eq.
  - alu_validated lockedIncrementGuest32 updateIncFlags_eq.
  - alu_validated lockedIncrementGuest64 updateIncFlags_eq.
Qed.
Lemma dec_ok : Forall alu_correct dec_helpers.
Proof.
  unfold dec_helpers. repeat (apply List.Forall_cons || apply List.Forall_nil).
  - alu_validated decrementGuest8 updateDecFlags_eq.
  - alu_unvalidated decrementGuest16 updateDecFlags_eq.
  - alu_validated decrementGuest32 updateDecFlags_eq.
  - alu_unvalidated decrementGuest64 updateDecFlags_eq.
  - alu_validated lockedDecrementGuest32 updateDecFlags_eq.
  - alu_validated lockedDecrementGuest64 updateDecFlags_eq.
Qed.

(** *** Shifts and bit set *)

Lemma masked_masked w c : masked w (masked w c) = masked w c.
Proof. unfold masked. destruct (w =? 64); by rewrite Z.mod_mod. Qed.

Lemma masked_range w c : (w = 32 \/ w = 64) -> 0 <= masked w c < w.
Proof. intros [-> | ->]; unfold masked; cbn [Z.eqb Pos.eqb]; apply Z.mod_pos_bound; lia. Qed.

Lemma shifted_left v c : 0 <= c -> in_range 64 v ->
  (if c =? 0 then v else u64 (Z.shiftl v c)) = wrap 64 (v * 2 ^ c).
Proof.
  intros Hc Hv. destruct (Z.eqb_spec c 0) as [-> |]; [by rewrite Z.mul_1_r, wrap_small|].
  by rewrite Z.shiftl_mul_pow2.
Qed.

Lemma shifted_right v c : 0 <= c -> (if c =? 0 then v else Z.shiftr v c) = v / 2 ^ c.
Proof.
  intros Hc. destruct (Z.eqb_spec c 0) as [-> |]; [by rewrite Z.div_1_r|]. by rewrite Z.shiftr_div_pow2.
Qed.

Lemma div_pow_range w v c : 0 <= c -> 0 <= w -> in_range w v -> in_range w (v / 2 ^ c).
Proof. intros. rewrite <- Z.shiftr_div_pow2 by done. by apply shiftr_range. Qed.

Definition shift_operand (address w : Z) : Operand :=
  mkOperand (if w =? 64 then "generated 64-bit guest memory shift has no address space"
             else "generated 32-bit guest memory shift has no address space")
    (address, w / 8) address (w / 8) None true.

Section Shifts.
Context (address count : Z) (Ha : in_range 64 address).

Ltac shift_start helper w Hcount :=
  unfold shift_operand; cbn [Z.eqb Pos.eqb]; change (w / 8) with ltac:(let n := eval vm_compute in (w / 8) in exact n);
  unfold helper; rmw_start; rewrite Hcount; pose proof (masked_range w count) as Hb;
  specialize (Hb ltac:(lia)); pose proof (masked_masked w count) as Hm;
  rmw_validated; cbn [size operand] in *.

Lemma shiftLeftGuest64_ok :
  implements_rmw (fun context state => shiftLeftGuest64 context state address count)
    (shift_operand address 64) (shift_left 64 count).
Proof using Ha.
  shift_start shiftLeftGuest64 64 (count_64 count). rewrite shifted_left by (done || lia).
  eapply finishes_write; [done..|reflexivity|reflexivity|]. intros s'.
  unfold modify_state; cbn [fst snd]. do 2 f_equal.
  rewrite updateShiftLeftFlags64_eq; cbv zeta; rewrite ?Hm; [by word_norm|done|by apply wrap_range|by word_norm].
Qed.

Lemma shiftRightGuest64_ok :
  implements_rmw (fun context state => shiftRightGuest64 context state address count)
    (shift_operand address 64) (shift_right 64 count).
Proof using Ha.
  shift_start shiftRightGuest64 64 (count_64 count). rewrite shifted_right by lia.
  pose proof (div_pow_range 64 v (masked 64 count) ltac:(lia) ltac:(lia) Hv).
  eapply finishes_write; [done..|reflexivity|reflexivity|]. intros s'.
  unfold modify_state; cbn [fst snd]. do 2 f_equal.
  rewrite updateShiftRightFlags64_eq; cbv zeta; rewrite ?Hm; [by word_norm|done|done|by word_norm].
Qed.

Lemma shiftRightGuest32_ok :
  implements_rmw (fun context state => shiftRightGuest32 context state address count)
    (shift_operand address 32) (shift_right 32 count).
Proof using Ha.
  shift_start shiftRightGuest32 32 (count_32 count 32 ltac:(lia)). rewrite shifted_right by lia.
  pose proof (div_pow_range 32 v (masked 32 count) ltac:(lia) ltac:(lia) Hv).
  eapply finishes_write; [done..|reflexivity|reflexivity|]. intros s'.
  unfold modify_state; cbn [fst snd]. do 2 f_equal.
  rewrite updateShiftRightFlags32_eq; cbv zeta; rewrite ?Hm; [by word_norm|by word_norm].
Qed.
End Shifts.

(** The memory unit a bit index selects, and the bit within it. *)
Definition bit_operand (address index w : Z) : Operand :=
  mkOperand (if w =? 64 then "generated qword LOCK BTS has no guest address space"
             else "generated LOCK BTS has no guest address space")
    (address, w / 8) (u64 (address + index / w * (w / 8))) (w / 8) None true.

Lemma unit_address address index k n : 0 <= index -> 0 <= k ->
  u64 (address + u64 (Z.shiftr index k * n)) = u64 (address + index / 2 ^ k * n).
Proof. intros. rewrite Z.shiftr_div_pow2 by lia. apply (wrap_add_r 64). Qed.

Lemma setbit_word w v bit : 0 <= bit < w -> in_range w v ->
  Z.lor v (wrap w (Z.shiftl 1 bit)) = Z.setbit v bit.
Proof.
  intros Hb Hv. rewrite Z.shiftl_1_l, Z.setbit_spec'. f_equal. apply wrap_small. unfold in_range.
  pose proof (Z.pow_pos_nonneg 2 bit). pose proof (Z.pow_lt_mono_r 2 bit w). lia.
Qed.

Lemma masked_index x k w : 0 <= k <= w -> wrap w (Z.land x (Z.ones k)) = x mod 2 ^ k.
Proof.
  intros Hk. rewrite Z.land_ones by lia. apply wrap_small, (in_range_le k); [|done].
  apply Z.mod_pos_bound. lia.
Qed.

Section BitSet.
Context (address index : Z) (Ha : in_range 64 address) (Hi : in_range 64 index).

Ltac bit_start w helper k lemma :=
  unfold bit_operand; cbn [Z.eqb Pos.eqb]; change (w / 8) with ltac:(let n := eval vm_compute in (w / 8) in exact n);
  unfold helper; rewrite unit_address by (unfold in_range in *; lia);
  change u32 with (wrap 32);
  let m := eval vm_compute in (Z.ones k) in change (Z.land index m) with (Z.land index (Z.ones k));
  rewrite (masked_index index k 32) by lia; change (2 ^ k) with w;
  pose proof (Z.mod_pos_bound index w ltac:(lia)) as Hb;
  apply implements_call; [cbn; lia|apply (wrap_range 64); lia|]; intros ctx s st Hst Hctx Hok; cbv zeta;
  eapply body_validated; [done|done|cbn; lia|apply (wrap_range 64); lia|done|done| |];
  [ intros s1 Hs1 Hok1; apply reader_word; try done; [apply (wrap_range 64); lia|];
    intros; apply read_word_spec; done || (cbn; lia)
  | intros v s1 Hv Hw Hs1 Hok1 Hc; cbn [size operand] in *; change u64 with (wrap 64); rewrite setbit_word by done;
    eapply finishes_write; [apply (wrap_range 64); lia|done..|reflexivity|same_bytes|]; intros s';
    unfold modify_state; cbn [fst snd]; do 2 f_equal; rewrite lemma; by rewrite Z.mod_mod ].

Lemma lockedBitSetGuest32_ok :
  implements_rmw (fun context state => lockedBitSetGuest32 context state address index)
    (bit_operand address index 32) (bit_set (index mod 32)).
Proof using Hi. bit_start 32 lockedBitSetGuest32 5 updateBitTestFlags32_eq. Qed.

Lemma lockedBitSetGuest64_ok :
  implements_rmw (fun context state => lockedBitSetGuest64 context state address index)
    (bit_operand address index 64) (bit_set (index mod 64)).
Proof using Hi. bit_start 64 lockedBitSetGuest64 6 updateBitTestFlags64_eq. Qed.
End BitSet.

(** *** Exchanges *)

Lemma copy_to_register_eq n r v st : state_ok st -> (n = 1 \/ n = 2 \/ n = 8) -> in_range (8 * n) v ->
  copy_to_register r n v st = write_register (8 * n) r v st.
Proof.
  intros Hst Hn Hv. unfold copy_to_register, write_register. f_equal.
  pose proof (get_gpr_range r st Hst) as Hr. rewrite (wrap_small (8 * n) v Hv).
  rewrite merge_low by (done || lia). destruct Hn as [-> | [-> | ->]]; [done..|].
  change (8 * 8 <? 32) with false. cbv iota. rewrite wrap_small by done. lia.
Qed.

Lemma copy_zero_extended r v st : state_ok st -> in_range 32 v ->
  copy_to_register r 8 (u64 v) st = write_register 32 r v st.
Proof.
  intros Hst Hv. assert (in_range 64 v) by (by apply (in_range_le 32); [|lia]).
  unfold u64. rewrite wrap_small by done. by rewrite (copy_to_register_eq 8) by (done || tauto).
Qed.

Record ExchangeHelper := mkExchange {
  exchange_helper : option GuestExecutionContext -> X86State -> Z -> Z -> Z -> outcome CallResult;
  exchange_adds : bool;
  exchange_width : Z;
  exchange_message : string;
  exchange_invalid : string
}.

Definition exchange_helpers : list ExchangeHelper :=
  [mkExchange exchangeGuest8 false 8 "generated byte XCHG has no guest address space"
     "generated byte XCHG has an invalid guest register";
   mkExchange exchangeGuest32 false 32 "generated XCHG has no guest address space"
     "generated XCHG has an invalid guest register";
   mkExchange exchangeGuest64 false 64 "generated XCHG has no guest address space"
     "generated XCHG has an invalid guest register";
   mkExchange lockedExchangeAddGuest16 true 16 "generated word LOCK XADD has no guest address space"
     "generated word LOCK XADD has an invalid source register";
   mkExchange lockedExchangeAddGuest32 true 32 "generated LOCK XADD has no guest address space"
     "generated LOCK XADD has an invalid source register";
   mkExchange lockedExchangeAddGuest64 true 64 "generated 64-bit LOCK XADD has no guest address space"
     "generated 64-bit LOCK XADD has an invalid source register"].

Definition exchange_operand (h : ExchangeHelper) (address encoding : Z) : Operand :=
  let n := h.(exchange_width) / 8 in
  mkOperand h.(exchange_message) (address, n) address n
    (if 15 <? encoding then Some (runtime_error h.(exchange_invalid)) else None) true.

Definition exchange_operation (h : ExchangeHelper) (source encoding : Z) : Rmw :=
  (if h.(exchange_adds) then exchange_add else exchange) h.(exchange_width) source (register_of encoding).

Definition exchange_correct (h : ExchangeHelper) : Prop := forall address source encoding,
  in_range 64 address -> in_range 64 source -> in_range 64 encoding ->
  implements_rmw (fun context state => h.(exchange_helper) context state address source encoding)
    (exchange_operand h address encoding) (exchange_operation h source encoding).

Ltac exchange_start helper := intros address source encoding Ha Hr He;
  cbv beta delta [exchange_operand exchange_operation] iota;
  cbn [exchange_helper exchange_adds exchange_width exchange_message exchange_invalid]; cbv zeta;
  repeat match goal with
  | |- context [Z.div ?a 8] => let n := eval vm_compute in (Z.div a 8) in change (Z.div a 8) with n
  end;
  unfold helper; rmw_start; destruct (15 <? encoding);
  [by eapply body_precheck|]; rmw_validated; cbn [size operand] in *;
  eapply finishes_write; [done..|reflexivity|same_bytes|]; intros s'; unfold bind, modify_state; cbn [fst snd];
  do 2 f_equal.

Lemma exchange_ok : Forall exchange_correct exchange_helpers.
Proof.
  unfold exchange_helpers. repeat (apply List.Forall_cons || apply List.Forall_nil).
  - exchange_start exchangeGuest8. apply (copy_to_register_eq 1); [done|tauto|done].
  - exchange_start exchangeGuest32. by apply copy_zero_extended.
  - exchange_start exchangeGuest64. apply (copy_to_register_eq 8); [done|tauto|done].
  - exchange_start lockedExchangeAddGuest16. rewrite (copy_to_register_eq 2) by (done || tauto).
    rewrite updateAddFlags16_eq by word_eq. by word_norm.
  - exchange_start lockedExchangeAddGuest32. rewrite copy_zero_extended by done.
    rewrite updateAddFlags32_eq by word_eq. by word_norm.
  - exchange_start lockedExchangeAddGuest64. rewrite (copy_to_register_eq 8) by (done || tauto).
    rewrite updateAddFlags64_eq by (word_range || word_eq). by word_norm.
Qed.

(** *** Compare and exchange *)

Lemma write_register_id w r st : state_ok st -> (w = 8 \/ w = 16 \/ w = 64) ->
  write_register w r (wrap w (get_gpr r st)) st = st.
Proof.
  intros Hst Hw. unfold write_register.
  assert ((if w <? 32 then get_gpr r st - wrap w (get_gpr r st) + wrap w (get_gpr r st)
           else wrap w (get_gpr r st)) = get_gpr r st) as ->; [|by apply set_gpr_id].
  destruct (Z.ltb_spec w 32); [lia|]. assert (w = 64) as -> by lia.
  by apply wrap_small, get_gpr_range.
Qed.

Definition compare_operand (message : string) (address n : Z) : Operand :=
  mkOperand message (address, n) address n None true.

Lemma compare_equal w source st v : (wrap w (get_gpr Rax st) =? v) = true ->
  compare_exchange w source st v =
  (Some (wrap w source), flags_result arithmeticFlagMask (sub_spec w v (wrap w (get_gpr Rax st)))
     (write_register w Rax (wrap w (get_gpr Rax st)) st)).
Proof. unfold compare_exchange. by intros ->. Qed.

Lemma compare_differs w source st v : (wrap w (get_gpr Rax st) =? v) = false ->
  compare_exchange w source st v =
  (None, flags_result arithmeticFlagMask (sub_spec w v (wrap w (get_gpr Rax st))) (write_register w Rax v st)).
Proof. unfold compare_exchange. by intros ->. Qed.

Section CompareExchange.
Context (address source : Z) (Ha : in_range 64 address) (Hr : in_range 64 source).

Ltac compare_start helper := unfold compare_operand, helper; rmw_start; rmw_validated;
  cbn [size operand] in *; apply finishes_get_state; cbv zeta;
  match goal with H : state_ok ?st |- _ => pose proof (get_gpr_range Rax st H) as Hrax end.

Lemma compareExchangeGuest8_ok :
  implements_rmw (fun context state => compareExchangeGuest8 context state address source)
    (compare_operand "generated byte CMPXCHG has no guest address space" address 1) (compare_exchange 8 source).
Proof using Ha Hr.
  compare_start compareExchangeGuest8. destruct (u8 (get_gpr Rax st) =? v) eqn:E.
  - eapply finishes_write; [done..|exact (compare_equal _ _ _ _ E)|same_bytes|].
    intros s'. rewrite write_register_id by tauto. state_is updateSubFlags8_eq.
  - eapply finishes_keep; [done..|exact (compare_differs _ _ _ _ E)|].
    unfold bind, modify_state; cbn [fst snd]; do 2 f_equal.
    change 0xFF with (Z.ones 8). rewrite merge_low by (done || lia).
    rewrite updateSubFlags8_eq by word_eq. by word_norm.
Qed.

Lemma compareExchangeGuest32_ok :
  implements_rmw (fun context state => compareExchangeGuest32 context state address source)
    (compare_operand "generated CMPXCHG has no guest address space" address 4) (compare_exchange 32 source).
Proof using Ha Hr.
  compare_start compareExchangeGuest32. destruct (u32 (get_gpr Rax st) =? v) eqn:E.
  - apply finishes_assoc. eapply finishes_write; [done..|exact (compare_equal _ _ _ _ E)|same_bytes|].
    intros s'. unfold bind, modify_state; cbn [fst snd]; do 2 f_equal.
    rewrite updateSubFlags32_eq by word_eq. by word_norm.
  - eapply finishes_keep; [done..|exact (compare_differs _ _ _ _ E)|].
    unfold bind, modify_state; cbn [fst snd]; do 2 f_equal.
    rewrite updateSubFlags32_eq by word_eq. by word_norm.
Qed.

Lemma compareExchangeGuest64_ok :
  implements_rmw (fun context state => compareExchangeGuest64 context state address source)
    (compare_operand "generated 64-bit CMPXCHG has no guest address space" address 8) (compare_exchange 64 source).
Proof using Ha Hr.
  compare_start compareExchangeGuest64. rewrite <- (wrap_small 64 (get_gpr Rax st)) by done.
  destruct (wrap 64 (get_gpr Rax st) =? v) eqn:E.
  - eapply finishes_write; [done..|exact (compare_equal _ _ _ _ E)|same_bytes|].
    intros s'. rewrite write_register_id by tauto. unfold modify_state; cbn [fst snd]; do 2 f_equal.
    rewrite updateSubFlags64_eq by (word_range || word_eq). by word_norm.
  - eapply finishes_keep; [done..|exact (compare_differs _ _ _ _ E)|].
    unfold bind, modify_state; cbn [fst snd]; do 2 f_equal.
    rewrite updateSubFlags64_eq by (word_range || word_eq). by word_norm.
Qed.
End CompareExchange.

(** *** CMPXCHG16B *)

Lemma le_value_app l1 l2 : bytes_ok l1 ->
  le_value (l1 ++ l2) = le_value l1 + le_value l2 * 2 ^ (8 * zlength l1).
Proof.
  unfold zlength. induction l1 as [|b l1 IH]; intros Hl; cbn [le_value app length]; [change (2 ^ _) with 1; lia|].
  apply Forall_cons in Hl as [Hb Hl]. rewrite IH, !lor_add_low, !Z.shiftl_mul_pow2 by (done || lia).
  replace (8 * Z.of_nat (S (length l1))) with (8 * Z.of_nat (length l1) + 8) by lia.
  rewrite Z.pow_add_r by lia. lia.
Qed.

Lemma le_bytes_app n k x y : in_range (8 * Z.of_nat n) x -> 0 <= y ->
  le_bytes n x ++ le_bytes k y = le_bytes (n + k) (x + y * 2 ^ (8 * Z.of_nat n)).
Proof.
  revert x. induction n as [|n IH]; intros x Hx Hy; cbn [le_bytes app Nat.add].
  { change (2 ^ (8 * Z.of_nat 0)) with 1 in *. unfold in_range in Hx. f_equal. lia. }
  replace (8 * Z.of_nat (S n)) with (8 * Z.of_nat n + 8) in * by lia.
  unfold in_range in Hx. rewrite Z.pow_add_r in * by lia.
  rewrite !Z.shiftr_div_pow2 by lia. change (2 ^ 8) with 256 in *.
  assert (0 <= x / 256 < 2 ^ (8 * Z.of_nat n)) as Hd
    by (split; [apply Z.div_pos; lia|apply Z.div_lt_upper_bound; lia]).
  replace (x + y * (2 ^ (8 * Z.of_nat n) * 256)) with (x + y * 2 ^ (8 * Z.of_nat n) * 256) by lia.
  rewrite Z.div_add, <- IH by done. f_equal. unfold u8, wrap. change (2 ^ 8) with 256. by rewrite Z.mod_add.
Qed.

(** The two quadwords of sixteen bytes. *)
Lemma pair_words bytes : bytes_ok bytes -> length bytes = 16%nat ->
  le_value (subspan bytes 0 8) = le_value bytes mod 2 ^ 64 /\
  le_value (subspan bytes 8 8) = le_value bytes / 2 ^ 64.
Proof.
  intros Hb Hl. unfold subspan. change (Z.to_nat 0) with 0%nat. change (Z.to_nat 8) with 8%nat.
  rewrite drop_0, (take_ge (drop 8 bytes)) by (rewrite length_drop; lia).
  rewrite <- (take_drop 8 bytes) at 2 4.
  assert (bytes_ok (take 8 bytes)) as Ht by (by apply Forall_take).
  rewrite le_value_app by done. unfold zlength. rewrite length_take, Hl. change (2 ^ (8 * Z.of_nat (8 `min` 16))) with (2 ^ 64).
  pose proof (le_value_range _ Ht) as Hr. unfold zlength in Hr. rewrite length_take, Hl in Hr.
  change (in_range 64 (le_value (take 8 bytes))) in Hr. unfold in_range in Hr.
  rewrite Z.mod_add, Z.div_add by lia. by rewrite Z.mod_small, Z.div_small by done.
Qed.

Lemma land_not64_bit x i : in_range 64 x -> 0 <= i < 64 -> Z.land x (not64 (2 ^ i)) = Z.clearbit x i.
Proof.
  intros Hx Hi. apply Z.bits_inj'. intros j Hj. unfold not64, u64.
  rewrite Z.land_spec, wrap_testbit, Z.lnot_spec, Z.clearbit_eqb, Z.pow2_bits_eqb by lia.
  destruct (Z.ltb_spec j 64); [done|]. by rewrite (testbit_above 64 x) by (done || lia).
Qed.

Definition pair_operand (address : Z) : Operand :=
  mkOperand "generated CMPXCHG16B has no guest address space" (address, 16) address 16
    (if address mod 16 =? 0 then None
     else Some (runtime_error "CMPXCHG16B requires a 16-byte aligned guest address")) true.

Lemma compareExchangeGuestPair_ok address : in_range 64 address ->
  implements_rmw (fun context state => compareExchangeGuestPair context state address)
    (pair_operand address) compare_exchange_pair.
Proof.
  intros Ha. unfold pair_operand, compareExchangeGuestPair. rmw_start.
  change (16 - 1) with (Z.ones 4). rewrite Z.land_ones by lia. change (2 ^ 4) with 16.
  destruct (address mod 16 =? 0); cbn [negb]; [|by eapply body_precheck].
  eapply body_validated_as with (r := fetch_all s address 16) (value := le_value); [done..| |].
  { intros s1 Hs1 Hok1. destruct (readInto_spec address 16 s1) as (s2 & E & Hs2 & Hi2); [by apply Hok1|by apply Hok1|done|].
    exists s2. rewrite (fetch_all_same s s1) in E by done. split_and!; [done|by eapply same_memory_trans|].
    by eapply space_ok_same. }
  intros bytes s1 Hr Hs1 Hok1 Hc. cbn [size operand] in *.
  destruct (fetch_all_bytes _ _ Hok _ _ Hr) as [Hb Hl]. destruct (pair_words _ Hb Hl) as [-> ->].
  apply finishes_get_state.
  pose proof (get_gpr_range Rbx st Hst). pose proof (get_gpr_range Rcx st Hst) as Hrcx. unfold in_range in Hrcx.
  destruct ((get_gpr Rax st =? le_value bytes mod 2 ^ 64) && (get_gpr Rdx st =? le_value bytes / 2 ^ 64)) eqn:E.
  - eapply finishes_write; [done..|unfold compare_exchange_pair; cbv zeta; rewrite E; reflexivity| |].
    + cbn [size]. by rewrite le_bytes_app by (done || lia).
    + intros s'. unfold modify_state. cbn [fst snd]. by do 3 f_equal.
  - eapply finishes_keep; [done..|unfold compare_exchange_pair; cbv zeta; rewrite E; reflexivity|].
    unfold bind, modify_state; cbn [fst snd]. do 3 f_equal. apply land_not64_bit; [|lia].
    by apply Hst.
Qed.

(** ** Properties *)

(** C33: every ADD, SUB, OR, AND, INC and DEC helper of every width, locked or
    not, implements its instruction on memory: on an operand that can be read
    and written it stores exactly the result modulo the operand width (and no
    other byte of guest memory), sets exactly the architectural flags, keeps
    every register, and returns the state; on any other operand, or without an
    address space, it returns null, records the error with the access, and
    changes neither guest memory nor the guest state. *)
Theorem arithmetic_helpers_refine h address source : In h alu_helpers ->
  in_range 64 address -> in_range 64 source ->
  implements_rmw (fun context state => h.(alu_helper) context state address source)
    (alu_operand h address) (alu h.(alu_op) h.(alu_width) source).
Proof.
  intros Hin Ha Hr. assert (Forall alu_correct alu_helpers) as H
    by (unfold alu_helpers; rewrite !Forall_app; split_and!;
        [apply add_ok|apply sub_ok|apply or_ok|apply and_ok|apply inc_ok|apply dec_ok]).
  rewrite List.Forall_forall in H. by apply (H h Hin).
Qed.

Definition sampleContext : GuestExecutionContext :=
  mkContext (Some sampleSpace) None 0 0 0 None 1 0 false
    (mkDirectCache 0 0 None false) (mkDirectCache 0 0 None false) 0.

Lemma initialState_ok : state_ok initialState.
Proof. split; [split; [done|by apply Forall_replicate]|done|done]. Qed.

Lemma arithmetic_helpers_refine_witness : state_ok initialState /\ space_ok sampleSpace /\
  exists s', addGuest16 (Some sampleContext) initialState 8200 0xF8F9 =
      Ok (Some (set_space s' sampleContext), set_rflags 0x57 initialState, true) /\
    byte_at s' 8200 = Some 0 /\ byte_at s' 8201 = Some 0 /\ byte_at s' 8202 = Some 7.
Proof.
  split; [apply initialState_ok|]. split; [apply sampleSpace_ok|].
  pose proof (arithmetic_helpers_refine
    (mkAlu addGuest16 AluAdd 16 true "generated 16-bit guest add has no address space") 8200 0xF8F9
    ltac:(right; left; reflexivity) ltac:(unfold in_range; lia) ltac:(unfold in_range; lia)
    initialState initialState_ok) as [_ H].
  specialize (H sampleContext sampleSpace_ok). cbn -[alu] in H.
  destruct H as (s' & E & (Hi & Hsh & Hb & _) & _). exists s'. split; [exact E|]. rewrite !Hb.
  repeat split; reflexivity.
Defined.

(** C34: the memory shifts and the locked bit set implement their instructions:
    the count is masked to the operand width, a masked count of zero stores the
    operand back and leaves the flags alone, the flags are those of the shifted
    operand; a bit set sets the addressed bit, in the unit its index selects, and
    returns the old bit in CF.  Faults change nothing. *)
Theorem shift_bit_helpers_refine address count : in_range 64 address -> in_range 64 count ->
  implements_rmw (fun context state => shiftLeftGuest64 context state address count)
    (shift_operand address 64) (shift_left 64 count) /\
  implements_rmw (fun context state => shiftRightGuest64 context state address count)
    (shift_operand address 64) (shift_right 64 count) /\
  implements_rmw (fun context state => shiftRightGuest32 context state address count)
    (shift_operand address 32) (shift_right 32 count) /\
  implements_rmw (fun context state => lockedBitSetGuest32 context state address count)
    (bit_operand address count 32) (bit_set (count mod 32)) /\
  implements_rmw (fun context state => lockedBitSetGuest64 context state address count)
    (bit_operand address count 64) (bit_set (count mod 64)).
Proof.
  intros Ha Hc. split_and!; [by apply shiftLeftGuest64_ok|by apply shiftRightGuest64_ok
    |by apply shiftRightGuest32_ok|by apply lockedBitSetGuest32_ok|by apply lockedBitSetGuest64_ok].
Qed.

Lemma shift_bit_helpers_refine_witness : space_ok sampleSpace /\
  exists s', shiftRightGuest32 (Some sampleContext) initialState 8200 33 =
      Ok (Some (set_space s' sampleContext), set_rflags 0x3 initialState, true) /\
    byte_at s' 8200 = Some 131 /\ byte_at s' 8203 = Some 3.
Proof.
  split; [apply sampleSpace_ok|].
  pose proof (shift_bit_helpers_refine 8200 33 ltac:(unfold in_range; lia) ltac:(unfold in_range; lia))
    as (_ & _ & H & _). destruct (H initialState initialState_ok) as [_ Hr].
  specialize (Hr sampleContext sampleSpace_ok). cbn -[shift_right] in Hr.
  destruct Hr as (s' & E & (Hi & Hsh & Hb & _) & _). exists s'. split; [exact E|]. rewrite !Hb.
  split; reflexivity.
Defined.

(** C35: XCHG and LOCK XADD on memory: an invalid register encoding or an
    inaccessible operand changes nothing; otherwise the source (or the sum)
    replaces the operand, the register receives the old value (keeping its upper
    bits for 8- and 16-bit forms, clearing them for the 32-bit form), and XADD
    sets the flags of the addition. *)
Theorem exchange_helpers_refine h address source encoding : In h exchange_helpers ->
  in_range 64 address -> in_range 64 source -> in_range 64 encoding ->
  implements_rmw (fun context state => h.(exchange_helper) context state address source encoding)
    (exchange_operand h address encoding) (exchange_operation h source encoding).
Proof.
  intros Hin Ha Hr He. pose proof exchange_ok as H. rewrite List.Forall_forall in H. by apply (H h Hin).
Qed.

Lemma exchange_helpers_refine_witness : space_ok sampleSpace /\
  exists s', exchangeGuest32 (Some sampleContext) initialState 8200 5 3 =
      Ok (Some (set_space s' sampleContext), set_gpr Rbx 0x07070707 initialState, true) /\
    byte_at s' 8200 = Some 5 /\ byte_at s' 8201 = Some 0.
Proof.
  split; [apply sampleSpace_ok|].
  pose proof (exchange_helpers_refine
    (mkExchange exchangeGuest32 false 32 "generated XCHG has no guest address space"
     "generated XCHG has an invalid guest register") 8200 5 3
    ltac:(right; left; reflexivity) ltac:(unfold in_range; lia) ltac:(unfold in_range; lia)
    ltac:(unfold in_range; lia) initialState initialState_ok) as [_ H].
  specialize (H sampleContext sampleSpace_ok). cbn -[exchange_operation] in H.
  destruct H as (s' & E & (Hi & Hsh & Hb & _) & _). exists s'. split; [exact E|]. rewrite !Hb.
  split; reflexivity.
Defined.

(** C36: CMPXCHG and CMPXCHG16B: the operand must be writable whatever the
    comparison gives; when the accumulator equals the operand the source is
    stored, otherwise memory is kept and the accumulator (the pair RDX:RAX)
    receives the operand, with the register write of the operand width; a
    misaligned pair is rejected; ZF reports the comparison. *)
Theorem compare_exchange_refines address source : in_range 64 address -> in_range 64 source ->
  implements_rmw (fun context state => compareExchangeGuest8 context state address source)
    (compare_operand "generated byte CMPXCHG has no guest address space" address 1)
    (compare_exchange 8 source) /\
  implements_rmw (fun context state => compareExchangeGuest32 context state address source)
    (compare_operand "generated CMPXCHG has no guest address space" address 4)
    (compare_exchange 32 source) /\
  implements_rmw (fun context state => compareExchangeGuest64 context state address source)
    (compare_operand "generated 64-bit CMPXCHG has no guest address space" address 8)
    (compare_exchange 64 source) /\
  implements_rmw (fun context state => compareExchangeGuestPair context state address)
    (pair_operand address) compare_exchange_pair.
Proof.
  intros Ha Hr. split_and!; [by apply compareExchangeGuest8_ok|by apply compareExchangeGuest32_ok
    |by apply compareExchangeGuest64_ok|by apply compareExchangeGuestPair_ok].
Qed.

Lemma compare_exchange_refines_witness : space_ok sampleSpace /\
  exists s', compareExchangeGuest8 (Some sampleContext) initialState 8200 5 =
      Ok (Some (set_space s' sampleContext), set_rflags 0x2 (set_gpr Rax 7 initialState), true) /\
    same_memory sampleSpace s'.
Proof.
  split; [apply sampleSpace_ok|].
  pose proof (compare_exchange_refines 8200 5 ltac:(unfold in_range; lia) ltac:(unfold in_range; lia)) as (H & _).
  destruct (H initialState initialState_ok) as [_ Hr].
  specialize (Hr sampleContext sampleSpace_ok). cbn -[compare_exchange] in Hr.
  destruct Hr as (s' & E & (Hs & _) & _). exists s'. split; [exact E|exact Hs].
Defined.

(** ** Divergences from the architecture *)

(** CMPXCHG compares the accumulator with the operand, as CMP does; the helpers
    set the flags of the opposite difference.  With AL = 0 and 7 in memory, CMP
    sets CF, and the helper clears it. *)
Lemma compare_exchange_flags_reversed :
  (exists c s, compareExchangeGuest8 (Some sampleContext) initialState 8200 5 = Ok (Some c, s, true) /\
    Z.testbit s.(rflags) 0 = false) /\
  CF (sub_spec 8 (wrap 8 (get_gpr Rax initialState)) 7) = true.
Proof. split; [do 2 eexists; split; [vm_compute; reflexivity|reflexivity]|reflexivity]. Qed.

(** An immediate bit index is taken modulo the operand size by the processor;
    [lockedBitSetGuest32] moves to the next unit instead. *)
Lemma bit_index_moves_address :
  exists c s s', lockedBitSetGuest32 (Some sampleContext) initialState 8200 35 = Ok (Some c, s, true) /\
    addressSpace c = Some s' /\ byte_at s' 8200 = Some 7 /\ byte_at s' 8204 = Some 15.
Proof. do 3 eexists. split; [vm_compute; reflexivity|]. split; [reflexivity|]. split; vm_compute; reflexivity. Qed.
