(* ===== verification/RuntimeMemory.v ===== *)
(** Loads, stores and string instructions: the guest-memory helpers of
    [src/dbt/RuntimeHelpers.cpp].

    Byte loads and stores go through a direct view of one mapping that the
    context caches for the time of a block; the other widths use the checked
    accessors.  A cached host pointer is the index of the mapping and an offset
    in its vector. *)
From stdpp Require Import relations.
From S2P Require Import Prelude X86State AddressSpace AddressSpaceInv AddressSpaceAccess AddressSpaceWrite ExecutionContext.

(** ** Direct views *)

(** The part of [directGuestRead] and [directGuestWrite] after the checks of the
    context: [cache] is the context's cache, [set_cache] stores it back. *)
Definition direct_lookup (cache : DirectGuestMemoryCache)
    (set_cache : DirectGuestMemoryCache -> GuestExecutionContext -> GuestExecutionContext)
    (required address : Z) : M Machine (option (nat * Z)) :=
  let hit := match cache.(d_bytes) with
    | Some i => (cache.(d_base) <=? address) && (address - cache.(d_base) <? cache.(d_size))
    | None => false
    end in
  match cache.(d_bytes), hit with
  | Some i, true => ret (Some (i, address - cache.(d_base)))
  | _, _ =>
      if cache.(d_attempted) then ret None else
      modify_context (set_cache (mkDirectCache cache.(d_base) cache.(d_size) cache.(d_bytes) true)) ;;;
      do! view <- on_space (directMemoryView address required);
      match view with
      | None => ret None
      | Some (base, i) =>
          do! mapping <- on_space (deref i);
          modify_context (set_cache (mkDirectCache base (zlength mapping.(m_bytes)) (Some i) true)) ;;;
          ret (Some (i, address - base))
      end
  end.

Definition directGuestRead (address : Z) : M Machine (option (nat * Z)) :=
  do! context <- get_context;
  if negb context.(directMemoryEnabled) then ret None
  else direct_lookup context.(directRead) set_directRead Permission_Read address.

Definition directGuestWrite (address : Z) : M Machine (option (nat * Z)) :=
  do! context <- get_context;
  if negb context.(directMemoryEnabled) then ret None
  else direct_lookup context.(directWrite) set_directWrite Permission_Write address.

(** [*direct] as a value and as a target. *)
Definition direct_load (p : nat * Z) : M AddressSpace Z :=
  do! mapping <- deref p.1;
  do! bytes <- lift (span_read mapping.(m_bytes) p.2 1);
  ret (le_value bytes).
Definition direct_store (p : nat * Z) (value : Z) : M AddressSpace unit :=
  do! mapping <- deref p.1;
  do! bytes' <- lift (span_write mapping.(m_bytes) p.2 [value]);
  modify (fun s => set_mappings (<[p.1 := set_bytes mapping bytes']> s.(as_mappings)) s).

(** The span that generated code may read without calling back, for a loop whose
    addresses advance with its induction variable. *)
Definition validateDirectGuestReadSpan (context : option GuestExecutionContext)
    (address induction step limit maximumOffset : Z) : option (nat * Z) :=
  match context with
  | None => None
  | Some c =>
      if (step =? 0) || (limit <=? induction) then None else
      let cache := c.(directRead) in
      match cache.(d_bytes) with
      | None => None
      | Some i =>
          if (address <? cache.(d_base)) || (cache.(d_size) <=? address - cache.(d_base)) then None else
          let remaining := limit - induction in
          if (remaining <? step) || negb (remaining mod step =? 0) then None else
          let distanceToLastIteration := remaining - step in
          if UINT64_MAX - distanceToLastIteration <? address then None else
          let lastAddress := address + distanceToLastIteration in
          if UINT64_MAX - maximumOffset <? lastAddress then None else
          let lastByte := lastAddress + maximumOffset in
          if (lastByte <? cache.(d_base)) || (cache.(d_size) <=? lastByte - cache.(d_base)) then None
          else Some (i, address - cache.(d_base))
      end
  end.

(** ** Stores *)

Definition executableVersion : M Machine Z := on_space (fun s => (s, Ok s.(as_executableVersion))).

(** [context->stopRepeating |= executableVersion() != before]. *)
Definition note_version (before : Z) : M Machine unit :=
  do! after <- executableVersion;
  modify_context (fun c =>
    set_stopRepeating (Z.lor c.(stopRepeating) (if negb (after =? before) then 1 else 0)) c).

Definition commitPush64 (context : option GuestExecutionContext) (state : X86State)
    (newStackPointer value : Z) : outcome CallResult :=
  call context state "generated PUSH has no guest address space" (Some (newStackPointer, 8)) (
    on_space (writeU64 newStackPointer value) ;;;
    modify_state (set_gpr Rsp newStackPointer)).

Definition storeGuest64 (context : option GuestExecutionContext) (state : X86State)
    (address value : Z) : outcome CallResult :=
  call context state "generated guest store has no address space" (Some (address, 8)) (
    do! version <- executableVersion;
    on_space (writeU64 address value) ;;;
    note_version version).

Definition storeGuest8 (context : option GuestExecutionContext) (state : X86State)
    (address value : Z) : outcome CallResult :=
  call context state "generated byte guest store has no address space" (Some (address, 1)) (
    do! direct <- directGuestWrite address;
    match direct with
    | Some p => on_space (direct_store p (u8 value))
    | None =>
        do! version <- executableVersion;
        on_space (writeBytes address [u8 value]) ;;;
        note_version version
    end).

Definition storeGuest16 (context : option GuestExecutionContext) (state : X86State)
    (address value : Z) : outcome CallResult :=
  call context state "generated 16-bit guest store has no address space" (Some (address, 2)) (
    do! version <- executableVersion;
    on_space (writeBytes address [u8 value; u8 (Z.shiftr value 8)]) ;;;
    note_version version).

Definition storeGuest32 (context : option GuestExecutionContext) (state : X86State)
    (address value : Z) : outcome CallResult :=
  call context state "generated 32-bit guest store has no address space" (Some (address, 4)) (
    do! version <- executableVersion;
    let bytes := map (fun index => u8 (Z.shiftr value (index * 8))) (seqZ 0 4) in
    on_space (writeBytes address bytes) ;;;
    note_version version).

Definition guestIdtr : list Z := [0xFF; 0x0F; 0; 0; 0; 0; 0; 0; 0; 0].

Definition storeGuestIdtr (context : option GuestExecutionContext) (state : X86State)
    (address : Z) : outcome CallResult :=
  call context state "generated SIDT has no guest address space" (Some (address, zlength guestIdtr)) (
    on_space (validateAccess address (zlength guestIdtr) Permission_Write) ;;;
    on_space (writeBytes address guestIdtr)).

(** ** Loads *)

Definition loadGuest64 (context : option GuestExecutionContext) (state : X86State)
    (address : Z) : outcome CallResult :=
  call context state "generated guest load has no address space" (Some (address, 8)) (
    do! value <- on_space (readU64 address);
    modify_context (set_loadedValue value)).

Definition loadGuest8 (context : option GuestExecutionContext) (state : X86State)
    (address : Z) : outcome CallResult :=
  call context state "generated guest load has no address space" (Some (address, 1)) (
    do! direct <- directGuestRead address;
    match direct with
    | Some p =>
        do! value <- on_space (direct_load p);
        modify_context (set_loadedValue value)
    | None =>
        do! value <- on_space (readU8 address);
        modify_context (set_loadedValue value)
    end).

Definition loadGuest16 (context : option GuestExecutionContext) (state : X86State)
    (address : Z) : outcome CallResult :=
  call context state "generated guest load has no address space" (Some (address, 2)) (
    do! value <- on_space (readU16 address);
    modify_context (set_loadedValue value)).

Definition loadGuest32 (context : option GuestExecutionContext) (state : X86State)
    (address : Z) : outcome CallResult :=
  call context state "generated guest load has no address space" (Some (address, 4)) (
    do! value <- on_space (readU32 address);
    modify_context (set_loadedValue value)).

(** ** String instructions *)

(** A body with the local variable [currentAddress], which the handler reports. *)
Definition Local : Type := Machine * Z.
Definition in_machine {A} (c : M Machine A) : M Local A := fun l =>
  let (m, r) := c l.1 in ((m, l.2), r).
Definition set_currentAddress (a : Z) : M Local unit := fun l => ((l.1, a), Ok tt).

Definition call_local (context : option GuestExecutionContext) (state : X86State) (message : string)
    (currentAddress size : Z) (body : M Local unit) : outcome CallResult :=
  match context with
  | None => Ok (None, state, false)
  | Some c =>
      match c.(addressSpace) with
      | None => Ok (Some (set_fault (runtime_error message) (Some (currentAddress, size)) c), state, false)
      | Some _ =>
          match body ((c, state), currentAddress) with
          | (((c', state'), _), Ok _) => Ok (Some c', state', true)
          | (((c', state'), a), Throw e) => Ok (Some (set_fault e (Some (a, size)) c'), state', false)
          | (_, Undefined) => Undefined
          end
      end
  end.

(** [while (state->rcx != 0)]: the iteration decreases RCX, so RCX iterations are
    enough. *)
Fixpoint while_rcx (fuel : nat) (iteration : M Local unit) : M Local unit :=
  do! state <- in_machine get_state;
  if get_gpr Rcx state =? 0 then ret tt else
  match fuel with
  | O => undefined
  | S fuel' => iteration ;;; while_rcx fuel' iteration
  end.

Definition decrement_rcx : M Local unit :=
  in_machine (modify_state (fun state => set_gpr Rcx (u64 (get_gpr Rcx state - 1)) state)).

Definition movs_iteration (decrement : bool) : M Local unit :=
  do! state <- in_machine get_state;
  set_currentAddress (get_gpr Rsi state) ;;;
  do! value <- in_machine (on_space (readU8 (get_gpr Rsi state)));
  set_currentAddress (get_gpr Rdi state) ;;;
  in_machine (on_space (writeBytes (get_gpr Rdi state) [value])) ;;;
  in_machine (modify_state (fun state => set_gpr Rsi
    (u64 (if decrement then get_gpr Rsi state - 1 else get_gpr Rsi state + 1)) state)) ;;;
  in_machine (modify_state (fun state => set_gpr Rdi
    (u64 (if decrement then get_gpr Rdi state - 1 else get_gpr Rdi state + 1)) state)) ;;;
  decrement_rcx.

Definition repeatMoveByte (context : option GuestExecutionContext) (state : X86State) : outcome CallResult :=
  let currentAddress := get_gpr Rsi state in
  call_local context state "generated REP MOVSB has no guest execution context" currentAddress 1 (
    let decrement := negb (Z.land state.(rflags) flagDirection =? 0) in
    while_rcx (Z.to_nat (get_gpr Rcx state)) (movs_iteration decrement)).

Definition stos_iteration (widthBytes value step : Z) : M Local unit :=
  do! state <- in_machine get_state;
  set_currentAddress (get_gpr Rdi state) ;;;
  let bytes := take (Z.to_nat widthBytes) (le_bytes 8 value) in
  in_machine (on_space (writeBytes (get_gpr Rdi state) bytes)) ;;;
  in_machine (modify_state (fun state => set_gpr Rdi (u64 (get_gpr Rdi state + step)) state)) ;;;
  decrement_rcx.

Definition repeatStore (context : option GuestExecutionContext) (state : X86State)
    (widthBytes : Z) : outcome CallResult :=
  let currentAddress := get_gpr Rdi state in
  call_local context state "generated REP STOS has no guest execution context" currentAddress widthBytes (
    if negb (widthBytes =? 1) && negb (widthBytes =? 2) && negb (widthBytes =? 4) && negb (widthBytes =? 8)
    then throw (runtime_error "generated REP STOS has an invalid element width")
    else
    let value := Z.land (get_gpr Rax state)
      (if widthBytes =? 8 then UINT64_MAX else u64 (Z.shiftl 1 (widthBytes * 8)) - 1) in
    let decrement := negb (Z.land state.(rflags) flagDirection =? 0) in
    let step := if decrement then u64 (0 - widthBytes) else widthBytes in
    while_rcx (Z.to_nat (get_gpr Rcx state)) (stos_iteration widthBytes value step)).

(** ** Coherence of the direct views *)

Definition direct_mapping (required : Z) (m : Mapping) : Prop :=
  m.(m_fileBytes) = None /\ m.(m_readableBytes) = [] /\
  hasPermission m.(m_permissions) required = true /\
  hasPermission required Permission_Write && isExecutable m.(m_permissions) = false.

(** A cached view names a mapping of the space that may be accessed directly. *)
Definition view_ok (s : AddressSpace) (required : Z) (cache : DirectGuestMemoryCache) : Prop :=
  match cache.(d_bytes) with
  | None => True
  | Some i => exists m, s.(as_mappings) !! i = Some m /\ cache.(d_base) = m.(m_base) /\
      cache.(d_size) = m.(m_size) /\ direct_mapping required m
  end.

Definition direct_ok (c : GuestExecutionContext) : Prop :=
  match c.(addressSpace) with
  | None => True
  | Some s => view_ok s Permission_Read c.(directRead) /\ view_ok s Permission_Write c.(directWrite)
  end.

Lemma view_ok_shape s s' r cache : same_shape s s' -> view_ok s r cache -> view_ok s' r cache.
Proof.
  unfold view_ok. destruct (d_bytes cache) as [i|]; [|done].
  intros [Hs _] (m & Hm & Hb & Hz & Hd). symmetry in Hs.
  destruct (lookup_shape _ _ _ _ Hs Hm) as (m' & Hm' & Hsh). exists m'. split; [done|].
  destruct (shape_fields _ _ Hsh) as (Eb & Es & Ep & _ & Ef & _ & Er & _).
  unfold direct_mapping. by rewrite <- Eb, <- Es, <- Ep, <- Ef, <- Er.
Qed.

Lemma view_ok_same s s' r cache : same_memory s s' -> view_ok s r cache -> view_ok s' r cache.
Proof. intros Hs. by apply view_ok_shape, same_memory_shape. Qed.

(** A direct mapping at an address of its view. *)
Lemma view_access s r i m a : inv s -> s.(as_mappings) !! i = Some m ->
  hasPermission m.(m_permissions) r = true -> m.(m_base) <= a -> a - m.(m_base) < m.(m_size) ->
  access s r a = Ok m.
Proof.
  intros Hi Hm Hp Hlo Hhi. unfold access. rewrite (mapping_at_lookup _ i m a); [by rewrite Hp|apply Hi| |done|].
  - eapply mappings_geometry, Hi.
  - rewrite contains_spec. unfold m_end. lia.
Qed.

Section Lookup.
Context (ctx : GuestExecutionContext) (s : AddressSpace) (st : X86State) (required a : Z).
Context (set_cache : DirectGuestMemoryCache -> GuestExecutionContext -> GuestExecutionContext)
  (cache : DirectGuestMemoryCache).
Context (Hs : addressSpace ctx = Some s) (Hi : inv s) (Hv : view_ok s required cache).
Context (Hid : set_cache cache ctx = ctx)
  (Hset : forall d s' c, set_space s' (set_cache d c) = set_cache d (set_space s' c))
  (Hover : forall d d' c, set_cache d (set_cache d' c) = set_cache d c)
  (Hkeep : forall d c, addressSpace (set_cache d c) = addressSpace c).

(** What a lookup returns: a location of the mapping that serves the address. *)
Definition lookup_result (s' : AddressSpace) (r : outcome (option (nat * Z))) : Prop :=
  match r with
  | Ok (Some (i, off)) => exists m, s'.(as_mappings) !! i = Some m /\ access s required a = Ok m /\
      off = a - m.(m_base) /\ direct_mapping required m
  | Ok None => True
  | Throw e => access s required a = Throw e
  | Undefined => False
  end.

Lemma direct_miss (k : M Machine (option (nat * Z))) :
  k = (modify_context (set_cache (mkDirectCache cache.(d_base) cache.(d_size) cache.(d_bytes) true)) ;;;
    do! view <- on_space (directMemoryView a required);
    match view with
    | None => ret None
    | Some (base, i) =>
        do! mapping <- on_space (deref i);
        modify_context (set_cache (mkDirectCache base (zlength mapping.(m_bytes)) (Some i) true)) ;;;
        ret (Some (i, a - base))
    end) ->
  exists s' cache' r, k (ctx, st) = ((set_cache cache' (set_space s' ctx), st), r) /\
    same_memory s s' /\ inv s' /\ view_ok s' required cache' /\ lookup_result s' r.
Proof using Hs Hi Hv Hset Hover Hkeep.
  intros ->. set (marked := mkDirectCache _ _ _ true).
  erewrite bind_ok by reflexivity. cbn [fst snd].
  assert (addressSpace (set_cache marked ctx) = Some s) as Hs' by by rewrite Hkeep.
  assert (view_ok s required marked) as Hvm by exact Hv.
  unfold directMemoryView.
  match goal with |- context [on_space (bind (find a 1 required) ?k) ] =>
    match k with (fun i => bind (deref i) (@?k' i)) =>
      destruct (find_deref a required s k' Hi) as (s1 & Hs1 & Hi1 & Hcase) end end.
  pose proof (view_ok_same _ _ _ _ Hs1 Hvm) as Hvm1.
  destruct (access s required a) as [m|e|] eqn:Hacc; [| |done].
  2:{ exists s1, marked, (Throw e). split_and!; try done.
      erewrite bind_throw by (by erewrite on_space_run). by rewrite Hset. }
  destruct Hcase as (i & Hm & Hcase).
  match type of Hcase with _ = (if ?c then _ else _) _ => destruct c eqn:Hc end.
  { exists s1, marked, (Ok None). split_and!; try done.
    erewrite bind_ok by (by erewrite on_space_run). by rewrite Hset. }
  assert (as_mappings s1 !! i = Some m) as Hm1 by by rewrite (proj1 (same_memory_fields _ _ Hs1)).
  repeat (apply orb_false_elim in Hc as [Hc ?]).
  exists s1, (mkDirectCache (m_base m) (zlength (m_bytes m)) (Some i) true), (Ok (Some (i, a - m_base m))).
  assert (direct_mapping required m) as Hdm.
  { split_and!; [| |by apply access_Ok in Hacc as [_ ?]|done].
    - rewrite bool_decide_eq_false in Hc. by apply eq_None_not_Some.
    - eapply bool_decide_eq_true_1, negb_false_iff. eassumption. }
  assert (zlength (m_bytes m) = m_size m) as Hz by by apply Z.eqb_eq, negb_false_iff.
  split_and!; [|done|done|by exists m|by exists m].
  erewrite bind_ok by (by erewrite on_space_run). rewrite Hset.
  erewrite bind_ok.
  2:{ erewrite (on_space_run _ s1 s1 (Ok m)); [reflexivity|by unfold deref; rewrite Hm1|by rewrite Hkeep]. }
  unfold bind, modify_context, ret. cbn [fst snd]. by rewrite Hset, Hover.
Qed.

Lemma direct_lookup_spec :
  exists s' cache' r, direct_lookup cache set_cache required a (ctx, st) =
      ((set_cache cache' (set_space s' ctx), st), r) /\
    same_memory s s' /\ inv s' /\ view_ok s' required cache' /\ lookup_result s' r.
Proof using All.
  assert (set_cache cache (set_space s ctx) = ctx) as Hsame by by rewrite set_space_id.
  unfold direct_lookup. pose proof Hv as Hv'. unfold view_ok in Hv'.
  destruct (d_bytes cache) as [i|] eqn:Hb.
  - destruct (_ && _) eqn:Hhit.
    + apply andb_prop in Hhit as [Hlo%Z.leb_le Hhi%Z.ltb_lt].
      destruct Hv' as (m & Hm & Eb & Es & Hd).
      exists s, cache, (Ok (Some (i, a - d_base cache))). rewrite Hsame. split_and!; [done|apply set_lookup_cache|done|done|].
      cbn [lookup_result]. exists m. split_and!; [done| |by rewrite Eb|done].
      eapply view_access; [done|done|apply Hd|lia|lia].
    + destruct (d_attempted cache).
      * exists s, cache, (Ok None). rewrite Hsame.
      split_and!; [done|apply set_lookup_cache|done..].
      * apply direct_miss. by rewrite Hb.
  - destruct (d_attempted cache).
    + exists s, cache, (Ok None). rewrite Hsame.
      split_and!; [done|apply set_lookup_cache|done..].
    + apply direct_miss. by rewrite Hb.
Qed.
End Lookup.

(** ** Contracts *)

(** The context after a call that did not write: caches aside, it is unchanged. *)
Definition touched (ctx : GuestExecutionContext) (s : AddressSpace) (c' : GuestExecutionContext) : Prop :=
  exists s' dr dw, c' = set_directRead dr (set_directWrite dw (set_space s' ctx)) /\
    same_memory s s' /\ space_ok s' /\ direct_ok c'.

(** A load delivers the little-endian word, or records the error of its first
    unreadable byte; nothing else changes. *)
Definition implements_load (helper : option GuestExecutionContext -> X86State -> outcome CallResult)
    (message : string) (a n : Z) : Prop :=
  forall st, helper None st = Ok (None, st, false) /\
  forall ctx, match ctx.(addressSpace) with
  | None => helper (Some ctx) st =
      Ok (Some (set_fault (runtime_error message) (Some (a, n)) ctx), st, false)
  | Some s => space_ok s -> direct_ok ctx ->
      match word_at s a n with
      | Ok v => exists c', helper (Some ctx) st = Ok (Some (set_loadedValue v c'), st, true) /\ touched ctx s c'
      | Throw e => exists c', helper (Some ctx) st = Ok (Some (set_fault e (Some (a, n)) c'), st, false) /\
          touched ctx s c'
      | Undefined => False
      end
  end.

(** A store writes its bytes and nothing else; when [notes] it also asks the
    block to stop repeating if executable bytes changed. *)
Definition implements_store (helper : option GuestExecutionContext -> X86State -> outcome CallResult)
    (message : string) (a : Z) (bytes : list Z) (after : X86State -> X86State) (notes : bool) : Prop :=
  forall st, helper None st = Ok (None, st, false) /\
  forall ctx, match ctx.(addressSpace) with
  | None => helper (Some ctx) st =
      Ok (Some (set_fault (runtime_error message) (Some (a, zlength bytes)) ctx), st, false)
  | Some s => space_ok s -> direct_ok ctx ->
      match check_all s Permission_Write a (length bytes) with
      | Ok _ => exists s' dr dw,
          let stop := if notes && executable_in s a (length bytes)
                      then Z.lor ctx.(stopRepeating) 1 else ctx.(stopRepeating) in
          let c' := set_stopRepeating stop (set_directRead dr (set_directWrite dw (set_space s' ctx))) in
          helper (Some ctx) st = Ok (Some c', after st, true) /\
          write_effect s s' a bytes /\ space_ok s' /\ direct_ok c'
      | Throw e => exists c', helper (Some ctx) st =
            Ok (Some (set_fault e (Some (a, zlength bytes)) c'), st, false) /\ touched ctx s c'
      | Undefined => False
      end
  end.

Lemma direct_ok_same ctx s s' : addressSpace ctx = Some s -> same_shape s s' -> direct_ok ctx ->
  direct_ok (set_space s' ctx).
Proof.
  unfold direct_ok. intros -> Hs [Hr Hw]. cbn. split; by eapply view_ok_shape.
Qed.

Lemma touched_plain ctx s s' : addressSpace ctx = Some s -> space_ok s -> direct_ok ctx ->
  same_memory s s' -> inv s' -> touched ctx s (set_space s' ctx).
Proof.
  intros Hs Hok Hd Hm Hi. exists s', ctx.(directRead), ctx.(directWrite).
  split; [done|]. split; [done|]. split; [by eapply space_ok_same|].
  eapply direct_ok_same; [done|by apply same_memory_shape|done].
Qed.

Section Plain.
Context (ctx : GuestExecutionContext) (s : AddressSpace) (st : X86State).
Context (Hs : addressSpace ctx = Some s) (Hok : space_ok s) (Hd : direct_ok ctx).

(** A checked load. *)
Lemma load_plain message at_ a n rd : in_range 64 a ->
  (inv s -> eager s -> in_range 64 a -> exists s', rd s = (s', word_at s a n) /\ same_memory s s' /\ inv s') ->
  let result := call (Some ctx) st message at_
    (do! value <- on_space rd; modify_context (set_loadedValue value)) in
  match word_at s a n with
  | Ok v => exists c', result = Ok (Some (set_loadedValue v c'), st, true) /\ touched ctx s c'
  | Throw e => exists c', result = Ok (Some (set_fault e at_ c'), st, false) /\ touched ctx s c'
  | Undefined => False
  end.
Proof using Hs Hok Hd.
  intros Ha Hrd result. subst result. rewrite (call_run _ s) by done.
  destruct Hrd as (s' & E & Hs' & Hi'); [by apply Hok|by apply Hok|done|].
  pose proof (touched_plain ctx s s' Hs Hok Hd Hs' Hi') as Ht.
  destruct (word_at s a n) as [v|e|] eqn:Hw.
  - erewrite bind_ok by (by erewrite on_space_run). by eexists.
  - erewrite bind_throw by (by erewrite on_space_run). by eexists.
  - by eapply word_at_defined; [apply Hok|exact Hw].
Qed.

(** A checked write with what follows it. *)
Lemma write_plain a bytes (k : M Machine unit) : in_range 64 a -> bytes_ok bytes ->
  match check_all s Permission_Write a (length bytes) with
  | Ok _ => exists s', (on_space (writeBytes a bytes) ;;; k) (ctx, st) = k (set_space s' ctx, st) /\
      write_effect s s' a bytes /\ space_ok s' /\ direct_ok (set_space s' ctx)
  | Throw e => exists s', (on_space (writeBytes a bytes) ;;; k) (ctx, st) = ((set_space s' ctx, st), Throw e) /\
      same_memory s s' /\ inv s'
  | Undefined => False
  end.
Proof using Hs Hok Hd.
  intros Ha Hb. pose proof (writeBytes_spec s a bytes (space_inv _ Hok) (space_eager _ Hok) Ha) as H.
  destruct (check_all _ _ _ _) as [[]|e|]; [| |done].
  - destruct H as (s' & E & Hw). exists s'.
    split; [by erewrite bind_ok by (by erewrite on_space_run)|]. split; [done|].
    split; [by eapply space_ok_written|]. eapply direct_ok_same; [done|apply Hw|done].
  - destruct H as (s' & E & Hs' & Hi'). exists s'. split; [|done].
    by erewrite bind_throw by (by erewrite on_space_run).
Qed.

(** The stores that note changes of executable bytes. *)
Lemma noted_store message a bytes : in_range 64 a -> bytes_ok bytes ->
  let result := call (Some ctx) st message (Some (a, zlength bytes))
    (do! version <- executableVersion; on_space (writeBytes a bytes) ;;; note_version version) in
  match check_all s Permission_Write a (length bytes) with
  | Ok _ => exists s' dr dw,
      let stop := if executable_in s a (length bytes)
                  then Z.lor ctx.(stopRepeating) 1 else ctx.(stopRepeating) in
      let c' := set_stopRepeating stop (set_directRead dr (set_directWrite dw (set_space s' ctx))) in
      result = Ok (Some c', st, true) /\ write_effect s s' a bytes /\ space_ok s' /\ direct_ok c'
  | Throw e => exists c', result = Ok (Some (set_fault e (Some (a, zlength bytes)) c'), st, false) /\
      touched ctx s c'
  | Undefined => False
  end.
Proof using Hs Hok Hd.
  intros Ha Hb result. subst result. rewrite (call_run _ s) by done.
  assert (executableVersion (ctx, st) = ((ctx, st), Ok s.(as_executableVersion))) as Ev
    by (unfold executableVersion; erewrite on_space_run by done; by rewrite set_space_id).
  rewrite (bind_ok _ _ _ _ _ Ev).
  pose proof (write_plain a bytes (note_version s.(as_executableVersion)) Ha Hb) as H.
  destruct (check_all _ _ _ _) as [[]|e|]; [| |done].
  2:{ destruct H as (s' & -> & Hs' & Hi'). eexists. split; [done|]. by apply touched_plain. }
  destruct H as (s' & -> & Hw & Hok' & Hd'). exists s', ctx.(directRead), ctx.(directWrite).
  split; [|by split_and!]. unfold note_version.
  assert (executableVersion (set_space s' ctx, st) =
    ((set_space s' ctx, st), Ok s'.(as_executableVersion))) as Ev'
    by (unfold executableVersion; by erewrite (on_space_run _ s' s')).
  rewrite (bind_ok _ _ _ _ _ Ev'). destruct Hw as (_ & _ & _ & ->). cbn [modify_context fst snd].
  unfold modify_context. cbn [fst snd]. f_equal. f_equal. f_equal. f_equal.
  destruct (executable_in s a (length bytes)).
  - assert (negb (u64 (as_executableVersion s + 1) =? as_executableVersion s) = true) as ->; [|done].
    apply negb_true_iff, Z.eqb_neq. intros E.
    pose proof (u64_range (as_executableVersion s + 1)) as Hr. rewrite E in Hr. unfold u64, wrap in E.
    destruct (decide (as_executableVersion s = 2 ^ 64 - 1)) as [E1|]; [by rewrite E1 in E|].
    rewrite Z.mod_small in E; lia.
  - rewrite Z.eqb_refl. cbn [negb]. by rewrite Z.lor_0_r.
Qed.
End Plain.

(** ** The direct path agrees with the checked one *)

Lemma direct_load_spec s i off m a : inv s -> s.(as_mappings) !! i = Some m ->
  access s Permission_Read a = Ok m -> off = a - m.(m_base) -> direct_mapping Permission_Read m ->
  direct_load (i, off) s = (s, word_at s a 1).
Proof.
  intros Hi Hm Ha -> (Hf & Hr & _). pose proof (access_backed _ _ _ _ Hi Ha ltac:(done)) as Hb.
  unfold backed in Hb. rewrite Hf in Hb.
  pose proof (access_contains _ _ _ _ Ha) as Hc. rewrite contains_spec in Hc. unfold m_end in Hc.
  destruct (subspan_cons m.(m_bytes) (a - m.(m_base)) 1) as (b & Hl & Hsub); [lia..|].
  unfold direct_load, word_at. cbn [fst snd]. change (Z.to_nat 1) with 1%nat. cbn [fetch_all].
  unfold fetch. rewrite Ha. cbn [outcome_bind]. unfold sparse_hole, mapping_byte. rewrite Hr, Hf, lookup_nil, Hl.
  cbn [outcome_bind]. erewrite bind_ok by (unfold deref; by rewrite Hm).
  unfold span_read. destruct (Z.leb_spec 0 (a - m_base m)); [|lia].
  destruct (Z.leb_spec (a - m_base m + 1) (zlength (m_bytes m))); [|lia]. cbn [andb Z.leb Z.compare].
  unfold bind, lift, ret. by rewrite Hsub, subspan_nil by lia.
Qed.

Lemma direct_store_spec s i off m a v : inv s -> s.(as_mappings) !! i = Some m ->
  access s Permission_Write a = Ok m -> off = a - m.(m_base) -> direct_mapping Permission_Write m ->
  exists s', direct_store (i, off) v s = (s', Ok tt) /\ write_effect s s' a [v].
Proof.
  intros Hi Hm Ha -> (Hf & Hr & _ & Hx). pose proof (access_backed _ _ _ _ Hi Ha ltac:(done)) as Hb.
  pose proof (access_contains _ _ _ _ Ha) as Hc. rewrite contains_spec in Hc. unfold m_end in Hc.
  destruct (mapping_write_spec s i m (a - m.(m_base)) [v] Hi Hm Hb) as (s' & E & Hi' & Hsh & Hv & Hw);
    [lia|unfold zlength; cbn; lia|].
  exists s'. split.
  - unfold mapping_write in E. rewrite (bind_ok _ _ s s m) in E by (unfold deref; by rewrite Hm).
    rewrite Hf in E. unfold direct_store. cbn [fst snd].
    by rewrite (bind_ok _ _ s s m) by (unfold deref; by rewrite Hm).
  - split; [done|]. split; [done|]. split.
    + by replace a with (m_base m + (a - m_base m)) at 1 by lia.
    + cbn [length]. rewrite (executable_run s Permission_Write a m) by (done || unfold m_end; lia).
      change (hasPermission Permission_Write Permission_Write) with true in Hx. cbn in Hx. by rewrite Hx.
Qed.

Section Helpers.
Context (a value : Z) (Ha : in_range 64 a) (Hv : in_range 64 value).

Ltac store_start helper := unfold helper; intros st; split; [done|]; intros ctx;
  destruct (addressSpace ctx) as [s|] eqn:Hs; [|by apply call_no_space]; intros Hok Hd; cbn [andb].

Lemma storeGuest64_ok :
  implements_store (fun context state => storeGuest64 context state a value)
    "generated guest store has no address space" a (le_bytes 8 value) id true.
Proof using Ha.
  store_start storeGuest64.
  by apply (noted_store ctx s st Hs Hok Hd _ a (le_bytes 8 value) Ha (le_bytes_ok 8 value)).
Qed.

Lemma storeGuest32_ok :
  implements_store (fun context state => storeGuest32 context state a value)
    "generated 32-bit guest store has no address space" a (le_bytes 4 value) id true.
Proof using Ha.
  store_start storeGuest32. cbv zeta.
  assert (map (fun index => u8 (Z.shiftr value (index * 8))) (seqZ 0 4) = le_bytes 4 value) as ->.
  { rewrite <- word_literal4. reflexivity. }
  by apply (noted_store ctx s st Hs Hok Hd _ a (le_bytes 4 value) Ha (le_bytes_ok 4 value)).
Qed.

Lemma storeGuest16_ok :
  implements_store (fun context state => storeGuest16 context state a value)
    "generated 16-bit guest store has no address space" a (le_bytes 2 value) id true.
Proof using Ha.
  store_start storeGuest16.
  by apply (noted_store ctx s st Hs Hok Hd _ a (le_bytes 2 value) Ha (le_bytes_ok 2 value)).
Qed.

Lemma commitPush64_ok :
  implements_store (fun context state => commitPush64 context state a value)
    "generated PUSH has no guest address space" a (le_bytes 8 value) (set_gpr Rsp a) false.
Proof using Ha.
  store_start commitPush64. rewrite (call_run _ s) by done.
  pose proof (write_plain ctx s st Hs Hok Hd a (le_bytes 8 value) (modify_state (set_gpr Rsp a))
    Ha (le_bytes_ok 8 value)) as H. rewrite length_le_bytes in *. unfold writeU64.
  destruct (check_all _ _ _ _) as [[]|e|]; [| |done].
  - destruct H as (s' & -> & Hw & Hok' & Hd'). exists s', ctx.(directRead), ctx.(directWrite). by split_and!.
  - destruct H as (s' & -> & Hs' & Hi'). eexists. split; [done|]. by apply touched_plain.
Qed.

Lemma storeGuestIdtr_ok :
  implements_store (fun context state => storeGuestIdtr context state a)
    "generated SIDT has no guest address space" a guestIdtr id false.
Proof using Ha.
  store_start storeGuestIdtr. rewrite (call_run _ s) by done.
  destruct (validateAccess_spec s a (zlength guestIdtr) Permission_Write) as (s1 & E1 & Hs1 & Hi1);
    [by apply Hok|done|]. pose proof (space_ok_same _ _ Hok Hs1 Hi1) as Hok1.
  replace (Z.to_nat (zlength guestIdtr)) with (length guestIdtr) in E1 by done.
  assert (bytes_ok guestIdtr) as Hb by (repeat constructor; unfold is_byte; lia).
  destruct (check_all s Permission_Write a (length guestIdtr)) as [[]|e|] eqn:Hc.
  - rewrite (bind_ok _ _ _ (set_space s1 ctx, st) tt) by (by erewrite on_space_run).
    assert (addressSpace (set_space s1 ctx) = Some s1) as Hs' by done.
    pose proof (writeBytes_spec s1 a guestIdtr (space_inv _ Hok1) (space_eager _ Hok1) Ha) as H.
    rewrite (check_all_same s s1), Hc in H by done. destruct H as (s2 & E2 & Hw2).
    erewrite on_space_run by done. exists s2, ctx.(directRead), ctx.(directWrite).
    pose proof (write_effect_same _ _ _ _ _ Hs1 Hw2) as Hw.
    split; [done|]. split; [done|]. split; [by eapply space_ok_written|].
    by eapply (direct_ok_same ctx s s2); [|apply Hw|].
  - rewrite (bind_throw _ _ _ (set_space s1 ctx, st) e) by (by erewrite on_space_run).
    eexists. split; [done|]. by apply touched_plain.
  - by eapply check_all_defined.
Qed.

Lemma directGuestWrite_spec ctx s st : addressSpace ctx = Some s -> inv s -> direct_ok ctx ->
  exists s' dw r, directGuestWrite a (ctx, st) = ((set_directWrite dw (set_space s' ctx), st), r) /\
    same_memory s s' /\ inv s' /\ view_ok s' Permission_Write dw /\
    lookup_result s Permission_Write a s' r.
Proof using Type.
  intros Hs Hi Hd. unfold direct_ok in Hd. rewrite Hs in Hd.
  unfold directGuestWrite. erewrite bind_ok by reflexivity. cbn [fst].
  destruct (directMemoryEnabled ctx); cbn [negb].
  - destruct (direct_lookup_spec ctx s st Permission_Write a set_directWrite ctx.(directWrite) Hs Hi)
      as (s' & dw & r & H); try done; [apply Hd|by destruct ctx|]. by exists s', dw, r.
  - exists s, ctx.(directWrite), (Ok None). split; [|by split_and!; [apply set_lookup_cache|..|apply Hd|]].
    rewrite set_space_id by done. by destruct ctx.
Qed.

Lemma directGuestRead_spec ctx s st : addressSpace ctx = Some s -> inv s -> direct_ok ctx ->
  exists s' dr r, directGuestRead a (ctx, st) = ((set_directRead dr (set_space s' ctx), st), r) /\
    same_memory s s' /\ inv s' /\ view_ok s' Permission_Read dr /\
    lookup_result s Permission_Read a s' r.
Proof using Type.
  intros Hs Hi Hd. unfold direct_ok in Hd. rewrite Hs in Hd.
  unfold directGuestRead. erewrite bind_ok by reflexivity. cbn [fst].
  destruct (directMemoryEnabled ctx); cbn [negb].
  - destruct (direct_lookup_spec ctx s st Permission_Read a set_directRead ctx.(directRead) Hs Hi)
      as (s' & dr & r & H); try done; [apply Hd|by destruct ctx|]. by exists s', dr, r.
  - exists s, ctx.(directRead), (Ok None). split; [|by split_and!; [apply set_lookup_cache|..|apply Hd|]].
    rewrite set_space_id by done. by destruct ctx.
Qed.
End Helpers.

Lemma same_memory_check s s' r a n : same_memory s s' -> check_all s' r a n = check_all s r a n.
Proof. intros. by apply check_all_same. Qed.

Lemma word_at_same s s' a n : same_memory s s' -> word_at s' a n = word_at s a n.
Proof. intros. unfold word_at. by rewrite (fetch_all_same s s'). Qed.

Lemma touched_direct ctx s c' : touched ctx s c' -> direct_ok c'.
Proof. by intros (s' & dr & dw & _ & _ & _ & H). Qed.

Lemma touched_trans ctx s c1 s1 c2 : addressSpace ctx = Some s -> touched ctx s c1 ->
  addressSpace c1 = Some s1 -> touched c1 s1 c2 -> touched ctx s c2.
Proof.
  intros Hs (s1' & dr1 & dw1 & -> & Hm1 & Hok1 & Hd1). cbn. intros [= <-] (s2 & dr2 & dw2 & -> & Hm2 & Hok2 & Hd2).
  exists s2, dr2, dw2. split_and!; [by destruct ctx|by eapply same_memory_trans|done|done].
Qed.

(** Caching a view is the only effect of a lookup. *)
Lemma touched_write ctx s s' dw : addressSpace ctx = Some s -> space_ok s -> direct_ok ctx ->
  same_memory s s' -> inv s' -> view_ok s' Permission_Write dw ->
  touched ctx s (set_directWrite dw (set_space s' ctx)).
Proof.
  intros Hs Hok Hd Hm Hi Hv. exists s', ctx.(directRead), dw. split; [by destruct ctx|]. split; [done|].
  split; [by eapply space_ok_same|]. unfold direct_ok in *. rewrite Hs in Hd. cbn. split; [|done].
  by eapply view_ok_same; [|apply Hd].
Qed.

Lemma touched_read ctx s s' dr : addressSpace ctx = Some s -> space_ok s -> direct_ok ctx ->
  same_memory s s' -> inv s' -> view_ok s' Permission_Read dr ->
  touched ctx s (set_directRead dr (set_space s' ctx)).
Proof.
  intros Hs Hok Hd Hm Hi Hv. exists s', dr, ctx.(directWrite). split; [by destruct ctx|]. split; [done|].
  split; [by eapply space_ok_same|]. unfold direct_ok in *. rewrite Hs in Hd. cbn. split; [done|].
  by eapply view_ok_same; [|apply Hd].
Qed.

Lemma call_bind {A} ctx st message at_ (c : M Machine A) k c1 x : addressSpace ctx <> None ->
  addressSpace c1 <> None -> c (ctx, st) = ((c1, st), Ok x) ->
  call (Some ctx) st message at_ (bind c k) = call (Some c1) st message at_ (k x).
Proof.
  intros H H1 E. cbn. destruct (addressSpace ctx); [|done]. destruct (addressSpace c1); [|done].
  by rewrite (bind_ok _ _ _ _ _ E).
Qed.

Lemma loadGuest8_ok a : in_range 64 a ->
  implements_load (fun context state => loadGuest8 context state a)
    "generated guest load has no address space" a 1.
Proof.
  intros Ha st. split; [done|]. intros ctx. destruct (addressSpace ctx) as [s|] eqn:Hs; [|by apply call_no_space].
  intros Hok Hd. unfold loadGuest8.
  destruct (directGuestRead_spec a ctx s st Hs (space_inv _ Hok) Hd) as (s1 & dr & r & E & Hs1 & Hi1 & Hv1 & Hr).
  pose proof (touched_read ctx s s1 dr Hs Hok Hd Hs1 Hi1 Hv1) as Ht.
  assert (addressSpace (set_directRead dr (set_space s1 ctx)) = Some s1) as Hsp by done.
  set (c1 := set_directRead dr (set_space s1 ctx)) in *. pose proof (touched_direct _ _ _ Ht) as Hd1.
  assert (space_ok s1) as Hok1 by by eapply space_ok_same.
  destruct r as [[[i off]|]|e|]; cbn [lookup_result] in Hr; [| | |done].
  - destruct Hr as (m & Hm & Hacc & Eo & Hdm). rewrite (call_bind ctx st _ _ _ _ c1 (Some (i, off))) by (rewrite ?Hs, ?Hsp; done).
    cbv beta iota. pose proof (load_plain c1 s1 st Hsp Hok1 Hd1 "generated guest load has no address space"
      (Some (a, 1)) a 1 (direct_load (i, off)) Ha) as H. rewrite (word_at_same s s1) in H by done.
    assert (direct_load (i, off) s1 = (s1, word_at s a 1)) as El.
    { rewrite <- (word_at_same s s1) by done. eapply direct_load_spec; try done. by rewrite (access_same s s1). }
    specialize (H ltac:(intros; exists s1; split_and!; [done|apply set_lookup_cache|done])).
    destruct (word_at s a 1) as [v|e|]; [| |done]; destruct H as (c2 & -> & Ht2); exists c2;
      (split; [done|by eapply touched_trans]).
  - rewrite (call_bind ctx st _ _ _ _ c1 None) by (rewrite ?Hs, ?Hsp; done). cbv beta iota.
    pose proof (load_plain c1 s1 st Hsp Hok1 Hd1 "generated guest load has no address space"
      (Some (a, 1)) a 1 (readU8 a) Ha ltac:(intros; by apply readU8_spec)) as H.
    rewrite (word_at_same s s1) in H by done.
    destruct (word_at s a 1) as [v|e|]; [| |done]; destruct H as (c2 & -> & Ht2); exists c2;
      (split; [done|by eapply touched_trans]).
  - rewrite (call_run _ s) by done. rewrite (bind_throw _ _ _ _ _ E).
    unfold word_at. change (Z.to_nat 1) with 1%nat. rewrite (fetch_all_fail _ _ _ e) by done.
    cbn [outcome_bind]. by exists c1.
Qed.

Lemma load_words_ok a : in_range 64 a ->
  implements_load (fun context state => loadGuest16 context state a)
    "generated guest load has no address space" a 2 /\
  implements_load (fun context state => loadGuest32 context state a)
    "generated guest load has no address space" a 4 /\
  implements_load (fun context state => loadGuest64 context state a)
    "generated guest load has no address space" a 8.
Proof.
  intros Ha. split_and!; intros st; (split; [done|]); intros ctx;
    (destruct (addressSpace ctx) as [s|] eqn:Hs; [|by apply call_no_space]); intros Hok Hd;
    apply (load_plain ctx s st Hs Hok Hd); try done; intros; apply read_word_spec; done || lia.
Qed.

(** A store through a context whose caches only were touched. *)
Lemma store_after ctx s c1 s1 st a bytes (result : outcome CallResult) notes :
  addressSpace ctx = Some s -> space_ok s -> touched ctx s c1 -> addressSpace c1 = Some s1 ->
  same_memory s s1 ->
  match check_all s1 Permission_Write a (length bytes) with
  | Ok _ => exists s' dr dw,
      let stop := if notes && executable_in s1 a (length bytes)
                  then Z.lor c1.(stopRepeating) 1 else c1.(stopRepeating) in
      let c' := set_stopRepeating stop (set_directRead dr (set_directWrite dw (set_space s' c1))) in
      result = Ok (Some c', st, true) /\ write_effect s1 s' a bytes /\ space_ok s' /\ direct_ok c'
  | Throw e => exists c', result = Ok (Some (set_fault e (Some (a, zlength bytes)) c'), st, false) /\
      touched c1 s1 c'
  | Undefined => False
  end ->
  match check_all s Permission_Write a (length bytes) with
  | Ok _ => exists s' dr dw,
      let stop := if notes && executable_in s a (length bytes)
                  then Z.lor ctx.(stopRepeating) 1 else ctx.(stopRepeating) in
      let c' := set_stopRepeating stop (set_directRead dr (set_directWrite dw (set_space s' ctx))) in
      result = Ok (Some c', st, true) /\ write_effect s s' a bytes /\ space_ok s' /\ direct_ok c'
  | Throw e => exists c', result = Ok (Some (set_fault e (Some (a, zlength bytes)) c'), st, false) /\
      touched ctx s c'
  | Undefined => False
  end.
Proof.
  intros Hs Hok Ht Hs1 Hm. pose proof Ht as (s1' & dr1 & dw1 & Ec & _ & _ & _).
  assert (s1' = s1) as -> by (rewrite Ec in Hs1; by injection Hs1).
  rewrite (check_all_same s s1), (exec_same s s1) by done.
  destruct (check_all s Permission_Write a (length bytes)) as [[]|e|]; [| |done].
  - intros (s' & dr & dw & -> & Hw & Hok' & Hd'). exists s', dr, dw. subst c1.
    split; [done|]. split; [by eapply write_effect_same|]. by split.
  - intros (c' & -> & Ht'). exists c'. split; [done|]. by eapply touched_trans.
Qed.

Lemma direct_storing c1 s1 st message i off m a v : addressSpace c1 = Some s1 -> space_ok s1 -> direct_ok c1 ->
  s1.(as_mappings) !! i = Some m -> access s1 Permission_Write a = Ok m -> off = a - m.(m_base) ->
  direct_mapping Permission_Write m -> is_byte v ->
  exists s' dr dw,
    let c' := set_stopRepeating (stopRepeating c1) (set_directRead dr (set_directWrite dw (set_space s' c1))) in
    call (Some c1) st message (Some (a, 1)) (on_space (direct_store (i, off) v)) = Ok (Some c', st, true) /\
    write_effect s1 s' a [v] /\ space_ok s' /\ direct_ok c' /\
    executable_in s1 a 1 = false /\ check_all s1 Permission_Write a 1 = Ok tt.
Proof.
  intros Hs1 Hok Hd Hm Hacc Ho Hdm Hb.
  destruct (direct_store_spec s1 i off m a v (space_inv _ Hok) Hm Hacc Ho Hdm) as (s' & E & Hw).
  exists s', c1.(directRead), c1.(directWrite). rewrite (call_run _ s1) by done.
  erewrite on_space_run by done. split; [done|]. split; [done|].
  split; [eapply space_ok_written; [exact Hok|by constructor|exact Hw]|].
  split; [by eapply (direct_ok_same c1 s1 s'); [|apply Hw|]|]. split.
  - pose proof (access_contains _ _ _ _ Hacc) as Hc. rewrite contains_spec in Hc.
    rewrite (executable_run s1 Permission_Write a m) by (done || apply Hok || lia).
    destruct Hdm as (_ & _ & _ & Hx). exact Hx.
  - cbn [check_all]. by rewrite Hacc.
Qed.

Lemma storeGuest8_ok a value : in_range 64 a ->
  implements_store (fun context state => storeGuest8 context state a value)
    "generated byte guest store has no address space" a [u8 value] id true.
Proof.
  intros Ha st. split; [done|]. intros ctx. destruct (addressSpace ctx) as [s|] eqn:Hs; [|by apply call_no_space].
  intros Hok Hd. unfold storeGuest8. cbn [length andb].
  destruct (directGuestWrite_spec a ctx s st Hs (space_inv _ Hok) Hd) as (s1 & dw & r & E & Hs1 & Hi1 & Hv1 & Hr).
  pose proof (touched_write ctx s s1 dw Hs Hok Hd Hs1 Hi1 Hv1) as Ht.
  assert (addressSpace (set_directWrite dw (set_space s1 ctx)) = Some s1) as Hsp by done.
  set (c1 := set_directWrite dw (set_space s1 ctx)) in *. pose proof (touched_direct _ _ _ Ht) as Hd1.
  assert (space_ok s1) as Hok1 by by eapply space_ok_same.
  assert (is_byte (u8 value)) as Hb by apply u8_range.
  destruct r as [[[i off]|]|e|]; cbn [lookup_result] in Hr; [| | |done].
  - destruct Hr as (m & Hm & Hacc & Eo & Hdm). rewrite (call_bind ctx st _ _ _ _ c1 (Some (i, off))) by (rewrite ?Hs, ?Hsp; done).
    cbv beta iota. rewrite <- (access_same s s1) in Hacc by done.
    destruct (direct_storing c1 s1 st "generated byte guest store has no address space" i off m a (u8 value))
      as (s' & dr & dw' & Ecall & Hw & Hok' & Hd' & Hx & Hc); try done.
    apply (store_after ctx s c1 s1 st a [u8 value] _ true); try done. cbn [length andb]. rewrite Hc, Hx.
    by exists s', dr, dw'.
  - rewrite (call_bind ctx st _ _ _ _ c1 None) by (rewrite ?Hs, ?Hsp; done). cbv beta iota.
    apply (store_after ctx s c1 s1 st a [u8 value] _ true); try done.
    by apply (noted_store c1 s1 st Hsp Hok1 Hd1 _ a [u8 value] Ha ltac:(by constructor)).
  - rewrite (call_run _ s) by done. rewrite (bind_throw _ _ _ _ _ E).
    cbn [check_all]. rewrite Hr. cbn [outcome_bind]. by exists c1.
Qed.

(** ** String instructions

    One element moved or stored, at the level of guest memory. *)

Definition direction (st : X86State) : Z := if Z.testbit st.(rflags) 10 then -1 else 1.

Definition advance (r : Register) (delta : Z) (st : X86State) : X86State :=
  set_gpr r (u64 (get_gpr r st + delta)) st.

Inductive movs_step : AddressSpace * X86State -> AddressSpace * X86State -> Prop :=
| movs_one s st v s' : get_gpr Rcx st <> 0 -> word_at s (get_gpr Rsi st) 1 = Ok v ->
    write_effect s s' (get_gpr Rdi st) [v] ->
    movs_step (s, st)
      (s', advance Rcx (-1) (advance Rdi (direction st) (advance Rsi (direction st) st))).

(** The error that stops the next element, and the address it is reported at. *)
Inductive movs_fault : AddressSpace -> X86State -> Z -> exn -> Prop :=
| movs_read s st e : word_at s (get_gpr Rsi st) 1 = Throw e -> movs_fault s st (get_gpr Rsi st) e
| movs_write s st v e : word_at s (get_gpr Rsi st) 1 = Ok v ->
    check_all s Permission_Write (get_gpr Rdi st) 1 = Throw e -> movs_fault s st (get_gpr Rdi st) e.

Inductive stos_step (w : Z) : AddressSpace * X86State -> AddressSpace * X86State -> Prop :=
| stos_one s st s' : get_gpr Rcx st <> 0 ->
    write_effect s s' (get_gpr Rdi st) (le_bytes (Z.to_nat w) (get_gpr Rax st)) ->
    stos_step w (s, st) (s', advance Rcx (-1) (advance Rdi (direction st * w) st)).

Inductive stos_fault (w : Z) : AddressSpace -> X86State -> Z -> exn -> Prop :=
| stos_write s st e : check_all s Permission_Write (get_gpr Rdi st) (Z.to_nat w) = Throw e ->
    stos_fault w s st (get_gpr Rdi st) e.

(** A repeated instruction performs [k] elements, then either RCX is zero or the
    next element faults; the registers count the elements done. *)
Definition repeats (step : AddressSpace * X86State -> AddressSpace * X86State -> Prop)
    (fault : AddressSpace -> X86State -> Z -> exn -> Prop) (size : Z)
    (ctx : GuestExecutionContext) (s : AddressSpace) (st : X86State) (result : outcome CallResult) : Prop :=
  exists k s1 st1, nsteps step k (s, st) (s1, st1) /\ get_gpr Rcx st1 = get_gpr Rcx st - Z.of_nat k /\
    space_ok s1 /\
    ((get_gpr Rcx st1 = 0 /\ result = Ok (Some (set_space s1 ctx), st1, true)) \/
     (exists a e s2, get_gpr Rcx st1 <> 0 /\ fault s1 st1 a e /\ same_memory s1 s2 /\
        result = Ok (Some (set_fault e (Some (a, size)) (set_space s2 ctx)), st1, false))).

Section While.
Context (step : AddressSpace * X86State -> AddressSpace * X86State -> Prop)
  (fault : AddressSpace -> X86State -> Z -> exn -> Prop) (iteration : M Local unit)
  (good : X86State -> Prop).

(** One iteration is one element, or its fault. *)
Definition iterates : Prop := forall ctx s st l, addressSpace ctx = Some s -> space_ok s -> state_ok st ->
  good st -> get_gpr Rcx st <> 0 ->
  (exists s' st' l', iteration ((ctx, st), l) = (((set_space s' ctx, st'), l'), Ok tt) /\
     step (s, st) (s', st') /\ space_ok s' /\ state_ok st' /\ good st' /\
     get_gpr Rcx st' = get_gpr Rcx st - 1) \/
  (exists s' e a, iteration ((ctx, st), l) = (((set_space s' ctx, st), a), Throw e) /\
     fault s st a e /\ same_memory s s').

Lemma while_spec : iterates -> forall n ctx s st l, addressSpace ctx = Some s -> space_ok s -> state_ok st ->
  good st -> get_gpr Rcx st = Z.of_nat n ->
  exists k s1 st1 l1 r, while_rcx n iteration ((ctx, st), l) = (((set_space s1 ctx, st1), l1), r) /\
    exists s0, nsteps step k (s, st) (s0, st1) /\ get_gpr Rcx st1 = get_gpr Rcx st - Z.of_nat k /\ space_ok s0 /\
    match r with
    | Ok _ => get_gpr Rcx st1 = 0 /\ s1 = s0
    | Throw e => get_gpr Rcx st1 <> 0 /\ fault s0 st1 l1 e /\ same_memory s0 s1
    | Undefined => False
    end.
Proof using Type.
  intros Hit. induction n as [|n IH]; intros ctx s st l Hs Hok Hst Hg Hn; cbn [while_rcx];
    (erewrite bind_ok by reflexivity); cbn [fst snd]; rewrite Hn.
  - exists O, s, st, l, (Ok tt). cbn [Z.of_nat Z.eqb]. split; [by rewrite set_space_id|].
    exists s. split; [constructor|]. rewrite Hn. split; [done|]. by split.
  - destruct (Z.eqb_spec (Z.of_nat (S n)) 0); [lia|].
    destruct (Hit ctx s st l Hs Hok Hst Hg) as [(s' & st' & l' & E & Hstep & Hok' & Hst' & Hg' & Hc)|(s' & e & a & E & Hf & Hm)].
    + lia.
    + rewrite (bind_ok _ _ _ _ _ E).
      destruct (IH (set_space s' ctx) s' st' l' eq_refl Hok' Hst' Hg') as (k & s1 & st1 & l1 & r & Ew & s0 & Hk & Hcx & Hok0 & Hr); [lia|].
      rewrite set_space_set_space in Ew. exists (S k), s1, st1, l1, r. split; [exact Ew|].
      exists s0. split; [by econstructor|]. split; [rewrite Hcx; lia|]. by split.
    + rewrite (bind_throw _ _ _ _ _ E). exists O, s', st, a, (Throw e). split; [done|].
      exists s. split; [constructor|]. split; [lia|]. split; [done|]. split; [lia|]. by split.
Qed.

Lemma while_repeats ctx s st message size a : iterates -> addressSpace ctx = Some s -> space_ok s ->
  state_ok st -> good st ->
  repeats step fault size ctx s st
    (call_local (Some ctx) st message a size (while_rcx (Z.to_nat (get_gpr Rcx st)) iteration)).
Proof using Type.
  intros Hit Hs Hok Hst Hg. pose proof (get_gpr_range Rcx st Hst) as Hc. unfold in_range in Hc.
  destruct (while_spec Hit (Z.to_nat (get_gpr Rcx st)) ctx s st a Hs Hok Hst Hg) as
    (k & s1 & st1 & l1 & r & E & s0 & Hk & Hcx & Hok0 & Hr); [lia|].
  exists k, s0, st1. unfold call_local. rewrite Hs, E. split; [done|]. split; [done|]. split; [done|].
  destruct r as [[]|e|]; [left|right|done].
  - destruct Hr as [Hz ->]. by split.
  - destruct Hr as (Hnz & Hf & Hm). by exists l1, e, s1.
Qed.
End While.

Lemma direction_bit st : negb (Z.land st.(rflags) flagDirection =? 0) = Z.testbit st.(rflags) 10.
Proof. unfold flagDirection. rewrite land_pow2_testbit by lia. apply negb_involutive. Qed.

Lemma state_ok_advance r d st : state_ok st -> state_ok (advance r d st).
Proof. intros. apply state_ok_set_gpr; [done|apply u64_range]. Qed.

Lemma advance_rcx st : state_ok st -> get_gpr Rcx st <> 0 ->
  get_gpr Rcx (advance Rcx (-1) st) = get_gpr Rcx st - 1.
Proof.
  intros Hst Hc. pose proof (get_gpr_range Rcx st Hst) as Hr. unfold advance, in_range in *.
  rewrite get_set_gpr_eq by apply Hst. apply u64_small. lia.
Qed.

Lemma advance_other r1 r2 d st : r1 <> r2 -> get_gpr r2 (advance r1 d st) = get_gpr r2 st.
Proof. intros. by apply get_set_gpr_ne. Qed.

Lemma in_machine_ok {A} (c : M Machine A) m l m' a : c m = (m', Ok a) ->
  in_machine c (m, l) = ((m', l), Ok a).
Proof. unfold in_machine. cbn. by intros ->. Qed.
Lemma in_machine_throw {A} (c : M Machine A) m l m' e : c m = (m', Throw e) ->
  in_machine c (m, l) = ((m', l), Throw e).
Proof. unfold in_machine. cbn. by intros ->. Qed.

Lemma movs_iterates decrement : iterates movs_step movs_fault (movs_iteration decrement)
  (fun st => Z.testbit st.(rflags) 10 = decrement).
Proof.
  intros ctx s st l Hs Hok Hst Hg Hc. unfold movs_iteration.
  erewrite bind_ok by reflexivity. cbn [fst snd]. erewrite bind_ok by reflexivity. cbn [fst snd].
  destruct (readU8_spec (get_gpr Rsi st) s) as (s1 & E1 & Hs1 & Hi1);
    [by apply Hok|by apply Hok|by apply get_gpr_range|].
  pose proof (space_ok_same _ _ Hok Hs1 Hi1) as Hok1.
  pose proof (word_at_range s (get_gpr Rsi st) 1) as Hv.
  destruct (word_at s (get_gpr Rsi st) 1) as [v|e|] eqn:Hw.
  2:{ right. exists s1, e, (get_gpr Rsi st). split; [|by split; [constructor|]].
      erewrite bind_throw; [reflexivity|]. erewrite in_machine_throw; [reflexivity|]. by erewrite on_space_run. }
  2:{ exfalso. eapply word_at_defined; [by apply Hok|exact Hw]. }
  erewrite bind_ok by (eapply in_machine_ok; by erewrite on_space_run).
  erewrite bind_ok by reflexivity. cbn [fst snd].
  specialize (Hv v Hok ltac:(lia) eq_refl).
  pose proof (writeBytes_spec s1 (get_gpr Rdi st) [v] (space_inv _ Hok1) (space_eager _ Hok1)
    (get_gpr_range Rdi st Hst)) as H. cbn [length] in H. rewrite (check_all_same s s1) in H by done.
  destruct (check_all s Permission_Write (get_gpr Rdi st) 1) as [[]|e|] eqn:Hch; [| |done].
  - destruct H as (s2 & E2 & Hw2). pose proof (write_effect_same _ _ _ _ _ Hs1 Hw2) as Hw0. left.
    exists s2, (advance Rcx (-1) (advance Rdi (direction st) (advance Rsi (direction st) st))), (get_gpr Rdi st).
    split; [|split; [by econstructor|]].
    + erewrite bind_ok by (eapply in_machine_ok; by erewrite on_space_run). rewrite set_space_set_space.
      unfold direction. rewrite Hg. by destruct decrement.
    + split; [eapply space_ok_written; [exact Hok1|by constructor|exact Hw2]|].
      split; [by do 3 apply state_ok_advance|]. split; [done|].
      rewrite advance_rcx by (by repeat (rewrite advance_other by done) || by do 2 apply state_ok_advance).
      by rewrite !advance_other.
  - destruct H as (s2 & E2 & Hs2 & Hi2). right. exists s2, e, (get_gpr Rdi st).
    split; [|split; [by econstructor|by eapply same_memory_trans]].
    erewrite bind_throw; [reflexivity|]. erewrite in_machine_throw; [reflexivity|]. by erewrite on_space_run.
Qed.

Section Stos.
Context (w value step : Z) (Hw : w = 1 \/ w = 2 \/ w = 4 \/ w = 8).

Lemma stored_element : take (Z.to_nat w) (le_bytes 8 value) = le_bytes (Z.to_nat w) value.
Proof using Hw. apply take_le_bytes. lia. Qed.

Lemma stos_iterates : iterates (stos_step w) (stos_fault w) (stos_iteration w value step)
  (fun st => le_bytes (Z.to_nat w) value = le_bytes (Z.to_nat w) (get_gpr Rax st) /\
     forall x, u64 (x + step) = u64 (x + direction st * w)).
Proof using Hw.
  intros ctx s st l Hs Hok Hst [Hval Hstep] Hc. unfold stos_iteration.
  erewrite bind_ok by reflexivity. cbn [fst snd]. erewrite bind_ok by reflexivity. cbn [fst snd].
  cbv zeta. rewrite stored_element, Hval.
  pose proof (writeBytes_spec s (get_gpr Rdi st) (le_bytes (Z.to_nat w) (get_gpr Rax st))
    (space_inv _ Hok) (space_eager _ Hok) (get_gpr_range Rdi st Hst)) as H. rewrite length_le_bytes in H.
  destruct (check_all s Permission_Write (get_gpr Rdi st) (Z.to_nat w)) as [[]|e|] eqn:Hch; [| |done].
  - destruct H as (s' & E & He). left.
    exists s', (advance Rcx (-1) (advance Rdi (direction st * w) st)), (get_gpr Rdi st).
    split; [|split; [by econstructor|]].
    + erewrite bind_ok by (eapply in_machine_ok; by erewrite on_space_run).
      erewrite bind_ok by reflexivity. unfold decrement_rcx, in_machine, modify_state. cbn [fst snd].
      do 4 f_equal. unfold advance. by rewrite Hstep.
    + split; [eapply space_ok_written; [exact Hok|apply le_bytes_ok|exact He]|].
      split; [by do 2 apply state_ok_advance|]. split.
      * rewrite !advance_other by done. by split.
      * rewrite advance_rcx by (by rewrite advance_other || by apply state_ok_advance). by rewrite advance_other.
  - destruct H as (s' & E & Hm & _). right. exists s', e, (get_gpr Rdi st).
    split; [|by split; [constructor|]].
    erewrite bind_throw; [reflexivity|]. erewrite in_machine_throw; [reflexivity|]. by erewrite on_space_run.
Qed.
End Stos.

(** The masked accumulator has the bytes of the element. *)
Lemma masked_element w x : w = 1 \/ w = 2 \/ w = 4 \/ w = 8 -> in_range 64 x ->
  le_bytes (Z.to_nat w) (Z.land x (if w =? 8 then UINT64_MAX else u64 (Z.shiftl 1 (w * 8)) - 1)) =
  le_bytes (Z.to_nat w) x.
Proof.
  intros Hw Hx. rewrite <- (le_bytes_wrap _ x). f_equal. rewrite Z2Nat.id by lia.
  rewrite wrap_land by lia. by destruct Hw as [-> | [-> | [-> | ->]]].
Qed.

Lemma stos_advance w x st : w = 1 \/ w = 2 \/ w = 4 \/ w = 8 ->
  u64 (x + (if Z.testbit (rflags st) 10 then u64 (0 - w) else w)) = u64 (x + direction st * w).
Proof.
  intros Hw. unfold direction. destruct (Z.testbit (rflags st) 10); [|f_equal; lia].
  unfold u64, wrap. rewrite Zplus_mod_idemp_r. f_equal. all: lia.
Qed.

(** ** Properties *)

(** C20: loads and stores of every width, PUSH and SIDT, through the direct view
    of a mapping or through the checked accessors: a load delivers the
    little-endian word of guest memory and changes nothing; a store changes
    exactly its bytes, and asks the block to stop repeating exactly when
    executable bytes changed; an inaccessible operand (or a missing address
    space) is recorded with its address and size and changes nothing, so that PUSH
    moves RSP only when the value was written.  The cached views stay coherent. *)
Theorem memory_access_correct a value : in_range 64 a -> in_range 64 value ->
  let load helper n := implements_load helper "generated guest load has no address space" a n in
  (load (fun c st => loadGuest8 c st a) 1 /\ load (fun c st => loadGuest16 c st a) 2 /\
   load (fun c st => loadGuest32 c st a) 4 /\ load (fun c st => loadGuest64 c st a) 8) /\
  implements_store (fun c st => storeGuest8 c st a value)
    "generated byte guest store has no address space" a [u8 value] id true /\
  implements_store (fun c st => storeGuest16 c st a value)
    "generated 16-bit guest store has no address space" a (le_bytes 2 value) id true /\
  implements_store (fun c st => storeGuest32 c st a value)
    "generated 32-bit guest store has no address space" a (le_bytes 4 value) id true /\
  implements_store (fun c st => storeGuest64 c st a value)
    "generated guest store has no address space" a (le_bytes 8 value) id true /\
  implements_store (fun c st => commitPush64 c st a value)
    "generated PUSH has no guest address space" a (le_bytes 8 value) (set_gpr Rsp a) false /\
  implements_store (fun c st => storeGuestIdtr c st a)
    "generated SIDT has no guest address space" a guestIdtr id false.
Proof.
  intros Ha Hv load. subst load. destruct (load_words_ok a Ha) as (H2 & H4 & H8).
  split_and!; [by apply loadGuest8_ok|exact H2|exact H4|exact H8|by apply storeGuest8_ok|
    by apply storeGuest16_ok|by apply storeGuest32_ok|by apply storeGuest64_ok|by apply commitPush64_ok|
    by apply storeGuestIdtr_ok].
Qed.

(** A writable mapping with its own bytes, reached through the direct views. *)
Definition directSpace : AddressSpace :=
  mkAddressSpace [mkMapping 4096 4096 3 3 (replicate (Z.to_nat 4096) 9) None 0 None [] "heap"]
    emptyLookup 0 ∅ ∅ 1.
Definition directContext : GuestExecutionContext :=
  mkContext (Some directSpace) None 0 0 0 None 1 0 true
    (mkDirectCache 0 0 None false) (mkDirectCache 0 0 None false) 0.

Lemma directSpace_ok : space_ok directSpace.
Proof.
  split.
  - split.
    + cbn. by rewrite Forall_nil.
    + cbn [as_mappings as_files directSpace]. rewrite !Forall_cons, Forall_nil. split; [|done].
      repeat split; cbn; unfold m_end, UINT64_MAX, zlength; cbn; rewrite ?length_replicate; try lia; try (left; done). 
    + apply emptyLookup_ok.
    + cbn. repeat constructor.
    + split; [intros f; cbn; by rewrite lookup_empty; intros []|].
      cbn [as_mappings directSpace]. rewrite !Forall_cons, Forall_nil. split_and!; try done; cbn; intros f [=].
  - repeat constructor.
  - intros a b. unfold byte_at. cbn [as_mappings directSpace mapping_at].
    destruct (contains _ a); [|done]. cbn [mbind option_bind]. unfold mapping_byte. cbn [m_fileBytes m_bytes].
    intros [-> _]%lookup_replicate. unfold is_byte. lia.
Qed.

Lemma memory_access_correct_witness : space_ok directSpace /\ direct_ok directContext /\
  exists c', loadGuest8 (Some directContext) initialState 5000 =
      Ok (Some (set_loadedValue 9 c'), initialState, true) /\ touched directContext directSpace c'.
Proof.
  split; [apply directSpace_ok|]. split; [split; exact I|].
  pose proof (memory_access_correct 5000 7 ltac:(unfold in_range; lia) ltac:(unfold in_range; lia)) as [[H _] _].
  destruct (H initialState) as [_ Hr].
  exact (Hr directContext directSpace_ok (conj I I)).
Defined.

(** C21: REP MOVSB and REP STOS terminate for every count (RCX iterations are
    enough, so a call never runs out of fuel) and perform their elements one by
    one, in the direction of DF and at the width of the instruction: after [k]
    elements either RCX is exhausted and the state is returned, or the next
    element faults, the fault names its address, memory and registers are those
    of the [k] elements done, and the instruction can be restarted.  An invalid
    element width is rejected before anything is stored. *)
Theorem string_instructions_terminate ctx s st w :
  addressSpace ctx = Some s -> space_ok s -> state_ok st ->
  repeats movs_step movs_fault 1 ctx s st (repeatMoveByte (Some ctx) st) /\
  (if bool_decide (w = 1 \/ w = 2 \/ w = 4 \/ w = 8)
   then repeats (stos_step w) (stos_fault w) w ctx s st (repeatStore (Some ctx) st w)
   else repeatStore (Some ctx) st w =
     Ok (Some (set_fault (runtime_error "generated REP STOS has an invalid element width")
                 (Some (get_gpr Rdi st, w)) ctx), st, false)).
Proof.
  intros Hs Hok Hst. split.
  - unfold repeatMoveByte. cbv zeta. rewrite direction_bit.
    by apply (while_repeats movs_step movs_fault _ _ ctx s st _ 1 _ (movs_iterates _)).
  - case_bool_decide as Hw.
    + unfold repeatStore. cbv zeta. rewrite direction_bit.
      assert (negb (w =? 1) && negb (w =? 2) && negb (w =? 4) && negb (w =? 8) = false) as ->
        by (destruct Hw as [-> | [-> | [-> | ->]]]; done).
      apply (while_repeats (stos_step w) (stos_fault w) _ _ ctx s st _ w _ (stos_iterates w _ _ Hw)); try done.
      split; [by apply masked_element, get_gpr_range|]. intros x. by apply stos_advance.
    + unfold repeatStore, call_local. rewrite Hs. cbv zeta.
      assert (negb (w =? 1) && negb (w =? 2) && negb (w =? 4) && negb (w =? 8) = true) as ->; [|done].
      rewrite !andb_true_iff, !negb_true_iff, !Z.eqb_neq. lia.
Qed.

Lemma string_instructions_terminate_witness : space_ok directSpace /\
  let st := set_gpr Rcx 3 (set_gpr Rdi 8191 (set_gpr Rax 5 initialState)) in
  exists k s1 st1, nsteps (stos_step 1) k (directSpace, st) (s1, st1) /\
    get_gpr Rcx st1 = 3 - Z.of_nat k.
Proof.
  split; [apply directSpace_ok|]. intros st.
  assert (state_ok st) as Hst.
  { unfold st. repeat apply state_ok_set_gpr; try (unfold in_range; lia).
    split; [split; [reflexivity|by apply Forall_replicate]|done|done]. }
  pose proof (string_instructions_terminate directContext directSpace st 1 eq_refl directSpace_ok Hst) as [_ H].
  rewrite bool_decide_eq_true_2 in H by (left; reflexivity).
  destruct H as (k & s1 & st1 & Hk & Hc & _). exists k, s1, st1. split; [exact Hk|exact Hc].
Defined.

(** C37: when the helper grants a loop the span of its direct view, every byte
    the loop will read without calling back, [address + k * step + offset] for
    each remaining iteration [k] and offset up to the maximum, lies inside the
    viewed mapping, is readable, and is the guest byte at that address; the
    induction variable reaches its limit exactly. *)
Theorem direct_span_safe ctx s a induction step limit maximumOffset i off :
  addressSpace ctx = Some s -> space_ok s -> direct_ok ctx ->
  in_range 64 a -> in_range 64 induction -> in_range 64 step -> in_range 64 limit ->
  in_range 64 maximumOffset ->
  validateDirectGuestReadSpan (Some ctx) a induction step limit maximumOffset = Some (i, off) ->
  (exists n, 0 < n /\ limit = induction + n * step) /\
  exists m, s.(as_mappings) !! i = Some m /\
  forall k o, 0 <= k -> induction + k * step < limit -> 0 <= o <= maximumOffset ->
    exists b, m.(m_bytes) !! Z.to_nat (off + k * step + o) = Some b /\
      a + k * step + o < 2 ^ 64 /\ fetch s (a + k * step + o) = Ok b.
Proof.
  intros Hs Hok Hd Ha Hi Hst Hl Hm. unfold validateDirectGuestReadSpan, in_range in *.
  unfold direct_ok in Hd. rewrite Hs in Hd. destruct Hd as [Hv _]. unfold view_ok in Hv.
  destruct (Z.eqb_spec step 0); [done|]. destruct (Z.leb_spec limit induction); [done|]. cbn [orb].
  destruct (d_bytes (directRead ctx)) as [j|]; [|done].
  destruct Hv as (m & Hmi & -> & -> & Hdm).
  destruct (Z.ltb_spec a (m_base m)); [done|]. destruct (Z.leb_spec (m_size m) (a - m_base m)); [done|]. cbn [orb].
  destruct (Z.ltb_spec (limit - induction) step); [done|].
  destruct (Z.eqb_spec ((limit - induction) mod step) 0) as [Hmod|]; [|done]. cbn [orb negb].
  destruct (Z.ltb_spec (UINT64_MAX - (limit - induction - step)) a); [done|].
  destruct (Z.ltb_spec (UINT64_MAX - maximumOffset) (a + (limit - induction - step))); [done|].
  set (last := a + (limit - induction - step) + maximumOffset) in *.
  destruct (Z.ltb_spec last (m_base m)); [done|]. destruct (Z.leb_spec (m_size m) (last - m_base m)); [done|].
  cbn [orb]. intros [= <- <-].
  pose proof (Z.div_mod (limit - induction) step ltac:(lia)) as Hdiv. rewrite Hmod in Hdiv.
  set (q := (limit - induction) / step) in *.
  split. { exists q. split; nia. }
  exists m. split; [done|]. intros k o Hk Hlt Ho.
  assert (k < q) by nia. assert (k * step <= limit - induction - step) as Hks by nia.
  assert (contains m (a + k * step + o) = true) as Hc by (rewrite contains_spec; unfold m_end; nia).
  assert (access s Permission_Read (a + k * step + o) = Ok m) as Hacc.
  { rewrite contains_spec in Hc. unfold m_end in Hc. eapply view_access; [apply Hok|done|apply Hdm|lia|lia]. }
  pose proof (access_backed _ _ _ _ (space_inv _ Hok) Hacc ltac:(done)) as Hb. unfold backed in Hb.
  destruct Hdm as (Hf & Hr & _). rewrite Hf in Hb. rewrite contains_spec in Hc. unfold m_end in Hc.
  destruct (lookup_lt_is_Some_2 m.(m_bytes) (Z.to_nat (a - m_base m + k * step + o))) as [b Hb'].
  { unfold zlength in Hb. nia. }
  exists b. split; [done|]. split; [unfold UINT64_MAX in *; nia|].
  unfold fetch. rewrite Hacc. cbn [outcome_bind]. unfold sparse_hole, mapping_byte. rewrite Hr, lookup_nil, Hf.
  replace (a + k * step + o - m_base m) with (a - m_base m + k * step + o) by lia. by rewrite Hb'.
Qed.

Lemma direct_span_safe_witness :
  let ctx := set_directRead (mkDirectCache 4096 4096 (Some O) true) directContext in
  direct_ok ctx /\ validateDirectGuestReadSpan (Some ctx) 5000 0 8 32 7 = Some (0%nat, 904) /\
  exists b, fetch directSpace 5031 = Ok b.
Proof.
  intros ctx. assert (direct_ok ctx) as Hd.
  { split; [|exact I]. unfold view_ok. cbn [ctx d_bytes directRead set_directRead].
    exists (mkMapping 4096 4096 3 3 (replicate (Z.to_nat 4096) 9) None 0 None [] "heap").
    repeat split; reflexivity. }
  split; [exact Hd|]. split; [reflexivity|].
  destruct (direct_span_safe ctx directSpace 5000 0 8 32 7 0 904 eq_refl directSpace_ok Hd
    ltac:(unfold in_range; lia) ltac:(unfold in_range; lia) ltac:(unfold in_range; lia)
    ltac:(unfold in_range; lia) ltac:(unfold in_range; lia) eq_refl) as (_ & m & _ & H).
  destruct (H 3 7 ltac:(lia) ltac:(lia) ltac:(lia)) as (b & _ & _ & Hb). exists b. exact Hb.
Defined.
