(* ===== verification/RuntimeArith.v ===== *)
(** Divisions, bit scans, RDTSC and CPUID: the register helpers of
    [src/dbt/RuntimeHelpers.cpp].

    A division reports a divide error through the context, which may be null, and
    needs no address space; the guest state pointer is never null. *)
From S2P Require Import Prelude X86State FlagSpec FlagHelpers AddressSpace AddressSpaceInv AddressSpaceAccess ExecutionContext.

(** The shape of a helper that only needs the guest state: the exception is
    stored without an access. *)
Definition call_state (context : option GuestExecutionContext) (state : X86State)
    (result : outcome X86State) : outcome CallResult :=
  match result with
  | Ok state' => Ok (context, state', true)
  | Throw e => Ok (option_map (set_fault e None) context, state, false)
  | Undefined => Undefined
  end.

(** ** Divisions *)

Definition divideUnsignedByte (context : option GuestExecutionContext) (state : X86State)
    (divisorValue : Z) : outcome CallResult :=
  call_state context state (
    let divisor := u8 divisorValue in
    guard (divisor =? 0) (runtime_error "x86 divide error: byte divisor is zero") (
    let dividend := u16 (get_gpr Rax state) in
    let quotient := u16 (dividend / divisor) in
    guard (255 <? quotient) (runtime_error "x86 divide error: byte quotient overflows AL") (
    let remainder := u8 (dividend mod divisor) in
    let result := u16 (Z.lor quotient (Z.shiftl remainder 8)) in
    Ok (set_gpr Rax (Z.lor (Z.land (get_gpr Rax state) (not64 0xFFFF)) result) state)))).

Definition divideUnsignedDword (context : option GuestExecutionContext) (state : X86State)
    (divisorValue : Z) : outcome CallResult :=
  call_state context state (
    let divisor := u32 divisorValue in
    guard (divisor =? 0) (runtime_error "x86 divide error: dword divisor is zero") (
    let dividend := Z.lor (u64 (Z.shiftl (u32 (get_gpr Rdx state)) 32)) (u32 (get_gpr Rax state)) in
    let quotient := dividend / divisor in
    guard (UINT32_MAX <? quotient) (runtime_error "x86 divide error: dword quotient overflows EAX") (
    let remainder := dividend mod divisor in
    Ok (set_gpr Rdx (u32 remainder) (set_gpr Rax (u32 quotient) state))))).

Definition INT32_MIN : Z := - 2 ^ 31.
Definition INT32_MAX : Z := 2 ^ 31 - 1.
Definition INT64_MIN : Z := - 2 ^ 63.

Definition divideSignedDword (context : option GuestExecutionContext) (state : X86State)
    (divisorValue : Z) : outcome CallResult :=
  call_state context state (
    let divisor := signed 32 (u32 divisorValue) in
    guard (divisor =? 0) (runtime_error "x86 divide error: signed dword divisor is zero") (
    let dividendBits := Z.lor (u64 (Z.shiftl (u32 (get_gpr Rdx state)) 32)) (u32 (get_gpr Rax state)) in
    let dividend := signed 64 dividendBits in
    let overflow := runtime_error "x86 divide error: signed dword quotient overflows EAX" in
    guard ((dividend =? INT64_MIN) && (divisor =? -1)) overflow (
    let quotient := Z.quot dividend divisor in
    guard ((quotient <? INT32_MIN) || (INT32_MAX <? quotient)) overflow (
    let remainder := Z.rem dividend divisor in
    Ok (set_gpr Rdx (u32 remainder) (set_gpr Rax (u32 quotient) state)))))).

Definition divideUnsignedQword (context : option GuestExecutionContext) (state : X86State)
    (divisor : Z) : outcome CallResult :=
  call_state context state (
    guard (divisor =? 0) (runtime_error "x86 divide error: qword divisor is zero") (
    let dividend := Z.lor (wrap 128 (Z.shiftl (get_gpr Rdx state) 64)) (get_gpr Rax state) in
    let quotient := dividend / divisor in
    guard (UINT64_MAX <? quotient) (runtime_error "x86 divide error: qword quotient overflows RAX") (
    let remainder := dividend mod divisor in
    Ok (set_gpr Rdx (u64 remainder) (set_gpr Rax (u64 quotient) state))))).

(** ** Bit scans *)

(** [std::countr_zero] and [std::bit_width] of a nonzero value. *)
Fixpoint countr_zero_pos (p : positive) : Z :=
  match p with
  | xO p' => 1 + countr_zero_pos p'
  | _ => 0
  end.
Definition countr_zero (value : Z) : Z := match value with Zpos p => countr_zero_pos p | _ => 64 end.
Definition bit_width (value : Z) : Z := if value =? 0 then 0 else Z.log2 value + 1.

Definition bitScan (index : Z -> Z) (state : X86State) (destinationIndex sourceIndex operandWidth : Z) : X86State :=
  if (16 <=? destinationIndex) || (16 <=? sourceIndex) ||
     (negb (operandWidth =? 32) && negb (operandWidth =? 64)) then state
  else
    let sourceValue := get_gpr (register_of sourceIndex) state in
    let value := if operandWidth =? 32 then u32 sourceValue else sourceValue in
    let state := set_rflags (Z.lor (Z.land state.(rflags) (not64 flagZero)) flagReservedOne) state in
    if value =? 0 then set_rflags (Z.lor state.(rflags) flagZero) state
    else copy_to_register (register_of destinationIndex) 8 (index value) state.

Definition bitScanForward : X86State -> Z -> Z -> Z -> X86State := bitScan countr_zero.
Definition bitScanReverse : X86State -> Z -> Z -> Z -> X86State := bitScan (fun value => bit_width value - 1).

(** ** RDTSC and CPUID *)

Definition readTimestampCounter (context : option GuestExecutionContext) (state : X86State) : outcome CallResult :=
  match context with
  | None => Ok (None, state, false)
  | Some c =>
      call_state context state (
        match c.(timestampCounterReader) with
        | None => Throw (runtime_error "generated RDTSC has no timestamp-counter source")
        | Some value =>
            Ok (set_gpr Rdx (u32 (Z.shiftr value 32)) (set_gpr Rax (u32 value) state))
        end)
  end.

Definition bits (l : list Z) : Z := fold_left (fun acc b => Z.lor acc (Z.shiftl 1 b)) l 0.

(** EAX, EBX, ECX and EDX for a leaf and subleaf. *)
Definition cpuid_leaf (leaf subleaf : Z) : Z * Z * Z * Z :=
  if leaf =? 0 then (7, 0x756E6547, 0x6C65746E, 0x49656E69)
  else if leaf =? 1 then
    (0x106A5, 0x800, bits [0; 9; 19; 20],
     bits [0; 4; 5; 6; 8; 9; 11; 12; 13; 14; 15; 16; 17; 19; 23; 24; 25; 26])
  else if (leaf =? 7) && (subleaf =? 0) then (0, 0, 0, 0)
  else if leaf =? 0x80000000 then (0x80000008, 0, 0, 0)
  else if leaf =? 0x80000001 then (0, 0, 0, bits [11; 20; 29])
  else (0, 0, 0, 0).

Definition cpuidGuest (state : X86State) : X86State :=
  let leaf := u32 (get_gpr Rax state) in
  let subleaf := u32 (get_gpr Rcx state) in
  let '(eax, ebx, ecx, edx) := cpuid_leaf leaf subleaf in
  set_gpr Rdx edx (set_gpr Rcx ecx (set_gpr Rbx ebx (set_gpr Rax eax state))).

(** ** Lemmas *)

(** The double-width dividend of a register pair. *)
Lemma join_words w hi lo : 0 <= w -> in_range w hi -> in_range w lo ->
  Z.lor (wrap (2 * w) (Z.shiftl hi w)) lo = hi * 2 ^ w + lo.
Proof.
  intros Hw Hh Hl. rewrite Z.shiftl_mul_pow2 by done.
  assert (in_range (2 * w) (hi * 2 ^ w)) as Hr.
  { unfold in_range in *. replace (2 * w) with (w + w) by lia. rewrite Z.pow_add_r by done. nia. }
  rewrite (wrap_small _ _ Hr). apply (lor_disjoint w); [done| |done].
  apply Z.mod_mul. pose proof (Z.pow_pos_nonneg 2 w). lia.
Qed.

Lemma quotient_remainder D d : 0 <= D -> 0 < d -> D = D / d * d + D mod d /\ 0 <= D mod d < d.
Proof. intros. pose proof (Z.div_mod D d). pose proof (Z.mod_pos_bound D d). lia. Qed.

Lemma countr_zero_spec p : Z.testbit (Zpos p) (countr_zero_pos p) = true /\
  (forall j, 0 <= j < countr_zero_pos p -> Z.testbit (Zpos p) j = false) /\ 0 <= countr_zero_pos p.
Proof.
  induction p as [p IH|p IH|]; cbn [countr_zero_pos]; [split_and!; [done|lia|lia]| |split_and!; [done|lia|lia]].
  destruct IH as (H1 & H2 & H3). rewrite (Pos2Z.inj_xO p). split_and!; [| |lia].
  - rewrite Z.add_1_l, Z.double_bits_succ. exact H1.
  - intros j Hj. destruct (decide (j = 0)) as [->|]; [by rewrite Z.testbit_even_0|].
    replace j with (Z.succ (j - 1)) by lia. rewrite Z.double_bits_succ. apply H2. lia.
Qed.

(** ** Specifications *)

Definition divide_error (context : option GuestExecutionContext) (state : X86State) (what : string) :
    outcome CallResult :=
  Ok (option_map (set_fault (runtime_error what) None) context, state, false).

(** Unsigned division of [D] by [d] with a [w]-bit quotient: a zero divisor or a
    quotient that does not fit is a divide error and changes no register,
    otherwise quotient and remainder are committed. *)
Definition divides (w D d : Z) (zero overflow : string) (commit : Z -> Z -> X86State)
    (context : option GuestExecutionContext) (state : X86State) (result : outcome CallResult) : Prop :=
  if d =? 0 then result = divide_error context state zero
  else if 2 ^ w <=? D / d then result = divide_error context state overflow
  else exists q r, D = q * d + r /\ 0 <= r < d /\ 0 <= q < 2 ^ w /\
    result = Ok (context, commit q r, true).

(** Signed division truncates towards zero: the remainder has the sign of the
    dividend. *)
Definition divides_signed (D d : Z) (zero overflow : string) (commit : Z -> Z -> X86State)
    (context : option GuestExecutionContext) (state : X86State) (result : outcome CallResult) : Prop :=
  if d =? 0 then result = divide_error context state zero
  else exists q r, D = q * d + r /\ Z.abs r < Z.abs d /\ 0 <= r * D /\
    result = (if (q <? - 2 ^ 31) || (2 ^ 31 <=? q) then divide_error context state overflow
              else Ok (context, commit (wrap 32 q) (wrap 32 r), true)).

Definition commit_pair (state : X86State) (q r : Z) : X86State := set_gpr Rdx r (set_gpr Rax q state).

Lemma unsigned_divides w D d zero overflow commit context state result :
  0 <= D -> 0 <= d -> 0 <= w ->
  result = call_state context state (
    guard (d =? 0) (runtime_error zero) (
    guard (2 ^ w - 1 <? D / d) (runtime_error overflow) (Ok (commit (D / d) (D mod d))))) ->
  divides w D d zero overflow commit context state result.
Proof.
  intros HD Hd Hw ->. unfold divides, guard. destruct (Z.eqb_spec d 0); [done|].
  replace (2 ^ w - 1 <? D / d) with (2 ^ w <=? D / d)
    by (destruct (Z.leb_spec (2 ^ w) (D / d)), (Z.ltb_spec (2 ^ w - 1) (D / d)); lia).
  destruct (Z.leb_spec (2 ^ w) (D / d)); [done|].
  destruct (quotient_remainder D d) as [E Hr]; [lia..|].
  exists (D / d), (D mod d). split_and!; try done; try lia. apply Z.div_pos; lia.
Qed.

Lemma guard_ext {A} c e (k k' : outcome A) : (c = false -> k = k') -> guard c e k = guard c e k'.
Proof. destruct c; cbn; [done|]. auto. Qed.

Section Divide.
Context (context : option GuestExecutionContext) (st : X86State) (d : Z).
Context (Hst : state_ok st) (Hd : in_range 64 d).

Lemma divideUnsignedByte_ok :
  divides 8 (wrap 16 (get_gpr Rax st)) (wrap 8 d) "x86 divide error: byte divisor is zero"
    "x86 divide error: byte quotient overflows AL"
    (fun q r => set_gpr Rax (get_gpr Rax st - wrap 16 (get_gpr Rax st) + (q + r * 256)) st)
    context st (divideUnsignedByte context st d).
Proof using Hst.
  pose proof (wrap_range 16 (get_gpr Rax st) ltac:(lia)) as HD. pose proof (wrap_range 8 d ltac:(lia)) as Hv.
  pose proof (get_gpr_range Rax st Hst) as Hrax.
  unfold in_range in HD, Hv. apply unsigned_divides; [lia..|].
  unfold divideUnsignedByte. f_equal. change u8 with (wrap 8). change u16 with (wrap 16). cbv zeta.
  apply guard_ext. intros Hz%Z.eqb_neq.
  set (D := wrap 16 _) in *. set (v := wrap 8 d) in *.
  assert (0 <= D / v < 2 ^ 16) as Hq by (split; [apply Z.div_pos; lia|apply Z.div_lt_upper_bound; nia]).
  rewrite (wrap_small 16 (D / v)) by done. apply guard_ext. intros Ho%Z.ltb_ge.
  pose proof (Z.mod_pos_bound D v ltac:(lia)) as Hr.
  rewrite (wrap_small 8 (D mod v)) by (unfold in_range; lia). do 2 f_equal.
  rewrite lor_add_low, Z.shiftl_mul_pow2 by lia. change (2 ^ 8) with 256 in *.
  rewrite (wrap_small 16) by (unfold in_range; lia). change 0xFFFF with (Z.ones 16).
  apply merge_low; [lia|done|unfold in_range; lia].
Qed.

Lemma divideUnsignedDword_ok :
  divides 32 (wrap 32 (get_gpr Rdx st) * 2 ^ 32 + wrap 32 (get_gpr Rax st)) (wrap 32 d)
    "x86 divide error: dword divisor is zero" "x86 divide error: dword quotient overflows EAX"
    (commit_pair st) context st (divideUnsignedDword context st d).
Proof using Type.
  pose proof (wrap_range 32 (get_gpr Rax st) ltac:(lia)) as Hlo. pose proof (wrap_range 32 d ltac:(lia)) as Hv.
  pose proof (wrap_range 32 (get_gpr Rdx st) ltac:(lia)) as Hhi.
  unfold in_range in Hlo, Hhi, Hv. apply unsigned_divides; [nia|lia|lia|].
  unfold divideUnsignedDword. f_equal. change u32 with (wrap 32). change u64 with (wrap (2 * 32)). cbv zeta.
  rewrite join_words by (done || lia). apply guard_ext. intros Hz%Z.eqb_neq. apply guard_ext. intros Ho%Z.ltb_ge.
  set (D := _ * 2 ^ 32 + _) in *. set (v := wrap 32 d) in *.
  pose proof (Z.mod_pos_bound D v ltac:(lia)) as Hr. pose proof (Z.div_pos D v ltac:(lia) ltac:(lia)).
  by rewrite !wrap_small by (unfold in_range; lia).
Qed.

Lemma divideUnsignedQword_ok :
  divides 64 (get_gpr Rdx st * 2 ^ 64 + get_gpr Rax st) d
    "x86 divide error: qword divisor is zero" "x86 divide error: qword quotient overflows RAX"
    (commit_pair st) context st (divideUnsignedQword context st d).
Proof using Hst Hd.
  pose proof (get_gpr_range Rax st Hst) as Hlo. pose proof (get_gpr_range Rdx st Hst) as Hhi.
  unfold in_range in Hlo, Hhi, Hd. apply unsigned_divides; [nia|lia|lia|].
  unfold divideUnsignedQword. f_equal. change 128 with (2 * 64). change u64 with (wrap 64). cbv zeta.
  rewrite join_words by (done || lia). apply guard_ext. intros Hz%Z.eqb_neq. apply guard_ext. intros Ho%Z.ltb_ge.
  set (D := _ * 2 ^ 64 + _) in *.
  pose proof (Z.mod_pos_bound D d ltac:(lia)) as Hr. pose proof (Z.div_pos D d ltac:(lia) ltac:(lia)).
  by rewrite !wrap_small by (unfold in_range; lia).
Qed.

Lemma divideSignedDword_ok :
  divides_signed (signed 64 (wrap 32 (get_gpr Rdx st) * 2 ^ 32 + wrap 32 (get_gpr Rax st))) (signed 32 (wrap 32 d))
    "x86 divide error: signed dword divisor is zero" "x86 divide error: signed dword quotient overflows EAX"
    (commit_pair st) context st (divideSignedDword context st d).
Proof using Type.
  pose proof (wrap_range 32 (get_gpr Rax st) ltac:(lia)) as Hlo.
  pose proof (wrap_range 32 (get_gpr Rdx st) ltac:(lia)) as Hhi.
  unfold divides_signed, divideSignedDword. cbv zeta. change u32 with (wrap 32). change u64 with (wrap (2 * 32)).
  rewrite join_words by (done || lia). set (D := signed 64 _). set (v := signed 32 (wrap 32 d)).
  unfold guard. destruct (Z.eqb_spec v 0) as [|Hv]; [done|].
  exists (Z.quot D v), (Z.rem D v). split; [pose proof (Z.quot_rem D v Hv); lia|].
  split; [by apply Z.rem_bound_abs|]. split; [by apply Z.rem_sign_mul|].
  destruct ((D =? INT64_MIN) && (v =? -1)) eqn:Hm.
  - apply andb_prop in Hm as [->%Z.eqb_eq ->%Z.eqb_eq]. done.
  - replace ((Z.quot D v <? INT32_MIN) || (INT32_MAX <? Z.quot D v))
      with ((Z.quot D v <? - 2 ^ 31) || (2 ^ 31 <=? Z.quot D v)); [by destruct (_ || _)|].
    f_equal. unfold INT32_MAX.
    destruct (Z.leb_spec (2 ^ 31) (Z.quot D v)), (Z.ltb_spec (2 ^ 31 - 1) (Z.quot D v)); lia.
Qed.
End Divide.

(** ** Properties *)

(** C38: DIV and IDIV: a zero divisor, or a quotient that does not fit its
    register, is a divide error that leaves every register unchanged; otherwise
    quotient and remainder satisfy the division equation (the remainder bounded by
    the divisor, with the sign of the dividend for IDIV) and only AX, or EAX and
    EDX zero-extended, or RAX and RDX, receive them. *)
Theorem divisions_correct context st d : state_ok st -> in_range 64 d ->
  divides 8 (wrap 16 (get_gpr Rax st)) (wrap 8 d) "x86 divide error: byte divisor is zero"
    "x86 divide error: byte quotient overflows AL"
    (fun q r => set_gpr Rax (get_gpr Rax st - wrap 16 (get_gpr Rax st) + (q + r * 256)) st)
    context st (divideUnsignedByte context st d) /\
  divides 32 (wrap 32 (get_gpr Rdx st) * 2 ^ 32 + wrap 32 (get_gpr Rax st)) (wrap 32 d)
    "x86 divide error: dword divisor is zero" "x86 divide error: dword quotient overflows EAX"
    (commit_pair st) context st (divideUnsignedDword context st d) /\
  divides 64 (get_gpr Rdx st * 2 ^ 64 + get_gpr Rax st) d
    "x86 divide error: qword divisor is zero" "x86 divide error: qword quotient overflows RAX"
    (commit_pair st) context st (divideUnsignedQword context st d) /\
  divides_signed (signed 64 (wrap 32 (get_gpr Rdx st) * 2 ^ 32 + wrap 32 (get_gpr Rax st))) (signed 32 (wrap 32 d))
    "x86 divide error: signed dword divisor is zero" "x86 divide error: signed dword quotient overflows EAX"
    (commit_pair st) context st (divideSignedDword context st d).
Proof.
  intros Hst Hd. split_and!; [by apply divideUnsignedByte_ok|by apply divideUnsignedDword_ok
    |by apply divideUnsignedQword_ok|by apply divideSignedDword_ok].
Qed.

Lemma divisions_correct_witness :
  let st := set_gpr Rdx 1 (set_gpr Rax 7 initialState) in
  state_ok st /\ exists q r, 2 ^ 64 + 7 = q * 3 + r /\
    divideUnsignedQword None st 3 = Ok (None, set_gpr Rdx r (set_gpr Rax q st), true).
Proof.
  intros st. assert (state_ok st) as Hst.
  { unfold st. repeat apply state_ok_set_gpr; try (unfold in_range; lia).
    split; [split; [reflexivity|by apply Forall_replicate]|done|done]. }
  split; [exact Hst|].
  pose proof (divisions_correct None st 3 Hst ltac:(unfold in_range; lia)) as (_ & _ & H & _).
  unfold divides in H. replace (3 =? 0) with false in H by reflexivity.
  replace (2 ^ 64 <=? (get_gpr Rdx st * 2 ^ 64 + get_gpr Rax st) / 3) with false in H by reflexivity.
  destruct H as (q & r & E & _ & _ & Hr). exists q, r. split; [exact E|exact Hr].
Defined.

(** The scan result: ZF reports a zero source, which keeps the destination; an
    index is that of a set bit beyond which, in the direction of the scan, every
    bit is clear. *)
Definition scans (forward : bool) (st : X86State) (destinationIndex sourceIndex operandWidth : Z)
    (result : X86State) : Prop :=
  let flags zf := flags_result flagZero (mkFlags false false false zf false false) st in
  let v := wrap operandWidth (get_gpr (register_of sourceIndex) st) in
  if v =? 0 then result = flags true
  else exists k, 0 <= k < operandWidth /\ Z.testbit v k = true /\
    (forall j, (if forward then 0 <= j < k else k < j) -> Z.testbit v j = false) /\
    result = set_gpr (register_of destinationIndex) k (flags false).

Lemma scan_flags st zf : flags_result flagZero (mkFlags false false false zf false false) st =
  let st' := set_rflags (Z.lor (Z.land st.(rflags) (not64 flagZero)) flagReservedOne) st in
  if zf then set_rflags (Z.lor st'.(rflags) flagZero) st' else st'.
Proof. unfold flags_result. rewrite <- commit_chain. by destruct zf. Qed.

Lemma bit_scan_ok forward st destinationIndex sourceIndex w :
  state_ok st -> 0 <= destinationIndex < 16 -> 0 <= sourceIndex < 16 -> (w = 32 \/ w = 64) ->
  scans forward st destinationIndex sourceIndex w
    ((if forward then bitScanForward else bitScanReverse) st destinationIndex sourceIndex w).
Proof.
  intros Hst Hd Hs Hw. unfold scans. cbv zeta. rewrite !scan_flags. cbv zeta iota.
  set (x := get_gpr (register_of sourceIndex) st).
  assert (in_range 64 x) as Hx by by apply get_gpr_range.
  assert ((if w =? 32 then u32 x else x) = wrap w x) as Hv
    by (destruct Hw as [-> | ->]; cbn [Z.eqb Pos.eqb]; [done|by rewrite wrap_small]).
  pose proof (wrap_range w x ltac:(lia)) as Hr.
  assert (forall index, bitScan index st destinationIndex sourceIndex w =
    let state := set_rflags (Z.lor (Z.land st.(rflags) (not64 flagZero)) flagReservedOne) st in
    if wrap w x =? 0 then set_rflags (Z.lor state.(rflags) flagZero) state
    else copy_to_register (register_of destinationIndex) 8 (index (wrap w x)) state) as Hscan.
  { intros index. unfold bitScan. fold x. rewrite Hv.
    destruct (Z.leb_spec 16 destinationIndex); [lia|]. destruct (Z.leb_spec 16 sourceIndex); [lia|].
    by destruct Hw as [-> | ->]. }
  assert (forall k, 0 <= k < 64 -> copy_to_register (register_of destinationIndex) 8 k
    (set_rflags (Z.lor (Z.land st.(rflags) (not64 flagZero)) flagReservedOne) st) =
    set_gpr (register_of destinationIndex) k
      (set_rflags (Z.lor (Z.land st.(rflags) (not64 flagZero)) flagReservedOne) st)) as Hcopy.
  { intros k Hk. unfold copy_to_register. f_equal. change (8 * 8) with 64.
    rewrite merge_low; [|lia|apply (get_gpr_range (register_of destinationIndex) st Hst)|apply wrap_range; lia].
    change (get_gpr (register_of destinationIndex) (set_rflags _ st)) with (get_gpr (register_of destinationIndex) st).
    pose proof (get_gpr_range (register_of destinationIndex) st Hst).
    rewrite !wrap_small by (done || unfold in_range; lia). lia. }
  assert (2 ^ w <= 2 ^ 64) as Hpw by (apply Z.pow_le_mono_r; lia).
  destruct forward; unfold bitScanForward, bitScanReverse; rewrite Hscan; cbv zeta;
    destruct (Z.eqb_spec (wrap w x) 0) as [|Hnz]; try done; unfold in_range in Hr.
  - destruct (wrap w x) as [|p|p] eqn:Ep; [done| |lia]. cbn [countr_zero].
    destruct (countr_zero_spec p) as (H1 & H2 & H3).
    assert (countr_zero_pos p < w) as Hlt.
    { destruct (Z.ltb_spec (countr_zero_pos p) w) as [|Hge]; [done|exfalso].
      rewrite (testbit_above w) in H1 by (unfold in_range; lia). done. }
    exists (countr_zero_pos p). split_and!; [lia|lia|done|intros j Hj; apply H2; lia|]. rewrite Hcopy by lia. done.
  - assert (0 <= Z.log2 (wrap w x) < w) as Hl by (split; [apply Z.log2_nonneg|apply Z.log2_lt_pow2; lia]).
    exists (Z.log2 (wrap w x)). split_and!; [lia|lia|apply Z.bit_log2; lia| |].
    + intros j Hj. apply Z.bits_above_log2; lia.
    + unfold bit_width. rewrite (proj2 (Z.eqb_neq (wrap w x) 0)) by done.
      replace (Z.log2 (wrap w x) + 1 - 1) with (Z.log2 (wrap w x)) by lia. by rewrite Hcopy by lia.
Qed.

Lemma bit_scan_invalid forward st destinationIndex sourceIndex w :
  16 <= destinationIndex \/ 16 <= sourceIndex \/ (w <> 32 /\ w <> 64) ->
  (if forward : bool then bitScanForward else bitScanReverse) st destinationIndex sourceIndex w = st.
Proof.
  intros H. assert ((16 <=? destinationIndex) || (16 <=? sourceIndex) || (negb (w =? 32) && negb (w =? 64)) = true)
    as Hb by (rewrite !orb_true_iff, andb_true_iff, !negb_true_iff, !Z.leb_le, !Z.eqb_neq; lia).
  destruct forward; unfold bitScanForward, bitScanReverse, bitScan; by rewrite Hb.
Qed.

(** Feature bits of leaf 1 that a dispatcher must not see: PCLMULQDQ, FMA, AES,
    XSAVE, OSXSAVE, AVX, F16C and RDRAND. *)
Definition unimplemented_features : list Z := [1; 12; 25; 26; 27; 28; 29; 30].

(** BSF and BSR return the index of the lowest or highest set bit of the
    source at the operand width and clear ZF; a zero source sets ZF and keeps the
    destination; invalid operands change nothing; only ZF of the flags changes.
    RDTSC delivers the halves of its source, zero-extended.  CPUID fills EAX, EBX,
    ECX and EDX with 32-bit values, keeps every other register, and never
    advertises an instruction set that the decoder lacks, nor any feature of
    leaf 7. *)
Theorem scan_tsc_cpuid_correct st : state_ok st ->
  (forall forward destinationIndex sourceIndex w,
     let scan := if forward : bool then bitScanForward else bitScanReverse in
     (0 <= destinationIndex < 16 -> 0 <= sourceIndex < 16 -> w = 32 \/ w = 64 ->
      scans forward st destinationIndex sourceIndex w (scan st destinationIndex sourceIndex w)) /\
     (16 <= destinationIndex \/ 16 <= sourceIndex \/ (w <> 32 /\ w <> 64) ->
      scan st destinationIndex sourceIndex w = st)) /\
  (forall c v, timestampCounterReader c = Some v ->
     readTimestampCounter (Some c) st =
       Ok (Some c, set_gpr Rdx (v / 2 ^ 32 mod 2 ^ 32) (set_gpr Rax (v mod 2 ^ 32) st), true)) /\
  (forall r, r ∉ [Rax; Rbx; Rcx; Rdx] -> get_gpr r (cpuidGuest st) = get_gpr r st) /\
  Forall (fun r => in_range 32 (get_gpr r (cpuidGuest st))) [Rax; Rbx; Rcx; Rdx] /\
  (u32 (get_gpr Rax st) = 1 ->
     Forall (fun b => Z.testbit (get_gpr Rcx (cpuidGuest st)) b = false) unimplemented_features) /\
  (u32 (get_gpr Rax st) = 7 -> Forall (fun r => get_gpr r (cpuidGuest st) = 0) [Rax; Rbx; Rcx; Rdx]).
Proof.
  intros Hst. pose proof (state_ok_gpr _ Hst) as [Hl _].
  assert (exists a b c d, cpuid_leaf (u32 (get_gpr Rax st)) (u32 (get_gpr Rcx st)) = (a, b, c, d)) as
    (a & b & c & d & El) by (destruct (cpuid_leaf _ _) as [[[]]]; eauto).
  assert (in_range 32 a /\ in_range 32 b /\ in_range 32 c /\ in_range 32 d) as (Ha & Hb & Hc & Hd).
  { revert El. unfold cpuid_leaf. repeat case_if; intros [= <- <- <- <-]; by vm_compute. }
  assert (forall s, cpuidGuest s = let '(a, b, c, d) := cpuid_leaf (u32 (get_gpr Rax s)) (u32 (get_gpr Rcx s)) in
    set_gpr Rdx d (set_gpr Rcx c (set_gpr Rbx b (set_gpr Rax a s)))) as Ecpu by done.
  rewrite Ecpu, El. assert (forall r v s, length (gpr s) = 16%nat -> length (gpr (set_gpr r v s)) = 16%nat) as Hlen
    by (intros; cbn; by rewrite length_insert).
  assert (Forall (fun r => get_gpr r (set_gpr Rdx d (set_gpr Rcx c (set_gpr Rbx b (set_gpr Rax a st)))) =
    match r with Rax => a | Rbx => b | Rcx => c | _ => d end) [Rax; Rbx; Rcx; Rdx]) as Hget.
  { repeat constructor; repeat first [rewrite get_set_gpr_eq by auto | rewrite get_set_gpr_ne by done]; done. }
  rewrite !Forall_cons in Hget. destruct Hget as (Ga & Gb & Gc & Gd & _).
  split. { intros forward x y w. split; [by apply bit_scan_ok|apply bit_scan_invalid]. }
  split. { intros ctx v Ev. unfold readTimestampCounter, call_state. rewrite Ev.
    by rewrite Z.shiftr_div_pow2. }
  split. { intros r Hr. rewrite !not_elem_of_cons in Hr. destruct Hr as (H1 & H2 & H3 & H4 & _).
    by rewrite !get_set_gpr_ne by congruence. }
  rewrite !Forall_cons, Forall_nil, Ga, Gb, Gc, Gd. split; [by split_and!|]. split.
  - intros E1. rewrite E1 in El. injection El as <- <- <- <-. repeat constructor.
  - intros E7. rewrite E7 in El. unfold cpuid_leaf in El. cbn [Z.eqb Pos.eqb andb] in El.
    destruct (_ =? 0); injection El as <- <- <- <-; by split_and!.
Qed.

Lemma scan_tsc_cpuid_correct_witness :
  let st := set_gpr Rax 1 (set_gpr Rsi 0x50 initialState) in
  state_ok st /\ scans true st 2 6 64 (bitScanForward st 2 6 64) /\
  Forall (fun b => Z.testbit (get_gpr Rcx (cpuidGuest st)) b = false) unimplemented_features.
Proof.
  intros st. assert (state_ok st) as Hst.
  { unfold st. repeat apply state_ok_set_gpr; try (unfold in_range; lia).
    split; [split; [reflexivity|by apply Forall_replicate]|done|done]. }
  destruct (scan_tsc_cpuid_correct st Hst) as (H & _ & _ & _ & H1 & _).
  split; [exact Hst|]. split; [|exact (H1 eq_refl)].
  destruct (H true 2 6 64) as [Hs _]. exact (Hs ltac:(lia) ltac:(lia) ltac:(right; reflexivity)).
Defined.
