(* ===== verification/VectorHelpers.v ===== *)
(** Integer vector helpers: the XMM and YMM operations of
    [src/dbt/RuntimeHelpers.cpp] that do not compute on floating point values.

    A register is a pair of 64-bit halves.  The loops of the source build a
    result by or-ing each lane into the half that holds it; [lanes_loop] is that
    loop for one lane width. *)
From S2P Require Import Prelude X86State FlagSpec FlagHelpers AddressSpace AddressSpaceInv AddressSpaceAccess AddressSpaceWrite ExecutionContext.

(** ** Registers and lanes *)

Definition get_xmm (r : Z) (st : X86State) : XmmValue := nth (Z.to_nat r) st.(xmm) (mkXmmValue 0 0).
Definition set_xmm (r : Z) (v : XmmValue) (st : X86State) : X86State :=
  mkX86State st.(gpr) st.(rip) st.(rflags) (<[Z.to_nat r := v]> st.(xmm)) st.(ymmUpper) st.(gsBase).
Definition get_ymmUpper (r : Z) (st : X86State) : XmmValue := nth (Z.to_nat r) st.(ymmUpper) (mkXmmValue 0 0).
Definition set_ymmUpper (r : Z) (v : XmmValue) (st : X86State) : X86State :=
  mkX86State st.(gpr) st.(rip) st.(rflags) st.(xmm) (<[Z.to_nat r := v]> st.(ymmUpper)) st.(gsBase).

(** [index >= state->xmm.size()]. *)
Definition invalid_xmm (r : Z) : bool := 16 <=? r.

(** [index < k ? value.low : value.high]. *)
Definition half (lower : bool) (v : XmmValue) : Z := if lower then v.(low) else v.(high).
Definition or_half (lower : bool) (x : Z) (v : XmmValue) : XmmValue :=
  if lower then mkXmmValue (Z.lor v.(low) x) v.(high) else mkXmmValue v.(low) (Z.lor v.(high) x).

(** Lane [index] of width [w]. *)
Definition lane_at (w : Z) (v : XmmValue) (index : Z) : Z :=
  let k := 64 / w in wrap w (Z.shiftr (half (index <? k) v) (index mod k * w)).

(** [for (index = 0; index < 128 / w; ++index) half(index) |= lane(index) << shift]. *)
Definition lanes_loop (w : Z) (lane : Z -> Z) : XmmValue :=
  let k := 64 / w in
  fold_left (fun result index => or_half (index <? k) (u64 (Z.shiftl (lane index) (index mod k * w))) result)
    (seqZ 0 (2 * k)) (mkXmmValue 0 0).

(** A value of two dwords: [low | high << 32]. *)
Definition dwords (lo hi : Z) : Z := Z.lor lo (u64 (Z.shiftl hi 32)).

(** ** Register forms *)

(** The guard of the register forms: invalid operands leave the state alone. *)
Definition with_xmm (invalid : bool) (state : X86State) (result : X86State) : X86State :=
  if invalid then state else result.

Definition testXmmBits128 (state : X86State) (destinationIndex sourceIndex : Z) : X86State :=
  with_xmm (invalid_xmm destinationIndex || invalid_xmm sourceIndex) state (
    let destination := get_xmm destinationIndex state in
    let source := get_xmm sourceIndex state in
    let intersection := Z.lor (Z.land destination.(low) source.(low)) (Z.land destination.(high) source.(high)) in
    let sourceOutsideDestination :=
      Z.lor (Z.land (not64 destination.(low)) source.(low)) (Z.land (not64 destination.(high)) source.(high)) in
    let flags := Z.lor (Z.land state.(rflags) (not64 arithmeticFlagMask)) flagReservedOne in
    let flags := set_if (intersection =? 0) flagZero flags in
    let flags := set_if (sourceOutsideDestination =? 0) flagCarry flags in
    set_rflags flags state).

Definition addXmmWords128 (state : X86State) (destinationIndex sourceIndex : Z) : X86State :=
  with_xmm (invalid_xmm destinationIndex || invalid_xmm sourceIndex) state (
    let destination := get_xmm destinationIndex state in
    let source := get_xmm sourceIndex state in
    set_xmm destinationIndex
      (lanes_loop 16 (fun index => u16 (lane_at 16 destination index + lane_at 16 source index))) state).

Definition unpackLowPackedSingleXmm (state : X86State) (destinationIndex sourceIndex : Z) : X86State :=
  with_xmm (invalid_xmm destinationIndex || invalid_xmm sourceIndex) state (
    let destination := get_xmm destinationIndex state in
    let source := get_xmm sourceIndex state in
    let destDword0 := u32 destination.(low) in
    let destDword1 := u32 (Z.shiftr destination.(low) 32) in
    let srcDword0 := u32 source.(low) in
    let srcDword1 := u32 (Z.shiftr source.(low) 32) in
    set_xmm destinationIndex (mkXmmValue (dwords destDword0 srcDword0) (dwords destDword1 srcDword1)) state).

Definition unpackHighPackedSingleXmm (state : X86State) (destinationIndex sourceIndex : Z) : X86State :=
  with_xmm (invalid_xmm destinationIndex || invalid_xmm sourceIndex) state (
    let destination := get_xmm destinationIndex state in
    let source := get_xmm sourceIndex state in
    let destDword2 := u32 destination.(high) in
    let destDword3 := u32 (Z.shiftr destination.(high) 32) in
    let srcDword2 := u32 source.(high) in
    let srcDword3 := u32 (Z.shiftr source.(high) 32) in
    set_xmm destinationIndex (mkXmmValue (dwords destDword2 srcDword2) (dwords destDword3 srcDword3)) state).

Definition compareEqualXmmBytes128 (state : X86State) (destinationIndex sourceIndex : Z) : X86State :=
  with_xmm (invalid_xmm destinationIndex || invalid_xmm sourceIndex) state (
    let destination := get_xmm destinationIndex state in
    let source := get_xmm sourceIndex state in
    set_xmm destinationIndex
      (lanes_loop 8 (fun index =>
         if lane_at 8 destination index =? lane_at 8 source index then 0xFF else 0)) state).

Definition compareEqualXmmDwords128 (state : X86State) (destinationIndex sourceIndex : Z) : X86State :=
  with_xmm (invalid_xmm destinationIndex || invalid_xmm sourceIndex) state (
    let destination := get_xmm destinationIndex state in
    let source := get_xmm sourceIndex state in
    set_xmm destinationIndex
      (lanes_loop 32 (fun index =>
         if lane_at 32 destination index =? lane_at 32 source index then UINT32_MAX else 0)) state).

Definition compareEqualXmmQwords128 (state : X86State) (destinationIndex sourceIndex : Z) : X86State :=
  with_xmm (invalid_xmm destinationIndex || invalid_xmm sourceIndex) state (
    let destination := get_xmm destinationIndex state in
    let source := get_xmm sourceIndex state in
    set_xmm destinationIndex (mkXmmValue
      (if destination.(low) =? source.(low) then UINT64_MAX else 0)
      (if destination.(high) =? source.(high) then UINT64_MAX else 0)) state).

Definition shiftLeftXmmDwords128 (state : X86State) (destinationIndex count : Z) : X86State :=
  with_xmm (invalid_xmm destinationIndex) state (
    let source := get_xmm destinationIndex state in
    set_xmm destinationIndex
      (if count <? 32
       then lanes_loop 32 (fun index => u32 (u64 (Z.shiftl (lane_at 32 source index) count)))
       else mkXmmValue 0 0) state).

Definition addXmmDwords128 (state : X86State) (destinationIndex sourceIndex : Z) : X86State :=
  with_xmm (invalid_xmm destinationIndex || invalid_xmm sourceIndex) state (
    let destination := get_xmm destinationIndex state in
    let source := get_xmm sourceIndex state in
    set_xmm destinationIndex
      (lanes_loop 32 (fun index => u32 (lane_at 32 destination index + lane_at 32 source index))) state).

Definition horizontalAddXmmDwords128 (state : X86State) (destinationIndex sourceIndex : Z) : X86State :=
  with_xmm (invalid_xmm destinationIndex || invalid_xmm sourceIndex) state (
    let destination := get_xmm destinationIndex state in
    let source := get_xmm sourceIndex state in
    let sum value i j := u32 (lane_at 32 value i + lane_at 32 value j) in
    set_xmm destinationIndex (mkXmmValue
      (dwords (sum destination 0 1) (sum destination 2 3))
      (dwords (sum source 0 1) (sum source 2 3))) state).

Definition andNotXmm128 (state : X86State) (destinationIndex sourceIndex : Z) : X86State :=
  with_xmm (invalid_xmm destinationIndex || invalid_xmm sourceIndex) state (
    let destination := get_xmm destinationIndex state in
    let source := get_xmm sourceIndex state in
    set_xmm destinationIndex (mkXmmValue
      (Z.land (not64 destination.(low)) source.(low))
      (Z.land (not64 destination.(high)) source.(high))) state).

Definition moveXmmByteMask32 (state : X86State) (destinationIndex sourceIndex : Z) : X86State :=
  with_xmm ((16 <=? destinationIndex) || invalid_xmm sourceIndex) state (
    let value := get_xmm sourceIndex state in
    let mask := fold_left (fun mask index =>
      Z.lor mask (Z.shiftl (Z.land (Z.shiftr (half (index <? 8) value) (index mod 8 * 8 + 7)) 1) index))
      (seqZ 0 16) 0 in
    copy_to_register (register_of destinationIndex) 8 mask state).

Definition shuffleXmmDwords (state : X86State) (destinationIndex sourceIndex control : Z) : X86State :=
  with_xmm (invalid_xmm destinationIndex || invalid_xmm sourceIndex || (0xFF <? control)) state (
    let source := get_xmm sourceIndex state in
    let sourceDwords := [u32 source.(low); u32 (Z.shiftr source.(low) 32);
                         u32 source.(high); u32 (Z.shiftr source.(high) 32)] in
    let result index :=
      let selection := Z.land (Z.shiftr control (index * 2)) 3 in nth (Z.to_nat selection) sourceDwords 0 in
    set_xmm destinationIndex (mkXmmValue (dwords (result 0) (result 1)) (dwords (result 2) (result 3))) state).

(** The lambda [byteAt] of the byte shuffles, on any 64-bit index. *)
Definition byteAt (value : XmmValue) (index : Z) : Z :=
  u8 (Z.shiftr (half (index <? 8) value) (Z.land index 7 * 8)).

Definition shuffle_bytes (input : XmmValue) (mask_at : Z -> Z) : XmmValue :=
  lanes_loop 8 (fun index =>
    let mask := mask_at index in
    if negb (Z.land mask 0x80 =? 0) then 0 else byteAt input (Z.land mask 0x0F)).

Definition shuffleXmmBytes (state : X86State) (destinationIndex sourceIndex : Z) : X86State :=
  with_xmm (invalid_xmm destinationIndex || invalid_xmm sourceIndex) state (
    let input := get_xmm destinationIndex state in
    let control := get_xmm sourceIndex state in
    set_xmm destinationIndex (shuffle_bytes input (byteAt control)) state).

(** [memcpy] between an [XmmValue] and its sixteen bytes. *)
Definition xmm_bytes (v : XmmValue) : list Z := le_bytes 8 v.(low) ++ le_bytes 8 v.(high).
Definition xmm_of_bytes (l : list Z) : XmmValue :=
  mkXmmValue (le_value (subspan l 0 8)) (le_value (subspan l 8 8)).

Definition alignRightXmmBytes (state : X86State) (destinationIndex sourceIndex count : Z) : X86State :=
  with_xmm (invalid_xmm destinationIndex || invalid_xmm sourceIndex || (0xFF <? count)) state (
    let destination := get_xmm destinationIndex state in
    let source := get_xmm sourceIndex state in
    let concatenated := xmm_bytes source ++ xmm_bytes destination in
    let result := replicate 16 0 in
    let result :=
      if count <? zlength concatenated then
        let available := Z.min 16 (zlength concatenated - count) in
        overwrite result 0 (subspan concatenated count available)
      else result in
    set_xmm destinationIndex (xmm_of_bytes result) state).

Definition set_half (lower : bool) (x : Z) (v : XmmValue) : XmmValue :=
  if lower then mkXmmValue x v.(high) else mkXmmValue v.(low) x.

Definition blendXmmWords (state : X86State) (destinationIndex sourceIndex mask : Z) : X86State :=
  with_xmm (invalid_xmm destinationIndex || invalid_xmm sourceIndex || (0xFF <? mask)) state (
    let source := get_xmm sourceIndex state in
    let result := fold_left (fun result index =>
      if Z.land (Z.shiftr mask index) 1 =? 0 then result else
      let shift := index mod 4 * 16 in
      let lower := index <? 4 in
      let word := Z.land (Z.shiftr (half lower source) shift) 0xFFFF in
      let wordMask := u64 (Z.shiftl 0xFFFF shift) in
      set_half lower (Z.lor (Z.land (half lower result) (not64 wordMask)) (u64 (Z.shiftl word shift))) result)
      (seqZ 0 8) (get_xmm destinationIndex state) in
    set_xmm destinationIndex result state).

Definition unpackLowXmmWords (state : X86State) (destinationIndex sourceIndex : Z) : X86State :=
  with_xmm (invalid_xmm destinationIndex || invalid_xmm sourceIndex) state (
    let destination := get_xmm destinationIndex state in
    let source := get_xmm sourceIndex state in
    let result := fold_left (fun result index =>
      let inputShift := index * 16 in
      let destinationWord := Z.land (Z.shiftr destination.(low) inputShift) 0xFFFF in
      let sourceWord := Z.land (Z.shiftr source.(low) inputShift) 0xFFFF in
      let outputWord := index * 2 in
      let outputShift := outputWord mod 4 * 16 in
      let result := or_half (outputWord <? 4) (u64 (Z.shiftl destinationWord outputShift)) result in
      or_half (outputWord <? 4) (u64 (Z.shiftl sourceWord (outputShift + 16))) result)
      (seqZ 0 4) (mkXmmValue 0 0) in
    set_xmm destinationIndex result state).

(** ** Memory forms *)

(** The loops that assemble [n] bytes from [offset] into a word. *)
Definition word_of_bytes (bytes : list Z) (offset n : Z) : Z :=
  fold_left (fun word index => Z.lor word (u64 (Z.shiftl (nth (Z.to_nat (offset + index)) bytes 0) (index * 8))))
    (seqZ 0 n) 0.
(** The loops that split a word into its bytes. *)
Definition bytes_of_word (word : Z) : list Z := map (fun index => u8 (Z.shiftr word (index * 8))) (seqZ 0 8).

Definition storeGuestXmm128 (context : option GuestExecutionContext) (state : X86State)
    (address registerIndex alignmentRequired : Z) : outcome CallResult :=
  call context state "generated XMM guest store has no address space" (Some (address, 16)) (
    if invalid_xmm registerIndex then
      throw (runtime_error "generated XMM guest store has an invalid register")
    else if negb (alignmentRequired =? 0) && negb (Z.land address 0xF =? 0) then
      throw (runtime_error "MOVAPS guest address is not 16-byte aligned")
    else
    let value := get_xmm registerIndex state in
    on_space (writeBytes address (bytes_of_word value.(low) ++ bytes_of_word value.(high)))).

Definition storeGuestYmm256 (context : option GuestExecutionContext) (state : X86State)
    (address registerIndex alignmentRequired : Z) : outcome CallResult :=
  call context state "generated YMM guest store has no address space" (Some (address, 32)) (
    if invalid_xmm registerIndex then
      throw (runtime_error "generated YMM guest store has an invalid register")
    else if negb (alignmentRequired =? 0) && negb (Z.land address 0x1F =? 0) then
      throw (runtime_error "VMOVAPS YMM guest address is not 32-byte aligned")
    else
    let lower := get_xmm registerIndex state in
    let upper := get_ymmUpper registerIndex state in
    let lanes := [lower.(low); lower.(high); upper.(low); upper.(high)] in
    on_space (writeBytes address (flat_map bytes_of_word lanes))).

Definition loadGuestXmm128 (context : option GuestExecutionContext) (state : X86State)
    (address registerIndex alignmentRequired : Z) : outcome CallResult :=
  call context state "generated XMM guest load has no address space" (Some (address, 16)) (
    if invalid_xmm registerIndex then
      throw (runtime_error "generated XMM guest load has an invalid register")
    else if negb (alignmentRequired =? 0) && negb (Z.land address 0xF =? 0) then
      throw (runtime_error "aligned XMM guest address is not 16-byte aligned")
    else
    do! bytes <- on_space (readBytes address 16);
    modify_state (set_xmm registerIndex (mkXmmValue (word_of_bytes bytes 0 8) (word_of_bytes bytes 8 8)))).

Definition loadGuestYmm256 (context : option GuestExecutionContext) (state : X86State)
    (address registerIndex alignmentRequired : Z) : outcome CallResult :=
  call context state "generated YMM guest load has no address space" (Some (address, 32)) (
    if invalid_xmm registerIndex then
      throw (runtime_error "generated YMM guest load has an invalid register")
    else if negb (alignmentRequired =? 0) && negb (Z.land address 0x1F =? 0) then
      throw (runtime_error "aligned YMM guest address is not 32-byte aligned")
    else
    do! bytes <- on_space (readBytes address 32);
    let lane i := word_of_bytes bytes (i * 8) 8 in
    modify_state (set_xmm registerIndex (mkXmmValue (lane 0) (lane 1))) ;;;
    modify_state (set_ymmUpper registerIndex (mkXmmValue (lane 2) (lane 3)))).

Definition loadGuestSignExtendedBytesXmm (context : option GuestExecutionContext) (state : X86State)
    (address registerIndex : Z) : outcome CallResult :=
  call context state "generated PMOVSXBD has no guest address space" (Some (address, 4)) (
    if invalid_xmm registerIndex then
      throw (runtime_error "generated PMOVSXBD has an invalid XMM register")
    else
    do! bytes <- on_space (readBytes address 4);
    let lane i := u32 (signed 8 (nth i bytes 0)) in
    modify_state (set_xmm registerIndex
      (mkXmmValue (dwords (lane 0%nat) (lane 1%nat)) (dwords (lane 2%nat) (lane 3%nat))))).

Definition loadGuestSignExtendedDwordsXmm (context : option GuestExecutionContext) (state : X86State)
    (address registerIndex : Z) : outcome CallResult :=
  call context state "generated PMOVSXDQ has no guest address space" (Some (address, 8)) (
    if invalid_xmm registerIndex then
      throw (runtime_error "generated PMOVSXDQ has an invalid XMM register")
    else
    do! bytes <- on_space (readBytes address 8);
    let lowDword := word_of_bytes bytes 0 4 in
    let highDword := word_of_bytes bytes 4 4 in
    modify_state (set_xmm registerIndex
      (mkXmmValue (u64 (signed 32 lowDword)) (u64 (signed 32 highDword))))).

(** The forms with a 16-byte memory source; [operation] is what is done with the
    register and the bytes. *)
Definition compareEqualGuestBytesXmm128 (context : option GuestExecutionContext) (state : X86State)
    (address registerIndex : Z) : outcome CallResult :=
  call context state "generated PCMPEQB has no address space" (Some (address, 16)) (
    if invalid_xmm registerIndex then
      throw (runtime_error "generated PCMPEQB has an invalid register")
    else
    do! bytes <- on_space (readBytes address 16);
    modify_state (fun state =>
      let original := get_xmm registerIndex state in
      set_xmm registerIndex
        (lanes_loop 8 (fun index =>
           if lane_at 8 original index =? nth (Z.to_nat index) bytes 0 then 0xFF else 0)) state)).

Definition compareEqualGuestQwordsXmm128 (context : option GuestExecutionContext) (state : X86State)
    (address registerIndex : Z) : outcome CallResult :=
  call context state "generated PCMPEQQ has no address space" (Some (address, 16)) (
    if invalid_xmm registerIndex then
      throw (runtime_error "generated PCMPEQQ has an invalid register")
    else
    do! bytes <- on_space (readBytes address 16);
    modify_state (fun state =>
      let source := xmm_of_bytes bytes in
      let original := get_xmm registerIndex state in
      set_xmm registerIndex (mkXmmValue
        (if original.(low) =? source.(low) then UINT64_MAX else 0)
        (if original.(high) =? source.(high) then UINT64_MAX else 0)) state)).

Definition unpackLowGuestPackedSingleXmm128 (context : option GuestExecutionContext) (state : X86State)
    (address registerIndex : Z) : outcome CallResult :=
  call context state "generated UNPCKLPS has no address space" (Some (address, 16)) (
    if invalid_xmm registerIndex then
      throw (runtime_error "generated UNPCKLPS has an invalid register")
    else
    do! bytes <- on_space (readBytes address 16);
    modify_state (fun state =>
      let sourceLow := le_value (subspan bytes 0 8) in
      let original := get_xmm registerIndex state in
      let destDword0 := u32 original.(low) in
      let destDword1 := u32 (Z.shiftr original.(low) 32) in
      let srcDword0 := u32 sourceLow in
      let srcDword1 := u32 (Z.shiftr sourceLow 32) in
      set_xmm registerIndex (mkXmmValue (dwords destDword0 srcDword0) (dwords destDword1 srcDword1)) state)).

Definition unpackHighGuestPackedSingleXmm128 (context : option GuestExecutionContext) (state : X86State)
    (address registerIndex : Z) : outcome CallResult :=
  call context state "generated UNPCKHPS has no address space" (Some (address, 16)) (
    if invalid_xmm registerIndex then
      throw (runtime_error "generated UNPCKHPS has an invalid register")
    else
    do! bytes <- on_space (readBytes address 16);
    modify_state (fun state =>
      let sourceHigh := le_value (subspan bytes 8 8) in
      let original := get_xmm registerIndex state in
      let destDword2 := u32 original.(high) in
      let destDword3 := u32 (Z.shiftr original.(high) 32) in
      let srcDword2 := u32 sourceHigh in
      let srcDword3 := u32 (Z.shiftr sourceHigh 32) in
      set_xmm registerIndex (mkXmmValue (dwords destDword2 srcDword2) (dwords destDword3 srcDword3)) state)).

Definition xorGuestMemoryXmm128 (context : option GuestExecutionContext) (state : X86State)
    (address registerIndex : Z) : outcome CallResult :=
  call context state "generated PXOR has no guest address space" (Some (address, 16)) (
    if invalid_xmm registerIndex then
      throw (runtime_error "generated PXOR has an invalid XMM register")
    else
    do! bytes <- on_space (readBytes address 16);
    modify_state (fun state =>
      let source := xmm_of_bytes bytes in
      let original := get_xmm registerIndex state in
      set_xmm registerIndex
        (mkXmmValue (Z.lxor original.(low) source.(low)) (Z.lxor original.(high) source.(high))) state)).

Definition andGuestMemoryXmm128 (context : option GuestExecutionContext) (state : X86State)
    (address registerIndex : Z) : outcome CallResult :=
  call context state "generated PAND has no guest address space" (Some (address, 16)) (
    if invalid_xmm registerIndex then
      throw (runtime_error "generated PAND has an invalid XMM register")
    else
    do! bytes <- on_space (readBytes address 16);
    modify_state (fun state =>
      let source := xmm_of_bytes bytes in
      let original := get_xmm registerIndex state in
      set_xmm registerIndex
        (mkXmmValue (Z.land original.(low) source.(low)) (Z.land original.(high) source.(high))) state)).

(** The lambda [sumLane]. *)
Definition sumLane (destinationLane sourceLane : Z) : Z :=
  let lo := u32 (u32 destinationLane + u32 sourceLane) in
  let hi := u32 (u32 (Z.shiftr destinationLane 32) + u32 (Z.shiftr sourceLane 32)) in
  dwords lo hi.

Definition addGuestMemoryXmm128 (context : option GuestExecutionContext) (state : X86State)
    (address registerIndex : Z) : outcome CallResult :=
  call context state "generated PADDD has no guest address space" (Some (address, 16)) (
    if invalid_xmm registerIndex then
      throw (runtime_error "generated PADDD has an invalid XMM register")
    else
    do! bytes <- on_space (readBytes address 16);
    modify_state (fun state =>
      let source := xmm_of_bytes bytes in
      let original := get_xmm registerIndex state in
      set_xmm registerIndex
        (mkXmmValue (sumLane original.(low) source.(low)) (sumLane original.(high) source.(high))) state)).

Definition shuffleGuestMemoryXmmBytes (context : option GuestExecutionContext) (state : X86State)
    (address destinationIndex : Z) : outcome CallResult :=
  call context state "generated PSHUFB has no address space" (Some (address, 16)) (
    if invalid_xmm destinationIndex then
      throw (runtime_error "generated PSHUFB has an invalid destination register")
    else
    do! control <- on_space (readBytes address 16);
    modify_state (fun state =>
      let input := get_xmm destinationIndex state in
      set_xmm destinationIndex
        (shuffle_bytes input (fun index => nth (Z.to_nat index) control 0)) state)).
