(* ===== verification/VectorLanes.v ===== *)
(** What the integer vector helpers compute, on lists of lanes.

    [lanes w v] is the register [v] cut into lanes of [w] bits, the least
    significant first.  The theorems state every helper of [VectorHelpers] as a
    list function on lanes, and the memory forms as the same functions on the
    bytes read from the guest. *)
From S2P Require Import Prelude X86State FlagSpec FlagHelpers AddressSpace AddressSpaceInv AddressSpaceAccess AddressSpaceWrite ExecutionContext VectorHelpers.

(** ** Lanes as lists *)

Record xmm_ok (v : XmmValue) : Prop := { low_ok : in_range 64 v.(low); high_ok : in_range 64 v.(high) }.

Record vector_ok (st : X86State) : Prop := {
  vector_state : state_ok st;
  vector_xmm : length st.(xmm) = 16%nat /\ Forall xmm_ok st.(xmm);
  vector_ymm : length st.(ymmUpper) = 16%nat /\ Forall xmm_ok st.(ymmUpper)
}.

(** The lanes of a register, least significant first. *)
Definition lanes (w : Z) (v : XmmValue) : list Z := map (lane_at w v) (seqZ 0 (128 / w)).

(** A lane width that divides a half. *)
Definition lane_width (w : Z) : Prop := w = 8 \/ w = 16 \/ w = 32 \/ w = 64.

(** *** The loop that builds lanes *)

Fixpoint pack (w : Z) (l : list Z) : Z :=
  match l with
  | [] => 0
  | d :: l' => Z.lor d (Z.shiftl (pack w l') w)
  end.

Lemma pack_range w l : 0 <= w -> Forall (in_range w) l -> in_range (w * zlength l) (pack w l).
Proof.
  intros Hw. unfold zlength. induction l as [|d l IH]; intros Hl; cbn [pack length].
  { unfold in_range. change (Z.of_nat 0) with 0. rewrite Z.mul_0_r. done. }
  apply Forall_cons in Hl as [Hd Hl]. specialize (IH Hl). apply lor_range; [nia| |].
  - apply (in_range_le w); [done|nia].
  - unfold in_range in *. rewrite Z.shiftl_mul_pow2 by done.
    replace (w * Z.of_nat (S (length l))) with (w * Z.of_nat (length l) + w) by lia.
    rewrite Z.pow_add_r by lia. pose proof (Z.pow_pos_nonneg 2 w). nia.
Qed.

Lemma pack_snoc w l d : 0 <= w -> pack w (l ++ [d]) = Z.lor (pack w l) (Z.shiftl d (zlength l * w)).
Proof.
  intros Hw. unfold zlength. induction l as [|e l IH]; cbn [pack app length].
  { rewrite Z.shiftl_0_l, Z.lor_0_r. by rewrite Z.shiftl_0_r. }
  rewrite IH, Z.shiftl_lor, Z.shiftl_shiftl, Z.lor_assoc by lia. do 2 f_equal. lia.
Qed.

Lemma pack_lane w l : 0 <= w -> Forall (in_range w) l -> forall j d, l !! j = Some d ->
  wrap w (Z.shiftr (pack w l) (Z.of_nat j * w)) = d.
Proof.
  intros Hw. induction l as [|e l IH]; intros Hl j d; [done|]. apply Forall_cons in Hl as [He Hl].
  destruct j as [|j]; cbn [pack lookup list_lookup].
  - intros [= ->]. rewrite Z.mul_0_l, Z.shiftr_0_r. apply Z.bits_inj'. intros i Hi.
    rewrite wrap_testbit, Z.lor_spec by lia. destruct (Z.ltb_spec i w).
    + by rewrite Z.shiftl_spec_low, orb_false_r by lia.
    + symmetry. apply (testbit_above w); [done|lia].
  - intros Hj. rewrite <- (IH Hl j d Hj). f_equal. rewrite Z.shiftr_lor.
    replace (Z.of_nat (S j) * w) with (w + Z.of_nat j * w) by lia.
    rewrite <- !Z.shiftr_shiftr by lia. rewrite (Z.shiftr_shiftl_l (pack w l) w w), Z.sub_diag, Z.shiftl_0_r by lia.
    assert (Z.shiftr e w = 0) as ->.
    { rewrite Z.shiftr_div_pow2 by lia. by apply Z.div_small. }
    by rewrite Z.shiftr_0_l.
Qed.

(** The loop on one half. *)
Lemma half_loop w (g : Z -> Z) n : 0 <= w -> w * Z.of_nat n <= 64 ->
  (forall i, 0 <= i < Z.of_nat n -> in_range w (g i)) ->
  fold_left (fun acc i => Z.lor acc (u64 (Z.shiftl (g i) (i * w)))) (seqZ 0 (Z.of_nat n)) 0 =
  pack w (map g (seqZ 0 (Z.of_nat n))).
Proof.
  intros Hw. induction n as [|n IH]; intros Hn Hg; [done|].
  replace (Z.of_nat (S n)) with (Z.of_nat n + 1) in * by lia.
  rewrite seqZ_app, fold_left_app, map_app by lia.
  change (seqZ (0 + Z.of_nat n) 1) with [Z.of_nat 0 + (0 + Z.of_nat n)]. cbn [fold_left map].
  rewrite !Z.add_0_l, pack_snoc, IH by (try lia; intros; apply Hg; lia). f_equal. unfold zlength. rewrite length_map, length_seqZ, Nat2Z.id.
  unfold u64. apply wrap_small. specialize (Hg (Z.of_nat n) ltac:(lia)). unfold in_range in *.
  rewrite Z.shiftl_mul_pow2 by lia.
  pose proof (Z.pow_pos_nonneg 2 (Z.of_nat n * w)). split; [nia|].
  apply Z.lt_le_trans with (2 ^ w * 2 ^ (Z.of_nat n * w)); [nia|].
  rewrite <- Z.pow_add_r by lia. apply Z.pow_le_mono_r; lia.
Qed.

Lemma or_half_loop (lower : bool) (x : Z -> Z) l : forall v,
  fold_left (fun r i => or_half lower (x i) r) l v =
  if lower then mkXmmValue (fold_left (fun acc i => Z.lor acc (x i)) l v.(low)) v.(high)
  else mkXmmValue v.(low) (fold_left (fun acc i => Z.lor acc (x i)) l v.(high)).
Proof.
  induction l as [|i l IH]; intros v; cbn [fold_left]; [by destruct lower, v|].
  rewrite IH. by destruct lower.
Qed.

Lemma fold_left_ext_in {A B} (f g : A -> B -> A) l : (forall a b, b ∈ l -> f a b = g a b) ->
  forall a, fold_left f l a = fold_left g l a.
Proof.
  induction l as [|b l IH]; intros H a; cbn [fold_left]; [done|].
  rewrite (H a b) by left. apply IH. intros a' b' Hb. apply H. by right.
Qed.

Lemma seqZ_shift m n : seqZ m n = map (fun i => m + i) (seqZ 0 n).
Proof.
  apply list_eq. intros i. destruct (decide (Z.of_nat i < n)) as [Hi|Hi].
  - rewrite list_lookup_fmap, !lookup_seqZ_lt by lia. done.
  - rewrite list_lookup_fmap, !lookup_seqZ_ge by lia. done.
Qed.

Lemma fold_left_map {A B C} (f : A -> C -> A) (h : B -> C) l : forall a,
  fold_left f (map h l) a = fold_left (fun a b => f a (h b)) l a.
Proof. induction l as [|b l IH]; intros a; cbn; [done|]. apply IH. Qed.

(** The halves of a loop are packed lanes. *)
Lemma lanes_loop_halves w f : lane_width w -> (forall i, 0 <= i < 128 / w -> in_range w (f i)) ->
  lanes_loop w f = mkXmmValue (pack w (map f (seqZ 0 (64 / w))))
                              (pack w (map (fun i => f (64 / w + i)) (seqZ 0 (64 / w)))).
Proof.
  intros Hw Hf. unfold lanes_loop. cbv zeta.
  assert (exists n, 64 / w = Z.of_nat n /\ w * Z.of_nat n = 64 /\ 128 / w = Z.of_nat n + Z.of_nat n /\ 0 < Z.of_nat n)
    as (n & -> & Hn & Hn2 & Hpos)
    by (destruct Hw as [-> | [-> | [-> | ->]]]; [exists 8%nat|exists 4%nat|exists 2%nat|exists 1%nat]; done).
  assert (0 <= w) by (unfold lane_width in Hw; lia).
  replace (2 * Z.of_nat n) with (Z.of_nat n + Z.of_nat n) by lia.
  rewrite seqZ_app, fold_left_app by lia. rewrite Z.add_0_l.
  rewrite (fold_left_ext_in _ (fun r i => or_half true (u64 (Z.shiftl (f i) (i * w))) r) (seqZ 0 (Z.of_nat n))).
  2:{ intros r i Hi%elem_of_seqZ. rewrite (proj2 (Z.ltb_lt i _)), Z.mod_small by lia. done. }
  rewrite or_half_loop. cbn [low high]. rewrite half_loop by (try lia; intros; apply Hf; lia).
  rewrite (seqZ_shift (Z.of_nat n)), fold_left_map.
  rewrite (fold_left_ext_in _ (fun r i => or_half false (u64 (Z.shiftl (f (Z.of_nat n + i)) (i * w))) r)).
  2:{ intros r i Hi%elem_of_seqZ. rewrite (proj2 (Z.ltb_ge _ _)) by lia.
      replace ((Z.of_nat n + i) mod Z.of_nat n) with i; [done|].
      rewrite Z.add_comm, <- (Z.mul_1_l (Z.of_nat n)) at 1. rewrite Z.mod_add, Z.mod_small by lia. done. }
  rewrite or_half_loop. cbn [low high].
  by rewrite (half_loop w (fun i => f (Z.of_nat n + i))) by (try lia; intros; apply Hf; lia).
Qed.

Lemma lanes_loop_lanes w f : lane_width w -> (forall i, 0 <= i < 128 / w -> in_range w (f i)) ->
  xmm_ok (lanes_loop w f) /\ lanes w (lanes_loop w f) = map f (seqZ 0 (128 / w)).
Proof.
  intros Hw Hf. rewrite lanes_loop_halves by done.
  assert (0 < w /\ w * (64 / w) = 64 /\ 128 / w = 2 * (64 / w)) as (Hw0 & Hk & Hn)
    by (destruct Hw as [-> | [-> | [-> | ->]]]; done).
  set (k := 64 / w) in *. assert (0 < k) by nia.
  assert (Forall (in_range w) (map f (seqZ 0 k))) as Hl.
  { apply Forall_fmap, Forall_forall. intros i Hi%elem_of_seqZ. apply Hf. lia. }
  assert (Forall (in_range w) (map (fun i => f (k + i)) (seqZ 0 k))) as Hh.
  { apply Forall_fmap, Forall_forall. intros i Hi%elem_of_seqZ. apply Hf. lia. }
  assert (forall g : Z -> Z, zlength (map g (seqZ 0 k)) = k) as Hlen
    by (intros; unfold zlength; rewrite length_map, length_seqZ; lia).
  split.
  - split; cbn [low high]; [pose proof (pack_range w _ ltac:(lia) Hl) as H1|pose proof (pack_range w _ ltac:(lia) Hh) as H1];
      by rewrite Hlen, Hk in H1.
  - unfold lanes. rewrite Hn. apply map_ext_in. intros i Hi%list_elem_of_In%elem_of_seqZ.
    unfold lane_at. fold k. cbv zeta. pose proof (Z.mod_pos_bound i k ltac:(lia)) as Hm.
    replace (i mod k) with (Z.of_nat (Z.to_nat (i mod k))) by lia.
    destruct (Z.ltb_spec i k) as [Hik|Hik]; unfold half; cbn [low high]; apply pack_lane; try done; try lia;
      rewrite list_lookup_fmap, lookup_seqZ_lt by lia; cbn [fmap option_fmap option_map]; f_equal; f_equal;
      rewrite Z2Nat.id by lia.
    + by rewrite Z.mod_small by lia.
    + replace i with (i - k + 1 * k) at 1 by lia. rewrite Z.mod_add, Z.mod_small by lia. lia.
Qed.

(** *** Reading lanes *)

Lemma lane_at_range w v i : lane_width w -> in_range w (lane_at w v i).
Proof. intros Hw. apply wrap_range. unfold lane_width in Hw. lia. Qed.

Lemma lane_nth w v i : 0 <= i < 128 / w -> nth (Z.to_nat i) (lanes w v) 0 = lane_at w v i.
Proof.
  intros Hi. apply nth_lookup_Some. unfold lanes. rewrite list_lookup_fmap, lookup_seqZ_lt by lia.
  cbn. f_equal. f_equal. lia.
Qed.

Lemma length_lanes w v : length (lanes w v) = Z.to_nat (128 / w).
Proof. unfold lanes. by rewrite length_map, length_seqZ. Qed.

Lemma map_zip_with {A B C D} (g : B -> C -> D) (a : A -> B) (b : A -> C) l :
  map (fun i => g (a i) (b i)) l = zip_with g (map a l) (map b l).
Proof. induction l as [|i l IH]; cbn; [done|]. by rewrite IH. Qed.

Lemma lanes32 v : lanes 32 v = [u32 v.(low); u32 (Z.shiftr v.(low) 32); u32 v.(high); u32 (Z.shiftr v.(high) 32)].
Proof. by destruct v. Qed.

Lemma lanes64 v : xmm_ok v -> lanes 64 v = [v.(low); v.(high)].
Proof.
  intros [Hl Hh]. destruct v as [l h]. cbn in *. unfold lanes.
  change (seqZ 0 (128 / 64)) with [0; 1]. cbn [map].
  unfold lane_at. cbn. rewrite !Z.shiftr_0_r. by rewrite !wrap_small.
Qed.

Lemma dwords_range a b : in_range 32 a -> in_range 32 b -> in_range 64 (dwords a b).
Proof.
  intros Ha Hb. apply lor_range; [lia|by apply (in_range_le 32)|apply wrap_range; lia].
Qed.

Lemma dwords_split a b : in_range 32 a -> in_range 32 b ->
  u32 (dwords a b) = a /\ u32 (Z.shiftr (dwords a b) 32) = b.
Proof.
  intros Ha Hb.
  assert (dwords a b = pack 32 [a; b]) as ->.
  { unfold dwords. cbn [pack]. rewrite Z.shiftl_0_l, Z.lor_0_r. f_equal. apply wrap_small.
    unfold in_range in *. rewrite Z.shiftl_mul_pow2 by lia. lia. }
  assert (Forall (in_range 32) [a; b]) as Hab by (repeat constructor; done || apply Ha || apply Hb).
  split; [apply (pack_lane 32 [a; b] ltac:(lia) Hab 0)|apply (pack_lane 32 [a; b] ltac:(lia) Hab 1)]; done.
Qed.

Lemma lanes_dwords a b c d : in_range 32 a -> in_range 32 b -> in_range 32 c -> in_range 32 d ->
  let v := mkXmmValue (dwords a b) (dwords c d) in xmm_ok v /\ lanes 32 v = [a; b; c; d].
Proof.
  intros Ha Hb Hc Hd v. split; [split; by apply dwords_range|]. rewrite lanes32. unfold v. cbn [low high].
  destruct (dwords_split a b), (dwords_split c d); [done..|]. congruence.
Qed.

Lemma get_xmm_ok r st : vector_ok st -> 0 <= r < 16 -> xmm_ok (get_xmm r st).
Proof.
  intros [_ [Hlen Hok] _] Hr. unfold get_xmm. rewrite Forall_forall in Hok. apply Hok.
  rewrite list_elem_of_In. apply nth_In. lia.
Qed.

Lemma invalid_xmm_false r : 0 <= r < 16 -> invalid_xmm r = false.
Proof. intros H. apply Z.leb_gt. lia. Qed.

(** *** Results *)

(** [result] is [st] with register [d] holding the lanes [l]. *)
Definition holds_lanes (st : X86State) (d w : Z) (l : list Z) (result : X86State) : Prop :=
  exists v, result = set_xmm d v st /\ xmm_ok v /\ lanes w v = l.

Lemma holds_loop st d w f l : lane_width w -> (forall i, 0 <= i < 128 / w -> in_range w (f i)) ->
  map f (seqZ 0 (128 / w)) = l -> holds_lanes st d w l (set_xmm d (lanes_loop w f) st).
Proof. intros Hw Hf <-. eexists. split; [done|]. by apply lanes_loop_lanes. Qed.

Lemma holds_zip st d w (g : Z -> Z -> Z) x y : lane_width w ->
  (forall a b, in_range w a -> in_range w b -> in_range w (g a b)) ->
  holds_lanes st d w (zip_with g (lanes w x) (lanes w y))
    (set_xmm d (lanes_loop w (fun i => g (lane_at w x i) (lane_at w y i))) st).
Proof.
  intros Hw Hg. apply holds_loop; [done| |apply map_zip_with].
  intros i _. apply Hg; by apply lane_at_range.
Qed.

Lemma holds_dwords st d a b c e : in_range 32 a -> in_range 32 b -> in_range 32 c -> in_range 32 e ->
  holds_lanes st d 32 [a; b; c; e] (set_xmm d (mkXmmValue (dwords a b) (dwords c e)) st).
Proof. intros. eexists. split; [done|]. by apply lanes_dwords. Qed.

Lemma holds_qwords st d x y : in_range 64 x -> in_range 64 y ->
  holds_lanes st d 64 [x; y] (set_xmm d (mkXmmValue x y) st).
Proof. intros. eexists. split; [done|]. assert (xmm_ok (mkXmmValue x y)) by done. by rewrite lanes64. Qed.

(** *** Shuffles *)

Lemma in_range_0 w : 0 <= w -> in_range w 0.
Proof. intros Hw. split; [done|]. by apply Z.pow_pos_nonneg. Qed.

Lemma byteAt_lane v i : 0 <= i < 16 -> byteAt v i = lane_at 8 v i.
Proof. intros Hi. unfold byteAt, lane_at. cbv zeta. change 7 with (Z.ones 3). by rewrite Z.land_ones. Qed.

(** PSHUFB of [input] by the control bytes. *)
Definition shuffle_lanes (input control : list Z) : list Z :=
  map (fun mask => if Z.testbit mask 7 then 0 else nth (Z.to_nat (mask mod 16)) input 0) control.

Lemma holds_shuffle st d input mask_at control : map mask_at (seqZ 0 16) = control ->
  holds_lanes st d 8 (shuffle_lanes (lanes 8 input) control) (set_xmm d (shuffle_bytes input mask_at) st).
Proof.
  intros <-. unfold shuffle_lanes. rewrite map_map.
  assert (forall m, 0 <= m mod 16 < 16) as Hm by (intros; apply Z.mod_pos_bound; lia).
  assert (forall i, (if negb (Z.land (mask_at i) 0x80 =? 0) then 0 else byteAt input (Z.land (mask_at i) 0x0F)) =
    (if Z.testbit (mask_at i) 7 then 0 else nth (Z.to_nat (mask_at i mod 16)) (lanes 8 input) 0)) as Heq.
  { intros i. change 0x80 with (2 ^ 7). rewrite land_pow2_testbit, negb_involutive, land_15 by lia.
    rewrite byteAt_lane, lane_nth by apply Hm. done. }
  apply holds_loop; [by left|..].
  - intros i _. rewrite Heq. destruct (Z.testbit (mask_at i) 7); [by apply in_range_0|].
    rewrite lane_nth by apply Hm. apply lane_at_range. by left.
  - apply map_ext. apply Heq.
Qed.

Lemma nth_dword_range v n : in_range 32 (nth n (lanes 32 v) 0).
Proof.
  rewrite lanes32. do 4 (destruct n as [|n]; [apply wrap_range; lia|]). destruct n; by apply in_range_0.
Qed.

(** *** The bytes of a register *)

Lemma le_bytes_lanes n : forall x,
  le_bytes n x = map (fun i => wrap 8 (Z.shiftr x (i * 8))) (seqZ 0 (Z.of_nat n)).
Proof.
  induction n as [|n IH]; intros x; [done|]. cbn [le_bytes].
  replace (Z.of_nat (S n)) with (1 + Z.of_nat n) by lia. rewrite seqZ_app, map_app by lia.
  change (seqZ 0 1) with [0]. cbn [map app]. rewrite Z.shiftr_0_r. f_equal.
  rewrite IH, (seqZ_shift (0 + 1)), map_map. apply map_ext_in. intros i Hi%list_elem_of_In%elem_of_seqZ.
  rewrite Z.shiftr_shiftr by lia. do 2 f_equal. lia.
Qed.

Lemma lanes8_bytes v : lanes 8 v = xmm_bytes v.
Proof. destruct v as [l h]. unfold xmm_bytes. by rewrite !le_bytes_lanes. Qed.

Lemma le_bytes_le_value l : bytes_ok l -> le_bytes (length l) (le_value l) = l.
Proof.
  induction l as [|b l IH]; intros Hl; [done|]. apply Forall_cons in Hl as [Hb Hl].
  unfold is_byte in Hb. cbn [le_bytes le_value length].
  rewrite lor_add_low by (change (2 ^ 8) with 256; lia). rewrite Z.shiftl_mul_pow2 by lia. f_equal.
  - unfold u8, wrap. rewrite Z.mod_add, Z.mod_small; lia.
  - rewrite Z.shiftr_div_pow2, Z.div_add, Z.div_small by (change (2 ^ 8) with 256; lia). apply IH, Hl.
Qed.

Lemma xmm_of_bytes_lanes l : length l = 16%nat -> bytes_ok l ->
  xmm_ok (xmm_of_bytes l) /\ lanes 8 (xmm_of_bytes l) = l.
Proof.
  intros Hlen Hl. unfold xmm_of_bytes.
  assert (bytes_ok (subspan l 0 8) /\ bytes_ok (subspan l 8 8)) as [H0 H8]
    by (split; apply Forall_take, Forall_drop, Hl).
  assert (length (subspan l 0 8) = 8%nat /\ length (subspan l 8 8) = 8%nat) as [L0 L8]
    by (split; rewrite length_subspan; unfold zlength; lia).
  split.
  - split; cbn [low high]; [pose proof (le_value_range _ H0) as H|pose proof (le_value_range _ H8) as H];
      unfold zlength in H; rewrite ?L0, ?L8 in H; exact H.
  - rewrite lanes8_bytes. unfold xmm_bytes. cbn [low high].
    pose proof (le_bytes_le_value _ H0) as E0. pose proof (le_bytes_le_value _ H8) as E8.
    rewrite L0 in E0. rewrite L8 in E8. rewrite E0, E8.
    unfold subspan. change (Z.to_nat 0) with 0%nat. rewrite drop_0.
    rewrite (take_ge (drop _ l)) by (rewrite length_drop, Hlen; reflexivity). apply take_drop.
Qed.

Lemma xmm_bytes_ok v : bytes_ok (xmm_bytes v).
Proof. apply Forall_app; split; apply le_bytes_ok. Qed.

Lemma length_xmm_bytes v : length (xmm_bytes v) = 16%nat.
Proof. unfold xmm_bytes. by rewrite length_app, !length_le_bytes. Qed.

(** PALIGNR: byte [i] of the result is byte [count + i] of source and destination. *)
Definition align_lanes (count : Z) (destination source : list Z) : list Z :=
  map (fun i => nth (Z.to_nat (count + i)) (source ++ destination) 0) (seqZ 0 16).

Lemma align_bytes cat count : length cat = 32%nat -> 0 <= count ->
  (if count <? zlength cat
   then overwrite (replicate 16 0) 0 (subspan cat count (Z.min 16 (zlength cat - count)))
   else replicate 16 0) = map (fun i => nth (Z.to_nat (count + i)) cat 0) (seqZ 0 16).
Proof.
  intros Hlen Hc.
  assert (zlength cat = 32) as Hz by (unfold zlength; lia). rewrite Hz.
  assert (forall i : nat, (i < 16)%nat -> count + Z.of_nat i >= 32 -> nth (Z.to_nat (count + Z.of_nat i)) cat 0 = 0) as Hout
    by (intros; apply nth_overflow; lia).
  apply list_eq. intros i. destruct (decide (i < 16)%nat) as [Hi|Hi].
  - rewrite (list_lookup_fmap _ (seqZ 0 16)), lookup_seqZ_lt by lia. cbn [fmap option_fmap option_map].
    rewrite Z.add_0_l. assert (replicate 16 0 !! i = Some 0) as Hr by by apply lookup_replicate_2.
    destruct (Z.ltb_spec count 32) as [H|H]; [|rewrite Hout by lia; done].
    pose proof (length_subspan cat count (Z.min 16 (32 - count)) ltac:(lia) ltac:(lia) ltac:(lia)) as Hs.
    rewrite lookup_overwrite by (unfold zlength in *; rewrite ?Hs; cbn; lia). case_decide as Hd.
    + rewrite Hs in Hd. change (Z.to_nat 0) with 0%nat in *. pose proof (Z.le_min_r 16 (32 - count)).
      unfold subspan. rewrite lookup_take_lt, lookup_drop by lia. symmetry.
      replace (Z.to_nat (count + Z.of_nat i)) with (Z.to_nat count + (i - 0))%nat by lia.
      rewrite nth_lookup. assert (Z.to_nat count + (i - 0) < 32)%nat as Hlt by lia.
      destruct (cat !! (Z.to_nat count + (i - 0))%nat) as [x|] eqn:Hx; [done|].
      apply lookup_ge_None_1 in Hx. rewrite Hlen in Hx. lia.
    + rewrite Hr, Hout by lia. done.
  - rewrite !lookup_ge_None_2; [done|rewrite length_map, length_seqZ; lia|].
    destruct (_ <? _) eqn:E; bool_to_prop; [|by rewrite length_replicate; lia].
    rewrite length_overwrite; rewrite ?length_replicate; try lia.
    unfold zlength at 1. rewrite length_subspan by lia. unfold zlength. cbn. lia.
Qed.

Lemma align_holds st d s count : vector_ok st -> 0 <= d < 16 -> 0 <= s < 16 -> 0 <= count < 256 ->
  holds_lanes st d 8 (align_lanes count (lanes 8 (get_xmm d st)) (lanes 8 (get_xmm s st)))
    (alignRightXmmBytes st d s count).
Proof.
  intros Hst Hd Hs Hc. unfold alignRightXmmBytes, with_xmm.
  rewrite !invalid_xmm_false by done. rewrite (proj2 (Z.ltb_ge _ _)) by lia. cbn [orb]. cbv zeta.
  rewrite align_bytes by (rewrite ?length_app, ?length_xmm_bytes; lia).
  unfold align_lanes. rewrite !lanes8_bytes. eexists. split; [done|]. apply xmm_of_bytes_lanes.
  - by rewrite length_map, length_seqZ.
  - apply Forall_fmap, Forall_forall. intros i _. unfold compose.
    assert (bytes_ok (xmm_bytes (get_xmm s st) ++ xmm_bytes (get_xmm d st))) as Hok
      by (apply Forall_app; split; apply xmm_bytes_ok).
    rewrite nth_lookup. destruct (_ !! _) as [b|] eqn:E; [|by unfold is_byte].
    cbn. by apply (Forall_lookup_1 _ _ _ _ Hok E).
Qed.

(** *** Blend: one word replaced at a time *)

Definition blend_word (index word : Z) (result : XmmValue) : XmmValue :=
  let shift := index mod 4 * 16 in
  let wordMask := u64 (Z.shiftl 0xFFFF shift) in
  set_half (index <? 4) (Z.lor (Z.land (half (index <? 4) result) (not64 wordMask)) (u64 (Z.shiftl word shift))) result.

Lemma word_replaced x word m n i : 0 <= m < 4 -> 0 <= n < 4 -> in_range 16 word -> 0 <= i < 16 ->
  Z.testbit (Z.lor (Z.land x (not64 (u64 (Z.shiftl 0xFFFF (m * 16))))) (u64 (Z.shiftl word (m * 16)))) (i + n * 16) =
  if m =? n then Z.testbit word i else Z.testbit x (i + n * 16).
Proof.
  intros Hm Hn Hw Hi. change 0xFFFF with (Z.ones 16). unfold not64, u64.
  rewrite Z.lor_spec, Z.land_spec, !wrap_testbit, Z.lnot_spec, wrap_testbit, !Z.shiftl_spec by lia.
  destruct (Z.ltb_spec (i + n * 16) 64); [|lia].
  destruct (Z.eqb_spec m n) as [->|Hmn].
  - rewrite Z.ones_spec_low by lia. cbn. rewrite andb_false_r. cbn. f_equal. lia.
  - destruct (Z.lt_ge_cases n m).
    + rewrite !(Z.testbit_neg_r _ (i + n * 16 - m * 16)) by lia. cbn. by rewrite andb_true_r, orb_false_r.
    + rewrite Z.ones_spec_high, (testbit_above 16 word) by (done || lia). cbn. by rewrite andb_true_r, orb_false_r.
Qed.

Lemma blend_word_lane index word v j : 0 <= index < 8 -> 0 <= j < 8 -> in_range 16 word ->
  lane_at 16 (blend_word index word v) j = if index =? j then word else lane_at 16 v j.
Proof.
  intros Hi Hj Hw. unfold lane_at, blend_word. change (64 / 16) with 4. cbv zeta.
  pose proof (Z.mod_pos_bound index 4 ltac:(lia)) as Hmi. pose proof (Z.mod_pos_bound j 4 ltac:(lia)) as Hmj.
  assert ((index =? j) = Bool.eqb (index <? 4) (j <? 4) && (index mod 4 =? j mod 4)) as ->.
  { destruct (Z.eqb_spec index j) as [->|Hij]; [by rewrite Bool.eqb_reflx, Z.eqb_refl|]. symmetry.
    pose proof (Z.div_mod index 4 ltac:(lia)). pose proof (Z.div_mod j 4 ltac:(lia)).
    destruct (Z.ltb_spec index 4), (Z.ltb_spec j 4); cbn [Bool.eqb andb]; try done; apply Z.eqb_neq; lia. }
  apply Z.bits_inj'. intros b Hb. rewrite wrap_testbit, Z.shiftr_spec by lia.
  assert (forall x, in_range 16 x -> Z.testbit x b = (b <? 16) && Z.testbit x b) as Hsplit.
  { intros x Hx. destruct (Z.ltb_spec b 16); [done|]. apply (testbit_above 16); [done|lia]. }
  match goal with |- _ = Z.testbit ?x b =>
    rewrite (Hsplit x) by (destruct (_ && _); [done|apply wrap_range; lia]) end.
  destruct (Z.ltb_spec b 16) as [Hb16|]; [|done]. cbn [andb].
  destruct (index <? 4), (j <? 4); cbn [Bool.eqb andb set_half half low high];
    try (rewrite wrap_testbit, Z.shiftr_spec by lia; by rewrite (proj2 (Z.ltb_lt b 16)) by lia);
    (rewrite word_replaced by (done || lia); destruct (_ =? _); [done|];
     rewrite wrap_testbit, Z.shiftr_spec by lia; by rewrite (proj2 (Z.ltb_lt b 16)) by lia).
Qed.

Lemma blend_word_ok index word v : xmm_ok v -> xmm_ok (blend_word index word v).
Proof.
  intros [Hl Hh]. unfold blend_word, set_half.
  assert (forall x y z, in_range 64 x -> in_range 64 (Z.lor (Z.land x (not64 y)) (u64 z))) as H.
  { intros x y z _. apply lor_range; [lia| |apply wrap_range; lia].
    apply land_range_r; [lia|]. apply wrap_range. lia. }
  destruct (index <? 4); split; cbn [low high half]; try done; by apply H.
Qed.

(** PBLENDW: word [i] is taken from the source where bit [i] of the mask is set. *)
Definition blend_lanes (mask : Z) (destination source : list Z) : list Z :=
  map (fun i => nth (Z.to_nat i) (if Z.testbit mask i then source else destination) 0) (seqZ 0 8).

Lemma blend_loop mask source n : (n <= 8)%nat -> forall v, xmm_ok v ->
  let result := fold_left (fun result index =>
    if Z.land (Z.shiftr mask index) 1 =? 0 then result
    else blend_word index (lane_at 16 source index) result) (seqZ 0 (Z.of_nat n)) v in
  xmm_ok result /\ forall j, 0 <= j < 8 ->
    lane_at 16 result j = lane_at 16 (if (j <? Z.of_nat n) && Z.testbit mask j then source else v) j.
Proof.
  intros Hn v Hv. induction n as [|n IH].
  { split; [done|]. intros j Hj. by rewrite (proj2 (Z.ltb_ge j _)) by lia. }
  destruct IH as [Hok IH]; [lia|]. replace (Z.of_nat (S n)) with (Z.of_nat n + 1) by lia. cbv zeta.
  rewrite seqZ_app, fold_left_app by lia. change (seqZ (0 + Z.of_nat n) 1) with [Z.of_nat 0 + (0 + Z.of_nat n)].
  cbn [fold_left]. rewrite !Z.add_0_l. set (r := fold_left _ _ v) in *.
  rewrite land_1_flag by lia. destruct (Z.testbit mask (Z.of_nat n)) eqn:Hbit; cbn [flag_if].
  - change (flagCarry =? 0) with false. cbv iota. split; [by apply blend_word_ok|]. intros j Hj.
    rewrite blend_word_lane by (try lia; apply lane_at_range; by right; left).
    destruct (Z.eqb_spec (Z.of_nat n) j) as [<-|Hne].
    + rewrite (proj2 (Z.ltb_lt _ _)) by lia. cbn [andb]. by rewrite Hbit.
    + rewrite IH by done. replace (j <? Z.of_nat n + 1) with (j <? Z.of_nat n); [done|].
      destruct (Z.ltb_spec j (Z.of_nat n)), (Z.ltb_spec j (Z.of_nat n + 1)); lia || done.
  - cbn [Z.eqb]. split; [done|]. intros j Hj. rewrite IH by done. do 2 f_equal.
    destruct (Z.eq_dec j (Z.of_nat n)) as [->|Hne]; [by rewrite Hbit, !andb_false_r|].
    destruct (Z.ltb_spec j (Z.of_nat n)), (Z.ltb_spec j (Z.of_nat n + 1)); lia || done.
Qed.

Lemma blend_holds st d s mask : vector_ok st -> 0 <= d < 16 -> 0 <= s < 16 -> 0 <= mask < 256 ->
  holds_lanes st d 16 (blend_lanes mask (lanes 16 (get_xmm d st)) (lanes 16 (get_xmm s st)))
    (blendXmmWords st d s mask).
Proof.
  intros Hst Hd Hs Hm. unfold blendXmmWords, with_xmm.
  rewrite !invalid_xmm_false by done. rewrite (proj2 (Z.ltb_ge _ _)) by lia. cbn [orb]. cbv zeta.
  pose proof (blend_loop mask (get_xmm s st) 8 ltac:(lia) (get_xmm d st) (get_xmm_ok d st Hst Hd)) as [Hok Hl].
  rewrite (fold_left_ext_in _ (fun result index =>
    if Z.land (Z.shiftr mask index) 1 =? 0 then result
    else blend_word index (lane_at 16 (get_xmm s st) index) result)).
  2:{ intros r i _. unfold blend_word, lane_at. cbv zeta. change (64 / 16) with 4.
      rewrite wrap_land by lia. by change (Z.ones 16) with 0xFFFF. }
  eexists. split; [done|]. split; [exact Hok|]. unfold blend_lanes, lanes at 1.
  apply map_ext_in. intros i Hi%list_elem_of_In%elem_of_seqZ. change (Z.of_nat 8) with 8 in Hl.
  rewrite Hl by lia. rewrite (proj2 (Z.ltb_lt _ _)) by lia. cbn [andb].
  destruct (Z.testbit mask i); by rewrite lane_nth by (change (128 / 16) with 8; lia).
Qed.

(** *** Interleaving, byte masks and bit tests *)

(** PUNPCKLWD: the low words of both registers, alternating. *)
Definition interleave_low (destination source : list Z) : list Z :=
  flat_map (fun i => [nth i destination 0; nth i source 0]) (seq 0 (length destination / 2)).

Lemma unpack_words_holds st d s : vector_ok st -> 0 <= d < 16 -> 0 <= s < 16 ->
  holds_lanes st d 16 (interleave_low (lanes 16 (get_xmm d st)) (lanes 16 (get_xmm s st)))
    (unpackLowXmmWords st d s).
Proof.
  intros Hst Hd Hs. unfold unpackLowXmmWords, with_xmm. rewrite !invalid_xmm_false by done. cbn [orb]. cbv zeta.
  set (x := get_xmm d st). set (y := get_xmm s st).
  pose (f := fun i => lane_at 16 (if Z.even i then x else y) (i / 2)).
  assert (forall i, in_range 16 (f i)) as Hf by (intros; apply lane_at_range; by right; left).
  pose proof (lanes_loop_lanes 16 f ltac:(by right; left) (fun i _ => Hf i)) as [Hok Hl].
  exists (lanes_loop 16 f). split; [|split; [exact Hok|]].
  - f_equal. destruct x as [xl xh], y as [yl yh].
    assert (forall v k, Z.land (Z.shiftr v k) 0xFFFF = wrap 16 (Z.shiftr v k)) as Hw
      by (intros; rewrite wrap_land by lia; done).
    change (seqZ 0 4) with [0; 1; 2; 3]. cbn [fold_left low high]. rewrite !Hw. reflexivity.
  - rewrite Hl. subst f. unfold interleave_low. rewrite length_lanes. destruct x, y. reflexivity.
Qed.

Lemma mask_bits (f : Z -> Z) n i : 0 <= i ->
  Z.testbit (fold_left (fun mask index => Z.lor mask (Z.shiftl (Z.land (f index) 1) index)) (seqZ 0 (Z.of_nat n)) 0) i =
  (i <? Z.of_nat n) && Z.testbit (f i) 0.
Proof.
  intros Hi. induction n as [|n IH].
  { cbn. rewrite Z.bits_0. destruct (Z.ltb_spec i (Z.of_nat 0)); [lia|done]. }
  replace (Z.of_nat (S n)) with (Z.of_nat n + 1) by lia.
  rewrite seqZ_app, fold_left_app by lia. change (seqZ (0 + Z.of_nat n) 1) with [Z.of_nat 0 + (0 + Z.of_nat n)].
  cbn [fold_left]. rewrite !Z.add_0_l, Z.lor_spec, IH, Z.shiftl_spec, Z.land_spec by lia.
  destruct (Z.lt_trichotomy i (Z.of_nat n)) as [H|[->|H]].
  - rewrite (Z.testbit_neg_r _ (i - Z.of_nat n)) by lia.
    rewrite !(proj2 (Z.ltb_lt _ _)) by lia. cbn. by rewrite orb_false_r.
  - rewrite Z.ltb_irrefl, Z.sub_diag. rewrite (proj2 (Z.ltb_lt _ _)) by lia. cbn. by rewrite andb_true_r.
  - change 1 with (2 ^ 0) at 1. rewrite Z.pow2_bits_false, andb_false_r by lia.
    rewrite !(proj2 (Z.ltb_ge i _)) by lia. done.
Qed.

(** The mask that PMOVMSKB moves: the sign bit of every byte. *)
Definition sign_mask (bytes : list Z) (mask : Z) : Prop :=
  in_range 16 mask /\ forall i, 0 <= i < 16 -> Z.testbit mask i = Z.testbit (nth (Z.to_nat i) bytes 0) 7.

Lemma byte_mask_ok st d s : vector_ok st -> 0 <= d < 16 -> 0 <= s < 16 ->
  exists mask, sign_mask (lanes 8 (get_xmm s st)) mask /\
    moveXmmByteMask32 st d s = set_gpr (register_of d) mask st.
Proof.
  intros Hst Hd Hs. unfold moveXmmByteMask32, with_xmm. change (16 <=? d) with (invalid_xmm d).
  rewrite !invalid_xmm_false by done. cbn [orb]. cbv zeta.
  set (v := get_xmm s st). pose proof (mask_bits (fun index => Z.shiftr (half (index <? 8) v) (index mod 8 * 8 + 7)) 16) as Hbits.
  change (Z.of_nat 16) with 16 in Hbits. cbv beta in Hbits. set (mask := fold_left _ _ _) in *.
  assert (in_range 16 mask) as Hr.
  { assert (mask = wrap 16 mask) as ->; [|apply wrap_range; lia]. apply Z.bits_inj'. intros i Hi.
    rewrite wrap_testbit, Hbits by lia. destruct (i <? 16); [done|by rewrite andb_false_l]. }
  exists mask. split; [split; [done|]|].
  - intros i Hi. rewrite Hbits, lane_nth by (done || lia). rewrite (proj2 (Z.ltb_lt _ _)) by lia. cbn [andb].
    unfold lane_at. cbv zeta. change (64 / 8) with 8. pose proof (Z.mod_pos_bound i 8 ltac:(lia)).
    rewrite wrap_testbit, !Z.shiftr_spec by lia. cbn [Z.ltb Z.compare Pos.compare Pos.compare_cont andb]. f_equal. lia.
  - unfold copy_to_register. f_equal. change (8 * 8) with 64.
    pose proof (get_gpr_range (register_of d) st (vector_state _ Hst)) as Hg.
    assert (in_range 64 mask) by by apply (in_range_le 16).
    rewrite merge_low by (done || lia || by apply wrap_range). rewrite !wrap_small by done. lia.
Qed.

Lemma ldiff_not64 a b : in_range 64 b -> Z.land (not64 a) b = Z.ldiff b a.
Proof.
  intros Hb. apply Z.bits_inj'. intros i Hi. unfold not64, u64.
  rewrite Z.ldiff_spec, Z.land_spec, wrap_testbit, Z.lnot_spec by lia.
  destruct (Z.ltb_spec i 64); [by rewrite andb_comm|]. by rewrite (testbit_above 64 b) by (done || lia).
Qed.

Lemma ldiff_range w a b : 0 <= w -> in_range w b -> in_range w (Z.ldiff b a).
Proof.
  intros Hw Hb. assert (Z.ldiff b a = wrap w (Z.ldiff b a)) as ->; [|by apply wrap_range].
  apply Z.bits_inj'. intros i Hi. rewrite wrap_testbit, Z.ldiff_spec by lia.
  destruct (Z.ltb_spec i w); [done|]. by rewrite (testbit_above w b) by (done || lia).
Qed.

(** PTEST: ZF when no bit is common, CF when the source has no bit outside the
    destination; every other arithmetic flag is cleared. *)
Definition test_flags (destination source : list Z) : flags :=
  mkFlags (forallb (fun p => Z.ldiff p.2 p.1 =? 0) (zip destination source)) false false
    (forallb (fun p => Z.land p.1 p.2 =? 0) (zip destination source)) false false.

Lemma lor_zero a b : (Z.lor a b =? 0) = (a =? 0) && (b =? 0).
Proof.
  pose proof (Z.lor_eq_0_iff a b) as H.
  destruct (Z.eqb_spec (Z.lor a b) 0), (Z.eqb_spec a 0), (Z.eqb_spec b 0); cbn; tauto.
Qed.

Lemma test_bits_ok st d s : vector_ok st -> 0 <= d < 16 -> 0 <= s < 16 ->
  testXmmBits128 st d s =
  set_rflags (commit arithmeticFlagMask (test_flags (lanes 64 (get_xmm d st)) (lanes 64 (get_xmm s st))) st.(rflags)) st.
Proof.
  intros Hst Hd Hs. unfold testXmmBits128, with_xmm. rewrite !invalid_xmm_false by done. cbn [orb]. cbv zeta.
  pose proof (get_xmm_ok d st Hst Hd) as Hx. pose proof (get_xmm_ok s st Hst Hs) as Hy.
  rewrite !lanes64, !ldiff_not64, !lor_zero by (done || apply Hy). f_equal.
  unfold test_flags. cbn [zip zip_with forallb fst snd]. rewrite !andb_true_r, <- commit_chain.
  cbn [set_if]. rewrite !set_if_lor, <- !Z.lor_assoc. f_equal. f_equal. apply Z.lor_comm.
Qed.

(** The value a comparison leaves in a lane. *)
Definition equal_mask (w a b : Z) : Z := if a =? b then 2 ^ w - 1 else 0.

Lemma equal_mask_range w a b : 0 <= w -> in_range w (equal_mask w a b).
Proof. intros Hw. unfold equal_mask. pose proof (Z.pow_pos_nonneg 2 w). destruct (a =? b); unfold in_range; lia. Qed.

Lemma wrap_wrap_range w : 0 <= w -> forall a b, in_range w a -> in_range w b -> in_range w (wrap w (a + b)).
Proof. intros Hw a b _ _. by apply wrap_range. Qed.

Lemma shift_left_holds st d count : vector_ok st -> 0 <= d < 16 -> 0 <= count ->
  holds_lanes st d 32 (map (fun a => wrap 32 (a * 2 ^ count)) (lanes 32 (get_xmm d st)))
    (shiftLeftXmmDwords128 st d count).
Proof.
  intros Hst Hd Hc. unfold shiftLeftXmmDwords128, with_xmm. rewrite invalid_xmm_false by done. cbv zeta.
  destruct (Z.ltb_spec count 32) as [H|H].
  - apply holds_loop; [by do 2 right; left|intros; apply wrap_range; lia|].
    unfold lanes. rewrite map_map. apply map_ext. intros i. unfold u32, u64.
    rewrite wrap_weaken, Z.shiftl_mul_pow2 by lia. done.
  - rewrite lanes32. cbn [map]. rewrite !wrap_shl_out by lia.
    apply (holds_dwords st d 0 0 0 0); by apply in_range_0.
Qed.

Lemma compare_dwords_holds st d s : vector_ok st -> 0 <= d < 16 -> 0 <= s < 16 ->
  holds_lanes st d 64 (zip_with (equal_mask 64) (lanes 64 (get_xmm d st)) (lanes 64 (get_xmm s st)))
    (compareEqualXmmQwords128 st d s).
Proof.
  intros Hst Hd Hs. unfold compareEqualXmmQwords128, with_xmm. rewrite !invalid_xmm_false by done.
  rewrite !lanes64 by by apply get_xmm_ok. by apply holds_qwords; apply (equal_mask_range 64).
Qed.

Lemma and_not_holds st d s : vector_ok st -> 0 <= d < 16 -> 0 <= s < 16 ->
  holds_lanes st d 64 (zip_with (fun a b => Z.ldiff b a) (lanes 64 (get_xmm d st)) (lanes 64 (get_xmm s st)))
    (andNotXmm128 st d s).
Proof.
  intros Hst Hd Hs. unfold andNotXmm128, with_xmm. rewrite !invalid_xmm_false by done. cbv zeta.
  pose proof (get_xmm_ok s st Hst Hs) as [Hl Hh]. rewrite !lanes64, !ldiff_not64 by (done || by apply get_xmm_ok).
  by apply holds_qwords; apply ldiff_range.
Qed.

Lemma shuffle_dwords_holds st d s control : vector_ok st -> 0 <= d < 16 -> 0 <= s < 16 -> 0 <= control < 256 ->
  holds_lanes st d 32
    (map (fun i => nth (Z.to_nat (control / 4 ^ i mod 4)) (lanes 32 (get_xmm s st)) 0) [0; 1; 2; 3])
    (shuffleXmmDwords st d s control).
Proof.
  intros Hst Hd Hs Hc. unfold shuffleXmmDwords, with_xmm. rewrite !invalid_xmm_false by done.
  rewrite (proj2 (Z.ltb_ge _ _)) by lia. cbn [orb]. cbv zeta. rewrite <- !lanes32.
  assert (forall i, 0 <= i -> Z.land (Z.shiftr control (i * 2)) 3 = control / 4 ^ i mod 4) as H.
  { intros i Hi. change 3 with (Z.ones 2). rewrite Z.land_ones, Z.shiftr_div_pow2 by lia.
    by rewrite (Z.mul_comm i), Z.pow_mul_r by lia. }
  rewrite !H by lia. apply holds_dwords; apply nth_dword_range.
Qed.

(** Every two-operand register form of the integer vector helpers. *)
Definition register_forms : list (X86State -> Z -> Z -> X86State) :=
  [testXmmBits128; addXmmWords128; unpackLowPackedSingleXmm; unpackHighPackedSingleXmm;
   compareEqualXmmBytes128; compareEqualXmmDwords128; compareEqualXmmQwords128; addXmmDwords128;
   horizontalAddXmmDwords128; andNotXmm128; moveXmmByteMask32; shuffleXmmBytes; unpackLowXmmWords].

(** The register forms on lanes.  Lanes are numbered from the least significant;
    [D] and [S] are the operands. *)
Definition lane_results (st : X86State) (d s : Z) : Prop :=
  let D w := lanes w (get_xmm d st) in
  let S w := lanes w (get_xmm s st) in
  let dword l i := nth i l 0 in
  holds_lanes st d 16 (zip_with (fun a b => wrap 16 (a + b)) (D 16) (S 16)) (addXmmWords128 st d s) /\
  holds_lanes st d 32 (zip_with (fun a b => wrap 32 (a + b)) (D 32) (S 32)) (addXmmDwords128 st d s) /\
  holds_lanes st d 8 (zip_with (equal_mask 8) (D 8) (S 8)) (compareEqualXmmBytes128 st d s) /\
  holds_lanes st d 32 (zip_with (equal_mask 32) (D 32) (S 32)) (compareEqualXmmDwords128 st d s) /\
  holds_lanes st d 64 (zip_with (equal_mask 64) (D 64) (S 64)) (compareEqualXmmQwords128 st d s) /\
  holds_lanes st d 64 (zip_with (fun a b => Z.ldiff b a) (D 64) (S 64)) (andNotXmm128 st d s) /\
  holds_lanes st d 32 (map (fun p => wrap 32 (dword p.1 p.2 + dword p.1 (p.2 + 1)%nat))
    [(D 32, 0%nat); (D 32, 2%nat); (S 32, 0%nat); (S 32, 2%nat)]) (horizontalAddXmmDwords128 st d s) /\
  holds_lanes st d 32 [dword (D 32) 0%nat; dword (S 32) 0%nat; dword (D 32) 1%nat; dword (S 32) 1%nat]
    (unpackLowPackedSingleXmm st d s) /\
  holds_lanes st d 32 [dword (D 32) 2%nat; dword (S 32) 2%nat; dword (D 32) 3%nat; dword (S 32) 3%nat]
    (unpackHighPackedSingleXmm st d s) /\
  holds_lanes st d 16 (interleave_low (D 16) (S 16)) (unpackLowXmmWords st d s) /\
  holds_lanes st d 8 (shuffle_lanes (D 8) (S 8)) (shuffleXmmBytes st d s).

Lemma lane_results_ok st d s : vector_ok st -> 0 <= d < 16 -> 0 <= s < 16 -> lane_results st d s.
Proof.
  intros Hst Hd Hs. unfold lane_results. cbv zeta.
  split_and!; try (by apply compare_dwords_holds || by apply and_not_holds || by apply unpack_words_holds);
    match goal with |- holds_lanes _ _ _ _ (?f _ _ _) => unfold f, with_xmm end;
    rewrite !invalid_xmm_false by done; cbn [orb]; cbv zeta.
  - apply (holds_zip st d 16 (fun a b => wrap 16 (a + b))); [by right; left|]. by apply wrap_wrap_range.
  - apply (holds_zip st d 32 (fun a b => wrap 32 (a + b))); [by do 2 right; left|]. by apply wrap_wrap_range.
  - apply (holds_zip st d 8 (equal_mask 8)); [by left|]. intros. by apply equal_mask_range.
  - apply (holds_zip st d 32 (equal_mask 32)); [by do 2 right; left|]. intros. by apply equal_mask_range.
  - rewrite <- !lane_nth by done. by apply holds_dwords; apply wrap_range.
  - rewrite !lanes32. by apply holds_dwords; apply wrap_range.
  - rewrite !lanes32. by apply holds_dwords; apply wrap_range.
  - apply holds_shuffle. unfold lanes. apply map_ext_in. intros i Hi%list_elem_of_In%elem_of_seqZ.
    change (128 / 8) with 16 in Hi. by rewrite byteAt_lane by lia.
Qed.


(** A state whose vector registers are all zero but two. *)
Definition sampleVectors : X86State :=
  set_xmm 1 (mkXmmValue (2 ^ 64 - 1) 5) (set_xmm 0 (mkXmmValue 3 (2 ^ 63)) initialState).

Lemma sampleVectors_ok : vector_ok sampleVectors.
Proof.
  split; [split; [split; [reflexivity|by apply Forall_replicate]|done|done]|..]; (split; [reflexivity|]);
    repeat constructor; done.
Qed.

