(* ===== verification/VectorMemory.v ===== *)
(** The memory forms of the integer vector helpers.

    A memory form reads sixteen bytes (or the width of its instruction), checks
    its operands and applies the lane function of the register form, with the
    bytes as the second operand.  The two contracts below are proved once and
    every helper discharges them. *)
From S2P Require Import Prelude X86State FlagSpec FlagHelpers AddressSpace AddressSpaceInv AddressSpaceAccess AddressSpaceWrite ExecutionContext VectorHelpers VectorLanes.

(** ** Contracts *)

(** The error the operand checks raise, in the order of the source. *)
Definition operand_error (r : Z) (register alignment : string) (misaligned : bool) : option string :=
  if 16 <=? r then Some register else if misaligned then Some alignment else None.

(** The outcome of a call whose checks may reject it. *)
Definition rejects (result : outcome CallResult) (ctx : GuestExecutionContext) (st : X86State)
    (at_ : option (Z * Z)) (message : string) : Prop :=
  result = Ok (Some (set_fault (runtime_error message) at_ ctx), st, false).

(** A helper that reads [n] bytes at [a]: a missing address space or a bad
    operand is recorded and nothing changes; an unreadable byte is recorded and
    nothing changes; otherwise the register file is related to the bytes. *)
Definition implements_read (helper : option GuestExecutionContext -> X86State -> outcome CallResult)
    (missing : string) (error : option string) (a n : Z)
    (result : list Z -> X86State -> X86State -> Prop) : Prop :=
  forall st, vector_ok st -> helper None st = Ok (None, st, false) /\
  forall ctx, match ctx.(addressSpace), error with
  | None, _ => rejects (helper (Some ctx) st) ctx st (Some (a, n)) missing
  | Some s, Some message => rejects (helper (Some ctx) st) ctx st (Some (a, n)) message
  | Some s, None => space_ok s ->
      match fetch_all s a (Z.to_nat n) with
      | Ok bytes => exists s' st', helper (Some ctx) st = Ok (Some (set_space s' ctx), st', true) /\
          same_memory s s' /\ space_ok s' /\ result bytes st st'
      | Throw e => exists s', helper (Some ctx) st = Ok (Some (set_fault e (Some (a, n)) (set_space s' ctx)), st, false) /\
          same_memory s s' /\ space_ok s'
      | Undefined => False
      end
  end.

(** A helper that writes the bytes [data st] at [a]. *)
Definition implements_write (helper : option GuestExecutionContext -> X86State -> outcome CallResult)
    (missing : string) (error : option string) (a n : Z) (data : X86State -> list Z) : Prop :=
  forall st, vector_ok st -> helper None st = Ok (None, st, false) /\
  forall ctx, match ctx.(addressSpace), error with
  | None, _ => rejects (helper (Some ctx) st) ctx st (Some (a, n)) missing
  | Some s, Some message => rejects (helper (Some ctx) st) ctx st (Some (a, n)) message
  | Some s, None => space_ok s ->
      match check_all s Permission_Write a (Z.to_nat n) with
      | Ok _ => exists s', helper (Some ctx) st = Ok (Some (set_space s' ctx), st, true) /\
          write_effect s s' a (data st) /\ space_ok s'
      | Throw e => exists s', helper (Some ctx) st = Ok (Some (set_fault e (Some (a, n)) (set_space s' ctx)), st, false) /\
          same_memory s s' /\ space_ok s'
      | Undefined => False
      end
  end.

(** The body every memory form has. *)
Definition guarded (error : option string) (body : M Machine unit) : M Machine unit :=
  match error with Some message => throw (runtime_error message) | None => body end.

Lemma reads (helper : option GuestExecutionContext -> X86State -> outcome CallResult) missing error a n F result :
  in_range 64 a ->
  (forall c st, helper c st = call c st missing (Some (a, n))
    (guarded error (do! bytes <- on_space (readBytes a n); modify_state (F bytes)))) ->
  (error = None -> forall bytes st, bytes_ok bytes -> length bytes = Z.to_nat n -> vector_ok st ->
    result bytes st (F bytes st)) ->
  implements_read helper missing error a n result.
Proof.
  intros Ha Hhelper Hresult st Hst. split; [by rewrite Hhelper|]. intros ctx.
  destruct (addressSpace ctx) as [s|] eqn:Hs; [|unfold rejects; rewrite Hhelper; by apply call_no_space].
  unfold rejects. rewrite Hhelper, (call_run ctx s) by done. destruct error as [message|]; [done|].
  intros Hok. cbn [guarded].
  destruct (readInto_spec a n s (space_inv _ Hok) (space_eager _ Hok) Ha) as (s' & E & Hm & Hi).
  assert (space_ok s') as Hok' by by apply (space_ok_same s).
  pose proof (fetch_all_defined s (Z.to_nat n) (space_inv _ Hok) a) as Hdef.
  destruct (fetch_all s a (Z.to_nat n)) as [bytes|e|] eqn:Hf; [| |done].
  - exists s', (F bytes st). destruct (fetch_all_bytes _ _ Hok _ _ Hf) as [Hb Hl].
    erewrite bind_ok by (by erewrite on_space_run). cbn. by split_and!; [|done|done|apply Hresult].
  - exists s'. by erewrite bind_throw by (by erewrite on_space_run).
Qed.

Lemma writes (helper : option GuestExecutionContext -> X86State -> outcome CallResult) missing error a n data :
  in_range 64 a ->
  (forall c st, helper c st = call c st missing (Some (a, n)) (guarded error (on_space (writeBytes a (data st))))) ->
  (error = None -> forall st, vector_ok st -> bytes_ok (data st) /\ length (data st) = Z.to_nat n) ->
  implements_write helper missing error a n data.
Proof.
  intros Ha Hhelper Hdata st Hst. split; [by rewrite Hhelper|]. intros ctx.
  destruct (addressSpace ctx) as [s|] eqn:Hs; [|unfold rejects; rewrite Hhelper; by apply call_no_space].
  unfold rejects. rewrite Hhelper, (call_run ctx s) by done. destruct error as [message|]; [done|].
  intros Hok. cbn [guarded]. destruct (Hdata eq_refl st Hst) as [Hb Hl].
  pose proof (writeBytes_spec s a (data st) (space_inv _ Hok) (space_eager _ Hok) Ha) as H. rewrite Hl in H.
  destruct (check_all s Permission_Write a (Z.to_nat n)) as [[]|e|]; [| |done].
  - destruct H as (s' & E & He). exists s'. erewrite on_space_run by done.
    split_and!; [done|done|by eapply space_ok_written].
  - destruct H as (s' & E & Hm & Hi). exists s'. erewrite on_space_run by done.
    split_and!; [done|done|by apply (space_ok_same s)].
Qed.

(** ** The operand as a register value *)

Lemma span_as_map l off n : 0 <= off -> 0 <= n -> off + n <= zlength l ->
  map (fun i => nth (Z.to_nat (off + i)) l 0) (seqZ 0 n) = subspan l off n.
Proof.
  intros Ho Hn Hl. apply list_eq. intros i. unfold zlength in Hl. destruct (decide (Z.of_nat i < n)) as [Hi|Hi].
  - rewrite (list_lookup_fmap _ (seqZ 0 n)), lookup_seqZ_lt by lia. cbn [fmap option_fmap option_map].
    unfold subspan. rewrite lookup_take_lt, lookup_drop by lia. rewrite nth_lookup.
    replace (Z.to_nat (off + (0 + Z.of_nat i))) with (Z.to_nat off + i)%nat by lia.
    destruct (l !! (Z.to_nat off + i)%nat) eqn:E; [done|]. apply lookup_ge_None_1 in E. lia.
  - rewrite !lookup_ge_None_2; [done| |]; [rewrite length_subspan by (unfold zlength; lia)|rewrite length_map, length_seqZ]; lia.
Qed.

Lemma pack_le_value l : pack 8 l = le_value l.
Proof. induction l as [|b l IH]; cbn; [done|]. by rewrite IH. Qed.

Lemma word_of_bytes_value l off n : bytes_ok l -> 0 <= off -> 0 <= n <= 8 -> off + n <= zlength l ->
  word_of_bytes l off n = le_value (subspan l off n).
Proof.
  intros Hl Ho Hn Hlen. unfold word_of_bytes. replace n with (Z.of_nat (Z.to_nat n)) at 1 by lia.
  assert (forall i, 0 <= i < Z.of_nat (Z.to_nat n) -> in_range 8 (nth (Z.to_nat (off + i)) l 0)) as Hr.
  { intros i Hi. destruct (nth_in_or_default (Z.to_nat (off + i)) l 0) as [Hin | ->]; [|by apply in_range_0].
    apply list_elem_of_In in Hin. unfold bytes_ok in Hl. rewrite Forall_forall in Hl. by apply Hl. }
  rewrite (half_loop 8 (fun i => nth (Z.to_nat (off + i)) l 0)) by (done || lia).
  by rewrite Z2Nat.id, span_as_map, pack_le_value by lia.
Qed.

Lemma bytes_of_word_bytes w : bytes_of_word w = le_bytes 8 w.
Proof. by rewrite le_bytes_lanes. Qed.

Lemma loaded_xmm l : bytes_ok l -> length l = 16%nat ->
  mkXmmValue (word_of_bytes l 0 8) (word_of_bytes l 8 8) = xmm_of_bytes l.
Proof. intros Hl Hlen. by rewrite !word_of_bytes_value by (done || lia || (unfold zlength; lia)). Qed.

(** A register is determined by its bytes. *)
Lemma xmm_of_bytes_unique v l : xmm_ok v -> lanes 8 v = l -> xmm_of_bytes l = v.
Proof.
  intros [Hl Hh] <-. rewrite lanes8_bytes. destruct v as [x y]. unfold xmm_bytes, xmm_of_bytes. cbn [low high] in *.
  assert (subspan (le_bytes 8 x ++ le_bytes 8 y) 0 8 = le_bytes 8 x) as -> by reflexivity.
  assert (subspan (le_bytes 8 x ++ le_bytes 8 y) 8 8 = le_bytes 8 y) as -> by reflexivity.
  by rewrite !le_value_le_bytes.
Qed.

(** [F] on the bytes is [f] on the lanes of the register that holds them. *)
Definition operand_lanes (r w : Z) (f : list Z -> list Z -> list Z) (bytes : list Z) (st st' : X86State) : Prop :=
  forall v, xmm_ok v -> lanes 8 v = bytes -> holds_lanes st r w (f (lanes w (get_xmm r st)) (lanes w v)) st'.

Lemma operand_of_bytes r w f bytes st st' :
  (forall v, xmm_of_bytes bytes = v -> xmm_ok v -> lanes 8 v = bytes ->
     holds_lanes st r w (f (lanes w (get_xmm r st)) (lanes w v)) st') ->
  operand_lanes r w f bytes st st'.
Proof. intros H v Hv Hl. apply H; [by apply xmm_of_bytes_unique|done|done]. Qed.

(** ** The helpers *)

Lemma operand_error_none r register alignment misaligned : 0 <= r ->
  operand_error r register alignment misaligned = None -> 0 <= r < 16.
Proof. intros Hr. unfold operand_error. destruct (Z.leb_spec 16 r); [done|lia]. Qed.

(** Unfold a memory form to its guarded body. *)
Ltac guarded_body r :=
  intros; cbv beta; match goal with |- ?lhs = _ => let h := get_head lhs in unfold h end;
  unfold operand_error, invalid_xmm, guarded; cbv zeta;
  destruct (16 <=? r); [reflexivity|]; first [reflexivity | destruct (_ && _); reflexivity].

Ltac solve_read r :=
  eapply reads; [done|guarded_body r|intros Hr%operand_error_none bytes st Hb Hl Hst; [cbv beta|done]].

Section Helpers.
Context (a r : Z) (Ha : in_range 64 a) (Hr0 : 0 <= r).

Lemma load_xmm_ok al : implements_read (fun c st => loadGuestXmm128 c st a r al)
  "generated XMM guest load has no address space"
  (operand_error r "generated XMM guest load has an invalid register"
     "aligned XMM guest address is not 16-byte aligned" (negb (al =? 0) && negb (Z.land a 0xF =? 0)))
  a 16 (operand_lanes r 8 (fun _ bytes => bytes)).
Proof using Ha Hr0.
  solve_read r. rewrite loaded_xmm by done. intros v Hv Hlv.
  rewrite (xmm_of_bytes_unique v bytes) by done. by exists v.
Qed.

Lemma compare_bytes_ok : implements_read (fun c st => compareEqualGuestBytesXmm128 c st a r)
  "generated PCMPEQB has no address space"
  (operand_error r "generated PCMPEQB has an invalid register" "" false)
  a 16 (operand_lanes r 8 (zip_with (equal_mask 8))).
Proof using Ha Hr0.
  solve_read r. intros v Hv Hlv. subst bytes. cbv zeta. apply holds_loop; [by left|..].
  - intros i _. apply (equal_mask_range 8). lia.
  - unfold lanes at 2 3. rewrite <- map_zip_with. apply map_ext_in.
    intros i Hi%list_elem_of_In%elem_of_seqZ. by rewrite lane_nth by done.
Qed.

Lemma compare_qwords_ok : implements_read (fun c st => compareEqualGuestQwordsXmm128 c st a r)
  "generated PCMPEQQ has no address space"
  (operand_error r "generated PCMPEQQ has an invalid register" "" false)
  a 16 (operand_lanes r 64 (zip_with (equal_mask 64))).
Proof using Ha Hr0.
  solve_read r. apply operand_of_bytes. intros v -> Hv _. rewrite !lanes64 by (done || by apply get_xmm_ok).
  by apply holds_qwords; apply (equal_mask_range 64).
Qed.

Lemma pxor_ok : implements_read (fun c st => xorGuestMemoryXmm128 c st a r)
  "generated PXOR has no guest address space"
  (operand_error r "generated PXOR has an invalid XMM register" "" false)
  a 16 (operand_lanes r 64 (zip_with Z.lxor)).
Proof using Ha Hr0.
  solve_read r. apply operand_of_bytes. intros v -> Hv _. pose proof (get_xmm_ok r st Hst Hr) as [? ?].
  rewrite !lanes64 by done. destruct Hv. by apply holds_qwords; apply lxor_range.
Qed.

Lemma pand_ok : implements_read (fun c st => andGuestMemoryXmm128 c st a r)
  "generated PAND has no guest address space"
  (operand_error r "generated PAND has an invalid XMM register" "" false)
  a 16 (operand_lanes r 64 (zip_with Z.land)).
Proof using Ha Hr0.
  solve_read r. apply operand_of_bytes. intros v -> Hv _. pose proof (get_xmm_ok r st Hst Hr) as [? ?].
  rewrite !lanes64 by done. destruct Hv. by apply holds_qwords; apply land_range_r.
Qed.

Lemma padd_ok : implements_read (fun c st => addGuestMemoryXmm128 c st a r)
  "generated PADDD has no guest address space"
  (operand_error r "generated PADDD has an invalid XMM register" "" false)
  a 16 (operand_lanes r 32 (zip_with (fun x y => wrap 32 (x + y)))).
Proof using Ha Hr0.
  solve_read r. apply operand_of_bytes. intros v -> Hv _. rewrite !lanes32.
  by apply holds_dwords; apply wrap_range.
Qed.

Lemma unpack_low_ok : implements_read (fun c st => unpackLowGuestPackedSingleXmm128 c st a r)
  "generated UNPCKLPS has no address space"
  (operand_error r "generated UNPCKLPS has an invalid register" "" false)
  a 16 (operand_lanes r 32 (fun d s => [nth 0 d 0; nth 0 s 0; nth 1 d 0; nth 1 s 0])).
Proof using Ha Hr0.
  solve_read r. apply operand_of_bytes. intros v <- Hv _. rewrite !lanes32.
  by apply holds_dwords; apply wrap_range.
Qed.

Lemma unpack_high_ok : implements_read (fun c st => unpackHighGuestPackedSingleXmm128 c st a r)
  "generated UNPCKHPS has no address space"
  (operand_error r "generated UNPCKHPS has an invalid register" "" false)
  a 16 (operand_lanes r 32 (fun d s => [nth 2 d 0; nth 2 s 0; nth 3 d 0; nth 3 s 0])).
Proof using Ha Hr0.
  solve_read r. apply operand_of_bytes. intros v <- Hv _. rewrite !lanes32.
  by apply holds_dwords; apply wrap_range.
Qed.

Lemma shuffle_bytes_ok : implements_read (fun c st => shuffleGuestMemoryXmmBytes c st a r)
  "generated PSHUFB has no address space"
  (operand_error r "generated PSHUFB has an invalid destination register" "" false)
  a 16 (operand_lanes r 8 shuffle_lanes).
Proof using Ha Hr0.
  solve_read r. intros v Hv Hlv. subst bytes. apply holds_shuffle. unfold lanes at 2. apply map_ext_in.
  intros i Hi%list_elem_of_In%elem_of_seqZ. by rewrite lane_nth by done.
Qed.

Lemma length4 (l : list Z) : length l = 4%nat -> exists x0 x1 x2 x3, l = [x0; x1; x2; x3].
Proof. destruct l as [|x0 [|x1 [|x2 [|x3 [|]]]]]; try done. intros _. by exists x0, x1, x2, x3. Qed.

Lemma sign_extend_bytes_ok : implements_read (fun c st => loadGuestSignExtendedBytesXmm c st a r)
  "generated PMOVSXBD has no guest address space"
  (operand_error r "generated PMOVSXBD has an invalid XMM register" "" false)
  a 4 (fun bytes st => holds_lanes st r 32 (map (fun b => wrap 32 (signed 8 b)) bytes)).
Proof using Ha Hr0.
  solve_read r. destruct (length4 bytes Hl) as (x0 & x1 & x2 & x3 & ->).
  by apply holds_dwords; apply wrap_range.
Qed.

Lemma sign_extend_dwords_ok : implements_read (fun c st => loadGuestSignExtendedDwordsXmm c st a r)
  "generated PMOVSXDQ has no guest address space"
  (operand_error r "generated PMOVSXDQ has an invalid XMM register" "" false)
  a 8 (fun bytes st => holds_lanes st r 64
         (map (fun i => wrap 64 (signed 32 (le_value (subspan bytes (4 * i) 4)))) [0; 1])).
Proof using Ha Hr0.
  solve_read r. cbv zeta. rewrite !word_of_bytes_value by (done || lia || (unfold zlength; lia)).
  by apply holds_qwords; apply wrap_range.
Qed.

(** The sixteen lower and sixteen upper bytes of a YMM register. *)
Definition ymm_bytes (r : Z) (st : X86State) : list Z := lanes 8 (get_xmm r st) ++ lanes 8 (get_ymmUpper r st).

Lemma ymm_bytes_words st : ymm_bytes r st = flat_map bytes_of_word
  [(get_xmm r st).(low); (get_xmm r st).(high); (get_ymmUpper r st).(low); (get_ymmUpper r st).(high)].
Proof using Type.
  unfold ymm_bytes. by destruct (get_xmm r st), (get_ymmUpper r st).
Qed.

Lemma load_ymm_ok al : implements_read (fun c st => loadGuestYmm256 c st a r al)
  "generated YMM guest load has no address space"
  (operand_error r "generated YMM guest load has an invalid register"
     "aligned YMM guest address is not 32-byte aligned" (negb (al =? 0) && negb (Z.land a 0x1F =? 0)))
  a 32 (fun bytes st st' => exists lower upper, xmm_ok lower /\ xmm_ok upper /\
          lanes 8 lower ++ lanes 8 upper = bytes /\ st' = set_ymmUpper r upper (set_xmm r lower st)).
Proof using Ha Hr0.
  apply (reads _ _ _ _ _ (fun bytes st => let lane i := word_of_bytes bytes (i * 8) 8 in
    set_ymmUpper r (mkXmmValue (lane 2) (lane 3)) (set_xmm r (mkXmmValue (lane 0) (lane 1)) st))); [done|guarded_body r|].
  intros _ bytes st Hb Hl Hst. cbv zeta.
  assert (bytes_ok (take 16 bytes) /\ bytes_ok (drop 16 bytes)) as [Hlo Hup] by (by split; [apply Forall_take|apply Forall_drop]).
  assert (length (take 16 bytes) = 16%nat /\ length (drop 16 bytes) = 16%nat) as [Llo Lup]
    by (rewrite length_take, length_drop; lia).
  destruct (xmm_of_bytes_lanes _ Llo Hlo) as [Ok1 L1]. destruct (xmm_of_bytes_lanes _ Lup Hup) as [Ok2 L2].
  exists (xmm_of_bytes (take 16 bytes)), (xmm_of_bytes (drop 16 bytes)).
  split_and!; [done|done|by rewrite L1, L2, take_drop|].
  rewrite !word_of_bytes_value by (done || lia || (unfold zlength; lia)).
  do 32 (destruct bytes as [|? bytes]; [done|]). destruct bytes; [reflexivity|done].
Qed.

Lemma store_xmm_ok al : implements_write (fun c st => storeGuestXmm128 c st a r al)
  "generated XMM guest store has no address space"
  (operand_error r "generated XMM guest store has an invalid register"
     "MOVAPS guest address is not 16-byte aligned" (negb (al =? 0) && negb (Z.land a 0xF =? 0)))
  a 16 (fun st => lanes 8 (get_xmm r st)).
Proof using Ha Hr0.
  apply writes; [done| |].
  - intros c st. rewrite lanes8_bytes. unfold xmm_bytes. rewrite <- !bytes_of_word_bytes. guarded_body r.
  - intros _ st _. rewrite lanes8_bytes, length_xmm_bytes. split; [apply xmm_bytes_ok|done].
Qed.

Lemma store_ymm_ok al : implements_write (fun c st => storeGuestYmm256 c st a r al)
  "generated YMM guest store has no address space"
  (operand_error r "generated YMM guest store has an invalid register"
     "VMOVAPS YMM guest address is not 32-byte aligned" (negb (al =? 0) && negb (Z.land a 0x1F =? 0)))
  a 32 (ymm_bytes r).
Proof using Ha Hr0.
  apply writes; [done| |].
  - intros c st. rewrite ymm_bytes_words. guarded_body r.
  - intros _ st _. unfold ymm_bytes. rewrite !lanes8_bytes, length_app, !length_xmm_bytes.
    split; [apply Forall_app; split; apply xmm_bytes_ok|done].
Qed.
End Helpers.

(** ** Properties *)

(** C40: the memory forms of the integer vector helpers.  Operands are checked
    before memory is touched, and a rejected operand, a missing address space
    or an inaccessible byte is recorded with the address and size of the access
    and changes nothing.  Otherwise loads deliver the bytes (or their sign
    extension), stores write exactly the bytes of the register, and arithmetic
    forms compute on lanes what the register form computes, with the bytes
    read as the second operand. *)
Theorem vector_memory_correct a r al : in_range 64 a -> 0 <= r ->
  let check register := operand_error r register "" false in
  let aligned mask register alignment :=
    operand_error r register alignment (negb (al =? 0) && negb (Z.land a mask =? 0)) in
  (implements_write (fun c st => storeGuestXmm128 c st a r al)
     "generated XMM guest store has no address space"
     (aligned 0xF "generated XMM guest store has an invalid register" "MOVAPS guest address is not 16-byte aligned")
     a 16 (fun st => lanes 8 (get_xmm r st)) /\
   implements_write (fun c st => storeGuestYmm256 c st a r al)
     "generated YMM guest store has no address space"
     (aligned 0x1F "generated YMM guest store has an invalid register"
        "VMOVAPS YMM guest address is not 32-byte aligned") a 32 (ymm_bytes r)) /\
  (implements_read (fun c st => loadGuestXmm128 c st a r al)
     "generated XMM guest load has no address space"
     (aligned 0xF "generated XMM guest load has an invalid register" "aligned XMM guest address is not 16-byte aligned")
     a 16 (operand_lanes r 8 (fun _ bytes => bytes)) /\
   implements_read (fun c st => loadGuestYmm256 c st a r al)
     "generated YMM guest load has no address space"
     (aligned 0x1F "generated YMM guest load has an invalid register" "aligned YMM guest address is not 32-byte aligned")
     a 32 (fun bytes st st' => exists lower upper, xmm_ok lower /\ xmm_ok upper /\
             lanes 8 lower ++ lanes 8 upper = bytes /\ st' = set_ymmUpper r upper (set_xmm r lower st)) /\
   implements_read (fun c st => loadGuestSignExtendedBytesXmm c st a r)
     "generated PMOVSXBD has no guest address space" (check "generated PMOVSXBD has an invalid XMM register")
     a 4 (fun bytes st => holds_lanes st r 32 (map (fun b => wrap 32 (signed 8 b)) bytes)) /\
   implements_read (fun c st => loadGuestSignExtendedDwordsXmm c st a r)
     "generated PMOVSXDQ has no guest address space" (check "generated PMOVSXDQ has an invalid XMM register")
     a 8 (fun bytes st => holds_lanes st r 64
            (map (fun i => wrap 64 (signed 32 (le_value (subspan bytes (4 * i) 4)))) [0; 1]))) /\
  (implements_read (fun c st => compareEqualGuestBytesXmm128 c st a r)
     "generated PCMPEQB has no address space" (check "generated PCMPEQB has an invalid register")
     a 16 (operand_lanes r 8 (zip_with (equal_mask 8))) /\
   implements_read (fun c st => compareEqualGuestQwordsXmm128 c st a r)
     "generated PCMPEQQ has no address space" (check "generated PCMPEQQ has an invalid register")
     a 16 (operand_lanes r 64 (zip_with (equal_mask 64))) /\
   implements_read (fun c st => xorGuestMemoryXmm128 c st a r)
     "generated PXOR has no guest address space" (check "generated PXOR has an invalid XMM register")
     a 16 (operand_lanes r 64 (zip_with Z.lxor)) /\
   implements_read (fun c st => andGuestMemoryXmm128 c st a r)
     "generated PAND has no guest address space" (check "generated PAND has an invalid XMM register")
     a 16 (operand_lanes r 64 (zip_with Z.land)) /\
   implements_read (fun c st => addGuestMemoryXmm128 c st a r)
     "generated PADDD has no guest address space" (check "generated PADDD has an invalid XMM register")
     a 16 (operand_lanes r 32 (zip_with (fun x y => wrap 32 (x + y))))) /\
  (implements_read (fun c st => unpackLowGuestPackedSingleXmm128 c st a r)
     "generated UNPCKLPS has no address space" (check "generated UNPCKLPS has an invalid register")
     a 16 (operand_lanes r 32 (fun d s => [nth 0 d 0; nth 0 s 0; nth 1 d 0; nth 1 s 0])) /\
   implements_read (fun c st => unpackHighGuestPackedSingleXmm128 c st a r)
     "generated UNPCKHPS has no address space" (check "generated UNPCKHPS has an invalid register")
     a 16 (operand_lanes r 32 (fun d s => [nth 2 d 0; nth 2 s 0; nth 3 d 0; nth 3 s 0])) /\
   implements_read (fun c st => shuffleGuestMemoryXmmBytes c st a r)
     "generated PSHUFB has no address space" (check "generated PSHUFB has an invalid destination register")
     a 16 (operand_lanes r 8 shuffle_lanes)).
Proof.
  intros Ha Hr check aligned. unfold check, aligned. split_and!;
    first [by apply store_xmm_ok | by apply store_ymm_ok | by apply load_xmm_ok | by apply load_ymm_ok
      | by apply sign_extend_bytes_ok | by apply sign_extend_dwords_ok | by apply compare_bytes_ok
      | by apply compare_qwords_ok | by apply pxor_ok | by apply pand_ok | by apply padd_ok
      | by apply unpack_low_ok | by apply unpack_high_ok | by apply shuffle_bytes_ok].
Qed.

Lemma vector_memory_correct_witness :
  let ctx := mkContext (Some sampleSpace) None 0 0 0 None 1 0 true
    (mkDirectCache 0 0 None false) (mkDirectCache 0 0 None false) 0 in
  exists s' st', loadGuestSignExtendedBytesXmm (Some ctx) sampleVectors 8192 1 =
    Ok (Some (set_space s' ctx), st', true) /\ holds_lanes sampleVectors 1 32 [7; 7; 7; 7] st'.
Proof.
  intros ctx.
  pose proof (vector_memory_correct 8192 1 1 ltac:(done) ltac:(lia)) as (_ & (_ & _ & H & _) & _).
  destruct (H sampleVectors sampleVectors_ok) as [_ Hc]. specialize (Hc ctx sampleSpace_ok).
  replace (fetch_all sampleSpace 8192 (Z.to_nat 4)) with (Ok [7; 7; 7; 7]) in Hc by reflexivity.
  destruct Hc as (s' & st' & E & _ & _ & Hl). exists s', st'. split; [exact E|exact Hl].
Defined.
