(* ===== verification/MappingBatch.v ===== *)
(** Batched creation of mappings: [src/guest/MappingBatch.cpp].

    A batch is validated against the live space, sorted by base, checked for
    internal overlaps, turned into mappings and merged with the live vector in
    one step.  [std::ranges::sort] is modelled by insertion sort: ranges with
    equal bases overlap, so the order among equals is never observed.

    The lookup cache is not reset by a batch; the invariant on cache entries is
    what makes that safe. *)
From S2P Require Import Prelude AddressSpace AddressSpaceInv AddressSpaceAccess AddressSpaceWrite AddressSpaceMap.

Record SegmentMapping := mkSegment {
  sm_base : Z;
  sm_size : Z;
  sm_permissions : Z;
  sm_maximumPermissions : Z;
  sm_initialBytes : list Z;
  sm_label : string
}.

Definition batch_overlap_error : exn :=
  invalid_argument "guest mapping batch contains overlapping mappings".

(** The validation loop over the requests. *)
Fixpoint validate_requests (requests : list SegmentMapping) (s : AddressSpace) : outcome unit :=
  match requests with
  | [] => Ok tt
  | r :: rest =>
      if r.(sm_size) <? zlength r.(sm_initialBytes) then Throw segment_bytes_error
      else
        let! _ := validateNewMapping r.(sm_base) r.(sm_size) r.(sm_permissions)
                    r.(sm_maximumPermissions) s in
        validate_requests rest s
  end.

Fixpoint insert_sorted (r : SegmentMapping) (l : list SegmentMapping) : list SegmentMapping :=
  match l with
  | [] => [r]
  | x :: l' => if r.(sm_base) <? x.(sm_base) then r :: l else x :: insert_sorted r l'
  end.
Definition sort_requests (l : list SegmentMapping) : list SegmentMapping :=
  fold_left (fun acc r => insert_sorted r acc) l [].

(** The check over consecutive requests of the sorted batch. *)
Fixpoint check_overlaps (l : list SegmentMapping) : outcome unit :=
  match l with
  | previous :: (current :: _) as rest =>
      if current.(sm_base) <? previous.(sm_base) + previous.(sm_size)
      then Throw batch_overlap_error else check_overlaps rest
  | _ => Ok tt
  end.

(** The mapping built for a request. *)
Definition request_mapping (r : SegmentMapping) : Mapping :=
  let backing :=
    if negb (r.(sm_maximumPermissions) =? Permission_None)
    then r.(sm_initialBytes) ++ replicate (Z.to_nat r.(sm_size) - length r.(sm_initialBytes)) 0
    else [] in
  mkMapping r.(sm_base) r.(sm_size) r.(sm_permissions) r.(sm_maximumPermissions) backing None 0 None
    [] r.(sm_label).

(** The merge loop over the two vectors. *)
Fixpoint merge_mappings (existing : list Mapping) : list Mapping -> list Mapping :=
  fix merge_pending (pending : list Mapping) : list Mapping :=
    match existing, pending with
    | [], _ => pending
    | _, [] => existing
    | e :: existing', p :: pending' =>
        if e.(m_base) <? p.(m_base) then e :: merge_mappings existing' pending
        else p :: merge_pending pending'
    end.

Definition mapSegments (requests : list SegmentMapping) : M AddressSpace unit := fun s =>
  match requests with
  | [] => (s, Ok tt)
  | _ =>
      if UINT64_MAX - zlength s.(as_mappings) <? zlength requests
      then (s, Throw (overflow_error "guest mapping batch count overflows"))
      else
        match validate_requests requests s with
        | Throw e => (s, Throw e)
        | Undefined => (s, Undefined)
        | Ok _ =>
            let order := sort_requests requests in
            match check_overlaps order with
            | Throw e => (s, Throw e)
            | Undefined => (s, Undefined)
            | Ok _ =>
                let pending := map request_mapping order in
                let addsExecutableMapping :=
                  existsb (fun r => negb (Z.land r.(sm_permissions) Permission_Execute =? 0)) order in
                (bump_if addsExecutableMapping
                   (set_mappings (merge_mappings s.(as_mappings) pending) s), Ok tt)
            end
        end
  end.

(** ** Sorting and merging *)

Lemma insert_sorted_perm r l : insert_sorted r l ≡ₚ r :: l.
Proof.
  induction l as [|x l IH]; cbn; [done|]. case_if; [done|]. rewrite IH. by constructor.
Qed.

Lemma sort_requests_perm l : sort_requests l ≡ₚ l.
Proof.
  unfold sort_requests. enough (forall acc, fold_left (fun acc r => insert_sorted r acc) l acc ≡ₚ acc ++ l)
    as H by apply H.
  induction l as [|r l IH]; intros acc; cbn; [by rewrite app_nil_r|].
  rewrite IH, insert_sorted_perm. cbn. by rewrite <- Permutation_middle.
Qed.

Fixpoint sorted_bases (l : list SegmentMapping) : Prop :=
  match l with
  | [] => True
  | r :: l' => Forall (fun x => r.(sm_base) <= x.(sm_base)) l' /\ sorted_bases l'
  end.

Lemma insert_sorted_sorted r l : sorted_bases l -> sorted_bases (insert_sorted r l).
Proof.
  induction l as [|x l IH]; cbn; [done|]. intros [Hx Hl].
  destruct (Z.ltb_spec r.(sm_base) x.(sm_base)); cbn.
  - split; [|done]. constructor; [lia|]. eapply Forall_impl; [exact Hx|]. cbn. lia.
  - split; [|by apply IH]. rewrite insert_sorted_perm. by constructor.
Qed.

Lemma sort_requests_sorted l : sorted_bases (sort_requests l).
Proof.
  unfold sort_requests. enough (forall acc, sorted_bases acc ->
    sorted_bases (fold_left (fun acc r => insert_sorted r acc) l acc)) as H by by apply H.
  induction l as [|r l IH]; intros acc Ha; cbn; [done|]. by apply IH, insert_sorted_sorted.
Qed.

Lemma merge_perm l1 : forall l2, merge_mappings l1 l2 ≡ₚ l1 ++ l2.
Proof.
  induction l1 as [|a l1 IH1]; intros l2; [by destruct l2|].
  induction l2 as [|b l2 IH2]; [by rewrite app_nil_r|]. cbn [merge_mappings] in *.
  case_if.
  - by rewrite IH1.
  - rewrite IH2. by rewrite Permutation_middle.
Qed.

Definition apart (a b : Mapping) : Prop := m_end a <= b.(m_base) \/ m_end b <= a.(m_base).

Lemma merge_ordered l1 : forall l2, ordered l1 -> ordered l2 -> Forall geometry l1 -> Forall geometry l2 ->
  Forall (fun a => Forall (apart a) l2) l1 -> ordered (merge_mappings l1 l2).
Proof.
  induction l1 as [|a l1 IH1]; intros l2 H1 H2 G1 G2 Hx; [by destruct l2|].
  induction l2 as [|b l2 IH2]; [done|]. cbn [merge_mappings].
  destruct H1 as [Ha H1], H2 as [Hb H2]. inversion G1 as [|? ? Ga G1']; subst.
  inversion G2 as [|? ? Gb G2']; subst. inversion Hx as [|? ? Hxa Hx']; subst.
  inversion Hxa as [|? ? Hab Hxa']; subst. destruct Ga as [_ Sa _ _ _], Gb as [_ Sb _ _ _].
  unfold apart, m_end in Hab.
  destruct (Z.ltb_spec a.(m_base) b.(m_base)).
  - cbn [ordered]. split.
    + rewrite merge_perm. apply Forall_app_2; [done|].
      constructor; [unfold m_end; lia|]. eapply Forall_impl; [exact Hb|]. cbn. unfold m_end. lia.
    + apply IH1; try done.
  - change (ordered (b :: merge_mappings (a :: l1) l2)). cbn [ordered]. split.
    + rewrite merge_perm. apply Forall_app_2; [|done].
      constructor; [unfold m_end; lia|]. eapply Forall_impl; [exact Ha|]. cbn. unfold m_end. lia.
    + apply IH2; try done. constructor; [done|]. eapply Forall_impl; [exact Hx'|].
      intros n Hn. by inversion Hn.
Qed.

Lemma mapping_at_iff ms x m : ordered ms -> Forall geometry ms ->
  mapping_at ms x = Some m <-> m ∈ ms /\ contains m x = true.
Proof.
  intros Ho Hg. split.
  - intros (Hc & i & Hi)%mapping_at_Some. split; [by eapply list_elem_of_lookup_2|done].
  - intros [[i Hi]%list_elem_of_lookup Hc]. by eapply mapping_at_lookup.
Qed.

Lemma merge_view l1 l2 x : ordered l1 -> ordered l2 -> Forall geometry l1 -> Forall geometry l2 ->
  Forall (fun a => Forall (apart a) l2) l1 ->
  mapping_at (merge_mappings l1 l2) x =
  match mapping_at l2 x with Some m => Some m | None => mapping_at l1 x end.
Proof.
  intros H1 H2 G1 G2 Hx.
  assert (Forall geometry (merge_mappings l1 l2)) as G by (rewrite merge_perm; by apply Forall_app_2).
  assert (ordered (merge_mappings l1 l2)) as Ho by by apply merge_ordered.
  destruct (mapping_at l2 x) as [m|] eqn:E2; [|destruct (mapping_at l1 x) as [m|] eqn:E1].
  - apply mapping_at_iff; [done..|]. apply mapping_at_iff in E2 as [? ?]; [|done..].
    rewrite merge_perm, elem_of_app. auto.
  - apply mapping_at_iff; [done..|]. apply mapping_at_iff in E1 as [? ?]; [|done..].
    rewrite merge_perm, elem_of_app. auto.
  - apply mapping_at_None in E1, E2. apply mapping_at_None. rewrite merge_perm. by apply Forall_app_2.
Qed.

Lemma alias_perm l k : l ≡ₚ k -> alias_ok l -> alias_ok k.
Proof.
  induction 1 as [|x l k Hp IH|x y l|l k h _ IH1 _ IH2]; cbn; [done| | |by eauto].
  - intros [Hx Hl]. rewrite Hp in Hx. auto.
  - intros (Hy & Hx & Hl). inversion Hy as [|? ? Hyx Hy']; subst. split_and!; [|done|done].
    constructor; [by apply disjoint_backing_sym|done].
Qed.

(** ** Specification *)

(** What is wrong with one request, ignoring the others. *)
Definition request_error (s : AddressSpace) (r : SegmentMapping) : option exn :=
  if r.(sm_size) <? zlength r.(sm_initialBytes) then Some segment_bytes_error
  else creation_error s r.(sm_base) r.(sm_size) r.(sm_permissions) r.(sm_maximumPermissions).

Fixpoint first_error (s : AddressSpace) (requests : list SegmentMapping) : option exn :=
  match requests with
  | [] => None
  | r :: rest => match request_error s r with Some e => Some e | None => first_error s rest end
  end.

Definition requests_apart (a b : SegmentMapping) : Prop :=
  a.(sm_base) + a.(sm_size) <= b.(sm_base) \/ b.(sm_base) + b.(sm_size) <= a.(sm_base).
Fixpoint pairwise_apart (l : list SegmentMapping) : Prop :=
  match l with
  | [] => True
  | r :: l' => Forall (requests_apart r) l' /\ pairwise_apart l'
  end.

(** The request that covers an address. *)
Fixpoint request_at (l : list SegmentMapping) (x : Z) : option SegmentMapping :=
  match l with
  | [] => None
  | r :: l' => if (r.(sm_base) <=? x) && (x <? r.(sm_base) + r.(sm_size)) then Some r
               else request_at l' x
  end.

Definition request_ok (r : SegmentMapping) : Prop :=
  0 <= r.(sm_base) /\ 0 <= r.(sm_size) /\ 0 <= r.(sm_permissions) < 8 /\
  0 <= r.(sm_maximumPermissions) < 8.

(** ** Correctness *)

Lemma pairwise_perm l k : l ≡ₚ k -> pairwise_apart l -> pairwise_apart k.
Proof.
  induction 1 as [|x l k Hp IH|x y l|l k h _ IH1 _ IH2]; cbn; [done| | |by eauto].
  - intros [Hx Hl]. rewrite Hp in Hx. auto.
  - intros (Hy & Hx & Hl). inversion Hy as [|? ? Hyx Hy']; subst. split_and!; [|done|done].
    constructor; [by destruct Hyx; [right|left]|done].
Qed.

Lemma check_overlaps_spec l : sorted_bases l -> Forall (fun r => 0 < r.(sm_size)) l ->
  check_overlaps l = Ok tt /\ pairwise_apart l \/
  check_overlaps l = Throw batch_overlap_error /\ ~ pairwise_apart l.
Proof.
  induction l as [|r l IH]; intros Hs Hp; [by left|].
  destruct Hs as [Hr Hs]. inversion Hp as [|? ? Hpr Hp']; subst.
  destruct l as [|n l]; [left; cbn; done|].
  cbn [check_overlaps]. destruct (Z.ltb_spec n.(sm_base) (r.(sm_base) + r.(sm_size))) as [Hlt|Hge].
  - right. split; [done|]. intros [Ha _]. inversion Ha as [|? ? Han _]; subst.
    inversion Hr; inversion Hp'; subst. unfold requests_apart in Han. lia.
  - destruct (IH Hs Hp') as [[E Ha]|[E Ha]]; [left|right; split; [done|by intros [_ ?]]].
    split; [done|]. split; [|done]. destruct Hs as [Hn _].
    constructor; [by left|]. eapply Forall_impl; [exact Hn|]. intros k Hk. left. cbn in Hk. lia.
Qed.

Lemma validate_requests_spec l s : inv s -> Forall request_ok l ->
  validate_requests l s = match first_error s l with Some e => Throw e | None => Ok tt end.
Proof.
  intros Hi. induction l as [|r l IH]; intros Hok; cbn; [done|].
  inversion Hok as [|? ? (_ & Hsz & _) Hok']; subst. unfold request_error.
  case_if; [done|]. rewrite validateNewMapping_spec by done.
  destruct (creation_error _ _ _ _ _); [done|]. by apply IH.
Qed.

Lemma first_error_None s l : first_error s l = None -> Forall (fun r => request_error s r = None) l.
Proof.
  induction l as [|r l IH]; cbn; [done|]. destruct (request_error s r) eqn:E; [done|]. auto.
Qed.

Lemma request_mapping_ok files s r : inv s -> request_ok r -> request_error s r = None ->
  mapping_ok files (request_mapping r) /\
  Forall (fun m => apart m (request_mapping r)) s.(as_mappings).
Proof.
  intros Hi (Hb & Hs & Hp & Hm) He. unfold request_error in He.
  destruct (Z.ltb_spec r.(sm_size) (zlength r.(sm_initialBytes))); [done|].
  pose proof (creation_None _ _ _ _ _ Hi Hs He) as (_ & _ & _ & _ & _ & Hfree). split.
  - unfold zlength in *. unfold request_mapping. cbv zeta.
    destruct (Z.eqb_spec r.(sm_maximumPermissions) Permission_None) as [E|E]; cbn [negb].
    + eapply created_ok; try done; by left.
    + assert (zlength (r.(sm_initialBytes) ++
        replicate (Z.to_nat r.(sm_size) - length r.(sm_initialBytes)) 0) = r.(sm_size)) as Hlen
        by (unfold zlength; rewrite length_app, length_replicate; lia).
      eapply created_ok; try done; [by right|by left|lia].
  - eapply Forall_impl; [exact Hfree|]. unfold apart. intros m Hm'. unfold m_end at 2. cbn in *. lia.
Qed.

Lemma request_mapping_at l x : mapping_at (map request_mapping l) x = request_mapping <$> request_at l x.
Proof.
  induction l as [|r l IH]; cbn; [done|]. unfold contains at 1, m_end. cbn. by case_if.
Qed.

Lemma request_at_Some l x r : request_at l x = Some r ->
  r ∈ l /\ r.(sm_base) <= x < r.(sm_base) + r.(sm_size).
Proof.
  induction l as [|k l IH]; cbn; [done|]. case_if; bool_to_prop; intros [= <-] || intros H.
  - split; [by left|lia].
  - destruct (IH H). split; [by right|done].
Qed.

Lemma request_at_perm l k x : l ≡ₚ k -> pairwise_apart l -> request_at l x = request_at k x.
Proof.
  induction 1 as [|r l k Hp IH|r q l|l k h H1 IH1 H2 IH2]; cbn; [done| | |].
  - intros [_ Hl]. by rewrite IH.
  - intros (Hq & Hx & Hl). inversion Hq as [|? ? Hqr _]; subst. unfold requests_apart in Hqr.
    repeat case_if; bool_to_prop; try done; lia.
  - intros Hl. rewrite IH1 by done. apply IH2. by eapply pairwise_perm.
Qed.

Lemma sorted_ordered l : sorted_bases l -> pairwise_apart l -> Forall (fun r => 0 < r.(sm_size)) l ->
  ordered (map request_mapping l).
Proof.
  induction l as [|r l IH]; cbn; [done|]. intros [Hr Hs] [Ha Hp] Hz.
  inversion Hz as [|? ? Hzr Hz']; subst. split; [|by apply IH].
  rewrite Forall_fmap. rewrite Forall_forall in *. intros n Hn. cbn.
  specialize (Hr n Hn). specialize (Ha n Hn). specialize (Hz' n Hn).
  unfold requests_apart, m_end in *. cbn. lia.
Qed.

Lemma request_fill files r off : 0 <= off < r.(sm_size) ->
  mapping_byte files (request_mapping r) off =
  segment_fill r.(sm_maximumPermissions) r.(sm_initialBytes) off.
Proof.
  intros Hoff. unfold mapping_byte, segment_fill, zlength. cbn.
  destruct (_ =? Permission_None); cbn; [done|].
  destruct (Z.ltb_spec off (Z.of_nat (length r.(sm_initialBytes)))).
  - by rewrite lookup_app_l by lia.
  - rewrite lookup_app_r by lia. by rewrite lookup_replicate_2 by lia.
Qed.

Lemma count_in_bounds s l : inv s -> pairwise_apart l ->
  Forall (fun r => mapping_ok s.(as_files) (request_mapping r)) l ->
  Forall (fun r => Forall (fun m => apart m (request_mapping r)) s.(as_mappings)) l ->
  ordered (merge_mappings s.(as_mappings) (map request_mapping (sort_requests l))) /\
  Forall geometry (map request_mapping (sort_requests l)) /\
  Forall (fun a => Forall (apart a) (map request_mapping (sort_requests l))) s.(as_mappings) /\
  ordered (map request_mapping (sort_requests l)).
Proof.
  intros Hi Ha Hm Hx.
  assert (Forall geometry (map request_mapping (sort_requests l))) as Hg.
  { rewrite Forall_fmap, sort_requests_perm. eapply Forall_impl; [exact Hm|]. by intros r []. }
  assert (ordered (map request_mapping (sort_requests l))) as Ho.
  { apply sorted_ordered; [apply sort_requests_sorted|eapply pairwise_perm; [|exact Ha]|].
    - symmetry. apply sort_requests_perm.
    - rewrite sort_requests_perm. eapply Forall_impl; [exact Hm|]. by intros r [[_ Hs _ _ _] _ _ _ _ _ _]. }
  assert (Forall (fun a => Forall (apart a) (map request_mapping (sort_requests l))) s.(as_mappings)) as Hc.
  { apply Forall_forall. intros m Hin. rewrite Forall_fmap, sort_requests_perm.
    apply Forall_forall. intros r Hr. pose proof (proj1 (Forall_forall _ _) Hx r Hr) as Hxr.
    exact (proj1 (Forall_forall _ _) Hxr m Hin). }
  split_and!; try done. apply merge_ordered; try done; [apply Hi|]. eapply mappings_geometry, Hi.
Qed.

Lemma pairwise_dec l : pairwise_apart l \/ ~ pairwise_apart l.
Proof.
  induction l as [|r l [IH|IH]]; [by left| |right; by intros [_ ?]].
  destruct (decide (Forall (fun x => ~ (x.(sm_base) < r.(sm_base) + r.(sm_size) /\
    r.(sm_base) < x.(sm_base) + x.(sm_size))) l)) as [H|H]; [left|right].
  - split; [|done]. eapply Forall_impl; [exact H|]. unfold requests_apart. intros x Hx. cbn in Hx. lia.
  - intros [Ha _]. apply H. eapply Forall_impl; [exact Ha|]. unfold requests_apart. intros x Hx. lia.
Qed.

(** What a successful batch does to the space. *)
Definition batch_effect (s s' : AddressSpace) (l : list SegmentMapping) : Prop :=
  inv s' /\
  (forall x, perm_at s' x = match request_at l x with
     | Some r => Some r.(sm_permissions) | None => perm_at s x end) /\
  (forall x, max_at s' x = match request_at l x with
     | Some r => Some r.(sm_maximumPermissions) | None => max_at s x end) /\
  (forall x, byte_at s' x = match request_at l x with
     | Some r => segment_fill r.(sm_maximumPermissions) r.(sm_initialBytes) (x - r.(sm_base))
     | None => byte_at s x end) /\
  s'.(as_executableVersion) =
    (if existsb (fun r => isExecutable r.(sm_permissions)) l
     then u64 (s.(as_executableVersion) + 1) else s.(as_executableVersion)).

Lemma executable_bit p : negb (Z.land p Permission_Execute =? 0) = isExecutable p.
Proof.
  unfold isExecutable, hasPermission, Permission_Execute. change 4 with (2 ^ 2).
  rewrite land_pow2_testbit, negb_involutive by lia.
  destruct (Z.testbit p 2) eqn:E; symmetry.
  - apply Z.eqb_eq. apply Z.bits_inj'. intros i Hi. rewrite Z.land_spec, Z.pow2_bits_eqb by lia.
    destruct (Z.eqb_spec 2 i) as [<-|]; [by rewrite E|apply andb_false_r].
  - apply Z.eqb_neq. intros H. apply (f_equal (fun z => Z.testbit z 2)) in H.
    by rewrite Z.land_spec, E, Z.pow2_bits_true in H by lia.
Qed.

Lemma existsb_perm {A} (f : A -> bool) l k : l ≡ₚ k -> existsb f l = existsb f k.
Proof.
  induction 1; cbn; try congruence.
  rewrite !orb_assoc. f_equal. apply orb_comm.
Qed.

Lemma pending_alias l : alias_ok (map request_mapping l).
Proof. induction l as [|r l IH]; cbn; [done|]. split; [by apply vector_disjoint|done]. Qed.

Lemma batch_applies s l : inv s -> pairwise_apart l ->
  Forall (fun r => mapping_ok s.(as_files) (request_mapping r)) l ->
  Forall (fun r => Forall (fun m => apart m (request_mapping r)) s.(as_mappings)) l ->
  batch_effect s
    (bump_if (existsb (fun r => negb (Z.land r.(sm_permissions) Permission_Execute =? 0)) (sort_requests l))
       (set_mappings (merge_mappings s.(as_mappings) (map request_mapping (sort_requests l))) s)) l.
Proof.
  intros Hi Ha Hm Hx. destruct (count_in_bounds s l Hi Ha Hm Hx) as (Ho & Hg & Hc & Hop).
  set (pending := map request_mapping (sort_requests l)) in *.
  pose proof Hi as [Hos Hms [Hcl Hce] Hal [Hf1 Hf2]].
  pose proof (mappings_geometry _ _ Hms) as Hgs.
  assert (forall x, mapping_at (merge_mappings s.(as_mappings) pending) x =
    match request_at l x with Some r => Some (request_mapping r) | None => mapping_at s.(as_mappings) x end)
    as Hview.
  { intros x. rewrite merge_view by done. subst pending. rewrite request_mapping_at.
    rewrite (request_at_perm l (sort_requests l) x); [by destruct (request_at (sort_requests l) x)| |done].
    symmetry. apply sort_requests_perm. }
  split; [apply bump_if_inv; split; cbn; [done| | | |]|split; [|split; [|split]]].
  - rewrite merge_perm. apply Forall_app_2; [done|]. subst pending.
    rewrite Forall_fmap, sort_requests_perm. done.
  - split; [done|]. eapply Forall_impl; [exact Hce|]. intros e He Hv.
    destruct (He Hv) as (m & Hin & Hb). exists m. split; [|done]. cbn.
    rewrite merge_perm, elem_of_app. by left.
  - eapply alias_perm; [symmetry; apply merge_perm|]. apply alias_app. split_and!; [done| |].
    + apply pending_alias.
    + apply Forall_true. intros m. subst pending. rewrite Forall_fmap. apply Forall_true. intros r.
      unfold disjoint_backing. by destruct m.(m_fileBytes).
  - split; [done|]. cbn. rewrite merge_perm. apply Forall_app_2; [done|]. subst pending.
    rewrite Forall_fmap. apply Forall_true. intros r f. done.
  - intros x. unfold perm_at. cbn. rewrite Hview. by destruct (request_at l x).
  - intros x. unfold max_at. cbn. rewrite Hview. by destruct (request_at l x).
  - intros x. unfold byte_at. cbn. rewrite Hview. destruct (request_at l x) as [r|] eqn:Hr; [|done].
    apply request_at_Some in Hr as [_ Hr]. cbn. apply (request_fill s.(as_files)). lia.
  - cbn. rewrite (existsb_perm _ _ l) by apply sort_requests_perm.
    assert (existsb (fun r => negb (Z.land r.(sm_permissions) Permission_Execute =? 0)) l =
      existsb (fun r => isExecutable r.(sm_permissions)) l) as ->; [|done].
    clear. induction l as [|r k IH]; cbn; [done|]. by rewrite executable_bit, IH.
Qed.

(** C11: mapping a batch of segments is atomic.  If some request is invalid
    on its own (too many file bytes, bad geometry, permissions, or overlap with
    the live space) the first such error is thrown, if two requests overlap the
    batch error is thrown, and in both cases the space is untouched; otherwise
    every requested range is mapped with its permissions and contents, nothing
    else changes, the invariant (with the lookup cache, which a batch does not
    reset) holds, and the executable version advances when a segment is
    executable. *)
Theorem mapSegments_correct s l : inv s -> Forall request_ok l ->
  zlength s.(as_mappings) + zlength l <= UINT64_MAX ->
  match first_error s l with
  | Some e => mapSegments l s = (s, Throw e)
  | None =>
      pairwise_apart l /\ (exists s', mapSegments l s = (s', Ok tt) /\ batch_effect s s' l) \/
      ~ pairwise_apart l /\ mapSegments l s = (s, Throw batch_overlap_error)
  end.
Proof.
  intros Hi Hok Hlen. unfold mapSegments. destruct l as [|r0 l0] eqn:El.
  { cbn. left. split; [done|]. exists s. split; [done|]. split; [done|]. done. }
  rewrite <- El in *. clear El r0 l0.
  destruct (Z.ltb_spec (UINT64_MAX - zlength s.(as_mappings)) (zlength l)); [lia|].
  rewrite validate_requests_spec by done. destruct (first_error s l) as [e|] eqn:He; [done|].
  apply first_error_None in He. cbv zeta.
  assert (Forall (fun r => mapping_ok s.(as_files) (request_mapping r) /\
    Forall (fun m => apart m (request_mapping r)) s.(as_mappings)) l) as Hr.
  { apply Forall_forall. intros r Hin. pose proof (proj1 (Forall_forall _ _) Hok r Hin).
    pose proof (proj1 (Forall_forall _ _) He r Hin). by apply (request_mapping_ok _ s). }
  apply Forall_and in Hr as [Hm Hx].
  assert (Forall (fun r => 0 < r.(sm_size)) (sort_requests l)) as Hpos.
  { rewrite sort_requests_perm. eapply Forall_impl; [exact Hm|]. by intros r [[_ Hs _ _ _] _ _ _ _ _ _]. }
  destruct (check_overlaps_spec _ (sort_requests_sorted l) Hpos) as [[-> Ha]|[-> Ha]]; [left|right].
  - assert (pairwise_apart l) as Hal by (eapply pairwise_perm; [apply sort_requests_perm|done]).
    split; [done|]. eexists. split; [done|]. by apply batch_applies.
  - split; [|done]. intros Hal. apply Ha. eapply pairwise_perm; [|exact Hal].
    symmetry. apply sort_requests_perm.
Qed.

Definition sampleBatch : list SegmentMapping :=
  [mkSegment 20480 4096 3 3 [9] "high"; mkSegment 16384 4096 1 1 [8; 8] "low"].

Lemma mapSegments_correct_witness : inv sampleSpace /\ Forall request_ok sampleBatch /\
  exists s', mapSegments sampleBatch sampleSpace = (s', Ok tt) /\ inv s' /\
    perm_at s' 16384 = Some 1 /\ byte_at s' 20480 = Some 9 /\ byte_at s' 8200 = Some 7.
Proof.
  split; [apply sampleSpace_inv|].
  assert (Forall request_ok sampleBatch) as Hok
    by (repeat constructor; unfold request_ok; cbn; lia).
  split; [exact Hok|].
  pose proof (mapSegments_correct sampleSpace sampleBatch sampleSpace_inv Hok
    ltac:(vm_compute; discriminate)) as H.
  assert (first_error sampleSpace sampleBatch = None) as E by reflexivity. rewrite E in H.
  destruct H as [(_ & s' & Es & Hi & Hp & _ & Hb & _)|[Hno _]].
  - exists s'. rewrite Hp, !Hb. split_and!; [exact Es|exact Hi|reflexivity..].
  - exfalso. apply Hno. split; [|split; [constructor|exact I]]. constructor; [|constructor].
    right. cbn. lia.
Defined.
