(* ===== verification/StartupStack.v ===== *)
(** The initial Darwin stack: [src/guest/StartupStack.cpp].

    Every host-side structure is computed before the mapping is installed:
    [prepare] is that part, [build] installs it.  A [std::string] is the list of
    its bytes. *)
From S2P Require Import Prelude AddressSpace AddressSpaceInv AddressSpaceAccess AddressSpaceWrite AddressSpaceMap.

Record InitialStack := mkInitialStack { is_base : Z; is_size : Z; is_stackPointer : Z }.

Definition checkedAdd (lhs rhs : Z) : outcome Z :=
  if UINT64_MAX - rhs <? lhs
  then Throw (overflow_error "initial guest stack word count overflows") else Ok (lhs + rhs).

Definition checkedMultiply (lhs rhs : Z) : outcome Z :=
  if negb (lhs =? 0) && (UINT64_MAX / lhs <? rhs)
  then Throw (overflow_error "initial guest stack word size overflows") else Ok (lhs * rhs).

(** The cursor after reserving a string, which is also its address. *)
Definition reserveString (base cursor : Z) (string : list Z) : outcome Z :=
  if zlength string =? UINT64_MAX
  then Throw (overflow_error "initial guest stack string size overflows")
  else
    let byteCount := zlength string + 1 in
    if (cursor <? base) || (cursor - base <? byteCount)
    then Throw (runtime_error "initial guest stack does not have room for strings")
    else Ok (cursor - byteCount).

(** From the last string to the first; returns the cursor and the addresses. *)
Fixpoint reserveStrings (base cursor : Z) (strings : list (list Z)) : outcome (Z * list Z) :=
  match strings with
  | [] => Ok (cursor, [])
  | string :: rest =>
      let! (cursor, addresses) := reserveStrings base cursor rest in
      let! address := reserveString base cursor string in
      Ok (address, address :: addresses)
  end.

Definition copyString (payload : list Z) (payloadBase destination : Z) (string : list Z) :
    outcome (list Z) :=
  if destination <? payloadBase
  then Throw (logic_error "initial guest stack string precedes payload")
  else
    let offset := destination - payloadBase in
    if zlength payload <? offset
    then Throw (logic_error "initial guest stack string offset exceeds payload")
    else if (zlength string =? UINT64_MAX) || (zlength payload - offset <? zlength string + 1)
    then Throw (logic_error "initial guest stack string exceeds payload")
    else Ok (overwrite payload offset (string ++ [0])).

Fixpoint copyStrings_loop (payload : list Z) (payloadBase : Z) (strings : list (list Z))
    (destinations : list Z) : outcome (list Z) :=
  match strings, destinations with
  | string :: strings', destination :: destinations' =>
      let! payload := copyString payload payloadBase destination string in
      copyStrings_loop payload payloadBase strings' destinations'
  | _, _ => Ok payload
  end.

Definition copyStrings (payload : list Z) (payloadBase : Z) (strings : list (list Z))
    (destinations : list Z) : outcome (list Z) :=
  if negb (zlength strings =? zlength destinations)
  then Throw (logic_error "initial guest stack string metadata differs")
  else copyStrings_loop payload payloadBase strings destinations.

(** The file-local [writeU64] over the payload. *)
Definition payload_writeU64 (payload : list Z) (offset value : Z) : outcome (list Z) :=
  if (zlength payload <? offset) || (zlength payload - offset <? 8)
  then Throw (logic_error "initial guest stack word exceeds payload")
  else Ok (overwrite payload offset (le_bytes 8 value)).

Fixpoint write_words (payload : list Z) (offset : Z) (words : list Z) : outcome (list Z) :=
  match words with
  | [] => Ok payload
  | w :: words' =>
      let! payload := payload_writeU64 payload offset w in
      write_words payload (offset + 8) words'
  end.

(** The vectors: the optional dyld prefix, argc, argv, envp and apple. *)
Definition stack_words (mainExecutable : option Z) (argc : Z) (argv envp apple : list Z) : list Z :=
  match mainExecutable with Some m => [m] | None => [] end ++
  [argc] ++ argv ++ [0] ++ envp ++ [0] ++ apple ++ [0].

Definition no_room_error : exn :=
  runtime_error "initial guest stack does not have room for pointer vectors".

(** The part of [build] that precedes the installation: the stack pointer and
    the payload. *)
Definition prepare (base size : Z) (arguments environment apple : list (list Z))
    (mainExecutable : option Z) : outcome (Z * list Z) :=
  match arguments with
  | [] => Throw (invalid_argument "initial Darwin guest stack requires argv[0]")
  | _ =>
      if UINT64_MAX - size <? base
      then Throw (invalid_argument "initial guest stack range overflows")
      else
        let top := base + size in
        let! (cursor, appleAddresses) := reserveStrings base top apple in
        let! (cursor, environmentAddresses) := reserveStrings base cursor environment in
        let! (cursor, argumentAddresses) := reserveStrings base cursor arguments in
        let! wordCount := checkedAdd (match mainExecutable with Some _ => 1 | None => 0 end) 1 in
        let! wordCount := checkedAdd wordCount (zlength argumentAddresses) in
        let! wordCount := checkedAdd wordCount 1 in
        let! wordCount := checkedAdd wordCount (zlength environmentAddresses) in
        let! wordCount := checkedAdd wordCount 1 in
        let! wordCount := checkedAdd wordCount (zlength appleAddresses) in
        let! _ := checkedAdd wordCount 1 in
        let words := stack_words mainExecutable (zlength arguments) argumentAddresses
                       environmentAddresses appleAddresses in
        let! wordBytes := checkedMultiply (zlength words) 8 in
        if (cursor <? base) || (cursor - base <? wordBytes) then Throw no_room_error
        else
          let stackPointer := Z.land (cursor - wordBytes) (not64 15) in
          if stackPointer <? base
          then Throw (runtime_error "initial guest stack alignment underflows mapping")
          else
            let payload := replicate (Z.to_nat (top - stackPointer)) 0 in
            let! payload := write_words payload 0 words in
            let! payload := copyStrings payload stackPointer arguments argumentAddresses in
            let! payload := copyStrings payload stackPointer environment environmentAddresses in
            let! payload := copyStrings payload stackPointer apple appleAddresses in
            Ok (stackPointer, payload)
  end.

Definition build (hostReserve : Z -> bool) (base size : Z)
    (arguments environment apple : list (list Z)) (mainExecutable : option Z) :
    M AddressSpace InitialStack :=
  do! (stackPointer, payload) <- lift (prepare base size arguments environment apple mainExecutable);
  mapAnonymous hostReserve base size (Permission_or Permission_Read Permission_Write)
    (Permission_or Permission_Read Permission_Write) "guest stack" ;;;
  writeBytes stackPointer payload ;;;
  ret (mkInitialStack base size stackPointer).

(** ** Specification *)

(** NUL-terminated strings laid out one after the other. *)
Definition cstrings (strings : list (list Z)) : list Z := concat (map (fun s => s ++ [0]) strings).

Fixpoint addresses_from (a : Z) (strings : list (list Z)) : list Z :=
  match strings with
  | [] => []
  | s :: rest => a :: addresses_from (a + zlength s + 1) rest
  end.

Definition word_bytes (words : list Z) : list Z := concat (map (le_bytes 8) words).

(** The stack image, from the 16-byte aligned stack pointer to the top: the
    vectors, padding, and the strings of argv, envp and apple. *)
Record stack_image := mkImage { si_pointer : Z; si_words : list Z; si_bytes : list Z }.
Definition image (base size : Z) (arguments environment apple : list (list Z))
    (mainExecutable : option Z) : stack_image :=
  let top := base + size in
  let strings := cstrings (arguments ++ environment ++ apple) in
  let a0 := top - zlength strings in
  let a1 := a0 + zlength (cstrings arguments) in
  let a2 := a1 + zlength (cstrings environment) in
  let words := stack_words mainExecutable (zlength arguments) (addresses_from a0 arguments)
                 (addresses_from a1 environment) (addresses_from a2 apple) in
  let sp := (a0 - 8 * zlength words) / 16 * 16 in
  let padding := replicate (Z.to_nat (a0 - 8 * zlength words - sp)) 0 in
  mkImage sp words (word_bytes words ++ padding ++ strings).

Definition fits (base size : Z) (arguments environment apple : list (list Z))
    (mainExecutable : option Z) : Prop :=
  arguments <> [] /\ base + size <= UINT64_MAX /\
  base <= (image base size arguments environment apple mainExecutable).(si_pointer).

(** ** Reserving strings *)

Lemma zlength_app {A} (l k : list A) : zlength (l ++ k) = zlength l + zlength k.
Proof. unfold zlength. rewrite length_app. lia. Qed.
Lemma zlength_cons {A} (x : A) l : zlength (x :: l) = 1 + zlength l.
Proof. unfold zlength. cbn [length]. lia. Qed.
Lemma zlength_nonneg {A} (l : list A) : 0 <= zlength l.
Proof. unfold zlength. lia. Qed.
Lemma zlength_replicate {A} (x : A) n : 0 <= n -> zlength (replicate (Z.to_nat n) x) = n.
Proof. intros. unfold zlength. rewrite length_replicate. lia. Qed.

Lemma cstrings_cons s l : cstrings (s :: l) = s ++ 0 :: cstrings l.
Proof. unfold cstrings. cbn. by rewrite <- app_assoc. Qed.
Lemma cstrings_app l k : cstrings (l ++ k) = cstrings l ++ cstrings k.
Proof. unfold cstrings. by rewrite map_app, concat_app. Qed.
Lemma zlength_cstrings_cons s l : zlength (cstrings (s :: l)) = zlength s + 1 + zlength (cstrings l).
Proof. rewrite cstrings_cons, zlength_app, zlength_cons. lia. Qed.

Lemma zlength_addresses l : forall a, zlength (addresses_from a l) = zlength l.
Proof. induction l as [|s l IH]; intros a; cbn; [done|]. by rewrite !zlength_cons, IH. Qed.

Lemma reserveStrings_spec base c strings : 0 <= base <= c -> c <= UINT64_MAX ->
  let a := c - zlength (cstrings strings) in
  if base <=? a then reserveStrings base c strings = Ok (a, addresses_from a strings)
  else exists e, reserveStrings base c strings = Throw e.
Proof.
  intros Hb Hc. induction strings as [|s l IH]; cbn zeta in *.
  { unfold zlength. cbn. rewrite Z.sub_0_r. by destruct (Z.leb_spec base c); [|lia]. }
  rewrite zlength_cstrings_cons. cbn [reserveStrings]. pose proof (zlength_nonneg s).
  destruct (Z.leb_spec base (c - zlength (cstrings l))) as [Hl|Hl].
  - rewrite IH. cbn [outcome_bind]. unfold reserveString.
    destruct (Z.leb_spec base (c - (zlength s + 1 + zlength (cstrings l)))).
    + pose proof (zlength_nonneg (cstrings l)).
      destruct (Z.eqb_spec (zlength s) UINT64_MAX); [lia|].
      replace (_ || _) with false by (symmetry; rewrite orb_false_iff, !Z.ltb_ge; lia).
      cbn [outcome_bind addresses_from]. do 2 f_equal; [lia|]. f_equal; [lia|]. f_equal. lia.
    + destruct (zlength s =? UINT64_MAX); [by eexists|].
      replace (_ || _) with true; [by eexists|]. symmetry. rewrite orb_true_iff, !Z.ltb_lt. lia.
  - destruct IH as [e ->]. destruct (Z.leb_spec base (c - (zlength s + 1 + zlength (cstrings l)))); [lia|].
    by exists e.
Qed.

(** ** Filling the payload *)

Lemma overwrite_split pre mid post d : (length d <= length mid)%nat ->
  overwrite (pre ++ mid ++ post) (zlength pre) d = pre ++ d ++ drop (length d) mid ++ post.
Proof.
  intros Hl. rewrite <- (take_drop (length d) mid) at 1. rewrite <- app_assoc.
  apply overwrite_app. rewrite length_take. lia.
Qed.

Lemma word_bytes_length words : zlength (word_bytes words) = 8 * zlength words.
Proof.
  induction words as [|w l IH]; [done|]. unfold word_bytes in *. cbn [map concat].
  rewrite zlength_app, zlength_cons, IH. unfold zlength. rewrite length_le_bytes. lia.
Qed.

Lemma write_words_spec words : forall pre mid post, zlength mid = 8 * zlength words ->
  write_words (pre ++ mid ++ post) (zlength pre) words = Ok (pre ++ word_bytes words ++ post).
Proof.
  induction words as [|w l IH]; intros pre mid post Hm.
  { destruct mid; [done|]. rewrite zlength_cons in Hm. pose proof (zlength_nonneg mid).
    unfold zlength in *. cbn in Hm. lia. }
  cbn [write_words]. unfold payload_writeU64. rewrite !zlength_app. rewrite zlength_cons in Hm.
  pose proof (zlength_nonneg l). pose proof (zlength_nonneg post). pose proof (zlength_nonneg pre).
  replace (_ || _) with false by (symmetry; rewrite orb_false_iff, !Z.ltb_ge; lia).
  assert (length (le_bytes 8 w) = 8%nat) as H8 by apply length_le_bytes.
  cbn [outcome_bind]. rewrite overwrite_split by (unfold zlength in *; lia). rewrite H8.
  replace (zlength pre + 8) with (zlength (pre ++ le_bytes 8 w))
    by (rewrite zlength_app; unfold zlength; lia).
  rewrite (app_assoc pre). rewrite IH.
  - unfold word_bytes. cbn [map concat]. by rewrite !app_assoc.
  - unfold zlength in *. rewrite length_drop. lia.
Qed.

Lemma copyStrings_loop_spec strings : forall pb pre mid post,
  zlength mid = zlength (cstrings strings) -> zlength (pre ++ mid ++ post) <= UINT64_MAX ->
  copyStrings_loop (pre ++ mid ++ post) pb strings (addresses_from (pb + zlength pre) strings) =
  Ok (pre ++ cstrings strings ++ post).
Proof.
  induction strings as [|s l IH]; intros pb pre mid post Hm Hmax.
  { destruct mid; [done|]. rewrite zlength_cons in Hm. pose proof (zlength_nonneg mid).
    unfold zlength in *. cbn in Hm. lia. }
  cbn [copyStrings_loop addresses_from]. unfold copyString.
  rewrite zlength_cstrings_cons in Hm. rewrite !zlength_app in *.
  pose proof (zlength_nonneg (cstrings l)). pose proof (zlength_nonneg post).
  pose proof (zlength_nonneg pre). pose proof (zlength_nonneg s).
  destruct (Z.ltb_spec (pb + zlength pre) pb); [lia|].
  replace (pb + zlength pre - pb) with (zlength pre) by lia.
  destruct (Z.ltb_spec (zlength pre + (zlength mid + zlength post)) (zlength pre)); [lia|].
  replace (_ || _) with false by (symmetry; rewrite orb_false_iff, Z.eqb_neq, Z.ltb_ge; lia).
  cbn [outcome_bind]. rewrite overwrite_split
    by (rewrite length_app; unfold zlength in *; cbn [length]; lia).
  replace (pb + zlength pre + zlength s + 1) with (pb + zlength (pre ++ s ++ [0]))
    by (rewrite !zlength_app; unfold zlength; cbn [length]; lia).
  rewrite (app_assoc pre). rewrite IH.
  - rewrite cstrings_cons. by rewrite <- !app_assoc.
  - unfold zlength in *. rewrite length_drop, length_app. cbn [length]. lia.
  - rewrite !zlength_app in *. unfold zlength in *. rewrite length_drop, length_app. cbn [length]. lia.
Qed.

Lemma copyStrings_spec pb strings pre mid post :
  zlength mid = zlength (cstrings strings) -> zlength (pre ++ mid ++ post) <= UINT64_MAX ->
  copyStrings (pre ++ mid ++ post) pb strings (addresses_from (pb + zlength pre) strings) =
  Ok (pre ++ cstrings strings ++ post).
Proof.
  intros. unfold copyStrings. rewrite zlength_addresses, Z.eqb_refl. by apply copyStrings_loop_spec.
Qed.

Lemma copyStrings_at pb a strings pre mid post payload :
  payload = pre ++ mid ++ post -> a = pb + zlength pre ->
  zlength mid = zlength (cstrings strings) -> zlength payload <= UINT64_MAX ->
  copyStrings payload pb strings (addresses_from a strings) = Ok (pre ++ cstrings strings ++ post).
Proof. intros -> -> ? ?. by apply copyStrings_spec. Qed.

Lemma zlength_cstrings_count l : zlength l <= zlength (cstrings l).
Proof.
  induction l as [|s l IH]; [done|]. rewrite zlength_cstrings_cons, zlength_cons.
  pose proof (zlength_nonneg s). lia.
Qed.

Lemma checkedAdd_ok x y : x + y <= UINT64_MAX -> checkedAdd x y = Ok (x + y).
Proof. intros. unfold checkedAdd. by destruct (Z.ltb_spec (UINT64_MAX - y) x); [lia|]. Qed.

Lemma checkedMultiply_ok x y : 0 <= x -> x * y <= UINT64_MAX -> checkedMultiply x y = Ok (x * y).
Proof.
  intros H0 H. unfold checkedMultiply. destruct (Z.eqb_spec x 0) as [->|]; [done|]. cbn [negb andb].
  destruct (Z.ltb_spec (UINT64_MAX / x) y) as [Hlt|]; [|done].
  assert (y <= UINT64_MAX / x) by (apply Z.div_le_lower_bound; lia). lia.
Qed.

Lemma zlength_stack_words main argc argv envp apple :
  zlength (stack_words main argc argv envp apple) =
  (match main with Some _ => 1 | None => 0 end) + 1 + zlength argv + 1 + zlength envp + 1 +
  zlength apple + 1.
Proof.
  unfold stack_words. rewrite !zlength_app.
  destruct main; unfold zlength; cbn [length]; lia.
Qed.

Lemma checkedAdd_cases x y : (checkedAdd x y = Ok (x + y) /\ x + y <= UINT64_MAX) \/
  ((exists e, checkedAdd x y = Throw e) /\ UINT64_MAX < x + y).
Proof.
  unfold checkedAdd. destruct (Z.ltb_spec (UINT64_MAX - y) x); [right|left]; (split; [|lia]); eauto.
Qed.

Lemma align16 x : 0 <= x < 2 ^ 64 -> Z.land x (not64 15) = x / 16 * 16.
Proof.
  intros Hx. change 15 with (2 ^ 4 - 1). rewrite land_not64_ones by lia. change (2 ^ 4) with 16. pose proof (Z.div_mod x 16 ltac:(lia)). lia.
Qed.

(** ** [prepare] computes the image *)

Section Prepare.
Context (base size : Z) (arguments environment apple : list (list Z)) (main : option Z).
Context (Hbase : 0 <= base) (Hsize : 0 <= size).

Definition img : stack_image := image base size arguments environment apple main.
Definition strings_length : Z := zlength (cstrings (arguments ++ environment ++ apple)).
Definition lowest_string : Z := base + size - strings_length.

Lemma strings_length_eq : strings_length =
  zlength (cstrings arguments) + zlength (cstrings environment) + zlength (cstrings apple).
Proof. unfold strings_length. rewrite !cstrings_app, !zlength_app. lia. Qed.

Lemma img_pointer : img.(si_pointer) = (lowest_string - 8 * zlength img.(si_words)) / 16 * 16.
Proof. done. Qed.

Lemma img_pointer_bounds : img.(si_pointer) <= lowest_string - 8 * zlength img.(si_words)
  < img.(si_pointer) + 16.
Proof.
  rewrite img_pointer. set (x := lowest_string - _).
  pose proof (Z.div_mod x 16). pose proof (Z.mod_pos_bound x 16). lia.
Qed.

Lemma img_words_count : zlength img.(si_words) =
  (match main with Some _ => 1 | None => 0 end) + 1 + zlength arguments + 1 + zlength environment +
  1 + zlength apple + 1.
Proof. unfold img, image. cbn [si_words]. by rewrite zlength_stack_words, !zlength_addresses. Qed.

Lemma img_bytes : img.(si_bytes) = word_bytes img.(si_words) ++
  replicate (Z.to_nat (lowest_string - 8 * zlength img.(si_words) - img.(si_pointer))) 0 ++
  cstrings (arguments ++ environment ++ apple).
Proof. done. Qed.

Lemma img_length : zlength img.(si_bytes) = base + size - img.(si_pointer).
Proof.
  rewrite img_bytes, !zlength_app, word_bytes_length.
  pose proof img_pointer_bounds. rewrite zlength_replicate by lia.
  fold strings_length. unfold lowest_string. lia.
Qed.

(** The filling phase. *)
Lemma fill_image : base + size <= UINT64_MAX -> 0 <= img.(si_pointer) ->
  (let! payload := write_words (replicate (Z.to_nat (base + size - img.(si_pointer))) 0) 0 img.(si_words) in
   let! payload := copyStrings payload img.(si_pointer) arguments (addresses_from lowest_string arguments) in
   let! payload := copyStrings payload img.(si_pointer) environment
     (addresses_from (lowest_string + zlength (cstrings arguments)) environment) in
   let! payload := copyStrings payload img.(si_pointer) apple
     (addresses_from (lowest_string + zlength (cstrings arguments) + zlength (cstrings environment)) apple) in
   Ok (img.(si_pointer), payload)) = Ok (img.(si_pointer), img.(si_bytes)).
Proof using Hbase Hsize.
  intros Hmax Hsp. pose proof img_pointer_bounds as Hb. pose proof strings_length_eq as Hs.
  pose proof (zlength_nonneg (cstrings arguments)). pose proof (zlength_nonneg (cstrings environment)).
  pose proof (zlength_nonneg (cstrings apple)). pose proof (zlength_nonneg img.(si_words)).
  set (w := word_bytes img.(si_words)).
  set (pad := lowest_string - 8 * zlength img.(si_words) - img.(si_pointer)) in *.
  set (la := zlength (cstrings arguments)) in *. set (le := zlength (cstrings environment)) in *.
  set (lp := zlength (cstrings apple)) in *.
  assert (pad = lowest_string - 8 * zlength img.(si_words) - img.(si_pointer)) as Hpad by done.
  assert (lowest_string = base + size - (la + le + lp)) as Hlow by (unfold lowest_string; lia).
  assert (zlength w = 8 * zlength img.(si_words)) as Hw by apply word_bytes_length.
  set (zeros n := replicate (Z.to_nat n) 0).
  assert (forall n, 0 <= n -> zlength (zeros n) = n) as Hz by (intros; by apply zlength_replicate).
  assert (zeros (base + size - img.(si_pointer)) =
    [] ++ zeros (8 * zlength img.(si_words)) ++ zeros pad ++ zeros la ++ zeros le ++ zeros lp) as Hzero.
  { unfold zeros. cbn [app]. rewrite <- !replicate_add. f_equal. lia. }
  change (replicate (Z.to_nat (base + size - img.(si_pointer))) 0) with (zeros (base + size - img.(si_pointer))).
  rewrite Hzero. change 0 with (zlength (@nil Z)) at 1.
  rewrite write_words_spec by (apply Hz; lia). cbn [outcome_bind app]. fold w.
  rewrite (copyStrings_at _ _ _ (w ++ zeros pad) (zeros la) (zeros le ++ zeros lp)); cycle 1.
  { by rewrite <- !app_assoc. }
  { rewrite zlength_app, Hw, Hz by lia. lia. }
  { by rewrite Hz by lia. }
  { rewrite !zlength_app, Hw, !Hz by lia. lia. }
  cbn [outcome_bind].
  rewrite (copyStrings_at _ _ _ ((w ++ zeros pad) ++ cstrings arguments) (zeros le) (zeros lp)); cycle 1.
  { by rewrite <- !app_assoc. }
  { rewrite !zlength_app, Hw, Hz by lia. fold la. lia. }
  { by rewrite Hz by lia. }
  { rewrite !zlength_app, Hw, !Hz by lia. fold la. lia. }
  cbn [outcome_bind].
  rewrite (copyStrings_at _ _ _ (((w ++ zeros pad) ++ cstrings arguments) ++ cstrings environment)
    (zeros lp) []); cycle 1.
  { by rewrite <- !app_assoc, app_nil_r. }
  { rewrite !zlength_app, Hw, Hz by lia. fold la le. lia. }
  { by rewrite Hz by lia. }
  { rewrite !zlength_app, Hw, !Hz by lia. fold la le. lia. }
  cbn [outcome_bind]. rewrite img_bytes. fold w pad. fold (zeros pad). rewrite !cstrings_app.
  by rewrite <- !app_assoc, app_nil_r.
Qed.

Lemma prepare_spec :
  prepare base size arguments environment apple main = Ok (img.(si_pointer), img.(si_bytes)) /\
    fits base size arguments environment apple main \/
  (exists e, prepare base size arguments environment apple main = Throw e) /\
    ~ fits base size arguments environment apple main.
Proof using Hbase Hsize.
  unfold fits. fold img. unfold prepare.
  destruct arguments as [|a0 al] eqn:Ea; [right; split; [eauto|by intros [? _]]|].
  assert (a0 :: al <> []) as Hne by done. rewrite <- Ea in *. clear Ea.
  destruct (Z.ltb_spec (UINT64_MAX - size) base) as [Hov|Hov]; [right; split; [eauto|lia]|].
  pose proof img_pointer_bounds as Hb. pose proof strings_length_eq as Hs.
  assert (0 <= zlength img.(si_words)) as Hw0 by apply zlength_nonneg.
  pose proof (zlength_nonneg (cstrings arguments)). pose proof (zlength_nonneg (cstrings environment)).
  pose proof (zlength_nonneg (cstrings apple)).
  assert (lowest_string = base + size - strings_length) as Hlow by done.
  pose proof (reserveStrings_spec base (base + size) apple ltac:(lia) ltac:(lia)) as R1. cbv zeta in *.
  destruct (Z.leb_spec base (base + size - zlength (cstrings apple))) as [G1|G1].
  2:{ destruct R1 as [e ->]. right. split; [eauto|]. lia. }
  rewrite R1. cbn [outcome_bind].
  pose proof (reserveStrings_spec base (base + size - zlength (cstrings apple)) environment
    ltac:(lia) ltac:(lia)) as R2. cbv zeta in R2.
  set (c1 := base + size - zlength (cstrings apple)) in *.
  destruct (Z.leb_spec base (c1 - zlength (cstrings environment))) as [G2|G2].
  2:{ destruct R2 as [e ->]. right. split; [eauto|]. lia. }
  rewrite R2. cbn [outcome_bind].
  set (c2 := c1 - zlength (cstrings environment)) in *.
  pose proof (reserveStrings_spec base c2 arguments ltac:(lia) ltac:(lia)) as R3. cbv zeta in R3.
  destruct (Z.leb_spec base (c2 - zlength (cstrings arguments))) as [G3|G3].
  2:{ destruct R3 as [e ->]. right. split; [eauto|]. lia. }
  rewrite R3. cbn [outcome_bind]. set (c3 := c2 - zlength (cstrings arguments)) in *.
  assert (c3 = lowest_string) as E3 by lia.
  assert (c2 = lowest_string + zlength (cstrings arguments)) as E2 by lia.
  assert (c1 = lowest_string + zlength (cstrings arguments) + zlength (cstrings environment)) as E1 by lia.
  rewrite E1, E2, E3. clear R1 R2 R3.
  pose proof img_words_count as Hcount. rewrite !zlength_addresses.
  assert (img.(si_words) = stack_words main (zlength arguments) (addresses_from lowest_string arguments)
    (addresses_from (lowest_string + zlength (cstrings arguments)) environment)
    (addresses_from (lowest_string + zlength (cstrings arguments) + zlength (cstrings environment)) apple))
    as Hwords by done.
  pose proof (zlength_nonneg arguments). pose proof (zlength_nonneg environment).
  pose proof (zlength_nonneg apple).
  set (m := match main with Some _ => 1 | None => 0 end) in *.
  assert (0 <= m) by (subst m; destruct main; lia).
  repeat match goal with
  | |- context [checkedAdd ?x ?y] =>
      destruct (checkedAdd_cases x y) as [[-> ?]|[[? ->] ?]]; cbn [outcome_bind];
      [|right; split; [eauto|lia]]
  end.
  rewrite <- Hwords.
  unfold checkedMultiply. destruct (_ && _) eqn:Hmul; cbn [outcome_bind].
  { right. split; [eauto|]. apply andb_prop in Hmul as [Hm0 Hm1].
    apply negb_true_iff, Z.eqb_neq in Hm0. apply Z.ltb_lt in Hm1.
    assert (UINT64_MAX < zlength img.(si_words) * 8); [|lia].
    pose proof (Z.mul_succ_div_gt UINT64_MAX (zlength img.(si_words)) ltac:(lia)). nia. }
  destruct (Z.ltb_spec lowest_string base); [lia|]. cbn [orb].
  destruct (Z.ltb_spec (lowest_string - base) (zlength img.(si_words) * 8)) as [Hr|Hr].
  { right. split; [eauto|lia]. }
  unfold UINT64_MAX in *.
  rewrite align16 by lia. replace (zlength img.(si_words) * 8) with (8 * zlength img.(si_words)) by lia.
  rewrite <- img_pointer. destruct (Z.ltb_spec img.(si_pointer) base) as [Hsp|Hsp].
  { right. split; [eauto|lia]. }
  left. split; [|split_and!; [|lia|lia]].
  - apply fill_image; unfold UINT64_MAX; lia.
  - done.
Qed.
End Prepare.

(** ** [build] *)

(** What a successful [build] leaves in memory. *)
Definition stack_effect (s s' : AddressSpace) (base size : Z) (img : stack_image) : Prop :=
  inv s' /\
  (forall x, perm_at s' x = if decide (base <= x < base + size) then Some 3 else perm_at s x) /\
  (forall x, byte_at s' x =
     if decide (img.(si_pointer) <= x < base + size) then img.(si_bytes) !! Z.to_nat (x - img.(si_pointer))
     else if decide (base <= x < base + size) then Some 0 else byte_at s x).

Lemma check_all_range s r : inv s -> forall n a, 0 <= a -> a + Z.of_nat n < 2 ^ 64 ->
  (forall x, a <= x < a + Z.of_nat n -> exists p, perm_at s x = Some p /\ hasPermission p r = true) ->
  check_all s r a n = Ok tt.
Proof.
  intros Hi. induction n as [|n IH]; intros a Ha Hmax Hp; cbn [check_all]; [done|].
  destruct (Hp a) as (p & Hpa & Hr); [lia|]. unfold perm_at in Hpa. unfold access.
  destruct (mapping_at s.(as_mappings) a) as [m|]; [|done]. cbn in Hpa. simplify_eq.
  rewrite Hr. cbn [outcome_bind]. rewrite u64_small by lia. apply IH; try lia. intros x Hx. apply Hp. lia.
Qed.

Lemma eager_creation s base size hostReserve label s' p m : eager s ->
  mapAnonymous hostReserve base size p m label s = (s', Ok tt) -> eager s'.
Proof.
  intros He. unfold mapAnonymous, bind. destruct (validateNewMapping _ _ _ _ s); try done.
  assert (forall n t, n.(m_lazyFileTransform) = None -> eager t -> eager (insertMapping n t)) as Hins.
  { intros n t Hn Ht. unfold eager, insertMapping. cbn. unfold eager in Ht.
    rewrite <- (take_drop (lower_bound t.(as_mappings) n.(m_base)) t.(as_mappings)) in Ht.
    apply Forall_app in Ht as [? ?]. apply Forall_app. split; [done|]. by constructor. }
  destruct (m =? Permission_None); [intros [= <-]; by apply Hins|].
  destruct (negb _); [done|]. cbn. intros [= <-]. by apply Hins.
Qed.

(** C19: building the initial stack is all or nothing.  When the strings
    and vectors fit, the range is free and host memory is available, it maps the
    range read-write and fills it with exactly the Darwin stack image: a 16-byte
    aligned stack pointer inside the mapping, the optional executable header
    word, argc, and NULL-terminated argv, envp and apple vectors whose entries
    are the addresses of the NUL-terminated strings placed at the top; all other
    memory is unchanged.  Otherwise it throws and the space is untouched. *)
Theorem build_correct s hostReserve base size arguments environment apple main :
  inv s -> eager s -> 0 <= base -> 0 <= size ->
  let result := build hostReserve base size arguments environment apple main s in
  let img := image base size arguments environment apple main in
  (fits base size arguments environment apple main /\ creation_error s base size 3 3 = None /\
   hostReserve size = true /\ img.(si_pointer) mod 16 = 0 /\
   exists s', result = (s', Ok (mkInitialStack base size img.(si_pointer))) /\
     stack_effect s s' base size img) \/
  ((~ fits base size arguments environment apple main \/ creation_error s base size 3 3 <> None \/
    hostReserve size = false) /\ exists e, result = (s, Throw e)).
Proof.
  intros Hi He Hb Hs result img0. subst result. unfold build.
  change (Permission_or Permission_Read Permission_Write) with 3.
  destruct (prepare_spec base size arguments environment apple main Hb Hs) as [[Ep Hfit]|[[e Ep] Hfit]].
  2:{ right. split; [by left|]. exists e. by rewrite (bind_throw _ _ s s e) by (unfold lift; by rewrite Ep). }
  rewrite (bind_ok _ _ s s _) by (unfold lift; by rewrite Ep).
  pose proof (img_length base size arguments environment apple main) as Hlen.
  pose proof (img_pointer base size arguments environment apple main) as Hal.
  unfold img in *. fold img0 in Hlen, Hal |- *. destruct Hfit as (Hne & Hmax & Hsp). fold img0 in Hsp.
  pose proof (mapAnonymous_spec s base size 3 3 "guest stack" Hi Hb Hs ltac:(lia) ltac:(lia) hostReserve) as HA.
  destruct (creation_error s base size 3 3) as [e|] eqn:Hc.
  { right. split; [auto|]. exists e. by apply bind_throw. }
  change (3 =? Permission_None) with false in HA. cbn [orb] in HA.
  destruct (hostReserve size) eqn:Hh.
  2:{ right. split; [auto|]. eexists. apply bind_throw. exact HA. }
  destruct HA as (s1 & E1 & Hi1 & Hp1 & _ & Hb1 & _). left.
  pose proof (eager_creation _ _ _ _ _ _ _ _ He E1) as He1. rewrite (bind_ok _ _ _ _ _ E1).
  pose proof (zlength_nonneg img0.(si_bytes)) as Hl0. unfold UINT64_MAX in Hmax.
  pose proof (writeBytes_spec s1 img0.(si_pointer) img0.(si_bytes) Hi1 He1
    ltac:(unfold in_range; lia)) as HW.
  rewrite check_all_range in HW; [|done|lia|unfold zlength in *; lia|].
  2:{ intros x Hx. exists 3. rewrite Hp1, decide_True by (unfold zlength in *; lia). done. }
  destruct HW as (s2 & E2 & Hi2 & Hsh & Hw & _). rewrite (bind_ok _ _ _ _ _ E2).
  split; [by split|]. split; [done|]. split; [done|]. split.
  { rewrite Hal. apply Z.mod_mul. lia. }
  exists s2. split; [done|]. split; [done|]. split.
  - intros x. rewrite (perm_at_shape _ _ _ Hsh). apply Hp1.
  - intros x. rewrite Hw, Hlen. replace (img0.(si_pointer) + (base + size - img0.(si_pointer)))
      with (base + size) by lia.
    case_decide; [done|]. rewrite Hb1. unfold anonymous_fill. done.
Qed.

(** argv = ["a"], with no environment and no apple strings. *)
Lemma build_correct_witness : inv sampleSpace /\ eager sampleSpace /\
  exists s', build (fun _ => true) 16384 4096 [[97]] [] [] None sampleSpace =
      (s', Ok (mkInitialStack 16384 4096 20432)) /\ inv s' /\
    byte_at s' 20432 = Some 1 /\ byte_at s' 20478 = Some 97.
Proof.
  split; [apply sampleSpace_inv|]. split; [apply sampleSpace_eager|].
  pose proof (build_correct sampleSpace (fun _ => true) 16384 4096 [[97]] [] [] None sampleSpace_inv
    sampleSpace_eager ltac:(lia) ltac:(lia)) as H.
  destruct H as [(_ & _ & _ & _ & s' & E & Hi & _ & Hb)|[[Hf|[Hc|Hh]] _]].
  - exists s'. rewrite !Hb. split_and!; [exact E|exact Hi|reflexivity..].
  - exfalso. apply Hf. split_and!; [discriminate|vm_compute; discriminate|vm_compute; discriminate].
  - exfalso. apply Hc. reflexivity.
  - discriminate.
Defined.
