(* ===== verification/AArch64.v ===== *)
(** A reference for the A64 instructions the assembler emits: a decoder by
    instruction class, following the field layout of the Arm architecture, and
    the effect of the data-processing and load/store instructions on registers,
    flags and memory.  It does not mention the assembler. *)
From S2P Require Import Prelude.

(** Bits [lo, lo + n) of a word. *)
Definition field (w lo n : Z) : Z := Z.land (Z.shiftr w lo) (Z.ones n).
Definition flag (w lo : Z) : bool := Z.testbit w lo.

Inductive shift_kind := LSL | LSR | ASR | ROR.
Inductive logic_op := AND | ORR | EOR | ANDS.
Inductive wide_op := MOVN | MOVZ | MOVK.

Inductive instr :=
| LogicalShifted (sf : bool) (op : logic_op) (invert : bool) (rd rn rm : Z) (k : shift_kind) (amount : Z)
| AddSubShifted (sf sub setflags : bool) (rd rn rm : Z) (k : shift_kind) (amount : Z)
| AddSubImm (sf sub setflags : bool) (rd rn imm : Z)
| MoveWide (sf : bool) (op : wide_op) (rd imm hw : Z)
| Bitfield (sf signed : bool) (rd rn immr imms : Z)
| Extract (sf : bool) (rd rn rm lsb : Z)
| Reverse (sf : bool) (rd rn : Z)
| ShiftVariable (sf : bool) (k : shift_kind) (rd rn rm : Z)
| MultiplyAdd (rd rn rm ra : Z)
| MultiplyHigh (signed : bool) (rd rn rm : Z)
| ConditionalSelect (sf increment : bool) (rd rn rm cond : Z)
| Load (scale rt rn imm : Z)
| Store (scale rt rn imm : Z)
| StorePairPre (rt rt2 rn imm : Z)
| LoadPairPost (rt rt2 rn imm : Z)
| Branch (imm : Z)
| CompareBranch (nonzero : bool) (rt imm : Z)
| BranchCond (cond imm : Z)
| TestBranch (nonzero : bool) (rt bit imm : Z)
| BranchLinkRegister (rn : Z)
| Return (rn : Z)
| DataMemoryBarrier (option : Z)
| InstructionBarrier.

(** ** Decoding *)

Definition shift_of (k : Z) : shift_kind :=
  match k with 0 => LSL | 1 => LSR | 2 => ASR | _ => ROR end.
Definition logic_of (k : Z) : logic_op :=
  match k with 0 => AND | 1 => ORR | 2 => EOR | _ => ANDS end.

Definition decode_logical (w : Z) : option instr :=
  Some (LogicalShifted (flag w 31) (logic_of (field w 29 2)) (flag w 21) (field w 0 5) (field w 5 5)
    (field w 16 5) (shift_of (field w 22 2)) (field w 10 6)).

Definition decode_addsub_shifted (w : Z) : option instr :=
  if flag w 21 || (field w 22 2 =? 3) then None
  else Some (AddSubShifted (flag w 31) (flag w 30) (flag w 29) (field w 0 5) (field w 5 5)
    (field w 16 5) (shift_of (field w 22 2)) (field w 10 6)).

Definition decode_addsub_imm (w : Z) : option instr :=
  Some (AddSubImm (flag w 31) (flag w 30) (flag w 29) (field w 0 5) (field w 5 5)
    (if flag w 22 then Z.shiftl (field w 10 12) 12 else field w 10 12)).

Definition decode_wide (w : Z) : option instr :=
  match field w 29 2 with
  | 0 => Some (MoveWide (flag w 31) MOVN (field w 0 5) (field w 5 16) (field w 21 2))
  | 2 => Some (MoveWide (flag w 31) MOVZ (field w 0 5) (field w 5 16) (field w 21 2))
  | 3 => Some (MoveWide (flag w 31) MOVK (field w 0 5) (field w 5 16) (field w 21 2))
  | _ => None
  end.

Definition decode_bitfield (w : Z) : option instr :=
  if negb (Bool.eqb (flag w 31) (flag w 22)) then None
  else match field w 29 2 with
  | 0 => Some (Bitfield (flag w 31) true (field w 0 5) (field w 5 5) (field w 16 6) (field w 10 6))
  | 2 => Some (Bitfield (flag w 31) false (field w 0 5) (field w 5 5) (field w 16 6) (field w 10 6))
  | _ => None
  end.

Definition decode_extract (w : Z) : option instr :=
  if negb (field w 29 2 =? 0) || flag w 21 || negb (Bool.eqb (flag w 31) (flag w 22)) then None
  else Some (Extract (flag w 31) (field w 0 5) (field w 5 5) (field w 16 5) (field w 10 6)).

Definition decode_two_source (w : Z) : option instr :=
  let k := field w 10 6 in
  if k =? 8 then Some (ShiftVariable (flag w 31) LSL (field w 0 5) (field w 5 5) (field w 16 5))
  else if k =? 9 then Some (ShiftVariable (flag w 31) LSR (field w 0 5) (field w 5 5) (field w 16 5))
  else if k =? 10 then Some (ShiftVariable (flag w 31) ASR (field w 0 5) (field w 5 5) (field w 16 5))
  else None.

Definition decode_one_source (w : Z) : option instr :=
  if negb (field w 16 5 =? 0) then None
  else if field w 10 6 =? (if flag w 31 then 3 else 2)
  then Some (Reverse (flag w 31) (field w 0 5) (field w 5 5)) else None.

Definition decode_three_source (w : Z) : option instr :=
  if negb (flag w 31) || flag w 15 then None
  else match field w 21 3 with
  | 0 => Some (MultiplyAdd (field w 0 5) (field w 5 5) (field w 16 5) (field w 10 5))
  | 2 => Some (MultiplyHigh true (field w 0 5) (field w 5 5) (field w 16 5))
  | 6 => Some (MultiplyHigh false (field w 0 5) (field w 5 5) (field w 16 5))
  | _ => None
  end.

Definition decode_select (w : Z) : option instr :=
  if flag w 11 then None
  else Some (ConditionalSelect (flag w 31) (flag w 10) (field w 0 5) (field w 5 5) (field w 16 5)
    (field w 12 4)).

Definition decode_load_store (w : Z) : option instr :=
  match field w 22 2 with
  | 0 => Some (Store (field w 30 2) (field w 0 5) (field w 5 5) (field w 10 12))
  | 1 => Some (Load (field w 30 2) (field w 0 5) (field w 5 5) (field w 10 12))
  | _ => None
  end.

Definition decode_pair (w : Z) : option instr :=
  if negb (field w 30 2 =? 2) then None
  else match field w 22 4 with
  | 6 => Some (StorePairPre (field w 0 5) (field w 10 5) (field w 5 5) (signed 7 (field w 15 7)))
  | 3 => Some (LoadPairPost (field w 0 5) (field w 10 5) (field w 5 5) (signed 7 (field w 15 7)))
  | _ => None
  end.

Definition decode_branch_register (w : Z) : option instr :=
  if (field w 10 15 =? 0x0FC0) && (field w 0 5 =? 0) then Some (BranchLinkRegister (field w 5 5))
  else if (field w 10 15 =? 0x17C0) && (field w 0 5 =? 0) then Some (Return (field w 5 5))
  else None.

Definition decode_system (w : Z) : option instr :=
  if (field w 12 12 =? 0x033) && (field w 0 8 =? 0xBF) then Some (DataMemoryBarrier (field w 8 4))
  else if (field w 12 12 =? 0x033) && (field w 0 12 =? 0xFDF) then Some InstructionBarrier
  else None.

Definition decode (w : Z) : option instr :=
  if field w 26 5 =? 5 then
    if flag w 31 then None else Some (Branch (signed 26 (field w 0 26)))
  else if field w 25 6 =? 0x1A then
    if flag w 31 then Some (CompareBranch (flag w 24) (field w 0 5) (signed 19 (field w 5 19))) else None
  else if field w 25 6 =? 0x1B then
    Some (TestBranch (flag w 24) (field w 0 5) (field w 19 5 + Z.shiftl (field w 31 1) 5)
            (signed 14 (field w 5 14)))
  else if field w 24 8 =? 0x54 then
    if flag w 4 then None else Some (BranchCond (field w 0 4) (signed 19 (field w 5 19)))
  else if field w 25 7 =? 0x6B then decode_branch_register w
  else if field w 24 8 =? 0xD5 then decode_system w
  else if field w 24 5 =? 0x0A then decode_logical w
  else if field w 24 5 =? 0x0B then decode_addsub_shifted w
  else if field w 23 6 =? 0x22 then decode_addsub_imm w
  else if field w 23 6 =? 0x25 then decode_wide w
  else if field w 23 6 =? 0x26 then decode_bitfield w
  else if field w 23 6 =? 0x27 then decode_extract w
  else if (field w 27 3 =? 7) && (field w 24 3 =? 1) then decode_load_store w
  else if field w 26 4 =? 10 then decode_pair w
  else if field w 21 10 =? 0x0D6 then decode_two_source w
  else if field w 21 10 =? 0x2D6 then decode_one_source w
  else if field w 24 7 =? 0x1B then decode_three_source w
  else if field w 21 10 =? 0x0D4 then decode_select w
  else None.

(** ** Execution *)

Record machine := mkMachine {
  mx : gmap Z Z;          (* x0 .. x30 *)
  msp : Z;
  mN : bool; mZ : bool; mC : bool; mV : bool;
  mmem : gmap Z Z         (* byte addressed, zero elsewhere *)
}.

Definition width (sf : bool) : Z := if sf then 64 else 32.

(** Register 31 reads as zero and ignores writes where it names the zero
    register; it is the stack pointer as a base register. *)
Definition reg_of (m : machine) (n : Z) : Z := default 0 (m.(mx) !! n).
Definition rX (m : machine) (sf : bool) (n : Z) : Z :=
  if n =? 31 then 0 else wrap (width sf) (reg_of m n).
Definition rSP (m : machine) (n : Z) : Z := if n =? 31 then m.(msp) else reg_of m n.
Definition set_x (n v : Z) (m : machine) : machine :=
  mkMachine (<[n := v]> m.(mx)) m.(msp) m.(mN) m.(mZ) m.(mC) m.(mV) m.(mmem).
Definition set_sp (v : Z) (m : machine) : machine :=
  mkMachine m.(mx) v m.(mN) m.(mZ) m.(mC) m.(mV) m.(mmem).
Definition set_nzcv (n z c v : bool) (m : machine) : machine :=
  mkMachine m.(mx) m.(msp) n z c v m.(mmem).
Definition set_mem (f : gmap Z Z) (m : machine) : machine :=
  mkMachine m.(mx) m.(msp) m.(mN) m.(mZ) m.(mC) m.(mV) f.
Definition wX (sf : bool) (n v : Z) (m : machine) : machine :=
  if n =? 31 then m else set_x n (wrap (width sf) v) m.
Definition wSP (sf : bool) (n v : Z) (m : machine) : machine :=
  if n =? 31 then set_sp (wrap (width sf) v) m else set_x n (wrap (width sf) v) m.

Definition shifted (sf : bool) (k : shift_kind) (x amount : Z) : Z :=
  match k with
  | LSL => wrap (width sf) (Z.shiftl x amount)
  | LSR => Z.shiftr x amount
  | ASR => wrap (width sf) (Z.shiftr (signed (width sf) x) amount)
  | ROR => Z.lor (Z.shiftr x amount) (wrap (width sf) (Z.shiftl x (width sf - amount)))
  end.

(** [a + b + carry]: the result and NZCV. *)
Definition add_with_carry (w a b carry : Z) (set : bool) (k : Z -> machine -> machine) (m : machine) :
    machine :=
  let unsigned := a + b + carry in
  let r := wrap w unsigned in
  let m' := k r m in
  if set then
    set_nzcv (Z.testbit r (w - 1)) (r =? 0) (2 ^ w <=? unsigned)
      (negb (signed w r =? signed w a + signed w b + carry)) m'
  else m'.

Definition cond_base (m : machine) (c : Z) : bool :=
  match c with
  | 0 => m.(mZ)
  | 1 => m.(mC)
  | 2 => m.(mN)
  | 3 => m.(mV)
  | 4 => m.(mC) && negb m.(mZ)
  | 5 => Bool.eqb m.(mN) m.(mV)
  | 6 => Bool.eqb m.(mN) m.(mV) && negb m.(mZ)
  | _ => true
  end.
Definition cond_holds (m : machine) (cond : Z) : bool :=
  let base := cond_base m (Z.shiftr cond 1) in
  if Z.testbit cond 0 && negb (cond =? 15) then negb base else base.

(** Bitfield moves: extraction when [immr <= imms], insertion in zeroes otherwise. *)
Definition bitfield (sf sgn : bool) (x immr imms : Z) : Z :=
  if immr <=? imms then
    let len := imms - immr + 1 in
    let v := Z.land (Z.shiftr x immr) (Z.ones len) in
    if sgn then signed len v else v
  else
    let len := imms + 1 in
    let v := Z.land x (Z.ones len) in
    Z.shiftl (if sgn then signed len v else v) (width sf - immr).

Fixpoint load_bytes (f : gmap Z Z) (a : Z) (n : nat) : list Z :=
  match n with O => [] | S n' => default 0 (f !! u64 a) :: load_bytes f (a + 1) n' end.
Fixpoint store_bytes (f : gmap Z Z) (a : Z) (bs : list Z) : gmap Z Z :=
  match bs with
  | [] => f
  | b :: bs' => store_bytes (<[u64 a := b]> f) (a + 1) bs'
  end.
Definition load_word (m : machine) (a : Z) (n : nat) : Z := le_value (load_bytes m.(mmem) a n).
Definition store_word (a : Z) (n : nat) (v : Z) (m : machine) : machine :=
  set_mem (store_bytes m.(mmem) a (le_bytes n v)) m.

Definition exec (i : instr) (m : machine) : option machine :=
  match i with
  | LogicalShifted sf op inv rd rn rm k amount =>
      let b := shifted sf k (rX m sf rm) amount in
      let b := if inv then wrap (width sf) (Z.lnot b) else b in
      let a := rX m sf rn in
      match op with
      | AND => Some (wX sf rd (Z.land a b) m)
      | ORR => Some (wX sf rd (Z.lor a b) m)
      | EOR => Some (wX sf rd (Z.lxor a b) m)
      | ANDS => None
      end
  | AddSubShifted sf sub set rd rn rm k amount =>
      let b := shifted sf k (rX m sf rm) amount in
      let b := if sub then wrap (width sf) (Z.lnot b) else b in
      Some (add_with_carry (width sf) (rX m sf rn) b (if sub then 1 else 0) set (wX sf rd) m)
  | AddSubImm sf sub set rd rn imm =>
      let b := if sub then wrap (width sf) (Z.lnot imm) else imm in
      Some (add_with_carry (width sf) (wrap (width sf) (rSP m rn)) b (if sub then 1 else 0) set
        (if set then wX sf rd else wSP sf rd) m)
  | MoveWide sf op rd imm hw =>
      let v := Z.shiftl imm (16 * hw) in
      Some (wX sf rd
        (match op with
         | MOVN => Z.lnot v
         | MOVZ => v
         | MOVK => Z.lor (Z.land (rX m sf rd) (Z.lnot (Z.shiftl (Z.ones 16) (16 * hw)))) v
         end) m)
  | Bitfield sf sgn rd rn immr imms => Some (wX sf rd (bitfield sf sgn (rX m sf rn) immr imms) m)
  | Extract sf rd rn rm lsb =>
      Some (wX sf rd (Z.shiftr (Z.lor (Z.shiftl (rX m sf rn) (width sf)) (rX m sf rm)) lsb) m)
  | Reverse sf rd rn =>
      let n := Z.to_nat (width sf / 8) in
      Some (wX sf rd (le_value (rev (le_bytes n (rX m sf rn)))) m)
  | ShiftVariable sf k rd rn rm =>
      Some (wX sf rd (shifted sf k (rX m sf rn) (rX m sf rm mod width sf)) m)
  | MultiplyAdd rd rn rm ra => Some (wX true rd (rX m true ra + rX m true rn * rX m true rm) m)
  | MultiplyHigh sgn rd rn rm =>
      let f x := if sgn then signed 64 x else x in
      Some (wX true rd (Z.shiftr (f (rX m true rn) * f (rX m true rm)) 64) m)
  | ConditionalSelect sf inc rd rn rm cond =>
      Some (wX sf rd (if cond_holds m cond then rX m sf rn
                      else rX m sf rm + (if inc then 1 else 0)) m)
  | Load scale rt rn imm =>
      Some (wX true rt (load_word m (rSP m rn + Z.shiftl imm scale) (Z.to_nat (2 ^ scale))) m)
  | Store scale rt rn imm =>
      Some (store_word (rSP m rn + Z.shiftl imm scale) (Z.to_nat (2 ^ scale)) (rX m true rt) m)
  | StorePairPre rt rt2 rn imm =>
      let a := u64 (rSP m rn + imm * 8) in
      Some (wSP true rn a (store_word (a + 8) 8 (rX m true rt2) (store_word a 8 (rX m true rt) m)))
  | LoadPairPost rt rt2 rn imm =>
      let a := rSP m rn in
      Some (wSP true rn (a + imm * 8)
        (wX true rt2 (load_word m (a + 8) 8) (wX true rt (load_word m a 8) m)))
  | _ => None
  end.

(** Execution of a straight-line sequence of words. *)
Fixpoint run (words : list Z) (m : machine) : option machine :=
  match words with
  | [] => Some m
  | w :: ws => i ← decode w; m' ← exec i m; run ws m'
  end.

(** ** Fields of assembled words *)

Lemma field_lor a b lo n : field (Z.lor a b) lo n = Z.lor (field a lo n) (field b lo n).
Proof. unfold field. by rewrite Z.shiftr_lor, Z.land_lor_distr_l. Qed.

Lemma flag_lor a b lo : flag (Z.lor a b) lo = flag a lo || flag b lo.
Proof. apply Z.lor_spec. Qed.

(** A value of [k] bits placed at [s], read at [lo]. *)
Lemma field_below k x s lo n : in_range k x -> 0 <= k -> 0 <= s -> 0 <= n -> s + k <= lo ->
  field (Z.shiftl x s) lo n = 0.
Proof.
  intros Hx Hk Hs Hn Hlo. apply Z.bits_inj'. intros i Hi. unfold field.
  rewrite Z.land_spec, Z.bits_0, Z.shiftr_spec, Z.shiftl_spec by lia.
  by rewrite (testbit_above k x) by (done || lia).
Qed.

Lemma field_above x s lo n : 0 <= lo -> 0 <= n -> lo + n <= s -> field (Z.shiftl x s) lo n = 0.
Proof.
  intros Hlo Hn Hs. apply Z.bits_inj'. intros i Hi. unfold field.
  rewrite Z.land_spec, Z.bits_0, Z.shiftr_spec, Z.shiftl_spec, Z.testbit_ones by lia.
  destruct (Z.ltb_spec i n); [|by rewrite !andb_false_r]. by rewrite Z.testbit_neg_r by lia.
Qed.

Lemma field_hit k x s n : in_range k x -> 0 <= k <= n -> 0 <= s -> field (Z.shiftl x s) s n = x.
Proof.
  intros Hx Hk Hs. apply Z.bits_inj'. intros i Hi. unfold field.
  rewrite Z.land_spec, Z.shiftr_spec, Z.shiftl_spec, Z.testbit_ones by lia.
  replace (i + s - s) with i by lia. destruct (Z.ltb_spec i n).
  - replace (0 <=? i) with true by (symmetry; apply Z.leb_le; lia). by rewrite andb_true_r.
  - rewrite (testbit_above k x) by (done || lia). done.
Qed.

Lemma flag_below k x s i : in_range k x -> 0 <= k -> 0 <= s -> s + k <= i -> flag (Z.shiftl x s) i = false.
Proof.
  intros Hx Hk Hs Hi. unfold flag. rewrite Z.shiftl_spec by lia. by apply (testbit_above k); [|lia].
Qed.

Lemma flag_above x s i : 0 <= i < s -> flag (Z.shiftl x s) i = false.
Proof. intros Hi. unfold flag. rewrite Z.shiftl_spec by lia. by rewrite Z.testbit_neg_r by lia. Qed.

(** Case analysis of [decode] on an assembled word: the goal's fields and flags
    are computed from the ranges of the operands in the context. *)
Ltac field_of x s lo n :=
  match goal with
  | H : in_range ?k x |- _ =>
      first
        [ rewrite (field_below k x s lo n H) by lia
        | rewrite (field_above x s lo n) by lia
        | rewrite (field_hit k x s n H) by lia ]
  end.
Ltac flag_of x s i :=
  match goal with
  | H : in_range ?k x |- _ =>
      first [ rewrite (flag_below k x s i H) by lia | rewrite (flag_above x s i) by lia ]
  end.
Ltac fields_step :=
  match goal with
  | |- context [field (Z.lor ?a ?b) ?lo ?n] => rewrite (field_lor a b lo n)
  | |- context [flag (Z.lor ?a ?b) ?lo] => rewrite (flag_lor a b lo)
  | |- context [field (Z.shiftl ?x ?s) ?lo ?n] => field_of x s lo n
  | |- context [flag (Z.shiftl ?x ?s) ?i] => flag_of x s i
  | |- context [field (Zpos ?c) ?lo ?n] =>
      let v := eval vm_compute in (field (Zpos c) lo n) in change (field (Zpos c) lo n) with v
  | |- context [flag (Zpos ?c) ?i] =>
      let v := eval vm_compute in (flag (Zpos c) i) in change (flag (Zpos c) i) with v
  end.
Ltac fields := repeat fields_step; rewrite ?Z.lor_0_r, ?Z.lor_0_l.

Lemma if_skip {A} (c : bool) (t e r : A) : c = false -> e = r -> (if c then t else e) = r.
Proof. by intros ->. Qed.
Lemma if_take {A} (c : bool) (t e r : A) : c = true -> t = r -> (if c then t else e) = r.
Proof. by intros ->. Qed.

(** Walk down the class tests, then compute the fields of the class reached. *)
Ltac decode_word :=
  unfold decode;
  repeat first
    [ apply if_skip; [solve [fields; reflexivity]|]
    | apply if_take; [solve [fields; reflexivity]|] ];
  unfold decode_branch_register, decode_system, decode_logical, decode_addsub_shifted,
    decode_addsub_imm, decode_wide, decode_bitfield, decode_extract, decode_load_store, decode_pair,
    decode_two_source, decode_one_source, decode_three_source, decode_select;
  repeat first
    [ apply if_skip; [solve [fields; reflexivity]|]
    | apply if_take; [solve [fields; reflexivity]|] ];
  fields; try reflexivity.
