(* ===== verification/Assembler.v ===== *)
(** The ARM64 assembler: [src/arm64/Assembler.h] and [src/arm64/Assembler.cpp].

    One definition per member function, over the instruction words, the listing,
    the label positions, the pending branch fixups and the pointer relocations.
    An [XRegister] is its encoding, a [Label] its identifier and a
    [BranchCondition] its value, so the range checks of the source are kept.
    The catch blocks only undo partial updates when an allocation fails, which is
    not modelled. *)
From stdpp Require Import pretty.
From S2P Require Import Prelude.

(** The values of [BranchCondition] the functions name. *)
Definition Equal : Z := 0.
Definition UnsignedHigherOrSame : Z := 2.
Definition SignedLessOrEqual : Z := 13.

Inductive FixupKind := Branch26 | CompareBranch19 | TestBranch14.

Record Fixup := mkFixup { f_kind : FixupKind; f_wordIndex : nat; f_label : Z }.

Record Program := mkProgram {
  p_bytes : list Z;
  p_listing : list string;
  p_pointerRelocations : list Z
}.

Record Assembler := mkAssembler {
  words_ : list Z;
  listing_ : list string;
  labelPositions_ : list (option Z);
  fixups_ : list Fixup;
  pointerRelocations_ : list Z;
  recordListing_ : bool
}.

Definition newAssembler (recordListing : bool) : Assembler := mkAssembler [] [] [] [] [] recordListing.

Definition set_labels (labels : list (option Z)) (a : Assembler) : Assembler :=
  mkAssembler a.(words_) a.(listing_) labels a.(fixups_) a.(pointerRelocations_) a.(recordListing_).
Definition set_relocations (r : list Z) (a : Assembler) : Assembler :=
  mkAssembler a.(words_) a.(listing_) a.(labelPositions_) a.(fixups_) r a.(recordListing_).

(** ** Text of the listing *)

Definition dec (n : Z) : string := pretty n.
Definition regName (reg : Z) : string := "x" +:+ dec reg.
Definition wName (reg : Z) : string := "w" +:+ dec reg.

(** Sixteen digits hold every [uint64_t]. *)
Definition hexImmediate (value : Z) : string := "#0x" +:+ hex_digits 16 value.

(** ** Emission *)

Definition requireRegister (reg : Z) : M Assembler unit :=
  if 30 <? reg
  then throw (invalid_argument "ARM64 general-purpose register must be x0...x30") else ret tt.

Definition emit (word : Z) (text : string) : M Assembler unit :=
  modify (fun a => mkAssembler (a.(words_) ++ [word])
    (if a.(recordListing_) then a.(listing_) ++ [text] else a.(listing_))
    a.(labelPositions_) a.(fixups_) a.(pointerRelocations_) a.(recordListing_)).

Definition emitFixup (word : Z) (text : string) (kind : FixupKind) (label : Z) : M Assembler unit :=
  do! a <- get;
  let index := length a.(words_) in
  emit word text ;;;
  modify (fun a => mkAssembler a.(words_) a.(listing_) a.(labelPositions_)
    (a.(fixups_) ++ [mkFixup kind index label]) a.(pointerRelocations_) a.(recordListing_)).

(** ** Instructions *)

Definition mov (destination source : Z) : M Assembler unit :=
  requireRegister destination ;;;
  requireRegister source ;;;
  let word := Z.lor (Z.lor 0xAA0003E0 (Z.shiftl source 16)) destination in
  emit word ("mov " +:+ regName destination +:+ ", " +:+ regName source).

Definition mov32 (destination source : Z) : M Assembler unit :=
  requireRegister destination ;;;
  requireRegister source ;;;
  let word := Z.lor (Z.lor 0x2A0003E0 (Z.shiftl source 16)) destination in
  emit word ("mov " +:+ wName destination +:+ ", " +:+ wName source).

(** The loop of [movImmediate] over the halfwords still to be emitted. *)
Fixpoint movImmediate_loop (destination value : Z) (useMovn : bool) (halfwords : list Z) (halfword : Z)
    (emittedFirst : bool) : M Assembler unit :=
  match halfwords with
  | [] => ret tt
  | desired :: rest =>
      let shift := halfword * 16 in
      let fill := if useMovn then 0xFFFF else 0 in
      if (desired =? fill) && (emittedFirst ||
           (if useMovn then negb (value =? UINT64_MAX) else negb (value =? 0)))
      then movImmediate_loop destination value useMovn rest (halfword + 1) emittedFirst
      else
        let immediate := if useMovn && negb emittedFirst then u16 (Z.lnot desired) else desired in
        let base := if emittedFirst then 0xF2800000 else if useMovn then 0x92800000 else 0xD2800000 in
        let word := Z.lor (Z.lor (Z.lor base (Z.shiftl halfword 21)) (Z.shiftl immediate 5)) destination in
        let text := (if emittedFirst then "movk " else if useMovn then "movn " else "movz ") +:+
          regName destination +:+ ", " +:+ hexImmediate immediate +:+
          (if shift =? 0 then "" else ", lsl #" +:+ dec shift) in
        emit word text ;;;
        movImmediate_loop destination value useMovn rest (halfword + 1) true
  end.

Definition value_halfwords (value : Z) : list Z :=
  map (fun halfword => Z.land (Z.shiftr value (halfword * 16)) 0xFFFF) [0; 1; 2; 3].

Definition movImmediate (destination value : Z) : M Assembler unit :=
  requireRegister destination ;;;
  let halfwords := value_halfwords value in
  let nonzeroCount := zlength (filter (fun h => h <> 0) halfwords) in
  let nonOnesCount := zlength (filter (fun h => h <> 0xFFFF) halfwords) in
  let useMovn := nonOnesCount <? nonzeroCount in
  movImmediate_loop destination value useMovn halfwords 0 false.

(** [movImmediate] of a [RelocatablePointer]: always four instructions, recorded
    for relocation. *)
Definition movImmediate_pointer (destination pointer : Z) : M Assembler unit :=
  requireRegister destination ;;;
  do! a <- get;
  if UINT32_MAX / 4 <? zlength a.(words_) then
    throw (overflow_error "ARM64 pointer relocation offset overflows")
  else
    let firstWord := zlength a.(words_) in
    let step halfword :=
      let shift := halfword * 16 in
      let immediate := Z.land (Z.shiftr pointer shift) 0xFFFF in
      let base := if halfword =? 0 then 0xD2800000 else 0xF2800000 in
      let word := Z.lor (Z.lor (Z.lor base (Z.shiftl halfword 21)) (Z.shiftl immediate 5)) destination in
      let text := (if halfword =? 0 then "movz " else "movk ") +:+ regName destination +:+ ", " +:+
        hexImmediate immediate +:+ (if shift =? 0 then "" else ", lsl #" +:+ dec shift) in
      emit word text in
    step 0 ;;; step 1 ;;; step 2 ;;; step 3 ;;;
    modify (fun a => set_relocations (a.(pointerRelocations_) ++ [u32 (firstWord * 4)]) a).

Definition add (destination lhs rhs : Z) : M Assembler unit :=
  requireRegister destination ;;;
  requireRegister lhs ;;;
  requireRegister rhs ;;;
  let word := Z.lor (Z.lor (Z.lor 0x8B000000 (Z.shiftl rhs 16)) (Z.shiftl lhs 5)) destination in
  emit word ("add " +:+ regName destination +:+ ", " +:+ regName lhs +:+ ", " +:+ regName rhs).

Definition add32 (destination lhs rhs : Z) : M Assembler unit :=
  requireRegister destination ;;;
  requireRegister lhs ;;;
  requireRegister rhs ;;;
  let word := Z.lor (Z.lor (Z.lor 0x0B000000 (Z.shiftl rhs 16)) (Z.shiftl lhs 5)) destination in
  emit word ("add " +:+ wName destination +:+ ", " +:+ wName lhs +:+ ", " +:+ wName rhs).

Definition addImmediate (destination source immediate : Z) : M Assembler unit :=
  requireRegister destination ;;;
  requireRegister source ;;;
  if 0x0FFF <? immediate then throw (invalid_argument "ARM64 ADD immediate must fit in 12 bits") else
  let word := Z.lor (Z.lor (Z.lor 0x91000000 (Z.shiftl immediate 10)) (Z.shiftl source 5)) destination in
  emit word ("add " +:+ regName destination +:+ ", " +:+ regName source +:+ ", " +:+ ("#" +:+ dec immediate)).

Definition addImmediate32 (destination source immediate : Z) : M Assembler unit :=
  requireRegister destination ;;;
  requireRegister source ;;;
  if 0x0FFF <? immediate then throw (invalid_argument "ARM64 32-bit ADD immediate must fit in 12 bits") else
  let word := Z.lor (Z.lor (Z.lor 0x11000000 (Z.shiftl immediate 10)) (Z.shiftl source 5)) destination in
  emit word ("add " +:+ wName destination +:+ ", " +:+ wName source +:+ ", " +:+ ("#" +:+ dec immediate)).

Definition sub (destination lhs rhs : Z) : M Assembler unit :=
  requireRegister destination ;;;
  requireRegister lhs ;;;
  requireRegister rhs ;;;
  let word := Z.lor (Z.lor (Z.lor 0xCB000000 (Z.shiftl rhs 16)) (Z.shiftl lhs 5)) destination in
  emit word ("sub " +:+ regName destination +:+ ", " +:+ regName lhs +:+ ", " +:+ regName rhs).

Definition sub32 (destination lhs rhs : Z) : M Assembler unit :=
  requireRegister destination ;;;
  requireRegister lhs ;;;
  requireRegister rhs ;;;
  let word := Z.lor (Z.lor (Z.lor 0x4B000000 (Z.shiftl rhs 16)) (Z.shiftl lhs 5)) destination in
  emit word ("sub " +:+ wName destination +:+ ", " +:+ wName lhs +:+ ", " +:+ wName rhs).

Definition subImmediate (destination source immediate : Z) : M Assembler unit :=
  requireRegister destination ;;;
  requireRegister source ;;;
  if 0x0FFF <? immediate then throw (invalid_argument "ARM64 SUB immediate must fit in 12 bits") else
  let word := Z.lor (Z.lor (Z.lor 0xD1000000 (Z.shiftl immediate 10)) (Z.shiftl source 5)) destination in
  emit word ("sub " +:+ regName destination +:+ ", " +:+ regName source +:+ ", " +:+ ("#" +:+ dec immediate)).

Definition subImmediate32 (destination source immediate : Z) : M Assembler unit :=
  requireRegister destination ;;;
  requireRegister source ;;;
  if 0x0FFF <? immediate then throw (invalid_argument "ARM64 32-bit SUB immediate must fit in 12 bits") else
  let word := Z.lor (Z.lor (Z.lor 0x51000000 (Z.shiftl immediate 10)) (Z.shiftl source 5)) destination in
  emit word ("sub " +:+ wName destination +:+ ", " +:+ wName source +:+ ", " +:+ ("#" +:+ dec immediate)).

Definition lslImmediate (destination source shift : Z) : M Assembler unit :=
  requireRegister destination ;;;
  requireRegister source ;;;
  if 64 <=? shift then throw (invalid_argument "64-bit LSL immediate must be less than 64") else
  if shift =? 0 then mov destination source else
  let immr := 64 - shift in
  let imms := 63 - shift in
  let word := Z.lor (Z.lor (Z.lor (Z.lor 0xD3400000 (Z.shiftl immr 16)) (Z.shiftl imms 10)) (Z.shiftl source 5)) destination in
  emit word ("lsl " +:+ regName destination +:+ ", " +:+ regName source +:+ ", " +:+ ("#" +:+ dec shift)).

Definition lsrImmediate (destination source shift : Z) : M Assembler unit :=
  requireRegister destination ;;;
  requireRegister source ;;;
  if 64 <=? shift then throw (invalid_argument "64-bit LSR immediate must be less than 64") else
  if shift =? 0 then mov destination source else
  let word := Z.lor (Z.lor (Z.lor 0xD340FC00 (Z.shiftl shift 16)) (Z.shiftl source 5)) destination in
  emit word ("lsr " +:+ regName destination +:+ ", " +:+ regName source +:+ ", " +:+ ("#" +:+ dec shift)).

Definition asrImmediate (destination source shift : Z) : M Assembler unit :=
  requireRegister destination ;;;
  requireRegister source ;;;
  if 64 <=? shift then throw (invalid_argument "64-bit ASR immediate must be less than 64") else
  if shift =? 0 then mov destination source else
  let word := Z.lor (Z.lor (Z.lor 0x9340FC00 (Z.shiftl shift 16)) (Z.shiftl source 5)) destination in
  emit word ("asr " +:+ regName destination +:+ ", " +:+ regName source +:+ ", " +:+ ("#" +:+ dec shift)).

Definition asrImmediate32 (destination source shift : Z) : M Assembler unit :=
  requireRegister destination ;;;
  requireRegister source ;;;
  if 32 <=? shift then throw (invalid_argument "32-bit ASR immediate must be less than 32") else
  if shift =? 0 then mov32 destination source else
  let word := Z.lor (Z.lor (Z.lor 0x13007C00 (Z.shiftl shift 16)) (Z.shiftl source 5)) destination in
  emit word ("asr " +:+ wName destination +:+ ", " +:+ wName source +:+ ", " +:+ ("#" +:+ dec shift)).

Definition reverseBytes32 (destination source : Z) : M Assembler unit :=
  requireRegister destination ;;;
  requireRegister source ;;;
  let word := Z.lor (Z.lor 0x5AC00800 (Z.shiftl source 5)) destination in
  emit word ("rev " +:+ wName destination +:+ ", " +:+ wName source).

Definition reverseBytes64 (destination source : Z) : M Assembler unit :=
  requireRegister destination ;;;
  requireRegister source ;;;
  let word := Z.lor (Z.lor 0xDAC00C00 (Z.shiftl source 5)) destination in
  emit word ("rev " +:+ regName destination +:+ ", " +:+ regName source).

Definition signExtend32 (destination source : Z) : M Assembler unit :=
  requireRegister destination ;;;
  requireRegister source ;;;
  let word := Z.lor (Z.lor 0x93407C00 (Z.shiftl source 5)) destination in
  emit word ("sxtw " +:+ regName destination +:+ ", " +:+ wName source).

Definition lslVariable (destination source shift : Z) : M Assembler unit :=
  requireRegister destination ;;;
  requireRegister source ;;;
  requireRegister shift ;;;
  let word := Z.lor (Z.lor (Z.lor 0x9AC02000 (Z.shiftl shift 16)) (Z.shiftl source 5)) destination in
  emit word ("lsl " +:+ regName destination +:+ ", " +:+ regName source +:+ ", " +:+ regName shift).

Definition lsrVariable (destination source shift : Z) : M Assembler unit :=
  requireRegister destination ;;;
  requireRegister source ;;;
  requireRegister shift ;;;
  let word := Z.lor (Z.lor (Z.lor 0x9AC02400 (Z.shiftl shift 16)) (Z.shiftl source 5)) destination in
  emit word ("lsr " +:+ regName destination +:+ ", " +:+ regName source +:+ ", " +:+ regName shift).

Definition asrVariable (destination source shift : Z) : M Assembler unit :=
  requireRegister destination ;;;
  requireRegister source ;;;
  requireRegister shift ;;;
  let word := Z.lor (Z.lor (Z.lor 0x9AC02800 (Z.shiftl shift 16)) (Z.shiftl source 5)) destination in
  emit word ("asr " +:+ regName destination +:+ ", " +:+ regName source +:+ ", " +:+ regName shift).

Definition asrVariable32 (destination source shift : Z) : M Assembler unit :=
  requireRegister destination ;;;
  requireRegister source ;;;
  requireRegister shift ;;;
  let word := Z.lor (Z.lor (Z.lor 0x1AC02800 (Z.shiftl shift 16)) (Z.shiftl source 5)) destination in
  emit word ("asr " +:+ regName destination +:+ ", " +:+ regName source +:+ ", " +:+ regName shift).

Definition multiplyLow (destination lhs rhs : Z) : M Assembler unit :=
  requireRegister destination ;;;
  requireRegister lhs ;;;
  requireRegister rhs ;;;
  let word := Z.lor (Z.lor (Z.lor 0x9B007C00 (Z.shiftl rhs 16)) (Z.shiftl lhs 5)) destination in
  emit word ("mul " +:+ regName destination +:+ ", " +:+ regName lhs +:+ ", " +:+ regName rhs).

Definition multiplyHighUnsigned (destination lhs rhs : Z) : M Assembler unit :=
  requireRegister destination ;;;
  requireRegister lhs ;;;
  requireRegister rhs ;;;
  let word := Z.lor (Z.lor (Z.lor 0x9BC07C00 (Z.shiftl rhs 16)) (Z.shiftl lhs 5)) destination in
  emit word ("umulh " +:+ regName destination +:+ ", " +:+ regName lhs +:+ ", " +:+ regName rhs).

Definition multiplyHighSigned (destination lhs rhs : Z) : M Assembler unit :=
  requireRegister destination ;;;
  requireRegister lhs ;;;
  requireRegister rhs ;;;
  let word := Z.lor (Z.lor (Z.lor 0x9B407C00 (Z.shiftl rhs 16)) (Z.shiftl lhs 5)) destination in
  emit word ("smulh " +:+ regName destination +:+ ", " +:+ regName lhs +:+ ", " +:+ regName rhs).

Definition extract (destination high low lsb : Z) : M Assembler unit :=
  requireRegister destination ;;;
  requireRegister high ;;;
  requireRegister low ;;;
  if 64 <=? lsb then throw (invalid_argument "64-bit EXTR bit position must be less than 64") else
  let word := Z.lor (Z.lor (Z.lor (Z.lor 0x93C00000 (Z.shiftl low 16)) (Z.shiftl lsb 10)) (Z.shiftl high 5)) destination in
  emit word ("extr " +:+ regName destination +:+ ", " +:+ regName high +:+ ", " +:+ regName low +:+ ", " +:+ ("#" +:+ dec lsb)).

Definition bitAnd (destination lhs rhs : Z) : M Assembler unit :=
  requireRegister destination ;;;
  requireRegister lhs ;;;
  requireRegister rhs ;;;
  let word := Z.lor (Z.lor (Z.lor 0x8A000000 (Z.shiftl rhs 16)) (Z.shiftl lhs 5)) destination in
  emit word ("and " +:+ regName destination +:+ ", " +:+ regName lhs +:+ ", " +:+ regName rhs).

Definition bitAnd32 (destination lhs rhs : Z) : M Assembler unit :=
  requireRegister destination ;;;
  requireRegister lhs ;;;
  requireRegister rhs ;;;
  let word := Z.lor (Z.lor (Z.lor 0x0A000000 (Z.shiftl rhs 16)) (Z.shiftl lhs 5)) destination in
  emit word ("and " +:+ wName destination +:+ ", " +:+ wName lhs +:+ ", " +:+ wName rhs).

Definition bitOr (destination lhs rhs : Z) : M Assembler unit :=
  requireRegister destination ;;;
  requireRegister lhs ;;;
  requireRegister rhs ;;;
  let word := Z.lor (Z.lor (Z.lor 0xAA000000 (Z.shiftl rhs 16)) (Z.shiftl lhs 5)) destination in
  emit word ("orr " +:+ regName destination +:+ ", " +:+ regName lhs +:+ ", " +:+ regName rhs).

Definition bitOr32 (destination lhs rhs : Z) : M Assembler unit :=
  requireRegister destination ;;;
  requireRegister lhs ;;;
  requireRegister rhs ;;;
  let word := Z.lor (Z.lor (Z.lor 0x2A000000 (Z.shiftl rhs 16)) (Z.shiftl lhs 5)) destination in
  emit word ("orr " +:+ wName destination +:+ ", " +:+ wName lhs +:+ ", " +:+ wName rhs).

Definition bitOrShiftedLeft (destination lhs rhs shift : Z) : M Assembler unit :=
  requireRegister destination ;;;
  requireRegister lhs ;;;
  requireRegister rhs ;;;
  if 64 <=? shift then throw (invalid_argument "64-bit ORR shift must be less than 64") else
  let word := Z.lor (Z.lor (Z.lor (Z.lor 0xAA000000 (Z.shiftl rhs 16)) (Z.shiftl shift 10)) (Z.shiftl lhs 5)) destination in
  emit word ("orr " +:+ regName destination +:+ ", " +:+ regName lhs +:+ ", " +:+ regName rhs +:+ ", " +:+ ("lsl #" +:+ dec shift)).

Definition bitXor (destination lhs rhs : Z) : M Assembler unit :=
  requireRegister destination ;;;
  requireRegister lhs ;;;
  requireRegister rhs ;;;
  let word := Z.lor (Z.lor (Z.lor 0xCA000000 (Z.shiftl rhs 16)) (Z.shiftl lhs 5)) destination in
  emit word ("eor " +:+ regName destination +:+ ", " +:+ regName lhs +:+ ", " +:+ regName rhs).

Definition bitXor32 (destination lhs rhs : Z) : M Assembler unit :=
  requireRegister destination ;;;
  requireRegister lhs ;;;
  requireRegister rhs ;;;
  let word := Z.lor (Z.lor (Z.lor 0x4A000000 (Z.shiftl rhs 16)) (Z.shiftl lhs 5)) destination in
  emit word ("eor " +:+ wName destination +:+ ", " +:+ wName lhs +:+ ", " +:+ wName rhs).

Definition bitXorShiftedRight (destination lhs rhs shift : Z) : M Assembler unit :=
  requireRegister destination ;;;
  requireRegister lhs ;;;
  requireRegister rhs ;;;
  if 64 <=? shift then throw (invalid_argument "64-bit EOR shift must be less than 64") else
  let word := Z.lor (Z.lor (Z.lor (Z.lor 0xCA400000 (Z.shiftl rhs 16)) (Z.shiftl shift 10)) (Z.shiftl lhs 5)) destination in
  emit word ("eor " +:+ regName destination +:+ ", " +:+ regName lhs +:+ ", " +:+ regName rhs +:+ ", " +:+ ("lsr #" +:+ dec shift)).

Definition compare (lhs rhs : Z) : M Assembler unit :=
  requireRegister lhs ;;;
  requireRegister rhs ;;;
  let word := Z.lor (Z.lor 0xEB00001F (Z.shiftl rhs 16)) (Z.shiftl lhs 5) in
  emit word ("cmp " +:+ regName lhs +:+ ", " +:+ regName rhs).

Definition compareZero (value : Z) : M Assembler unit :=
  requireRegister value ;;;
  let word := Z.lor 0xF100001F (Z.shiftl value 5) in
  emit word ("cmp " +:+ regName value +:+ ", " +:+ "#0").

Definition conditionalSet (destination condition : Z) : M Assembler unit :=
  requireRegister destination ;;;
  if SignedLessOrEqual <? condition then throw (invalid_argument "invalid ARM64 conditional-set condition") else
  let inverse := Z.lxor condition 1 in
  let word := Z.lor (Z.lor 0x9A9F07E0 (Z.shiftl inverse 12)) destination in
  emit word ("cset " +:+ regName destination).

Definition conditionalSelect (destination ifTrue ifFalse condition : Z) : M Assembler unit :=
  requireRegister destination ;;;
  requireRegister ifTrue ;;;
  requireRegister ifFalse ;;;
  if SignedLessOrEqual <? condition then throw (invalid_argument "invalid ARM64 conditional-select condition") else
  let word := Z.lor (Z.lor (Z.lor (Z.lor 0x9A800000 (Z.shiftl ifFalse 16)) (Z.shiftl condition 12)) (Z.shiftl ifTrue 5)) destination in
  emit word ("csel " +:+ regName destination +:+ ", " +:+ regName ifTrue +:+ ", " +:+ regName ifFalse).

Definition conditionalSelect32 (destination ifTrue ifFalse condition : Z) : M Assembler unit :=
  requireRegister destination ;;;
  requireRegister ifTrue ;;;
  requireRegister ifFalse ;;;
  if SignedLessOrEqual <? condition then throw (invalid_argument "invalid ARM64 32-bit conditional-select condition") else
  let word := Z.lor (Z.lor (Z.lor (Z.lor 0x1A800000 (Z.shiftl ifFalse 16)) (Z.shiftl condition 12)) (Z.shiftl ifTrue 5)) destination in
  emit word ("csel w" +:+ dec destination).

Definition conditionalSelectEqual (destination ifEqual ifNotEqual : Z) : M Assembler unit :=
  conditionalSelect destination ifEqual ifNotEqual Equal.

Definition ldr (destination base byteOffset : Z) : M Assembler unit :=
  requireRegister destination ;;;
  requireRegister base ;;;
  if negb (byteOffset mod 8 =? 0) || (32760 <? byteOffset) then
    throw (invalid_argument "64-bit LDR offset must be aligned and <= 32760")
  else
  let scaledOffset := byteOffset / 8 in
  let word := Z.lor (Z.lor (Z.lor 0xF9400000 (Z.shiftl scaledOffset 10)) (Z.shiftl base 5)) destination in
  emit word ("ldr " +:+ regName destination +:+ ", [" +:+ regName base +:+ ", #" +:+ dec byteOffset +:+ "]").

Definition ldr32 (destination base byteOffset : Z) : M Assembler unit :=
  requireRegister destination ;;;
  requireRegister base ;;;
  if negb (byteOffset mod 4 =? 0) || (16380 <? byteOffset) then
    throw (invalid_argument "32-bit LDR offset must be aligned and <= 16380")
  else
  let scaledOffset := byteOffset / 4 in
  let word := Z.lor (Z.lor (Z.lor 0xB9400000 (Z.shiftl scaledOffset 10)) (Z.shiftl base 5)) destination in
  emit word ("ldr " +:+ wName destination +:+ ", [" +:+ regName base +:+ ", #" +:+ dec byteOffset +:+ "]").

Definition ldr8 (destination base byteOffset : Z) : M Assembler unit :=
  requireRegister destination ;;;
  requireRegister base ;;;
  if 4095 <? byteOffset then
    throw (invalid_argument "8-bit LDR offset must be <= 4095")
  else
  let word := Z.lor (Z.lor (Z.lor 0x39400000 (Z.shiftl byteOffset 10)) (Z.shiftl base 5)) destination in
  emit word ("ldrb " +:+ wName destination +:+ ", [" +:+ regName base +:+ ", #" +:+ dec byteOffset +:+ "]").

Definition str (source base byteOffset : Z) : M Assembler unit :=
  requireRegister source ;;;
  requireRegister base ;;;
  if negb (byteOffset mod 8 =? 0) || (32760 <? byteOffset) then
    throw (invalid_argument "64-bit STR offset must be aligned and <= 32760")
  else
  let scaledOffset := byteOffset / 8 in
  let word := Z.lor (Z.lor (Z.lor 0xF9000000 (Z.shiftl scaledOffset 10)) (Z.shiftl base 5)) source in
  emit word ("str " +:+ regName source +:+ ", [" +:+ regName base +:+ ", #" +:+ dec byteOffset +:+ "]").

Definition str8 (source base byteOffset : Z) : M Assembler unit :=
  requireRegister source ;;;
  requireRegister base ;;;
  if 4095 <? byteOffset then
    throw (invalid_argument "8-bit STR offset must be <= 4095")
  else
  let word := Z.lor (Z.lor (Z.lor 0x39000000 (Z.shiftl byteOffset 10)) (Z.shiftl base 5)) source in
  emit word ("strb " +:+ wName source +:+ ", [" +:+ regName base +:+ ", #" +:+ dec byteOffset +:+ "]").

Definition blr (target : Z) : M Assembler unit :=
  requireRegister target ;;;
  emit (Z.lor 0xD63F0000 (Z.shiftl target 5)) ("blr " +:+ regName target).

Definition makeLabel : M Assembler Z :=
  do! a <- get;
  if UINT32_MAX <? zlength a.(labelPositions_) then
    throw (overflow_error "ARM64 label identifier space is exhausted")
  else
    let id := u32 (zlength a.(labelPositions_)) in
    modify (set_labels (a.(labelPositions_) ++ [None])) ;;;
    ret id.

(** [Assembler::bind]. *)
Definition bindLabel (label : Z) : M Assembler unit :=
  do! a <- get;
  match a.(labelPositions_) !! Z.to_nat label with
  | None => throw (invalid_argument "cannot bind an unknown ARM64 label")
  | Some (Some _) => throw (invalid_argument "cannot bind an ARM64 label twice")
  | Some None => modify (set_labels (<[Z.to_nat label := Some (zlength a.(words_))]> a.(labelPositions_)))
  end.

Definition b (label : Z) : M Assembler unit :=
  do! a <- get;
  if zlength a.(labelPositions_) <=? label then
    throw (invalid_argument "cannot branch to an unknown ARM64 label")
  else emitFixup 0x14000000 ("b L" +:+ dec label) Branch26 label.

Definition cbz (value label : Z) : M Assembler unit :=
  requireRegister value ;;;
  do! a <- get;
  if zlength a.(labelPositions_) <=? label then
    throw (invalid_argument "cannot compare-branch to an unknown ARM64 label")
  else
  let word := Z.lor 0xB4000000 value in
  emitFixup word ("cbz " +:+ regName value +:+ ", " +:+ ("L" +:+ dec label)) CompareBranch19 label.

Definition cbnz (value label : Z) : M Assembler unit :=
  requireRegister value ;;;
  do! a <- get;
  if zlength a.(labelPositions_) <=? label then
    throw (invalid_argument "cannot compare-branch to an unknown ARM64 label")
  else
  let word := Z.lor 0xB5000000 value in
  emitFixup word ("cbnz " +:+ regName value +:+ ", " +:+ ("L" +:+ dec label)) CompareBranch19 label.

Definition suffixes : list string :=
  ["eq"; "ne"; "hs"; "lo"; "mi"; "pl"; "vs"; "vc"; "hi"; "ls"; "ge"; "lt"; "gt"; "le"].

Definition bConditional (condition label : Z) : M Assembler unit :=
  do! a <- get;
  if zlength a.(labelPositions_) <=? label then
    throw (invalid_argument "cannot conditionally branch to an unknown ARM64 label")
  else if zlength suffixes <=? condition then
    throw (invalid_argument "invalid ARM64 branch condition")
  else
    let word := Z.lor 0x54000000 condition in
    emitFixup word ("b." +:+ default "" (suffixes !! Z.to_nat condition) +:+ " L" +:+ dec label)
      CompareBranch19 label.

Definition bUnsignedHigherOrSame (label : Z) : M Assembler unit := bConditional UnsignedHigherOrSame label.

Definition tbz (value bit label : Z) : M Assembler unit :=
  requireRegister value ;;;
  do! a <- get;
  if (64 <=? bit) || (zlength a.(labelPositions_) <=? label) then
    throw (invalid_argument "invalid TBZ operand or label")
  else
  let word := Z.lor (Z.lor (Z.lor 0x36000000 (Z.shiftl (Z.shiftr bit 5) 31)) (Z.shiftl (Z.land bit 0x1F) 19)) value in
  emitFixup word ("tbz " +:+ regName value +:+ ", " +:+ ("#" +:+ dec bit) +:+ ", " +:+ ("L" +:+ dec label)) TestBranch14 label.

Definition tbnz (value bit label : Z) : M Assembler unit :=
  requireRegister value ;;;
  do! a <- get;
  if (64 <=? bit) || (zlength a.(labelPositions_) <=? label) then
    throw (invalid_argument "invalid TBNZ operand or label")
  else
  let word := Z.lor (Z.lor (Z.lor 0x37000000 (Z.shiftl (Z.shiftr bit 5) 31)) (Z.shiftl (Z.land bit 0x1F) 19)) value in
  emitFixup word ("tbnz " +:+ regName value +:+ ", " +:+ ("#" +:+ dec bit) +:+ ", " +:+ ("L" +:+ dec label)) TestBranch14 label.

Definition pushFrameRecord : M Assembler unit :=
  emit 0xA9BF7BFD "stp x29, x30, [sp, #-16]!".

Definition popFrameRecord : M Assembler unit :=
  emit 0xA8C17BFD "ldp x29, x30, [sp], #16".

Definition pushCalleeSaved19And20 : M Assembler unit :=
  emit 0xA9BF53F3 "stp x19, x20, [sp, #-16]!".

Definition popCalleeSaved19And20 : M Assembler unit :=
  emit 0xA8C153F3 "ldp x19, x20, [sp], #16".

Definition pushCalleeSaved19Through22 : M Assembler unit :=
  pushCalleeSaved19And20 ;;;
  emit 0xA9BF5BF5 "stp x21, x22, [sp, #-16]!".

Definition popCalleeSaved19Through22 : M Assembler unit :=
  emit 0xA8C15BF5 "ldp x21, x22, [sp], #16" ;;;
  popCalleeSaved19And20.

Definition pushCalleeSaved19Through24 : M Assembler unit :=
  pushCalleeSaved19Through22 ;;;
  emit 0xA9BF63F7 "stp x23, x24, [sp, #-16]!".

Definition popCalleeSaved19Through24 : M Assembler unit :=
  emit 0xA8C163F7 "ldp x23, x24, [sp], #16" ;;;
  popCalleeSaved19Through22.

Definition pushCallerSaved8Through15 : M Assembler unit :=
  emit 0xA9BF27E8 "stp x8, x9, [sp, #-16]!" ;;;
  emit 0xA9BF2FEA "stp x10, x11, [sp, #-16]!" ;;;
  emit 0xA9BF37EC "stp x12, x13, [sp, #-16]!" ;;;
  emit 0xA9BF3FEE "stp x14, x15, [sp, #-16]!".

Definition popCallerSaved8Through15 : M Assembler unit :=
  emit 0xA8C13FEE "ldp x14, x15, [sp], #16" ;;;
  emit 0xA8C137EC "ldp x12, x13, [sp], #16" ;;;
  emit 0xA8C12FEA "ldp x10, x11, [sp], #16" ;;;
  emit 0xA8C127E8 "ldp x8, x9, [sp], #16".

Definition pushCallerSaved5Through15 : M Assembler unit :=
  emit 0xA9BF1BE5 "stp x5, x6, [sp, #-16]!" ;;;
  emit 0xA9BF7BE7 "stp x7, x30, [sp, #-16]!" ;;;
  pushCallerSaved8Through15.

Definition popCallerSaved5Through15 : M Assembler unit :=
  popCallerSaved8Through15 ;;;
  emit 0xA8C17BE7 "ldp x7, x30, [sp], #16" ;;;
  emit 0xA8C11BE5 "ldp x5, x6, [sp], #16".

Definition pushCalleeSaved25Through28 : M Assembler unit :=
  emit 0xA9BF6BF9 "stp x25, x26, [sp, #-16]!" ;;;
  emit 0xA9BF73FB "stp x27, x28, [sp, #-16]!".

Definition popCalleeSaved25Through28 : M Assembler unit :=
  emit 0xA8C173FB "ldp x27, x28, [sp], #16" ;;;
  emit 0xA8C16BF9 "ldp x25, x26, [sp], #16".

Definition dmbIsh : M Assembler unit :=
  emit 0xD5033BBF "dmb ish".

Definition isb : M Assembler unit :=
  emit 0xD5033FDF "isb".

(** [Assembler::ret]. *)

Definition emitRet : M Assembler unit :=
  emit 0xD65F03C0 "ret".

(** The displacement range and the position of the field of each fixup kind. *)
Definition fixup_bits (kind : FixupKind) : Z :=
  match kind with Branch26 => 26 | CompareBranch19 => 19 | TestBranch14 => 14 end.
Definition fixup_position (kind : FixupKind) : Z :=
  match kind with Branch26 => 0 | CompareBranch19 => 5 | TestBranch14 => 5 end.
Definition fixup_error (kind : FixupKind) : exn :=
  match kind with
  | Branch26 => runtime_error "ARM64 B target is out of range"
  | CompareBranch19 => runtime_error "ARM64 compare-branch target is out of range"
  | TestBranch14 => runtime_error "ARM64 test-branch target is out of range"
  end.

(** One iteration of the fixup loop of [finish]. *)
Definition apply_fixup (labels : list (option Z)) (fixup : Fixup) (words : list Z) : outcome (list Z) :=
  match labels !! Z.to_nat fixup.(f_label) with
  | None => Undefined
  | Some None => Throw (runtime_error "ARM64 branch targets an unbound label")
  | Some (Some target) =>
      let source := Z.of_nat fixup.(f_wordIndex) in
      let displacement := target - source in
      let bits := fixup_bits fixup.(f_kind) in
      let minimum := - Z.shiftl 1 (bits - 1) in
      let maximum := Z.shiftl 1 (bits - 1) - 1 in
      if (displacement <? minimum) || (maximum <? displacement) then Throw (fixup_error fixup.(f_kind))
      else
        match words !! fixup.(f_wordIndex) with
        | None => Undefined
        | Some word =>
            let field := Z.land (u32 displacement) (Z.ones bits) in
            Ok (<[fixup.(f_wordIndex) :=
                  Z.lor word (Z.shiftl field (fixup_position fixup.(f_kind)))]> words)
        end
  end.

Fixpoint apply_fixups (labels : list (option Z)) (fixups : list Fixup) (words : list Z) : outcome (list Z) :=
  match fixups with
  | [] => Ok words
  | fixup :: rest =>
      let! words := apply_fixup labels fixup words in
      apply_fixups labels rest words
  end.

Definition word_bytes (word : Z) : list Z :=
  [Z.land word 0xFF; Z.land (Z.shiftr word 8) 0xFF; Z.land (Z.shiftr word 16) 0xFF;
   Z.land (Z.shiftr word 24) 0xFF].

Definition finish (a : Assembler) : outcome Program :=
  if 2 ^ 63 - 1 <? zlength a.(words_) then
    Throw (overflow_error "ARM64 program is too large to resolve branches")
  else
    let! words := apply_fixups a.(labelPositions_) a.(fixups_) a.(words_) in
    if UINT64_MAX / 4 <? zlength words then
      Throw (overflow_error "ARM64 program byte size overflows")
    else Ok (mkProgram (concat (map word_bytes words)) a.(listing_) a.(pointerRelocations_)).
