(* ===== verification/AssemblerSpec.v ===== *)
(** The assembler against the A64 reference: every emission function appends
    words whose execution has the intended effect.

    [implements c f] is the contract of an emission function: whatever the state
    of the assembler, [c] appends the same words (one listing line each when the
    listing is recorded) and running them transforms the machine by [f]. *)
From S2P Require Import Prelude AArch64 Assembler.

(** ** The contract *)

Definition appended (a : Assembler) (ws : list Z) (texts : list string) : Assembler :=
  mkAssembler (a.(words_) ++ ws)
    (if a.(recordListing_) then a.(listing_) ++ texts else a.(listing_))
    a.(labelPositions_) a.(fixups_) a.(pointerRelocations_) a.(recordListing_).

Definition emits (c : M Assembler unit) (ws : list Z) : Prop :=
  exists texts, length texts = length ws /\ forall a, c a = (appended a ws texts, Ok tt).

Definition implements (c : M Assembler unit) (f : machine -> machine) : Prop :=
  exists ws, emits c ws /\ forall m, run ws m = Some (f m).

Definition reg (r : Z) : Prop := 0 <= r <= 30.
Definition register_error : exn :=
  invalid_argument "ARM64 general-purpose register must be x0...x30".

Lemma appended_nil a : appended a [] [] = a.
Proof. destruct a as [? ? ? ? ? []]; unfold appended; cbn; by rewrite ?app_nil_r. Qed.

Lemma appended_app a ws1 ws2 t1 t2 :
  appended (appended a ws1 t1) ws2 t2 = appended a (ws1 ++ ws2) (t1 ++ t2).
Proof. destruct a as [? ? ? ? ? []]; unfold appended; cbn; by rewrite ?app_assoc. Qed.

Lemma run_app ws1 ws2 m : run (ws1 ++ ws2) m = run ws1 m ≫= run ws2.
Proof.
  revert m. induction ws1 as [|w ws IH]; intros m; cbn; [done|].
  destruct (decode w); cbn; [|done]. destruct (exec _ m); cbn; [|done]. apply IH.
Qed.

Lemma emits_emit w t : emits (emit w t) [w].
Proof. exists [t]. split; [done|]. intros a. done. Qed.

Lemma emits_bind c d ws1 ws2 : emits c ws1 -> emits d ws2 -> emits (c ;;; d) (ws1 ++ ws2).
Proof.
  intros (t1 & L1 & E1) (t2 & L2 & E2). exists (t1 ++ t2). split; [rewrite !length_app; lia|].
  intros a. unfold bind. by rewrite E1, E2, appended_app.
Qed.

Lemma implements_emit w t i f : decode w = Some i -> (forall m, exec i m = Some (f m)) ->
  implements (emit w t) f.
Proof.
  intros Hd He. exists [w]. split; [apply emits_emit|]. intros m. cbn. by rewrite Hd; cbn; rewrite He.
Qed.

Lemma implements_bind c d f g : implements c f -> implements d g ->
  implements (c ;;; d) (fun m => g (f m)).
Proof.
  intros (ws1 & E1 & R1) (ws2 & E2 & R2). exists (ws1 ++ ws2). split; [by apply emits_bind|].
  intros m. rewrite run_app, R1. cbn. apply R2.
Qed.

Lemma implements_ext c f g : (forall m, f m = g m) -> implements c f -> implements c g.
Proof. intros H (ws & E & R). exists ws. split; [done|]. intros m. by rewrite R, H. Qed.

(** ** Register checks *)

Lemma reg_range r : reg r -> in_range 5 r.
Proof. unfold reg, in_range. lia. Qed.

Lemma require_ok {A} r (c : M Assembler A) a : reg r -> (requireRegister r ;;; c) a = c a.
Proof. unfold reg, requireRegister, bind. intros. by destruct (Z.ltb_spec 30 r); [lia|]. Qed.

Lemma require_fail {A} r (c : M Assembler A) a : 30 < r ->
  (requireRegister r ;;; c) a = (a, Throw register_error).
Proof. unfold requireRegister, bind. intros. by destruct (Z.ltb_spec 30 r); [|lia]. Qed.

Lemma emits_require r c ws : reg r -> emits c ws -> emits (requireRegister r ;;; c) ws.
Proof. intros Hr (t & L & E). exists t. split; [done|]. intros a. by rewrite require_ok. Qed.

Lemma implements_require r c f : reg r -> implements c f -> implements (requireRegister r ;;; c) f.
Proof. intros Hr (ws & E & R). exists ws. split; [by apply emits_require|done]. Qed.

Lemma implements_emit_d w d t i f : decode (Z.lor w (Z.shiftl d 0)) = Some i ->
  (forall m, exec i m = Some (f m)) -> implements (emit (Z.lor w d) t) f.
Proof. rewrite Z.shiftl_0_r. apply implements_emit. Qed.

Lemma wX_reg sf r v m : reg r -> wX sf r v m = set_x r (wrap (width sf) v) m.
Proof. unfold reg, wX. intros. by destruct (Z.eqb_spec r 31); [lia|]. Qed.
Lemma wSP_reg sf r v m : reg r -> wSP sf r v m = set_x r (wrap (width sf) v) m.
Proof. unfold reg, wSP. intros. by destruct (Z.eqb_spec r 31); [lia|]. Qed.
Lemma rSP_reg r sf m : reg r -> wrap (width sf) (rSP m r) = rX m sf r.
Proof. unfold reg, rSP, rX. intros. by destruct (Z.eqb_spec r 31); [lia|]. Qed.

Lemma rX_range m sf r : in_range (width sf) (rX m sf r).
Proof.
  unfold rX. destruct (r =? 31); [destruct sf; unfold in_range; cbn; lia|].
  apply wrap_range. by destruct sf.
Qed.

(** Open a goal [implements (op ...) f] down to the emission of one word whose
    last field is unshifted [d]. *)
Ltac prove_regs :=
  repeat match goal with
  | H : reg ?r |- _ =>
      lazymatch goal with
      | _ : in_range 5 r |- _ => fail
      | _ => pose proof (reg_range r H)
      end
  end.
Ltac enter := repeat (apply implements_require; [assumption|]); prove_regs.
Ltac emit_word :=
  first [eapply implements_emit_d; [solve [decode_word]|] | eapply implements_emit; [solve [decode_word]|]];
  intros ?m; cbn [orb andb exec logic_of shift_of].

(** ** Three-register operations *)

Lemma wrap_add_lnot w a b : 0 <= w -> in_range w b ->
  wrap w (a + wrap w (Z.lnot b) + 1) = wrap w (a - b).
Proof.
  intros Hw Hb. unfold wrap.
  replace (a + Z.lnot b mod 2 ^ w + 1) with (a + 1 + Z.lnot b mod 2 ^ w) by lia.
  rewrite Zplus_mod_idemp_r. f_equal. unfold Z.lnot. lia.
Qed.

(** Each operation with the width it reads and the function it computes. *)
Definition alu_ops : list ((Z -> Z -> Z -> M Assembler unit) * (bool * (Z -> Z -> Z))) :=
  [ (add, (true, fun x y => u64 (x + y)));
    (add32, (false, fun x y => u32 (x + y)));
    (sub, (true, fun x y => u64 (x - y)));
    (sub32, (false, fun x y => u32 (x - y)));
    (lslVariable, (true, fun x y => u64 (Z.shiftl x (y mod 64))));
    (lsrVariable, (true, fun x y => Z.shiftr x (y mod 64)));
    (asrVariable, (true, fun x y => u64 (Z.shiftr (signed 64 x) (y mod 64))));
    (asrVariable32, (false, fun x y => u32 (Z.shiftr (signed 32 x) (y mod 32))));
    (multiplyLow, (true, fun x y => u64 (x * y)));
    (multiplyHighUnsigned, (true, fun x y => u64 (x * y / 2 ^ 64)));
    (multiplyHighSigned, (true, fun x y => u64 (signed 64 x * signed 64 y / 2 ^ 64)));
    (bitAnd, (true, Z.land)); (bitAnd32, (false, Z.land));
    (bitOr, (true, Z.lor)); (bitOr32, (false, Z.lor));
    (bitXor, (true, Z.lxor)); (bitXor32, (false, Z.lxor)) ].

Lemma wrap_shiftl_0 sf m r : shifted sf LSL (rX m sf r) 0 = rX m sf r.
Proof. cbn. rewrite Z.shiftl_0_r. apply wrap_small, rX_range. Qed.



Lemma wrap_idem w x : wrap w (wrap w x) = wrap w x.
Proof. unfold wrap. apply Zmod_mod. Qed.

Lemma width_nonneg sf : 0 <= width sf.
Proof. by destruct sf. Qed.

Lemma alu_correct op sf f : (op, (sf, f)) ∈ alu_ops -> forall d l r, reg d -> reg l -> reg r ->
  implements (op d l r) (fun m => set_x d (f (rX m sf l) (rX m sf r)) m).
Proof.
  intros Hin d l r Hd Hl Hr. pose proof (rX_range) as HX. unfold alu_ops in Hin.
  repeat (apply elem_of_cons in Hin as [[= -> -> ->]|Hin]); [..|by apply elem_of_nil in Hin].
  all: match goal with |- implements (?o _ _ _) _ => unfold o end; enter; emit_word.
  all: cbn [exec]; rewrite ?wX_reg by done; rewrite ?wrap_shiftl_0; unfold add_with_carry;
    rewrite ?wX_reg by done; do 2 f_equal.
  all: first
    [ by rewrite wrap_idem, Z.add_0_r
    | by rewrite wrap_idem, wrap_add_lnot by (apply HX || apply width_nonneg)
    | exact (wrap_idem _ _)
    | by rewrite Z.shiftr_div_pow2 by lia
    | apply wrap_land_id; [done|apply HX..] | apply wrap_lor_id; [done|apply HX..]
    | apply wrap_lxor_id; [done|apply HX..] | idtac ].
  apply wrap_small, (shiftr_range 64); [done|apply Z.mod_pos_bound; done|apply (HX m true)].
Qed.

Lemma alu_rejects op sf f : (op, (sf, f)) ∈ alu_ops -> forall d l r a,
  0 <= d -> 0 <= l -> 0 <= r -> ~ (reg d /\ reg l /\ reg r) -> op d l r a = (a, Throw register_error).
Proof.
  intros Hin d l r a H0 H1 H2 Hno. unfold alu_ops in Hin.
  assert (forall word : M Assembler unit, (requireRegister d ;;; requireRegister l ;;; requireRegister r ;;; word) a =
    (a, Throw register_error)) as Hall.
  { intros word. unfold reg in Hno. destruct (Z.ltb_spec 30 d); [by apply require_fail|].
    rewrite require_ok by (unfold reg; lia).
    destruct (Z.ltb_spec 30 l); [by apply require_fail|]. rewrite require_ok by (unfold reg; lia).
    apply require_fail. lia. }
  repeat (apply elem_of_cons in Hin as [[= -> -> ->]|Hin]); [..|by apply elem_of_nil in Hin].
  all: apply Hall.
Qed.

(** C27: the three-register instructions are encoded correctly: for every
    arithmetic, shift, multiply and logical emission function and every choice
    of registers x0..x30, the single appended word decodes to an A64 instruction
    that sets the destination to the function's result at its width and changes
    nothing else; a register outside that range is rejected and nothing is
    appended. *)
Theorem alu_instructions_correct op sf f : (op, (sf, f)) ∈ alu_ops -> forall d l r,
  0 <= d -> 0 <= l -> 0 <= r ->
  (reg d /\ reg l /\ reg r ->
   implements (op d l r) (fun m => set_x d (f (rX m sf l) (rX m sf r)) m)) /\
  (~ (reg d /\ reg l /\ reg r) -> forall a, op d l r a = (a, Throw register_error)).
Proof.
  intros Hin d l r H0 H1 H2. split.
  - intros (? & ? & ?). by apply alu_correct.
  - intros Hno a. by eapply alu_rejects.
Qed.

Lemma alu_instructions_correct_witness :
  implements (sub 0 1 2) (fun m => set_x 0 (u64 (rX m true 1 - rX m true 2)) m).
Proof.
  assert ((sub, (true, fun x y => u64 (x - y))) ∈ alu_ops) as H by (right; right; left).
  apply (proj1 (alu_instructions_correct _ _ _ H 0 1 2 ltac:(lia) ltac:(lia) ltac:(lia))).
  unfold reg. lia.
Defined.

(** ** Two-operand and immediate operations *)

Lemma implements_if (b : bool) e c f : b = false -> implements c f ->
  implements (if b then throw e else c) f.
Proof. by intros ->. Qed.

Lemma mov_correct d s : reg d -> reg s -> implements (mov d s) (fun m => set_x d (rX m true s) m).
Proof.
  intros Hd Hs. unfold mov. enter. emit_word. rewrite wX_reg, wrap_shiftl_0 by done.
  change (rX m true 31) with 0. rewrite Z.lor_0_l. do 2 f_equal. apply wrap_small, rX_range.
Qed.

Lemma mov32_correct d s : reg d -> reg s -> implements (mov32 d s) (fun m => set_x d (rX m false s) m).
Proof.
  intros Hd Hs. unfold mov32. enter. emit_word. rewrite wX_reg, wrap_shiftl_0 by done.
  change (rX m false 31) with 0. rewrite Z.lor_0_l. do 2 f_equal. apply wrap_small, rX_range.
Qed.

Ltac ltb_false := first [apply Z.ltb_ge; lia | apply Z.leb_gt; lia].

Section Immediates.
Context (d s : Z) (Hd : reg d) (Hs : reg s).

Lemma addImmediate_correct imm : in_range 12 imm ->
  implements (addImmediate d s imm) (fun m => set_x d (u64 (rX m true s + imm)) m) /\
  implements (addImmediate32 d s imm) (fun m => set_x d (u32 (rX m false s + imm)) m) /\
  implements (subImmediate d s imm) (fun m => set_x d (u64 (rX m true s - imm)) m) /\
  implements (subImmediate32 d s imm) (fun m => set_x d (u32 (rX m false s - imm)) m).
Proof using Hd Hs.
  intros Hi. assert (imm <= 4095) by (unfold in_range in Hi; lia).
  unfold addImmediate, addImmediate32, subImmediate, subImmediate32.
  split_and!; enter; (apply implements_if; [ltb_false|]); emit_word;
    cbn [exec]; rewrite (rSP_reg s) by done; unfold add_with_carry; rewrite wSP_reg by done;
    do 2 f_equal; rewrite wrap_idem; rewrite ?Z.add_0_r; try done;
    apply wrap_add_lnot; try done; eapply in_range_le; try done.
Qed.

Lemma shift_zero_left x : in_range 64 x -> u64 (Z.shiftl x 0) = x.
Proof using. intros. rewrite Z.shiftl_0_r. by apply u64_small. Qed.

Lemma lslImmediate_correct k : 0 <= k < 64 ->
  implements (lslImmediate d s k) (fun m => set_x d (u64 (Z.shiftl (rX m true s) k)) m).
Proof using Hd Hs.
  intros Hk. unfold lslImmediate. enter. apply implements_if; [ltb_false|].
  destruct (Z.eqb_spec k 0) as [->|Hk0].
  - eapply implements_ext; [|by apply mov_correct]. intros m. cbn.
    by rewrite shift_zero_left by apply (rX_range m true).
  - cbv zeta. assert (in_range 6 (64 - k)) by (unfold in_range; lia).
    assert (in_range 6 (63 - k)) by (unfold in_range; lia).
    emit_word. rewrite wX_reg by done. do 2 f_equal. unfold bitfield.
    destruct (Z.leb_spec (64 - k) (63 - k)); [lia|]. cbn [width].
    apply Z.bits_inj'. intros i Hi. unfold u64. rewrite !wrap_testbit by lia.
    destruct (Z.ltb_spec i 64); [|done]. cbn [andb]. rewrite !Z.shiftl_spec by lia.
    replace (64 - (64 - k)) with k by lia. rewrite Z.land_spec.
    destruct (Z.leb_spec k i); [|by rewrite !(Z.testbit_neg_r _ (i - k)) by lia].
    rewrite Z.testbit_ones_nonneg by lia. destruct (Z.ltb_spec (i - k) (63 - k + 1)); [|lia].
    by rewrite andb_true_r.
Qed.

Lemma lsrImmediate_correct k : 0 <= k < 64 ->
  implements (lsrImmediate d s k) (fun m => set_x d (Z.shiftr (rX m true s) k) m).
Proof using Hd Hs.
  intros Hk. unfold lsrImmediate. enter. apply implements_if; [ltb_false|].
  destruct (Z.eqb_spec k 0) as [->|Hk0].
  - eapply implements_ext; [|by apply mov_correct]. intros m. cbn. by rewrite Z.shiftr_0_r.
  - assert (in_range 6 k) by (unfold in_range; lia).
    emit_word. rewrite wX_reg by done. do 2 f_equal. unfold bitfield.
    destruct (Z.leb_spec k 63); [|lia]. pose proof (rX_range m true s) as HX. cbn [width] in *.
    apply Z.bits_inj'. intros i Hi. rewrite wrap_testbit, Z.land_spec, Z.shiftr_spec by lia.
    rewrite Z.testbit_ones_nonneg by lia.
    destruct (Z.ltb_spec (i + k) 64).
    + destruct (Z.ltb_spec i 64), (Z.ltb_spec i (63 - k + 1)); try lia. by rewrite andb_true_r.
    + rewrite (testbit_above 64 _ (i + k)) by (done || lia). by rewrite andb_false_r.
Qed.
End Immediates.

(** Reading the top bits of a word as a signed number shifts it arithmetically. *)
Lemma signed_high w x k : 0 < w -> 0 <= k < w -> in_range w x ->
  signed (w - k) (Z.shiftr x k) = Z.shiftr (signed w x) k.
Proof.
  intros Hw Hk Hx. unfold signed. rewrite !Z.shiftr_div_pow2 by lia.
  assert (2 ^ (w - 1) = 2 ^ (w - k - 1) * 2 ^ k) as E1 by (rewrite <- Z.pow_add_r by lia; f_equal; lia).
  assert (2 ^ w = 2 ^ (w - k) * 2 ^ k) as E2 by (rewrite <- Z.pow_add_r by lia; f_equal; lia).
  assert (0 < 2 ^ k) by (apply Z.pow_pos_nonneg; lia).
  destruct (Z.leb_spec (2 ^ (w - 1)) x) as [H1|H1].
  - assert (2 ^ (w - k - 1) <= x / 2 ^ k) by (apply Z.div_le_lower_bound; lia).
    destruct (Z.leb_spec (2 ^ (w - k - 1)) (x / 2 ^ k)); [|lia].
    rewrite E2. replace (x - 2 ^ (w - k) * 2 ^ k) with (x + (- 2 ^ (w - k)) * 2 ^ k) by lia.
    rewrite Z.div_add by lia. lia.
  - assert (x / 2 ^ k < 2 ^ (w - k - 1)) by (apply Z.div_lt_upper_bound; lia).
    destruct (Z.leb_spec (2 ^ (w - k - 1)) (x / 2 ^ k)); [lia|]. done.
Qed.

Lemma shiftr_small w x k : 0 <= k <= w -> in_range w x -> in_range (w - k) (Z.shiftr x k).
Proof.
  intros Hk [H0 H1]. rewrite Z.shiftr_div_pow2 by lia.
  assert (0 < 2 ^ k) by (apply Z.pow_pos_nonneg; lia).
  split; [apply Z.div_pos; lia|]. apply Z.div_lt_upper_bound; [lia|].
  rewrite <- Z.pow_add_r by lia. replace (k + (w - k)) with w by lia. done.
Qed.

(** The signed bitfield move used by the arithmetic shifts. *)
Lemma sbfm_asr sf x k : 0 <= k < width sf -> in_range (width sf) x ->
  bitfield sf true x k (width sf - 1) = Z.shiftr (signed (width sf) x) k.
Proof.
  intros Hk Hx. unfold bitfield. destruct (Z.leb_spec k (width sf - 1)); [|lia].
  replace (width sf - 1 - k + 1) with (width sf - k) by lia.
  rewrite Z.land_ones by lia. rewrite Z.mod_small by (apply shiftr_small; done || lia).
  apply signed_high; done || (destruct sf; cbn; lia).
Qed.

Lemma wrap_wrap_le w v x : 0 <= w <= v -> wrap w (wrap v x) = wrap w x.
Proof.
  intros Hw. apply Z.bits_inj'. intros i Hi. rewrite !wrap_testbit by lia.
  destruct (Z.ltb_spec i w); [|done]. by destruct (Z.ltb_spec i v); [|lia].
Qed.

Section Unary.
Context (d s : Z) (Hd : reg d) (Hs : reg s).

Lemma asrImmediate_correct k : 0 <= k < 64 ->
  implements (asrImmediate d s k) (fun m => set_x d (u64 (Z.shiftr (signed 64 (rX m true s)) k)) m).
Proof using Hd Hs.
  intros Hk. unfold asrImmediate. enter. apply implements_if; [ltb_false|].
  destruct (Z.eqb_spec k 0) as [->|Hk0].
  - eapply implements_ext; [|by apply mov_correct]. intros m. cbn. f_equal.
    rewrite Z.shiftr_0_r. unfold u64, signed. pose proof (rX_range m true s) as HX. cbn [width] in HX.
    destruct (_ <=? _); [|by rewrite wrap_small].
    replace (rX m true s - 2 ^ 64) with (rX m true s + (-1) * 2 ^ 64) by lia.
    unfold wrap. rewrite Z_mod_plus_full. by rewrite Z.mod_small.
  - assert (in_range 6 k) by (unfold in_range; lia).
    emit_word. rewrite wX_reg by done. change 63 with (width true - 1).
    by rewrite sbfm_asr by (apply rX_range || (cbn; lia)).
Qed.

Lemma asrImmediate32_correct k : 0 <= k < 32 ->
  implements (asrImmediate32 d s k) (fun m => set_x d (u32 (Z.shiftr (signed 32 (rX m false s)) k)) m).
Proof using Hd Hs.
  intros Hk. unfold asrImmediate32. enter. apply implements_if; [ltb_false|].
  destruct (Z.eqb_spec k 0) as [->|Hk0].
  - eapply implements_ext; [|by apply mov32_correct]. intros m. cbn. f_equal.
    rewrite Z.shiftr_0_r. unfold u32, signed. pose proof (rX_range m false s) as HX. cbn [width] in HX.
    destruct (_ <=? _); [|by rewrite wrap_small].
    replace (rX m false s - 2 ^ 32) with (rX m false s + (-1) * 2 ^ 32) by lia.
    unfold wrap. rewrite Z_mod_plus_full. by rewrite Z.mod_small.
  - assert (in_range 6 k) by (unfold in_range; lia).
    emit_word. rewrite wX_reg by done. change 31 with (width false - 1).
    by rewrite sbfm_asr by (apply rX_range || (cbn; lia)).
Qed.

(** The bytes of a value in the opposite order. *)
Definition byte_swap (n : nat) (x : Z) : Z := le_value (rev (le_bytes n x)).

Lemma byte_swap_range n x : in_range (8 * Z.of_nat n) (byte_swap n x).
Proof using.
  unfold byte_swap.
  replace (Z.of_nat n) with (zlength (rev (le_bytes n x)))
    by (unfold zlength; by rewrite length_rev, length_le_bytes).
  apply le_value_range. apply Forall_rev, le_bytes_ok.
Qed.

Lemma unary_correct :
  implements (reverseBytes32 d s) (fun m => set_x d (byte_swap 4 (rX m false s)) m) /\
  implements (reverseBytes64 d s) (fun m => set_x d (byte_swap 8 (rX m true s)) m) /\
  implements (signExtend32 d s) (fun m => set_x d (u64 (signed 32 (rX m false s))) m).
Proof using Hd Hs.
  split_and!; [unfold reverseBytes32|unfold reverseBytes64|unfold signExtend32]; enter; emit_word;
    rewrite wX_reg by done; do 2 f_equal.
  - apply wrap_small, (byte_swap_range 4).
  - apply wrap_small, (byte_swap_range 8).
  - unfold u64. f_equal. unfold bitfield. cbn [Z.leb Z.compare]. rewrite Z.shiftr_0_r.
    change (31 - 0 + 1) with 32. f_equal. unfold rX.
    destruct (Z.eqb_spec s 31); [done|]. rewrite <- wrap_land by lia. cbn [width].
    by apply wrap_wrap_le.
Qed.
End Unary.

Section Combining.
Context (d l r k : Z) (Hd : reg d) (Hl : reg l) (Hr : reg r) (Hk : 0 <= k < 64).

Lemma combining_correct :
  implements (extract d l r k)
    (fun m => set_x d (u64 (Z.shiftr (rX m true l * 2 ^ 64 + rX m true r) k)) m) /\
  implements (bitOrShiftedLeft d l r k)
    (fun m => set_x d (Z.lor (rX m true l) (u64 (Z.shiftl (rX m true r) k))) m) /\
  implements (bitXorShiftedRight d l r k)
    (fun m => set_x d (Z.lxor (rX m true l) (Z.shiftr (rX m true r) k)) m).
Proof using Hd Hl Hr Hk.
  assert (in_range 6 k) by (unfold in_range; lia).
  split_and!; [unfold extract|unfold bitOrShiftedLeft|unfold bitXorShiftedRight]; enter;
    (apply implements_if; [ltb_false|]); emit_word; rewrite wX_reg by done; do 2 f_equal.
  - unfold u64. do 2 f_equal. cbn [width]. rewrite Z.add_comm, <- Z.shiftl_mul_pow2 by lia.
    rewrite Z.add_nocarry_lxor, Z.lxor_lor; [apply Z.lor_comm| |].
    all: apply Z.bits_inj'; intros i Hi; rewrite Z.land_spec, Z.bits_0, Z.shiftl_spec by lia.
    all: destruct (Z.ltb_spec i 64); [by rewrite (Z.testbit_neg_r _ (i - 64)) by lia; rewrite andb_false_r|].
    all: by rewrite (testbit_above 64 (rX m true r)) by (apply (rX_range m true) || lia).
  - apply wrap_lor_id; [done|apply rX_range|apply wrap_range; done].
  - apply wrap_lxor_id; [done|apply rX_range|]. apply shiftr_range; [done|lia|apply rX_range].
Qed.
End Combining.

Lemma guarded_fail (b : bool) e (c : M Assembler unit) d s a : reg d -> reg s -> b = true ->
  (requireRegister d ;;; requireRegister s ;;; if b then throw e else c) a = (a, Throw e).
Proof. intros Hd Hs ->. by rewrite !require_ok. Qed.

(** The immediate, move, shift and byte instructions are encoded
    correctly: moves, 12-bit additions and subtractions at both widths,
    immediate shifts (through the bitfield encodings, and a plain move for a
    zero count), byte reversals, the sign extension, EXTR and the shifted
    logical operations decode to instructions with exactly the intended effect;
    an immediate that does not fit its field is rejected with nothing emitted. *)
Theorem immediate_instructions_correct d s r k imm : reg d -> reg s -> reg r -> 0 <= k -> 0 <= imm ->
  (implements (mov d s) (fun m => set_x d (rX m true s) m) /\
   implements (mov32 d s) (fun m => set_x d (rX m false s) m) /\
   implements (reverseBytes32 d s) (fun m => set_x d (byte_swap 4 (rX m false s)) m) /\
   implements (reverseBytes64 d s) (fun m => set_x d (byte_swap 8 (rX m true s)) m) /\
   implements (signExtend32 d s) (fun m => set_x d (u64 (signed 32 (rX m false s))) m)) /\
  (if imm <? 4096 then
     implements (addImmediate d s imm) (fun m => set_x d (u64 (rX m true s + imm)) m) /\
     implements (addImmediate32 d s imm) (fun m => set_x d (u32 (rX m false s + imm)) m) /\
     implements (subImmediate d s imm) (fun m => set_x d (u64 (rX m true s - imm)) m) /\
     implements (subImmediate32 d s imm) (fun m => set_x d (u32 (rX m false s - imm)) m)
   else forall a,
     addImmediate d s imm a = (a, Throw (invalid_argument "ARM64 ADD immediate must fit in 12 bits")) /\
     subImmediate d s imm a = (a, Throw (invalid_argument "ARM64 SUB immediate must fit in 12 bits"))) /\
  (if k <? 64 then
     implements (lslImmediate d s k) (fun m => set_x d (u64 (Z.shiftl (rX m true s) k)) m) /\
     implements (lsrImmediate d s k) (fun m => set_x d (Z.shiftr (rX m true s) k) m) /\
     implements (asrImmediate d s k)
       (fun m => set_x d (u64 (Z.shiftr (signed 64 (rX m true s)) k)) m) /\
     implements (extract d s r k)
       (fun m => set_x d (u64 (Z.shiftr (rX m true s * 2 ^ 64 + rX m true r) k)) m) /\
     implements (bitOrShiftedLeft d s r k)
       (fun m => set_x d (Z.lor (rX m true s) (u64 (Z.shiftl (rX m true r) k))) m) /\
     implements (bitXorShiftedRight d s r k)
       (fun m => set_x d (Z.lxor (rX m true s) (Z.shiftr (rX m true r) k)) m)
   else forall a,
     lslImmediate d s k a = (a, Throw (invalid_argument "64-bit LSL immediate must be less than 64")) /\
     lsrImmediate d s k a = (a, Throw (invalid_argument "64-bit LSR immediate must be less than 64")) /\
     asrImmediate d s k a = (a, Throw (invalid_argument "64-bit ASR immediate must be less than 64"))) /\
  (if k <? 32 then
     implements (asrImmediate32 d s k)
       (fun m => set_x d (u32 (Z.shiftr (signed 32 (rX m false s)) k)) m)
   else forall a,
     asrImmediate32 d s k a = (a, Throw (invalid_argument "32-bit ASR immediate must be less than 32"))).
Proof.
  intros Hd Hs Hr Hk Hi.
  split; [|split; [|split]].
  - split_and!; first [by apply mov_correct | by apply mov32_correct | apply unary_correct; done].
  - destruct (Z.ltb_spec imm 4096).
    + apply addImmediate_correct; unfold in_range; done || lia.
    + intros a. split; apply guarded_fail; try done; apply Z.ltb_lt; lia.
  - destruct (Z.ltb_spec k 64).
    + split; [by apply lslImmediate_correct|]. split; [by apply lsrImmediate_correct|].
      split; [by apply asrImmediate_correct|]. by apply combining_correct.
    + intros a. split_and!; apply guarded_fail; try done; apply Z.leb_le; lia.
  - destruct (Z.ltb_spec k 32); [by apply asrImmediate32_correct|].
    intros a. apply guarded_fail; try done. apply Z.leb_le. lia.
Qed.

Lemma immediate_instructions_correct_witness :
  implements (asrImmediate 3 4 7) (fun m => set_x 3 (u64 (Z.shiftr (signed 64 (rX m true 4)) 7)) m).
Proof.
  exact (proj1 (proj2 (proj2 (proj1 (proj2 (proj2 (immediate_instructions_correct 3 4 5 7 100
    ltac:(unfold reg; lia) ltac:(unfold reg; lia) ltac:(unfold reg; lia) ltac:(lia) ltac:(lia)))))))).
Defined.
