(* ===== verification/AssemblerFlow.v ===== *)
(** Constants, conditions, memory and stack sequences of the assembler. *)
From S2P Require Import Prelude AArch64 Assembler AssemblerSpec.

(** ** Materialising a constant *)

Definition fill_bit (movn : bool) : bool := movn.

(** [x] agrees with [v] below halfword [h] and is filled above it. *)
Definition agree (v : Z) (movn : bool) (h : Z) (x : Z) : Prop :=
  in_range 64 x /\ forall i, 0 <= i < 64 ->
    Z.testbit x i = if i <? 16 * h then Z.testbit v i else movn.

Definition halfword_of (v h : Z) : Z := Z.land (Z.shiftr v (h * 16)) 0xFFFF.

Lemma halfword_bit v h j : 0 <= h -> 0 <= j ->
  Z.testbit (halfword_of v h) j = (j <? 16) && Z.testbit v (16 * h + j).
Proof.
  intros Hh Hj. unfold halfword_of. change 0xFFFF with (Z.ones 16).
  rewrite Z.land_spec, Z.shiftr_spec, Z.testbit_ones_nonneg by lia.
  rewrite andb_comm. do 2 f_equal. lia.
Qed.

Lemma halfword_range v h : in_range 16 (halfword_of v h).
Proof.
  unfold halfword_of. change 0xFFFF with (Z.ones 16). rewrite Z.land_ones by lia.
  apply Z.mod_pos_bound. lia.
Qed.

Lemma eq_bits w x y : 0 <= w -> in_range w x -> in_range w y ->
  (forall i, 0 <= i < w -> Z.testbit x i = Z.testbit y i) -> x = y.
Proof.
  intros Hw Hx Hy H. apply Z.bits_inj'. intros i Hi. destruct (Z.ltb_spec i w); [by apply H|].
  by rewrite (testbit_above w x), (testbit_above w y) by (done || lia).
Qed.

Lemma agree_full v movn x : in_range 64 v -> agree v movn 4 x -> x = v.
Proof.
  intros Hv [Hx Hb]. apply (eq_bits 64); try done. intros i Hi. rewrite Hb by done.
  by destruct (Z.ltb_spec i (16 * 4)); [|lia].
Qed.

(** The three move-wide results, in terms of bits. *)
Lemma movk_agree v movn h x : 0 <= h < 4 -> agree v movn h x ->
  agree v movn (h + 1) (wrap 64 (Z.lor (Z.land x (Z.lnot (Z.shiftl (Z.ones 16) (16 * h))))
    (Z.shiftl (halfword_of v h) (16 * h)))).
Proof.
  intros Hh [Hx Hb]. split; [apply wrap_range; lia|]. intros i Hi.
  rewrite wrap_testbit, Z.lor_spec, Z.land_spec, Z.lnot_spec by lia.
  destruct (Z.ltb_spec i 64); [|lia]. cbn [andb]. rewrite !Z.shiftl_spec, Hb by lia.
  destruct (Z.ltb_spec i (16 * h)).
  - rewrite !(Z.testbit_neg_r _ (i - 16 * h)) by lia. cbn. rewrite andb_true_r, orb_false_r.
    by destruct (Z.ltb_spec i (16 * (h + 1))); [|lia].
  - rewrite halfword_bit, Z.testbit_ones_nonneg by lia. replace (16 * h + (i - 16 * h)) with i by lia.
    destruct (Z.ltb_spec (i - 16 * h) 16), (Z.ltb_spec i (16 * (h + 1))); try lia; cbn.
    + by rewrite andb_false_r.
    + by rewrite andb_true_r, orb_false_r.
Qed.

Lemma skip_agree v (movn : bool) h x : 0 <= h < 4 -> halfword_of v h = (if movn then 65535 else 0) ->
  agree v movn h x -> agree v movn (h + 1) x.
Proof.
  intros Hh Hv [Hx Hb]. split; [done|]. intros i Hi. rewrite Hb by done.
  destruct (Z.ltb_spec i (16 * h)), (Z.ltb_spec i (16 * (h + 1))); try done; try lia.
  pose proof (halfword_bit v h (i - 16 * h) ltac:(lia) ltac:(lia)) as H1. rewrite Hv in H1.
  replace (16 * h + (i - 16 * h)) with i in H1 by lia.
  destruct (Z.ltb_spec (i - 16 * h) 16); [|lia]. cbn in H1. rewrite <- H1.
  destruct movn; [|by rewrite Z.bits_0]. change 65535 with (Z.ones 16).
  rewrite Z.testbit_ones_nonneg by lia. by destruct (Z.ltb_spec (i - 16 * h) 16); [|lia].
Qed.

Definition filled_below (v : Z) (movn : bool) (h : Z) : Prop :=
  forall i, 0 <= i < 16 * h -> Z.testbit v i = movn.

Lemma first_agree v (movn : bool) h : 0 <= h < 4 -> filled_below v movn h ->
  agree v movn (h + 1)
    (wrap 64 (if movn then Z.lnot (Z.shiftl (u16 (Z.lnot (halfword_of v h))) (16 * h))
              else Z.shiftl (halfword_of v h) (16 * h))).
Proof.
  intros Hh Hf. split; [apply wrap_range; lia|]. intros i Hi. rewrite wrap_testbit by lia.
  destruct (Z.ltb_spec i 64); [|lia]. cbn [andb].
  assert (forall x, Z.testbit (if movn then Z.lnot x else x) i = xorb movn (Z.testbit x i)) as Hneg.
  { intros x. destruct movn; [by rewrite Z.lnot_spec by lia|]. by destruct (Z.testbit x i). }
  transitivity (xorb movn (Z.testbit (Z.shiftl (if movn then u16 (Z.lnot (halfword_of v h))
    else halfword_of v h) (16 * h)) i)).
  { rewrite <- Hneg. by destruct movn. }
  rewrite Z.shiftl_spec by lia. destruct (Z.ltb_spec i (16 * (h + 1))).
  - destruct (Z.ltb_spec i (16 * h)).
    + rewrite Z.testbit_neg_r by lia. rewrite xorb_false_r. symmetry. apply Hf. lia.
    + assert (Z.testbit (halfword_of v h) (i - 16 * h) = Z.testbit v i) as Hb.
      { rewrite halfword_bit by lia. replace (16 * h + (i - 16 * h)) with i by lia.
        by destruct (Z.ltb_spec (i - 16 * h) 16); [|lia]. }
      destruct movn; [|by rewrite Hb]. unfold u16. rewrite wrap_testbit, Z.lnot_spec, Hb by lia.
      destruct (Z.ltb_spec (i - 16 * h) 16); [|lia]. by destruct (Z.testbit v i).
  - replace (Z.testbit _ (i - 16 * h)) with false; [by rewrite xorb_false_r|]. symmetry.
    destruct movn; apply (testbit_above 16); try lia; [by apply wrap_range|apply halfword_range].
Qed.

Section MoveWide.
Context (d : Z) (Hd : reg d).

Definition wide_word (base h imm : Z) : Z :=
  Z.lor (Z.lor (Z.lor base (Z.shiftl h 21)) (Z.shiftl imm 5)) d.

Lemma wide_decode h imm : 0 <= h < 4 -> in_range 16 imm ->
  decode (wide_word 0xF2800000 h imm) = Some (MoveWide true MOVK d imm h) /\
  decode (wide_word 0x92800000 h imm) = Some (MoveWide true MOVN d imm h) /\
  decode (wide_word 0xD2800000 h imm) = Some (MoveWide true MOVZ d imm h).
Proof using Hd.
  intros Hh Hi. prove_regs. assert (in_range 2 h) by (unfold in_range; lia).
  unfold wide_word. rewrite <- (Z.shiftl_0_r d).
  split_and!; rewrite (Z.shiftl_0_r d) at 2; decode_word.
Qed.

Lemma set_set x y m : set_x d y (set_x d x m) = set_x d y m.
Proof using. unfold set_x. cbn. by rewrite insert_insert_eq. Qed.

Lemma read_set x m : in_range 64 x -> rX (set_x d x m) true d = x.
Proof using Hd.
  intros Hx. unfold rX, reg_of. destruct (Z.eqb_spec d 31); [unfold reg in Hd; lia|].
  cbn. rewrite lookup_insert_eq. by apply wrap_small.
Qed.

Lemma run_one w i m m' ws : decode w = Some i -> exec i m = Some m' -> run (w :: ws) m = run ws m'.
Proof using. intros H1 H2. cbn. rewrite H1. cbn. by rewrite H2. Qed.

Definition halfwords_from (v h : Z) (k : nat) : list Z := map (halfword_of v) (seqZ h (Z.of_nat k)).

Lemma halfwords_cons v h k : halfwords_from v h (S k) = halfword_of v h :: halfwords_from v (h + 1) k.
Proof using.
  unfold halfwords_from. rewrite seqZ_cons by lia. cbn [map]. do 3 f_equal. lia.
Qed.

Definition fill_of (movn : bool) : Z := if movn then 0xFFFF else 0.
Definition differing (movn : bool) (hs : list Z) : nat := length (filter (fun x => x <> fill_of movn) hs).

(** Once the first instruction is out, every differing halfword takes a MOVK. *)
Lemma loop_rest v movn k : forall h, 0 <= h -> h + Z.of_nat k = 4 -> in_range 64 v ->
  exists ws, emits (movImmediate_loop d v movn (halfwords_from v h k) h true) ws /\
    length ws = differing movn (halfwords_from v h k) /\
    forall m x, agree v movn h x -> run ws (set_x d x m) = Some (set_x d v m).
Proof using Hd.
  induction k as [|k IH]; intros h Hh Hk Hv.
  { exists []. split; [exists []; split; [done|]; intros a; cbn; by rewrite appended_nil|]. split; [done|].
    intros m x Hx. replace h with 4 in Hx by lia. by rewrite (agree_full v movn x Hv Hx). }
  rewrite halfwords_cons. cbn [movImmediate_loop]. rewrite orb_true_l, andb_true_r.
  destruct (IH (h + 1) ltac:(lia) ltac:(lia) Hv) as (ws & He & Hlen & Hr).
  unfold differing. rewrite filter_cons. destruct (Z.eqb_spec (halfword_of v h) (if movn then 65535 else 0)) as [E|E].
  - exists ws. split; [done|]. rewrite decide_False by (intros Hn; apply Hn; by rewrite E; destruct movn).
    split; [done|]. intros m x Hx. apply Hr. apply skip_agree; [lia| |done]. by rewrite E.
  - rewrite andb_false_r. destruct (wide_decode h (halfword_of v h) ltac:(lia) (halfword_range v h)) as [Hdec _].
    exists (wide_word 0xF2800000 h (halfword_of v h) :: ws). split.
    { by apply (emits_bind _ _ [_] ws); [apply emits_emit|]. }
    rewrite decide_True by (by destruct movn). split; [cbn; by rewrite Hlen|].
    intros m x Hx. destruct Hx as [Hx Hbits].
    rewrite (run_one _ _ _ (set_x d (wrap 64 (Z.lor (Z.land x (Z.lnot (Z.shiftl (Z.ones 16) (16 * h))))
      (Z.shiftl (halfword_of v h) (16 * h)))) m) _ Hdec).
    + apply Hr. apply movk_agree; [lia|by split].
    + cbn [exec]. rewrite wX_reg, set_set, read_set by done. done.
Qed.

Definition all_fill (movn : bool) : Z := if movn then UINT64_MAX else 0.

(** Before the first instruction every halfword so far equals the fill. *)
Lemma loop_first v movn k : forall h, 0 <= h -> h + Z.of_nat k = 4 -> in_range 64 v ->
  filled_below v movn h -> v <> all_fill movn \/ h = 0 ->
  exists ws, emits (movImmediate_loop d v movn (halfwords_from v h k) h false) ws /\
    Z.of_nat (length ws) = Z.max 1 (Z.of_nat (differing movn (halfwords_from v h k))) /\
    forall m, run ws m = Some (set_x d v m).
Proof using Hd.
  induction k as [|k IH]; intros h Hh Hk Hv Hf Hne.
  { exfalso. destruct Hne as [Hne|]; [|lia]. apply Hne.
    replace h with 4 in Hf by lia. apply (eq_bits 64); [lia|done|by destruct movn|].
    intros i Hi. rewrite Hf by lia. destruct movn; cbn [all_fill]; [|by rewrite Z.bits_0].
    change UINT64_MAX with (Z.ones 64). rewrite Z.testbit_ones_nonneg by lia.
    by destruct (Z.ltb_spec i 64); [|lia]. }
  rewrite halfwords_cons. cbn [movImmediate_loop]. rewrite orb_false_l.
  unfold differing. rewrite filter_cons.
  destruct (_ && _) eqn:Hskip.
  - apply andb_prop in Hskip as [E Hv']. apply Z.eqb_eq in E.
    assert (v <> all_fill movn) as Hvf.
    { destruct movn; cbn; apply negb_true_iff, Z.eqb_neq in Hv'; done. }
    destruct (IH (h + 1)) as (ws & He & Hlen & Hr); [lia|lia|done| |by left|].
    { intros i Hi. destruct (Z.ltb_spec i (16 * h)); [apply Hf; lia|].
      pose proof (halfword_bit v h (i - 16 * h) ltac:(lia) ltac:(lia)) as Hb.
      replace (16 * h + (i - 16 * h)) with i in Hb by lia.
      destruct (Z.ltb_spec (i - 16 * h) 16); [|lia]. cbn [andb] in Hb. rewrite <- Hb, E.
      destruct movn; [|by rewrite Z.bits_0]. change 65535 with (Z.ones 16).
      rewrite Z.testbit_ones_nonneg by lia. by destruct (Z.ltb_spec (i - 16 * h) 16); [|lia]. }
    exists ws. split; [done|]. 
    rewrite decide_False by (intros Hn; apply Hn; by rewrite E; destruct movn). done.
  - destruct (loop_rest v movn k (h + 1) ltac:(lia) ltac:(lia) Hv) as (ws & He & Hlen & Hr).
    set (imm := if movn && negb false then u16 (Z.lnot (halfword_of v h)) else halfword_of v h).
    assert (in_range 16 imm) as Himm.
    { subst imm. destruct movn; [by apply wrap_range|apply halfword_range]. }
    destruct (wide_decode h imm ltac:(lia) Himm) as (_ & Hn & Hz).
    exists (wide_word (if movn then 0x92800000 else 0xD2800000) h imm :: ws). split.
    { by apply (emits_bind _ _ [_] ws); [apply emits_emit|]. }
    split.
    + cbn [length]. rewrite Hlen. unfold differing. case_decide as Hc; cbn [length]; [lia|].
      (* the halfword equals the fill: the whole value does *)
      unfold fill_of in Hc. rewrite Hc in Hskip.
      assert (v = all_fill movn) as ->.
      { destruct movn; cbn in Hskip |- *; apply negb_false_iff, Z.eqb_eq in Hskip; done. }
      destruct Hne as [Hne| ->]; [done|]. replace k with 3%nat by lia. by destruct movn.
    + intros m. subst imm. destruct movn; cbn [andb negb] in *.
      * rewrite (run_one _ _ _ (set_x d (wrap 64 (Z.lnot (Z.shiftl (u16 (Z.lnot (halfword_of v h))) (16 * h)))) m) _ Hn).
        -- apply Hr. apply (first_agree v true h); [lia|done].
        -- cbn [exec]. by rewrite wX_reg.
      * rewrite (run_one _ _ _ (set_x d (wrap 64 (Z.shiftl (halfword_of v h) (16 * h))) m) _ Hz).
        -- apply Hr. apply (first_agree v false h); [lia|done].
        -- cbn [exec]. by rewrite wX_reg.
Qed.
End MoveWide.

Lemma emits_text c d ws : (forall a, c a = d a) -> emits d ws -> emits c ws.
Proof. intros H (t & L & E). exists t. split; [done|]. intros a. by rewrite H. Qed.

(** The four words of a relocatable pointer. *)
Definition pointer_words (d p : Z) : list Z :=
  wide_word d 0xD2800000 0 (halfword_of p 0) ::
  map (fun h => wide_word d 0xF2800000 h (halfword_of p h)) [1; 2; 3].

Lemma pointer_words_run d p m : reg d -> in_range 64 p -> run (pointer_words d p) m = Some (set_x d p m).
Proof.
  intros Hd Hp.
  destruct (wide_decode d Hd 0 (halfword_of p 0) ltac:(lia) (halfword_range p 0)) as (_ & _ & H0).
  unfold pointer_words. erewrite run_one; [|exact H0|cbn [exec]; by rewrite wX_reg by done].
  cbn [width].
  pose proof (first_agree p false 0 ltac:(lia) ltac:(intros i Hi; lia)) as A. cbn iota in A.
  change (0 + 1) with 1 in A. revert A. generalize (wrap 64 (Z.shiftl (halfword_of p 0) (16 * 0))).
  intros x A.
  assert (forall h y ws, 0 <= h < 4 -> agree p false h y ->
    exists z, agree p false (h + 1) z /\
      run (wide_word d 0xF2800000 h (halfword_of p h) :: ws) (set_x d y m) = run ws (set_x d z m)) as Hstep.
  { intros h y ws Hh Hy. eexists. split; [apply (movk_agree p false h y Hh Hy)|].
    destruct (wide_decode d Hd h (halfword_of p h) Hh (halfword_range p h)) as (Hk & _ & _).
    erewrite run_one; [done|exact Hk|]. cbn [exec]. rewrite wX_reg, set_set, read_set by (done || apply Hy).
    done. }
  cbn [map].
  destruct (Hstep 1 x (map (fun h => wide_word d 0xF2800000 h (halfword_of p h)) [2; 3])
    ltac:(lia) A) as (y & Ay & Ey). cbn [map] in Ey. rewrite Ey. clear Ey.
  destruct (Hstep 2 y (map (fun h => wide_word d 0xF2800000 h (halfword_of p h)) [3])
    ltac:(lia) Ay) as (z & Az & Ez). cbn [map] in Ez. rewrite Ez. clear Ez.
  destruct (Hstep 3 z [] ltac:(lia) Az) as (w & Aw & Ew). rewrite Ew. cbn.
  by rewrite (agree_full p false w Hp Aw).
Qed.

Definition pointer_text (d p h : Z) : string :=
  (if h =? 0 then "movz " else "movk ") +:+ regName d +:+ ", " +:+
  hexImmediate (Z.land (Z.shiftr p (h * 16)) 0xFFFF) +:+
  (if h * 16 =? 0 then "" else ", lsl #" +:+ dec (h * 16)).

(** [movImmediate] puts the constant in the register, with the shortest sequence. *)
Lemma movImmediate_words d v : reg d -> in_range 64 v ->
  exists ws, emits (movImmediate d v) ws /\
    Z.of_nat (length ws) =
      Z.max 1 (Z.min (zlength (filter (fun h => h <> 0) (value_halfwords v)))
                     (zlength (filter (fun h => h <> 0xFFFF) (value_halfwords v)))) /\
    forall m, run ws m = Some (set_x d v m).
Proof.
  intros Hd Hv. unfold movImmediate. change (value_halfwords v) with (halfwords_from v 0 4).
  set (nz := zlength (filter (fun h => h <> 0) _)). set (no := zlength (filter (fun h => h <> 0xFFFF) _)).
  destruct (loop_first d Hd v (no <? nz) 4 0 ltac:(lia) ltac:(lia) Hv) as (ws & He & Hlen & Hr);
    [intros i Hi; lia|by right|].
  exists ws. split; [by apply emits_require|]. split; [|done]. rewrite Hlen. f_equal.
  subst nz no. unfold differing, fill_of, zlength.
  destruct (Z.ltb_spec (Z.of_nat (length (filter (fun h => h <> 0xFFFF) (halfwords_from v 0 4))))
    (Z.of_nat (length (filter (fun h => h <> 0) (halfwords_from v 0 4))))); lia.
Qed.

Lemma movImmediate_implements d v : reg d -> in_range 64 v -> implements (movImmediate d v) (set_x d v).
Proof. intros Hd Hv. destruct (movImmediate_words d v Hd Hv) as (ws & He & _ & Hr). by exists ws. Qed.

(** C28: constants are materialised exactly, with the shortest
    MOVZ/MOVN/MOVK sequence: for every 64-bit value [movImmediate] emits as many
    instructions as the value has halfwords different from all-zeroes or from
    all-ones, whichever is fewer (at least one), and executing them leaves the
    value in the destination and everything else unchanged.  A relocatable
    pointer always takes four instructions, whose byte offset is recorded. *)
Theorem movImmediate_correct d v : reg d -> in_range 64 v ->
  (exists ws, emits (movImmediate d v) ws /\
     Z.of_nat (length ws) =
       Z.max 1 (Z.min (zlength (filter (fun h => h <> 0) (value_halfwords v)))
                      (zlength (filter (fun h => h <> 0xFFFF) (value_halfwords v)))) /\
     forall m, run ws m = Some (set_x d v m)) /\
  length (pointer_words d v) = 4%nat /\ (forall m, run (pointer_words d v) m = Some (set_x d v m)) /\
  forall a, movImmediate_pointer d v a =
    if UINT32_MAX / 4 <? zlength a.(words_)
    then (a, Throw (overflow_error "ARM64 pointer relocation offset overflows"))
    else (set_relocations (a.(pointerRelocations_) ++ [4 * zlength a.(words_)])
            (appended a (pointer_words d v) (map (pointer_text d v) [0; 1; 2; 3])), Ok tt).
Proof.
  intros Hd Hv. split.
  - by apply movImmediate_words.
  - split; [done|]. split; [intros m; by apply pointer_words_run|].
    intros a. unfold movImmediate_pointer. rewrite require_ok by done. unfold bind at 1, get.
    destruct (Z.ltb_spec (UINT32_MAX / 4) (zlength a.(words_))) as [|Hlen]; [done|].
    assert (u32 (zlength a.(words_) * 4) = 4 * zlength a.(words_)) as ->.
    { rewrite Z.mul_comm. apply wrap_small. unfold in_range, zlength in *.
      change (UINT32_MAX / 4) with 1073741823 in Hlen. lia. }
    destruct a as [ws ls lb fx rl rec]. unfold set_relocations, appended, bind, emit, modify. cbn [words_ listing_ labelPositions_ fixups_ pointerRelocations_ recordListing_].
    rewrite <- !app_assoc. destruct rec; [|done]. by rewrite <- !app_assoc.
Qed.

Lemma movImmediate_correct_witness :
  exists ws, emits (movImmediate 3 0xFFFFFFFFFFFF1234) ws /\ length ws = 1%nat /\
    forall m, run ws m = Some (set_x 3 0xFFFFFFFFFFFF1234 m).
Proof.
  destruct (proj1 (movImmediate_correct 3 0xFFFFFFFFFFFF1234 ltac:(unfold reg; lia)
    ltac:(unfold in_range; lia))) as (ws & He & Hl & Hr).
  exists ws. split; [exact He|]. split; [|exact Hr]. apply Nat2Z.inj. rewrite Hl. vm_compute. reflexivity.
Defined.

(** ** Comparisons and conditions *)

(** The relation each [BranchCondition] stands for after a comparison of two
    64-bit values. *)
Definition relation (c x y : Z) : bool :=
  match c with
  | 0 => x =? y
  | 1 => negb (x =? y)
  | 2 => y <=? x
  | 3 => x <? y
  | 4 => signed 64 (u64 (x - y)) <? 0
  | 5 => 0 <=? signed 64 (u64 (x - y))
  | 6 => negb (signed 64 (u64 (x - y)) =? signed 64 x - signed 64 y)
  | 7 => signed 64 (u64 (x - y)) =? signed 64 x - signed 64 y
  | 8 => y <? x
  | 9 => x <=? y
  | 10 => signed 64 y <=? signed 64 x
  | 11 => signed 64 x <? signed 64 y
  | 12 => signed 64 y <? signed 64 x
  | _ => signed 64 x <=? signed 64 y
  end.

Definition subtraction_flags (x y : Z) : machine -> machine :=
  set_nzcv (signed 64 (u64 (x - y)) <? 0) (x =? y) (y <=? x)
    (negb (signed 64 (u64 (x - y)) =? signed 64 x - signed 64 y)).

Lemma signed_negative w x : 0 < w -> in_range w x -> Z.testbit x (w - 1) = (signed w x <? 0).
Proof.
  intros Hw [H0 H1]. unfold signed.
  assert (2 ^ w = 2 ^ (w - 1) * 2) as E by (rewrite Z.mul_comm, <- Z.pow_succ_r by lia; f_equal; lia).
  rewrite Z.testbit_odd, Z.shiftr_div_pow2 by lia. destruct (Z.leb_spec (2 ^ (w - 1)) x).
  - replace (x / 2 ^ (w - 1)) with 1; [destruct (Z.ltb_spec (x - 2 ^ w) 0); [done|lia]|].
    apply Z.div_unique with (x - 2 ^ (w - 1)); lia.
  - rewrite Z.div_small by lia. destruct (Z.ltb_spec x 0); [lia|done].
Qed.

Lemma signed_cases x : in_range 64 x ->
  (x < 2 ^ 63 /\ signed 64 x = x) \/ (2 ^ 63 <= x /\ signed 64 x = x - 2 ^ 64).
Proof.
  intros _. unfold signed. change (64 - 1) with 63. destruct (Z.leb_spec (2 ^ 63) x); [right|left]; done.
Qed.

Lemma wrap_sub_cases x y : in_range 64 x -> in_range 64 y ->
  (y <= x /\ u64 (x - y) = x - y) \/ (x < y /\ u64 (x - y) = x - y + 2 ^ 64).
Proof.
  unfold in_range. intros Hx Hy. unfold u64, wrap. destruct (Z.leb_spec y x); [left|right]; (split; [lia|]).
  - apply Z.mod_small. lia.
  - rewrite <- (Z_mod_plus_full _ 1), Z.mod_small; lia.
Qed.

Definition condition_of_flags (n z c v : bool) (k : Z) : bool :=
  match k with
  | 0 => z | 1 => negb z | 2 => c | 3 => negb c | 4 => n | 5 => negb n | 6 => v | 7 => negb v
  | 8 => c && negb z | 9 => negb (c && negb z)
  | 10 => Bool.eqb n v | 11 => negb (Bool.eqb n v)
  | 12 => Bool.eqb n v && negb z | _ => negb (Bool.eqb n v && negb z)
  end.

Ltac each_condition H :=
  match type of H with
  | 0 <= ?c <= 13 =>
      assert (c = 0 \/ c = 1 \/ c = 2 \/ c = 3 \/ c = 4 \/ c = 5 \/ c = 6 \/ c = 7 \/ c = 8 \/ c = 9 \/
        c = 10 \/ c = 11 \/ c = 12 \/ c = 13) as H' by lia;
      clear H; repeat (destruct H' as [-> | H']); [..|subst c]
  end.

Lemma cond_holds_flags n z c v m k : 0 <= k <= 13 ->
  cond_holds (set_nzcv n z c v m) k = condition_of_flags n z c v k.
Proof. intros Hk. each_condition Hk; reflexivity. Qed.

(** The conditions read the flags of a subtraction as the relations they name. *)
Lemma conditions_of_subtraction x y c m : in_range 64 x -> in_range 64 y -> 0 <= c <= 13 ->
  cond_holds (subtraction_flags x y m) c = relation c x y.
Proof.
  intros Hx Hy Hc. unfold subtraction_flags. rewrite cond_holds_flags by done.
  pose proof (signed_cases x Hx). pose proof (signed_cases y Hy).
  pose proof (wrap_sub_cases x y Hx Hy).
  pose proof (signed_cases (u64 (x - y)) ltac:(by apply wrap_range)).
  unfold in_range in *. remember (signed 64 (u64 (x - y))) as s eqn:Es.
  destruct (Z.ltb_spec s 0), (Z.eqb_spec x y), (Z.leb_spec y x), (Z.eqb_spec s (signed 64 x - signed 64 y)).
  all: try (exfalso; clear Es; lia).
  all: each_condition Hc; cbn [condition_of_flags relation]; rewrite <- ?Es; cbn [Bool.eqb negb andb];
    clear Es; symmetry; rewrite ?negb_true_iff, ?negb_false_iff, ?Z.leb_le, ?Z.ltb_lt, ?Z.leb_gt, ?Z.ltb_ge,
      ?Z.eqb_eq, ?Z.eqb_neq; lia.
Qed.

Lemma signed_lnot y : in_range 64 y -> signed 64 (wrap 64 (Z.lnot y)) = - 1 - signed 64 y.
Proof.
  intros Hy. assert (wrap 64 (Z.lnot y) = 2 ^ 64 - 1 - y) as ->.
  { unfold in_range in Hy. unfold wrap, Z.lnot. rewrite <- (Z_mod_plus_full _ 1), Z.mod_small; lia. }
  unfold in_range in Hy. unfold signed. change (64 - 1) with 63.
  destruct (Z.leb_spec (2 ^ 63) y), (Z.leb_spec (2 ^ 63) (2 ^ 64 - 1 - y)); lia.
Qed.

(** Subtraction by adding the complement sets the flags of the subtraction. *)
Lemma subtract_flags x y k m : in_range 64 x -> in_range 64 y ->
  add_with_carry 64 x (wrap 64 (Z.lnot y)) 1 true k m =
  subtraction_flags x y (k (u64 (x - y)) m).
Proof.
  intros Hx Hy. unfold add_with_carry, subtraction_flags. rewrite wrap_add_lnot by done.
  change (wrap 64 (x - y)) with (u64 (x - y)). pose proof (wrap_sub_cases x y Hx Hy) as Hw.
  rewrite (signed_negative 64) by (try apply wrap_range; done).
  rewrite signed_lnot by done.
  replace (signed 64 x + (-1 - signed 64 y) + 1) with (signed 64 x - signed 64 y) by lia.
  assert (wrap 64 (Z.lnot y) = 2 ^ 64 - 1 - y) as ->.
  { unfold in_range in Hy. unfold wrap, Z.lnot. rewrite <- (Z_mod_plus_full _ 1), Z.mod_small; lia. }
  f_equal; unfold in_range in *; apply eq_true_iff_eq; rewrite ?Z.eqb_eq, ?Z.leb_le; lia.
Qed.

Lemma compare_correct l r : reg l -> reg r ->
  implements (compare l r) (fun m => subtraction_flags (rX m true l) (rX m true r) m).
Proof.
  intros Hl Hr. unfold compare. enter. eapply implements_emit; [solve [decode_word]|]. intros m.
  cbn [orb andb exec logic_of shift_of]. rewrite wrap_shiftl_0. cbn [width].
  rewrite subtract_flags by apply (rX_range _ true). done.
Qed.

Lemma compareZero_correct v : reg v ->
  implements (compareZero v) (fun m => subtraction_flags (rX m true v) 0 m).
Proof.
  intros Hv. unfold compareZero. enter. eapply implements_emit; [solve [decode_word]|]. intros m.
  cbn [orb andb exec logic_of shift_of]. rewrite (rSP_reg v true) by done. cbn [width].
  rewrite subtract_flags by (apply (rX_range _ true) || (unfold in_range; lia)). done.
Qed.

Lemma conditionalSelect_correct d t f c : reg d -> reg t -> reg f -> 0 <= c <= 13 ->
  implements (conditionalSelect d t f c)
    (fun m => set_x d (if cond_holds m c then rX m true t else rX m true f) m) /\
  implements (conditionalSelect32 d t f c)
    (fun m => set_x d (if cond_holds m c then rX m false t else rX m false f) m).
Proof.
  intros Hd Ht Hf Hc. assert (in_range 4 c) by (unfold in_range; lia).
  split; [unfold conditionalSelect|unfold conditionalSelect32]; enter;
    (apply implements_if; [unfold SignedLessOrEqual; ltb_false|]); emit_word; rewrite wX_reg by done;
    do 2 f_equal; destruct (cond_holds m c); rewrite ?Z.add_0_r; apply wrap_small, rX_range.
Qed.

Lemma cond_holds_inverse m c : 0 <= c <= 13 -> cond_holds m (Z.lxor c 1) = negb (cond_holds m c).
Proof.
  intros Hc. destruct m as [? ? n z cc v ?].
  each_condition Hc; unfold cond_holds; cbn; by rewrite ?negb_involutive.
Qed.

Lemma conditionalSet_correct d c : reg d -> 0 <= c <= 13 ->
  implements (conditionalSet d c) (fun m => set_x d (Z.b2z (cond_holds m c)) m).
Proof.
  intros Hd Hc. unfold conditionalSet. enter. apply implements_if; [unfold SignedLessOrEqual; ltb_false|].
  cbv zeta. assert (in_range 4 (Z.lxor c 1)) by (each_condition Hc; split; done).
  emit_word. rewrite wX_reg, cond_holds_inverse by done.
  by destruct (cond_holds m c).
Qed.

(** C29: a comparison followed by a conditional instruction computes the named
    relation: after [compare] (or [compareZero]) the flags make every
    [BranchCondition] hold exactly when the unsigned, signed, sign or overflow
    relation it is named after holds of the 64-bit operands, so that
    [conditionalSet] writes 1 or 0 accordingly (its inverted encoding included)
    and [conditionalSelect] chooses the matching operand; a value that is not a
    condition is rejected by both. *)
Theorem conditions_correct l r d t f c : reg l -> reg r -> reg d -> reg t -> reg f -> 0 <= c ->
  let holds m := relation c (rX m true l) (rX m true r) in
  let flags m := subtraction_flags (rX m true l) (rX m true r) m in
  if c <=? 13 then
    (forall m, cond_holds (flags m) c = holds m) /\
    implements (compare l r ;;; conditionalSet d c) (fun m => set_x d (Z.b2z (holds m)) (flags m)) /\
    implements (compareZero l ;;; conditionalSet d c)
      (fun m => set_x d (Z.b2z (relation c (rX m true l) 0)) (subtraction_flags (rX m true l) 0 m)) /\
    implements (compare l r ;;; conditionalSelect d t f c)
      (fun m => set_x d (if holds m then rX m true t else rX m true f) (flags m)) /\
    implements (compare l r ;;; conditionalSelect32 d t f c)
      (fun m => set_x d (if holds m then rX m false t else rX m false f) (flags m))
  else forall a,
    conditionalSet d c a = (a, Throw (invalid_argument "invalid ARM64 conditional-set condition")) /\
    conditionalSelect d t f c a =
      (a, Throw (invalid_argument "invalid ARM64 conditional-select condition")).
Proof.
  intros Hl Hr Hd Ht Hf Hc. cbv zeta. destruct (Z.leb_spec c 13).
  - assert (forall x m, in_range 64 x -> cond_holds (subtraction_flags (rX m true l) x m) c =
      relation c (rX m true l) x) as Hcond.
    { intros x m Hx. apply conditions_of_subtraction; [apply (rX_range _ true)|done|lia]. }
    assert (forall m, in_range 64 (rX m true r)) as Hr64 by (intros m; apply (rX_range _ true)).
    split; [intros m; by apply Hcond|].
    split_and!; (eapply implements_ext; [|apply implements_bind;
      [by apply compare_correct || by apply compareZero_correct|
       by apply conditionalSet_correct || by apply conditionalSelect_correct]]);
      intros m; cbn beta; by rewrite Hcond.
  - intros a. unfold conditionalSet, conditionalSelect. rewrite !require_ok by done.
    unfold SignedLessOrEqual. by destruct (Z.ltb_spec 13 c); [|lia].
Qed.

Lemma conditions_correct_witness :
  implements (compare 1 2 ;;; conditionalSet 0 11)
    (fun m => set_x 0 (Z.b2z (signed 64 (rX m true 1) <? signed 64 (rX m true 2)))
      (subtraction_flags (rX m true 1) (rX m true 2) m)).
Proof.
  exact (proj1 (proj2 (conditions_correct 1 2 0 0 0 11 ltac:(unfold reg; lia) ltac:(unfold reg; lia)
    ltac:(unfold reg; lia) ltac:(unfold reg; lia) ltac:(unfold reg; lia) ltac:(lia)))).
Defined.

(** ** Loads and stores *)

(** The range an offset must be in for an access of [2 ^ scale] bytes. *)
Definition offset_ok (scale off : Z) : bool := (off mod 2 ^ scale =? 0) && (off <=? 4095 * 2 ^ scale).

Lemma scaled_offset scale off : 0 <= scale -> 0 <= off -> offset_ok scale off = true ->
  in_range 12 (off / 2 ^ scale) /\ Z.shiftl (off / 2 ^ scale) scale = off.
Proof.
  unfold offset_ok. intros Hs Ho H. apply andb_prop in H as [H1 H2].
  apply Z.eqb_eq in H1. apply Z.leb_le in H2.
  pose proof (Z.pow_pos_nonneg 2 scale ltac:(lia) Hs) as Hp. split.
  - split; [by apply Z.div_pos|]. apply Z.div_lt_upper_bound; [done|]. change (2 ^ 12) with 4096. lia.
  - rewrite Z.shiftl_mul_pow2 by done. pose proof (Z.div_mod off (2 ^ scale)). lia.
Qed.

Lemma rSP_base m b : reg b -> rSP m b = reg_of m b.
Proof. unfold reg, rSP. intros. by destruct (Z.eqb_spec b 31); [lia|]. Qed.

Lemma offset_guard scale off : offset_ok scale off = negb (negb (off mod 2 ^ scale =? 0) || (4095 * 2 ^ scale <? off)).
Proof. unfold offset_ok. by rewrite negb_orb, negb_involutive, <- Z.leb_antisym. Qed.

Lemma doubleword_correct d b off : reg d -> reg b -> 0 <= off -> offset_ok 3 off = true ->
  implements (ldr d b off) (fun m => set_x d (u64 (load_word m (reg_of m b + off) 8)) m) /\
  implements (str d b off) (fun m => store_word (reg_of m b + off) 8 (rX m true d) m).
Proof.
  intros Hd Hb Ho Hoff. destruct (scaled_offset 3 off ltac:(lia) Ho Hoff) as [Hr He]. rewrite offset_guard in Hoff.
  unfold ldr, str. change (2 ^ 3) with 8 in *. change (4095 * 8) with 32760 in *.
  destruct (_ || _); [done|]. split; enter; emit_word; rewrite rSP_base, ?wX_reg, He by done; done.
Qed.

Lemma word_correct d b off : reg d -> reg b -> 0 <= off -> offset_ok 2 off = true ->
  implements (ldr32 d b off) (fun m => set_x d (u64 (load_word m (reg_of m b + off) 4)) m).
Proof.
  intros Hd Hb Ho Hoff. destruct (scaled_offset 2 off ltac:(lia) Ho Hoff) as [Hr He]. rewrite offset_guard in Hoff.
  unfold ldr32. change (2 ^ 2) with 4 in *. change (4095 * 4) with 16380 in *.
  destruct (_ || _); [done|]. enter; emit_word; rewrite rSP_base, ?wX_reg, He by done; done.
Qed.

(** C30: loads and stores address exactly the bytes asked for: for an offset
    that is a multiple of the access size and fits the scaled 12-bit field, the
    word loads (zero-extended) or stores the 8, 4 or 1 little-endian bytes at
    base + offset; any other offset is rejected with nothing emitted. *)
Theorem memory_instructions_correct d b off : reg d -> reg b -> 0 <= off ->
  (if offset_ok 3 off then
     implements (ldr d b off) (fun m => set_x d (u64 (load_word m (reg_of m b + off) 8)) m) /\
     implements (str d b off) (fun m => store_word (reg_of m b + off) 8 (rX m true d) m)
   else forall a,
     ldr d b off a = (a, Throw (invalid_argument "64-bit LDR offset must be aligned and <= 32760")) /\
     str d b off a = (a, Throw (invalid_argument "64-bit STR offset must be aligned and <= 32760"))) /\
  (if offset_ok 2 off then
     implements (ldr32 d b off) (fun m => set_x d (u64 (load_word m (reg_of m b + off) 4)) m)
   else forall a,
     ldr32 d b off a = (a, Throw (invalid_argument "32-bit LDR offset must be aligned and <= 16380"))) /\
  (if offset_ok 0 off then
     implements (ldr8 d b off) (fun m => set_x d (u64 (load_word m (reg_of m b + off) 1)) m) /\
     implements (str8 d b off) (fun m => store_word (reg_of m b + off) 1 (rX m true d) m)
   else forall a,
     ldr8 d b off a = (a, Throw (invalid_argument "8-bit LDR offset must be <= 4095")) /\
     str8 d b off a = (a, Throw (invalid_argument "8-bit STR offset must be <= 4095"))).
Proof.
  intros Hd Hb Ho. split; [|split].
  - pose proof (doubleword_correct d b off Hd Hb Ho) as Hok. rewrite offset_guard in *.
    destruct (_ || _) eqn:E; cbn [negb] in *; [|by apply Hok].
    intros a. unfold ldr, str. rewrite !require_ok by done. change (2 ^ 3) with 8 in E.
    change (4095 * 8) with 32760 in E. by rewrite E.
  - pose proof (word_correct d b off Hd Hb Ho) as Hok. rewrite offset_guard in *.
    destruct (_ || _) eqn:E; cbn [negb] in *; [|by apply Hok].
    intros a. unfold ldr32. rewrite !require_ok by done. change (2 ^ 2) with 4 in E.
    change (4095 * 4) with 16380 in E. by rewrite E.
  - pose proof (scaled_offset 0 off ltac:(lia) Ho) as Hsc. rewrite offset_guard in *.
    unfold ldr8, str8. change (2 ^ 0) with 1 in *. rewrite Z.mod_1_r in *. change (4095 * 1) with 4095 in *.
    cbn [Z.eqb negb orb] in *. destruct (_ <? _); cbn [negb]; [intros a; by rewrite !require_ok|].
    rewrite Z.div_1_r in Hsc. destruct (Hsc eq_refl) as [Hr He].
    split; enter; emit_word; rewrite rSP_base, ?wX_reg, He by done; done.
Qed.

Lemma memory_instructions_correct_witness :
  implements (ldr 5 0 136) (fun m => set_x 5 (u64 (load_word m (reg_of m 0 + 136) 8)) m).
Proof.
  exact (proj1 (proj1 (memory_instructions_correct 5 0 136 ltac:(unfold reg; lia) ltac:(unfold reg; lia)
    ltac:(lia)))).
Defined.
