(* ===== verification/AssemblerStack.v ===== *)
(** The register save and restore sequences of the assembler: every push/pop
    pair is transparent to the code between them. *)
From S2P Require Import Prelude AArch64 Assembler AssemblerSpec.

(** ** Bytes in memory *)

Lemma u64_inj x y : u64 x = u64 y -> Z.abs (x - y) < 2 ^ 64 -> x = y.
Proof.
  intros H Hd. unfold u64, wrap in H. change (2 ^ 64) with 18446744073709551616 in *.
  pose proof (Z.div_mod x 18446744073709551616). pose proof (Z.div_mod y 18446744073709551616). nia.
Qed.

Lemma u64_u64_sub x y : u64 (u64 x - y) = u64 (x - y).
Proof. unfold u64, wrap. by rewrite Zminus_mod_idemp_l. Qed.
Lemma u64_u64_add x y : u64 (u64 x + y) = u64 (x + y).
Proof. unfold u64, wrap. by rewrite Zplus_mod_idemp_l. Qed.

Lemma store_bytes_other bs : forall f a x, (forall i, 0 <= i < zlength bs -> x <> u64 (a + i)) ->
  store_bytes f a bs !! x = f !! x.
Proof.
  induction bs as [|b bs IH]; intros f a x H; cbn [store_bytes]; [done|].
  unfold zlength in *. cbn [length] in H. rewrite IH.
  - apply lookup_insert_ne. intros E. apply (H 0); [lia|]. by rewrite Z.add_0_r.
  - intros i Hi E. apply (H (i + 1)); [lia|]. rewrite E. f_equal. lia.
Qed.

Lemma load_bytes_ext f g n : forall a,
  (forall i, 0 <= i < Z.of_nat n -> f !! u64 (a + i) = g !! u64 (a + i)) ->
  load_bytes f a n = load_bytes g a n.
Proof.
  induction n as [|n IH]; intros a H; cbn [load_bytes]; [done|]. f_equal.
  - specialize (H 0 ltac:(lia)). rewrite Z.add_0_r in H. by rewrite H.
  - apply IH. intros i Hi. replace (a + 1 + i) with (a + (i + 1)) by lia. apply H. lia.
Qed.

Lemma load_stored bs : forall f a, zlength bs <= 2 ^ 63 ->
  load_bytes (store_bytes f a bs) a (length bs) = bs.
Proof.
  induction bs as [|b bs IH]; intros f a Hl; cbn [store_bytes load_bytes length]; [done|].
  unfold zlength in *. cbn [length] in Hl. f_equal; [|apply IH; unfold zlength; lia].
  rewrite store_bytes_other; [by rewrite lookup_insert_eq|].
  intros i Hi E. unfold zlength in Hi. assert (a = a + 1 + i); [|lia]. apply u64_inj; [done|]. lia.
Qed.

(** ** Pushes and pops of register pairs *)

Fixpoint run_list (l : list instr) (m : machine) : option machine :=
  match l with [] => Some m | i :: l' => m' ← exec i m; run_list l' m' end.

Lemma run_list_app l1 l2 m : run_list (l1 ++ l2) m = run_list l1 m ≫= run_list l2.
Proof.
  revert m. induction l1 as [|i l IH]; intros m; cbn; [done|]. destruct (exec i m); cbn; [|done]. apply IH.
Qed.

Lemma run_decoded ws l m : map decode ws = map Some l -> run ws m = run_list l m.
Proof.
  revert l m. induction ws as [|w ws IH]; intros [|i l] m H; try done. cbn in *.
  injection H as -> H. cbn. destruct (exec i m); cbn; [|done]. by apply IH.
Qed.

Definition push_pair (p : Z * Z) : instr := StorePairPre p.1 p.2 31 (-2).
Definition pop_pair (p : Z * Z) : instr := LoadPairPost p.1 p.2 31 2.
Definition pair_regs (ps : list (Z * Z)) : list Z := flat_map (fun p => [p.1; p.2]) ps.

(** The addresses of the [n] bytes below a stack pointer. *)
Definition below (sp n a : Z) : Prop := exists i, 1 <= i <= n /\ a = u64 (sp - i).
Definition nzcv (m : machine) : bool * bool * bool * bool := (m.(mN), m.(mZ), m.(mC), m.(mV)).

Lemma rX_nonzero m r : reg r -> rX m true r = u64 (reg_of m r).
Proof. unfold reg, rX. intros. by destruct (Z.eqb_spec r 31); [lia|]. Qed.

Lemma push_pair_spec r s m : reg r -> reg s -> exists m1,
  exec (push_pair (r, s)) m = Some m1 /\ m1.(msp) = u64 (m.(msp) - 16) /\ m1.(mx) = m.(mx) /\
  nzcv m1 = nzcv m /\ (forall a, ~ below m.(msp) 16 a -> m1.(mmem) !! a = m.(mmem) !! a) /\
  load_word m1 m1.(msp) 8 = rX m true r /\ load_word m1 (m1.(msp) + 8) 8 = rX m true s.
Proof.
  intros Hr Hs. eexists. split; [done|]. cbn -[le_bytes load_bytes store_bytes].
  change (-2 * 8) with (-16). replace (m.(msp) + -16) with (m.(msp) - 16) by lia.
  assert (u64 (u64 (msp m - 16)) = u64 (msp m - 16)) as Ei by apply (wrap_idem 64).
  change (wrap 64 (u64 (msp m - 16))) with (u64 (u64 (msp m - 16))). rewrite Ei. split; [done|]. split; [done|]. split; [done|].
  assert (forall v, zlength (le_bytes 8 v) = 8) as Hl by (intros; unfold zlength; by rewrite length_le_bytes).
  split; [|split].
  - intros a Ha. rewrite !store_bytes_other; [done|..]; rewrite Hl; intros i Hi ->; apply Ha.
    + exists (16 - i). split; [lia|]. rewrite u64_u64_add. f_equal. lia.
    + exists (8 - i). split; [lia|]. rewrite <- Z.add_assoc, u64_u64_add. f_equal. lia.
  - unfold load_word. cbn [mmem set_mem set_sp]. etransitivity; [|apply (le_value_le_bytes 8); apply (rX_range m true)].
    f_equal. erewrite load_bytes_ext; [|intros i Hi; apply store_bytes_other].
    + change 8%nat with (length (le_bytes 8 (rX m true r))) at 2. apply load_stored. by rewrite Hl.
    + intros j Hj E. rewrite Hl in Hj. apply u64_inj in E; lia.
  - unfold load_word. cbn [mmem set_mem set_sp]. etransitivity; [|apply (le_value_le_bytes 8); apply (rX_range m true)].
    f_equal. change 8%nat with (length (le_bytes 8 (rX m true s))) at 2. apply load_stored. by rewrite Hl.
Qed.

Lemma pop_pair_spec r s m x y : reg r -> reg s ->
  load_word m m.(msp) 8 = x -> load_word m (m.(msp) + 8) 8 = y -> in_range 64 x -> in_range 64 y ->
  exists m1, exec (pop_pair (r, s)) m = Some m1 /\ m1.(msp) = u64 (m.(msp) + 16) /\
    m1.(mmem) = m.(mmem) /\ nzcv m1 = nzcv m /\
    forall q, reg q -> rX m1 true q = if q =? s then y else if q =? r then x else rX m true q.
Proof.
  intros Hr Hs Hx Hy Rx Ry. eexists. split; [done|]. cbn -[load_word wX].
  change (rSP m 31) with m.(msp). rewrite Hx, Hy, !wX_reg by done. cbn [width set_sp set_x msp mmem nzcv].
  rewrite (wrap_small 64 x), (wrap_small 64 y) by done. repeat (split; [done|]).
  intros q Hq. rewrite !rX_nonzero by done. unfold reg_of. cbn [mx set_sp set_x].
  destruct (Z.eqb_spec q s) as [->|]; [rewrite lookup_insert_eq; by apply wrap_small|].
  rewrite lookup_insert_ne by done.
  destruct (Z.eqb_spec q r) as [->|]; [rewrite lookup_insert_eq; by apply wrap_small|].
  by rewrite lookup_insert_ne by done.
Qed.

Definition pushes (ps : list (Z * Z)) : list instr := map push_pair ps.
Definition pops (ps : list (Z * Z)) : list instr := map pop_pair (rev ps).
Definition frame_size (ps : list (Z * Z)) : Z := 16 * zlength ps.

(** What the machine looks like between a push and the matching pop: the stack
    pointer is lower, the frame holds the registers, nothing else changed. *)
Definition saved_from (ps : list (Z * Z)) (m m1 : machine) : Prop :=
  m1.(msp) = u64 (m.(msp) - frame_size ps) /\ m1.(mx) = m.(mx) /\ nzcv m1 = nzcv m /\
  forall a, ~ below m.(msp) (frame_size ps) a -> m1.(mmem) !! a = m.(mmem) !! a.

(** A later machine that kept the stack pointer and the frame. *)
Definition frame_kept (ps : list (Z * Z)) (m m1 m2 : machine) : Prop :=
  m2.(msp) = m1.(msp) /\ forall a, below m.(msp) (frame_size ps) a -> m2.(mmem) !! a = m1.(mmem) !! a.

(** The result of the pop: the saved registers of [m], the rest of [m2]. *)
Definition restored (ps : list (Z * Z)) (m m2 m3 : machine) : Prop :=
  m3.(msp) = m.(msp) /\ m3.(mmem) = m2.(mmem) /\ nzcv m3 = nzcv m2 /\
  forall q, reg q -> rX m3 true q = if bool_decide (q ∈ pair_regs ps) then rX m true q else rX m2 true q.

Definition transparent (push pop : list instr) (ps : list (Z * Z)) : Prop :=
  forall m, in_range 64 m.(msp) ->
  exists m1, run_list push m = Some m1 /\ saved_from ps m m1 /\
  forall m2, frame_kept ps m m1 m2 -> exists m3, run_list pop m2 = Some m3 /\ restored ps m m2 m3.

Lemma below_shift sp n a : 0 <= n -> below (u64 (sp - 16)) n a -> below sp (n + 16) a.
Proof.
  intros Hn (i & Hi & ->). exists (i + 16). split; [lia|]. rewrite u64_u64_sub. f_equal. lia.
Qed.

Lemma below_disjoint sp n i : 0 <= n <= 2 ^ 32 -> 0 <= i < 16 ->
  ~ below (u64 (sp - 16)) n (u64 (u64 (sp - 16) + i)).
Proof. intros Hn Hi (j & Hj & E). apply u64_inj in E; lia. Qed.

Lemma save_restore ps : Forall (fun p => reg p.1 /\ reg p.2) ps -> zlength ps <= 2 ^ 20 ->
  transparent (pushes ps) (pops ps) ps.
Proof.
  unfold zlength. induction ps as [|[r s] ps IH]; intros Hps Hlen m Hsp.
  - exists m. split; [done|]. unfold saved_from, frame_kept, restored, frame_size. cbn.
    rewrite Z.sub_0_r. split; [by rewrite u64_small|].
    intros m2 [H1 H2]. exists m2. split; [done|]. done.
  - apply Forall_cons in Hps as [[Hr Hs] Hps]. cbn [length fst snd] in *.
    destruct (push_pair_spec r s m Hr Hs) as (ma & E1 & S1 & X1 & F1 & M1 & L1 & L2).
    destruct (IH Hps ltac:(lia) ma) as (m1 & E2 & (S2 & X2 & F2 & M2) & Hpop); [rewrite S1; apply u64_range|].
    assert (frame_size ((r, s) :: ps) = frame_size ps + 16) as Hfs by (unfold frame_size, zlength; cbn [length]; lia).
    assert (0 <= frame_size ps <= 2 ^ 32) as Hf0 by (unfold frame_size, zlength; lia).
    exists m1. split; [|split].
    + cbn [pushes map run_list]. rewrite E1. cbn. exact E2.
    + unfold saved_from. rewrite Hfs. split; [rewrite S2, S1, u64_u64_sub; f_equal; lia|].
      split; [by rewrite X2|]. split; [by rewrite F2|]. intros a Ha. rewrite M2, M1; [done|..].
      * intros (i & Hi & E). apply Ha. exists i. split; [lia|done].
      * intros Hb. apply Ha, below_shift; [lia|]. by rewrite <- S1.
    + intros m2 [K1 K2]. rewrite Hfs in K2.
      destruct (Hpop m2) as (m3 & E3 & S3 & N3 & F3 & R3).
      { split; [done|]. intros a Ha. apply K2, below_shift; [lia|]. by rewrite <- S1. }
      assert (forall i, 0 <= i < 16 -> m3.(mmem) !! u64 (ma.(msp) + i) = ma.(mmem) !! u64 (ma.(msp) + i)) as Hmem.
      { intros i Hi. rewrite N3, K2, M2; [done|..].
        - rewrite S1. by apply below_disjoint.
        - exists (16 - i). split; [lia|]. rewrite S1, u64_u64_add. f_equal. lia. }
      destruct (pop_pair_spec r s m3 (rX m true r) (rX m true s)) as (m4 & E4 & S4 & N4 & F4 & R4); try done.
      { rewrite S3, <- L1. unfold load_word. f_equal. apply load_bytes_ext. intros i Hi. apply Hmem. lia. }
      { rewrite S3, <- L2. unfold load_word. f_equal. apply load_bytes_ext. intros i Hi.
        rewrite <- Z.add_assoc. apply Hmem. lia. }
      1,2: apply (rX_range m true).
      exists m4. split; [|split; [|split; [|split]]].
      * unfold pops. cbn [rev]. rewrite map_app, run_list_app. unfold pops in E3. rewrite E3. cbn.
        cbn in E4. by rewrite E4.
      * rewrite S4, S3, S1, u64_u64_add. replace (msp m - 16 + 16) with (msp m) by lia. by apply u64_small.
      * by rewrite N4.
      * by rewrite F4.
      * intros q Hq. rewrite R4, R3 by done. cbn [pair_regs flat_map app fst snd].
        assert (forall q, rX ma true q = rX m true q) as Hma by (intros; unfold rX, reg_of; by rewrite X1).
        destruct (Z.eqb_spec q s) as [->|Hqs]; [rewrite bool_decide_eq_true_2; [done|right; left]|].
        destruct (Z.eqb_spec q r) as [->|Hqr]; [rewrite bool_decide_eq_true_2; [done|left]|].
        rewrite Hma. rewrite (bool_decide_ext (q ∈ r :: s :: pair_regs ps) (q ∈ pair_regs ps)); [done|].
        rewrite !elem_of_cons. split; [intros [? | [? | ?]]; done|by right; right].
Qed.

(** ** The sequences of the assembler *)

Definition save_sequences : list (M Assembler unit * M Assembler unit * list (Z * Z)) :=
  [ (pushFrameRecord, popFrameRecord, [(29, 30)]);
    (pushCalleeSaved19And20, popCalleeSaved19And20, [(19, 20)]);
    (pushCalleeSaved19Through22, popCalleeSaved19Through22, [(19, 20); (21, 22)]);
    (pushCalleeSaved19Through24, popCalleeSaved19Through24, [(19, 20); (21, 22); (23, 24)]);
    (pushCalleeSaved25Through28, popCalleeSaved25Through28, [(25, 26); (27, 28)]);
    (pushCallerSaved8Through15, popCallerSaved8Through15, [(8, 9); (10, 11); (12, 13); (14, 15)]);
    (pushCallerSaved5Through15, popCallerSaved5Through15,
      [(5, 6); (7, 30); (8, 9); (10, 11); (12, 13); (14, 15)]) ].

(** C31: register saves and restores are transparent: each push sequence lowers
    the stack pointer by exactly 16 bytes a pair (so it stays 16-byte aligned),
    changes no register or flag and only writes below the old stack pointer;
    after any code that keeps the stack pointer and those bytes, the matching
    pop sequence restores the stack pointer and exactly the named registers,
    leaving every other register, the flags and memory as that code left them. *)
Theorem save_sequences_transparent push pop ps : (push, pop, ps) ∈ save_sequences ->
  exists ws1 ws2, emits push ws1 /\ emits pop ws2 /\
  forall m, in_range 64 m.(msp) ->
  exists m1, run ws1 m = Some m1 /\ saved_from ps m m1 /\
  forall m2, frame_kept ps m m1 m2 -> exists m3, run ws2 m2 = Some m3 /\ restored ps m m2 m3.
Proof.
  intros Hin.
  assert (exists ws1 ws2, emits push ws1 /\ emits pop ws2 /\
    map decode ws1 = map Some (pushes ps) /\ map decode ws2 = map Some (pops ps) /\
    Forall (fun p => reg p.1 /\ reg p.2) ps /\ zlength ps <= 2 ^ 20) as
    (ws1 & ws2 & H1 & H2 & D1 & D2 & Hps & Hlen).
  { unfold save_sequences in Hin.
    repeat (apply elem_of_cons in Hin as [[= -> -> ->]|Hin]); [..|by apply elem_of_nil in Hin].
    all: do 2 eexists; split; [repeat first [apply emits_emit | eapply emits_bind]|].
    all: split; [repeat first [apply emits_emit | eapply emits_bind]|].
    all: split; [vm_compute; reflexivity|]; split; [vm_compute; reflexivity|].
    all: split; [repeat constructor; unfold reg; cbn; lia|vm_compute; discriminate]. }
  exists ws1, ws2. split; [done|]. split; [done|]. intros m Hm.
  destruct (save_restore ps Hps Hlen m Hm) as (m1 & E1 & S1 & Hpop).
  exists m1. split; [by rewrite (run_decoded _ _ _ D1)|]. split; [done|]. intros m2 Hm2.
  destruct (Hpop m2 Hm2) as (m3 & E3 & R3). exists m3. split; [|done]. by rewrite (run_decoded _ _ _ D2).
Qed.

Lemma save_sequences_transparent_witness :
  exists ws1 ws2, emits pushCalleeSaved19And20 ws1 /\ emits popCalleeSaved19And20 ws2 /\
  forall m, in_range 64 m.(msp) -> exists m1, run ws1 m = Some m1 /\
    m1.(msp) = u64 (m.(msp) - 16) /\
    exists m3, run ws2 m1 = Some m3 /\ m3.(msp) = m.(msp).
Proof.
  assert ((pushCalleeSaved19And20, popCalleeSaved19And20, [(19, 20)]) ∈ save_sequences) as H
    by (right; left).
  destruct (save_sequences_transparent _ _ _ H) as (ws1 & ws2 & E1 & E2 & R).
  exists ws1, ws2. split; [exact E1|]. split; [exact E2|]. intros m Hm.
  destruct (R m Hm) as (m1 & R1 & S1 & P). exists m1. split; [exact R1|]. split; [apply S1|].
  destruct (P m1 (conj eq_refl (fun _ _ => eq_refl))) as (m3 & R3 & S3).
  exists m3. split; [exact R3|apply S3].
Defined.
