(* ===== verification/AssemblerBranch.v ===== *)
(** Labels, branches and fixups of the assembler: [finish] turns every recorded
    branch into an A64 branch whose displacement is the distance to its label. *)
From S2P Require Import Prelude AArch64 Assembler AssemblerSpec.

(** ** Branch words *)

(** The word of a fixup with a displacement in its field. *)
Definition with_displacement (kind : FixupKind) (word displacement : Z) : Z :=
  Z.lor word (Z.shiftl (Z.land (u32 displacement) (Z.ones (fixup_bits kind))) (fixup_position kind)).

Definition in_reach (kind : FixupKind) (displacement : Z) : Prop :=
  - 2 ^ (fixup_bits kind - 1) <= displacement < 2 ^ (fixup_bits kind - 1).

(** [word] is a branch of this kind waiting for its displacement. *)
Definition branch_word (kind : FixupKind) (word : Z) (f : Z -> instr) : Prop :=
  forall displacement, in_reach kind displacement ->
    decode (with_displacement kind word displacement) = Some (f displacement).

Lemma field_value kind displacement : in_reach kind displacement ->
  in_range (fixup_bits kind) (Z.land (u32 displacement) (Z.ones (fixup_bits kind))) /\
  signed (fixup_bits kind) (Z.land (u32 displacement) (Z.ones (fixup_bits kind))) = displacement.
Proof.
  intros Hd. set (w := fixup_bits kind) in *.
  assert (0 < w <= 32) as Hw by (subst w; destruct kind; cbn; lia).
  rewrite <- wrap_land by lia. unfold u32. rewrite wrap_wrap_le by lia.
  split; [apply wrap_range; lia|]. unfold in_reach in Hd. fold w in Hd.
  assert (2 ^ w = 2 ^ (w - 1) * 2) as E by (rewrite Z.mul_comm, <- Z.pow_succ_r by lia; f_equal; lia).
  unfold signed, wrap. destruct (Z.ltb_spec displacement 0).
  - rewrite <- (Z_mod_plus_full _ 1), Z.mod_small by lia.
    destruct (Z.leb_spec (2 ^ (w - 1)) (displacement + 1 * 2 ^ w)); lia.
  - rewrite Z.mod_small by lia. destruct (Z.leb_spec (2 ^ (w - 1)) displacement); lia.
Qed.

Ltac branch_decode :=
  let displacement := fresh "displacement" in let Hd := fresh in
  let Hrange := fresh in let Hs := fresh in let x := fresh "x" in
  intros displacement Hd; destruct (field_value _ _ Hd) as [Hrange Hs];
  unfold with_displacement; cbn [fixup_bits fixup_position] in *; clear Hd; revert Hrange Hs;
  generalize (Z.land (u32 displacement) (Z.ones 26)), (Z.land (u32 displacement) (Z.ones 19)),
    (Z.land (u32 displacement) (Z.ones 14));
  intros ? ? ? Hrange Hs; rewrite <- Hs.

Lemma b_word : branch_word Branch26 0x14000000 Branch.
Proof. branch_decode. decode_word. Qed.

Lemma compare_branch_word (nonzero : bool) r : reg r ->
  branch_word CompareBranch19 (Z.lor (if nonzero then 0xB5000000 else 0xB4000000) r)
    (CompareBranch nonzero r).
Proof.
  intros Hr. prove_regs. rewrite <- (Z.shiftl_0_r r) at 1. destruct nonzero; branch_decode; decode_word.
Qed.

Lemma conditional_word c : 0 <= c <= 13 ->
  branch_word CompareBranch19 (Z.lor 0x54000000 c) (BranchCond c).
Proof.
  intros Hc. assert (in_range 4 c) by (unfold in_range; lia). rewrite <- (Z.shiftl_0_r c) at 1.
  branch_decode. decode_word.
Qed.

Lemma test_word (nonzero : bool) r bit : reg r -> 0 <= bit < 64 ->
  branch_word TestBranch14
    (Z.lor (Z.lor (Z.lor (if nonzero then 0x37000000 else 0x36000000) (Z.shiftl (Z.shiftr bit 5) 31))
      (Z.shiftl (Z.land bit 0x1F) 19)) r)
    (TestBranch nonzero r bit).
Proof.
  intros Hr Hb. prove_regs. rewrite <- (Z.shiftl_0_r r) at 1.
  assert (in_range 1 (Z.shiftr bit 5) /\ in_range 5 (Z.land bit 31) /\
    bit = Z.land bit 31 + Z.shiftl (Z.shiftr bit 5) 5) as (H1 & H2 & E).
  { change 31 with (Z.ones 5). rewrite Z.land_ones, Z.shiftl_mul_pow2, Z.shiftr_div_pow2 by lia.
    change (2 ^ 5) with 32. unfold in_range. change (2 ^ 5) with 32. change (2 ^ 1) with 2.
    pose proof (Z.div_mod bit 32). pose proof (Z.mod_pos_bound bit 32).
    assert (bit / 32 < 2) by (apply Z.div_lt_upper_bound; lia).
    assert (0 <= bit / 32) by (apply Z.div_pos; lia). lia. }
  revert H1 H2 E. generalize (Z.shiftr bit 5), (Z.land bit 31). intros hi lo H1 H2 ->.
  destruct nonzero; branch_decode; decode_word.
Qed.

(** ** What the branch functions record *)

(** [c] appends one word, waiting for the displacement to [label], and records
    its fixup; nothing else changes but the listing. *)
Definition records_branch (c : M Assembler unit) (kind : FixupKind) (label : Z) (f : Z -> instr) : Prop :=
  forall a, label < zlength a.(labelPositions_) ->
    exists word, in_range 32 word /\ branch_word kind word f /\
      (c a).2 = Ok tt /\ (c a).1.(words_) = a.(words_) ++ [word] /\
      (c a).1.(fixups_) = a.(fixups_) ++ [mkFixup kind (length a.(words_)) label] /\
      (c a).1.(labelPositions_) = a.(labelPositions_) /\
      (c a).1.(pointerRelocations_) = a.(pointerRelocations_).

Lemma emitFixup_records word text kind label f : in_range 32 word -> branch_word kind word f ->
  records_branch (emitFixup word text kind label) kind label f.
Proof. intros Hw Hb a _. by exists word. Qed.

Lemma records_require r c kind label f : reg r -> records_branch c kind label f ->
  records_branch (requireRegister r ;;; c) kind label f.
Proof. intros Hr H a Ha. rewrite require_ok by done. by apply H. Qed.

Lemma records_guard (g : Assembler -> bool) e c kind label f :
  (forall a, label < zlength a.(labelPositions_) -> g a = false) -> records_branch c kind label f ->
  records_branch (do! a <- get; if g a then throw e else c) kind label f.
Proof. intros Hg H a Ha. unfold bind, get. rewrite Hg by done. by apply H. Qed.

Lemma unknown_guard label a : label < zlength a.(labelPositions_) -> (zlength a.(labelPositions_) <=? label) = false.
Proof. intros. apply Z.leb_gt. lia. Qed.

Lemma shiftl_range k x s w : in_range k x -> 0 <= k -> 0 <= s -> s + k <= w -> in_range w (Z.shiftl x s).
Proof.
  intros [H0 H1] Hk Hs Hw. rewrite Z.shiftl_mul_pow2 by done. split; [lia|].
  apply Z.lt_le_trans with (2 ^ k * 2 ^ s); [nia|]. rewrite <- Z.pow_add_r by lia.
  apply Z.pow_le_mono_r; lia.
Qed.

(** The branch functions: the fixup kind, the A64 branch meant and whether the
    operands are acceptable. *)
Definition branch_functions (label r c bit : Z) :
    list (M Assembler unit * FixupKind * (Z -> instr) * bool) :=
  [ (b label, Branch26, Branch, true);
    (cbz r label, CompareBranch19, CompareBranch false r, r <=? 30);
    (cbnz r label, CompareBranch19, CompareBranch true r, r <=? 30);
    (bConditional c label, CompareBranch19, BranchCond c, c <=? 13);
    (tbz r bit label, TestBranch14, TestBranch false r bit, (r <=? 30) && (bit <? 64));
    (tbnz r bit label, TestBranch14, TestBranch true r bit, (r <=? 30) && (bit <? 64)) ].

Lemma test_word_range base r bit : in_range 32 base -> reg r -> 0 <= bit < 64 ->
  in_range 32 (Z.lor (Z.lor (Z.lor base (Z.shiftl (Z.shiftr bit 5) 31)) (Z.shiftl (Z.land bit 0x1F) 19)) r).
Proof.
  intros Hbase Hr Hb. assert (in_range 32 r) by (unfold reg, in_range in *; lia).
  repeat apply lor_range; try done.
  - apply (shiftl_range 1); try lia. rewrite Z.shiftr_div_pow2 by lia. change (2 ^ 5) with 32.
    split; [apply Z.div_pos; lia|]. apply Z.div_lt_upper_bound; lia.
  - apply (shiftl_range 5); try lia. change 31 with (Z.ones 5). rewrite Z.land_ones by lia.
    apply Z.mod_pos_bound. lia.
Qed.

Lemma branch_accepted label r c bit op kind f : 0 <= r -> 0 <= c -> 0 <= bit ->
  (op, kind, f, true) ∈ branch_functions label r c bit -> records_branch op kind label f.
Proof.
  intros Hr Hc Hb Hin. unfold branch_functions in Hin.
  assert (forall a, bit < 64 -> label < zlength a.(labelPositions_) ->
    (64 <=? bit) || (zlength a.(labelPositions_) <=? label) = false) as Hguard.
  { intros a Hbit Ha. rewrite unknown_guard by done. by destruct (Z.leb_spec 64 bit); [lia|]. }
  assert (forall x, 0 <= x <= 30 -> in_range 32 x) as H32 by (intros; unfold in_range; lia).
  repeat (apply elem_of_cons in Hin as [E|Hin]); [..|by apply elem_of_nil in Hin];
    pose proof (f_equal snd E) as Hv; cbn [snd] in Hv; injection E; intros; subst op kind f; clear E;
    try (symmetry in Hv; rewrite ?andb_true_iff, ?Z.leb_le, ?Z.ltb_lt in Hv);
    unfold b, cbz, cbnz, tbz, tbnz; try (apply records_require; [unfold reg; lia|]);
    try (lazymatch goal with |- records_branch (bConditional _ _) _ _ _ => fail | _ => idtac end;
      apply (records_guard (fun a => _)); [try apply unknown_guard; intros; apply Hguard; lia|]).
  - by apply emitFixup_records; [|apply b_word].
  - apply emitFixup_records; [apply lor_range; try done; apply H32; lia|by apply (compare_branch_word false)].
  - apply emitFixup_records; [apply lor_range; try done; apply H32; lia|by apply (compare_branch_word true)].
  - intros a Ha. unfold bConditional, bind, get. rewrite unknown_guard by done.
    change (zlength suffixes) with 14. destruct (Z.leb_spec 14 c); [lia|].
    apply emitFixup_records; [apply lor_range; try done; apply H32; lia|by apply conditional_word|done].
  - apply emitFixup_records; [apply test_word_range|apply (test_word false)]; unfold reg; done || lia.
  - apply emitFixup_records; [apply test_word_range|apply (test_word true)]; unfold reg; done || lia.
Qed.

Lemma branch_rejected label r c bit op kind f valid a : 0 <= r ->
  (op, kind, f, valid) ∈ branch_functions label r c bit ->
  valid = false \/ zlength a.(labelPositions_) <= label ->
  exists what, op a = (a, Throw (invalid_argument what)).
Proof.
  intros Hr Hin Hbad. unfold branch_functions in Hin.
  repeat (apply elem_of_cons in Hin as [[= -> -> -> ->]|Hin]); [..|by apply elem_of_nil in Hin];
    unfold b, cbz, cbnz, tbz, tbnz, bConditional.
  all: try (destruct (Z.leb_spec r 30);
    [rewrite require_ok by (unfold reg; lia)|rewrite require_fail by lia; by eexists]); cbn [andb] in *.
  all: unfold bind, get; destruct (Z.leb_spec (zlength (labelPositions_ a)) label);
    rewrite ?orb_true_r; try (by eexists); destruct Hbad as [Hbad|]; try lia; try done.
  - change (zlength suffixes) with 14. destruct (Z.leb_spec 14 c); [by eexists|].
    apply Z.leb_gt in Hbad. lia.
  - apply Z.ltb_ge in Hbad. destruct (Z.leb_spec 64 bit); [by eexists|lia].
  - apply Z.ltb_ge in Hbad. destruct (Z.leb_spec 64 bit); [by eexists|lia].
Qed.

(** Every branch function records what it means: with a known label and
    acceptable operands, [b], [cbz], [cbnz], [bConditional], [tbz] and [tbnz]
    append one word and one fixup, and that word becomes, with any displacement
    in reach of its kind in its field, exactly the A64 branch on the intended
    test with that displacement; an unknown label, register, condition or bit is
    rejected and nothing is emitted. *)
Theorem branches_recorded label r c bit op kind f valid : 0 <= r -> 0 <= c -> 0 <= bit ->
  (op, kind, f, valid) ∈ branch_functions label r c bit ->
  (valid = true -> records_branch op kind label f) /\
  (forall a, valid = false \/ zlength a.(labelPositions_) <= label ->
     exists what, op a = (a, Throw (invalid_argument what))).
Proof.
  intros Hr Hc Hb Hin. split.
  - intros ->. by apply (branch_accepted label r c bit).
  - intros a. by apply (branch_rejected label r c bit op kind f valid).
Qed.

Lemma branches_recorded_witness :
  records_branch (tbnz 20 40 0) TestBranch14 0 (TestBranch true 20 40).
Proof.
  assert ((tbnz 20 40 0, TestBranch14, TestBranch true 20 40, true) ∈ branch_functions 0 20 0 40) as H
    by (do 5 right; left).
  exact (proj1 (branches_recorded 0 20 0 40 _ _ _ _ ltac:(lia) ltac:(lia) ltac:(lia) H) eq_refl).
Defined.

(** ** The invariant of a program under construction *)

Definition fixup_ok (labels : list (option Z)) (words : list Z) (fixup : Fixup) : Prop :=
  0 <= fixup.(f_label) < zlength labels /\
  exists word f, words !! fixup.(f_wordIndex) = Some word /\ branch_word fixup.(f_kind) word f.

Definition position_ok (n : Z) (position : option Z) : Prop :=
  match position with Some target => 0 <= target <= n | None => True end.

Record wf (a : Assembler) : Prop := mkWf {
  wf_words : Forall (in_range 32) a.(words_);
  wf_fixups : Forall (fixup_ok a.(labelPositions_) a.(words_)) a.(fixups_);
  wf_distinct : NoDup (map f_wordIndex a.(fixups_));
  wf_positions : Forall (position_ok (zlength a.(words_))) a.(labelPositions_)
}.

Lemma fixup_ok_mono labels labels' words ws fixup : zlength labels <= zlength labels' ->
  fixup_ok labels words fixup -> fixup_ok labels' (words ++ ws) fixup.
Proof.
  intros Hl [Hlab (w & f & Hw & Hf)]. split; [lia|]. exists w, f. split; [|done].
  by apply lookup_app_l_Some.
Qed.

Lemma fixup_index labels words fixup : fixup_ok labels words fixup -> (f_wordIndex fixup < length words)%nat.
Proof. intros [_ (w & f & Hw & _)]. by eapply lookup_lt_Some. Qed.

Lemma position_ok_mono n n' p : n <= n' -> position_ok n p -> position_ok n' p.
Proof. destruct p; cbn; lia. Qed.

Lemma wf_new r : wf (newAssembler r).
Proof. split; cbn; constructor. Qed.

Lemma wf_emits c ws a : emits c ws -> Forall (in_range 32) ws -> wf a -> wf (c a).1.
Proof.
  intros (texts & _ & E) Hws [W F D P]. rewrite E. split; cbn.
  - by apply Forall_app.
  - eapply Forall_impl; [exact F|]. intros. by eapply fixup_ok_mono.
  - done.
  - eapply Forall_impl; [exact P|]. intros p. apply position_ok_mono. unfold zlength. rewrite length_app. lia.
Qed.

Lemma wf_records c kind label f a : records_branch c kind label f -> 0 <= label < zlength a.(labelPositions_) ->
  wf a -> wf (c a).1.
Proof.
  intros H Hl [W F D P]. destruct (H a ltac:(lia)) as (w & Hw & Hb & _ & Ew & Ef & El & _).
  split; rewrite ?Ew, ?Ef, ?El.
  - apply Forall_app. split; [done|]. by apply Forall_singleton.
  - apply Forall_app. split.
    + eapply Forall_impl; [exact F|]. intros. by eapply fixup_ok_mono.
    + apply Forall_singleton. split; [done|]. exists w, f. split; [|done]. cbn. by apply list_lookup_middle.
  - rewrite map_app. apply NoDup_app. split; [done|]. split; [|apply NoDup_singleton].
    intros i Hi. apply list_elem_of_fmap in Hi as (fx & -> & Hfx). cbn. intros Hin%list_elem_of_singleton.
    rewrite Forall_forall in F. apply F, fixup_index in Hfx. lia.
  - eapply Forall_impl; [exact P|]. intros p. apply position_ok_mono. unfold zlength. rewrite length_app. lia.
Qed.

Lemma wf_set_labels a labels : zlength a.(labelPositions_) <= zlength labels ->
  Forall (position_ok (zlength a.(words_))) labels -> wf a -> wf (set_labels labels a).
Proof.
  intros Hl Hp [W F D P]. split; cbn; try done.
  eapply Forall_impl; [exact F|]. intros fx Hfx. rewrite <- (app_nil_r (words_ a)). by eapply fixup_ok_mono.
Qed.

Lemma wf_makeLabel a : wf a -> wf (makeLabel a).1.
Proof.
  intros H. unfold makeLabel, bind, get. destruct (_ <? _); [done|]. cbn. apply wf_set_labels; [| |done].
  - unfold zlength. rewrite length_app. lia.
  - apply Forall_app. split; [apply H|]. by apply Forall_singleton.
Qed.

Lemma wf_bindLabel label a : wf a -> wf (bindLabel label a).1.
Proof.
  intros H. unfold bindLabel, bind, get. destruct (_ !! _) as [[|]|] eqn:E; [done| |done]. cbn.
  apply wf_set_labels; [| |done].
  - unfold zlength. by rewrite length_insert.
  - apply Forall_insert; [apply H|]. cbn. unfold zlength. lia.
Qed.

(** C16: the assembler's invariant holds throughout: from the empty program on,
    creating, binding and branching to labels (accepted or rejected) and
    emitting ordinary words keep every word 32 bits wide, every fixup on its own
    branch word with a known label, and every bound label inside the program. *)
Theorem program_invariant a : wf a ->
  (forall r, wf (newAssembler r)) /\ wf (makeLabel a).1 /\ (forall label, wf (bindLabel label a).1) /\
  (forall c ws, emits c ws -> Forall (in_range 32) ws -> wf (c a).1) /\
  forall label r c bit op kind f valid, 0 <= label -> 0 <= r -> 0 <= c -> 0 <= bit ->
  (op, kind, f, valid) ∈ branch_functions label r c bit -> wf (op a).1.
Proof.
  intros Hwf. split; [apply wf_new|]. split; [by apply wf_makeLabel|].
  split; [intros; by apply wf_bindLabel|]. split; [intros; by eapply wf_emits|].
  intros label r c bit op kind f valid Hl Hr Hc Hb Hin.
  destruct (Z.leb_spec (zlength a.(labelPositions_)) label).
  { destruct (branch_rejected _ _ _ _ _ _ _ _ a Hr Hin) as [w ->]; [by right|done]. }
  destruct valid.
  - eapply wf_records; [by apply (branch_accepted label r c bit)|lia|done].
  - destruct (branch_rejected _ _ _ _ _ _ _ _ a Hr Hin) as [w ->]; [by left|done].
Qed.

Lemma program_invariant_witness : wf (b 0 (makeLabel (newAssembler false)).1).1.
Proof.
  assert (wf (makeLabel (newAssembler false)).1) as H.
  { apply wf_makeLabel, wf_new. }
  apply (proj2 (proj2 (proj2 (proj2 (program_invariant _ H)))) 0 0 0 0 _ _ _ _
    ltac:(lia) ltac:(lia) ltac:(lia) ltac:(lia) ltac:(left)).
Defined.

(** ** Resolution *)

(** The outcome of the fixup loop: every word in place, or the first failure. *)
Definition resolved (labels : list (option Z)) (fixups : list Fixup) (words words' : list Z) : Prop :=
  length words' = length words /\
  (forall i, i ∉ map f_wordIndex fixups -> words' !! i = words !! i) /\
  forall fixup, fixup ∈ fixups -> exists target word,
    labels !! Z.to_nat fixup.(f_label) = Some (Some target) /\
    words !! fixup.(f_wordIndex) = Some word /\
    in_reach fixup.(f_kind) (target - Z.of_nat fixup.(f_wordIndex)) /\
    words' !! fixup.(f_wordIndex) =
      Some (with_displacement fixup.(f_kind) word (target - Z.of_nat fixup.(f_wordIndex))).

Definition unresolvable (labels : list (option Z)) (fixup : Fixup) (e : exn) : Prop :=
  (labels !! Z.to_nat fixup.(f_label) = Some None /\
   e = runtime_error "ARM64 branch targets an unbound label") \/
  exists target, labels !! Z.to_nat fixup.(f_label) = Some (Some target) /\
    ~ in_reach fixup.(f_kind) (target - Z.of_nat fixup.(f_wordIndex)) /\ e = fixup_error fixup.(f_kind).

Lemma apply_fixup_spec labels fixup words : 0 <= fixup.(f_label) < zlength labels ->
  (fixup.(f_wordIndex) < length words)%nat ->
  match apply_fixup labels fixup words with
  | Ok words' => exists target word,
      labels !! Z.to_nat fixup.(f_label) = Some (Some target) /\
      words !! fixup.(f_wordIndex) = Some word /\
      in_reach fixup.(f_kind) (target - Z.of_nat fixup.(f_wordIndex)) /\
      words' = <[fixup.(f_wordIndex) :=
        with_displacement fixup.(f_kind) word (target - Z.of_nat fixup.(f_wordIndex))]> words
  | Throw e => unresolvable labels fixup e
  | Undefined => False
  end.
Proof.
  intros Hl Hw. unfold apply_fixup.
  destruct (labels !! Z.to_nat (f_label fixup)) as [[target|]|] eqn:El.
  - assert (0 < fixup_bits fixup.(f_kind)) as Hbits by (by destruct (f_kind fixup)).
    rewrite Z.shiftl_1_l. cbv zeta.
    destruct (Z.ltb_spec (target - Z.of_nat (f_wordIndex fixup)) (- 2 ^ (fixup_bits (f_kind fixup) - 1)));
      [right; exists target; split; [done|]; split; [unfold in_reach; lia|done]|].
    destruct (Z.ltb_spec (2 ^ (fixup_bits (f_kind fixup) - 1) - 1) (target - Z.of_nat (f_wordIndex fixup)));
      [right; exists target; split; [done|]; split; [unfold in_reach; lia|done]|].
    cbn [orb]. apply lookup_lt_is_Some_2 in Hw as [word Hw]. rewrite Hw.
    exists target, word. split; [done|]. split; [done|]. split; [unfold in_reach; lia|done].
  - by left.
  - apply lookup_ge_None in El. unfold zlength in Hl. lia.
Qed.

Lemma apply_fixups_spec labels fixups : forall words,
  Forall (fun fx => 0 <= fx.(f_label) < zlength labels /\ (fx.(f_wordIndex) < length words)%nat) fixups ->
  NoDup (map f_wordIndex fixups) ->
  match apply_fixups labels fixups words with
  | Ok words' => resolved labels fixups words words'
  | Throw e => exists fixup, fixup ∈ fixups /\ unresolvable labels fixup e
  | Undefined => False
  end.
Proof.
  induction fixups as [|fx fixups IH]; intros words HF HD; cbn [apply_fixups].
  { split; [done|]. split; [done|]. intros fixup Hin. by apply elem_of_nil in Hin. }
  apply Forall_cons in HF as [[Hl Hw] HF]. cbn [map] in HD. apply NoDup_cons in HD as [Hfresh HD].
  pose proof (apply_fixup_spec labels fx words Hl Hw) as H1.
  destruct (apply_fixup labels fx words) as [words1| |]; cbn; [|exists fx; split; [left|done]|done].
  destruct H1 as (target & word & El & Ew & Hreach & ->).
  specialize (IH (<[f_wordIndex fx := with_displacement (f_kind fx) word (target - Z.of_nat (f_wordIndex fx))]> words)).
  rewrite length_insert in IH. specialize (IH HF HD).
  destruct (apply_fixups _ _ _) as [words'| |]; [| |done].
  - destruct IH as (L & Hout & Hin). split; [by rewrite L, length_insert|]. split.
    + intros i Hi. cbn [map] in Hi. apply not_elem_of_cons in Hi as [Hi1 Hi2].
      rewrite Hout by done. by apply list_lookup_insert_ne.
    + intros fixup [-> |Hfx]%elem_of_cons.
      * exists target, word. split; [done|]. split; [done|]. split; [done|].
        rewrite Hout by done. by apply list_lookup_insert_eq.
      * destruct (Hin fixup Hfx) as (t & w & E1 & E2 & E3 & E4). exists t, w.
        split; [done|]. split; [|done]. rewrite list_lookup_insert_ne in E2; [done|].
        intros E. apply Hfresh. rewrite E. apply list_elem_of_fmap. by exists fixup.
  - destruct IH as (fixup & Hfx & Hu). exists fixup. split; [by right|done].
Qed.

(** The word the bytes of a program hold at an index. *)
Definition word_at (bytes : list Z) (i : nat) : Z := le_value (take 4 (drop (4 * i) bytes)).

Lemma word_bytes_le word : word_bytes word = le_bytes 4 word.
Proof.
  unfold word_bytes. cbn [le_bytes]. change 0xFF with (Z.ones 8). rewrite !Z.land_ones by lia.
  rewrite !Z.shiftr_div_pow2 by lia. change (2 ^ 8) with 256.
  replace (2 ^ 16) with (256 * 256) by done. replace (2 ^ 24) with (256 * (256 * 256)) by done.
  by rewrite <- !Z.div_div by lia.
Qed.

Lemma word_at_concat words : forall i w, words !! i = Some w -> in_range 32 w ->
  word_at (concat (map word_bytes words)) i = w.
Proof.
  unfold word_at. induction words as [|v words IH]; intros [|i] w Hi Hw; try done; cbn [map concat].
  - injection Hi as ->. rewrite word_bytes_le. change (4 * 0)%nat with 0%nat.
    rewrite drop_0, take_app_length' by done. by apply (le_value_le_bytes 4).
  - rewrite drop_app_ge by (cbn; lia). cbn [length word_bytes].
    replace (4 * S i - 4)%nat with (4 * i)%nat by lia. by apply IH.
Qed.

Lemma length_program_bytes words : zlength (concat (map word_bytes words)) = 4 * zlength words.
Proof.
  unfold zlength. induction words as [|v words IH]; [done|]. cbn [map concat]. rewrite length_app.
  cbn [length word_bytes]. lia.
Qed.

Lemma with_displacement_range kind word displacement : in_range 32 word ->
  in_range 32 (with_displacement kind word displacement).
Proof.
  intros Hw. apply lor_range; [lia|done|]. eapply (shiftl_range (fixup_bits kind)).
  - rewrite Z.land_ones by (by destruct kind). apply Z.mod_pos_bound. by destruct kind.
  - by destruct kind.
  - by destruct kind.
  - by destruct kind.
Qed.

Lemma wf_resolvable a : wf a ->
  Forall (fun fx => 0 <= fx.(f_label) < zlength a.(labelPositions_) /\
                    (fx.(f_wordIndex) < length a.(words_))%nat) a.(fixups_).
Proof.
  intros H. eapply Forall_impl; [apply H|]. intros fx Hfx. split; [apply Hfx|]. by eapply fixup_index.
Qed.

Lemma resolved_target a fx target : wf a ->
  a.(labelPositions_) !! Z.to_nat fx.(f_label) = Some (Some target) -> 0 <= target <= zlength a.(words_).
Proof. intros H E. by apply (Forall_lookup_1 _ _ _ _ (wf_positions a H) E). Qed.

(** C15: [finish] resolves every branch: for a program built by the assembler,
    either the bytes returned are the little-endian words in order, every
    ordinary word unchanged and every branch word decoding to the branch
    recorded for it with displacement target - source for a target inside the
    program; or an error names an unbound label, a displacement out of reach of
    its branch, or a program too large.  No access is out of bounds. *)
Theorem finish_correct a : wf a ->
  match finish a with
  | Ok p =>
      p.(p_listing) = a.(listing_) /\ p.(p_pointerRelocations) = a.(pointerRelocations_) /\
      zlength p.(p_bytes) = 4 * zlength a.(words_) /\
      (forall i word, i ∉ map f_wordIndex a.(fixups_) -> a.(words_) !! i = Some word ->
         word_at p.(p_bytes) i = word) /\
      forall fixup, fixup ∈ a.(fixups_) -> exists target,
        a.(labelPositions_) !! Z.to_nat fixup.(f_label) = Some (Some target) /\
        0 <= target <= zlength a.(words_) /\
        forall word f, a.(words_) !! fixup.(f_wordIndex) = Some word -> branch_word fixup.(f_kind) word f ->
          decode (word_at p.(p_bytes) fixup.(f_wordIndex)) =
            Some (f (target - Z.of_nat fixup.(f_wordIndex)))
  | Throw e => 2 ^ 62 <= zlength a.(words_) \/
      exists fixup, fixup ∈ a.(fixups_) /\ unresolvable a.(labelPositions_) fixup e
  | Undefined => False
  end.
Proof.
  intros Hwf. unfold finish. destruct (Z.ltb_spec (2 ^ 63 - 1) (zlength a.(words_))); [left; lia|].
  pose proof (apply_fixups_spec _ _ _ (wf_resolvable a Hwf) (wf_distinct a Hwf)) as H1.
  destruct (apply_fixups _ _ _) as [ws| |]; cbn -[word_at]; [|by right|done].
  destruct H1 as (L & Hout & Hin). assert (zlength ws = zlength a.(words_)) as Hz by (unfold zlength; by rewrite L).
  rewrite Hz. destruct (Z.ltb_spec (UINT64_MAX / 4) (zlength a.(words_))) as [Hbig|_].
  { left. change (UINT64_MAX / 4) with (2 ^ 62 - 1) in Hbig. lia. }
  cbn [p_bytes p_listing p_pointerRelocations]. split; [done|]. split; [done|].
  split; [by rewrite length_program_bytes, Hz|].
  assert (forall i word, a.(words_) !! i = Some word -> in_range 32 word) as Hr
    by (intros i word E; exact (Forall_lookup_1 _ _ _ _ (wf_words a Hwf) E)).
  split.
  - intros i word Hi E. apply word_at_concat; [by rewrite Hout|by eapply Hr].
  - intros fixup Hfx. destruct (Hin fixup Hfx) as (target & w & El & Ew & Hreach & E).
    exists target. split; [done|]. split; [by eapply resolved_target|].
    intros word f Ew' Hf. rewrite Ew in Ew'. injection Ew' as <-.
    erewrite word_at_concat; [by apply Hf|exact E|]. apply with_displacement_range. by eapply Hr.
Qed.

(** A forward branch over one instruction, with a label bound after it. *)
Definition sampleProgram : Assembler :=
  (bindLabel 0 ((emit 0xD65F03C0 "ret") ((b 0) ((makeLabel) (newAssembler false)).1).1).1).1.

Lemma sampleProgram_wf : wf sampleProgram.
Proof.
  apply wf_bindLabel. eapply wf_emits; [apply emits_emit|by repeat constructor|].
  eapply wf_records; [apply (branch_accepted 0 0 0 0); [done..|left]|done|]. apply wf_makeLabel, wf_new.
Qed.

Lemma finish_correct_witness :
  exists p, finish sampleProgram = Ok p /\ p.(p_bytes) = [2; 0; 0; 20; 192; 3; 95; 214] /\
    decode (word_at p.(p_bytes) 0) = Some (Branch 2).
Proof.
  pose proof (finish_correct sampleProgram sampleProgram_wf) as H.
  remember (finish sampleProgram) as r eqn:E. vm_compute in E. subst r.
  eexists. split; [reflexivity|]. split; [reflexivity|].
  destruct H as (_ & _ & _ & _ & H).
  destruct (H (mkFixup Branch26 0 0) ltac:(left)) as (target & El & _ & Hd).
  vm_compute in El. injection El as <-.
  exact (Hd 0x14000000 Branch eq_refl b_word).
Defined.
