(* ===== verification/IR.v ===== *)
(** The intermediate representation ([src/ir/IR.h]): a basic block of
    operations over numbered values.

    A [ValueId] is its number, a [guest::GuestAddress] its value and an
    [XmmRegister] its encoding, all as [Z].  Enumerators carry a prefix because
    Rocq's constructors share one name space. *)
From S2P Require Import Prelude X86State.

Inductive Width : Type := I8 | I16 | I32 | I64.

(** The enumerator's value: the width in bits. *)
Definition Width_bits (w : Width) : Z := match w with I8 => 8 | I16 => 16 | I32 => 32 | I64 => 64 end.

Inductive Opcode : Type :=
| Op_Constant | Op_ReadGuestReg | Op_ReadGuestGsBase | Op_WriteGuestReg | Op_ConditionalMoveGuestReg
| Op_ReadGuestXmmLane | Op_ReadGuestYmmUpperLane | Op_WriteGuestXmmLane | Op_WriteGuestYmmUpperLane
| Op_WriteGuestXmmByte | Op_WriteGuestXmmDword | Op_Add | Op_Sub | Op_ShiftLeft
| Op_ShiftRightLogical | Op_ShiftRightArithmetic | Op_MultiplyLow | Op_MultiplyHighUnsigned
| Op_MultiplyHighSigned | Op_ShiftRightDouble | Op_And | Op_Or | Op_Xor | Op_SignExtend32
| Op_ByteSwap | Op_EvaluateCondition | Op_LoadGuest | Op_StoreGuest | Op_StoreGuestXmm
| Op_StoreGuestYmm | Op_LoadGuestXmm | Op_LoadGuestYmm | Op_LoadGuestSignExtendedBytesXmm
| Op_LoadGuestSignExtendedDwordsXmm | Op_XorGuestMemoryXmm | Op_AndGuestMemoryXmm
| Op_AddGuestMemoryXmm | Op_TestXmmBits | Op_CompareEqualGuestBytesXmm
| Op_CompareEqualGuestQwordsXmm | Op_CompareEqualXmmBytes | Op_CompareEqualXmmDwords
| Op_CompareEqualXmmQwords | Op_ShiftLeftXmmDwords | Op_AddXmmWords | Op_ComparePackedDoubleXmm
| Op_ArithmeticPackedDoubleXmm | Op_ArithmeticGuestMemoryPackedDoubleXmm
| Op_UnpackHighPackedSingleXmm | Op_UnpackHighGuestPackedSingleXmm | Op_HorizontalAddPackedDoubleXmm
| Op_HorizontalAddGuestPackedDoubleXmm | Op_UnpackLowPackedSingleXmm
| Op_UnpackLowGuestPackedSingleXmm | Op_UpdateUnorderedDoubleFlags | Op_UpdateUnorderedFloatFlags
| Op_ConvertIntToDoubleXmm | Op_ConvertDoubleToInt | Op_ConvertFloatToDoubleXmm
| Op_ConvertInt32x2ToDoubleXmm | Op_ScalarDoubleXmm | Op_AddXmmDwords | Op_HorizontalAddXmmDwords
| Op_AndNotXmm | Op_MoveXmmByteMask | Op_ShuffleXmmBytes | Op_ShuffleXmmDwords
| Op_AlignRightXmmBytes | Op_BlendXmmWords | Op_UnpackLowXmmWords | Op_BitScanForward
| Op_BitScanReverse | Op_RepeatMoveByte | Op_RepeatStore | Op_DivideUnsignedByte
| Op_DivideUnsignedDword | Op_DivideUnsignedQword | Op_DivideSignedDword | Op_Push
| Op_AddGuestMemory | Op_SubGuestMemory | Op_OrGuestMemory | Op_AndGuestMemory
| Op_ShiftLeftGuestMemory | Op_ShiftRightGuestMemory | Op_IncrementGuestMemory
| Op_DecrementGuestMemory | Op_CompareExchangeGuestMemory | Op_CompareExchangeGuestPair
| Op_ExchangeGuestMemory | Op_LockedAddGuestMemory | Op_LockedExchangeAddGuestMemory
| Op_LockedIncrementGuestMemory | Op_LockedDecrementGuestMemory | Op_LockedOrGuestMemory
| Op_LockedAndGuestMemory | Op_StoreGuestIdtr | Op_LoadFence | Op_WriteDirectionFlag | Op_StoreFence
| Op_ReadTimestampCounter | Op_Cpuid | Op_UpdateAddFlags | Op_UpdateAdcFlags | Op_UpdateSbbFlags
| Op_UpdateIncFlags | Op_UpdateDecFlags | Op_UpdateSubFlags | Op_UpdateLogicFlags
| Op_UpdateShiftLeftFlags | Op_UpdateShiftRightFlags | Op_UpdateShiftRightArithmeticFlags
| Op_UpdateRotateLeftFlags | Op_UpdateRotateRightFlags | Op_UpdateMultiplyFlags
| Op_UpdateSignedMultiplyFlags | Op_UpdateShiftRightDoubleFlags | Op_UpdateBitTestFlags
| Op_LockedBitSetGuestMemory | Op_ExitBlock.

Inductive ExitKind : Type :=
| Exit_Return | Exit_Direct | Exit_Conditional | Exit_Call | Exit_Syscall.

Inductive Condition : Type :=
| Cond_Overflow | Cond_NotOverflow | Cond_ParityEven | Cond_ParityOdd | Cond_Equal | Cond_NotEqual
| Cond_Below | Cond_AboveOrEqual | Cond_Above | Cond_BelowOrEqual | Cond_Sign | Cond_NotSign
| Cond_Less | Cond_GreaterOrEqual | Cond_LessOrEqual | Cond_Greater.

#[export] Instance Width_eq_dec : EqDecision Width.
Proof. solve_decision. Defined.
#[export] Instance ExitKind_eq_dec : EqDecision ExitKind.
Proof. solve_decision. Defined.

(** Opcodes compare through their position in the declaration. *)
Definition Opcode_index (o : Opcode) : nat :=
  match o with
  | Op_Constant => 0 | Op_ReadGuestReg => 1 | Op_ReadGuestGsBase => 2 | Op_WriteGuestReg => 3
  | Op_ConditionalMoveGuestReg => 4 | Op_ReadGuestXmmLane => 5 | Op_ReadGuestYmmUpperLane => 6
  | Op_WriteGuestXmmLane => 7 | Op_WriteGuestYmmUpperLane => 8 | Op_WriteGuestXmmByte => 9
  | Op_WriteGuestXmmDword => 10 | Op_Add => 11 | Op_Sub => 12 | Op_ShiftLeft => 13
  | Op_ShiftRightLogical => 14 | Op_ShiftRightArithmetic => 15 | Op_MultiplyLow => 16
  | Op_MultiplyHighUnsigned => 17 | Op_MultiplyHighSigned => 18 | Op_ShiftRightDouble => 19
  | Op_And => 20 | Op_Or => 21 | Op_Xor => 22 | Op_SignExtend32 => 23 | Op_ByteSwap => 24
  | Op_EvaluateCondition => 25 | Op_LoadGuest => 26 | Op_StoreGuest => 27 | Op_StoreGuestXmm => 28
  | Op_StoreGuestYmm => 29 | Op_LoadGuestXmm => 30 | Op_LoadGuestYmm => 31
  | Op_LoadGuestSignExtendedBytesXmm => 32 | Op_LoadGuestSignExtendedDwordsXmm => 33
  | Op_XorGuestMemoryXmm => 34 | Op_AndGuestMemoryXmm => 35 | Op_AddGuestMemoryXmm => 36
  | Op_TestXmmBits => 37 | Op_CompareEqualGuestBytesXmm => 38 | Op_CompareEqualGuestQwordsXmm => 39
  | Op_CompareEqualXmmBytes => 40 | Op_CompareEqualXmmDwords => 41 | Op_CompareEqualXmmQwords => 42
  | Op_ShiftLeftXmmDwords => 43 | Op_AddXmmWords => 44 | Op_ComparePackedDoubleXmm => 45
  | Op_ArithmeticPackedDoubleXmm => 46 | Op_ArithmeticGuestMemoryPackedDoubleXmm => 47
  | Op_UnpackHighPackedSingleXmm => 48 | Op_UnpackHighGuestPackedSingleXmm => 49
  | Op_HorizontalAddPackedDoubleXmm => 50 | Op_HorizontalAddGuestPackedDoubleXmm => 51
  | Op_UnpackLowPackedSingleXmm => 52 | Op_UnpackLowGuestPackedSingleXmm => 53
  | Op_UpdateUnorderedDoubleFlags => 54 | Op_UpdateUnorderedFloatFlags => 55
  | Op_ConvertIntToDoubleXmm => 56 | Op_ConvertDoubleToInt => 57 | Op_ConvertFloatToDoubleXmm => 58
  | Op_ConvertInt32x2ToDoubleXmm => 59 | Op_ScalarDoubleXmm => 60 | Op_AddXmmDwords => 61
  | Op_HorizontalAddXmmDwords => 62 | Op_AndNotXmm => 63 | Op_MoveXmmByteMask => 64
  | Op_ShuffleXmmBytes => 65 | Op_ShuffleXmmDwords => 66 | Op_AlignRightXmmBytes => 67
  | Op_BlendXmmWords => 68 | Op_UnpackLowXmmWords => 69 | Op_BitScanForward => 70
  | Op_BitScanReverse => 71 | Op_RepeatMoveByte => 72 | Op_RepeatStore => 73
  | Op_DivideUnsignedByte => 74 | Op_DivideUnsignedDword => 75 | Op_DivideUnsignedQword => 76
  | Op_DivideSignedDword => 77 | Op_Push => 78 | Op_AddGuestMemory => 79 | Op_SubGuestMemory => 80
  | Op_OrGuestMemory => 81 | Op_AndGuestMemory => 82 | Op_ShiftLeftGuestMemory => 83
  | Op_ShiftRightGuestMemory => 84 | Op_IncrementGuestMemory => 85 | Op_DecrementGuestMemory => 86
  | Op_CompareExchangeGuestMemory => 87 | Op_CompareExchangeGuestPair => 88
  | Op_ExchangeGuestMemory => 89 | Op_LockedAddGuestMemory => 90
  | Op_LockedExchangeAddGuestMemory => 91 | Op_LockedIncrementGuestMemory => 92
  | Op_LockedDecrementGuestMemory => 93 | Op_LockedOrGuestMemory => 94
  | Op_LockedAndGuestMemory => 95 | Op_StoreGuestIdtr => 96 | Op_LoadFence => 97
  | Op_WriteDirectionFlag => 98 | Op_StoreFence => 99 | Op_ReadTimestampCounter => 100
  | Op_Cpuid => 101 | Op_UpdateAddFlags => 102 | Op_UpdateAdcFlags => 103 | Op_UpdateSbbFlags => 104
  | Op_UpdateIncFlags => 105 | Op_UpdateDecFlags => 106 | Op_UpdateSubFlags => 107
  | Op_UpdateLogicFlags => 108 | Op_UpdateShiftLeftFlags => 109 | Op_UpdateShiftRightFlags => 110
  | Op_UpdateShiftRightArithmeticFlags => 111 | Op_UpdateRotateLeftFlags => 112
  | Op_UpdateRotateRightFlags => 113 | Op_UpdateMultiplyFlags => 114
  | Op_UpdateSignedMultiplyFlags => 115 | Op_UpdateShiftRightDoubleFlags => 116
  | Op_UpdateBitTestFlags => 117 | Op_LockedBitSetGuestMemory => 118 | Op_ExitBlock => 119
  end.
Definition all_opcodes : list Opcode :=
  [Op_Constant; Op_ReadGuestReg; Op_ReadGuestGsBase; Op_WriteGuestReg; Op_ConditionalMoveGuestReg;
   Op_ReadGuestXmmLane; Op_ReadGuestYmmUpperLane; Op_WriteGuestXmmLane; Op_WriteGuestYmmUpperLane;
   Op_WriteGuestXmmByte; Op_WriteGuestXmmDword; Op_Add; Op_Sub; Op_ShiftLeft; Op_ShiftRightLogical;
   Op_ShiftRightArithmetic; Op_MultiplyLow; Op_MultiplyHighUnsigned; Op_MultiplyHighSigned;
   Op_ShiftRightDouble; Op_And; Op_Or; Op_Xor; Op_SignExtend32; Op_ByteSwap; Op_EvaluateCondition;
   Op_LoadGuest; Op_StoreGuest; Op_StoreGuestXmm; Op_StoreGuestYmm; Op_LoadGuestXmm; Op_LoadGuestYmm;
   Op_LoadGuestSignExtendedBytesXmm; Op_LoadGuestSignExtendedDwordsXmm; Op_XorGuestMemoryXmm;
   Op_AndGuestMemoryXmm; Op_AddGuestMemoryXmm; Op_TestXmmBits; Op_CompareEqualGuestBytesXmm;
   Op_CompareEqualGuestQwordsXmm; Op_CompareEqualXmmBytes; Op_CompareEqualXmmDwords;
   Op_CompareEqualXmmQwords; Op_ShiftLeftXmmDwords; Op_AddXmmWords; Op_ComparePackedDoubleXmm;
   Op_ArithmeticPackedDoubleXmm; Op_ArithmeticGuestMemoryPackedDoubleXmm; Op_UnpackHighPackedSingleXmm;
   Op_UnpackHighGuestPackedSingleXmm; Op_HorizontalAddPackedDoubleXmm;
   Op_HorizontalAddGuestPackedDoubleXmm; Op_UnpackLowPackedSingleXmm; Op_UnpackLowGuestPackedSingleXmm;
   Op_UpdateUnorderedDoubleFlags; Op_UpdateUnorderedFloatFlags; Op_ConvertIntToDoubleXmm;
   Op_ConvertDoubleToInt; Op_ConvertFloatToDoubleXmm; Op_ConvertInt32x2ToDoubleXmm; Op_ScalarDoubleXmm;
   Op_AddXmmDwords; Op_HorizontalAddXmmDwords; Op_AndNotXmm; Op_MoveXmmByteMask; Op_ShuffleXmmBytes;
   Op_ShuffleXmmDwords; Op_AlignRightXmmBytes; Op_BlendXmmWords; Op_UnpackLowXmmWords;
   Op_BitScanForward; Op_BitScanReverse; Op_RepeatMoveByte; Op_RepeatStore; Op_DivideUnsignedByte;
   Op_DivideUnsignedDword; Op_DivideUnsignedQword; Op_DivideSignedDword; Op_Push; Op_AddGuestMemory;
   Op_SubGuestMemory; Op_OrGuestMemory; Op_AndGuestMemory; Op_ShiftLeftGuestMemory;
   Op_ShiftRightGuestMemory; Op_IncrementGuestMemory; Op_DecrementGuestMemory;
   Op_CompareExchangeGuestMemory; Op_CompareExchangeGuestPair; Op_ExchangeGuestMemory;
   Op_LockedAddGuestMemory; Op_LockedExchangeAddGuestMemory; Op_LockedIncrementGuestMemory;
   Op_LockedDecrementGuestMemory; Op_LockedOrGuestMemory; Op_LockedAndGuestMemory; Op_StoreGuestIdtr;
   Op_LoadFence; Op_WriteDirectionFlag; Op_StoreFence; Op_ReadTimestampCounter; Op_Cpuid;
   Op_UpdateAddFlags; Op_UpdateAdcFlags; Op_UpdateSbbFlags; Op_UpdateIncFlags; Op_UpdateDecFlags;
   Op_UpdateSubFlags; Op_UpdateLogicFlags; Op_UpdateShiftLeftFlags; Op_UpdateShiftRightFlags;
   Op_UpdateShiftRightArithmeticFlags; Op_UpdateRotateLeftFlags; Op_UpdateRotateRightFlags;
   Op_UpdateMultiplyFlags; Op_UpdateSignedMultiplyFlags; Op_UpdateShiftRightDoubleFlags;
   Op_UpdateBitTestFlags; Op_LockedBitSetGuestMemory; Op_ExitBlock].

Lemma nth_opcode o : nth (Opcode_index o) all_opcodes Op_Constant = o.
Proof. by destruct o. Qed.

#[export] Instance Opcode_eq_dec : EqDecision Opcode.
Proof.
  intros x y. destruct (decide (Opcode_index x = Opcode_index y)) as [E|E]; [left|right; by intros ->].
  rewrite <- (nth_opcode x), <- (nth_opcode y). by rewrite E.
Defined.
#[export] Instance Condition_eq_dec : EqDecision Condition.
Proof. solve_decision. Defined.

Definition ValueId : Type := Z.
Definition GuestAddress : Type := Z.
Definition XmmRegister : Type := Z.

Record Operation := mkOperation {
  o_opcode : Opcode;
  o_width : Width;
  o_guestRip : GuestAddress;
  o_result : option ValueId;
  o_lhs : option ValueId;
  o_rhs : option ValueId;
  o_third : option ValueId;
  o_guestRegister : option Register;
  o_guestXmmRegister : option XmmRegister;
  o_sourceGuestXmmRegister : option XmmRegister;
  o_target : option GuestAddress;
  o_fallthrough : option GuestAddress;
  o_condition : option Condition;
  o_exitKind : ExitKind;
  o_immediate : Z
}.

Record Block := mkBlock {
  b_start : GuestAddress;
  b_operations : list Operation;
  b_valueCount : Z
}.

(** ** Designated initialisers *)

(** [Operation{.opcode, .width, .guestRip}], the other members defaulted. *)
Definition new_operation (opcode : Opcode) (width : Width) (rip : GuestAddress) : Operation :=
  mkOperation opcode width rip None None None None None None None None None None Exit_Return 0.
Definition set_result (v : ValueId) (o : Operation) : Operation :=
  mkOperation o.(o_opcode) o.(o_width) o.(o_guestRip) (Some v) o.(o_lhs) o.(o_rhs) o.(o_third)
    o.(o_guestRegister) o.(o_guestXmmRegister) o.(o_sourceGuestXmmRegister) o.(o_target)
    o.(o_fallthrough) o.(o_condition) o.(o_exitKind) o.(o_immediate).
Definition set_lhs (v : ValueId) (o : Operation) : Operation :=
  mkOperation o.(o_opcode) o.(o_width) o.(o_guestRip) o.(o_result) (Some v) o.(o_rhs) o.(o_third)
    o.(o_guestRegister) o.(o_guestXmmRegister) o.(o_sourceGuestXmmRegister) o.(o_target)
    o.(o_fallthrough) o.(o_condition) o.(o_exitKind) o.(o_immediate).
Definition set_rhs (v : ValueId) (o : Operation) : Operation :=
  mkOperation o.(o_opcode) o.(o_width) o.(o_guestRip) o.(o_result) o.(o_lhs) (Some v) o.(o_third)
    o.(o_guestRegister) o.(o_guestXmmRegister) o.(o_sourceGuestXmmRegister) o.(o_target)
    o.(o_fallthrough) o.(o_condition) o.(o_exitKind) o.(o_immediate).
Definition set_third (v : ValueId) (o : Operation) : Operation :=
  mkOperation o.(o_opcode) o.(o_width) o.(o_guestRip) o.(o_result) o.(o_lhs) o.(o_rhs) (Some v)
    o.(o_guestRegister) o.(o_guestXmmRegister) o.(o_sourceGuestXmmRegister) o.(o_target)
    o.(o_fallthrough) o.(o_condition) o.(o_exitKind) o.(o_immediate).
Definition set_guestRegister (v : Register) (o : Operation) : Operation :=
  mkOperation o.(o_opcode) o.(o_width) o.(o_guestRip) o.(o_result) o.(o_lhs) o.(o_rhs) o.(o_third)
    (Some v) o.(o_guestXmmRegister) o.(o_sourceGuestXmmRegister) o.(o_target) o.(o_fallthrough)
    o.(o_condition) o.(o_exitKind) o.(o_immediate).
Definition set_guestXmmRegister (v : XmmRegister) (o : Operation) : Operation :=
  mkOperation o.(o_opcode) o.(o_width) o.(o_guestRip) o.(o_result) o.(o_lhs) o.(o_rhs) o.(o_third)
    o.(o_guestRegister) (Some v) o.(o_sourceGuestXmmRegister) o.(o_target) o.(o_fallthrough)
    o.(o_condition) o.(o_exitKind) o.(o_immediate).
Definition set_sourceGuestXmmRegister (v : XmmRegister) (o : Operation) : Operation :=
  mkOperation o.(o_opcode) o.(o_width) o.(o_guestRip) o.(o_result) o.(o_lhs) o.(o_rhs) o.(o_third)
    o.(o_guestRegister) o.(o_guestXmmRegister) (Some v) o.(o_target) o.(o_fallthrough)
    o.(o_condition) o.(o_exitKind) o.(o_immediate).
Definition set_target (v : GuestAddress) (o : Operation) : Operation :=
  mkOperation o.(o_opcode) o.(o_width) o.(o_guestRip) o.(o_result) o.(o_lhs) o.(o_rhs) o.(o_third)
    o.(o_guestRegister) o.(o_guestXmmRegister) o.(o_sourceGuestXmmRegister) (Some v)
    o.(o_fallthrough) o.(o_condition) o.(o_exitKind) o.(o_immediate).
Definition set_fallthrough (v : GuestAddress) (o : Operation) : Operation :=
  mkOperation o.(o_opcode) o.(o_width) o.(o_guestRip) o.(o_result) o.(o_lhs) o.(o_rhs) o.(o_third)
    o.(o_guestRegister) o.(o_guestXmmRegister) o.(o_sourceGuestXmmRegister) o.(o_target) (Some v)
    o.(o_condition) o.(o_exitKind) o.(o_immediate).
Definition set_condition (v : Condition) (o : Operation) : Operation :=
  mkOperation o.(o_opcode) o.(o_width) o.(o_guestRip) o.(o_result) o.(o_lhs) o.(o_rhs) o.(o_third)
    o.(o_guestRegister) o.(o_guestXmmRegister) o.(o_sourceGuestXmmRegister) o.(o_target)
    o.(o_fallthrough) (Some v) o.(o_exitKind) o.(o_immediate).
Definition set_exitKind (v : ExitKind) (o : Operation) : Operation :=
  mkOperation o.(o_opcode) o.(o_width) o.(o_guestRip) o.(o_result) o.(o_lhs) o.(o_rhs) o.(o_third)
    o.(o_guestRegister) o.(o_guestXmmRegister) o.(o_sourceGuestXmmRegister) o.(o_target)
    o.(o_fallthrough) o.(o_condition) v o.(o_immediate).
Definition set_immediate (v : Z) (o : Operation) : Operation :=
  mkOperation o.(o_opcode) o.(o_width) o.(o_guestRip) o.(o_result) o.(o_lhs) o.(o_rhs) o.(o_third)
    o.(o_guestRegister) o.(o_guestXmmRegister) o.(o_sourceGuestXmmRegister) o.(o_target)
    o.(o_fallthrough) o.(o_condition) o.(o_exitKind) v.

(** [o ⊳ f] applies one initialiser. *)
Notation "o '▷' f" := (f o) (at level 61, left associativity, only parsing) : rosa_scope.
