(* ===== verification/IRBuilder.v ===== *)
(** The block builder ([ir::Builder] of [src/ir/IR.cpp]): one definition per
    method.  Every method appends one operation; the value-producing ones first
    take the next value number.  Overloads carry a suffix that tells their last
    operand ([_imm] an immediate count, [_value] a value, [_reg] a register). *)
From S2P Require Import Prelude X86State IR.

(** [Builder::Builder]. *)
Definition newBuilder (start : GuestAddress) : Block := mkBlock start [] 0.

(** [block_.valueCount++]. *)
Definition nextValue : M Block ValueId := fun b =>
  (mkBlock b.(b_start) b.(b_operations) (u32 (b.(b_valueCount) + 1)), Ok b.(b_valueCount)).

(** [block_.operations.push_back]. *)
Definition push_back (o : Operation) : M Block unit := fun b =>
  (mkBlock b.(b_start) (b.(b_operations) ++ [o]) b.(b_valueCount), Ok tt).

(** The methods that return a value: it is the operation's result. *)
Definition push_result (o : Operation) : M Block ValueId :=
  do! result <- nextValue;
  push_back (set_result result o) ;;;
  ret result.

Definition constant (value : Z) (width : Width) (rip : GuestAddress) : M Block ValueId :=
  push_result (new_operation Op_Constant width rip ▷ set_immediate value).
Definition readGuestRegister (reg : Register) (width : Width) (rip : GuestAddress) : M Block ValueId :=
  push_result (new_operation Op_ReadGuestReg width rip ▷ set_guestRegister reg).
Definition readGuestGsBase (rip : GuestAddress) : M Block ValueId :=
  push_result (new_operation Op_ReadGuestGsBase I64 rip).
Definition writeGuestRegister (reg : Register) (value : ValueId) (width : Width)
    (rip : GuestAddress) : M Block unit :=
  push_back (new_operation Op_WriteGuestReg width rip ▷ set_lhs value ▷ set_guestRegister reg).
Definition conditionalMoveGuestRegister_reg (destination source : Register)
    (condition : Condition) (width : Width) (rip : GuestAddress) : M Block unit :=
  push_back (new_operation Op_ConditionalMoveGuestReg width rip
    ▷ set_guestRegister destination ▷ set_condition condition ▷ set_immediate (Z.of_nat (Register_encoding source))).
Definition conditionalMoveGuestRegister_value (destination : Register) (source : ValueId)
    (condition : Condition) (width : Width) (rip : GuestAddress) : M Block unit :=
  push_back (new_operation Op_ConditionalMoveGuestReg width rip
    ▷ set_lhs source ▷ set_guestRegister destination ▷ set_condition condition).
Definition readGuestXmmLane (reg : XmmRegister) (high : bool) (rip : GuestAddress) : M Block ValueId :=
  push_result (new_operation Op_ReadGuestXmmLane I64 rip
    ▷ set_guestXmmRegister reg ▷ set_immediate (if high then 1 else 0)).
Definition readGuestYmmUpperLane (reg : XmmRegister) (high : bool)
    (rip : GuestAddress) : M Block ValueId :=
  push_result (new_operation Op_ReadGuestYmmUpperLane I64 rip
    ▷ set_guestXmmRegister reg ▷ set_immediate (if high then 1 else 0)).
Definition writeGuestXmmLane (reg : XmmRegister) (high : bool) (value : ValueId)
    (rip : GuestAddress) : M Block unit :=
  push_back (new_operation Op_WriteGuestXmmLane I64 rip
    ▷ set_lhs value ▷ set_guestXmmRegister reg ▷ set_immediate (if high then 1 else 0)).
Definition writeGuestYmmUpperLane (reg : XmmRegister) (high : bool) (value : ValueId)
    (rip : GuestAddress) : M Block unit :=
  push_back (new_operation Op_WriteGuestYmmUpperLane I64 rip
    ▷ set_lhs value ▷ set_guestXmmRegister reg ▷ set_immediate (if high then 1 else 0)).
Definition writeGuestXmmByte (reg : XmmRegister) (lane : Z) (value : ValueId)
    (rip : GuestAddress) : M Block unit :=
  push_back (new_operation Op_WriteGuestXmmByte I8 rip
    ▷ set_lhs value ▷ set_guestXmmRegister reg ▷ set_immediate lane).
Definition writeGuestXmmDword (reg : XmmRegister) (lane : Z) (value : ValueId)
    (rip : GuestAddress) : M Block unit :=
  push_back (new_operation Op_WriteGuestXmmDword I32 rip
    ▷ set_lhs value ▷ set_guestXmmRegister reg ▷ set_immediate lane).
Definition add (lhs rhs : ValueId) (width : Width) (rip : GuestAddress) : M Block ValueId :=
  push_result (new_operation Op_Add width rip ▷ set_lhs lhs ▷ set_rhs rhs).
Definition sub (lhs rhs : ValueId) (width : Width) (rip : GuestAddress) : M Block ValueId :=
  push_result (new_operation Op_Sub width rip ▷ set_lhs lhs ▷ set_rhs rhs).
Definition shiftLeft_imm (value : ValueId) (count : Z) (width : Width)
    (rip : GuestAddress) : M Block ValueId :=
  push_result (new_operation Op_ShiftLeft width rip ▷ set_lhs value ▷ set_immediate count).
Definition shiftLeft_value (value count : ValueId) (width : Width)
    (rip : GuestAddress) : M Block ValueId :=
  push_result (new_operation Op_ShiftLeft width rip ▷ set_lhs value ▷ set_rhs count).
Definition shiftRightLogical_imm (value : ValueId) (count : Z) (width : Width)
    (rip : GuestAddress) : M Block ValueId :=
  push_result (new_operation Op_ShiftRightLogical width rip ▷ set_lhs value ▷ set_immediate count).
Definition shiftRightLogical_value (value count : ValueId) (width : Width)
    (rip : GuestAddress) : M Block ValueId :=
  push_result (new_operation Op_ShiftRightLogical width rip ▷ set_lhs value ▷ set_rhs count).
Definition shiftRightArithmetic_imm (value : ValueId) (count : Z) (width : Width)
    (rip : GuestAddress) : M Block ValueId :=
  push_result (new_operation Op_ShiftRightArithmetic width rip ▷ set_lhs value ▷ set_immediate count).
Definition shiftRightArithmetic_value (value count : ValueId) (width : Width)
    (rip : GuestAddress) : M Block ValueId :=
  push_result (new_operation Op_ShiftRightArithmetic width rip ▷ set_lhs value ▷ set_rhs count).
Definition multiplyLow (lhs rhs : ValueId) (width : Width) (rip : GuestAddress) : M Block ValueId :=
  push_result (new_operation Op_MultiplyLow width rip ▷ set_lhs lhs ▷ set_rhs rhs).
Definition multiplyHighUnsigned (lhs rhs : ValueId) (width : Width)
    (rip : GuestAddress) : M Block ValueId :=
  push_result (new_operation Op_MultiplyHighUnsigned width rip ▷ set_lhs lhs ▷ set_rhs rhs).
Definition multiplyHighSigned (lhs rhs : ValueId) (width : Width)
    (rip : GuestAddress) : M Block ValueId :=
  push_result (new_operation Op_MultiplyHighSigned width rip ▷ set_lhs lhs ▷ set_rhs rhs).
Definition shiftRightDouble (low high : ValueId) (count : Z) (width : Width)
    (rip : GuestAddress) : M Block ValueId :=
  push_result (new_operation Op_ShiftRightDouble width rip
    ▷ set_lhs low ▷ set_rhs high ▷ set_immediate count).
Definition bitAnd (lhs rhs : ValueId) (width : Width) (rip : GuestAddress) : M Block ValueId :=
  push_result (new_operation Op_And width rip ▷ set_lhs lhs ▷ set_rhs rhs).
Definition bitOr (lhs rhs : ValueId) (width : Width) (rip : GuestAddress) : M Block ValueId :=
  push_result (new_operation Op_Or width rip ▷ set_lhs lhs ▷ set_rhs rhs).
Definition bitXor (lhs rhs : ValueId) (width : Width) (rip : GuestAddress) : M Block ValueId :=
  push_result (new_operation Op_Xor width rip ▷ set_lhs lhs ▷ set_rhs rhs).
Definition byteSwap (value : ValueId) (width : Width) (rip : GuestAddress) : M Block ValueId :=
  push_result (new_operation Op_ByteSwap width rip ▷ set_lhs value).
Definition signExtend32 (value : ValueId) (rip : GuestAddress) : M Block ValueId :=
  push_result (new_operation Op_SignExtend32 I64 rip ▷ set_lhs value).
Definition evaluateCondition (condition : Condition) (rip : GuestAddress) : M Block ValueId :=
  push_result (new_operation Op_EvaluateCondition I8 rip ▷ set_condition condition).
Definition loadGuest (address : ValueId) (width : Width) (rip : GuestAddress) : M Block ValueId :=
  push_result (new_operation Op_LoadGuest width rip ▷ set_lhs address).
Definition storeGuest (address value : ValueId) (width : Width) (rip : GuestAddress) : M Block unit :=
  push_back (new_operation Op_StoreGuest width rip ▷ set_lhs address ▷ set_rhs value).
Definition storeGuestXmm (address : ValueId) (reg : XmmRegister) (aligned : bool)
    (rip : GuestAddress) : M Block unit :=
  push_back (new_operation Op_StoreGuestXmm I64 rip
    ▷ set_lhs address ▷ set_guestXmmRegister reg ▷ set_immediate (if aligned then 1 else 0)).
Definition storeGuestYmm (address : ValueId) (reg : XmmRegister) (aligned : bool)
    (rip : GuestAddress) : M Block unit :=
  push_back (new_operation Op_StoreGuestYmm I64 rip
    ▷ set_lhs address ▷ set_guestXmmRegister reg ▷ set_immediate (if aligned then 1 else 0)).
Definition loadGuestXmm (address : ValueId) (reg : XmmRegister) (aligned : bool)
    (rip : GuestAddress) : M Block unit :=
  push_back (new_operation Op_LoadGuestXmm I64 rip
    ▷ set_lhs address ▷ set_guestXmmRegister reg ▷ set_immediate (if aligned then 1 else 0)).
Definition loadGuestYmm (address : ValueId) (reg : XmmRegister) (aligned : bool)
    (rip : GuestAddress) : M Block unit :=
  push_back (new_operation Op_LoadGuestYmm I64 rip
    ▷ set_lhs address ▷ set_guestXmmRegister reg ▷ set_immediate (if aligned then 1 else 0)).
Definition loadGuestSignExtendedBytesXmm (address : ValueId) (reg : XmmRegister)
    (rip : GuestAddress) : M Block unit :=
  push_back (new_operation Op_LoadGuestSignExtendedBytesXmm I64 rip
    ▷ set_lhs address ▷ set_guestXmmRegister reg).
Definition loadGuestSignExtendedDwordsXmm (address : ValueId) (reg : XmmRegister)
    (rip : GuestAddress) : M Block unit :=
  push_back (new_operation Op_LoadGuestSignExtendedDwordsXmm I64 rip
    ▷ set_lhs address ▷ set_guestXmmRegister reg).
Definition xorGuestMemoryXmm (address : ValueId) (reg : XmmRegister)
    (rip : GuestAddress) : M Block unit :=
  push_back (new_operation Op_XorGuestMemoryXmm I64 rip ▷ set_lhs address ▷ set_guestXmmRegister reg).
Definition andGuestMemoryXmm (address : ValueId) (reg : XmmRegister)
    (rip : GuestAddress) : M Block unit :=
  push_back (new_operation Op_AndGuestMemoryXmm I64 rip ▷ set_lhs address ▷ set_guestXmmRegister reg).
Definition addGuestMemoryXmm (address : ValueId) (reg : XmmRegister)
    (rip : GuestAddress) : M Block unit :=
  push_back (new_operation Op_AddGuestMemoryXmm I64 rip ▷ set_lhs address ▷ set_guestXmmRegister reg).
Definition testXmmBits (destination source : XmmRegister) (rip : GuestAddress) : M Block unit :=
  push_back (new_operation Op_TestXmmBits I64 rip
    ▷ set_guestXmmRegister destination ▷ set_sourceGuestXmmRegister source).
Definition compareEqualGuestBytesXmm (address : ValueId) (reg : XmmRegister)
    (rip : GuestAddress) : M Block unit :=
  push_back (new_operation Op_CompareEqualGuestBytesXmm I64 rip
    ▷ set_lhs address ▷ set_guestXmmRegister reg).
Definition compareEqualGuestQwordsXmm (address : ValueId) (reg : XmmRegister)
    (rip : GuestAddress) : M Block unit :=
  push_back (new_operation Op_CompareEqualGuestQwordsXmm I64 rip
    ▷ set_lhs address ▷ set_guestXmmRegister reg).
Definition compareEqualXmmBytes (destination source : XmmRegister) (rip : GuestAddress) : M Block unit :=
  push_back (new_operation Op_CompareEqualXmmBytes I64 rip
    ▷ set_guestXmmRegister destination ▷ set_sourceGuestXmmRegister source).
Definition compareEqualXmmDwords (destination source : XmmRegister)
    (rip : GuestAddress) : M Block unit :=
  push_back (new_operation Op_CompareEqualXmmDwords I32 rip
    ▷ set_guestXmmRegister destination ▷ set_sourceGuestXmmRegister source).
Definition compareEqualXmmQwords (destination source : XmmRegister)
    (rip : GuestAddress) : M Block unit :=
  push_back (new_operation Op_CompareEqualXmmQwords I64 rip
    ▷ set_guestXmmRegister destination ▷ set_sourceGuestXmmRegister source).
Definition shiftLeftXmmDwords (destination : XmmRegister) (count : Z)
    (rip : GuestAddress) : M Block unit :=
  push_back (new_operation Op_ShiftLeftXmmDwords I32 rip
    ▷ set_guestXmmRegister destination ▷ set_immediate count).
Definition addXmmWords (destination source : XmmRegister) (rip : GuestAddress) : M Block unit :=
  push_back (new_operation Op_AddXmmWords I16 rip
    ▷ set_guestXmmRegister destination ▷ set_sourceGuestXmmRegister source).
Definition comparePackedDoubleXmm (destination source : XmmRegister) (predicate : Z)
    (rip : GuestAddress) : M Block unit :=
  push_back (new_operation Op_ComparePackedDoubleXmm I64 rip
    ▷ set_guestXmmRegister destination ▷ set_sourceGuestXmmRegister source ▷ set_immediate predicate).
Definition arithmeticPackedDoubleXmm (destination source : XmmRegister) (operation : Z)
    (rip : GuestAddress) : M Block unit :=
  push_back (new_operation Op_ArithmeticPackedDoubleXmm I64 rip
    ▷ set_guestXmmRegister destination ▷ set_sourceGuestXmmRegister source ▷ set_immediate operation).
Definition arithmeticGuestMemoryPackedDoubleXmm (address : ValueId) (destination : XmmRegister)
    (operation : Z) (rip : GuestAddress) : M Block unit :=
  push_back (new_operation Op_ArithmeticGuestMemoryPackedDoubleXmm I64 rip
    ▷ set_lhs address ▷ set_guestXmmRegister destination ▷ set_immediate operation).
Definition unpackHighPackedSingleXmm (destination source : XmmRegister)
    (rip : GuestAddress) : M Block unit :=
  push_back (new_operation Op_UnpackHighPackedSingleXmm I64 rip
    ▷ set_guestXmmRegister destination ▷ set_sourceGuestXmmRegister source).
Definition unpackHighGuestPackedSingleXmm (address : ValueId) (destination : XmmRegister)
    (rip : GuestAddress) : M Block unit :=
  push_back (new_operation Op_UnpackHighGuestPackedSingleXmm I64 rip
    ▷ set_lhs address ▷ set_guestXmmRegister destination).
Definition horizontalAddPackedDoubleXmm (destination source : XmmRegister)
    (rip : GuestAddress) : M Block unit :=
  push_back (new_operation Op_HorizontalAddPackedDoubleXmm I64 rip
    ▷ set_guestXmmRegister destination ▷ set_sourceGuestXmmRegister source).
Definition horizontalAddGuestPackedDoubleXmm (address : ValueId) (destination : XmmRegister)
    (rip : GuestAddress) : M Block unit :=
  push_back (new_operation Op_HorizontalAddGuestPackedDoubleXmm I64 rip
    ▷ set_lhs address ▷ set_guestXmmRegister destination).
Definition unpackLowPackedSingleXmm (destination source : XmmRegister)
    (rip : GuestAddress) : M Block unit :=
  push_back (new_operation Op_UnpackLowPackedSingleXmm I64 rip
    ▷ set_guestXmmRegister destination ▷ set_sourceGuestXmmRegister source).
Definition unpackLowGuestPackedSingleXmm (address : ValueId) (destination : XmmRegister)
    (rip : GuestAddress) : M Block unit :=
  push_back (new_operation Op_UnpackLowGuestPackedSingleXmm I64 rip
    ▷ set_lhs address ▷ set_guestXmmRegister destination).
Definition updateUnorderedDoubleFlags (destinationBits sourceBits : ValueId)
    (rip : GuestAddress) : M Block unit :=
  push_back (new_operation Op_UpdateUnorderedDoubleFlags I64 rip
    ▷ set_lhs destinationBits ▷ set_rhs sourceBits).
Definition updateUnorderedFloatFlags (destinationBits sourceBits : ValueId)
    (rip : GuestAddress) : M Block unit :=
  push_back (new_operation Op_UpdateUnorderedFloatFlags I32 rip
    ▷ set_lhs destinationBits ▷ set_rhs sourceBits).
Definition convertIntToDoubleXmm (value : ValueId) (destination : XmmRegister) (width : Width)
    (rip : GuestAddress) : M Block unit :=
  push_back (new_operation Op_ConvertIntToDoubleXmm width rip
    ▷ set_lhs value ▷ set_guestXmmRegister destination).
Definition convertDoubleToInt (bits : ValueId) (destination : Register) (width : Width)
    (rip : GuestAddress) : M Block unit :=
  push_back (new_operation Op_ConvertDoubleToInt width rip
    ▷ set_lhs bits ▷ set_guestRegister destination).
Definition convertFloatToDoubleXmm (value : ValueId) (destination : XmmRegister)
    (rip : GuestAddress) : M Block unit :=
  push_back (new_operation Op_ConvertFloatToDoubleXmm I32 rip
    ▷ set_lhs value ▷ set_guestXmmRegister destination).
Definition convertInt32x2ToDoubleXmm (lowBits : ValueId) (destination : XmmRegister)
    (rip : GuestAddress) : M Block unit :=
  push_back (new_operation Op_ConvertInt32x2ToDoubleXmm I64 rip
    ▷ set_lhs lowBits ▷ set_guestXmmRegister destination).
Definition scalarDoubleXmm (sourceBits : ValueId) (destination : XmmRegister) (operation : Z)
    (rip : GuestAddress) : M Block unit :=
  push_back (new_operation Op_ScalarDoubleXmm I64 rip
    ▷ set_lhs sourceBits ▷ set_guestXmmRegister destination ▷ set_immediate operation).
Definition addXmmDwords (destination source : XmmRegister) (rip : GuestAddress) : M Block unit :=
  push_back (new_operation Op_AddXmmDwords I32 rip
    ▷ set_guestXmmRegister destination ▷ set_sourceGuestXmmRegister source).
Definition horizontalAddXmmDwords (destination source : XmmRegister)
    (rip : GuestAddress) : M Block unit :=
  push_back (new_operation Op_HorizontalAddXmmDwords I32 rip
    ▷ set_guestXmmRegister destination ▷ set_sourceGuestXmmRegister source).
Definition andNotXmm (destination source : XmmRegister) (rip : GuestAddress) : M Block unit :=
  push_back (new_operation Op_AndNotXmm I64 rip
    ▷ set_guestXmmRegister destination ▷ set_sourceGuestXmmRegister source).
Definition moveXmmByteMask (destination : Register) (source : XmmRegister)
    (rip : GuestAddress) : M Block unit :=
  push_back (new_operation Op_MoveXmmByteMask I32 rip
    ▷ set_guestRegister destination ▷ set_guestXmmRegister source).
Definition shuffleXmmBytes (destination source : XmmRegister) (rip : GuestAddress) : M Block unit :=
  push_back (new_operation Op_ShuffleXmmBytes I8 rip
    ▷ set_guestXmmRegister destination ▷ set_sourceGuestXmmRegister source).
Definition shuffleGuestMemoryXmmBytes (address : ValueId) (destination : XmmRegister)
    (rip : GuestAddress) : M Block unit :=
  push_back (new_operation Op_ShuffleXmmBytes I8 rip
    ▷ set_lhs address ▷ set_guestXmmRegister destination).
Definition shuffleXmmDwords (destination source : XmmRegister) (control : Z)
    (rip : GuestAddress) : M Block unit :=
  push_back (new_operation Op_ShuffleXmmDwords I32 rip
    ▷ set_guestXmmRegister destination ▷ set_sourceGuestXmmRegister source ▷ set_immediate control).
Definition alignRightXmmBytes (destination source : XmmRegister) (count : Z)
    (rip : GuestAddress) : M Block unit :=
  push_back (new_operation Op_AlignRightXmmBytes I8 rip
    ▷ set_guestXmmRegister destination ▷ set_sourceGuestXmmRegister source ▷ set_immediate count).
Definition blendXmmWords (destination source : XmmRegister) (mask : Z)
    (rip : GuestAddress) : M Block unit :=
  push_back (new_operation Op_BlendXmmWords I16 rip
    ▷ set_guestXmmRegister destination ▷ set_sourceGuestXmmRegister source ▷ set_immediate mask).
Definition unpackLowXmmWords (destination source : XmmRegister) (rip : GuestAddress) : M Block unit :=
  push_back (new_operation Op_UnpackLowXmmWords I16 rip
    ▷ set_guestXmmRegister destination ▷ set_sourceGuestXmmRegister source).
Definition bitScanForward (destination source : Register) (width : Width)
    (rip : GuestAddress) : M Block unit :=
  push_back (new_operation Op_BitScanForward width rip
    ▷ set_guestRegister destination ▷ set_immediate (Z.of_nat (Register_encoding source))).
Definition bitScanReverse (destination source : Register) (width : Width)
    (rip : GuestAddress) : M Block unit :=
  push_back (new_operation Op_BitScanReverse width rip
    ▷ set_guestRegister destination ▷ set_immediate (Z.of_nat (Register_encoding source))).
Definition repeatMoveByte (rip : GuestAddress) : M Block unit :=
  push_back (new_operation Op_RepeatMoveByte I8 rip).
Definition repeatStore (width : Width) (rip : GuestAddress) : M Block unit :=
  push_back (new_operation Op_RepeatStore width rip).
Definition divideUnsignedByte (divisor : ValueId) (rip : GuestAddress) : M Block unit :=
  push_back (new_operation Op_DivideUnsignedByte I8 rip ▷ set_lhs divisor).
Definition divideUnsignedDword (divisor : ValueId) (rip : GuestAddress) : M Block unit :=
  push_back (new_operation Op_DivideUnsignedDword I32 rip ▷ set_lhs divisor).
Definition divideUnsignedQword (divisor : ValueId) (rip : GuestAddress) : M Block unit :=
  push_back (new_operation Op_DivideUnsignedQword I64 rip ▷ set_lhs divisor).
Definition divideSignedDword (divisor : ValueId) (rip : GuestAddress) : M Block unit :=
  push_back (new_operation Op_DivideSignedDword I32 rip ▷ set_lhs divisor).
Definition push (newStackPointer value : ValueId) (width : Width) (rip : GuestAddress) : M Block unit :=
  push_back (new_operation Op_Push width rip ▷ set_lhs newStackPointer ▷ set_rhs value).
Definition addGuestMemory (address source : ValueId) (width : Width)
    (rip : GuestAddress) : M Block unit :=
  push_back (new_operation Op_AddGuestMemory width rip ▷ set_lhs address ▷ set_rhs source).
Definition subGuestMemory (address source : ValueId) (width : Width)
    (rip : GuestAddress) : M Block unit :=
  push_back (new_operation Op_SubGuestMemory width rip ▷ set_lhs address ▷ set_rhs source).
Definition orGuestMemory (address source : ValueId) (width : Width)
    (rip : GuestAddress) : M Block unit :=
  push_back (new_operation Op_OrGuestMemory width rip ▷ set_lhs address ▷ set_rhs source).
Definition andGuestMemory (address source : ValueId) (width : Width)
    (rip : GuestAddress) : M Block unit :=
  push_back (new_operation Op_AndGuestMemory width rip ▷ set_lhs address ▷ set_rhs source).
Definition shiftLeftGuestMemory (address : ValueId) (count : Z) (width : Width)
    (rip : GuestAddress) : M Block unit :=
  push_back (new_operation Op_ShiftLeftGuestMemory width rip ▷ set_lhs address ▷ set_immediate count).
Definition shiftRightLogicalGuestMemory (address : ValueId) (count : Z) (width : Width)
    (rip : GuestAddress) : M Block unit :=
  push_back (new_operation Op_ShiftRightGuestMemory width rip ▷ set_lhs address ▷ set_immediate count).
Definition incrementGuestMemory (address : ValueId) (width : Width)
    (rip : GuestAddress) : M Block unit :=
  push_back (new_operation Op_IncrementGuestMemory width rip ▷ set_lhs address).
Definition decrementGuestMemory (address : ValueId) (width : Width)
    (rip : GuestAddress) : M Block unit :=
  push_back (new_operation Op_DecrementGuestMemory width rip ▷ set_lhs address).
Definition compareExchangeGuestMemory (address source : ValueId) (width : Width)
    (rip : GuestAddress) : M Block unit :=
  push_back (new_operation Op_CompareExchangeGuestMemory width rip ▷ set_lhs address ▷ set_rhs source).
Definition compareExchangeGuestPair (address : ValueId) (rip : GuestAddress) : M Block unit :=
  push_back (new_operation Op_CompareExchangeGuestPair I64 rip ▷ set_lhs address).
Definition exchangeGuestMemory (address source : ValueId) (destination : Register)
    (width : Width) (rip : GuestAddress) : M Block unit :=
  push_back (new_operation Op_ExchangeGuestMemory width rip
    ▷ set_lhs address ▷ set_rhs source ▷ set_guestRegister destination).
Definition lockedAddGuestMemory (address source : ValueId) (width : Width)
    (rip : GuestAddress) : M Block unit :=
  push_back (new_operation Op_LockedAddGuestMemory width rip ▷ set_lhs address ▷ set_rhs source).
Definition lockedExchangeAddGuestMemory (address source : ValueId) (sourceRegister : Register)
    (width : Width) (rip : GuestAddress) : M Block unit :=
  push_back (new_operation Op_LockedExchangeAddGuestMemory width rip
    ▷ set_lhs address ▷ set_rhs source ▷ set_guestRegister sourceRegister).
Definition lockedIncrementGuestMemory (address : ValueId) (width : Width)
    (rip : GuestAddress) : M Block unit :=
  push_back (new_operation Op_LockedIncrementGuestMemory width rip ▷ set_lhs address).
Definition lockedDecrementGuestMemory (address : ValueId) (width : Width)
    (rip : GuestAddress) : M Block unit :=
  push_back (new_operation Op_LockedDecrementGuestMemory width rip ▷ set_lhs address).
Definition lockedOrGuestMemory (address immediate : ValueId) (width : Width)
    (rip : GuestAddress) : M Block unit :=
  push_back (new_operation Op_LockedOrGuestMemory width rip ▷ set_lhs address ▷ set_rhs immediate).
Definition lockedAndGuestMemory (address immediate : ValueId) (width : Width)
    (rip : GuestAddress) : M Block unit :=
  push_back (new_operation Op_LockedAndGuestMemory width rip ▷ set_lhs address ▷ set_rhs immediate).
Definition storeGuestIdtr (address : ValueId) (rip : GuestAddress) : M Block unit :=
  push_back (new_operation Op_StoreGuestIdtr I64 rip ▷ set_lhs address).
Definition loadFence (rip : GuestAddress) : M Block unit :=
  push_back (new_operation Op_LoadFence I64 rip).
Definition writeDirectionFlag (set : bool) (rip : GuestAddress) : M Block unit :=
  push_back (new_operation Op_WriteDirectionFlag I64 rip ▷ set_immediate (if set then 1 else 0)).
Definition storeFence (rip : GuestAddress) : M Block unit :=
  push_back (new_operation Op_StoreFence I64 rip).
Definition readTimestampCounter (rip : GuestAddress) : M Block unit :=
  push_back (new_operation Op_ReadTimestampCounter I64 rip).
Definition cpuid (rip : GuestAddress) : M Block unit :=
  push_back (new_operation Op_Cpuid I64 rip).
Definition updateAddFlags (lhs rhs result : ValueId) (width : Width)
    (rip : GuestAddress) : M Block unit :=
  push_back (new_operation Op_UpdateAddFlags width rip ▷ set_lhs lhs ▷ set_rhs rhs ▷ set_third result).
Definition updateAdcFlags (lhs rhs carry : ValueId) (width : Width)
    (rip : GuestAddress) : M Block unit :=
  push_back (new_operation Op_UpdateAdcFlags width rip ▷ set_lhs lhs ▷ set_rhs rhs ▷ set_third carry).
Definition updateSbbFlags (lhs rhs borrow : ValueId) (width : Width)
    (rip : GuestAddress) : M Block unit :=
  push_back (new_operation Op_UpdateSbbFlags width rip ▷ set_lhs lhs ▷ set_rhs rhs ▷ set_third borrow).
Definition updateIncFlags (original result : ValueId) (width : Width)
    (rip : GuestAddress) : M Block unit :=
  push_back (new_operation Op_UpdateIncFlags width rip ▷ set_lhs original ▷ set_rhs result).
Definition updateDecFlags (original result : ValueId) (width : Width)
    (rip : GuestAddress) : M Block unit :=
  push_back (new_operation Op_UpdateDecFlags width rip ▷ set_lhs original ▷ set_rhs result).
Definition updateSubFlags (lhs rhs result : ValueId) (width : Width)
    (rip : GuestAddress) : M Block unit :=
  push_back (new_operation Op_UpdateSubFlags width rip ▷ set_lhs lhs ▷ set_rhs rhs ▷ set_third result).
Definition updateLogicFlags (result : ValueId) (width : Width) (rip : GuestAddress) : M Block unit :=
  push_back (new_operation Op_UpdateLogicFlags width rip ▷ set_lhs result).
Definition updateShiftLeftFlags_imm (lhs result : ValueId) (count : Z) (width : Width)
    (rip : GuestAddress) : M Block unit :=
  push_back (new_operation Op_UpdateShiftLeftFlags width rip
    ▷ set_lhs lhs ▷ set_rhs result ▷ set_immediate count).
Definition updateShiftLeftFlags_value (lhs result count : ValueId) (width : Width)
    (rip : GuestAddress) : M Block unit :=
  push_back (new_operation Op_UpdateShiftLeftFlags width rip
    ▷ set_lhs lhs ▷ set_rhs result ▷ set_third count).
Definition updateShiftRightFlags_imm (lhs result : ValueId) (count : Z) (width : Width)
    (rip : GuestAddress) : M Block unit :=
  push_back (new_operation Op_UpdateShiftRightFlags width rip
    ▷ set_lhs lhs ▷ set_rhs result ▷ set_immediate count).
Definition updateShiftRightFlags_value (lhs result count : ValueId) (width : Width)
    (rip : GuestAddress) : M Block unit :=
  push_back (new_operation Op_UpdateShiftRightFlags width rip
    ▷ set_lhs lhs ▷ set_rhs result ▷ set_third count).
Definition updateShiftRightArithmeticFlags_imm (lhs result : ValueId) (count : Z)
    (width : Width) (rip : GuestAddress) : M Block unit :=
  push_back (new_operation Op_UpdateShiftRightArithmeticFlags width rip
    ▷ set_lhs lhs ▷ set_rhs result ▷ set_immediate count).
Definition updateShiftRightArithmeticFlags_value (lhs result count : ValueId) (width : Width)
    (rip : GuestAddress) : M Block unit :=
  push_back (new_operation Op_UpdateShiftRightArithmeticFlags width rip
    ▷ set_lhs lhs ▷ set_rhs result ▷ set_third count).
Definition updateRotateLeftFlags_imm (result : ValueId) (count : Z) (width : Width)
    (rip : GuestAddress) : M Block unit :=
  push_back (new_operation Op_UpdateRotateLeftFlags width rip ▷ set_lhs result ▷ set_immediate count).
Definition updateRotateLeftFlags_value (result count : ValueId) (width : Width)
    (rip : GuestAddress) : M Block unit :=
  push_back (new_operation Op_UpdateRotateLeftFlags width rip ▷ set_lhs result ▷ set_rhs count).
Definition updateRotateRightFlags_imm (result : ValueId) (count : Z) (width : Width)
    (rip : GuestAddress) : M Block unit :=
  push_back (new_operation Op_UpdateRotateRightFlags width rip ▷ set_lhs result ▷ set_immediate count).
Definition updateRotateRightFlags_value (result count : ValueId) (width : Width)
    (rip : GuestAddress) : M Block unit :=
  push_back (new_operation Op_UpdateRotateRightFlags width rip ▷ set_lhs result ▷ set_rhs count).
Definition updateMultiplyFlags (high : ValueId) (width : Width) (rip : GuestAddress) : M Block unit :=
  push_back (new_operation Op_UpdateMultiplyFlags width rip ▷ set_lhs high).
Definition updateSignedMultiplyFlags (lhs rhs : ValueId) (width : Width)
    (rip : GuestAddress) : M Block unit :=
  push_back (new_operation Op_UpdateSignedMultiplyFlags width rip ▷ set_lhs lhs ▷ set_rhs rhs).
Definition updateShiftRightDoubleFlags (original result : ValueId) (count : Z) (width : Width)
    (rip : GuestAddress) : M Block unit :=
  push_back (new_operation Op_UpdateShiftRightDoubleFlags width rip
    ▷ set_lhs original ▷ set_rhs result ▷ set_immediate count).
Definition updateBitTestFlags (value : ValueId) (bitIndex : Z) (width : Width)
    (rip : GuestAddress) : M Block unit :=
  push_back (new_operation Op_UpdateBitTestFlags width rip ▷ set_lhs value ▷ set_immediate bitIndex).
Definition lockedBitSetGuestMemory (address : ValueId) (bitIndex : Z) (width : Width)
    (rip : GuestAddress) : M Block unit :=
  push_back (new_operation Op_LockedBitSetGuestMemory width rip
    ▷ set_lhs address ▷ set_immediate bitIndex).
Definition exitBlock (rip : GuestAddress) : M Block unit :=
  push_back (new_operation Op_ExitBlock I64 rip ▷ set_exitKind Exit_Return).
Definition exitDirect_address (target rip : GuestAddress) : M Block unit :=
  push_back (new_operation Op_ExitBlock I64 rip ▷ set_target target ▷ set_exitKind Exit_Direct).
Definition exitDirect_value (target : ValueId) (rip : GuestAddress) : M Block unit :=
  push_back (new_operation Op_ExitBlock I64 rip ▷ set_lhs target ▷ set_exitKind Exit_Direct).
Definition exitConditional (condition : Condition)
    (target fallthrough rip : GuestAddress) : M Block unit :=
  push_back (new_operation Op_ExitBlock I64 rip
    ▷ set_target target ▷ set_fallthrough fallthrough ▷ set_condition condition ▷ set_exitKind Exit_Conditional).
Definition exitCall_address (target returnAddress rip : GuestAddress) : M Block unit :=
  push_back (new_operation Op_ExitBlock I64 rip
    ▷ set_target target ▷ set_fallthrough returnAddress ▷ set_exitKind Exit_Call).
Definition exitCall_value (target : ValueId) (returnAddress rip : GuestAddress) : M Block unit :=
  push_back (new_operation Op_ExitBlock I64 rip
    ▷ set_lhs target ▷ set_fallthrough returnAddress ▷ set_exitKind Exit_Call).
Definition exitSyscall (nextRip rip : GuestAddress) : M Block unit :=
  push_back (new_operation Op_ExitBlock I64 rip ▷ set_target nextRip ▷ set_exitKind Exit_Syscall).

(** [Builder::finish]. *)
Definition finish : M Block Block := get.
