(* ===== verification/IRVerify.v ===== *)
(** The block verifier ([ir::verify] of [src/ir/IR.cpp]): it scans the
    operations once, collecting error messages, with a table of the values
    defined so far. *)
From S2P Require Import Prelude X86State IR.

Definition present {A} (x : option A) : bool := match x with Some _ => true | None => false end.
Definition absent {A} (x : option A) : bool := negb (present x).
Definition width_is_not (w : Width) (o : Operation) : bool := negb (Width_bits o.(o_width) =? Width_bits w).
Definition exit_is (k : ExitKind) (o : Operation) : bool := bool_decide (o.(o_exitKind) = k).
Definition exit_is_not (k : ExitKind) (o : Operation) : bool := negb (exit_is k o).

(** [if (c) errors.emplace_back(message)]: the errors a check appends. *)
Definition error_if (c : bool) (message : string) : list string := if c then [message] else [].

(** [defined[value]], guarded by the bounds check that precedes it. *)
Definition defined_at (defined : list bool) (v : ValueId) : bool :=
  (0 <=? v) && (v <? zlength defined) && nth (Z.to_nat v) defined false.

Definition checkUse (defined : list bool) (value : option ValueId) (role : string) : list string :=
  match value with
  | None => [String.append "missing " (String.append role " value")]
  | Some v => error_if (negb (defined_at defined v)) (String.append "use of undefined " (String.append role " value"))
  end.

(** The errors of one operation, by opcode. *)
Definition check_operation (defined : list bool) (o : Operation) : list string :=
  match o.(o_opcode) with
  | Op_Constant | Op_ReadGuestReg | Op_ReadGuestGsBase =>
      []
  | Op_ReadGuestXmmLane =>
      error_if (absent o.(o_guestXmmRegister)) "read_guest_xmm_lane has no register"
  | Op_ReadGuestYmmUpperLane =>
      error_if (absent o.(o_guestXmmRegister) || (1 <? o.(o_immediate)))
        "read_guest_ymm_upper_lane is incomplete"
  | Op_WriteGuestReg =>
      checkUse defined o.(o_lhs) "source" ++
      error_if (absent o.(o_guestRegister)) "write_guest_reg has no register"
  | Op_ConditionalMoveGuestReg =>
      error_if (absent o.(o_guestRegister) || absent o.(o_condition)
        || (absent o.(o_lhs) && (16 <=? o.(o_immediate))))
        "conditional_move_guest_reg is incomplete" ++
      (if present o.(o_lhs) then checkUse defined o.(o_lhs) "source" else [])
  | Op_WriteGuestXmmLane =>
      checkUse defined o.(o_lhs) "source" ++
      error_if (absent o.(o_guestXmmRegister)) "write_guest_xmm_lane has no register"
  | Op_WriteGuestYmmUpperLane =>
      checkUse defined o.(o_lhs) "source" ++
      error_if (absent o.(o_guestXmmRegister) || (1 <? o.(o_immediate)))
        "write_guest_ymm_upper_lane is incomplete"
  | Op_WriteGuestXmmByte =>
      checkUse defined o.(o_lhs) "source" ++
      error_if (absent o.(o_guestXmmRegister) || width_is_not I8 o || (16 <=? o.(o_immediate)))
        "write_guest_xmm_byte is incomplete"
  | Op_WriteGuestXmmDword =>
      checkUse defined o.(o_lhs) "source" ++
      error_if (absent o.(o_guestXmmRegister) || width_is_not I32 o || (4 <=? o.(o_immediate)))
        "write_guest_xmm_dword is incomplete"
  | Op_Add | Op_Sub | Op_And | Op_Or | Op_Xor | Op_MultiplyLow | Op_MultiplyHighUnsigned
  | Op_MultiplyHighSigned | Op_ShiftRightDouble =>
      checkUse defined o.(o_lhs) "left" ++
      checkUse defined o.(o_rhs) "right"
  | Op_ShiftLeft =>
      checkUse defined o.(o_lhs) "shifted" ++
      (if present o.(o_rhs) then checkUse defined o.(o_rhs) "shift count" else [])
  | Op_ShiftRightLogical | Op_ShiftRightArithmetic =>
      checkUse defined o.(o_lhs) "shifted" ++
      (if present o.(o_rhs) then checkUse defined o.(o_rhs) "shift count" else [])
  | Op_SignExtend32 =>
      checkUse defined o.(o_lhs) "source"
  | Op_ByteSwap =>
      checkUse defined o.(o_lhs) "source" ++
      error_if (width_is_not I32 o && width_is_not I64 o) "byte_swap currently requires i32 or i64"
  | Op_EvaluateCondition =>
      error_if (absent o.(o_condition)) "evaluate_condition has no condition"
  | Op_RepeatMoveByte =>
      error_if (width_is_not I8 o) "repeat_move_byte requires i8"
  | Op_RepeatStore =>
      error_if (width_is_not I8 o && width_is_not I16 o && width_is_not I32 o && width_is_not I64 o)
        "repeat_store requires i8, i16, i32, or i64"
  | Op_Push =>
      checkUse defined o.(o_lhs) "new stack pointer" ++
      checkUse defined o.(o_rhs) "pushed value"
  | Op_AddGuestMemory =>
      checkUse defined o.(o_lhs) "guest address" ++
      checkUse defined o.(o_rhs) "source" ++
      error_if (width_is_not I8 o && width_is_not I16 o && width_is_not I32 o && width_is_not I64 o)
        "add_guest_memory currently requires i8, i16, i32, or i64"
  | Op_SubGuestMemory =>
      checkUse defined o.(o_lhs) "guest address" ++
      checkUse defined o.(o_rhs) "source" ++
      error_if (width_is_not I8 o && width_is_not I32 o && width_is_not I64 o)
        "sub_guest_memory currently requires i8, i32, or i64"
  | Op_OrGuestMemory =>
      checkUse defined o.(o_lhs) "guest address" ++
      checkUse defined o.(o_rhs) "source" ++
      error_if (width_is_not I8 o && width_is_not I16 o && width_is_not I32 o && width_is_not I64 o)
        "or_guest_memory currently requires i8, i16, i32, or i64"
  | Op_AndGuestMemory =>
      checkUse defined o.(o_lhs) "guest address" ++
      checkUse defined o.(o_rhs) "source" ++
      error_if (width_is_not I8 o && width_is_not I16 o && width_is_not I32 o && width_is_not I64 o)
        "and_guest_memory currently requires i8, i16, i32, or i64"
  | Op_ShiftLeftGuestMemory =>
      checkUse defined o.(o_lhs) "guest address" ++
      error_if (width_is_not I64 o) "shift_left_guest_memory currently requires i64"
  | Op_ShiftRightGuestMemory =>
      checkUse defined o.(o_lhs) "guest address" ++
      error_if (width_is_not I32 o && width_is_not I64 o)
        "shift_right_guest_memory currently requires i32 or i64"
  | Op_IncrementGuestMemory | Op_DecrementGuestMemory =>
      checkUse defined o.(o_lhs) "guest address"
  | Op_CompareExchangeGuestMemory =>
      checkUse defined o.(o_lhs) "guest address" ++
      checkUse defined o.(o_rhs) "source" ++
      error_if (width_is_not I8 o && width_is_not I32 o && width_is_not I64 o)
        "compare_exchange_guest_memory currently requires i8, i32, or i64"
  | Op_CompareExchangeGuestPair =>
      checkUse defined o.(o_lhs) "guest address" ++
      error_if (width_is_not I64 o) "compare_exchange_guest_pair requires i64 lanes"
  | Op_ExchangeGuestMemory =>
      checkUse defined o.(o_lhs) "guest address" ++
      checkUse defined o.(o_rhs) "source" ++
      error_if (absent o.(o_guestRegister)) "exchange_guest_memory lacks a destination register" ++
      error_if (width_is_not I8 o && width_is_not I32 o && width_is_not I64 o)
        "exchange_guest_memory currently requires i8, i32 or i64"
  | Op_LockedAddGuestMemory =>
      checkUse defined o.(o_lhs) "guest address" ++
      checkUse defined o.(o_rhs) "source" ++
      error_if (width_is_not I32 o && width_is_not I64 o)
        "locked_add_guest_memory currently requires i32 or i64"
  | Op_LockedExchangeAddGuestMemory =>
      checkUse defined o.(o_lhs) "guest address" ++
      checkUse defined o.(o_rhs) "source" ++
      error_if (absent o.(o_guestRegister)) "locked_exchange_add_guest_memory lacks a source register" ++
      error_if (width_is_not I16 o && width_is_not I32 o && width_is_not I64 o)
        "locked_exchange_add_guest_memory currently requires i16, i32, or i64"
  | Op_LockedIncrementGuestMemory =>
      checkUse defined o.(o_lhs) "guest address" ++
      error_if (width_is_not I32 o && width_is_not I64 o)
        "locked_increment_guest_memory currently requires i32 or i64"
  | Op_LockedDecrementGuestMemory =>
      checkUse defined o.(o_lhs) "guest address" ++
      error_if (width_is_not I32 o && width_is_not I64 o)
        "locked_decrement_guest_memory currently requires i32 or i64"
  | Op_LockedOrGuestMemory =>
      checkUse defined o.(o_lhs) "guest address" ++
      checkUse defined o.(o_rhs) "immediate" ++
      error_if (width_is_not I8 o && width_is_not I16 o && width_is_not I32 o && width_is_not I64 o)
        "locked_or_guest_memory currently requires i8, i16, i32, or i64"
  | Op_LockedAndGuestMemory =>
      checkUse defined o.(o_lhs) "guest address" ++
      checkUse defined o.(o_rhs) "immediate" ++
      error_if (width_is_not I16 o && width_is_not I32 o && width_is_not I64 o)
        "locked_and_guest_memory currently requires i16, i32, or i64"
  | Op_StoreGuestIdtr =>
      checkUse defined o.(o_lhs) "guest address"
  | Op_StoreGuest =>
      checkUse defined o.(o_lhs) "guest address" ++
      checkUse defined o.(o_rhs) "stored value"
  | Op_StoreGuestXmm =>
      checkUse defined o.(o_lhs) "guest address" ++
      error_if (absent o.(o_guestXmmRegister)) "store_guest_xmm has no register"
  | Op_StoreGuestYmm =>
      checkUse defined o.(o_lhs) "guest address" ++
      error_if (absent o.(o_guestXmmRegister)) "store_guest_ymm has no register"
  | Op_LoadGuestXmm =>
      checkUse defined o.(o_lhs) "guest address" ++
      error_if (absent o.(o_guestXmmRegister)) "load_guest_xmm has no register"
  | Op_LoadGuestYmm =>
      checkUse defined o.(o_lhs) "guest address" ++
      error_if (absent o.(o_guestXmmRegister)) "load_guest_ymm has no register"
  | Op_LoadGuestSignExtendedBytesXmm =>
      checkUse defined o.(o_lhs) "guest address" ++
      error_if (absent o.(o_guestXmmRegister)) "load_guest_sign_extended_bytes_xmm has no register"
  | Op_LoadGuestSignExtendedDwordsXmm =>
      checkUse defined o.(o_lhs) "guest address" ++
      error_if (absent o.(o_guestXmmRegister)) "load_guest_sign_extended_dwords_xmm has no register"
  | Op_XorGuestMemoryXmm =>
      checkUse defined o.(o_lhs) "guest address" ++
      error_if (absent o.(o_guestXmmRegister)) "xor_guest_memory_xmm has no register"
  | Op_AndGuestMemoryXmm =>
      checkUse defined o.(o_lhs) "guest address" ++
      error_if (absent o.(o_guestXmmRegister)) "and_guest_memory_xmm has no register"
  | Op_AddGuestMemoryXmm =>
      checkUse defined o.(o_lhs) "guest address" ++
      error_if (absent o.(o_guestXmmRegister)) "add_guest_memory_xmm has no register"
  | Op_TestXmmBits =>
      error_if (absent o.(o_guestXmmRegister) || absent o.(o_sourceGuestXmmRegister))
        "test_xmm_bits has incomplete registers"
  | Op_CompareEqualGuestBytesXmm =>
      checkUse defined o.(o_lhs) "guest address" ++
      error_if (absent o.(o_guestXmmRegister)) "compare_equal_guest_bytes_xmm has no register"
  | Op_CompareEqualGuestQwordsXmm =>
      checkUse defined o.(o_lhs) "guest address" ++
      error_if (absent o.(o_guestXmmRegister)) "compare_equal_guest_qwords_xmm has no register"
  | Op_CompareEqualXmmBytes =>
      error_if (absent o.(o_guestXmmRegister) || absent o.(o_sourceGuestXmmRegister))
        "compare_equal_xmm_bytes has incomplete registers"
  | Op_CompareEqualXmmDwords =>
      error_if (absent o.(o_guestXmmRegister) || absent o.(o_sourceGuestXmmRegister)
        || width_is_not I32 o)
        "compare_equal_xmm_dwords has incomplete registers"
  | Op_CompareEqualXmmQwords =>
      error_if (absent o.(o_guestXmmRegister) || absent o.(o_sourceGuestXmmRegister)
        || width_is_not I64 o)
        "compare_equal_xmm_qwords has incomplete registers"
  | Op_ShiftLeftXmmDwords =>
      error_if (absent o.(o_guestXmmRegister) || width_is_not I32 o)
        "shift_left_xmm_dwords has incomplete operands"
  | Op_AddXmmWords =>
      error_if (absent o.(o_guestXmmRegister) || absent o.(o_sourceGuestXmmRegister)
        || width_is_not I16 o)
        "add_xmm_words has incomplete registers"
  | Op_ComparePackedDoubleXmm =>
      error_if (absent o.(o_guestXmmRegister) || absent o.(o_sourceGuestXmmRegister)
        || width_is_not I64 o)
        "compare_packed_double_xmm has incomplete registers"
  | Op_ArithmeticPackedDoubleXmm =>
      error_if (absent o.(o_guestXmmRegister) || absent o.(o_sourceGuestXmmRegister)
        || width_is_not I64 o || (4 <? o.(o_immediate)))
        "arithmetic_packed_double_xmm has incomplete operands"
  | Op_ArithmeticGuestMemoryPackedDoubleXmm =>
      checkUse defined o.(o_lhs) "guest address" ++
      error_if (absent o.(o_guestXmmRegister) || width_is_not I64 o || (4 <? o.(o_immediate)))
        "arithmetic_guest_memory_packed_double_xmm has incomplete operands"
  | Op_UnpackHighPackedSingleXmm =>
      error_if (absent o.(o_guestXmmRegister) || absent o.(o_sourceGuestXmmRegister)
        || width_is_not I64 o)
        "unpack_high_packed_single_xmm has incomplete registers"
  | Op_UnpackHighGuestPackedSingleXmm =>
      checkUse defined o.(o_lhs) "guest address" ++
      error_if (absent o.(o_guestXmmRegister) || width_is_not I64 o)
        "unpack_high_guest_packed_single_xmm has incomplete operands"
  | Op_HorizontalAddPackedDoubleXmm =>
      error_if (absent o.(o_guestXmmRegister) || absent o.(o_sourceGuestXmmRegister)
        || width_is_not I64 o)
        "horizontal_add_packed_double_xmm has incomplete registers"
  | Op_HorizontalAddGuestPackedDoubleXmm =>
      checkUse defined o.(o_lhs) "guest address" ++
      error_if (absent o.(o_guestXmmRegister) || width_is_not I64 o)
        "horizontal_add_guest_packed_double_xmm has incomplete operands"
  | Op_UnpackLowPackedSingleXmm =>
      error_if (absent o.(o_guestXmmRegister) || absent o.(o_sourceGuestXmmRegister)
        || width_is_not I64 o)
        "unpack_low_packed_single_xmm has incomplete registers"
  | Op_UnpackLowGuestPackedSingleXmm =>
      checkUse defined o.(o_lhs) "guest address" ++
      error_if (absent o.(o_guestXmmRegister) || width_is_not I64 o)
        "unpack_low_guest_packed_single_xmm has incomplete operands"
  | Op_UpdateUnorderedDoubleFlags =>
      checkUse defined o.(o_lhs) "destination bits" ++
      checkUse defined o.(o_rhs) "source bits" ++
      error_if (width_is_not I64 o) "update_unordered_double_flags currently requires i64"
  | Op_UpdateUnorderedFloatFlags =>
      checkUse defined o.(o_lhs) "destination bits" ++
      checkUse defined o.(o_rhs) "source bits" ++
      error_if (width_is_not I32 o) "update_unordered_float_flags currently requires i32"
  | Op_ConvertIntToDoubleXmm =>
      checkUse defined o.(o_lhs) "integer value" ++
      error_if (absent o.(o_guestXmmRegister) || (width_is_not I32 o && width_is_not I64 o))
        "convert_int_to_double_xmm requires an XMM register and i32 or i64"
  | Op_ConvertDoubleToInt =>
      checkUse defined o.(o_lhs) "double bits" ++
      error_if (absent o.(o_guestRegister) || (width_is_not I32 o && width_is_not I64 o))
        "convert_double_to_int requires a register and i32 or i64"
  | Op_ConvertFloatToDoubleXmm =>
      checkUse defined o.(o_lhs) "float value" ++
      error_if (absent o.(o_guestXmmRegister) || width_is_not I32 o)
        "convert_float_to_double_xmm requires an XMM register and i32"
  | Op_ConvertInt32x2ToDoubleXmm =>
      checkUse defined o.(o_lhs) "low qword bits" ++
      error_if (absent o.(o_guestXmmRegister) || width_is_not I64 o)
        "convert_int32x2_to_double_xmm requires an XMM register and i64"
  | Op_ScalarDoubleXmm =>
      checkUse defined o.(o_lhs) "source double bits" ++
      error_if (absent o.(o_guestXmmRegister) || (6 <? o.(o_immediate)))
        "scalar_double_xmm requires an XMM register and operation 0-6"
  | Op_AddXmmDwords =>
      error_if (absent o.(o_guestXmmRegister) || absent o.(o_sourceGuestXmmRegister)
        || width_is_not I32 o)
        "add_xmm_dwords has incomplete registers"
  | Op_HorizontalAddXmmDwords =>
      error_if (absent o.(o_guestXmmRegister) || absent o.(o_sourceGuestXmmRegister)
        || width_is_not I32 o)
        "horizontal_add_xmm_dwords has incomplete registers"
  | Op_AndNotXmm =>
      error_if (absent o.(o_guestXmmRegister) || absent o.(o_sourceGuestXmmRegister))
        "and_not_xmm has incomplete registers"
  | Op_MoveXmmByteMask =>
      error_if (absent o.(o_guestRegister) || absent o.(o_guestXmmRegister))
        "move_xmm_byte_mask has incomplete registers"
  | Op_ShuffleXmmBytes =>
      error_if (absent o.(o_guestXmmRegister)
        || Bool.eqb (present o.(o_lhs)) (present o.(o_sourceGuestXmmRegister)))
        "shuffle_xmm_bytes has incomplete registers" ++
      (if present o.(o_lhs) then checkUse defined o.(o_lhs) "guest address" else [])
  | Op_ShuffleXmmDwords =>
      error_if (absent o.(o_guestXmmRegister) || absent o.(o_sourceGuestXmmRegister)
        || (0xFF <? o.(o_immediate)))
        "shuffle_xmm_dwords is incomplete"
  | Op_AlignRightXmmBytes =>
      error_if (absent o.(o_guestXmmRegister) || absent o.(o_sourceGuestXmmRegister)
        || (0xFF <? o.(o_immediate)))
        "align_right_xmm_bytes is incomplete"
  | Op_BlendXmmWords =>
      error_if (absent o.(o_guestXmmRegister) || absent o.(o_sourceGuestXmmRegister)
        || (0xFF <? o.(o_immediate)))
        "blend_xmm_words is incomplete"
  | Op_UnpackLowXmmWords =>
      error_if (absent o.(o_guestXmmRegister) || absent o.(o_sourceGuestXmmRegister)
        || width_is_not I16 o)
        "unpack_low_xmm_words has incomplete registers"
  | Op_BitScanForward =>
      error_if (absent o.(o_guestRegister)) "bit_scan_forward has no destination register"
  | Op_BitScanReverse =>
      error_if (absent o.(o_guestRegister)) "bit_scan_reverse has no destination register"
  | Op_DivideUnsignedByte =>
      checkUse defined o.(o_lhs) "divisor" ++
      error_if (width_is_not I8 o) "divide_unsigned_byte has the wrong width"
  | Op_DivideUnsignedDword =>
      checkUse defined o.(o_lhs) "divisor" ++
      error_if (width_is_not I32 o) "divide_unsigned_dword has the wrong width"
  | Op_DivideUnsignedQword =>
      checkUse defined o.(o_lhs) "divisor" ++
      error_if (width_is_not I64 o) "divide_unsigned_qword has the wrong width"
  | Op_DivideSignedDword =>
      checkUse defined o.(o_lhs) "divisor" ++
      error_if (width_is_not I32 o) "divide_signed_dword has the wrong width"
  | Op_LoadGuest =>
      checkUse defined o.(o_lhs) "guest address"
  | Op_LoadFence | Op_StoreFence | Op_ReadTimestampCounter =>
      []
  | Op_WriteDirectionFlag =>
      error_if (1 <? o.(o_immediate)) "write_direction_flag immediate is not 0 or 1"
  | Op_Cpuid =>
      []
  | Op_UpdateAddFlags | Op_UpdateSubFlags =>
      checkUse defined o.(o_lhs) "left" ++
      checkUse defined o.(o_rhs) "right" ++
      checkUse defined o.(o_third) "result"
  | Op_UpdateAdcFlags =>
      checkUse defined o.(o_lhs) "left" ++
      checkUse defined o.(o_rhs) "right" ++
      checkUse defined o.(o_third) "carry" ++
      error_if (width_is_not I8 o && width_is_not I32 o && width_is_not I64 o)
        "update_adc_flags requires i8, i32 or i64"
  | Op_UpdateSbbFlags =>
      checkUse defined o.(o_lhs) "left" ++
      checkUse defined o.(o_rhs) "right" ++
      checkUse defined o.(o_third) "borrow" ++
      error_if (width_is_not I8 o && width_is_not I16 o && width_is_not I32 o && width_is_not I64 o)
        "update_sbb_flags requires i8, i16, i32, or i64"
  | Op_UpdateIncFlags | Op_UpdateDecFlags =>
      checkUse defined o.(o_lhs) "original" ++
      checkUse defined o.(o_rhs) "result"
  | Op_UpdateLogicFlags =>
      checkUse defined o.(o_lhs) "result"
  | Op_UpdateMultiplyFlags =>
      checkUse defined o.(o_lhs) "high result"
  | Op_UpdateSignedMultiplyFlags =>
      checkUse defined o.(o_lhs) "left" ++
      checkUse defined o.(o_rhs) "right" ++
      error_if (width_is_not I32 o && width_is_not I64 o)
        "update_signed_multiply_flags requires i32 or i64"
  | Op_UpdateShiftRightDoubleFlags =>
      checkUse defined o.(o_lhs) "original" ++
      checkUse defined o.(o_rhs) "result"
  | Op_UpdateBitTestFlags =>
      checkUse defined o.(o_lhs) "tested value" ++
      error_if (width_is_not I32 o && width_is_not I64 o) "update_bit_test_flags requires i32 or i64"
  | Op_LockedBitSetGuestMemory =>
      checkUse defined o.(o_lhs) "guest address" ++
      error_if (width_is_not I32 o && width_is_not I64 o)
        "locked_bit_set_guest_memory currently requires i32 or i64"
  | Op_UpdateShiftLeftFlags =>
      checkUse defined o.(o_lhs) "original" ++
      checkUse defined o.(o_rhs) "result" ++
      (if present o.(o_third) then checkUse defined o.(o_third) "shift count" else [])
  | Op_UpdateShiftRightFlags | Op_UpdateShiftRightArithmeticFlags =>
      checkUse defined o.(o_lhs) "original" ++
      checkUse defined o.(o_rhs) "result" ++
      (if present o.(o_third) then checkUse defined o.(o_third) "shift count" else [])
  | Op_UpdateRotateLeftFlags =>
      checkUse defined o.(o_lhs) "result" ++
      (if present o.(o_rhs) then checkUse defined o.(o_rhs) "rotate count" else []) ++
      error_if (width_is_not I16 o && width_is_not I32 o && width_is_not I64 o)
        "update_rotate_left_flags currently requires i16, i32, or i64"
  | Op_UpdateRotateRightFlags =>
      checkUse defined o.(o_lhs) "result" ++
      error_if (width_is_not I32 o && width_is_not I64 o) "update_rotate_right_flags requires i32 or i64"
  | Op_ExitBlock =>
      (if (exit_is Exit_Call o || exit_is Exit_Direct o) && present o.(o_lhs)
       then checkUse defined o.(o_lhs) "indirect exit target"
       else error_if (exit_is_not Exit_Return o && absent o.(o_target)) "non-return exit has no target") ++
      error_if ((exit_is Exit_Conditional o || exit_is Exit_Call o) && absent o.(o_fallthrough))
        "conditional/call exit has no fallthrough" ++
      error_if (exit_is Exit_Conditional o && absent o.(o_condition)) "conditional exit has no condition"
  end.

Definition VerifyState : Type := list string * list bool * bool.

Definition is_exit (o : Operation) : bool := match o.(o_opcode) with Op_ExitBlock => true | _ => false end.

Definition verify_operation (s : VerifyState) (o : Operation) : VerifyState :=
  let '(errors, defined, sawExit) := s in
  let errors := errors ++ error_if sawExit "operation follows exit_block" ++ check_operation defined o in
  let sawExit := sawExit || is_exit o in
  match o.(o_result) with
  | None => (errors, defined, sawExit)
  | Some result =>
      if zlength defined <=? result
      then (errors ++ ["result value is outside block value table"%string], defined, sawExit)
      else if nth (Z.to_nat result) defined false
      then (errors ++ ["SSA value is defined more than once"%string], defined, sawExit)
      else (errors, <[Z.to_nat result := true]> defined, sawExit)
  end.

Definition verify (block : Block) : list string :=
  let '(errors, defined, sawExit) :=
    fold_left verify_operation block.(b_operations)
      ([], replicate (Z.to_nat block.(b_valueCount)) false, false) in
  errors ++ error_if (negb sawExit) "block has no exit_block".
