(* ===== verification/IRVerifySpec.v ===== *)
(** What the verifier accepts: blocks in static single assignment form that end
    in their only exit, each of whose operations is complete. *)
From S2P Require Import Prelude X86State IR IRVerify.

(** ** Operands *)

(** The operands the verifier checks, as a count of required ones, in the order
    [lhs], [rhs], [third], and whether the next one is checked when present.  For
    [UpdateRotateRightFlags] the optional count in [rhs] is not checked. *)
Definition arity (o : Operation) : nat * bool :=
  match o.(o_opcode) with
  | Op_ConditionalMoveGuestReg | Op_ShuffleXmmBytes => (0%nat, true)
  | Op_UpdateShiftLeftFlags | Op_UpdateShiftRightFlags | Op_UpdateShiftRightArithmeticFlags => (2%nat, true)
  | Op_ShiftLeft | Op_ShiftRightLogical | Op_ShiftRightArithmetic | Op_UpdateRotateLeftFlags => (1%nat, true)
  | Op_UpdateAddFlags | Op_UpdateSubFlags | Op_UpdateAdcFlags | Op_UpdateSbbFlags => (3%nat, false)
  | Op_Add | Op_Sub | Op_And | Op_Or | Op_Xor | Op_MultiplyLow | Op_MultiplyHighUnsigned
  | Op_MultiplyHighSigned | Op_ShiftRightDouble | Op_Push | Op_AddGuestMemory | Op_SubGuestMemory
  | Op_OrGuestMemory | Op_AndGuestMemory | Op_CompareExchangeGuestMemory | Op_ExchangeGuestMemory
  | Op_LockedAddGuestMemory | Op_LockedExchangeAddGuestMemory | Op_LockedOrGuestMemory
  | Op_LockedAndGuestMemory | Op_StoreGuest | Op_UpdateUnorderedDoubleFlags
  | Op_UpdateUnorderedFloatFlags | Op_UpdateIncFlags | Op_UpdateDecFlags
  | Op_UpdateSignedMultiplyFlags | Op_UpdateShiftRightDoubleFlags => (2%nat, false)
  | Op_WriteGuestReg | Op_WriteGuestXmmLane | Op_WriteGuestYmmUpperLane | Op_WriteGuestXmmByte
  | Op_WriteGuestXmmDword | Op_SignExtend32 | Op_ByteSwap | Op_ShiftLeftGuestMemory
  | Op_ShiftRightGuestMemory | Op_IncrementGuestMemory | Op_DecrementGuestMemory
  | Op_CompareExchangeGuestPair | Op_LockedIncrementGuestMemory | Op_LockedDecrementGuestMemory
  | Op_StoreGuestIdtr | Op_StoreGuestXmm | Op_StoreGuestYmm | Op_LoadGuestXmm | Op_LoadGuestYmm
  | Op_LoadGuestSignExtendedBytesXmm | Op_LoadGuestSignExtendedDwordsXmm | Op_XorGuestMemoryXmm
  | Op_AndGuestMemoryXmm | Op_AddGuestMemoryXmm | Op_CompareEqualGuestBytesXmm
  | Op_CompareEqualGuestQwordsXmm | Op_ArithmeticGuestMemoryPackedDoubleXmm
  | Op_UnpackHighGuestPackedSingleXmm | Op_HorizontalAddGuestPackedDoubleXmm
  | Op_UnpackLowGuestPackedSingleXmm | Op_ConvertIntToDoubleXmm | Op_ConvertDoubleToInt
  | Op_ConvertFloatToDoubleXmm | Op_ConvertInt32x2ToDoubleXmm | Op_ScalarDoubleXmm
  | Op_DivideUnsignedByte | Op_DivideUnsignedDword | Op_DivideUnsignedQword | Op_DivideSignedDword
  | Op_LoadGuest | Op_UpdateLogicFlags | Op_UpdateMultiplyFlags | Op_UpdateBitTestFlags
  | Op_LockedBitSetGuestMemory | Op_UpdateRotateRightFlags => (1%nat, false)
  | Op_ExitBlock => (0%nat, exit_is Exit_Call o || exit_is Exit_Direct o)
  | _ => (0%nat, false)
  end.

Definition operand_slots (o : Operation) : list (option ValueId) := [o.(o_lhs); o.(o_rhs); o.(o_third)].

Definition operands (o : Operation) : list (option ValueId) :=
  let '(required, optional) := arity o in
  take required (operand_slots o) ++
  (if optional then flat_map (fun v => if present v then [v] else []) (take 1 (drop required (operand_slots o)))
   else []).

(** An operand is available when it is present and defined. *)
Definition available (defined : list bool) (v : option ValueId) : Prop :=
  exists x, v = Some x /\ defined_at defined x = true.

(** The part of the checks that does not depend on the values defined so far. *)
Definition complete (o : Operation) : Prop := exists defined, check_operation defined o = [].

(** ** One operation *)

Lemma error_if_nil c m : error_if c m = [] <-> c = false.
Proof. by destruct c. Qed.

Lemma checkUse_nil defined v role : checkUse defined v role = [] <-> available defined v.
Proof.
  unfold available. destruct v as [x|]; cbn; [|by split; [|intros (? & ? & ?)]].
  rewrite error_if_nil, negb_false_iff. split; [by exists x|by intros (? & [= ->] & ?)].
Qed.

Lemma optional_nil defined v role (k : list string) :
  (if present v then checkUse defined v role else k) = [] <->
  if present v then available defined v else k = [].
Proof. destruct v; [apply checkUse_nil|done]. Qed.

(** [operands] and the verifier's checks of the values, opcode by opcode. *)
Lemma checked_operands defined o : check_operation defined o = [] -> Forall (available defined) (operands o).
Proof.
  unfold operands, arity, check_operation. destruct (o_opcode o); cbn [operand_slots take drop app flat_map];
    rewrite ?app_nil, ?optional_nil, ?checkUse_nil, ?error_if_nil; rewrite ?app_nil_r.
  all: try (intros; destruct_and?; repeat (apply Forall_cons; split); try done; apply Forall_nil; done).
  all: try (match goal with |- context [present ?v] => destruct (present v) end; intros; destruct_and?;
    repeat (apply Forall_cons; split); try done; apply Forall_nil; done).
  destruct (exit_is Exit_Call o || exit_is Exit_Direct o); cbn [andb flat_map app]; [|done].
  destruct (present (o_lhs o)); cbn; [|done]. intros [H _]. apply Forall_cons. by apply checkUse_nil in H.
Qed.

(** The other checks do not look at the values. *)
Lemma check_independent defined defined' o : check_operation defined o = [] ->
  Forall (available defined') (operands o) -> check_operation defined' o = [].
Proof.
  unfold operands, arity, check_operation. destruct (o_opcode o); cbn [operand_slots take drop app flat_map];
    rewrite ?app_nil, ?optional_nil, ?checkUse_nil, ?error_if_nil; rewrite ?app_nil_r, ?Forall_cons; try tauto.
  all: try (match goal with |- context [present ?v] => destruct (present v) end; rewrite ?Forall_cons; tauto).
  destruct (exit_is Exit_Call o || exit_is Exit_Direct o); cbn [andb flat_map app]; [|done].
  destruct (present (o_lhs o)); cbn [app]; [|done]. rewrite Forall_cons, !checkUse_nil. tauto.
Qed.

Lemma check_operation_spec defined o :
  check_operation defined o = [] <-> complete o /\ Forall (available defined) (operands o).
Proof.
  split.
  - intros H. split; [by exists defined|by apply checked_operands].
  - intros [[d Hd] Ho]. by apply (check_independent d).
Qed.

(** ** Blocks *)

Definition results (ops : list Operation) : list ValueId := omap o_result ops.

(** [o] may follow the operations [before] in a block of [n] values: no exit
    came first, it is complete, it reads only results of [before], and its own
    result is a new value. *)
Record may_follow (n : Z) (before : list Operation) (o : Operation) : Prop := {
  no_exit_before : Forall (fun p => is_exit p = false) before;
  is_complete : complete o;
  reads_before : Forall (fun v => exists x, v = Some x /\ x ∈ results before) (operands o);
  new_result : forall r, o.(o_result) = Some r -> r < n /\ r ∉ results before
}.

(** Static single assignment form with one exit, at the end. *)
Definition ssa (b : Block) : Prop :=
  (forall i o, b.(b_operations) !! i = Some o -> may_follow b.(b_valueCount) (take i b.(b_operations)) o) /\
  exists body exit, b.(b_operations) = body ++ [exit] /\ is_exit exit = true.

(** Value numbers are unsigned. *)
Definition ids_unsigned (ops : list Operation) : Prop := Forall (fun o => forall r, o.(o_result) = Some r -> 0 <= r) ops.

(** The table of defined values after the operations [before]. *)
Definition table (n : nat) (before : list Operation) (defined : list bool) : Prop :=
  length defined = n /\ forall x, defined_at defined x = true <-> x ∈ results before.

Lemma table_start n : table n [] (replicate n false).
Proof.
  split; [apply length_replicate|]. intros x. unfold defined_at. split; [|by intros ?%elem_of_nil].
  intros H. apply andb_true_iff in H as [_ H]. rewrite nth_lookup in H.
  destruct (replicate n false !! Z.to_nat x) as [b|] eqn:E; [|done]. apply lookup_replicate in E as [-> _]. done.
Qed.

Lemma results_snoc before o : results (before ++ [o]) = results before ++ match o.(o_result) with Some r => [r] | None => [] end.
Proof. unfold results. rewrite omap_app. cbn. by destruct (o_result o). Qed.

Lemma table_insert n before defined o r : table n before defined -> o.(o_result) = Some r ->
  0 <= r < Z.of_nat n -> table n (before ++ [o]) (<[Z.to_nat r := true]> defined).
Proof.
  intros [Hlen Ht] Ho Hr. split; [by rewrite length_insert|]. intros x.
  rewrite results_snoc, Ho, elem_of_app, list_elem_of_singleton, <- Ht. unfold defined_at, zlength.
  rewrite length_insert, Hlen, !nth_lookup. destruct (Z.eq_dec x r) as [->|Hx].
  - rewrite list_lookup_insert_eq by lia. cbn. rewrite andb_true_r, andb_true_iff, Z.leb_le, Z.ltb_lt. split; [by right|lia].
  - destruct (Z.leb_spec 0 x); [|cbn; split; [done|by intros [|]]].
    rewrite list_lookup_insert_ne by lia. split; [by left|by intros [|]].
Qed.

Lemma table_same n before defined o : table n before defined -> o.(o_result) = None -> table n (before ++ [o]) defined.
Proof. intros [Hlen Ht] Ho. split; [done|]. intros x. by rewrite results_snoc, Ho, app_nil_r. Qed.

Lemma available_results n before defined v : table n before defined ->
  available defined v <-> exists x, v = Some x /\ x ∈ results before.
Proof. intros [_ Ht]. unfold available. by setoid_rewrite Ht. Qed.

(** The state of the scan after the operations [before]. *)
Definition scanned (n : nat) (before : list Operation) (s : VerifyState) : Prop :=
  let '(errors, defined, sawExit) := s in
  length defined = n /\ sawExit = existsb is_exit before /\
  (errors = [] <-> forall i o, before !! i = Some o -> may_follow (Z.of_nat n) (take i before) o) /\
  (errors = [] -> table n before defined).

Lemma existsb_no_exit ops : existsb is_exit ops = false <-> Forall (fun p => is_exit p = false) ops.
Proof.
  induction ops as [|o ops IH]; cbn; [by split|]. rewrite orb_false_iff, Forall_cons, IH. done.
Qed.

Lemma snoc_forall {A} (P : nat -> A -> Prop) l x :
  (forall i o, (l ++ [x]) !! i = Some o -> P i o) <-> (forall i o, l !! i = Some o -> P i o) /\ P (length l) x.
Proof.
  split.
  - intros H. split; [intros i o Hi; apply H; by apply lookup_app_l_Some|]. apply H. by rewrite lookup_app_r, Nat.sub_diag.
  - intros [H Hx] i o Hi. apply lookup_app_Some in Hi as [Hi|[Hi Ho]]; [by apply H|].
    apply list_lookup_singleton_Some in Ho as [Hz <-]. by replace i with (length l) by lia.
Qed.

Definition all_follow (n : Z) (ops : list Operation) : Prop :=
  forall i o, ops !! i = Some o -> may_follow n (take i ops) o.

Lemma all_follow_snoc n before o : all_follow n (before ++ [o]) <-> all_follow n before /\ may_follow n before o.
Proof.
  unfold all_follow. rewrite (snoc_forall (fun i p => may_follow n (take i (before ++ [o])) p)).
  rewrite take_app_length. split; intros [H Ho]; (split; [|done]); intros i p Hi;
    specialize (H i p Hi); apply lookup_lt_Some in Hi; by rewrite take_app_le in * by lia.
Qed.

(** The result is a new value of the table. *)
Definition result_new (defined : list bool) (o : Operation) : Prop :=
  match o.(o_result) with
  | None => True
  | Some r => r < zlength defined /\ nth (Z.to_nat r) defined false = false
  end.

Lemma may_follow_table n before defined o : table n before defined -> (forall r, o.(o_result) = Some r -> 0 <= r) ->
  may_follow (Z.of_nat n) before o <->
  existsb is_exit before = false /\ check_operation defined o = [] /\ result_new defined o.
Proof.
  intros Ht Hr. rewrite existsb_no_exit, check_operation_spec. destruct Ht as [Hlen Htab].
  assert (Forall (available defined) (operands o) <->
          Forall (fun v => exists x, v = Some x /\ x ∈ results before) (operands o)) as Hops
    by (apply Forall_iff; intros v; by apply (available_results n)).
  assert (result_new defined o <-> forall r, o.(o_result) = Some r -> r < Z.of_nat n /\ r ∉ results before) as Hnew.
  { unfold result_new, zlength. rewrite Hlen. destruct (o_result o) as [r|] eqn:E; [|by split].
    specialize (Hr r eq_refl). specialize (Htab r). unfold defined_at, zlength in Htab. rewrite Hlen in Htab.
    rewrite (proj2 (Z.leb_le 0 r)) in Htab by done. split.
    - intros [Hlt Hn] r' [= <-]. split; [done|]. rewrite <- Htab, Hn, andb_false_r. done.
    - intros H. destruct (H r eq_refl) as [Hlt Hni]. split; [done|].
      rewrite <- Htab, (proj2 (Z.ltb_lt r _)) in Hni by done. cbn [andb] in Hni. by destruct (nth _ _ _). }
  rewrite Hops, Hnew. split; [by intros []|]. intros (? & (? & ?) & ?). by split.
Qed.

Lemma scanned_step n before s o : scanned n before s -> (forall r, o.(o_result) = Some r -> 0 <= r) ->
  scanned n (before ++ [o]) (verify_operation s o).
Proof.
  destruct s as [[errors defined] sawExit]. intros (Hlen & Hexit & Hgood & Htable) Hr. unfold verify_operation.
  set (errors' := errors ++ error_if sawExit "operation follows exit_block" ++ check_operation defined o).
  assert (errors' = [] /\ result_new defined o <-> all_follow (Z.of_nat n) (before ++ [o])) as Hfollow.
  { unfold errors'. rewrite all_follow_snoc, !app_nil, error_if_nil, Hexit, Hgood. split.
    - intros ((Ha & He & Hc) & Hn). split; [done|]. by apply (may_follow_table n before defined); [apply Htable, Hgood|..].
    - intros [Ha Hf]. rewrite (may_follow_table n before defined) in Hf by (done || by apply Htable, Hgood). tauto. }
  assert (sawExit || is_exit o = existsb is_exit (before ++ [o])) as Hexit'
    by (rewrite existsb_app; cbn; by rewrite orb_false_r, Hexit).
  assert (errors' = [] -> table n before defined) as Htable'
    by (unfold errors'; rewrite !app_nil; intros (? & _); by apply Htable).
  unfold result_new in Hfollow. destruct (o_result o) as [r|] eqn:E.
  - specialize (Hr r eq_refl). destruct (Z.leb_spec (zlength defined) r) as [Hle|Hlt].
    + split_and!; [done|done| |intros H; by apply app_nil in H as [_ ?]].
      split; [intros H; by apply app_nil in H as [_ ?]|]. intros H. apply Hfollow in H. lia.
    + destruct (nth (Z.to_nat r) defined false) eqn:Hnth.
      * split_and!; [done|done| |intros H; by apply app_nil in H as [_ ?]].
        split; [intros H; by apply app_nil in H as [_ ?]|]. intros H. apply Hfollow in H. by destruct H as (_ & _ & ?).
      * split_and!; [by rewrite length_insert|done| |].
        -- rewrite <- Hfollow. tauto.
        -- intros He. apply table_insert; [by apply Htable'|done|unfold zlength in Hlt; lia].
  - split_and!; [done|done| |].
    + rewrite <- Hfollow. tauto.
    + intros He. apply table_same; [by apply Htable'|done].
Qed.

Lemma scanned_all n ops : ids_unsigned ops ->
  scanned n ops (fold_left verify_operation ops ([], replicate n false, false)).
Proof.
  induction ops as [|o ops IH] using rev_ind; intros Hids.
  - cbn. split_and!; [apply length_replicate|done|by split|intros _; apply table_start].
  - apply Forall_app in Hids as [Hids Ho]. rewrite fold_left_app. cbn [fold_left].
    apply scanned_step; [by apply IH|]. by apply Forall_cons in Ho as [Ho _].
Qed.

Lemma verify_nil b : 0 <= b.(b_valueCount) -> ids_unsigned b.(b_operations) ->
  verify b = [] <-> all_follow b.(b_valueCount) b.(b_operations) /\ existsb is_exit b.(b_operations) = true.
Proof.
  intros Hn Hids. unfold verify. pose proof (scanned_all (Z.to_nat b.(b_valueCount)) _ Hids) as H.
  destruct (fold_left _ _ _) as [[errors defined] sawExit]. destruct H as (_ & -> & Hgood & _).
  by rewrite app_nil, error_if_nil, negb_false_iff, Hgood, Z2Nat.id by done.
Qed.


(** [mov rax, 5] followed by an exit. *)
Definition sampleBlock : Block := mkBlock 4096
  [set_immediate 5 (set_result 0 (new_operation Op_Constant I64 4096));
   set_guestRegister Rax (set_lhs 0 (new_operation Op_WriteGuestReg I64 4096));
   new_operation Op_ExitBlock I64 4096] 1.

Lemma sampleBlock_unsigned : ids_unsigned sampleBlock.(b_operations).
Proof. repeat constructor; intros r; by intros [= <-]. Qed.


(** The verifier does not look at the count of a rotate to the right: this block
    reads value 7, which no operation defines. *)
Lemma rotate_count_unchecked :
  verify (mkBlock 4096
    [set_immediate 5 (set_result 0 (new_operation Op_Constant I64 4096));
     set_rhs 7 (set_lhs 0 (new_operation Op_UpdateRotateRightFlags I64 4096));
     new_operation Op_ExitBlock I64 4096] 1) = [] /\
  verify (mkBlock 4096
    [set_immediate 5 (set_result 0 (new_operation Op_Constant I64 4096));
     set_rhs 7 (set_lhs 0 (new_operation Op_UpdateRotateLeftFlags I64 4096));
     new_operation Op_ExitBlock I64 4096] 1) = ["use of undefined rotate count value"%string].
Proof. split; reflexivity. Qed.
