(* ===== verification/IRBuilderSpec.v ===== *)
(** The builder and the verifier agree: every sequence of builder calls on values
    the builder returned, closed by an exit, makes a block the verifier accepts.

    [builder_step] has one rule per method of [ir::Builder]; the premises are the
    method's contract: operands are values of the block, the value counter has
    room, and widths and small immediates are those the operation supports. *)
From stdpp Require Import relations.
From S2P Require Import Prelude X86State IR IRBuilder IRVerify IRVerifySpec.

(** ** Calls *)

Definition has_value (b : Block) (v : ValueId) : Prop := 0 <= v < b.(b_valueCount).
Definition has_room (b : Block) : Prop := b.(b_valueCount) + 1 < 2 ^ 32.

Inductive builder_step (b : Block) : Block -> Prop :=
| step_constant value width rip : has_room b -> builder_step b (constant value width rip b).1
| step_readGuestRegister reg width rip :
    has_room b -> builder_step b (readGuestRegister reg width rip b).1
| step_readGuestGsBase rip : has_room b -> builder_step b (readGuestGsBase rip b).1
| step_writeGuestRegister reg value width rip :
    has_value b value -> builder_step b (writeGuestRegister reg value width rip b).1
| step_conditionalMoveGuestRegister_reg destination source condition width rip :
    builder_step b (conditionalMoveGuestRegister_reg destination source condition width rip b).1
| step_conditionalMoveGuestRegister_value destination source condition width rip :
    has_value b source ->
    builder_step b (conditionalMoveGuestRegister_value destination source condition width rip b).1
| step_readGuestXmmLane reg high rip :
    has_room b -> builder_step b (readGuestXmmLane reg high rip b).1
| step_readGuestYmmUpperLane reg high rip :
    has_room b -> builder_step b (readGuestYmmUpperLane reg high rip b).1
| step_writeGuestXmmLane reg high value rip :
    has_value b value -> builder_step b (writeGuestXmmLane reg high value rip b).1
| step_writeGuestYmmUpperLane reg high value rip :
    has_value b value -> builder_step b (writeGuestYmmUpperLane reg high value rip b).1
| step_writeGuestXmmByte reg lane value rip :
    has_value b value -> lane < 16 -> builder_step b (writeGuestXmmByte reg lane value rip b).1
| step_writeGuestXmmDword reg lane value rip :
    has_value b value -> lane < 4 -> builder_step b (writeGuestXmmDword reg lane value rip b).1
| step_add lhs rhs width rip :
    has_room b -> has_value b lhs -> has_value b rhs -> builder_step b (add lhs rhs width rip b).1
| step_sub lhs rhs width rip :
    has_room b -> has_value b lhs -> has_value b rhs -> builder_step b (sub lhs rhs width rip b).1
| step_shiftLeft_imm value count width rip :
    has_room b -> has_value b value -> builder_step b (shiftLeft_imm value count width rip b).1
| step_shiftLeft_value value count width rip :
    has_room b -> has_value b value -> has_value b count ->
    builder_step b (shiftLeft_value value count width rip b).1
| step_shiftRightLogical_imm value count width rip :
    has_room b -> has_value b value -> builder_step b (shiftRightLogical_imm value count width rip b).1
| step_shiftRightLogical_value value count width rip :
    has_room b -> has_value b value -> has_value b count ->
    builder_step b (shiftRightLogical_value value count width rip b).1
| step_shiftRightArithmetic_imm value count width rip :
    has_room b -> has_value b value ->
    builder_step b (shiftRightArithmetic_imm value count width rip b).1
| step_shiftRightArithmetic_value value count width rip :
    has_room b -> has_value b value -> has_value b count ->
    builder_step b (shiftRightArithmetic_value value count width rip b).1
| step_multiplyLow lhs rhs width rip :
    has_room b -> has_value b lhs -> has_value b rhs ->
    builder_step b (multiplyLow lhs rhs width rip b).1
| step_multiplyHighUnsigned lhs rhs width rip :
    has_room b -> has_value b lhs -> has_value b rhs ->
    builder_step b (multiplyHighUnsigned lhs rhs width rip b).1
| step_multiplyHighSigned lhs rhs width rip :
    has_room b -> has_value b lhs -> has_value b rhs ->
    builder_step b (multiplyHighSigned lhs rhs width rip b).1
| step_shiftRightDouble low high count width rip :
    has_room b -> has_value b low -> has_value b high ->
    builder_step b (shiftRightDouble low high count width rip b).1
| step_bitAnd lhs rhs width rip :
    has_room b -> has_value b lhs -> has_value b rhs -> builder_step b (bitAnd lhs rhs width rip b).1
| step_bitOr lhs rhs width rip :
    has_room b -> has_value b lhs -> has_value b rhs -> builder_step b (bitOr lhs rhs width rip b).1
| step_bitXor lhs rhs width rip :
    has_room b -> has_value b lhs -> has_value b rhs -> builder_step b (bitXor lhs rhs width rip b).1
| step_byteSwap value width rip :
    has_room b -> has_value b value -> width ∈ [I32; I64] ->
    builder_step b (byteSwap value width rip b).1
| step_signExtend32 value rip :
    has_room b -> has_value b value -> builder_step b (signExtend32 value rip b).1
| step_evaluateCondition condition rip :
    has_room b -> builder_step b (evaluateCondition condition rip b).1
| step_loadGuest address width rip :
    has_room b -> has_value b address -> builder_step b (loadGuest address width rip b).1
| step_storeGuest address value width rip :
    has_value b address -> has_value b value -> builder_step b (storeGuest address value width rip b).1
| step_storeGuestXmm address reg aligned rip :
    has_value b address -> builder_step b (storeGuestXmm address reg aligned rip b).1
| step_storeGuestYmm address reg aligned rip :
    has_value b address -> builder_step b (storeGuestYmm address reg aligned rip b).1
| step_loadGuestXmm address reg aligned rip :
    has_value b address -> builder_step b (loadGuestXmm address reg aligned rip b).1
| step_loadGuestYmm address reg aligned rip :
    has_value b address -> builder_step b (loadGuestYmm address reg aligned rip b).1
| step_loadGuestSignExtendedBytesXmm address reg rip :
    has_value b address -> builder_step b (loadGuestSignExtendedBytesXmm address reg rip b).1
| step_loadGuestSignExtendedDwordsXmm address reg rip :
    has_value b address -> builder_step b (loadGuestSignExtendedDwordsXmm address reg rip b).1
| step_xorGuestMemoryXmm address reg rip :
    has_value b address -> builder_step b (xorGuestMemoryXmm address reg rip b).1
| step_andGuestMemoryXmm address reg rip :
    has_value b address -> builder_step b (andGuestMemoryXmm address reg rip b).1
| step_addGuestMemoryXmm address reg rip :
    has_value b address -> builder_step b (addGuestMemoryXmm address reg rip b).1
| step_testXmmBits destination source rip : builder_step b (testXmmBits destination source rip b).1
| step_compareEqualGuestBytesXmm address reg rip :
    has_value b address -> builder_step b (compareEqualGuestBytesXmm address reg rip b).1
| step_compareEqualGuestQwordsXmm address reg rip :
    has_value b address -> builder_step b (compareEqualGuestQwordsXmm address reg rip b).1
| step_compareEqualXmmBytes destination source rip :
    builder_step b (compareEqualXmmBytes destination source rip b).1
| step_compareEqualXmmDwords destination source rip :
    builder_step b (compareEqualXmmDwords destination source rip b).1
| step_compareEqualXmmQwords destination source rip :
    builder_step b (compareEqualXmmQwords destination source rip b).1
| step_shiftLeftXmmDwords destination count rip :
    builder_step b (shiftLeftXmmDwords destination count rip b).1
| step_addXmmWords destination source rip : builder_step b (addXmmWords destination source rip b).1
| step_comparePackedDoubleXmm destination source predicate rip :
    builder_step b (comparePackedDoubleXmm destination source predicate rip b).1
| step_arithmeticPackedDoubleXmm destination source operation rip :
    operation <= 4 -> builder_step b (arithmeticPackedDoubleXmm destination source operation rip b).1
| step_arithmeticGuestMemoryPackedDoubleXmm address destination operation rip :
    has_value b address -> operation <= 4 ->
    builder_step b (arithmeticGuestMemoryPackedDoubleXmm address destination operation rip b).1
| step_unpackHighPackedSingleXmm destination source rip :
    builder_step b (unpackHighPackedSingleXmm destination source rip b).1
| step_unpackHighGuestPackedSingleXmm address destination rip :
    has_value b address -> builder_step b (unpackHighGuestPackedSingleXmm address destination rip b).1
| step_horizontalAddPackedDoubleXmm destination source rip :
    builder_step b (horizontalAddPackedDoubleXmm destination source rip b).1
| step_horizontalAddGuestPackedDoubleXmm address destination rip :
    has_value b address ->
    builder_step b (horizontalAddGuestPackedDoubleXmm address destination rip b).1
| step_unpackLowPackedSingleXmm destination source rip :
    builder_step b (unpackLowPackedSingleXmm destination source rip b).1
| step_unpackLowGuestPackedSingleXmm address destination rip :
    has_value b address -> builder_step b (unpackLowGuestPackedSingleXmm address destination rip b).1
| step_updateUnorderedDoubleFlags destinationBits sourceBits rip :
    has_value b destinationBits -> has_value b sourceBits ->
    builder_step b (updateUnorderedDoubleFlags destinationBits sourceBits rip b).1
| step_updateUnorderedFloatFlags destinationBits sourceBits rip :
    has_value b destinationBits -> has_value b sourceBits ->
    builder_step b (updateUnorderedFloatFlags destinationBits sourceBits rip b).1
| step_convertIntToDoubleXmm value destination width rip :
    has_value b value -> width ∈ [I32; I64] ->
    builder_step b (convertIntToDoubleXmm value destination width rip b).1
| step_convertDoubleToInt bits destination width rip :
    has_value b bits -> width ∈ [I32; I64] ->
    builder_step b (convertDoubleToInt bits destination width rip b).1
| step_convertFloatToDoubleXmm value destination rip :
    has_value b value -> builder_step b (convertFloatToDoubleXmm value destination rip b).1
| step_convertInt32x2ToDoubleXmm lowBits destination rip :
    has_value b lowBits -> builder_step b (convertInt32x2ToDoubleXmm lowBits destination rip b).1
| step_scalarDoubleXmm sourceBits destination operation rip :
    has_value b sourceBits -> operation <= 6 ->
    builder_step b (scalarDoubleXmm sourceBits destination operation rip b).1
| step_addXmmDwords destination source rip :
    builder_step b (addXmmDwords destination source rip b).1
| step_horizontalAddXmmDwords destination source rip :
    builder_step b (horizontalAddXmmDwords destination source rip b).1
| step_andNotXmm destination source rip : builder_step b (andNotXmm destination source rip b).1
| step_moveXmmByteMask destination source rip :
    builder_step b (moveXmmByteMask destination source rip b).1
| step_shuffleXmmBytes destination source rip :
    builder_step b (shuffleXmmBytes destination source rip b).1
| step_shuffleGuestMemoryXmmBytes address destination rip :
    has_value b address -> builder_step b (shuffleGuestMemoryXmmBytes address destination rip b).1
| step_shuffleXmmDwords destination source control rip :
    control <= 0xFF -> builder_step b (shuffleXmmDwords destination source control rip b).1
| step_alignRightXmmBytes destination source count rip :
    count <= 0xFF -> builder_step b (alignRightXmmBytes destination source count rip b).1
| step_blendXmmWords destination source mask rip :
    mask <= 0xFF -> builder_step b (blendXmmWords destination source mask rip b).1
| step_unpackLowXmmWords destination source rip :
    builder_step b (unpackLowXmmWords destination source rip b).1
| step_bitScanForward destination source width rip :
    builder_step b (bitScanForward destination source width rip b).1
| step_bitScanReverse destination source width rip :
    builder_step b (bitScanReverse destination source width rip b).1
| step_repeatMoveByte rip : builder_step b (repeatMoveByte rip b).1
| step_repeatStore width rip : builder_step b (repeatStore width rip b).1
| step_divideUnsignedByte divisor rip :
    has_value b divisor -> builder_step b (divideUnsignedByte divisor rip b).1
| step_divideUnsignedDword divisor rip :
    has_value b divisor -> builder_step b (divideUnsignedDword divisor rip b).1
| step_divideUnsignedQword divisor rip :
    has_value b divisor -> builder_step b (divideUnsignedQword divisor rip b).1
| step_divideSignedDword divisor rip :
    has_value b divisor -> builder_step b (divideSignedDword divisor rip b).1
| step_push newStackPointer value width rip :
    has_value b newStackPointer -> has_value b value ->
    builder_step b (push newStackPointer value width rip b).1
| step_addGuestMemory address source width rip :
    has_value b address -> has_value b source ->
    builder_step b (addGuestMemory address source width rip b).1
| step_subGuestMemory address source width rip :
    has_value b address -> has_value b source -> width ∈ [I8; I32; I64] ->
    builder_step b (subGuestMemory address source width rip b).1
| step_orGuestMemory address source width rip :
    has_value b address -> has_value b source ->
    builder_step b (orGuestMemory address source width rip b).1
| step_andGuestMemory address source width rip :
    has_value b address -> has_value b source ->
    builder_step b (andGuestMemory address source width rip b).1
| step_shiftLeftGuestMemory address count width rip :
    has_value b address -> width ∈ [I64] ->
    builder_step b (shiftLeftGuestMemory address count width rip b).1
| step_shiftRightLogicalGuestMemory address count width rip :
    has_value b address -> width ∈ [I32; I64] ->
    builder_step b (shiftRightLogicalGuestMemory address count width rip b).1
| step_incrementGuestMemory address width rip :
    has_value b address -> builder_step b (incrementGuestMemory address width rip b).1
| step_decrementGuestMemory address width rip :
    has_value b address -> builder_step b (decrementGuestMemory address width rip b).1
| step_compareExchangeGuestMemory address source width rip :
    has_value b address -> has_value b source -> width ∈ [I8; I32; I64] ->
    builder_step b (compareExchangeGuestMemory address source width rip b).1
| step_compareExchangeGuestPair address rip :
    has_value b address -> builder_step b (compareExchangeGuestPair address rip b).1
| step_exchangeGuestMemory address source destination width rip :
    has_value b address -> has_value b source -> width ∈ [I8; I32; I64] ->
    builder_step b (exchangeGuestMemory address source destination width rip b).1
| step_lockedAddGuestMemory address source width rip :
    has_value b address -> has_value b source -> width ∈ [I32; I64] ->
    builder_step b (lockedAddGuestMemory address source width rip b).1
| step_lockedExchangeAddGuestMemory address source sourceRegister width rip :
    has_value b address -> has_value b source -> width ∈ [I16; I32; I64] ->
    builder_step b (lockedExchangeAddGuestMemory address source sourceRegister width rip b).1
| step_lockedIncrementGuestMemory address width rip :
    has_value b address -> width ∈ [I32; I64] ->
    builder_step b (lockedIncrementGuestMemory address width rip b).1
| step_lockedDecrementGuestMemory address width rip :
    has_value b address -> width ∈ [I32; I64] ->
    builder_step b (lockedDecrementGuestMemory address width rip b).1
| step_lockedOrGuestMemory address immediate width rip :
    has_value b address -> has_value b immediate ->
    builder_step b (lockedOrGuestMemory address immediate width rip b).1
| step_lockedAndGuestMemory address immediate width rip :
    has_value b address -> has_value b immediate -> width ∈ [I16; I32; I64] ->
    builder_step b (lockedAndGuestMemory address immediate width rip b).1
| step_storeGuestIdtr address rip :
    has_value b address -> builder_step b (storeGuestIdtr address rip b).1
| step_loadFence rip : builder_step b (loadFence rip b).1
| step_writeDirectionFlag set rip : builder_step b (writeDirectionFlag set rip b).1
| step_storeFence rip : builder_step b (storeFence rip b).1
| step_readTimestampCounter rip : builder_step b (readTimestampCounter rip b).1
| step_cpuid rip : builder_step b (cpuid rip b).1
| step_updateAddFlags lhs rhs result width rip :
    has_value b lhs -> has_value b rhs -> has_value b result ->
    builder_step b (updateAddFlags lhs rhs result width rip b).1
| step_updateAdcFlags lhs rhs carry width rip :
    has_value b lhs -> has_value b rhs -> has_value b carry -> width ∈ [I8; I32; I64] ->
    builder_step b (updateAdcFlags lhs rhs carry width rip b).1
| step_updateSbbFlags lhs rhs borrow width rip :
    has_value b lhs -> has_value b rhs -> has_value b borrow ->
    builder_step b (updateSbbFlags lhs rhs borrow width rip b).1
| step_updateIncFlags original result width rip :
    has_value b original -> has_value b result ->
    builder_step b (updateIncFlags original result width rip b).1
| step_updateDecFlags original result width rip :
    has_value b original -> has_value b result ->
    builder_step b (updateDecFlags original result width rip b).1
| step_updateSubFlags lhs rhs result width rip :
    has_value b lhs -> has_value b rhs -> has_value b result ->
    builder_step b (updateSubFlags lhs rhs result width rip b).1
| step_updateLogicFlags result width rip :
    has_value b result -> builder_step b (updateLogicFlags result width rip b).1
| step_updateShiftLeftFlags_imm lhs result count width rip :
    has_value b lhs -> has_value b result ->
    builder_step b (updateShiftLeftFlags_imm lhs result count width rip b).1
| step_updateShiftLeftFlags_value lhs result count width rip :
    has_value b lhs -> has_value b result -> has_value b count ->
    builder_step b (updateShiftLeftFlags_value lhs result count width rip b).1
| step_updateShiftRightFlags_imm lhs result count width rip :
    has_value b lhs -> has_value b result ->
    builder_step b (updateShiftRightFlags_imm lhs result count width rip b).1
| step_updateShiftRightFlags_value lhs result count width rip :
    has_value b lhs -> has_value b result -> has_value b count ->
    builder_step b (updateShiftRightFlags_value lhs result count width rip b).1
| step_updateShiftRightArithmeticFlags_imm lhs result count width rip :
    has_value b lhs -> has_value b result ->
    builder_step b (updateShiftRightArithmeticFlags_imm lhs result count width rip b).1
| step_updateShiftRightArithmeticFlags_value lhs result count width rip :
    has_value b lhs -> has_value b result -> has_value b count ->
    builder_step b (updateShiftRightArithmeticFlags_value lhs result count width rip b).1
| step_updateRotateLeftFlags_imm result count width rip :
    has_value b result -> width ∈ [I16; I32; I64] ->
    builder_step b (updateRotateLeftFlags_imm result count width rip b).1
| step_updateRotateLeftFlags_value result count width rip :
    has_value b result -> has_value b count -> width ∈ [I16; I32; I64] ->
    builder_step b (updateRotateLeftFlags_value result count width rip b).1
| step_updateRotateRightFlags_imm result count width rip :
    has_value b result -> width ∈ [I32; I64] ->
    builder_step b (updateRotateRightFlags_imm result count width rip b).1
| step_updateRotateRightFlags_value result count width rip :
    has_value b result -> has_value b count -> width ∈ [I32; I64] ->
    builder_step b (updateRotateRightFlags_value result count width rip b).1
| step_updateMultiplyFlags high width rip :
    has_value b high -> builder_step b (updateMultiplyFlags high width rip b).1
| step_updateSignedMultiplyFlags lhs rhs width rip :
    has_value b lhs -> has_value b rhs -> width ∈ [I32; I64] ->
    builder_step b (updateSignedMultiplyFlags lhs rhs width rip b).1
| step_updateShiftRightDoubleFlags original result count width rip :
    has_value b original -> has_value b result ->
    builder_step b (updateShiftRightDoubleFlags original result count width rip b).1
| step_updateBitTestFlags value bitIndex width rip :
    has_value b value -> width ∈ [I32; I64] ->
    builder_step b (updateBitTestFlags value bitIndex width rip b).1
| step_lockedBitSetGuestMemory address bitIndex width rip :
    has_value b address -> width ∈ [I32; I64] ->
    builder_step b (lockedBitSetGuestMemory address bitIndex width rip b).1.

(** The methods that end a block. *)
Inductive builder_exit (b : Block) : Block -> Prop :=
| finish_exitBlock rip : builder_exit b (exitBlock rip b).1
| finish_exitDirect_address target rip : builder_exit b (exitDirect_address target rip b).1
| finish_exitDirect_value target rip :
    has_value b target -> builder_exit b (exitDirect_value target rip b).1
| finish_exitConditional condition target fallthrough rip :
    builder_exit b (exitConditional condition target fallthrough rip b).1
| finish_exitCall_address target returnAddress rip :
    builder_exit b (exitCall_address target returnAddress rip b).1
| finish_exitCall_value target returnAddress rip :
    has_value b target -> builder_exit b (exitCall_value target returnAddress rip b).1
| finish_exitSyscall nextRip rip : builder_exit b (exitSyscall nextRip rip b).1.

(** ** The invariant *)

(** Open blocks: every value number below the count is the result of one
    operation, no exit was emitted and every operation may stand where it is. *)
Record builder_ok (b : Block) : Prop := {
  count_range : 0 <= b.(b_valueCount) < 2 ^ 32;
  no_exit : Forall (fun o => is_exit o = false) b.(b_operations);
  values : results b.(b_operations) = seqZ 0 b.(b_valueCount);
  operations_ok : all_follow b.(b_valueCount) b.(b_operations)
}.

Lemma newBuilder_ok start : builder_ok (newBuilder start).
Proof. split; cbn; [lia|done|done|]. intros i o Hi. by rewrite lookup_nil in Hi. Qed.

Lemma may_follow_mono n m before o : n <= m -> may_follow n before o -> may_follow m before o.
Proof. intros Hnm [Hx Hc Hr Hn]. split; [done..|]. intros r Hr'. destruct (Hn r Hr'). split; [lia|done]. Qed.

(** All values of the block are defined. *)
Definition all_defined (b : Block) : list bool := replicate (Z.to_nat b.(b_valueCount)) true.

Lemma defined_has_value b v : defined_at (all_defined b) v = true <-> has_value b v.
Proof.
  unfold defined_at, all_defined, has_value, zlength. rewrite length_replicate. split.
  - intros H. bool_to_prop. lia.
  - intros H. rewrite (proj2 (Z.leb_le 0 v)), (proj2 (Z.ltb_lt v _)) by lia. cbn [andb].
    rewrite nth_lookup, lookup_replicate_2 by lia. done.
Qed.

Lemma operation_follows b o n : builder_ok b -> check_operation (all_defined b) o = [] ->
  b.(b_valueCount) <= n ->
  (forall r, o.(o_result) = Some r -> r < n /\ b.(b_valueCount) <= r) -> may_follow n b.(b_operations) o.
Proof.
  intros Hb Hc Hn Hr. apply check_operation_spec in Hc as [Hc Ho]. split; [apply Hb|done| |].
  - eapply Forall_impl; [exact Ho|]. intros v (x & -> & Hx). exists x. split; [done|].
    rewrite (values _ Hb), elem_of_seqZ. apply defined_has_value in Hx. unfold has_value in Hx. lia.
  - intros r Er. destruct (Hr r Er) as [H1 H2]. split; [done|]. rewrite (values _ Hb), elem_of_seqZ. lia.
Qed.

Lemma push_back_ok b o : builder_ok b -> o.(o_result) = None -> is_exit o = false ->
  check_operation (all_defined b) o = [] -> builder_ok (push_back o b).1.
Proof.
  intros Hb Hr He Hc. destruct b as [start ops n]. split; cbn [push_back fst b_operations b_valueCount].
  - apply Hb.
  - apply Forall_app. split; [apply Hb|by apply Forall_singleton].
  - rewrite results_snoc, Hr, app_nil_r. apply Hb.
  - apply all_follow_snoc. split; [apply Hb|]. apply (operation_follows _ o n Hb Hc); [done|]. by rewrite Hr.
Qed.

Lemma check_result_free defined o r : check_operation defined (set_result r o) = check_operation defined o.
Proof. done. Qed.

Lemma push_result_ok b o : builder_ok b -> has_room b -> is_exit o = false ->
  check_operation (all_defined b) o = [] -> builder_ok (push_result o b).1.
Proof.
  intros Hb Hroom He Hc. destruct b as [start ops n]. unfold has_room in Hroom.
  pose proof (count_range _ Hb) as Hn. cbn [b_valueCount] in *.
  assert ((push_result o (mkBlock start ops n)).1 = mkBlock start (ops ++ [set_result n o]) (n + 1)) as ->.
  { unfold push_result. cbn. f_equal. unfold u32. by rewrite wrap_small by (unfold in_range; lia). }
  split; cbn [b_operations b_valueCount].
  - lia.
  - apply Forall_app. split; [apply Hb|by apply Forall_singleton].
  - rewrite results_snoc. cbn [o_result set_result]. pose proof (values _ Hb) as Hv.
    cbn [b_operations b_valueCount] in Hv. by rewrite Hv, seqZ_app by lia.
  - apply all_follow_snoc. split.
    + intros i p Hp. apply (may_follow_mono n); [lia|]. by apply Hb.
    + apply (operation_follows _ (set_result n o) (n + 1) Hb Hc); [cbn; lia|]. intros r [= <-]. cbn. lia.
Qed.

Lemma check_value b v role : has_value b v -> checkUse (all_defined b) (Some v) role = [].
Proof. intros H. apply checkUse_nil. exists v. by rewrite defined_has_value. Qed.

Lemma encoding_bound r : (16 <=? Z.of_nat (Register_encoding r)) = false.
Proof. pose proof (Register_encoding_bound r). apply Z.leb_gt. lia. Qed.

(** The checks of a concrete operation. *)
Ltac solve_check :=
  repeat match goal with H : _ ∈ [_] |- _ => apply list_elem_of_singleton in H as ->
                       | H : _ ∈ _ :: _ |- _ => apply elem_of_cons in H as [-> | H] end;
  unfold check_operation; cbn [o_opcode o_width o_lhs o_rhs o_third o_guestRegister o_guestXmmRegister
    o_sourceGuestXmmRegister o_target o_fallthrough o_condition o_exitKind o_immediate new_operation
    set_lhs set_rhs set_third set_guestRegister set_guestXmmRegister set_sourceGuestXmmRegister set_target
    set_fallthrough set_condition set_exitKind set_immediate present absent negb];
  unfold width_is_not; cbn [o_width]; rewrite ?check_value, ?encoding_bound by assumption;
  try reflexivity;
  try (destruct (_ <=? _) eqn:?; [bool_to_prop; lia|reflexivity]);
  try (destruct (_ <? _) eqn:?; [bool_to_prop; lia|reflexivity]);
  try match goal with x : Width |- _ => by destruct x | x : bool |- _ => by destruct x end.

Lemma builder_step_ok b b' : builder_ok b -> builder_step b b' -> builder_ok b'.
Proof.
  intros Hb Hstep. destruct Hstep.
  all: first [apply push_result_ok; [exact Hb|assumption|reflexivity|] | apply push_back_ok; [exact Hb|reflexivity|reflexivity|]].
  all: solve_check.
Qed.

Lemma builder_steps_ok b b' : builder_ok b -> rtc builder_step b b' -> builder_ok b'.
Proof. intros Hb. induction 1 as [|b b1 b2 Hs _ IH]; [done|]. apply IH. by eapply builder_step_ok. Qed.


Lemma builder_ids b : builder_ok b -> ids_unsigned b.(b_operations).
Proof.
  intros Hb. apply Forall_forall. intros o Ho r Hr.
  assert (r ∈ results b.(b_operations)) as Hin by (unfold results; apply list_elem_of_omap; by exists o).
  rewrite (values _ Hb), elem_of_seqZ in Hin. lia.
Qed.

(** An exit after an open block. *)
Lemma exit_accepted b o : builder_ok b -> o.(o_result) = None -> is_exit o = true ->
  check_operation (all_defined b) o = [] -> verify (push_back o b).1 = [].
Proof.
  intros Hb Hr He Hc. pose proof (builder_ids _ Hb) as Hids. pose proof (count_range _ Hb) as Hn.
  assert (may_follow (b_valueCount b) (b_operations b) o) as Hf
    by (apply (operation_follows b o _ Hb Hc); [done|by rewrite Hr]).
  destruct b as [start ops n]. cbn [push_back fst b_operations b_valueCount] in *. apply verify_nil; cbn [b_operations b_valueCount].
  - lia.
  - apply Forall_app. split; [done|]. apply Forall_singleton. by rewrite Hr.
  - split; [apply all_follow_snoc; split; [apply Hb|done]|].
    rewrite existsb_app. cbn. by rewrite He, orb_true_r.
Qed.

Lemma exit_ok b b' : builder_ok b -> builder_exit b b' -> verify b' = [] /\
  b_start b' = b_start b /\ results b'.(b_operations) = seqZ 0 b.(b_valueCount).
Proof.
  intros Hb He. rewrite <- (values _ Hb).
  destruct He; (split; [apply exit_accepted; [exact Hb|reflexivity|reflexivity|solve_check]|]);
    (split; [done|]); match goal with |- results (b_operations (fst ?c)) = _ => let f := get_head c in unfold f end;
    cbn [push_back fst b_operations]; by rewrite results_snoc, app_nil_r.
Qed.

Lemma step_start b b' : builder_step b b' -> b_start b' = b_start b.
Proof. destruct b. by destruct 1. Qed.

Lemma steps_start b b' : rtc builder_step b b' -> b_start b' = b_start b.
Proof. induction 1 as [|b b1 b2 Hs _ IH]; [done|]. by rewrite IH, (step_start b b1). Qed.


