(* ===== verification/Optimization.v ===== *)
(** The block optimiser ([src/ir/Optimization.cpp]): forwarding of guest register
    values to later reads, and, in loops that only load bytes, removal of repeated
    additions.

    The parallel arrays of the source are one list of records each: what is known
    of a guest register and what is known of a value. *)
From S2P Require Import Prelude X86State IR IRVerify.

Definition isSafelyRepeatableOperation (o : Operation) : bool :=
  match o.(o_opcode) with
  | Op_Constant | Op_ReadGuestReg | Op_WriteGuestReg | Op_Add | Op_Sub | Op_ShiftLeft | Op_ShiftRightLogical
  | Op_ShiftRightArithmetic | Op_MultiplyLow | Op_MultiplyHighUnsigned | Op_MultiplyHighSigned
  | Op_ShiftRightDouble | Op_And | Op_Or | Op_Xor | Op_SignExtend32 | Op_ByteSwap | Op_EvaluateCondition
  | Op_ConditionalMoveGuestReg | Op_LoadGuest | Op_UpdateAddFlags | Op_UpdateAdcFlags | Op_UpdateSbbFlags
  | Op_UpdateIncFlags | Op_UpdateDecFlags | Op_UpdateSubFlags | Op_UpdateLogicFlags | Op_UpdateShiftLeftFlags
  | Op_UpdateShiftRightFlags | Op_UpdateShiftRightArithmeticFlags | Op_UpdateRotateLeftFlags
  | Op_UpdateRotateRightFlags | Op_UpdateMultiplyFlags | Op_UpdateSignedMultiplyFlags
  | Op_UpdateShiftRightDoubleFlags | Op_UpdateBitTestFlags | Op_StoreGuest | Op_ExitBlock => true
  | _ => false
  end.

Definition width_is (w : Width) (o : Operation) : bool := bool_decide (o.(o_width) = w).
Definition opcode_is (c : Opcode) (o : Operation) : bool := bool_decide (o.(o_opcode) = c).

Definition hasInternalSelfEdge (block : Block) : bool :=
  forallb isSafelyRepeatableOperation block.(b_operations) &&
  existsb (fun o => is_exit o &&
    (bool_decide (o.(o_target) = Some block.(b_start)) || bool_decide (o.(o_fallthrough) = Some block.(b_start))))
    block.(b_operations).

(** ** The state of the pass *)

(** [currentValues], [currentValuesAreFull], [currentValuesAreZeroExtended] and
    [currentValuesAreZero] at one register. *)
Record Current := mkCurrent { c_value : option ValueId; c_full : bool; c_zeroExtended : bool; c_zero : bool }.
Definition noCurrent : Current := mkCurrent None false false false.

(** [replacements], [zeroExtendedValues], [zeroValues] and [conditionValues] at
    one value. *)
Record ValueInfo := mkInfo { v_replacement : ValueId; v_zeroExtended : bool; v_zero : bool; v_condition : bool }.

Record Forward := mkForward {
  f_current : list Current;
  f_values : list ValueInfo;
  f_operations : list Operation
}.

Definition initialForward (valueCount : Z) : Forward :=
  mkForward (replicate 16 noCurrent) (map (fun v => mkInfo v false false false) (seqZ 0 valueCount)) [].

Definition get_current (r : Register) (s : Forward) : Current := nth (Register_encoding r) s.(f_current) noCurrent.
Definition set_current (r : Register) (c : Current) (s : Forward) : Forward :=
  mkForward (<[Register_encoding r := c]> s.(f_current)) s.(f_values) s.(f_operations).
Definition fill_current (s : Forward) : Forward :=
  mkForward (map (fun _ => noCurrent) s.(f_current)) s.(f_values) s.(f_operations).

(** Indexing a vector of [valueCount] entries. *)
Definition get_info (v : ValueId) (s : Forward) : outcome ValueInfo :=
  match s.(f_values) !! Z.to_nat v with Some i => Ok i | None => Undefined end.
Definition set_info (v : ValueId) (i : ValueInfo) (s : Forward) : Forward :=
  mkForward s.(f_current) (<[Z.to_nat v := i]> s.(f_values)) s.(f_operations).
Definition push_operation (o : Operation) (s : Forward) : Forward :=
  mkForward s.(f_current) s.(f_values) (s.(f_operations) ++ [o]).

(** [while (replacements[value] != value) value = replacements[value];] *)
Fixpoint resolve_loop (fuel : nat) (s : Forward) (v : ValueId) : outcome ValueId :=
  match fuel with
  | O => Undefined
  | S fuel' =>
      let! i := get_info v s in
      if i.(v_replacement) =? v then Ok v else resolve_loop fuel' s i.(v_replacement)
  end.
Definition resolve (s : Forward) (v : ValueId) : outcome ValueId := resolve_loop (S (length s.(f_values))) s v.

Definition canonicalize (s : Forward) (v : option ValueId) : outcome (option ValueId) :=
  match v with None => Ok None | Some v => let! r := resolve s v in Ok (Some r) end.

Definition info_of (s : Forward) (v : ValueId) : outcome ValueInfo := let! r := resolve s v in get_info r s.
Definition isZeroExtended (s : Forward) (v : ValueId) : outcome bool := let! i := info_of s v in Ok i.(v_zeroExtended).
Definition isZero (s : Forward) (v : ValueId) : outcome bool := let! i := info_of s v in Ok i.(v_zero).

Definition preservesHostValues (forwardsAcrossLoads forwardsAcrossStores : bool) (o : Operation) : bool :=
  match o.(o_opcode) with
  | Op_Constant | Op_ReadGuestReg | Op_WriteGuestReg | Op_Add | Op_Sub | Op_ShiftLeft | Op_ShiftRightLogical
  | Op_ShiftRightArithmetic | Op_MultiplyLow | Op_MultiplyHighUnsigned | Op_MultiplyHighSigned
  | Op_ShiftRightDouble | Op_And | Op_Or | Op_Xor | Op_SignExtend32 | Op_ByteSwap | Op_EvaluateCondition
  | Op_UpdateAddFlags | Op_UpdateLogicFlags => true
  | Op_UpdateSubFlags => width_is I8 o || width_is I64 o
  | Op_LoadGuest => forwardsAcrossLoads && width_is I8 o
  | Op_StoreGuest => forwardsAcrossStores && width_is I8 o
  | _ => false
  end.

(** ** One operation *)

Definition set_operands (lhs rhs third : option ValueId) (o : Operation) : Operation :=
  mkOperation o.(o_opcode) o.(o_width) o.(o_guestRip) o.(o_result) lhs rhs third o.(o_guestRegister)
    o.(o_guestXmmRegister) o.(o_sourceGuestXmmRegister) o.(o_target) o.(o_fallthrough) o.(o_condition)
    o.(o_exitKind) o.(o_immediate).

(** The predicate of the search for an equal addition. *)
Definition equivalent (o candidate : Operation) : bool :=
  present candidate.(o_result) && bool_decide (candidate.(o_opcode) = o.(o_opcode)) &&
  bool_decide (candidate.(o_width) = o.(o_width)) && bool_decide (candidate.(o_lhs) = o.(o_lhs)) &&
  bool_decide (candidate.(o_rhs) = o.(o_rhs)) && bool_decide (candidate.(o_third) = o.(o_third)) &&
  (candidate.(o_immediate) =? o.(o_immediate)).

(** The result is another value: the operation is dropped. *)
Definition replace_value (result source : ValueId) (zeroExtended zero condition : bool) (s : Forward) : Forward :=
  set_info result (mkInfo source zeroExtended zero condition) s.

(** Width of a read or write that can be tracked. *)
Definition tracked_width (o : Operation) : bool := width_is I32 o || width_is I64 o.

(** What is known of the register after [WriteGuestReg]. *)
Definition current_after_write (s : Forward) (o : Operation) (current : Current) : outcome Current :=
  match o.(o_lhs) with
  | Some lhs =>
      if tracked_width o then
        let! extended := isZeroExtended s lhs in
        let! zero := isZero s lhs in
        Ok (mkCurrent (Some lhs) (width_is I64 o || extended) extended zero)
      else if width_is I8 o && current.(c_zero) then
        let! info := info_of s lhs in
        if info.(v_condition) then
          let! extended := isZeroExtended s lhs in
          let! zero := isZero s lhs in
          Ok (mkCurrent (Some lhs) true extended zero)
        else Ok noCurrent
      else Ok noCurrent
  | None => Ok noCurrent
  end.

(** The flags of the value an operation defines. *)
Definition result_info (o : Operation) (info : ValueInfo) : ValueInfo :=
  let zero := opcode_is Op_Constant o && (o.(o_immediate) =? 0) in
  let condition := opcode_is Op_EvaluateCondition o in
  let extended := zero || condition ||
    (width_is I32 o &&
     match o.(o_opcode) with
     | Op_Constant | Op_ReadGuestReg | Op_Add | Op_Sub | Op_And | Op_Or | Op_Xor | Op_LoadGuest => true
     | _ => false
     end) in
  mkInfo info.(v_replacement) extended zero condition.

(** The end of an iteration: record the result, keep the operation. *)
Definition keep_operation (o : Operation) (s : Forward) : outcome Forward :=
  match o.(o_result) with
  | None => Ok (push_operation o s)
  | Some result =>
      let! info := get_info result s in
      Ok (push_operation o (set_info result (result_info o info) s))
  end.

(** A read, once its operands are canonical: forwarded to the value the register
    is known to hold, or recorded as that value. *)
Definition forward_read (s : Forward) (o : Operation) (reg : Register) (result : ValueId) : outcome Forward :=
  let current := get_current reg s in
  match current.(c_value) with
  | Some value =>
      if (width_is I64 o && current.(c_full)) || (width_is I32 o && current.(c_zeroExtended)) then
        let! source := resolve s value in
        let! info := get_info result s in
        Ok (replace_value result source current.(c_zeroExtended) current.(c_zero) info.(v_condition) s)
      else keep_operation o (set_current reg (mkCurrent (Some result) (width_is I64 o) (width_is I32 o) false) s)
  | None => keep_operation o (set_current reg (mkCurrent (Some result) (width_is I64 o) (width_is I32 o) false) s)
  end.

Definition forward_operation (forwardsAcrossLoads forwardsAcrossStores : bool) (s : Forward) (o : Operation) :
    outcome Forward :=
  let! lhs := canonicalize s o.(o_lhs) in
  let! rhs := canonicalize s o.(o_rhs) in
  let! third := canonicalize s o.(o_third) in
  let o := set_operands lhs rhs third o in
  let earlier := if forwardsAcrossLoads && opcode_is Op_Add o then List.find (equivalent o) s.(f_operations) else None in
  match o.(o_result), earlier with
  | Some result, Some (mkOperation _ _ _ (Some found) _ _ _ _ _ _ _ _ _ _ _) =>
      let! source := resolve s found in
      let! info := get_info source s in
      Ok (replace_value result source info.(v_zeroExtended) info.(v_zero) info.(v_condition) s)
  | _, _ =>
      match o.(o_opcode), o.(o_guestRegister), o.(o_result) with
      | Op_ReadGuestReg, Some reg, Some result =>
          if tracked_width o then forward_read s o reg result
          else keep_operation o s
      | Op_WriteGuestReg, Some reg, _ =>
          let! current := current_after_write s o (get_current reg s) in
          keep_operation o (set_current reg current s)
      | Op_ConditionalMoveGuestReg, Some reg, _ => keep_operation o (set_current reg noCurrent s)
      | _, _, _ =>
          keep_operation o
            (if preservesHostValues forwardsAcrossLoads forwardsAcrossStores o then s else fill_current s)
      end
  end.

(** ** The pass *)

Fixpoint forward_loop (forwardsAcrossLoads forwardsAcrossStores : bool) (s : Forward) (ops : list Operation) :
    outcome Forward :=
  match ops with
  | [] => Ok s
  | o :: ops' =>
      let! s' := forward_operation forwardsAcrossLoads forwardsAcrossStores s o in
      forward_loop forwardsAcrossLoads forwardsAcrossStores s' ops'
  end.

Definition forwardFullWidthGuestReads (block : Block) (directMemoryLoop : bool) : outcome Block :=
  let byte_access opcode o := opcode_is opcode o && width_is I8 o in
  let forwardsAcrossLoads := directMemoryLoop && existsb (byte_access Op_LoadGuest) block.(b_operations) in
  let forwardsAcrossStores :=
    directMemoryLoop && negb forwardsAcrossLoads && existsb (byte_access Op_StoreGuest) block.(b_operations) in
  let! s := forward_loop forwardsAcrossLoads forwardsAcrossStores (initialForward block.(b_valueCount))
              block.(b_operations) in
  Ok (mkBlock block.(b_start) s.(f_operations) block.(b_valueCount)).

(** [optimizeBlock]; [debug] is the build without [NDEBUG], which verifies the
    result. *)
Definition optimizeBlock (debug : bool) (block : Block) : outcome Block :=
  let! block := forwardFullWidthGuestReads block (hasInternalSelfEdge block) in
  match verify block with
  | first :: _ =>
      if debug then Throw (runtime_error (String.append "optimized IR verification failed: " first)) else Ok block
  | [] => Ok block
  end.
