(* ===== verification/IRSemantics.v ===== *)
(** What a block of the intermediate representation means: the reference
    semantics the optimiser is proved against.

    Values are 64-bit words.  The operations the optimiser reasons about have the
    meaning the code of [src/arm64/Backend.cpp] gives them: 32-bit arithmetic
    truncates, 8- and 16-bit arithmetic computes on the whole register, guest
    memory goes through [loadGuest*] and [storeGuest*], flag updates are those of
    [FlagHelpers].  Every other operation is the parameter [other] of the
    section; the theorems hold for any behaviour of theirs that sees the operand
    values, the fields of the operation that are not value numbers and the
    machine. *)
From S2P Require Import Prelude X86State FlagSpec FlagHelpers AddressSpace AddressSpaceInv AddressSpaceAccess AddressSpaceWrite ExecutionContext RuntimeMemory IR IRVerify Optimization.

(** ** Conditions and values *)

(** Condition codes on RFLAGS. *)
Definition condition_holds (c : Condition) (rflags : Z) : bool :=
  let cf := Z.testbit rflags 0 in let pf := Z.testbit rflags 2 in let zf := Z.testbit rflags 6 in
  let sf := Z.testbit rflags 7 in let overflow := Z.testbit rflags 11 in
  match c with
  | Cond_Overflow => overflow | Cond_NotOverflow => negb overflow
  | Cond_ParityEven => pf | Cond_ParityOdd => negb pf
  | Cond_Equal => zf | Cond_NotEqual => negb zf
  | Cond_Below => cf | Cond_AboveOrEqual => negb cf
  | Cond_Above => negb cf && negb zf | Cond_BelowOrEqual => cf || zf
  | Cond_Sign => sf | Cond_NotSign => negb sf
  | Cond_Less => xorb sf overflow | Cond_GreaterOrEqual => negb (xorb sf overflow)
  | Cond_LessOrEqual => zf || xorb sf overflow | Cond_Greater => negb zf && negb (xorb sf overflow)
  end.

(** The width arithmetic is done at. *)
Definition value_width (w : Width) : Z := match w with I32 => 32 | _ => 64 end.

(** The value of an operation without effects, from its operands. *)
Definition pure_value (o : Operation) (st : X86State) (l r : option Z) : option Z :=
  let w := value_width o.(o_width) in
  match o.(o_opcode), l, r with
  | Op_Constant, _, _ => Some (wrap w o.(o_immediate))
  | Op_ReadGuestReg, _, _ => reg ← o.(o_guestRegister); Some (wrap w (get_gpr reg st))
  | Op_ReadGuestGsBase, _, _ => Some (wrap 64 st.(gsBase))
  | Op_Add, Some x, Some y => Some (wrap w (x + y))
  | Op_Sub, Some x, Some y => Some (wrap w (x - y))
  | Op_And, Some x, Some y => Some (wrap w (Z.land x y))
  | Op_Or, Some x, Some y => Some (wrap w (Z.lor x y))
  | Op_Xor, Some x, Some y => Some (wrap w (Z.lxor x y))
  | Op_ShiftLeft, Some x, Some y => Some (u64 (Z.shiftl x (y mod 64)))
  | Op_ShiftLeft, Some x, None => Some (u64 (Z.shiftl x o.(o_immediate)))
  | Op_ShiftRightLogical, Some x, Some y => Some (u64 (Z.shiftr x (y mod 64)))
  | Op_ShiftRightLogical, Some x, None => Some (u64 (Z.shiftr x o.(o_immediate)))
  | Op_ShiftRightArithmetic, Some x, Some y => Some (wrap w (Z.shiftr (signed w (wrap w x)) (y mod w)))
  | Op_ShiftRightArithmetic, Some x, None => Some (wrap w (Z.shiftr (signed w (wrap w x)) o.(o_immediate)))
  | Op_MultiplyLow, Some x, Some y => Some (u64 (x * y))
  | Op_MultiplyHighUnsigned, Some x, Some y => Some (u64 (Z.shiftr (x * y) 64))
  | Op_MultiplyHighSigned, Some x, Some y => Some (u64 (Z.shiftr (signed 64 x * signed 64 y) 64))
  | Op_ShiftRightDouble, Some x, Some y => Some (u64 (Z.shiftr (Z.lor (Z.shiftl y 64) x) o.(o_immediate)))
  | Op_SignExtend32, Some x, _ => Some (u64 (signed 32 (u32 x)))
  | Op_ByteSwap, Some x, _ => Some (u64 (le_value (rev (le_bytes (Z.to_nat (w / 8)) x))))
  | Op_EvaluateCondition, _, _ =>
      c ← o.(o_condition); Some (if condition_holds c st.(rflags) then 1 else 0)
  | _, _, _ => None
  end.

(** The operations [pure_value] covers. *)
Definition is_pure (o : Operation) : bool :=
  match o.(o_opcode) with
  | Op_Constant | Op_ReadGuestReg | Op_ReadGuestGsBase | Op_Add | Op_Sub | Op_And | Op_Or | Op_Xor | Op_ShiftLeft
  | Op_ShiftRightLogical | Op_ShiftRightArithmetic | Op_MultiplyLow | Op_MultiplyHighUnsigned
  | Op_MultiplyHighSigned | Op_ShiftRightDouble | Op_SignExtend32 | Op_ByteSwap | Op_EvaluateCondition => true
  | _ => false
  end.

(** ** Effects *)

(** The helper call of a load or store, by width. *)
Definition load_helper (w : Width) : option GuestExecutionContext -> X86State -> Z -> outcome CallResult :=
  match w with I8 => loadGuest8 | I16 => loadGuest16 | I32 => loadGuest32 | I64 => loadGuest64 end.
Definition store_helper (w : Width) : option GuestExecutionContext -> X86State -> Z -> Z -> outcome CallResult :=
  match w with I8 => storeGuest8 | I16 => storeGuest16 | I32 => storeGuest32 | I64 => storeGuest64 end.
Definition add_flags (w : Width) : X86State -> Z -> Z -> Z -> X86State :=
  match w with
  | I8 => updateAddFlags8 | I16 => updateAddFlags16 | I32 => updateAddFlags32 | I64 => updateAddFlags64
  end.
Definition sub_flags (w : Width) : X86State -> Z -> Z -> Z -> X86State :=
  match w with
  | I8 => updateSubFlags8 | I16 => updateSubFlags16 | I32 => updateSubFlags32 | I64 => updateSubFlags64
  end.
Definition logic_flags (w : Width) : X86State -> Z -> X86State :=
  match w with
  | I8 => updateLogicFlags8 | I16 => updateLogicFlags16 | I32 => updateLogicFlags32 | I64 => updateLogicFlags64
  end.

(** The register after a write of [w] bits: 32-bit writes clear the upper half. *)
Definition written (w : Width) (old x : Z) : Z :=
  match w with
  | I8 => Z.lor (Z.land old (not64 0xFF)) (Z.land x 0xFF)
  | I16 => Z.lor (Z.land old (not64 0xFFFF)) (Z.land x 0xFFFF)
  | I32 => u32 x
  | I64 => x
  end.

(** What an effect leaves: the machine, and a value, nothing, or a fault. *)
Definition Effect : Type := Machine * outcome (option Z).

(** A helper that returned null faults; otherwise [value] is read off its result. *)
Definition helper_effect (m : Machine) (result : outcome CallResult)
    (value : GuestExecutionContext -> option Z) : Effect :=
  match result with
  | Ok (Some c, st, true) => ((c, st), Ok (value c))
  | Ok (Some c, st, false) => ((c, st), Throw (runtime_error "guest memory fault"))
  | _ => (m, Undefined)
  end.

Section Semantics.
(** The operations not interpreted here. *)
Context (other : Operation -> option Z -> option Z -> option Z -> Machine -> Effect).

(** The operation without its value numbers. *)
Definition erase (o : Operation) : Operation :=
  mkOperation o.(o_opcode) o.(o_width) o.(o_guestRip) None None None None o.(o_guestRegister)
    o.(o_guestXmmRegister) o.(o_sourceGuestXmmRegister) o.(o_target) o.(o_fallthrough) o.(o_condition)
    o.(o_exitKind) o.(o_immediate).

Definition effect (o : Operation) (l r t : option Z) (m : Machine) : Effect :=
  let update st := ((m.1, st), Ok None) in
  if is_pure o then
    match pure_value o m.2 l r with Some v => (m, Ok (Some v)) | None => (m, Undefined) end
  else match o.(o_opcode), l, r, t with
  | Op_WriteGuestReg, Some x, _, _ =>
      match o.(o_guestRegister) with
      | Some reg => update (set_gpr reg (written o.(o_width) (get_gpr reg m.2) x) m.2)
      | None => (m, Undefined)
      end
  | Op_ConditionalMoveGuestReg, _, _, _ =>
      match o.(o_guestRegister), o.(o_condition) with
      | Some reg, Some c =>
          let source := default (get_gpr (register_of o.(o_immediate)) m.2) l in
          let x := if condition_holds c m.2.(rflags) then source else get_gpr reg m.2 in
          update (set_gpr reg (wrap (value_width o.(o_width)) x) m.2)
      | _, _ => (m, Undefined)
      end
  | Op_LoadGuest, Some a, _, _ =>
      helper_effect m (load_helper o.(o_width) (Some m.1) m.2 a) (fun c => Some c.(loadedValue))
  | Op_StoreGuest, Some a, Some x, _ =>
      helper_effect m (store_helper o.(o_width) (Some m.1) m.2 a x) (fun _ => None)
  | Op_UpdateAddFlags, Some x, Some y, Some z => update (add_flags o.(o_width) m.2 x y z)
  | Op_UpdateSubFlags, Some x, Some y, Some z => update (sub_flags o.(o_width) m.2 x y z)
  | Op_UpdateLogicFlags, Some x, _, _ => update (logic_flags o.(o_width) m.2 x)
  | (Op_WriteGuestReg | Op_LoadGuest | Op_StoreGuest | Op_UpdateAddFlags | Op_UpdateSubFlags
     | Op_UpdateLogicFlags), _, _, _ => (m, Undefined)
  | _, _, _, _ => other (erase o) l r t m
  end.

(** ** Blocks *)

Inductive run_result : Type :=
| Done (m : Machine)
| Faulted (m : Machine)
| Stuck.

(** An operand: absent, or the value of its number when it is defined. *)
Definition read_operand (env : gmap Z Z) (v : option ValueId) : option (option Z) :=
  match v with None => Some None | Some v => x ← env !! v; Some (Some x) end.

Inductive step_result : Type :=
| Next (env : gmap Z Z) (m : Machine)
| Stop (r : run_result).

Definition step (o : Operation) (env : gmap Z Z) (m : Machine) : step_result :=
  match read_operand env o.(o_lhs), read_operand env o.(o_rhs), read_operand env o.(o_third) with
  | Some l, Some r, Some t =>
      match effect o l r t m, o.(o_result) with
      | (m', Ok (Some x)), Some result => Next (<[result := x]> env) m'
      | (m', Ok None), None => Next env m'
      | (m', Throw _), _ => Stop (Faulted m')
      | _, _ => Stop Stuck
      end
  | _, _, _ => Stop Stuck
  end.

(** The machine after the operations, or after the one that faulted. *)
Fixpoint run (ops : list Operation) (env : gmap Z Z) (m : Machine) : run_result :=
  match ops with
  | [] => Done m
  | o :: ops' =>
      match step o env m with
      | Next env' m' => run ops' env' m'
      | Stop r => r
      end
  end.

End Semantics.
