(* ===== verification/OptimizationInv.v ===== *)
(** What the optimiser does to one operation, and the bookkeeping it keeps: every
    value of the source block has a root, an operation of the optimised block
    defines every root, and the optimised block stays in static single
    assignment form. *)
From S2P Require Import Prelude X86State IR IRVerify IRVerifySpec Optimization.

(** ** Roots *)

Definition root (s : Forward) (v : ValueId) : ValueId :=
  match s.(f_values) !! Z.to_nat v with Some i => i.(v_replacement) | None => v end.

(** The operation on the roots of its operands. *)
Definition map_operands (f : ValueId -> ValueId) (o : Operation) : Operation :=
  set_operands (f <$> o.(o_lhs)) (f <$> o.(o_rhs)) (f <$> o.(o_third)) o.
Definition rename (s : Forward) : Operation -> Operation := map_operands (root s).

Lemma present_map (f : ValueId -> ValueId) v : present (f <$> v) = present v.
Proof. by destruct v. Qed.

Lemma absent_map (f : ValueId -> ValueId) v : absent (f <$> v) = absent v.
Proof. by destruct v. Qed.

Lemma exit_is_map k f o : exit_is k (map_operands f o) = exit_is k o.
Proof. done. Qed.

Lemma exit_is_not_map k f o : exit_is_not k (map_operands f o) = exit_is_not k o.
Proof. done. Qed.

Lemma width_is_not_map w f o : width_is_not w (map_operands f o) = width_is_not w o.
Proof. done. Qed.

Lemma operands_map f o : operands (map_operands f o) = map (fmap f) (operands o).
Proof.
  unfold operands. change (arity (map_operands f o)) with (arity o). destruct (arity o) as [required optional].
  change (operand_slots (map_operands f o)) with (map (fmap f) (operand_slots o)).
  rewrite map_app. f_equal; [by rewrite firstn_map|]. destruct optional; [|done].
  rewrite skipn_map, firstn_map. destruct (take 1 (drop required (operand_slots o))) as [|v l] eqn:E; [done|].
  assert (l = []) as ->.
  { apply (f_equal length) in E. rewrite length_take in E. destruct l; [done|]. cbn [length] in E. lia. }
  cbn. rewrite present_map. by destruct (present v).
Qed.

(** Renaming keeps an operation complete. *)
Lemma check_renamed f defined defined' o : check_operation defined o = [] ->
  Forall (available defined') (operands (map_operands f o)) -> check_operation defined' (map_operands f o) = [].
Proof.
  unfold operands, arity, check_operation. change (o_opcode (map_operands f o)) with (o_opcode o).
  destruct (o_opcode o); cbn [operand_slots take drop app flat_map map_operands set_operands exit_is exit_is_not
    o_opcode o_width o_lhs o_rhs o_third o_result o_guestRegister o_guestXmmRegister o_sourceGuestXmmRegister
    o_target o_fallthrough o_condition o_exitKind o_immediate];
    rewrite ?app_nil, ?optional_nil, ?checkUse_nil, ?error_if_nil, ?present_map, ?absent_map, ?exit_is_map, ?exit_is_not_map, ?width_is_not_map; rewrite ?app_nil_r, ?Forall_cons; try tauto.
  all: try (match goal with |- context [present ?v] => destruct (present v) end; rewrite ?Forall_cons; tauto).
  destruct (exit_is Exit_Call o || exit_is Exit_Direct o); cbn [andb flat_map app]; [|done].
  destruct (present (o_lhs o)); cbn [app andb]; [|done]. rewrite Forall_cons, !checkUse_nil. tauto.
Qed.

(** The operation may follow [before], and its operands, checked by the verifier
    or not, are all defined. *)
Record follows (n : Z) (before : list Operation) (o : Operation) : Prop := {
  follows_verified : may_follow n before o;
  follows_closed : forall v, Some v ∈ operand_slots o -> v ∈ results before;
  follows_unsigned : forall r, o.(o_result) = Some r -> 0 <= r
}.

Record bookkeeping (n : Z) (before : list Operation) (s : Forward) : Prop := {
  k_values : length s.(f_values) = Z.to_nat n;
  k_registers : length s.(f_current) = 16%nat;
  k_range : forall v, v ∈ results before -> 0 <= v < n;
  k_fresh : forall v, 0 <= v -> v ∉ results before -> root s v = v;
  k_root : forall v, v ∈ results before -> root s v ∈ results s.(f_operations);
  k_fixed : forall v, v ∈ results s.(f_operations) -> root s v = v;
  k_subset : forall v, v ∈ results s.(f_operations) -> v ∈ results before;
  k_current : forall reg v, c_value (get_current reg s) = Some v -> v ∈ results before;
  k_exit : existsb is_exit s.(f_operations) = existsb is_exit before;
  k_output : all_follow n s.(f_operations)
}.

Section Bookkeeping.
Context (n : Z) (before : list Operation) (s : Forward) (Hk : bookkeeping n before s).

Lemma get_info_ok v : 0 <= v < n -> exists i, get_info v s = Ok i /\ s.(f_values) !! Z.to_nat v = Some i.
Proof using Hk.
  intros Hv. unfold get_info. destruct (f_values s !! Z.to_nat v) as [i|] eqn:E; [by exists i|].
  apply lookup_ge_None_1 in E. rewrite (k_values _ _ _ Hk) in E. lia.
Qed.

Lemma root_range v : v ∈ results before -> 0 <= root s v < n.
Proof using Hk. intros Hv. by apply (k_range _ _ _ Hk), (k_subset _ _ _ Hk), (k_root _ _ _ Hk). Qed.

Lemma root_root v : v ∈ results before -> root s (root s v) = root s v.
Proof using Hk. intros Hv. by apply (k_fixed _ _ _ Hk), (k_root _ _ _ Hk). Qed.

(** Chains of replacements have at most one link, so the loop finds the root. *)
Lemma resolve_ok v : v ∈ results before -> resolve s v = Ok (root s v).
Proof using Hk.
  intros Hv. pose proof (k_range _ _ _ Hk v Hv) as Hr. pose proof (root_range v Hv) as Hrr.
  unfold resolve. assert (exists f, length (f_values s) = S f) as [f ->].
  { rewrite (k_values _ _ _ Hk). exists (Z.to_nat (n - 1)). lia. }
  cbn [resolve_loop]. destruct (get_info_ok v Hr) as (i & -> & Ei). cbn [outcome_bind].
  assert (root s v = v_replacement i) as E by (unfold root; by rewrite Ei).
  rewrite <- E. destruct (Z.eqb_spec (root s v) v) as [->|Hne]; [done|].
  destruct (get_info_ok (root s v) Hrr) as (j & -> & Ej). cbn [outcome_bind].
  pose proof (root_root v Hv) as Hrt. unfold root in Hrt at 1. rewrite Ej in Hrt. by rewrite Hrt, Z.eqb_refl.
Qed.

Lemma canonicalize_ok v : (forall x, v = Some x -> x ∈ results before) -> canonicalize s v = Ok (root s <$> v).
Proof using Hk. intros H. destruct v as [x|]; [|done]. unfold canonicalize. by rewrite resolve_ok by by apply H. Qed.

Lemma info_of_ok v : v ∈ results before -> exists i, info_of s v = Ok i /\ s.(f_values) !! Z.to_nat (root s v) = Some i.
Proof using Hk.
  intros Hv. unfold info_of. rewrite resolve_ok by done. cbn [outcome_bind]. apply get_info_ok. by apply root_range.
Qed.

Lemma info_of_root v : v ∈ results before -> info_of s (root s v) = info_of s v.
Proof using Hk.
  intros Hv. assert (root s v ∈ results before) as Hr by by apply (k_subset _ _ _ Hk), (k_root _ _ _ Hk).
  unfold info_of. by rewrite !resolve_ok, root_root.
Qed.
End Bookkeeping.

(** ** One operation *)

(** What is known of the register [reg] after an operation that is kept. *)
Inductive knows (fl fs : bool) (s : Forward) (o : Operation) (reg : Register) : Current -> Prop :=
| knows_nothing : knows fl fs s o reg noCurrent
| knows_still :
    preservesHostValues fl fs o = true \/ o.(o_opcode) = Op_ConditionalMoveGuestReg ->
    (o.(o_opcode) = Op_WriteGuestReg \/ o.(o_opcode) = Op_ConditionalMoveGuestReg -> o.(o_guestRegister) <> Some reg) ->
    knows fl fs s o reg (get_current reg s)
| knows_read result :
    o.(o_opcode) = Op_ReadGuestReg -> o.(o_guestRegister) = Some reg -> o.(o_result) = Some result ->
    tracked_width o = true ->
    knows fl fs s o reg (mkCurrent (Some result) (width_is I64 o) (width_is I32 o) false)
| knows_written v i :
    o.(o_opcode) = Op_WriteGuestReg -> o.(o_guestRegister) = Some reg -> o.(o_lhs) = Some v ->
    s.(f_values) !! Z.to_nat (root s v) = Some i -> tracked_width o = true ->
    knows fl fs s o reg (mkCurrent (Some (root s v)) (width_is I64 o || i.(v_zeroExtended)) i.(v_zeroExtended) i.(v_zero))
| knows_condition v i :
    o.(o_opcode) = Op_WriteGuestReg -> o.(o_guestRegister) = Some reg -> o.(o_lhs) = Some v ->
    s.(f_values) !! Z.to_nat (root s v) = Some i -> o.(o_width) = I8 ->
    (get_current reg s).(c_zero) = true -> i.(v_condition) = true ->
    knows fl fs s o reg (mkCurrent (Some (root s v)) true i.(v_zeroExtended) i.(v_zero)).

(** The state after an operation that is kept. *)
Definition kept (s : Forward) (o : Operation) (current : list Current) (i : ValueInfo) : Forward :=
  push_operation (rename s o)
    (match o.(o_result) with
     | None => mkForward current s.(f_values) s.(f_operations)
     | Some r => set_info r (result_info o i) (mkForward current s.(f_values) s.(f_operations))
     end).

Inductive advance (fl fs : bool) (s : Forward) (o : Operation) : Forward -> Prop :=
| advance_equal result c found i :
    o.(o_opcode) = Op_Add -> o.(o_result) = Some result -> c ∈ s.(f_operations) -> c.(o_result) = Some found ->
    equivalent (rename s o) c = true ->
    advance fl fs s o (replace_value result found i.(v_zeroExtended) i.(v_zero) i.(v_condition) s)
| advance_read result reg v cond :
    o.(o_opcode) = Op_ReadGuestReg -> o.(o_guestRegister) = Some reg -> o.(o_result) = Some result ->
    (get_current reg s).(c_value) = Some v ->
    (o.(o_width) = I64 /\ (get_current reg s).(c_full) = true \/
     o.(o_width) = I32 /\ (get_current reg s).(c_zeroExtended) = true) ->
    advance fl fs s o (replace_value result (root s v) (get_current reg s).(c_zeroExtended) (get_current reg s).(c_zero) cond s)
| advance_keep current i :
    length current = 16%nat -> (forall r, o.(o_result) = Some r -> s.(f_values) !! Z.to_nat r = Some i) ->
    (forall reg, knows fl fs s o reg (nth (Register_encoding reg) current noCurrent)) ->
    advance fl fs s o (kept s o current i).

(** ** The pass makes these steps *)

Lemma nth_map_const {A B} (c d : A) (l : list B) i : nth i (map (fun _ => c) l) d = c \/ nth i (map (fun _ => c) l) d = d.
Proof. revert i. induction l as [|x l IH]; intros [|i]; cbn; auto. Qed.

Lemma get_set_current reg r c s : length s.(f_current) = 16%nat ->
  nth (Register_encoding r) (<[Register_encoding reg := c]> s.(f_current)) noCurrent =
  if decide (r = reg) then c else get_current r s.
Proof.
  intros Hl. unfold get_current. rewrite !nth_lookup. destruct (decide (r = reg)) as [->|Hne].
  - rewrite list_lookup_insert_eq; [done|]. rewrite Hl. apply Register_encoding_bound.
  - rewrite list_lookup_insert_ne; [done|]. intros He. by apply Hne, Register_encoding_inj.
Qed.

Lemma forward_eta s : mkForward s.(f_current) s.(f_values) s.(f_operations) = s.
Proof. by destruct s. Qed.

Section Steps.
Context (fl fs : bool) (n : Z) (before : list Operation) (s : Forward) (o : Operation).
Context (Hk : bookkeeping n before s) (Hf : follows n before o).

Definition with_current (current : list Current) : Forward := mkForward current s.(f_values) s.(f_operations).

Lemma operand_root v : (v = o.(o_lhs) \/ v = o.(o_rhs) \/ v = o.(o_third)) -> canonicalize s v = Ok (root s <$> v).
Proof using Hk Hf.
  intros Hv. apply (canonicalize_ok n before s Hk). intros x ->. apply (follows_closed _ _ _ Hf). unfold operand_slots.
  destruct Hv as [->|[->| ->]]; rewrite !elem_of_cons; tauto.
Qed.

Lemma lhs_before v : o.(o_lhs) = Some v -> v ∈ results before.
Proof using Hf. intros E. apply (follows_closed _ _ _ Hf). unfold operand_slots. rewrite E. by left. Qed.

Lemma result_range r : o.(o_result) = Some r -> 0 <= r < n.
Proof using Hf.
  intros E. destruct (new_result _ _ _ (follows_verified _ _ _ Hf) r E). pose proof (follows_unsigned _ _ _ Hf r E). lia.
Qed.

Lemma keep_ok current : length current = 16%nat ->
  (forall reg, knows fl fs s o reg (nth (Register_encoding reg) current noCurrent)) ->
  exists s', keep_operation (rename s o) (with_current current) = Ok s' /\ advance fl fs s o s'.
Proof using Hk Hf.
  intros Hl Hc. unfold keep_operation. change (o_result (rename s o)) with (o_result o).
  destruct (o_result o) as [r|] eqn:Er.
  - destruct (get_info_ok n before s Hk r (result_range r Er)) as (i & Ei & Ei').
    unfold get_info in *. cbn [with_current f_values]. rewrite Ei'. cbn [outcome_bind]. eexists. split; [done|].
    assert (push_operation (rename s o) (set_info r (result_info (rename s o) i) (with_current current)) = kept s o current i)
      as -> by (unfold kept; by rewrite Er).
    apply advance_keep; [done| |done]. intros r' E. rewrite Er in E. by injection E as <-.
  - eexists. split; [done|].
    assert (push_operation (rename s o) (with_current current) = kept s o current (mkInfo 0 false false false))
      as -> by (unfold kept; by rewrite Er).
    apply advance_keep; [done| |done]. intros r' E. by rewrite Er in E.
Qed.

Lemma keep_still : preservesHostValues fl fs o = true ->
  (o.(o_opcode) = Op_WriteGuestReg -> o.(o_guestRegister) = None) ->
  exists s', keep_operation (rename s o) s = Ok s' /\ advance fl fs s o s'.
Proof using Hk Hf.
  intros Hp Hw. assert (with_current s.(f_current) = s) as Es by apply forward_eta. pose proof (keep_ok s.(f_current)) as H.
  rewrite Es in H. apply H; [apply (k_registers _ _ _ Hk)|]. intros reg. change (nth _ _ _) with (get_current reg s).
  apply knows_still; [by left|]. intros [E|E].
  - by rewrite Hw.
  - unfold preservesHostValues in Hp. by rewrite E in Hp.
Qed.

Lemma keep_fill : exists s', keep_operation (rename s o) (fill_current s) = Ok s' /\ advance fl fs s o s'.
Proof using Hk Hf.
  apply (keep_ok (map (fun _ => noCurrent) s.(f_current))); [by rewrite length_map, (k_registers _ _ _ Hk)|].
  intros reg. destruct (nth_map_const noCurrent noCurrent s.(f_current) (Register_encoding reg)) as [-> | ->]; apply knows_nothing.
Qed.

Lemma keep_set reg c :
  (preservesHostValues fl fs o = true \/ o.(o_opcode) = Op_ConditionalMoveGuestReg) ->
  o.(o_guestRegister) = Some reg -> knows fl fs s o reg c ->
  exists s', keep_operation (rename s o) (set_current reg c s) = Ok s' /\ advance fl fs s o s'.
Proof using Hk Hf.
  intros Hp Hreg Hc. apply (keep_ok (<[Register_encoding reg := c]> s.(f_current))).
  { by rewrite length_insert, (k_registers _ _ _ Hk). }
  intros r. rewrite (get_set_current reg r c s) by apply (k_registers _ _ _ Hk).
  destruct (decide (r = reg)) as [->|Hne]; [done|]. apply knows_still; [done|]. intros _. congruence.
Qed.

Lemma written_ok reg : o.(o_opcode) = Op_WriteGuestReg -> o.(o_guestRegister) = Some reg ->
  exists c, current_after_write s (rename s o) (get_current reg s) = Ok c /\ knows fl fs s o reg c.
Proof using Hk Hf.
  intros Eop Ereg. unfold current_after_write. change (o_lhs (rename s o)) with (root s <$> o_lhs o).
  change (tracked_width (rename s o)) with (tracked_width o). change (width_is I64 (rename s o)) with (width_is I64 o).
  change (width_is I8 (rename s o)) with (width_is I8 o).
  destruct (o_lhs o) as [v|] eqn:El; cbn [fmap option_fmap option_map]; [|eexists; split; [done|apply knows_nothing]].
  pose proof (lhs_before v El) as Hv. unfold isZeroExtended, isZero.
  rewrite (info_of_root n before s Hk v Hv). destruct (info_of_ok n before s Hk v Hv) as (i & -> & Ei). cbn [outcome_bind].
  destruct (tracked_width o) eqn:Ew; [eexists; split; [done|by eapply knows_written]|].
  destruct (width_is I8 o) eqn:E8; cbn [andb]; [|eexists; split; [done|apply knows_nothing]].
  destruct (c_zero (get_current reg s)) eqn:Ez; cbn [outcome_bind]; [|eexists; split; [done|apply knows_nothing]].
  destruct (v_condition i) eqn:Ec; cbn [outcome_bind]; [|eexists; split; [done|apply knows_nothing]].
  eexists. split; [done|]. eapply knows_condition; try done. by apply bool_decide_eq_true_1 in E8.
Qed.

Lemma read_ok reg result : o.(o_opcode) = Op_ReadGuestReg -> o.(o_guestRegister) = Some reg ->
  o.(o_result) = Some result -> tracked_width o = true ->
  exists s', forward_read s (rename s o) reg result = Ok s' /\ advance fl fs s o s'.
Proof using Hk Hf.
  intros Eop Ereg Eres Ew. unfold forward_read.
  change (width_is I64 (rename s o)) with (width_is I64 o). change (width_is I32 (rename s o)) with (width_is I32 o).
  assert (exists s', keep_operation (rename s o)
    (set_current reg (mkCurrent (Some result) (width_is I64 o) (width_is I32 o) false) s) = Ok s' /\ advance fl fs s o s').
  { apply keep_set; [|done|by apply knows_read]. left. unfold preservesHostValues. by rewrite Eop. }
  destruct (c_value (get_current reg s)) as [v|] eqn:Ev; [|done].
  destruct ((width_is I64 o && _) || _) eqn:Ec; [|done].
  rewrite (resolve_ok n before s Hk) by by eapply (k_current _ _ _ Hk). cbn [outcome_bind].
  destruct (get_info_ok n before s Hk result (result_range result Eres)) as (i & -> & _). cbn [outcome_bind].
  eexists. split; [done|]. apply advance_read; try done.
  apply orb_true_iff in Ec as [Ec|Ec]; apply andb_true_iff in Ec as [Ec ?]; apply bool_decide_eq_true_1 in Ec; auto.
Qed.

Lemma keep_classified : (o.(o_opcode) = Op_WriteGuestReg -> o.(o_guestRegister) = None) ->
  exists s', keep_operation (rename s o) (if preservesHostValues fl fs o then s else fill_current s) = Ok s' /\
    advance fl fs s o s'.
Proof using Hk Hf.
  intros H. destruct (preservesHostValues fl fs o) eqn:E; [by apply keep_still|apply keep_fill].
Qed.

Lemma classified_ok : exists s',
  match o.(o_opcode), o.(o_guestRegister), o.(o_result) with
  | Op_ReadGuestReg, Some reg, Some result =>
      if tracked_width o then forward_read s (rename s o) reg result else keep_operation (rename s o) s
  | Op_WriteGuestReg, Some reg, _ =>
      let! current := current_after_write s (rename s o) (get_current reg s) in
      keep_operation (rename s o) (set_current reg current s)
  | Op_ConditionalMoveGuestReg, Some reg, _ => keep_operation (rename s o) (set_current reg noCurrent s)
  | _, _, _ => keep_operation (rename s o) (if preservesHostValues fl fs o then s else fill_current s)
  end = Ok s' /\ advance fl fs s o s'.
Proof using Hk Hf.
  destruct (o_opcode o) eqn:Eop; try (apply keep_classified; congruence).
  - destruct (o_guestRegister o) as [reg|] eqn:Ereg; [|by apply keep_classified].
    destruct (o_result o) as [result|] eqn:Eres; [|by apply keep_classified; congruence].
    destruct (tracked_width o) eqn:Ew; [by apply read_ok|]. apply keep_still; [|congruence].
    unfold preservesHostValues. by rewrite Eop.
  - destruct (o_guestRegister o) as [reg|] eqn:Ereg; [|by apply keep_classified].
    destruct (written_ok reg) as (c & -> & Hc); [done..|]. cbn [outcome_bind]. apply keep_set; [|done|done].
    left. unfold preservesHostValues. by rewrite Eop.
  - destruct (o_guestRegister o) as [reg|] eqn:Ereg; [|by apply keep_classified; congruence].
    apply keep_set; [by right|done|apply knows_nothing].
Qed.

Lemma forward_operation_ok : exists s', forward_operation fl fs s o = Ok s' /\ advance fl fs s o s'.
Proof using Hk Hf.
  unfold forward_operation. rewrite !operand_root by tauto. cbn [outcome_bind].
  change (set_operands _ _ _ o) with (rename s o). change (o_result (rename s o)) with (o_result o).
  change (opcode_is Op_Add (rename s o)) with (opcode_is Op_Add o). change (o_opcode (rename s o)) with (o_opcode o).
  change (o_guestRegister (rename s o)) with (o_guestRegister o).
  change (tracked_width (rename s o)) with (tracked_width o).
  change (preservesHostValues fl fs (rename s o)) with (preservesHostValues fl fs o).
  pose proof classified_ok as Hc. revert Hc. destruct (o_result o) as [result|] eqn:Eres; [|done]. intros Hc.
  destruct (if fl && _ then _ else None) as [c|] eqn:Efind; [|done].
  destruct (fl && opcode_is Op_Add o) eqn:Eadd; [|done].
  apply andb_true_iff in Eadd as [_ Eadd%bool_decide_eq_true_1]. apply List.find_some in Efind as [Hin Heq].
  destruct (o_result c) as [found|] eqn:Ec; [|by destruct c; cbn in Ec; subst].
  assert (found ∈ results (f_operations s)) as Hfound by (apply list_elem_of_omap; exists c; by rewrite list_elem_of_In).
  pose proof (k_subset _ _ _ Hk found Hfound) as Hb.
  assert (exists s', (let! source := resolve s found in
    let! info := get_info source s in
    Ok (replace_value result source (v_zeroExtended info) (v_zero info) (v_condition info) s)) = Ok s' /\
    advance fl fs s o s') as H.
  { rewrite (resolve_ok n before s Hk) by done. rewrite (k_fixed _ _ _ Hk found Hfound). cbn [outcome_bind].
    destruct (get_info_ok n before s Hk found (k_range _ _ _ Hk found Hb)) as (i & -> & _). cbn [outcome_bind].
    eexists. split; [done|]. apply (advance_equal fl fs s o result c); try done. by apply list_elem_of_In. }
  destruct c; cbn in Ec. by subst.
Qed.
End Steps.

(** ** The steps keep the bookkeeping *)

Lemma root_replaced result source a b c s v : (Z.to_nat result < length s.(f_values))%nat -> 0 <= result -> 0 <= v ->
  root (replace_value result source a b c s) v = if decide (v = result) then source else root s v.
Proof.
  intros Hl Hr Hv. unfold root, replace_value. cbn [set_info f_values]. destruct (decide (v = result)) as [->|Hne].
  - by rewrite list_lookup_insert_eq.
  - rewrite list_lookup_insert_ne by lia. done.
Qed.

Lemma root_kept s o current i v : (forall r, o.(o_result) = Some r -> s.(f_values) !! Z.to_nat r = Some i) ->
  root (kept s o current i) v = root s v.
Proof.
  intros Hi. unfold root, kept. destruct (o_result o) as [r|]; [|done]. cbn [push_operation set_info f_values].
  specialize (Hi r eq_refl). destruct (decide (Z.to_nat r = Z.to_nat v)) as [E|Hne].
  - rewrite E, list_lookup_insert_eq, <- E, Hi; [done|]. apply lookup_lt_Some in Hi. lia.
  - by rewrite list_lookup_insert_ne.
Qed.

Lemma kept_operations s o current i : f_operations (kept s o current i) = s.(f_operations) ++ [rename s o].
Proof. unfold kept. by destruct (o_result o). Qed.

Lemma kept_current s o current i reg : get_current reg (kept s o current i) = nth (Register_encoding reg) current noCurrent.
Proof. unfold kept. by destruct (o_result o). Qed.

Lemma kept_values s o current i : length (f_values (kept s o current i)) = length s.(f_values).
Proof. unfold kept. destruct (o_result o); [|done]. cbn. by rewrite length_insert. Qed.

Lemma result_singleton o (v : ValueId) : v ∈ match o.(o_result) with Some r => [r] | None => [] end <-> o.(o_result) = Some v.
Proof.
  destruct (o_result o) as [r|]; [rewrite list_elem_of_singleton; split; congruence|].
  split; [by intros ?%elem_of_nil|done].
Qed.

Lemma results_kept s o current i v : v ∈ results (f_operations (kept s o current i)) <->
  v ∈ results s.(f_operations) \/ o.(o_result) = Some v.
Proof.
  rewrite kept_operations, results_snoc, elem_of_app. change (o_result (rename s o)) with (o_result o).
  by rewrite result_singleton.
Qed.

Lemma results_before before o v : v ∈ results (before ++ [o]) <-> v ∈ results before \/ o.(o_result) = Some v.
Proof.
  by rewrite results_snoc, elem_of_app, result_singleton.
Qed.

Section Kept.
Context (fl fs : bool) (n : Z) (before : list Operation) (s : Forward) (o : Operation).
Context (Hk : bookkeeping n before s) (Hf : follows n before o).

Lemma result_fresh r : o.(o_result) = Some r -> (r ∉ results before) /\ root s r = r.
Proof using Hk Hf.
  intros E. destruct (new_result _ _ _ (follows_verified _ _ _ Hf) r E) as [_ Hn]. split; [done|].
  apply (k_fresh _ _ _ Hk); [|done]. by apply (follows_unsigned _ _ _ Hf).
Qed.

(** The renamed operation may follow what the optimised block has so far. *)
Lemma rename_follows : may_follow n s.(f_operations) (rename s o).
Proof using Hk Hf.
  assert (forall v, v ∈ operands (rename s o) -> exists x, v = Some x /\ x ∈ results s.(f_operations)) as Hops.
  { intros v. unfold rename. rewrite operands_map. intros (u & -> & Hu)%list_elem_of_fmap.
    pose proof (reads_before _ _ _ (follows_verified _ _ _ Hf)) as H. rewrite Forall_forall in H.
    destruct (H u Hu) as (x & -> & Hx). exists (root s x). split; [done|]. by apply (k_root _ _ _ Hk). }
  split.
  - apply existsb_no_exit. rewrite (k_exit _ _ _ Hk). apply existsb_no_exit, (follows_verified _ _ _ Hf).
  - destruct (is_complete _ _ _ (follows_verified _ _ _ Hf)) as [d Hd]. exists (replicate (Z.to_nat n) true).
    apply (check_renamed _ d); [done|]. apply Forall_forall. intros v Hv. destruct (Hops v Hv) as (x & -> & Hx).
    exists x. split; [done|]. pose proof (k_range _ _ _ Hk x (k_subset _ _ _ Hk x Hx)) as Hr.
    unfold defined_at, zlength. rewrite length_replicate, nth_lookup, lookup_replicate_2 by lia. cbn [default].
    rewrite andb_true_r, andb_true_iff, Z.leb_le, Z.ltb_lt. lia.
  - by apply Forall_forall.
  - intros r E. change (o_result (rename s o)) with (o_result o) in E.
    destruct (new_result _ _ _ (follows_verified _ _ _ Hf) r E) as [Hlt Hn]. split; [done|].
    intros Hin. by apply Hn, (k_subset _ _ _ Hk).
Qed.

Lemma replaced_bookkeeping result source a b c : o.(o_result) = Some result -> is_exit o = false ->
  source ∈ results s.(f_operations) -> bookkeeping n (before ++ [o]) (replace_value result source a b c s).
Proof using Hk Hf.
  intros Er He Hs. pose proof (result_range n before o Hf result Er) as Hr.
  destruct (result_fresh result Er) as [Hfresh _].
  assert (forall v, 0 <= v -> root (replace_value result source a b c s) v = (if decide (v = result) then source else root s v))
    as Hroot by (intros; apply root_replaced; [rewrite (k_values _ _ _ Hk)|..]; lia).
  assert (forall v, v ∈ results (f_operations s) -> 0 <= v /\ v <> result) as Hold.
  { intros v Hv%(k_subset _ _ _ Hk). split; [by apply (k_range _ _ _ Hk)|congruence]. }
  split; cbn [replace_value set_info f_operations f_current f_values].
  - by rewrite length_insert, (k_values _ _ _ Hk).
  - apply (k_registers _ _ _ Hk).
  - intros v [Hv|Hv]%results_before; [by apply (k_range _ _ _ Hk)|congruence].
  - intros v Hv Hn. rewrite results_before in Hn. rewrite Hroot by done.
    rewrite decide_False by (intros ->; tauto). apply (k_fresh _ _ _ Hk); tauto.
  - intros v [Hv|Hv]%results_before.
    + rewrite Hroot by (by apply (k_range _ _ _ Hk)). destruct (decide _); [done|by apply (k_root _ _ _ Hk)].
    + assert (v = result) as -> by congruence. rewrite Hroot by lia. by rewrite decide_True.
  - intros v Hv. destruct (Hold v Hv). rewrite Hroot, decide_False by done. by apply (k_fixed _ _ _ Hk).
  - intros v Hv. apply results_before. left. by apply (k_subset _ _ _ Hk).
  - intros reg v Hv. apply results_before. left. by apply (k_current _ _ _ Hk reg).
  - rewrite existsb_app, (k_exit _ _ _ Hk). cbn. by rewrite He, !orb_false_r.
  - apply (k_output _ _ _ Hk).
Qed.

Lemma knows_defined reg c v : knows fl fs s o reg c -> c.(c_value) = Some v -> v ∈ results (before ++ [o]).
Proof using Hk Hf.
  intros Hkn Hv. apply results_before. destruct Hkn; cbn in Hv; simplify_eq.
  - left. by apply (k_current _ _ _ Hk reg).
  - by right.
  - left. by apply (k_subset _ _ _ Hk), (k_root _ _ _ Hk), (lhs_before n before o Hf).
  - left. by apply (k_subset _ _ _ Hk), (k_root _ _ _ Hk), (lhs_before n before o Hf).
Qed.

Lemma kept_bookkeeping current i : length current = 16%nat ->
  (forall r, o.(o_result) = Some r -> s.(f_values) !! Z.to_nat r = Some i) ->
  (forall reg, knows fl fs s o reg (nth (Register_encoding reg) current noCurrent)) ->
  bookkeeping n (before ++ [o]) (kept s o current i).
Proof using Hk Hf.
  intros Hl Hi Hc. split.
  - by rewrite kept_values, (k_values _ _ _ Hk).
  - unfold kept. by destruct (o_result o).
  - intros v [Hv|Hv]%results_before; [by apply (k_range _ _ _ Hk)|by apply (result_range n before o Hf)].
  - intros v Hv Hn. rewrite results_before in Hn. rewrite root_kept by done. apply (k_fresh _ _ _ Hk); tauto.
  - intros v Hv%results_before. rewrite root_kept by done. apply results_kept.
    destruct Hv as [Hv|Hv]; [left; by apply (k_root _ _ _ Hk)|right]. by destruct (result_fresh v Hv) as [_ ->].
  - intros v [Hv|Hv]%results_kept; rewrite root_kept by done; [by apply (k_fixed _ _ _ Hk)|by apply result_fresh].
  - intros v [Hv|Hv]%results_kept; apply results_before; [left; by apply (k_subset _ _ _ Hk)|by right].
  - intros reg v Hv. rewrite kept_current in Hv. by apply (knows_defined reg _ v (Hc reg)).
  - rewrite kept_operations, !existsb_app, (k_exit _ _ _ Hk). done.
  - rewrite kept_operations, all_follow_snoc. split; [apply (k_output _ _ _ Hk)|apply rename_follows].
Qed.

Lemma advance_bookkeeping s' : advance fl fs s o s' -> bookkeeping n (before ++ [o]) s'.
Proof using Hk Hf.
  intros [result c found i Eop Er Hc Ec _|result reg v cond Eop _ Er Hv _|current i Hl Hi Hc].
  - apply replaced_bookkeeping; [done|unfold is_exit; by rewrite Eop|]. apply list_elem_of_omap. by exists c.
  - apply replaced_bookkeeping; [done|unfold is_exit; by rewrite Eop|].
    apply (k_root _ _ _ Hk). by apply (k_current _ _ _ Hk reg).
  - by apply kept_bookkeeping.
Qed.
End Kept.

(** ** Blocks *)

(** Every operation follows the earlier ones. *)
Definition closed (n : Z) (ops : list Operation) : Prop := forall i o, ops !! i = Some o -> follows n (take i ops) o.

Lemma initial_bookkeeping n : bookkeeping n [] (initialForward n).
Proof.
  assert (forall v, 0 <= v -> root (initialForward n) v = v) as Hroot.
  { intros v Hv. unfold root. cbn [initialForward f_values]. destruct (_ !! _) as [i|] eqn:E; [|done].
    apply list_lookup_fmap_Some in E as (x & -> & Ex). apply lookup_seqZ in Ex as [-> _]. cbn. lia. }
  split; cbn [initialForward f_operations f_current f_values].
  - by rewrite length_map, length_seqZ.
  - apply length_replicate.
  - by intros v ?%elem_of_nil.
  - intros v Hv _. by apply Hroot.
  - by intros v ?%elem_of_nil.
  - by intros v ?%elem_of_nil.
  - by intros v ?%elem_of_nil.
  - intros reg v Hv. unfold get_current in Hv. cbn [initialForward f_current] in Hv.
    rewrite nth_lookup in Hv. by destruct reg.
  - done.
  - by intros i o ?.
Qed.

Lemma closed_cons n before o ops :
  (forall i p, (o :: ops) !! i = Some p -> follows n (before ++ take i (o :: ops)) p) ->
  follows n before o /\ forall i p, ops !! i = Some p -> follows n ((before ++ [o]) ++ take i ops) p.
Proof.
  intros H. split; [specialize (H 0%nat o eq_refl); by rewrite app_nil_r in H|].
  intros i p Hp. rewrite <- app_assoc. by apply (H (S i) p).
Qed.

(** The pass always returns. *)
Lemma forward_loop_ok fl fs n ops : forall before s, bookkeeping n before s ->
  (forall i o, ops !! i = Some o -> follows n (before ++ take i ops) o) ->
  exists s', forward_loop fl fs s ops = Ok s' /\ bookkeeping n (before ++ ops) s'.
Proof.
  induction ops as [|o ops IH]; intros before s Hk H; cbn [forward_loop].
  - exists s. by rewrite app_nil_r.
  - apply closed_cons in H as [Hf H]. destruct (forward_operation_ok fl fs n before s o Hk Hf) as (s1 & -> & Ha).
    cbn [outcome_bind]. apply (advance_bookkeeping fl fs n before s o Hk Hf) in Ha.
    destruct (IH _ _ Ha H) as (s' & Hs' & Hk'). exists s'. split; [done|]. by rewrite <- app_assoc in Hk'.
Qed.

(** Operations are only added at the end. *)
Lemma forward_loop_extends fl fs n ops : forall before s s', bookkeeping n before s ->
  (forall i o, ops !! i = Some o -> follows n (before ++ take i ops) o) ->
  forward_loop fl fs s ops = Ok s' -> exists out, s'.(f_operations) = s.(f_operations) ++ out.
Proof.
  induction ops as [|o ops IH]; intros before s s' Hk H; cbn [forward_loop].
  - intros [= <-]. exists []. by rewrite app_nil_r.
  - apply closed_cons in H as [Hf H]. destruct (forward_operation_ok fl fs n before s o Hk Hf) as (s1 & -> & Ha).
    cbn [outcome_bind]. intros Hloop. pose proof (advance_bookkeeping fl fs n before s o Hk Hf s1 Ha) as Hk1.
    destruct (IH _ _ s' Hk1 H Hloop) as (out & ->). destruct Ha; [by exists out|by exists out|].
    rewrite kept_operations, <- app_assoc. by eexists.
Qed.
