(* ===== verification/BuilderClosed.v ===== *)
(** Blocks made by builder calls are closed: every operand, including those the
    verifier does not check, is the result of an earlier operation.  This is what
    the optimiser needs of its input. *)
From stdpp Require Import relations.
From S2P Require Import Prelude X86State IR IRBuilder IRVerify IRVerifySpec IRBuilderSpec Optimization OptimizationInv.

(** Every operand of an added operation is a value of the block. *)
Definition adds_closed (b b' : Block) : Prop := exists o,
  b'.(b_operations) = b.(b_operations) ++ [o] /\ forall v, Some v ∈ operand_slots o -> has_value b v.

Ltac solve_adds :=
  eexists; split; [reflexivity|]; intros v Hv; unfold operand_slots in Hv; cbn in Hv;
  rewrite !elem_of_cons, elem_of_nil in Hv; destruct Hv as [Hv|[Hv|[Hv|[]]]]; simplify_eq; assumption.

Lemma builder_step_closed b b' : builder_step b b' -> adds_closed b b'.
Proof. destruct b. destruct 1; solve_adds. Qed.

Lemma builder_exit_closed b b' : builder_exit b b' -> adds_closed b b'.
Proof. destruct b. destruct 1; solve_adds. Qed.

(** ** Blocks *)

Definition slots_closed (ops : list Operation) : Prop := forall i o, ops !! i = Some o ->
  forall v, Some v ∈ operand_slots o -> v ∈ results (take i ops).

Lemma slots_closed_snoc ops o : slots_closed (ops ++ [o]) <->
  slots_closed ops /\ forall v, Some v ∈ operand_slots o -> v ∈ results ops.
Proof.
  unfold slots_closed.
  rewrite (snoc_forall (fun i p => forall v, Some v ∈ operand_slots p -> v ∈ results (take i (ops ++ [o])))).
  rewrite take_app_length. split; intros [H Ho]; (split; [|done]); intros i p Hi;
    specialize (H i p Hi); apply lookup_lt_Some in Hi; by rewrite take_app_le in * by lia.
Qed.

Lemma adds_slots b b' : builder_ok b -> slots_closed b.(b_operations) -> adds_closed b b' ->
  slots_closed b'.(b_operations).
Proof.
  intros Hb Hs (o & -> & Ho). apply slots_closed_snoc. split; [done|]. intros v Hv.
  rewrite (values _ Hb). apply elem_of_seqZ. specialize (Ho v Hv). unfold has_value in Ho. lia.
Qed.

Lemma builder_steps_slots b b' : rtc builder_step b b' -> builder_ok b -> slots_closed b.(b_operations) ->
  builder_ok b' /\ slots_closed b'.(b_operations).
Proof.
  induction 1 as [b|b b1 b2 Hstep _ IH]; intros Hb Hs; [done|].
  apply IH; [by eapply builder_step_ok|]. by apply (adds_slots b b1 Hb Hs), builder_step_closed.
Qed.

(** An exit does not change the number of values. *)
Lemma builder_exit_count b b' : builder_exit b b' -> b'.(b_valueCount) = b.(b_valueCount).
Proof. destruct b. by destruct 1. Qed.

Lemma built_closed start b b' : rtc builder_step (newBuilder start) b -> builder_exit b b' ->
  0 <= b'.(b_valueCount) /\ closed b'.(b_valueCount) b'.(b_operations) /\ existsb is_exit b'.(b_operations) = true.
Proof.
  intros Hsteps Hexit.
  destruct (builder_steps_slots _ _ Hsteps (newBuilder_ok start)) as [Hb Hs]; [by intros i o ?|].
  pose proof (adds_slots b b' Hb Hs (builder_exit_closed b b' Hexit)) as Hs'.
  destruct (exit_ok b b' Hb Hexit) as (Hv & _ & Hr).
  assert (0 <= b'.(b_valueCount)) as Hn by (rewrite (builder_exit_count b b' Hexit); apply Hb).
  assert (forall r, r ∈ results b'.(b_operations) -> 0 <= r) as Hpos by (intros r; rewrite Hr, elem_of_seqZ; lia).
  assert (ids_unsigned b'.(b_operations)) as Hids.
  { apply Forall_forall. intros o Ho r Er. apply Hpos, list_elem_of_omap. by exists o. }
  apply (verify_nil b' Hn Hids) in Hv as [Hf He]. split_and!; [done| |done].
  intros i o Ho. split; [by apply Hf|by apply (Hs' i o)|]. intros r Er. apply Hpos, list_elem_of_omap. exists o.
  split; [by eapply list_elem_of_lookup_2|done].
Qed.
