(* ===== verification/OptimizationSpec.v ===== *)
(** The optimiser preserves the meaning of a block.

    The proof is a simulation: after the same operations of the source block, the
    run of the optimised block is in the same machine, every value of the source
    block is the value of its root, and what the pass believes of registers and
    values is true. *)
From stdpp Require Import relations.
From S2P Require Import Prelude X86State FlagSpec FlagHelpers AddressSpace AddressSpaceInv AddressSpaceAccess AddressSpaceWrite ExecutionContext MemoryArithmetic RuntimeMemory IR IRBuilder IRVerify IRVerifySpec IRBuilderSpec Optimization IRSemantics OptimizationInv BuilderClosed.

(** ** Machines and effects *)

Record machine_ok (m : Machine) : Prop := {
  machine_state : state_ok m.2;
  machine_views : direct_ok m.1;
  machine_space : match m.1.(addressSpace) with Some s => space_ok s | None => True end
}.

Definition value_ok (v : option Z) : Prop := match v with Some x => in_range 64 x | None => True end.

(** What is asked of the operations the semantics does not interpret. *)
Definition well_behaved (other : Operation -> option Z -> option Z -> option Z -> Machine -> Effect) : Prop :=
  forall o l r t m m' res, value_ok l -> value_ok r -> value_ok t -> machine_ok m ->
    other o l r t m = (m', res) -> machine_ok m' /\ forall v, res = Ok v -> value_ok v.

Lemma value_width_bounds w : 0 <= value_width w <= 64.
Proof. destruct w; cbn; lia. Qed.

Lemma pure_value_range o st l r x : pure_value o st l r = Some x -> in_range 64 x.
Proof.
  assert (forall w y, in_range 64 (wrap (value_width w) y)) as Hw.
  { intros w y. apply (in_range_le (value_width w)); [apply wrap_range|]; apply value_width_bounds. }
  assert (forall y, in_range 64 (u64 y)) as Hu by (intros; apply wrap_range; lia).
  unfold pure_value. destruct (o_opcode o), l, r; try done; cbn [mbind option_bind];
    try (destruct (o_guestRegister o)); try (destruct (o_condition o)); cbn; intros [= <-];
    first [apply Hw | apply Hu | destruct (condition_holds _ _); by unfold in_range].
Qed.

Lemma touched_ok ctx s c' st : addressSpace ctx = Some s -> touched ctx s c' -> state_ok st -> machine_ok (c', st).
Proof.
  intros Hs (s' & dr & dw & -> & Hm & Hok & Hd) Hst. by split.
Qed.

Lemma fault_ok e at_ c st : machine_ok (c, st) -> machine_ok (set_fault e at_ c, st).
Proof. by intros [? ? ?]. Qed.

Lemma loaded_ok v c st : machine_ok (c, st) -> machine_ok (set_loadedValue v c, st).
Proof. by intros [? ? ?]. Qed.

(** Loads leave the registers alone and deliver a word of their width. *)
Lemma load_effect w a m m' res : in_range 64 a -> machine_ok m ->
  helper_effect m (load_helper w (Some m.1) m.2 a) (fun c => Some c.(loadedValue)) = (m', res) ->
  machine_ok m' /\ m'.2 = m.2 /\ forall v, res = Ok v -> exists x, v = Some x /\ in_range (Width_bits w) x.
Proof.
  intros Ha Hm.
  assert (exists n, implements_load (fun c st => load_helper w c st a) "generated guest load has no address space" a n /\
    8 * n = Width_bits w /\ 0 <= n) as (n & Hload & Hn & Hpos).
  { destruct (load_words_ok a Ha) as (H2 & H4 & H8). pose proof (loadGuest8_ok a Ha).
    destruct w; [exists 1|exists 2|exists 4|exists 8]; by split_and!. }
  destruct m as [ctx st]. destruct (Hload st) as [_ H]. specialize (H ctx). cbn [fst snd] in *.
  destruct Hm as [Hst Hd Hs]. cbn [fst snd] in *. destruct (addressSpace ctx) as [s|] eqn:Es.
  - specialize (H Hs Hd). destruct (word_at s a n) as [v|e|] eqn:Ew; [| |done].
    + destruct H as (c' & -> & Ht). cbn. intros [= <- <-]. split_and!; [by apply loaded_ok, (touched_ok ctx s)|done|].
      intros v' [= <-]. exists v. split; [done|]. rewrite <- Hn. by eapply word_at_range.
    + destruct H as (c' & -> & Ht). cbn. intros [= <- <-].
      split_and!; [by apply fault_ok, (touched_ok ctx s)|done|done].
  - rewrite H. cbn. intros [= <- <-]. split_and!; [|done|done]. apply fault_ok. by split; cbn; rewrite ?Es.
Qed.

Lemma store_effect w a x m m' res : in_range 64 a -> in_range 64 x -> machine_ok m ->
  helper_effect m (store_helper w (Some m.1) m.2 a x) (fun _ => None) = (m', res) ->
  machine_ok m' /\ m'.2 = m.2 /\ forall v, res = Ok v -> v = None.
Proof.
  intros Ha Hx Hm.
  assert (exists msg bytes, implements_store (fun c st => store_helper w c st a x) msg a bytes id true) as (msg & bytes & Hstore).
  { destruct w; eexists _, _; cbn [store_helper];
      [by apply storeGuest8_ok|by apply storeGuest16_ok|by apply storeGuest32_ok|by apply storeGuest64_ok]. }
  destruct m as [ctx st]. destruct (Hstore st) as [_ H]. specialize (H ctx). cbn [fst snd] in *.
  destruct Hm as [Hst Hd Hs]. cbn [fst snd] in *. destruct (addressSpace ctx) as [s|] eqn:Es.
  - specialize (H Hs Hd). destruct (check_all s Permission_Write a (length bytes)) as [u|e|] eqn:Ec; [| |done].
    + destruct H as (s' & dr & dw & -> & _ & Hok & Hd'). cbn. intros [= <- <-]. split_and!; [by split|done|by intros ? [= <-]].
    + destruct H as (c' & -> & Ht). cbn. intros [= <- <-].
      split_and!; [by apply fault_ok, (touched_ok ctx s)|done|done].
  - rewrite H. cbn. intros [= <- <-]. split_and!; [|done|done]. apply fault_ok. by split; cbn; rewrite ?Es.
Qed.

Lemma set_if_range c flag f : in_range 64 flag -> in_range 64 f -> in_range 64 (set_if c flag f).
Proof. intros. destruct c; cbn; [by apply lor_range|done]. Qed.

Lemma cleared_range f mask : in_range 64 (Z.lor (Z.land f (not64 mask)) flagReservedOne).
Proof. apply lor_range; [lia| |done]. apply land_range_r; [lia|]. apply wrap_range. lia. Qed.

(** A flag update changes RFLAGS only. *)
Definition flags_only (st st' : X86State) : Prop := exists f, st' = set_rflags f st /\ in_range 64 f.

Lemma flag_updates w st x y z :
  flags_only st (add_flags w st x y z) /\ flags_only st (sub_flags w st x y z) /\ flags_only st (logic_flags w st x).
Proof.
  destruct w; split_and!; (eexists; split; [reflexivity|]); repeat (apply set_if_range; [done|]); apply cleared_range.
Qed.

Lemma flags_only_ok st st' : flags_only st st' -> state_ok st -> state_ok st' /\ forall r, get_gpr r st' = get_gpr r st.
Proof. intros (f & -> & Hf) [Hg Hr _]. by split. Qed.

Lemma written_range w old x : in_range 64 old -> in_range 64 x -> in_range 64 (written w old x).
Proof.
  intros Ho Hx. destruct w; cbn [written]; [| |apply (in_range_le 32); [apply wrap_range; lia|lia]|done].
  all: apply lor_range; [lia| |]; apply land_range_r; try lia; [apply wrap_range; lia|]; by unfold in_range.
Qed.

Section Simulation.
Context (other : Operation -> option Z -> option Z -> option Z -> Machine -> Effect) (Hother : well_behaved other).

Lemma update_ok (m : Machine) st' : machine_ok m -> state_ok st' -> machine_ok (m.1, st').
Proof using Type. intros [? ? ?] ?. by split. Qed.

Lemma effect_ok o l r t m m' res : value_ok l -> value_ok r -> value_ok t -> machine_ok m ->
  effect other o l r t m = (m', res) -> machine_ok m' /\ forall v, res = Ok v -> value_ok v.
Proof using Hother.
  intros Hl Hr Ht Hm. pose proof (machine_state _ Hm) as Hst. unfold effect.
  destruct (is_pure o).
  { destruct (pure_value o m.2 l r) as [x|] eqn:E; intros [= <- <-]; split; try done.
    intros v [= <-]. by eapply pure_value_range. }
  destruct (o_opcode o); try (by apply Hother);
    repeat match goal with |- context [match ?x with _ => _ end = _] => is_var x; destruct x end;
    try (intros [= <- <-]; done); try (by apply Hother).
  - destruct (o_guestRegister o); intros [= <- <-]; (split; [|by intros v [= <-]]); [|done].
    apply update_ok; [done|]. apply state_ok_set_gpr; [done|]. apply written_range; [by apply get_gpr_range|done].
  - destruct (o_guestRegister o); [|by intros [= <- <-]]. destruct (o_condition o); [|by intros [= <- <-]].
    intros [= <- <-]. split; [|by intros v [= <-]]. apply update_ok; [done|]. apply state_ok_set_gpr; [done|].
    apply (in_range_le (value_width (o_width o))); [apply wrap_range|]; apply value_width_bounds.
  - intros E. apply load_effect in E as (Hok & _ & Hv); [|done|done]. split; [done|]. intros v Ev.
    destruct (Hv v Ev) as (x & -> & Hx). apply (in_range_le (Width_bits (o_width o))); [done|]. destruct (o_width o); cbn; lia.
  - intros E. apply store_effect in E as (Hok & _ & Hv); [|done..]. split; [done|]. intros v Ev. by rewrite (Hv v Ev).
  - intros [= <- <-]. split; [|by intros v [= <-]]. apply update_ok; [done|].
    by apply (flags_only_ok m.2); [apply flag_updates|].
  - intros [= <- <-]. split; [|by intros v [= <-]]. apply update_ok; [done|].
    by apply (flags_only_ok m.2); [apply flag_updates|].
  - intros [= <- <-]. split; [|by intros v [= <-]]. apply update_ok; [done|].
    by apply (flags_only_ok m.2); [apply flag_updates; exact 0|].
Qed.

(** The register [r] survives the operation. *)
Definition keeps (o : Operation) (r : Register) : Prop :=
  match o.(o_opcode) with
  | Op_WriteGuestReg | Op_ConditionalMoveGuestReg => o.(o_guestRegister) <> Some r
  | Op_LoadGuest | Op_StoreGuest | Op_UpdateAddFlags | Op_UpdateSubFlags | Op_UpdateLogicFlags => True
  | _ => is_pure o = true
  end.

Lemma effect_keeps o l r t m m' res reg : value_ok l -> value_ok r -> machine_ok m -> keeps o reg ->
  effect other o l r t m = (m', res) -> get_gpr reg m'.2 = get_gpr reg m.2.
Proof using Type.
  intros Hl Hr Hm Hk. pose proof (machine_state _ Hm) as Hst. unfold effect. unfold keeps in Hk.
  destruct (is_pure o) eqn:Hp.
  { destruct (pure_value o m.2 l r) as [x|] eqn:E; by intros [= <- <-]. }
  unfold is_pure in Hp. destruct (o_opcode o); try done;
    repeat match goal with |- context [match ?x with _ => _ end = _] => is_var x; destruct x end;
    try (intros [= <- <-]; done).
  - destruct (o_guestRegister o); intros [= <- <-]; [|done]. cbn. apply get_set_gpr_ne. congruence.
  - destruct (o_guestRegister o); [|by intros [= <- <-]]. destruct (o_condition o); [|by intros [= <- <-]].
    intros [= <- <-]. cbn. apply get_set_gpr_ne. congruence.
  - intros E. apply load_effect in E as (_ & -> & _); done.
  - intros E. apply store_effect in E as (_ & -> & _); done.
  - intros [= <- <-]. cbn [snd]. destruct (flag_updates (o_width o) m.2 z z0 z1) as (H & _). by apply flags_only_ok.
  - intros [= <- <-]. cbn [snd]. destruct (flag_updates (o_width o) m.2 z z0 z1) as (_ & H & _). by apply flags_only_ok.
  - intros [= <- <-]. cbn [snd]. destruct (flag_updates (o_width o) m.2 z 0 0) as (_ & _ & H). by apply flags_only_ok.
Qed.

(** ** What the pass believes is true *)

Definition value_facts (i : ValueInfo) (x : Z) : Prop :=
  (i.(v_zeroExtended) = true -> in_range 32 x) /\ (i.(v_zero) = true -> x = 0) /\
  (i.(v_condition) = true -> x = 0 \/ x = 1).

(** [c] is known of a register that holds [g]. *)
Definition current_facts (env : gmap Z Z) (c : Current) (g : Z) : Prop :=
  (c.(c_zero) = true -> g = 0) /\
  forall v, c.(c_value) = Some v -> exists x, env !! v = Some x /\
    (c.(c_full) = true -> g = x) /\ (c.(c_zeroExtended) = true -> in_range 32 x /\ x = u32 g).

(** The operation's result is the sum of its operands. *)
Definition is_sum (env : gmap Z Z) (o : Operation) : Prop :=
  forall r, o.(o_opcode) = Op_Add -> o.(o_result) = Some r -> exists x y,
    read_operand env o.(o_lhs) = Some (Some x) /\ read_operand env o.(o_rhs) = Some (Some y) /\
    env !! r = Some (wrap (value_width o.(o_width)) (x + y)).

Record agrees (before : list Operation) (s : Forward) (env env' : gmap Z Z) (m : Machine) : Prop := {
  a_machine : machine_ok m;
  a_values : forall v, v ∈ results before -> exists x, env !! v = Some x /\ env' !! root s v = Some x /\ in_range 64 x;
  a_domain : forall v x, env' !! v = Some x -> v ∈ results s.(f_operations);
  a_info : forall v i x, env' !! v = Some x -> s.(f_values) !! Z.to_nat v = Some i -> value_facts i x;
  a_current : forall reg, current_facts env (get_current reg s) (get_gpr reg m.2);
  a_sums : forall c, c ∈ s.(f_operations) -> is_sum env' c
}.

Lemma agrees_initial n m : machine_ok m -> agrees [] (initialForward n) ∅ ∅ m.
Proof using Type.
  intros Hm. split; try done; intros *; try by intros ?%elem_of_nil.
  assert (get_current reg (initialForward n) = noCurrent) as -> by (by destruct reg). done.
Qed.

Section Step.
Context (fl fs : bool) (n : Z) (before : list Operation) (s : Forward) (o : Operation) (env env' : gmap Z Z) (m : Machine).
Context (Hk : bookkeeping n before s) (Hf : follows n before o) (Ha : agrees before s env env' m).

Lemma operand_value v : v ∈ operand_slots o -> exists x,
  read_operand env v = Some x /\ read_operand env' (root s <$> v) = Some x /\ value_ok x.
Proof using Hf Ha.
  intros Hv. destruct v as [v|]; [|by exists None].
  destruct (a_values _ _ _ _ _ Ha v (follows_closed _ _ _ Hf v Hv)) as (x & E & E' & Hx).
  exists (Some x). cbn. by rewrite E, E'.
Qed.

Lemma read_operands : exists l r t,
  (read_operand env o.(o_lhs) = Some l /\ read_operand env o.(o_rhs) = Some r /\ read_operand env o.(o_third) = Some t) /\
  (read_operand env' (o_lhs (rename s o)) = Some l /\ read_operand env' (o_rhs (rename s o)) = Some r /\
   read_operand env' (o_third (rename s o)) = Some t) /\ value_ok l /\ value_ok r /\ value_ok t.
Proof using Hf Ha.
  destruct (operand_value (o_lhs o)) as (l & ? & ? & ?); [by left|].
  destruct (operand_value (o_rhs o)) as (r & ? & ? & ?); [by right; left|].
  destruct (operand_value (o_third o)) as (t & ? & ? & ?); [by right; right; left|].
  by exists l, r, t.
Qed.

Lemma effect_rename l r t : effect other (rename s o) l r t m = effect other o l r t m.
Proof using Type. done. Qed.

Lemma env_old v r (x : Z) : v ∈ results before -> o.(o_result) = Some r -> <[r:=x]> env !! v = env !! v.
Proof using Hf.
  intros Hv Hr. apply lookup_insert_ne. intros <-.
  by destruct (new_result _ _ _ (follows_verified _ _ _ Hf) r Hr).
Qed.

Lemma env_new_ne v r : o.(o_result) = Some r -> v ∈ results s.(f_operations) -> r <> v.
Proof using Hk Hf.
  intros Hr Hv ->. destruct (new_result _ _ _ (follows_verified _ _ _ Hf) v Hr) as [_ Hn].
  by apply Hn, (k_subset _ _ _ Hk).
Qed.

Lemma env'_old v r (x y : Z) : o.(o_result) = Some r -> env' !! v = Some y -> <[r:=x]> env' !! v = Some y.
Proof using Hk Hf Ha.
  intros Hr Hv. rewrite lookup_insert_ne; [done|]. apply env_new_ne; [done|]. by apply (a_domain _ _ _ _ _ Ha v y).
Qed.

(** *** Operations that are dropped *)

Lemma agrees_replaced result source x a b c : o.(o_result) = Some result -> env' !! source = Some x ->
  in_range 64 x -> agrees (before ++ [o]) (replace_value result source a b c s) (<[result:=x]> env) env' m.
Proof using Hk Hf Ha.
  intros Er Hs Hx. pose proof (result_range n before o Hf result Er) as Hr.
  assert (forall v y, env' !! v = Some y -> v <> result) as Hold.
  { intros v y Hv%(a_domain _ _ _ _ _ Ha). by apply not_eq_sym, env_new_ne. }
  split; cbn [replace_value set_info f_operations f_current f_values].
  - apply (a_machine _ _ _ _ _ Ha).
  - intros v Hv%results_before.
    assert (0 <= v) as Hv0 by (destruct Hv as [Hv|Hv]; [by apply (k_range _ _ _ Hk)|by apply (result_range n before o Hf)]).
    rewrite root_replaced by (rewrite ?(k_values _ _ _ Hk); lia). destruct (Z.eq_dec v result) as [->|Hne].
    + exists x. by rewrite lookup_insert_eq, decide_True.
    + rewrite decide_False by done. destruct Hv as [Hv|Hv]; [|congruence]. rewrite lookup_insert_ne by done. by apply (a_values _ _ _ _ _ Ha).
  - apply (a_domain _ _ _ _ _ Ha).
  - intros v i y Hv Hi. rewrite list_lookup_insert_ne in Hi; [by apply (a_info _ _ _ _ _ Ha v)|].
    specialize (Hold v y Hv). apply (a_domain _ _ _ _ _ Ha), (k_subset _ _ _ Hk), (k_range _ _ _ Hk) in Hv. lia.
  - intros reg. destruct (a_current _ _ _ _ _ Ha reg) as [Hz Hc]. split; [done|]. intros v Hv.
    rewrite (env_old v result x); [by apply Hc| |done]. by apply (k_current _ _ _ Hk reg).
  - apply (a_sums _ _ _ _ _ Ha).
Qed.

Lemma pure_step x l r t result : read_operand env o.(o_lhs) = Some l -> read_operand env o.(o_rhs) = Some r ->
  read_operand env o.(o_third) = Some t -> is_pure o = true -> pure_value o m.2 l r = Some x ->
  o.(o_result) = Some result -> step other o env m = Next (<[result:=x]> env) m.
Proof using Type.
  intros El Er Et Hp Hx Hr. unfold step, effect. by rewrite El, Er, Et, Hp, Hx, Hr.
Qed.

Lemma step_equal result c found : o.(o_opcode) = Op_Add -> o.(o_result) = Some result ->
  c ∈ s.(f_operations) -> c.(o_result) = Some found -> equivalent (rename s o) c = true ->
  exists x, step other o env m = Next (<[result:=x]> env) m /\ env' !! found = Some x /\ in_range 64 x.
Proof using Hf Ha.
  intros Eop Er Hc Ec Heq. unfold equivalent in Heq. rewrite !andb_true_iff, !bool_decide_eq_true in Heq.
  destruct Heq as [[[[[[_ Hop] Hw] Hl] Hr] _] _].
  destruct (a_sums _ _ _ _ _ Ha c Hc found) as (x & y & Hx & Hy & Hsum); [by rewrite Hop|done|].
  rewrite Hl in Hx. rewrite Hr in Hy. change (o_width (rename s o)) with (o_width o) in Hw. rewrite Hw in Hsum.
  destruct read_operands as (l & r & t & (El & Er' & Et) & (El' & Er'' & _) & _).
  exists (wrap (value_width (o_width o)) (x + y)). split_and!; [|done|].
  2: { apply (in_range_le (value_width (o_width o))); [apply wrap_range|]; apply value_width_bounds. }
  rewrite Hx in El'. rewrite Hy in Er''. simplify_eq. eapply pure_step; try done; unfold is_pure, pure_value; by rewrite Eop.
Qed.

Lemma step_read result reg v : o.(o_opcode) = Op_ReadGuestReg -> o.(o_guestRegister) = Some reg ->
  o.(o_result) = Some result -> (get_current reg s).(c_value) = Some v ->
  (o.(o_width) = I64 /\ (get_current reg s).(c_full) = true \/
   o.(o_width) = I32 /\ (get_current reg s).(c_zeroExtended) = true) ->
  exists x, step other o env m = Next (<[result:=x]> env) m /\ env' !! root s v = Some x /\ in_range 64 x.
Proof using Hk Hf Ha.
  intros Eop Ereg Er Hv Hw. destruct (a_current _ _ _ _ _ Ha reg) as [_ Hc]. destruct (Hc v Hv) as (x & Ex & Hfull & Hext).
  destruct (a_values _ _ _ _ _ Ha v) as (x' & Ex' & Eroot & Hx); [by apply (k_current _ _ _ Hk reg)|]. simplify_eq.
  exists x. split; [|done]. destruct read_operands as (l & r & t & (El & Er' & Et) & _).
  eapply pure_step; try done; unfold is_pure, pure_value; rewrite Eop; [done|]. rewrite Ereg. cbn [mbind option_bind].
  destruct Hw as [[-> H]|[-> H]]; cbn [value_width].
  - rewrite (Hfull H), wrap_small by done. done.
  - destruct (Hext H) as [_ E]. by rewrite E at 1.
Qed.

(** *** Operations that are kept *)

Section Effect.
Context (l r t v : option Z) (m1 : Machine).
Context (El : read_operand env o.(o_lhs) = Some l) (Er : read_operand env o.(o_rhs) = Some r)
  (Et : read_operand env o.(o_third) = Some t) (Hl : value_ok l) (Hr : value_ok r) (Ht : value_ok t)
  (Heff : effect other o l r t m = (m1, Ok v)) (Hres : present o.(o_result) = present v).

(** The environment with the result. *)
Definition extend (e : gmap Z Z) : gmap Z Z :=
  match o.(o_result), v with Some res, Some x => <[res:=x]> e | _, _ => e end.

Lemma extend_before w : w ∈ results before -> extend env !! w = env !! w.
Proof using Hf. clear Hres Heff. intros Hw. unfold extend. destruct (o_result o) eqn:E, v; try done. by apply env_old. Qed.

Lemma extend_old w y : env' !! w = Some y -> extend env' !! w = Some y.
Proof using Hk Hf Ha. clear Hres Heff. intros Hw. unfold extend. destruct (o_result o) eqn:E, v; try done. by apply env'_old. Qed.

Lemma read_old u z : read_operand env' u = Some (Some z) -> read_operand (extend env') u = Some (Some z).
Proof using Hk Hf Ha.
  clear Hres Heff. destruct u as [u|]; [|done]. unfold read_operand. intros H. apply bind_Some in H as (y & Ey & [= ->]).
  apply bind_Some. exists z. split; [by apply extend_old|done].
Qed.

Lemma extend_new res : o.(o_result) = Some res -> exists x, v = Some x /\ forall e, extend e !! res = Some x.
Proof using Hres.
  clear Heff. intros E. unfold extend. rewrite E in *. destruct v as [x|]; [|done]. exists x. split; [done|]. intros e.
  by rewrite lookup_insert_eq.
Qed.

Lemma extend_inv w y : extend env' !! w = Some y ->
  env' !! w = Some y /\ o.(o_result) <> Some w \/ o.(o_result) = Some w /\ v = Some y.
Proof using Hk Hf Ha.
  clear Hres Heff. unfold extend. intros H. destruct (o_result o) as [res|] eqn:E; [|by left].
  assert (env' !! w = Some y -> Some res <> Some w) as Hne.
  { intros Hw%(a_domain _ _ _ _ _ Ha) [= ->]. by apply (env_new_ne w w E). }
  destruct v as [x|]; [|left; auto]. destruct (Z.eq_dec res w) as [->|Hn].
  - right. by rewrite lookup_insert_eq in H.
  - left. rewrite lookup_insert_ne in H by done. auto.
Qed.

Lemma width_32 x : width_is I32 o = true -> x = wrap (value_width o.(o_width)) x -> in_range 32 x.
Proof using Type. intros Hw%bool_decide_eq_true_1. rewrite Hw. intros ->. apply wrap_range. cbn. lia. Qed.

(** What [result_info] claims of a result is true. *)
Lemma result_facts x i : v = Some x -> value_facts (result_info o i) x.
Proof using Heff Hl Ha.
  clear Hres Hr Er El. intros ->. unfold result_info, opcode_is, value_facts. cbn [v_zeroExtended v_zero v_condition].
  unfold effect in Heff.
  assert (opcode_is Op_Constant o && (o_immediate o =? 0) = true -> x = 0) as Hz.
  { unfold opcode_is. rewrite andb_true_iff, bool_decide_eq_true. intros [E Hi%Z.eqb_eq].
    unfold is_pure, pure_value in Heff. rewrite E, Hi in Heff. injection Heff as _ <-. by destruct (o_width o). }
  assert (opcode_is Op_EvaluateCondition o = true -> x = 0 \/ x = 1) as Hc.
  { unfold opcode_is. rewrite bool_decide_eq_true. intros E. unfold is_pure, pure_value in Heff. rewrite E in Heff.
    destruct (o_condition o) as [c|]; [|done]. cbn in Heff. injection Heff as _ <-. destruct (condition_holds _ _); auto. }
  split_and!; [|done|done]. rewrite !orb_true_iff. intros [[H|H]|H].
  - by rewrite (Hz H).
  - by destruct (Hc H) as [-> | ->].
  - apply andb_true_iff in H as [Hw%bool_decide_eq_true_1 H].
    unfold is_pure, pure_value in Heff. rewrite Hw in Heff. destruct (o_opcode o); try done; cbn [value_width] in Heff;
      try (injection Heff as _ <-; apply wrap_range; lia);
      try (destruct l, r; try done; injection Heff as _ <-; apply wrap_range; lia).
    + destruct (o_guestRegister o); [|done]. cbn in Heff. injection Heff as _ <-. apply wrap_range. lia.
    + destruct l as [a|]; [|done]. apply load_effect in Heff as (_ & _ & Hv); [|done|apply (a_machine _ _ _ _ _ Ha)].
      destruct (Hv _ eq_refl) as (y & [= <-] & Hy). done.
Qed.

Lemma preserves_keeps reg : preservesHostValues fl fs o = true \/ o.(o_opcode) = Op_ConditionalMoveGuestReg ->
  (o.(o_opcode) = Op_WriteGuestReg \/ o.(o_opcode) = Op_ConditionalMoveGuestReg -> o.(o_guestRegister) <> Some reg) ->
  keeps o reg.
Proof using Type.
  clear Heff Hres. unfold preservesHostValues, keeps, is_pure. intros [Hp|E] Hw; [|rewrite E in *; auto].
  destruct (o_opcode o); auto.
Qed.

(** The machine after a register write. *)
Lemma write_effect reg : o.(o_opcode) = Op_WriteGuestReg -> o.(o_guestRegister) = Some reg ->
  exists x, l = Some x /\ get_gpr reg m1.2 = written o.(o_width) (get_gpr reg m.2) x.
Proof using Heff Ha.
  clear Hres Hl El. intros Eop Ereg. unfold effect, is_pure in Heff. rewrite Eop, Ereg in Heff.
  destruct l as [x|]; [|done]. injection Heff as <- <-. exists x. split; [done|].
  apply get_set_gpr_eq, (machine_state _ (a_machine _ _ _ _ _ Ha)).
Qed.

(** The value written to a register, and what is recorded of it. *)
Lemma lhs_facts w x i : o.(o_lhs) = Some w -> l = Some x -> s.(f_values) !! Z.to_nat (root s w) = Some i ->
  extend env !! root s w = Some x /\ value_facts i x.
Proof using Hk Hf Ha El.
  clear Hres Heff Hl. intros Elhs -> Ei. pose proof (lhs_before n before o Hf w Elhs) as Hw.
  assert (root s w ∈ results before) as Hroot by by apply (k_subset _ _ _ Hk), (k_root _ _ _ Hk).
  destruct (a_values _ _ _ _ _ Ha w Hw) as (x0 & E0 & E0' & _).
  destruct (a_values _ _ _ _ _ Ha _ Hroot) as (y & E1 & E1' & _). rewrite (root_root n before s Hk w Hw) in E1'.
  rewrite Elhs in El. cbn in El. rewrite E0 in El. injection El as ->. rewrite E0' in E1'. injection E1' as <-.
  split; [by rewrite extend_before|]. by apply (a_info _ _ _ _ _ Ha (root s w)).
Qed.

Lemma knows_facts reg c : knows fl fs s o reg c -> current_facts (extend env) c (get_gpr reg m1.2).
Proof using Hk Hf Ha Heff Hres El Hl Hr.
  pose proof (a_machine _ _ _ _ _ Ha) as Hm.
  intros [|Hp Hw|res Eop Ereg Eres _|w i Eop Ereg Elhs Ei Hw|w i Eop Ereg Elhs Ei Hw Hz Hc].
  - by split.
  - destruct (a_current _ _ _ _ _ Ha reg) as [Hz Hc].
    rewrite (effect_keeps o l r t m m1 (Ok v) reg Hl Hr Hm (preserves_keeps reg Hp Hw) Heff).
    split; [done|]. intros w Hw'. rewrite extend_before; [by apply Hc|]. by apply (k_current _ _ _ Hk reg).
  - split; [done|]. intros w [= <-]. destruct (extend_new res Eres) as (x & Ev & Hx).
    unfold effect, is_pure, pure_value in Heff. rewrite Eop, Ereg in Heff. cbn in Heff. injection Heff as <- Ex.
    exists x. split; [done|]. rewrite Ev in Ex. injection Ex as <-. split; cbn [c_full c_zeroExtended];
      intros Hw%bool_decide_eq_true_1; rewrite Hw; cbn [value_width].
    + symmetry. apply wrap_small, get_gpr_range, machine_state, Hm.
    + split; [apply wrap_range; lia|done].
  - destruct (write_effect reg Eop Ereg) as (x & E & ->). destruct (lhs_facts w x i Elhs E Ei) as (Hx & Hext & Hzero & _).
    split; [intros H; rewrite (Hzero H); cbn [c_zero] in H; unfold tracked_width in Hw|].
    { apply orb_true_iff in Hw as [Hw|Hw]; apply bool_decide_eq_true_1 in Hw; by rewrite Hw. }
    intros y [= <-]. exists x. split; [done|]. cbn [c_full c_zeroExtended].
    apply orb_true_iff in Hw as [Hw|Hw]; apply bool_decide_eq_true_1 in Hw; unfold width_is; rewrite Hw; cbn.
    + split; intros H; specialize (Hext H); unfold u32; by rewrite !(wrap_small 32 x Hext).
    + split; [done|]. intros H. specialize (Hext H). unfold u32. by rewrite wrap_small.
  - destruct (write_effect reg Eop Ereg) as (x & E & ->). destruct (lhs_facts w x i Elhs E Ei) as (Hx & Hext & Hzero & Hcond).
    destruct (a_current _ _ _ _ _ Ha reg) as [Hg _]. rewrite Hw, (Hg Hz). cbn [written].
    split; cbn [c_zero c_value c_full c_zeroExtended].
    + intros H. by rewrite (Hzero H).
    + intros y [= <-]. exists x. split; [done|]. by destruct (Hcond Hc) as [-> | ->].
Qed.

Lemma kept_info current i w j : (forall res, o.(o_result) = Some res -> s.(f_values) !! Z.to_nat res = Some i) ->
  0 <= w -> f_values (kept s o current i) !! Z.to_nat w = Some j ->
  o.(o_result) = Some w /\ j = result_info o i \/ o.(o_result) <> Some w /\ s.(f_values) !! Z.to_nat w = Some j.
Proof using Hf.
  clear Hres Heff Hl. intros Hi Hw. unfold kept. destruct (o_result o) as [res|] eqn:E; [|by right].
  cbn [push_operation set_info f_values]. pose proof (result_range n before o Hf res E).
  destruct (Z.eq_dec res w) as [->|Hne].
  - specialize (Hi w eq_refl). rewrite list_lookup_insert_eq by (by apply lookup_lt_Some in Hi). intros [= <-]. by left.
  - rewrite list_lookup_insert_ne by lia. intros Hj. right. split; [congruence|done].
Qed.

(** The new operation, if it is an addition, is a sum in the new environment. *)
Lemma kept_sum : is_sum (extend env') (rename s o).
Proof using Hk Hf Ha Heff Hres El Er.
  clear Hl Hr. intros res Eop Eres. destruct read_operands as (l' & r' & t' & (El' & Er' & _) & (El'' & Er'' & _) & _).
  rewrite El in El'. rewrite Er in Er'. injection El' as <-. injection Er' as <-.
  change (o_opcode o = Op_Add) in Eop. change (o_result o = Some res) in Eres.
  unfold effect, is_pure, pure_value in Heff. rewrite Eop in Heff. destruct l as [x|], r as [y|]; try done.
  exists x, y. split_and!; [by apply read_old|by apply read_old|]. destruct (extend_new res Eres) as (z & Ev & ->).
  injection Heff as _ Ez. rewrite Ev in Ez. by injection Ez as <-.
Qed.

Lemma agrees_kept current i : (forall res, o.(o_result) = Some res -> s.(f_values) !! Z.to_nat res = Some i) ->
  (forall reg, knows fl fs s o reg (nth (Register_encoding reg) current noCurrent)) ->
  agrees (before ++ [o]) (kept s o current i) (extend env) (extend env') m1.
Proof using Hother Hk Hf Ha Heff Hres El Er Hl Hr Ht.
  intros Hi Hc. destruct (effect_ok o l r t m m1 (Ok v) Hl Hr Ht (a_machine _ _ _ _ _ Ha) Heff) as [Hm1 Hv].
  specialize (Hv v eq_refl). split.
  - done.
  - intros w Hw%results_before. rewrite root_kept by done. destruct Hw as [Hw|Hw].
    + rewrite extend_before by done. destruct (a_values _ _ _ _ _ Ha w Hw) as (x & E & E' & Hx).
      exists x. split_and!; [done|by apply extend_old|done].
    + destruct (result_fresh n before s o Hk Hf w Hw) as [_ ->]. destruct (extend_new w Hw) as (x & -> & Hx).
      exists x. split_and!; [apply Hx|apply Hx|done].
  - intros w y H. apply results_kept. apply extend_inv in H as [[H _]|[H _]]; [left; by apply (a_domain _ _ _ _ _ Ha w y)|by right].
  - intros w j x Hx Hj.
    assert (0 <= w) as Hw.
    { apply extend_inv in Hx as [[Hx _]|[Hx _]]; [|by apply (result_range n before o Hf)].
      apply (a_domain _ _ _ _ _ Ha), (k_subset _ _ _ Hk), (k_range _ _ _ Hk) in Hx. lia. }
    apply (kept_info current i w j Hi Hw) in Hj.
    apply extend_inv in Hx as [[Hx Hne]|[E Ev]]; destruct Hj as [[E' ->]|[Hne' Hj]]; try done.
    + by apply (a_info _ _ _ _ _ Ha w).
    + by apply result_facts.
  - intros reg. rewrite kept_current. by apply knows_facts.
  - intros c. rewrite kept_operations. intros [Hin| ->%list_elem_of_singleton]%elem_of_app; [|apply kept_sum].
    intros res Eop Eres. destruct (a_sums _ _ _ _ _ Ha c Hin res Eop Eres) as (x & y & Hx & Hy & Hz).
    exists x, y. split_and!; [by apply read_old|by apply read_old|by apply extend_old].
Qed.
End Effect.

Lemma step_kept current i : (forall res, o.(o_result) = Some res -> s.(f_values) !! Z.to_nat res = Some i) ->
  (forall reg, knows fl fs s o reg (nth (Register_encoding reg) current noCurrent)) ->
  (exists e, step other o env m = Stop e /\ step other (rename s o) env' m = Stop e) \/
  (exists env1 env1' m1, step other o env m = Next env1 m1 /\ step other (rename s o) env' m = Next env1' m1 /\
     agrees (before ++ [o]) (kept s o current i) env1 env1' m1).
Proof using Hother Hk Hf Ha.
  intros Hi Hc. destruct read_operands as (l & r & t & (El & Er & Et) & (El' & Er' & Et') & Hl & Hr & Ht).
  unfold step. rewrite El, Er, Et, El', Er', Et', effect_rename. change (o_result (rename s o)) with (o_result o).
  destruct (effect other o l r t m) as [m1 [v|e|]] eqn:Heff; [|left; by eexists|left; by eexists].
  destruct (bool_decide (present (o_result o) = present v)) eqn:Hres.
  - apply bool_decide_eq_true_1 in Hres. right. exists (extend v env), (extend v env'), m1.
    split_and!; [..|by apply (agrees_kept l r t)]; unfold extend; by destruct (o_result o), v.
  - left. exists Stuck. by destruct (o_result o), v.
Qed.
End Step.

(** ** Blocks *)

Lemma simulate fl fs n ops : forall before s s' env env' m, bookkeeping n before s -> agrees before s env env' m ->
  (forall i o, ops !! i = Some o -> follows n (before ++ take i ops) o) -> forward_loop fl fs s ops = Ok s' ->
  exists out, s'.(f_operations) = s.(f_operations) ++ out /\ run other ops env m = run other out env' m.
Proof using Hother.
  induction ops as [|o ops IH]; intros before s s' env env' m Hk Ha H; cbn [forward_loop].
  { intros [= <-]. exists []. by rewrite app_nil_r. }
  apply closed_cons in H as [Hf H]. destruct (forward_operation_ok fl fs n before s o Hk Hf) as (s1 & -> & Hs1).
  cbn [outcome_bind]. intros Hloop. pose proof (advance_bookkeeping fl fs n before s o Hk Hf s1 Hs1) as Hk1. cbn [run].
  destruct Hs1 as [result c found i Eop Er Hc Ec Heq|result reg v cond Eop Ereg Er Hv Hw|current i Hl Hi Hc].
  - destruct (step_equal n before s o env env' m Hf Ha result c found Eop Er Hc Ec Heq) as (x & -> & Hx & Hr).
    apply (IH _ _ s' (<[result:=x]> env) env' m Hk1); [|done|done].
    by apply (agrees_replaced n before s o env env' m Hk Hf Ha).
  - destruct (step_read n before s o env env' m Hk Hf Ha result reg v Eop Ereg Er Hv Hw) as (x & -> & Hx & Hr).
    apply (IH _ _ s' (<[result:=x]> env) env' m Hk1); [|done|done].
    by apply (agrees_replaced n before s o env env' m Hk Hf Ha).
  - destruct (step_kept fl fs n before s o env env' m Hk Hf Ha current i Hi Hc) as [(e & -> & E)|(env1 & env1' & m1 & -> & E & Ha1)].
    + assert (exists out, s'.(f_operations) = f_operations (kept s o current i) ++ out) as (out & ->)
        by by eapply forward_loop_extends.
      rewrite kept_operations, <- app_assoc. exists ([rename s o] ++ out). split; [done|]. cbn. by rewrite E.
    + destruct (IH _ _ s' env1 env1' m1 Hk1 Ha1 H Hloop) as (out & -> & ->).
      rewrite kept_operations, <- app_assoc. exists ([rename s o] ++ out). split; [done|]. cbn. by rewrite E.
Qed.

End Simulation.

Lemma optimize_closed debug other b m : well_behaved other -> 0 <= b.(b_valueCount) ->
  closed b.(b_valueCount) b.(b_operations) -> existsb is_exit b.(b_operations) = true -> machine_ok m ->
  exists b', optimizeBlock debug b = Ok b' /\ verify b' = [] /\ b'.(b_start) = b.(b_start) /\
    b'.(b_valueCount) = b.(b_valueCount) /\
    run other b'.(b_operations) ∅ m = run other b.(b_operations) ∅ m.
Proof.
  intros Hother Hn Hclosed Hexit Hm. set (n := b.(b_valueCount)) in *.
  assert (forall fl fs, exists s', forward_loop fl fs (initialForward n) b.(b_operations) = Ok s' /\
    verify (mkBlock b.(b_start) s'.(f_operations) n) = [] /\
    run other s'.(f_operations) ∅ m = run other b.(b_operations) ∅ m) as H.
  { intros fl fs. pose proof (initial_bookkeeping n) as Hk.
    destruct (forward_loop_ok fl fs n b.(b_operations) [] (initialForward n) Hk Hclosed) as (s' & Hs' & Hk').
    exists s'. split; [done|]. split.
    - apply verify_nil; cbn [b_valueCount b_operations]; [done| |].
      + apply Forall_forall. intros o Ho r Er. apply (k_range _ _ _ Hk'), (k_subset _ _ _ Hk').
        apply list_elem_of_omap. by exists o.
      + split; [apply (k_output _ _ _ Hk')|]. by rewrite (k_exit _ _ _ Hk').
    - destruct (simulate other Hother fl fs n _ [] _ s' ∅ ∅ m Hk (agrees_initial n m Hm) Hclosed Hs') as (out & -> & ->). done. }
  unfold optimizeBlock, forwardFullWidthGuestReads. fold n.
  match goal with |- context [forward_loop ?fl ?fs] => destruct (H fl fs) as (s' & -> & Hv & Hr) end.
  cbn [outcome_bind]. rewrite Hv. by eexists.
Qed.

(** C9: optimising a block whose operations read only earlier results and that
    ends in an exit returns a block the verifier accepts (so the assertion of the
    debug build never fires), with the same start and value count, that leaves the
    machine in the same state, and faults where the source block does, whatever
    the operations the pass does not reason about do. *)
Theorem optimizeBlock_correct debug other b m : well_behaved other -> 0 <= b.(b_valueCount) ->
  closed b.(b_valueCount) b.(b_operations) -> existsb is_exit b.(b_operations) = true -> machine_ok m ->
  exists b', optimizeBlock debug b = Ok b' /\ verify b' = [] /\ b'.(b_start) = b.(b_start) /\
    b'.(b_valueCount) = b.(b_valueCount) /\
    run other b'.(b_operations) ∅ m = run other b.(b_operations) ∅ m.
Proof. apply optimize_closed. Qed.

(** ** A loop *)

(** [mov rax, 5000; l: movzx ?, byte [rax]; lea rbx, [rax+rax]; jmp l], lowered
    with a read and an addition that can go. *)
Definition loopBuilder : Block :=
  let b := (constant 5000 I64 4096 (newBuilder 4096)).1 in
  let b := (writeGuestRegister Rax 0 I64 4096 b).1 in
  let b := (readGuestRegister Rax I64 4103 b).1 in
  let b := (loadGuest 1 I8 4103 b).1 in
  let b := (add 1 1 I64 4106 b).1 in
  let b := (add 0 0 I64 4106 b).1 in
  (writeGuestRegister Rbx 4 I64 4106 b).1.
Definition loopBlock : Block := (exitDirect_address 4096 4110 loopBuilder).1.

Lemma loopBuilder_steps : rtc builder_step (newBuilder 4096) loopBuilder.
Proof.
  unfold loopBuilder.
  eapply rtc_l; [apply (step_constant _ 5000 I64 4096); by unfold has_room|].
  eapply rtc_l; [apply (step_writeGuestRegister _ Rax 0 I64 4096); by split|].
  eapply rtc_l; [apply (step_readGuestRegister _ Rax I64 4103); by unfold has_room|].
  eapply rtc_l; [apply (step_loadGuest _ 1 I8 4103); [by unfold has_room|by split]|].
  eapply rtc_l; [apply (step_add _ 1 1 I64 4106); [by unfold has_room|by split|by split]|].
  eapply rtc_l; [apply (step_add _ 0 0 I64 4106); [by unfold has_room|by split|by split]|].
  eapply rtc_l; [apply (step_writeGuestRegister _ Rbx 4 I64 4106); by split|]. apply rtc_refl.
Qed.

Lemma loopBlock_closed : 0 <= loopBlock.(b_valueCount) /\ closed loopBlock.(b_valueCount) loopBlock.(b_operations) /\
  existsb is_exit loopBlock.(b_operations) = true.
Proof. apply (built_closed 4096 loopBuilder loopBlock loopBuilder_steps), finish_exitDirect_address. Qed.

(** The read and the second addition are gone. *)
Example loopBlock_optimized :
  match optimizeBlock true loopBlock with Ok b => map o_opcode b.(b_operations) | _ => [] end =
  [Op_Constant; Op_WriteGuestReg; Op_LoadGuest; Op_Add; Op_WriteGuestReg; Op_ExitBlock].
Proof. reflexivity. Qed.

Definition idle (o : Operation) (l r t : option Z) (m : Machine) : Effect := (m, Ok None).

Lemma idle_well_behaved : well_behaved idle.
Proof. intros o l r t m m' res _ _ _ Hm [= <- <-]. split; [done|]. by intros v [= <-]. Qed.

Definition directMachine : Machine := (directContext, initialState).

Lemma directMachine_ok : machine_ok directMachine.
Proof. split; [apply initialState_ok|by split|apply directSpace_ok]. Qed.

Lemma optimizeBlock_correct_witness : exists b', optimizeBlock true loopBlock = Ok b' /\ verify b' = [] /\
  b'.(b_start) = 4096 /\ b'.(b_valueCount) = 5 /\
  run idle b'.(b_operations) ∅ directMachine = run idle loopBlock.(b_operations) ∅ directMachine.
Proof.
  destruct loopBlock_closed as (Hn & Hc & He).
  exact (optimizeBlock_correct true idle loopBlock directMachine idle_well_behaved Hn Hc He directMachine_ok).
Defined.

(** Whatever builder calls made a block, on values the builder returned, and
    whichever exit closes it, the optimiser returns a block the verifier accepts
    that means the same. *)
Theorem built_block_optimized start b b' debug other m :
  rtc builder_step (newBuilder start) b -> builder_exit b b' -> well_behaved other -> machine_ok m ->
  exists b'', optimizeBlock debug b' = Ok b'' /\ verify b'' = [] /\ b''.(b_start) = start /\
    run other b''.(b_operations) ∅ m = run other b'.(b_operations) ∅ m.
Proof.
  intros Hsteps Hexit Hother Hm. destruct (built_closed start b b' Hsteps Hexit) as (Hn & Hc & He).
  destruct (optimize_closed debug other b' m Hother Hn Hc He Hm) as (b'' & Hb & Hv & Hs & _ & Hr).
  exists b''. split_and!; [done|done| |done]. rewrite Hs.
  pose proof (builder_steps_ok _ _ (newBuilder_ok start) Hsteps) as Hok.
  destruct (exit_ok b b' Hok Hexit) as (_ & -> & _). by apply (steps_start (newBuilder start)).
Qed.

Lemma built_block_optimized_witness : exists b'', optimizeBlock true loopBlock = Ok b'' /\ verify b'' = [] /\
  b''.(b_start) = 4096 /\
  run idle b''.(b_operations) ∅ directMachine = run idle loopBlock.(b_operations) ∅ directMachine.
Proof.
  exact (built_block_optimized 4096 loopBuilder loopBlock true idle directMachine loopBuilder_steps
    (finish_exitDirect_address loopBuilder 4096 4110) idle_well_behaved directMachine_ok).
Defined.
