(* ===== verification/X86Instruction.v ===== *)
(** Decoded x86-64 instructions ([src/x86/Instruction.h]). *)
From S2P Require Import Prelude X86State IR.

(** ** Opcodes *)

Inductive X86Opcode : Type :=
  | X_MovRegImm | X_MovRegReg | X_MovMemReg | X_MovRegMem | X_MovzxRegReg | X_MovsxRegReg | X_MovsxRegMem
  | X_MovzxRegMem | X_MovsxdRegReg | X_MovsxdRegMem | X_Cdqe | X_Cwde | X_MovMemImm | X_LeaRegRipRelative
  | X_LeaRegMem | X_AddRegImm | X_AdcRegImm | X_AdcRegReg | X_AdcRegMem | X_AddRegReg | X_AddRegMem
  | X_AddMemReg | X_AddMemImm | X_IncReg | X_IncMem | X_DecReg | X_DecMem | X_SubRegImm | X_SbbRegImm
  | X_SbbRegReg | X_SubRegReg | X_SubRegMem | X_SubMemReg | X_SubMemImm | X_ShlRegImm | X_ShlMemImm
  | X_ShlRegCl | X_ShrRegImm | X_ShrMemImm | X_ShrRegCl | X_SarRegImm | X_SarRegCl | X_RolRegImm | X_RolRegCl
  | X_RorRegImm | X_RorRegCl | X_BswapReg | X_NotReg | X_NegReg | X_MulReg | X_MulMem | X_DivReg | X_DivMem
  | X_IdivReg | X_ImulRegReg | X_ImulRegMem | X_ImulMem | X_ImulReg | X_ImulRegRegImm | X_ImulRegMemImm
  | X_ShldRegRegImm | X_ShrdRegRegImm | X_OrRegReg | X_OrRegMem | X_OrMemReg | X_OrMemImm | X_OrRegImm
  | X_XorRegReg | X_XorRegMem | X_XorRegImm | X_AndRegReg | X_AndRegMem | X_AndMemReg | X_AndRegImm
  | X_AndMemImm | X_BitTestRegImm | X_BitSetRegImm | X_BitResetRegImm | X_BitTestRegReg | X_BitSetRegReg
  | X_BitTestMemImm | X_BitScanForwardRegReg | X_BitScanReverseRegReg | X_TestRegReg | X_TestReg8Reg8
  | X_TestMemReg | X_TestRegImm | X_TestMemImm | X_CmpRegImm | X_CmpRegReg | X_CmpRegMem | X_CmpMemReg
  | X_CmpMemImm | X_CmpxchgMemReg | X_Cmpxchg16bMem | X_XchgMemReg | X_LockAddMemReg | X_LockXaddMemReg
  | X_LockOrMemReg | X_LockBtsMemImm | X_LockIncMem | X_LockDecMem | X_LockOrMemImm | X_LockAndMemImm
  | X_SetccReg | X_SetccMem | X_CmovccReg | X_CmovccRegMem | X_XorpsRegReg | X_XorpsRegMem | X_XorpdRegReg
  | X_VxorpsRegRegReg | X_VxorpsYmmRegRegReg | X_VbroadcastssYmmReg | X_PxorRegReg | X_PxorRegMem
  | X_PorRegReg | X_PtestRegReg | X_PcmpeqbRegReg | X_PcmpeqbRegMem | X_PcmpeqdRegReg | X_PslldRegImm
  | X_PsrldRegImm | X_PsrlqRegImm | X_PsrldqRegImm | X_PslldqRegImm | X_PadddRegReg | X_PadddRegMem
  | X_PaddwRegReg | X_CmppdRegRegImm | X_PaddqRegReg | X_PhadddRegReg | X_PmovzxbdXmmReg | X_PmovsxbdRegMem
  | X_PmovsxbqRegMem | X_PmovsxdqRegMem | X_PmovsxdqRegReg | X_PandRegReg | X_PandRegMem | X_PandnRegReg
  | X_PmovmskbRegXmm | X_PshufbRegReg | X_PshufbRegMem | X_PshufdRegRegImm | X_ShufpdRegRegImm
  | X_ShufpsRegRegImm | X_PunpcklwdRegReg | X_PunpcklqdqRegReg | X_UnpckhpsRegReg | X_UnpckhpsRegMem
  | X_HaddpdRegReg | X_HaddpdRegMem | X_UnpcklpsRegReg | X_UnpcklpsRegMem | X_PalignrRegRegImm
  | X_PblendwRegRegImm | X_PinsrbXmmReg | X_PinsrbXmmMem | X_PinsrdXmmMem | X_PinsrdXmmReg
  | X_ExtractpsMemXmmImm | X_PextrwRegXmmImm | X_PextrdRegXmmImm | X_PinsrwXmmMem | X_PinsrwXmmReg
  | X_MovmskpsRegXmm | X_MovmskpdRegXmm | X_UcomisdRegReg | X_UcomissRegReg | X_UcomissRegMem | X_MovapsMemReg
  | X_MovapdMemReg | X_MovapsRegMem | X_MovapdRegMem | X_MovapdRegReg | X_MovapsRegReg | X_MovupsMemReg
  | X_MovupsRegMem | X_VmovupsMemReg | X_VmovupsRegMem | X_VmovupsYmmRegMem | X_VmovupsYmmMemReg
  | X_VmovapsYmmRegMem | X_VmovapsYmmMemReg | X_Vzeroupper | X_MovdqaRegReg | X_MovdqaMemReg | X_MovdqaRegMem
  | X_MovdquRegMem | X_MovdquMemReg | X_MovlhpsRegReg | X_MovlhpsRegMem | X_MovddupRegReg | X_MovddupRegMem
  | X_PcmpeqqRegReg | X_PcmpeqqRegMem | X_BlendvpdRegReg | X_MovdXmmReg | X_MovdXmmMem | X_MovqXmmReg
  | X_MovdMemXmm | X_MovssMemXmm | X_MovssRegMem | X_MovssXmmXmm | X_MovsdRegMem | X_MovsdMemXmm
  | X_Cvtsi2sdXmmReg | X_Cvtsi2sdXmmMem | X_Cvttsd2siRegXmm | X_Cvttsd2siRegMem | X_Cvtss2sdXmmReg
  | X_Cvtss2sdXmmMem | X_Cvtdq2pdXmmReg | X_Cvtdq2pdXmmMem | X_AddsdXmmReg | X_AddsdXmmMem | X_SubsdXmmReg
  | X_SubsdXmmMem | X_MulsdXmmReg | X_MulsdXmmMem | X_DivsdXmmReg | X_DivsdXmmMem | X_SqrtsdXmmReg
  | X_SqrtsdXmmMem | X_MinsdXmmReg | X_MinsdXmmMem | X_MaxsdXmmReg | X_MaxsdXmmMem | X_DivpdRegReg
  | X_DivpdRegMem | X_SubpdRegReg | X_SubpdRegMem | X_MulpdRegReg | X_MulpdRegMem | X_AddpdRegReg
  | X_AddpdRegMem | X_SqrtpdRegReg | X_SqrtpdRegMem | X_MovlpsRegMem | X_MovlpsMemXmm | X_MovdRegXmm
  | X_MovqRegXmm | X_MovqXmmMem | X_MovqMemXmm | X_RepMovsb | X_RepStosb | X_RepStosd | X_RepStosq | X_Push
  | X_Pop | X_Leave | X_Nop | X_Lfence | X_Cld | X_Std | X_Mfence | X_Rdtsc | X_Cpuid | X_SidtMem
  | X_JmpRelative | X_JmpReg | X_JmpMem | X_JccRelative | X_CallRelative | X_CallReg | X_CallMem | X_Syscall
  | X_Ret.

(** Opcodes compare through their position in the declaration. *)
Definition X86Opcode_index (o : X86Opcode) : nat :=
  match o with
  | X_MovRegImm => 0 | X_MovRegReg => 1 | X_MovMemReg => 2 | X_MovRegMem => 3 | X_MovzxRegReg => 4 |
  X_MovsxRegReg => 5 | X_MovsxRegMem => 6 | X_MovzxRegMem => 7 | X_MovsxdRegReg => 8 | X_MovsxdRegMem => 9 |
  X_Cdqe => 10 | X_Cwde => 11 | X_MovMemImm => 12 | X_LeaRegRipRelative => 13 | X_LeaRegMem => 14 | X_AddRegImm
  => 15 | X_AdcRegImm => 16 | X_AdcRegReg => 17 | X_AdcRegMem => 18 | X_AddRegReg => 19 | X_AddRegMem => 20 |
  X_AddMemReg => 21 | X_AddMemImm => 22 | X_IncReg => 23 | X_IncMem => 24 | X_DecReg => 25 | X_DecMem => 26 |
  X_SubRegImm => 27 | X_SbbRegImm => 28 | X_SbbRegReg => 29 | X_SubRegReg => 30 | X_SubRegMem => 31 |
  X_SubMemReg => 32 | X_SubMemImm => 33 | X_ShlRegImm => 34 | X_ShlMemImm => 35 | X_ShlRegCl => 36 | X_ShrRegImm
  => 37 | X_ShrMemImm => 38 | X_ShrRegCl => 39 | X_SarRegImm => 40 | X_SarRegCl => 41 | X_RolRegImm => 42 |
  X_RolRegCl => 43 | X_RorRegImm => 44 | X_RorRegCl => 45 | X_BswapReg => 46 | X_NotReg => 47 | X_NegReg => 48 |
  X_MulReg => 49 | X_MulMem => 50 | X_DivReg => 51 | X_DivMem => 52 | X_IdivReg => 53 | X_ImulRegReg => 54 |
  X_ImulRegMem => 55 | X_ImulMem => 56 | X_ImulReg => 57 | X_ImulRegRegImm => 58 | X_ImulRegMemImm => 59 |
  X_ShldRegRegImm => 60 | X_ShrdRegRegImm => 61 | X_OrRegReg => 62 | X_OrRegMem => 63 | X_OrMemReg => 64 |
  X_OrMemImm => 65 | X_OrRegImm => 66 | X_XorRegReg => 67 | X_XorRegMem => 68 | X_XorRegImm => 69 | X_AndRegReg
  => 70 | X_AndRegMem => 71 | X_AndMemReg => 72 | X_AndRegImm => 73 | X_AndMemImm => 74 | X_BitTestRegImm => 75
  | X_BitSetRegImm => 76 | X_BitResetRegImm => 77 | X_BitTestRegReg => 78 | X_BitSetRegReg => 79 |
  X_BitTestMemImm => 80 | X_BitScanForwardRegReg => 81 | X_BitScanReverseRegReg => 82 | X_TestRegReg => 83 |
  X_TestReg8Reg8 => 84 | X_TestMemReg => 85 | X_TestRegImm => 86 | X_TestMemImm => 87 | X_CmpRegImm => 88 |
  X_CmpRegReg => 89 | X_CmpRegMem => 90 | X_CmpMemReg => 91 | X_CmpMemImm => 92 | X_CmpxchgMemReg => 93 |
  X_Cmpxchg16bMem => 94 | X_XchgMemReg => 95 | X_LockAddMemReg => 96 | X_LockXaddMemReg => 97 | X_LockOrMemReg
  => 98 | X_LockBtsMemImm => 99 | X_LockIncMem => 100 | X_LockDecMem => 101 | X_LockOrMemImm => 102 |
  X_LockAndMemImm => 103 | X_SetccReg => 104 | X_SetccMem => 105 | X_CmovccReg => 106 | X_CmovccRegMem => 107 |
  X_XorpsRegReg => 108 | X_XorpsRegMem => 109 | X_XorpdRegReg => 110 | X_VxorpsRegRegReg => 111 |
  X_VxorpsYmmRegRegReg => 112 | X_VbroadcastssYmmReg => 113 | X_PxorRegReg => 114 | X_PxorRegMem => 115 |
  X_PorRegReg => 116 | X_PtestRegReg => 117 | X_PcmpeqbRegReg => 118 | X_PcmpeqbRegMem => 119 | X_PcmpeqdRegReg
  => 120 | X_PslldRegImm => 121 | X_PsrldRegImm => 122 | X_PsrlqRegImm => 123 | X_PsrldqRegImm => 124 |
  X_PslldqRegImm => 125 | X_PadddRegReg => 126 | X_PadddRegMem => 127 | X_PaddwRegReg => 128 | X_CmppdRegRegImm
  => 129 | X_PaddqRegReg => 130 | X_PhadddRegReg => 131 | X_PmovzxbdXmmReg => 132 | X_PmovsxbdRegMem => 133 |
  X_PmovsxbqRegMem => 134 | X_PmovsxdqRegMem => 135 | X_PmovsxdqRegReg => 136 | X_PandRegReg => 137 |
  X_PandRegMem => 138 | X_PandnRegReg => 139 | X_PmovmskbRegXmm => 140 | X_PshufbRegReg => 141 | X_PshufbRegMem
  => 142 | X_PshufdRegRegImm => 143 | X_ShufpdRegRegImm => 144 | X_ShufpsRegRegImm => 145 | X_PunpcklwdRegReg =>
  146 | X_PunpcklqdqRegReg => 147 | X_UnpckhpsRegReg => 148 | X_UnpckhpsRegMem => 149 | X_HaddpdRegReg => 150 |
  X_HaddpdRegMem => 151 | X_UnpcklpsRegReg => 152 | X_UnpcklpsRegMem => 153 | X_PalignrRegRegImm => 154 |
  X_PblendwRegRegImm => 155 | X_PinsrbXmmReg => 156 | X_PinsrbXmmMem => 157 | X_PinsrdXmmMem => 158 |
  X_PinsrdXmmReg => 159 | X_ExtractpsMemXmmImm => 160 | X_PextrwRegXmmImm => 161 | X_PextrdRegXmmImm => 162 |
  X_PinsrwXmmMem => 163 | X_PinsrwXmmReg => 164 | X_MovmskpsRegXmm => 165 | X_MovmskpdRegXmm => 166 |
  X_UcomisdRegReg => 167 | X_UcomissRegReg => 168 | X_UcomissRegMem => 169 | X_MovapsMemReg => 170 |
  X_MovapdMemReg => 171 | X_MovapsRegMem => 172 | X_MovapdRegMem => 173 | X_MovapdRegReg => 174 | X_MovapsRegReg
  => 175 | X_MovupsMemReg => 176 | X_MovupsRegMem => 177 | X_VmovupsMemReg => 178 | X_VmovupsRegMem => 179 |
  X_VmovupsYmmRegMem => 180 | X_VmovupsYmmMemReg => 181 | X_VmovapsYmmRegMem => 182 | X_VmovapsYmmMemReg => 183
  | X_Vzeroupper => 184 | X_MovdqaRegReg => 185 | X_MovdqaMemReg => 186 | X_MovdqaRegMem => 187 | X_MovdquRegMem
  => 188 | X_MovdquMemReg => 189 | X_MovlhpsRegReg => 190 | X_MovlhpsRegMem => 191 | X_MovddupRegReg => 192 |
  X_MovddupRegMem => 193 | X_PcmpeqqRegReg => 194 | X_PcmpeqqRegMem => 195 | X_BlendvpdRegReg => 196 |
  X_MovdXmmReg => 197 | X_MovdXmmMem => 198 | X_MovqXmmReg => 199 | X_MovdMemXmm => 200 | X_MovssMemXmm => 201 |
  X_MovssRegMem => 202 | X_MovssXmmXmm => 203 | X_MovsdRegMem => 204 | X_MovsdMemXmm => 205 | X_Cvtsi2sdXmmReg
  => 206 | X_Cvtsi2sdXmmMem => 207 | X_Cvttsd2siRegXmm => 208 | X_Cvttsd2siRegMem => 209 | X_Cvtss2sdXmmReg =>
  210 | X_Cvtss2sdXmmMem => 211 | X_Cvtdq2pdXmmReg => 212 | X_Cvtdq2pdXmmMem => 213 | X_AddsdXmmReg => 214 |
  X_AddsdXmmMem => 215 | X_SubsdXmmReg => 216 | X_SubsdXmmMem => 217 | X_MulsdXmmReg => 218 | X_MulsdXmmMem =>
  219 | X_DivsdXmmReg => 220 | X_DivsdXmmMem => 221 | X_SqrtsdXmmReg => 222 | X_SqrtsdXmmMem => 223 |
  X_MinsdXmmReg => 224 | X_MinsdXmmMem => 225 | X_MaxsdXmmReg => 226 | X_MaxsdXmmMem => 227 | X_DivpdRegReg =>
  228 | X_DivpdRegMem => 229 | X_SubpdRegReg => 230 | X_SubpdRegMem => 231 | X_MulpdRegReg => 232 |
  X_MulpdRegMem => 233 | X_AddpdRegReg => 234 | X_AddpdRegMem => 235 | X_SqrtpdRegReg => 236 | X_SqrtpdRegMem =>
  237 | X_MovlpsRegMem => 238 | X_MovlpsMemXmm => 239 | X_MovdRegXmm => 240 | X_MovqRegXmm => 241 | X_MovqXmmMem
  => 242 | X_MovqMemXmm => 243 | X_RepMovsb => 244 | X_RepStosb => 245 | X_RepStosd => 246 | X_RepStosq => 247 |
  X_Push => 248 | X_Pop => 249 | X_Leave => 250 | X_Nop => 251 | X_Lfence => 252 | X_Cld => 253 | X_Std => 254 |
  X_Mfence => 255 | X_Rdtsc => 256 | X_Cpuid => 257 | X_SidtMem => 258 | X_JmpRelative => 259 | X_JmpReg => 260
  | X_JmpMem => 261 | X_JccRelative => 262 | X_CallRelative => 263 | X_CallReg => 264 | X_CallMem => 265 |
  X_Syscall => 266 | X_Ret => 267
  end.
Definition all_x86_opcodes : list X86Opcode :=
  [X_MovRegImm; X_MovRegReg; X_MovMemReg; X_MovRegMem; X_MovzxRegReg; X_MovsxRegReg; X_MovsxRegMem;
   X_MovzxRegMem; X_MovsxdRegReg; X_MovsxdRegMem; X_Cdqe; X_Cwde; X_MovMemImm; X_LeaRegRipRelative; X_LeaRegMem;
   X_AddRegImm; X_AdcRegImm; X_AdcRegReg; X_AdcRegMem; X_AddRegReg; X_AddRegMem; X_AddMemReg; X_AddMemImm;
   X_IncReg; X_IncMem; X_DecReg; X_DecMem; X_SubRegImm; X_SbbRegImm; X_SbbRegReg; X_SubRegReg; X_SubRegMem;
   X_SubMemReg; X_SubMemImm; X_ShlRegImm; X_ShlMemImm; X_ShlRegCl; X_ShrRegImm; X_ShrMemImm; X_ShrRegCl;
   X_SarRegImm; X_SarRegCl; X_RolRegImm; X_RolRegCl; X_RorRegImm; X_RorRegCl; X_BswapReg; X_NotReg; X_NegReg;
   X_MulReg; X_MulMem; X_DivReg; X_DivMem; X_IdivReg; X_ImulRegReg; X_ImulRegMem; X_ImulMem; X_ImulReg;
   X_ImulRegRegImm; X_ImulRegMemImm; X_ShldRegRegImm; X_ShrdRegRegImm; X_OrRegReg; X_OrRegMem; X_OrMemReg;
   X_OrMemImm; X_OrRegImm; X_XorRegReg; X_XorRegMem; X_XorRegImm; X_AndRegReg; X_AndRegMem; X_AndMemReg;
   X_AndRegImm; X_AndMemImm; X_BitTestRegImm; X_BitSetRegImm; X_BitResetRegImm; X_BitTestRegReg; X_BitSetRegReg;
   X_BitTestMemImm; X_BitScanForwardRegReg; X_BitScanReverseRegReg; X_TestRegReg; X_TestReg8Reg8; X_TestMemReg;
   X_TestRegImm; X_TestMemImm; X_CmpRegImm; X_CmpRegReg; X_CmpRegMem; X_CmpMemReg; X_CmpMemImm; X_CmpxchgMemReg;
   X_Cmpxchg16bMem; X_XchgMemReg; X_LockAddMemReg; X_LockXaddMemReg; X_LockOrMemReg; X_LockBtsMemImm;
   X_LockIncMem; X_LockDecMem; X_LockOrMemImm; X_LockAndMemImm; X_SetccReg; X_SetccMem; X_CmovccReg;
   X_CmovccRegMem; X_XorpsRegReg; X_XorpsRegMem; X_XorpdRegReg; X_VxorpsRegRegReg; X_VxorpsYmmRegRegReg;
   X_VbroadcastssYmmReg; X_PxorRegReg; X_PxorRegMem; X_PorRegReg; X_PtestRegReg; X_PcmpeqbRegReg;
   X_PcmpeqbRegMem; X_PcmpeqdRegReg; X_PslldRegImm; X_PsrldRegImm; X_PsrlqRegImm; X_PsrldqRegImm;
   X_PslldqRegImm; X_PadddRegReg; X_PadddRegMem; X_PaddwRegReg; X_CmppdRegRegImm; X_PaddqRegReg; X_PhadddRegReg;
   X_PmovzxbdXmmReg; X_PmovsxbdRegMem; X_PmovsxbqRegMem; X_PmovsxdqRegMem; X_PmovsxdqRegReg; X_PandRegReg;
   X_PandRegMem; X_PandnRegReg; X_PmovmskbRegXmm; X_PshufbRegReg; X_PshufbRegMem; X_PshufdRegRegImm;
   X_ShufpdRegRegImm; X_ShufpsRegRegImm; X_PunpcklwdRegReg; X_PunpcklqdqRegReg; X_UnpckhpsRegReg;
   X_UnpckhpsRegMem; X_HaddpdRegReg; X_HaddpdRegMem; X_UnpcklpsRegReg; X_UnpcklpsRegMem; X_PalignrRegRegImm;
   X_PblendwRegRegImm; X_PinsrbXmmReg; X_PinsrbXmmMem; X_PinsrdXmmMem; X_PinsrdXmmReg; X_ExtractpsMemXmmImm;
   X_PextrwRegXmmImm; X_PextrdRegXmmImm; X_PinsrwXmmMem; X_PinsrwXmmReg; X_MovmskpsRegXmm; X_MovmskpdRegXmm;
   X_UcomisdRegReg; X_UcomissRegReg; X_UcomissRegMem; X_MovapsMemReg; X_MovapdMemReg; X_MovapsRegMem;
   X_MovapdRegMem; X_MovapdRegReg; X_MovapsRegReg; X_MovupsMemReg; X_MovupsRegMem; X_VmovupsMemReg;
   X_VmovupsRegMem; X_VmovupsYmmRegMem; X_VmovupsYmmMemReg; X_VmovapsYmmRegMem; X_VmovapsYmmMemReg;
   X_Vzeroupper; X_MovdqaRegReg; X_MovdqaMemReg; X_MovdqaRegMem; X_MovdquRegMem; X_MovdquMemReg;
   X_MovlhpsRegReg; X_MovlhpsRegMem; X_MovddupRegReg; X_MovddupRegMem; X_PcmpeqqRegReg; X_PcmpeqqRegMem;
   X_BlendvpdRegReg; X_MovdXmmReg; X_MovdXmmMem; X_MovqXmmReg; X_MovdMemXmm; X_MovssMemXmm; X_MovssRegMem;
   X_MovssXmmXmm; X_MovsdRegMem; X_MovsdMemXmm; X_Cvtsi2sdXmmReg; X_Cvtsi2sdXmmMem; X_Cvttsd2siRegXmm;
   X_Cvttsd2siRegMem; X_Cvtss2sdXmmReg; X_Cvtss2sdXmmMem; X_Cvtdq2pdXmmReg; X_Cvtdq2pdXmmMem; X_AddsdXmmReg;
   X_AddsdXmmMem; X_SubsdXmmReg; X_SubsdXmmMem; X_MulsdXmmReg; X_MulsdXmmMem; X_DivsdXmmReg; X_DivsdXmmMem;
   X_SqrtsdXmmReg; X_SqrtsdXmmMem; X_MinsdXmmReg; X_MinsdXmmMem; X_MaxsdXmmReg; X_MaxsdXmmMem; X_DivpdRegReg;
   X_DivpdRegMem; X_SubpdRegReg; X_SubpdRegMem; X_MulpdRegReg; X_MulpdRegMem; X_AddpdRegReg; X_AddpdRegMem;
   X_SqrtpdRegReg; X_SqrtpdRegMem; X_MovlpsRegMem; X_MovlpsMemXmm; X_MovdRegXmm; X_MovqRegXmm; X_MovqXmmMem;
   X_MovqMemXmm; X_RepMovsb; X_RepStosb; X_RepStosd; X_RepStosq; X_Push; X_Pop; X_Leave; X_Nop; X_Lfence; X_Cld;
   X_Std; X_Mfence; X_Rdtsc; X_Cpuid; X_SidtMem; X_JmpRelative; X_JmpReg; X_JmpMem; X_JccRelative;
   X_CallRelative; X_CallReg; X_CallMem; X_Syscall; X_Ret].

Lemma nth_x86_opcode o : nth (X86Opcode_index o) all_x86_opcodes X_Nop = o.
Proof. by destruct o. Qed.

#[export] Instance X86Opcode_eq_dec : EqDecision X86Opcode.
Proof.
  intros x y. destruct (decide (X86Opcode_index x = X86Opcode_index y)) as [E|E]; [left|right; by intros ->].
  rewrite <- (nth_x86_opcode x), <- (nth_x86_opcode y). by rewrite E.
Defined.

(** ** Operands *)

Inductive Segment : Type := Segment_None | Segment_Gs.

(** Widths are in bits; the source's one-word fields are [Z]. *)
Record MemoryOperand := mkMemory {
  mem_base : Register;
  mem_displacement : Z;
  mem_width : Z;
  mem_index : option Register;
  mem_scale : Z;
  mem_hasBase : bool;
  mem_ripRelative : bool;
  mem_segment : Segment
}.

Inductive Operand : Type :=
| RegisterOperand (reg : Register) (width byteOffset : Z)
| ImmediateOperand (value width : Z)
| MemoryOp (memory : MemoryOperand)
| XmmRegisterOperand (reg : XmmRegister).

(** ** Instructions *)

Record DecodedInstruction := mkInstruction {
  d_address : Z;
  d_opcode : X86Opcode;
  d_bytes : list Z;
  d_length : Z;
  d_operands : list Operand;
  d_branchTarget : option Z;
  d_fallthrough : option Z;
  d_condition : option Condition
}.

(** [DecodedInstruction{.address = address}]: everything else is zero. *)
Definition newInstruction (address : Z) : DecodedInstruction :=
  mkInstruction address X_MovRegImm (replicate 15 0) 0 [] None None None.

Definition with_opcode (o : X86Opcode) (i : DecodedInstruction) : DecodedInstruction :=
  mkInstruction i.(d_address) o i.(d_bytes) i.(d_length) i.(d_operands) i.(d_branchTarget) i.(d_fallthrough) i.(d_condition).
Definition with_bytes (b : list Z) (i : DecodedInstruction) : DecodedInstruction :=
  mkInstruction i.(d_address) i.(d_opcode) b i.(d_length) i.(d_operands) i.(d_branchTarget) i.(d_fallthrough) i.(d_condition).
Definition with_length (n : Z) (i : DecodedInstruction) : DecodedInstruction :=
  mkInstruction i.(d_address) i.(d_opcode) i.(d_bytes) n i.(d_operands) i.(d_branchTarget) i.(d_fallthrough) i.(d_condition).
Definition push_operand (o : Operand) (i : DecodedInstruction) : DecodedInstruction :=
  mkInstruction i.(d_address) i.(d_opcode) i.(d_bytes) i.(d_length) (i.(d_operands) ++ [o]) i.(d_branchTarget) i.(d_fallthrough) i.(d_condition).
Definition with_branchTarget (a : Z) (i : DecodedInstruction) : DecodedInstruction :=
  mkInstruction i.(d_address) i.(d_opcode) i.(d_bytes) i.(d_length) i.(d_operands) (Some a) i.(d_fallthrough) i.(d_condition).
Definition with_fallthrough (a : Z) (i : DecodedInstruction) : DecodedInstruction :=
  mkInstruction i.(d_address) i.(d_opcode) i.(d_bytes) i.(d_length) i.(d_operands) i.(d_branchTarget) (Some a) i.(d_condition).
Definition with_condition (c : Condition) (i : DecodedInstruction) : DecodedInstruction :=
  mkInstruction i.(d_address) i.(d_opcode) i.(d_bytes) i.(d_length) i.(d_operands) i.(d_branchTarget) i.(d_fallthrough) (Some c).
(** [instruction.bytes[i] = v] for a constant [i] below 15. *)
Definition with_byte (i v : Z) (instruction : DecodedInstruction) : DecodedInstruction :=
  with_bytes (<[Z.to_nat i := v]> instruction.(d_bytes)) instruction.

Definition terminatesBlock (o : X86Opcode) : bool :=
  match o with
  | X_JmpRelative | X_JmpReg | X_JmpMem | X_JccRelative | X_CallRelative | X_CallReg | X_CallMem | X_Syscall
  | X_Ret => true
  | _ => false
  end.
