(* ===== verification/DecodeBase.v ===== *)
(** What the recognition families of the decoder share
    ([src/x86/DecodeInternal.h]): reads of the code bytes, immediates, relative
    targets, registers and the memory form of a ModRM byte.

    The decoder works on a span of bytes with [std::size_t] cursors: [code_at] and
    [subspan] are undefined outside the span, [size_add] and [size_sub] wrap. *)
From S2P Require Import Prelude X86State ExecutionContext IR X86Instruction.

Definition size_add (a b : Z) : Z := u64 (a + b).
Definition size_sub (a b : Z) : Z := u64 (a - b).

(** [code[i]] *)
Definition code_at (code : list Z) (i : Z) : outcome Z :=
  match (if 0 <=? i then code !! Z.to_nat i else None) with Some b => Ok b | None => Undefined end.

(** [code.subspan(offset, count)] *)
Definition subspan (code : list Z) (offset count : Z) : outcome (list Z) :=
  if (0 <=? offset) && (0 <=? count) && (offset + count <=? zlength code)
  then Ok (take (Z.to_nat count) (drop (Z.to_nat offset) code)) else Undefined.

(** The little-endian loops of [readU64] and [readI32]. *)
Definition readU64 (bytes : list Z) : outcome Z :=
  if 8 <=? zlength bytes then Ok (le_value (take 8 bytes)) else Undefined.
Definition readI32 (bytes : list Z) : outcome Z :=
  if 4 <=? zlength bytes then Ok (signed 32 (le_value (take 4 bytes))) else Undefined.

Definition relativeTarget (address len displacement : Z) : outcome Z :=
  if UINT64_MAX - len <? address
  then Throw (runtime_error "x86 control-transfer fallthrough address overflows")
  else
    let fallthrough := u64 (address + len) in
    if 0 <=? displacement then
      let positive := u64 displacement in
      if UINT64_MAX - positive <? fallthrough
      then Throw (runtime_error "x86 relative branch target overflows")
      else Ok (u64 (fallthrough + positive))
    else
      let magnitude := u64 (u64 (- (displacement + 1)) + 1) in
      if fallthrough <? magnitude
      then Throw (runtime_error "x86 relative branch target underflows")
      else Ok (u64 (fallthrough - magnitude)).

(** [static_cast<Register>]: a value that names no register is undefined. *)
Definition register_cast (encoded : Z) : outcome Register :=
  match (if 0 <=? encoded then all_registers !! Z.to_nat encoded else None) with
  | Some r => Ok r
  | None => Undefined
  end.
Definition decodeRegister (lowBits : Z) (rexB : bool) : outcome Register :=
  register_cast (u8 (Z.lor lowBits (if rexB then 8 else 0))).

(** [std::copy_n(code.begin() + offset, count, instruction.bytes.begin())] *)
Definition copy_bytes (code : list Z) (offset count : Z) (i : DecodedInstruction) : outcome DecodedInstruction :=
  if (0 <=? offset) && (0 <=? count) && (offset + count <=? zlength code) && (count <=? 15)
  then Ok (with_bytes (take (Z.to_nat count) (drop (Z.to_nat offset) code) ++ drop (Z.to_nat count) i.(d_bytes)) i)
  else Undefined.

(** Types of the variables that a branch leaves to the statements after it. They are
    words; their names say which values the branch can leave, and the proofs use them. *)
Definition cursor_in (lo hi : Z) : Type := Z.
Definition within (lo hi : Z) : Type := Z.
Definition one_of (values : list Z) : Type := Z.

Notation "'let!' x ':' T ':=' c 'in' k" := (outcome_bind (A := T%type) c (fun x => k))
  (at level 10, x pattern, T at level 100, c at level 100, k at level 200, only parsing) : rosa_scope.

(** What a family leaves: the instruction, or the cursor and the instruction for
    the next family. *)
Definition Recognition : Type := (DecodedInstruction + Z * DecodedInstruction)%type.

(** [if (!...) return ...;] in sequence: a recognised instruction ends the family. *)
Definition flow_bind {A B C} (c : outcome (A + B)) (k : B -> outcome (A + C)) : outcome (A + C) :=
  let! r := c in match r with inl a => Ok (inl a) | inr b => k b end.
Notation "'next!' x ':=' c 'in' k" := (flow_bind c (fun x => k))
  (at level 10, x pattern, c at level 100, k at level 200) : rosa_scope.

Definition reject {A} (code : list Z) (address : Z) (reason : string) : outcome A :=
  Throw (decode_error address code reason).

(** [decodeModrmMemory]: the operand and the cursor after it. *)
Definition decodeModrmMemory (code : list Z) (address cursor modrm rex width : Z) : outcome (MemoryOperand * Z) :=
  let fail {A} (what : string) : outcome A := reject code address (String.append "truncated memory operand " what) in
  let mode := Z.land (Z.shiftr modrm 6) 3 in
  let rmEncoding := Z.land modrm 7 in
  let rexB := negb (Z.land rex 1 =? 0) in
  let rexX := negb (Z.land rex 2 =? 0) in
  if mode =? 3 then Throw (logic_error "decodeModrmMemory requires a memory ModRM form")
  else
    let! (cursor, base, index, scale, hasBase, ripRelative, displacement32) :=
      (if rmEncoding =? 4 then
        if zlength code <=? cursor then fail "SIB"
        else
          let! sib := code_at code cursor in
          let cursor := size_add cursor 1 in
          let indexEncoding := Z.lor (Z.land (Z.shiftr sib 3) 7) (if rexX then 8 else 0) in
          let! (index, scale) :=
            (if negb (indexEncoding =? 4) then
              let! index := register_cast indexEncoding in
              Ok (Some index, Z.shiftl 1 (Z.land (Z.shiftr sib 6) 3))
             else Ok (None, 1)) in
          if (mode =? 0) && (Z.land sib 7 =? 5) then Ok (cursor, Rax, index, scale, false, false, true)
          else
            let! base := decodeRegister (Z.land sib 7) rexB in
            Ok (cursor, base, index, scale, true, false, mode =? 2)
       else if (mode =? 0) && (rmEncoding =? 5) then Ok (cursor, Rax, None, 1, false, true, true)
       else
         let! base := decodeRegister rmEncoding rexB in
         Ok (cursor, base, None, 1, true, false, mode =? 2)) in
    let memory displacement := mkMemory base displacement width index scale hasBase ripRelative Segment_None in
    if mode =? 1 then
      if zlength code <=? cursor then fail "disp8"
      else
        let! byte := code_at code cursor in
        Ok (memory (signed 8 byte), size_add cursor 1)
    else if displacement32 then
      if size_sub (zlength code) cursor <? 4 then fail "disp32"
      else
        let! span := subspan code cursor 4 in
        let! displacement := readI32 span in
        Ok (memory displacement, size_add cursor 4)
    else Ok (memory 0, cursor).
