(* ===== verification/DecodeVex.v ===== *)
(** Recognition family [decodeVex] ([src/x86/DecodeVex.cpp]): VEX encodings: VMOVUPS, VMOVAPS, VXORPS, VBROADCASTSS, VZEROUPPER.

    Each definition is one group of statements of the C++ function, in its order; it
    recognises an instruction ([inl]), rejects the bytes, or leaves the cursor and the
    instruction to the next group ([inr]). *)
From S2P Require Import Prelude X86State ExecutionContext IR X86Instruction DecodeBase.

Section Decode.
Context (code : list Z) (address : Z).

Definition decodeVex_VbroadcastssYmmReg (cursor : Z) (instruction : DecodedInstruction) : outcome Recognition :=
  let! byte1 := code_at code cursor in
  if byte1 =? 0xC4 then
    if size_sub (zlength code) cursor <? 5 then
      reject code address "truncated three-byte VEX instruction"
    else
    let! vexMap := code_at code (size_add cursor 1) in
    let! vex := code_at code (size_add cursor 2) in
    let! opcode := code_at code (size_add cursor 3) in
    let vexR := (Z.land vexMap 0x80 =? 0) in
    let vexX := (Z.land vexMap 0x40 =? 0) in
    let vexB := (Z.land vexMap 0x20 =? 0) in
    let opcodeMap := Z.land vexMap 0x1F in
    let vexW := negb (Z.land vex 0x80 =? 0) in
    let encodedVvvv := Z.land (Z.shiftr vex 3) 0xF in
    let vexL := negb (Z.land vex 4 =? 0) in
    let vexPrefix := Z.land vex 3 in
    let! modrm := code_at code (size_add cursor 4) in
    let mode := Z.land (Z.shiftr modrm 6) 3 in
    if (opcodeMap =? 2) && (opcode =? 0x18) && negb vexW && vexL && (vexPrefix =? 1) && (encodedVvvv =? 0xF) &&
        negb vexX && (mode =? 3) then
      let destinationEncoding := Z.lor (Z.land (Z.shiftr modrm 3) 7) (if vexR then 8 else 0) in
      let sourceEncoding := Z.lor (Z.land modrm 7) (if vexB then 8 else 0) in
      let instruction := with_opcode X_VbroadcastssYmmReg instruction in
      let instruction := push_operand (XmmRegisterOperand destinationEncoding) instruction in
      let instruction := push_operand (XmmRegisterOperand sourceEncoding) instruction in
      let instruction := with_length 5 instruction in
      let! instruction := copy_bytes code cursor 5 instruction in
      Ok (inl instruction)
    else reject code address "three-byte VEX opcode is not in the current Rosa subset"
  else Ok (inr (cursor, instruction)).

Definition decodeVex_VmovupsYmmRegMem (cursor : Z) (opcode : Z) (vexR : bool) (encodedVvvv : Z) (vexL : bool)
    (vexPrefix : Z) (instruction : DecodedInstruction) : outcome Recognition :=
  if (negb vexL && ((opcode =? 0x28) || (opcode =? 0x29))) || negb (vexPrefix =? 0) || negb (encodedVvvv =?
      0xF) || (size_sub (zlength code) cursor <? 4) then
    reject code address "only memory VMOVUPS and 256-bit memory VMOVAPS are supported"
  else
  let! modrm := code_at code (size_add cursor 3) in
  let mode := Z.land (Z.shiftr modrm 6) 3 in
  let rmEncoding := Z.land modrm 7 in
  if mode =? 3 then
    reject code address "only memory VMOVUPS operands are supported"
  else
  let operandCursor := size_add cursor 4 in
  let ripRelative := (mode =? 0) && (rmEncoding =? 5) in
  let baseEncoding := rmEncoding in
  let index := None in
  let scale := 1 in
  let! (operandCursor, baseEncoding, index, scale) : cursor_in 4 5 * within 0 7 * option Register * one_of [1;
      2; 4; 8] :=
    (if negb ripRelative && (rmEncoding =? 4) then
      if zlength code <=? operandCursor then
        reject code address "truncated VMOVUPS SIB byte"
      else
      let! sib := code_at code operandCursor in
      let operandCursor := size_add operandCursor 1 in
      let scaleBits := Z.land (Z.shiftr sib 6) 3 in
      let indexEncoding := Z.land (Z.shiftr sib 3) 7 in
      let baseEncoding := Z.land sib 7 in
      if (mode =? 0) && (baseEncoding =? 5) then
        reject code address "no-base VMOVUPS SIB addressing is not supported"
      else if negb (indexEncoding =? 4) then
        let! register12 := decodeRegister indexEncoding false in
        let index := Some register12 in
        let scale := Z.shiftl 1 scaleBits in
        Ok (operandCursor, baseEncoding, index, scale)
      else Ok (operandCursor, baseEncoding, index, scale)
     else
      Ok (operandCursor, baseEncoding, index, scale)) in
  let displacement := 0 in
  let! (displacement, operandCursor) : within (- 2 ^ 31) (2 ^ 31 - 1) * cursor_in 4 9 :=
    (if ripRelative || (mode =? 2) then
      if size_sub (zlength code) operandCursor <? 4 then
        reject code address "truncated VMOVUPS disp32"
      else
      let! span13 := subspan code operandCursor 4 in
      let! displacement := readI32 span13 in
      let operandCursor := size_add operandCursor 4 in
      Ok (displacement, operandCursor)
     else
      if mode =? 1 then
        if zlength code <=? operandCursor then
          reject code address "truncated VMOVUPS disp8"
        else
        let! byte15 := code_at code operandCursor in
        let displacement := signed 8 byte15 in
        let operandCursor := size_add operandCursor 1 in
        Ok (displacement, operandCursor)
      else Ok (displacement, operandCursor)) in
  let xmmEncoding := Z.lor (Z.land (Z.shiftr modrm 3) 7) (if vexR then 8 else 0) in
  let! memory : MemoryOperand := (if ripRelative then Ok (mkMemory Rax displacement (if vexL then 256 else 128)
      None 1 false true Segment_None) else (let! register17 := decodeRegister baseEncoding false in Ok
      (mkMemory register17 displacement (if vexL then 256 else 128) index scale true false Segment_None))) in
  let instruction :=
    (if opcode =? 0x10 then
      let instruction := with_opcode (if vexL then X_VmovupsYmmRegMem else X_VmovupsRegMem) instruction in
      let instruction := push_operand (XmmRegisterOperand xmmEncoding) instruction in
      let instruction := push_operand (MemoryOp memory) instruction in
      instruction
     else
      if opcode =? 0x11 then
        let instruction := with_opcode (if vexL then X_VmovupsYmmMemReg else X_VmovupsMemReg) instruction in
        let instruction := push_operand (MemoryOp memory) instruction in
        let instruction := push_operand (XmmRegisterOperand xmmEncoding) instruction in
        instruction
      else if opcode =? 0x28 then
        let instruction := with_opcode X_VmovapsYmmRegMem instruction in
        let instruction := push_operand (XmmRegisterOperand xmmEncoding) instruction in
        let instruction := push_operand (MemoryOp memory) instruction in
        instruction
      else
      let instruction := with_opcode X_VmovapsYmmMemReg instruction in
      let instruction := push_operand (MemoryOp memory) instruction in
      let instruction := push_operand (XmmRegisterOperand xmmEncoding) instruction in
      instruction) in
  let len := size_sub operandCursor 0 in
  let instruction := with_length (u8 len) instruction in
  let! instruction := copy_bytes code 0 len instruction in
  Ok (inl instruction).

Definition decodeVex_Vzeroupper_2 (cursor : Z) (instruction : DecodedInstruction) : outcome Recognition :=
  if size_sub (zlength code) cursor <? 3 then
    reject code address "truncated two-byte VEX instruction"
  else
  let! vex := code_at code (size_add cursor 1) in
  let! opcode := code_at code (size_add cursor 2) in
  let vexR := (Z.land vex 0x80 =? 0) in
  let encodedVvvv := Z.land (Z.shiftr vex 3) 0xF in
  let sourceEncoding := Z.land (Z.lnot encodedVvvv) 0xF in
  let vexL := negb (Z.land vex 4 =? 0) in
  let vexPrefix := Z.land vex 3 in
  if opcode =? 0x77 then
    if negb (vex =? 0xF8) then
      reject code address "only the canonical VZEROUPPER encoding is supported"
    else
    let instruction := with_opcode X_Vzeroupper instruction in
    let instruction := with_length 3 instruction in
    let! instruction := copy_bytes code cursor 3 instruction in
    Ok (inl instruction)
  else if opcode =? 0x57 then
    if negb (vexPrefix =? 0) || (size_sub (zlength code) cursor <? 4) then
      reject code address "only register VXORPS is supported"
    else
    let! modrm := code_at code (size_add cursor 3) in
    let mode := Z.land (Z.shiftr modrm 6) 3 in
    if negb (mode =? 3) then
      reject code address "only register-direct VXORPS is supported"
    else
    let destinationEncoding := Z.lor (Z.land (Z.shiftr modrm 3) 7) (if vexR then 8 else 0) in
    let instruction := with_opcode (if vexL then X_VxorpsYmmRegRegReg else X_VxorpsRegRegReg) instruction in
    let instruction := push_operand (XmmRegisterOperand destinationEncoding) instruction in
    let instruction := push_operand (XmmRegisterOperand sourceEncoding) instruction in
    let instruction := push_operand (XmmRegisterOperand (Z.land modrm 7)) instruction in
    let instruction := with_length 4 instruction in
    let! instruction := copy_bytes code cursor 4 instruction in
    Ok (inl instruction)
  else if (opcode =? 0x10) || (opcode =? 0x11) || (opcode =? 0x28) || (opcode =? 0x29) then
    decodeVex_VmovupsYmmRegMem cursor opcode vexR encodedVvvv vexL vexPrefix instruction
  else reject code address "two-byte VEX opcode is not in the current Rosa subset".

Definition decodeVex_Vzeroupper (cursor : Z) (instruction : DecodedInstruction) : outcome Recognition :=
  let! byte6 := code_at code cursor in
  if byte6 =? 0xC5 then
    decodeVex_Vzeroupper_2 cursor instruction
  else Ok (inr (cursor, instruction)).

Definition decodeVex (cursor : Z) (instruction : DecodedInstruction) : outcome Recognition :=
  next! (cursor, instruction) := decodeVex_VbroadcastssYmmReg cursor instruction in
  decodeVex_Vzeroupper cursor instruction.

End Decode.
