(* ===== verification/DecodeRepeat.v ===== *)
(** Recognition family [decodeRepeat] ([src/x86/DecodeRepeat.cpp]): REP MOVS and STOS, and the F3 moves of unaligned vectors.

    Each definition is one group of statements of the C++ function, in its order; it
    recognises an instruction ([inl]), rejects the bytes, or leaves the cursor and the
    instruction to the next group ([inr]). *)
From S2P Require Import Prelude X86State ExecutionContext IR X86Instruction DecodeBase.

Section Decode.
Context (code : list Z) (address : Z).

Definition decodeRepeat_RepMovsb (cursor : Z) (instruction : DecodedInstruction) : outcome Recognition :=
  let! byte1 := code_at code cursor in
  let! test3 := (if (byte1 =? 0xF3) && (2 <=? size_sub (zlength code) cursor) then (let! byte2 := code_at code
      (size_add cursor 1) in Ok (byte2 =? 0xA4)) else Ok false) in
  if test3 then
    let instruction := with_opcode X_RepMovsb instruction in
    let instruction := with_length 2 instruction in
    let instruction := with_byte 0 byte1 instruction in
    let! byte4 := code_at code (size_add cursor 1) in
    let instruction := with_byte 1 byte4 instruction in
    Ok (inl instruction)
  else Ok (inr (cursor, instruction)).

Definition decodeRepeat_RepStosb (cursor : Z) (instruction : DecodedInstruction) : outcome Recognition :=
  let! byte5 := code_at code cursor in
  if (byte5 =? 0xF3) && (2 <=? size_sub (zlength code) cursor) then
    let stosCursor := size_add cursor 1 in
    let! hasStosRex := (if stosCursor <? zlength code then (let! byte6 := code_at code stosCursor in Ok ((0x40
        <=? byte6) && (byte6 <=? 0x4F))) else Ok false) in
    let! (choice8, stosCursor) : within 0 255 * cursor_in 1 2 := (if hasStosRex then (let! byte9 := code_at
        code stosCursor in Ok (byte9, size_add stosCursor 1)) else Ok (0, stosCursor)) in
    let stosRex := choice8 in
    let! isStos := (if 1 <=? size_sub (zlength code) stosCursor then (let! byte10 := code_at code stosCursor in
        Ok ((byte10 =? 0xAA) || (byte10 =? 0xAB))) else Ok false) in
    if isStos then
      if negb (Z.land stosRex 7 =? 0) then
        reject code address "only REX.W is supported for REP STOS"
      else
      let! byte12 := code_at code stosCursor in
      let isByte := (byte12 =? 0xAA) in
      let instruction := with_opcode (if isByte then X_RepStosb else if negb (Z.land stosRex 8 =? 0) then
          X_RepStosq else X_RepStosd) instruction in
      let len := size_sub (size_add stosCursor 1) 0 in
      let instruction := with_length (u8 len) instruction in
      let! instruction := copy_bytes code 0 len instruction in
      Ok (inl instruction)
    else Ok (inr (cursor, instruction))
  else Ok (inr (cursor, instruction)).

Definition decodeRepeat_MovdquMemReg (cursor : Z) (instruction : DecodedInstruction) : outcome Recognition :=
  let! byte13 := code_at code cursor in
  let! test19 := (if (byte13 =? 0xF3) && (5 <=? size_sub (zlength code) cursor) then (let! byte14 := code_at
      code (size_add cursor 1) in let! test18 := (if (0x40 <=? byte14) && (byte14 <=? 0x4F) then (let! byte15
      := code_at code (size_add cursor 2) in let! test17 := (if byte15 =? 0xF then (let! byte16 := code_at code
      (size_add cursor 3) in Ok (byte16 =? 0x7F)) else Ok false) in Ok test17) else Ok false) in Ok test18)
      else Ok false) in
  if test19 then
    let! rex := code_at code (size_add cursor 1) in
    let rexW := negb (Z.land rex 8 =? 0) in
    let rexR := negb (Z.land rex 4 =? 0) in
    let rexX := negb (Z.land rex 2 =? 0) in
    let rexB := negb (Z.land rex 1 =? 0) in
    let! modrm := code_at code (size_add cursor 4) in
    let mode := Z.land (Z.shiftr modrm 6) 3 in
    let rmEncoding := Z.land modrm 7 in
    if rexW || (mode =? 3) || (rexX && negb (rmEncoding =? 4)) || ((mode =? 0) && (rmEncoding =? 5) && negb
        rexB) then
      reject code address "only REX-extended MOVDQU [base+index*scale+disp8/disp32], xmm is supported"
    else
    let operandCursor := size_add cursor 5 in
    let baseEncoding := rmEncoding in
    let index := None in
    let scale := 1 in
    let! (operandCursor, baseEncoding, index, scale) : cursor_in 5 6 * within 0 7 * option Register * one_of
        [1; 2; 4; 8] :=
      (if rmEncoding =? 4 then
        if zlength code <=? operandCursor then
          reject code address "truncated REX MOVDQU store SIB"
        else
        let! sib := code_at code operandCursor in
        let operandCursor := size_add operandCursor 1 in
        let scaleBits := Z.land (Z.shiftr sib 6) 3 in
        let indexEncoding := Z.land (Z.shiftr sib 3) 7 in
        let baseEncoding := Z.land sib 7 in
        if (mode =? 0) && (baseEncoding =? 5) then
          reject code address "no-base REX MOVDQU store SIB is unsupported"
        else if negb (indexEncoding =? 4) || rexX then
          let! register23 := decodeRegister indexEncoding rexX in
          let index := Some register23 in
          let scale := Z.shiftl 1 scaleBits in
          Ok (operandCursor, baseEncoding, index, scale)
        else Ok (operandCursor, baseEncoding, index, scale)
       else
        Ok (operandCursor, baseEncoding, index, scale)) in
    let displacement := 0 in
    let! (displacement, operandCursor) : within (- 2 ^ 31) (2 ^ 31 - 1) * cursor_in 5 10 :=
      (if mode =? 1 then
        if zlength code <=? operandCursor then
          reject code address "truncated REX MOVDQU store disp8"
        else
        let! byte24 := code_at code operandCursor in
        let displacement := signed 8 byte24 in
        let operandCursor := size_add operandCursor 1 in
        Ok (displacement, operandCursor)
       else
        if mode =? 2 then
          if size_sub (zlength code) operandCursor <? 4 then
            reject code address "truncated REX MOVDQU store disp32"
          else
          let! span25 := subspan code operandCursor 4 in
          let! displacement := readI32 span25 in
          let operandCursor := size_add operandCursor 4 in
          Ok (displacement, operandCursor)
        else Ok (displacement, operandCursor)) in
    let instruction := with_opcode X_MovdquMemReg instruction in
    let! register27 := decodeRegister baseEncoding rexB in
    let instruction := push_operand (MemoryOp (mkMemory register27 displacement 128 index scale true false
        Segment_None)) instruction in
    let instruction := push_operand (XmmRegisterOperand (Z.lor (Z.land (Z.shiftr modrm 3) 7) (if rexR then 8
        else 0))) instruction in
    let len := size_sub operandCursor 0 in
    let instruction := with_length (u8 len) instruction in
    let! instruction := copy_bytes code 0 len instruction in
    Ok (inl instruction)
  else Ok (inr (cursor, instruction)).

Definition decodeRepeat_MovdquMemReg_2 (cursor : Z) (instruction : DecodedInstruction) : outcome Recognition :=
  let! byte28 := code_at code cursor in
  let! test32 := (if (byte28 =? 0xF3) && (3 <=? size_sub (zlength code) cursor) then (let! byte29 := code_at
      code (size_add cursor 1) in let! test31 := (if byte29 =? 0xF then (let! byte30 := code_at code (size_add
      cursor 2) in Ok (byte30 =? 0x7F)) else Ok false) in Ok test31) else Ok false) in
  if test32 then
    if size_sub (zlength code) cursor <? 4 then
      reject code address "truncated movdqu [base+disp], xmm"
    else
    let! modrm := code_at code (size_add cursor 3) in
    let mode := Z.land (Z.shiftr modrm 6) 3 in
    let rmEncoding := Z.land modrm 7 in
    if 2 <? mode then
      reject code address "only MOVDQU [base/RIP+index*scale+disp8/disp32], xmm memory operands are supported"
    else
    let ripRelative := (mode =? 0) && (rmEncoding =? 5) in
    let cursor := size_add cursor 4 in
    let baseEncoding := rmEncoding in
    let index := None in
    let scale := 1 in
    let! (cursor, baseEncoding, index, scale) : cursor_in 4 5 * within 0 7 * option Register * one_of [1; 2; 4;
        8] :=
      (if negb ripRelative && (rmEncoding =? 4) then
        if zlength code <=? cursor then
          reject code address "truncated MOVDQU SIB byte"
        else
        let! sib := code_at code cursor in
        let cursor := size_add cursor 1 in
        let scaleBits := Z.land (Z.shiftr sib 6) 3 in
        let indexEncoding := Z.land (Z.shiftr sib 3) 7 in
        let baseEncoding := Z.land sib 7 in
        if (mode =? 0) && (baseEncoding =? 5) then
          reject code address "no-base MOVDQU SIB addressing is not supported"
        else if negb (indexEncoding =? 4) then
          let! register35 := decodeRegister indexEncoding false in
          let index := Some register35 in
          let scale := Z.shiftl 1 scaleBits in
          Ok (cursor, baseEncoding, index, scale)
        else Ok (cursor, baseEncoding, index, scale)
       else
        Ok (cursor, baseEncoding, index, scale)) in
    let displacement := 0 in
    let! (displacement, cursor) : within (- 2 ^ 31) (2 ^ 31 - 1) * cursor_in 4 9 :=
      (if ripRelative then
        if size_sub (zlength code) cursor <? 4 then
          reject code address "truncated RIP-relative MOVDQU memory disp32"
        else
        let! span36 := subspan code cursor 4 in
        let! displacement := readI32 span36 in
        let cursor := size_add cursor 4 in
        Ok (displacement, cursor)
       else
        if mode =? 1 then
          if zlength code <=? cursor then
            reject code address "truncated MOVDQU memory disp8"
          else
          let! byte38 := code_at code cursor in
          let displacement := signed 8 byte38 in
          let cursor := size_add cursor 1 in
          Ok (displacement, cursor)
        else if mode =? 2 then
          if size_sub (zlength code) cursor <? 4 then
            reject code address "truncated MOVDQU memory disp32"
          else
          let! span39 := subspan code cursor 4 in
          let! displacement := readI32 span39 in
          let cursor := size_add cursor 4 in
          Ok (displacement, cursor)
        else Ok (displacement, cursor)) in
    let! _ :=
      (if ripRelative then
        let! _ := relativeTarget address (size_sub cursor 0) displacement in
        Ok tt
       else
        Ok tt) in
    let instruction := with_opcode X_MovdquMemReg instruction in
    let! register42 := decodeRegister baseEncoding false in
    let instruction := push_operand (MemoryOp (mkMemory register42 displacement 128 index scale (negb
        ripRelative) ripRelative Segment_None)) instruction in
    let instruction := push_operand (XmmRegisterOperand (Z.land (Z.shiftr modrm 3) 7)) instruction in
    let len := size_sub cursor 0 in
    let instruction := with_length (u8 len) instruction in
    let! instruction := copy_bytes code 0 len instruction in
    Ok (inl instruction)
  else Ok (inr (cursor, instruction)).

Definition decodeRepeat_MovdquRegMem_2 (afterPrefix : Z) (hasRex : bool) (opcodeOffset : Z) (instruction :
    DecodedInstruction) : outcome Recognition :=
  if size_sub (zlength code) opcodeOffset <? 3 then
    reject code address "truncated movdqu xmm, [memory]"
  else
  let! rex : within 0 255 := (if hasRex then (let! byte50 := code_at code afterPrefix in Ok byte50) else Ok 0)
      in
  let rexR := negb (Z.land rex 4 =? 0) in
  let rexX := negb (Z.land rex 2 =? 0) in
  let rexB := negb (Z.land rex 1 =? 0) in
  let! modrm := code_at code (size_add opcodeOffset 2) in
  let mode := Z.land (Z.shiftr modrm 6) 3 in
  let rmEncoding := Z.land modrm 7 in
  let ripRelative := (mode =? 0) && (rmEncoding =? 5) in
  if 2 <? mode then
    reject code address "only MOVDQU xmm, memory operands are supported"
  else
  let operandCursor := size_add opcodeOffset 3 in
  let baseEncoding := rmEncoding in
  let index := None in
  let scale := 1 in
  let! (operandCursor, baseEncoding, index, scale) : cursor_in 4 6 * within 0 7 * option Register * one_of [1;
      2; 4; 8] :=
    (if negb ripRelative && (rmEncoding =? 4) then
      if zlength code <=? operandCursor then
        reject code address "truncated MOVDQU load SIB byte"
      else
      let! sib := code_at code operandCursor in
      let operandCursor := size_add operandCursor 1 in
      let scaleBits := Z.land (Z.shiftr sib 6) 3 in
      let indexEncoding := Z.land (Z.shiftr sib 3) 7 in
      let baseEncoding := Z.land sib 7 in
      if (mode =? 0) && (baseEncoding =? 5) then
        reject code address "no-base MOVDQU load SIB addressing is not supported"
      else if negb (indexEncoding =? 4) || rexX then
        let! register53 := decodeRegister indexEncoding rexX in
        let index := Some register53 in
        let scale := Z.shiftl 1 scaleBits in
        Ok (operandCursor, baseEncoding, index, scale)
      else Ok (operandCursor, baseEncoding, index, scale)
     else
      Ok (operandCursor, baseEncoding, index, scale)) in
  let displacement := 0 in
  let! (displacement, operandCursor) : within (- 2 ^ 31) (2 ^ 31 - 1) * cursor_in 4 10 :=
    (if ripRelative || (mode =? 2) then
      if size_sub (zlength code) operandCursor <? 4 then
        reject code address "truncated MOVDQU load disp32"
      else
      let! span54 := subspan code operandCursor 4 in
      let! displacement := readI32 span54 in
      let operandCursor := size_add operandCursor 4 in
      Ok (displacement, operandCursor)
     else
      if mode =? 1 then
        if zlength code <=? operandCursor then
          reject code address "truncated MOVDQU load disp8"
        else
        let! byte56 := code_at code operandCursor in
        let displacement := signed 8 byte56 in
        let operandCursor := size_add operandCursor 1 in
        Ok (displacement, operandCursor)
      else Ok (displacement, operandCursor)) in
  let! _ :=
    (if ripRelative then
      let! _ := relativeTarget address (size_sub operandCursor 0) displacement in
      Ok tt
     else
      Ok tt) in
  let instruction := with_opcode X_MovdquRegMem instruction in
  let instruction := push_operand (XmmRegisterOperand (Z.lor (Z.land (Z.shiftr modrm 3) 7) (if rexR then 8 else
      0))) instruction in
  let! choice58 : Register := (if ripRelative then Ok Rax else (let! register59 := decodeRegister baseEncoding
      rexB in Ok register59)) in
  let instruction := push_operand (MemoryOp (mkMemory choice58 displacement 128 index scale (negb ripRelative)
      ripRelative Segment_None)) instruction in
  let len := size_sub operandCursor 0 in
  let instruction := with_length (u8 len) instruction in
  let! instruction := copy_bytes code 0 len instruction in
  Ok (inl instruction).

Definition decodeRepeat_MovdquRegMem (cursor : Z) (instruction : DecodedInstruction) : outcome Recognition :=
  let! byte43 := code_at code cursor in
  if (byte43 =? 0xF3) && (2 <=? size_sub (zlength code) cursor) then
    let afterPrefix := size_add cursor 1 in
    let! byte44 := code_at code afterPrefix in
    let hasRex := (0x40 <=? byte44) && (byte44 <=? 0x4F) in
    let opcodeOffset := size_add afterPrefix (if hasRex then 1 else 0) in
    let! test48 := (if 2 <=? size_sub (zlength code) opcodeOffset then (let! byte45 := code_at code
        opcodeOffset in let! test47 := (if byte45 =? 0xF then (let! byte46 := code_at code (size_add
        opcodeOffset 1) in Ok (byte46 =? 0x6F)) else Ok false) in Ok test47) else Ok false) in
    if test48 then
      decodeRepeat_MovdquRegMem_2 afterPrefix hasRex opcodeOffset instruction
    else Ok (inr (cursor, instruction))
  else Ok (inr (cursor, instruction)).

Definition decodeRepeat (cursor : Z) (instruction : DecodedInstruction) : outcome Recognition :=
  next! (cursor, instruction) := decodeRepeat_RepMovsb cursor instruction in
  next! (cursor, instruction) := decodeRepeat_RepStosb cursor instruction in
  next! (cursor, instruction) := decodeRepeat_MovdquMemReg cursor instruction in
  next! (cursor, instruction) := decodeRepeat_MovdquMemReg_2 cursor instruction in
  decodeRepeat_MovdquRegMem cursor instruction.

End Decode.
