(* ===== verification/DecodeControlTransfer.v ===== *)
(** Recognition family [decodeControlTransfer] ([src/x86/DecodeControlTransfer.cpp]): relative calls and jumps.

    Each definition is one group of statements of the C++ function, in its order; it
    recognises an instruction ([inl]), rejects the bytes, or leaves the cursor and the
    instruction to the next group ([inr]). *)
From S2P Require Import Prelude X86State ExecutionContext IR X86Instruction DecodeBase.

Section Decode.
Context (code : list Z) (address : Z).

Definition decodeControlTransfer_CallRelative (cursor : Z) (instruction : DecodedInstruction) : outcome
    Recognition :=
  let! byte1 := code_at code cursor in
  if (byte1 =? 0xE8) || (byte1 =? 0xE9) then
    if size_sub (zlength code) cursor <? 5 then
      reject code address "truncated rel32 control transfer"
    else
    let opcode := byte1 in
    let! span2 := subspan code (size_add cursor 1) 4 in
    let! displacement := readI32 span2 in
    let instruction := with_opcode (if opcode =? 0xE8 then X_CallRelative else X_JmpRelative) instruction in
    let instruction := with_length 5 instruction in
    let! instruction := copy_bytes code cursor 5 instruction in
    let! target4 := relativeTarget address 5 displacement in
    let instruction := with_branchTarget target4 instruction in
    let instruction := with_fallthrough (u64 (address + 5)) instruction in
    Ok (inl instruction)
  else Ok (inr (cursor, instruction)).

Definition decodeControlTransfer_JmpRelative (cursor : Z) (instruction : DecodedInstruction) : outcome
    Recognition :=
  let! byte5 := code_at code cursor in
  let! hasBranchHint := (if (byte5 =? 0x2E) && (2 <=? size_sub (zlength code) cursor) then (let! byte6 :=
      code_at code (size_add cursor 1) in Ok ((0x70 <=? byte6) && (byte6 <=? 0x7F))) else Ok false) in
  let controlOffset := size_add cursor (if hasBranchHint then 1 else 0) in
  let! byte8 := code_at code controlOffset in
  if (byte8 =? 0xEB) || (byte8 =? 0x70) || (byte8 =? 0x71) || (byte8 =? 0x72) || (byte8 =? 0x73) || (byte8 =?
      0x74) || (byte8 =? 0x75) || (byte8 =? 0x76) || (byte8 =? 0x77) || (byte8 =? 0x78) || (byte8 =? 0x79) ||
      (byte8 =? 0x7A) || (byte8 =? 0x7B) || (byte8 =? 0x7C) || (byte8 =? 0x7D) || (byte8 =? 0x7E) || (byte8 =?
      0x7F) then
    if size_sub (zlength code) controlOffset <? 2 then
      reject code address "truncated rel8 control transfer"
    else
    let opcode := byte8 in
    let! byte9 := code_at code (size_add controlOffset 1) in
    let displacement := signed 8 byte9 in
    let len := 2 + (if hasBranchHint then 1 else 0) in
    let instruction := with_opcode (if opcode =? 0xEB then X_JmpRelative else X_JccRelative) instruction in
    let instruction := with_length len instruction in
    let! instruction := copy_bytes code cursor len instruction in
    let! target10 := relativeTarget address len displacement in
    let instruction := with_branchTarget target10 instruction in
    let instruction := with_fallthrough (u64 (address + len)) instruction in
    let instruction :=
      (if negb (opcode =? 0xEB) then
        let instruction := with_condition (if opcode =? 0x70 then Cond_Overflow else if opcode =? 0x71 then
            Cond_NotOverflow else if opcode =? 0x72 then Cond_Below else if opcode =? 0x73 then
            Cond_AboveOrEqual else if opcode =? 0x74 then Cond_Equal else if opcode =? 0x75 then Cond_NotEqual
            else if opcode =? 0x76 then Cond_BelowOrEqual else if opcode =? 0x78 then Cond_Sign else if opcode
            =? 0x79 then Cond_NotSign else if opcode =? 0x7A then Cond_ParityEven else if opcode =? 0x7B then
            Cond_ParityOdd else if opcode =? 0x7C then Cond_Less else if opcode =? 0x7D then
            Cond_GreaterOrEqual else if opcode =? 0x7E then Cond_LessOrEqual else if opcode =? 0x7F then
            Cond_Greater else Cond_Above) instruction in
        instruction
       else
        instruction) in
    Ok (inl instruction)
  else Ok (inr (cursor, instruction)).

Definition decodeControlTransfer (cursor : Z) (instruction : DecodedInstruction) : outcome Recognition :=
  next! (cursor, instruction) := decodeControlTransfer_CallRelative cursor instruction in
  decodeControlTransfer_JmpRelative cursor instruction.

End Decode.
