(* ===== verification/DecodeExtended.v ===== *)
(** Recognition family [decodeExtended] ([src/x86/DecodeExtended.cpp]): CMOVcc, IMUL, SIDT, MOV with an operand-size prefix, and Jcc rel32.

    Each definition is one group of statements of the C++ function, in its order; it
    recognises an instruction ([inl]), rejects the bytes, or leaves the cursor and the
    instruction to the next group ([inr]). *)
From S2P Require Import Prelude X86State ExecutionContext IR X86Instruction DecodeBase.

Section Decode.
Context (code : list Z) (address : Z).

Definition decodeExtended_CmovccReg (cursor : Z) (instruction : DecodedInstruction) : outcome Recognition :=
  let! modrm := code_at code (size_add cursor 2) in
  let mode := Z.land (Z.shiftr modrm 6) 3 in
  let! byte27 := code_at code (size_add cursor 1) in
  let instruction := with_condition (if byte27 =? 0x42 then Cond_Below else if byte27 =? 0x43 then
      Cond_AboveOrEqual else if byte27 =? 0x44 then Cond_Equal else if byte27 =? 0x45 then Cond_NotEqual else
      if byte27 =? 0x46 then Cond_BelowOrEqual else if byte27 =? 0x47 then Cond_Above else if byte27 =? 0x48
      then Cond_Sign else if byte27 =? 0x49 then Cond_NotSign else if byte27 =? 0x4C then Cond_Less else if
      byte27 =? 0x4D then Cond_GreaterOrEqual else if byte27 =? 0x40 then Cond_Overflow else if byte27 =? 0x4F
      then Cond_Greater else Cond_LessOrEqual) instruction in
  let! register28 := decodeRegister (Z.land (Z.shiftr modrm 3) 7) false in
  let instruction := push_operand (RegisterOperand register28 32 0) instruction in
  let rmEncoding := Z.land modrm 7 in
  let operandCursor := size_add cursor 3 in
  let! (instruction, operandCursor) : DecodedInstruction * cursor_in 3 8 :=
    (if mode =? 3 then
      let instruction := with_opcode X_CmovccReg instruction in
      let! register29 := decodeRegister rmEncoding false in
      let instruction := push_operand (RegisterOperand register29 32 0) instruction in
      Ok (instruction, operandCursor)
     else
      let ripRelative := (mode =? 0) && (rmEncoding =? 5) in
      let! base := decodeRegister rmEncoding false in
      let index := None in
      let scale := 1 in
      let hasBase := negb ripRelative in
      let! (operandCursor, hasBase, base, index, scale) : cursor_in 3 4 * bool * Register * option Register *
          one_of [1; 2; 4; 8] :=
        (if negb ripRelative && (rmEncoding =? 4) then
          if zlength code <=? operandCursor then
            reject code address "truncated CMOV memory SIB"
          else
          let! sib := code_at code operandCursor in
          let operandCursor := size_add operandCursor 1 in
          let scaleBits := Z.land (Z.shiftr sib 6) 3 in
          let indexEncoding := Z.land (Z.shiftr sib 3) 7 in
          let baseEncoding := Z.land sib 7 in
          let hasBase := negb ((mode =? 0) && (baseEncoding =? 5)) in
          let! base : Register :=
            (if hasBase then
              let! base := decodeRegister baseEncoding false in
              Ok base
             else
              Ok base) in
          if negb (indexEncoding =? 4) then
            let! register33 := decodeRegister indexEncoding false in
            let index := Some register33 in
            let scale := Z.shiftl 1 scaleBits in
            Ok (operandCursor, hasBase, base, index, scale)
          else Ok (operandCursor, hasBase, base, index, scale)
         else
          Ok (operandCursor, hasBase, base, index, scale)) in
      let displacement := 0 in
      let! (displacement, operandCursor) : within (- 2 ^ 31) (2 ^ 31 - 1) * cursor_in 3 8 :=
        (if ripRelative || (negb hasBase && (mode =? 0)) || (mode =? 2) then
          if size_sub (zlength code) operandCursor <? 4 then
            reject code address "truncated CMOV memory disp32"
          else
          let! span34 := subspan code operandCursor 4 in
          let! displacement := readI32 span34 in
          let operandCursor := size_add operandCursor 4 in
          Ok (displacement, operandCursor)
         else
          if mode =? 1 then
            if zlength code <=? operandCursor then
              reject code address "truncated CMOV memory disp8"
            else
            let! byte36 := code_at code operandCursor in
            let displacement := signed 8 byte36 in
            let operandCursor := size_add operandCursor 1 in
            Ok (displacement, operandCursor)
          else Ok (displacement, operandCursor)) in
      let! _ :=
        (if ripRelative then
          let! _ := relativeTarget address (size_sub operandCursor 0) displacement in
          Ok tt
         else
          Ok tt) in
      let instruction := with_opcode X_CmovccRegMem instruction in
      let instruction := push_operand (MemoryOp (mkMemory (if ripRelative then Rax else base) displacement 32
          index scale hasBase ripRelative Segment_None)) instruction in
      Ok (instruction, operandCursor)) in
  let len := size_sub operandCursor 0 in
  let instruction := with_length (u8 len) instruction in
  let! instruction := copy_bytes code 0 len instruction in
  Ok (inl instruction).

Definition decodeExtended_ImulRegReg (cursor : Z) (instruction : DecodedInstruction) : outcome Recognition :=
  let! modrm := code_at code (size_add cursor 2) in
  let mode := Z.land (Z.shiftr modrm 6) 3 in
  let regEncoding := Z.land (Z.shiftr modrm 3) 7 in
  let rmEncoding := Z.land modrm 7 in
  if mode =? 3 then
    let instruction := with_opcode X_ImulRegReg instruction in
    let instruction := with_length 3 instruction in
    let! instruction := copy_bytes code cursor 3 instruction in
    let! register41 := decodeRegister regEncoding false in
    let instruction := push_operand (RegisterOperand register41 32 0) instruction in
    let! register42 := decodeRegister rmEncoding false in
    let instruction := push_operand (RegisterOperand register42 32 0) instruction in
    Ok (inl instruction)
  else
  let ripRelative := (mode =? 0) && (rmEncoding =? 5) in
  let operandCursor := size_add cursor 3 in
  let baseEncoding := rmEncoding in
  let index := None in
  let scale := 1 in
  let! (operandCursor, baseEncoding, index, scale) : cursor_in 3 4 * within 0 7 * option Register * one_of [1;
      2; 4; 8] :=
    (if negb ripRelative && (rmEncoding =? 4) then
      if zlength code <=? operandCursor then
        reject code address "truncated IMUL r32 memory SIB"
      else
      let! sib := code_at code operandCursor in
      let operandCursor := size_add operandCursor 1 in
      let scaleBits := Z.land (Z.shiftr sib 6) 3 in
      let indexEncoding := Z.land (Z.shiftr sib 3) 7 in
      let baseEncoding := Z.land sib 7 in
      if (mode =? 0) && (baseEncoding =? 5) then
        reject code address "no-base IMUL r32 memory SIB is not supported"
      else if negb (indexEncoding =? 4) then
        let! register44 := decodeRegister indexEncoding false in
        let index := Some register44 in
        let scale := Z.shiftl 1 scaleBits in
        Ok (operandCursor, baseEncoding, index, scale)
      else Ok (operandCursor, baseEncoding, index, scale)
     else
      Ok (operandCursor, baseEncoding, index, scale)) in
  let displacement := 0 in
  let! (displacement, operandCursor) : within (- 2 ^ 31) (2 ^ 31 - 1) * cursor_in 3 8 :=
    (if mode =? 1 then
      if zlength code <=? operandCursor then
        reject code address "truncated IMUL r32 memory disp8"
      else
      let! byte45 := code_at code operandCursor in
      let displacement := signed 8 byte45 in
      let operandCursor := size_add operandCursor 1 in
      Ok (displacement, operandCursor)
     else
      if (mode =? 2) || ripRelative then
        if size_sub (zlength code) operandCursor <? 4 then
          reject code address "truncated IMUL r32 memory disp32"
        else
        let! span46 := subspan code operandCursor 4 in
        let! displacement := readI32 span46 in
        let operandCursor := size_add operandCursor 4 in
        Ok (displacement, operandCursor)
      else Ok (displacement, operandCursor)) in
  let! _ :=
    (if ripRelative then
      let! _ := relativeTarget address (size_sub operandCursor 0) displacement in
      Ok tt
     else
      Ok tt) in
  let instruction := with_opcode X_ImulRegMem instruction in
  let! register49 := decodeRegister regEncoding false in
  let instruction := push_operand (RegisterOperand register49 32 0) instruction in
  let! choice50 : MemoryOperand := (if ripRelative then Ok (mkMemory Rax displacement 32 None 1 false true
      Segment_None) else (let! register51 := decodeRegister baseEncoding false in Ok (mkMemory register51
      displacement 32 index scale true false Segment_None))) in
  let instruction := push_operand (MemoryOp choice50) instruction in
  let len := size_sub operandCursor 0 in
  let instruction := with_length (u8 len) instruction in
  let! instruction := copy_bytes code 0 len instruction in
  Ok (inl instruction).

Definition decodeExtended_SidtMem_2 (cursor : Z) (instruction : DecodedInstruction) : outcome Recognition :=
  let! test3 := (if 3 <=? size_sub (zlength code) cursor then (let! byte2 := code_at code (size_add cursor 1)
      in Ok (byte2 =? 1)) else Ok false) in
  if test3 then
    let! modrm := code_at code (size_add cursor 2) in
    let mode := Z.land (Z.shiftr modrm 6) 3 in
    let extension := Z.land (Z.shiftr modrm 3) 7 in
    let rmEncoding := Z.land modrm 7 in
    if (mode =? 3) || negb (extension =? 1) || ((mode =? 0) && (rmEncoding =? 5)) then
      reject code address "only based no-index SIDT memory operands are supported from opcode 0F 01 /1"
    else
    let operandCursor := size_add cursor 3 in
    let baseEncoding := rmEncoding in
    let! (operandCursor, baseEncoding) : cursor_in 3 4 * within 0 7 :=
      (if rmEncoding =? 4 then
        if zlength code <=? operandCursor then
          reject code address "truncated SIDT SIB byte"
        else
        let! sib := code_at code operandCursor in
        let operandCursor := size_add operandCursor 1 in
        let scaleBits := Z.land (Z.shiftr sib 6) 3 in
        let indexEncoding := Z.land (Z.shiftr sib 3) 7 in
        let baseEncoding := Z.land sib 7 in
        if negb (scaleBits =? 0) || negb (indexEncoding =? 4) || ((mode =? 0) && (baseEncoding =? 5)) then
          reject code address "only based no-index SIDT SIB operands are supported"
        else Ok (operandCursor, baseEncoding)
       else
        Ok (operandCursor, baseEncoding)) in
    let displacement := 0 in
    let! (displacement, operandCursor) : within (- 2 ^ 31) (2 ^ 31 - 1) * cursor_in 3 8 :=
      (if mode =? 1 then
        if zlength code <=? operandCursor then
          reject code address "truncated SIDT disp8"
        else
        let! byte6 := code_at code operandCursor in
        let displacement := signed 8 byte6 in
        let operandCursor := size_add operandCursor 1 in
        Ok (displacement, operandCursor)
       else
        if mode =? 2 then
          if size_sub (zlength code) operandCursor <? 4 then
            reject code address "truncated SIDT disp32"
          else
          let! span7 := subspan code operandCursor 4 in
          let! displacement := readI32 span7 in
          let operandCursor := size_add operandCursor 4 in
          Ok (displacement, operandCursor)
        else Ok (displacement, operandCursor)) in
    let len := size_sub operandCursor cursor in
    let instruction := with_opcode X_SidtMem instruction in
    let instruction := with_length (u8 len) instruction in
    let! instruction := copy_bytes code cursor len instruction in
    let! register9 := decodeRegister baseEncoding false in
    let instruction := push_operand (MemoryOp (mkMemory register9 displacement 80 None 1 true false
        Segment_None)) instruction in
    Ok (inl instruction)
  else
  let! test11 := (if 2 <=? size_sub (zlength code) cursor then (let! byte10 := code_at code (size_add cursor 1)
      in Ok (byte10 =? 0xA3)) else Ok false) in
  if test11 then
    if size_sub (zlength code) cursor <? 3 then
      reject code address "truncated BT r32, r32"
    else
    let! modrm := code_at code (size_add cursor 2) in
    let mode := Z.land (Z.shiftr modrm 6) 3 in
    if negb (mode =? 3) then
      reject code address "only register-direct BT r32, r32 is supported"
    else
    let instruction := with_opcode X_BitTestRegReg instruction in
    let instruction := with_length 3 instruction in
    let! instruction := copy_bytes code cursor 3 instruction in
    let! register13 := decodeRegister (Z.land modrm 7) false in
    let instruction := push_operand (RegisterOperand register13 32 0) instruction in
    let! register14 := decodeRegister (Z.land (Z.shiftr modrm 3) 7) false in
    let instruction := push_operand (RegisterOperand register14 32 0) instruction in
    Ok (inl instruction)
  else
  let! test16 := (if 2 <=? size_sub (zlength code) cursor then (let! byte15 := code_at code (size_add cursor 1)
      in Ok (byte15 =? 0xBA)) else Ok false) in
  if test16 then
    if size_sub (zlength code) cursor <? 3 then
      reject code address "truncated BT r/m32, imm8"
    else
    let! modrm := code_at code (size_add cursor 2) in
    let mode := Z.land (Z.shiftr modrm 6) 3 in
    let extension := Z.land (Z.shiftr modrm 3) 7 in
    let rmEncoding := Z.land modrm 7 in
    if negb (extension =? 4) || (negb (mode =? 3) && ((rmEncoding =? 4) || ((mode =? 0) && (rmEncoding =? 5))))
        then
      reject code address "only BT r32 or dword [base+disp8/disp32], imm8 is supported from 0F BA"
    else
    let operandCursor := size_add cursor 3 in
    let displacement := 0 in
    let! (displacement, operandCursor) : within (- 2 ^ 31) (2 ^ 31 - 1) * cursor_in 3 7 :=
      (if mode =? 1 then
        if zlength code <=? operandCursor then
          reject code address "truncated BT dword disp8"
        else
        let! byte18 := code_at code operandCursor in
        let displacement := signed 8 byte18 in
        let operandCursor := size_add operandCursor 1 in
        Ok (displacement, operandCursor)
       else
        if mode =? 2 then
          if size_sub (zlength code) operandCursor <? 4 then
            reject code address "truncated BT dword disp32"
          else
          let! span19 := subspan code operandCursor 4 in
          let! displacement := readI32 span19 in
          let operandCursor := size_add operandCursor 4 in
          Ok (displacement, operandCursor)
        else Ok (displacement, operandCursor)) in
    if zlength code <=? operandCursor then
      reject code address "truncated BT r/m32 immediate"
    else
    let! immediate := code_at code operandCursor in
    let operandCursor := size_add operandCursor 1 in
    let instruction := with_opcode (if mode =? 3 then X_BitTestRegImm else X_BitTestMemImm) instruction in
    let instruction := with_length (u8 (size_sub operandCursor cursor)) instruction in
    let! instruction := copy_bytes code cursor (d_length instruction) instruction in
    let! instruction : DecodedInstruction :=
      (if mode =? 3 then
        let! register22 := decodeRegister rmEncoding false in
        let instruction := push_operand (RegisterOperand register22 32 0) instruction in
        Ok instruction
       else
        let! register23 := decodeRegister rmEncoding false in
        let instruction := push_operand (MemoryOp (mkMemory register23 displacement 32 None 1 true false
            Segment_None)) instruction in
        Ok instruction) in
    let instruction := push_operand (ImmediateOperand immediate 8) instruction in
    Ok (inl instruction)
  else
  let! test25 := (if 3 <=? size_sub (zlength code) cursor then (let! byte24 := code_at code (size_add cursor 1)
      in Ok ((byte24 =? 0x40) || (byte24 =? 0x42) || (byte24 =? 0x43) || (byte24 =? 0x44) || (byte24 =? 0x45)
      || (byte24 =? 0x46) || (byte24 =? 0x47) || (byte24 =? 0x48) || (byte24 =? 0x49) || (byte24 =? 0x4C) ||
      (byte24 =? 0x4D) || (byte24 =? 0x4E) || (byte24 =? 0x4F))) else Ok false) in
  if test25 then
    decodeExtended_CmovccReg cursor instruction
  else
  let! test39 := (if 3 <=? size_sub (zlength code) cursor then (let! byte38 := code_at code (size_add cursor 1)
      in Ok (byte38 =? 0xAF)) else Ok false) in
  if test39 then
    decodeExtended_ImulRegReg cursor instruction
  else
  let! test53 := (if size_sub (zlength code) cursor <? 6 then Ok true else (let! byte52 := code_at code
      (size_add cursor 1) in Ok (negb (byte52 =? 0x80) && negb (byte52 =? 0x81) && negb (byte52 =? 0x82) &&
      negb (byte52 =? 0x83) && negb (byte52 =? 0x84) && negb (byte52 =? 0x85) && negb (byte52 =? 0x86) && negb
      (byte52 =? 0x87) && negb (byte52 =? 0x88) && negb (byte52 =? 0x89) && negb (byte52 =? 0x8A) && negb
      (byte52 =? 0x8B) && negb (byte52 =? 0x8C) && negb (byte52 =? 0x8D) && negb (byte52 =? 0x8E) && negb
      (byte52 =? 0x8F)))) in
  if test53 then
    reject code address "only JO/JNO/JB/JAE/JE/JNE/JBE/JA/JS/JNS/JP/JNP/JL/JGE/JLE/JG rel32 from opcode 0F is supported"
  else
  let! secondOpcode := code_at code (size_add cursor 1) in
  let! span55 := subspan code (size_add cursor 2) 4 in
  let! displacement := readI32 span55 in
  let instruction := with_opcode X_JccRelative instruction in
  let instruction := with_condition (if secondOpcode =? 0x80 then Cond_Overflow else if secondOpcode =? 0x81
      then Cond_NotOverflow else if secondOpcode =? 0x82 then Cond_Below else if secondOpcode =? 0x83 then
      Cond_AboveOrEqual else if secondOpcode =? 0x84 then Cond_Equal else if secondOpcode =? 0x85 then
      Cond_NotEqual else if secondOpcode =? 0x86 then Cond_BelowOrEqual else if secondOpcode =? 0x87 then
      Cond_Above else if secondOpcode =? 0x88 then Cond_Sign else if secondOpcode =? 0x89 then Cond_NotSign
      else if secondOpcode =? 0x8A then Cond_ParityEven else if secondOpcode =? 0x8B then Cond_ParityOdd else
      if secondOpcode =? 0x8C then Cond_Less else if secondOpcode =? 0x8D then Cond_GreaterOrEqual else if
      secondOpcode =? 0x8E then Cond_LessOrEqual else Cond_Greater) instruction in
  let instruction := with_length 6 instruction in
  let! instruction := copy_bytes code cursor 6 instruction in
  let! target57 := relativeTarget address 6 displacement in
  let instruction := with_branchTarget target57 instruction in
  let instruction := with_fallthrough (u64 (address + 6)) instruction in
  Ok (inl instruction).

Definition decodeExtended_SidtMem (cursor : Z) (instruction : DecodedInstruction) : outcome Recognition :=
  let! byte1 := code_at code cursor in
  if byte1 =? 0xF then
    decodeExtended_SidtMem_2 cursor instruction
  else Ok (inr (cursor, instruction)).

Definition decodeExtended_MovRegImm (cursor : Z) (instruction : DecodedInstruction) : outcome Recognition :=
  let! byte58 := code_at code cursor in
  if byte58 =? 0x66 then
    let operandCursor := size_add cursor 1 in
    if zlength code <=? operandCursor then
      reject code address "truncated after operand-size override"
    else
    let! byte59 := code_at code operandCursor in
    let hasOperandRex := (0x40 <=? byte59) && (byte59 <=? 0x4F) in
    let! (choice60, operandCursor) : within 0 255 * cursor_in 1 2 := (if hasOperandRex then Ok (byte59,
        size_add operandCursor 1) else Ok (0, operandCursor)) in
    let operandRex := choice60 in
    let! test62 := (if (operandCursor <? zlength code) && (Z.land operandRex 8 =? 0) then (let! byte61 :=
        code_at code operandCursor in Ok ((0xB8 <=? byte61) && (byte61 <=? 0xBF))) else Ok false) in
    if test62 then
      let! movOpcode := code_at code operandCursor in
      let operandCursor := size_add operandCursor 1 in
      if size_sub (zlength code) operandCursor <? 2 then
        reject code address "truncated mov r16, imm16"
      else
      let! byte64 := code_at code operandCursor in
      let! byte65 := code_at code (size_add operandCursor 1) in
      let immediate := Z.lor byte64 (Z.shiftl byte65 8) in
      let operandCursor := size_add operandCursor 2 in
      let instruction := with_opcode X_MovRegImm instruction in
      let! register66 := decodeRegister (u8 (u32 (movOpcode - 0xB8))) (negb (Z.land operandRex 1 =? 0)) in
      let instruction := push_operand (RegisterOperand register66 16 0) instruction in
      let instruction := push_operand (ImmediateOperand immediate 16) instruction in
      let len := size_sub operandCursor 0 in
      let instruction := with_length (u8 len) instruction in
      let! instruction := copy_bytes code 0 len instruction in
      Ok (inl instruction)
    else Ok (inr (cursor, instruction))
  else Ok (inr (cursor, instruction)).

Definition decodeExtended (cursor : Z) (instruction : DecodedInstruction) : outcome Recognition :=
  next! (cursor, instruction) := decodeExtended_SidtMem cursor instruction in
  decodeExtended_MovRegImm cursor instruction.

End Decode.
