(* ===== verification/DecodeAtomic.v ===== *)
(** Recognition family [decodeAtomic] ([src/x86/DecodeAtomic.cpp]): LOCK-prefixed instructions, XADD, CMPXCHG, CMPXCHG16B.

    Each definition is one group of statements of the C++ function, in its order; it
    recognises an instruction ([inl]), rejects the bytes, or leaves the cursor and the
    instruction to the next group ([inr]). *)
From S2P Require Import Prelude X86State ExecutionContext IR X86Instruction DecodeBase.

Section Decode.
Context (code : list Z) (address : Z).

Definition decodeAtomic_LockAddMemReg (cursor : Z) (instruction : DecodedInstruction) : outcome Recognition :=
  let! byte1 := code_at code cursor in
  let! test5 := (if (byte1 =? 0xF0) && (3 <=? size_sub (zlength code) cursor) then (let! byte2 := code_at code
      (size_add cursor 1) in let! test4 := (if (0x48 <=? byte2) && (byte2 <=? 0x4F) && negb (Z.land byte2 8 =?
      0) then (let! byte3 := code_at code (size_add cursor 2) in Ok (byte3 =? 1)) else Ok false) in Ok test4)
      else Ok false) in
  if test5 then
    let! rex := code_at code (size_add cursor 1) in
    let rexR := negb (Z.land rex 4 =? 0) in
    let rexB := negb (Z.land rex 1 =? 0) in
    let cursor := size_add cursor 3 in
    if zlength code <=? cursor then
      reject code address "truncated LOCK ADD qword memory operand"
    else
    let! modrm := code_at code cursor in
    let cursor := size_add cursor 1 in
    let mode := Z.land (Z.shiftr modrm 6) 3 in
    let regEncoding := Z.land (Z.shiftr modrm 3) 7 in
    let rmEncoding := Z.land modrm 7 in
    let ripRelative := (mode =? 0) && (rmEncoding =? 5) in
    if (mode =? 3) || (rmEncoding =? 4) then
      reject code address "only LOCK ADD qword [base/RIP+disp8/disp32], r64 is supported"
    else
    let displacement := 0 in
    let! (displacement, cursor) : within (- 2 ^ 31) (2 ^ 31 - 1) * cursor_in 4 8 :=
      (if ripRelative then
        if size_sub (zlength code) cursor <? 4 then
          reject code address "truncated RIP-relative LOCK ADD disp32"
        else
        let! span8 := subspan code cursor 4 in
        let! displacement := readI32 span8 in
        let cursor := size_add cursor 4 in
        Ok (displacement, cursor)
       else
        if mode =? 1 then
          if zlength code <=? cursor then
            reject code address "truncated LOCK ADD disp8"
          else
          let! byte10 := code_at code cursor in
          let displacement := signed 8 byte10 in
          let cursor := size_add cursor 1 in
          Ok (displacement, cursor)
        else if mode =? 2 then
          if size_sub (zlength code) cursor <? 4 then
            reject code address "truncated LOCK ADD disp32"
          else
          let! span11 := subspan code cursor 4 in
          let! displacement := readI32 span11 in
          let cursor := size_add cursor 4 in
          Ok (displacement, cursor)
        else Ok (displacement, cursor)) in
    let! _ :=
      (if ripRelative then
        let! _ := relativeTarget address (size_sub cursor 0) displacement in
        Ok tt
       else
        Ok tt) in
    let instruction := with_opcode X_LockAddMemReg instruction in
    let! choice14 : MemoryOperand := (if ripRelative then Ok (mkMemory Rax displacement 64 None 1 false true
        Segment_None) else (let! register15 := decodeRegister rmEncoding rexB in Ok (mkMemory register15
        displacement 64 None 1 true false Segment_None))) in
    let instruction := push_operand (MemoryOp choice14) instruction in
    let! register16 := decodeRegister regEncoding rexR in
    let instruction := push_operand (RegisterOperand register16 64 0) instruction in
    let len := size_sub cursor 0 in
    let instruction := with_length (u8 len) instruction in
    let! instruction := copy_bytes code 0 len instruction in
    Ok (inl instruction)
  else Ok (inr (cursor, instruction)).

Definition decodeAtomic_LockOrMemImm (cursor : Z) (instruction : DecodedInstruction) : outcome Recognition :=
  let! wordLockOrHasRex := (if 4 <=? size_sub (zlength code) cursor then (let! byte17 := code_at code cursor in
      let! test23 := (if byte17 =? 0x66 then (let! byte18 := code_at code (size_add cursor 1) in let! test22 :=
      (if byte18 =? 0xF0 then (let! byte19 := code_at code (size_add cursor 2) in let! test21 := (if (0x40 <=?
      byte19) && (byte19 <=? 0x4F) then (let! byte20 := code_at code (size_add cursor 3) in Ok ((byte20 =?
      0x81) || (byte20 =? 0x83))) else Ok false) in Ok test21) else Ok false) in Ok test22) else Ok false) in
      Ok test23) else Ok false) in
  let! wordLockOrWithoutRex := (if 3 <=? size_sub (zlength code) cursor then (let! byte25 := code_at code
      cursor in let! test29 := (if byte25 =? 0x66 then (let! byte26 := code_at code (size_add cursor 1) in let!
      test28 := (if byte26 =? 0xF0 then (let! byte27 := code_at code (size_add cursor 2) in Ok ((byte27 =?
      0x81) || (byte27 =? 0x83))) else Ok false) in Ok test28) else Ok false) in Ok test29) else Ok false) in
  if wordLockOrHasRex || wordLockOrWithoutRex then
    let! rex : within 0 255 := (if wordLockOrHasRex then (let! byte32 := code_at code (size_add cursor 2) in Ok
        byte32) else Ok 0) in
    let! immediateOpcode := code_at code (size_add cursor (if wordLockOrHasRex then 3 else 2)) in
    if negb (Z.land rex 8 =? 0) then
      reject code address "REX.W is invalid for word LOCK OR"
    else
    let cursor := size_add cursor (if wordLockOrHasRex then 4 else 3) in
    if zlength code <=? cursor then
      reject code address "truncated word LOCK OR memory operand"
    else
    let! modrm := code_at code cursor in
    let cursor := size_add cursor 1 in
    let mode := Z.land (Z.shiftr modrm 6) 3 in
    let extension := Z.land (Z.shiftr modrm 3) 7 in
    let rmEncoding := Z.land modrm 7 in
    if (mode =? 3) || (negb (extension =? 1) && negb (extension =? 4)) || ((mode =? 0) && (rmEncoding =? 5))
        then
      reject code address "only word LOCK OR/AND [base+disp8/disp32], imm8/imm16 is supported"
    else
    let! base := decodeRegister rmEncoding (negb (Z.land rex 1 =? 0)) in
    let! (cursor, base) : cursor_in 4 6 * Register :=
      (if rmEncoding =? 4 then
        if zlength code <=? cursor then
          reject code address "truncated word LOCK OR SIB"
        else
        let! sib := code_at code cursor in
        let cursor := size_add cursor 1 in
        let indexEncoding := Z.land (Z.shiftr sib 3) 7 in
        let baseEncoding := Z.land sib 7 in
        if negb (indexEncoding =? 4) || negb (Z.land rex 2 =? 0) || ((mode =? 0) && (baseEncoding =? 5)) then
          reject code address "only no-index, based SIB is supported for word LOCK OR/AND"
        else
        let! base := decodeRegister baseEncoding (negb (Z.land rex 1 =? 0)) in
        Ok (cursor, base)
       else
        Ok (cursor, base)) in
    let displacement := 0 in
    let! (displacement, cursor) : within (- 2 ^ 31) (2 ^ 31 - 1) * cursor_in 4 10 :=
      (if mode =? 1 then
        if zlength code <=? cursor then
          reject code address "truncated word LOCK OR disp8"
        else
        let! byte38 := code_at code cursor in
        let displacement := signed 8 byte38 in
        let cursor := size_add cursor 1 in
        Ok (displacement, cursor)
       else
        if mode =? 2 then
          if size_sub (zlength code) cursor <? 4 then
            reject code address "truncated word LOCK OR disp32"
          else
          let! span39 := subspan code cursor 4 in
          let! displacement := readI32 span39 in
          let cursor := size_add cursor 4 in
          Ok (displacement, cursor)
        else Ok (displacement, cursor)) in
    let immediate := 0 in
    let immediateWidth := 0 in
    let! (immediate, cursor, immediateWidth) : within 0 (2 ^ 64 - 1) * cursor_in 5 12 * one_of [8; 16] :=
      (if immediateOpcode =? 0x83 then
        if zlength code <=? cursor then
          reject code address "truncated word LOCK OR imm8"
        else
        let! byte41 := code_at code cursor in
        let immediate := u64 (signed 8 byte41) in
        let cursor := size_add cursor 1 in
        let immediateWidth := 8 in
        Ok (immediate, cursor, immediateWidth)
       else
        if size_sub (zlength code) cursor <? 2 then
          reject code address "truncated word LOCK OR/AND imm16"
        else
        let! byte42 := code_at code cursor in
        let! byte43 := code_at code (size_add cursor 1) in
        let immediate := Z.lor byte42 (Z.shiftl byte43 8) in
        let cursor := size_add cursor 2 in
        let immediateWidth := 16 in
        Ok (immediate, cursor, immediateWidth)) in
    let instruction := with_opcode (if extension =? 1 then X_LockOrMemImm else X_LockAndMemImm) instruction in
    let instruction := push_operand (MemoryOp (mkMemory base displacement 16 None 1 true false Segment_None))
        instruction in
    let instruction := push_operand (ImmediateOperand immediate immediateWidth) instruction in
    let len := size_sub cursor 0 in
    let instruction := with_length (u8 len) instruction in
    let! instruction := copy_bytes code 0 len instruction in
    Ok (inl instruction)
  else Ok (inr (cursor, instruction)).

Definition decodeAtomic_LockOrMemImm_2 (cursor : Z) (instruction : DecodedInstruction) : outcome Recognition :=
  let! hasLockImmRex := (if 3 <=? size_sub (zlength code) cursor then (let! byte44 := code_at code cursor in
      let! test46 := (if byte44 =? 0xF0 then (let! byte45 := code_at code (size_add cursor 1) in Ok ((0x40 <=?
      byte45) && (byte45 <=? 0x4F))) else Ok false) in Ok test46) else Ok false) in
  let lockImmOpcodeOffset := size_add cursor (if hasLockImmRex then 2 else 1) in
  let! byte48 := code_at code cursor in
  let! isLockImmOrAnd := (if (byte48 =? 0xF0) && (1 <=? size_sub (zlength code) lockImmOpcodeOffset) then (let!
      byte49 := code_at code lockImmOpcodeOffset in Ok ((byte49 =? 0x80) || (byte49 =? 0x81) || (byte49 =?
      0x83))) else Ok false) in
  if isLockImmOrAnd then
    let! immediateOpcode := code_at code lockImmOpcodeOffset in
    let! lockImmRex : within 0 255 := (if hasLockImmRex then (let! byte53 := code_at code (size_add cursor 1)
        in Ok byte53) else Ok 0) in
    let lockImmRexW := negb (Z.land lockImmRex 8 =? 0) in
    let lockImmRexB := negb (Z.land lockImmRex 1 =? 0) in
    if negb (Z.land lockImmRex 6 =? 0) || ((immediateOpcode =? 0x80) && lockImmRexW) then
      reject code address "LOCK OR/AND immediate does not support REX.R/X"
    else
    let cursor := size_add lockImmOpcodeOffset 1 in
    if zlength code <=? cursor then
      reject code address "truncated LOCK OR memory operand"
    else
    let! modrm := code_at code cursor in
    let cursor := size_add cursor 1 in
    let mode := Z.land (Z.shiftr modrm 6) 3 in
    let extension := Z.land (Z.shiftr modrm 3) 7 in
    let rmEncoding := Z.land modrm 7 in
    let ripRelative := (mode =? 0) && (rmEncoding =? 5) in
    if (mode =? 3) || (negb (extension =? 1) && negb (extension =? 4)) || (ripRelative && lockImmRexB) then
      reject code address "only LOCK OR/AND byte/dword/qword [base/RIP+disp8/disp32], imm8/imm32 is supported"
    else
    let lockImmWidth := if immediateOpcode =? 0x80 then 8 else if lockImmRexW then 64 else 32 in
    let! base := decodeRegister rmEncoding lockImmRexB in
    let! (cursor, base) : cursor_in 3 5 * Register :=
      (if rmEncoding =? 4 then
        if zlength code <=? cursor then
          reject code address "truncated LOCK OR SIB"
        else
        let! sib := code_at code cursor in
        let cursor := size_add cursor 1 in
        let indexEncoding := Z.land (Z.shiftr sib 3) 7 in
        let baseEncoding := Z.land sib 7 in
        if negb (indexEncoding =? 4) || ((mode =? 0) && (baseEncoding =? 5)) then
          reject code address "only no-index, based SIB is supported for LOCK OR"
        else
        let! base := decodeRegister baseEncoding lockImmRexB in
        Ok (cursor, base)
       else
        Ok (cursor, base)) in
    let displacement := 0 in
    let! (displacement, cursor) : within (- 2 ^ 31) (2 ^ 31 - 1) * cursor_in 3 9 :=
      (if ripRelative || (mode =? 2) then
        if size_sub (zlength code) cursor <? 4 then
          reject code address "truncated LOCK OR disp32"
        else
        let! span58 := subspan code cursor 4 in
        let! displacement := readI32 span58 in
        let cursor := size_add cursor 4 in
        Ok (displacement, cursor)
       else
        if mode =? 1 then
          if zlength code <=? cursor then
            reject code address "truncated LOCK OR disp8"
          else
          let! byte60 := code_at code cursor in
          let displacement := signed 8 byte60 in
          let cursor := size_add cursor 1 in
          Ok (displacement, cursor)
        else Ok (displacement, cursor)) in
    let! _ :=
      (if ripRelative then
        let! _ := relativeTarget address (size_sub cursor 0) displacement in
        Ok tt
       else
        Ok tt) in
    let immediate := 0 in
    let immediateWidth := 0 in
    let! (immediate, cursor, immediateWidth) : within 0 (2 ^ 64 - 1) * cursor_in 4 13 * one_of [8; 32] :=
      (if (immediateOpcode =? 0x83) || (immediateOpcode =? 0x80) then
        if zlength code <=? cursor then
          reject code address "truncated LOCK OR imm8"
        else
        let! byte62 := code_at code cursor in
        let immediate := u64 (signed 8 byte62) in
        let cursor := size_add cursor 1 in
        let immediateWidth := 8 in
        Ok (immediate, cursor, immediateWidth)
       else
        if size_sub (zlength code) cursor <? 4 then
          reject code address "truncated LOCK OR imm32"
        else
        let! byte63 := code_at code cursor in
        let! byte64 := code_at code (size_add cursor 1) in
        let! byte65 := code_at code (size_add cursor 2) in
        let! byte66 := code_at code (size_add cursor 3) in
        let immediate := Z.lor (Z.lor (Z.lor byte63 (Z.shiftl byte64 8)) (Z.shiftl byte65 16)) (Z.shiftl byte66
            24) in
        let cursor := size_add cursor 4 in
        let immediateWidth := 32 in
        Ok (immediate, cursor, immediateWidth)) in
    let instruction := with_opcode (if extension =? 1 then X_LockOrMemImm else X_LockAndMemImm) instruction in
    let instruction := push_operand (MemoryOp (if ripRelative then mkMemory Rax displacement lockImmWidth None
        1 false true Segment_None else mkMemory base displacement lockImmWidth None 1 true false Segment_None))
        instruction in
    let instruction := push_operand (ImmediateOperand immediate immediateWidth) instruction in
    let len := size_sub cursor 0 in
    let instruction := with_length (u8 len) instruction in
    let! instruction := copy_bytes code 0 len instruction in
    Ok (inl instruction)
  else Ok (inr (cursor, instruction)).

Definition decodeAtomic_LockIncMem (cursor : Z) (instruction : DecodedInstruction) : outcome Recognition :=
  let! byte67 := code_at code cursor in
  let! test69 := (if (byte67 =? 0xF0) && (2 <=? size_sub (zlength code) cursor) then (let! byte68 := code_at
      code (size_add cursor 1) in Ok (byte68 =? 0xFF)) else Ok false) in
  if test69 then
    let cursor := size_add cursor 2 in
    if zlength code <=? cursor then
      reject code address "truncated LOCK INC/DEC memory operand"
    else
    let! modrm := code_at code cursor in
    let cursor := size_add cursor 1 in
    let mode := Z.land (Z.shiftr modrm 6) 3 in
    let extension := Z.land (Z.shiftr modrm 3) 7 in
    let rmEncoding := Z.land modrm 7 in
    let ripRelative := (mode =? 0) && (rmEncoding =? 5) in
    if (mode =? 3) || (1 <? extension) || (rmEncoding =? 4) then
      reject code address "only LOCK INC/DEC dword [base/RIP+disp8/disp32] is supported"
    else
    let displacement := 0 in
    let! (displacement, cursor) : within (- 2 ^ 31) (2 ^ 31 - 1) * cursor_in 3 7 :=
      (if ripRelative then
        if size_sub (zlength code) cursor <? 4 then
          reject code address "truncated RIP-relative LOCK INC/DEC disp32"
        else
        let! span71 := subspan code cursor 4 in
        let! displacement := readI32 span71 in
        let cursor := size_add cursor 4 in
        let! _ := relativeTarget address (size_sub cursor 0) displacement in
        Ok (displacement, cursor)
       else
        if mode =? 1 then
          if zlength code <=? cursor then
            reject code address "truncated LOCK INC/DEC disp8"
          else
          let! byte74 := code_at code cursor in
          let displacement := signed 8 byte74 in
          let cursor := size_add cursor 1 in
          Ok (displacement, cursor)
        else if mode =? 2 then
          if size_sub (zlength code) cursor <? 4 then
            reject code address "truncated LOCK INC/DEC disp32"
          else
          let! span75 := subspan code cursor 4 in
          let! displacement := readI32 span75 in
          let cursor := size_add cursor 4 in
          Ok (displacement, cursor)
        else Ok (displacement, cursor)) in
    let instruction := with_opcode (if extension =? 0 then X_LockIncMem else X_LockDecMem) instruction in
    let! choice77 : MemoryOperand := (if ripRelative then Ok (mkMemory Rax displacement 32 None 1 false true
        Segment_None) else (let! register78 := decodeRegister rmEncoding false in Ok (mkMemory register78
        displacement 32 None 1 true false Segment_None))) in
    let instruction := push_operand (MemoryOp choice77) instruction in
    let len := size_sub cursor 0 in
    let instruction := with_length (u8 len) instruction in
    let! instruction := copy_bytes code 0 len instruction in
    Ok (inl instruction)
  else Ok (inr (cursor, instruction)).

Definition decodeAtomic_Cmpxchg16bMem (cursor : Z) (instruction : DecodedInstruction) : outcome Recognition :=
  let! byte79 := code_at code cursor in
  let! test85 := (if (byte79 =? 0xF0) && (4 <=? size_sub (zlength code) cursor) then (let! byte80 := code_at
      code (size_add cursor 1) in let! test84 := (if (0x48 <=? byte80) && (byte80 <=? 0x4F) then (let! byte81
      := code_at code (size_add cursor 2) in let! test83 := (if byte81 =? 0xF then (let! byte82 := code_at code
      (size_add cursor 3) in Ok (byte82 =? 0xC7)) else Ok false) in Ok test83) else Ok false) in Ok test84)
      else Ok false) in
  if test85 then
    if size_sub (zlength code) cursor <? 5 then
      reject code address "truncated LOCK CMPXCHG16B memory operand"
    else
    let! rex := code_at code (size_add cursor 1) in
    let rexB := negb (Z.land rex 1 =? 0) in
    let! modrm := code_at code (size_add cursor 4) in
    let mode := Z.land (Z.shiftr modrm 6) 3 in
    let extension := Z.land (Z.shiftr modrm 3) 7 in
    let rmEncoding := Z.land modrm 7 in
    let ripRelative := (mode =? 0) && (rmEncoding =? 5) && negb rexB in
    if (2 <? mode) || negb (extension =? 1) || (rmEncoding =? 4) || ((mode =? 0) && (rmEncoding =? 5) && rexB)
        then
      reject code address "only LOCK CMPXCHG16B [base+disp8/disp32/RIP] is supported"
    else
    let cursor := size_add cursor 5 in
    let displacement := 0 in
    let! (displacement, cursor) : within (- 2 ^ 31) (2 ^ 31 - 1) * cursor_in 5 9 :=
      (if mode =? 1 then
        if zlength code <=? cursor then
          reject code address "truncated LOCK CMPXCHG16B disp8"
        else
        let! byte88 := code_at code cursor in
        let displacement := signed 8 byte88 in
        let cursor := size_add cursor 1 in
        Ok (displacement, cursor)
       else
        if (mode =? 2) || ripRelative then
          if size_sub (zlength code) cursor <? 4 then
            reject code address "truncated LOCK CMPXCHG16B disp32"
          else
          let! span89 := subspan code cursor 4 in
          let! displacement := readI32 span89 in
          let cursor := size_add cursor 4 in
          Ok (displacement, cursor)
        else Ok (displacement, cursor)) in
    let! _ :=
      (if ripRelative then
        let! _ := relativeTarget address (size_sub cursor 0) displacement in
        Ok tt
       else
        Ok tt) in
    let instruction := with_opcode X_Cmpxchg16bMem instruction in
    let! choice92 : MemoryOperand := (if ripRelative then Ok (mkMemory Rax displacement 128 None 1 false true
        Segment_None) else (let! register93 := decodeRegister rmEncoding rexB in Ok (mkMemory register93
        displacement 128 None 1 true false Segment_None))) in
    let instruction := push_operand (MemoryOp choice92) instruction in
    let len := size_sub cursor 0 in
    let instruction := with_length (u8 len) instruction in
    let! instruction := copy_bytes code 0 len instruction in
    Ok (inl instruction)
  else Ok (inr (cursor, instruction)).

Definition decodeAtomic_LockXaddMemReg (cursor : Z) (instruction : DecodedInstruction) : outcome Recognition :=
  let xaddCursor := cursor in
  let! hasXaddSizePrefix := (if xaddCursor <? zlength code then (let! byte94 := code_at code xaddCursor in Ok
      (byte94 =? 0x66)) else Ok false) in
  let xaddCursor :=
    (if hasXaddSizePrefix then
      let xaddCursor := size_add xaddCursor 1 in
      xaddCursor
     else
      xaddCursor) in
  let! hasXaddLock := (if xaddCursor <? zlength code then (let! byte96 := code_at code xaddCursor in Ok (byte96
      =? 0xF0)) else Ok false) in
  let xaddCursor :=
    (if hasXaddLock then
      let xaddCursor := size_add xaddCursor 1 in
      xaddCursor
     else
      xaddCursor) in
  let! hasXaddRex := (if xaddCursor <? zlength code then (let! byte98 := code_at code xaddCursor in Ok ((0x40
      <=? byte98) && (byte98 <=? 0x4F))) else Ok false) in
  let! (choice100, xaddCursor) : within 0 255 * cursor_in 0 3 := (if hasXaddRex then (let! byte101 := code_at
      code xaddCursor in Ok (byte101, size_add xaddCursor 1)) else Ok (0, xaddCursor)) in
  let xaddRex := choice100 in
  let! isXadd := (if hasXaddLock && (2 <=? size_sub (zlength code) xaddCursor) then (let! byte102 := code_at
      code xaddCursor in let! test104 := (if byte102 =? 0xF then (let! byte103 := code_at code (size_add
      xaddCursor 1) in Ok (byte103 =? 0xC1)) else Ok false) in Ok test104) else Ok false) in
  if isXadd then
    let cursor := size_add xaddCursor 2 in
    if zlength code <=? cursor then
      reject code address "truncated LOCK XADD memory operand"
    else
    let! modrm := code_at code cursor in
    let cursor := size_add cursor 1 in
    let mode := Z.land (Z.shiftr modrm 6) 3 in
    let regEncoding := Z.land (Z.shiftr modrm 3) 7 in
    let rmEncoding := Z.land modrm 7 in
    let rexW := negb (Z.land xaddRex 8 =? 0) in
    let rexR := negb (Z.land xaddRex 4 =? 0) in
    let rexX := negb (Z.land xaddRex 2 =? 0) in
    let rexB := negb (Z.land xaddRex 1 =? 0) in
    let ripRelative := (mode =? 0) && (rmEncoding =? 5) && negb rexB in
    if (mode =? 3) || ((mode =? 0) && (rmEncoding =? 5) && rexB) then
      reject code address "only LOCK XADD dword/qword [base/index*scale/RIP+disp8/disp32], r32/r64 is supported"
    else
    let! xaddBase := decodeRegister rmEncoding rexB in
    let xaddIndex := None in
    let xaddScale := 1 in
    let! (cursor, xaddBase, xaddIndex, xaddScale) : cursor_in 3 7 * Register * option Register * one_of [1; 2;
        4; 8] :=
      (if negb ripRelative && (rmEncoding =? 4) then
        if zlength code <=? cursor then
          reject code address "truncated LOCK XADD SIB"
        else
        let! sib := code_at code cursor in
        let cursor := size_add cursor 1 in
        let scaleBits := Z.land (Z.shiftr sib 6) 3 in
        let indexEncoding := Z.land (Z.shiftr sib 3) 7 in
        let baseEncoding := Z.land sib 7 in
        if (mode =? 0) && (baseEncoding =? 5) then
          reject code address "no-base LOCK XADD SIB is not supported"
        else
        let! xaddBase := decodeRegister baseEncoding rexB in
        if negb (indexEncoding =? 4) then
          let! register110 := decodeRegister indexEncoding rexX in
          let xaddIndex := Some register110 in
          let xaddScale := Z.shiftl 1 scaleBits in
          Ok (cursor, xaddBase, xaddIndex, xaddScale)
        else Ok (cursor, xaddBase, xaddIndex, xaddScale)
       else
        if rexX then
          reject code address "REX.X requires a LOCK XADD SIB"
        else Ok (cursor, xaddBase, xaddIndex, xaddScale)) in
    let displacement := 0 in
    let! (displacement, cursor) : within (- 2 ^ 31) (2 ^ 31 - 1) * cursor_in 3 11 :=
      (if ripRelative || (mode =? 2) then
        if size_sub (zlength code) cursor <? 4 then
          reject code address "truncated LOCK XADD disp32"
        else
        let! span111 := subspan code cursor 4 in
        let! displacement := readI32 span111 in
        let cursor := size_add cursor 4 in
        Ok (displacement, cursor)
       else
        if mode =? 1 then
          if zlength code <=? cursor then
            reject code address "truncated LOCK XADD disp8"
          else
          let! byte113 := code_at code cursor in
          let displacement := signed 8 byte113 in
          let cursor := size_add cursor 1 in
          Ok (displacement, cursor)
        else Ok (displacement, cursor)) in
    let! _ :=
      (if ripRelative then
        let! _ := relativeTarget address (size_sub cursor 0) displacement in
        Ok tt
       else
        Ok tt) in
    let width := if hasXaddSizePrefix then 16 else if rexW then 64 else 32 in
    let instruction := with_opcode X_LockXaddMemReg instruction in
    let instruction := push_operand (MemoryOp (if ripRelative then mkMemory Rax displacement width None 1 false
        true Segment_None else mkMemory xaddBase displacement width xaddIndex xaddScale true false
        Segment_None)) instruction in
    let! register115 := decodeRegister regEncoding rexR in
    let instruction := push_operand (RegisterOperand register115 width 0) instruction in
    let len := size_sub cursor 0 in
    let instruction := with_length (u8 len) instruction in
    let! instruction := copy_bytes code 0 len instruction in
    Ok (inl instruction)
  else Ok (inr (cursor, instruction)).

Definition decodeAtomic_LockIncMem_4 (operandCursor : Z) (lockRexW : bool) (lockRexR : bool) (lockRexX : bool)
    (lockRexB : bool) (instruction : DecodedInstruction) : outcome Recognition :=
  let! modrm := code_at code (size_add operandCursor 1) in
  let mode := Z.land (Z.shiftr modrm 6) 3 in
  let extension := Z.land (Z.shiftr modrm 3) 7 in
  let rmEncoding := Z.land modrm 7 in
  let ripRelative := (mode =? 0) && (rmEncoding =? 5) && negb lockRexB in
  if (negb (extension =? 0) && negb (extension =? 1)) || (2 <? mode) || lockRexR || lockRexX || ((mode =? 0) &&
      (rmEncoding =? 5) && lockRexB) then
    reject code address "only LOCK INC/DEC dword/qword [base/SIB/RIP+disp8/disp32] is supported from prefix F0 FF /0/1"
  else
  let operandCursor := size_add operandCursor 2 in
  let! lockBase := decodeRegister rmEncoding lockRexB in
  let! (operandCursor, lockBase) : cursor_in 3 5 * Register :=
    (if negb ripRelative && (rmEncoding =? 4) then
      if zlength code <=? operandCursor then
        reject code address "truncated LOCK INC/DEC SIB"
      else
      let! sib := code_at code operandCursor in
      let operandCursor := size_add operandCursor 1 in
      let indexEncoding := Z.land (Z.shiftr sib 3) 7 in
      let baseEncoding := Z.land sib 7 in
      if negb (indexEncoding =? 4) || ((mode =? 0) && (baseEncoding =? 5)) then
        reject code address "only no-index, based SIB is supported for LOCK INC/DEC"
      else
      let! lockBase := decodeRegister baseEncoding lockRexB in
      Ok (operandCursor, lockBase)
     else
      Ok (operandCursor, lockBase)) in
  let displacement := 0 in
  let! (displacement, operandCursor) : within (- 2 ^ 31) (2 ^ 31 - 1) * cursor_in 3 9 :=
    (if ripRelative || (mode =? 2) then
      if size_sub (zlength code) operandCursor <? 4 then
        reject code address "truncated LOCK DEC disp32"
      else
      let! span125 := subspan code operandCursor 4 in
      let! displacement := readI32 span125 in
      let operandCursor := size_add operandCursor 4 in
      Ok (displacement, operandCursor)
     else
      if mode =? 1 then
        if zlength code <=? operandCursor then
          reject code address "truncated LOCK DEC disp8"
        else
        let! byte127 := code_at code operandCursor in
        let displacement := signed 8 byte127 in
        let operandCursor := size_add operandCursor 1 in
        Ok (displacement, operandCursor)
      else Ok (displacement, operandCursor)) in
  let! _ :=
    (if ripRelative then
      let! _ := relativeTarget address (size_sub operandCursor 0) displacement in
      Ok tt
     else
      Ok tt) in
  let width := if lockRexW then 64 else 32 in
  let instruction := with_opcode (if extension =? 0 then X_LockIncMem else X_LockDecMem) instruction in
  let instruction := push_operand (MemoryOp (if ripRelative then mkMemory Rax displacement width None 1 false
      true Segment_None else mkMemory lockBase displacement width None 1 true false Segment_None)) instruction
      in
  let len := size_sub operandCursor 0 in
  let instruction := with_length (u8 len) instruction in
  let! instruction := copy_bytes code 0 len instruction in
  Ok (inl instruction).

Definition decodeAtomic_LockBtsMemImm (cursor : Z) (operandCursor : Z) (lockRex : Z) (instruction :
    DecodedInstruction) : outcome Recognition :=
  let cursor := size_add operandCursor 2 in
  if zlength code <=? cursor then
    reject code address "truncated LOCK BTS memory operand"
  else
  let! modrm := code_at code cursor in
  let cursor := size_add cursor 1 in
  let mode := Z.land (Z.shiftr modrm 6) 3 in
  let extension := Z.land (Z.shiftr modrm 3) 7 in
  let rmEncoding := Z.land modrm 7 in
  let rexW := negb (Z.land lockRex 8 =? 0) in
  let rexR := negb (Z.land lockRex 4 =? 0) in
  let rexX := negb (Z.land lockRex 2 =? 0) in
  let rexB := negb (Z.land lockRex 1 =? 0) in
  let ripRelative := (mode =? 0) && (rmEncoding =? 5) && negb rexB in
  if (mode =? 3) || negb (extension =? 5) || rexR || rexX || ((mode =? 0) && (rmEncoding =? 5) && rexB) then
    reject code address "only LOCK BTS dword/qword [base/index*scale/RIP+disp8/disp32], imm8 is supported"
  else
  let baseEncoding := rmEncoding in
  let index := None in
  let scale := 1 in
  let! (cursor, baseEncoding, index, scale) : cursor_in 4 6 * within 0 7 * option Register * one_of [1; 2; 4;
      8] :=
    (if negb ripRelative && (rmEncoding =? 4) then
      if zlength code <=? cursor then
        reject code address "truncated LOCK BTS SIB"
      else
      let! sib := code_at code cursor in
      let cursor := size_add cursor 1 in
      let scaleBits := Z.land (Z.shiftr sib 6) 3 in
      let indexEncoding := Z.land (Z.shiftr sib 3) 7 in
      let baseEncoding := Z.land sib 7 in
      if (mode =? 0) && (baseEncoding =? 5) then
        reject code address "no-base LOCK BTS SIB is not supported"
      else if negb (indexEncoding =? 4) then
        let! register147 := decodeRegister indexEncoding rexX in
        let index := Some register147 in
        let scale := Z.shiftl 1 scaleBits in
        Ok (cursor, baseEncoding, index, scale)
      else Ok (cursor, baseEncoding, index, scale)
     else
      Ok (cursor, baseEncoding, index, scale)) in
  let displacement := 0 in
  let! (displacement, cursor) : within (- 2 ^ 31) (2 ^ 31 - 1) * cursor_in 4 10 :=
    (if ripRelative || (mode =? 2) then
      if size_sub (zlength code) cursor <? 4 then
        reject code address "truncated LOCK BTS disp32"
      else
      let! span148 := subspan code cursor 4 in
      let! displacement := readI32 span148 in
      let cursor := size_add cursor 4 in
      Ok (displacement, cursor)
     else
      if mode =? 1 then
        if zlength code <=? cursor then
          reject code address "truncated LOCK BTS disp8"
        else
        let! byte150 := code_at code cursor in
        let displacement := signed 8 byte150 in
        let cursor := size_add cursor 1 in
        Ok (displacement, cursor)
      else Ok (displacement, cursor)) in
  let! _ :=
    (if ripRelative then
      let! _ := relativeTarget address (size_sub cursor 0) displacement in
      Ok tt
     else
      Ok tt) in
  if zlength code <=? cursor then
    reject code address "truncated LOCK BTS bit index"
  else
  let! bitIndex := code_at code cursor in
  let cursor := size_add cursor 1 in
  let width := if rexW then 64 else 32 in
  let instruction := with_opcode X_LockBtsMemImm instruction in
  let! choice153 : MemoryOperand := (if ripRelative then Ok (mkMemory Rax displacement width None 1 false true
      Segment_None) else (let! register154 := decodeRegister baseEncoding rexB in Ok (mkMemory register154
      displacement width index scale true false Segment_None))) in
  let instruction := push_operand (MemoryOp choice153) instruction in
  let instruction := push_operand (ImmediateOperand bitIndex 8) instruction in
  let len := size_sub cursor 0 in
  let instruction := with_length (u8 len) instruction in
  let! instruction := copy_bytes code 0 len instruction in
  Ok (inl instruction).

Definition decodeAtomic_LockIncMem_3 (cursor : Z) (instruction : DecodedInstruction) : outcome Recognition :=
  let operandCursor := size_add cursor 1 in
  if zlength code <=? operandCursor then
    reject code address "truncated after LOCK prefix"
  else
  let! byte117 := code_at code operandCursor in
  let hasLockRex := (0x40 <=? byte117) && (byte117 <=? 0x4F) in
  let! (choice118, operandCursor) : within 0 255 * cursor_in 1 2 := (if hasLockRex then Ok (byte117, size_add
      operandCursor 1) else Ok (0, operandCursor)) in
  let lockRex := choice118 in
  let lockRexW := negb (Z.land lockRex 8 =? 0) in
  let lockRexR := negb (Z.land lockRex 4 =? 0) in
  let lockRexX := negb (Z.land lockRex 2 =? 0) in
  let lockRexB := negb (Z.land lockRex 1 =? 0) in
  let! test120 := (if 2 <=? size_sub (zlength code) operandCursor then (let! byte119 := code_at code
      operandCursor in Ok (byte119 =? 0xFF)) else Ok false) in
  if test120 then
    decodeAtomic_LockIncMem_4 operandCursor lockRexW lockRexR lockRexX lockRexB instruction
  else
  let! test130 := (if 2 <=? size_sub (zlength code) operandCursor then (let! byte129 := code_at code
      operandCursor in Ok ((byte129 =? 1) || (byte129 =? 9))) else Ok false) in
  if test130 then
    let! byte131 := code_at code operandCursor in
    let isLockAdd := (byte131 =? 1) in
    let! modrm := code_at code (size_add operandCursor 1) in
    let mode := Z.land (Z.shiftr modrm 6) 3 in
    let regEncoding := Z.land (Z.shiftr modrm 3) 7 in
    let rmEncoding := Z.land modrm 7 in
    let ripRelative := (mode =? 0) && (rmEncoding =? 5) && negb lockRexB in
    if (mode =? 3) || (rmEncoding =? 4) || lockRexX || ((mode =? 0) && (rmEncoding =? 5) && lockRexB) then
      reject code address "only LOCK OR dword/qword [base/RIP+disp8/disp32], r32/r64 is supported"
    else
    let operandCursor := size_add operandCursor 2 in
    let displacement := 0 in
    let! (displacement, operandCursor) : within (- 2 ^ 31) (2 ^ 31 - 1) * cursor_in 3 8 :=
      (if ripRelative || (mode =? 2) then
        if size_sub (zlength code) operandCursor <? 4 then
          reject code address "truncated LOCK OR disp32"
        else
        let! span133 := subspan code operandCursor 4 in
        let! displacement := readI32 span133 in
        let operandCursor := size_add operandCursor 4 in
        Ok (displacement, operandCursor)
       else
        if mode =? 1 then
          if zlength code <=? operandCursor then
            reject code address "truncated LOCK OR disp8"
          else
          let! byte135 := code_at code operandCursor in
          let displacement := signed 8 byte135 in
          let operandCursor := size_add operandCursor 1 in
          Ok (displacement, operandCursor)
        else Ok (displacement, operandCursor)) in
    let! _ :=
      (if ripRelative then
        let! _ := relativeTarget address (size_sub operandCursor 0) displacement in
        Ok tt
       else
        Ok tt) in
    let lockOrWidth := if lockRexW then 64 else 32 in
    let instruction := with_opcode (if isLockAdd then X_LockAddMemReg else X_LockOrMemReg) instruction in
    let! choice137 : MemoryOperand := (if ripRelative then Ok (mkMemory Rax displacement lockOrWidth None 1
        false true Segment_None) else (let! register138 := decodeRegister rmEncoding lockRexB in Ok (mkMemory
        register138 displacement lockOrWidth None 1 true false Segment_None))) in
    let instruction := push_operand (MemoryOp choice137) instruction in
    let! register139 := decodeRegister regEncoding lockRexR in
    let instruction := push_operand (RegisterOperand register139 lockOrWidth 0) instruction in
    let cursor := operandCursor in
    let lockOrLength := size_sub cursor 0 in
    let instruction := with_length (u8 lockOrLength) instruction in
    let! instruction := copy_bytes code 0 lockOrLength instruction in
    Ok (inl instruction)
  else
  let! test143 := (if size_sub (zlength code) operandCursor <? 3 then Ok true else (let! byte140 := code_at
      code operandCursor in let! test142 := (if negb (byte140 =? 0xF) then Ok true else (let! byte141 :=
      code_at code (size_add operandCursor 1) in Ok (negb (byte141 =? 0xB0) && negb (byte141 =? 0xB1) && negb
      (byte141 =? 0xBA)))) in Ok test142)) in
  if test143 then
    reject code address "only LOCK CMPXCHG r/m8/r/m32/r/m64, LOCK BTS r/m32/r/m64, or LOCK XADD r/m32, r32 is supported from prefix F0"
  else
  let! byte144 := code_at code (size_add operandCursor 1) in
  if byte144 =? 0xBA then
    decodeAtomic_LockBtsMemImm cursor operandCursor lockRex instruction
  else
  let isByteCmpxchg := (byte144 =? 0xB0) in
  if isByteCmpxchg && negb (Z.land lockRex 8 =? 0) then
    reject code address "REX.W is not supported for byte LOCK CMPXCHG"
  else
  let cursor := size_add operandCursor 2 in
  let! modrm := code_at code cursor in
  let cursor := size_add cursor 1 in
  let mode := Z.land (Z.shiftr modrm 6) 3 in
  let regEncoding := Z.land (Z.shiftr modrm 3) 7 in
  let rmEncoding := Z.land modrm 7 in
  let rexW := negb (Z.land lockRex 8 =? 0) in
  let rexR := negb (Z.land lockRex 4 =? 0) in
  let rexX := negb (Z.land lockRex 2 =? 0) in
  let rexB := negb (Z.land lockRex 1 =? 0) in
  let ripRelative := (mode =? 0) && (rmEncoding =? 5) && negb rexB in
  let baseEncoding := rmEncoding in
  let hasBase := negb ripRelative in
  let index := None in
  let scale := 1 in
  let! (cursor, baseEncoding, hasBase, index, scale) : cursor_in 4 6 * within 0 7 * bool * option Register *
      one_of [1; 2; 4; 8] :=
    (if rmEncoding =? 4 then
      if zlength code <=? cursor then
        reject code address "truncated LOCK CMPXCHG SIB byte"
      else
      let! sib := code_at code cursor in
      let cursor := size_add cursor 1 in
      let scaleBits := Z.land (Z.shiftr sib 6) 3 in
      let indexEncoding := Z.land (Z.shiftr sib 3) 7 in
      let baseEncoding := Z.land sib 7 in
      let hasBase := negb ((mode =? 0) && (baseEncoding =? 5) && negb rexB) in
      let! index : option Register :=
        (if negb (indexEncoding =? 4) || rexX then
          let! register157 := decodeRegister indexEncoding rexX in
          let index := Some register157 in
          Ok index
         else
          Ok index) in
      let scale := Z.shiftl 1 scaleBits in
      Ok (cursor, baseEncoding, hasBase, index, scale)
     else
      Ok (cursor, baseEncoding, hasBase, index, scale)) in
  if (mode =? 3) || ((mode =? 0) && (rmEncoding =? 5) && rexB) || (negb (rmEncoding =? 4) && rexX) then
    reject code address "only LOCK CMPXCHG dword/qword memory operands are supported"
  else
  let displacement := 0 in
  let! (displacement, cursor) : within (- 2 ^ 31) (2 ^ 31 - 1) * cursor_in 4 10 :=
    (if ripRelative || negb hasBase then
      if size_sub (zlength code) cursor <? 4 then
        reject code address "truncated displacement-only LOCK CMPXCHG operand"
      else
      let! span158 := subspan code cursor 4 in
      let! displacement := readI32 span158 in
      let cursor := size_add cursor 4 in
      Ok (displacement, cursor)
     else
      if mode =? 1 then
        if zlength code <=? cursor then
          reject code address "truncated LOCK CMPXCHG disp8"
        else
        let! byte160 := code_at code cursor in
        let displacement := signed 8 byte160 in
        let cursor := size_add cursor 1 in
        Ok (displacement, cursor)
      else if mode =? 2 then
        if size_sub (zlength code) cursor <? 4 then
          reject code address "truncated LOCK CMPXCHG disp32"
        else
        let! span161 := subspan code cursor 4 in
        let! displacement := readI32 span161 in
        let cursor := size_add cursor 4 in
        Ok (displacement, cursor)
      else Ok (displacement, cursor)) in
  let width := if isByteCmpxchg then 8 else if rexW then 64 else 32 in
  let highByteSource := isByteCmpxchg && negb hasLockRex && (4 <=? regEncoding) in
  let instruction := with_opcode X_CmpxchgMemReg instruction in
  let! register163 := decodeRegister baseEncoding rexB in
  let instruction := push_operand (MemoryOp (mkMemory register163 displacement width index scale hasBase
      ripRelative Segment_None)) instruction in
  let! choice164 : Register := (if highByteSource then (let! register165 := decodeRegister (u8 (u32
      (regEncoding - 4))) false in Ok register165) else (let! register166 := decodeRegister regEncoding rexR in
      Ok register166)) in
  let instruction := push_operand (RegisterOperand choice164 width (if highByteSource then 1 else 0))
      instruction in
  let len := size_sub cursor 0 in
  let instruction := with_length (u8 len) instruction in
  let! instruction := copy_bytes code 0 len instruction in
  Ok (inl instruction).

Definition decodeAtomic_LockIncMem_2 (cursor : Z) (instruction : DecodedInstruction) : outcome Recognition :=
  let! byte116 := code_at code cursor in
  if byte116 =? 0xF0 then
    decodeAtomic_LockIncMem_3 cursor instruction
  else Ok (inr (cursor, instruction)).

Definition decodeAtomic (cursor : Z) (instruction : DecodedInstruction) : outcome Recognition :=
  next! (cursor, instruction) := decodeAtomic_LockAddMemReg cursor instruction in
  next! (cursor, instruction) := decodeAtomic_LockOrMemImm cursor instruction in
  next! (cursor, instruction) := decodeAtomic_LockOrMemImm_2 cursor instruction in
  next! (cursor, instruction) := decodeAtomic_LockIncMem cursor instruction in
  next! (cursor, instruction) := decodeAtomic_Cmpxchg16bMem cursor instruction in
  next! (cursor, instruction) := decodeAtomic_LockXaddMemReg cursor instruction in
  decodeAtomic_LockIncMem_2 cursor instruction.

End Decode.
