(* ===== verification/DecodeOperandOverride.v ===== *)
(** Recognition family [decodeOperandOverride] ([src/x86/DecodeOperandOverride.cpp]): word operations and packed operations behind the 66 prefix.

    Each definition is one group of statements of the C++ function, in its order; it
    recognises an instruction ([inl]), rejects the bytes, or leaves the cursor and the
    instruction to the next group ([inr]). *)
From S2P Require Import Prelude X86State ExecutionContext IR X86Instruction DecodeBase.

Section Decode.
Context (code : list Z) (address : Z).

Definition decodeOperandOverride_UnpcklpsRegReg_2 (afterPrefix : Z) (hasUnpcklpsRex : bool)
    (unpcklpsOpcodeOffset : Z) (instruction : DecodedInstruction) : outcome Recognition :=
  if size_sub (zlength code) unpcklpsOpcodeOffset <? 3 then
    reject code address "truncated unpcklps xmm, xmm/m128"
  else
  let! rex : within 0 255 := (if hasUnpcklpsRex then (let! byte8 := code_at code afterPrefix in Ok byte8) else
      Ok 0) in
  let! modrm := code_at code (size_add unpcklpsOpcodeOffset 2) in
  let mode := Z.land (Z.shiftr modrm 6) 3 in
  let rmEncoding := Z.land modrm 7 in
  if negb (Z.land rex 0xA =? 0) then
    reject code address "UNPCKLPS does not support REX.W/X"
  else
  let destination := XmmRegisterOperand (Z.lor (Z.land (Z.shiftr modrm 3) 7) (if negb (Z.land rex 4 =? 0) then
      8 else 0)) in
  let operandCursor := size_add unpcklpsOpcodeOffset 3 in
  let! (instruction, operandCursor) : DecodedInstruction * cursor_in 4 9 :=
    (if mode =? 3 then
      let instruction := with_opcode X_UnpcklpsRegReg instruction in
      let instruction := push_operand destination instruction in
      let instruction := push_operand (XmmRegisterOperand (Z.lor rmEncoding (if negb (Z.land rex 1 =? 0) then 8
          else 0))) instruction in
      Ok (instruction, operandCursor)
     else
      let ripRelative := (mode =? 0) && (rmEncoding =? 5) && (Z.land rex 1 =? 0) in
      if (rmEncoding =? 4) || ((mode =? 0) && (rmEncoding =? 5) && negb (Z.land rex 1 =? 0)) then
        reject code address "only RIP-relative or based UNPCKLPS xmm, m128 is supported"
      else
      let displacement := 0 in
      let! (displacement, operandCursor) : within (- 2 ^ 31) (2 ^ 31 - 1) * cursor_in 4 9 :=
        (if mode =? 1 then
          if zlength code <=? operandCursor then
            reject code address "truncated UNPCKLPS m128 disp8"
          else
          let! byte10 := code_at code operandCursor in
          let displacement := signed 8 byte10 in
          let operandCursor := size_add operandCursor 1 in
          Ok (displacement, operandCursor)
         else
          if (mode =? 2) || ripRelative then
            if size_sub (zlength code) operandCursor <? 4 then
              reject code address "truncated UNPCKLPS m128 disp32"
            else
            let! span11 := subspan code operandCursor 4 in
            let! displacement := readI32 span11 in
            let operandCursor := size_add operandCursor 4 in
            Ok (displacement, operandCursor)
          else Ok (displacement, operandCursor)) in
      let! _ :=
        (if ripRelative then
          let! _ := relativeTarget address (size_sub operandCursor 0) displacement in
          Ok tt
         else
          Ok tt) in
      let instruction := with_opcode X_UnpcklpsRegMem instruction in
      let instruction := push_operand destination instruction in
      let! choice14 : MemoryOperand := (if ripRelative then Ok (mkMemory Rax displacement 128 None 1 false true
          Segment_None) else (let! register15 := decodeRegister rmEncoding (negb (Z.land rex 1 =? 0)) in Ok
          (mkMemory register15 displacement 128 None 1 true false Segment_None))) in
      let instruction := push_operand (MemoryOp choice14) instruction in
      Ok (instruction, operandCursor)) in
  let len := size_sub operandCursor 0 in
  let instruction := with_length (u8 len) instruction in
  let! instruction := copy_bytes code 0 len instruction in
  Ok (inl instruction).

Definition decodeOperandOverride_UnpcklpsRegReg (cursor : Z) (instruction : DecodedInstruction) : outcome
    Recognition :=
  let! byte1 := code_at code cursor in
  if (byte1 =? 0x66) && (2 <=? size_sub (zlength code) cursor) then
    let afterPrefix := size_add cursor 1 in
    let! byte2 := code_at code afterPrefix in
    let hasUnpcklpsRex := (0x40 <=? byte2) && (byte2 <=? 0x4F) in
    let unpcklpsOpcodeOffset := size_add afterPrefix (if hasUnpcklpsRex then 1 else 0) in
    let! test6 := (if 2 <=? size_sub (zlength code) unpcklpsOpcodeOffset then (let! byte3 := code_at code
        unpcklpsOpcodeOffset in let! test5 := (if byte3 =? 0xF then (let! byte4 := code_at code (size_add
        unpcklpsOpcodeOffset 1) in Ok (byte4 =? 0x14)) else Ok false) in Ok test5) else Ok false) in
    if test6 then
      decodeOperandOverride_UnpcklpsRegReg_2 afterPrefix hasUnpcklpsRex unpcklpsOpcodeOffset instruction
    else Ok (inr (cursor, instruction))
  else Ok (inr (cursor, instruction)).

Definition decodeOperandOverride_HaddpdRegReg_2 (afterPrefix : Z) (hasHaddpdRex : bool) (haddpdOpcodeOffset :
    Z) (instruction : DecodedInstruction) : outcome Recognition :=
  if size_sub (zlength code) haddpdOpcodeOffset <? 3 then
    reject code address "truncated haddpd xmm, xmm/m128"
  else
  let! rex : within 0 255 := (if hasHaddpdRex then (let! byte23 := code_at code afterPrefix in Ok byte23) else
      Ok 0) in
  let! modrm := code_at code (size_add haddpdOpcodeOffset 2) in
  let mode := Z.land (Z.shiftr modrm 6) 3 in
  let rmEncoding := Z.land modrm 7 in
  if negb (Z.land rex 0xA =? 0) then
    reject code address "HADDPD does not support REX.W/X"
  else
  let destination := XmmRegisterOperand (Z.lor (Z.land (Z.shiftr modrm 3) 7) (if negb (Z.land rex 4 =? 0) then
      8 else 0)) in
  let operandCursor := size_add haddpdOpcodeOffset 3 in
  let! (instruction, operandCursor) : DecodedInstruction * cursor_in 4 9 :=
    (if mode =? 3 then
      let instruction := with_opcode X_HaddpdRegReg instruction in
      let instruction := push_operand destination instruction in
      let instruction := push_operand (XmmRegisterOperand (Z.lor rmEncoding (if negb (Z.land rex 1 =? 0) then 8
          else 0))) instruction in
      Ok (instruction, operandCursor)
     else
      let ripRelative := (mode =? 0) && (rmEncoding =? 5) && (Z.land rex 1 =? 0) in
      if (rmEncoding =? 4) || ((mode =? 0) && (rmEncoding =? 5) && negb (Z.land rex 1 =? 0)) then
        reject code address "only RIP-relative or based HADDPD xmm, m128 is supported"
      else
      let displacement := 0 in
      let! (displacement, operandCursor) : within (- 2 ^ 31) (2 ^ 31 - 1) * cursor_in 4 9 :=
        (if mode =? 1 then
          if zlength code <=? operandCursor then
            reject code address "truncated HADDPD m128 disp8"
          else
          let! byte25 := code_at code operandCursor in
          let displacement := signed 8 byte25 in
          let operandCursor := size_add operandCursor 1 in
          Ok (displacement, operandCursor)
         else
          if (mode =? 2) || ripRelative then
            if size_sub (zlength code) operandCursor <? 4 then
              reject code address "truncated HADDPD m128 disp32"
            else
            let! span26 := subspan code operandCursor 4 in
            let! displacement := readI32 span26 in
            let operandCursor := size_add operandCursor 4 in
            Ok (displacement, operandCursor)
          else Ok (displacement, operandCursor)) in
      let! _ :=
        (if ripRelative then
          let! _ := relativeTarget address (size_sub operandCursor 0) displacement in
          Ok tt
         else
          Ok tt) in
      let instruction := with_opcode X_HaddpdRegMem instruction in
      let instruction := push_operand destination instruction in
      let! choice29 : MemoryOperand := (if ripRelative then Ok (mkMemory Rax displacement 128 None 1 false true
          Segment_None) else (let! register30 := decodeRegister rmEncoding (negb (Z.land rex 1 =? 0)) in Ok
          (mkMemory register30 displacement 128 None 1 true false Segment_None))) in
      let instruction := push_operand (MemoryOp choice29) instruction in
      Ok (instruction, operandCursor)) in
  let len := size_sub operandCursor 0 in
  let instruction := with_length (u8 len) instruction in
  let! instruction := copy_bytes code 0 len instruction in
  Ok (inl instruction).

Definition decodeOperandOverride_HaddpdRegReg (cursor : Z) (instruction : DecodedInstruction) : outcome
    Recognition :=
  let! byte16 := code_at code cursor in
  if (byte16 =? 0x66) && (2 <=? size_sub (zlength code) cursor) then
    let afterPrefix := size_add cursor 1 in
    let! byte17 := code_at code afterPrefix in
    let hasHaddpdRex := (0x40 <=? byte17) && (byte17 <=? 0x4F) in
    let haddpdOpcodeOffset := size_add afterPrefix (if hasHaddpdRex then 1 else 0) in
    let! test21 := (if 2 <=? size_sub (zlength code) haddpdOpcodeOffset then (let! byte18 := code_at code
        haddpdOpcodeOffset in let! test20 := (if byte18 =? 0xF then (let! byte19 := code_at code (size_add
        haddpdOpcodeOffset 1) in Ok (byte19 =? 0x7C)) else Ok false) in Ok test20) else Ok false) in
    if test21 then
      decodeOperandOverride_HaddpdRegReg_2 afterPrefix hasHaddpdRex haddpdOpcodeOffset instruction
    else Ok (inr (cursor, instruction))
  else Ok (inr (cursor, instruction)).

Definition decodeOperandOverride_UnpckhpsRegReg_2 (afterPrefix : Z) (hasUnpckhpsRex : bool)
    (unpckhpsOpcodeOffset : Z) (instruction : DecodedInstruction) : outcome Recognition :=
  if size_sub (zlength code) unpckhpsOpcodeOffset <? 3 then
    reject code address "truncated unpckhps xmm, xmm/m128"
  else
  let! rex : within 0 255 := (if hasUnpckhpsRex then (let! byte38 := code_at code afterPrefix in Ok byte38)
      else Ok 0) in
  let! modrm := code_at code (size_add unpckhpsOpcodeOffset 2) in
  let mode := Z.land (Z.shiftr modrm 6) 3 in
  let rmEncoding := Z.land modrm 7 in
  if negb (Z.land rex 0xA =? 0) then
    reject code address "UNPCKHPS does not support REX.W/X"
  else
  let destination := XmmRegisterOperand (Z.lor (Z.land (Z.shiftr modrm 3) 7) (if negb (Z.land rex 4 =? 0) then
      8 else 0)) in
  let operandCursor := size_add unpckhpsOpcodeOffset 3 in
  let! (instruction, operandCursor) : DecodedInstruction * cursor_in 4 9 :=
    (if mode =? 3 then
      let instruction := with_opcode X_UnpckhpsRegReg instruction in
      let instruction := push_operand destination instruction in
      let instruction := push_operand (XmmRegisterOperand (Z.lor rmEncoding (if negb (Z.land rex 1 =? 0) then 8
          else 0))) instruction in
      Ok (instruction, operandCursor)
     else
      let ripRelative := (mode =? 0) && (rmEncoding =? 5) && (Z.land rex 1 =? 0) in
      if (rmEncoding =? 4) || ((mode =? 0) && (rmEncoding =? 5) && negb (Z.land rex 1 =? 0)) then
        reject code address "only RIP-relative or based UNPCKHPS xmm, m128 is supported"
      else
      let displacement := 0 in
      let! (displacement, operandCursor) : within (- 2 ^ 31) (2 ^ 31 - 1) * cursor_in 4 9 :=
        (if mode =? 1 then
          if zlength code <=? operandCursor then
            reject code address "truncated UNPCKHPS m128 disp8"
          else
          let! byte40 := code_at code operandCursor in
          let displacement := signed 8 byte40 in
          let operandCursor := size_add operandCursor 1 in
          Ok (displacement, operandCursor)
         else
          if (mode =? 2) || ripRelative then
            if size_sub (zlength code) operandCursor <? 4 then
              reject code address "truncated UNPCKHPS m128 disp32"
            else
            let! span41 := subspan code operandCursor 4 in
            let! displacement := readI32 span41 in
            let operandCursor := size_add operandCursor 4 in
            Ok (displacement, operandCursor)
          else Ok (displacement, operandCursor)) in
      let! _ :=
        (if ripRelative then
          let! _ := relativeTarget address (size_sub operandCursor 0) displacement in
          Ok tt
         else
          Ok tt) in
      let instruction := with_opcode X_UnpckhpsRegMem instruction in
      let instruction := push_operand destination instruction in
      let! choice44 : MemoryOperand := (if ripRelative then Ok (mkMemory Rax displacement 128 None 1 false true
          Segment_None) else (let! register45 := decodeRegister rmEncoding (negb (Z.land rex 1 =? 0)) in Ok
          (mkMemory register45 displacement 128 None 1 true false Segment_None))) in
      let instruction := push_operand (MemoryOp choice44) instruction in
      Ok (instruction, operandCursor)) in
  let len := size_sub operandCursor 0 in
  let instruction := with_length (u8 len) instruction in
  let! instruction := copy_bytes code 0 len instruction in
  Ok (inl instruction).

Definition decodeOperandOverride_UnpckhpsRegReg (cursor : Z) (instruction : DecodedInstruction) : outcome
    Recognition :=
  let! byte31 := code_at code cursor in
  if (byte31 =? 0x66) && (2 <=? size_sub (zlength code) cursor) then
    let afterPrefix := size_add cursor 1 in
    let! byte32 := code_at code afterPrefix in
    let hasUnpckhpsRex := (0x40 <=? byte32) && (byte32 <=? 0x4F) in
    let unpckhpsOpcodeOffset := size_add afterPrefix (if hasUnpckhpsRex then 1 else 0) in
    let! test36 := (if 2 <=? size_sub (zlength code) unpckhpsOpcodeOffset then (let! byte33 := code_at code
        unpckhpsOpcodeOffset in let! test35 := (if byte33 =? 0xF then (let! byte34 := code_at code (size_add
        unpckhpsOpcodeOffset 1) in Ok (byte34 =? 0x15)) else Ok false) in Ok test35) else Ok false) in
    if test36 then
      decodeOperandOverride_UnpckhpsRegReg_2 afterPrefix hasUnpckhpsRex unpckhpsOpcodeOffset instruction
    else Ok (inr (cursor, instruction))
  else Ok (inr (cursor, instruction)).

Definition decodeOperandOverride_SqrtpdRegReg_2 (afterPrefix : Z) (hasDivpdRex : bool) (divpdOpcodeOffset : Z)
    (instruction : DecodedInstruction) : outcome Recognition :=
  let! packedOpcode := code_at code (size_add divpdOpcodeOffset 1) in
  let packedName := if packedOpcode =? 0x51 then "SQRTPD"%string else if packedOpcode =? 0x58 then
      "ADDPD"%string else if packedOpcode =? 0x59 then "MULPD"%string else if packedOpcode =? 0x5C then
      "SUBPD"%string else "DIVPD"%string in
  if size_sub (zlength code) divpdOpcodeOffset <? 3 then
    reject code address (String.append (String.append ("truncated "%string) packedName)
        (" xmm, xmm/m128"%string))
  else
  let! rex : within 0 255 := (if hasDivpdRex then (let! byte54 := code_at code afterPrefix in Ok byte54) else
      Ok 0) in
  let! modrm := code_at code (size_add divpdOpcodeOffset 2) in
  let mode := Z.land (Z.shiftr modrm 6) 3 in
  let rmEncoding := Z.land modrm 7 in
  if negb (Z.land rex 0xA =? 0) then
    reject code address (String.append packedName (" does not support REX.W/X"%string))
  else
  let destination := XmmRegisterOperand (Z.lor (Z.land (Z.shiftr modrm 3) 7) (if negb (Z.land rex 4 =? 0) then
      8 else 0)) in
  let operandCursor := size_add divpdOpcodeOffset 3 in
  let! (instruction, operandCursor) : DecodedInstruction * cursor_in 4 9 :=
    (if mode =? 3 then
      let instruction := with_opcode (if packedOpcode =? 0x51 then X_SqrtpdRegReg else if packedOpcode =? 0x58
          then X_AddpdRegReg else if packedOpcode =? 0x59 then X_MulpdRegReg else if packedOpcode =? 0x5C then
          X_SubpdRegReg else X_DivpdRegReg) instruction in
      let instruction := push_operand destination instruction in
      let instruction := push_operand (XmmRegisterOperand (Z.lor rmEncoding (if negb (Z.land rex 1 =? 0) then 8
          else 0))) instruction in
      Ok (instruction, operandCursor)
     else
      let ripRelative := (mode =? 0) && (rmEncoding =? 5) && (Z.land rex 1 =? 0) in
      if (rmEncoding =? 4) || ((mode =? 0) && (rmEncoding =? 5) && negb (Z.land rex 1 =? 0)) then
        reject code address (String.append (String.append ("only RIP-relative or based "%string) packedName)
            (" xmm, m128 is supported"%string))
      else
      let displacement := 0 in
      let! (displacement, operandCursor) : within (- 2 ^ 31) (2 ^ 31 - 1) * cursor_in 4 9 :=
        (if mode =? 1 then
          if zlength code <=? operandCursor then
            reject code address (String.append (String.append ("truncated "%string) packedName)
                (" m128 disp8"%string))
          else
          let! byte56 := code_at code operandCursor in
          let displacement := signed 8 byte56 in
          let operandCursor := size_add operandCursor 1 in
          Ok (displacement, operandCursor)
         else
          if (mode =? 2) || ripRelative then
            if size_sub (zlength code) operandCursor <? 4 then
              reject code address (String.append (String.append ("truncated "%string) packedName)
                  (" m128 disp32"%string))
            else
            let! span57 := subspan code operandCursor 4 in
            let! displacement := readI32 span57 in
            let operandCursor := size_add operandCursor 4 in
            Ok (displacement, operandCursor)
          else Ok (displacement, operandCursor)) in
      let! _ :=
        (if ripRelative then
          let! _ := relativeTarget address (size_sub operandCursor 0) displacement in
          Ok tt
         else
          Ok tt) in
      let instruction := with_opcode (if packedOpcode =? 0x51 then X_SqrtpdRegMem else if packedOpcode =? 0x58
          then X_AddpdRegMem else if packedOpcode =? 0x59 then X_MulpdRegMem else if packedOpcode =? 0x5C then
          X_SubpdRegMem else X_DivpdRegMem) instruction in
      let instruction := push_operand destination instruction in
      let! choice60 : MemoryOperand := (if ripRelative then Ok (mkMemory Rax displacement 128 None 1 false true
          Segment_None) else (let! register61 := decodeRegister rmEncoding (negb (Z.land rex 1 =? 0)) in Ok
          (mkMemory register61 displacement 128 None 1 true false Segment_None))) in
      let instruction := push_operand (MemoryOp choice60) instruction in
      Ok (instruction, operandCursor)) in
  let len := size_sub operandCursor 0 in
  let instruction := with_length (u8 len) instruction in
  let! instruction := copy_bytes code 0 len instruction in
  Ok (inl instruction).

Definition decodeOperandOverride_SqrtpdRegReg (cursor : Z) (instruction : DecodedInstruction) : outcome
    Recognition :=
  let! byte46 := code_at code cursor in
  if (byte46 =? 0x66) && (2 <=? size_sub (zlength code) cursor) then
    let afterPrefix := size_add cursor 1 in
    let! byte47 := code_at code afterPrefix in
    let hasDivpdRex := (0x40 <=? byte47) && (byte47 <=? 0x4F) in
    let divpdOpcodeOffset := size_add afterPrefix (if hasDivpdRex then 1 else 0) in
    let! test51 := (if 2 <=? size_sub (zlength code) divpdOpcodeOffset then (let! byte48 := code_at code
        divpdOpcodeOffset in let! test50 := (if byte48 =? 0xF then (let! byte49 := code_at code (size_add
        divpdOpcodeOffset 1) in Ok ((byte49 =? 0x51) || (byte49 =? 0x58) || (byte49 =? 0x59) || (byte49 =?
        0x5C) || (byte49 =? 0x5E))) else Ok false) in Ok test50) else Ok false) in
    if test51 then
      decodeOperandOverride_SqrtpdRegReg_2 afterPrefix hasDivpdRex divpdOpcodeOffset instruction
    else Ok (inr (cursor, instruction))
  else Ok (inr (cursor, instruction)).

Definition decodeOperandOverride_XorpdRegReg (cursor : Z) (instruction : DecodedInstruction) : outcome
    Recognition :=
  let! byte62 := code_at code cursor in
  if (byte62 =? 0x66) && (2 <=? size_sub (zlength code) cursor) then
    let afterPrefix := size_add cursor 1 in
    let! byte63 := code_at code afterPrefix in
    let hasXorpdRex := (0x40 <=? byte63) && (byte63 <=? 0x4F) in
    let xorpdOpcodeOffset := size_add afterPrefix (if hasXorpdRex then 1 else 0) in
    let! test67 := (if 2 <=? size_sub (zlength code) xorpdOpcodeOffset then (let! byte64 := code_at code
        xorpdOpcodeOffset in let! test66 := (if byte64 =? 0xF then (let! byte65 := code_at code (size_add
        xorpdOpcodeOffset 1) in Ok (byte65 =? 0x57)) else Ok false) in Ok test66) else Ok false) in
    if test67 then
      if size_sub (zlength code) xorpdOpcodeOffset <? 3 then
        reject code address "truncated xorpd xmm, xmm"
      else
      let rex := if hasXorpdRex then byte63 else 0 in
      let! modrm := code_at code (size_add xorpdOpcodeOffset 2) in
      let mode := Z.land (Z.shiftr modrm 6) 3 in
      if negb (mode =? 3) || negb (Z.land rex 0xA =? 0) then
        reject code address "only register-direct XORPD xmm, xmm is supported"
      else
      let instruction := with_opcode X_XorpdRegReg instruction in
      let instruction := push_operand (XmmRegisterOperand (Z.lor (Z.land (Z.shiftr modrm 3) 7) (if negb (Z.land
          rex 4 =? 0) then 8 else 0))) instruction in
      let instruction := push_operand (XmmRegisterOperand (Z.lor (Z.land modrm 7) (if negb (Z.land rex 1 =? 0)
          then 8 else 0))) instruction in
      let end_ := size_add xorpdOpcodeOffset 3 in
      let len := size_sub end_ 0 in
      let instruction := with_length (u8 len) instruction in
      let! instruction := copy_bytes code 0 len instruction in
      Ok (inl instruction)
    else Ok (inr (cursor, instruction))
  else Ok (inr (cursor, instruction)).

Definition decodeOperandOverride_MovqXmmReg_3 (afterSizePrefix : Z) (testHasRex : bool) (testOpcodeOffset : Z)
    (instruction : DecodedInstruction) : outcome Recognition :=
  if size_sub (zlength code) testOpcodeOffset <? 3 then
    reject code address "truncated movd xmm, r32"
  else
  let! rex : within 0 255 := (if testHasRex then (let! byte76 := code_at code afterSizePrefix in Ok byte76)
      else Ok 0) in
  let rexW := negb (Z.land rex 8 =? 0) in
  let rexR := negb (Z.land rex 4 =? 0) in
  let rexX := negb (Z.land rex 2 =? 0) in
  let rexB := negb (Z.land rex 1 =? 0) in
  let! modrm := code_at code (size_add testOpcodeOffset 2) in
  let mode := Z.land (Z.shiftr modrm 6) 3 in
  let rmEncoding := Z.land modrm 7 in
  let ripRelative := (mode =? 0) && (rmEncoding =? 5) in
  if negb (mode =? 3) && rexW then
    reject code address "MOVQ XMM memory load is not yet supported"
  else
  let instruction := push_operand (XmmRegisterOperand (Z.lor (Z.land (Z.shiftr modrm 3) 7) (if rexR then 8 else
      0))) instruction in
  let operandCursor := size_add testOpcodeOffset 3 in
  let! (instruction, operandCursor) : DecodedInstruction * cursor_in 4 10 :=
    (if mode =? 3 then
      let instruction := with_opcode (if rexW then X_MovqXmmReg else X_MovdXmmReg) instruction in
      let! register78 := decodeRegister rmEncoding rexB in
      let instruction := push_operand (RegisterOperand register78 (if rexW then 64 else 32) 0) instruction in
      Ok (instruction, operandCursor)
     else
      let baseEncoding := rmEncoding in
      let index := None in
      let scale := 1 in
      let! (operandCursor, baseEncoding, index, scale) : cursor_in 4 6 * within 0 7 * option Register * one_of
          [1; 2; 4; 8] :=
        (if rmEncoding =? 4 then
          if zlength code <=? operandCursor then
            reject code address "truncated MOVD load SIB byte"
          else
          let! sib := code_at code operandCursor in
          let operandCursor := size_add operandCursor 1 in
          let scaleBits := Z.land (Z.shiftr sib 6) 3 in
          let indexEncoding := Z.land (Z.shiftr sib 3) 7 in
          let baseEncoding := Z.land sib 7 in
          if (mode =? 0) && (baseEncoding =? 5) then
            reject code address "no-base MOVD load SIB addressing is not supported"
          else if negb (indexEncoding =? 4) || rexX then
            let! register80 := decodeRegister indexEncoding rexX in
            let index := Some register80 in
            let scale := Z.shiftl 1 scaleBits in
            Ok (operandCursor, baseEncoding, index, scale)
          else Ok (operandCursor, baseEncoding, index, scale)
         else
          Ok (operandCursor, baseEncoding, index, scale)) in
      let displacement := 0 in
      let! (displacement, operandCursor) : within (- 2 ^ 31) (2 ^ 31 - 1) * cursor_in 4 10 :=
        (if ripRelative then
          if size_sub (zlength code) operandCursor <? 4 then
            reject code address "truncated RIP-relative MOVD load disp32"
          else
          let! span81 := subspan code operandCursor 4 in
          let! displacement := readI32 span81 in
          let operandCursor := size_add operandCursor 4 in
          Ok (displacement, operandCursor)
         else
          if mode =? 1 then
            if zlength code <=? operandCursor then
              reject code address "truncated MOVD load disp8"
            else
            let! byte83 := code_at code operandCursor in
            let displacement := signed 8 byte83 in
            let operandCursor := size_add operandCursor 1 in
            Ok (displacement, operandCursor)
          else if mode =? 2 then
            if size_sub (zlength code) operandCursor <? 4 then
              reject code address "truncated MOVD load disp32"
            else
            let! span84 := subspan code operandCursor 4 in
            let! displacement := readI32 span84 in
            let operandCursor := size_add operandCursor 4 in
            Ok (displacement, operandCursor)
          else Ok (displacement, operandCursor)) in
      let instruction := with_opcode X_MovdXmmMem instruction in
      let! choice86 : Register := (if ripRelative then Ok Rax else (let! register87 := decodeRegister
          baseEncoding rexB in Ok register87)) in
      let instruction := push_operand (MemoryOp (mkMemory choice86 displacement 32 index scale (negb
          ripRelative) ripRelative Segment_None)) instruction in
      Ok (instruction, operandCursor)) in
  let len := size_sub operandCursor 0 in
  let instruction := with_length (u8 len) instruction in
  let! instruction := copy_bytes code 0 len instruction in
  Ok (inl instruction).

Definition decodeOperandOverride_MovqRegXmm (afterSizePrefix : Z) (testHasRex : bool) (testOpcodeOffset : Z)
    (instruction : DecodedInstruction) : outcome Recognition :=
  if size_sub (zlength code) testOpcodeOffset <? 3 then
    reject code address "truncated movd [memory], xmm"
  else
  let! rex : within 0 255 := (if testHasRex then (let! byte93 := code_at code afterSizePrefix in Ok byte93)
      else Ok 0) in
  let rexW := negb (Z.land rex 8 =? 0) in
  let rexR := negb (Z.land rex 4 =? 0) in
  let rexX := negb (Z.land rex 2 =? 0) in
  let rexB := negb (Z.land rex 1 =? 0) in
  let! modrm := code_at code (size_add testOpcodeOffset 2) in
  let mode := Z.land (Z.shiftr modrm 6) 3 in
  let rmEncoding := Z.land modrm 7 in
  let ripRelative := (mode =? 0) && (rmEncoding =? 5) in
  if rexW && negb (mode =? 3) then
    reject code address "only register-direct MOVQ r64, xmm is supported with REX.W"
  else if rexW then
    let instruction := with_opcode X_MovqRegXmm instruction in
    let! register95 := decodeRegister rmEncoding rexB in
    let instruction := push_operand (RegisterOperand register95 64 0) instruction in
    let instruction := push_operand (XmmRegisterOperand (Z.lor (Z.land (Z.shiftr modrm 3) 7) (if rexR then 8
        else 0))) instruction in
    let len := size_sub (size_add testOpcodeOffset 3) 0 in
    let instruction := with_length (u8 len) instruction in
    let! instruction := copy_bytes code 0 len instruction in
    Ok (inl instruction)
  else
  let operandCursor := size_add testOpcodeOffset 3 in
  if mode =? 3 then
    let instruction := with_opcode X_MovdRegXmm instruction in
    let! register96 := decodeRegister rmEncoding rexB in
    let instruction := push_operand (RegisterOperand register96 32 0) instruction in
    let instruction := push_operand (XmmRegisterOperand (Z.lor (Z.land (Z.shiftr modrm 3) 7) (if rexR then 8
        else 0))) instruction in
    let len := size_sub operandCursor 0 in
    let instruction := with_length (u8 len) instruction in
    let! instruction := copy_bytes code 0 len instruction in
    Ok (inl instruction)
  else
  let baseEncoding := rmEncoding in
  let index := None in
  let scale := 1 in
  let! (operandCursor, baseEncoding, index, scale) : cursor_in 4 6 * within 0 7 * option Register * one_of [1;
      2; 4; 8] :=
    (if rmEncoding =? 4 then
      if zlength code <=? operandCursor then
        reject code address "truncated MOVD store SIB byte"
      else
      let! sib := code_at code operandCursor in
      let operandCursor := size_add operandCursor 1 in
      let scaleBits := Z.land (Z.shiftr sib 6) 3 in
      let indexEncoding := Z.land (Z.shiftr sib 3) 7 in
      let baseEncoding := Z.land sib 7 in
      if (mode =? 0) && (baseEncoding =? 5) then
        reject code address "no-base MOVD store SIB addressing is not supported"
      else if negb (indexEncoding =? 4) || rexX then
        let! register98 := decodeRegister indexEncoding rexX in
        let index := Some register98 in
        let scale := Z.shiftl 1 scaleBits in
        Ok (operandCursor, baseEncoding, index, scale)
      else Ok (operandCursor, baseEncoding, index, scale)
     else
      Ok (operandCursor, baseEncoding, index, scale)) in
  let displacement := 0 in
  let! (displacement, operandCursor) : within (- 2 ^ 31) (2 ^ 31 - 1) * cursor_in 4 10 :=
    (if ripRelative then
      if size_sub (zlength code) operandCursor <? 4 then
        reject code address "truncated RIP-relative MOVD store disp32"
      else
      let! span99 := subspan code operandCursor 4 in
      let! displacement := readI32 span99 in
      let operandCursor := size_add operandCursor 4 in
      Ok (displacement, operandCursor)
     else
      if mode =? 1 then
        if zlength code <=? operandCursor then
          reject code address "truncated MOVD store disp8"
        else
        let! byte101 := code_at code operandCursor in
        let displacement := signed 8 byte101 in
        let operandCursor := size_add operandCursor 1 in
        Ok (displacement, operandCursor)
      else if mode =? 2 then
        if size_sub (zlength code) operandCursor <? 4 then
          reject code address "truncated MOVD store disp32"
        else
        let! span102 := subspan code operandCursor 4 in
        let! displacement := readI32 span102 in
        let operandCursor := size_add operandCursor 4 in
        Ok (displacement, operandCursor)
      else Ok (displacement, operandCursor)) in
  let instruction := with_opcode X_MovdMemXmm instruction in
  let! choice104 : Register := (if ripRelative then Ok Rax else (let! register105 := decodeRegister
      baseEncoding rexB in Ok register105)) in
  let instruction := push_operand (MemoryOp (mkMemory choice104 displacement 32 index scale (negb ripRelative)
      ripRelative Segment_None)) instruction in
  let instruction := push_operand (XmmRegisterOperand (Z.lor (Z.land (Z.shiftr modrm 3) 7) (if rexR then 8 else
      0))) instruction in
  let len := size_sub operandCursor 0 in
  let instruction := with_length (u8 len) instruction in
  let! instruction := copy_bytes code 0 len instruction in
  Ok (inl instruction).

Definition decodeOperandOverride_MovqXmmReg_2 (cursor : Z) (instruction : DecodedInstruction) : outcome
    Recognition :=
  let afterSizePrefix := size_add cursor 1 in
  let! byte70 := code_at code afterSizePrefix in
  let testHasRex := (0x40 <=? byte70) && (byte70 <=? 0x4F) in
  let testOpcodeOffset := size_add afterSizePrefix (if testHasRex then 1 else 0) in
  let! test74 := (if testOpcodeOffset <? zlength code then (let! byte71 := code_at code testOpcodeOffset in
      let! test73 := (if (byte71 =? 0xF) && (2 <=? size_sub (zlength code) testOpcodeOffset) then (let! byte72
      := code_at code (size_add testOpcodeOffset 1) in Ok (byte72 =? 0x6E)) else Ok false) in Ok test73) else
      Ok false) in
  if test74 then
    decodeOperandOverride_MovqXmmReg_3 afterSizePrefix testHasRex testOpcodeOffset instruction
  else
  let! test91 := (if testOpcodeOffset <? zlength code then (let! byte88 := code_at code testOpcodeOffset in
      let! test90 := (if (byte88 =? 0xF) && (2 <=? size_sub (zlength code) testOpcodeOffset) then (let! byte89
      := code_at code (size_add testOpcodeOffset 1) in Ok (byte89 =? 0x7E)) else Ok false) in Ok test90) else
      Ok false) in
  if test91 then
    decodeOperandOverride_MovqRegXmm afterSizePrefix testHasRex testOpcodeOffset instruction
  else
  let! test107 := (if testOpcodeOffset <? zlength code then (let! byte106 := code_at code testOpcodeOffset in
      Ok (byte106 =? 1)) else Ok false) in
  next! instruction :=
    (if test107 then
      if size_sub (zlength code) testOpcodeOffset <? 2 then
        reject code address "truncated add word register, register"
      else
      let rex := if testHasRex then byte70 else 0 in
      let rexW := negb (Z.land rex 8 =? 0) in
      let rexR := negb (Z.land rex 4 =? 0) in
      let rexB := negb (Z.land rex 1 =? 0) in
      let! modrm := code_at code (size_add testOpcodeOffset 1) in
      let mode := Z.land (Z.shiftr modrm 6) 3 in
      if rexW || negb (mode =? 3) then
        Ok (inr instruction)
      else
      let instruction := with_opcode X_AddRegReg instruction in
      let! register109 := decodeRegister (Z.land modrm 7) rexB in
      let instruction := push_operand (RegisterOperand register109 16 0) instruction in
      let! register110 := decodeRegister (Z.land (Z.shiftr modrm 3) 7) rexR in
      let instruction := push_operand (RegisterOperand register110 16 0) instruction in
      let len := size_sub (size_add testOpcodeOffset 2) 0 in
      let instruction := with_length (u8 len) instruction in
      let! instruction := copy_bytes code 0 len instruction in
      Ok (inl instruction)
     else
      Ok (inr instruction)) in
  let! test112 := (if testOpcodeOffset <? zlength code then (let! byte111 := code_at code testOpcodeOffset in
      Ok (byte111 =? 0x85)) else Ok false) in
  if test112 then
    if size_sub (zlength code) testOpcodeOffset <? 2 then
      reject code address "truncated test word register, register"
    else
    let rex := if testHasRex then byte70 else 0 in
    let rexW := negb (Z.land rex 8 =? 0) in
    let rexR := negb (Z.land rex 4 =? 0) in
    let rexB := negb (Z.land rex 1 =? 0) in
    let! modrm := code_at code (size_add testOpcodeOffset 1) in
    let mode := Z.land (Z.shiftr modrm 6) 3 in
    if rexW || negb (mode =? 3) then
      reject code address "only register-direct TEST r16, r16 is supported with operand-size override"
    else
    let instruction := with_opcode X_TestRegReg instruction in
    let! register114 := decodeRegister (Z.land modrm 7) rexB in
    let instruction := push_operand (RegisterOperand register114 16 0) instruction in
    let! register115 := decodeRegister (Z.land (Z.shiftr modrm 3) 7) rexR in
    let instruction := push_operand (RegisterOperand register115 16 0) instruction in
    let len := size_sub (size_add testOpcodeOffset 2) 0 in
    let instruction := with_length (u8 len) instruction in
    let! instruction := copy_bytes code 0 len instruction in
    Ok (inl instruction)
  else Ok (inr (cursor, instruction)).

Definition decodeOperandOverride_MovqXmmReg (cursor : Z) (instruction : DecodedInstruction) : outcome
    Recognition :=
  let! byte69 := code_at code cursor in
  if (byte69 =? 0x66) && (2 <=? size_sub (zlength code) cursor) then
    decodeOperandOverride_MovqXmmReg_2 cursor instruction
  else Ok (inr (cursor, instruction)).

Definition decodeOperandOverride_AndMemImm (cursor : Z) (instruction : DecodedInstruction) : outcome
    Recognition :=
  let! byte116 := code_at code cursor in
  let! wordLogicImmediateHasRex := (if (byte116 =? 0x66) && (2 <=? size_sub (zlength code) cursor) then (let!
      byte117 := code_at code (size_add cursor 1) in Ok ((0x40 <=? byte117) && (byte117 <=? 0x4F))) else Ok
      false) in
  let wordLogicImmediateOpcodeOffset := size_add (size_add cursor 1) (if wordLogicImmediateHasRex then 1 else
      0) in
  let! test120 := (if (byte116 =? 0x66) && (wordLogicImmediateOpcodeOffset <? zlength code) then (let! byte119
      := code_at code wordLogicImmediateOpcodeOffset in Ok (byte119 =? 0x81)) else Ok false) in
  if test120 then
    if size_sub (zlength code) wordLogicImmediateOpcodeOffset <? 4 then
      reject code address "truncated word [memory], imm16"
    else
    let! rex : within 0 255 := (if wordLogicImmediateHasRex then (let! byte122 := code_at code (size_add cursor
        1) in Ok byte122) else Ok 0) in
    if negb (Z.land rex 0xA =? 0) then
      reject code address "word immediate memory operation does not support REX.W/R"
    else
    let rexB := negb (Z.land rex 1 =? 0) in
    let rexX := negb (Z.land rex 2 =? 0) in
    let! modrm := code_at code (size_add wordLogicImmediateOpcodeOffset 1) in
    let mode := Z.land (Z.shiftr modrm 6) 3 in
    let extension := Z.land (Z.shiftr modrm 3) 7 in
    let rmEncoding := Z.land modrm 7 in
    if (negb (extension =? 4) && negb (extension =? 7) && negb (extension =? 1)) || (2 <? mode) || ((mode =? 0)
        && (rmEncoding =? 5)) || (rexX && negb (rmEncoding =? 4)) then
      reject code address "only OR /1, AND /4 and CMP /7 word [base+index*scale+disp8/disp32], imm16 are supported"
    else
    let operandCursor := size_add wordLogicImmediateOpcodeOffset 2 in
    let! base := decodeRegister rmEncoding rexB in
    let index := None in
    let scale := 1 in
    let! (operandCursor, base, index, scale) : cursor_in 3 5 * Register * option Register * one_of [1; 2; 4; 8]
        :=
      (if rmEncoding =? 4 then
        if zlength code <=? operandCursor then
          reject code address "truncated word logic immediate SIB"
        else
        let! sib := code_at code operandCursor in
        let operandCursor := size_add operandCursor 1 in
        let scaleBits := Z.land (Z.shiftr sib 6) 3 in
        let indexEncoding := Z.land (Z.shiftr sib 3) 7 in
        let baseEncoding := Z.land sib 7 in
        if (mode =? 0) && (baseEncoding =? 5) then
          reject code address "no-base word logic immediate SIB is not supported"
        else
        let! base := decodeRegister baseEncoding rexB in
        if negb (indexEncoding =? 4) || rexX then
          let! register127 := decodeRegister indexEncoding rexX in
          let index := Some register127 in
          let scale := Z.shiftl 1 scaleBits in
          Ok (operandCursor, base, index, scale)
        else Ok (operandCursor, base, index, scale)
       else
        Ok (operandCursor, base, index, scale)) in
    let displacement := 0 in
    let! (displacement, operandCursor) : within (- 2 ^ 31) (2 ^ 31 - 1) * cursor_in 3 9 :=
      (if mode =? 1 then
        if zlength code <=? operandCursor then
          reject code address "truncated CMP word disp8"
        else
        let! byte128 := code_at code operandCursor in
        let displacement := signed 8 byte128 in
        let operandCursor := size_add operandCursor 1 in
        Ok (displacement, operandCursor)
       else
        if mode =? 2 then
          if size_sub (zlength code) operandCursor <? 4 then
            reject code address "truncated CMP word disp32"
          else
          let! span129 := subspan code operandCursor 4 in
          let! displacement := readI32 span129 in
          let operandCursor := size_add operandCursor 4 in
          Ok (displacement, operandCursor)
        else Ok (displacement, operandCursor)) in
    if size_sub (zlength code) operandCursor <? 2 then
      reject code address "truncated CMP word immediate"
    else
    let! byte131 := code_at code operandCursor in
    let! byte132 := code_at code (size_add operandCursor 1) in
    let immediate := Z.lor byte131 (Z.shiftl byte132 8) in
    let operandCursor := size_add operandCursor 2 in
    let instruction := with_opcode (if extension =? 4 then X_AndMemImm else if extension =? 1 then X_OrMemImm
        else X_CmpMemImm) instruction in
    let instruction := push_operand (MemoryOp (mkMemory base displacement 16 index scale true false
        Segment_None)) instruction in
    let instruction := push_operand (ImmediateOperand immediate 16) instruction in
    let len := size_sub operandCursor 0 in
    let instruction := with_length (u8 len) instruction in
    let! instruction := copy_bytes code 0 len instruction in
    Ok (inl instruction)
  else Ok (inr (cursor, instruction)).

Definition decodeOperandOverride_AndRegImm (cursor : Z) (instruction : DecodedInstruction) : outcome
    Recognition :=
  let! byte133 := code_at code cursor in
  let! wordShortImmediateHasRex := (if (byte133 =? 0x66) && (2 <=? size_sub (zlength code) cursor) then (let!
      byte134 := code_at code (size_add cursor 1) in Ok ((0x40 <=? byte134) && (byte134 <=? 0x4F))) else Ok
      false) in
  let wordShortImmediateOpcodeOffset := size_add (size_add cursor 1) (if wordShortImmediateHasRex then 1 else
      0) in
  let! test137 := (if (byte133 =? 0x66) && (wordShortImmediateOpcodeOffset <? zlength code) then (let! byte136
      := code_at code wordShortImmediateOpcodeOffset in Ok (byte136 =? 0x83)) else Ok false) in
  if test137 then
    if size_sub (zlength code) wordShortImmediateOpcodeOffset <? 3 then
      reject code address "truncated cmp word [memory], imm8"
    else
    let! rex : within 0 255 := (if wordShortImmediateHasRex then (let! byte139 := code_at code (size_add cursor
        1) in Ok byte139) else Ok 0) in
    if negb (Z.land rex 0xC =? 0) then
      reject code address "CMP word immediate does not support REX.W/R"
    else
    let rexB := negb (Z.land rex 1 =? 0) in
    let rexX := negb (Z.land rex 2 =? 0) in
    let! modrm := code_at code (size_add wordShortImmediateOpcodeOffset 1) in
    let mode := Z.land (Z.shiftr modrm 6) 3 in
    let extension := Z.land (Z.shiftr modrm 3) 7 in
    let rmEncoding := Z.land modrm 7 in
    if (negb (extension =? 7) && negb ((extension =? 4) && (mode =? 3)) && negb ((extension =? 3) && (mode =?
        3)) && negb ((extension =? 1) && negb (mode =? 3))) || ((mode =? 0) && (rmEncoding =? 5)) then
      reject code address "only CMP r16 or word [base+index*scale+disp8/disp32], imm8, AND/SBB r16, imm8, and OR word [base+index*scale+disp8/disp32], imm8 are supported"
    else
    let operandCursor := size_add wordShortImmediateOpcodeOffset 2 in
    let! base := decodeRegister rmEncoding rexB in
    let index := None in
    let scale := 1 in
    let! (operandCursor, base, index, scale) : cursor_in 3 5 * Register * option Register * one_of [1; 2; 4; 8]
        :=
      (if negb (mode =? 3) && (rmEncoding =? 4) then
        if zlength code <=? operandCursor then
          reject code address "truncated CMP word SIB"
        else
        let! sib := code_at code operandCursor in
        let operandCursor := size_add operandCursor 1 in
        let scaleBits := Z.land (Z.shiftr sib 6) 3 in
        let indexEncoding := Z.land (Z.shiftr sib 3) 7 in
        let baseEncoding := Z.land sib 7 in
        if (mode =? 0) && (baseEncoding =? 5) then
          reject code address "no-base CMP word SIB is not supported"
        else
        let! base := decodeRegister baseEncoding rexB in
        if negb (indexEncoding =? 4) || rexX then
          let! register144 := decodeRegister indexEncoding rexX in
          let index := Some register144 in
          let scale := Z.shiftl 1 scaleBits in
          Ok (operandCursor, base, index, scale)
        else Ok (operandCursor, base, index, scale)
       else
        Ok (operandCursor, base, index, scale)) in
    let displacement := 0 in
    let! (displacement, operandCursor) : within (- 2 ^ 31) (2 ^ 31 - 1) * cursor_in 3 9 :=
      (if mode =? 1 then
        if zlength code <=? operandCursor then
          reject code address "truncated CMP word disp8"
        else
        let! byte145 := code_at code operandCursor in
        let displacement := signed 8 byte145 in
        let operandCursor := size_add operandCursor 1 in
        Ok (displacement, operandCursor)
       else
        if mode =? 2 then
          if size_sub (zlength code) operandCursor <? 4 then
            reject code address "truncated CMP word disp32"
          else
          let! span146 := subspan code operandCursor 4 in
          let! displacement := readI32 span146 in
          let operandCursor := size_add operandCursor 4 in
          Ok (displacement, operandCursor)
        else Ok (displacement, operandCursor)) in
    if zlength code <=? operandCursor then
      reject code address "truncated CMP word immediate"
    else
    let! byte148 := code_at code operandCursor in
    let immediate := signed 8 byte148 in
    let operandCursor := size_add operandCursor 1 in
    if (extension =? 4) || (extension =? 3) then
      let instruction := with_opcode (if extension =? 4 then X_AndRegImm else X_SbbRegImm) instruction in
      let! register149 := decodeRegister rmEncoding rexB in
      let instruction := push_operand (RegisterOperand register149 16 0) instruction in
      let instruction := push_operand (ImmediateOperand (u64 immediate) 8) instruction in
      let len := size_sub operandCursor 0 in
      let instruction := with_length (u8 len) instruction in
      let! instruction := copy_bytes code 0 len instruction in
      Ok (inl instruction)
    else if extension =? 1 then
      let instruction := with_opcode X_OrMemImm instruction in
      let instruction := push_operand (MemoryOp (mkMemory base displacement 16 index scale true false
          Segment_None)) instruction in
      let instruction := push_operand (ImmediateOperand (u64 immediate) 8) instruction in
      let len := size_sub operandCursor 0 in
      let instruction := with_length (u8 len) instruction in
      let! instruction := copy_bytes code 0 len instruction in
      Ok (inl instruction)
    else
    let instruction := with_opcode (if mode =? 3 then X_CmpRegImm else X_CmpMemImm) instruction in
    let! instruction : DecodedInstruction :=
      (if mode =? 3 then
        let! register150 := decodeRegister rmEncoding rexB in
        let instruction := push_operand (RegisterOperand register150 16 0) instruction in
        Ok instruction
       else
        let instruction := push_operand (MemoryOp (mkMemory base displacement 16 index scale true false
            Segment_None)) instruction in
        Ok instruction) in
    let instruction := push_operand (ImmediateOperand (u64 immediate) 8) instruction in
    let len := size_sub operandCursor 0 in
    let instruction := with_length (u8 len) instruction in
    let! instruction := copy_bytes code 0 len instruction in
    Ok (inl instruction)
  else Ok (inr (cursor, instruction)).

Definition decodeOperandOverride_IncReg (cursor : Z) (instruction : DecodedInstruction) : outcome Recognition :=
  let! byte151 := code_at code cursor in
  let! test153 := (if (byte151 =? 0x66) && (2 <=? size_sub (zlength code) cursor) then (let! byte152 := code_at
      code (size_add cursor 1) in Ok (byte152 =? 0xFF)) else Ok false) in
  if test153 then
    if size_sub (zlength code) cursor <? 3 then
      reject code address "truncated inc word [memory]"
    else
    let! modrm := code_at code (size_add cursor 2) in
    let mode := Z.land (Z.shiftr modrm 6) 3 in
    let extension := Z.land (Z.shiftr modrm 3) 7 in
    let rmEncoding := Z.land modrm 7 in
    if (mode =? 3) && (extension <=? 1) then
      let instruction := with_opcode (if extension =? 0 then X_IncReg else X_DecReg) instruction in
      let! register155 := decodeRegister rmEncoding false in
      let instruction := push_operand (RegisterOperand register155 16 0) instruction in
      let len := size_sub (size_add cursor 3) 0 in
      let instruction := with_length (u8 len) instruction in
      let! instruction := copy_bytes code 0 len instruction in
      Ok (inl instruction)
    else if (negb (extension =? 0) && negb (extension =? 1)) || (2 <? mode) || (rmEncoding =? 4) || ((mode =?
        0) && (rmEncoding =? 5)) then
      reject code address "only INC/DEC word register and INC/DEC word [base+disp8/disp32] are supported"
    else
    let operandCursor := size_add cursor 3 in
    let displacement := 0 in
    let! (displacement, operandCursor) : within (- 2 ^ 31) (2 ^ 31 - 1) * cursor_in 3 7 :=
      (if mode =? 1 then
        if zlength code <=? operandCursor then
          reject code address "truncated INC word disp8"
        else
        let! byte156 := code_at code operandCursor in
        let displacement := signed 8 byte156 in
        let operandCursor := size_add operandCursor 1 in
        Ok (displacement, operandCursor)
       else
        if mode =? 2 then
          if size_sub (zlength code) operandCursor <? 4 then
            reject code address "truncated INC word disp32"
          else
          let! span157 := subspan code operandCursor 4 in
          let! displacement := readI32 span157 in
          let operandCursor := size_add operandCursor 4 in
          Ok (displacement, operandCursor)
        else Ok (displacement, operandCursor)) in
    let instruction := with_opcode (if extension =? 0 then X_IncMem else X_DecMem) instruction in
    let! register159 := decodeRegister rmEncoding false in
    let instruction := push_operand (MemoryOp (mkMemory register159 displacement 16 None 1 true false
        Segment_None)) instruction in
    let len := size_sub operandCursor 0 in
    let instruction := with_length (u8 len) instruction in
    let! instruction := copy_bytes code 0 len instruction in
    Ok (inl instruction)
  else Ok (inr (cursor, instruction)).

Definition decodeOperandOverride_MovMemReg (cursor : Z) (instruction : DecodedInstruction) : outcome
    Recognition :=
  let! byte160 := code_at code cursor in
  let! wordStoreHasRex := (if (byte160 =? 0x66) && (2 <=? size_sub (zlength code) cursor) then (let! byte161 :=
      code_at code (size_add cursor 1) in Ok ((0x40 <=? byte161) && (byte161 <=? 0x4F))) else Ok false) in
  let wordStoreOpcodeOffset := size_add (size_add cursor 1) (if wordStoreHasRex then 1 else 0) in
  let! test164 := (if (byte160 =? 0x66) && (wordStoreOpcodeOffset <? zlength code) then (let! byte163 :=
      code_at code wordStoreOpcodeOffset in Ok (byte163 =? 0x89)) else Ok false) in
  if test164 then
    if size_sub (zlength code) wordStoreOpcodeOffset <? 2 then
      reject code address "truncated mov word [memory], register"
    else
    let! rex : within 0 255 := (if wordStoreHasRex then (let! byte166 := code_at code (size_add cursor 1) in Ok
        byte166) else Ok 0) in
    let rexW := negb (Z.land rex 8 =? 0) in
    let rexR := negb (Z.land rex 4 =? 0) in
    let rexX := negb (Z.land rex 2 =? 0) in
    let rexB := negb (Z.land rex 1 =? 0) in
    let! modrm := code_at code (size_add wordStoreOpcodeOffset 1) in
    let mode := Z.land (Z.shiftr modrm 6) 3 in
    let rmEncoding := Z.land modrm 7 in
    if rexW || (2 <? mode) then
      reject code address "only MOV word [base+index*scale/RIP+disp8/disp32], register is supported"
    else
    let ripRelative := (mode =? 0) && (rmEncoding =? 5) in
    let operandCursor := size_add wordStoreOpcodeOffset 2 in
    let! base := decodeRegister rmEncoding rexB in
    let index := None in
    let scale := 1 in
    let! (operandCursor, base, index, scale) : cursor_in 3 5 * Register * option Register * one_of [1; 2; 4; 8]
        :=
      (if negb ripRelative && (rmEncoding =? 4) then
        if zlength code <=? operandCursor then
          reject code address "truncated MOV word register-store SIB"
        else
        let! sib := code_at code operandCursor in
        let operandCursor := size_add operandCursor 1 in
        let scaleBits := Z.land (Z.shiftr sib 6) 3 in
        let indexEncoding := Z.land (Z.shiftr sib 3) 7 in
        let baseEncoding := Z.land sib 7 in
        if (mode =? 0) && (baseEncoding =? 5) then
          reject code address "no-base MOV word register-store SIB is not supported"
        else
        let! base := decodeRegister baseEncoding rexB in
        if negb (indexEncoding =? 4) || rexX then
          let! register171 := decodeRegister indexEncoding rexX in
          let index := Some register171 in
          let scale := Z.shiftl 1 scaleBits in
          Ok (operandCursor, base, index, scale)
        else Ok (operandCursor, base, index, scale)
       else
        if rexX then
          reject code address "REX.X requires a MOV word register-store SIB operand"
        else Ok (operandCursor, base, index, scale)) in
    let displacement := 0 in
    let! (displacement, operandCursor) : within (- 2 ^ 31) (2 ^ 31 - 1) * cursor_in 3 9 :=
      (if ripRelative then
        if size_sub (zlength code) operandCursor <? 4 then
          reject code address "truncated RIP-relative MOV word register-store disp32"
        else
        let! span172 := subspan code operandCursor 4 in
        let! displacement := readI32 span172 in
        let operandCursor := size_add operandCursor 4 in
        Ok (displacement, operandCursor)
       else
        if mode =? 1 then
          if zlength code <=? operandCursor then
            reject code address "truncated MOV word register-store disp8"
          else
          let! byte174 := code_at code operandCursor in
          let displacement := signed 8 byte174 in
          let operandCursor := size_add operandCursor 1 in
          Ok (displacement, operandCursor)
        else if mode =? 2 then
          if size_sub (zlength code) operandCursor <? 4 then
            reject code address "truncated MOV word register-store disp32"
          else
          let! span175 := subspan code operandCursor 4 in
          let! displacement := readI32 span175 in
          let operandCursor := size_add operandCursor 4 in
          Ok (displacement, operandCursor)
        else Ok (displacement, operandCursor)) in
    let! _ :=
      (if ripRelative then
        let! _ := relativeTarget address (size_sub operandCursor 0) displacement in
        Ok tt
       else
        Ok tt) in
    let instruction := with_opcode X_MovMemReg instruction in
    let instruction := push_operand (MemoryOp (if ripRelative then mkMemory Rax displacement 16 None 1 false
        true Segment_None else mkMemory base displacement 16 index scale true false Segment_None)) instruction
        in
    let! register178 := decodeRegister (Z.land (Z.shiftr modrm 3) 7) rexR in
    let instruction := push_operand (RegisterOperand register178 16 0) instruction in
    let len := size_sub operandCursor 0 in
    let instruction := with_length (u8 len) instruction in
    let! instruction := copy_bytes code 0 len instruction in
    Ok (inl instruction)
  else Ok (inr (cursor, instruction)).

Definition decodeOperandOverride_MovMemImm (cursor : Z) (instruction : DecodedInstruction) : outcome
    Recognition :=
  let! byte179 := code_at code cursor in
  let! wordImmediateHasRex := (if (byte179 =? 0x66) && (2 <=? size_sub (zlength code) cursor) then (let!
      byte180 := code_at code (size_add cursor 1) in Ok ((0x40 <=? byte180) && (byte180 <=? 0x4F))) else Ok
      false) in
  let wordImmediateOpcodeOffset := size_add (size_add cursor 1) (if wordImmediateHasRex then 1 else 0) in
  let! test183 := (if (byte179 =? 0x66) && (wordImmediateOpcodeOffset <? zlength code) then (let! byte182 :=
      code_at code wordImmediateOpcodeOffset in Ok (byte182 =? 0xC7)) else Ok false) in
  if test183 then
    if size_sub (zlength code) wordImmediateOpcodeOffset <? 4 then
      reject code address "truncated mov word [memory], imm16"
    else
    let! rex : within 0 255 := (if wordImmediateHasRex then (let! byte185 := code_at code (size_add cursor 1)
        in Ok byte185) else Ok 0) in
    let rexW := negb (Z.land rex 8 =? 0) in
    let rexR := negb (Z.land rex 4 =? 0) in
    let rexX := negb (Z.land rex 2 =? 0) in
    let rexB := negb (Z.land rex 1 =? 0) in
    let! modrm := code_at code (size_add wordImmediateOpcodeOffset 1) in
    let mode := Z.land (Z.shiftr modrm 6) 3 in
    let extension := Z.land (Z.shiftr modrm 3) 7 in
    let rmEncoding := Z.land modrm 7 in
    let operandCursor := size_add wordImmediateOpcodeOffset 2 in
    let ripRelative := (mode =? 0) && (rmEncoding =? 5) in
    if rexW || rexR || (2 <? mode) || negb (extension =? 0) then
      reject code address "only MOV word [base/RIP+index*scale+disp8/disp32], imm16 is supported"
    else
    let! base := decodeRegister rmEncoding rexB in
    let index := None in
    let scale := 1 in
    let hasBase := negb ripRelative in
    let! (operandCursor, base, index, scale) : cursor_in 3 5 * Register * option Register * one_of [1; 2; 4; 8]
        :=
      (if negb ripRelative && (rmEncoding =? 4) then
        if zlength code <=? operandCursor then
          reject code address "truncated MOV word immediate SIB"
        else
        let! sib := code_at code operandCursor in
        let operandCursor := size_add operandCursor 1 in
        let scaleBits := Z.land (Z.shiftr sib 6) 3 in
        let indexEncoding := Z.land (Z.shiftr sib 3) 7 in
        let baseEncoding := Z.land sib 7 in
        if (mode =? 0) && (baseEncoding =? 5) && negb rexB then
          reject code address "no-base MOV word immediate SIB is not supported"
        else
        let! base := decodeRegister baseEncoding rexB in
        if negb (indexEncoding =? 4) || rexX then
          let! register190 := decodeRegister indexEncoding rexX in
          let index := Some register190 in
          let scale := Z.shiftl 1 scaleBits in
          Ok (operandCursor, base, index, scale)
        else Ok (operandCursor, base, index, scale)
       else
        if rexX then
          reject code address "REX.X requires a MOV word immediate SIB operand"
        else Ok (operandCursor, base, index, scale)) in
    let displacement := 0 in
    let! (displacement, operandCursor) : within (- 2 ^ 31) (2 ^ 31 - 1) * cursor_in 3 9 :=
      (if ripRelative || (mode =? 2) then
        if size_sub (zlength code) operandCursor <? 4 then
          reject code address "truncated MOV word memory disp32"
        else
        let! span191 := subspan code operandCursor 4 in
        let! displacement := readI32 span191 in
        let operandCursor := size_add operandCursor 4 in
        Ok (displacement, operandCursor)
       else
        if mode =? 1 then
          if zlength code <=? operandCursor then
            reject code address "truncated MOV word memory disp8"
          else
          let! byte193 := code_at code operandCursor in
          let displacement := signed 8 byte193 in
          let operandCursor := size_add operandCursor 1 in
          Ok (displacement, operandCursor)
        else Ok (displacement, operandCursor)) in
    if size_sub (zlength code) operandCursor <? 2 then
      reject code address "truncated MOV word imm16"
    else
    let! byte194 := code_at code operandCursor in
    let! byte195 := code_at code (size_add operandCursor 1) in
    let immediate := Z.lor byte194 (Z.shiftl byte195 8) in
    let operandCursor := size_add operandCursor 2 in
    let! _ :=
      (if ripRelative then
        let! _ := relativeTarget address (size_sub operandCursor 0) displacement in
        Ok tt
       else
        Ok tt) in
    let instruction := with_opcode X_MovMemImm instruction in
    let instruction := push_operand (MemoryOp (mkMemory (if ripRelative then Rax else base) displacement 16
        index scale hasBase ripRelative Segment_None)) instruction in
    let instruction := push_operand (ImmediateOperand immediate 16) instruction in
    let len := size_sub operandCursor 0 in
    let instruction := with_length (u8 len) instruction in
    let! instruction := copy_bytes code 0 len instruction in
    Ok (inl instruction)
  else Ok (inr (cursor, instruction)).

Definition decodeOperandOverride (cursor : Z) (instruction : DecodedInstruction) : outcome Recognition :=
  next! (cursor, instruction) := decodeOperandOverride_UnpcklpsRegReg cursor instruction in
  next! (cursor, instruction) := decodeOperandOverride_HaddpdRegReg cursor instruction in
  next! (cursor, instruction) := decodeOperandOverride_UnpckhpsRegReg cursor instruction in
  next! (cursor, instruction) := decodeOperandOverride_SqrtpdRegReg cursor instruction in
  next! (cursor, instruction) := decodeOperandOverride_XorpdRegReg cursor instruction in
  next! (cursor, instruction) := decodeOperandOverride_MovqXmmReg cursor instruction in
  next! (cursor, instruction) := decodeOperandOverride_AndMemImm cursor instruction in
  next! (cursor, instruction) := decodeOperandOverride_AndRegImm cursor instruction in
  next! (cursor, instruction) := decodeOperandOverride_IncReg cursor instruction in
  next! (cursor, instruction) := decodeOperandOverride_MovMemReg cursor instruction in
  decodeOperandOverride_MovMemImm cursor instruction.

End Decode.
