(* ===== verification/DecodeScalarSpecial.v ===== *)
(** Recognition family [decodeScalarSpecial] ([src/x86/DecodeScalarSpecial.cpp]): PUSH, POP, NOP, the string and system instructions, SETcc, MOVZX, MOVSX, bit scans, BSWAP and their relatives.

    Each definition is one group of statements of the C++ function, in its order; it
    recognises an instruction ([inl]), rejects the bytes, or leaves the cursor and the
    instruction to the next group ([inr]). *)
From S2P Require Import Prelude X86State ExecutionContext IR X86Instruction DecodeBase.

Section Decode.
Context (code : list Z) (address : Z).

Definition decodeScalarSpecial_Push (cursor : Z) (instruction : DecodedInstruction) : outcome Recognition :=
  let! byte1 := code_at code cursor in
  if byte1 =? 0x6A then
    if size_sub (zlength code) cursor <? 2 then
      reject code address "truncated push imm8"
    else
    let! byte2 := code_at code (size_add cursor 1) in
    let immediate := signed 8 byte2 in
    let instruction := with_opcode X_Push instruction in
    let instruction := with_length 2 instruction in
    let instruction := with_byte 0 byte1 instruction in
    let instruction := with_byte 1 byte2 instruction in
    let instruction := push_operand (ImmediateOperand (u64 immediate) 8) instruction in
    Ok (inl instruction)
  else Ok (inr (cursor, instruction)).

Definition decodeScalarSpecial_Push_2 (cursor : Z) (instruction : DecodedInstruction) : outcome Recognition :=
  let! byte3 := code_at code cursor in
  if byte3 =? 0x68 then
    if size_sub (zlength code) cursor <? 5 then
      reject code address "truncated push imm32"
    else
    let! span4 := subspan code (size_add cursor 1) 4 in
    let! immediate := readI32 span4 in
    let instruction := with_opcode X_Push instruction in
    let instruction := with_length 5 instruction in
    let! instruction := copy_bytes code cursor 5 instruction in
    let instruction := push_operand (ImmediateOperand (u64 immediate) 32) instruction in
    Ok (inl instruction)
  else Ok (inr (cursor, instruction)).

Definition decodeScalarSpecial_TestRegImm (cursor : Z) (instruction : DecodedInstruction) : outcome Recognition
    :=
  let! byte6 := code_at code cursor in
  if byte6 =? 0xA8 then
    if size_sub (zlength code) cursor <? 2 then
      reject code address "truncated test al, imm8"
    else
    let instruction := with_opcode X_TestRegImm instruction in
    let instruction := with_length 2 instruction in
    let instruction := with_byte 0 byte6 instruction in
    let! byte7 := code_at code (size_add cursor 1) in
    let instruction := with_byte 1 byte7 instruction in
    let instruction := push_operand (RegisterOperand Rax 8 0) instruction in
    let instruction := push_operand (ImmediateOperand byte7 8) instruction in
    Ok (inl instruction)
  else Ok (inr (cursor, instruction)).

Definition decodeScalarSpecial_TestRegImm_2 (cursor : Z) (instruction : DecodedInstruction) : outcome
    Recognition :=
  let! byte8 := code_at code cursor in
  if byte8 =? 0xA9 then
    if size_sub (zlength code) cursor <? 5 then
      reject code address "truncated test eax, imm32"
    else
    let! span9 := subspan code (size_add cursor 1) 4 in
    let! value10 := readI32 span9 in
    let immediate := u32 value10 in
    let instruction := with_opcode X_TestRegImm instruction in
    let instruction := with_length 5 instruction in
    let! instruction := copy_bytes code cursor 5 instruction in
    let instruction := push_operand (RegisterOperand Rax 32 0) instruction in
    let instruction := push_operand (ImmediateOperand immediate 32) instruction in
    Ok (inl instruction)
  else Ok (inr (cursor, instruction)).

Definition decodeScalarSpecial_RolRegImm (cursor : Z) (instruction : DecodedInstruction) : outcome Recognition
    :=
  let! byte11 := code_at code cursor in
  let! test13 := (if (byte11 =? 0x66) && (2 <=? size_sub (zlength code) cursor) then (let! byte12 := code_at
      code (size_add cursor 1) in Ok (byte12 =? 0xC1)) else Ok false) in
  if test13 then
    if size_sub (zlength code) cursor <? 4 then
      reject code address "truncated rol r16, imm8"
    else
    let! modrm := code_at code (size_add cursor 2) in
    let mode := Z.land (Z.shiftr modrm 6) 3 in
    let extension := Z.land (Z.shiftr modrm 3) 7 in
    if negb (mode =? 3) || negb (extension =? 0) then
      reject code address "only register-direct ROL r16, imm8 is supported from 66 C1"
    else
    let instruction := with_opcode X_RolRegImm instruction in
    let instruction := with_length 4 instruction in
    let! instruction := copy_bytes code cursor 4 instruction in
    let! register15 := decodeRegister (Z.land modrm 7) false in
    let instruction := push_operand (RegisterOperand register15 16 0) instruction in
    let! byte16 := code_at code (size_add cursor 3) in
    let instruction := push_operand (ImmediateOperand byte16 8) instruction in
    Ok (inl instruction)
  else Ok (inr (cursor, instruction)).

Definition decodeScalarSpecial_NotReg_2 (cursor : Z) (testImmediateHasGs : bool) (testImmediateBase : Z)
    (testImmediateHasRex : bool) (testImmediateOpcodeOffset : Z) (instruction : DecodedInstruction) : outcome
    Recognition :=
  if size_sub (zlength code) testImmediateOpcodeOffset <? 2 then
    reject code address "truncated F6 ModRM byte"
  else
  let! rex : within 0 255 := (if testImmediateHasRex then (let! byte23 := code_at code testImmediateBase in Ok
      byte23) else Ok 0) in
  let rexX := negb (Z.land rex 2 =? 0) in
  let rexB := negb (Z.land rex 1 =? 0) in
  let! modrm := code_at code (size_add testImmediateOpcodeOffset 1) in
  let mode := Z.land (Z.shiftr modrm 6) 3 in
  let extension := Z.land (Z.shiftr modrm 3) 7 in
  let rmEncoding := Z.land modrm 7 in
  if (extension =? 2) && (mode =? 3) && (Z.land rex 4 =? 0) && (testImmediateHasRex || (rmEncoding <? 4)) then
    let instruction := with_opcode X_NotReg instruction in
    let! register25 := decodeRegister rmEncoding rexB in
    let instruction := push_operand (RegisterOperand register25 8 0) instruction in
    let len := size_sub (size_add testImmediateOpcodeOffset 2) 0 in
    let instruction := with_length (u8 len) instruction in
    let! instruction := copy_bytes code 0 len instruction in
    Ok (inl instruction)
  else if (extension =? 3) && (mode =? 3) && (Z.land rex 6 =? 0) && (testImmediateHasRex || (rmEncoding <? 4))
      then
    let instruction := with_opcode X_NegReg instruction in
    let! register26 := decodeRegister rmEncoding rexB in
    let instruction := push_operand (RegisterOperand register26 8 0) instruction in
    let len := size_sub (size_add testImmediateOpcodeOffset 2) 0 in
    let instruction := with_length (u8 len) instruction in
    let! instruction := copy_bytes code 0 len instruction in
    Ok (inl instruction)
  else if (extension =? 6) && (mode =? 3) && (Z.land rex 6 =? 0) && (testImmediateHasRex || (rmEncoding <? 4))
      then
    let instruction := with_opcode X_DivReg instruction in
    let! register27 := decodeRegister rmEncoding rexB in
    let instruction := push_operand (RegisterOperand register27 8 0) instruction in
    let len := size_sub (size_add testImmediateOpcodeOffset 2) 0 in
    let instruction := with_length (u8 len) instruction in
    let! instruction := copy_bytes code 0 len instruction in
    Ok (inl instruction)
  else if negb (extension =? 0) || ((mode =? 3) && negb testImmediateHasRex && (4 <=? rmEncoding)) then
    reject code address "only representable-byte register/memory TEST /0, register NOT /2, register NEG /3, and register DIV /6 from opcode F6 are supported"
  else
  let operandCursor := size_add testImmediateOpcodeOffset 2 in
  let! base := decodeRegister rmEncoding rexB in
  let index := None in
  let scale := 1 in
  let hasBase := true in
  let ripRelative := (mode =? 0) && (rmEncoding =? 5) in
  let! (operandCursor, hasBase, base, index, scale) : cursor_in 2 5 * bool * Register * option Register *
      one_of [1; 2; 4; 8] :=
    (if negb (mode =? 3) && (rmEncoding =? 4) then
      if zlength code <=? operandCursor then
        reject code address "truncated TEST byte SIB"
      else
      let! sib := code_at code operandCursor in
      let operandCursor := size_add operandCursor 1 in
      let scaleBits := Z.land (Z.shiftr sib 6) 3 in
      let indexEncoding := Z.land (Z.shiftr sib 3) 7 in
      let baseEncoding := Z.land sib 7 in
      let hasBase := negb ((mode =? 0) && (baseEncoding =? 5)) in
      let! base : Register :=
        (if hasBase then
          let! base := decodeRegister baseEncoding rexB in
          Ok base
         else
          Ok base) in
      if negb (indexEncoding =? 4) || rexX then
        let! register31 := decodeRegister indexEncoding rexX in
        let index := Some register31 in
        let scale := Z.shiftl 1 scaleBits in
        Ok (operandCursor, hasBase, base, index, scale)
      else Ok (operandCursor, hasBase, base, index, scale)
     else
      Ok (operandCursor, hasBase, base, index, scale)) in
  let displacement := 0 in
  let! (displacement, operandCursor) : within (- 2 ^ 31) (2 ^ 31 - 1) * cursor_in 2 9 :=
    (if ripRelative || (negb hasBase && (mode =? 0)) || (mode =? 2) then
      if size_sub (zlength code) operandCursor <? 4 then
        reject code address "truncated TEST byte disp32"
      else
      let! span32 := subspan code operandCursor 4 in
      let! displacement := readI32 span32 in
      let operandCursor := size_add operandCursor 4 in
      Ok (displacement, operandCursor)
     else
      if mode =? 1 then
        if zlength code <=? operandCursor then
          reject code address "truncated TEST byte disp8"
        else
        let! byte34 := code_at code operandCursor in
        let displacement := signed 8 byte34 in
        let operandCursor := size_add operandCursor 1 in
        Ok (displacement, operandCursor)
      else Ok (displacement, operandCursor)) in
  if zlength code <=? operandCursor then
    reject code address "truncated TEST byte immediate"
  else
  let! immediate := code_at code operandCursor in
  let operandCursor := size_add operandCursor 1 in
  let len := size_sub operandCursor 0 in
  if 15 <? len then
    reject code address "TEST byte instruction is too long"
  else
  let! _ :=
    (if ripRelative then
      let! _ := relativeTarget address len displacement in
      Ok tt
     else
      Ok tt) in
  let instruction := with_opcode (if mode =? 3 then X_TestRegImm else X_TestMemImm) instruction in
  let instruction := with_length (u8 len) instruction in
  let! instruction := copy_bytes code cursor (d_length instruction) instruction in
  let! instruction : DecodedInstruction :=
    (if mode =? 3 then
      let! register37 := decodeRegister rmEncoding rexB in
      let instruction := push_operand (RegisterOperand register37 8 0) instruction in
      Ok instruction
     else
      let instruction := push_operand (MemoryOp (if ripRelative then mkMemory Rax displacement 8 None 1 false
          true (if testImmediateHasGs then Segment_Gs else Segment_None) else mkMemory base displacement 8
          index scale hasBase false (if testImmediateHasGs then Segment_Gs else Segment_None))) instruction in
      Ok instruction) in
  let instruction := push_operand (ImmediateOperand immediate 8) instruction in
  Ok (inl instruction).

Definition decodeScalarSpecial_NotReg (cursor : Z) (instruction : DecodedInstruction) : outcome Recognition :=
  let! byte17 := code_at code cursor in
  let testImmediateHasGs := (byte17 =? 0x65) && (2 <=? size_sub (zlength code) cursor) in
  let testImmediateBase := size_add cursor (if testImmediateHasGs then 1 else 0) in
  let! testImmediateHasRex := (if testImmediateBase <? zlength code then (let! byte18 := code_at code
      testImmediateBase in Ok ((0x40 <=? byte18) && (byte18 <=? 0x4F))) else Ok false) in
  let testImmediateOpcodeOffset := size_add testImmediateBase (if testImmediateHasRex then 1 else 0) in
  let! test21 := (if testImmediateOpcodeOffset <? zlength code then (let! byte20 := code_at code
      testImmediateOpcodeOffset in Ok (byte20 =? 0xF6)) else Ok false) in
  if test21 then
    decodeScalarSpecial_NotReg_2 cursor testImmediateHasGs testImmediateBase testImmediateHasRex
        testImmediateOpcodeOffset instruction
  else Ok (inr (cursor, instruction)).

Definition decodeScalarSpecial_AddRegImm (cursor : Z) (instruction : DecodedInstruction) : outcome Recognition
    :=
  let! byte38 := code_at code cursor in
  if byte38 =? 4 then
    if size_sub (zlength code) cursor <? 2 then
      reject code address "truncated add al, imm8"
    else
    let instruction := with_opcode X_AddRegImm instruction in
    let instruction := with_length 2 instruction in
    let! instruction := copy_bytes code cursor 2 instruction in
    let instruction := push_operand (RegisterOperand Rax 8 0) instruction in
    let! byte39 := code_at code (size_add cursor 1) in
    let instruction := push_operand (ImmediateOperand byte39 8) instruction in
    Ok (inl instruction)
  else Ok (inr (cursor, instruction)).

Definition decodeScalarSpecial_CmpRegImm (cursor : Z) (instruction : DecodedInstruction) : outcome Recognition
    :=
  let! byte40 := code_at code cursor in
  if byte40 =? 0x3C then
    if size_sub (zlength code) cursor <? 2 then
      reject code address "truncated cmp al, imm8"
    else
    let instruction := with_opcode X_CmpRegImm instruction in
    let instruction := with_length 2 instruction in
    let! instruction := copy_bytes code cursor 2 instruction in
    let instruction := push_operand (RegisterOperand Rax 8 0) instruction in
    let! byte41 := code_at code (size_add cursor 1) in
    let instruction := push_operand (ImmediateOperand byte41 8) instruction in
    Ok (inl instruction)
  else Ok (inr (cursor, instruction)).

Definition decodeScalarSpecial_CmpRegImm_2 (cursor : Z) (instruction : DecodedInstruction) : outcome
    Recognition :=
  let! byte42 := code_at code cursor in
  if byte42 =? 0x3D then
    if size_sub (zlength code) cursor <? 5 then
      reject code address "truncated cmp eax, imm32"
    else
    let! span43 := subspan code (size_add cursor 1) 4 in
    let! value44 := readI32 span43 in
    let immediate := u32 value44 in
    let instruction := with_opcode X_CmpRegImm instruction in
    let instruction := with_length 5 instruction in
    let! instruction := copy_bytes code cursor 5 instruction in
    let instruction := push_operand (RegisterOperand Rax 32 0) instruction in
    let instruction := push_operand (ImmediateOperand immediate 32) instruction in
    Ok (inl instruction)
  else Ok (inr (cursor, instruction)).

Definition decodeScalarSpecial_MovRegImm (cursor : Z) (instruction : DecodedInstruction) : outcome Recognition
    :=
  let! byte45 := code_at code cursor in
  if (0xB0 <=? byte45) && (byte45 <=? 0xB3) then
    if size_sub (zlength code) cursor <? 2 then
      reject code address "truncated mov low-byte register, imm8"
    else
    let opcode := byte45 in
    let instruction := with_opcode X_MovRegImm instruction in
    let instruction := with_length 2 instruction in
    let instruction := with_byte 0 opcode instruction in
    let! byte46 := code_at code (size_add cursor 1) in
    let instruction := with_byte 1 byte46 instruction in
    let! register47 := decodeRegister (u8 (u32 (opcode - 0xB0))) false in
    let instruction := push_operand (RegisterOperand register47 8 0) instruction in
    let instruction := push_operand (ImmediateOperand byte46 8) instruction in
    Ok (inl instruction)
  else Ok (inr (cursor, instruction)).

Definition decodeScalarSpecial_MovRegImm_2 (cursor : Z) (instruction : DecodedInstruction) : outcome
    Recognition :=
  let! byte48 := code_at code cursor in
  if (0xB8 <=? byte48) && (byte48 <=? 0xBF) then
    if size_sub (zlength code) cursor <? 5 then
      reject code address "truncated mov r32, imm32"
    else
    let opcode := byte48 in
    let! span49 := subspan code (size_add cursor 1) 4 in
    let! value50 := readI32 span49 in
    let immediate := u32 value50 in
    let instruction := with_opcode X_MovRegImm instruction in
    let instruction := with_length 5 instruction in
    let! instruction := copy_bytes code cursor 5 instruction in
    let! register51 := decodeRegister (u8 (u32 (opcode - 0xB8))) false in
    let instruction := push_operand (RegisterOperand register51 32 0) instruction in
    let instruction := push_operand (ImmediateOperand immediate 32) instruction in
    Ok (inl instruction)
  else Ok (inr (cursor, instruction)).

Definition decodeScalarSpecial_XorRegImm (cursor : Z) (instruction : DecodedInstruction) : outcome Recognition
    :=
  let! byte52 := code_at code cursor in
  if byte52 =? 0x35 then
    if size_sub (zlength code) cursor <? 5 then
      reject code address "truncated xor eax, imm32"
    else
    let! span53 := subspan code (size_add cursor 1) 4 in
    let! value54 := readI32 span53 in
    let immediate := u32 value54 in
    let instruction := with_opcode X_XorRegImm instruction in
    let instruction := with_length 5 instruction in
    let! instruction := copy_bytes code cursor 5 instruction in
    let instruction := push_operand (RegisterOperand Rax 32 0) instruction in
    let instruction := push_operand (ImmediateOperand immediate 32) instruction in
    Ok (inl instruction)
  else Ok (inr (cursor, instruction)).

Definition decodeScalarSpecial_OrRegImm (cursor : Z) (instruction : DecodedInstruction) : outcome Recognition :=
  let! byte55 := code_at code cursor in
  if byte55 =? 0xD then
    if size_sub (zlength code) cursor <? 5 then
      reject code address "truncated or eax, imm32"
    else
    let! span56 := subspan code (size_add cursor 1) 4 in
    let! value57 := readI32 span56 in
    let immediate := u32 value57 in
    let instruction := with_opcode X_OrRegImm instruction in
    let instruction := with_length 5 instruction in
    let! instruction := copy_bytes code cursor 5 instruction in
    let instruction := push_operand (RegisterOperand Rax 32 0) instruction in
    let instruction := push_operand (ImmediateOperand immediate 32) instruction in
    Ok (inl instruction)
  else Ok (inr (cursor, instruction)).

Definition decodeScalarSpecial_Push_3 (cursor : Z) (instruction : DecodedInstruction) : outcome Recognition :=
  let! byte58 := code_at code cursor in
  let! test61 := (if (0x50 <=? byte58) && (byte58 <=? 0x57) then Ok true else (let! test60 := (if (0x40 <=?
      byte58) && (byte58 <=? 0x4F) && (2 <=? size_sub (zlength code) cursor) then (let! byte59 := code_at code
      (size_add cursor 1) in Ok ((0x50 <=? byte59) && (byte59 <=? 0x57))) else Ok false) in Ok test60)) in
  if test61 then
    let hasRex := (0x40 <=? byte58) && (byte58 <=? 0x4F) in
    let rex := if hasRex then byte58 else 0 in
    let! opcode := code_at code (size_add cursor (if hasRex then 1 else 0)) in
    let instruction := with_opcode X_Push instruction in
    let instruction := with_length (if hasRex then 2 else 1) instruction in
    let instruction := with_byte 0 byte58 instruction in
    let instruction :=
      (if hasRex then
        let instruction := with_byte 1 opcode instruction in
        instruction
       else
        instruction) in
    let! register63 := decodeRegister (u8 (u32 (opcode - 0x50))) (negb (Z.land rex 1 =? 0)) in
    let instruction := push_operand (RegisterOperand register63 64 0) instruction in
    Ok (inl instruction)
  else Ok (inr (cursor, instruction)).

Definition decodeScalarSpecial_Pop (cursor : Z) (instruction : DecodedInstruction) : outcome Recognition :=
  let! byte64 := code_at code cursor in
  let! test67 := (if (0x58 <=? byte64) && (byte64 <=? 0x5F) then Ok true else (let! test66 := (if (0x40 <=?
      byte64) && (byte64 <=? 0x4F) && (2 <=? size_sub (zlength code) cursor) then (let! byte65 := code_at code
      (size_add cursor 1) in Ok ((0x58 <=? byte65) && (byte65 <=? 0x5F))) else Ok false) in Ok test66)) in
  if test67 then
    let hasRex := (0x40 <=? byte64) && (byte64 <=? 0x4F) in
    let rex := if hasRex then byte64 else 0 in
    let! opcode := code_at code (size_add cursor (if hasRex then 1 else 0)) in
    let instruction := with_opcode X_Pop instruction in
    let instruction := with_length (if hasRex then 2 else 1) instruction in
    let instruction := with_byte 0 byte64 instruction in
    let instruction :=
      (if hasRex then
        let instruction := with_byte 1 opcode instruction in
        instruction
       else
        instruction) in
    let! register69 := decodeRegister (u8 (u32 (opcode - 0x58))) (negb (Z.land rex 1 =? 0)) in
    let instruction := push_operand (RegisterOperand register69 64 0) instruction in
    Ok (inl instruction)
  else Ok (inr (cursor, instruction)).

Definition decodeScalarSpecial_Leave (cursor : Z) (instruction : DecodedInstruction) : outcome Recognition :=
  let! byte70 := code_at code cursor in
  if byte70 =? 0xC9 then
    let instruction := with_opcode X_Leave instruction in
    let instruction := with_length 1 instruction in
    let instruction := with_byte 0 byte70 instruction in
    Ok (inl instruction)
  else
  let! test72 := (if (byte70 =? 0xF) && (2 <=? size_sub (zlength code) cursor) then (let! byte71 := code_at
      code (size_add cursor 1) in Ok (byte71 =? 5)) else Ok false) in
  if test72 then
    let instruction := with_opcode X_Syscall instruction in
    let instruction := with_length 2 instruction in
    let instruction := with_byte 0 0xF instruction in
    let instruction := with_byte 1 5 instruction in
    let! target73 := relativeTarget address 2 0 in
    let instruction := with_fallthrough target73 instruction in
    Ok (inl instruction)
  else
  let! test75 := (if (byte70 =? 0x66) && (2 <=? size_sub (zlength code) cursor) then (let! byte74 := code_at
      code (size_add cursor 1) in Ok (byte74 =? 0x90)) else Ok false) in
  if test75 then
    let instruction := with_opcode X_Nop instruction in
    let instruction := with_length 2 instruction in
    let instruction := with_byte 0 0x66 instruction in
    let instruction := with_byte 1 0x90 instruction in
    Ok (inl instruction)
  else if byte70 =? 0x90 then
    let instruction := with_opcode X_Nop instruction in
    let instruction := with_length 1 instruction in
    let instruction := with_byte 0 0x90 instruction in
    Ok (inl instruction)
  else Ok (inr (cursor, instruction)).

Fixpoint decodeScalarSpecial_skipPrefixes (fuel : nat) (nopOpcodeOffset : Z) : outcome Z :=
  match fuel with
  | O => Undefined
  | S fuel =>
      let! test79 := (if nopOpcodeOffset <? zlength code then (let! byte78 := code_at code nopOpcodeOffset in
          Ok ((byte78 =? 0x66) || (byte78 =? 0x2E))) else Ok false) in
      if test79 then decodeScalarSpecial_skipPrefixes fuel (size_add nopOpcodeOffset 1) else Ok nopOpcodeOffset
  end.

Definition decodeScalarSpecial_Nop (cursor : Z) (instruction : DecodedInstruction) : outcome Recognition :=
  let nopOpcodeOffset := cursor in
  let! nopOpcodeOffset := decodeScalarSpecial_skipPrefixes (S (length code)) nopOpcodeOffset in
  let! test81 := (if nopOpcodeOffset <? zlength code then (let! byte80 := code_at code nopOpcodeOffset in Ok
      ((0x40 <=? byte80) && (byte80 <=? 0x4F))) else Ok false) in
  let nopOpcodeOffset :=
    (if test81 then
      let nopOpcodeOffset := size_add nopOpcodeOffset 1 in
      nopOpcodeOffset
     else
      nopOpcodeOffset) in
  let! test85 := (if 2 <=? size_sub (zlength code) nopOpcodeOffset then (let! byte82 := code_at code
      nopOpcodeOffset in let! test84 := (if byte82 =? 0xF then (let! byte83 := code_at code (size_add
      nopOpcodeOffset 1) in Ok (byte83 =? 0x1F)) else Ok false) in Ok test84) else Ok false) in
  if test85 then
    let nopCursor := size_add nopOpcodeOffset 2 in
    if zlength code <=? nopCursor then
      reject code address "truncated multi-byte NOP"
    else
    let! modrm := code_at code nopCursor in
    let nopCursor := size_add nopCursor 1 in
    let mode := Z.land (Z.shiftr modrm 6) 3 in
    let extension := Z.land (Z.shiftr modrm 3) 7 in
    let rmEncoding := Z.land modrm 7 in
    if negb (extension =? 0) then
      reject code address "multi-byte NOP requires ModRM /0"
    else
    let requiresDisp32 := (mode =? 0) && (rmEncoding =? 5) in
    let! (nopCursor, requiresDisp32) : Z * bool :=
      (if negb (mode =? 3) && (rmEncoding =? 4) then
        if zlength code <=? nopCursor then
          reject code address "truncated multi-byte NOP SIB"
        else
        let! sib := code_at code nopCursor in
        let nopCursor := size_add nopCursor 1 in
        let requiresDisp32 := (mode =? 0) && (Z.land sib 7 =? 5) in
        Ok (nopCursor, requiresDisp32)
       else
        Ok (nopCursor, requiresDisp32)) in
    let displacementSize := if mode =? 1 then 1 else if (mode =? 2) || requiresDisp32 then 4 else 0 in
    if size_sub (zlength code) nopCursor <? displacementSize then
      reject code address "truncated multi-byte NOP displacement"
    else
    let nopCursor := size_add nopCursor displacementSize in
    let instruction := with_opcode X_Nop instruction in
    let len := size_sub nopCursor 0 in
    if 15 <? len then
      reject code address "multi-byte NOP exceeds x86 instruction length"
    else
    let! _ := relativeTarget address len 0 in
    let instruction := with_length (u8 len) instruction in
    let! instruction := copy_bytes code 0 len instruction in
    Ok (inl instruction)
  else Ok (inr (cursor, instruction)).

Definition decodeScalarSpecial_Cld (cursor : Z) (instruction : DecodedInstruction) : outcome Recognition :=
  let! byte89 := code_at code cursor in
  if (byte89 =? 0xFC) || (byte89 =? 0xFD) then
    let instruction := with_opcode (if byte89 =? 0xFC then X_Cld else X_Std) instruction in
    let instruction := with_length 1 instruction in
    let instruction := with_byte 0 byte89 instruction in
    Ok (inl instruction)
  else
  let! test93 := (if (byte89 =? 0xF) && (3 <=? size_sub (zlength code) cursor) then (let! byte90 := code_at
      code (size_add cursor 1) in let! test92 := (if byte90 =? 0xAE then (let! byte91 := code_at code (size_add
      cursor 2) in Ok (byte91 =? 0xE8)) else Ok false) in Ok test92) else Ok false) in
  if test93 then
    let instruction := with_opcode X_Lfence instruction in
    let instruction := with_length 3 instruction in
    let! instruction := copy_bytes code cursor 3 instruction in
    Ok (inl instruction)
  else
  let! test97 := (if (byte89 =? 0xF) && (3 <=? size_sub (zlength code) cursor) then (let! byte94 := code_at
      code (size_add cursor 1) in let! test96 := (if byte94 =? 0xAE then (let! byte95 := code_at code (size_add
      cursor 2) in Ok (byte95 =? 0xF0)) else Ok false) in Ok test96) else Ok false) in
  if test97 then
    let instruction := with_opcode X_Mfence instruction in
    let instruction := with_length 3 instruction in
    let! instruction := copy_bytes code cursor 3 instruction in
    Ok (inl instruction)
  else
  let! test99 := (if (byte89 =? 0xF) && (2 <=? size_sub (zlength code) cursor) then (let! byte98 := code_at
      code (size_add cursor 1) in Ok (byte98 =? 0x31)) else Ok false) in
  if test99 then
    let instruction := with_opcode X_Rdtsc instruction in
    let instruction := with_length 2 instruction in
    let instruction := with_byte 0 0xF instruction in
    let instruction := with_byte 1 0x31 instruction in
    Ok (inl instruction)
  else
  let! test101 := (if (byte89 =? 0xF) && (2 <=? size_sub (zlength code) cursor) then (let! byte100 := code_at
      code (size_add cursor 1) in Ok (byte100 =? 0xA2)) else Ok false) in
  if test101 then
    let instruction := with_opcode X_Cpuid instruction in
    let instruction := with_length 2 instruction in
    let instruction := with_byte 0 0xF instruction in
    let instruction := with_byte 1 0xA2 instruction in
    Ok (inl instruction)
  else Ok (inr (cursor, instruction)).

Definition decodeScalarSpecial_SetccReg (cursor : Z) (instruction : DecodedInstruction) : outcome Recognition :=
  let! byte102 := code_at code cursor in
  let setHasRex := (0x40 <=? byte102) && (byte102 <=? 0x4F) in
  let setOpcodeOffset := size_add cursor (if setHasRex then 1 else 0) in
  let! test106 := (if 2 <=? size_sub (zlength code) setOpcodeOffset then (let! byte103 := code_at code
      setOpcodeOffset in let! test105 := (if byte103 =? 0xF then (let! byte104 := code_at code (size_add
      setOpcodeOffset 1) in Ok ((byte104 =? 0x90) || (byte104 =? 0x92) || (byte104 =? 0x93) || (byte104 =?
      0x94) || (byte104 =? 0x95) || (byte104 =? 0x96) || (byte104 =? 0x97) || (byte104 =? 0x98) || (byte104 =?
      0x99) || (byte104 =? 0x9C) || (byte104 =? 0x9D) || (byte104 =? 0x9E) || (byte104 =? 0x9F))) else Ok
      false) in Ok test105) else Ok false) in
  if test106 then
    if size_sub (zlength code) setOpcodeOffset <? 3 then
      reject code address "truncated setcc r8"
    else
    let rex := if setHasRex then byte102 else 0 in
    let! conditionOpcode := code_at code (size_add setOpcodeOffset 1) in
    let! modrm := code_at code (size_add setOpcodeOffset 2) in
    let mode := Z.land (Z.shiftr modrm 6) 3 in
    let extension := Z.land (Z.shiftr modrm 3) 7 in
    let rmEncoding := Z.land modrm 7 in
    let rexX := negb (Z.land rex 2 =? 0) in
    let rexB := negb (Z.land rex 1 =? 0) in
    let ripRelative := (mode =? 0) && (rmEncoding =? 5) in
    if negb (extension =? 0) || ((mode =? 3) && negb setHasRex && (4 <=? rmEncoding)) then
      reject code address "only register or byte memory SETO/SETB/SETAE/SETE/SETNE/SETBE/SETA/SETS/SETNS/SETL/SETGE/SETLE/SETG is supported"
    else
    let instruction := with_condition (if conditionOpcode =? 0x90 then Cond_Overflow else if conditionOpcode =?
        0x92 then Cond_Below else if conditionOpcode =? 0x93 then Cond_AboveOrEqual else if conditionOpcode =?
        0x94 then Cond_Equal else if conditionOpcode =? 0x95 then Cond_NotEqual else if conditionOpcode =? 0x96
        then Cond_BelowOrEqual else if conditionOpcode =? 0x97 then Cond_Above else if conditionOpcode =? 0x98
        then Cond_Sign else if conditionOpcode =? 0x99 then Cond_NotSign else if conditionOpcode =? 0x9C then
        Cond_Less else if conditionOpcode =? 0x9D then Cond_GreaterOrEqual else if conditionOpcode =? 0x9E then
        Cond_LessOrEqual else Cond_Greater) instruction in
    let operandCursor := size_add setOpcodeOffset 3 in
    let! (instruction, operandCursor) : DecodedInstruction * cursor_in 3 9 :=
      (if mode =? 3 then
        let instruction := with_opcode X_SetccReg instruction in
        let! register109 := decodeRegister rmEncoding (negb (Z.land rex 1 =? 0)) in
        let instruction := push_operand (RegisterOperand register109 8 0) instruction in
        Ok (instruction, operandCursor)
       else
        let! base := decodeRegister rmEncoding rexB in
        let index := None in
        let scale := 1 in
        let hasBase := negb ripRelative in
        let! (operandCursor, hasBase, base, index, scale) : cursor_in 3 5 * bool * Register * option Register *
            one_of [1; 2; 4; 8] :=
          (if negb ripRelative && (rmEncoding =? 4) then
            if zlength code <=? operandCursor then
              reject code address "truncated SETcc SIB byte"
            else
            let! sib := code_at code operandCursor in
            let operandCursor := size_add operandCursor 1 in
            let scaleBits := Z.land (Z.shiftr sib 6) 3 in
            let indexEncoding := Z.land (Z.shiftr sib 3) 7 in
            let baseEncoding := Z.land sib 7 in
            let hasBase := negb ((mode =? 0) && (baseEncoding =? 5)) in
            let! base : Register :=
              (if hasBase then
                let! base := decodeRegister baseEncoding rexB in
                Ok base
               else
                Ok base) in
            if negb (indexEncoding =? 4) || rexX then
              let! register113 := decodeRegister indexEncoding rexX in
              let index := Some register113 in
              let scale := Z.shiftl 1 scaleBits in
              Ok (operandCursor, hasBase, base, index, scale)
            else Ok (operandCursor, hasBase, base, index, scale)
           else
            Ok (operandCursor, hasBase, base, index, scale)) in
        let displacement := 0 in
        let! (displacement, operandCursor) : within (- 2 ^ 31) (2 ^ 31 - 1) * cursor_in 3 9 :=
          (if ripRelative || (negb hasBase && (mode =? 0)) || (mode =? 2) then
            if size_sub (zlength code) operandCursor <? 4 then
              reject code address "truncated SETcc displacement"
            else
            let! span114 := subspan code operandCursor 4 in
            let! displacement := readI32 span114 in
            let operandCursor := size_add operandCursor 4 in
            Ok (displacement, operandCursor)
           else
            if mode =? 1 then
              if zlength code <=? operandCursor then
                reject code address "truncated SETcc byte disp8"
              else
              let! byte116 := code_at code operandCursor in
              let displacement := signed 8 byte116 in
              let operandCursor := size_add operandCursor 1 in
              Ok (displacement, operandCursor)
            else Ok (displacement, operandCursor)) in
        let! _ :=
          (if ripRelative then
            let! _ := relativeTarget address (size_sub operandCursor 0) displacement in
            Ok tt
           else
            Ok tt) in
        let instruction := with_opcode X_SetccMem instruction in
        let instruction := push_operand (MemoryOp (mkMemory (if ripRelative then Rax else base) displacement 8
            index scale hasBase ripRelative Segment_None)) instruction in
        Ok (instruction, operandCursor)) in
    let len := size_sub operandCursor 0 in
    let instruction := with_length (u8 len) instruction in
    let! instruction := copy_bytes code 0 len instruction in
    Ok (inl instruction)
  else Ok (inr (cursor, instruction)).

Definition decodeScalarSpecial_MovsxRegReg (cursor : Z) (instruction : DecodedInstruction) : outcome
    Recognition :=
  let! byte118 := code_at code cursor in
  let movsxWordHasRex := (0x40 <=? byte118) && (byte118 <=? 0x4F) in
  let movsxWordOpcodeOffset := size_add cursor (if movsxWordHasRex then 1 else 0) in
  let! test122 := (if 2 <=? size_sub (zlength code) movsxWordOpcodeOffset then (let! byte119 := code_at code
      movsxWordOpcodeOffset in let! test121 := (if byte119 =? 0xF then (let! byte120 := code_at code (size_add
      movsxWordOpcodeOffset 1) in Ok (byte120 =? 0xBF)) else Ok false) in Ok test121) else Ok false) in
  if test122 then
    if size_sub (zlength code) movsxWordOpcodeOffset <? 3 then
      reject code address "truncated movsx register, word source"
    else
    let rex := if movsxWordHasRex then byte118 else 0 in
    let rexW := negb (Z.land rex 8 =? 0) in
    let rexR := negb (Z.land rex 4 =? 0) in
    let rexX := negb (Z.land rex 2 =? 0) in
    let rexB := negb (Z.land rex 1 =? 0) in
    let cursor := size_add movsxWordOpcodeOffset 2 in
    let! modrm := code_at code cursor in
    let cursor := size_add cursor 1 in
    let mode := Z.land (Z.shiftr modrm 6) 3 in
    let rmEncoding := Z.land modrm 7 in
    let! register124 := decodeRegister (Z.land (Z.shiftr modrm 3) 7) rexR in
    let destination := RegisterOperand register124 (if rexW then 64 else 32) 0 in
    let! (instruction, cursor) : DecodedInstruction * cursor_in 3 9 :=
      (if mode =? 3 then
        let instruction := with_opcode X_MovsxRegReg instruction in
        let instruction := push_operand destination instruction in
        let! register125 := decodeRegister rmEncoding rexB in
        let instruction := push_operand (RegisterOperand register125 16 0) instruction in
        Ok (instruction, cursor)
       else
        let ripRelative := (mode =? 0) && (rmEncoding =? 5) in
        let! base := decodeRegister rmEncoding rexB in
        let index := None in
        let scale := 1 in
        let hasBase := negb ripRelative in
        let! (cursor, hasBase, base, index, scale) : cursor_in 3 5 * bool * Register * option Register * one_of
            [1; 2; 4; 8] :=
          (if negb ripRelative && (rmEncoding =? 4) then
            if zlength code <=? cursor then
              reject code address "truncated MOVSX word SIB"
            else
            let! sib := code_at code cursor in
            let cursor := size_add cursor 1 in
            let scaleBits := Z.land (Z.shiftr sib 6) 3 in
            let indexEncoding := Z.land (Z.shiftr sib 3) 7 in
            let baseEncoding := Z.land sib 7 in
            let hasBase := negb ((mode =? 0) && (baseEncoding =? 5)) in
            let! base : Register :=
              (if hasBase then
                let! base := decodeRegister baseEncoding rexB in
                Ok base
               else
                Ok base) in
            if negb (indexEncoding =? 4) || rexX then
              let! register129 := decodeRegister indexEncoding rexX in
              let index := Some register129 in
              let scale := Z.shiftl 1 scaleBits in
              Ok (cursor, hasBase, base, index, scale)
            else Ok (cursor, hasBase, base, index, scale)
           else
            Ok (cursor, hasBase, base, index, scale)) in
        let displacement := 0 in
        let! (displacement, cursor) : within (- 2 ^ 31) (2 ^ 31 - 1) * cursor_in 3 9 :=
          (if ripRelative || (negb hasBase && (mode =? 0)) || (mode =? 2) then
            if size_sub (zlength code) cursor <? 4 then
              reject code address "truncated MOVSX word disp32"
            else
            let! span130 := subspan code cursor 4 in
            let! displacement := readI32 span130 in
            let cursor := size_add cursor 4 in
            Ok (displacement, cursor)
           else
            if mode =? 1 then
              if zlength code <=? cursor then
                reject code address "truncated MOVSX word disp8"
              else
              let! byte132 := code_at code cursor in
              let displacement := signed 8 byte132 in
              let cursor := size_add cursor 1 in
              Ok (displacement, cursor)
            else Ok (displacement, cursor)) in
        let! _ :=
          (if ripRelative then
            let! _ := relativeTarget address (size_sub cursor 0) displacement in
            Ok tt
           else
            Ok tt) in
        let instruction := with_opcode X_MovsxRegMem instruction in
        let instruction := push_operand destination instruction in
        let instruction := push_operand (MemoryOp (mkMemory (if ripRelative then Rax else base) displacement 16
            index scale hasBase ripRelative Segment_None)) instruction in
        Ok (instruction, cursor)) in
    let len := size_sub cursor 0 in
    let instruction := with_length (u8 len) instruction in
    let! instruction := copy_bytes code 0 len instruction in
    Ok (inl instruction)
  else Ok (inr (cursor, instruction)).

Definition decodeScalarSpecial_MovsxRegReg_2 (cursor : Z) (instruction : DecodedInstruction) : outcome
    Recognition :=
  let! test137 := (if 2 <=? size_sub (zlength code) cursor then (let! byte134 := code_at code cursor in let!
      test136 := (if byte134 =? 0xF then (let! byte135 := code_at code (size_add cursor 1) in Ok (byte135 =?
      0xBE)) else Ok false) in Ok test136) else Ok false) in
  if test137 then
    if size_sub (zlength code) cursor <? 3 then
      reject code address "truncated movsx r32, byte [memory]"
    else
    let operandCursor := size_add cursor 2 in
    let! modrm := code_at code operandCursor in
    let operandCursor := size_add operandCursor 1 in
    let mode := Z.land (Z.shiftr modrm 6) 3 in
    let rmEncoding := Z.land modrm 7 in
    if mode =? 3 then
      if 4 <=? rmEncoding then
        reject code address "legacy high-byte MOVSX register source is unsupported"
      else
      let instruction := with_opcode X_MovsxRegReg instruction in
      let! register139 := decodeRegister (Z.land (Z.shiftr modrm 3) 7) false in
      let instruction := push_operand (RegisterOperand register139 32 0) instruction in
      let! register140 := decodeRegister rmEncoding false in
      let instruction := push_operand (RegisterOperand register140 8 0) instruction in
      let len := size_sub operandCursor 0 in
      let instruction := with_length (u8 len) instruction in
      let! instruction := copy_bytes code 0 len instruction in
      Ok (inl instruction)
    else if (mode =? 0) && (rmEncoding =? 5) then
      reject code address "only MOVSX r32, byte [base+index*scale+disp8/disp32] is supported without REX"
    else
    let baseEncoding := rmEncoding in
    let index := None in
    let scale := 1 in
    let! (operandCursor, baseEncoding, index, scale) : cursor_in 3 4 * within 0 7 * option Register * one_of
        [1; 2; 4; 8] :=
      (if rmEncoding =? 4 then
        if zlength code <=? operandCursor then
          reject code address "truncated MOVSX byte SIB"
        else
        let! sib := code_at code operandCursor in
        let operandCursor := size_add operandCursor 1 in
        let scaleBits := Z.land (Z.shiftr sib 6) 3 in
        let indexEncoding := Z.land (Z.shiftr sib 3) 7 in
        let baseEncoding := Z.land sib 7 in
        if (mode =? 0) && (baseEncoding =? 5) then
          reject code address "no-base MOVSX byte SIB is not supported"
        else if negb (indexEncoding =? 4) then
          let! register142 := decodeRegister indexEncoding false in
          let index := Some register142 in
          let scale := Z.shiftl 1 scaleBits in
          Ok (operandCursor, baseEncoding, index, scale)
        else Ok (operandCursor, baseEncoding, index, scale)
       else
        Ok (operandCursor, baseEncoding, index, scale)) in
    let displacement := 0 in
    let! (displacement, operandCursor) : within (- 2 ^ 31) (2 ^ 31 - 1) * cursor_in 3 8 :=
      (if mode =? 1 then
        if zlength code <=? operandCursor then
          reject code address "truncated MOVSX byte disp8"
        else
        let! byte143 := code_at code operandCursor in
        let displacement := signed 8 byte143 in
        let operandCursor := size_add operandCursor 1 in
        Ok (displacement, operandCursor)
       else
        if mode =? 2 then
          if size_sub (zlength code) operandCursor <? 4 then
            reject code address "truncated MOVSX byte disp32"
          else
          let! span144 := subspan code operandCursor 4 in
          let! displacement := readI32 span144 in
          let operandCursor := size_add operandCursor 4 in
          Ok (displacement, operandCursor)
        else Ok (displacement, operandCursor)) in
    let instruction := with_opcode X_MovsxRegMem instruction in
    let! register146 := decodeRegister (Z.land (Z.shiftr modrm 3) 7) false in
    let instruction := push_operand (RegisterOperand register146 32 0) instruction in
    let! register147 := decodeRegister baseEncoding false in
    let instruction := push_operand (MemoryOp (mkMemory register147 displacement 8 index scale true false
        Segment_None)) instruction in
    let len := size_sub operandCursor 0 in
    let instruction := with_length (u8 len) instruction in
    let! instruction := copy_bytes code 0 len instruction in
    Ok (inl instruction)
  else Ok (inr (cursor, instruction)).

Definition decodeScalarSpecial_MovzxRegReg (cursor : Z) (instruction : DecodedInstruction) : outcome
    Recognition :=
  let! byte148 := code_at code cursor in
  let movzxByteHasRex := (0x40 <=? byte148) && (byte148 <=? 0x4F) in
  let movzxByteOpcodeOffset := size_add cursor (if movzxByteHasRex then 1 else 0) in
  let! test152 := (if 2 <=? size_sub (zlength code) movzxByteOpcodeOffset then (let! byte149 := code_at code
      movzxByteOpcodeOffset in let! test151 := (if byte149 =? 0xF then (let! byte150 := code_at code (size_add
      movzxByteOpcodeOffset 1) in Ok (byte150 =? 0xB6)) else Ok false) in Ok test151) else Ok false) in
  if test152 then
    if size_sub (zlength code) movzxByteOpcodeOffset <? 3 then
      reject code address "truncated movzx r32, byte register"
    else
    let rex := if movzxByteHasRex then byte148 else 0 in
    let rexW := negb (Z.land rex 8 =? 0) in
    let rexR := negb (Z.land rex 4 =? 0) in
    let rexX := negb (Z.land rex 2 =? 0) in
    let rexB := negb (Z.land rex 1 =? 0) in
    let cursor := size_add movzxByteOpcodeOffset 2 in
    let! modrm := code_at code cursor in
    let cursor := size_add cursor 1 in
    let mode := Z.land (Z.shiftr modrm 6) 3 in
    let rmEncoding := Z.land modrm 7 in
    let ripRelative := (mode =? 0) && (rmEncoding =? 5) in
    let! register154 := decodeRegister (Z.land (Z.shiftr modrm 3) 7) rexR in
    let destination := RegisterOperand register154 (if rexW then 64 else 32) 0 in
    let! (instruction, cursor) : DecodedInstruction * cursor_in 3 9 :=
      (if mode =? 3 then
        let instruction := with_opcode X_MovzxRegReg instruction in
        let instruction := push_operand destination instruction in
        if negb movzxByteHasRex && (4 <=? rmEncoding) then
          let! register155 := register_cast (u32 (rmEncoding - 4)) in
          let instruction := push_operand (RegisterOperand register155 8 1) instruction in
          Ok (instruction, cursor)
        else
        let! register156 := decodeRegister rmEncoding rexB in
        let instruction := push_operand (RegisterOperand register156 8 0) instruction in
        Ok (instruction, cursor)
       else
        let baseEncoding := rmEncoding in
        let index := None in
        let scale := 1 in
        let! (cursor, baseEncoding, index, scale) : cursor_in 3 5 * within 0 7 * option Register * one_of [1;
            2; 4; 8] :=
          (if negb ripRelative && (rmEncoding =? 4) then
            if zlength code <=? cursor then
              reject code address "truncated byte MOVZX memory SIB"
            else
            let! sib := code_at code cursor in
            let cursor := size_add cursor 1 in
            let scaleBits := Z.land (Z.shiftr sib 6) 3 in
            let indexEncoding := Z.land (Z.shiftr sib 3) 7 in
            let baseEncoding := Z.land sib 7 in
            let hasIndex := negb (indexEncoding =? 4) || rexX in
            if (mode =? 0) && (baseEncoding =? 5) then
              reject code address "byte MOVZX SIB requires a register base"
            else if hasIndex then
              let! register158 := decodeRegister indexEncoding rexX in
              let index := Some register158 in
              let scale := Z.shiftl 1 scaleBits in
              Ok (cursor, baseEncoding, index, scale)
            else Ok (cursor, baseEncoding, index, scale)
           else
            Ok (cursor, baseEncoding, index, scale)) in
        let displacement := 0 in
        let! (displacement, cursor) : within (- 2 ^ 31) (2 ^ 31 - 1) * cursor_in 3 9 :=
          (if mode =? 1 then
            if zlength code <=? cursor then
              reject code address "truncated byte MOVZX disp8"
            else
            let! byte159 := code_at code cursor in
            let displacement := signed 8 byte159 in
            let cursor := size_add cursor 1 in
            Ok (displacement, cursor)
           else
            if ripRelative || (mode =? 2) then
              if size_sub (zlength code) cursor <? 4 then
                reject code address "truncated byte MOVZX disp32"
              else
              let! span160 := subspan code cursor 4 in
              let! displacement := readI32 span160 in
              let cursor := size_add cursor 4 in
              Ok (displacement, cursor)
            else Ok (displacement, cursor)) in
        let! _ :=
          (if ripRelative then
            let! _ := relativeTarget address (size_sub cursor 0) displacement in
            Ok tt
           else
            Ok tt) in
        let instruction := with_opcode X_MovzxRegMem instruction in
        let instruction := push_operand destination instruction in
        let! choice163 : MemoryOperand := (if ripRelative then Ok (mkMemory Rax displacement 8 None 1 false
            true Segment_None) else (let! register164 := decodeRegister baseEncoding rexB in Ok (mkMemory
            register164 displacement 8 index scale true false Segment_None))) in
        let instruction := push_operand (MemoryOp choice163) instruction in
        Ok (instruction, cursor)) in
    let len := size_sub cursor 0 in
    let instruction := with_length (u8 len) instruction in
    let! instruction := copy_bytes code 0 len instruction in
    Ok (inl instruction)
  else Ok (inr (cursor, instruction)).

Definition decodeScalarSpecial_MovzxRegReg_2 (cursor : Z) (instruction : DecodedInstruction) : outcome
    Recognition :=
  let! byte165 := code_at code cursor in
  let movzxHasRex := (0x40 <=? byte165) && (byte165 <=? 0x4F) in
  let movzxOpcodeOffset := size_add cursor (if movzxHasRex then 1 else 0) in
  let! test169 := (if 2 <=? size_sub (zlength code) movzxOpcodeOffset then (let! byte166 := code_at code
      movzxOpcodeOffset in let! test168 := (if byte166 =? 0xF then (let! byte167 := code_at code (size_add
      movzxOpcodeOffset 1) in Ok (byte167 =? 0xB7)) else Ok false) in Ok test168) else Ok false) in
  if test169 then
    if size_sub (zlength code) movzxOpcodeOffset <? 3 then
      reject code address "truncated movzx r32, word [memory]"
    else
    let rex := if movzxHasRex then byte165 else 0 in
    let rexW := negb (Z.land rex 8 =? 0) in
    let rexR := negb (Z.land rex 4 =? 0) in
    let rexX := negb (Z.land rex 2 =? 0) in
    let rexB := negb (Z.land rex 1 =? 0) in
    let cursor := size_add movzxOpcodeOffset 2 in
    let! modrm := code_at code cursor in
    let cursor := size_add cursor 1 in
    let mode := Z.land (Z.shiftr modrm 6) 3 in
    let rmEncoding := Z.land modrm 7 in
    if rexW || (negb (mode =? 3) && (mode =? 0) && (rmEncoding =? 5)) then
      reject code address "only MOVZX r32, r16 or word [base+disp8/disp32] is supported"
    else if mode =? 3 then
      let instruction := with_opcode X_MovzxRegReg instruction in
      let! register171 := decodeRegister (Z.land (Z.shiftr modrm 3) 7) rexR in
      let instruction := push_operand (RegisterOperand register171 32 0) instruction in
      let! register172 := decodeRegister rmEncoding rexB in
      let instruction := push_operand (RegisterOperand register172 16 0) instruction in
      let len := size_sub cursor 0 in
      let instruction := with_length (u8 len) instruction in
      let! instruction := copy_bytes code 0 len instruction in
      Ok (inl instruction)
    else
    let baseEncoding := rmEncoding in
    let index := None in
    let scale := 1 in
    let! (cursor, baseEncoding, index, scale) : cursor_in 3 5 * within 0 7 * option Register * one_of [1; 2; 4;
        8] :=
      (if rmEncoding =? 4 then
        if zlength code <=? cursor then
          reject code address "truncated MOVZX memory SIB"
        else
        let! sib := code_at code cursor in
        let cursor := size_add cursor 1 in
        let scaleBits := Z.land (Z.shiftr sib 6) 3 in
        let indexEncoding := Z.land (Z.shiftr sib 3) 7 in
        let baseEncoding := Z.land sib 7 in
        let hasIndex := negb (indexEncoding =? 4) || rexX in
        if (mode =? 0) && (baseEncoding =? 5) then
          reject code address "MOVZX SIB requires a register base"
        else if hasIndex then
          let! register174 := decodeRegister indexEncoding rexX in
          let index := Some register174 in
          let scale := Z.shiftl 1 scaleBits in
          Ok (cursor, baseEncoding, index, scale)
        else Ok (cursor, baseEncoding, index, scale)
       else
        Ok (cursor, baseEncoding, index, scale)) in
    let displacement := 0 in
    let! (displacement, cursor) : within (- 2 ^ 31) (2 ^ 31 - 1) * cursor_in 3 9 :=
      (if mode =? 1 then
        if zlength code <=? cursor then
          reject code address "truncated MOVZX disp8"
        else
        let! byte175 := code_at code cursor in
        let displacement := signed 8 byte175 in
        let cursor := size_add cursor 1 in
        Ok (displacement, cursor)
       else
        if mode =? 2 then
          if size_sub (zlength code) cursor <? 4 then
            reject code address "truncated MOVZX disp32"
          else
          let! span176 := subspan code cursor 4 in
          let! displacement := readI32 span176 in
          let cursor := size_add cursor 4 in
          Ok (displacement, cursor)
        else Ok (displacement, cursor)) in
    let instruction := with_opcode X_MovzxRegMem instruction in
    let! register178 := decodeRegister (Z.land (Z.shiftr modrm 3) 7) rexR in
    let instruction := push_operand (RegisterOperand register178 32 0) instruction in
    let! register179 := decodeRegister baseEncoding rexB in
    let instruction := push_operand (MemoryOp (mkMemory register179 displacement 16 index scale true false
        Segment_None)) instruction in
    let len := size_sub cursor 0 in
    let instruction := with_length (u8 len) instruction in
    let! instruction := copy_bytes code 0 len instruction in
    Ok (inl instruction)
  else Ok (inr (cursor, instruction)).

Definition decodeScalarSpecial_BitScanForwardRegReg (cursor : Z) (instruction : DecodedInstruction) : outcome
    Recognition :=
  let! byte180 := code_at code cursor in
  let! test182 := (if (byte180 =? 0xF) && (2 <=? size_sub (zlength code) cursor) then (let! byte181 := code_at
      code (size_add cursor 1) in Ok ((byte181 =? 0xBC) || (byte181 =? 0xBD))) else Ok false) in
  if test182 then
    if size_sub (zlength code) cursor <? 3 then
      let! byte183 := code_at code (size_add cursor 1) in
      reject code address (if byte183 =? 0xBC then "truncated bsf r32, r32"%string else
          "truncated bsr r32, r32"%string)
    else
    let! modrm := code_at code (size_add cursor 2) in
    let mode := Z.land (Z.shiftr modrm 6) 3 in
    if negb (mode =? 3) then
      let! byte185 := code_at code (size_add cursor 1) in
      reject code address (if byte185 =? 0xBC then "only register-direct 32-bit BSF is supported"%string else
          "only register-direct 32-bit BSR is supported"%string)
    else
    let! byte186 := code_at code (size_add cursor 1) in
    let instruction := with_opcode (if byte186 =? 0xBC then X_BitScanForwardRegReg else X_BitScanReverseRegReg)
        instruction in
    let instruction := with_length 3 instruction in
    let! instruction := copy_bytes code cursor 3 instruction in
    let! register187 := decodeRegister (Z.land (Z.shiftr modrm 3) 7) false in
    let instruction := push_operand (RegisterOperand register187 32 0) instruction in
    let! register188 := decodeRegister (Z.land modrm 7) false in
    let instruction := push_operand (RegisterOperand register188 32 0) instruction in
    Ok (inl instruction)
  else Ok (inr (cursor, instruction)).

Definition decodeScalarSpecial_BswapReg (cursor : Z) (instruction : DecodedInstruction) : outcome Recognition :=
  let! byte189 := code_at code cursor in
  let! test191 := (if (byte189 =? 0xF) && (2 <=? size_sub (zlength code) cursor) then (let! byte190 := code_at
      code (size_add cursor 1) in Ok ((0xC8 <=? byte190) && (byte190 <=? 0xCF))) else Ok false) in
  if test191 then
    let instruction := with_opcode X_BswapReg instruction in
    let instruction := with_length 2 instruction in
    let instruction := with_byte 0 byte189 instruction in
    let! byte192 := code_at code (size_add cursor 1) in
    let instruction := with_byte 1 byte192 instruction in
    let! register193 := decodeRegister (u8 (u32 (byte192 - 0xC8))) false in
    let instruction := push_operand (RegisterOperand register193 32 0) instruction in
    Ok (inl instruction)
  else Ok (inr (cursor, instruction)).

Definition decodeScalarSpecial_BswapReg_2 (cursor : Z) (instruction : DecodedInstruction) : outcome Recognition
    :=
  let! byte194 := code_at code cursor in
  let! test198 := (if (0x40 <=? byte194) && (byte194 <=? 0x4F) && (3 <=? size_sub (zlength code) cursor) then
      (let! byte195 := code_at code (size_add cursor 1) in let! test197 := (if byte195 =? 0xF then (let!
      byte196 := code_at code (size_add cursor 2) in Ok ((0xC8 <=? byte196) && (byte196 <=? 0xCF))) else Ok
      false) in Ok test197) else Ok false) in
  if test198 then
    let rex := byte194 in
    let instruction := with_opcode X_BswapReg instruction in
    let instruction := with_length 3 instruction in
    let! instruction := copy_bytes code cursor 3 instruction in
    let! byte199 := code_at code (size_add cursor 2) in
    let! register200 := decodeRegister (u8 (u32 (byte199 - 0xC8))) (negb (Z.land rex 1 =? 0)) in
    let instruction := push_operand (RegisterOperand register200 (if negb (Z.land rex 8 =? 0) then 64 else 32)
        0) instruction in
    Ok (inl instruction)
  else Ok (inr (cursor, instruction)).

Definition decodeScalarSpecial_MovlhpsRegReg_2 (cursor : Z) (hasMovlhpsRex : bool) (opcodeOffset : Z)
    (instruction : DecodedInstruction) : outcome Recognition :=
  if size_sub (zlength code) opcodeOffset <? 3 then
    reject code address "truncated movlhps xmm, xmm"
  else
  let! rex : within 0 255 := (if hasMovlhpsRex then (let! byte207 := code_at code cursor in Ok byte207) else Ok
      0) in
  let! modrm := code_at code (size_add opcodeOffset 2) in
  let mode := Z.land (Z.shiftr modrm 6) 3 in
  let rmEncoding := Z.land modrm 7 in
  let destination := XmmRegisterOperand (Z.lor (Z.land (Z.shiftr modrm 3) 7) (if negb (Z.land rex 4 =? 0) then
      8 else 0)) in
  if mode =? 3 then
    let instruction := with_opcode X_MovlhpsRegReg instruction in
    let instruction := push_operand destination instruction in
    let instruction := push_operand (XmmRegisterOperand (Z.lor rmEncoding (if negb (Z.land rex 1 =? 0) then 8
        else 0))) instruction in
    let len := size_sub (size_add opcodeOffset 3) 0 in
    let instruction := with_length (u8 len) instruction in
    let! instruction := copy_bytes code 0 len instruction in
    Ok (inl instruction)
  else
  let ripRelative := (mode =? 0) && (rmEncoding =? 5) && (Z.land rex 1 =? 0) in
  if (rmEncoding =? 4) || ((mode =? 0) && (rmEncoding =? 5) && negb (Z.land rex 1 =? 0)) then
    reject code address "only RIP-relative or based MOVLHPS xmm, m64 is supported"
  else
  let operandCursor := size_add opcodeOffset 3 in
  let displacement := 0 in
  let! (displacement, operandCursor) : within (- 2 ^ 31) (2 ^ 31 - 1) * cursor_in 3 8 :=
    (if mode =? 1 then
      if zlength code <=? operandCursor then
        reject code address "truncated MOVLHPS m64 disp8"
      else
      let! byte209 := code_at code operandCursor in
      let displacement := signed 8 byte209 in
      let operandCursor := size_add operandCursor 1 in
      Ok (displacement, operandCursor)
     else
      if (mode =? 2) || ripRelative then
        if size_sub (zlength code) operandCursor <? 4 then
          reject code address "truncated MOVLHPS m64 disp32"
        else
        let! span210 := subspan code operandCursor 4 in
        let! displacement := readI32 span210 in
        let operandCursor := size_add operandCursor 4 in
        Ok (displacement, operandCursor)
      else Ok (displacement, operandCursor)) in
  let! _ :=
    (if ripRelative then
      let! _ := relativeTarget address (size_sub operandCursor 0) displacement in
      Ok tt
     else
      Ok tt) in
  let instruction := with_opcode X_MovlhpsRegMem instruction in
  let instruction := push_operand destination instruction in
  let! choice213 : MemoryOperand := (if ripRelative then Ok (mkMemory Rax displacement 64 None 1 false true
      Segment_None) else (let! register214 := decodeRegister rmEncoding (negb (Z.land rex 1 =? 0)) in Ok
      (mkMemory register214 displacement 64 None 1 true false Segment_None))) in
  let instruction := push_operand (MemoryOp choice213) instruction in
  let memoryLength := size_sub operandCursor 0 in
  let instruction := with_length (u8 memoryLength) instruction in
  let! instruction := copy_bytes code 0 memoryLength instruction in
  Ok (inl instruction).

Definition decodeScalarSpecial_MovlhpsRegReg (cursor : Z) (instruction : DecodedInstruction) : outcome
    Recognition :=
  let! byte201 := code_at code cursor in
  if ((byte201 =? 0xF) || ((0x40 <=? byte201) && (byte201 <=? 0x4F))) && (2 <=? size_sub (zlength code) cursor)
      then
    let hasMovlhpsRex := negb (byte201 =? 0xF) in
    let opcodeOffset := size_add cursor (if hasMovlhpsRex then 1 else 0) in
    let! test205 := (if opcodeOffset <? zlength code then (let! byte202 := code_at code opcodeOffset in let!
        test204 := (if (byte202 =? 0xF) && (2 <=? size_sub (zlength code) opcodeOffset) then (let! byte203 :=
        code_at code (size_add opcodeOffset 1) in Ok (byte203 =? 0x16)) else Ok false) in Ok test204) else Ok
        false) in
    if test205 then
      decodeScalarSpecial_MovlhpsRegReg_2 cursor hasMovlhpsRex opcodeOffset instruction
    else Ok (inr (cursor, instruction))
  else Ok (inr (cursor, instruction)).

Definition decodeScalarSpecial_XorpsRegReg (cursor : Z) (instruction : DecodedInstruction) : outcome
    Recognition :=
  let! byte215 := code_at code cursor in
  let! test217 := (if (byte215 =? 0xF) && (2 <=? size_sub (zlength code) cursor) then (let! byte216 := code_at
      code (size_add cursor 1) in Ok (byte216 =? 0x57)) else Ok false) in
  if test217 then
    if size_sub (zlength code) cursor <? 3 then
      reject code address "truncated xorps xmm, xmm/m128"
    else
    let! modrm := code_at code (size_add cursor 2) in
    let mode := Z.land (Z.shiftr modrm 6) 3 in
    let rmEncoding := Z.land modrm 7 in
    let instruction := push_operand (XmmRegisterOperand (Z.land (Z.shiftr modrm 3) 7)) instruction in
    let cursor := size_add cursor 3 in
    let! (instruction, cursor) : DecodedInstruction * cursor_in 3 7 :=
      (if mode =? 3 then
        let instruction := with_opcode X_XorpsRegReg instruction in
        let instruction := push_operand (XmmRegisterOperand rmEncoding) instruction in
        Ok (instruction, cursor)
       else
        if rmEncoding =? 4 then
          reject code address "only XORPS xmm, [base/RIP+disp8/disp32] memory operands are supported"
        else
        let ripRelative := (mode =? 0) && (rmEncoding =? 5) in
        let displacement := 0 in
        let! (displacement, cursor) : within (- 2 ^ 31) (2 ^ 31 - 1) * cursor_in 3 7 :=
          (if ripRelative || (mode =? 2) then
            if size_sub (zlength code) cursor <? 4 then
              reject code address "truncated XORPS memory disp32"
            else
            let! span219 := subspan code cursor 4 in
            let! displacement := readI32 span219 in
            let cursor := size_add cursor 4 in
            Ok (displacement, cursor)
           else
            if mode =? 1 then
              if zlength code <=? cursor then
                reject code address "truncated XORPS memory disp8"
              else
              let! byte221 := code_at code cursor in
              let displacement := signed 8 byte221 in
              let cursor := size_add cursor 1 in
              Ok (displacement, cursor)
            else Ok (displacement, cursor)) in
        let! _ :=
          (if ripRelative then
            let! _ := relativeTarget address (size_sub cursor 0) displacement in
            Ok tt
           else
            Ok tt) in
        let instruction := with_opcode X_XorpsRegMem instruction in
        let! choice223 : Register := (if ripRelative then Ok Rax else (let! register224 := decodeRegister
            rmEncoding false in Ok register224)) in
        let instruction := push_operand (MemoryOp (mkMemory choice223 displacement 128 None 1 (negb
            ripRelative) ripRelative Segment_None)) instruction in
        Ok (instruction, cursor)) in
    let len := size_sub cursor 0 in
    let instruction := with_length (u8 len) instruction in
    let! instruction := copy_bytes code 0 len instruction in
    Ok (inl instruction)
  else Ok (inr (cursor, instruction)).

Definition decodeScalarSpecial (cursor : Z) (instruction : DecodedInstruction) : outcome Recognition :=
  next! (cursor, instruction) := decodeScalarSpecial_Push cursor instruction in
  next! (cursor, instruction) := decodeScalarSpecial_Push_2 cursor instruction in
  next! (cursor, instruction) := decodeScalarSpecial_TestRegImm cursor instruction in
  next! (cursor, instruction) := decodeScalarSpecial_TestRegImm_2 cursor instruction in
  next! (cursor, instruction) := decodeScalarSpecial_RolRegImm cursor instruction in
  next! (cursor, instruction) := decodeScalarSpecial_NotReg cursor instruction in
  next! (cursor, instruction) := decodeScalarSpecial_AddRegImm cursor instruction in
  next! (cursor, instruction) := decodeScalarSpecial_CmpRegImm cursor instruction in
  next! (cursor, instruction) := decodeScalarSpecial_CmpRegImm_2 cursor instruction in
  next! (cursor, instruction) := decodeScalarSpecial_MovRegImm cursor instruction in
  next! (cursor, instruction) := decodeScalarSpecial_MovRegImm_2 cursor instruction in
  next! (cursor, instruction) := decodeScalarSpecial_XorRegImm cursor instruction in
  next! (cursor, instruction) := decodeScalarSpecial_OrRegImm cursor instruction in
  next! (cursor, instruction) := decodeScalarSpecial_Push_3 cursor instruction in
  next! (cursor, instruction) := decodeScalarSpecial_Pop cursor instruction in
  next! (cursor, instruction) := decodeScalarSpecial_Leave cursor instruction in
  next! (cursor, instruction) := decodeScalarSpecial_Nop cursor instruction in
  next! (cursor, instruction) := decodeScalarSpecial_Cld cursor instruction in
  next! (cursor, instruction) := decodeScalarSpecial_SetccReg cursor instruction in
  next! (cursor, instruction) := decodeScalarSpecial_MovsxRegReg cursor instruction in
  next! (cursor, instruction) := decodeScalarSpecial_MovsxRegReg_2 cursor instruction in
  next! (cursor, instruction) := decodeScalarSpecial_MovzxRegReg cursor instruction in
  next! (cursor, instruction) := decodeScalarSpecial_MovzxRegReg_2 cursor instruction in
  next! (cursor, instruction) := decodeScalarSpecial_BitScanForwardRegReg cursor instruction in
  next! (cursor, instruction) := decodeScalarSpecial_BswapReg cursor instruction in
  next! (cursor, instruction) := decodeScalarSpecial_BswapReg_2 cursor instruction in
  next! (cursor, instruction) := decodeScalarSpecial_MovlhpsRegReg cursor instruction in
  decodeScalarSpecial_XorpsRegReg cursor instruction.

End Decode.
