(* ===== verification/DecodeSimdLanes.v ===== *)
(** Recognition family [decodeSimdLanes] ([src/x86/DecodeSimdLanes.cpp]): packed operations on lanes: shuffles, unpacks, shifts, comparisons, insertions, extractions.

    Each definition is one group of statements of the C++ function, in its order; it
    recognises an instruction ([inl]), rejects the bytes, or leaves the cursor and the
    instruction to the next group ([inr]). *)
From S2P Require Import Prelude X86State ExecutionContext IR X86Instruction DecodeBase.

Section Decode.
Context (code : list Z) (address : Z).

Definition decodeSimdLanes_PmovsxdqRegReg (afterPrefix : Z) (hasPshufbRex : bool) (opcodeOffset : Z)
    (instruction : DecodedInstruction) : outcome Recognition :=
  let! rex : within 0 255 := (if hasPshufbRex then (let! byte31 := code_at code afterPrefix in Ok byte31) else
      Ok 0) in
  let! modrm := code_at code (size_add opcodeOffset 3) in
  let mode := Z.land (Z.shiftr modrm 6) 3 in
  let rmEncoding := Z.land modrm 7 in
  if negb (Z.land rex 0xA =? 0) then
    reject code address "PMOVSXDQ does not support REX.W/X"
  else
  let destination := XmmRegisterOperand (Z.lor (Z.land (Z.shiftr modrm 3) 7) (if negb (Z.land rex 4 =? 0) then
      8 else 0)) in
  if mode =? 3 then
    let instruction := with_opcode X_PmovsxdqRegReg instruction in
    let instruction := push_operand destination instruction in
    let instruction := push_operand (XmmRegisterOperand (Z.lor rmEncoding (if negb (Z.land rex 1 =? 0) then 8
        else 0))) instruction in
    let operandCursor := size_add opcodeOffset 4 in
    let len := size_sub operandCursor 0 in
    let instruction := with_length (u8 len) instruction in
    let! instruction := copy_bytes code 0 len instruction in
    Ok (inl instruction)
  else if negb (mode =? 0) || negb (rmEncoding =? 5) || negb (Z.land rex 1 =? 0) then
    reject code address "only RIP-relative PMOVSXDQ xmm, qword memory is supported"
  else
  let operandCursor := size_add opcodeOffset 4 in
  if size_sub (zlength code) operandCursor <? 4 then
    reject code address "truncated RIP-relative PMOVSXDQ displacement"
  else
  let! span33 := subspan code operandCursor 4 in
  let! displacement := readI32 span33 in
  let operandCursor := size_add operandCursor 4 in
  let! _ := relativeTarget address (size_sub operandCursor 0) displacement in
  let instruction := with_opcode X_PmovsxdqRegMem instruction in
  let instruction := push_operand (XmmRegisterOperand (Z.lor (Z.land (Z.shiftr modrm 3) 7) (if negb (Z.land rex
      4 =? 0) then 8 else 0))) instruction in
  let instruction := push_operand (MemoryOp (mkMemory Rax displacement 64 None 1 false true Segment_None))
      instruction in
  let len := size_sub operandCursor 0 in
  let instruction := with_length (u8 len) instruction in
  let! instruction := copy_bytes code 0 len instruction in
  Ok (inl instruction).

Definition decodeSimdLanes_PcmpeqqRegReg (afterPrefix : Z) (hasPshufbRex : bool) (opcodeOffset : Z)
    (instruction : DecodedInstruction) : outcome Recognition :=
  let! rex : within 0 255 := (if hasPshufbRex then (let! byte37 := code_at code afterPrefix in Ok byte37) else
      Ok 0) in
  let! modrm := code_at code (size_add opcodeOffset 3) in
  let mode := Z.land (Z.shiftr modrm 6) 3 in
  let rmEncoding := Z.land modrm 7 in
  if negb (Z.land rex 0xA =? 0) then
    reject code address "PCMPEQQ does not support REX.W/X"
  else
  let destination := XmmRegisterOperand (Z.lor (Z.land (Z.shiftr modrm 3) 7) (if negb (Z.land rex 4 =? 0) then
      8 else 0)) in
  let operandCursor := size_add opcodeOffset 4 in
  let! (instruction, operandCursor) : DecodedInstruction * cursor_in 5 10 :=
    (if mode =? 3 then
      let instruction := with_opcode X_PcmpeqqRegReg instruction in
      let instruction := push_operand destination instruction in
      let instruction := push_operand (XmmRegisterOperand (Z.lor rmEncoding (if negb (Z.land rex 1 =? 0) then 8
          else 0))) instruction in
      Ok (instruction, operandCursor)
     else
      let ripRelative := (mode =? 0) && (rmEncoding =? 5) && (Z.land rex 1 =? 0) in
      if (rmEncoding =? 4) || ((mode =? 0) && (rmEncoding =? 5) && negb (Z.land rex 1 =? 0)) then
        reject code address "only RIP-relative or based PCMPEQQ xmm, m128 is supported"
      else
      let displacement := 0 in
      let! (displacement, operandCursor) : within (- 2 ^ 31) (2 ^ 31 - 1) * cursor_in 5 10 :=
        (if mode =? 1 then
          if zlength code <=? operandCursor then
            reject code address "truncated PCMPEQQ m128 disp8"
          else
          let! byte39 := code_at code operandCursor in
          let displacement := signed 8 byte39 in
          let operandCursor := size_add operandCursor 1 in
          Ok (displacement, operandCursor)
         else
          if (mode =? 2) || ripRelative then
            if size_sub (zlength code) operandCursor <? 4 then
              reject code address "truncated PCMPEQQ m128 disp32"
            else
            let! span40 := subspan code operandCursor 4 in
            let! displacement := readI32 span40 in
            let operandCursor := size_add operandCursor 4 in
            Ok (displacement, operandCursor)
          else Ok (displacement, operandCursor)) in
      let! _ :=
        (if ripRelative then
          let! _ := relativeTarget address (size_sub operandCursor 0) displacement in
          Ok tt
         else
          Ok tt) in
      let instruction := with_opcode X_PcmpeqqRegMem instruction in
      let instruction := push_operand destination instruction in
      let! choice43 : MemoryOperand := (if ripRelative then Ok (mkMemory Rax displacement 128 None 1 false true
          Segment_None) else (let! register44 := decodeRegister rmEncoding (negb (Z.land rex 1 =? 0)) in Ok
          (mkMemory register44 displacement 128 None 1 true false Segment_None))) in
      let instruction := push_operand (MemoryOp choice43) instruction in
      Ok (instruction, operandCursor)) in
  let len := size_sub operandCursor 0 in
  let instruction := with_length (u8 len) instruction in
  let! instruction := copy_bytes code 0 len instruction in
  Ok (inl instruction).

Definition decodeSimdLanes_PshufbRegReg_3 (cursor : Z) (afterPrefix : Z) (hasPshufbRex : bool) (opcodeOffset :
    Z) (instruction : DecodedInstruction) : outcome Recognition :=
  if size_sub (zlength code) opcodeOffset <? 4 then
    reject code address "truncated 0F 38 SIMD instruction"
  else
  let! byte7 := code_at code (size_add opcodeOffset 2) in
  if byte7 =? 0 then
    let! rex : within 0 255 := (if hasPshufbRex then (let! byte9 := code_at code afterPrefix in Ok byte9) else
        Ok 0) in
    let! modrm := code_at code (size_add opcodeOffset 3) in
    let mode := Z.land (Z.shiftr modrm 6) 3 in
    let rmEncoding := Z.land modrm 7 in
    if negb (Z.land rex 8 =? 0) then
      reject code address "PSHUFB does not take REX.W"
    else
    let instruction := push_operand (XmmRegisterOperand (Z.lor (Z.land (Z.shiftr modrm 3) 7) (if negb (Z.land
        rex 4 =? 0) then 8 else 0))) instruction in
    let operandCursor := size_add opcodeOffset 4 in
    let! (instruction, operandCursor) : DecodedInstruction * cursor_in 5 11 :=
      (if mode =? 3 then
        let instruction := with_opcode X_PshufbRegReg instruction in
        let instruction := push_operand (XmmRegisterOperand (Z.lor rmEncoding (if negb (Z.land rex 1 =? 0) then
            8 else 0))) instruction in
        Ok (instruction, operandCursor)
       else
        let instruction := with_opcode X_PshufbRegMem instruction in
        let! (memory11, operandCursor) := decodeModrmMemory code address operandCursor modrm rex 128 in
        let instruction := push_operand (MemoryOp memory11) instruction in
        Ok (instruction, operandCursor)) in
    let len := size_sub operandCursor 0 in
    let instruction := with_length (u8 len) instruction in
    let! instruction := copy_bytes code 0 len instruction in
    Ok (inl instruction)
  else if byte7 =? 2 then
    let! rex : within 0 255 := (if hasPshufbRex then (let! byte13 := code_at code afterPrefix in Ok byte13)
        else Ok 0) in
    let! modrm := code_at code (size_add opcodeOffset 3) in
    let mode := Z.land (Z.shiftr modrm 6) 3 in
    if negb (mode =? 3) || negb (Z.land rex 0xA =? 0) then
      reject code address "only register-direct PHADDD xmm, xmm is supported"
    else
    let instruction := with_opcode X_PhadddRegReg instruction in
    let instruction := push_operand (XmmRegisterOperand (Z.lor (Z.land (Z.shiftr modrm 3) 7) (if negb (Z.land
        rex 4 =? 0) then 8 else 0))) instruction in
    let instruction := push_operand (XmmRegisterOperand (Z.lor (Z.land modrm 7) (if negb (Z.land rex 1 =? 0)
        then 8 else 0))) instruction in
    let len := size_sub (size_add opcodeOffset 4) 0 in
    let instruction := with_length (u8 len) instruction in
    let! instruction := copy_bytes code 0 len instruction in
    Ok (inl instruction)
  else if byte7 =? 0x31 then
    let! rex : within 0 255 := (if hasPshufbRex then (let! byte16 := code_at code afterPrefix in Ok byte16)
        else Ok 0) in
    let! modrm := code_at code (size_add opcodeOffset 3) in
    let mode := Z.land (Z.shiftr modrm 6) 3 in
    if negb (mode =? 3) || negb (Z.land rex 0xA =? 0) then
      reject code address "only register-direct PMOVZXBD xmm, xmm is supported"
    else
    let instruction := with_opcode X_PmovzxbdXmmReg instruction in
    let instruction := push_operand (XmmRegisterOperand (Z.lor (Z.land (Z.shiftr modrm 3) 7) (if negb (Z.land
        rex 4 =? 0) then 8 else 0))) instruction in
    let instruction := push_operand (XmmRegisterOperand (Z.lor (Z.land modrm 7) (if negb (Z.land rex 1 =? 0)
        then 8 else 0))) instruction in
    let len := size_sub (size_add opcodeOffset 4) 0 in
    let instruction := with_length (u8 len) instruction in
    let! instruction := copy_bytes code 0 len instruction in
    Ok (inl instruction)
  else if byte7 =? 0x22 then
    let! rex : within 0 255 := (if hasPshufbRex then (let! byte19 := code_at code afterPrefix in Ok byte19)
        else Ok 0) in
    let! modrm := code_at code (size_add opcodeOffset 3) in
    let mode := Z.land (Z.shiftr modrm 6) 3 in
    let rmEncoding := Z.land modrm 7 in
    if negb (Z.land rex 0xB =? 0) || negb (mode =? 0) || negb (rmEncoding =? 5) then
      reject code address "only RIP-relative PMOVSXBQ xmm, word memory is supported"
    else
    let operandCursor := size_add opcodeOffset 4 in
    if size_sub (zlength code) operandCursor <? 4 then
      reject code address "truncated RIP-relative PMOVSXBQ displacement"
    else
    let! span21 := subspan code operandCursor 4 in
    let! displacement := readI32 span21 in
    let operandCursor := size_add operandCursor 4 in
    let! _ := relativeTarget address (size_sub operandCursor 0) displacement in
    let instruction := with_opcode X_PmovsxbqRegMem instruction in
    let instruction := push_operand (XmmRegisterOperand (Z.lor (Z.land (Z.shiftr modrm 3) 7) (if negb (Z.land
        rex 4 =? 0) then 8 else 0))) instruction in
    let instruction := push_operand (MemoryOp (mkMemory Rax displacement 16 None 1 false true Segment_None))
        instruction in
    let len := size_sub operandCursor 0 in
    let instruction := with_length (u8 len) instruction in
    let! instruction := copy_bytes code 0 len instruction in
    Ok (inl instruction)
  else if byte7 =? 0x21 then
    let! rex : within 0 255 := (if hasPshufbRex then (let! byte25 := code_at code afterPrefix in Ok byte25)
        else Ok 0) in
    let! modrm := code_at code (size_add opcodeOffset 3) in
    let mode := Z.land (Z.shiftr modrm 6) 3 in
    let rmEncoding := Z.land modrm 7 in
    if negb (Z.land rex 0xB =? 0) || negb (mode =? 0) || negb (rmEncoding =? 5) then
      reject code address "only RIP-relative PMOVSXBD xmm, dword memory is supported"
    else
    let operandCursor := size_add opcodeOffset 4 in
    if size_sub (zlength code) operandCursor <? 4 then
      reject code address "truncated RIP-relative PMOVSXBD displacement"
    else
    let! span27 := subspan code operandCursor 4 in
    let! displacement := readI32 span27 in
    let operandCursor := size_add operandCursor 4 in
    let! _ := relativeTarget address (size_sub operandCursor 0) displacement in
    let instruction := with_opcode X_PmovsxbdRegMem instruction in
    let instruction := push_operand (XmmRegisterOperand (Z.lor (Z.land (Z.shiftr modrm 3) 7) (if negb (Z.land
        rex 4 =? 0) then 8 else 0))) instruction in
    let instruction := push_operand (MemoryOp (mkMemory Rax displacement 32 None 1 false true Segment_None))
        instruction in
    let len := size_sub operandCursor 0 in
    let instruction := with_length (u8 len) instruction in
    let! instruction := copy_bytes code 0 len instruction in
    Ok (inl instruction)
  else if byte7 =? 0x25 then
    decodeSimdLanes_PmovsxdqRegReg afterPrefix hasPshufbRex opcodeOffset instruction
  else if byte7 =? 0x29 then
    decodeSimdLanes_PcmpeqqRegReg afterPrefix hasPshufbRex opcodeOffset instruction
  else if byte7 =? 0x15 then
    let! rex : within 0 255 := (if hasPshufbRex then (let! byte46 := code_at code afterPrefix in Ok byte46)
        else Ok 0) in
    let! modrm := code_at code (size_add opcodeOffset 3) in
    let mode := Z.land (Z.shiftr modrm 6) 3 in
    if negb (mode =? 3) || negb (Z.land rex 0xA =? 0) then
      reject code address "only register-direct BLENDVPD xmm, xmm is supported"
    else
    let instruction := with_opcode X_BlendvpdRegReg instruction in
    let instruction := push_operand (XmmRegisterOperand (Z.lor (Z.land (Z.shiftr modrm 3) 7) (if negb (Z.land
        rex 4 =? 0) then 8 else 0))) instruction in
    let instruction := push_operand (XmmRegisterOperand (Z.lor (Z.land modrm 7) (if negb (Z.land rex 1 =? 0)
        then 8 else 0))) instruction in
    let blendLength := size_sub (size_add opcodeOffset 4) 0 in
    let instruction := with_length (u8 blendLength) instruction in
    let! instruction := copy_bytes code 0 blendLength instruction in
    Ok (inl instruction)
  else Ok (inr (cursor, instruction)).

Definition decodeSimdLanes_PshufbRegReg_2 (cursor : Z) (instruction : DecodedInstruction) : outcome Recognition
    :=
  let afterPrefix := size_add cursor 1 in
  let! byte2 := code_at code afterPrefix in
  let hasPshufbRex := (0x40 <=? byte2) && (byte2 <=? 0x4F) in
  let opcodeOffset := size_add afterPrefix (if hasPshufbRex then 1 else 0) in
  let! test6 := (if opcodeOffset <? zlength code then (let! byte3 := code_at code opcodeOffset in let! test5 :=
      (if (byte3 =? 0xF) && (2 <=? size_sub (zlength code) opcodeOffset) then (let! byte4 := code_at code
      (size_add opcodeOffset 1) in Ok (byte4 =? 0x38)) else Ok false) in Ok test5) else Ok false) in
  if test6 then
    decodeSimdLanes_PshufbRegReg_3 cursor afterPrefix hasPshufbRex opcodeOffset instruction
  else Ok (inr (cursor, instruction)).

Definition decodeSimdLanes_PshufbRegReg (cursor : Z) (instruction : DecodedInstruction) : outcome Recognition :=
  let! byte1 := code_at code cursor in
  if (byte1 =? 0x66) && (2 <=? size_sub (zlength code) cursor) then
    decodeSimdLanes_PshufbRegReg_2 cursor instruction
  else Ok (inr (cursor, instruction)).

Definition decodeSimdLanes_PinsrwXmmReg_2 (pinsrwCursor : Z) (pinsrwRex : Z) (instruction : DecodedInstruction)
    : outcome Recognition :=
  let! modrm := code_at code (size_add pinsrwCursor 2) in
  let mode := Z.land (Z.shiftr modrm 6) 3 in
  let regEncoding := Z.land (Z.shiftr modrm 3) 7 in
  let rmEncoding := Z.land modrm 7 in
  let sourceIs64 := negb (Z.land pinsrwRex 8 =? 0) in
  if mode =? 3 then
    if (pinsrwRex =? 0) && (4 <=? rmEncoding) then
      reject code address "high-byte register PINSRW source is not supported"
    else
    let instruction := with_opcode X_PinsrwXmmReg instruction in
    let instruction := push_operand (XmmRegisterOperand (Z.lor regEncoding (if negb (Z.land pinsrwRex 4 =? 0)
        then 8 else 0))) instruction in
    let! register60 := decodeRegister rmEncoding (negb (Z.land pinsrwRex 1 =? 0)) in
    let instruction := push_operand (RegisterOperand register60 (if sourceIs64 then 64 else 32) 0) instruction
        in
    let! byte61 := code_at code (size_add pinsrwCursor 3) in
    let instruction := push_operand (ImmediateOperand (Z.land byte61 7) 8) instruction in
    let len := size_sub (size_add pinsrwCursor 4) 0 in
    let instruction := with_length (u8 len) instruction in
    let! instruction := copy_bytes code 0 len instruction in
    Ok (inl instruction)
  else if sourceIs64 || negb (Z.land pinsrwRex 2 =? 0) then
    reject code address "only PINSRW xmm, m16, imm8 without REX.W/X is supported"
  else if (rmEncoding =? 4) || ((mode =? 0) && (rmEncoding =? 5)) then
    reject code address "only based PINSRW xmm, m16, imm8 is supported"
  else
  let operandCursor := size_add pinsrwCursor 3 in
  let displacement := 0 in
  let! (displacement, operandCursor) : within (- 2 ^ 31) (2 ^ 31 - 1) * cursor_in 4 9 :=
    (if mode =? 1 then
      if zlength code <=? operandCursor then
        reject code address "truncated PINSRW m16 disp8"
      else
      let! byte55 := code_at code operandCursor in
      let displacement := signed 8 byte55 in
      let operandCursor := size_add operandCursor 1 in
      Ok (displacement, operandCursor)
     else
      if mode =? 2 then
        if size_sub (zlength code) operandCursor <? 4 then
          reject code address "truncated PINSRW m16 disp32"
        else
        let! span56 := subspan code operandCursor 4 in
        let! displacement := readI32 span56 in
        let operandCursor := size_add operandCursor 4 in
        Ok (displacement, operandCursor)
      else Ok (displacement, operandCursor)) in
  if zlength code <=? operandCursor then
    reject code address "truncated PINSRW m16 imm8"
  else
  let instruction := with_opcode X_PinsrwXmmMem instruction in
  let instruction := push_operand (XmmRegisterOperand (Z.lor regEncoding (if negb (Z.land pinsrwRex 4 =? 0)
      then 8 else 0))) instruction in
  let! register58 := decodeRegister rmEncoding (negb (Z.land pinsrwRex 1 =? 0)) in
  let instruction := push_operand (MemoryOp (mkMemory register58 displacement 16 None 1 true false
      Segment_None)) instruction in
  let! byte59 := code_at code operandCursor in
  let instruction := push_operand (ImmediateOperand (Z.land byte59 7) 8) instruction in
  let operandCursor := size_add operandCursor 1 in
  let memoryLength := size_sub operandCursor 0 in
  let instruction := with_length (u8 memoryLength) instruction in
  let! instruction := copy_bytes code 0 memoryLength instruction in
  Ok (inl instruction).

Definition decodeSimdLanes_PinsrwXmmReg (cursor : Z) (instruction : DecodedInstruction) : outcome Recognition :=
  let! byte48 := code_at code cursor in
  if (byte48 =? 0x66) && (4 <=? size_sub (zlength code) cursor) then
    let pinsrwCursor := size_add cursor 1 in
    let pinsrwRex := 0 in
    let! byte49 := code_at code pinsrwCursor in
    let! (pinsrwRex, pinsrwCursor) : within 0 255 * cursor_in 1 2 :=
      (if (0x40 <=? byte49) && (byte49 <=? 0x4F) && (5 <=? size_sub (zlength code) pinsrwCursor) then
        let pinsrwRex := byte49 in
        let pinsrwCursor := size_add pinsrwCursor 1 in
        Ok (pinsrwRex, pinsrwCursor)
       else
        Ok (pinsrwRex, pinsrwCursor)) in
    let! test53 := (if 4 <=? size_sub (zlength code) pinsrwCursor then (let! byte50 := code_at code
        pinsrwCursor in let! test52 := (if byte50 =? 0xF then (let! byte51 := code_at code (size_add
        pinsrwCursor 1) in Ok (byte51 =? 0xC4)) else Ok false) in Ok test52) else Ok false) in
    if test53 then
      decodeSimdLanes_PinsrwXmmReg_2 pinsrwCursor pinsrwRex instruction
    else Ok (inr (cursor, instruction))
  else Ok (inr (cursor, instruction)).

Definition decodeSimdLanes_PextrwRegXmmImm (cursor : Z) (instruction : DecodedInstruction) : outcome
    Recognition :=
  let! byte62 := code_at code cursor in
  if (byte62 =? 0x66) && (4 <=? size_sub (zlength code) cursor) then
    let pextrwCursor := size_add cursor 1 in
    let pextrwRex := 0 in
    let! byte63 := code_at code pextrwCursor in
    let! (pextrwRex, pextrwCursor) : within 0 255 * cursor_in 1 2 :=
      (if (0x40 <=? byte63) && (byte63 <=? 0x4F) && (4 <=? size_sub (zlength code) pextrwCursor) then
        let pextrwRex := byte63 in
        let pextrwCursor := size_add pextrwCursor 1 in
        Ok (pextrwRex, pextrwCursor)
       else
        Ok (pextrwRex, pextrwCursor)) in
    let! test67 := (if 3 <=? size_sub (zlength code) pextrwCursor then (let! byte64 := code_at code
        pextrwCursor in let! test66 := (if byte64 =? 0xF then (let! byte65 := code_at code (size_add
        pextrwCursor 1) in Ok (byte65 =? 0xC5)) else Ok false) in Ok test66) else Ok false) in
    if test67 then
      if size_sub (zlength code) pextrwCursor <? 4 then
        reject code address "truncated PEXTRW r32, xmm, imm8"
      else if negb (Z.land pextrwRex 8 =? 0) then
        reject code address "REX.W is invalid for PEXTRW"
      else
      let! modrm := code_at code (size_add pextrwCursor 2) in
      let mode := Z.land (Z.shiftr modrm 6) 3 in
      let regEncoding := Z.land (Z.shiftr modrm 3) 7 in
      let rmEncoding := Z.land modrm 7 in
      if negb (mode =? 3) then
        reject code address "only register-direct PEXTRW r32, xmm, imm8 is supported"
      else
      let! byte69 := code_at code (size_add pextrwCursor 3) in
      let count := Z.land byte69 7 in
      let instruction := with_opcode X_PextrwRegXmmImm instruction in
      let! register70 := decodeRegister regEncoding (negb (Z.land pextrwRex 4 =? 0)) in
      let instruction := push_operand (RegisterOperand register70 32 0) instruction in
      let instruction := push_operand (XmmRegisterOperand (Z.lor rmEncoding (if negb (Z.land pextrwRex 1 =? 0)
          then 8 else 0))) instruction in
      let instruction := push_operand (ImmediateOperand count 8) instruction in
      let len := size_sub (size_add pextrwCursor 4) 0 in
      let instruction := with_length (u8 len) instruction in
      let! instruction := copy_bytes code 0 len instruction in
      Ok (inl instruction)
    else Ok (inr (cursor, instruction))
  else Ok (inr (cursor, instruction)).

Definition decodeSimdLanes_ExtractpsMemXmmImm (cursor : Z) (instruction : DecodedInstruction) : outcome
    Recognition :=
  let! byte71 := code_at code cursor in
  let! test77 := (if (byte71 =? 0x66) && (4 <=? size_sub (zlength code) cursor) then (let! byte72 := code_at
      code (size_add cursor 1) in let! test76 := (if byte72 =? 0xF then (let! byte73 := code_at code (size_add
      cursor 2) in let! test75 := (if byte73 =? 0x3A then (let! byte74 := code_at code (size_add cursor 3) in
      Ok (byte74 =? 0x17)) else Ok false) in Ok test75) else Ok false) in Ok test76) else Ok false) in
  if test77 then
    if size_sub (zlength code) cursor <? 6 then
      reject code address "truncated EXTRACTPS [memory], xmm, imm8"
    else
    let! modrm := code_at code (size_add cursor 4) in
    let mode := Z.land (Z.shiftr modrm 6) 3 in
    let rmEncoding := Z.land modrm 7 in
    if (mode =? 3) || ((mode =? 0) && (rmEncoding =? 5)) then
      reject code address "only based no-index EXTRACTPS memory destinations are supported"
    else
    let operandCursor := size_add cursor 5 in
    let baseEncoding := rmEncoding in
    let! (operandCursor, baseEncoding) : cursor_in 5 6 * within 0 7 :=
      (if rmEncoding =? 4 then
        if zlength code <=? operandCursor then
          reject code address "truncated EXTRACTPS SIB byte"
        else
        let! sib := code_at code operandCursor in
        let operandCursor := size_add operandCursor 1 in
        let indexEncoding := Z.land (Z.shiftr sib 3) 7 in
        let baseEncoding := Z.land sib 7 in
        if negb (indexEncoding =? 4) || ((mode =? 0) && (baseEncoding =? 5)) then
          reject code address "only based no-index EXTRACTPS SIB destinations are supported"
        else Ok (operandCursor, baseEncoding)
       else
        Ok (operandCursor, baseEncoding)) in
    let displacement := 0 in
    let! (displacement, operandCursor) : within (- 2 ^ 31) (2 ^ 31 - 1) * cursor_in 5 10 :=
      (if mode =? 1 then
        if zlength code <=? operandCursor then
          reject code address "truncated EXTRACTPS disp8"
        else
        let! byte80 := code_at code operandCursor in
        let displacement := signed 8 byte80 in
        let operandCursor := size_add operandCursor 1 in
        Ok (displacement, operandCursor)
       else
        if mode =? 2 then
          if size_sub (zlength code) operandCursor <? 4 then
            reject code address "truncated EXTRACTPS disp32"
          else
          let! span81 := subspan code operandCursor 4 in
          let! displacement := readI32 span81 in
          let operandCursor := size_add operandCursor 4 in
          Ok (displacement, operandCursor)
        else Ok (displacement, operandCursor)) in
    if zlength code <=? operandCursor then
      reject code address "truncated EXTRACTPS immediate"
    else
    let! lane := code_at code operandCursor in
    let operandCursor := size_add operandCursor 1 in
    let instruction := with_opcode X_ExtractpsMemXmmImm instruction in
    let! register84 := decodeRegister baseEncoding false in
    let instruction := push_operand (MemoryOp (mkMemory register84 displacement 32 None 1 true false
        Segment_None)) instruction in
    let instruction := push_operand (XmmRegisterOperand (Z.land (Z.shiftr modrm 3) 7)) instruction in
    let instruction := push_operand (ImmediateOperand lane 8) instruction in
    let len := size_sub operandCursor 0 in
    let instruction := with_length (u8 len) instruction in
    let! instruction := copy_bytes code 0 len instruction in
    Ok (inl instruction)
  else Ok (inr (cursor, instruction)).

Definition decodeSimdLanes_PtestRegReg (cursor : Z) (instruction : DecodedInstruction) : outcome Recognition :=
  let! byte85 := code_at code cursor in
  let! test91 := (if (byte85 =? 0x66) && (4 <=? size_sub (zlength code) cursor) then (let! byte86 := code_at
      code (size_add cursor 1) in let! test90 := (if byte86 =? 0xF then (let! byte87 := code_at code (size_add
      cursor 2) in let! test89 := (if byte87 =? 0x38 then (let! byte88 := code_at code (size_add cursor 3) in
      Ok (byte88 =? 0x17)) else Ok false) in Ok test89) else Ok false) in Ok test90) else Ok false) in
  if test91 then
    if size_sub (zlength code) cursor <? 5 then
      reject code address "truncated ptest xmm, xmm"
    else
    let! modrm := code_at code (size_add cursor 4) in
    let mode := Z.land (Z.shiftr modrm 6) 3 in
    if negb (mode =? 3) then
      reject code address "only register-direct PTEST is supported"
    else
    let instruction := with_opcode X_PtestRegReg instruction in
    let instruction := with_length 5 instruction in
    let! instruction := copy_bytes code 0 (d_length instruction) instruction in
    let instruction := push_operand (XmmRegisterOperand (Z.land (Z.shiftr modrm 3) 7)) instruction in
    let instruction := push_operand (XmmRegisterOperand (Z.land modrm 7)) instruction in
    Ok (inl instruction)
  else Ok (inr (cursor, instruction)).

Definition decodeSimdLanes_CmppdRegRegImm (cursor : Z) (instruction : DecodedInstruction) : outcome Recognition
    :=
  let! byte93 := code_at code cursor in
  if (byte93 =? 0x66) && (3 <=? size_sub (zlength code) cursor) then
    let afterPrefix := size_add cursor 1 in
    let! byte94 := code_at code afterPrefix in
    let hasPackedDoubleRex := (0x40 <=? byte94) && (byte94 <=? 0x4F) in
    let opcodeOffset := size_add afterPrefix (if hasPackedDoubleRex then 1 else 0) in
    let! test98 := (if 3 <=? size_sub (zlength code) opcodeOffset then (let! byte95 := code_at code
        opcodeOffset in let! test97 := (if byte95 =? 0xF then (let! byte96 := code_at code (size_add
        opcodeOffset 1) in Ok (byte96 =? 0xC2)) else Ok false) in Ok test97) else Ok false) in
    if test98 then
      let rex := if hasPackedDoubleRex then byte94 else 0 in
      let! modrm := code_at code (size_add opcodeOffset 2) in
      let mode := Z.land (Z.shiftr modrm 6) 3 in
      if negb (mode =? 3) || negb (Z.land rex 0xA =? 0) then
        reject code address "only register-direct CMPPD xmm, xmm, imm8 is supported"
      else if size_sub (zlength code) opcodeOffset <? 4 then
        reject code address "truncated CMPPD xmm, xmm, imm8"
      else
      let regEncoding := Z.land (Z.shiftr modrm 3) 7 in
      let rmEncoding := Z.land modrm 7 in
      let instruction := with_opcode X_CmppdRegRegImm instruction in
      let instruction := push_operand (XmmRegisterOperand (Z.lor regEncoding (if negb (Z.land rex 4 =? 0) then
          8 else 0))) instruction in
      let instruction := push_operand (XmmRegisterOperand (Z.lor rmEncoding (if negb (Z.land rex 1 =? 0) then 8
          else 0))) instruction in
      let! byte100 := code_at code (size_add opcodeOffset 3) in
      let instruction := push_operand (ImmediateOperand (Z.land byte100 7) 8) instruction in
      let len := size_sub (size_add opcodeOffset 4) 0 in
      let instruction := with_length (u8 len) instruction in
      let! instruction := copy_bytes code 0 len instruction in
      Ok (inl instruction)
    else Ok (inr (cursor, instruction))
  else Ok (inr (cursor, instruction)).

Definition decodeSimdLanes_PaddwRegReg (cursor : Z) (instruction : DecodedInstruction) : outcome Recognition :=
  let! byte101 := code_at code cursor in
  if (byte101 =? 0x66) && (3 <=? size_sub (zlength code) cursor) then
    let afterPrefix := size_add cursor 1 in
    let! byte102 := code_at code afterPrefix in
    let hasPackedWordRex := (0x40 <=? byte102) && (byte102 <=? 0x4F) in
    let opcodeOffset := size_add afterPrefix (if hasPackedWordRex then 1 else 0) in
    let! test106 := (if 3 <=? size_sub (zlength code) opcodeOffset then (let! byte103 := code_at code
        opcodeOffset in let! test105 := (if byte103 =? 0xF then (let! byte104 := code_at code (size_add
        opcodeOffset 1) in Ok (byte104 =? 0xFD)) else Ok false) in Ok test105) else Ok false) in
    if test106 then
      let rex := if hasPackedWordRex then byte102 else 0 in
      let! modrm := code_at code (size_add opcodeOffset 2) in
      let mode := Z.land (Z.shiftr modrm 6) 3 in
      if negb (mode =? 3) || negb (Z.land rex 0xA =? 0) then
        reject code address "only register-direct PADDW xmm, xmm is supported"
      else
      let regEncoding := Z.land (Z.shiftr modrm 3) 7 in
      let rmEncoding := Z.land modrm 7 in
      let instruction := with_opcode X_PaddwRegReg instruction in
      let instruction := push_operand (XmmRegisterOperand (Z.lor regEncoding (if negb (Z.land rex 4 =? 0) then
          8 else 0))) instruction in
      let instruction := push_operand (XmmRegisterOperand (Z.lor rmEncoding (if negb (Z.land rex 1 =? 0) then 8
          else 0))) instruction in
      let len := size_sub (size_add opcodeOffset 3) 0 in
      let instruction := with_length (u8 len) instruction in
      let! instruction := copy_bytes code 0 len instruction in
      Ok (inl instruction)
    else Ok (inr (cursor, instruction))
  else Ok (inr (cursor, instruction)).

Definition decodeSimdLanes_PsrldRegImm_3 (afterPrefix : Z) (hasPackedDwordRex : bool) (opcodeOffset : Z)
    (instruction : DecodedInstruction) : outcome Recognition :=
  let! secondOpcode := code_at code (size_add opcodeOffset 1) in
  let isImmediateShift := (secondOpcode =? 0x72) || (secondOpcode =? 0x73) in
  let requiredAfterOpcode := if isImmediateShift then 2 else 1 in
  if size_sub (zlength code) (size_add opcodeOffset 2) <? requiredAfterOpcode then
    reject code address (if secondOpcode =? 0x72 then "truncated PSLLD xmm, imm8"%string else if secondOpcode
        =? 0x73 then "truncated PSRLQ xmm, imm8"%string else if secondOpcode =? 0xFE then
        "truncated PADDD xmm, xmm"%string else "truncated PADDQ xmm, xmm"%string)
  else
  let! rex : within 0 255 := (if hasPackedDwordRex then (let! byte116 := code_at code afterPrefix in Ok
      byte116) else Ok 0) in
  let! modrm := code_at code (size_add opcodeOffset 2) in
  let mode := Z.land (Z.shiftr modrm 6) 3 in
  let regEncoding := Z.land (Z.shiftr modrm 3) 7 in
  let rmEncoding := Z.land modrm 7 in
  let expectedOpcodeExtension := if secondOpcode =? 0x72 then 6 else 2 in
  let packedMemorySource := negb isImmediateShift && (secondOpcode =? 0xFE) && negb (mode =? 3) in
  let isDwordShiftRight := isImmediateShift && (secondOpcode =? 0x72) && (regEncoding =? 2) in
  let isByteShift := isImmediateShift && (secondOpcode =? 0x73) && ((regEncoding =? 3) || (regEncoding =? 7)) in
  if (negb (mode =? 3) && negb packedMemorySource) || negb (Z.land rex 0xA =? 0) || (isImmediateShift && negb
      isDwordShiftRight && negb isByteShift && (negb (regEncoding =? expectedOpcodeExtension) || negb (Z.land
      rex 4 =? 0))) then
    reject code address (if secondOpcode =? 0x72 then
        "only register-direct PSLLD/PSRLD xmm, imm8 is supported"%string else if secondOpcode =? 0x73 then
        "only register-direct PSRLQ/PSRLDQ/PSLLDQ xmm, imm8 is supported"%string else if secondOpcode =? 0xFE
        then "only PADDD xmm, xmm/m128 is supported"%string else
        "only register-direct PADDQ xmm, xmm is supported"%string)
  else
  next! instruction :=
    (if isImmediateShift then
      let instruction := with_opcode (if isDwordShiftRight then X_PsrldRegImm else if isByteShift then if
          regEncoding =? 3 then X_PsrldqRegImm else X_PslldqRegImm else if secondOpcode =? 0x72 then
          X_PslldRegImm else X_PsrlqRegImm) instruction in
      let instruction := push_operand (XmmRegisterOperand (Z.lor rmEncoding (if negb (Z.land rex 1 =? 0) then 8
          else 0))) instruction in
      let! byte118 := code_at code (size_add opcodeOffset 3) in
      let instruction := push_operand (ImmediateOperand byte118 8) instruction in
      Ok (inr instruction)
     else
      if packedMemorySource then
        let ripRelative := (mode =? 0) && (rmEncoding =? 5) && (Z.land rex 1 =? 0) in
        if rmEncoding =? 4 then
          reject code address "SIB-addressed PADDD xmm, m128 is not supported"
        else
        let operandCursor := size_add opcodeOffset 3 in
        let displacement := 0 in
        let! (displacement, operandCursor) : within (- 2 ^ 31) (2 ^ 31 - 1) * cursor_in 4 9 :=
          (if mode =? 1 then
            if zlength code <=? operandCursor then
              reject code address "truncated PADDD m128 disp8"
            else
            let! byte119 := code_at code operandCursor in
            let displacement := signed 8 byte119 in
            let operandCursor := size_add operandCursor 1 in
            Ok (displacement, operandCursor)
           else
            if (mode =? 2) || ripRelative then
              if size_sub (zlength code) operandCursor <? 4 then
                reject code address "truncated PADDD m128 disp32"
              else
              let! span120 := subspan code operandCursor 4 in
              let! displacement := readI32 span120 in
              let operandCursor := size_add operandCursor 4 in
              Ok (displacement, operandCursor)
            else Ok (displacement, operandCursor)) in
        let! _ :=
          (if ripRelative then
            let! _ := relativeTarget address (size_sub operandCursor 0) displacement in
            Ok tt
           else
            Ok tt) in
        let instruction := with_opcode X_PadddRegMem instruction in
        let instruction := push_operand (XmmRegisterOperand (Z.lor regEncoding (if negb (Z.land rex 4 =? 0)
            then 8 else 0))) instruction in
        let! choice123 : MemoryOperand := (if ripRelative then Ok (mkMemory Rax displacement 128 None 1 false
            true Segment_None) else (let! register124 := decodeRegister rmEncoding (negb (Z.land rex 1 =? 0))
            in Ok (mkMemory register124 displacement 128 None 1 true false Segment_None))) in
        let instruction := push_operand (MemoryOp choice123) instruction in
        let memoryEnd := size_sub operandCursor 0 in
        let instruction := with_length (u8 memoryEnd) instruction in
        let! instruction := copy_bytes code 0 memoryEnd instruction in
        Ok (inl instruction)
      else
      let instruction := with_opcode (if secondOpcode =? 0xFE then X_PadddRegReg else X_PaddqRegReg)
          instruction in
      let instruction := push_operand (XmmRegisterOperand (Z.lor regEncoding (if negb (Z.land rex 4 =? 0) then
          8 else 0))) instruction in
      let instruction := push_operand (XmmRegisterOperand (Z.lor rmEncoding (if negb (Z.land rex 1 =? 0) then 8
          else 0))) instruction in
      Ok (inr instruction)) in
  let end_ := size_add (size_add opcodeOffset 2) requiredAfterOpcode in
  let len := size_sub end_ 0 in
  let instruction := with_length (u8 len) instruction in
  let! instruction := copy_bytes code 0 len instruction in
  Ok (inl instruction).

Definition decodeSimdLanes_PsrldRegImm_2 (cursor : Z) (instruction : DecodedInstruction) : outcome Recognition
    :=
  let afterPrefix := size_add cursor 1 in
  let! byte109 := code_at code afterPrefix in
  let hasPackedDwordRex := (0x40 <=? byte109) && (byte109 <=? 0x4F) in
  let opcodeOffset := size_add afterPrefix (if hasPackedDwordRex then 1 else 0) in
  let! test113 := (if 2 <=? size_sub (zlength code) opcodeOffset then (let! byte110 := code_at code
      opcodeOffset in let! test112 := (if byte110 =? 0xF then (let! byte111 := code_at code (size_add
      opcodeOffset 1) in Ok ((byte111 =? 0x72) || (byte111 =? 0x73) || (byte111 =? 0xFE) || (byte111 =? 0xD4)))
      else Ok false) in Ok test112) else Ok false) in
  if test113 then
    decodeSimdLanes_PsrldRegImm_3 afterPrefix hasPackedDwordRex opcodeOffset instruction
  else Ok (inr (cursor, instruction)).

Definition decodeSimdLanes_PsrldRegImm (cursor : Z) (instruction : DecodedInstruction) : outcome Recognition :=
  let! byte108 := code_at code cursor in
  if (byte108 =? 0x66) && (3 <=? size_sub (zlength code) cursor) then
    decodeSimdLanes_PsrldRegImm_2 cursor instruction
  else Ok (inr (cursor, instruction)).

Definition decodeSimdLanes_PunpcklwdRegReg (cursor : Z) (instruction : DecodedInstruction) : outcome
    Recognition :=
  let! byte125 := code_at code cursor in
  if (byte125 =? 0x66) && (2 <=? size_sub (zlength code) cursor) then
    let afterPrefix := size_add cursor 1 in
    let! byte126 := code_at code afterPrefix in
    let hasPunpcklRex := (0x40 <=? byte126) && (byte126 <=? 0x4F) in
    let punpcklOpcodeOffset := size_add afterPrefix (if hasPunpcklRex then 1 else 0) in
    let! test128 := (if 2 <=? size_sub (zlength code) punpcklOpcodeOffset then (let! byte127 := code_at code
        punpcklOpcodeOffset in Ok (byte127 =? 0xF)) else Ok false) in
    let! punpcklSecondOpcode : within 0 255 := (if test128 then (let! byte130 := code_at code (size_add
        punpcklOpcodeOffset 1) in Ok byte130) else Ok 0) in
    if (punpcklSecondOpcode =? 0x61) || (punpcklSecondOpcode =? 0x6C) then
      if size_sub (zlength code) punpcklOpcodeOffset <? 3 then
        reject code address (if punpcklSecondOpcode =? 0x61 then "truncated PUNPCKLWD xmm, xmm"%string else
            "truncated PUNPCKLQDQ xmm, xmm"%string)
      else
      let rex := if hasPunpcklRex then byte126 else 0 in
      let! modrm := code_at code (size_add punpcklOpcodeOffset 2) in
      let mode := Z.land (Z.shiftr modrm 6) 3 in
      if negb (mode =? 3) || negb (Z.land rex 0xA =? 0) then
        reject code address (if punpcklSecondOpcode =? 0x61 then
            "only register-direct PUNPCKLWD xmm, xmm is supported"%string else
            "only register-direct PUNPCKLQDQ xmm, xmm is supported"%string)
      else
      let instruction := with_opcode (if punpcklSecondOpcode =? 0x61 then X_PunpcklwdRegReg else
          X_PunpcklqdqRegReg) instruction in
      let instruction := push_operand (XmmRegisterOperand (Z.lor (Z.land (Z.shiftr modrm 3) 7) (if negb (Z.land
          rex 4 =? 0) then 8 else 0))) instruction in
      let instruction := push_operand (XmmRegisterOperand (Z.lor (Z.land modrm 7) (if negb (Z.land rex 1 =? 0)
          then 8 else 0))) instruction in
      let end_ := size_add punpcklOpcodeOffset 3 in
      let len := size_sub end_ 0 in
      let instruction := with_length (u8 len) instruction in
      let! instruction := copy_bytes code 0 len instruction in
      Ok (inl instruction)
    else Ok (inr (cursor, instruction))
  else Ok (inr (cursor, instruction)).

Definition decodeSimdLanes_PorRegReg (cursor : Z) (instruction : DecodedInstruction) : outcome Recognition :=
  let! byte132 := code_at code cursor in
  if (byte132 =? 0x66) && (2 <=? size_sub (zlength code) cursor) then
    let afterPrefix := size_add cursor 1 in
    let! byte133 := code_at code afterPrefix in
    let hasPorRex := (0x40 <=? byte133) && (byte133 <=? 0x4F) in
    let opcodeOffset := size_add afterPrefix (if hasPorRex then 1 else 0) in
    let! test137 := (if opcodeOffset <? zlength code then (let! byte134 := code_at code opcodeOffset in let!
        test136 := (if (byte134 =? 0xF) && (2 <=? size_sub (zlength code) opcodeOffset) then (let! byte135 :=
        code_at code (size_add opcodeOffset 1) in Ok (byte135 =? 0xEB)) else Ok false) in Ok test136) else Ok
        false) in
    if test137 then
      if size_sub (zlength code) opcodeOffset <? 3 then
        reject code address "truncated por xmm, xmm"
      else
      let rex := if hasPorRex then byte133 else 0 in
      let! modrm := code_at code (size_add opcodeOffset 2) in
      let mode := Z.land (Z.shiftr modrm 6) 3 in
      if negb (mode =? 3) then
        reject code address "only register-direct POR xmm, xmm is supported"
      else
      let instruction := with_opcode X_PorRegReg instruction in
      let instruction := push_operand (XmmRegisterOperand (Z.lor (Z.land (Z.shiftr modrm 3) 7) (if negb (Z.land
          rex 4 =? 0) then 8 else 0))) instruction in
      let instruction := push_operand (XmmRegisterOperand (Z.lor (Z.land modrm 7) (if negb (Z.land rex 1 =? 0)
          then 8 else 0))) instruction in
      let len := size_sub (size_add opcodeOffset 3) 0 in
      let instruction := with_length (u8 len) instruction in
      let! instruction := copy_bytes code 0 len instruction in
      Ok (inl instruction)
    else Ok (inr (cursor, instruction))
  else Ok (inr (cursor, instruction)).

Definition decodeSimdLanes_PxorRegReg (cursor : Z) (instruction : DecodedInstruction) : outcome Recognition :=
  let! byte139 := code_at code cursor in
  let! test148 := (if (byte139 =? 0x66) && (3 <=? size_sub (zlength code) cursor) then (let! byte140 := code_at
      code (size_add cursor 1) in let! test142 := (if byte140 =? 0xF then (let! byte141 := code_at code
      (size_add cursor 2) in Ok (byte141 =? 0xEF)) else Ok false) in let! test147 := (if test142 then Ok true
      else (let! test146 := (if (5 <=? size_sub (zlength code) cursor) && (0x40 <=? byte140) && (byte140 <=?
      0x4F) then (let! byte143 := code_at code (size_add cursor 2) in let! test145 := (if byte143 =? 0xF then
      (let! byte144 := code_at code (size_add cursor 3) in Ok (byte144 =? 0xEF)) else Ok false) in Ok test145)
      else Ok false) in Ok test146)) in Ok test147) else Ok false) in
  if test148 then
    let! byte149 := code_at code (size_add cursor 1) in
    let rex := if byte149 =? 0xF then 0 else byte149 in
    let rexR := negb (Z.land rex 4 =? 0) in
    let rexB := negb (Z.land rex 1 =? 0) in
    let modrmOffset := if byte149 =? 0xF then size_add cursor 3 else size_add cursor 4 in
    if size_sub (zlength code) modrmOffset <? 1 then
      reject code address "truncated pxor xmm, xmm/m128"
    else
    let! modrm := code_at code modrmOffset in
    let mode := Z.land (Z.shiftr modrm 6) 3 in
    let rmEncoding := Z.land modrm 7 in
    let destinationEncoding := Z.lor (Z.land (Z.shiftr modrm 3) 7) (if rexR then 8 else 0) in
    let instruction := push_operand (XmmRegisterOperand destinationEncoding) instruction in
    let cursor := size_add modrmOffset 1 in
    let! (instruction, cursor) : DecodedInstruction * cursor_in 4 9 :=
      (if mode =? 3 then
        let instruction := with_opcode X_PxorRegReg instruction in
        let instruction := push_operand (XmmRegisterOperand (Z.lor rmEncoding (if rexB then 8 else 0)))
            instruction in
        Ok (instruction, cursor)
       else
        if rmEncoding =? 4 then
          reject code address "only PXOR xmm, [base/RIP+disp8/disp32] memory operands are supported"
        else
        let ripRelative := (mode =? 0) && (rmEncoding =? 5) in
        let displacement := 0 in
        let! (displacement, cursor) : within (- 2 ^ 31) (2 ^ 31 - 1) * cursor_in 4 9 :=
          (if ripRelative || (mode =? 2) then
            if size_sub (zlength code) cursor <? 4 then
              reject code address "truncated PXOR memory disp32"
            else
            let! span151 := subspan code cursor 4 in
            let! displacement := readI32 span151 in
            let cursor := size_add cursor 4 in
            Ok (displacement, cursor)
           else
            if mode =? 1 then
              if zlength code <=? cursor then
                reject code address "truncated PXOR memory disp8"
              else
              let! byte153 := code_at code cursor in
              let displacement := signed 8 byte153 in
              let cursor := size_add cursor 1 in
              Ok (displacement, cursor)
            else Ok (displacement, cursor)) in
        let! _ :=
          (if ripRelative then
            let! _ := relativeTarget address (size_sub cursor 0) displacement in
            Ok tt
           else
            Ok tt) in
        let instruction := with_opcode X_PxorRegMem instruction in
        let! choice155 : Register := (if ripRelative then Ok Rax else (let! register156 := decodeRegister
            rmEncoding rexB in Ok register156)) in
        let instruction := push_operand (MemoryOp (mkMemory choice155 displacement 128 None 1 (negb
            ripRelative) ripRelative Segment_None)) instruction in
        Ok (instruction, cursor)) in
    let len := size_sub cursor 0 in
    let instruction := with_length (u8 len) instruction in
    let! instruction := copy_bytes code 0 len instruction in
    Ok (inl instruction)
  else Ok (inr (cursor, instruction)).

Definition decodeSimdLanes_PandnRegReg (cursor : Z) (instruction : DecodedInstruction) : outcome Recognition :=
  let! byte157 := code_at code cursor in
  let! test161 := (if (byte157 =? 0x66) && (3 <=? size_sub (zlength code) cursor) then (let! byte158 := code_at
      code (size_add cursor 1) in let! test160 := (if byte158 =? 0xF then (let! byte159 := code_at code
      (size_add cursor 2) in Ok (byte159 =? 0xDF)) else Ok false) in Ok test160) else Ok false) in
  if test161 then
    if size_sub (zlength code) cursor <? 4 then
      reject code address "truncated pandn xmm, xmm"
    else
    let! modrm := code_at code (size_add cursor 3) in
    let mode := Z.land (Z.shiftr modrm 6) 3 in
    if negb (mode =? 3) then
      reject code address "only register-direct PANDN is supported"
    else
    let instruction := with_opcode X_PandnRegReg instruction in
    let instruction := with_length 4 instruction in
    let! instruction := copy_bytes code cursor 4 instruction in
    let instruction := push_operand (XmmRegisterOperand (Z.land (Z.shiftr modrm 3) 7)) instruction in
    let instruction := push_operand (XmmRegisterOperand (Z.land modrm 7)) instruction in
    Ok (inl instruction)
  else Ok (inr (cursor, instruction)).

Definition decodeSimdLanes_PandRegReg (cursor : Z) (instruction : DecodedInstruction) : outcome Recognition :=
  let! byte163 := code_at code cursor in
  let! test167 := (if (byte163 =? 0x66) && (3 <=? size_sub (zlength code) cursor) then (let! byte164 := code_at
      code (size_add cursor 1) in let! test166 := (if byte164 =? 0xF then (let! byte165 := code_at code
      (size_add cursor 2) in Ok (byte165 =? 0xDB)) else Ok false) in Ok test166) else Ok false) in
  if test167 then
    if size_sub (zlength code) cursor <? 4 then
      reject code address "truncated PAND xmm, [memory]"
    else
    let! modrm := code_at code (size_add cursor 3) in
    let mode := Z.land (Z.shiftr modrm 6) 3 in
    let rmEncoding := Z.land modrm 7 in
    if mode =? 3 then
      let instruction := with_opcode X_PandRegReg instruction in
      let instruction := push_operand (XmmRegisterOperand (Z.land (Z.shiftr modrm 3) 7)) instruction in
      let instruction := push_operand (XmmRegisterOperand rmEncoding) instruction in
      let instruction := with_length 4 instruction in
      let! instruction := copy_bytes code 0 (d_length instruction) instruction in
      Ok (inl instruction)
    else if rmEncoding =? 4 then
      reject code address "only PAND xmm, [base+disp8/disp32] or [RIP+disp32] is supported"
    else
    let operandCursor := size_add cursor 4 in
    let displacement := 0 in
    let ripRelative := (mode =? 0) && (rmEncoding =? 5) in
    let! (displacement, operandCursor) : within (- 2 ^ 31) (2 ^ 31 - 1) * cursor_in 4 8 :=
      (if ripRelative || (mode =? 2) then
        if size_sub (zlength code) operandCursor <? 4 then
          reject code address "truncated PAND memory disp32"
        else
        let! span169 := subspan code operandCursor 4 in
        let! displacement := readI32 span169 in
        let operandCursor := size_add operandCursor 4 in
        Ok (displacement, operandCursor)
       else
        if mode =? 1 then
          if zlength code <=? operandCursor then
            reject code address "truncated PAND memory disp8"
          else
          let! byte171 := code_at code operandCursor in
          let displacement := signed 8 byte171 in
          let operandCursor := size_add operandCursor 1 in
          Ok (displacement, operandCursor)
        else Ok (displacement, operandCursor)) in
    let len := size_sub operandCursor 0 in
    let! _ :=
      (if ripRelative then
        let! _ := relativeTarget address len displacement in
        Ok tt
       else
        Ok tt) in
    let instruction := with_opcode X_PandRegMem instruction in
    let instruction := push_operand (XmmRegisterOperand (Z.land (Z.shiftr modrm 3) 7)) instruction in
    let! choice173 : Register := (if ripRelative then Ok Rax else (let! register174 := decodeRegister
        rmEncoding false in Ok register174)) in
    let instruction := push_operand (MemoryOp (mkMemory choice173 displacement 128 None 1 (negb ripRelative)
        ripRelative Segment_None)) instruction in
    let instruction := with_length (u8 len) instruction in
    let! instruction := copy_bytes code 0 len instruction in
    Ok (inl instruction)
  else Ok (inr (cursor, instruction)).

Definition decodeSimdLanes_PcmpeqbRegReg (cursor : Z) (instruction : DecodedInstruction) : outcome Recognition
    :=
  let! byte175 := code_at code cursor in
  let! test179 := (if (byte175 =? 0x66) && (3 <=? size_sub (zlength code) cursor) then (let! byte176 := code_at
      code (size_add cursor 1) in let! test178 := (if byte176 =? 0xF then (let! byte177 := code_at code
      (size_add cursor 2) in Ok (byte177 =? 0x74)) else Ok false) in Ok test178) else Ok false) in
  if test179 then
    if size_sub (zlength code) cursor <? 4 then
      reject code address "truncated pcmpeqb xmm, xmm/m128"
    else
    let cursor := size_add cursor 3 in
    let! modrm := code_at code cursor in
    let cursor := size_add cursor 1 in
    let mode := Z.land (Z.shiftr modrm 6) 3 in
    let rmEncoding := Z.land modrm 7 in
    if (negb (mode =? 3) && (rmEncoding =? 4)) || ((mode =? 0) && (rmEncoding =? 5)) then
      reject code address "only PCMPEQB xmm, xmm or [base+disp8/disp32] is supported"
    else if mode =? 3 then
      let instruction := with_opcode X_PcmpeqbRegReg instruction in
      let instruction := push_operand (XmmRegisterOperand (Z.land (Z.shiftr modrm 3) 7)) instruction in
      let instruction := push_operand (XmmRegisterOperand rmEncoding) instruction in
      let len := size_sub cursor 0 in
      let instruction := with_length (u8 len) instruction in
      let! instruction := copy_bytes code 0 len instruction in
      Ok (inl instruction)
    else
    let displacement := 0 in
    let! (displacement, cursor) : within (- 2 ^ 31) (2 ^ 31 - 1) * cursor_in 4 8 :=
      (if mode =? 1 then
        if zlength code <=? cursor then
          reject code address "truncated PCMPEQB disp8"
        else
        let! byte181 := code_at code cursor in
        let displacement := signed 8 byte181 in
        let cursor := size_add cursor 1 in
        Ok (displacement, cursor)
       else
        if mode =? 2 then
          if size_sub (zlength code) cursor <? 4 then
            reject code address "truncated PCMPEQB disp32"
          else
          let! span182 := subspan code cursor 4 in
          let! displacement := readI32 span182 in
          let cursor := size_add cursor 4 in
          Ok (displacement, cursor)
        else Ok (displacement, cursor)) in
    let instruction := with_opcode X_PcmpeqbRegMem instruction in
    let instruction := push_operand (XmmRegisterOperand (Z.land (Z.shiftr modrm 3) 7)) instruction in
    let! register184 := decodeRegister rmEncoding false in
    let instruction := push_operand (MemoryOp (mkMemory register184 displacement 128 None 1 true false
        Segment_None)) instruction in
    let len := size_sub cursor 0 in
    let instruction := with_length (u8 len) instruction in
    let! instruction := copy_bytes code 0 len instruction in
    Ok (inl instruction)
  else Ok (inr (cursor, instruction)).

Definition decodeSimdLanes_PcmpeqdRegReg (cursor : Z) (instruction : DecodedInstruction) : outcome Recognition
    :=
  let! byte185 := code_at code cursor in
  if (byte185 =? 0x66) && (3 <=? size_sub (zlength code) cursor) then
    let afterPrefix := size_add cursor 1 in
    let! byte186 := code_at code afterPrefix in
    let hasPcmpeqdRex := (0x40 <=? byte186) && (byte186 <=? 0x4F) in
    let pcmpeqdOpcodeOffset := size_add afterPrefix (if hasPcmpeqdRex then 1 else 0) in
    let! test190 := (if 2 <=? size_sub (zlength code) pcmpeqdOpcodeOffset then (let! byte187 := code_at code
        pcmpeqdOpcodeOffset in let! test189 := (if byte187 =? 0xF then (let! byte188 := code_at code (size_add
        pcmpeqdOpcodeOffset 1) in Ok (byte188 =? 0x76)) else Ok false) in Ok test189) else Ok false) in
    if test190 then
      if size_sub (zlength code) pcmpeqdOpcodeOffset <? 3 then
        reject code address "truncated PCMPEQD xmm, xmm"
      else
      let rex := if hasPcmpeqdRex then byte186 else 0 in
      let! modrm := code_at code (size_add pcmpeqdOpcodeOffset 2) in
      let mode := Z.land (Z.shiftr modrm 6) 3 in
      if negb (mode =? 3) || negb (Z.land rex 0xA =? 0) then
        reject code address "only register-direct PCMPEQD is supported"
      else
      let instruction := with_opcode X_PcmpeqdRegReg instruction in
      let instruction := push_operand (XmmRegisterOperand (Z.lor (Z.land (Z.shiftr modrm 3) 7) (if negb (Z.land
          rex 4 =? 0) then 8 else 0))) instruction in
      let instruction := push_operand (XmmRegisterOperand (Z.lor (Z.land modrm 7) (if negb (Z.land rex 1 =? 0)
          then 8 else 0))) instruction in
      let end_ := size_add pcmpeqdOpcodeOffset 3 in
      let len := size_sub end_ 0 in
      let instruction := with_length (u8 len) instruction in
      let! instruction := copy_bytes code 0 len instruction in
      Ok (inl instruction)
    else Ok (inr (cursor, instruction))
  else Ok (inr (cursor, instruction)).

Definition decodeSimdLanes_PshufdRegRegImm (cursor : Z) (instruction : DecodedInstruction) : outcome
    Recognition :=
  let! byte192 := code_at code cursor in
  let! test196 := (if (byte192 =? 0x66) && (3 <=? size_sub (zlength code) cursor) then (let! byte193 := code_at
      code (size_add cursor 1) in let! test195 := (if byte193 =? 0xF then (let! byte194 := code_at code
      (size_add cursor 2) in Ok (byte194 =? 0x70)) else Ok false) in Ok test195) else Ok false) in
  if test196 then
    if size_sub (zlength code) cursor <? 5 then
      reject code address "truncated pshufd xmm, xmm, imm8"
    else
    let! modrm := code_at code (size_add cursor 3) in
    let mode := Z.land (Z.shiftr modrm 6) 3 in
    if negb (mode =? 3) then
      reject code address "only register-direct PSHUFD is supported"
    else
    let instruction := with_opcode X_PshufdRegRegImm instruction in
    let instruction := with_length 5 instruction in
    let! instruction := copy_bytes code cursor 5 instruction in
    let instruction := push_operand (XmmRegisterOperand (Z.land (Z.shiftr modrm 3) 7)) instruction in
    let instruction := push_operand (XmmRegisterOperand (Z.land modrm 7)) instruction in
    let! byte198 := code_at code (size_add cursor 4) in
    let instruction := push_operand (ImmediateOperand byte198 8) instruction in
    Ok (inl instruction)
  else Ok (inr (cursor, instruction)).

Definition decodeSimdLanes_UcomisdRegReg (cursor : Z) (instruction : DecodedInstruction) : outcome Recognition
    :=
  let! byte199 := code_at code cursor in
  let! test202 := (if (byte199 =? 0xF) && (3 <=? size_sub (zlength code) cursor) then Ok true else (let!
      test201 := (if (4 <=? size_sub (zlength code) cursor) && (0x40 <=? byte199) && (byte199 <=? 0x4F) then
      (let! byte200 := code_at code (size_add cursor 1) in Ok (byte200 =? 0xF)) else Ok false) in Ok test201))
      in
  let! test204 := (if test202 then (let! byte203 := code_at code (size_add cursor (if byte199 =? 0xF then 1
      else 2)) in Ok (byte203 =? 0x2E)) else Ok false) in
  if test204 then
    let hasUcomisdRex := negb (byte199 =? 0xF) in
    let rex := if hasUcomisdRex then byte199 else 0 in
    let modrmOffset := size_add cursor (if hasUcomisdRex then 3 else 2) in
    let! modrm := code_at code modrmOffset in
    let mode := Z.land (Z.shiftr modrm 6) 3 in
    if negb (mode =? 3) || negb (Z.land rex 0xA =? 0) then
      reject code address "only register-direct UCOMISD xmm, xmm is supported"
    else
    let instruction := with_opcode X_UcomisdRegReg instruction in
    let instruction := push_operand (XmmRegisterOperand (Z.lor (Z.land (Z.shiftr modrm 3) 7) (if negb (Z.land
        rex 4 =? 0) then 8 else 0))) instruction in
    let instruction := push_operand (XmmRegisterOperand (Z.lor (Z.land modrm 7) (if negb (Z.land rex 1 =? 0)
        then 8 else 0))) instruction in
    let len := size_sub (size_add modrmOffset 1) 0 in
    let instruction := with_length (u8 len) instruction in
    let! instruction := copy_bytes code 0 len instruction in
    Ok (inl instruction)
  else Ok (inr (cursor, instruction)).

Definition decodeSimdLanes_UcomissRegReg_2 (afterUcomissPrefix : Z) (hasUcomissRex : bool) (ucomissOpcodeOffset
    : Z) (instruction : DecodedInstruction) : outcome Recognition :=
  let! rex : within 0 255 := (if hasUcomissRex then (let! byte213 := code_at code afterUcomissPrefix in Ok
      byte213) else Ok 0) in
  let! modrm := code_at code (size_add ucomissOpcodeOffset 2) in
  let mode := Z.land (Z.shiftr modrm 6) 3 in
  if negb (Z.land rex 8 =? 0) then
    reject code address "UCOMISS does not support REX.W"
  else
  let destination := XmmRegisterOperand (Z.lor (Z.land (Z.shiftr modrm 3) 7) (if negb (Z.land rex 4 =? 0) then
      8 else 0)) in
  if mode =? 3 then
    let instruction := with_opcode X_UcomissRegReg instruction in
    let instruction := push_operand destination instruction in
    let instruction := push_operand (XmmRegisterOperand (Z.lor (Z.land modrm 7) (if negb (Z.land rex 1 =? 0)
        then 8 else 0))) instruction in
    let len := size_sub (size_add ucomissOpcodeOffset 3) 0 in
    let instruction := with_length (u8 len) instruction in
    let! instruction := copy_bytes code 0 len instruction in
    Ok (inl instruction)
  else
  let rmEncoding := Z.land modrm 7 in
  let ripRelative := (mode =? 0) && (rmEncoding =? 5) && (Z.land rex 1 =? 0) in
  let baseEncoding := rmEncoding in
  let index := None in
  let scale := 1 in
  let operandCursor := size_add ucomissOpcodeOffset 3 in
  let! (operandCursor, baseEncoding, index, scale) : cursor_in 4 6 * within 0 7 * option Register * one_of [1;
      2; 4; 8] :=
    (if negb ripRelative && (rmEncoding =? 4) then
      if zlength code <=? operandCursor then
        reject code address "truncated UCOMISS m32 SIB"
      else
      let! sib := code_at code operandCursor in
      let operandCursor := size_add operandCursor 1 in
      let scaleBits := Z.land (Z.shiftr sib 6) 3 in
      let indexEncoding := Z.land (Z.shiftr sib 3) 7 in
      let baseEncoding := Z.land sib 7 in
      if (mode =? 0) && (baseEncoding =? 5) then
        reject code address "no-base UCOMISS m32 SIB is not supported"
      else if negb (indexEncoding =? 4) || negb (Z.land rex 2 =? 0) then
        let! register216 := decodeRegister indexEncoding (negb (Z.land rex 2 =? 0)) in
        let index := Some register216 in
        let scale := Z.shiftl 1 scaleBits in
        Ok (operandCursor, baseEncoding, index, scale)
      else Ok (operandCursor, baseEncoding, index, scale)
     else
      if negb ripRelative && negb (Z.land rex 2 =? 0) then
        reject code address "REX.X requires a UCOMISS m32 SIB"
      else Ok (operandCursor, baseEncoding, index, scale)) in
  let displacement := 0 in
  let! (displacement, operandCursor) : within (- 2 ^ 31) (2 ^ 31 - 1) * cursor_in 4 10 :=
    (if mode =? 1 then
      if zlength code <=? operandCursor then
        reject code address "truncated UCOMISS m32 disp8"
      else
      let! byte217 := code_at code operandCursor in
      let displacement := signed 8 byte217 in
      let operandCursor := size_add operandCursor 1 in
      Ok (displacement, operandCursor)
     else
      if (mode =? 2) || ripRelative then
        if size_sub (zlength code) operandCursor <? 4 then
          reject code address "truncated UCOMISS m32 disp32"
        else
        let! span218 := subspan code operandCursor 4 in
        let! displacement := readI32 span218 in
        let operandCursor := size_add operandCursor 4 in
        Ok (displacement, operandCursor)
      else Ok (displacement, operandCursor)) in
  let! _ :=
    (if ripRelative then
      let! _ := relativeTarget address (size_sub operandCursor 0) displacement in
      Ok tt
     else
      Ok tt) in
  let instruction := with_opcode X_UcomissRegMem instruction in
  let instruction := push_operand destination instruction in
  let! choice221 : MemoryOperand := (if ripRelative then Ok (mkMemory Rax displacement 32 None 1 false true
      Segment_None) else (let! register222 := decodeRegister baseEncoding (negb (Z.land rex 1 =? 0)) in Ok
      (mkMemory register222 displacement 32 index scale true false Segment_None))) in
  let instruction := push_operand (MemoryOp choice221) instruction in
  let len := size_sub operandCursor 0 in
  let instruction := with_length (u8 len) instruction in
  let! instruction := copy_bytes code 0 len instruction in
  Ok (inl instruction).

Definition decodeSimdLanes_UcomissRegReg (cursor : Z) (instruction : DecodedInstruction) : outcome Recognition
    :=
  let! byte206 := code_at code cursor in
  if (byte206 =? 0x66) && (3 <=? size_sub (zlength code) cursor) then
    let afterUcomissPrefix := size_add cursor 1 in
    let! byte207 := code_at code afterUcomissPrefix in
    let hasUcomissRex := (0x40 <=? byte207) && (byte207 <=? 0x4F) in
    let ucomissOpcodeOffset := size_add afterUcomissPrefix (if hasUcomissRex then 1 else 0) in
    let! test211 := (if 3 <=? size_sub (zlength code) ucomissOpcodeOffset then (let! byte208 := code_at code
        ucomissOpcodeOffset in let! test210 := (if byte208 =? 0xF then (let! byte209 := code_at code (size_add
        ucomissOpcodeOffset 1) in Ok (byte209 =? 0x2E)) else Ok false) in Ok test210) else Ok false) in
    if test211 then
      decodeSimdLanes_UcomissRegReg_2 afterUcomissPrefix hasUcomissRex ucomissOpcodeOffset instruction
    else Ok (inr (cursor, instruction))
  else Ok (inr (cursor, instruction)).

Definition decodeSimdLanes_ShufpsRegRegImm (cursor : Z) (instruction : DecodedInstruction) : outcome
    Recognition :=
  let! byte223 := code_at code cursor in
  let! test226 := (if (byte223 =? 0xF) && (4 <=? size_sub (zlength code) cursor) then Ok true else (let!
      test225 := (if (5 <=? size_sub (zlength code) cursor) && (0x40 <=? byte223) && (byte223 <=? 0x4F) then
      (let! byte224 := code_at code (size_add cursor 1) in Ok (byte224 =? 0xF)) else Ok false) in Ok test225))
      in
  let! test228 := (if test226 then (let! byte227 := code_at code (size_add cursor (if byte223 =? 0xF then 1
      else 2)) in Ok (byte227 =? 0xC6)) else Ok false) in
  if test228 then
    let hasShufpsRex := negb (byte223 =? 0xF) in
    let rex := if hasShufpsRex then byte223 else 0 in
    let modrmOffset := size_add cursor (if hasShufpsRex then 3 else 2) in
    let! modrm := code_at code modrmOffset in
    let mode := Z.land (Z.shiftr modrm 6) 3 in
    if negb (mode =? 3) || negb (Z.land rex 0xA =? 0) then
      reject code address "only register-direct SHUFPS xmm, xmm, imm8 is supported"
    else if size_sub (zlength code) modrmOffset <? 2 then
      reject code address "truncated SHUFPS xmm, xmm, imm8"
    else
    let instruction := with_opcode X_ShufpsRegRegImm instruction in
    let instruction := push_operand (XmmRegisterOperand (Z.lor (Z.land (Z.shiftr modrm 3) 7) (if negb (Z.land
        rex 4 =? 0) then 8 else 0))) instruction in
    let instruction := push_operand (XmmRegisterOperand (Z.lor (Z.land modrm 7) (if negb (Z.land rex 1 =? 0)
        then 8 else 0))) instruction in
    let! byte230 := code_at code (size_add modrmOffset 1) in
    let instruction := push_operand (ImmediateOperand byte230 8) instruction in
    let len := size_sub (size_add modrmOffset 2) 0 in
    let instruction := with_length (u8 len) instruction in
    let! instruction := copy_bytes code 0 len instruction in
    Ok (inl instruction)
  else Ok (inr (cursor, instruction)).

Definition decodeSimdLanes_MovmskpsRegXmm (cursor : Z) (instruction : DecodedInstruction) : outcome Recognition
    :=
  let! byte231 := code_at code cursor in
  let! test234 := (if (byte231 =? 0xF) && (3 <=? size_sub (zlength code) cursor) then Ok true else (let!
      test233 := (if (4 <=? size_sub (zlength code) cursor) && (0x40 <=? byte231) && (byte231 <=? 0x4F) then
      (let! byte232 := code_at code (size_add cursor 1) in Ok (byte232 =? 0xF)) else Ok false) in Ok test233))
      in
  let! test236 := (if test234 then (let! byte235 := code_at code (size_add cursor (if byte231 =? 0xF then 1
      else 2)) in Ok (byte235 =? 0x50)) else Ok false) in
  if test236 then
    let hasMovmskpsRex := negb (byte231 =? 0xF) in
    let rex := if hasMovmskpsRex then byte231 else 0 in
    let modrmOffset := size_add cursor (if hasMovmskpsRex then 3 else 2) in
    let! modrm := code_at code modrmOffset in
    let mode := Z.land (Z.shiftr modrm 6) 3 in
    if negb (mode =? 3) || negb (Z.land rex 0xA =? 0) then
      reject code address "only register-direct MOVMSKPS r32, xmm is supported"
    else
    let instruction := with_opcode X_MovmskpsRegXmm instruction in
    let! register238 := decodeRegister (Z.land (Z.shiftr modrm 3) 7) (negb (Z.land rex 4 =? 0)) in
    let instruction := push_operand (RegisterOperand register238 32 0) instruction in
    let instruction := push_operand (XmmRegisterOperand (Z.lor (Z.land modrm 7) (if negb (Z.land rex 1 =? 0)
        then 8 else 0))) instruction in
    let len := size_sub (size_add modrmOffset 1) 0 in
    let instruction := with_length (u8 len) instruction in
    let! instruction := copy_bytes code 0 len instruction in
    Ok (inl instruction)
  else Ok (inr (cursor, instruction)).

Definition decodeSimdLanes_MovmskpdRegXmm (cursor : Z) (instruction : DecodedInstruction) : outcome Recognition
    :=
  let! byte239 := code_at code cursor in
  if (byte239 =? 0x66) && (3 <=? size_sub (zlength code) cursor) then
    let afterMovmskpd := size_add cursor 1 in
    let! byte240 := code_at code afterMovmskpd in
    let hasMovmskpdRex := (0x40 <=? byte240) && (byte240 <=? 0x4F) in
    let movmskpdOpcodeOffset := size_add afterMovmskpd (if hasMovmskpdRex then 1 else 0) in
    let! test244 := (if 3 <=? size_sub (zlength code) movmskpdOpcodeOffset then (let! byte241 := code_at code
        movmskpdOpcodeOffset in let! test243 := (if byte241 =? 0xF then (let! byte242 := code_at code (size_add
        movmskpdOpcodeOffset 1) in Ok (byte242 =? 0x50)) else Ok false) in Ok test243) else Ok false) in
    if test244 then
      let rex := if hasMovmskpdRex then byte240 else 0 in
      let! modrm := code_at code (size_add movmskpdOpcodeOffset 2) in
      let mode := Z.land (Z.shiftr modrm 6) 3 in
      if negb (mode =? 3) || negb (Z.land rex 0xA =? 0) then
        reject code address "only register-direct MOVMSKPD r32, xmm is supported"
      else
      let instruction := with_opcode X_MovmskpdRegXmm instruction in
      let! register246 := decodeRegister (Z.land (Z.shiftr modrm 3) 7) (negb (Z.land rex 4 =? 0)) in
      let instruction := push_operand (RegisterOperand register246 32 0) instruction in
      let instruction := push_operand (XmmRegisterOperand (Z.lor (Z.land modrm 7) (if negb (Z.land rex 1 =? 0)
          then 8 else 0))) instruction in
      let operandCursor := size_add movmskpdOpcodeOffset 3 in
      let len := size_sub operandCursor 0 in
      let instruction := with_length (u8 len) instruction in
      let! instruction := copy_bytes code 0 len instruction in
      Ok (inl instruction)
    else Ok (inr (cursor, instruction))
  else Ok (inr (cursor, instruction)).

Definition decodeSimdLanes_ShufpdRegRegImm (cursor : Z) (instruction : DecodedInstruction) : outcome
    Recognition :=
  let! byte247 := code_at code cursor in
  if byte247 =? 0x66 then
    let afterPrefix := size_add cursor 1 in
    let! hasShufpdRex := (if afterPrefix <? zlength code then (let! byte248 := code_at code afterPrefix in Ok
        ((0x40 <=? byte248) && (byte248 <=? 0x4F))) else Ok false) in
    let opcodeOffset := size_add afterPrefix (if hasShufpdRex then 1 else 0) in
    let! test253 := (if 2 <=? size_sub (zlength code) opcodeOffset then (let! byte250 := code_at code
        opcodeOffset in let! test252 := (if byte250 =? 0xF then (let! byte251 := code_at code (size_add
        opcodeOffset 1) in Ok (byte251 =? 0xC6)) else Ok false) in Ok test252) else Ok false) in
    if test253 then
      if size_sub (zlength code) opcodeOffset <? 4 then
        reject code address "truncated shufpd xmm, xmm, imm8"
      else
      let! rex : within 0 255 := (if hasShufpdRex then (let! byte255 := code_at code afterPrefix in Ok byte255)
          else Ok 0) in
      let! modrm := code_at code (size_add opcodeOffset 2) in
      let mode := Z.land (Z.shiftr modrm 6) 3 in
      if negb (mode =? 3) then
        reject code address "only register-direct SHUFPD is supported"
      else
      let instruction := with_opcode X_ShufpdRegRegImm instruction in
      let instruction := push_operand (XmmRegisterOperand (Z.lor (Z.land (Z.shiftr modrm 3) 7) (if negb (Z.land
          rex 4 =? 0) then 8 else 0))) instruction in
      let instruction := push_operand (XmmRegisterOperand (Z.lor (Z.land modrm 7) (if negb (Z.land rex 1 =? 0)
          then 8 else 0))) instruction in
      let! byte257 := code_at code (size_add opcodeOffset 3) in
      let instruction := push_operand (ImmediateOperand byte257 8) instruction in
      let operandCursor := size_add opcodeOffset 4 in
      let len := size_sub operandCursor 0 in
      let instruction := with_length (u8 len) instruction in
      let! instruction := copy_bytes code 0 len instruction in
      Ok (inl instruction)
    else Ok (inr (cursor, instruction))
  else Ok (inr (cursor, instruction)).

Definition decodeSimdLanes_MovqMemXmm (cursor : Z) (instruction : DecodedInstruction) : outcome Recognition :=
  let! movqStoreHasRex := (if 4 <=? size_sub (zlength code) cursor then (let! byte258 := code_at code cursor in
      let! test264 := (if byte258 =? 0x66 then (let! byte259 := code_at code (size_add cursor 1) in let!
      test263 := (if (0x40 <=? byte259) && (byte259 <=? 0x4F) then (let! byte260 := code_at code (size_add
      cursor 2) in let! test262 := (if byte260 =? 0xF then (let! byte261 := code_at code (size_add cursor 3) in
      Ok (byte261 =? 0xD6)) else Ok false) in Ok test262) else Ok false) in Ok test263) else Ok false) in Ok
      test264) else Ok false) in
  let! movqStoreWithoutRex := (if 3 <=? size_sub (zlength code) cursor then (let! byte266 := code_at code
      cursor in let! test270 := (if byte266 =? 0x66 then (let! byte267 := code_at code (size_add cursor 1) in
      let! test269 := (if byte267 =? 0xF then (let! byte268 := code_at code (size_add cursor 2) in Ok (byte268
      =? 0xD6)) else Ok false) in Ok test269) else Ok false) in Ok test270) else Ok false) in
  if movqStoreHasRex || movqStoreWithoutRex then
    let! rex : within 0 255 := (if movqStoreHasRex then (let! byte273 := code_at code (size_add cursor 1) in Ok
        byte273) else Ok 0) in
    let modrmOffset := size_add cursor (if movqStoreHasRex then 4 else 3) in
    if zlength code <=? modrmOffset then
      reject code address "truncated movq [memory], xmm"
    else
    let! modrm := code_at code modrmOffset in
    let mode := Z.land (Z.shiftr modrm 6) 3 in
    let rmEncoding := Z.land modrm 7 in
    let ripRelative := (mode =? 0) && (rmEncoding =? 5) && (Z.land rex 1 =? 0) in
    if (2 <? mode) || ((mode =? 0) && (rmEncoding =? 5) && negb (Z.land rex 1 =? 0)) then
      reject code address "only MOVQ [base+index*scale+disp8/disp32/RIP], xmm memory operands are supported"
    else
    let operandCursor := size_add modrmOffset 1 in
    let baseEncoding := rmEncoding in
    let index := None in
    let scale := 1 in
    let! (operandCursor, baseEncoding, index, scale) : cursor_in 4 6 * within 0 7 * option Register * one_of
        [1; 2; 4; 8] :=
      (if negb ripRelative && (rmEncoding =? 4) then
        if zlength code <=? operandCursor then
          reject code address "truncated MOVQ memory SIB"
        else
        let! sib := code_at code operandCursor in
        let operandCursor := size_add operandCursor 1 in
        let scaleBits := Z.land (Z.shiftr sib 6) 3 in
        let indexEncoding := Z.land (Z.shiftr sib 3) 7 in
        let baseEncoding := Z.land sib 7 in
        if (mode =? 0) && (baseEncoding =? 5) then
          reject code address "no-base MOVQ memory SIB is not supported"
        else if negb (indexEncoding =? 4) || negb (Z.land rex 2 =? 0) then
          let! register276 := decodeRegister indexEncoding (negb (Z.land rex 2 =? 0)) in
          let index := Some register276 in
          let scale := Z.shiftl 1 scaleBits in
          Ok (operandCursor, baseEncoding, index, scale)
        else Ok (operandCursor, baseEncoding, index, scale)
       else
        Ok (operandCursor, baseEncoding, index, scale)) in
    let displacement := 0 in
    let! (displacement, operandCursor) : within (- 2 ^ 31) (2 ^ 31 - 1) * cursor_in 4 10 :=
      (if mode =? 1 then
        if zlength code <=? operandCursor then
          reject code address "truncated MOVQ memory disp8"
        else
        let! byte277 := code_at code operandCursor in
        let displacement := signed 8 byte277 in
        let operandCursor := size_add operandCursor 1 in
        Ok (displacement, operandCursor)
       else
        if (mode =? 2) || ripRelative then
          if size_sub (zlength code) operandCursor <? 4 then
            reject code address "truncated MOVQ memory disp32"
          else
          let! span278 := subspan code operandCursor 4 in
          let! displacement := readI32 span278 in
          let operandCursor := size_add operandCursor 4 in
          Ok (displacement, operandCursor)
        else Ok (displacement, operandCursor)) in
    let! _ :=
      (if ripRelative then
        let! _ := relativeTarget address (size_sub operandCursor 0) displacement in
        Ok tt
       else
        Ok tt) in
    let instruction := with_opcode X_MovqMemXmm instruction in
    let! choice281 : MemoryOperand := (if ripRelative then Ok (mkMemory Rax displacement 64 None 1 false true
        Segment_None) else (let! register282 := decodeRegister baseEncoding (negb (Z.land rex 1 =? 0)) in Ok
        (mkMemory register282 displacement 64 index scale true false Segment_None))) in
    let instruction := push_operand (MemoryOp choice281) instruction in
    let instruction := push_operand (XmmRegisterOperand (Z.lor (Z.land (Z.shiftr modrm 3) 7) (if negb (Z.land
        rex 4 =? 0) then 8 else 0))) instruction in
    let len := size_sub operandCursor 0 in
    let instruction := with_length (u8 len) instruction in
    let! instruction := copy_bytes code 0 len instruction in
    Ok (inl instruction)
  else Ok (inr (cursor, instruction)).

Definition decodeSimdLanes (cursor : Z) (instruction : DecodedInstruction) : outcome Recognition :=
  next! (cursor, instruction) := decodeSimdLanes_PshufbRegReg cursor instruction in
  next! (cursor, instruction) := decodeSimdLanes_PinsrwXmmReg cursor instruction in
  next! (cursor, instruction) := decodeSimdLanes_PextrwRegXmmImm cursor instruction in
  next! (cursor, instruction) := decodeSimdLanes_ExtractpsMemXmmImm cursor instruction in
  next! (cursor, instruction) := decodeSimdLanes_PtestRegReg cursor instruction in
  next! (cursor, instruction) := decodeSimdLanes_CmppdRegRegImm cursor instruction in
  next! (cursor, instruction) := decodeSimdLanes_PaddwRegReg cursor instruction in
  next! (cursor, instruction) := decodeSimdLanes_PsrldRegImm cursor instruction in
  next! (cursor, instruction) := decodeSimdLanes_PunpcklwdRegReg cursor instruction in
  next! (cursor, instruction) := decodeSimdLanes_PorRegReg cursor instruction in
  next! (cursor, instruction) := decodeSimdLanes_PxorRegReg cursor instruction in
  next! (cursor, instruction) := decodeSimdLanes_PandnRegReg cursor instruction in
  next! (cursor, instruction) := decodeSimdLanes_PandRegReg cursor instruction in
  next! (cursor, instruction) := decodeSimdLanes_PcmpeqbRegReg cursor instruction in
  next! (cursor, instruction) := decodeSimdLanes_PcmpeqdRegReg cursor instruction in
  next! (cursor, instruction) := decodeSimdLanes_PshufdRegRegImm cursor instruction in
  next! (cursor, instruction) := decodeSimdLanes_UcomisdRegReg cursor instruction in
  next! (cursor, instruction) := decodeSimdLanes_UcomissRegReg cursor instruction in
  next! (cursor, instruction) := decodeSimdLanes_ShufpsRegRegImm cursor instruction in
  next! (cursor, instruction) := decodeSimdLanes_MovmskpsRegXmm cursor instruction in
  next! (cursor, instruction) := decodeSimdLanes_MovmskpdRegXmm cursor instruction in
  next! (cursor, instruction) := decodeSimdLanes_ShufpdRegRegImm cursor instruction in
  decodeSimdLanes_MovqMemXmm cursor instruction.

End Decode.
