(* ===== verification/DecodeSimdMemory.v ===== *)
(** Recognition family [decodeSimdMemory] ([src/x86/DecodeSimdMemory.cpp]): vector moves, conversions and scalar double arithmetic, with their memory forms.

    Each definition is one group of statements of the C++ function, in its order; it
    recognises an instruction ([inl]), rejects the bytes, or leaves the cursor and the
    instruction to the next group ([inr]). *)
From S2P Require Import Prelude X86State ExecutionContext IR X86Instruction DecodeBase.

Section Decode.
Context (code : list Z) (address : Z).

Definition decodeSimdMemory_MovsdRegMem_2 (movsdCursor : Z) (movsdRex : Z) (instruction : DecodedInstruction) :
    outcome Recognition :=
  let! byte7 := code_at code (size_add movsdCursor 1) in
  let movsdLoad := (byte7 =? 0x10) in
  let! modrm := code_at code (size_add movsdCursor 2) in
  let mode := Z.land (Z.shiftr modrm 6) 3 in
  let rmEncoding := Z.land modrm 7 in
  let xmmEncoding := Z.lor (Z.land (Z.shiftr modrm 3) 7) (if negb (Z.land movsdRex 4 =? 0) then 8 else 0) in
  if mode =? 3 then
    reject code address "register-direct MOVSD is not supported"
  else
  let operandCursor := size_add movsdCursor 3 in
  let ripRelative := (mode =? 0) && (rmEncoding =? 5) in
  let baseEncoding := rmEncoding in
  let index := None in
  let scale := 1 in
  let! (operandCursor, baseEncoding, index, scale) : cursor_in 4 6 * within 0 7 * option Register * one_of [1;
      2; 4; 8] :=
    (if negb ripRelative && (rmEncoding =? 4) then
      if zlength code <=? operandCursor then
        reject code address "truncated MOVSD memory SIB"
      else
      let! sib := code_at code operandCursor in
      let operandCursor := size_add operandCursor 1 in
      let scaleBits := Z.land (Z.shiftr sib 6) 3 in
      let indexEncoding := Z.land (Z.shiftr sib 3) 7 in
      let baseEncoding := Z.land sib 7 in
      if (mode =? 0) && (baseEncoding =? 5) then
        reject code address "no-base MOVSD memory SIB is not supported"
      else if negb (indexEncoding =? 4) || negb (Z.land movsdRex 2 =? 0) then
        let! register10 := decodeRegister indexEncoding (negb (Z.land movsdRex 2 =? 0)) in
        let index := Some register10 in
        let scale := Z.shiftl 1 scaleBits in
        Ok (operandCursor, baseEncoding, index, scale)
      else Ok (operandCursor, baseEncoding, index, scale)
     else
      if negb ripRelative && negb (Z.land movsdRex 2 =? 0) then
        reject code address "REX.X requires a MOVSD memory SIB"
      else Ok (operandCursor, baseEncoding, index, scale)) in
  let displacement := 0 in
  let! (displacement, operandCursor) : within (- 2 ^ 31) (2 ^ 31 - 1) * cursor_in 4 10 :=
    (if mode =? 1 then
      if zlength code <=? operandCursor then
        reject code address "truncated MOVSD memory disp8"
      else
      let! byte11 := code_at code operandCursor in
      let displacement := signed 8 byte11 in
      let operandCursor := size_add operandCursor 1 in
      Ok (displacement, operandCursor)
     else
      if (mode =? 2) || ripRelative then
        if size_sub (zlength code) operandCursor <? 4 then
          reject code address "truncated MOVSD memory disp32"
        else
        let! span12 := subspan code operandCursor 4 in
        let! displacement := readI32 span12 in
        let operandCursor := size_add operandCursor 4 in
        Ok (displacement, operandCursor)
      else Ok (displacement, operandCursor)) in
  let xmm := XmmRegisterOperand xmmEncoding in
  let! memory : MemoryOperand := (if ripRelative then Ok (mkMemory Rax displacement 64 None 1 false true
      Segment_None) else (let! register15 := decodeRegister baseEncoding (negb (Z.land movsdRex 1 =? 0)) in Ok
      (mkMemory register15 displacement 64 index scale true false Segment_None))) in
  let instruction := with_opcode (if movsdLoad then X_MovsdRegMem else X_MovsdMemXmm) instruction in
  let instruction :=
    (if movsdLoad then
      let instruction := push_operand xmm instruction in
      let instruction := push_operand (MemoryOp memory) instruction in
      instruction
     else
      let instruction := push_operand (MemoryOp memory) instruction in
      let instruction := push_operand xmm instruction in
      instruction) in
  let len := size_sub operandCursor 0 in
  let instruction := with_length (u8 len) instruction in
  let! instruction := copy_bytes code 0 len instruction in
  Ok (inl instruction).

Definition decodeSimdMemory_MovsdRegMem (cursor : Z) (instruction : DecodedInstruction) : outcome Recognition :=
  let! byte1 := code_at code cursor in
  if (byte1 =? 0xF2) && (4 <=? size_sub (zlength code) cursor) then
    let movsdCursor := size_add cursor 1 in
    let movsdRex := 0 in
    let! byte2 := code_at code movsdCursor in
    let! (movsdRex, movsdCursor) : within 0 255 * cursor_in 1 2 :=
      (if (0x40 <=? byte2) && (byte2 <=? 0x4F) && (4 <=? size_sub (zlength code) movsdCursor) then
        let movsdRex := byte2 in
        let movsdCursor := size_add movsdCursor 1 in
        Ok (movsdRex, movsdCursor)
       else
        Ok (movsdRex, movsdCursor)) in
    let! test6 := (if 3 <=? size_sub (zlength code) movsdCursor then (let! byte3 := code_at code movsdCursor in
        let! test5 := (if byte3 =? 0xF then (let! byte4 := code_at code (size_add movsdCursor 1) in Ok ((byte4
        =? 0x10) || (byte4 =? 0x11))) else Ok false) in Ok test5) else Ok false) in
    if test6 then
      decodeSimdMemory_MovsdRegMem_2 movsdCursor movsdRex instruction
    else Ok (inr (cursor, instruction))
  else Ok (inr (cursor, instruction)).

Definition decodeSimdMemory_MovlpsRegMem (cursor : Z) (instruction : DecodedInstruction) : outcome Recognition
    :=
  let! byte16 := code_at code cursor in
  let! test18 := (if (byte16 =? 0xF) && (3 <=? size_sub (zlength code) cursor) then (let! byte17 := code_at
      code (size_add cursor 1) in Ok ((byte17 =? 0x12) || (byte17 =? 0x13))) else Ok false) in
  let! test23 := (if test18 then Ok true else (let! test22 := (if (4 <=? size_sub (zlength code) cursor) &&
      (0x40 <=? byte16) && (byte16 <=? 0x4F) then (let! byte19 := code_at code (size_add cursor 1) in let!
      test21 := (if byte19 =? 0xF then (let! byte20 := code_at code (size_add cursor 2) in Ok ((byte20 =? 0x12)
      || (byte20 =? 0x13))) else Ok false) in Ok test21) else Ok false) in Ok test22)) in
  if test23 then
    let movlpsHasRex := negb (byte16 =? 0xF) in
    let movlpsRex := if movlpsHasRex then byte16 else 0 in
    let movlpsOpcodeOffset := size_add cursor (if movlpsHasRex then 2 else 1) in
    let! byte24 := code_at code movlpsOpcodeOffset in
    let movlpsLoad := (byte24 =? 0x12) in
    let! modrm := code_at code (size_add movlpsOpcodeOffset 1) in
    let mode := Z.land (Z.shiftr modrm 6) 3 in
    let rmEncoding := Z.land modrm 7 in
    let xmmEncoding := Z.lor (Z.land (Z.shiftr modrm 3) 7) (if negb (Z.land movlpsRex 4 =? 0) then 8 else 0) in
    if mode =? 3 then
      reject code address "register-direct MOVLPS is not supported"
    else
    let operandCursor := size_add movlpsOpcodeOffset 2 in
    let ripRelative := (mode =? 0) && (rmEncoding =? 5) in
    let baseEncoding := rmEncoding in
    let index := None in
    let scale := 1 in
    let! (operandCursor, baseEncoding, index, scale) : cursor_in 3 5 * within 0 7 * option Register * one_of
        [1; 2; 4; 8] :=
      (if negb ripRelative && (rmEncoding =? 4) then
        if zlength code <=? operandCursor then
          reject code address "truncated MOVLPS memory SIB"
        else
        let! sib := code_at code operandCursor in
        let operandCursor := size_add operandCursor 1 in
        let scaleBits := Z.land (Z.shiftr sib 6) 3 in
        let indexEncoding := Z.land (Z.shiftr sib 3) 7 in
        let baseEncoding := Z.land sib 7 in
        if (mode =? 0) && (baseEncoding =? 5) then
          reject code address "no-base MOVLPS memory SIB is not supported"
        else if negb (indexEncoding =? 4) || negb (Z.land movlpsRex 2 =? 0) then
          let! register27 := decodeRegister indexEncoding (negb (Z.land movlpsRex 2 =? 0)) in
          let index := Some register27 in
          let scale := Z.shiftl 1 scaleBits in
          Ok (operandCursor, baseEncoding, index, scale)
        else Ok (operandCursor, baseEncoding, index, scale)
       else
        if negb ripRelative && negb (Z.land movlpsRex 2 =? 0) then
          reject code address "REX.X requires a MOVLPS memory SIB"
        else Ok (operandCursor, baseEncoding, index, scale)) in
    let displacement := 0 in
    let! (displacement, operandCursor) : within (- 2 ^ 31) (2 ^ 31 - 1) * cursor_in 3 9 :=
      (if mode =? 1 then
        if zlength code <=? operandCursor then
          reject code address "truncated MOVLPS memory disp8"
        else
        let! byte28 := code_at code operandCursor in
        let displacement := signed 8 byte28 in
        let operandCursor := size_add operandCursor 1 in
        Ok (displacement, operandCursor)
       else
        if (mode =? 2) || ripRelative then
          if size_sub (zlength code) operandCursor <? 4 then
            reject code address "truncated MOVLPS memory disp32"
          else
          let! span29 := subspan code operandCursor 4 in
          let! displacement := readI32 span29 in
          let operandCursor := size_add operandCursor 4 in
          Ok (displacement, operandCursor)
        else Ok (displacement, operandCursor)) in
    let xmm := XmmRegisterOperand xmmEncoding in
    let! memory : MemoryOperand := (if ripRelative then Ok (mkMemory Rax displacement 64 None 1 false true
        Segment_None) else (let! register32 := decodeRegister baseEncoding (negb (Z.land movlpsRex 1 =? 0)) in
        Ok (mkMemory register32 displacement 64 index scale true false Segment_None))) in
    let instruction := with_opcode (if movlpsLoad then X_MovlpsRegMem else X_MovlpsMemXmm) instruction in
    let instruction :=
      (if movlpsLoad then
        let instruction := push_operand xmm instruction in
        let instruction := push_operand (MemoryOp memory) instruction in
        instruction
       else
        let instruction := push_operand (MemoryOp memory) instruction in
        let instruction := push_operand xmm instruction in
        instruction) in
    let len := size_sub operandCursor 0 in
    let instruction := with_length (u8 len) instruction in
    let! instruction := copy_bytes code 0 len instruction in
    Ok (inl instruction)
  else Ok (inr (cursor, instruction)).

Definition decodeSimdMemory_Cvttsd2siRegXmm_2 (cvttCursor : Z) (cvttRex : Z) (instruction : DecodedInstruction)
    : outcome Recognition :=
  let! modrm := code_at code (size_add cvttCursor 2) in
  let mode := Z.land (Z.shiftr modrm 6) 3 in
  let regEncoding := Z.land (Z.shiftr modrm 3) 7 in
  let rmEncoding := Z.land modrm 7 in
  let! destination := decodeRegister regEncoding (negb (Z.land cvttRex 4 =? 0)) in
  let width := if negb (Z.land cvttRex 8 =? 0) then 64 else 32 in
  let operandCursor := size_add cvttCursor 3 in
  let! (instruction, operandCursor) : DecodedInstruction * cursor_in 4 9 :=
    (if mode =? 3 then
      let instruction := with_opcode X_Cvttsd2siRegXmm instruction in
      let instruction := push_operand (RegisterOperand destination width 0) instruction in
      let instruction := push_operand (XmmRegisterOperand (Z.lor rmEncoding (if negb (Z.land cvttRex 1 =? 0)
          then 8 else 0))) instruction in
      Ok (instruction, operandCursor)
     else
      let ripRelative := (mode =? 0) && (rmEncoding =? 5) && (Z.land cvttRex 1 =? 0) in
      if (rmEncoding =? 4) || ((mode =? 0) && (rmEncoding =? 5) && negb (Z.land cvttRex 1 =? 0)) then
        reject code address "only RIP-relative or based CVTTSD2SI r32/r64, m64 is supported"
      else
      let displacement := 0 in
      let! (displacement, operandCursor) : within (- 2 ^ 31) (2 ^ 31 - 1) * cursor_in 4 9 :=
        (if mode =? 1 then
          if zlength code <=? operandCursor then
            reject code address "truncated CVTTSD2SI m64 disp8"
          else
          let! byte41 := code_at code operandCursor in
          let displacement := signed 8 byte41 in
          let operandCursor := size_add operandCursor 1 in
          Ok (displacement, operandCursor)
         else
          if (mode =? 2) || ripRelative then
            if size_sub (zlength code) operandCursor <? 4 then
              reject code address "truncated CVTTSD2SI m64 disp32"
            else
            let! span42 := subspan code operandCursor 4 in
            let! displacement := readI32 span42 in
            let operandCursor := size_add operandCursor 4 in
            Ok (displacement, operandCursor)
          else Ok (displacement, operandCursor)) in
      let! _ :=
        (if ripRelative then
          let! _ := relativeTarget address (size_sub operandCursor 0) displacement in
          Ok tt
         else
          Ok tt) in
      let instruction := with_opcode X_Cvttsd2siRegMem instruction in
      let instruction := push_operand (RegisterOperand destination width 0) instruction in
      let! choice45 : MemoryOperand := (if ripRelative then Ok (mkMemory Rax displacement 64 None 1 false true
          Segment_None) else (let! register46 := decodeRegister rmEncoding (negb (Z.land cvttRex 1 =? 0)) in Ok
          (mkMemory register46 displacement 64 None 1 true false Segment_None))) in
      let instruction := push_operand (MemoryOp choice45) instruction in
      Ok (instruction, operandCursor)) in
  let len := size_sub operandCursor 0 in
  let instruction := with_length (u8 len) instruction in
  let! instruction := copy_bytes code 0 len instruction in
  Ok (inl instruction).

Definition decodeSimdMemory_Cvttsd2siRegXmm (cursor : Z) (instruction : DecodedInstruction) : outcome
    Recognition :=
  let! byte33 := code_at code cursor in
  if (byte33 =? 0xF2) && (4 <=? size_sub (zlength code) cursor) then
    let cvttCursor := size_add cursor 1 in
    let cvttRex := 0 in
    let! byte34 := code_at code cvttCursor in
    let! (cvttRex, cvttCursor) : within 0 255 * cursor_in 1 2 :=
      (if (0x40 <=? byte34) && (byte34 <=? 0x4F) && (4 <=? size_sub (zlength code) cvttCursor) then
        let cvttRex := byte34 in
        let cvttCursor := size_add cvttCursor 1 in
        Ok (cvttRex, cvttCursor)
       else
        Ok (cvttRex, cvttCursor)) in
    let! test38 := (if 3 <=? size_sub (zlength code) cvttCursor then (let! byte35 := code_at code cvttCursor in
        let! test37 := (if byte35 =? 0xF then (let! byte36 := code_at code (size_add cvttCursor 1) in Ok
        (byte36 =? 0x2C)) else Ok false) in Ok test37) else Ok false) in
    if test38 then
      decodeSimdMemory_Cvttsd2siRegXmm_2 cvttCursor cvttRex instruction
    else Ok (inr (cursor, instruction))
  else Ok (inr (cursor, instruction)).

Definition decodeSimdMemory_Cvtsi2sdXmmReg_2 (cvtCursor : Z) (cvtRex : Z) (instruction : DecodedInstruction) :
    outcome Recognition :=
  let! modrm := code_at code (size_add cvtCursor 2) in
  let mode := Z.land (Z.shiftr modrm 6) 3 in
  let regEncoding := Z.land (Z.shiftr modrm 3) 7 in
  let rmEncoding := Z.land modrm 7 in
  let destination := XmmRegisterOperand (Z.lor regEncoding (if negb (Z.land cvtRex 4 =? 0) then 8 else 0)) in
  let intWidth := if negb (Z.land cvtRex 8 =? 0) then 64 else 32 in
  let operandCursor := size_add cvtCursor 3 in
  let! (instruction, operandCursor) : DecodedInstruction * cursor_in 4 9 :=
    (if mode =? 3 then
      let instruction := with_opcode X_Cvtsi2sdXmmReg instruction in
      let instruction := push_operand destination instruction in
      let! register54 := decodeRegister rmEncoding (negb (Z.land cvtRex 1 =? 0)) in
      let instruction := push_operand (RegisterOperand register54 intWidth 0) instruction in
      Ok (instruction, operandCursor)
     else
      let ripRelative := (mode =? 0) && (rmEncoding =? 5) && (Z.land cvtRex 1 =? 0) in
      if (rmEncoding =? 4) || ((mode =? 0) && (rmEncoding =? 5) && negb (Z.land cvtRex 1 =? 0)) then
        reject code address "only RIP-relative or based CVTSI2SD xmm, r/m32/r/m64 is supported"
      else
      let displacement := 0 in
      let! (displacement, operandCursor) : within (- 2 ^ 31) (2 ^ 31 - 1) * cursor_in 4 9 :=
        (if mode =? 1 then
          if zlength code <=? operandCursor then
            reject code address "truncated CVTSI2SD disp8"
          else
          let! byte55 := code_at code operandCursor in
          let displacement := signed 8 byte55 in
          let operandCursor := size_add operandCursor 1 in
          Ok (displacement, operandCursor)
         else
          if (mode =? 2) || ripRelative then
            if size_sub (zlength code) operandCursor <? 4 then
              reject code address "truncated CVTSI2SD disp32"
            else
            let! span56 := subspan code operandCursor 4 in
            let! displacement := readI32 span56 in
            let operandCursor := size_add operandCursor 4 in
            Ok (displacement, operandCursor)
          else Ok (displacement, operandCursor)) in
      let! _ :=
        (if ripRelative then
          let! _ := relativeTarget address (size_sub operandCursor 0) displacement in
          Ok tt
         else
          Ok tt) in
      let instruction := with_opcode X_Cvtsi2sdXmmMem instruction in
      let instruction := push_operand destination instruction in
      let! choice59 : MemoryOperand := (if ripRelative then Ok (mkMemory Rax displacement intWidth None 1 false
          true Segment_None) else (let! register60 := decodeRegister rmEncoding (negb (Z.land cvtRex 1 =? 0))
          in Ok (mkMemory register60 displacement intWidth None 1 true false Segment_None))) in
      let instruction := push_operand (MemoryOp choice59) instruction in
      Ok (instruction, operandCursor)) in
  let len := size_sub operandCursor 0 in
  let instruction := with_length (u8 len) instruction in
  let! instruction := copy_bytes code 0 len instruction in
  Ok (inl instruction).

Definition decodeSimdMemory_Cvtsi2sdXmmReg (cursor : Z) (instruction : DecodedInstruction) : outcome
    Recognition :=
  let! byte47 := code_at code cursor in
  if (byte47 =? 0xF2) && (4 <=? size_sub (zlength code) cursor) then
    let cvtCursor := size_add cursor 1 in
    let cvtRex := 0 in
    let! byte48 := code_at code cvtCursor in
    let! (cvtRex, cvtCursor) : within 0 255 * cursor_in 1 2 :=
      (if (0x40 <=? byte48) && (byte48 <=? 0x4F) && (4 <=? size_sub (zlength code) cvtCursor) then
        let cvtRex := byte48 in
        let cvtCursor := size_add cvtCursor 1 in
        Ok (cvtRex, cvtCursor)
       else
        Ok (cvtRex, cvtCursor)) in
    let! test52 := (if 3 <=? size_sub (zlength code) cvtCursor then (let! byte49 := code_at code cvtCursor in
        let! test51 := (if byte49 =? 0xF then (let! byte50 := code_at code (size_add cvtCursor 1) in Ok (byte50
        =? 0x2A)) else Ok false) in Ok test51) else Ok false) in
    if test52 then
      decodeSimdMemory_Cvtsi2sdXmmReg_2 cvtCursor cvtRex instruction
    else Ok (inr (cursor, instruction))
  else Ok (inr (cursor, instruction)).

Definition decodeSimdMemory_Cvtss2sdXmmMem (cvtfRex : Z) (mode : Z) (rmEncoding : Z) (destination : Operand)
    (operandCursor : Z) (instruction : DecodedInstruction) : outcome (DecodedInstruction * Z) :=
  let ripRelative := (mode =? 0) && (rmEncoding =? 5) && (Z.land cvtfRex 1 =? 0) in
  let baseEncoding := rmEncoding in
  let index := None in
  let scale := 1 in
  let! (operandCursor, baseEncoding, index, scale) : cursor_in 4 6 * within 0 7 * option Register * one_of [1;
      2; 4; 8] :=
    (if negb ripRelative && (rmEncoding =? 4) then
      if zlength code <=? operandCursor then
        reject code address "truncated CVTSS2SD SIB"
      else
      let! sib := code_at code operandCursor in
      let operandCursor := size_add operandCursor 1 in
      let scaleBits := Z.land (Z.shiftr sib 6) 3 in
      let indexEncoding := Z.land (Z.shiftr sib 3) 7 in
      let baseEncoding := Z.land sib 7 in
      if (mode =? 0) && (baseEncoding =? 5) then
        reject code address "no-base CVTSS2SD SIB is not supported"
      else if negb (indexEncoding =? 4) || negb (Z.land cvtfRex 2 =? 0) then
        let! register69 := decodeRegister indexEncoding (negb (Z.land cvtfRex 2 =? 0)) in
        let index := Some register69 in
        let scale := Z.shiftl 1 scaleBits in
        Ok (operandCursor, baseEncoding, index, scale)
      else Ok (operandCursor, baseEncoding, index, scale)
     else
      if negb ripRelative && negb (Z.land cvtfRex 2 =? 0) then
        reject code address "REX.X requires a CVTSS2SD SIB"
      else Ok (operandCursor, baseEncoding, index, scale)) in
  let displacement := 0 in
  let! (displacement, operandCursor) : within (- 2 ^ 31) (2 ^ 31 - 1) * cursor_in 4 10 :=
    (if mode =? 1 then
      if zlength code <=? operandCursor then
        reject code address "truncated CVTSS2SD disp8"
      else
      let! byte70 := code_at code operandCursor in
      let displacement := signed 8 byte70 in
      let operandCursor := size_add operandCursor 1 in
      Ok (displacement, operandCursor)
     else
      if (mode =? 2) || ripRelative then
        if size_sub (zlength code) operandCursor <? 4 then
          reject code address "truncated CVTSS2SD disp32"
        else
        let! span71 := subspan code operandCursor 4 in
        let! displacement := readI32 span71 in
        let operandCursor := size_add operandCursor 4 in
        Ok (displacement, operandCursor)
      else Ok (displacement, operandCursor)) in
  let! _ :=
    (if ripRelative then
      let! _ := relativeTarget address (size_sub operandCursor 0) displacement in
      Ok tt
     else
      Ok tt) in
  let instruction := with_opcode X_Cvtss2sdXmmMem instruction in
  let instruction := push_operand destination instruction in
  let! choice74 : MemoryOperand := (if ripRelative then Ok (mkMemory Rax displacement 32 None 1 false true
      Segment_None) else (let! register75 := decodeRegister baseEncoding (negb (Z.land cvtfRex 1 =? 0)) in Ok
      (mkMemory register75 displacement 32 index scale true false Segment_None))) in
  let instruction := push_operand (MemoryOp choice74) instruction in
  Ok (instruction, operandCursor).

Definition decodeSimdMemory_Cvtss2sdXmmReg_2 (cvtfCursor : Z) (cvtfRex : Z) (instruction : DecodedInstruction)
    : outcome Recognition :=
  let! modrm := code_at code (size_add cvtfCursor 2) in
  let mode := Z.land (Z.shiftr modrm 6) 3 in
  let regEncoding := Z.land (Z.shiftr modrm 3) 7 in
  let rmEncoding := Z.land modrm 7 in
  let destination := XmmRegisterOperand (Z.lor regEncoding (if negb (Z.land cvtfRex 4 =? 0) then 8 else 0)) in
  let operandCursor := size_add cvtfCursor 3 in
  let! (instruction, operandCursor) : DecodedInstruction * cursor_in 4 10 :=
    (if mode =? 3 then
      let instruction := with_opcode X_Cvtss2sdXmmReg instruction in
      let instruction := push_operand destination instruction in
      let instruction := push_operand (XmmRegisterOperand (Z.lor rmEncoding (if negb (Z.land cvtfRex 1 =? 0)
          then 8 else 0))) instruction in
      Ok (instruction, operandCursor)
     else
      decodeSimdMemory_Cvtss2sdXmmMem cvtfRex mode rmEncoding destination operandCursor instruction) in
  let len := size_sub operandCursor 0 in
  let instruction := with_length (u8 len) instruction in
  let! instruction := copy_bytes code 0 len instruction in
  Ok (inl instruction).

Definition decodeSimdMemory_Cvtss2sdXmmReg (cursor : Z) (instruction : DecodedInstruction) : outcome
    Recognition :=
  let! byte61 := code_at code cursor in
  if (byte61 =? 0xF2) && (4 <=? size_sub (zlength code) cursor) then
    let cvtfCursor := size_add cursor 1 in
    let cvtfRex := 0 in
    let! byte62 := code_at code cvtfCursor in
    let! (cvtfRex, cvtfCursor) : within 0 255 * cursor_in 1 2 :=
      (if (0x40 <=? byte62) && (byte62 <=? 0x4F) && (4 <=? size_sub (zlength code) cvtfCursor) then
        let cvtfRex := byte62 in
        let cvtfCursor := size_add cvtfCursor 1 in
        Ok (cvtfRex, cvtfCursor)
       else
        Ok (cvtfRex, cvtfCursor)) in
    let! test66 := (if 3 <=? size_sub (zlength code) cvtfCursor then (let! byte63 := code_at code cvtfCursor in
        let! test65 := (if byte63 =? 0xF then (let! byte64 := code_at code (size_add cvtfCursor 1) in Ok
        (byte64 =? 0x5A)) else Ok false) in Ok test65) else Ok false) in
    if test66 then
      decodeSimdMemory_Cvtss2sdXmmReg_2 cvtfCursor cvtfRex instruction
    else Ok (inr (cursor, instruction))
  else Ok (inr (cursor, instruction)).

Definition decodeSimdMemory_SqrtsdXmmReg_2 (scalarCursor : Z) (scalarRex : Z) (instruction :
    DecodedInstruction) : outcome Recognition :=
  let! scalarOpcode := code_at code (size_add scalarCursor 1) in
  let! modrm := code_at code (size_add scalarCursor 2) in
  let mode := Z.land (Z.shiftr modrm 6) 3 in
  let regEncoding := Z.land (Z.shiftr modrm 3) 7 in
  let rmEncoding := Z.land modrm 7 in
  let destination := XmmRegisterOperand (Z.lor regEncoding (if negb (Z.land scalarRex 4 =? 0) then 8 else 0)) in
  let operandCursor := size_add scalarCursor 3 in
  let! (instruction, operandCursor) : DecodedInstruction * cursor_in 4 9 :=
    (if mode =? 3 then
      let instruction := with_opcode (if scalarOpcode =? 0x51 then X_SqrtsdXmmReg else if scalarOpcode =? 0x58
          then X_AddsdXmmReg else if scalarOpcode =? 0x59 then X_MulsdXmmReg else if scalarOpcode =? 0x5C then
          X_SubsdXmmReg else if scalarOpcode =? 0x5D then X_MinsdXmmReg else if scalarOpcode =? 0x5F then
          X_MaxsdXmmReg else X_DivsdXmmReg) instruction in
      let instruction := push_operand destination instruction in
      let instruction := push_operand (XmmRegisterOperand (Z.lor rmEncoding (if negb (Z.land scalarRex 1 =? 0)
          then 8 else 0))) instruction in
      Ok (instruction, operandCursor)
     else
      let ripRelative := (mode =? 0) && (rmEncoding =? 5) && (Z.land scalarRex 1 =? 0) in
      if (rmEncoding =? 4) || ((mode =? 0) && (rmEncoding =? 5) && negb (Z.land scalarRex 1 =? 0)) then
        reject code address "only RIP-relative or based scalar-double xmm, m64 is supported"
      else
      let displacement := 0 in
      let! (displacement, operandCursor) : within (- 2 ^ 31) (2 ^ 31 - 1) * cursor_in 4 9 :=
        (if mode =? 1 then
          if zlength code <=? operandCursor then
            reject code address "truncated scalar-double disp8"
          else
          let! byte84 := code_at code operandCursor in
          let displacement := signed 8 byte84 in
          let operandCursor := size_add operandCursor 1 in
          Ok (displacement, operandCursor)
         else
          if (mode =? 2) || ripRelative then
            if size_sub (zlength code) operandCursor <? 4 then
              reject code address "truncated scalar-double disp32"
            else
            let! span85 := subspan code operandCursor 4 in
            let! displacement := readI32 span85 in
            let operandCursor := size_add operandCursor 4 in
            Ok (displacement, operandCursor)
          else Ok (displacement, operandCursor)) in
      let! _ :=
        (if ripRelative then
          let! _ := relativeTarget address (size_sub operandCursor 0) displacement in
          Ok tt
         else
          Ok tt) in
      let instruction := with_opcode (if scalarOpcode =? 0x51 then X_SqrtsdXmmMem else if scalarOpcode =? 0x58
          then X_AddsdXmmMem else if scalarOpcode =? 0x59 then X_MulsdXmmMem else if scalarOpcode =? 0x5C then
          X_SubsdXmmMem else if scalarOpcode =? 0x5D then X_MinsdXmmMem else if scalarOpcode =? 0x5F then
          X_MaxsdXmmMem else X_DivsdXmmMem) instruction in
      let instruction := push_operand destination instruction in
      let! choice88 : MemoryOperand := (if ripRelative then Ok (mkMemory Rax displacement 64 None 1 false true
          Segment_None) else (let! register89 := decodeRegister rmEncoding (negb (Z.land scalarRex 1 =? 0)) in
          Ok (mkMemory register89 displacement 64 None 1 true false Segment_None))) in
      let instruction := push_operand (MemoryOp choice88) instruction in
      Ok (instruction, operandCursor)) in
  let len := size_sub operandCursor 0 in
  let instruction := with_length (u8 len) instruction in
  let! instruction := copy_bytes code 0 len instruction in
  Ok (inl instruction).

Definition decodeSimdMemory_SqrtsdXmmReg (cursor : Z) (instruction : DecodedInstruction) : outcome Recognition
    :=
  let! byte76 := code_at code cursor in
  if (byte76 =? 0xF2) && (4 <=? size_sub (zlength code) cursor) then
    let scalarCursor := size_add cursor 1 in
    let scalarRex := 0 in
    let! byte77 := code_at code scalarCursor in
    let! (scalarRex, scalarCursor) : within 0 255 * cursor_in 1 2 :=
      (if (0x40 <=? byte77) && (byte77 <=? 0x4F) && (4 <=? size_sub (zlength code) scalarCursor) then
        let scalarRex := byte77 in
        let scalarCursor := size_add scalarCursor 1 in
        Ok (scalarRex, scalarCursor)
       else
        Ok (scalarRex, scalarCursor)) in
    let! test81 := (if 3 <=? size_sub (zlength code) scalarCursor then (let! byte78 := code_at code
        scalarCursor in let! test80 := (if byte78 =? 0xF then (let! byte79 := code_at code (size_add
        scalarCursor 1) in Ok ((byte79 =? 0x51) || (byte79 =? 0x58) || (byte79 =? 0x59) || (byte79 =? 0x5C) ||
        (byte79 =? 0x5D) || (byte79 =? 0x5E) || (byte79 =? 0x5F))) else Ok false) in Ok test80) else Ok false)
        in
    if test81 then
      decodeSimdMemory_SqrtsdXmmReg_2 scalarCursor scalarRex instruction
    else Ok (inr (cursor, instruction))
  else Ok (inr (cursor, instruction)).

Definition decodeSimdMemory_MovddupRegReg (cursor : Z) (instruction : DecodedInstruction) : outcome Recognition
    :=
  let! byte90 := code_at code cursor in
  let! test94 := (if (byte90 =? 0xF2) && (4 <=? size_sub (zlength code) cursor) then (let! byte91 := code_at
      code (size_add cursor 1) in let! test93 := (if byte91 =? 0xF then (let! byte92 := code_at code (size_add
      cursor 2) in Ok (byte92 =? 0x12)) else Ok false) in Ok test93) else Ok false) in
  let! test101 := (if test94 then Ok true else (let! test100 := (if (5 <=? size_sub (zlength code) cursor) &&
      (byte90 =? 0xF2) then (let! byte95 := code_at code (size_add cursor 1) in let! test99 := (if (0x40 <=?
      byte95) && (byte95 <=? 0x4F) then (let! byte96 := code_at code (size_add cursor 2) in let! test98 := (if
      byte96 =? 0xF then (let! byte97 := code_at code (size_add cursor 3) in Ok (byte97 =? 0x12)) else Ok
      false) in Ok test98) else Ok false) in Ok test99) else Ok false) in Ok test100)) in
  if test101 then
    let! byte102 := code_at code (size_add cursor 1) in
    let hasMovddupRex := negb (byte102 =? 0xF) in
    let rex := if hasMovddupRex then byte102 else 0 in
    let rexR := negb (Z.land rex 4 =? 0) in
    let rexB := negb (Z.land rex 1 =? 0) in
    if negb (Z.land rex 0xA =? 0) then
      reject code address "MOVDDUP does not support REX.W/X"
    else
    let opcodeOffset := size_add cursor (if hasMovddupRex then 2 else 1) in
    let! modrm := code_at code (size_add opcodeOffset 2) in
    let mode := Z.land (Z.shiftr modrm 6) 3 in
    let rmEncoding := Z.land modrm 7 in
    let destination := XmmRegisterOperand (Z.lor (Z.land (Z.shiftr modrm 3) 7) (if rexR then 8 else 0)) in
    let operandCursor := size_add opcodeOffset 3 in
    let! (instruction, operandCursor) : DecodedInstruction * cursor_in 4 9 :=
      (if mode =? 3 then
        let instruction := with_opcode X_MovddupRegReg instruction in
        let instruction := push_operand destination instruction in
        let instruction := push_operand (XmmRegisterOperand (Z.lor rmEncoding (if rexB then 8 else 0)))
            instruction in
        Ok (instruction, operandCursor)
       else
        let ripRelative := (mode =? 0) && (rmEncoding =? 5) && negb rexB in
        if (rmEncoding =? 4) || ((mode =? 0) && (rmEncoding =? 5) && rexB) then
          reject code address "only RIP-relative or based MOVDDUP xmm, m64 is supported"
        else
        let displacement := 0 in
        let! (displacement, operandCursor) : within (- 2 ^ 31) (2 ^ 31 - 1) * cursor_in 4 9 :=
          (if mode =? 1 then
            if zlength code <=? operandCursor then
              reject code address "truncated MOVDDUP m64 disp8"
            else
            let! byte104 := code_at code operandCursor in
            let displacement := signed 8 byte104 in
            let operandCursor := size_add operandCursor 1 in
            Ok (displacement, operandCursor)
           else
            if (mode =? 2) || ripRelative then
              if size_sub (zlength code) operandCursor <? 4 then
                reject code address "truncated MOVDDUP m64 disp32"
              else
              let! span105 := subspan code operandCursor 4 in
              let! displacement := readI32 span105 in
              let operandCursor := size_add operandCursor 4 in
              Ok (displacement, operandCursor)
            else Ok (displacement, operandCursor)) in
        let! _ :=
          (if ripRelative then
            let! _ := relativeTarget address (size_sub operandCursor 0) displacement in
            Ok tt
           else
            Ok tt) in
        let instruction := with_opcode X_MovddupRegMem instruction in
        let instruction := push_operand destination instruction in
        let! choice108 : MemoryOperand := (if ripRelative then Ok (mkMemory Rax displacement 64 None 1 false
            true Segment_None) else (let! register109 := decodeRegister rmEncoding rexB in Ok (mkMemory
            register109 displacement 64 None 1 true false Segment_None))) in
        let instruction := push_operand (MemoryOp choice108) instruction in
        Ok (instruction, operandCursor)) in
    let len := size_sub operandCursor 0 in
    let instruction := with_length (u8 len) instruction in
    let! instruction := copy_bytes code 0 len instruction in
    Ok (inl instruction)
  else Ok (inr (cursor, instruction)).

Definition decodeSimdMemory_Cvtdq2pdXmmMem (rexX : bool) (rexB : bool) (mode : Z) (rmEncoding : Z) (destination
    : Operand) (operandCursor : Z) (instruction : DecodedInstruction) : outcome (DecodedInstruction * Z) :=
  let ripRelative := (mode =? 0) && (rmEncoding =? 5) && negb rexB in
  if (mode =? 0) && (rmEncoding =? 5) && rexB then
    reject code address "R13-based CVTDQ2PD is not supported"
  else
  let baseEncoding := rmEncoding in
  let index := None in
  let scale := 1 in
  let! (operandCursor, baseEncoding, index, scale) : cursor_in 4 6 * within 0 7 * option Register * one_of [1;
      2; 4; 8] :=
    (if negb ripRelative && (rmEncoding =? 4) then
      if zlength code <=? operandCursor then
        reject code address "truncated CVTDQ2PD SIB byte"
      else
      let! sib := code_at code operandCursor in
      let operandCursor := size_add operandCursor 1 in
      let scaleBits := Z.land (Z.shiftr sib 6) 3 in
      let indexEncoding := Z.land (Z.shiftr sib 3) 7 in
      let baseEncoding := Z.land sib 7 in
      if (mode =? 0) && (baseEncoding =? 5) then
        reject code address "no-base CVTDQ2PD SIB is not supported"
      else if negb (indexEncoding =? 4) || rexX then
        let! register125 := decodeRegister indexEncoding rexX in
        let index := Some register125 in
        let scale := Z.shiftl 1 scaleBits in
        Ok (operandCursor, baseEncoding, index, scale)
      else Ok (operandCursor, baseEncoding, index, scale)
     else
      if negb ripRelative && rexX then
        reject code address "REX.X requires a CVTDQ2PD SIB"
      else Ok (operandCursor, baseEncoding, index, scale)) in
  let displacement := 0 in
  let! (displacement, operandCursor) : within (- 2 ^ 31) (2 ^ 31 - 1) * cursor_in 4 10 :=
    (if mode =? 1 then
      if zlength code <=? operandCursor then
        reject code address "truncated CVTDQ2PD disp8"
      else
      let! byte126 := code_at code operandCursor in
      let displacement := signed 8 byte126 in
      let operandCursor := size_add operandCursor 1 in
      Ok (displacement, operandCursor)
     else
      if (mode =? 2) || ripRelative then
        if size_sub (zlength code) operandCursor <? 4 then
          reject code address "truncated CVTDQ2PD disp32"
        else
        let! span127 := subspan code operandCursor 4 in
        let! displacement := readI32 span127 in
        let operandCursor := size_add operandCursor 4 in
        Ok (displacement, operandCursor)
      else Ok (displacement, operandCursor)) in
  let! _ :=
    (if ripRelative then
      let! _ := relativeTarget address (size_sub operandCursor 0) displacement in
      Ok tt
     else
      Ok tt) in
  let instruction := with_opcode X_Cvtdq2pdXmmMem instruction in
  let instruction := push_operand destination instruction in
  let! choice130 : MemoryOperand := (if ripRelative then Ok (mkMemory Rax displacement 64 None 1 false true
      Segment_None) else (let! register131 := decodeRegister baseEncoding rexB in Ok (mkMemory register131
      displacement 64 index scale true false Segment_None))) in
  let instruction := push_operand (MemoryOp choice130) instruction in
  Ok (instruction, operandCursor).

Definition decodeSimdMemory_Cvtdq2pdXmmReg (cursor : Z) (instruction : DecodedInstruction) : outcome
    Recognition :=
  let! byte110 := code_at code cursor in
  let! test114 := (if (byte110 =? 0xF3) && (4 <=? size_sub (zlength code) cursor) then (let! byte111 := code_at
      code (size_add cursor 1) in let! test113 := (if byte111 =? 0xF then (let! byte112 := code_at code
      (size_add cursor 2) in Ok (byte112 =? 0xE6)) else Ok false) in Ok test113) else Ok false) in
  let! test121 := (if test114 then Ok true else (let! test120 := (if (5 <=? size_sub (zlength code) cursor) &&
      (byte110 =? 0xF3) then (let! byte115 := code_at code (size_add cursor 1) in let! test119 := (if (0x40 <=?
      byte115) && (byte115 <=? 0x4F) then (let! byte116 := code_at code (size_add cursor 2) in let! test118 :=
      (if byte116 =? 0xF then (let! byte117 := code_at code (size_add cursor 3) in Ok (byte117 =? 0xE6)) else
      Ok false) in Ok test118) else Ok false) in Ok test119) else Ok false) in Ok test120)) in
  if test121 then
    let! byte122 := code_at code (size_add cursor 1) in
    let hasCvtdq2pdRex := negb (byte122 =? 0xF) in
    let rex := if hasCvtdq2pdRex then byte122 else 0 in
    let rexR := negb (Z.land rex 4 =? 0) in
    let rexX := negb (Z.land rex 2 =? 0) in
    let rexB := negb (Z.land rex 1 =? 0) in
    let opcodeOffset := size_add cursor (if hasCvtdq2pdRex then 2 else 1) in
    let! modrm := code_at code (size_add opcodeOffset 2) in
    let mode := Z.land (Z.shiftr modrm 6) 3 in
    let rmEncoding := Z.land modrm 7 in
    let destination := XmmRegisterOperand (Z.lor (Z.land (Z.shiftr modrm 3) 7) (if rexR then 8 else 0)) in
    let operandCursor := size_add opcodeOffset 3 in
    let! (instruction, operandCursor) : DecodedInstruction * cursor_in 4 10 :=
      (if mode =? 3 then
        let instruction := with_opcode X_Cvtdq2pdXmmReg instruction in
        let instruction := push_operand destination instruction in
        let instruction := push_operand (XmmRegisterOperand (Z.lor rmEncoding (if rexB then 8 else 0)))
            instruction in
        Ok (instruction, operandCursor)
       else
        decodeSimdMemory_Cvtdq2pdXmmMem rexX rexB mode rmEncoding destination operandCursor instruction) in
    let len := size_sub operandCursor 0 in
    let instruction := with_length (u8 len) instruction in
    let! instruction := copy_bytes code 0 len instruction in
    Ok (inl instruction)
  else Ok (inr (cursor, instruction)).

Definition decodeSimdMemory_MovssXmmXmm (cursor : Z) (instruction : DecodedInstruction) : outcome Recognition :=
  let! byte132 := code_at code cursor in
  let! test136 := (if (byte132 =? 0xF3) && (4 <=? size_sub (zlength code) cursor) then (let! byte133 := code_at
      code (size_add cursor 1) in let! test135 := (if byte133 =? 0xF then (let! byte134 := code_at code
      (size_add cursor 2) in Ok ((byte134 =? 0x10) || (byte134 =? 0x11))) else Ok false) in Ok test135) else Ok
      false) in
  let! test143 := (if test136 then Ok true else (let! test142 := (if (5 <=? size_sub (zlength code) cursor) &&
      (byte132 =? 0xF3) then (let! byte137 := code_at code (size_add cursor 1) in let! test141 := (if (0x40 <=?
      byte137) && (byte137 <=? 0x4F) then (let! byte138 := code_at code (size_add cursor 2) in let! test140 :=
      (if byte138 =? 0xF then (let! byte139 := code_at code (size_add cursor 3) in Ok ((byte139 =? 0x10) ||
      (byte139 =? 0x11))) else Ok false) in Ok test140) else Ok false) in Ok test141) else Ok false) in Ok
      test142)) in
  if test143 then
    let! byte144 := code_at code (size_add cursor 1) in
    let hasMovssRex := negb (byte144 =? 0xF) in
    let rex := if hasMovssRex then byte144 else 0 in
    let rexR := negb (Z.land rex 4 =? 0) in
    let rexX := negb (Z.land rex 2 =? 0) in
    let rexB := negb (Z.land rex 1 =? 0) in
    let opcodeOffset := size_add cursor (if hasMovssRex then 2 else 1) in
    let! byte145 := code_at code (size_add opcodeOffset 1) in
    let isLoad := (byte145 =? 0x10) in
    let! modrm := code_at code (size_add opcodeOffset 2) in
    let mode := Z.land (Z.shiftr modrm 6) 3 in
    let rmEncoding := Z.land modrm 7 in
    let xmm := XmmRegisterOperand (Z.lor (Z.land (Z.shiftr modrm 3) 7) (if rexR then 8 else 0)) in
    if mode =? 3 then
      let rm := XmmRegisterOperand (Z.lor rmEncoding (if rexB then 8 else 0)) in
      if rexX then
        reject code address "REX.X is invalid for register-direct MOVSS"
      else
      let instruction := with_opcode X_MovssXmmXmm instruction in
      let instruction := push_operand (if isLoad then xmm else rm) instruction in
      let instruction := push_operand (if isLoad then rm else xmm) instruction in
      let len := size_sub (size_add opcodeOffset 3) 0 in
      let instruction := with_length (u8 len) instruction in
      let! instruction := copy_bytes code 0 len instruction in
      Ok (inl instruction)
    else
    let ripRelative := (mode =? 0) && (rmEncoding =? 5) && negb rexB in
    if (mode =? 0) && (rmEncoding =? 5) && rexB then
      reject code address "R13-based MOVSS is not supported"
    else
    let operandCursor := size_add opcodeOffset 3 in
    let baseEncoding := rmEncoding in
    let index := None in
    let scale := 1 in
    let! (operandCursor, baseEncoding, index, scale) : cursor_in 4 6 * within 0 7 * option Register * one_of
        [1; 2; 4; 8] :=
      (if negb ripRelative && (rmEncoding =? 4) then
        if zlength code <=? operandCursor then
          reject code address "truncated MOVSS SIB byte"
        else
        let! sib := code_at code operandCursor in
        let operandCursor := size_add operandCursor 1 in
        let scaleBits := Z.land (Z.shiftr sib 6) 3 in
        let indexEncoding := Z.land (Z.shiftr sib 3) 7 in
        let baseEncoding := Z.land sib 7 in
        if (mode =? 0) && (baseEncoding =? 5) then
          reject code address "no-base MOVSS SIB is not supported"
        else if negb (indexEncoding =? 4) || rexX then
          let! register148 := decodeRegister indexEncoding rexX in
          let index := Some register148 in
          let scale := Z.shiftl 1 scaleBits in
          Ok (operandCursor, baseEncoding, index, scale)
        else Ok (operandCursor, baseEncoding, index, scale)
       else
        if negb ripRelative && rexX then
          reject code address "REX.X requires a MOVSS SIB"
        else Ok (operandCursor, baseEncoding, index, scale)) in
    let displacement := 0 in
    let! (displacement, operandCursor) : within (- 2 ^ 31) (2 ^ 31 - 1) * cursor_in 4 10 :=
      (if mode =? 1 then
        if zlength code <=? operandCursor then
          reject code address "truncated MOVSS disp8"
        else
        let! byte149 := code_at code operandCursor in
        let displacement := signed 8 byte149 in
        let operandCursor := size_add operandCursor 1 in
        Ok (displacement, operandCursor)
       else
        if (mode =? 2) || ripRelative then
          if size_sub (zlength code) operandCursor <? 4 then
            reject code address "truncated MOVSS disp32"
          else
          let! span150 := subspan code operandCursor 4 in
          let! displacement := readI32 span150 in
          let operandCursor := size_add operandCursor 4 in
          Ok (displacement, operandCursor)
        else Ok (displacement, operandCursor)) in
    let! _ :=
      (if ripRelative then
        let! _ := relativeTarget address (size_sub operandCursor 0) displacement in
        Ok tt
       else
        Ok tt) in
    let! memory : MemoryOperand := (if ripRelative then Ok (mkMemory Rax displacement 32 None 1 false true
        Segment_None) else (let! register154 := decodeRegister baseEncoding rexB in Ok (mkMemory register154
        displacement 32 index scale true false Segment_None))) in
    let instruction := with_opcode (if isLoad then X_MovssRegMem else X_MovssMemXmm) instruction in
    let instruction :=
      (if isLoad then
        let instruction := push_operand xmm instruction in
        let instruction := push_operand (MemoryOp memory) instruction in
        instruction
       else
        let instruction := push_operand (MemoryOp memory) instruction in
        let instruction := push_operand xmm instruction in
        instruction) in
    let len := size_sub operandCursor 0 in
    let instruction := with_length (u8 len) instruction in
    let! instruction := copy_bytes code 0 len instruction in
    Ok (inl instruction)
  else Ok (inr (cursor, instruction)).

Definition decodeSimdMemory_MovqXmmMem (cursor : Z) (instruction : DecodedInstruction) : outcome Recognition :=
  let! movqLoadHasRex := (if 4 <=? size_sub (zlength code) cursor then (let! byte155 := code_at code cursor in
      let! test161 := (if byte155 =? 0xF3 then (let! byte156 := code_at code (size_add cursor 1) in let!
      test160 := (if (0x40 <=? byte156) && (byte156 <=? 0x4F) then (let! byte157 := code_at code (size_add
      cursor 2) in let! test159 := (if byte157 =? 0xF then (let! byte158 := code_at code (size_add cursor 3) in
      Ok (byte158 =? 0x7E)) else Ok false) in Ok test159) else Ok false) in Ok test160) else Ok false) in Ok
      test161) else Ok false) in
  let! movqLoadWithoutRex := (if 3 <=? size_sub (zlength code) cursor then (let! byte163 := code_at code cursor
      in let! test167 := (if byte163 =? 0xF3 then (let! byte164 := code_at code (size_add cursor 1) in let!
      test166 := (if byte164 =? 0xF then (let! byte165 := code_at code (size_add cursor 2) in Ok (byte165 =?
      0x7E)) else Ok false) in Ok test166) else Ok false) in Ok test167) else Ok false) in
  if movqLoadHasRex || movqLoadWithoutRex then
    let! rex : within 0 255 := (if movqLoadHasRex then (let! byte170 := code_at code (size_add cursor 1) in Ok
        byte170) else Ok 0) in
    let modrmOffset := size_add cursor (if movqLoadHasRex then 4 else 3) in
    if zlength code <=? modrmOffset then
      reject code address "truncated MOVQ xmm, [memory]"
    else
    let! modrm := code_at code modrmOffset in
    let mode := Z.land (Z.shiftr modrm 6) 3 in
    let rmEncoding := Z.land modrm 7 in
    if 2 <? mode then
      reject code address "only memory-source MOVQ xmm, qword [memory] is supported"
    else
    let operandCursor := size_add modrmOffset 1 in
    let baseEncoding := rmEncoding in
    let index := None in
    let scale := 1 in
    let hasBase := true in
    let ripRelative := (mode =? 0) && (rmEncoding =? 5) in
    let! (operandCursor, scale, baseEncoding, index, hasBase, ripRelative) : cursor_in 4 6 * one_of [1; 2; 4;
        8] * within 0 7 * option Register * bool * bool :=
      (if rmEncoding =? 4 then
        if zlength code <=? operandCursor then
          reject code address "truncated MOVQ load SIB"
        else
        let! sib := code_at code operandCursor in
        let operandCursor := size_add operandCursor 1 in
        let scale := Z.shiftl 1 (Z.shiftr sib 6) in
        let indexEncoding := Z.land (Z.shiftr sib 3) 7 in
        let baseEncoding := Z.land sib 7 in
        let! index : option Register :=
          (if negb (indexEncoding =? 4) then
            let! register173 := decodeRegister indexEncoding (negb (Z.land rex 2 =? 0)) in
            let index := Some register173 in
            Ok index
           else
            Ok index) in
        let hasBase := negb ((mode =? 0) && (baseEncoding =? 5)) in
        let ripRelative := false in
        Ok (operandCursor, scale, baseEncoding, index, hasBase, ripRelative)
       else
        Ok (operandCursor, scale, baseEncoding, index, hasBase, ripRelative)) in
    let displacement := 0 in
    let! (displacement, operandCursor) : within (- 2 ^ 31) (2 ^ 31 - 1) * cursor_in 4 10 :=
      (if mode =? 1 then
        if zlength code <=? operandCursor then
          reject code address "truncated MOVQ load disp8"
        else
        let! byte174 := code_at code operandCursor in
        let displacement := signed 8 byte174 in
        let operandCursor := size_add operandCursor 1 in
        Ok (displacement, operandCursor)
       else
        if mode =? 2 then
          if size_sub (zlength code) operandCursor <? 4 then
            reject code address "truncated MOVQ load disp32"
          else
          let! span175 := subspan code operandCursor 4 in
          let! displacement := readI32 span175 in
          let operandCursor := size_add operandCursor 4 in
          Ok (displacement, operandCursor)
        else if ripRelative || negb hasBase then
          if size_sub (zlength code) operandCursor <? 4 then
            reject code address "truncated MOVQ load disp32"
          else
          let! span177 := subspan code operandCursor 4 in
          let! displacement := readI32 span177 in
          let operandCursor := size_add operandCursor 4 in
          Ok (displacement, operandCursor)
        else Ok (displacement, operandCursor)) in
    let instruction := with_opcode X_MovqXmmMem instruction in
    let instruction := push_operand (XmmRegisterOperand (Z.lor (Z.land (Z.shiftr modrm 3) 7) (if negb (Z.land
        rex 4 =? 0) then 8 else 0))) instruction in
    let! choice179 : Register := (if hasBase && negb ripRelative then (let! register180 := decodeRegister
        baseEncoding (negb (Z.land rex 1 =? 0)) in Ok register180) else Ok Rax) in
    let instruction := push_operand (MemoryOp (mkMemory choice179 displacement 64 index scale hasBase
        ripRelative Segment_None)) instruction in
    let len := size_sub operandCursor 0 in
    let instruction := with_length (u8 len) instruction in
    let! instruction := copy_bytes code 0 len instruction in
    Ok (inl instruction)
  else Ok (inr (cursor, instruction)).

Definition decodeSimdMemory_PmovmskbRegXmm (cursor : Z) (instruction : DecodedInstruction) : outcome
    Recognition :=
  let! byte181 := code_at code cursor in
  let! test185 := (if (byte181 =? 0x66) && (3 <=? size_sub (zlength code) cursor) then (let! byte182 := code_at
      code (size_add cursor 1) in let! test184 := (if byte182 =? 0xF then (let! byte183 := code_at code
      (size_add cursor 2) in Ok (byte183 =? 0xD7)) else Ok false) in Ok test184) else Ok false) in
  if test185 then
    if size_sub (zlength code) cursor <? 4 then
      reject code address "truncated pmovmskb r32, xmm"
    else
    let! modrm := code_at code (size_add cursor 3) in
    let mode := Z.land (Z.shiftr modrm 6) 3 in
    if negb (mode =? 3) then
      reject code address "only register-direct PMOVMSKB is supported"
    else
    let instruction := with_opcode X_PmovmskbRegXmm instruction in
    let instruction := with_length 4 instruction in
    let! instruction := copy_bytes code cursor 4 instruction in
    let! register187 := decodeRegister (Z.land (Z.shiftr modrm 3) 7) false in
    let instruction := push_operand (RegisterOperand register187 32 0) instruction in
    let instruction := push_operand (XmmRegisterOperand (Z.land modrm 7)) instruction in
    Ok (inl instruction)
  else Ok (inr (cursor, instruction)).

Definition decodeSimdMemory_MovapdMemReg (cursor : Z) (instruction : DecodedInstruction) : outcome Recognition
    :=
  let! byte188 := code_at code cursor in
  let movapdStore := (byte188 =? 0x66) in
  let movapsStorePrefixEnd := size_add cursor (if movapdStore then 1 else 0) in
  let! movapsStoreHasRex := (if movapsStorePrefixEnd <? zlength code then (let! byte189 := code_at code
      movapsStorePrefixEnd in Ok ((0x40 <=? byte189) && (byte189 <=? 0x4F))) else Ok false) in
  let movapsStoreOpcodeOffset := size_add movapsStorePrefixEnd (if movapsStoreHasRex then 1 else 0) in
  let! test194 := (if 2 <=? size_sub (zlength code) movapsStoreOpcodeOffset then (let! byte191 := code_at code
      movapsStoreOpcodeOffset in let! test193 := (if byte191 =? 0xF then (let! byte192 := code_at code
      (size_add movapsStoreOpcodeOffset 1) in Ok (byte192 =? 0x29)) else Ok false) in Ok test193) else Ok
      false) in
  if test194 then
    if size_sub (zlength code) movapsStoreOpcodeOffset <? 3 then
      reject code address "truncated movaps [base+disp], xmm"
    else
    let! rex : within 0 255 := (if movapsStoreHasRex then (let! byte196 := code_at code movapsStorePrefixEnd in
        Ok byte196) else Ok 0) in
    let rexR := negb (Z.land rex 4 =? 0) in
    let rexX := negb (Z.land rex 2 =? 0) in
    let rexB := negb (Z.land rex 1 =? 0) in
    let! modrm := code_at code (size_add movapsStoreOpcodeOffset 2) in
    let mode := Z.land (Z.shiftr modrm 6) 3 in
    let rmEncoding := Z.land modrm 7 in
    let ripRelative := (mode =? 0) && (rmEncoding =? 5) in
    if 2 <? mode then
      reject code address "only MOVAPD/MOVAPS [base+index*scale/RIP+disp], xmm memory operands are supported"
    else
    let cursor := size_add movapsStoreOpcodeOffset 3 in
    let baseEncoding := rmEncoding in
    let index := None in
    let scale := 1 in
    let! (cursor, baseEncoding, index, scale) : cursor_in 3 6 * within 0 7 * option Register * one_of [1; 2; 4;
        8] :=
      (if negb ripRelative && (rmEncoding =? 4) then
        if zlength code <=? cursor then
          reject code address "truncated aligned XMM store SIB byte"
        else
        let! sib := code_at code cursor in
        let cursor := size_add cursor 1 in
        let scaleBits := Z.land (Z.shiftr sib 6) 3 in
        let indexEncoding := Z.land (Z.shiftr sib 3) 7 in
        let baseEncoding := Z.land sib 7 in
        if (mode =? 0) && (baseEncoding =? 5) then
          reject code address "no-base aligned XMM store SIB is not supported"
        else if negb (indexEncoding =? 4) || rexX then
          let! register199 := decodeRegister indexEncoding rexX in
          let index := Some register199 in
          let scale := Z.shiftl 1 scaleBits in
          Ok (cursor, baseEncoding, index, scale)
        else Ok (cursor, baseEncoding, index, scale)
       else
        Ok (cursor, baseEncoding, index, scale)) in
    let displacement := 0 in
    let! (displacement, cursor) : within (- 2 ^ 31) (2 ^ 31 - 1) * cursor_in 3 10 :=
      (if ripRelative then
        if size_sub (zlength code) cursor <? 4 then
          reject code address "truncated RIP-relative MOVAPS disp32"
        else
        let! span200 := subspan code cursor 4 in
        let! displacement := readI32 span200 in
        let cursor := size_add cursor 4 in
        Ok (displacement, cursor)
       else
        if mode =? 1 then
          if zlength code <=? cursor then
            reject code address "truncated MOVAPS memory disp8"
          else
          let! byte202 := code_at code cursor in
          let displacement := signed 8 byte202 in
          let cursor := size_add cursor 1 in
          Ok (displacement, cursor)
        else if mode =? 2 then
          if size_sub (zlength code) cursor <? 4 then
            reject code address "truncated MOVAPS memory disp32"
          else
          let! span203 := subspan code cursor 4 in
          let! displacement := readI32 span203 in
          let cursor := size_add cursor 4 in
          Ok (displacement, cursor)
        else Ok (displacement, cursor)) in
    let! _ :=
      (if ripRelative then
        let! _ := relativeTarget address (size_sub cursor 0) displacement in
        Ok tt
       else
        Ok tt) in
    let instruction := with_opcode (if movapdStore then X_MovapdMemReg else X_MovapsMemReg) instruction in
    let! choice206 : MemoryOperand := (if ripRelative then Ok (mkMemory Rax displacement 128 None 1 false true
        Segment_None) else (let! register207 := decodeRegister baseEncoding rexB in Ok (mkMemory register207
        displacement 128 index scale true false Segment_None))) in
    let instruction := push_operand (MemoryOp choice206) instruction in
    let instruction := push_operand (XmmRegisterOperand (Z.lor (Z.land (Z.shiftr modrm 3) 7) (if rexR then 8
        else 0))) instruction in
    let len := size_sub cursor 0 in
    let instruction := with_length (u8 len) instruction in
    let! instruction := copy_bytes code 0 len instruction in
    Ok (inl instruction)
  else Ok (inr (cursor, instruction)).

Definition decodeSimdMemory_MovupsMemReg (cursor : Z) (instruction : DecodedInstruction) : outcome Recognition
    :=
  let! byte208 := code_at code cursor in
  let movupdStore := (byte208 =? 0x66) in
  let movupsStorePrefixEnd := size_add cursor (if movupdStore then 1 else 0) in
  let! movupsStoreHasRex := (if movupsStorePrefixEnd <? zlength code then (let! byte209 := code_at code
      movupsStorePrefixEnd in Ok ((0x40 <=? byte209) && (byte209 <=? 0x4F))) else Ok false) in
  let movupsStoreOpcodeOffset := size_add movupsStorePrefixEnd (if movupsStoreHasRex then 1 else 0) in
  let! test214 := (if 2 <=? size_sub (zlength code) movupsStoreOpcodeOffset then (let! byte211 := code_at code
      movupsStoreOpcodeOffset in let! test213 := (if byte211 =? 0xF then (let! byte212 := code_at code
      (size_add movupsStoreOpcodeOffset 1) in Ok (byte212 =? 0x11)) else Ok false) in Ok test213) else Ok
      false) in
  if test214 then
    if size_sub (zlength code) movupsStoreOpcodeOffset <? 3 then
      reject code address "truncated movups [base+disp], xmm"
    else
    let! rex : within 0 255 := (if movupsStoreHasRex then (let! byte216 := code_at code movupsStorePrefixEnd in
        Ok byte216) else Ok 0) in
    let rexR := negb (Z.land rex 4 =? 0) in
    let rexX := negb (Z.land rex 2 =? 0) in
    let rexB := negb (Z.land rex 1 =? 0) in
    let! modrm := code_at code (size_add movupsStoreOpcodeOffset 2) in
    let mode := Z.land (Z.shiftr modrm 6) 3 in
    let rmEncoding := Z.land modrm 7 in
    if 2 <? mode then
      reject code address "only MOVUPS [base+disp8/disp32], xmm memory operands are supported"
    else
    let cursor := size_add movupsStoreOpcodeOffset 3 in
    let ripRelative := (mode =? 0) && (rmEncoding =? 5) in
    let baseEncoding := rmEncoding in
    let index := None in
    let scale := 1 in
    let! (cursor, baseEncoding, index, scale) : cursor_in 3 6 * within 0 7 * option Register * one_of [1; 2; 4;
        8] :=
      (if negb ripRelative && (rmEncoding =? 4) then
        if zlength code <=? cursor then
          reject code address "truncated MOVUPS SIB byte"
        else
        let! sib := code_at code cursor in
        let cursor := size_add cursor 1 in
        let scaleBits := Z.land (Z.shiftr sib 6) 3 in
        let indexEncoding := Z.land (Z.shiftr sib 3) 7 in
        let baseEncoding := Z.land sib 7 in
        if (mode =? 0) && (baseEncoding =? 5) then
          reject code address "no-base MOVUPS SIB addressing is not supported"
        else if negb (indexEncoding =? 4) || rexX then
          let! register219 := decodeRegister indexEncoding rexX in
          let index := Some register219 in
          let scale := Z.shiftl 1 scaleBits in
          Ok (cursor, baseEncoding, index, scale)
        else Ok (cursor, baseEncoding, index, scale)
       else
        Ok (cursor, baseEncoding, index, scale)) in
    let displacement := 0 in
    let! (displacement, cursor) : within (- 2 ^ 31) (2 ^ 31 - 1) * cursor_in 3 10 :=
      (if ripRelative then
        if size_sub (zlength code) cursor <? 4 then
          reject code address "truncated RIP-relative MOVUPS disp32"
        else
        let! span220 := subspan code cursor 4 in
        let! displacement := readI32 span220 in
        let cursor := size_add cursor 4 in
        Ok (displacement, cursor)
       else
        if mode =? 1 then
          if zlength code <=? cursor then
            reject code address "truncated MOVUPS memory disp8"
          else
          let! byte222 := code_at code cursor in
          let displacement := signed 8 byte222 in
          let cursor := size_add cursor 1 in
          Ok (displacement, cursor)
        else if mode =? 2 then
          if size_sub (zlength code) cursor <? 4 then
            reject code address "truncated MOVUPS memory disp32"
          else
          let! span223 := subspan code cursor 4 in
          let! displacement := readI32 span223 in
          let cursor := size_add cursor 4 in
          Ok (displacement, cursor)
        else Ok (displacement, cursor)) in
    let! _ :=
      (if ripRelative then
        let! _ := relativeTarget address (size_sub cursor 0) displacement in
        Ok tt
       else
        Ok tt) in
    let instruction := with_opcode X_MovupsMemReg instruction in
    let! choice226 : MemoryOperand := (if ripRelative then Ok (mkMemory Rax displacement 128 None 1 false true
        Segment_None) else (let! register227 := decodeRegister baseEncoding rexB in Ok (mkMemory register227
        displacement 128 index scale true false Segment_None))) in
    let instruction := push_operand (MemoryOp choice226) instruction in
    let instruction := push_operand (XmmRegisterOperand (Z.lor (Z.land (Z.shiftr modrm 3) 7) (if rexR then 8
        else 0))) instruction in
    let len := size_sub cursor 0 in
    let instruction := with_length (u8 len) instruction in
    let! instruction := copy_bytes code 0 len instruction in
    Ok (inl instruction)
  else Ok (inr (cursor, instruction)).

Definition decodeSimdMemory_MovapdRegReg (cursor : Z) (instruction : DecodedInstruction) : outcome Recognition
    :=
  let! byte228 := code_at code cursor in
  let movapdLoad := (byte228 =? 0x66) in
  let movupsLoadPrefixEnd := size_add cursor (if movapdLoad then 1 else 0) in
  let! movupsLoadHasRex := (if movupsLoadPrefixEnd <? zlength code then (let! byte229 := code_at code
      movupsLoadPrefixEnd in Ok ((0x40 <=? byte229) && (byte229 <=? 0x4F))) else Ok false) in
  let movupsLoadOpcodeOffset := size_add movupsLoadPrefixEnd (if movupsLoadHasRex then 1 else 0) in
  let! test238 := (if 2 <=? size_sub (zlength code) movupsLoadOpcodeOffset then (let! byte231 := code_at code
      movupsLoadOpcodeOffset in let! test237 := (if byte231 =? 0xF then (let! test233 := (if negb movapdLoad
      then (let! byte232 := code_at code (size_add movupsLoadOpcodeOffset 1) in Ok ((byte232 =? 0x10) ||
      (byte232 =? 0x28))) else Ok false) in let! test236 := (if test233 then Ok true else (let! test235 := (if
      movapdLoad then (let! byte234 := code_at code (size_add movupsLoadOpcodeOffset 1) in Ok ((byte234 =?
      0x28) || (byte234 =? 0x10))) else Ok false) in Ok test235)) in Ok test236) else Ok false) in Ok test237)
      else Ok false) in
  if test238 then
    let! byte239 := code_at code (size_add movupsLoadOpcodeOffset 1) in
    let aligned := (byte239 =? 0x28) in
    if size_sub (zlength code) movupsLoadOpcodeOffset <? 3 then
      reject code address "truncated xmm load from guest memory"
    else
    let! rex : within 0 255 := (if movupsLoadHasRex then (let! byte241 := code_at code movupsLoadPrefixEnd in
        Ok byte241) else Ok 0) in
    let rexR := negb (Z.land rex 4 =? 0) in
    let rexX := negb (Z.land rex 2 =? 0) in
    let rexB := negb (Z.land rex 1 =? 0) in
    let! modrm := code_at code (size_add movupsLoadOpcodeOffset 2) in
    let mode := Z.land (Z.shiftr modrm 6) 3 in
    let rmEncoding := Z.land modrm 7 in
    if mode =? 3 then
      let instruction := with_opcode (if movapdLoad then X_MovapdRegReg else X_MovapsRegReg) instruction in
      let instruction := push_operand (XmmRegisterOperand (Z.lor (Z.land (Z.shiftr modrm 3) 7) (if rexR then 8
          else 0))) instruction in
      let instruction := push_operand (XmmRegisterOperand (Z.lor rmEncoding (if rexB then 8 else 0)))
          instruction in
      let operandCursor := size_add movupsLoadOpcodeOffset 3 in
      let len := size_sub operandCursor 0 in
      let instruction := with_length (u8 len) instruction in
      let! instruction := copy_bytes code 0 len instruction in
      Ok (inl instruction)
    else
    let ripRelative := (mode =? 0) && (rmEncoding =? 5) in
    let operandCursor := size_add movupsLoadOpcodeOffset 3 in
    let baseEncoding := rmEncoding in
    let index := None in
    let scale := 1 in
    let! (operandCursor, baseEncoding, index, scale) : cursor_in 3 6 * within 0 7 * option Register * one_of
        [1; 2; 4; 8] :=
      (if negb ripRelative && (rmEncoding =? 4) then
        if zlength code <=? operandCursor then
          reject code address "truncated aligned/unaligned XMM load SIB byte"
        else
        let! sib := code_at code operandCursor in
        let operandCursor := size_add operandCursor 1 in
        let scaleBits := Z.land (Z.shiftr sib 6) 3 in
        let indexEncoding := Z.land (Z.shiftr sib 3) 7 in
        let baseEncoding := Z.land sib 7 in
        if (mode =? 0) && (baseEncoding =? 5) then
          reject code address "no-base aligned/unaligned XMM load SIB addressing is not supported"
        else if negb (indexEncoding =? 4) || rexX then
          let! register244 := decodeRegister indexEncoding rexX in
          let index := Some register244 in
          let scale := Z.shiftl 1 scaleBits in
          Ok (operandCursor, baseEncoding, index, scale)
        else Ok (operandCursor, baseEncoding, index, scale)
       else
        Ok (operandCursor, baseEncoding, index, scale)) in
    let displacement := 0 in
    let! (displacement, operandCursor) : within (- 2 ^ 31) (2 ^ 31 - 1) * cursor_in 3 10 :=
      (if ripRelative then
        if size_sub (zlength code) operandCursor <? 4 then
          reject code address "truncated RIP-relative XMM load disp32"
        else
        let! span245 := subspan code operandCursor 4 in
        let! displacement := readI32 span245 in
        let operandCursor := size_add operandCursor 4 in
        Ok (displacement, operandCursor)
       else
        if mode =? 1 then
          if zlength code <=? operandCursor then
            reject code address "truncated MOVUPS load disp8"
          else
          let! byte247 := code_at code operandCursor in
          let displacement := signed 8 byte247 in
          let operandCursor := size_add operandCursor 1 in
          Ok (displacement, operandCursor)
        else if mode =? 2 then
          if size_sub (zlength code) operandCursor <? 4 then
            reject code address "truncated MOVUPS load disp32"
          else
          let! span248 := subspan code operandCursor 4 in
          let! displacement := readI32 span248 in
          let operandCursor := size_add operandCursor 4 in
          Ok (displacement, operandCursor)
        else Ok (displacement, operandCursor)) in
    let! _ :=
      (if ripRelative then
        let! _ := relativeTarget address (size_sub operandCursor 0) displacement in
        Ok tt
       else
        Ok tt) in
    let instruction := with_opcode (if movapdLoad && negb (byte239 =? 0x10) then X_MovapdRegMem else if aligned
        then X_MovapsRegMem else X_MovupsRegMem) instruction in
    let instruction := push_operand (XmmRegisterOperand (Z.lor (Z.land (Z.shiftr modrm 3) 7) (if rexR then 8
        else 0))) instruction in
    let! choice251 : MemoryOperand := (if ripRelative then Ok (mkMemory Rax displacement 128 None 1 false true
        Segment_None) else (let! register252 := decodeRegister baseEncoding rexB in Ok (mkMemory register252
        displacement 128 index scale true false Segment_None))) in
    let instruction := push_operand (MemoryOp choice251) instruction in
    let len := size_sub operandCursor 0 in
    let instruction := with_length (u8 len) instruction in
    let! instruction := copy_bytes code 0 len instruction in
    Ok (inl instruction)
  else Ok (inr (cursor, instruction)).

Definition decodeSimdMemory_PextrdRegXmmImm (cursor : Z) (instruction : DecodedInstruction) : outcome
    Recognition :=
  let! byte253 := code_at code cursor in
  let! test259 := (if (byte253 =? 0x66) && (4 <=? size_sub (zlength code) cursor) then (let! byte254 := code_at
      code (size_add cursor 1) in let! test258 := (if byte254 =? 0xF then (let! byte255 := code_at code
      (size_add cursor 2) in let! test257 := (if byte255 =? 0x3A then (let! byte256 := code_at code (size_add
      cursor 3) in Ok (byte256 =? 0x16)) else Ok false) in Ok test257) else Ok false) in Ok test258) else Ok
      false) in
  if test259 then
    if size_sub (zlength code) cursor <? 6 then
      reject code address "truncated PEXTRD r32, xmm, imm8"
    else
    let! modrm := code_at code (size_add cursor 4) in
    let mode := Z.land (Z.shiftr modrm 6) 3 in
    if negb (mode =? 3) then
      reject code address "only register-direct PEXTRD is supported"
    else
    let instruction := with_opcode X_PextrdRegXmmImm instruction in
    let instruction := with_length 6 instruction in
    let! instruction := copy_bytes code cursor 6 instruction in
    let! register261 := decodeRegister (Z.land (Z.shiftr modrm 3) 7) false in
    let instruction := push_operand (RegisterOperand register261 32 0) instruction in
    let instruction := push_operand (XmmRegisterOperand (Z.land modrm 7)) instruction in
    let! byte262 := code_at code (size_add cursor 5) in
    let instruction := push_operand (ImmediateOperand (Z.land byte262 3) 8) instruction in
    Ok (inl instruction)
  else Ok (inr (cursor, instruction)).

Definition decodeSimdMemory_PblendwRegRegImm (cursor : Z) (instruction : DecodedInstruction) : outcome
    Recognition :=
  let! byte263 := code_at code cursor in
  let! test269 := (if (byte263 =? 0x66) && (4 <=? size_sub (zlength code) cursor) then (let! byte264 := code_at
      code (size_add cursor 1) in let! test268 := (if byte264 =? 0xF then (let! byte265 := code_at code
      (size_add cursor 2) in let! test267 := (if byte265 =? 0x3A then (let! byte266 := code_at code (size_add
      cursor 3) in Ok (byte266 =? 0xE)) else Ok false) in Ok test267) else Ok false) in Ok test268) else Ok
      false) in
  if test269 then
    if size_sub (zlength code) cursor <? 6 then
      reject code address "truncated PBLENDW xmm, xmm, imm8"
    else
    let! modrm := code_at code (size_add cursor 4) in
    let mode := Z.land (Z.shiftr modrm 6) 3 in
    if negb (mode =? 3) then
      reject code address "only register-direct PBLENDW is supported"
    else
    let instruction := with_opcode X_PblendwRegRegImm instruction in
    let instruction := with_length 6 instruction in
    let! instruction := copy_bytes code cursor 6 instruction in
    let instruction := push_operand (XmmRegisterOperand (Z.land (Z.shiftr modrm 3) 7)) instruction in
    let instruction := push_operand (XmmRegisterOperand (Z.land modrm 7)) instruction in
    let! byte271 := code_at code (size_add cursor 5) in
    let instruction := push_operand (ImmediateOperand byte271 8) instruction in
    Ok (inl instruction)
  else Ok (inr (cursor, instruction)).

Definition decodeSimdMemory_PinsrdXmmReg (cursor : Z) (instruction : DecodedInstruction) : outcome Recognition
    :=
  let! byte272 := code_at code cursor in
  let! test274 := (if (byte272 =? 0x66) && (2 <=? size_sub (zlength code) cursor) then (let! byte273 := code_at
      code (size_add cursor 1) in Ok ((0x40 <=? byte273) && (byte273 <=? 0x4F))) else Ok false) in
  if test274 then
    let! rex := code_at code (size_add cursor 1) in
    let! test281 := (if 5 <=? size_sub (zlength code) cursor then (let! byte276 := code_at code (size_add
        cursor 2) in let! test280 := (if byte276 =? 0xF then (let! byte277 := code_at code (size_add cursor 3)
        in let! test279 := (if byte277 =? 0x3A then (let! byte278 := code_at code (size_add cursor 4) in Ok
        (byte278 =? 0x22)) else Ok false) in Ok test279) else Ok false) in Ok test280) else Ok false) in
    if test281 then
      if size_sub (zlength code) cursor <? 7 then
        reject code address "truncated PINSRD/PINSRQ register operand"
      else
      let! modrm := code_at code (size_add cursor 5) in
      let mode := Z.land (Z.shiftr modrm 6) 3 in
      if negb (mode =? 3) then
        reject code address "only register-direct REX PINSRD/PINSRQ is supported"
      else
      let instruction := with_opcode X_PinsrdXmmReg instruction in
      let instruction := push_operand (XmmRegisterOperand (Z.lor (Z.land (Z.shiftr modrm 3) 7) (if negb (Z.land
          rex 4 =? 0) then 8 else 0))) instruction in
      let! register283 := decodeRegister (Z.land modrm 7) (negb (Z.land rex 1 =? 0)) in
      let instruction := push_operand (RegisterOperand register283 (if negb (Z.land rex 8 =? 0) then 64 else
          32) 0) instruction in
      let! byte284 := code_at code (size_add cursor 6) in
      let instruction := push_operand (ImmediateOperand byte284 8) instruction in
      let instruction := with_length 7 instruction in
      let! instruction := copy_bytes code 0 (d_length instruction) instruction in
      Ok (inl instruction)
    else Ok (inr (cursor, instruction))
  else Ok (inr (cursor, instruction)).

Definition decodeSimdMemory_PinsrdXmmReg_2 (cursor : Z) (instruction : DecodedInstruction) : outcome
    Recognition :=
  let! byte285 := code_at code cursor in
  let! test291 := (if (byte285 =? 0x66) && (4 <=? size_sub (zlength code) cursor) then (let! byte286 := code_at
      code (size_add cursor 1) in let! test290 := (if byte286 =? 0xF then (let! byte287 := code_at code
      (size_add cursor 2) in let! test289 := (if byte287 =? 0x3A then (let! byte288 := code_at code (size_add
      cursor 3) in Ok (byte288 =? 0x22)) else Ok false) in Ok test289) else Ok false) in Ok test290) else Ok
      false) in
  if test291 then
    if size_sub (zlength code) cursor <? 6 then
      reject code address "truncated PINSRD xmm, [memory], imm8"
    else
    let! modrm := code_at code (size_add cursor 4) in
    let mode := Z.land (Z.shiftr modrm 6) 3 in
    let rmEncoding := Z.land modrm 7 in
    if negb (mode =? 3) && ((rmEncoding =? 4) || ((mode =? 0) && (rmEncoding =? 5))) then
      reject code address "only PINSRD xmm, r32/dword [base+disp8/disp32], imm8 is supported"
    else
    let operandCursor := size_add cursor 5 in
    let displacement := 0 in
    let! (displacement, operandCursor) : within (- 2 ^ 31) (2 ^ 31 - 1) * cursor_in 5 9 :=
      (if mode =? 1 then
        if zlength code <=? operandCursor then
          reject code address "truncated PINSRD disp8"
        else
        let! byte293 := code_at code operandCursor in
        let displacement := signed 8 byte293 in
        let operandCursor := size_add operandCursor 1 in
        Ok (displacement, operandCursor)
       else
        if mode =? 2 then
          if size_sub (zlength code) operandCursor <? 4 then
            reject code address "truncated PINSRD disp32"
          else
          let! span294 := subspan code operandCursor 4 in
          let! displacement := readI32 span294 in
          let operandCursor := size_add operandCursor 4 in
          Ok (displacement, operandCursor)
        else Ok (displacement, operandCursor)) in
    if zlength code <=? operandCursor then
      reject code address "truncated PINSRD lane immediate"
    else
    let! lane := code_at code operandCursor in
    let operandCursor := size_add operandCursor 1 in
    let instruction := with_opcode (if mode =? 3 then X_PinsrdXmmReg else X_PinsrdXmmMem) instruction in
    let instruction := push_operand (XmmRegisterOperand (Z.land (Z.shiftr modrm 3) 7)) instruction in
    let! instruction : DecodedInstruction :=
      (if mode =? 3 then
        let! register297 := decodeRegister rmEncoding false in
        let instruction := push_operand (RegisterOperand register297 32 0) instruction in
        Ok instruction
       else
        let! register298 := decodeRegister rmEncoding false in
        let instruction := push_operand (MemoryOp (mkMemory register298 displacement 32 None 1 true false
            Segment_None)) instruction in
        Ok instruction) in
    let instruction := push_operand (ImmediateOperand lane 8) instruction in
    let len := size_sub operandCursor 0 in
    let instruction := with_length (u8 len) instruction in
    let! instruction := copy_bytes code 0 len instruction in
    Ok (inl instruction)
  else Ok (inr (cursor, instruction)).

Definition decodeSimdMemory_PinsrbXmmMem_2 (afterSizePrefix : Z) (hasRex : bool) (opcodeOffset : Z)
    (instruction : DecodedInstruction) : outcome Recognition :=
  if size_sub (zlength code) opcodeOffset <? 5 then
    reject code address "truncated PINSRB xmm, r32, imm8"
  else
  let! rex : within 0 255 := (if hasRex then (let! byte308 := code_at code afterSizePrefix in Ok byte308) else
      Ok 0) in
  let rexW := negb (Z.land rex 8 =? 0) in
  let rexR := negb (Z.land rex 4 =? 0) in
  let rexB := negb (Z.land rex 1 =? 0) in
  let! modrm := code_at code (size_add opcodeOffset 3) in
  let mode := Z.land (Z.shiftr modrm 6) 3 in
  if rexW then
    reject code address "PINSRB does not support REX.W"
  else
  let rmEncoding := Z.land modrm 7 in
  if negb (mode =? 3) then
    if (rmEncoding =? 4) || ((mode =? 0) && (rmEncoding =? 5)) then
      reject code address "only PINSRB xmm, byte [base+disp8/disp32], imm8 memory operands are supported"
    else
    let operandCursor := size_add opcodeOffset 4 in
    let displacement := 0 in
    let! (displacement, operandCursor) : within (- 2 ^ 31) (2 ^ 31 - 1) * cursor_in 5 10 :=
      (if mode =? 1 then
        if zlength code <=? operandCursor then
          reject code address "truncated PINSRB memory disp8"
        else
        let! byte310 := code_at code operandCursor in
        let displacement := signed 8 byte310 in
        let operandCursor := size_add operandCursor 1 in
        Ok (displacement, operandCursor)
       else
        if mode =? 2 then
          if size_sub (zlength code) operandCursor <? 4 then
            reject code address "truncated PINSRB memory disp32"
          else
          let! span311 := subspan code operandCursor 4 in
          let! displacement := readI32 span311 in
          let operandCursor := size_add operandCursor 4 in
          Ok (displacement, operandCursor)
        else Ok (displacement, operandCursor)) in
    if zlength code <=? operandCursor then
      reject code address "truncated PINSRB memory immediate"
    else
    let! lane := code_at code operandCursor in
    let operandCursor := size_add operandCursor 1 in
    let instruction := with_opcode X_PinsrbXmmMem instruction in
    let instruction := push_operand (XmmRegisterOperand (Z.lor (Z.land (Z.shiftr modrm 3) 7) (if rexR then 8
        else 0))) instruction in
    let! register314 := decodeRegister rmEncoding rexB in
    let instruction := push_operand (MemoryOp (mkMemory register314 displacement 8 None 1 true false
        Segment_None)) instruction in
    let instruction := push_operand (ImmediateOperand lane 8) instruction in
    let len := size_sub operandCursor 0 in
    let instruction := with_length (u8 len) instruction in
    let! instruction := copy_bytes code 0 len instruction in
    Ok (inl instruction)
  else
  let instruction := with_opcode X_PinsrbXmmReg instruction in
  let instruction := push_operand (XmmRegisterOperand (Z.lor (Z.land (Z.shiftr modrm 3) 7) (if rexR then 8 else
      0))) instruction in
  let! register315 := decodeRegister (Z.land modrm 7) rexB in
  let instruction := push_operand (RegisterOperand register315 32 0) instruction in
  let! byte316 := code_at code (size_add opcodeOffset 4) in
  let instruction := push_operand (ImmediateOperand byte316 8) instruction in
  let len := size_sub (size_add opcodeOffset 5) 0 in
  let instruction := with_length (u8 len) instruction in
  let! instruction := copy_bytes code 0 len instruction in
  Ok (inl instruction).

Definition decodeSimdMemory_PinsrbXmmMem (cursor : Z) (instruction : DecodedInstruction) : outcome Recognition
    :=
  let! byte299 := code_at code cursor in
  if (byte299 =? 0x66) && (2 <=? size_sub (zlength code) cursor) then
    let afterSizePrefix := size_add cursor 1 in
    let! byte300 := code_at code afterSizePrefix in
    let hasRex := (0x40 <=? byte300) && (byte300 <=? 0x4F) in
    let opcodeOffset := size_add afterSizePrefix (if hasRex then 1 else 0) in
    let! test306 := (if 3 <=? size_sub (zlength code) opcodeOffset then (let! byte301 := code_at code
        opcodeOffset in let! test305 := (if byte301 =? 0xF then (let! byte302 := code_at code (size_add
        opcodeOffset 1) in let! test304 := (if byte302 =? 0x3A then (let! byte303 := code_at code (size_add
        opcodeOffset 2) in Ok (byte303 =? 0x20)) else Ok false) in Ok test304) else Ok false) in Ok test305)
        else Ok false) in
    if test306 then
      decodeSimdMemory_PinsrbXmmMem_2 afterSizePrefix hasRex opcodeOffset instruction
    else Ok (inr (cursor, instruction))
  else Ok (inr (cursor, instruction)).

Definition decodeSimdMemory_PalignrRegRegImm (cursor : Z) (instruction : DecodedInstruction) : outcome
    Recognition :=
  let! byte317 := code_at code cursor in
  let! test323 := (if (byte317 =? 0x66) && (4 <=? size_sub (zlength code) cursor) then (let! byte318 := code_at
      code (size_add cursor 1) in let! test322 := (if byte318 =? 0xF then (let! byte319 := code_at code
      (size_add cursor 2) in let! test321 := (if byte319 =? 0x3A then (let! byte320 := code_at code (size_add
      cursor 3) in Ok (byte320 =? 0xF)) else Ok false) in Ok test321) else Ok false) in Ok test322) else Ok
      false) in
  if test323 then
    if size_sub (zlength code) cursor <? 6 then
      reject code address "truncated palignr xmm, xmm, imm8"
    else
    let! modrm := code_at code (size_add cursor 4) in
    let mode := Z.land (Z.shiftr modrm 6) 3 in
    if negb (mode =? 3) then
      reject code address "only register-direct PALIGNR is supported"
    else
    let instruction := with_opcode X_PalignrRegRegImm instruction in
    let instruction := with_length 6 instruction in
    let! instruction := copy_bytes code cursor 6 instruction in
    let instruction := push_operand (XmmRegisterOperand (Z.land (Z.shiftr modrm 3) 7)) instruction in
    let instruction := push_operand (XmmRegisterOperand (Z.land modrm 7)) instruction in
    let! byte325 := code_at code (size_add cursor 5) in
    let instruction := push_operand (ImmediateOperand byte325 8) instruction in
    Ok (inl instruction)
  else Ok (inr (cursor, instruction)).

Definition decodeSimdMemory_MovdqaMemReg (cursor : Z) (instruction : DecodedInstruction) : outcome Recognition
    :=
  let! byte326 := code_at code cursor in
  let! test330 := (if (byte326 =? 0x66) && (3 <=? size_sub (zlength code) cursor) then (let! byte327 := code_at
      code (size_add cursor 1) in let! test329 := (if byte327 =? 0xF then (let! byte328 := code_at code
      (size_add cursor 2) in Ok (byte328 =? 0x7F)) else Ok false) in Ok test329) else Ok false) in
  if test330 then
    if size_sub (zlength code) cursor <? 4 then
      reject code address "truncated movdqa [memory], xmm"
    else
    let! modrm := code_at code (size_add cursor 3) in
    let mode := Z.land (Z.shiftr modrm 6) 3 in
    let rmEncoding := Z.land modrm 7 in
    if (2 <? mode) || ((mode =? 0) && (rmEncoding =? 5)) then
      reject code address "only MOVDQA [base+index*scale+disp], xmm is supported"
    else
    let cursor := size_add cursor 4 in
    let baseEncoding := rmEncoding in
    let index := None in
    let scale := 1 in
    let! (cursor, baseEncoding, index, scale) : cursor_in 4 5 * within 0 7 * option Register * one_of [1; 2; 4;
        8] :=
      (if rmEncoding =? 4 then
        if zlength code <=? cursor then
          reject code address "truncated MOVDQA store SIB byte"
        else
        let! sib := code_at code cursor in
        let cursor := size_add cursor 1 in
        let scaleBits := Z.land (Z.shiftr sib 6) 3 in
        let indexEncoding := Z.land (Z.shiftr sib 3) 7 in
        let baseEncoding := Z.land sib 7 in
        if (mode =? 0) && (baseEncoding =? 5) then
          reject code address "no-base MOVDQA store SIB addressing is not supported"
        else if negb (indexEncoding =? 4) then
          let! register333 := decodeRegister indexEncoding false in
          let index := Some register333 in
          let scale := Z.shiftl 1 scaleBits in
          Ok (cursor, baseEncoding, index, scale)
        else Ok (cursor, baseEncoding, index, scale)
       else
        Ok (cursor, baseEncoding, index, scale)) in
    let displacement := 0 in
    let! (displacement, cursor) : within (- 2 ^ 31) (2 ^ 31 - 1) * cursor_in 4 9 :=
      (if mode =? 1 then
        if zlength code <=? cursor then
          reject code address "truncated MOVDQA store disp8"
        else
        let! byte334 := code_at code cursor in
        let displacement := signed 8 byte334 in
        let cursor := size_add cursor 1 in
        Ok (displacement, cursor)
       else
        if mode =? 2 then
          if size_sub (zlength code) cursor <? 4 then
            reject code address "truncated MOVDQA store disp32"
          else
          let! span335 := subspan code cursor 4 in
          let! displacement := readI32 span335 in
          let cursor := size_add cursor 4 in
          Ok (displacement, cursor)
        else Ok (displacement, cursor)) in
    let instruction := with_opcode X_MovdqaMemReg instruction in
    let! register337 := decodeRegister baseEncoding false in
    let instruction := push_operand (MemoryOp (mkMemory register337 displacement 128 index scale true false
        Segment_None)) instruction in
    let instruction := push_operand (XmmRegisterOperand (Z.land (Z.shiftr modrm 3) 7)) instruction in
    let len := size_sub cursor 0 in
    let instruction := with_length (u8 len) instruction in
    let! instruction := copy_bytes code 0 len instruction in
    Ok (inl instruction)
  else Ok (inr (cursor, instruction)).

Definition decodeSimdMemory_MovdqaRegMem (cursor : Z) (instruction : DecodedInstruction) : outcome Recognition
    :=
  let! byte338 := code_at code cursor in
  let! test344 := (if (byte338 =? 0x66) && (5 <=? size_sub (zlength code) cursor) then (let! byte339 := code_at
      code (size_add cursor 1) in let! test343 := (if (0x40 <=? byte339) && (byte339 <=? 0x4F) then (let!
      byte340 := code_at code (size_add cursor 2) in let! test342 := (if byte340 =? 0xF then (let! byte341 :=
      code_at code (size_add cursor 3) in Ok (byte341 =? 0x6F)) else Ok false) in Ok test342) else Ok false) in
      Ok test343) else Ok false) in
  if test344 then
    let! rex := code_at code (size_add cursor 1) in
    let rexW := negb (Z.land rex 8 =? 0) in
    let rexR := negb (Z.land rex 4 =? 0) in
    let rexX := negb (Z.land rex 2 =? 0) in
    let rexB := negb (Z.land rex 1 =? 0) in
    let! modrm := code_at code (size_add cursor 4) in
    let mode := Z.land (Z.shiftr modrm 6) 3 in
    let rmEncoding := Z.land modrm 7 in
    if rexW || rexX || (mode =? 3) || (rmEncoding =? 4) then
      reject code address "only REX-extended MOVDQA xmm, [base/RIP+disp8/disp32] is supported"
    else
    let ripRelative := (mode =? 0) && (rmEncoding =? 5) && negb rexB in
    let needsDisp32 := (mode =? 2) || ((mode =? 0) && (rmEncoding =? 5)) in
    let operandCursor := size_add cursor 5 in
    let displacement := 0 in
    let! (displacement, operandCursor) : within (- 2 ^ 31) (2 ^ 31 - 1) * cursor_in 5 9 :=
      (if needsDisp32 then
        if size_sub (zlength code) operandCursor <? 4 then
          reject code address "truncated REX MOVDQA load disp32"
        else
        let! span347 := subspan code operandCursor 4 in
        let! displacement := readI32 span347 in
        let operandCursor := size_add operandCursor 4 in
        Ok (displacement, operandCursor)
       else
        if mode =? 1 then
          if zlength code <=? operandCursor then
            reject code address "truncated REX MOVDQA load disp8"
          else
          let! byte349 := code_at code operandCursor in
          let displacement := signed 8 byte349 in
          let operandCursor := size_add operandCursor 1 in
          Ok (displacement, operandCursor)
        else Ok (displacement, operandCursor)) in
    let! _ :=
      (if ripRelative then
        let! _ := relativeTarget address (size_sub operandCursor 0) displacement in
        Ok tt
       else
        Ok tt) in
    let instruction := with_opcode X_MovdqaRegMem instruction in
    let instruction := push_operand (XmmRegisterOperand (Z.lor (Z.land (Z.shiftr modrm 3) 7) (if rexR then 8
        else 0))) instruction in
    let! choice351 : Register := (if ripRelative then Ok Rax else (let! register352 := decodeRegister
        rmEncoding rexB in Ok register352)) in
    let instruction := push_operand (MemoryOp (mkMemory choice351 displacement 128 None 1 (negb ripRelative)
        ripRelative Segment_None)) instruction in
    let len := size_sub operandCursor 0 in
    let instruction := with_length (u8 len) instruction in
    let! instruction := copy_bytes code 0 len instruction in
    Ok (inl instruction)
  else Ok (inr (cursor, instruction)).

Definition decodeSimdMemory_MovdqaRegReg (cursor : Z) (instruction : DecodedInstruction) : outcome Recognition
    :=
  let! byte353 := code_at code cursor in
  let! test357 := (if (byte353 =? 0x66) && (3 <=? size_sub (zlength code) cursor) then (let! byte354 := code_at
      code (size_add cursor 1) in let! test356 := (if byte354 =? 0xF then (let! byte355 := code_at code
      (size_add cursor 2) in Ok (byte355 =? 0x6F)) else Ok false) in Ok test356) else Ok false) in
  if test357 then
    if size_sub (zlength code) cursor <? 4 then
      reject code address "truncated movdqa xmm, [base+disp]"
    else
    let! modrm := code_at code (size_add cursor 3) in
    let mode := Z.land (Z.shiftr modrm 6) 3 in
    let rmEncoding := Z.land modrm 7 in
    if mode =? 3 then
      let instruction := with_opcode X_MovdqaRegReg instruction in
      let instruction := with_length 4 instruction in
      let! instruction := copy_bytes code cursor 4 instruction in
      let instruction := push_operand (XmmRegisterOperand (Z.land (Z.shiftr modrm 3) 7)) instruction in
      let instruction := push_operand (XmmRegisterOperand rmEncoding) instruction in
      Ok (inl instruction)
    else if 2 <? mode then
      reject code address "only MOVDQA xmm, [base/RIP+index*scale+disp] memory operands are supported"
    else
    let ripRelative := (mode =? 0) && (rmEncoding =? 5) in
    let cursor := size_add cursor 4 in
    let baseEncoding := rmEncoding in
    let index := None in
    let scale := 1 in
    let! (cursor, baseEncoding, index, scale) : cursor_in 4 5 * within 0 7 * option Register * one_of [1; 2; 4;
        8] :=
      (if negb ripRelative && (rmEncoding =? 4) then
        if zlength code <=? cursor then
          reject code address "truncated MOVDQA SIB byte"
        else
        let! sib := code_at code cursor in
        let cursor := size_add cursor 1 in
        let scaleBits := Z.land (Z.shiftr sib 6) 3 in
        let indexEncoding := Z.land (Z.shiftr sib 3) 7 in
        let baseEncoding := Z.land sib 7 in
        if (mode =? 0) && (baseEncoding =? 5) then
          reject code address "no-base MOVDQA SIB addressing is not supported"
        else if negb (indexEncoding =? 4) then
          let! register360 := decodeRegister indexEncoding false in
          let index := Some register360 in
          let scale := Z.shiftl 1 scaleBits in
          Ok (cursor, baseEncoding, index, scale)
        else Ok (cursor, baseEncoding, index, scale)
       else
        Ok (cursor, baseEncoding, index, scale)) in
    let displacement := 0 in
    let! (displacement, cursor) : within (- 2 ^ 31) (2 ^ 31 - 1) * cursor_in 4 9 :=
      (if ripRelative || (mode =? 2) then
        if size_sub (zlength code) cursor <? 4 then
          reject code address "truncated MOVDQA memory disp32"
        else
        let! span361 := subspan code cursor 4 in
        let! displacement := readI32 span361 in
        let cursor := size_add cursor 4 in
        Ok (displacement, cursor)
       else
        if mode =? 1 then
          if zlength code <=? cursor then
            reject code address "truncated MOVDQA memory disp8"
          else
          let! byte363 := code_at code cursor in
          let displacement := signed 8 byte363 in
          let cursor := size_add cursor 1 in
          Ok (displacement, cursor)
        else Ok (displacement, cursor)) in
    let! _ :=
      (if ripRelative then
        let! _ := relativeTarget address (size_sub cursor 0) displacement in
        Ok tt
       else
        Ok tt) in
    let instruction := with_opcode X_MovdqaRegMem instruction in
    let instruction := push_operand (XmmRegisterOperand (Z.land (Z.shiftr modrm 3) 7)) instruction in
    let! choice365 : Register := (if ripRelative then Ok Rax else (let! register366 := decodeRegister
        baseEncoding false in Ok register366)) in
    let instruction := push_operand (MemoryOp (mkMemory choice365 displacement 128 index scale (negb
        ripRelative) ripRelative Segment_None)) instruction in
    let len := size_sub cursor 0 in
    let instruction := with_length (u8 len) instruction in
    let! instruction := copy_bytes code 0 len instruction in
    Ok (inl instruction)
  else Ok (inr (cursor, instruction)).

Definition decodeSimdMemory (cursor : Z) (instruction : DecodedInstruction) : outcome Recognition :=
  next! (cursor, instruction) := decodeSimdMemory_MovsdRegMem cursor instruction in
  next! (cursor, instruction) := decodeSimdMemory_MovlpsRegMem cursor instruction in
  next! (cursor, instruction) := decodeSimdMemory_Cvttsd2siRegXmm cursor instruction in
  next! (cursor, instruction) := decodeSimdMemory_Cvtsi2sdXmmReg cursor instruction in
  next! (cursor, instruction) := decodeSimdMemory_Cvtss2sdXmmReg cursor instruction in
  next! (cursor, instruction) := decodeSimdMemory_SqrtsdXmmReg cursor instruction in
  next! (cursor, instruction) := decodeSimdMemory_MovddupRegReg cursor instruction in
  next! (cursor, instruction) := decodeSimdMemory_Cvtdq2pdXmmReg cursor instruction in
  next! (cursor, instruction) := decodeSimdMemory_MovssXmmXmm cursor instruction in
  next! (cursor, instruction) := decodeSimdMemory_MovqXmmMem cursor instruction in
  next! (cursor, instruction) := decodeSimdMemory_PmovmskbRegXmm cursor instruction in
  next! (cursor, instruction) := decodeSimdMemory_MovapdMemReg cursor instruction in
  next! (cursor, instruction) := decodeSimdMemory_MovupsMemReg cursor instruction in
  next! (cursor, instruction) := decodeSimdMemory_MovapdRegReg cursor instruction in
  next! (cursor, instruction) := decodeSimdMemory_PextrdRegXmmImm cursor instruction in
  next! (cursor, instruction) := decodeSimdMemory_PblendwRegRegImm cursor instruction in
  next! (cursor, instruction) := decodeSimdMemory_PinsrdXmmReg cursor instruction in
  next! (cursor, instruction) := decodeSimdMemory_PinsrdXmmReg_2 cursor instruction in
  next! (cursor, instruction) := decodeSimdMemory_PinsrbXmmMem cursor instruction in
  next! (cursor, instruction) := decodeSimdMemory_PalignrRegRegImm cursor instruction in
  next! (cursor, instruction) := decodeSimdMemory_MovdqaMemReg cursor instruction in
  next! (cursor, instruction) := decodeSimdMemory_MovdqaRegMem cursor instruction in
  decodeSimdMemory_MovdqaRegReg cursor instruction.

End Decode.
