(* ===== verification/DecodeGeneral.v ===== *)
(** Recognition family [decodeGeneral] ([src/x86/DecodeGeneral.cpp]): every instruction without a form of its own: the prefixes, the REX byte and the one-byte and 0F opcodes.

    Each definition is one group of statements of the C++ function, in its order; it
    recognises an instruction ([inl]), rejects the bytes, or leaves the cursor and the
    instruction to the next group ([inr]). *)
From S2P Require Import Prelude X86State ExecutionContext IR X86Instruction DecodeBase.

Section Decode.
Context (code : list Z) (address : Z).

Definition decodeGeneral_requireRex (cursor : Z) (hasRex : bool) (instruction : DecodedInstruction) : outcome
    Recognition :=
  let! test5 := (if negb hasRex then (let! byte4 := code_at code cursor in Ok (negb (byte4 =? 5) && negb (byte4
      =? 0x24) && negb (byte4 =? 0x25) && negb (byte4 =? 0x34) && negb (byte4 =? 0) && negb (byte4 =? 1) &&
      negb (byte4 =? 2) && negb (byte4 =? 3) && negb (byte4 =? 0x10) && negb (byte4 =? 0x11) && negb (byte4 =?
      0x19) && negb (byte4 =? 0x1C) && negb (byte4 =? 0xC) && negb (byte4 =? 0x88) && negb (byte4 =? 0x89) &&
      negb (byte4 =? 0x8A) && negb (byte4 =? 0x8B) && negb (byte4 =? 0x8D) && negb (byte4 =? 0x85) && negb
      (byte4 =? 0x83) && negb (byte4 =? 0x84) && negb (byte4 =? 0x30) && negb (byte4 =? 0x31) && negb (byte4 =?
      0x32) && negb (byte4 =? 0x20) && negb (byte4 =? 0x21) && negb (byte4 =? 0x22) && negb (byte4 =? 0x23) &&
      negb (byte4 =? 8) && negb (byte4 =? 9) && negb (byte4 =? 0xA) && negb (byte4 =? 0xB) && negb (byte4 =?
      0x2D) && negb (byte4 =? 0x69) && negb (byte4 =? 0x6B) && negb (byte4 =? 0x86) && negb (byte4 =? 0x87) &&
      negb (byte4 =? 0x28) && negb (byte4 =? 0x29) && negb (byte4 =? 0x2B) && negb (byte4 =? 0x33) && negb
      (byte4 =? 0x38) && negb (byte4 =? 0x39) && negb (byte4 =? 0x3A) && negb (byte4 =? 0x3B) && negb (byte4 =?
      0x80) && negb (byte4 =? 0x81) && negb (byte4 =? 0xC0) && negb (byte4 =? 0xC1) && negb (byte4 =? 0x98) &&
      negb (byte4 =? 0xC6) && negb (byte4 =? 0xC7) && negb (byte4 =? 0xD0) && negb (byte4 =? 0xD1) && negb
      (byte4 =? 0xD2) && negb (byte4 =? 0xD3) && negb (byte4 =? 0xF7) && negb (byte4 =? 0xFE) && negb (byte4 =?
      0xFF))) else Ok false) in
  if test5 then
    reject code address "expected REX prefix"
  else Ok (inr (cursor, instruction)).

Definition decodeGeneral_requireRexW (cursor : Z) (rexW : bool) (opcode : Z) (instruction : DecodedInstruction)
    : outcome Recognition :=
  if negb rexW && negb (opcode =? 5) && negb (opcode =? 0xD) && negb (opcode =? 0x24) && negb (opcode =? 0x25)
      && negb (opcode =? 0x34) && negb (opcode =? 0) && negb (opcode =? 1) && negb (opcode =? 2) && negb
      (opcode =? 3) && negb (opcode =? 0x11) && negb (opcode =? 0x19) && negb (opcode =? 0x1C) && negb (opcode
      =? 0xC) && negb (opcode =? 0x88) && negb (opcode =? 0x89) && negb (opcode =? 0x8A) && negb (opcode =?
      0x8B) && negb (opcode =? 0x85) && negb (opcode =? 0x8D) && negb (opcode =? 8) && negb (opcode =? 9) &&
      negb (opcode =? 0xA) && negb (opcode =? 0xB) && negb (opcode =? 0x2D) && negb (opcode =? 0x69) && negb
      (opcode =? 0x6B) && negb (opcode =? 0x86) && negb (opcode =? 0x87) && negb (opcode =? 0x84) && negb
      (opcode =? 0x83) && negb (opcode =? 0x3B) && negb (opcode =? 0x3A) && negb (opcode =? 0x30) && negb
      (opcode =? 0x31) && negb (opcode =? 0x32) && negb (opcode =? 0x38) && negb (opcode =? 0x39) && negb
      (opcode =? 0x80) && negb (opcode =? 0x28) && negb (opcode =? 0x29) && negb (opcode =? 0x2B) && negb
      (opcode =? 0x33) && negb (opcode =? 0x20) && negb (opcode =? 0x21) && negb (opcode =? 0x22) && negb
      (opcode =? 0x23) && negb (opcode =? 0xF) && negb (opcode =? 0x81) && negb (opcode =? 0xC0) && negb
      (opcode =? 0xC1) && negb (opcode =? 0x98) && negb (opcode =? 0xC6) && negb (opcode =? 0xC7) && negb
      (opcode =? 0xD0) && negb (opcode =? 0xD1) && negb (opcode =? 0xD2) && negb (opcode =? 0xD3) && negb
      (opcode =? 0xF7) && negb (opcode =? 0xFE) && negb (opcode =? 0xFF) && ((opcode <? 0xB0) || (0xB7 <?
      opcode)) && ((opcode <? 0xB8) || (0xBF <? opcode)) then
    reject code address "only a 32-bit memory MOV is supported without REX.W"
  else Ok (inr (cursor, instruction)).

Definition decodeGeneral_ImulRegRegImm (cursor : Z) (rexW : bool) (rexB : bool) (rexX : bool) (rexR : bool)
    (instruction : DecodedInstruction) : outcome Recognition :=
  if zlength code <=? cursor then
    reject code address "truncated IMUL ModRM byte"
  else
  let! modrm := code_at code cursor in
  let cursor := size_add cursor 1 in
  let mode := Z.land (Z.shiftr modrm 6) 3 in
  let width := if rexW then 64 else 32 in
  let! register34 := decodeRegister (Z.land (Z.shiftr modrm 3) 7) rexR in
  let instruction := push_operand (RegisterOperand register34 width 0) instruction in
  let! (instruction, cursor) : DecodedInstruction * Z :=
    (if mode =? 3 then
      let instruction := with_opcode X_ImulRegRegImm instruction in
      let! register35 := decodeRegister (Z.land modrm 7) rexB in
      let instruction := push_operand (RegisterOperand register35 width 0) instruction in
      Ok (instruction, cursor)
     else
      let rmEncoding := Z.land modrm 7 in
      if (rmEncoding =? 4) || rexX then
        reject code address "SIB-addressed IMUL memory source is not yet supported"
      else
      let ripRelative := (mode =? 0) && (rmEncoding =? 5) in
      let displacement := 0 in
      let! (displacement, cursor) : within (- 2 ^ 31) (2 ^ 31 - 1) * Z :=
        (if mode =? 1 then
          if zlength code <=? cursor then
            reject code address "truncated IMUL disp8"
          else
          let! byte36 := code_at code cursor in
          let displacement := signed 8 byte36 in
          let cursor := size_add cursor 1 in
          Ok (displacement, cursor)
         else
          if (mode =? 2) || ripRelative then
            if size_sub (zlength code) cursor <? 4 then
              reject code address "truncated IMUL disp32"
            else
            let! span37 := subspan code cursor 4 in
            let! displacement := readI32 span37 in
            let cursor := size_add cursor 4 in
            Ok (displacement, cursor)
          else Ok (displacement, cursor)) in
      let instruction := with_opcode X_ImulRegMemImm instruction in
      let! choice39 : Register := (if ripRelative then Ok Rax else (let! register40 := decodeRegister
          rmEncoding rexB in Ok register40)) in
      let instruction := push_operand (MemoryOp (mkMemory choice39 displacement width None 1 (negb ripRelative)
          ripRelative Segment_None)) instruction in
      Ok (instruction, cursor)) in
  if size_sub (zlength code) cursor <? 4 then
    reject code address "truncated IMUL imm32"
  else
  let! span41 := subspan code cursor 4 in
  let! immediate := readI32 span41 in
  let cursor := size_add cursor 4 in
  let instruction := push_operand (ImmediateOperand (if rexW then u64 immediate else u32 immediate) 32)
      instruction in
  Ok (inr (cursor, instruction)).

Definition decodeGeneral_BitTestMemImm_2 (cursor : Z) (rexW : bool) (rexB : bool) (rexX : bool) (mode : Z)
    (rmEncoding : Z) (instruction : DecodedInstruction) : outcome Recognition :=
  let width := if rexW then 64 else 32 in
  let baseEncoding := rmEncoding in
  let index := None in
  let scale := 1 in
  let! (cursor, baseEncoding, index, scale) : cursor_in 3 7 * within 0 7 * option Register * one_of [1; 2; 4;
      8] :=
    (if rmEncoding =? 4 then
      if zlength code <=? cursor then
        reject code address "truncated BT memory SIB byte"
      else
      let! sib := code_at code cursor in
      let cursor := size_add cursor 1 in
      let scaleBits := Z.land (Z.shiftr sib 6) 3 in
      let indexEncoding := Z.land (Z.shiftr sib 3) 7 in
      let baseEncoding := Z.land sib 7 in
      if (mode =? 0) && (baseEncoding =? 5) then
        reject code address "no-base BT memory SIB is not supported"
      else if negb (indexEncoding =? 4) || rexX then
        let! register52 := decodeRegister indexEncoding rexX in
        let index := Some register52 in
        let scale := Z.shiftl 1 scaleBits in
        Ok (cursor, baseEncoding, index, scale)
      else Ok (cursor, baseEncoding, index, scale)
     else
      Ok (cursor, baseEncoding, index, scale)) in
  let displacement := 0 in
  let! (displacement, cursor) : within (- 2 ^ 31) (2 ^ 31 - 1) * cursor_in 3 11 :=
    (if mode =? 1 then
      if zlength code <=? cursor then
        reject code address "truncated BT memory disp8"
      else
      let! byte53 := code_at code cursor in
      let displacement := signed 8 byte53 in
      let cursor := size_add cursor 1 in
      Ok (displacement, cursor)
     else
      if mode =? 2 then
        if size_sub (zlength code) cursor <? 4 then
          reject code address "truncated BT memory disp32"
        else
        let! span54 := subspan code cursor 4 in
        let! displacement := readI32 span54 in
        let cursor := size_add cursor 4 in
        Ok (displacement, cursor)
      else Ok (displacement, cursor)) in
  if zlength code <=? cursor then
    reject code address "truncated BT memory imm8"
  else
  let instruction := with_opcode X_BitTestMemImm instruction in
  let! register56 := decodeRegister baseEncoding rexB in
  let instruction := push_operand (MemoryOp (mkMemory register56 displacement width index scale true false
      Segment_None)) instruction in
  let! byte57 := code_at code cursor in
  let instruction := push_operand (ImmediateOperand byte57 8) instruction in
  let cursor := size_add cursor 1 in
  let memoryLength := size_sub cursor 0 in
  let instruction := with_length (u8 memoryLength) instruction in
  let! instruction := copy_bytes code 0 memoryLength instruction in
  Ok (inl instruction).

Definition decodeGeneral_BitTestMemImm (cursor : Z) (rexW : bool) (rexB : bool) (rexX : bool) (rexR : bool)
    (mode : Z) (rmEncoding : Z) (isBtMemory : bool) (rawReg : Z) (encodedRm : Register) (instruction :
    DecodedInstruction) : outcome Recognition :=
  if (negb (rawReg =? 4) && negb (rawReg =? 5) && negb (rawReg =? 6)) || rexR || rexX then
    reject code address "only register-direct BT/BTS/BTR r32/r64, imm8 is supported from 0F BA"
  else if isBtMemory then
    decodeGeneral_BitTestMemImm_2 cursor rexW rexB rexX mode rmEncoding instruction
  else
  let instruction := with_opcode (if rawReg =? 4 then X_BitTestRegImm else if rawReg =? 5 then X_BitSetRegImm
      else X_BitResetRegImm) instruction in
  let instruction := push_operand (RegisterOperand encodedRm (if rexW then 64 else 32) 0) instruction in
  let! byte58 := code_at code cursor in
  let instruction := push_operand (ImmediateOperand byte58 8) instruction in
  let cursor := size_add cursor 1 in
  Ok (inr (cursor, instruction)).

Definition decodeGeneral_MovsxRegMem (cursor : Z) (rexW : bool) (rexB : bool) (rexX : bool) (mode : Z)
    (rmEncoding : Z) (isMovsxMemory : bool) (encodedReg : Register) (encodedRm : Register) (instruction :
    DecodedInstruction) : outcome Recognition :=
  if isMovsxMemory then
    let baseEncoding := rmEncoding in
    let index := None in
    let scale := 1 in
    let! (cursor, baseEncoding, index, scale) : cursor_in 3 7 * within 0 7 * option Register * one_of [1; 2; 4;
        8] :=
      (if rmEncoding =? 4 then
        if zlength code <=? cursor then
          reject code address "truncated MOVSX byte SIB"
        else
        let! sib := code_at code cursor in
        let cursor := size_add cursor 1 in
        let scaleBits := Z.land (Z.shiftr sib 6) 3 in
        let indexEncoding := Z.land (Z.shiftr sib 3) 7 in
        let baseEncoding := Z.land sib 7 in
        if (mode =? 0) && (baseEncoding =? 5) && negb rexB then
          reject code address "no-base MOVSX byte SIB is not supported"
        else if negb (indexEncoding =? 4) || rexX then
          let! register60 := decodeRegister indexEncoding rexX in
          let index := Some register60 in
          let scale := Z.shiftl 1 scaleBits in
          Ok (cursor, baseEncoding, index, scale)
        else Ok (cursor, baseEncoding, index, scale)
       else
        Ok (cursor, baseEncoding, index, scale)) in
    let displacement := 0 in
    let! (displacement, cursor) : within (- 2 ^ 31) (2 ^ 31 - 1) * cursor_in 3 11 :=
      (if mode =? 1 then
        if zlength code <=? cursor then
          reject code address "truncated MOVSX r64 byte disp8"
        else
        let! byte61 := code_at code cursor in
        let displacement := signed 8 byte61 in
        let cursor := size_add cursor 1 in
        Ok (displacement, cursor)
       else
        if mode =? 2 then
          if size_sub (zlength code) cursor <? 4 then
            reject code address "truncated MOVSX r64 byte disp32"
          else
          let! span62 := subspan code cursor 4 in
          let! displacement := readI32 span62 in
          let cursor := size_add cursor 4 in
          Ok (displacement, cursor)
        else Ok (displacement, cursor)) in
    let instruction := with_opcode X_MovsxRegMem instruction in
    let instruction := push_operand (RegisterOperand encodedReg (if rexW then 64 else 32) 0) instruction in
    let! choice64 : Register := (if rmEncoding =? 4 then (let! register65 := decodeRegister baseEncoding rexB
        in Ok register65) else Ok encodedRm) in
    let instruction := push_operand (MemoryOp (mkMemory choice64 displacement 8 index scale true false
        Segment_None)) instruction in
    Ok (inr (cursor, instruction))
  else if rexX then
    reject code address "only register-direct MOVSX r32/r64, r8 is supported from REX 0F BE"
  else
  let instruction := with_opcode X_MovsxRegReg instruction in
  let instruction := push_operand (RegisterOperand encodedReg (if rexW then 64 else 32) 0) instruction in
  let instruction := push_operand (RegisterOperand encodedRm 8 0) instruction in
  Ok (inr (cursor, instruction)).

Definition decodeGeneral_CmovccRegMem (cursor : Z) (rexW : bool) (rexB : bool) (secondOpcode : Z) (mode : Z)
    (rmEncoding : Z) (isCmovMemory : bool) (encodedReg : Register) (encodedRm : Register) (instruction :
    DecodedInstruction) : outcome Recognition :=
  let instruction := with_condition (if secondOpcode =? 0x42 then Cond_Below else if secondOpcode =? 0x43 then
      Cond_AboveOrEqual else if secondOpcode =? 0x45 then Cond_NotEqual else if secondOpcode =? 0x46 then
      Cond_BelowOrEqual else if secondOpcode =? 0x47 then Cond_Above else if secondOpcode =? 0x48 then
      Cond_Sign else if secondOpcode =? 0x49 then Cond_NotSign else if secondOpcode =? 0x4E then
      Cond_LessOrEqual else if secondOpcode =? 0x4F then Cond_Greater else if secondOpcode =? 0x4C then
      Cond_Less else if secondOpcode =? 0x4D then Cond_GreaterOrEqual else if secondOpcode =? 0x40 then
      Cond_Overflow else Cond_Equal) instruction in
  let width := if rexW then 64 else 32 in
  let instruction := push_operand (RegisterOperand encodedReg width 0) instruction in
  if isCmovMemory then
    if (rmEncoding =? 4) || ((mode =? 0) && (rmEncoding =? 5)) then
      reject code address "only CMOV register, [base+disp8/disp32] memory operands are supported"
    else
    let displacement := 0 in
    let! (displacement, cursor) : within (- 2 ^ 31) (2 ^ 31 - 1) * cursor_in 3 10 :=
      (if mode =? 1 then
        if zlength code <=? cursor then
          reject code address "truncated CMOV memory disp8"
        else
        let! byte66 := code_at code cursor in
        let displacement := signed 8 byte66 in
        let cursor := size_add cursor 1 in
        Ok (displacement, cursor)
       else
        if mode =? 2 then
          if size_sub (zlength code) cursor <? 4 then
            reject code address "truncated CMOV memory disp32"
          else
          let! span67 := subspan code cursor 4 in
          let! displacement := readI32 span67 in
          let cursor := size_add cursor 4 in
          Ok (displacement, cursor)
        else Ok (displacement, cursor)) in
    let instruction := with_opcode X_CmovccRegMem instruction in
    let! register69 := decodeRegister rmEncoding rexB in
    let instruction := push_operand (MemoryOp (mkMemory register69 displacement width None 1 true false
        Segment_None)) instruction in
    Ok (inr (cursor, instruction))
  else
  let instruction := with_opcode X_CmovccReg instruction in
  let instruction := push_operand (RegisterOperand encodedRm width 0) instruction in
  Ok (inr (cursor, instruction)).

Definition decodeGeneral_BitTestRegReg (cursor : Z) (rexW : bool) (rexB : bool) (rexX : bool) (rexR : bool)
    (instruction : DecodedInstruction) : outcome Recognition :=
  if zlength code <=? cursor then
    reject code address "truncated 0F opcode"
  else
  let! secondOpcode := code_at code cursor in
  let cursor := size_add cursor 1 in
  if negb (secondOpcode =? 0x40) && negb (secondOpcode =? 0x42) && negb (secondOpcode =? 0x43) && negb
      (secondOpcode =? 0x44) && negb (secondOpcode =? 0x45) && negb (secondOpcode =? 0x46) && negb
      (secondOpcode =? 0x47) && negb (secondOpcode =? 0x48) && negb (secondOpcode =? 0x49) && negb
      (secondOpcode =? 0x4C) && negb (secondOpcode =? 0x4D) && negb (secondOpcode =? 0x4E) && negb
      (secondOpcode =? 0x4F) && negb (secondOpcode =? 0xA3) && negb (secondOpcode =? 0xAB) && negb
      (secondOpcode =? 0xA4) && negb (secondOpcode =? 0xBA) && negb (secondOpcode =? 0xBE) && negb
      (secondOpcode =? 0xAC) && negb (secondOpcode =? 0xAF) && negb (secondOpcode =? 0xBC) && negb
      (secondOpcode =? 0xBD) then
    reject code address "only CMOVO/CMOVB/CMOVAE/CMOVE/CMOVNE/CMOVA/CMOVS/CMOVNS/CMOVL/CMOVGE/CMOVLE/CMOVG, BT/BTS, MOVSX, IMUL, SHLD, SHRD, BSF, and BSR register forms are supported from REX 0F"
  else
  let isConditionalMove := (secondOpcode =? 0x40) || (secondOpcode =? 0x42) || (secondOpcode =? 0x43) ||
      (secondOpcode =? 0x44) || (secondOpcode =? 0x45) || (secondOpcode =? 0x46) || (secondOpcode =? 0x47) ||
      (secondOpcode =? 0x48) || (secondOpcode =? 0x49) || (secondOpcode =? 0x4C) || (secondOpcode =? 0x4D) ||
      (secondOpcode =? 0x4E) || (secondOpcode =? 0x4F) in
  if negb rexW && negb isConditionalMove && negb (secondOpcode =? 0xBA) && negb (secondOpcode =? 0xA3) && negb
      (secondOpcode =? 0xAB) && negb (secondOpcode =? 0xBE) && negb (secondOpcode =? 0xAF) && negb
      (secondOpcode =? 0xBC) && negb (secondOpcode =? 0xBD) then
    reject code address "only 32-bit register CMOV, BT/BTS, MOVSX, IMUL, BSF, or BSR is supported from non-W REX 0F"
  else if (zlength code <=? cursor) || (((secondOpcode =? 0xA4) || (secondOpcode =? 0xAC) || (secondOpcode =?
      0xBA)) && (size_sub (zlength code) cursor <? 2)) then
    reject code address (if secondOpcode =? 0xA4 then "truncated SHLD r64"%string else if secondOpcode =? 0xAC
        then "truncated SHRD r64"%string else if secondOpcode =? 0xBA then "truncated BT register, imm8"%string
        else if secondOpcode =? 0xAF then "truncated IMUL r64"%string else if secondOpcode =? 0xBC then
        "truncated BSF r64"%string else if secondOpcode =? 0xBD then "truncated BSR r64"%string else
        "truncated CMOVB r64"%string)
  else
  let! modrm := code_at code cursor in
  let cursor := size_add cursor 1 in
  let mode := Z.land (Z.shiftr modrm 6) 3 in
  let rmEncoding := Z.land modrm 7 in
  let isImulRipMemory := (secondOpcode =? 0xAF) && rexW && (mode =? 0) && (rmEncoding =? 5) && negb rexB &&
      negb rexX in
  let isMovsxMemory := (secondOpcode =? 0xBE) && negb (mode =? 3) && negb ((mode =? 0) && (rmEncoding =? 5)) in
  let isCmovMemory := isConditionalMove && negb (mode =? 3) in
  let isBtMemory := (secondOpcode =? 0xBA) && (Z.land (Z.shiftr modrm 3) 7 =? 4) && negb (mode =? 3) && negb
      ((mode =? 0) && (rmEncoding =? 5)) in
  if (negb isImulRipMemory && negb isMovsxMemory && negb isCmovMemory && negb isBtMemory && negb (mode =? 3))
      || (rexX && negb (secondOpcode =? 0xBA) && negb isMovsxMemory) then
    reject code address "only register-direct CMOVO/CMOVB/CMOVAE/CMOVE/CMOVNE/CMOVA/CMOVS/CMOVNS/CMOVL/CMOVGE/CMOVLE/BT/BTS/MOVSX/IMUL/SHLD/SHRD/BSF/BSR and based BT m32/m64, imm8 are supported"
  else
  let rawReg := Z.land (Z.shiftr modrm 3) 7 in
  let! encodedReg := decodeRegister rawReg rexR in
  let! encodedRm := decodeRegister rmEncoding rexB in
  if secondOpcode =? 0xA3 then
    let width := if rexW then 64 else 32 in
    let instruction := with_opcode X_BitTestRegReg instruction in
    let instruction := push_operand (RegisterOperand encodedRm width 0) instruction in
    let instruction := push_operand (RegisterOperand encodedReg width 0) instruction in
    Ok (inr (cursor, instruction))
  else if secondOpcode =? 0xAB then
    let width := if rexW then 64 else 32 in
    let instruction := with_opcode X_BitSetRegReg instruction in
    let instruction := push_operand (RegisterOperand encodedRm width 0) instruction in
    let instruction := push_operand (RegisterOperand encodedReg width 0) instruction in
    Ok (inr (cursor, instruction))
  else if secondOpcode =? 0xBA then
    decodeGeneral_BitTestMemImm cursor rexW rexB rexX rexR mode rmEncoding isBtMemory rawReg encodedRm
        instruction
  else if secondOpcode =? 0xBE then
    decodeGeneral_MovsxRegMem cursor rexW rexB rexX mode rmEncoding isMovsxMemory encodedReg encodedRm
        instruction
  else if isConditionalMove then
    decodeGeneral_CmovccRegMem cursor rexW rexB secondOpcode mode rmEncoding isCmovMemory encodedReg encodedRm
        instruction
  else if secondOpcode =? 0xBC then
    let instruction := with_opcode X_BitScanForwardRegReg instruction in
    let width := if rexW then 64 else 32 in
    let instruction := push_operand (RegisterOperand encodedReg width 0) instruction in
    let instruction := push_operand (RegisterOperand encodedRm width 0) instruction in
    Ok (inr (cursor, instruction))
  else if secondOpcode =? 0xBD then
    let instruction := with_opcode X_BitScanReverseRegReg instruction in
    let width := if rexW then 64 else 32 in
    let instruction := push_operand (RegisterOperand encodedReg width 0) instruction in
    let instruction := push_operand (RegisterOperand encodedRm width 0) instruction in
    Ok (inr (cursor, instruction))
  else if secondOpcode =? 0xAF then
    let width := if rexW then 64 else 32 in
    let instruction := push_operand (RegisterOperand encodedReg width 0) instruction in
    if isImulRipMemory then
      if size_sub (zlength code) cursor <? 4 then
        reject code address "truncated IMUL RIP displacement"
      else
      let! span70 := subspan code cursor 4 in
      let! displacement := readI32 span70 in
      let cursor := size_add cursor 4 in
      let! _ := relativeTarget address (size_sub cursor 0) displacement in
      let instruction := with_opcode X_ImulRegMem instruction in
      let instruction := push_operand (MemoryOp (mkMemory Rax displacement 64 None 1 false true Segment_None))
          instruction in
      Ok (inr (cursor, instruction))
    else
    let instruction := with_opcode X_ImulRegReg instruction in
    let instruction := push_operand (RegisterOperand encodedRm width 0) instruction in
    Ok (inr (cursor, instruction))
  else if secondOpcode =? 0xA4 then
    let instruction := with_opcode X_ShldRegRegImm instruction in
    let instruction := push_operand (RegisterOperand encodedRm 64 0) instruction in
    let instruction := push_operand (RegisterOperand encodedReg 64 0) instruction in
    let! byte73 := code_at code cursor in
    let instruction := push_operand (ImmediateOperand byte73 8) instruction in
    let cursor := size_add cursor 1 in
    Ok (inr (cursor, instruction))
  else
  let instruction := with_opcode X_ShrdRegRegImm instruction in
  let instruction := push_operand (RegisterOperand encodedRm 64 0) instruction in
  let instruction := push_operand (RegisterOperand encodedReg 64 0) instruction in
  let! byte74 := code_at code cursor in
  let instruction := push_operand (ImmediateOperand byte74 8) instruction in
  let cursor := size_add cursor 1 in
  Ok (inr (cursor, instruction)).

Definition decodeGeneral_AddRegReg (cursor : Z) (hasRex : bool) (rexB : bool) (rexX : bool) (rexR : bool)
    (instruction : DecodedInstruction) : outcome Recognition :=
  if size_sub (zlength code) cursor <? 1 then
    reject code address "truncated add r8, r8"
  else
  let! modrm := code_at code cursor in
  let cursor := size_add cursor 1 in
  let mode := Z.land (Z.shiftr modrm 6) 3 in
  let sourceEncoding := Z.land (Z.shiftr modrm 3) 7 in
  let destinationEncoding := Z.land modrm 7 in
  if mode =? 3 then
    if negb hasRex && ((4 <=? sourceEncoding) || (4 <=? destinationEncoding)) then
      reject code address "only representable register-direct ADD r8, r8 is supported"
    else
    let instruction := with_opcode X_AddRegReg instruction in
    let! register76 := decodeRegister destinationEncoding rexB in
    let instruction := push_operand (RegisterOperand register76 8 0) instruction in
    let! register77 := decodeRegister sourceEncoding rexR in
    let instruction := push_operand (RegisterOperand register77 8 0) instruction in
    Ok (inr (cursor, instruction))
  else if (negb hasRex && (4 <=? sourceEncoding)) || ((mode =? 0) && (destinationEncoding =? 5)) then
    reject code address "only ADD byte [base+index*scale+disp8/disp32], low-byte-register is supported"
  else
  let! base := decodeRegister destinationEncoding rexB in
  let index := None in
  let scale := 1 in
  let! (cursor, base, index, scale) : cursor_in 2 6 * Register * option Register * one_of [1; 2; 4; 8] :=
    (if destinationEncoding =? 4 then
      if zlength code <=? cursor then
        reject code address "truncated ADD byte memory SIB"
      else
      let! sib := code_at code cursor in
      let cursor := size_add cursor 1 in
      let scaleBits := Z.land (Z.shiftr sib 6) 3 in
      let indexEncoding := Z.land (Z.shiftr sib 3) 7 in
      let baseEncoding := Z.land sib 7 in
      if (mode =? 0) && (baseEncoding =? 5) then
        reject code address "no-base ADD byte SIB is not supported"
      else
      let! base := decodeRegister baseEncoding rexB in
      if negb (indexEncoding =? 4) || rexX then
        let! register81 := decodeRegister indexEncoding rexX in
        let index := Some register81 in
        let scale := Z.shiftl 1 scaleBits in
        Ok (cursor, base, index, scale)
      else Ok (cursor, base, index, scale)
     else
      if rexX then
        reject code address "REX.X requires an ADD byte memory SIB"
      else Ok (cursor, base, index, scale)) in
  let displacement := 0 in
  let! (displacement, cursor) : within (- 2 ^ 31) (2 ^ 31 - 1) * cursor_in 2 10 :=
    (if mode =? 1 then
      if zlength code <=? cursor then
        reject code address "truncated ADD byte disp8"
      else
      let! byte82 := code_at code cursor in
      let displacement := signed 8 byte82 in
      let cursor := size_add cursor 1 in
      Ok (displacement, cursor)
     else
      if mode =? 2 then
        if size_sub (zlength code) cursor <? 4 then
          reject code address "truncated ADD byte disp32"
        else
        let! span83 := subspan code cursor 4 in
        let! displacement := readI32 span83 in
        let cursor := size_add cursor 4 in
        Ok (displacement, cursor)
      else Ok (displacement, cursor)) in
  let instruction := with_opcode X_AddMemReg instruction in
  let instruction := push_operand (MemoryOp (mkMemory base displacement 8 index scale true false Segment_None))
      instruction in
  let! register85 := decodeRegister sourceEncoding rexR in
  let instruction := push_operand (RegisterOperand register85 8 0) instruction in
  Ok (inr (cursor, instruction)).

Definition decodeGeneral_AddRegMem (cursor : Z) (hasRex : bool) (rexB : bool) (rexX : bool) (rexR : bool)
    (instruction : DecodedInstruction) : outcome Recognition :=
  if size_sub (zlength code) cursor <? 1 then
    reject code address "truncated add r8, byte [memory]"
  else
  let! modrm := code_at code cursor in
  let cursor := size_add cursor 1 in
  let mode := Z.land (Z.shiftr modrm 6) 3 in
  let destinationEncoding := Z.land (Z.shiftr modrm 3) 7 in
  let rmEncoding := Z.land modrm 7 in
  if (mode =? 3) || (negb hasRex && (4 <=? destinationEncoding)) || ((mode =? 0) && (rmEncoding =? 5)) then
    reject code address "only ADD r8, byte [base+index*scale+disp8/disp32] is supported"
  else
  let! base := decodeRegister rmEncoding rexB in
  let index := None in
  let scale := 1 in
  let! (cursor, base, index, scale) : cursor_in 2 6 * Register * option Register * one_of [1; 2; 4; 8] :=
    (if rmEncoding =? 4 then
      if zlength code <=? cursor then
        reject code address "truncated ADD byte memory SIB"
      else
      let! sib := code_at code cursor in
      let cursor := size_add cursor 1 in
      let scaleBits := Z.land (Z.shiftr sib 6) 3 in
      let indexEncoding := Z.land (Z.shiftr sib 3) 7 in
      let baseEncoding := Z.land sib 7 in
      if (mode =? 0) && (baseEncoding =? 5) then
        reject code address "no-base ADD byte SIB is not supported"
      else
      let! base := decodeRegister baseEncoding rexB in
      if negb (indexEncoding =? 4) || rexX then
        let! register90 := decodeRegister indexEncoding rexX in
        let index := Some register90 in
        let scale := Z.shiftl 1 scaleBits in
        Ok (cursor, base, index, scale)
      else Ok (cursor, base, index, scale)
     else
      Ok (cursor, base, index, scale)) in
  let displacement := 0 in
  let! (displacement, cursor) : within (- 2 ^ 31) (2 ^ 31 - 1) * cursor_in 2 10 :=
    (if mode =? 1 then
      if zlength code <=? cursor then
        reject code address "truncated ADD byte memory disp8"
      else
      let! byte91 := code_at code cursor in
      let displacement := signed 8 byte91 in
      let cursor := size_add cursor 1 in
      Ok (displacement, cursor)
     else
      if mode =? 2 then
        if size_sub (zlength code) cursor <? 4 then
          reject code address "truncated ADD byte memory disp32"
        else
        let! span92 := subspan code cursor 4 in
        let! displacement := readI32 span92 in
        let cursor := size_add cursor 4 in
        Ok (displacement, cursor)
      else Ok (displacement, cursor)) in
  let instruction := with_opcode X_AddRegMem instruction in
  let! register94 := decodeRegister destinationEncoding rexR in
  let instruction := push_operand (RegisterOperand register94 8 0) instruction in
  let instruction := push_operand (MemoryOp (mkMemory base displacement 8 index scale true false Segment_None))
      instruction in
  Ok (inr (cursor, instruction)).

Definition decodeGeneral_AdcRegMem (cursor : Z) (rexB : bool) (rexX : bool) (mode : Z) (rmEncoding : Z)
    (destination : Register) (width : Z) (instruction : DecodedInstruction) : outcome Recognition :=
  let ripRelative := (mode =? 0) && (rmEncoding =? 5) && negb rexB in
  if (2 <? mode) || ((mode =? 0) && (rmEncoding =? 5) && rexB) then
    reject code address "only ADC r32/r64 with based, indexed, or RIP-relative memory operands is supported"
  else
  let! base := decodeRegister rmEncoding rexB in
  let index := None in
  let scale := 1 in
  let! (cursor, base, index, scale) : cursor_in 2 6 * Register * option Register * one_of [1; 2; 4; 8] :=
    (if negb ripRelative && (rmEncoding =? 4) then
      if zlength code <=? cursor then
        reject code address "truncated ADC memory SIB"
      else
      let! sib := code_at code cursor in
      let cursor := size_add cursor 1 in
      let scaleBits := Z.land (Z.shiftr sib 6) 3 in
      let indexEncoding := Z.land (Z.shiftr sib 3) 7 in
      let baseEncoding := Z.land sib 7 in
      if (mode =? 0) && (baseEncoding =? 5) then
        reject code address "no-base ADC memory SIB is not supported"
      else
      let! base := decodeRegister baseEncoding rexB in
      if negb (indexEncoding =? 4) || rexX then
        let! register104 := decodeRegister indexEncoding rexX in
        let index := Some register104 in
        let scale := Z.shiftl 1 scaleBits in
        Ok (cursor, base, index, scale)
      else Ok (cursor, base, index, scale)
     else
      if rexX then
        reject code address "REX.X requires an ADC memory SIB"
      else Ok (cursor, base, index, scale)) in
  let displacement := 0 in
  let! (displacement, cursor) : within (- 2 ^ 31) (2 ^ 31 - 1) * cursor_in 2 10 :=
    (if ripRelative then
      if size_sub (zlength code) cursor <? 4 then
        reject code address "truncated RIP-relative ADC displacement"
      else
      let! span105 := subspan code cursor 4 in
      let! displacement := readI32 span105 in
      let cursor := size_add cursor 4 in
      Ok (displacement, cursor)
     else
      if mode =? 1 then
        if zlength code <=? cursor then
          reject code address "truncated ADC memory disp8"
        else
        let! byte107 := code_at code cursor in
        let displacement := signed 8 byte107 in
        let cursor := size_add cursor 1 in
        Ok (displacement, cursor)
      else if mode =? 2 then
        if size_sub (zlength code) cursor <? 4 then
          reject code address "truncated ADC memory disp32"
        else
        let! span108 := subspan code cursor 4 in
        let! displacement := readI32 span108 in
        let cursor := size_add cursor 4 in
        Ok (displacement, cursor)
      else Ok (displacement, cursor)) in
  let! _ :=
    (if ripRelative then
      let! _ := relativeTarget address (size_sub cursor 0) displacement in
      Ok tt
     else
      Ok tt) in
  let instruction := with_opcode X_AdcRegMem instruction in
  let instruction := push_operand (RegisterOperand destination width 0) instruction in
  let instruction := push_operand (MemoryOp (mkMemory (if ripRelative then Rax else base) displacement width
      index scale (negb ripRelative) ripRelative Segment_None)) instruction in
  Ok (inr (cursor, instruction)).

Definition decodeGeneral_AdcRegReg (cursor : Z) (rexW : bool) (rexB : bool) (rexX : bool) (rexR : bool)
    (instruction : DecodedInstruction) : outcome Recognition :=
  if size_sub (zlength code) cursor <? 1 then
    reject code address "truncated adc r32/r64, r/m32/r/m64"
  else
  let! modrm := code_at code cursor in
  let cursor := size_add cursor 1 in
  let mode := Z.land (Z.shiftr modrm 6) 3 in
  let rmEncoding := Z.land modrm 7 in
  let! destination := decodeRegister (Z.land (Z.shiftr modrm 3) 7) rexR in
  let width := if rexW then 64 else 32 in
  if mode =? 3 then
    let instruction := with_opcode X_AdcRegReg instruction in
    let instruction := push_operand (RegisterOperand destination width 0) instruction in
    let! register100 := decodeRegister rmEncoding rexB in
    let instruction := push_operand (RegisterOperand register100 width 0) instruction in
    Ok (inr (cursor, instruction))
  else decodeGeneral_AdcRegMem cursor rexB rexX mode rmEncoding destination width instruction.

Definition decodeGeneral_AddMemReg (cursor : Z) (hasOperandSizeOverride : bool) (rexW : bool) (rexB : bool)
    (rexX : bool) (mode : Z) (rmEncoding : Z) (source : Register) (instruction : DecodedInstruction) : outcome
    Recognition :=
  if (2 <? mode) || (rexX && negb (rmEncoding =? 4)) then
    reject code address "unsupported ADD memory-destination addressing form"
  else
  let ripRelative := (mode =? 0) && (rmEncoding =? 5) in
  let! base := decodeRegister rmEncoding rexB in
  let index := None in
  let scale := 1 in
  let hasBase := negb ripRelative in
  let! (cursor, hasBase, base, index, scale) : cursor_in 2 6 * bool * Register * option Register * one_of [1;
      2; 4; 8] :=
    (if negb ripRelative && (rmEncoding =? 4) then
      if zlength code <=? cursor then
        reject code address "truncated ADD memory SIB"
      else
      let! sib := code_at code cursor in
      let cursor := size_add cursor 1 in
      let scaleBits := Z.land (Z.shiftr sib 6) 3 in
      let indexEncoding := Z.land (Z.shiftr sib 3) 7 in
      let baseEncoding := Z.land sib 7 in
      let hasBase := negb ((mode =? 0) && (baseEncoding =? 5)) in
      let! base : Register :=
        (if hasBase then
          let! base := decodeRegister baseEncoding rexB in
          Ok base
         else
          Ok base) in
      if negb (indexEncoding =? 4) || rexX then
        let! register117 := decodeRegister indexEncoding rexX in
        let index := Some register117 in
        let scale := Z.shiftl 1 scaleBits in
        Ok (cursor, hasBase, base, index, scale)
      else Ok (cursor, hasBase, base, index, scale)
     else
      Ok (cursor, hasBase, base, index, scale)) in
  let displacement := 0 in
  let! (displacement, cursor) : within (- 2 ^ 31) (2 ^ 31 - 1) * cursor_in 2 10 :=
    (if ripRelative || (negb hasBase && (mode =? 0)) || (mode =? 2) then
      if size_sub (zlength code) cursor <? 4 then
        reject code address "truncated ADD memory destination disp32"
      else
      let! span118 := subspan code cursor 4 in
      let! displacement := readI32 span118 in
      let cursor := size_add cursor 4 in
      Ok (displacement, cursor)
     else
      if mode =? 1 then
        if zlength code <=? cursor then
          reject code address "truncated ADD memory destination disp8"
        else
        let! byte120 := code_at code cursor in
        let displacement := signed 8 byte120 in
        let cursor := size_add cursor 1 in
        Ok (displacement, cursor)
      else Ok (displacement, cursor)) in
  let! _ :=
    (if ripRelative then
      let! _ := relativeTarget address (size_sub cursor 0) displacement in
      Ok tt
     else
      Ok tt) in
  let width := if rexW then 64 else if hasOperandSizeOverride then 16 else 32 in
  let instruction := with_opcode X_AddMemReg instruction in
  let instruction := push_operand (MemoryOp (mkMemory (if ripRelative then Rax else base) displacement width
      index scale hasBase ripRelative Segment_None)) instruction in
  let instruction := push_operand (RegisterOperand source width 0) instruction in
  Ok (inr (cursor, instruction)).

Definition decodeGeneral_AddRegReg_2 (cursor : Z) (hasOperandSizeOverride : bool) (rexW : bool) (rexB : bool)
    (rexX : bool) (rexR : bool) (instruction : DecodedInstruction) : outcome Recognition :=
  if size_sub (zlength code) cursor <? 1 then
    reject code address "truncated add r/m64, r64"
  else
  let! modrm := code_at code cursor in
  let cursor := size_add cursor 1 in
  let mode := Z.land (Z.shiftr modrm 6) 3 in
  let rmEncoding := Z.land modrm 7 in
  let! source := decodeRegister (Z.land (Z.shiftr modrm 3) 7) rexR in
  if mode =? 3 then
    let! destination := decodeRegister rmEncoding rexB in
    let width := if rexW then 64 else 32 in
    let instruction := with_opcode X_AddRegReg instruction in
    let instruction := push_operand (RegisterOperand destination width 0) instruction in
    let instruction := push_operand (RegisterOperand source width 0) instruction in
    Ok (inr (cursor, instruction))
  else decodeGeneral_AddMemReg cursor hasOperandSizeOverride rexW rexB rexX mode rmEncoding source instruction.

Definition decodeGeneral_AddRegMem_2 (cursor : Z) (hasOperandSizeOverride : bool) (rexW : bool) (rexB : bool)
    (rexX : bool) (rexR : bool) (instruction : DecodedInstruction) : outcome Recognition :=
  if size_sub (zlength code) cursor <? 1 then
    reject code address "truncated add r64, [base+disp]"
  else
  let! modrm := code_at code cursor in
  let cursor := size_add cursor 1 in
  let mode := Z.land (Z.shiftr modrm 6) 3 in
  let rmEncoding := Z.land modrm 7 in
  let ripRelative := (mode =? 0) && (rmEncoding =? 5) && negb rexB in
  if (2 <? mode) || ((mode =? 0) && (rmEncoding =? 5) && rexB) then
    reject code address "only ADD r32/r64 with based, indexed, or RIP-relative memory operands is supported"
  else
  let! base := decodeRegister rmEncoding rexB in
  let index := None in
  let scale := 1 in
  let! (cursor, base, index, scale) : cursor_in 2 6 * Register * option Register * one_of [1; 2; 4; 8] :=
    (if negb ripRelative && (rmEncoding =? 4) then
      if zlength code <=? cursor then
        reject code address "truncated ADD qword memory SIB"
      else
      let! sib := code_at code cursor in
      let cursor := size_add cursor 1 in
      let scaleBits := Z.land (Z.shiftr sib 6) 3 in
      let indexEncoding := Z.land (Z.shiftr sib 3) 7 in
      let baseEncoding := Z.land sib 7 in
      if (mode =? 0) && (baseEncoding =? 5) then
        reject code address "no-base ADD qword memory SIB is not supported"
      else
      let! base := decodeRegister baseEncoding rexB in
      if negb (indexEncoding =? 4) || rexX then
        let! register126 := decodeRegister indexEncoding rexX in
        let index := Some register126 in
        let scale := Z.shiftl 1 scaleBits in
        Ok (cursor, base, index, scale)
      else Ok (cursor, base, index, scale)
     else
      if rexX then
        reject code address "REX.X requires an ADD qword memory SIB"
      else Ok (cursor, base, index, scale)) in
  let displacement := 0 in
  let! (displacement, cursor) : within (- 2 ^ 31) (2 ^ 31 - 1) * cursor_in 2 10 :=
    (if ripRelative then
      if size_sub (zlength code) cursor <? 4 then
        reject code address "truncated RIP-relative ADD displacement"
      else
      let! span127 := subspan code cursor 4 in
      let! displacement := readI32 span127 in
      let cursor := size_add cursor 4 in
      Ok (displacement, cursor)
     else
      if mode =? 1 then
        if zlength code <=? cursor then
          reject code address "truncated ADD memory disp8"
        else
        let! byte129 := code_at code cursor in
        let displacement := signed 8 byte129 in
        let cursor := size_add cursor 1 in
        Ok (displacement, cursor)
      else if mode =? 2 then
        if size_sub (zlength code) cursor <? 4 then
          reject code address "truncated ADD memory disp32"
        else
        let! span130 := subspan code cursor 4 in
        let! displacement := readI32 span130 in
        let cursor := size_add cursor 4 in
        Ok (displacement, cursor)
      else Ok (displacement, cursor)) in
  let! destination := decodeRegister (Z.land (Z.shiftr modrm 3) 7) rexR in
  let width := if rexW then 64 else if hasOperandSizeOverride then 16 else 32 in
  let instruction := with_opcode X_AddRegMem instruction in
  let instruction := push_operand (RegisterOperand destination width 0) instruction in
  let instruction := push_operand (MemoryOp (mkMemory base displacement width index scale (negb ripRelative)
      ripRelative Segment_None)) instruction in
  Ok (inr (cursor, instruction)).

Definition decodeGeneral_OrRegReg (cursor : Z) (hasRex : bool) (rexB : bool) (rexX : bool) (rexR : bool)
    (instruction : DecodedInstruction) : outcome Recognition :=
  if size_sub (zlength code) cursor <? 1 then
    reject code address "truncated or r8, r8"
  else
  let! modrm := code_at code cursor in
  let cursor := size_add cursor 1 in
  let mode := Z.land (Z.shiftr modrm 6) 3 in
  let sourceEncoding := Z.land (Z.shiftr modrm 3) 7 in
  let destinationEncoding := Z.land modrm 7 in
  if (mode =? 3) && negb hasRex && ((4 <=? sourceEncoding) || (4 <=? destinationEncoding)) then
    reject code address "only register-direct representable low-byte OR from opcode 08 is supported"
  else if mode =? 3 then
    let instruction := with_opcode X_OrRegReg instruction in
    let! register134 := decodeRegister destinationEncoding rexB in
    let instruction := push_operand (RegisterOperand register134 8 0) instruction in
    let! register135 := decodeRegister sourceEncoding rexR in
    let instruction := push_operand (RegisterOperand register135 8 0) instruction in
    Ok (inr (cursor, instruction))
  else if (2 <? mode) || ((mode =? 0) && (destinationEncoding =? 5)) || (negb hasRex && (4 <=? sourceEncoding))
      then
    reject code address "only OR byte [base+index*scale+disp8/disp32], representable-byte-register is supported"
  else
  let! base := decodeRegister destinationEncoding rexB in
  let index := None in
  let scale := 1 in
  let! (cursor, base, index, scale) : cursor_in 2 6 * Register * option Register * one_of [1; 2; 4; 8] :=
    (if destinationEncoding =? 4 then
      if zlength code <=? cursor then
        reject code address "truncated byte OR SIB"
      else
      let! sib := code_at code cursor in
      let cursor := size_add cursor 1 in
      let scaleBits := Z.land (Z.shiftr sib 6) 3 in
      let indexEncoding := Z.land (Z.shiftr sib 3) 7 in
      let baseEncoding := Z.land sib 7 in
      if (mode =? 0) && (baseEncoding =? 5) then
        reject code address "no-base byte OR SIB is not supported"
      else
      let! base := decodeRegister baseEncoding rexB in
      if negb (indexEncoding =? 4) || rexX then
        let! register139 := decodeRegister indexEncoding rexX in
        let index := Some register139 in
        let scale := Z.shiftl 1 scaleBits in
        Ok (cursor, base, index, scale)
      else Ok (cursor, base, index, scale)
     else
      Ok (cursor, base, index, scale)) in
  let displacement := 0 in
  let! (displacement, cursor) : within (- 2 ^ 31) (2 ^ 31 - 1) * cursor_in 2 10 :=
    (if mode =? 1 then
      if zlength code <=? cursor then
        reject code address "truncated byte OR disp8"
      else
      let! byte140 := code_at code cursor in
      let displacement := signed 8 byte140 in
      let cursor := size_add cursor 1 in
      Ok (displacement, cursor)
     else
      if mode =? 2 then
        if size_sub (zlength code) cursor <? 4 then
          reject code address "truncated byte OR disp32"
        else
        let! span141 := subspan code cursor 4 in
        let! displacement := readI32 span141 in
        let cursor := size_add cursor 4 in
        Ok (displacement, cursor)
      else Ok (displacement, cursor)) in
  let instruction := with_opcode X_OrMemReg instruction in
  let instruction := push_operand (MemoryOp (mkMemory base displacement 8 index scale true false Segment_None))
      instruction in
  let! register143 := decodeRegister sourceEncoding rexR in
  let instruction := push_operand (RegisterOperand register143 8 0) instruction in
  Ok (inr (cursor, instruction)).

Definition decodeGeneral_OrRegReg_2 (cursor : Z) (hasOperandSizeOverride : bool) (rexW : bool) (rexB : bool)
    (rexX : bool) (rexR : bool) (instruction : DecodedInstruction) : outcome Recognition :=
  if size_sub (zlength code) cursor <? 1 then
    reject code address "truncated OR r/m32/64, r32/64"
  else
  let! modrm := code_at code cursor in
  let cursor := size_add cursor 1 in
  let mode := Z.land (Z.shiftr modrm 6) 3 in
  let! source := decodeRegister (Z.land (Z.shiftr modrm 3) 7) rexR in
  let rmEncoding := Z.land modrm 7 in
  let width := if rexW then 64 else if hasOperandSizeOverride then 16 else 32 in
  if mode =? 3 then
    let! destination := decodeRegister rmEncoding rexB in
    let instruction := with_opcode X_OrRegReg instruction in
    let instruction := push_operand (RegisterOperand destination width 0) instruction in
    let instruction := push_operand (RegisterOperand source width 0) instruction in
    Ok (inr (cursor, instruction))
  else
  let ripRelative := (mode =? 0) && (rmEncoding =? 5) in
  let! base := decodeRegister rmEncoding rexB in
  let index := None in
  let scale := 1 in
  let hasBase := negb ripRelative in
  let! (cursor, hasBase, base, index, scale) : cursor_in 2 6 * bool * Register * option Register * one_of [1;
      2; 4; 8] :=
    (if negb ripRelative && (rmEncoding =? 4) then
      if zlength code <=? cursor then
        reject code address "truncated OR memory SIB"
      else
      let! sib := code_at code cursor in
      let cursor := size_add cursor 1 in
      let scaleBits := Z.land (Z.shiftr sib 6) 3 in
      let indexEncoding := Z.land (Z.shiftr sib 3) 7 in
      let baseEncoding := Z.land sib 7 in
      let hasBase := negb ((mode =? 0) && (baseEncoding =? 5)) in
      let! base : Register :=
        (if hasBase then
          let! base := decodeRegister baseEncoding rexB in
          Ok base
         else
          Ok base) in
      if negb (indexEncoding =? 4) || rexX then
        let! register150 := decodeRegister indexEncoding rexX in
        let index := Some register150 in
        let scale := Z.shiftl 1 scaleBits in
        Ok (cursor, hasBase, base, index, scale)
      else Ok (cursor, hasBase, base, index, scale)
     else
      Ok (cursor, hasBase, base, index, scale)) in
  let displacement := 0 in
  let! (displacement, cursor) : within (- 2 ^ 31) (2 ^ 31 - 1) * cursor_in 2 10 :=
    (if ripRelative || negb hasBase || (mode =? 2) then
      if size_sub (zlength code) cursor <? 4 then
        reject code address "truncated OR memory disp32"
      else
      let! span151 := subspan code cursor 4 in
      let! displacement := readI32 span151 in
      let cursor := size_add cursor 4 in
      Ok (displacement, cursor)
     else
      if mode =? 1 then
        if zlength code <=? cursor then
          reject code address "truncated OR memory disp8"
        else
        let! byte153 := code_at code cursor in
        let displacement := signed 8 byte153 in
        let cursor := size_add cursor 1 in
        Ok (displacement, cursor)
      else Ok (displacement, cursor)) in
  let instruction := with_opcode X_OrMemReg instruction in
  let instruction := push_operand (MemoryOp (mkMemory (if hasBase then base else Rax) displacement width index
      scale hasBase ripRelative Segment_None)) instruction in
  let instruction := push_operand (RegisterOperand source width 0) instruction in
  Ok (inr (cursor, instruction)).

Definition decodeGeneral_OrRegMem (cursor : Z) (hasRex : bool) (rexB : bool) (rexX : bool) (rexR : bool)
    (instruction : DecodedInstruction) : outcome Recognition :=
  if size_sub (zlength code) cursor <? 1 then
    reject code address "truncated OR byte register, [memory]"
  else
  let! modrm := code_at code cursor in
  let cursor := size_add cursor 1 in
  let mode := Z.land (Z.shiftr modrm 6) 3 in
  let regEncoding := Z.land (Z.shiftr modrm 3) 7 in
  let rmEncoding := Z.land modrm 7 in
  let ripRelative := (mode =? 0) && (rmEncoding =? 5) in
  if (2 <? mode) || (negb hasRex && (4 <=? regEncoding)) then
    reject code address "only OR representable-byte-register, byte [base/RIP+index*scale+disp8/disp32] is supported"
  else
  let baseEncoding := rmEncoding in
  let index := None in
  let scale := 1 in
  let! (cursor, baseEncoding, index, scale) : cursor_in 2 6 * within 0 7 * option Register * one_of [1; 2; 4;
      8] :=
    (if negb ripRelative && (rmEncoding =? 4) then
      if zlength code <=? cursor then
        reject code address "truncated byte OR load SIB"
      else
      let! sib := code_at code cursor in
      let cursor := size_add cursor 1 in
      let scaleBits := Z.land (Z.shiftr sib 6) 3 in
      let indexEncoding := Z.land (Z.shiftr sib 3) 7 in
      let baseEncoding := Z.land sib 7 in
      if (mode =? 0) && (baseEncoding =? 5) then
        reject code address "no-base byte OR load SIB is not supported"
      else if negb (indexEncoding =? 4) || rexX then
        let! register156 := decodeRegister indexEncoding rexX in
        let index := Some register156 in
        let scale := Z.shiftl 1 scaleBits in
        Ok (cursor, baseEncoding, index, scale)
      else Ok (cursor, baseEncoding, index, scale)
     else
      if rexX then
        reject code address "REX.X requires a byte OR load SIB"
      else Ok (cursor, baseEncoding, index, scale)) in
  let displacement := 0 in
  let! (displacement, cursor) : within (- 2 ^ 31) (2 ^ 31 - 1) * cursor_in 2 10 :=
    (if ripRelative || (mode =? 2) then
      if size_sub (zlength code) cursor <? 4 then
        reject code address "truncated byte OR load disp32"
      else
      let! span157 := subspan code cursor 4 in
      let! displacement := readI32 span157 in
      let cursor := size_add cursor 4 in
      Ok (displacement, cursor)
     else
      if mode =? 1 then
        if zlength code <=? cursor then
          reject code address "truncated byte OR load disp8"
        else
        let! byte159 := code_at code cursor in
        let displacement := signed 8 byte159 in
        let cursor := size_add cursor 1 in
        Ok (displacement, cursor)
      else Ok (displacement, cursor)) in
  let instruction := with_opcode X_OrRegMem instruction in
  let! register160 := decodeRegister regEncoding rexR in
  let instruction := push_operand (RegisterOperand register160 8 0) instruction in
  let! choice161 : Register := (if ripRelative then Ok Rax else (let! register162 := decodeRegister
      baseEncoding rexB in Ok register162)) in
  let instruction := push_operand (MemoryOp (mkMemory choice161 displacement 8 index scale (negb ripRelative)
      ripRelative Segment_None)) instruction in
  Ok (inr (cursor, instruction)).

Definition decodeGeneral_OrRegReg_3 (cursor : Z) (hasOperandSizeOverride : bool) (rexW : bool) (rexB : bool)
    (rexX : bool) (rexR : bool) (instruction : DecodedInstruction) : outcome Recognition :=
  if size_sub (zlength code) cursor <? 1 then
    reject code address "truncated OR r16/r32/r64, word/dword/qword [memory]"
  else
  let! modrm := code_at code cursor in
  let cursor := size_add cursor 1 in
  let mode := Z.land (Z.shiftr modrm 6) 3 in
  let regEncoding := Z.land (Z.shiftr modrm 3) 7 in
  let rmEncoding := Z.land modrm 7 in
  let width := if rexW then 64 else if hasOperandSizeOverride then 16 else 32 in
  if mode =? 3 then
    let instruction := with_opcode X_OrRegReg instruction in
    let! register164 := decodeRegister rmEncoding rexB in
    let instruction := push_operand (RegisterOperand register164 width 0) instruction in
    let! register165 := decodeRegister regEncoding rexR in
    let instruction := push_operand (RegisterOperand register165 width 0) instruction in
    let len := size_sub cursor 0 in
    let instruction := with_length (u8 len) instruction in
    let! instruction := copy_bytes code 0 len instruction in
    Ok (inl instruction)
  else
  let ripRelative := (mode =? 0) && (rmEncoding =? 5) in
  let baseEncoding := rmEncoding in
  let index := None in
  let scale := 1 in
  let! (cursor, baseEncoding, index, scale) : cursor_in 2 6 * within 0 7 * option Register * one_of [1; 2; 4;
      8] :=
    (if rmEncoding =? 4 then
      if zlength code <=? cursor then
        reject code address "truncated dword OR load SIB"
      else
      let! sib := code_at code cursor in
      let cursor := size_add cursor 1 in
      let scaleBits := Z.land (Z.shiftr sib 6) 3 in
      let indexEncoding := Z.land (Z.shiftr sib 3) 7 in
      let baseEncoding := Z.land sib 7 in
      if (mode =? 0) && (baseEncoding =? 5) then
        reject code address "no-base dword OR load SIB is not supported"
      else if negb (indexEncoding =? 4) || rexX then
        let! register167 := decodeRegister indexEncoding rexX in
        let index := Some register167 in
        let scale := Z.shiftl 1 scaleBits in
        Ok (cursor, baseEncoding, index, scale)
      else Ok (cursor, baseEncoding, index, scale)
     else
      if rexX then
        reject code address "REX.X requires a dword OR load SIB"
      else Ok (cursor, baseEncoding, index, scale)) in
  let displacement := 0 in
  let! (displacement, cursor) : within (- 2 ^ 31) (2 ^ 31 - 1) * cursor_in 2 10 :=
    (if ripRelative then
      if size_sub (zlength code) cursor <? 4 then
        reject code address "truncated RIP-relative dword OR load disp32"
      else
      let! span168 := subspan code cursor 4 in
      let! displacement := readI32 span168 in
      let cursor := size_add cursor 4 in
      Ok (displacement, cursor)
     else
      if mode =? 1 then
        if zlength code <=? cursor then
          reject code address "truncated dword OR load disp8"
        else
        let! byte170 := code_at code cursor in
        let displacement := signed 8 byte170 in
        let cursor := size_add cursor 1 in
        Ok (displacement, cursor)
      else if mode =? 2 then
        if size_sub (zlength code) cursor <? 4 then
          reject code address "truncated dword OR load disp32"
        else
        let! span171 := subspan code cursor 4 in
        let! displacement := readI32 span171 in
        let cursor := size_add cursor 4 in
        Ok (displacement, cursor)
      else Ok (displacement, cursor)) in
  let! _ :=
    (if ripRelative then
      let! _ := relativeTarget address (size_sub cursor 0) displacement in
      Ok tt
     else
      Ok tt) in
  let instruction := with_opcode X_OrRegMem instruction in
  let! register174 := decodeRegister regEncoding rexR in
  let instruction := push_operand (RegisterOperand register174 width 0) instruction in
  let! choice175 : MemoryOperand := (if ripRelative then Ok (mkMemory Rax displacement width None 1 false true
      Segment_None) else (let! register176 := decodeRegister baseEncoding rexB in Ok (mkMemory register176
      displacement width index scale true false Segment_None))) in
  let instruction := push_operand (MemoryOp choice175) instruction in
  Ok (inr (cursor, instruction)).

Definition decodeGeneral_SubRegMem (cursor : Z) (rexW : bool) (rexB : bool) (rexX : bool) (rexR : bool)
    (instruction : DecodedInstruction) : outcome Recognition :=
  if size_sub (zlength code) cursor <? 1 then
    reject code address "truncated sub register, [base+disp]"
  else
  let! modrm := code_at code cursor in
  let cursor := size_add cursor 1 in
  let mode := Z.land (Z.shiftr modrm 6) 3 in
  let rmEncoding := Z.land modrm 7 in
  let ripRelative := (mode =? 0) && (rmEncoding =? 5) && negb rexB in
  if (2 <? mode) || (rexX && negb (rmEncoding =? 4)) then
    reject code address "only SUB register, [base/RIP+index+disp8/disp32] memory operands are supported"
  else
  let baseEncoding := rmEncoding in
  let index := None in
  let scale := 1 in
  let! (cursor, baseEncoding, index, scale) : cursor_in 2 6 * within 0 7 * option Register * one_of [1; 2; 4;
      8] :=
    (if negb ripRelative && (rmEncoding =? 4) then
      if zlength code <=? cursor then
        reject code address "truncated SUB memory SIB"
      else
      let! sib := code_at code cursor in
      let cursor := size_add cursor 1 in
      let scaleBits := Z.land (Z.shiftr sib 6) 3 in
      let indexEncoding := Z.land (Z.shiftr sib 3) 7 in
      let baseEncoding := Z.land sib 7 in
      if (mode =? 0) && (baseEncoding =? 5) then
        reject code address "no-base SUB memory SIB is not supported"
      else
      let! index : option Register :=
        (if negb (indexEncoding =? 4) || rexX then
          let! register179 := decodeRegister indexEncoding rexX in
          let index := Some register179 in
          Ok index
         else
          Ok index) in
      let scale := Z.shiftl 1 scaleBits in
      Ok (cursor, baseEncoding, index, scale)
     else
      Ok (cursor, baseEncoding, index, scale)) in
  let displacement := 0 in
  let! (displacement, cursor) : within (- 2 ^ 31) (2 ^ 31 - 1) * cursor_in 2 10 :=
    (if ripRelative then
      if size_sub (zlength code) cursor <? 4 then
        reject code address "truncated RIP-relative SUB disp32"
      else
      let! span180 := subspan code cursor 4 in
      let! displacement := readI32 span180 in
      let cursor := size_add cursor 4 in
      let! _ := relativeTarget address (size_sub cursor 0) displacement in
      Ok (displacement, cursor)
     else
      if mode =? 1 then
        if zlength code <=? cursor then
          reject code address "truncated SUB memory disp8"
        else
        let! byte183 := code_at code cursor in
        let displacement := signed 8 byte183 in
        let cursor := size_add cursor 1 in
        Ok (displacement, cursor)
      else if mode =? 2 then
        if size_sub (zlength code) cursor <? 4 then
          reject code address "truncated SUB memory disp32"
        else
        let! span184 := subspan code cursor 4 in
        let! displacement := readI32 span184 in
        let cursor := size_add cursor 4 in
        Ok (displacement, cursor)
      else Ok (displacement, cursor)) in
  let! destination := decodeRegister (Z.land (Z.shiftr modrm 3) 7) rexR in
  let! base : Register := (if ripRelative then Ok Rax else (let! register188 := decodeRegister baseEncoding
      rexB in Ok register188)) in
  let width := if rexW then 64 else 32 in
  let instruction := with_opcode X_SubRegMem instruction in
  let instruction := push_operand (RegisterOperand destination width 0) instruction in
  let instruction := push_operand (MemoryOp (mkMemory base displacement width index scale (negb ripRelative)
      ripRelative Segment_None)) instruction in
  Ok (inr (cursor, instruction)).

Definition decodeGeneral_AndRegReg (cursor : Z) (hasOperandSizeOverride : bool) (rexW : bool) (rexB : bool)
    (rexX : bool) (rexR : bool) (instruction : DecodedInstruction) : outcome Recognition :=
  if size_sub (zlength code) cursor <? 1 then
    reject code address "truncated AND r/m32/64, r32/64"
  else
  let! modrm := code_at code cursor in
  let cursor := size_add cursor 1 in
  let mode := Z.land (Z.shiftr modrm 6) 3 in
  let width := if rexW then 64 else if hasOperandSizeOverride then 16 else 32 in
  let! source := decodeRegister (Z.land (Z.shiftr modrm 3) 7) rexR in
  let rmEncoding := Z.land modrm 7 in
  if mode =? 3 then
    let! destination := decodeRegister rmEncoding rexB in
    let instruction := with_opcode X_AndRegReg instruction in
    let instruction := push_operand (RegisterOperand destination width 0) instruction in
    let instruction := push_operand (RegisterOperand source width 0) instruction in
    Ok (inr (cursor, instruction))
  else
  let ripRelative := (mode =? 0) && (rmEncoding =? 5) in
  let! base := decodeRegister rmEncoding rexB in
  let index := None in
  let scale := 1 in
  let hasBase := negb ripRelative in
  let! (cursor, hasBase, base, index, scale) : cursor_in 2 6 * bool * Register * option Register * one_of [1;
      2; 4; 8] :=
    (if negb ripRelative && (rmEncoding =? 4) then
      if zlength code <=? cursor then
        reject code address "truncated AND memory SIB"
      else
      let! sib := code_at code cursor in
      let cursor := size_add cursor 1 in
      let scaleBits := Z.land (Z.shiftr sib 6) 3 in
      let indexEncoding := Z.land (Z.shiftr sib 3) 7 in
      let baseEncoding := Z.land sib 7 in
      let hasBase := negb ((mode =? 0) && (baseEncoding =? 5)) in
      let! base : Register :=
        (if hasBase then
          let! base := decodeRegister baseEncoding rexB in
          Ok base
         else
          Ok base) in
      if negb (indexEncoding =? 4) || rexX then
        let! register201 := decodeRegister indexEncoding rexX in
        let index := Some register201 in
        let scale := Z.shiftl 1 scaleBits in
        Ok (cursor, hasBase, base, index, scale)
      else Ok (cursor, hasBase, base, index, scale)
     else
      Ok (cursor, hasBase, base, index, scale)) in
  let displacement := 0 in
  let! (displacement, cursor) : within (- 2 ^ 31) (2 ^ 31 - 1) * cursor_in 2 10 :=
    (if ripRelative || negb hasBase || (mode =? 2) then
      if size_sub (zlength code) cursor <? 4 then
        reject code address "truncated AND memory disp32"
      else
      let! span202 := subspan code cursor 4 in
      let! displacement := readI32 span202 in
      let cursor := size_add cursor 4 in
      Ok (displacement, cursor)
     else
      if mode =? 1 then
        if zlength code <=? cursor then
          reject code address "truncated AND memory disp8"
        else
        let! byte204 := code_at code cursor in
        let displacement := signed 8 byte204 in
        let cursor := size_add cursor 1 in
        Ok (displacement, cursor)
      else Ok (displacement, cursor)) in
  let instruction := with_opcode X_AndMemReg instruction in
  let instruction := push_operand (MemoryOp (mkMemory (if hasBase then base else Rax) displacement width index
      scale hasBase ripRelative Segment_None)) instruction in
  let instruction := push_operand (RegisterOperand source width 0) instruction in
  Ok (inr (cursor, instruction)).

Definition decodeGeneral_SubMemReg (cursor : Z) (hasRex : bool) (rexB : bool) (rexX : bool) (rexR : bool) (mode
    : Z) (sourceEncoding : Z) (destinationEncoding : Z) (instruction : DecodedInstruction) : outcome
    Recognition :=
  let ripRelative := (mode =? 0) && (destinationEncoding =? 5) in
  if (2 <? mode) || (negb hasRex && (4 <=? sourceEncoding)) || (rexX && negb (destinationEncoding =? 4)) then
    reject code address "only SUB byte [base/RIP+index*scale+disp8/disp32], low-byte-register is supported"
  else
  let baseEncoding := destinationEncoding in
  let index := None in
  let scale := 1 in
  let hasBase := negb ripRelative in
  let! (cursor, baseEncoding, hasBase) : cursor_in 2 6 * within 0 7 * bool :=
    (if negb ripRelative && (destinationEncoding =? 4) then
      if zlength code <=? cursor then
        reject code address "truncated byte SUB SIB"
      else
      let! sib := code_at code cursor in
      let cursor := size_add cursor 1 in
      let scaleBits := Z.land (Z.shiftr sib 6) 3 in
      let indexEncoding := Z.land (Z.shiftr sib 3) 7 in
      let baseEncoding := Z.land sib 7 in
      let hasBase := negb ((mode =? 0) && (baseEncoding =? 5)) in
      if negb (scaleBits =? 0) || negb (indexEncoding =? 4) || rexX || negb hasBase then
        reject code address "only no-index SIB addressing is supported for byte SUB"
      else Ok (cursor, baseEncoding, hasBase)
     else
      Ok (cursor, baseEncoding, hasBase)) in
  let displacement := 0 in
  let! (displacement, cursor) : within (- 2 ^ 31) (2 ^ 31 - 1) * cursor_in 2 10 :=
    (if ripRelative || (negb hasBase && (mode =? 0)) || (mode =? 2) then
      if size_sub (zlength code) cursor <? 4 then
        reject code address "truncated byte SUB disp32"
      else
      let! span209 := subspan code cursor 4 in
      let! displacement := readI32 span209 in
      let cursor := size_add cursor 4 in
      Ok (displacement, cursor)
     else
      if mode =? 1 then
        if zlength code <=? cursor then
          reject code address "truncated byte SUB disp8"
        else
        let! byte211 := code_at code cursor in
        let displacement := signed 8 byte211 in
        let cursor := size_add cursor 1 in
        Ok (displacement, cursor)
      else Ok (displacement, cursor)) in
  let! _ :=
    (if ripRelative then
      let! _ := relativeTarget address (size_sub cursor 0) displacement in
      Ok tt
     else
      Ok tt) in
  let instruction := with_opcode X_SubMemReg instruction in
  let! choice213 : MemoryOperand := (if ripRelative then Ok (mkMemory Rax displacement 8 None 1 false true
      Segment_None) else (let! register214 := decodeRegister baseEncoding rexB in Ok (mkMemory register214
      displacement 8 index scale hasBase false Segment_None))) in
  let instruction := push_operand (MemoryOp choice213) instruction in
  let! register215 := decodeRegister sourceEncoding rexR in
  let instruction := push_operand (RegisterOperand register215 8 0) instruction in
  Ok (inr (cursor, instruction)).

Definition decodeGeneral_SubRegReg (cursor : Z) (hasRex : bool) (rexB : bool) (rexX : bool) (rexR : bool)
    (instruction : DecodedInstruction) : outcome Recognition :=
  if size_sub (zlength code) cursor <? 1 then
    reject code address "truncated sub byte register, register"
  else
  let! modrm := code_at code cursor in
  let cursor := size_add cursor 1 in
  let mode := Z.land (Z.shiftr modrm 6) 3 in
  let sourceEncoding := Z.land (Z.shiftr modrm 3) 7 in
  let destinationEncoding := Z.land modrm 7 in
  if mode =? 3 then
    if negb hasRex && ((4 <=? sourceEncoding) || (4 <=? destinationEncoding)) then
      reject code address "only register-direct representable low-byte SUB from opcode 28 is supported"
    else
    let instruction := with_opcode X_SubRegReg instruction in
    let! register206 := decodeRegister destinationEncoding rexB in
    let instruction := push_operand (RegisterOperand register206 8 0) instruction in
    let! register207 := decodeRegister sourceEncoding rexR in
    let instruction := push_operand (RegisterOperand register207 8 0) instruction in
    Ok (inr (cursor, instruction))
  else decodeGeneral_SubMemReg cursor hasRex rexB rexX rexR mode sourceEncoding destinationEncoding instruction.

Definition decodeGeneral_SubRegReg_2 (cursor : Z) (rexW : bool) (rexB : bool) (rexX : bool) (rexR : bool)
    (instruction : DecodedInstruction) : outcome Recognition :=
  if size_sub (zlength code) cursor <? 1 then
    reject code address "truncated sub register, register"
  else
  let! modrm := code_at code cursor in
  let cursor := size_add cursor 1 in
  let mode := Z.land (Z.shiftr modrm 6) 3 in
  let width := if rexW then 64 else 32 in
  let! source := decodeRegister (Z.land (Z.shiftr modrm 3) 7) rexR in
  let rmEncoding := Z.land modrm 7 in
  if mode =? 3 then
    if rexX then
      reject code address "REX.X is invalid for register-direct SUB"
    else
    let instruction := with_opcode X_SubRegReg instruction in
    let! register218 := decodeRegister rmEncoding rexB in
    let instruction := push_operand (RegisterOperand register218 width 0) instruction in
    let instruction := push_operand (RegisterOperand source width 0) instruction in
    Ok (inr (cursor, instruction))
  else if (2 <? mode) || (rexX && negb (rmEncoding =? 4)) then
    reject code address "unsupported SUB memory-destination addressing form"
  else
  let ripRelative := (mode =? 0) && (rmEncoding =? 5) in
  let! base := decodeRegister rmEncoding rexB in
  let index := None in
  let scale := 1 in
  let hasBase := negb ripRelative in
  let! (cursor, hasBase, base, index, scale) : cursor_in 2 6 * bool * Register * option Register * one_of [1;
      2; 4; 8] :=
    (if negb ripRelative && (rmEncoding =? 4) then
      if zlength code <=? cursor then
        reject code address "truncated SUB memory SIB"
      else
      let! sib := code_at code cursor in
      let cursor := size_add cursor 1 in
      let scaleBits := Z.land (Z.shiftr sib 6) 3 in
      let indexEncoding := Z.land (Z.shiftr sib 3) 7 in
      let baseEncoding := Z.land sib 7 in
      let hasBase := negb ((mode =? 0) && (baseEncoding =? 5)) in
      let! base : Register :=
        (if hasBase then
          let! base := decodeRegister baseEncoding rexB in
          Ok base
         else
          Ok base) in
      if negb (indexEncoding =? 4) || rexX then
        let! register222 := decodeRegister indexEncoding rexX in
        let index := Some register222 in
        let scale := Z.shiftl 1 scaleBits in
        Ok (cursor, hasBase, base, index, scale)
      else Ok (cursor, hasBase, base, index, scale)
     else
      Ok (cursor, hasBase, base, index, scale)) in
  let displacement := 0 in
  let! (displacement, cursor) : within (- 2 ^ 31) (2 ^ 31 - 1) * cursor_in 2 10 :=
    (if ripRelative || negb hasBase || (mode =? 2) then
      if size_sub (zlength code) cursor <? 4 then
        reject code address "truncated SUB memory destination disp32"
      else
      let! span223 := subspan code cursor 4 in
      let! displacement := readI32 span223 in
      let cursor := size_add cursor 4 in
      Ok (displacement, cursor)
     else
      if mode =? 1 then
        if zlength code <=? cursor then
          reject code address "truncated SUB memory destination disp8"
        else
        let! byte225 := code_at code cursor in
        let displacement := signed 8 byte225 in
        let cursor := size_add cursor 1 in
        Ok (displacement, cursor)
      else Ok (displacement, cursor)) in
  let instruction := with_opcode X_SubMemReg instruction in
  let instruction := push_operand (MemoryOp (mkMemory (if ripRelative then Rax else base) displacement width
      index scale hasBase ripRelative Segment_None)) instruction in
  let instruction := push_operand (RegisterOperand source width 0) instruction in
  Ok (inr (cursor, instruction)).

Definition decodeGeneral_XorRegMem (cursor : Z) (hasRex : bool) (rexB : bool) (rexX : bool) (rexR : bool)
    (instruction : DecodedInstruction) : outcome Recognition :=
  if zlength code <=? cursor then
    reject code address "truncated xor byte register, [memory]"
  else
  let! modrm := code_at code cursor in
  let cursor := size_add cursor 1 in
  let mode := Z.land (Z.shiftr modrm 6) 3 in
  let destinationEncoding := Z.land (Z.shiftr modrm 3) 7 in
  let rmEncoding := Z.land modrm 7 in
  if (2 <? mode) || ((mode =? 0) && (rmEncoding =? 5)) || (negb hasRex && (4 <=? destinationEncoding)) then
    reject code address "only representable-byte XOR register, byte [base+index*scale+disp8/disp32] from opcode 32 is supported"
  else
  let! base := decodeRegister rmEncoding rexB in
  let index := None in
  let scale := 1 in
  let! (cursor, base, index, scale) : cursor_in 2 6 * Register * option Register * one_of [1; 2; 4; 8] :=
    (if rmEncoding =? 4 then
      if zlength code <=? cursor then
        reject code address "truncated byte XOR memory SIB"
      else
      let! sib := code_at code cursor in
      let cursor := size_add cursor 1 in
      let scaleBits := Z.land (Z.shiftr sib 6) 3 in
      let indexEncoding := Z.land (Z.shiftr sib 3) 7 in
      let baseEncoding := Z.land sib 7 in
      if (mode =? 0) && (baseEncoding =? 5) then
        reject code address "no-base byte XOR SIB is not supported"
      else
      let! base := decodeRegister baseEncoding rexB in
      if negb (indexEncoding =? 4) || rexX then
        let! register236 := decodeRegister indexEncoding rexX in
        let index := Some register236 in
        let scale := Z.shiftl 1 scaleBits in
        Ok (cursor, base, index, scale)
      else Ok (cursor, base, index, scale)
     else
      if rexX then
        reject code address "REX.X requires a byte XOR SIB"
      else Ok (cursor, base, index, scale)) in
  let displacement := 0 in
  let! (displacement, cursor) : within (- 2 ^ 31) (2 ^ 31 - 1) * cursor_in 2 10 :=
    (if mode =? 1 then
      if zlength code <=? cursor then
        reject code address "truncated byte XOR disp8"
      else
      let! byte237 := code_at code cursor in
      let displacement := signed 8 byte237 in
      let cursor := size_add cursor 1 in
      Ok (displacement, cursor)
     else
      if mode =? 2 then
        if size_sub (zlength code) cursor <? 4 then
          reject code address "truncated byte XOR disp32"
        else
        let! span238 := subspan code cursor 4 in
        let! displacement := readI32 span238 in
        let cursor := size_add cursor 4 in
        Ok (displacement, cursor)
      else Ok (displacement, cursor)) in
  let instruction := with_opcode X_XorRegMem instruction in
  let! register240 := decodeRegister destinationEncoding rexR in
  let instruction := push_operand (RegisterOperand register240 8 0) instruction in
  let instruction := push_operand (MemoryOp (mkMemory base displacement 8 index scale true false Segment_None))
      instruction in
  Ok (inr (cursor, instruction)).

Definition decodeGeneral_MovsxdRegMem (cursor : Z) (rexB : bool) (rexX : bool) (rexR : bool) (modrm : Z) (mode
    : Z) (rmEncoding : Z) (ripRelative : bool) (instruction : DecodedInstruction) : outcome Recognition :=
  let! base : Register := (if ripRelative then Ok Rax else (let! register245 := decodeRegister rmEncoding rexB
      in Ok register245)) in
  let index := None in
  let scale := 1 in
  let! (cursor, base, index, scale) : cursor_in 2 6 * Register * option Register * one_of [1; 2; 4; 8] :=
    (if rmEncoding =? 4 then
      if zlength code <=? cursor then
        reject code address "truncated MOVSXD memory SIB"
      else
      let! sib := code_at code cursor in
      let cursor := size_add cursor 1 in
      let scaleBits := Z.land (Z.shiftr sib 6) 3 in
      let indexEncoding := Z.land (Z.shiftr sib 3) 7 in
      let baseEncoding := Z.land sib 7 in
      if (mode =? 0) && (baseEncoding =? 5) && negb rexB then
        reject code address "no-base MOVSXD SIB is not supported"
      else
      let! base := decodeRegister baseEncoding rexB in
      if negb (indexEncoding =? 4) || rexX then
        let! register248 := decodeRegister indexEncoding rexX in
        let index := Some register248 in
        let scale := Z.shiftl 1 scaleBits in
        Ok (cursor, base, index, scale)
      else Ok (cursor, base, index, scale)
     else
      if rexX then
        reject code address "REX.X requires a SIB operand for MOVSXD"
      else Ok (cursor, base, index, scale)) in
  let displacement := 0 in
  let! (displacement, cursor) : within (- 2 ^ 31) (2 ^ 31 - 1) * cursor_in 2 10 :=
    (if ripRelative then
      if size_sub (zlength code) cursor <? 4 then
        reject code address "truncated RIP-relative MOVSXD disp32"
      else
      let! span249 := subspan code cursor 4 in
      let! displacement := readI32 span249 in
      let cursor := size_add cursor 4 in
      let! _ := relativeTarget address (size_sub cursor 0) displacement in
      Ok (displacement, cursor)
     else
      if mode =? 1 then
        if zlength code <=? cursor then
          reject code address "truncated MOVSXD disp8"
        else
        let! byte252 := code_at code cursor in
        let displacement := signed 8 byte252 in
        let cursor := size_add cursor 1 in
        Ok (displacement, cursor)
      else if mode =? 2 then
        if size_sub (zlength code) cursor <? 4 then
          reject code address "truncated MOVSXD disp32"
        else
        let! span253 := subspan code cursor 4 in
        let! displacement := readI32 span253 in
        let cursor := size_add cursor 4 in
        Ok (displacement, cursor)
      else Ok (displacement, cursor)) in
  let instruction := with_opcode X_MovsxdRegMem instruction in
  let! register255 := decodeRegister (Z.land (Z.shiftr modrm 3) 7) rexR in
  let instruction := push_operand (RegisterOperand register255 64 0) instruction in
  let instruction := push_operand (MemoryOp (mkMemory base displacement 32 index scale true ripRelative
      Segment_None)) instruction in
  Ok (inr (cursor, instruction)).

Definition decodeGeneral_MovsxdRegReg (cursor : Z) (rexW : bool) (rexB : bool) (rexX : bool) (rexR : bool)
    (instruction : DecodedInstruction) : outcome Recognition :=
  if size_sub (zlength code) cursor <? 1 then
    reject code address "truncated movsxd r64, [memory]"
  else
  let! modrm := code_at code cursor in
  let cursor := size_add cursor 1 in
  let mode := Z.land (Z.shiftr modrm 6) 3 in
  let rmEncoding := Z.land modrm 7 in
  let ripRelative := (mode =? 0) && (rmEncoding =? 5) && negb rexB in
  if negb rexW || ((mode =? 0) && (rmEncoding =? 5) && negb ripRelative) then
    reject code address "only MOVSXD r64, r32/dword [base/RIP+index*scale+disp] is supported"
  else if mode =? 3 then
    let instruction := with_opcode X_MovsxdRegReg instruction in
    let! register242 := decodeRegister (Z.land (Z.shiftr modrm 3) 7) rexR in
    let instruction := push_operand (RegisterOperand register242 64 0) instruction in
    let! register243 := decodeRegister rmEncoding rexB in
    let instruction := push_operand (RegisterOperand register243 32 0) instruction in
    Ok (inr (cursor, instruction))
  else decodeGeneral_MovsxdRegMem cursor rexB rexX rexR modrm mode rmEncoding ripRelative instruction.

Definition decodeGeneral_XorRegReg (cursor : Z) (hasOperandSizeOverride : bool) (rexW : bool) (rexB : bool)
    (rexX : bool) (rexR : bool) (instruction : DecodedInstruction) : outcome Recognition :=
  if size_sub (zlength code) cursor <? 1 then
    reject code address "truncated xor register, [memory]"
  else
  let! modrm := code_at code cursor in
  let cursor := size_add cursor 1 in
  let mode := Z.land (Z.shiftr modrm 6) 3 in
  let rmEncoding := Z.land modrm 7 in
  let operandWidth := if rexW then 64 else if hasOperandSizeOverride then 16 else 32 in
  if mode =? 3 then
    if rexX || hasOperandSizeOverride then
      reject code address "REX.X or 16-bit register-direct XOR from opcode 33 is unsupported"
    else
    let instruction := with_opcode X_XorRegReg instruction in
    let! register257 := decodeRegister (Z.land (Z.shiftr modrm 3) 7) rexR in
    let instruction := push_operand (RegisterOperand register257 operandWidth 0) instruction in
    let! register258 := decodeRegister rmEncoding rexB in
    let instruction := push_operand (RegisterOperand register258 operandWidth 0) instruction in
    Ok (inr (cursor, instruction))
  else
  let ripRelative := (mode =? 0) && (rmEncoding =? 5) && negb rexB in
  if (mode =? 0) && (rmEncoding =? 5) && rexB then
    reject code address "R13-based XOR from opcode 33 is not supported"
  else
  let baseEncoding := rmEncoding in
  let index := None in
  let scale := 1 in
  let! (cursor, baseEncoding, index, scale) : cursor_in 2 6 * within 0 7 * option Register * one_of [1; 2; 4;
      8] :=
    (if negb ripRelative && (rmEncoding =? 4) then
      if zlength code <=? cursor then
        reject code address "truncated XOR memory SIB"
      else
      let! sib := code_at code cursor in
      let cursor := size_add cursor 1 in
      let scaleBits := Z.land (Z.shiftr sib 6) 3 in
      let indexEncoding := Z.land (Z.shiftr sib 3) 7 in
      let baseEncoding := Z.land sib 7 in
      if (mode =? 0) && (baseEncoding =? 5) then
        reject code address "no-base SIB addressing is not supported for XOR"
      else if negb (indexEncoding =? 4) || rexX then
        let! register260 := decodeRegister indexEncoding rexX in
        let index := Some register260 in
        let scale := Z.shiftl 1 scaleBits in
        Ok (cursor, baseEncoding, index, scale)
      else Ok (cursor, baseEncoding, index, scale)
     else
      if negb ripRelative && rexX then
        reject code address "REX.X requires an XOR memory SIB"
      else Ok (cursor, baseEncoding, index, scale)) in
  let displacement := 0 in
  let! (displacement, cursor) : within (- 2 ^ 31) (2 ^ 31 - 1) * cursor_in 2 10 :=
    (if mode =? 1 then
      if zlength code <=? cursor then
        reject code address "truncated XOR memory disp8"
      else
      let! byte261 := code_at code cursor in
      let displacement := signed 8 byte261 in
      let cursor := size_add cursor 1 in
      Ok (displacement, cursor)
     else
      if (mode =? 2) || ripRelative then
        if size_sub (zlength code) cursor <? 4 then
          reject code address "truncated XOR memory disp32"
        else
        let! span262 := subspan code cursor 4 in
        let! displacement := readI32 span262 in
        let cursor := size_add cursor 4 in
        Ok (displacement, cursor)
      else Ok (displacement, cursor)) in
  let! _ :=
    (if ripRelative then
      let! _ := relativeTarget address (size_sub cursor 0) displacement in
      Ok tt
     else
      Ok tt) in
  let instruction := with_opcode X_XorRegMem instruction in
  let! register265 := decodeRegister (Z.land (Z.shiftr modrm 3) 7) rexR in
  let instruction := push_operand (RegisterOperand register265 operandWidth 0) instruction in
  let! choice266 : MemoryOperand := (if ripRelative then Ok (mkMemory Rax displacement operandWidth None 1
      false true Segment_None) else (let! register267 := decodeRegister baseEncoding rexB in Ok (mkMemory
      register267 displacement operandWidth index scale true false Segment_None))) in
  let instruction := push_operand (MemoryOp choice266) instruction in
  Ok (inr (cursor, instruction)).

Definition decodeGeneral_CmpRegReg (cursor : Z) (hasRex : bool) (rexW : bool) (rexB : bool) (rexX : bool) (rexR
    : bool) (instruction : DecodedInstruction) : outcome Recognition :=
  if zlength code <=? cursor then
    reject code address "truncated cmp byte register, register"
  else
  let! modrm := code_at code cursor in
  let cursor := size_add cursor 1 in
  let mode := Z.land (Z.shiftr modrm 6) 3 in
  let sourceEncoding := Z.land (Z.shiftr modrm 3) 7 in
  let rmEncoding := Z.land modrm 7 in
  let ripRelative := (mode =? 0) && (rmEncoding =? 5) in
  if rexW || (3 <? mode) || (negb hasRex && (4 <=? sourceEncoding)) then
    reject code address "only representable-byte register or based memory CMP from opcode 38 is supported"
  else
  let! register269 := decodeRegister sourceEncoding rexR in
  let source := RegisterOperand register269 8 0 in
  if mode =? 3 then
    if rexX || (negb hasRex && (4 <=? rmEncoding)) then
      reject code address "legacy high-byte or REX.X register CMP is unsupported"
    else
    let instruction := with_opcode X_CmpRegReg instruction in
    let! register270 := decodeRegister rmEncoding rexB in
    let instruction := push_operand (RegisterOperand register270 8 0) instruction in
    let instruction := push_operand source instruction in
    Ok (inr (cursor, instruction))
  else
  let baseEncoding := rmEncoding in
  let index := None in
  let scale := 1 in
  let! (cursor, baseEncoding, index, scale) : cursor_in 2 6 * within 0 7 * option Register * one_of [1; 2; 4;
      8] :=
    (if negb ripRelative && (rmEncoding =? 4) then
      if zlength code <=? cursor then
        reject code address "truncated CMP byte memory SIB"
      else
      let! sib := code_at code cursor in
      let cursor := size_add cursor 1 in
      let scaleBits := Z.land (Z.shiftr sib 6) 3 in
      let indexEncoding := Z.land (Z.shiftr sib 3) 7 in
      let baseEncoding := Z.land sib 7 in
      if (mode =? 0) && (baseEncoding =? 5) then
        reject code address "no-base CMP byte memory SIB is unsupported"
      else if negb (indexEncoding =? 4) || rexX then
        let! register272 := decodeRegister indexEncoding rexX in
        let index := Some register272 in
        let scale := Z.shiftl 1 scaleBits in
        Ok (cursor, baseEncoding, index, scale)
      else Ok (cursor, baseEncoding, index, scale)
     else
      if rexX then
        reject code address "REX.X requires a CMP byte memory SIB operand"
      else Ok (cursor, baseEncoding, index, scale)) in
  let displacement := 0 in
  let! (displacement, cursor) : within (- 2 ^ 31) (2 ^ 31 - 1) * cursor_in 2 10 :=
    (if mode =? 1 then
      if zlength code <=? cursor then
        reject code address "truncated CMP byte memory disp8"
      else
      let! byte273 := code_at code cursor in
      let displacement := signed 8 byte273 in
      let cursor := size_add cursor 1 in
      Ok (displacement, cursor)
     else
      if ripRelative || (mode =? 2) then
        if size_sub (zlength code) cursor <? 4 then
          reject code address "truncated CMP byte memory disp32"
        else
        let! span274 := subspan code cursor 4 in
        let! displacement := readI32 span274 in
        let cursor := size_add cursor 4 in
        Ok (displacement, cursor)
      else Ok (displacement, cursor)) in
  let! _ :=
    (if ripRelative then
      let! _ := relativeTarget address (size_sub cursor 0) displacement in
      Ok tt
     else
      Ok tt) in
  let instruction := with_opcode X_CmpMemReg instruction in
  let! choice277 : MemoryOperand := (if ripRelative then Ok (mkMemory Rax displacement 8 None 1 false true
      Segment_None) else (let! register278 := decodeRegister baseEncoding rexB in Ok (mkMemory register278
      displacement 8 index scale true false Segment_None))) in
  let instruction := push_operand (MemoryOp choice277) instruction in
  let instruction := push_operand source instruction in
  Ok (inr (cursor, instruction)).

Definition decodeGeneral_CmpMemReg (cursor : Z) (hasGsOverride : bool) (rexB : bool) (rexX : bool) (mode : Z)
    (rmEncoding : Z) (rhs : Register) (width : Z) (instruction : DecodedInstruction) : outcome Recognition :=
  let ripRelative := (mode =? 0) && (rmEncoding =? 5) in
  let baseEncoding := rmEncoding in
  let index := None in
  let scale := 1 in
  let hasBase := negb ripRelative in
  let! (cursor, baseEncoding, hasBase, index, scale) : cursor_in 2 6 * within 0 7 * bool * option Register *
      one_of [1; 2; 4; 8] :=
    (if rmEncoding =? 4 then
      if zlength code <=? cursor then
        reject code address "truncated CMP memory SIB"
      else
      let! sib := code_at code cursor in
      let cursor := size_add cursor 1 in
      let scaleBits := Z.land (Z.shiftr sib 6) 3 in
      let indexEncoding := Z.land (Z.shiftr sib 3) 7 in
      let baseEncoding := Z.land sib 7 in
      let hasBase := negb ((mode =? 0) && (baseEncoding =? 5)) in
      if negb hasBase && (negb hasGsOverride || negb (indexEncoding =? 4) || rexX) then
        reject code address "only GS-absolute no-base CMP memory SIB is supported"
      else if negb (indexEncoding =? 4) || rexX then
        let! register283 := decodeRegister indexEncoding rexX in
        let index := Some register283 in
        let scale := Z.shiftl 1 scaleBits in
        Ok (cursor, baseEncoding, hasBase, index, scale)
      else Ok (cursor, baseEncoding, hasBase, index, scale)
     else
      Ok (cursor, baseEncoding, hasBase, index, scale)) in
  let displacement := 0 in
  let! (displacement, cursor) : within (- 2 ^ 31) (2 ^ 31 - 1) * cursor_in 2 10 :=
    (if negb hasBase then
      if size_sub (zlength code) cursor <? 4 then
        reject code address "truncated absolute or RIP-relative CMP memory disp32"
      else
      let! span284 := subspan code cursor 4 in
      let! displacement := readI32 span284 in
      let cursor := size_add cursor 4 in
      Ok (displacement, cursor)
     else
      if mode =? 1 then
        if zlength code <=? cursor then
          reject code address "truncated CMP memory disp8"
        else
        let! byte286 := code_at code cursor in
        let displacement := signed 8 byte286 in
        let cursor := size_add cursor 1 in
        Ok (displacement, cursor)
      else if mode =? 2 then
        if size_sub (zlength code) cursor <? 4 then
          reject code address "truncated CMP memory disp32"
        else
        let! span287 := subspan code cursor 4 in
        let! displacement := readI32 span287 in
        let cursor := size_add cursor 4 in
        Ok (displacement, cursor)
      else Ok (displacement, cursor)) in
  let! _ :=
    (if ripRelative then
      let! _ := relativeTarget address (size_sub cursor 0) displacement in
      Ok tt
     else
      Ok tt) in
  let instruction := with_opcode X_CmpMemReg instruction in
  let! register290 := decodeRegister baseEncoding rexB in
  let instruction := push_operand (MemoryOp (mkMemory register290 displacement width index scale hasBase
      ripRelative (if hasGsOverride then Segment_Gs else Segment_None))) instruction in
  let instruction := push_operand (RegisterOperand rhs width 0) instruction in
  Ok (inr (cursor, instruction)).

Definition decodeGeneral_CmpRegReg_2 (cursor : Z) (hasOperandSizeOverride : bool) (hasGsOverride : bool) (rexW
    : bool) (rexB : bool) (rexX : bool) (rexR : bool) (instruction : DecodedInstruction) : outcome Recognition
    :=
  if size_sub (zlength code) cursor <? 1 then
    reject code address "truncated cmp r/m, register"
  else
  let! modrm := code_at code cursor in
  let cursor := size_add cursor 1 in
  let mode := Z.land (Z.shiftr modrm 6) 3 in
  let rmEncoding := Z.land modrm 7 in
  if rexX && negb (mode =? 3) && negb (rmEncoding =? 4) then
    reject code address "only register-direct, RIP-relative, or [base+index*scale+disp8/disp32] CMP from opcode 39 is supported"
  else
  let! rhs := decodeRegister (Z.land (Z.shiftr modrm 3) 7) rexR in
  let width := if rexW then 64 else if hasOperandSizeOverride then 16 else 32 in
  if mode =? 3 then
    let! lhs := decodeRegister rmEncoding rexB in
    let instruction := with_opcode X_CmpRegReg instruction in
    let instruction := push_operand (RegisterOperand lhs width 0) instruction in
    let instruction := push_operand (RegisterOperand rhs width 0) instruction in
    Ok (inr (cursor, instruction))
  else decodeGeneral_CmpMemReg cursor hasGsOverride rexB rexX mode rmEncoding rhs width instruction.

Definition decodeGeneral_CmpRegMem (cursor : Z) (hasRex : bool) (rexB : bool) (rexX : bool) (rexR : bool)
    (instruction : DecodedInstruction) : outcome Recognition :=
  if size_sub (zlength code) cursor <? 1 then
    reject code address "truncated cmp byte register, [memory]"
  else
  let! modrm := code_at code cursor in
  let cursor := size_add cursor 1 in
  let mode := Z.land (Z.shiftr modrm 6) 3 in
  let regEncoding := Z.land (Z.shiftr modrm 3) 7 in
  let rmEncoding := Z.land modrm 7 in
  if (2 <? mode) || (negb hasRex && (4 <=? regEncoding)) || ((mode =? 0) && (rmEncoding =? 5)) then
    reject code address "only CMP byte register, [base+index*scale+disp8/disp32] is supported"
  else
  let! base := decodeRegister rmEncoding rexB in
  let index := None in
  let scale := 1 in
  let! (cursor, base, index, scale) : cursor_in 2 6 * Register * option Register * one_of [1; 2; 4; 8] :=
    (if rmEncoding =? 4 then
      if zlength code <=? cursor then
        reject code address "truncated CMP byte memory SIB"
      else
      let! sib := code_at code cursor in
      let cursor := size_add cursor 1 in
      let scaleBits := Z.land (Z.shiftr sib 6) 3 in
      let indexEncoding := Z.land (Z.shiftr sib 3) 7 in
      let baseEncoding := Z.land sib 7 in
      if (mode =? 0) && (baseEncoding =? 5) then
        reject code address "no-base CMP byte SIB is not supported"
      else
      let! base := decodeRegister baseEncoding rexB in
      if negb (indexEncoding =? 4) || rexX then
        let! register295 := decodeRegister indexEncoding rexX in
        let index := Some register295 in
        let scale := Z.shiftl 1 scaleBits in
        Ok (cursor, base, index, scale)
      else Ok (cursor, base, index, scale)
     else
      Ok (cursor, base, index, scale)) in
  let displacement := 0 in
  let! (displacement, cursor) : within (- 2 ^ 31) (2 ^ 31 - 1) * cursor_in 2 10 :=
    (if mode =? 1 then
      if zlength code <=? cursor then
        reject code address "truncated CMP byte memory disp8"
      else
      let! byte296 := code_at code cursor in
      let displacement := signed 8 byte296 in
      let cursor := size_add cursor 1 in
      Ok (displacement, cursor)
     else
      if mode =? 2 then
        if size_sub (zlength code) cursor <? 4 then
          reject code address "truncated CMP byte memory disp32"
        else
        let! span297 := subspan code cursor 4 in
        let! displacement := readI32 span297 in
        let cursor := size_add cursor 4 in
        Ok (displacement, cursor)
      else Ok (displacement, cursor)) in
  let instruction := with_opcode X_CmpRegMem instruction in
  let! register299 := decodeRegister regEncoding rexR in
  let instruction := push_operand (RegisterOperand register299 8 0) instruction in
  let instruction := push_operand (MemoryOp (mkMemory base displacement 8 index scale true false Segment_None))
      instruction in
  Ok (inr (cursor, instruction)).

Definition decodeGeneral_CmpRegMem_2 (cursor : Z) (hasOperandSizeOverride : bool) (hasGsOverride : bool) (rexW
    : bool) (rexB : bool) (rexX : bool) (rexR : bool) (instruction : DecodedInstruction) : outcome Recognition
    :=
  if size_sub (zlength code) cursor <? 1 then
    reject code address "truncated cmp r32, [base+disp]"
  else
  let! modrm := code_at code cursor in
  let cursor := size_add cursor 1 in
  let mode := Z.land (Z.shiftr modrm 6) 3 in
  let rmEncoding := Z.land modrm 7 in
  let ripRelative := (mode =? 0) && (rmEncoding =? 5) && negb rexB in
  if (2 <? mode) || (rexX && negb (rmEncoding =? 4)) || ((mode =? 0) && (rmEncoding =? 5) && negb ripRelative)
      then
    reject code address "only CMP register, [base+index*scale+disp8/disp32] memory operands are supported"
  else
  let! base := decodeRegister rmEncoding rexB in
  let index := None in
  let scale := 1 in
  let hasBase := true in
  let! (cursor, hasBase, base, index, scale) : cursor_in 2 6 * bool * Register * option Register * one_of [1;
      2; 4; 8] :=
    (if negb ripRelative && (rmEncoding =? 4) then
      if zlength code <=? cursor then
        reject code address "truncated CMP register-memory SIB"
      else
      let! sib := code_at code cursor in
      let cursor := size_add cursor 1 in
      let scaleBits := Z.land (Z.shiftr sib 6) 3 in
      let indexEncoding := Z.land (Z.shiftr sib 3) 7 in
      let baseEncoding := Z.land sib 7 in
      let hasBase := negb ((mode =? 0) && (baseEncoding =? 5) && negb rexB) in
      let! base : Register :=
        (if hasBase then
          let! base := decodeRegister baseEncoding rexB in
          Ok base
         else
          Ok base) in
      if negb (indexEncoding =? 4) || rexX then
        let! register304 := decodeRegister indexEncoding rexX in
        let index := Some register304 in
        let scale := Z.shiftl 1 scaleBits in
        Ok (cursor, hasBase, base, index, scale)
      else Ok (cursor, hasBase, base, index, scale)
     else
      Ok (cursor, hasBase, base, index, scale)) in
  let displacement := 0 in
  let! (displacement, cursor) : within (- 2 ^ 31) (2 ^ 31 - 1) * cursor_in 2 10 :=
    (if ripRelative then
      if size_sub (zlength code) cursor <? 4 then
        reject code address "truncated RIP-relative CMP disp32"
      else
      let! span305 := subspan code cursor 4 in
      let! displacement := readI32 span305 in
      let cursor := size_add cursor 4 in
      let! _ := relativeTarget address (size_sub cursor 0) displacement in
      Ok (displacement, cursor)
     else
      if negb hasBase && (mode =? 0) then
        if size_sub (zlength code) cursor <? 4 then
          reject code address "truncated no-base CMP disp32"
        else
        let! span308 := subspan code cursor 4 in
        let! displacement := readI32 span308 in
        let cursor := size_add cursor 4 in
        Ok (displacement, cursor)
      else if mode =? 1 then
        if zlength code <=? cursor then
          reject code address "truncated CMP memory disp8"
        else
        let! byte310 := code_at code cursor in
        let displacement := signed 8 byte310 in
        let cursor := size_add cursor 1 in
        Ok (displacement, cursor)
      else if mode =? 2 then
        if size_sub (zlength code) cursor <? 4 then
          reject code address "truncated CMP memory disp32"
        else
        let! span311 := subspan code cursor 4 in
        let! displacement := readI32 span311 in
        let cursor := size_add cursor 4 in
        Ok (displacement, cursor)
      else Ok (displacement, cursor)) in
  let! lhs := decodeRegister (Z.land (Z.shiftr modrm 3) 7) rexR in
  let operandWidth := if rexW then 64 else if hasOperandSizeOverride then 16 else 32 in
  let instruction := with_opcode X_CmpRegMem instruction in
  let instruction := push_operand (RegisterOperand lhs operandWidth 0) instruction in
  let instruction := push_operand (MemoryOp (if ripRelative then mkMemory Rax displacement operandWidth None 1
      false true (if hasGsOverride then Segment_Gs else Segment_None) else mkMemory base displacement
      operandWidth index scale hasBase false (if hasGsOverride then Segment_Gs else Segment_None))) instruction
      in
  Ok (inr (cursor, instruction)).

Definition decodeGeneral_XchgMemReg (cursor : Z) (hasRex : bool) (rexB : bool) (rexX : bool) (rexR : bool)
    (instruction : DecodedInstruction) : outcome Recognition :=
  if size_sub (zlength code) cursor <? 1 then
    reject code address "truncated xchg byte [memory], register"
  else
  let! modrm := code_at code cursor in
  let cursor := size_add cursor 1 in
  let mode := Z.land (Z.shiftr modrm 6) 3 in
  let regEncoding := Z.land (Z.shiftr modrm 3) 7 in
  let rmEncoding := Z.land modrm 7 in
  let ripRelative := (mode =? 0) && (rmEncoding =? 5) && negb rexB in
  if (2 <? mode) || ((mode =? 0) && (rmEncoding =? 5) && rexB) || (negb hasRex && (4 <=? regEncoding)) then
    reject code address "only XCHG byte [base+index*scale+disp8/disp32/RIP], low-byte-register is supported"
  else
  let! base := decodeRegister rmEncoding rexB in
  let index := None in
  let scale := 1 in
  let! (cursor, base, index, scale) : cursor_in 2 6 * Register * option Register * one_of [1; 2; 4; 8] :=
    (if negb ripRelative && (rmEncoding =? 4) then
      if zlength code <=? cursor then
        reject code address "truncated byte XCHG memory SIB"
      else
      let! sib := code_at code cursor in
      let cursor := size_add cursor 1 in
      let scaleBits := Z.land (Z.shiftr sib 6) 3 in
      let indexEncoding := Z.land (Z.shiftr sib 3) 7 in
      let baseEncoding := Z.land sib 7 in
      if (mode =? 0) && (baseEncoding =? 5) then
        reject code address "no-base SIB byte XCHG is not supported"
      else
      let! base := decodeRegister baseEncoding rexB in
      if negb (indexEncoding =? 4) || rexX then
        let! register318 := decodeRegister indexEncoding rexX in
        let index := Some register318 in
        let scale := Z.shiftl 1 scaleBits in
        Ok (cursor, base, index, scale)
      else Ok (cursor, base, index, scale)
     else
      if negb ripRelative && rexX then
        reject code address "REX.X requires a byte XCHG memory SIB"
      else Ok (cursor, base, index, scale)) in
  let displacement := 0 in
  let! (displacement, cursor) : within (- 2 ^ 31) (2 ^ 31 - 1) * cursor_in 2 10 :=
    (if ripRelative then
      if size_sub (zlength code) cursor <? 4 then
        reject code address "truncated RIP-relative byte XCHG disp32"
      else
      let! span319 := subspan code cursor 4 in
      let! displacement := readI32 span319 in
      let cursor := size_add cursor 4 in
      let! _ := relativeTarget address (size_sub cursor 0) displacement in
      Ok (displacement, cursor)
     else
      if mode =? 1 then
        if zlength code <=? cursor then
          reject code address "truncated byte XCHG disp8"
        else
        let! byte322 := code_at code cursor in
        let displacement := signed 8 byte322 in
        let cursor := size_add cursor 1 in
        Ok (displacement, cursor)
      else if mode =? 2 then
        if size_sub (zlength code) cursor <? 4 then
          reject code address "truncated byte XCHG disp32"
        else
        let! span323 := subspan code cursor 4 in
        let! displacement := readI32 span323 in
        let cursor := size_add cursor 4 in
        Ok (displacement, cursor)
      else Ok (displacement, cursor)) in
  let instruction := with_opcode X_XchgMemReg instruction in
  let instruction := push_operand (MemoryOp (if ripRelative then mkMemory Rax displacement 8 None 1 false true
      Segment_None else mkMemory base displacement 8 index scale true false Segment_None)) instruction in
  let! register325 := decodeRegister regEncoding rexR in
  let instruction := push_operand (RegisterOperand register325 8 0) instruction in
  Ok (inr (cursor, instruction)).

Definition decodeGeneral_XchgMemReg_2 (cursor : Z) (rexW : bool) (rexB : bool) (rexX : bool) (rexR : bool)
    (instruction : DecodedInstruction) : outcome Recognition :=
  if size_sub (zlength code) cursor <? 1 then
    reject code address "truncated xchg [memory], register"
  else
  let! modrm := code_at code cursor in
  let cursor := size_add cursor 1 in
  let mode := Z.land (Z.shiftr modrm 6) 3 in
  let rmEncoding := Z.land modrm 7 in
  let ripRelative := (mode =? 0) && (rmEncoding =? 5) && negb rexB in
  if (2 <? mode) || ((mode =? 0) && (rmEncoding =? 5) && rexB) then
    reject code address "only XCHG dword/qword [base+index*scale+disp8/disp32/RIP], register is supported"
  else
  let! base := decodeRegister rmEncoding rexB in
  let index := None in
  let scale := 1 in
  let! (cursor, base, index, scale) : cursor_in 2 6 * Register * option Register * one_of [1; 2; 4; 8] :=
    (if negb ripRelative && (rmEncoding =? 4) then
      if zlength code <=? cursor then
        reject code address "truncated XCHG memory SIB"
      else
      let! sib := code_at code cursor in
      let cursor := size_add cursor 1 in
      let scaleBits := Z.land (Z.shiftr sib 6) 3 in
      let indexEncoding := Z.land (Z.shiftr sib 3) 7 in
      let baseEncoding := Z.land sib 7 in
      if (mode =? 0) && (baseEncoding =? 5) then
        reject code address "no-base SIB XCHG is not supported"
      else
      let! base := decodeRegister baseEncoding rexB in
      if negb (indexEncoding =? 4) || rexX then
        let! register330 := decodeRegister indexEncoding rexX in
        let index := Some register330 in
        let scale := Z.shiftl 1 scaleBits in
        Ok (cursor, base, index, scale)
      else Ok (cursor, base, index, scale)
     else
      if negb ripRelative && rexX then
        reject code address "REX.X requires an XCHG memory SIB"
      else Ok (cursor, base, index, scale)) in
  let displacement := 0 in
  let! (displacement, cursor) : within (- 2 ^ 31) (2 ^ 31 - 1) * cursor_in 2 10 :=
    (if ripRelative then
      if size_sub (zlength code) cursor <? 4 then
        reject code address "truncated RIP-relative XCHG memory disp32"
      else
      let! span331 := subspan code cursor 4 in
      let! displacement := readI32 span331 in
      let cursor := size_add cursor 4 in
      let! _ := relativeTarget address (size_sub cursor 0) displacement in
      Ok (displacement, cursor)
     else
      if mode =? 1 then
        if zlength code <=? cursor then
          reject code address "truncated XCHG memory disp8"
        else
        let! byte334 := code_at code cursor in
        let displacement := signed 8 byte334 in
        let cursor := size_add cursor 1 in
        Ok (displacement, cursor)
      else if mode =? 2 then
        if size_sub (zlength code) cursor <? 4 then
          reject code address "truncated XCHG memory disp32"
        else
        let! span335 := subspan code cursor 4 in
        let! displacement := readI32 span335 in
        let cursor := size_add cursor 4 in
        Ok (displacement, cursor)
      else Ok (displacement, cursor)) in
  let operandWidth := if rexW then 64 else 32 in
  let instruction := with_opcode X_XchgMemReg instruction in
  let instruction := push_operand (MemoryOp (if ripRelative then mkMemory Rax displacement operandWidth None 1
      false true Segment_None else mkMemory base displacement operandWidth index scale true false
      Segment_None)) instruction in
  let! register337 := decodeRegister (Z.land (Z.shiftr modrm 3) 7) rexR in
  let instruction := push_operand (RegisterOperand register337 operandWidth 0) instruction in
  Ok (inr (cursor, instruction)).

Definition decodeGeneral_MovMemReg (cursor : Z) (hasRex : bool) (rexB : bool) (rexX : bool) (rexR : bool) (mode
    : Z) (regEncoding : Z) (rmEncoding : Z) (ripRelative : bool) (instruction : DecodedInstruction) : outcome
    Recognition :=
  let! base := decodeRegister rmEncoding rexB in
  let index := None in
  let scale := 1 in
  let! (cursor, base, index, scale) : cursor_in 2 6 * Register * option Register * one_of [1; 2; 4; 8] :=
    (if negb ripRelative && (rmEncoding =? 4) then
      if zlength code <=? cursor then
        reject code address "truncated MOV byte store SIB"
      else
      let! sib := code_at code cursor in
      let cursor := size_add cursor 1 in
      let scaleBits := Z.land (Z.shiftr sib 6) 3 in
      let indexEncoding := Z.land (Z.shiftr sib 3) 7 in
      let baseEncoding := Z.land sib 7 in
      if (mode =? 0) && (baseEncoding =? 5) then
        reject code address "no-base MOV byte store SIB is not supported"
      else
      let! base := decodeRegister baseEncoding rexB in
      if negb (indexEncoding =? 4) || rexX then
        let! register344 := decodeRegister indexEncoding rexX in
        let index := Some register344 in
        let scale := Z.shiftl 1 scaleBits in
        Ok (cursor, base, index, scale)
      else Ok (cursor, base, index, scale)
     else
      Ok (cursor, base, index, scale)) in
  let displacement := 0 in
  let! (displacement, cursor) : within (- 2 ^ 31) (2 ^ 31 - 1) * cursor_in 2 10 :=
    (if ripRelative then
      if size_sub (zlength code) cursor <? 4 then
        reject code address "truncated RIP-relative byte MOV disp32"
      else
      let! span345 := subspan code cursor 4 in
      let! displacement := readI32 span345 in
      let cursor := size_add cursor 4 in
      Ok (displacement, cursor)
     else
      if mode =? 1 then
        if zlength code <=? cursor then
          reject code address "truncated byte MOV disp8"
        else
        let! byte347 := code_at code cursor in
        let displacement := signed 8 byte347 in
        let cursor := size_add cursor 1 in
        Ok (displacement, cursor)
      else if mode =? 2 then
        if size_sub (zlength code) cursor <? 4 then
          reject code address "truncated byte MOV disp32"
        else
        let! span348 := subspan code cursor 4 in
        let! displacement := readI32 span348 in
        let cursor := size_add cursor 4 in
        Ok (displacement, cursor)
      else Ok (displacement, cursor)) in
  let! _ :=
    (if ripRelative then
      let! _ := relativeTarget address (size_sub cursor 0) displacement in
      Ok tt
     else
      Ok tt) in
  let instruction := with_opcode X_MovMemReg instruction in
  let instruction := push_operand (MemoryOp (if ripRelative then mkMemory Rax displacement 8 None 1 false true
      Segment_None else mkMemory base displacement 8 index scale true false Segment_None)) instruction in
  let highByteSource := negb hasRex && (4 <=? regEncoding) in
  let! choice351 : Register := (if highByteSource then (let! register352 := decodeRegister (Z.land regEncoding
      3) false in Ok register352) else (let! register353 := decodeRegister regEncoding rexR in Ok register353))
      in
  let instruction := push_operand (RegisterOperand choice351 8 (if highByteSource then 1 else 0)) instruction in
  Ok (inr (cursor, instruction)).

Definition decodeGeneral_MovRegReg (cursor : Z) (hasRex : bool) (rexW : bool) (rexB : bool) (rexX : bool) (rexR
    : bool) (instruction : DecodedInstruction) : outcome Recognition :=
  if size_sub (zlength code) cursor <? 1 then
    reject code address "truncated mov byte [memory], register"
  else
  let! modrm := code_at code cursor in
  let cursor := size_add cursor 1 in
  let mode := Z.land (Z.shiftr modrm 6) 3 in
  let regEncoding := Z.land (Z.shiftr modrm 3) 7 in
  let rmEncoding := Z.land modrm 7 in
  let ripRelative := (mode =? 0) && (rmEncoding =? 5) in
  if rexW || (3 <? mode) || (negb hasRex && (mode =? 3) && ((4 <=? regEncoding) || (4 <=? rmEncoding))) then
    reject code address "only MOV byte [base+index*scale+disp8/disp32], low-byte-register is supported"
  else if mode =? 3 then
    let instruction := with_opcode X_MovRegReg instruction in
    let! register339 := decodeRegister rmEncoding rexB in
    let instruction := push_operand (RegisterOperand register339 8 0) instruction in
    let! register340 := decodeRegister regEncoding rexR in
    let instruction := push_operand (RegisterOperand register340 8 0) instruction in
    Ok (inr (cursor, instruction))
  else decodeGeneral_MovMemReg cursor hasRex rexB rexX rexR mode regEncoding rmEncoding ripRelative instruction.

Definition decodeGeneral_MovRegMem (cursor : Z) (hasRex : bool) (rexW : bool) (rexB : bool) (rexX : bool) (rexR
    : bool) (instruction : DecodedInstruction) : outcome Recognition :=
  if size_sub (zlength code) cursor <? 1 then
    reject code address "truncated mov byte register, [memory]"
  else
  let! modrm := code_at code cursor in
  let cursor := size_add cursor 1 in
  let mode := Z.land (Z.shiftr modrm 6) 3 in
  let regEncoding := Z.land (Z.shiftr modrm 3) 7 in
  let rmEncoding := Z.land modrm 7 in
  if (2 <? mode) || rexW || (negb hasRex && (4 <=? regEncoding)) then
    reject code address "only MOV byte register, [base+index*scale+disp8/disp32] is supported"
  else
  let ripRelative := (mode =? 0) && (rmEncoding =? 5) in
  let! base := decodeRegister rmEncoding rexB in
  let index := None in
  let scale := 1 in
  let! (cursor, base, index, scale) : cursor_in 2 6 * Register * option Register * one_of [1; 2; 4; 8] :=
    (if negb ripRelative && (rmEncoding =? 4) then
      if zlength code <=? cursor then
        reject code address "truncated MOV byte memory SIB"
      else
      let! sib := code_at code cursor in
      let cursor := size_add cursor 1 in
      let scaleBits := Z.land (Z.shiftr sib 6) 3 in
      let indexEncoding := Z.land (Z.shiftr sib 3) 7 in
      let baseEncoding := Z.land sib 7 in
      if (mode =? 0) && (baseEncoding =? 5) then
        reject code address "no-base MOV byte SIB is not supported"
      else
      let! base := decodeRegister baseEncoding rexB in
      if negb (indexEncoding =? 4) || rexX then
        let! register358 := decodeRegister indexEncoding rexX in
        let index := Some register358 in
        let scale := Z.shiftl 1 scaleBits in
        Ok (cursor, base, index, scale)
      else Ok (cursor, base, index, scale)
     else
      Ok (cursor, base, index, scale)) in
  let displacement := 0 in
  let! (displacement, cursor) : within (- 2 ^ 31) (2 ^ 31 - 1) * cursor_in 2 10 :=
    (if ripRelative then
      if size_sub (zlength code) cursor <? 4 then
        reject code address "truncated RIP-relative byte MOV load disp32"
      else
      let! span359 := subspan code cursor 4 in
      let! displacement := readI32 span359 in
      let cursor := size_add cursor 4 in
      Ok (displacement, cursor)
     else
      if mode =? 1 then
        if zlength code <=? cursor then
          reject code address "truncated byte load disp8"
        else
        let! byte361 := code_at code cursor in
        let displacement := signed 8 byte361 in
        let cursor := size_add cursor 1 in
        Ok (displacement, cursor)
      else if mode =? 2 then
        if size_sub (zlength code) cursor <? 4 then
          reject code address "truncated byte load disp32"
        else
        let! span362 := subspan code cursor 4 in
        let! displacement := readI32 span362 in
        let cursor := size_add cursor 4 in
        Ok (displacement, cursor)
      else Ok (displacement, cursor)) in
  let! _ :=
    (if ripRelative then
      let! _ := relativeTarget address (size_sub cursor 0) displacement in
      Ok tt
     else
      Ok tt) in
  let! destination := decodeRegister regEncoding rexR in
  let instruction := with_opcode X_MovRegMem instruction in
  let instruction := push_operand (RegisterOperand destination 8 0) instruction in
  let instruction := push_operand (MemoryOp (if ripRelative then mkMemory Rax displacement 8 None 1 false true
      Segment_None else mkMemory base displacement 8 index scale true false Segment_None)) instruction in
  Ok (inr (cursor, instruction)).

Definition decodeGeneral_MovMemReg_3 (cursor : Z) (hasGsOverride : bool) (rexB : bool) (rexX : bool) (opcode :
    Z) (mode : Z) (reg : Register) (rm : Register) (operandWidth : Z) (rmEncoding : Z) (instruction :
    DecodedInstruction) : outcome Recognition :=
  if (2 <? mode) || ((mode =? 0) && (rmEncoding =? 5)) then
    reject code address "only MOV register to/from [base+disp8/disp32] memory operands are supported"
  else
  let base := rm in
  let index := None in
  let scale := 1 in
  let hasBase := true in
  let! (cursor, hasBase, base, index, scale) : cursor_in 2 6 * bool * Register * option Register * one_of [1;
      2; 4; 8] :=
    (if rmEncoding =? 4 then
      if zlength code <=? cursor then
        reject code address "truncated MOV memory SIB"
      else
      let! sib := code_at code cursor in
      let cursor := size_add cursor 1 in
      let scaleBits := Z.land (Z.shiftr sib 6) 3 in
      let indexEncoding := Z.land (Z.shiftr sib 3) 7 in
      let baseEncoding := Z.land sib 7 in
      let hasIndex := negb (indexEncoding =? 4) || rexX in
      let noBase := (mode =? 0) && (baseEncoding =? 5) in
      let hasBase := negb noBase in
      let! base : Register :=
        (if hasBase then
          let! base := decodeRegister baseEncoding rexB in
          Ok base
         else
          Ok base) in
      if hasIndex then
        let! register374 := decodeRegister indexEncoding rexX in
        let index := Some register374 in
        let scale := Z.shiftl 1 scaleBits in
        Ok (cursor, hasBase, base, index, scale)
      else Ok (cursor, hasBase, base, index, scale)
     else
      Ok (cursor, hasBase, base, index, scale)) in
  let displacement := 0 in
  let! (displacement, cursor) : within (- 2 ^ 31) (2 ^ 31 - 1) * cursor_in 2 10 :=
    (if negb hasBase then
      if size_sub (zlength code) cursor <? 4 then
        reject code address "truncated no-base MOV SIB displacement"
      else
      let! span375 := subspan code cursor 4 in
      let! displacement := readI32 span375 in
      let cursor := size_add cursor 4 in
      Ok (displacement, cursor)
     else
      if mode =? 1 then
        if zlength code <=? cursor then
          reject code address "truncated MOV memory disp8"
        else
        let! byte377 := code_at code cursor in
        let displacement := signed 8 byte377 in
        let cursor := size_add cursor 1 in
        Ok (displacement, cursor)
      else if mode =? 2 then
        if size_sub (zlength code) cursor <? 4 then
          reject code address "truncated MOV memory disp32"
        else
        let! span378 := subspan code cursor 4 in
        let! displacement := readI32 span378 in
        let cursor := size_add cursor 4 in
        Ok (displacement, cursor)
      else Ok (displacement, cursor)) in
  if opcode =? 0x89 then
    let instruction := with_opcode X_MovMemReg instruction in
    let instruction := push_operand (MemoryOp (mkMemory base displacement operandWidth index scale hasBase
        false (if hasGsOverride then Segment_Gs else Segment_None))) instruction in
    let instruction := push_operand (RegisterOperand reg operandWidth 0) instruction in
    Ok (inr (cursor, instruction))
  else
  let instruction := with_opcode X_MovRegMem instruction in
  let instruction := push_operand (RegisterOperand reg operandWidth 0) instruction in
  let instruction := push_operand (MemoryOp (mkMemory base displacement operandWidth index scale hasBase false
      (if hasGsOverride then Segment_Gs else Segment_None))) instruction in
  Ok (inr (cursor, instruction)).

Definition decodeGeneral_MovMemReg_2 (cursor : Z) (hasOperandSizeOverride : bool) (hasGsOverride : bool) (rexW
    : bool) (rexB : bool) (rexX : bool) (rexR : bool) (opcode : Z) (instruction : DecodedInstruction) : outcome
    Recognition :=
  if size_sub (zlength code) cursor <? 1 then
    reject code address "truncated mov r64, r64"
  else
  let! modrm := code_at code cursor in
  let cursor := size_add cursor 1 in
  let mode := Z.land (Z.shiftr modrm 6) 3 in
  let! reg := decodeRegister (Z.land (Z.shiftr modrm 3) 7) rexR in
  let! rm := decodeRegister (Z.land modrm 7) rexB in
  let operandWidth := if rexW then 64 else if hasOperandSizeOverride then 16 else 32 in
  let rmEncoding := Z.land modrm 7 in
  if (mode =? 0) && (rmEncoding =? 5) then
    if size_sub (zlength code) cursor <? 4 then
      reject code address "truncated RIP-relative MOV displacement"
    else
    let! span369 := subspan code cursor 4 in
    let! displacement := readI32 span369 in
    let cursor := size_add cursor 4 in
    let! _ := relativeTarget address (size_sub cursor 0) displacement in
    let memory := mkMemory Rax displacement operandWidth None 1 false true (if hasGsOverride then Segment_Gs
        else Segment_None) in
    if opcode =? 0x89 then
      let instruction := with_opcode X_MovMemReg instruction in
      let instruction := push_operand (MemoryOp memory) instruction in
      let instruction := push_operand (RegisterOperand reg operandWidth 0) instruction in
      Ok (inr (cursor, instruction))
    else
    let instruction := with_opcode X_MovRegMem instruction in
    let instruction := push_operand (RegisterOperand reg operandWidth 0) instruction in
    let instruction := push_operand (MemoryOp memory) instruction in
    Ok (inr (cursor, instruction))
  else if (mode =? 3) && negb rexX && negb hasGsOverride then
    let instruction := with_opcode X_MovRegReg instruction in
    let instruction := push_operand (RegisterOperand (if opcode =? 0x89 then rm else reg) operandWidth 0)
        instruction in
    let instruction := push_operand (RegisterOperand (if opcode =? 0x89 then reg else rm) operandWidth 0)
        instruction in
    Ok (inr (cursor, instruction))
  else decodeGeneral_MovMemReg_3 cursor hasGsOverride rexB rexX opcode mode reg rm operandWidth rmEncoding
      instruction.

Definition decodeGeneral_AndRegMem (cursor : Z) (hasRex : bool) (rexB : bool) (rexX : bool) (rexR : bool)
    (instruction : DecodedInstruction) : outcome Recognition :=
  if size_sub (zlength code) cursor <? 1 then
    reject code address "truncated and byte register, [memory]"
  else
  let! modrm := code_at code cursor in
  let cursor := size_add cursor 1 in
  let mode := Z.land (Z.shiftr modrm 6) 3 in
  let regEncoding := Z.land (Z.shiftr modrm 3) 7 in
  let rmEncoding := Z.land modrm 7 in
  let ripRelative := (mode =? 0) && (rmEncoding =? 5) && negb rexB in
  if (mode =? 3) || ((mode =? 0) && (rmEncoding =? 5) && rexB) || (ripRelative && rexX) || (negb hasRex && (4
      <=? regEncoding)) then
    reject code address "only AND representable-byte-register, byte [base+index*scale+disp8/disp32/RIP] is supported"
  else
  let! base := decodeRegister rmEncoding rexB in
  let index := None in
  let scale := 1 in
  let! (cursor, base, index, scale) : cursor_in 2 6 * Register * option Register * one_of [1; 2; 4; 8] :=
    (if negb ripRelative && (rmEncoding =? 4) then
      if zlength code <=? cursor then
        reject code address "truncated byte AND memory SIB"
      else
      let! sib := code_at code cursor in
      let cursor := size_add cursor 1 in
      let scaleBits := Z.land (Z.shiftr sib 6) 3 in
      let indexEncoding := Z.land (Z.shiftr sib 3) 7 in
      let baseEncoding := Z.land sib 7 in
      if (mode =? 0) && (baseEncoding =? 5) then
        reject code address "no-base SIB byte AND is not supported"
      else
      let! base := decodeRegister baseEncoding rexB in
      if negb (indexEncoding =? 4) || rexX then
        let! register384 := decodeRegister indexEncoding rexX in
        let index := Some register384 in
        let scale := Z.shiftl 1 scaleBits in
        Ok (cursor, base, index, scale)
      else Ok (cursor, base, index, scale)
     else
      if negb ripRelative && rexX then
        reject code address "REX.X requires a byte AND memory SIB"
      else Ok (cursor, base, index, scale)) in
  let displacement := 0 in
  let! (displacement, cursor) : within (- 2 ^ 31) (2 ^ 31 - 1) * cursor_in 2 10 :=
    (if ripRelative then
      if size_sub (zlength code) cursor <? 4 then
        reject code address "truncated RIP-relative byte AND disp32"
      else
      let! span385 := subspan code cursor 4 in
      let! displacement := readI32 span385 in
      let cursor := size_add cursor 4 in
      let! _ := relativeTarget address (size_sub cursor 0) displacement in
      Ok (displacement, cursor)
     else
      if mode =? 1 then
        if zlength code <=? cursor then
          reject code address "truncated byte AND disp8"
        else
        let! byte388 := code_at code cursor in
        let displacement := signed 8 byte388 in
        let cursor := size_add cursor 1 in
        Ok (displacement, cursor)
      else if mode =? 2 then
        if size_sub (zlength code) cursor <? 4 then
          reject code address "truncated byte AND disp32"
        else
        let! span389 := subspan code cursor 4 in
        let! displacement := readI32 span389 in
        let cursor := size_add cursor 4 in
        Ok (displacement, cursor)
      else Ok (displacement, cursor)) in
  let instruction := with_opcode X_AndRegMem instruction in
  let! register391 := decodeRegister regEncoding rexR in
  let instruction := push_operand (RegisterOperand register391 8 0) instruction in
  let instruction := push_operand (MemoryOp (if ripRelative then mkMemory Rax displacement 8 None 1 false true
      Segment_None else mkMemory base displacement 8 index scale true false Segment_None)) instruction in
  Ok (inr (cursor, instruction)).

Definition decodeGeneral_AndRegMem_2 (cursor : Z) (rexW : bool) (rexB : bool) (rexX : bool) (rexR : bool)
    (instruction : DecodedInstruction) : outcome Recognition :=
  if size_sub (zlength code) cursor <? 1 then
    reject code address "truncated and register, [memory]"
  else
  let! modrm := code_at code cursor in
  let cursor := size_add cursor 1 in
  let mode := Z.land (Z.shiftr modrm 6) 3 in
  let regEncoding := Z.land (Z.shiftr modrm 3) 7 in
  let rmEncoding := Z.land modrm 7 in
  let ripRelative := (mode =? 0) && (rmEncoding =? 5) && negb rexB in
  if (2 <? mode) || ((mode =? 0) && (rmEncoding =? 5) && rexB) || (ripRelative && rexX) then
    reject code address "only AND r32/r64, dword/qword [base+index*scale+disp8/disp32] or RIP-relative memory is supported from opcode 23"
  else
  let! base := decodeRegister rmEncoding rexB in
  let index := None in
  let scale := 1 in
  let! (cursor, base, index, scale) : cursor_in 2 6 * Register * option Register * one_of [1; 2; 4; 8] :=
    (if rmEncoding =? 4 then
      if zlength code <=? cursor then
        reject code address "truncated memory AND SIB"
      else
      let! sib := code_at code cursor in
      let cursor := size_add cursor 1 in
      let scaleBits := Z.land (Z.shiftr sib 6) 3 in
      let indexEncoding := Z.land (Z.shiftr sib 3) 7 in
      let baseEncoding := Z.land sib 7 in
      if (mode =? 0) && (baseEncoding =? 5) then
        reject code address "no-base SIB memory AND is not supported"
      else
      let! base := decodeRegister baseEncoding rexB in
      if negb (indexEncoding =? 4) || rexX then
        let! register396 := decodeRegister indexEncoding rexX in
        let index := Some register396 in
        let scale := Z.shiftl 1 scaleBits in
        Ok (cursor, base, index, scale)
      else Ok (cursor, base, index, scale)
     else
      Ok (cursor, base, index, scale)) in
  let displacement := 0 in
  let! (displacement, cursor) : within (- 2 ^ 31) (2 ^ 31 - 1) * cursor_in 2 10 :=
    (if mode =? 1 then
      if zlength code <=? cursor then
        reject code address "truncated memory AND disp8"
      else
      let! byte397 := code_at code cursor in
      let displacement := signed 8 byte397 in
      let cursor := size_add cursor 1 in
      Ok (displacement, cursor)
     else
      if (mode =? 2) || ripRelative then
        if size_sub (zlength code) cursor <? 4 then
          reject code address "truncated memory AND disp32"
        else
        let! span398 := subspan code cursor 4 in
        let! displacement := readI32 span398 in
        let cursor := size_add cursor 4 in
        Ok (displacement, cursor)
      else Ok (displacement, cursor)) in
  let! _ :=
    (if ripRelative then
      let! _ := relativeTarget address (size_sub cursor 0) displacement in
      Ok tt
     else
      Ok tt) in
  let instruction := with_opcode X_AndRegMem instruction in
  let width := if rexW then 64 else 32 in
  let! register401 := decodeRegister regEncoding rexR in
  let instruction := push_operand (RegisterOperand register401 width 0) instruction in
  let instruction := push_operand (MemoryOp (if ripRelative then mkMemory Rax displacement width None 1 false
      true Segment_None else mkMemory base displacement width index scale true false Segment_None)) instruction
      in
  Ok (inr (cursor, instruction)).

Definition decodeGeneral_TestReg8Reg8 (cursor : Z) (hasRex : bool) (rexB : bool) (rexX : bool) (rexR : bool)
    (instruction : DecodedInstruction) : outcome Recognition :=
  if size_sub (zlength code) cursor <? 1 then
    reject code address "truncated test r/m8, r8"
  else
  let! modrm := code_at code cursor in
  let cursor := size_add cursor 1 in
  let mode := Z.land (Z.shiftr modrm 6) 3 in
  let regEncoding := Z.land (Z.shiftr modrm 3) 7 in
  let rmEncoding := Z.land modrm 7 in
  if negb hasRex && (4 <=? regEncoding) then
    reject code address "high-byte register TEST is not supported"
  else if mode =? 3 then
    if negb hasRex && (4 <=? rmEncoding) then
      reject code address "high-byte register TEST is not supported"
    else
    let instruction := with_opcode X_TestReg8Reg8 instruction in
    let! register403 := decodeRegister rmEncoding rexB in
    let instruction := push_operand (RegisterOperand register403 8 0) instruction in
    let! register404 := decodeRegister regEncoding rexR in
    let instruction := push_operand (RegisterOperand register404 8 0) instruction in
    Ok (inr (cursor, instruction))
  else
  let ripRelative := (mode =? 0) && (rmEncoding =? 5) && negb rexB in
  if (2 <? mode) || (rexX && negb (rmEncoding =? 4)) then
    reject code address "unsupported TEST byte memory operand"
  else
  let! base := decodeRegister rmEncoding rexB in
  let index := None in
  let scale := 1 in
  let hasBase := negb ripRelative in
  let! (cursor, hasBase, base, index, scale) : cursor_in 2 6 * bool * Register * option Register * one_of [1;
      2; 4; 8] :=
    (if negb ripRelative && (rmEncoding =? 4) then
      if zlength code <=? cursor then
        reject code address "truncated TEST byte memory SIB"
      else
      let! sib := code_at code cursor in
      let cursor := size_add cursor 1 in
      let scaleBits := Z.land (Z.shiftr sib 6) 3 in
      let indexEncoding := Z.land (Z.shiftr sib 3) 7 in
      let baseEncoding := Z.land sib 7 in
      let hasBase := negb ((mode =? 0) && (baseEncoding =? 5) && negb rexB) in
      let! base : Register :=
        (if hasBase then
          let! base := decodeRegister baseEncoding rexB in
          Ok base
         else
          Ok base) in
      if negb (indexEncoding =? 4) || rexX then
        let! register408 := decodeRegister indexEncoding rexX in
        let index := Some register408 in
        let scale := Z.shiftl 1 scaleBits in
        Ok (cursor, hasBase, base, index, scale)
      else Ok (cursor, hasBase, base, index, scale)
     else
      Ok (cursor, hasBase, base, index, scale)) in
  let displacement := 0 in
  let! (displacement, cursor) : within (- 2 ^ 31) (2 ^ 31 - 1) * cursor_in 2 10 :=
    (if mode =? 1 then
      if zlength code <=? cursor then
        reject code address "truncated TEST byte memory disp8"
      else
      let! byte409 := code_at code cursor in
      let displacement := signed 8 byte409 in
      let cursor := size_add cursor 1 in
      Ok (displacement, cursor)
     else
      if (mode =? 2) || (negb hasBase && negb ripRelative) || ripRelative then
        if size_sub (zlength code) cursor <? 4 then
          reject code address "truncated TEST byte memory disp32"
        else
        let! span410 := subspan code cursor 4 in
        let! displacement := readI32 span410 in
        let cursor := size_add cursor 4 in
        Ok (displacement, cursor)
      else Ok (displacement, cursor)) in
  let instruction := with_opcode X_TestMemReg instruction in
  let instruction := push_operand (MemoryOp (mkMemory base displacement 8 index scale hasBase ripRelative
      Segment_None)) instruction in
  let! register412 := decodeRegister regEncoding rexR in
  let instruction := push_operand (RegisterOperand register412 8 0) instruction in
  Ok (inr (cursor, instruction)).

Definition decodeGeneral_TestRegReg (cursor : Z) (rexW : bool) (rexB : bool) (rexX : bool) (rexR : bool)
    (instruction : DecodedInstruction) : outcome Recognition :=
  if size_sub (zlength code) cursor <? 1 then
    reject code address "truncated test r64, r64"
  else
  let! modrm := code_at code cursor in
  let cursor := size_add cursor 1 in
  let mode := Z.land (Z.shiftr modrm 6) 3 in
  let regEncoding := Z.land (Z.shiftr modrm 3) 7 in
  let rmEncoding := Z.land modrm 7 in
  let! reg := decodeRegister regEncoding rexR in
  let operandWidth := if rexW then 64 else 32 in
  if mode =? 3 then
    if rexX then
      reject code address "REX.X is invalid for register-direct TEST"
    else
    let instruction := with_opcode X_TestRegReg instruction in
    let! register415 := decodeRegister rmEncoding rexB in
    let instruction := push_operand (RegisterOperand register415 operandWidth 0) instruction in
    let instruction := push_operand (RegisterOperand reg operandWidth 0) instruction in
    Ok (inr (cursor, instruction))
  else
  let ripRelative := (mode =? 0) && (rmEncoding =? 5) && negb rexB in
  if (2 <? mode) || (rexX && negb (rmEncoding =? 4)) then
    reject code address "unsupported TEST memory operand"
  else
  let! base := decodeRegister rmEncoding rexB in
  let index := None in
  let scale := 1 in
  let hasBase := negb ripRelative in
  let! (cursor, hasBase, base, index, scale) : cursor_in 2 6 * bool * Register * option Register * one_of [1;
      2; 4; 8] :=
    (if negb ripRelative && (rmEncoding =? 4) then
      if zlength code <=? cursor then
        reject code address "truncated TEST memory SIB"
      else
      let! sib := code_at code cursor in
      let cursor := size_add cursor 1 in
      let scaleBits := Z.land (Z.shiftr sib 6) 3 in
      let indexEncoding := Z.land (Z.shiftr sib 3) 7 in
      let baseEncoding := Z.land sib 7 in
      let hasBase := negb ((mode =? 0) && (baseEncoding =? 5) && negb rexB) in
      let! base : Register :=
        (if hasBase then
          let! base := decodeRegister baseEncoding rexB in
          Ok base
         else
          Ok base) in
      if negb (indexEncoding =? 4) || rexX then
        let! register419 := decodeRegister indexEncoding rexX in
        let index := Some register419 in
        let scale := Z.shiftl 1 scaleBits in
        Ok (cursor, hasBase, base, index, scale)
      else Ok (cursor, hasBase, base, index, scale)
     else
      Ok (cursor, hasBase, base, index, scale)) in
  let displacement := 0 in
  let! (displacement, cursor) : within (- 2 ^ 31) (2 ^ 31 - 1) * cursor_in 2 10 :=
    (if mode =? 1 then
      if zlength code <=? cursor then
        reject code address "truncated TEST memory disp8"
      else
      let! byte420 := code_at code cursor in
      let displacement := signed 8 byte420 in
      let cursor := size_add cursor 1 in
      Ok (displacement, cursor)
     else
      if (mode =? 2) || negb hasBase || ripRelative then
        if size_sub (zlength code) cursor <? 4 then
          reject code address "truncated TEST memory disp32"
        else
        let! span421 := subspan code cursor 4 in
        let! displacement := readI32 span421 in
        let cursor := size_add cursor 4 in
        Ok (displacement, cursor)
      else Ok (displacement, cursor)) in
  let instruction := with_opcode X_TestMemReg instruction in
  let instruction := push_operand (MemoryOp (mkMemory base displacement operandWidth index scale hasBase
      ripRelative Segment_None)) instruction in
  let instruction := push_operand (RegisterOperand reg operandWidth 0) instruction in
  Ok (inr (cursor, instruction)).

Definition decodeGeneral_LeaRegRipRelative (cursor : Z) (rexW : bool) (rexB : bool) (rexX : bool) (rexR : bool)
    (instruction : DecodedInstruction) : outcome Recognition :=
  if size_sub (zlength code) cursor <? 1 then
    reject code address "truncated lea r64, [address]"
  else
  let! modrm := code_at code cursor in
  let cursor := size_add cursor 1 in
  let mode := Z.land (Z.shiftr modrm 6) 3 in
  let memoryRegister := Z.land modrm 7 in
  let destination := Z.land (Z.shiftr modrm 3) 7 in
  if (mode =? 0) && (memoryRegister =? 5) && negb rexB && negb rexX then
    if size_sub (zlength code) cursor <? 4 then
      reject code address "truncated lea r64, [rip+disp32]"
    else
    let! span424 := subspan code cursor 4 in
    let! displacement := readI32 span424 in
    let cursor := size_add cursor 4 in
    let len := size_sub cursor 0 in
    let! target := relativeTarget address len displacement in
    let instruction := with_opcode X_LeaRegRipRelative instruction in
    let! register427 := decodeRegister destination rexR in
    let instruction := push_operand (RegisterOperand register427 (if rexW then 64 else 32) 0) instruction in
    let instruction := push_operand (ImmediateOperand target 64) instruction in
    Ok (inr (cursor, instruction))
  else if (2 <? mode) || ((mode =? 0) && (memoryRegister =? 5)) then
    reject code address "only LEA r64, [base+index+disp8/disp32] addressing is supported"
  else
  let! base := decodeRegister memoryRegister rexB in
  let index := None in
  let scale := 1 in
  let hasBase := true in
  let! (cursor, scale, index, hasBase, base) : cursor_in 2 6 * one_of [1; 2; 4; 8] * option Register * bool *
      Register :=
    (if memoryRegister =? 4 then
      if zlength code <=? cursor then
        reject code address "truncated LEA SIB byte"
      else
      let! sib := code_at code cursor in
      let cursor := size_add cursor 1 in
      let scaleBits := Z.land (Z.shiftr sib 6) 3 in
      let indexEncoding := Z.land (Z.shiftr sib 3) 7 in
      let baseEncoding := Z.land sib 7 in
      let scale := Z.shiftl 1 scaleBits in
      let! index : option Register :=
        (if negb (indexEncoding =? 4) || rexX then
          let! register430 := decodeRegister indexEncoding rexX in
          let index := Some register430 in
          Ok index
         else
          Ok index) in
      if (mode =? 0) && (baseEncoding =? 5) then
        let hasBase := false in
        Ok (cursor, scale, index, hasBase, base)
      else
      let! base := decodeRegister baseEncoding rexB in
      Ok (cursor, scale, index, hasBase, base)
     else
      if rexX then
        reject code address "REX.X requires a SIB operand for LEA"
      else Ok (cursor, scale, index, hasBase, base)) in
  let displacement := 0 in
  let! (displacement, cursor) : within (- 2 ^ 31) (2 ^ 31 - 1) * cursor_in 2 10 :=
    (if mode =? 1 then
      if zlength code <=? cursor then
        reject code address "truncated LEA disp8"
      else
      let! byte432 := code_at code cursor in
      let displacement := signed 8 byte432 in
      let cursor := size_add cursor 1 in
      Ok (displacement, cursor)
     else
      if (mode =? 2) || negb hasBase then
        if size_sub (zlength code) cursor <? 4 then
          reject code address "truncated LEA disp32"
        else
        let! span433 := subspan code cursor 4 in
        let! displacement := readI32 span433 in
        let cursor := size_add cursor 4 in
        Ok (displacement, cursor)
      else Ok (displacement, cursor)) in
  let instruction := with_opcode X_LeaRegMem instruction in
  let! register435 := decodeRegister destination rexR in
  let instruction := push_operand (RegisterOperand register435 (if rexW then 64 else 32) 0) instruction in
  let instruction := push_operand (MemoryOp (mkMemory base displacement 64 index scale hasBase false
      Segment_None)) instruction in
  Ok (inr (cursor, instruction)).

Definition decodeGeneral_ShrMemImm (cursor : Z) (rexW : bool) (rexB : bool) (rexX : bool) (rexR : bool)
    (instruction : DecodedInstruction) : outcome Recognition :=
  if size_sub (zlength code) cursor <? 2 then
    reject code address "truncated shift register, imm8"
  else
  let! modrm := code_at code cursor in
  let cursor := size_add cursor 1 in
  let mode := Z.land (Z.shiftr modrm 6) 3 in
  let extension := Z.land (Z.shiftr modrm 3) 7 in
  let observedSar := (extension =? 7) in
  let observedRor := negb rexR && negb rexX && (extension =? 1) in
  let observedRol := negb rexR && negb rexX && (extension =? 0) in
  if negb (mode =? 3) && (extension =? 5) && negb rexR && negb rexX then
    let rmEncoding := Z.land modrm 7 in
    if rexX || (rmEncoding =? 4) || ((mode =? 0) && (rmEncoding =? 5)) then
      reject code address "only SHR dword/qword [base+disp8/disp32], imm8 is supported for memory opcode C1 /5"
    else
    let displacement := 0 in
    let! (displacement, cursor) : within (- 2 ^ 31) (2 ^ 31 - 1) * cursor_in 2 9 :=
      (if mode =? 1 then
        if zlength code <=? cursor then
          reject code address "truncated SHR memory disp8"
        else
        let! byte440 := code_at code cursor in
        let displacement := signed 8 byte440 in
        let cursor := size_add cursor 1 in
        Ok (displacement, cursor)
       else
        if mode =? 2 then
          if size_sub (zlength code) cursor <? 4 then
            reject code address "truncated SHR memory disp32"
          else
          let! span441 := subspan code cursor 4 in
          let! displacement := readI32 span441 in
          let cursor := size_add cursor 4 in
          Ok (displacement, cursor)
        else Ok (displacement, cursor)) in
    if zlength code <=? cursor then
      reject code address "truncated SHR memory immediate"
    else
    let instruction := with_opcode X_ShrMemImm instruction in
    let! register443 := decodeRegister rmEncoding rexB in
    let instruction := push_operand (MemoryOp (mkMemory register443 displacement (if rexW then 64 else 32) None
        1 true false Segment_None)) instruction in
    let! byte444 := code_at code cursor in
    let instruction := push_operand (ImmediateOperand byte444 8) instruction in
    let cursor := size_add cursor 1 in
    Ok (inr (cursor, instruction))
  else if negb (mode =? 3) && rexW && (extension =? 4) then
    let rmEncoding := Z.land modrm 7 in
    if rexX || (rmEncoding =? 4) || ((mode =? 0) && (rmEncoding =? 5)) then
      reject code address "only SHL qword [base+disp8/disp32], imm8 is supported for memory opcode C1 /4"
    else
    let displacement := 0 in
    let! (displacement, cursor) : within (- 2 ^ 31) (2 ^ 31 - 1) * cursor_in 2 9 :=
      (if mode =? 1 then
        if zlength code <=? cursor then
          reject code address "truncated SHL memory disp8"
        else
        let! byte445 := code_at code cursor in
        let displacement := signed 8 byte445 in
        let cursor := size_add cursor 1 in
        Ok (displacement, cursor)
       else
        if mode =? 2 then
          if size_sub (zlength code) cursor <? 4 then
            reject code address "truncated SHL memory disp32"
          else
          let! span446 := subspan code cursor 4 in
          let! displacement := readI32 span446 in
          let cursor := size_add cursor 4 in
          Ok (displacement, cursor)
        else Ok (displacement, cursor)) in
    if zlength code <=? cursor then
      reject code address "truncated SHL memory immediate"
    else
    let instruction := with_opcode X_ShlMemImm instruction in
    let! register448 := decodeRegister rmEncoding rexB in
    let instruction := push_operand (MemoryOp (mkMemory register448 displacement 64 None 1 true false
        Segment_None)) instruction in
    let! byte449 := code_at code cursor in
    let instruction := push_operand (ImmediateOperand byte449 8) instruction in
    let cursor := size_add cursor 1 in
    Ok (inr (cursor, instruction))
  else if negb (mode =? 3) || (negb observedSar && negb observedRor && negb observedRol && (rexR || rexX ||
      (negb (extension =? 4) && negb (extension =? 5)))) then
    reject code address "only ROL/ROR/SHL/SHR/SAR r32/r64 register forms and SHR dword/qword memory from opcode C1 are supported"
  else
  let instruction := with_opcode (if extension =? 0 then X_RolRegImm else if extension =? 1 then X_RorRegImm
      else if extension =? 4 then X_ShlRegImm else if extension =? 5 then X_ShrRegImm else X_SarRegImm)
      instruction in
  let! register450 := decodeRegister (Z.land modrm 7) rexB in
  let instruction := push_operand (RegisterOperand register450 (if rexW then 64 else 32) 0) instruction in
  let! byte451 := code_at code cursor in
  let instruction := push_operand (ImmediateOperand byte451 8) instruction in
  let cursor := size_add cursor 1 in
  Ok (inr (cursor, instruction)).

Definition decodeGeneral_IdivReg (cursor : Z) (hasOperandSizeOverride : bool) (rexW : bool) (rexB : bool) (rexX
    : bool) (rexR : bool) (instruction : DecodedInstruction) : outcome Recognition :=
  if size_sub (zlength code) cursor <? 1 then
    reject code address "truncated F7 register operation"
  else
  let! modrm := code_at code cursor in
  let cursor := size_add cursor 1 in
  let mode := Z.land (Z.shiftr modrm 6) 3 in
  let extension := Z.land (Z.shiftr modrm 3) 7 in
  let rmEncoding := Z.land modrm 7 in
  if hasOperandSizeOverride && negb rexW && negb (extension =? 3) && negb (extension =? 0) then
    reject code address "operand-size override is only supported for register TEST /0 and NEG /3 from opcode F7"
  else if extension =? 7 then
    if negb (mode =? 3) || rexW || rexR || rexX then
      reject code address "only register-direct IDIV r32 is supported from opcode F7 /7"
    else
    let instruction := with_opcode X_IdivReg instruction in
    let! register461 := decodeRegister rmEncoding rexB in
    let instruction := push_operand (RegisterOperand register461 32 0) instruction in
    Ok (inr (cursor, instruction))
  else if extension =? 6 then
    if mode =? 3 then
      if rexR || rexX then
        reject code address "unsupported REX bits for register DIV from opcode F7 /6"
      else
      let instruction := with_opcode X_DivReg instruction in
      let! register462 := decodeRegister rmEncoding rexB in
      let instruction := push_operand (RegisterOperand register462 (if rexW then 64 else 32) 0) instruction in
      Ok (inr (cursor, instruction))
    else if rexR || rexX || (2 <? mode) || (rmEncoding =? 4) || ((mode =? 0) && (rmEncoding =? 5)) then
      reject code address "only DIV r32/r64 or dword/qword [base+disp8/disp32] is supported from opcode F7 /6"
    else
    let displacement := 0 in
    let! (displacement, cursor) : within (- 2 ^ 31) (2 ^ 31 - 1) * cursor_in 2 9 :=
      (if mode =? 1 then
        if zlength code <=? cursor then
          reject code address "truncated DIV dword disp8"
        else
        let! byte463 := code_at code cursor in
        let displacement := signed 8 byte463 in
        let cursor := size_add cursor 1 in
        Ok (displacement, cursor)
       else
        if mode =? 2 then
          if size_sub (zlength code) cursor <? 4 then
            reject code address "truncated DIV dword disp32"
          else
          let! span464 := subspan code cursor 4 in
          let! displacement := readI32 span464 in
          let cursor := size_add cursor 4 in
          Ok (displacement, cursor)
        else Ok (displacement, cursor)) in
    let instruction := with_opcode X_DivMem instruction in
    let! register466 := decodeRegister rmEncoding rexB in
    let instruction := push_operand (MemoryOp (mkMemory register466 displacement (if rexW then 64 else 32) None
        1 true false Segment_None)) instruction in
    Ok (inr (cursor, instruction))
  else if (extension =? 4) && (mode <=? 2) && negb rexR && negb rexX && negb (rmEncoding =? 4) && negb ((mode
      =? 0) && (rmEncoding =? 5)) then
    let displacement := 0 in
    let! (displacement, cursor) : within (- 2 ^ 31) (2 ^ 31 - 1) * cursor_in 2 9 :=
      (if mode =? 1 then
        if zlength code <=? cursor then
          reject code address "truncated MUL memory disp8"
        else
        let! byte467 := code_at code cursor in
        let displacement := signed 8 byte467 in
        let cursor := size_add cursor 1 in
        Ok (displacement, cursor)
       else
        if mode =? 2 then
          if size_sub (zlength code) cursor <? 4 then
            reject code address "truncated MUL memory disp32"
          else
          let! span468 := subspan code cursor 4 in
          let! displacement := readI32 span468 in
          let cursor := size_add cursor 4 in
          Ok (displacement, cursor)
        else Ok (displacement, cursor)) in
    let instruction := with_opcode X_MulMem instruction in
    let! register470 := decodeRegister rmEncoding rexB in
    let instruction := push_operand (MemoryOp (mkMemory register470 displacement (if rexW then 64 else 32) None
        1 true false Segment_None)) instruction in
    Ok (inr (cursor, instruction))
  else if (extension =? 5) && (mode <=? 2) && negb rexR && negb rexX && negb (rmEncoding =? 4) && negb ((mode
      =? 0) && (rmEncoding =? 5)) then
    let displacement := 0 in
    let! (displacement, cursor) : within (- 2 ^ 31) (2 ^ 31 - 1) * cursor_in 2 9 :=
      (if mode =? 1 then
        if zlength code <=? cursor then
          reject code address "truncated IMUL memory disp8"
        else
        let! byte471 := code_at code cursor in
        let displacement := signed 8 byte471 in
        let cursor := size_add cursor 1 in
        Ok (displacement, cursor)
       else
        if mode =? 2 then
          if size_sub (zlength code) cursor <? 4 then
            reject code address "truncated IMUL memory disp32"
          else
          let! span472 := subspan code cursor 4 in
          let! displacement := readI32 span472 in
          let cursor := size_add cursor 4 in
          Ok (displacement, cursor)
        else Ok (displacement, cursor)) in
    let instruction := with_opcode X_ImulMem instruction in
    let! register474 := decodeRegister rmEncoding rexB in
    let instruction := push_operand (MemoryOp (mkMemory register474 displacement (if rexW then 64 else 32) None
        1 true false Segment_None)) instruction in
    Ok (inr (cursor, instruction))
  else if (extension =? 0) && (mode <=? 2) && negb rexR && negb rexX && negb (rmEncoding =? 4) && negb ((mode
      =? 0) && (rmEncoding =? 5)) then
    let displacement := 0 in
    let! (displacement, cursor) : within (- 2 ^ 31) (2 ^ 31 - 1) * cursor_in 2 9 :=
      (if mode =? 1 then
        if zlength code <=? cursor then
          reject code address "truncated TEST memory disp8"
        else
        let! byte475 := code_at code cursor in
        let displacement := signed 8 byte475 in
        let cursor := size_add cursor 1 in
        Ok (displacement, cursor)
       else
        if mode =? 2 then
          if size_sub (zlength code) cursor <? 4 then
            reject code address "truncated TEST memory disp32"
          else
          let! span476 := subspan code cursor 4 in
          let! displacement := readI32 span476 in
          let cursor := size_add cursor 4 in
          Ok (displacement, cursor)
        else Ok (displacement, cursor)) in
    if size_sub (zlength code) cursor <? 4 then
      reject code address "truncated TEST memory immediate"
    else
    let! span478 := subspan code cursor 4 in
    let! immediate := readI32 span478 in
    let cursor := size_add cursor 4 in
    let instruction := with_opcode X_TestMemImm instruction in
    let! register480 := decodeRegister rmEncoding rexB in
    let instruction := push_operand (MemoryOp (mkMemory register480 displacement (if rexW then 64 else 32) None
        1 true false Segment_None)) instruction in
    let instruction := push_operand (ImmediateOperand (if rexW then u64 immediate else u32 immediate) (if rexW
        then 64 else 32)) instruction in
    Ok (inr (cursor, instruction))
  else if negb (mode =? 3) || (negb (extension =? 0) && negb (extension =? 2) && negb (extension =? 3) && negb
      (extension =? 4) && negb (extension =? 5)) || (negb (extension =? 0) && (rexR || rexX)) then
    reject code address "only register-direct TEST /0, NOT /2, NEG /3, MUL /4, IMUL /5, DIV /6, IDIV r32 /7, and memory TEST /0, MUL /4 and IMUL /5 from opcode F7 are supported"
  else
  let instruction := with_opcode (if extension =? 0 then X_TestRegImm else if extension =? 2 then X_NotReg else
      if extension =? 3 then X_NegReg else if extension =? 4 then X_MulReg else X_ImulReg) instruction in
  let! register481 := decodeRegister (Z.land modrm 7) rexB in
  let instruction := push_operand (RegisterOperand register481 (if rexW then 64 else if hasOperandSizeOverride
      then 16 else 32) 0) instruction in
  if extension =? 0 then
    let testWidth := if rexW then 64 else if hasOperandSizeOverride then 16 else 32 in
    if testWidth =? 16 then
      if size_sub (zlength code) cursor <? 2 then
        reject code address "truncated TEST r16, imm16"
      else
      let! byte482 := code_at code cursor in
      let! byte483 := code_at code (size_add cursor 1) in
      let immediate := Z.lor byte482 (Z.shiftl byte483 8) in
      let cursor := size_add cursor 2 in
      let instruction := push_operand (ImmediateOperand immediate 16) instruction in
      Ok (inr (cursor, instruction))
    else if size_sub (zlength code) cursor <? 4 then
      reject code address "truncated TEST r32/r64, imm32"
    else
    let! span484 := subspan code cursor 4 in
    let! immediate := readI32 span484 in
    let cursor := size_add cursor 4 in
    let instruction := push_operand (ImmediateOperand (if rexW then u64 immediate else u32 immediate) 32)
        instruction in
    Ok (inr (cursor, instruction))
  else Ok (inr (cursor, instruction)).

Definition decodeGeneral_MovMemImm (cursor : Z) (rexB : bool) (rexX : bool) (rexR : bool) (instruction :
    DecodedInstruction) : outcome Recognition :=
  if size_sub (zlength code) cursor <? 1 then
    reject code address "truncated mov byte opcode C6"
  else
  let! modrm := code_at code cursor in
  let cursor := size_add cursor 1 in
  let mode := Z.land (Z.shiftr modrm 6) 3 in
  let extension := Z.land (Z.shiftr modrm 3) 7 in
  let rmEncoding := Z.land modrm 7 in
  let ripRelative := (mode =? 0) && (rmEncoding =? 5) in
  if (2 <? mode) || negb (extension =? 0) || rexR || (rexX && negb (rmEncoding =? 4)) then
    reject code address "only MOV byte [base/index/RIP+disp8/disp32], imm8 from opcode C6 /0 is supported"
  else
  let! base := decodeRegister rmEncoding rexB in
  let index := None in
  let scale := 1 in
  let! (cursor, base, index, scale) : cursor_in 2 6 * Register * option Register * one_of [1; 2; 4; 8] :=
    (if negb ripRelative && (rmEncoding =? 4) then
      if zlength code <=? cursor then
        reject code address "truncated MOV byte SIB"
      else
      let! sib := code_at code cursor in
      let cursor := size_add cursor 1 in
      let scaleBits := Z.land (Z.shiftr sib 6) 3 in
      let indexEncoding := Z.land (Z.shiftr sib 3) 7 in
      let baseEncoding := Z.land sib 7 in
      if (mode =? 0) && (baseEncoding =? 5) then
        reject code address "no-base MOV byte SIB is not supported"
      else
      let! base := decodeRegister baseEncoding rexB in
      if negb (indexEncoding =? 4) || rexX then
        let! register490 := decodeRegister indexEncoding rexX in
        let index := Some register490 in
        let scale := Z.shiftl 1 scaleBits in
        Ok (cursor, base, index, scale)
      else Ok (cursor, base, index, scale)
     else
      Ok (cursor, base, index, scale)) in
  let displacement := 0 in
  let! (displacement, cursor) : within (- 2 ^ 31) (2 ^ 31 - 1) * cursor_in 2 10 :=
    (if ripRelative then
      if size_sub (zlength code) cursor <? 4 then
        reject code address "truncated RIP-relative MOV byte disp32"
      else
      let! span491 := subspan code cursor 4 in
      let! displacement := readI32 span491 in
      let cursor := size_add cursor 4 in
      Ok (displacement, cursor)
     else
      if mode =? 1 then
        if zlength code <=? cursor then
          reject code address "truncated MOV byte memory disp8"
        else
        let! byte493 := code_at code cursor in
        let displacement := signed 8 byte493 in
        let cursor := size_add cursor 1 in
        Ok (displacement, cursor)
      else if mode =? 2 then
        if size_sub (zlength code) cursor <? 4 then
          reject code address "truncated MOV byte memory disp32"
        else
        let! span494 := subspan code cursor 4 in
        let! displacement := readI32 span494 in
        let cursor := size_add cursor 4 in
        Ok (displacement, cursor)
      else Ok (displacement, cursor)) in
  if zlength code <=? cursor then
    reject code address "truncated MOV byte imm8"
  else
  let! immediate := code_at code cursor in
  let cursor := size_add cursor 1 in
  let! _ :=
    (if ripRelative then
      let! _ := relativeTarget address (size_sub cursor 0) displacement in
      Ok tt
     else
      Ok tt) in
  let instruction := with_opcode X_MovMemImm instruction in
  let instruction := push_operand (MemoryOp (if ripRelative then mkMemory Rax displacement 8 None 1 false true
      Segment_None else mkMemory base displacement 8 index scale true false Segment_None)) instruction in
  let instruction := push_operand (ImmediateOperand immediate 8) instruction in
  Ok (inr (cursor, instruction)).

Definition decodeGeneral_MovRegImm (cursor : Z) (hasGsOverride : bool) (rexW : bool) (rexB : bool) (rexX :
    bool) (rexR : bool) (instruction : DecodedInstruction) : outcome Recognition :=
  if size_sub (zlength code) cursor <? 1 then
    reject code address "truncated mov opcode C7"
  else
  let! modrm := code_at code cursor in
  let cursor := size_add cursor 1 in
  let mode := Z.land (Z.shiftr modrm 6) 3 in
  let extension := Z.land (Z.shiftr modrm 3) 7 in
  let rmEncoding := Z.land modrm 7 in
  let ripRelative := (mode =? 0) && (rmEncoding =? 5) in
  if negb (extension =? 0) || rexR || (rexX && negb (rmEncoding =? 4)) || (hasGsOverride && (mode =? 3)) then
    reject code address "only register or [base/SIB+disp] MOV from opcode C7 /0 is supported"
  else
  let! base := decodeRegister rmEncoding rexB in
  let index := None in
  let scale := 1 in
  let hasBase := negb ripRelative in
  let! (cursor, hasBase, base, index, scale) : cursor_in 2 6 * bool * Register * option Register * one_of [1;
      2; 4; 8] :=
    (if negb (mode =? 3) && (rmEncoding =? 4) then
      if zlength code <=? cursor then
        reject code address "truncated MOV immediate SIB"
      else
      let! sib := code_at code cursor in
      let cursor := size_add cursor 1 in
      let scaleBits := Z.land (Z.shiftr sib 6) 3 in
      let indexEncoding := Z.land (Z.shiftr sib 3) 7 in
      let baseEncoding := Z.land sib 7 in
      let hasIndex := negb (indexEncoding =? 4) || rexX in
      let noBase := (mode =? 0) && (baseEncoding =? 5) in
      let hasBase := negb noBase in
      let! base : Register :=
        (if hasBase then
          let! base := decodeRegister baseEncoding rexB in
          Ok base
         else
          Ok base) in
      if hasIndex then
        let! register502 := decodeRegister indexEncoding rexX in
        let index := Some register502 in
        let scale := Z.shiftl 1 scaleBits in
        Ok (cursor, hasBase, base, index, scale)
      else Ok (cursor, hasBase, base, index, scale)
     else
      Ok (cursor, hasBase, base, index, scale)) in
  let displacement := 0 in
  let! (displacement, cursor) : within (- 2 ^ 31) (2 ^ 31 - 1) * cursor_in 2 10 :=
    (if ripRelative || negb hasBase then
      if size_sub (zlength code) cursor <? 4 then
        reject code address "truncated displacement-only MOV memory disp32"
      else
      let! span503 := subspan code cursor 4 in
      let! displacement := readI32 span503 in
      let cursor := size_add cursor 4 in
      Ok (displacement, cursor)
     else
      if mode =? 1 then
        if zlength code <=? cursor then
          reject code address "truncated MOV memory disp8"
        else
        let! byte505 := code_at code cursor in
        let displacement := signed 8 byte505 in
        let cursor := size_add cursor 1 in
        Ok (displacement, cursor)
      else if mode =? 2 then
        if size_sub (zlength code) cursor <? 4 then
          reject code address "truncated MOV memory disp32"
        else
        let! span506 := subspan code cursor 4 in
        let! displacement := readI32 span506 in
        let cursor := size_add cursor 4 in
        Ok (displacement, cursor)
      else Ok (displacement, cursor)) in
  if size_sub (zlength code) cursor <? 4 then
    reject code address "truncated MOV imm32"
  else
  let! span508 := subspan code cursor 4 in
  let! immediate := readI32 span508 in
  let cursor := size_add cursor 4 in
  let! _ :=
    (if ripRelative then
      let! _ := relativeTarget address (size_sub cursor 0) displacement in
      Ok tt
     else
      Ok tt) in
  let instruction := with_opcode (if mode =? 3 then X_MovRegImm else X_MovMemImm) instruction in
  let operandWidth := if rexW then 64 else 32 in
  let! instruction : DecodedInstruction :=
    (if mode =? 3 then
      let! register511 := decodeRegister rmEncoding rexB in
      let instruction := push_operand (RegisterOperand register511 operandWidth 0) instruction in
      Ok instruction
     else
      let instruction := push_operand (MemoryOp (if ripRelative then mkMemory Rax displacement operandWidth
          None 1 false true (if hasGsOverride then Segment_Gs else Segment_None) else mkMemory base
          displacement operandWidth index scale hasBase false (if hasGsOverride then Segment_Gs else
          Segment_None))) instruction in
      Ok instruction) in
  let instruction := push_operand (ImmediateOperand (if rexW then u64 immediate else u32 immediate) 32)
      instruction in
  Ok (inr (cursor, instruction)).

Definition decodeGeneral_OrMemImm (cursor : Z) (rexB : bool) (rexX : bool) (mode : Z) (rmEncoding : Z)
    (instruction : DecodedInstruction) : outcome Recognition :=
  let ripRelative := (mode =? 0) && (rmEncoding =? 5) in
  let baseEncoding := rmEncoding in
  let hasBase := negb ripRelative in
  let! (cursor, baseEncoding, hasBase) : cursor_in 2 6 * within 0 7 * bool :=
    (if negb ripRelative && (rmEncoding =? 4) then
      if zlength code <=? cursor then
        reject code address "truncated byte OR SIB"
      else
      let! sib := code_at code cursor in
      let cursor := size_add cursor 1 in
      let scaleBits := Z.land (Z.shiftr sib 6) 3 in
      let indexEncoding := Z.land (Z.shiftr sib 3) 7 in
      let baseEncoding := Z.land sib 7 in
      let hasBase := negb ((mode =? 0) && (baseEncoding =? 5)) in
      if negb (scaleBits =? 0) || negb (indexEncoding =? 4) || rexX || negb hasBase then
        reject code address "only no-index SIB addressing is supported for byte OR"
      else Ok (cursor, baseEncoding, hasBase)
     else
      if rexX then
        reject code address "REX.X requires a byte OR SIB operand"
      else Ok (cursor, baseEncoding, hasBase)) in
  let displacement := 0 in
  let! (displacement, cursor) : within (- 2 ^ 31) (2 ^ 31 - 1) * cursor_in 2 10 :=
    (if ripRelative || (negb hasBase && (mode =? 0)) || (mode =? 2) then
      if size_sub (zlength code) cursor <? 4 then
        reject code address "truncated byte OR disp32"
      else
      let! span518 := subspan code cursor 4 in
      let! displacement := readI32 span518 in
      let cursor := size_add cursor 4 in
      Ok (displacement, cursor)
     else
      if mode =? 1 then
        if zlength code <=? cursor then
          reject code address "truncated byte OR disp8"
        else
        let! byte520 := code_at code cursor in
        let displacement := signed 8 byte520 in
        let cursor := size_add cursor 1 in
        Ok (displacement, cursor)
      else Ok (displacement, cursor)) in
  if zlength code <=? cursor then
    reject code address "truncated byte OR immediate"
  else
  let! immediate := code_at code cursor in
  let cursor := size_add cursor 1 in
  let! _ :=
    (if ripRelative then
      let! _ := relativeTarget address (size_sub cursor 0) displacement in
      Ok tt
     else
      Ok tt) in
  let instruction := with_opcode X_OrMemImm instruction in
  let! choice523 : MemoryOperand := (if ripRelative then Ok (mkMemory Rax displacement 8 None 1 false true
      Segment_None) else (let! register524 := decodeRegister baseEncoding rexB in Ok (mkMemory register524
      displacement 8 None 1 hasBase false Segment_None))) in
  let instruction := push_operand (MemoryOp choice523) instruction in
  let instruction := push_operand (ImmediateOperand immediate 8) instruction in
  let len := size_sub cursor 0 in
  let instruction := with_length (u8 len) instruction in
  let! instruction := copy_bytes code 0 len instruction in
  Ok (inl instruction).

Definition decodeGeneral_AndMemImm (cursor : Z) (rexB : bool) (rexX : bool) (mode : Z) (rmEncoding : Z)
    (instruction : DecodedInstruction) : outcome Recognition :=
  let ripRelative := (mode =? 0) && (rmEncoding =? 5) in
  let! base := decodeRegister rmEncoding rexB in
  let index := None in
  let scale := 1 in
  let hasBase := negb ripRelative in
  let! (cursor, hasBase, base, index, scale) : cursor_in 2 6 * bool * Register * option Register * one_of [1;
      2; 4; 8] :=
    (if negb ripRelative && (rmEncoding =? 4) then
      if zlength code <=? cursor then
        reject code address "truncated byte AND SIB"
      else
      let! sib := code_at code cursor in
      let cursor := size_add cursor 1 in
      let scaleBits := Z.land (Z.shiftr sib 6) 3 in
      let indexEncoding := Z.land (Z.shiftr sib 3) 7 in
      let baseEncoding := Z.land sib 7 in
      let hasBase := negb ((mode =? 0) && (baseEncoding =? 5)) in
      let! base : Register :=
        (if hasBase then
          let! base := decodeRegister baseEncoding rexB in
          Ok base
         else
          Ok base) in
      if negb (indexEncoding =? 4) || rexX then
        let! register532 := decodeRegister indexEncoding rexX in
        let index := Some register532 in
        let scale := Z.shiftl 1 scaleBits in
        Ok (cursor, hasBase, base, index, scale)
      else Ok (cursor, hasBase, base, index, scale)
     else
      Ok (cursor, hasBase, base, index, scale)) in
  let displacement := 0 in
  let! (displacement, cursor) : within (- 2 ^ 31) (2 ^ 31 - 1) * cursor_in 2 10 :=
    (if ripRelative || (negb hasBase && (mode =? 0)) || (mode =? 2) then
      if size_sub (zlength code) cursor <? 4 then
        reject code address "truncated byte AND disp32"
      else
      let! span533 := subspan code cursor 4 in
      let! displacement := readI32 span533 in
      let cursor := size_add cursor 4 in
      Ok (displacement, cursor)
     else
      if mode =? 1 then
        if zlength code <=? cursor then
          reject code address "truncated byte AND disp8"
        else
        let! byte535 := code_at code cursor in
        let displacement := signed 8 byte535 in
        let cursor := size_add cursor 1 in
        Ok (displacement, cursor)
      else Ok (displacement, cursor)) in
  if zlength code <=? cursor then
    reject code address "truncated byte AND immediate"
  else
  let! immediate := code_at code cursor in
  let cursor := size_add cursor 1 in
  let! _ :=
    (if ripRelative then
      let! _ := relativeTarget address (size_sub cursor 0) displacement in
      Ok tt
     else
      Ok tt) in
  let instruction := with_opcode X_AndMemImm instruction in
  let instruction := push_operand (MemoryOp (mkMemory (if ripRelative then Rax else base) displacement 8 index
      scale hasBase ripRelative Segment_None)) instruction in
  let instruction := push_operand (ImmediateOperand immediate 8) instruction in
  let len := size_sub cursor 0 in
  let instruction := with_length (u8 len) instruction in
  let! instruction := copy_bytes code 0 len instruction in
  Ok (inl instruction).

Definition decodeGeneral_AddRegImm (cursor : Z) (hasRex : bool) (rexW : bool) (rexB : bool) (rexX : bool) (rexR
    : bool) (instruction : DecodedInstruction) : outcome Recognition :=
  if size_sub (zlength code) cursor <? 2 then
    reject code address "truncated cmp byte [memory], imm8"
  else
  let! modrm := code_at code cursor in
  let cursor := size_add cursor 1 in
  let mode := Z.land (Z.shiftr modrm 6) 3 in
  let extension := Z.land (Z.shiftr modrm 3) 7 in
  let rmEncoding := Z.land modrm 7 in
  if (extension =? 0) && (mode =? 3) && negb rexW && negb rexR && negb rexX && (hasRex || (rmEncoding <? 4))
      then
    let! immediate := code_at code cursor in
    let cursor := size_add cursor 1 in
    let instruction := with_opcode X_AddRegImm instruction in
    let! register514 := decodeRegister rmEncoding rexB in
    let instruction := push_operand (RegisterOperand register514 8 0) instruction in
    let instruction := push_operand (ImmediateOperand immediate 8) instruction in
    let len := size_sub cursor 0 in
    let instruction := with_length (u8 len) instruction in
    let! instruction := copy_bytes code 0 len instruction in
    Ok (inl instruction)
  else if (extension =? 1) && (mode =? 3) && negb rexW && negb rexR && negb rexX && (hasRex || (rmEncoding <?
      4)) then
    let! immediate := code_at code cursor in
    let cursor := size_add cursor 1 in
    let instruction := with_opcode X_OrRegImm instruction in
    let! register516 := decodeRegister rmEncoding rexB in
    let instruction := push_operand (RegisterOperand register516 8 0) instruction in
    let instruction := push_operand (ImmediateOperand immediate 8) instruction in
    let len := size_sub cursor 0 in
    let instruction := with_length (u8 len) instruction in
    let! instruction := copy_bytes code 0 len instruction in
    Ok (inl instruction)
  else if (extension =? 1) && (mode <=? 2) then
    decodeGeneral_OrMemImm cursor rexB rexX mode rmEncoding instruction
  else if (extension =? 4) && (mode =? 3) && negb rexW && negb rexR && negb rexX then
    if zlength code <=? cursor then
      reject code address "truncated byte AND immediate"
    else
    let! immediate := code_at code cursor in
    let cursor := size_add cursor 1 in
    let highByte := negb hasRex && (4 <=? rmEncoding) in
    let! reg : Register := (if highByte then (let! register527 := decodeRegister (u8 (u32 (rmEncoding - 4)))
        false in Ok register527) else (let! register528 := decodeRegister rmEncoding rexB in Ok register528)) in
    let instruction := with_opcode X_AndRegImm instruction in
    let instruction := push_operand (RegisterOperand reg 8 (if highByte then 1 else 0)) instruction in
    let instruction := push_operand (ImmediateOperand immediate 8) instruction in
    let len := size_sub cursor 0 in
    let instruction := with_length (u8 len) instruction in
    let! instruction := copy_bytes code 0 len instruction in
    Ok (inl instruction)
  else if (extension =? 4) && (mode <=? 2) && negb rexW && negb rexR && (negb rexX || (rmEncoding =? 4)) then
    decodeGeneral_AndMemImm cursor rexB rexX mode rmEncoding instruction
  else if (extension =? 6) && (mode =? 3) && negb rexW && negb rexR && negb rexX && (hasRex || (rmEncoding <?
      4)) then
    let! immediate := code_at code cursor in
    let cursor := size_add cursor 1 in
    let instruction := with_opcode X_XorRegImm instruction in
    let! register539 := decodeRegister rmEncoding rexB in
    let instruction := push_operand (RegisterOperand register539 8 0) instruction in
    let instruction := push_operand (ImmediateOperand immediate 8) instruction in
    let len := size_sub cursor 0 in
    let instruction := with_length (u8 len) instruction in
    let! instruction := copy_bytes code 0 len instruction in
    Ok (inl instruction)
  else if (extension =? 2) && (mode =? 3) && negb rexW && negb rexR && negb rexX && (hasRex || (rmEncoding <?
      4)) then
    if zlength code <=? cursor then
      reject code address "truncated adc r8, imm8"
    else
    let! immediate := code_at code cursor in
    let cursor := size_add cursor 1 in
    let instruction := with_opcode X_AdcRegImm instruction in
    let! register541 := decodeRegister rmEncoding rexB in
    let instruction := push_operand (RegisterOperand register541 8 0) instruction in
    let instruction := push_operand (ImmediateOperand immediate 8) instruction in
    let len := size_sub cursor 0 in
    let instruction := with_length (u8 len) instruction in
    let! instruction := copy_bytes code 0 len instruction in
    Ok (inl instruction)
  else
  let ripRelative := (mode =? 0) && (rmEncoding =? 5) in
  if negb (extension =? 7) || rexW || rexR || (rexX && negb (rmEncoding =? 4)) then
    reject code address "only CMP representable-byte-register/[base/RIP+disp8/disp32], imm8 from opcode 80 /7 is supported"
  else
  let! base := decodeRegister rmEncoding rexB in
  let index := None in
  let scale := 1 in
  let! (cursor, base, index, scale) : cursor_in 2 6 * Register * option Register * one_of [1; 2; 4; 8] :=
    (if negb ripRelative && negb (mode =? 3) && (rmEncoding =? 4) then
      if zlength code <=? cursor then
        reject code address "truncated byte CMP SIB"
      else
      let! sib := code_at code cursor in
      let cursor := size_add cursor 1 in
      let scaleBits := Z.land (Z.shiftr sib 6) 3 in
      let indexEncoding := Z.land (Z.shiftr sib 3) 7 in
      let baseEncoding := Z.land sib 7 in
      if (mode =? 0) && (baseEncoding =? 5) then
        reject code address "no-base byte CMP SIB is not supported"
      else
      let! base := decodeRegister baseEncoding rexB in
      if negb (indexEncoding =? 4) || rexX then
        let! register545 := decodeRegister indexEncoding rexX in
        let index := Some register545 in
        let scale := Z.shiftl 1 scaleBits in
        Ok (cursor, base, index, scale)
      else Ok (cursor, base, index, scale)
     else
      Ok (cursor, base, index, scale)) in
  let displacement := 0 in
  let! (displacement, cursor) : within (- 2 ^ 31) (2 ^ 31 - 1) * cursor_in 2 10 :=
    (if ripRelative then
      if size_sub (zlength code) cursor <? 4 then
        reject code address "truncated RIP-relative byte CMP disp32"
      else
      let! span546 := subspan code cursor 4 in
      let! displacement := readI32 span546 in
      let cursor := size_add cursor 4 in
      Ok (displacement, cursor)
     else
      if mode =? 1 then
        if zlength code <=? cursor then
          reject code address "truncated byte CMP disp8"
        else
        let! byte548 := code_at code cursor in
        let displacement := signed 8 byte548 in
        let cursor := size_add cursor 1 in
        Ok (displacement, cursor)
      else if mode =? 2 then
        if size_sub (zlength code) cursor <? 4 then
          reject code address "truncated byte CMP disp32"
        else
        let! span549 := subspan code cursor 4 in
        let! displacement := readI32 span549 in
        let cursor := size_add cursor 4 in
        Ok (displacement, cursor)
      else Ok (displacement, cursor)) in
  if zlength code <=? cursor then
    reject code address "truncated byte CMP immediate"
  else
  let! immediate := code_at code cursor in
  let cursor := size_add cursor 1 in
  let! _ :=
    (if ripRelative then
      let! _ := relativeTarget address (size_sub cursor 0) displacement in
      Ok tt
     else
      Ok tt) in
  let instruction := with_opcode X_CmpMemImm instruction in
  let! instruction : DecodedInstruction :=
    (if mode =? 3 then
      let instruction := with_opcode X_CmpRegImm instruction in
      let highByte := negb hasRex && (4 <=? rmEncoding) in
      let! reg : Register := (if highByte then (let! register554 := decodeRegister (u8 (u32 (rmEncoding - 4)))
          false in Ok register554) else (let! register555 := decodeRegister rmEncoding rexB in Ok register555))
          in
      let instruction := push_operand (RegisterOperand reg 8 (if highByte then 1 else 0)) instruction in
      Ok instruction
     else
      let instruction := push_operand (MemoryOp (if ripRelative then mkMemory Rax displacement 8 None 1 false
          true Segment_None else mkMemory base displacement 8 index scale true false Segment_None)) instruction
          in
      Ok instruction) in
  let instruction := push_operand (ImmediateOperand immediate 8) instruction in
  Ok (inr (cursor, instruction)).

Definition decodeGeneral_CmpMemImm (cursor : Z) (rexW : bool) (rexB : bool) (rexX : bool) (modrm : Z) (mode :
    Z) (instruction : DecodedInstruction) : outcome Recognition :=
  let rmEncoding := Z.land modrm 7 in
  let ripRelative := (mode =? 0) && (rmEncoding =? 5) && negb rexB && negb rexX in
  if (mode =? 0) && (rmEncoding =? 5) && negb ripRelative then
    reject code address "RIP-relative CMP [memory], imm32 requires no REX.B/X"
  else
  let! base := decodeRegister rmEncoding rexB in
  let index := None in
  let scale := 1 in
  let! (cursor, base, index, scale) : cursor_in 2 6 * Register * option Register * one_of [1; 2; 4; 8] :=
    (if negb ripRelative && (rmEncoding =? 4) then
      if zlength code <=? cursor then
        reject code address "truncated CMP memory SIB"
      else
      let! sib := code_at code cursor in
      let cursor := size_add cursor 1 in
      let scaleBits := Z.land (Z.shiftr sib 6) 3 in
      let indexEncoding := Z.land (Z.shiftr sib 3) 7 in
      let baseEncoding := Z.land sib 7 in
      if (mode =? 0) && (baseEncoding =? 5) then
        reject code address "no-base CMP [memory], imm32 SIB is not supported"
      else
      let! base := decodeRegister baseEncoding rexB in
      if negb (indexEncoding =? 4) || rexX then
        let! register581 := decodeRegister indexEncoding rexX in
        let index := Some register581 in
        let scale := Z.shiftl 1 scaleBits in
        Ok (cursor, base, index, scale)
      else Ok (cursor, base, index, scale)
     else
      Ok (cursor, base, index, scale)) in
  let displacement := 0 in
  let! (displacement, cursor) : within (- 2 ^ 31) (2 ^ 31 - 1) * cursor_in 2 10 :=
    (if mode =? 1 then
      if zlength code <=? cursor then
        reject code address "truncated CMP memory disp8"
      else
      let! byte582 := code_at code cursor in
      let displacement := signed 8 byte582 in
      let cursor := size_add cursor 1 in
      Ok (displacement, cursor)
     else
      if (mode =? 2) || ripRelative then
        if size_sub (zlength code) cursor <? 4 then
          reject code address "truncated CMP memory disp32"
        else
        let! span583 := subspan code cursor 4 in
        let! displacement := readI32 span583 in
        let cursor := size_add cursor 4 in
        Ok (displacement, cursor)
      else Ok (displacement, cursor)) in
  if size_sub (zlength code) cursor <? 4 then
    reject code address "truncated CMP memory imm32"
  else
  let! span585 := subspan code cursor 4 in
  let! immediate := readI32 span585 in
  let cursor := size_add cursor 4 in
  let! _ :=
    (if ripRelative then
      let! _ := relativeTarget address (size_sub cursor 0) displacement in
      Ok tt
     else
      Ok tt) in
  let instruction := with_opcode X_CmpMemImm instruction in
  let instruction := push_operand (MemoryOp (if ripRelative then mkMemory Rax displacement (if rexW then 64
      else 32) None 1 false true Segment_None else mkMemory base displacement (if rexW then 64 else 32) index
      scale true false Segment_None)) instruction in
  let instruction := push_operand (ImmediateOperand (if rexW then u64 immediate else u32 immediate) 32)
      instruction in
  Ok (inr (cursor, instruction)).

Definition decodeGeneral_AndMemImm_2 (cursor : Z) (rexW : bool) (rexB : bool) (rexX : bool) (modrm : Z) (mode :
    Z) (instruction : DecodedInstruction) : outcome Recognition :=
  let rmEncoding := Z.land modrm 7 in
  if (mode =? 0) && (rmEncoding =? 5) then
    reject code address "RIP-relative AND [memory], imm32 is not supported"
  else
  let! base := decodeRegister rmEncoding rexB in
  let index := None in
  let scale := 1 in
  let! (cursor, base, index, scale) : cursor_in 2 6 * Register * option Register * one_of [1; 2; 4; 8] :=
    (if rmEncoding =? 4 then
      if zlength code <=? cursor then
        reject code address "truncated AND memory SIB"
      else
      let! sib := code_at code cursor in
      let cursor := size_add cursor 1 in
      let scaleBits := Z.land (Z.shiftr sib 6) 3 in
      let indexEncoding := Z.land (Z.shiftr sib 3) 7 in
      let baseEncoding := Z.land sib 7 in
      if (mode =? 0) && (baseEncoding =? 5) then
        reject code address "no-base AND [memory], imm32 SIB is not supported"
      else
      let! base := decodeRegister baseEncoding rexB in
      if negb (indexEncoding =? 4) || rexX then
        let! register591 := decodeRegister indexEncoding rexX in
        let index := Some register591 in
        let scale := Z.shiftl 1 scaleBits in
        Ok (cursor, base, index, scale)
      else Ok (cursor, base, index, scale)
     else
      Ok (cursor, base, index, scale)) in
  let displacement := 0 in
  let! (displacement, cursor) : within (- 2 ^ 31) (2 ^ 31 - 1) * cursor_in 2 10 :=
    (if mode =? 1 then
      if zlength code <=? cursor then
        reject code address "truncated AND memory disp8"
      else
      let! byte592 := code_at code cursor in
      let displacement := signed 8 byte592 in
      let cursor := size_add cursor 1 in
      Ok (displacement, cursor)
     else
      if mode =? 2 then
        if size_sub (zlength code) cursor <? 4 then
          reject code address "truncated AND memory disp32"
        else
        let! span593 := subspan code cursor 4 in
        let! displacement := readI32 span593 in
        let cursor := size_add cursor 4 in
        Ok (displacement, cursor)
      else Ok (displacement, cursor)) in
  if size_sub (zlength code) cursor <? 4 then
    reject code address "truncated AND memory imm32"
  else
  let! span595 := subspan code cursor 4 in
  let! immediate := readI32 span595 in
  let cursor := size_add cursor 4 in
  let instruction := with_opcode X_AndMemImm instruction in
  let instruction := push_operand (MemoryOp (mkMemory base displacement (if rexW then 64 else 32) index scale
      true false Segment_None)) instruction in
  let instruction := push_operand (ImmediateOperand (if rexW then u64 immediate else u32 immediate) 32)
      instruction in
  Ok (inr (cursor, instruction)).

Definition decodeGeneral_AddRegImm_2 (cursor : Z) (rexW : bool) (rexB : bool) (rexX : bool) (rexR : bool)
    (instruction : DecodedInstruction) : outcome Recognition :=
  if size_sub (zlength code) cursor <? 1 then
    reject code address "truncated opcode 81"
  else
  let! modrm := code_at code cursor in
  let cursor := size_add cursor 1 in
  let mode := Z.land (Z.shiftr modrm 6) 3 in
  let extension := Z.land (Z.shiftr modrm 3) 7 in
  if (mode =? 3) && (extension =? 0) && negb rexR && negb rexX then
    if size_sub (zlength code) cursor <? 4 then
      reject code address "truncated add register, imm32"
    else
    let! span557 := subspan code cursor 4 in
    let! immediate := readI32 span557 in
    let cursor := size_add cursor 4 in
    let instruction := with_opcode X_AddRegImm instruction in
    let! register559 := decodeRegister (Z.land modrm 7) rexB in
    let instruction := push_operand (RegisterOperand register559 (if rexW then 64 else 32) 0) instruction in
    let instruction := push_operand (ImmediateOperand (if rexW then u64 immediate else u32 immediate) 32)
        instruction in
    Ok (inr (cursor, instruction))
  else if (mode =? 3) && (extension =? 2) && negb rexW && negb rexR && negb rexX then
    if size_sub (zlength code) cursor <? 4 then
      reject code address "truncated adc r32, imm32"
    else
    let! span560 := subspan code cursor 4 in
    let! immediate := readI32 span560 in
    let cursor := size_add cursor 4 in
    let instruction := with_opcode X_AdcRegImm instruction in
    let! register562 := decodeRegister (Z.land modrm 7) rexB in
    let instruction := push_operand (RegisterOperand register562 32 0) instruction in
    let instruction := push_operand (ImmediateOperand (u32 immediate) 32) instruction in
    Ok (inr (cursor, instruction))
  else if (mode =? 3) && (extension =? 5) && rexW && negb rexR && negb rexX then
    if size_sub (zlength code) cursor <? 4 then
      reject code address "truncated sub r64, imm32"
    else
    let! span563 := subspan code cursor 4 in
    let! immediate := readI32 span563 in
    let cursor := size_add cursor 4 in
    let instruction := with_opcode X_SubRegImm instruction in
    let! register565 := decodeRegister (Z.land modrm 7) rexB in
    let instruction := push_operand (RegisterOperand register565 64 0) instruction in
    let instruction := push_operand (ImmediateOperand (u64 immediate) 32) instruction in
    Ok (inr (cursor, instruction))
  else if (mode =? 3) && (extension =? 1) && negb rexR && negb rexX then
    if size_sub (zlength code) cursor <? 4 then
      reject code address "truncated or register, imm32"
    else
    let! span566 := subspan code cursor 4 in
    let! immediate := readI32 span566 in
    let cursor := size_add cursor 4 in
    let instruction := with_opcode X_OrRegImm instruction in
    let! register568 := decodeRegister (Z.land modrm 7) rexB in
    let instruction := push_operand (RegisterOperand register568 (if rexW then 64 else 32) 0) instruction in
    let instruction := push_operand (ImmediateOperand (if rexW then u64 immediate else u32 immediate) 32)
        instruction in
    Ok (inr (cursor, instruction))
  else if (mode =? 3) && (extension =? 4) && negb rexR && negb rexX then
    if size_sub (zlength code) cursor <? 4 then
      reject code address "truncated and register, imm32"
    else
    let! span569 := subspan code cursor 4 in
    let! immediate := readI32 span569 in
    let cursor := size_add cursor 4 in
    let instruction := with_opcode X_AndRegImm instruction in
    let! register571 := decodeRegister (Z.land modrm 7) rexB in
    let instruction := push_operand (RegisterOperand register571 (if rexW then 64 else 32) 0) instruction in
    let instruction := push_operand (ImmediateOperand (if rexW then u64 immediate else u32 immediate) 32)
        instruction in
    Ok (inr (cursor, instruction))
  else if (mode =? 3) && (extension =? 6) && negb rexR && negb rexX then
    if size_sub (zlength code) cursor <? 4 then
      reject code address "truncated xor register, imm32"
    else
    let! span572 := subspan code cursor 4 in
    let! immediate := readI32 span572 in
    let cursor := size_add cursor 4 in
    let instruction := with_opcode X_XorRegImm instruction in
    let! register574 := decodeRegister (Z.land modrm 7) rexB in
    let instruction := push_operand (RegisterOperand register574 (if rexW then 64 else 32) 0) instruction in
    let instruction := push_operand (ImmediateOperand (if rexW then u64 immediate else u32 immediate) 32)
        instruction in
    Ok (inr (cursor, instruction))
  else if (mode =? 3) && (extension =? 7) && negb rexR && negb rexX then
    if size_sub (zlength code) cursor <? 4 then
      reject code address "truncated cmp register, imm32"
    else
    let! span575 := subspan code cursor 4 in
    let! immediate := readI32 span575 in
    let cursor := size_add cursor 4 in
    let instruction := with_opcode X_CmpRegImm instruction in
    let! register577 := decodeRegister (Z.land modrm 7) rexB in
    let instruction := push_operand (RegisterOperand register577 (if rexW then 64 else 32) 0) instruction in
    let instruction := push_operand (ImmediateOperand (if rexW then u64 immediate else u32 immediate) 32)
        instruction in
    Ok (inr (cursor, instruction))
  else if (mode <=? 2) && (extension =? 7) && negb rexR then
    decodeGeneral_CmpMemImm cursor rexW rexB rexX modrm mode instruction
  else if (mode <=? 2) && (extension =? 4) && negb rexR then
    decodeGeneral_AndMemImm_2 cursor rexW rexB rexX modrm mode instruction
  else if (mode <=? 2) && (extension =? 1) && negb rexR then
    let rmEncoding := Z.land modrm 7 in
    if (mode =? 0) && (rmEncoding =? 5) then
      reject code address "RIP-relative OR [memory], imm32 is not supported"
    else
    let! base := decodeRegister rmEncoding rexB in
    let index := None in
    let scale := 1 in
    let! (cursor, base, index, scale) : cursor_in 2 6 * Register * option Register * one_of [1; 2; 4; 8] :=
      (if rmEncoding =? 4 then
        if zlength code <=? cursor then
          reject code address "truncated OR memory SIB"
        else
        let! sib := code_at code cursor in
        let cursor := size_add cursor 1 in
        let scaleBits := Z.land (Z.shiftr sib 6) 3 in
        let indexEncoding := Z.land (Z.shiftr sib 3) 7 in
        let baseEncoding := Z.land sib 7 in
        if (mode =? 0) && (baseEncoding =? 5) then
          reject code address "no-base OR [memory], imm32 SIB is not supported"
        else
        let! base := decodeRegister baseEncoding rexB in
        if negb (indexEncoding =? 4) || rexX then
          let! register600 := decodeRegister indexEncoding rexX in
          let index := Some register600 in
          let scale := Z.shiftl 1 scaleBits in
          Ok (cursor, base, index, scale)
        else Ok (cursor, base, index, scale)
       else
        Ok (cursor, base, index, scale)) in
    let displacement := 0 in
    let! (displacement, cursor) : within (- 2 ^ 31) (2 ^ 31 - 1) * cursor_in 2 10 :=
      (if mode =? 1 then
        if zlength code <=? cursor then
          reject code address "truncated OR memory disp8"
        else
        let! byte601 := code_at code cursor in
        let displacement := signed 8 byte601 in
        let cursor := size_add cursor 1 in
        Ok (displacement, cursor)
       else
        if mode =? 2 then
          if size_sub (zlength code) cursor <? 4 then
            reject code address "truncated OR memory disp32"
          else
          let! span602 := subspan code cursor 4 in
          let! displacement := readI32 span602 in
          let cursor := size_add cursor 4 in
          Ok (displacement, cursor)
        else Ok (displacement, cursor)) in
    if size_sub (zlength code) cursor <? 4 then
      reject code address "truncated OR memory imm32"
    else
    let! span604 := subspan code cursor 4 in
    let! immediate := readI32 span604 in
    let cursor := size_add cursor 4 in
    let instruction := with_opcode X_OrMemImm instruction in
    let instruction := push_operand (MemoryOp (mkMemory base displacement (if rexW then 64 else 32) index scale
        true false Segment_None)) instruction in
    let instruction := push_operand (ImmediateOperand (if rexW then u64 immediate else u32 immediate) 32)
        instruction in
    Ok (inr (cursor, instruction))
  else reject code address
      "only ADD /0, OR /1, ADC r32 /2, AND /4, SUB /5, XOR /6, and CMP /7 forms from opcode 81 are supported".

Definition decodeGeneral_IncReg (cursor : Z) (hasRex : bool) (rexB : bool) (rexX : bool) (rexR : bool)
    (instruction : DecodedInstruction) : outcome Recognition :=
  if size_sub (zlength code) cursor <? 1 then
    reject code address "truncated inc r8"
  else
  let! modrm := code_at code cursor in
  let cursor := size_add cursor 1 in
  let mode := Z.land (Z.shiftr modrm 6) 3 in
  let extension := Z.land (Z.shiftr modrm 3) 7 in
  let rmEncoding := Z.land modrm 7 in
  if (mode =? 3) && (extension <=? 1) && (hasRex || (rmEncoding <? 4)) then
    let instruction := with_opcode (if extension =? 0 then X_IncReg else X_DecReg) instruction in
    let! register607 := decodeRegister rmEncoding rexB in
    let instruction := push_operand (RegisterOperand register607 8 0) instruction in
    Ok (inr (cursor, instruction))
  else if (mode <=? 2) && (extension <=? 1) && negb rexR && (negb rexX || (rmEncoding =? 4)) && negb ((mode =?
      0) && (rmEncoding =? 5)) then
    let! base := decodeRegister rmEncoding rexB in
    let index := None in
    let scale := 1 in
    let! (cursor, base, index, scale) : cursor_in 2 6 * Register * option Register * one_of [1; 2; 4; 8] :=
      (if rmEncoding =? 4 then
        if zlength code <=? cursor then
          reject code address "truncated INC/DEC byte SIB"
        else
        let! sib := code_at code cursor in
        let cursor := size_add cursor 1 in
        let scaleBits := Z.land (Z.shiftr sib 6) 3 in
        let indexEncoding := Z.land (Z.shiftr sib 3) 7 in
        let baseEncoding := Z.land sib 7 in
        if (mode =? 0) && (baseEncoding =? 5) then
          reject code address "no-base INC/DEC byte SIB is not supported"
        else
        let! base := decodeRegister baseEncoding rexB in
        if negb (indexEncoding =? 4) || rexX then
          let! register611 := decodeRegister indexEncoding rexX in
          let index := Some register611 in
          let scale := Z.shiftl 1 scaleBits in
          Ok (cursor, base, index, scale)
        else Ok (cursor, base, index, scale)
       else
        Ok (cursor, base, index, scale)) in
    let displacement := 0 in
    let! (displacement, cursor) : within (- 2 ^ 31) (2 ^ 31 - 1) * cursor_in 2 10 :=
      (if mode =? 1 then
        if zlength code <=? cursor then
          reject code address "truncated INC/DEC byte disp8"
        else
        let! byte612 := code_at code cursor in
        let displacement := signed 8 byte612 in
        let cursor := size_add cursor 1 in
        Ok (displacement, cursor)
       else
        if mode =? 2 then
          if size_sub (zlength code) cursor <? 4 then
            reject code address "truncated INC/DEC byte disp32"
          else
          let! span613 := subspan code cursor 4 in
          let! displacement := readI32 span613 in
          let cursor := size_add cursor 4 in
          Ok (displacement, cursor)
        else Ok (displacement, cursor)) in
    let instruction := with_opcode (if extension =? 0 then X_IncMem else X_DecMem) instruction in
    let instruction := push_operand (MemoryOp (mkMemory base displacement 8 index scale true false
        Segment_None)) instruction in
    Ok (inr (cursor, instruction))
  else reject code address
      "only representable register-direct INC/DEC r8 and based INC/DEC byte memory are supported".

Definition decodeGeneral_IncMem_2 (cursor : Z) (hasOperandSizeOverride : bool) (rexW : bool) (rexB : bool)
    (rexX : bool) (mode : Z) (rmEncoding : Z) (instruction : DecodedInstruction) : outcome Recognition :=
  let ripRelative := (mode =? 0) && (rmEncoding =? 5) in
  let! base := decodeRegister rmEncoding rexB in
  let index := None in
  let scale := 1 in
  let hasBase := negb ripRelative in
  let! (cursor, hasBase, base, index, scale) : cursor_in 2 6 * bool * Register * option Register * one_of [1;
      2; 4; 8] :=
    (if negb ripRelative && (rmEncoding =? 4) then
      if zlength code <=? cursor then
        reject code address "truncated INC memory SIB"
      else
      let! sib := code_at code cursor in
      let cursor := size_add cursor 1 in
      let scaleBits := Z.land (Z.shiftr sib 6) 3 in
      let indexEncoding := Z.land (Z.shiftr sib 3) 7 in
      let baseEncoding := Z.land sib 7 in
      let hasBase := negb ((mode =? 0) && (baseEncoding =? 5)) in
      let! base : Register :=
        (if hasBase then
          let! base := decodeRegister baseEncoding rexB in
          Ok base
         else
          Ok base) in
      if negb (indexEncoding =? 4) || rexX then
        let! register619 := decodeRegister indexEncoding rexX in
        let index := Some register619 in
        let scale := Z.shiftl 1 scaleBits in
        Ok (cursor, hasBase, base, index, scale)
      else Ok (cursor, hasBase, base, index, scale)
     else
      Ok (cursor, hasBase, base, index, scale)) in
  let displacement := 0 in
  let! (displacement, cursor) : within (- 2 ^ 31) (2 ^ 31 - 1) * cursor_in 2 10 :=
    (if ripRelative || (negb hasBase && (mode =? 0)) then
      if size_sub (zlength code) cursor <? 4 then
        reject code address "truncated INC memory disp32"
      else
      let! span620 := subspan code cursor 4 in
      let! displacement := readI32 span620 in
      let cursor := size_add cursor 4 in
      Ok (displacement, cursor)
     else
      if mode =? 1 then
        if zlength code <=? cursor then
          reject code address "truncated INC memory disp8"
        else
        let! byte622 := code_at code cursor in
        let displacement := signed 8 byte622 in
        let cursor := size_add cursor 1 in
        Ok (displacement, cursor)
      else if mode =? 2 then
        if size_sub (zlength code) cursor <? 4 then
          reject code address "truncated INC memory disp32"
        else
        let! span623 := subspan code cursor 4 in
        let! displacement := readI32 span623 in
        let cursor := size_add cursor 4 in
        Ok (displacement, cursor)
      else Ok (displacement, cursor)) in
  let! _ :=
    (if ripRelative then
      let! _ := relativeTarget address (size_sub cursor 0) displacement in
      Ok tt
     else
      Ok tt) in
  let instruction := with_opcode X_IncMem instruction in
  let instruction := push_operand (MemoryOp (mkMemory (if ripRelative then Rax else base) displacement (if rexW
      then 64 else if hasOperandSizeOverride then 16 else 32) index scale hasBase ripRelative Segment_None))
      instruction in
  Ok (inr (cursor, instruction)).

Definition decodeGeneral_IncMem (cursor : Z) (hasOperandSizeOverride : bool) (rexW : bool) (rexB : bool) (rexX
    : bool) (rexR : bool) (instruction : DecodedInstruction) : outcome Recognition :=
  if size_sub (zlength code) cursor <? 1 then
    reject code address "truncated indirect call"
  else
  let! modrm := code_at code cursor in
  let cursor := size_add cursor 1 in
  let mode := Z.land (Z.shiftr modrm 6) 3 in
  let extension := Z.land (Z.shiftr modrm 3) 7 in
  let rmEncoding := Z.land modrm 7 in
  if hasOperandSizeOverride && (negb (extension =? 0) || (mode =? 3)) then
    reject code address "only memory INC is supported for operand-size-overridden opcode FF"
  else if (extension =? 0) && (mode <=? 2) && negb rexR && (negb rexX || (rmEncoding =? 4)) then
    decodeGeneral_IncMem_2 cursor hasOperandSizeOverride rexW rexB rexX mode rmEncoding instruction
  else if (extension =? 1) && (mode =? 0) && (rmEncoding =? 5) && negb rexR && negb rexX && negb rexB then
    if size_sub (zlength code) cursor <? 4 then
      reject code address "truncated RIP-relative DEC disp32"
    else
    let! span626 := subspan code cursor 4 in
    let! displacement := readI32 span626 in
    let cursor := size_add cursor 4 in
    let! _ := relativeTarget address (size_sub cursor 0) displacement in
    let instruction := with_opcode X_DecMem instruction in
    let instruction := push_operand (MemoryOp (mkMemory Rax displacement (if rexW then 64 else 32) None 1 false
        true Segment_None)) instruction in
    Ok (inr (cursor, instruction))
  else if (extension =? 1) && (mode <=? 2) && negb rexR && (negb rexX || (rmEncoding =? 4)) && negb ((mode =?
      0) && (rmEncoding =? 5) && negb rexB) then
    let! base := decodeRegister rmEncoding rexB in
    let index := None in
    let scale := 1 in
    let! (cursor, base, index, scale) : cursor_in 2 6 * Register * option Register * one_of [1; 2; 4; 8] :=
      (if rmEncoding =? 4 then
        if zlength code <=? cursor then
          reject code address "truncated DEC memory SIB"
        else
        let! sib := code_at code cursor in
        let cursor := size_add cursor 1 in
        let scaleBits := Z.land (Z.shiftr sib 6) 3 in
        let indexEncoding := Z.land (Z.shiftr sib 3) 7 in
        let baseEncoding := Z.land sib 7 in
        if (mode =? 0) && (baseEncoding =? 5) && negb rexB then
          reject code address "no-base DEC memory SIB is not supported"
        else
        let! base := decodeRegister baseEncoding rexB in
        if negb (indexEncoding =? 4) || rexX then
          let! register632 := decodeRegister indexEncoding rexX in
          let index := Some register632 in
          let scale := Z.shiftl 1 scaleBits in
          Ok (cursor, base, index, scale)
        else Ok (cursor, base, index, scale)
       else
        Ok (cursor, base, index, scale)) in
    let displacement := 0 in
    let! (displacement, cursor) : within (- 2 ^ 31) (2 ^ 31 - 1) * cursor_in 2 10 :=
      (if mode =? 1 then
        if zlength code <=? cursor then
          reject code address "truncated DEC memory disp8"
        else
        let! byte633 := code_at code cursor in
        let displacement := signed 8 byte633 in
        let cursor := size_add cursor 1 in
        Ok (displacement, cursor)
       else
        if (mode =? 2) || ((mode =? 0) && (rmEncoding =? 5)) then
          if size_sub (zlength code) cursor <? 4 then
            reject code address "truncated DEC memory disp32"
          else
          let! span634 := subspan code cursor 4 in
          let! displacement := readI32 span634 in
          let cursor := size_add cursor 4 in
          Ok (displacement, cursor)
        else Ok (displacement, cursor)) in
    let instruction := with_opcode X_DecMem instruction in
    let instruction := push_operand (MemoryOp (mkMemory base displacement (if rexW then 64 else 32) index scale
        true false Segment_None)) instruction in
    Ok (inr (cursor, instruction))
  else if (extension =? 0) && (mode =? 3) && negb rexR && negb rexX then
    let instruction := with_opcode X_IncReg instruction in
    let! register636 := decodeRegister rmEncoding rexB in
    let instruction := push_operand (RegisterOperand register636 (if rexW then 64 else 32) 0) instruction in
    Ok (inr (cursor, instruction))
  else if (extension =? 1) && (mode =? 3) && negb rexR && negb rexX then
    let instruction := with_opcode X_DecReg instruction in
    let! register637 := decodeRegister rmEncoding rexB in
    let instruction := push_operand (RegisterOperand register637 (if rexW then 64 else 32) 0) instruction in
    Ok (inr (cursor, instruction))
  else if (extension =? 4) && (mode =? 3) && negb rexR && negb rexX then
    let instruction := with_opcode X_JmpReg instruction in
    let! register638 := decodeRegister rmEncoding rexB in
    let instruction := push_operand (RegisterOperand register638 64 0) instruction in
    Ok (inr (cursor, instruction))
  else if (extension =? 4) && (mode =? 0) && (rmEncoding =? 5) && negb rexR && negb rexX && negb rexB then
    if size_sub (zlength code) cursor <? 4 then
      reject code address "truncated RIP-relative indirect JMP displacement"
    else
    let! span639 := subspan code cursor 4 in
    let! displacement := readI32 span639 in
    let cursor := size_add cursor 4 in
    let instruction := with_opcode X_JmpMem instruction in
    let instruction := push_operand (MemoryOp (mkMemory Rax displacement 64 None 1 false true Segment_None))
        instruction in
    Ok (inr (cursor, instruction))
  else if (extension =? 4) && (mode <=? 2) && negb rexR && negb rexX && negb ((mode =? 0) && (rmEncoding =? 5))
      then
    let baseEncoding := rmEncoding in
    let! (cursor, baseEncoding) : cursor_in 2 6 * within 0 7 :=
      (if rmEncoding =? 4 then
        if zlength code <=? cursor then
          reject code address "truncated indirect JMP SIB byte"
        else
        let! sib := code_at code cursor in
        let cursor := size_add cursor 1 in
        let scaleBits := Z.land (Z.shiftr sib 6) 3 in
        let indexEncoding := Z.land (Z.shiftr sib 3) 7 in
        let baseEncoding := Z.land sib 7 in
        if negb (scaleBits =? 0) || negb (indexEncoding =? 4) || ((mode =? 0) && (baseEncoding =? 5) && negb
            rexB) then
          reject code address "only no-index SIB addressing is supported for indirect JMP"
        else Ok (cursor, baseEncoding)
       else
        Ok (cursor, baseEncoding)) in
    let displacement := 0 in
    let! (displacement, cursor) : within (- 2 ^ 31) (2 ^ 31 - 1) * cursor_in 2 10 :=
      (if mode =? 1 then
        if zlength code <=? cursor then
          reject code address "truncated indirect JMP disp8"
        else
        let! byte642 := code_at code cursor in
        let displacement := signed 8 byte642 in
        let cursor := size_add cursor 1 in
        Ok (displacement, cursor)
       else
        if mode =? 2 then
          if size_sub (zlength code) cursor <? 4 then
            reject code address "truncated indirect JMP disp32"
          else
          let! span643 := subspan code cursor 4 in
          let! displacement := readI32 span643 in
          let cursor := size_add cursor 4 in
          Ok (displacement, cursor)
        else Ok (displacement, cursor)) in
    let instruction := with_opcode X_JmpMem instruction in
    let! register645 := decodeRegister baseEncoding rexB in
    let instruction := push_operand (MemoryOp (mkMemory register645 displacement 64 None 1 true false
        Segment_None)) instruction in
    Ok (inr (cursor, instruction))
  else if (extension =? 6) && (mode <=? 2) && negb rexR && negb rexX && negb ((mode =? 0) && (rmEncoding =? 5))
      then
    let baseEncoding := rmEncoding in
    let! (cursor, baseEncoding) : cursor_in 2 6 * within 0 7 :=
      (if rmEncoding =? 4 then
        if zlength code <=? cursor then
          reject code address "truncated PUSH memory SIB byte"
        else
        let! sib := code_at code cursor in
        let cursor := size_add cursor 1 in
        let scaleBits := Z.land (Z.shiftr sib 6) 3 in
        let indexEncoding := Z.land (Z.shiftr sib 3) 7 in
        let baseEncoding := Z.land sib 7 in
        if negb (scaleBits =? 0) || negb (indexEncoding =? 4) || ((mode =? 0) && (baseEncoding =? 5) && negb
            rexB) then
          reject code address "only no-index SIB addressing is supported for PUSH memory"
        else Ok (cursor, baseEncoding)
       else
        Ok (cursor, baseEncoding)) in
    let displacement := 0 in
    let! (displacement, cursor) : within (- 2 ^ 31) (2 ^ 31 - 1) * cursor_in 2 10 :=
      (if mode =? 1 then
        if zlength code <=? cursor then
          reject code address "truncated PUSH memory disp8"
        else
        let! byte647 := code_at code cursor in
        let displacement := signed 8 byte647 in
        let cursor := size_add cursor 1 in
        Ok (displacement, cursor)
       else
        if mode =? 2 then
          if size_sub (zlength code) cursor <? 4 then
            reject code address "truncated PUSH memory disp32"
          else
          let! span648 := subspan code cursor 4 in
          let! displacement := readI32 span648 in
          let cursor := size_add cursor 4 in
          Ok (displacement, cursor)
        else Ok (displacement, cursor)) in
    let instruction := with_opcode X_Push instruction in
    let! register650 := decodeRegister baseEncoding rexB in
    let instruction := push_operand (MemoryOp (mkMemory register650 displacement 64 None 1 true false
        Segment_None)) instruction in
    Ok (inr (cursor, instruction))
  else if (extension =? 2) && (mode =? 0) && (rmEncoding =? 5) && negb rexR && negb rexX && negb rexB then
    if size_sub (zlength code) cursor <? 4 then
      reject code address "truncated RIP-relative indirect CALL displacement"
    else
    let! span651 := subspan code cursor 4 in
    let! displacement := readI32 span651 in
    let cursor := size_add cursor 4 in
    let instruction := with_opcode X_CallMem instruction in
    let instruction := push_operand (MemoryOp (mkMemory Rax displacement 64 None 1 false true Segment_None))
        instruction in
    let instruction := with_fallthrough (size_add address (size_sub cursor 0)) instruction in
    Ok (inr (cursor, instruction))
  else if (extension =? 2) && (mode =? 3) && negb rexR && negb rexX then
    let instruction := with_opcode X_CallReg instruction in
    let! register653 := decodeRegister rmEncoding rexB in
    let instruction := push_operand (RegisterOperand register653 64 0) instruction in
    let instruction := with_fallthrough (size_add address (size_sub cursor 0)) instruction in
    Ok (inr (cursor, instruction))
  else if negb (extension =? 2) || (2 <? mode) || rexR || ((mode =? 0) && (rmEncoding =? 5)) then
    reject code address "only register/memory INC /0, register/based/SIB/RIP-relative dword/qword memory DEC /1, register/based/SIB/RIP-relative memory CALL /2, register/based/RIP-relative memory JMP /4, and based qword memory PUSH /6 are supported from opcode FF"
  else
  let baseEncoding := rmEncoding in
  let index := None in
  let scale := 1 in
  let! (cursor, baseEncoding, index, scale) : cursor_in 2 6 * within 0 7 * option Register * one_of [1; 2; 4;
      8] :=
    (if rmEncoding =? 4 then
      if zlength code <=? cursor then
        reject code address "truncated indirect CALL SIB byte"
      else
      let! sib := code_at code cursor in
      let cursor := size_add cursor 1 in
      let scaleBits := Z.land (Z.shiftr sib 6) 3 in
      let indexEncoding := Z.land (Z.shiftr sib 3) 7 in
      let baseEncoding := Z.land sib 7 in
      if (mode =? 0) && (baseEncoding =? 5) && negb rexB then
        reject code address "no-base SIB addressing is not supported for indirect CALL"
      else if negb (indexEncoding =? 4) || rexX then
        let! register655 := decodeRegister indexEncoding rexX in
        let index := Some register655 in
        let scale := Z.shiftl 1 scaleBits in
        Ok (cursor, baseEncoding, index, scale)
      else Ok (cursor, baseEncoding, index, scale)
     else
      if rexX then
        reject code address "REX.X requires an indirect CALL SIB byte"
      else Ok (cursor, baseEncoding, index, scale)) in
  let displacement := 0 in
  let! (displacement, cursor) : within (- 2 ^ 31) (2 ^ 31 - 1) * cursor_in 2 10 :=
    (if mode =? 1 then
      if zlength code <=? cursor then
        reject code address "truncated indirect CALL disp8"
      else
      let! byte656 := code_at code cursor in
      let displacement := signed 8 byte656 in
      let cursor := size_add cursor 1 in
      Ok (displacement, cursor)
     else
      if mode =? 2 then
        if size_sub (zlength code) cursor <? 4 then
          reject code address "truncated indirect CALL disp32"
        else
        let! span657 := subspan code cursor 4 in
        let! displacement := readI32 span657 in
        let cursor := size_add cursor 4 in
        Ok (displacement, cursor)
      else Ok (displacement, cursor)) in
  let instruction := with_opcode X_CallMem instruction in
  let! register659 := decodeRegister baseEncoding rexB in
  let instruction := push_operand (MemoryOp (mkMemory register659 displacement 64 index scale true false
      Segment_None)) instruction in
  let instruction := with_fallthrough (size_add address (size_sub cursor 0)) instruction in
  Ok (inr (cursor, instruction)).

Definition decodeGeneral_AndMemImm_3 (cursor : Z) (rexB : bool) (rexX : bool) (mode : Z) (rmEncoding : Z)
    (instruction : DecodedInstruction) : outcome Recognition :=
  if (mode =? 0) && (rmEncoding =? 5) && negb rexB then
    reject code address "RIP-relative short qword AND is not supported"
  else
  let! base := decodeRegister rmEncoding rexB in
  let! (cursor, base) : cursor_in 2 6 * Register :=
    (if rmEncoding =? 4 then
      if zlength code <=? cursor then
        reject code address "truncated short qword AND memory SIB"
      else
      let! sib := code_at code cursor in
      let cursor := size_add cursor 1 in
      let indexEncoding := Z.land (Z.shiftr sib 3) 7 in
      let baseEncoding := Z.land sib 7 in
      if negb (indexEncoding =? 4) || rexX then
        reject code address "only no-index short qword AND memory SIB is supported"
      else if (mode =? 0) && (baseEncoding =? 5) then
        reject code address "no-base short qword AND memory SIB is not supported"
      else
      let! base := decodeRegister baseEncoding rexB in
      Ok (cursor, base)
     else
      Ok (cursor, base)) in
  let displacement := 0 in
  let! (displacement, cursor) : within (- 2 ^ 31) (2 ^ 31 - 1) * cursor_in 2 10 :=
    (if mode =? 1 then
      if zlength code <=? cursor then
        reject code address "truncated short qword AND memory disp8"
      else
      let! byte664 := code_at code cursor in
      let displacement := signed 8 byte664 in
      let cursor := size_add cursor 1 in
      Ok (displacement, cursor)
     else
      if mode =? 2 then
        if size_sub (zlength code) cursor <? 4 then
          reject code address "truncated short qword AND memory disp32"
        else
        let! span665 := subspan code cursor 4 in
        let! displacement := readI32 span665 in
        let cursor := size_add cursor 4 in
        Ok (displacement, cursor)
      else Ok (displacement, cursor)) in
  if zlength code <=? cursor then
    reject code address "truncated short qword AND memory immediate"
  else
  let! byte667 := code_at code cursor in
  let immediate := signed 8 byte667 in
  let cursor := size_add cursor 1 in
  let instruction := with_opcode X_AndMemImm instruction in
  let instruction := push_operand (MemoryOp (mkMemory base displacement 64 None 1 true false Segment_None))
      instruction in
  let instruction := push_operand (ImmediateOperand (u64 immediate) 8) instruction in
  Ok (inr (cursor, instruction)).

Definition decodeGeneral_AndMemImm_4 (cursor : Z) (rexB : bool) (rexX : bool) (mode : Z) (rmEncoding : Z)
    (instruction : DecodedInstruction) : outcome Recognition :=
  let ripRelative := (mode =? 0) && (rmEncoding =? 5) && negb rexB in
  let! base := decodeRegister rmEncoding rexB in
  let! (cursor, base) : cursor_in 2 6 * Register :=
    (if negb ripRelative && (rmEncoding =? 4) then
      if zlength code <=? cursor then
        reject code address "truncated short dword AND memory SIB"
      else
      let! sib := code_at code cursor in
      let cursor := size_add cursor 1 in
      let indexEncoding := Z.land (Z.shiftr sib 3) 7 in
      let baseEncoding := Z.land sib 7 in
      if negb (indexEncoding =? 4) || rexX then
        reject code address "only no-index short dword AND memory SIB is supported"
      else if (mode =? 0) && (baseEncoding =? 5) then
        reject code address "no-base short dword AND memory SIB is not supported"
      else
      let! base := decodeRegister baseEncoding rexB in
      Ok (cursor, base)
     else
      Ok (cursor, base)) in
  let displacement := 0 in
  let! (displacement, cursor) : within (- 2 ^ 31) (2 ^ 31 - 1) * cursor_in 2 10 :=
    (if ripRelative || (mode =? 2) then
      if size_sub (zlength code) cursor <? 4 then
        reject code address "truncated short dword AND memory disp32"
      else
      let! span671 := subspan code cursor 4 in
      let! displacement := readI32 span671 in
      let cursor := size_add cursor 4 in
      Ok (displacement, cursor)
     else
      if mode =? 1 then
        if zlength code <=? cursor then
          reject code address "truncated short dword AND memory disp8"
        else
        let! byte673 := code_at code cursor in
        let displacement := signed 8 byte673 in
        let cursor := size_add cursor 1 in
        Ok (displacement, cursor)
      else Ok (displacement, cursor)) in
  if zlength code <=? cursor then
    reject code address "truncated short dword AND memory immediate"
  else
  let! byte674 := code_at code cursor in
  let immediate := signed 8 byte674 in
  let cursor := size_add cursor 1 in
  let! _ :=
    (if ripRelative then
      let! _ := relativeTarget address (size_sub cursor 0) displacement in
      Ok tt
     else
      Ok tt) in
  let instruction := with_opcode X_AndMemImm instruction in
  let instruction := push_operand (MemoryOp (if ripRelative then mkMemory Rax displacement 32 None 1 false true
      Segment_None else mkMemory base displacement 32 None 1 true false Segment_None)) instruction in
  let instruction := push_operand (ImmediateOperand (u64 immediate) 8) instruction in
  Ok (inr (cursor, instruction)).

Definition decodeGeneral_OrMemImm_2 (cursor : Z) (rexW : bool) (rexB : bool) (rexX : bool) (mode : Z)
    (rmEncoding : Z) (instruction : DecodedInstruction) : outcome Recognition :=
  let ripRelative := (mode =? 0) && (rmEncoding =? 5) && negb rexB in
  let! base := decodeRegister rmEncoding rexB in
  let! (cursor, base) : cursor_in 2 6 * Register :=
    (if negb ripRelative && (rmEncoding =? 4) then
      if zlength code <=? cursor then
        reject code address "truncated short OR memory SIB"
      else
      let! sib := code_at code cursor in
      let cursor := size_add cursor 1 in
      let indexEncoding := Z.land (Z.shiftr sib 3) 7 in
      let baseEncoding := Z.land sib 7 in
      if negb (indexEncoding =? 4) || rexX then
        reject code address "only no-index short OR memory SIB is supported"
      else if (mode =? 0) && (baseEncoding =? 5) then
        reject code address "no-base short OR memory SIB is not supported"
      else
      let! base := decodeRegister baseEncoding rexB in
      Ok (cursor, base)
     else
      Ok (cursor, base)) in
  let displacement := 0 in
  let! (displacement, cursor) : within (- 2 ^ 31) (2 ^ 31 - 1) * cursor_in 2 10 :=
    (if ripRelative || (mode =? 2) then
      if size_sub (zlength code) cursor <? 4 then
        reject code address "truncated short OR memory disp32"
      else
      let! span679 := subspan code cursor 4 in
      let! displacement := readI32 span679 in
      let cursor := size_add cursor 4 in
      Ok (displacement, cursor)
     else
      if mode =? 1 then
        if zlength code <=? cursor then
          reject code address "truncated short OR memory disp8"
        else
        let! byte681 := code_at code cursor in
        let displacement := signed 8 byte681 in
        let cursor := size_add cursor 1 in
        Ok (displacement, cursor)
      else Ok (displacement, cursor)) in
  if zlength code <=? cursor then
    reject code address "truncated short OR memory immediate"
  else
  let! byte682 := code_at code cursor in
  let immediate := signed 8 byte682 in
  let cursor := size_add cursor 1 in
  let! _ :=
    (if ripRelative then
      let! _ := relativeTarget address (size_sub cursor 0) displacement in
      Ok tt
     else
      Ok tt) in
  let instruction := with_opcode X_OrMemImm instruction in
  let instruction := push_operand (MemoryOp (if ripRelative then mkMemory Rax displacement (if rexW then 64
      else 32) None 1 false true Segment_None else mkMemory base displacement (if rexW then 64 else 32) None 1
      true false Segment_None)) instruction in
  let instruction := push_operand (ImmediateOperand (u64 immediate) 8) instruction in
  Ok (inr (cursor, instruction)).

Definition decodeGeneral_AddMemImm (cursor : Z) (rexW : bool) (rexB : bool) (rexX : bool) (mode : Z)
    (rmEncoding : Z) (instruction : DecodedInstruction) : outcome Recognition :=
  let ripRelative := (mode =? 0) && (rmEncoding =? 5) && negb rexB in
  let! base := decodeRegister rmEncoding rexB in
  let! (cursor, base) : cursor_in 2 6 * Register :=
    (if negb ripRelative && (rmEncoding =? 4) then
      if zlength code <=? cursor then
        reject code address "truncated short ADD memory SIB"
      else
      let! sib := code_at code cursor in
      let cursor := size_add cursor 1 in
      let indexEncoding := Z.land (Z.shiftr sib 3) 7 in
      let baseEncoding := Z.land sib 7 in
      if negb (indexEncoding =? 4) || rexX then
        reject code address "only no-index short ADD memory SIB is supported"
      else if (mode =? 0) && (baseEncoding =? 5) then
        reject code address "no-base short ADD memory SIB is not supported"
      else
      let! base := decodeRegister baseEncoding rexB in
      Ok (cursor, base)
     else
      Ok (cursor, base)) in
  let displacement := 0 in
  let! (displacement, cursor) : within (- 2 ^ 31) (2 ^ 31 - 1) * cursor_in 2 10 :=
    (if ripRelative || (mode =? 2) then
      if size_sub (zlength code) cursor <? 4 then
        reject code address "truncated short ADD memory disp32"
      else
      let! span687 := subspan code cursor 4 in
      let! displacement := readI32 span687 in
      let cursor := size_add cursor 4 in
      Ok (displacement, cursor)
     else
      if mode =? 1 then
        if zlength code <=? cursor then
          reject code address "truncated short ADD memory disp8"
        else
        let! byte689 := code_at code cursor in
        let displacement := signed 8 byte689 in
        let cursor := size_add cursor 1 in
        Ok (displacement, cursor)
      else Ok (displacement, cursor)) in
  if zlength code <=? cursor then
    reject code address "truncated short ADD memory immediate"
  else
  let! byte690 := code_at code cursor in
  let immediate := signed 8 byte690 in
  let cursor := size_add cursor 1 in
  let! _ :=
    (if ripRelative then
      let! _ := relativeTarget address (size_sub cursor 0) displacement in
      Ok tt
     else
      Ok tt) in
  let instruction := with_opcode X_AddMemImm instruction in
  let instruction := push_operand (MemoryOp (if ripRelative then mkMemory Rax displacement (if rexW then 64
      else 32) None 1 false true Segment_None else mkMemory base displacement (if rexW then 64 else 32) None 1
      true false Segment_None)) instruction in
  let instruction := push_operand (ImmediateOperand (u64 immediate) 8) instruction in
  Ok (inr (cursor, instruction)).

Definition decodeGeneral_CmpMemImm_2 (cursor : Z) (rexW : bool) (rexB : bool) (rexX : bool) (mode : Z)
    (rmEncoding : Z) (instruction : DecodedInstruction) : outcome Recognition :=
  let ripRelative := (mode =? 0) && (rmEncoding =? 5) && negb rexB in
  let! base := decodeRegister rmEncoding rexB in
  let index := None in
  let scale := 1 in
  let! (cursor, base, index, scale) : cursor_in 2 6 * Register * option Register * one_of [1; 2; 4; 8] :=
    (if negb ripRelative && (rmEncoding =? 4) then
      if zlength code <=? cursor then
        reject code address "truncated short CMP memory SIB"
      else
      let! sib := code_at code cursor in
      let cursor := size_add cursor 1 in
      let scaleBits := Z.land (Z.shiftr sib 6) 3 in
      let indexEncoding := Z.land (Z.shiftr sib 3) 7 in
      let baseEncoding := Z.land sib 7 in
      if (mode =? 0) && (baseEncoding =? 5) then
        reject code address "no-base short CMP memory SIB is not supported"
      else
      let! base := decodeRegister baseEncoding rexB in
      if negb (indexEncoding =? 4) || rexX then
        let! register697 := decodeRegister indexEncoding rexX in
        let index := Some register697 in
        let scale := Z.shiftl 1 scaleBits in
        Ok (cursor, base, index, scale)
      else Ok (cursor, base, index, scale)
     else
      Ok (cursor, base, index, scale)) in
  let displacement := 0 in
  let! (displacement, cursor) : within (- 2 ^ 31) (2 ^ 31 - 1) * cursor_in 2 10 :=
    (if ripRelative then
      if size_sub (zlength code) cursor <? 4 then
        reject code address "truncated RIP-relative short CMP disp32"
      else
      let! span698 := subspan code cursor 4 in
      let! displacement := readI32 span698 in
      let cursor := size_add cursor 4 in
      Ok (displacement, cursor)
     else
      if mode =? 1 then
        if zlength code <=? cursor then
          reject code address "truncated short memory CMP disp8"
        else
        let! byte700 := code_at code cursor in
        let displacement := signed 8 byte700 in
        let cursor := size_add cursor 1 in
        Ok (displacement, cursor)
      else if mode =? 2 then
        if size_sub (zlength code) cursor <? 4 then
          reject code address "truncated short memory CMP disp32"
        else
        let! span701 := subspan code cursor 4 in
        let! displacement := readI32 span701 in
        let cursor := size_add cursor 4 in
        Ok (displacement, cursor)
      else Ok (displacement, cursor)) in
  if zlength code <=? cursor then
    reject code address "truncated short memory CMP immediate"
  else
  let! byte703 := code_at code cursor in
  let immediate := signed 8 byte703 in
  let cursor := size_add cursor 1 in
  let! _ :=
    (if ripRelative then
      let! _ := relativeTarget address (size_sub cursor 0) displacement in
      Ok tt
     else
      Ok tt) in
  let instruction := with_opcode X_CmpMemImm instruction in
  let instruction := push_operand (MemoryOp (if ripRelative then mkMemory Rax displacement (if rexW then 64
      else 32) None 1 false true Segment_None else mkMemory base displacement (if rexW then 64 else 32) index
      scale true false Segment_None)) instruction in
  let instruction := push_operand (ImmediateOperand (u64 immediate) 8) instruction in
  Ok (inr (cursor, instruction)).

Definition decodeGeneral (cursor : Z) (instruction : DecodedInstruction) : outcome Recognition :=
  let! byte1 := code_at code cursor in
  let hasOperandSizeOverride := (byte1 =? 0x66) in
  let! cursor : cursor_in 0 1 :=
    (if hasOperandSizeOverride then
      let cursor := size_add cursor 1 in
      if zlength code <=? cursor then
        reject code address "truncated after operand-size override"
      else Ok cursor
     else
      Ok cursor) in
  let! byte2 := code_at code cursor in
  let hasGsOverride := (byte2 =? 0x65) in
  let! cursor : cursor_in 0 2 :=
    (if hasGsOverride then
      let cursor := size_add cursor 1 in
      if zlength code <=? cursor then
        reject code address "truncated after GS segment override"
      else Ok cursor
     else
      Ok cursor) in
  let! byte3 := code_at code cursor in
  let hasRex := (0x40 <=? byte3) && (byte3 <=? 0x4F) in
  next! (cursor, instruction) := decodeGeneral_requireRex cursor hasRex instruction in
  let! rex : within 0 255 := (if hasRex then (let! byte7 := code_at code cursor in Ok byte7) else Ok 0) in
  let rexW := negb (Z.land rex 8 =? 0) in
  let rexB := negb (Z.land rex 1 =? 0) in
  let rexX := negb (Z.land rex 2 =? 0) in
  let rexR := negb (Z.land rex 4 =? 0) in
  let! cursor : cursor_in 0 3 :=
    (if hasRex then
      let cursor := size_add cursor 1 in
      if zlength code <=? cursor then
        reject code address "truncated after REX prefix"
      else Ok cursor
     else
      Ok cursor) in
  let! opcode := code_at code cursor in
  let cursor := size_add cursor 1 in
  if hasOperandSizeOverride && negb (opcode =? 1) && negb (opcode =? 3) && negb (opcode =? 0xB) && negb (opcode
      =? 0x39) && negb (opcode =? 0x3B) && negb (opcode =? 0x89) && negb (opcode =? 0x8B) && negb (opcode =?
      0xF7) && negb (opcode =? 0xFF) && negb (opcode =? 0x21) && negb (opcode =? 9) && negb (opcode =? 0x33)
      then
    reject code address "operand-size override is only supported for 16-bit ADD, OR, CMP, MOV, XOR r16, [memory], and memory INC in the general decoder"
  else if hasGsOverride && negb (opcode =? 0x89) && negb (opcode =? 0x8B) && negb (opcode =? 0xC7) && negb
      (opcode =? 0x39) && negb (opcode =? 0x3B) then
    reject code address "GS segment override is only supported for MOV/CMP register/memory"
  else
  next! (cursor, instruction) := decodeGeneral_requireRexW cursor rexW opcode instruction in
  next! (cursor, instruction) :=
    (if opcode =? 0xD then
      if size_sub (zlength code) cursor <? 4 then
        reject code address "truncated or accumulator, imm32"
      else
      let! span9 := subspan code cursor 4 in
      let! immediate := readI32 span9 in
      let cursor := size_add cursor 4 in
      let instruction := with_opcode X_OrRegImm instruction in
      let instruction := push_operand (RegisterOperand Rax (if rexW then 64 else 32) 0) instruction in
      let instruction := push_operand (ImmediateOperand (if rexW then u64 immediate else u32 immediate) 32)
          instruction in
      Ok (inr (cursor, instruction))
     else
      if opcode =? 0x24 then
        if zlength code <=? cursor then
          reject code address "truncated and al, imm8"
        else
        let instruction := with_opcode X_AndRegImm instruction in
        let instruction := push_operand (RegisterOperand Rax 8 0) instruction in
        let! byte11 := code_at code cursor in
        let instruction := push_operand (ImmediateOperand byte11 8) instruction in
        let cursor := size_add cursor 1 in
        Ok (inr (cursor, instruction))
      else if opcode =? 0x25 then
        if size_sub (zlength code) cursor <? 4 then
          reject code address "truncated and accumulator, imm32"
        else
        let! span12 := subspan code cursor 4 in
        let! immediate := readI32 span12 in
        let cursor := size_add cursor 4 in
        let instruction := with_opcode X_AndRegImm instruction in
        let instruction := push_operand (RegisterOperand Rax (if rexW then 64 else 32) 0) instruction in
        let instruction := push_operand (ImmediateOperand (if rexW then u64 immediate else u32 immediate) 32)
            instruction in
        Ok (inr (cursor, instruction))
      else if opcode =? 0x34 then
        if zlength code <=? cursor then
          reject code address "truncated xor al, imm8"
        else
        let instruction := with_opcode X_XorRegImm instruction in
        let instruction := push_operand (RegisterOperand Rax 8 0) instruction in
        let! byte14 := code_at code cursor in
        let instruction := push_operand (ImmediateOperand byte14 8) instruction in
        let cursor := size_add cursor 1 in
        Ok (inr (cursor, instruction))
      else if opcode =? 0xC then
        if zlength code <=? cursor then
          reject code address "truncated or al, imm8"
        else
        let instruction := with_opcode X_OrRegImm instruction in
        let instruction := push_operand (RegisterOperand Rax 8 0) instruction in
        let! byte15 := code_at code cursor in
        let instruction := push_operand (ImmediateOperand byte15 8) instruction in
        let cursor := size_add cursor 1 in
        Ok (inr (cursor, instruction))
      else if opcode =? 0x1C then
        if zlength code <=? cursor then
          reject code address "truncated sbb al, imm8"
        else
        let instruction := with_opcode X_SbbRegImm instruction in
        let instruction := push_operand (RegisterOperand Rax 8 0) instruction in
        let! byte16 := code_at code cursor in
        let instruction := push_operand (ImmediateOperand byte16 8) instruction in
        let cursor := size_add cursor 1 in
        Ok (inr (cursor, instruction))
      else if opcode =? 5 then
        if size_sub (zlength code) cursor <? 4 then
          reject code address "truncated add rax, imm32"
        else
        let! span17 := subspan code cursor 4 in
        let! immediate := readI32 span17 in
        let cursor := size_add cursor 4 in
        let instruction := with_opcode X_AddRegImm instruction in
        let instruction := push_operand (RegisterOperand Rax (if rexW then 64 else 32) 0) instruction in
        let instruction := push_operand (ImmediateOperand (if rexW then u64 immediate else u32 immediate) 32)
            instruction in
        Ok (inr (cursor, instruction))
      else if opcode =? 0x2D then
        if size_sub (zlength code) cursor <? 4 then
          reject code address "truncated sub accumulator, imm32"
        else
        let! span19 := subspan code cursor 4 in
        let! immediate := readI32 span19 in
        let cursor := size_add cursor 4 in
        let instruction := with_opcode X_SubRegImm instruction in
        let instruction := push_operand (RegisterOperand Rax (if rexW then 64 else 32) 0) instruction in
        let instruction := push_operand (ImmediateOperand (if rexW then u64 immediate else u32 immediate) 32)
            instruction in
        Ok (inr (cursor, instruction))
      else if (opcode =? 0x98) && rexW then
        let instruction := with_opcode X_Cdqe instruction in
        Ok (inr (cursor, instruction))
      else if (opcode =? 0x98) && negb hasRex then
        let instruction := with_opcode X_Cwde instruction in
        Ok (inr (cursor, instruction))
      else if hasRex && (0xB0 <=? opcode) && (opcode <=? 0xB7) then
        let instruction := with_opcode X_MovRegImm instruction in
        let! register21 := decodeRegister (u8 (u32 (opcode - 0xB0))) rexB in
        let instruction := push_operand (RegisterOperand register21 8 0) instruction in
        if zlength code <=? cursor then
          reject code address "truncated mov low-byte register, imm8"
        else
        let! byte22 := code_at code cursor in
        let instruction := push_operand (ImmediateOperand byte22 8) instruction in
        let cursor := size_add cursor 1 in
        Ok (inr (cursor, instruction))
      else if (0xB8 <=? opcode) && (opcode <=? 0xBF) then
        let immediateSize := if rexW then 8 else 4 in
        if size_sub (zlength code) cursor <? immediateSize then
          reject code address "truncated mov register, immediate"
        else
        let! immediate : within 0 (2 ^ 64 - 1) := (if rexW then (let! span24 := subspan code cursor
            immediateSize in let! value25 := readU64 span24 in Ok value25) else (let! span26 := subspan code
            cursor immediateSize in let! value27 := readI32 span26 in Ok (u32 value27))) in
        let instruction := with_opcode X_MovRegImm instruction in
        let! register28 := decodeRegister (u8 (u32 (opcode - 0xB8))) rexB in
        let instruction := push_operand (RegisterOperand register28 (if rexW then 64 else 32) 0) instruction in
        let instruction := push_operand (ImmediateOperand immediate (if rexW then 64 else 32)) instruction in
        let cursor := size_add cursor immediateSize in
        Ok (inr (cursor, instruction))
      else if (opcode =? 0x35) && rexW then
        if size_sub (zlength code) cursor <? 4 then
          reject code address "truncated xor rax, imm32"
        else
        let! span29 := subspan code cursor 4 in
        let! immediate := readI32 span29 in
        let cursor := size_add cursor 4 in
        let instruction := with_opcode X_XorRegImm instruction in
        let instruction := push_operand (RegisterOperand Rax 64 0) instruction in
        let instruction := push_operand (ImmediateOperand (u64 immediate) 32) instruction in
        Ok (inr (cursor, instruction))
      else if (opcode =? 0x3D) && rexW then
        if size_sub (zlength code) cursor <? 4 then
          reject code address "truncated cmp rax, imm32"
        else
        let! span31 := subspan code cursor 4 in
        let! immediate := readI32 span31 in
        let cursor := size_add cursor 4 in
        let instruction := with_opcode X_CmpRegImm instruction in
        let instruction := push_operand (RegisterOperand Rax 64 0) instruction in
        let instruction := push_operand (ImmediateOperand (u64 immediate) 32) instruction in
        Ok (inr (cursor, instruction))
      else if opcode =? 0x69 then
        decodeGeneral_ImulRegRegImm cursor rexW rexB rexX rexR instruction
      else if opcode =? 0x6B then
        if size_sub (zlength code) cursor <? 2 then
          reject code address "truncated imul r32/r64, r32/r64, imm8"
        else
        let! modrm := code_at code cursor in
        let cursor := size_add cursor 1 in
        let mode := Z.land (Z.shiftr modrm 6) 3 in
        if negb (mode =? 3) then
          reject code address "only register-direct IMUL r32/r64, r32/r64, imm8 is supported"
        else
        let! byte44 := code_at code cursor in
        let immediate := signed 8 byte44 in
        let cursor := size_add cursor 1 in
        let operandWidth := if rexW then 64 else 32 in
        let instruction := with_opcode X_ImulRegRegImm instruction in
        let! register45 := decodeRegister (Z.land (Z.shiftr modrm 3) 7) rexR in
        let instruction := push_operand (RegisterOperand register45 operandWidth 0) instruction in
        let! register46 := decodeRegister (Z.land modrm 7) rexB in
        let instruction := push_operand (RegisterOperand register46 operandWidth 0) instruction in
        let instruction := push_operand (ImmediateOperand (u64 immediate) 8) instruction in
        Ok (inr (cursor, instruction))
      else if opcode =? 0xF then
        decodeGeneral_BitTestRegReg cursor rexW rexB rexX rexR instruction
      else if opcode =? 0 then
        decodeGeneral_AddRegReg cursor hasRex rexB rexX rexR instruction
      else if opcode =? 2 then
        decodeGeneral_AddRegMem cursor hasRex rexB rexX rexR instruction
      else if opcode =? 0x11 then
        if size_sub (zlength code) cursor <? 1 then
          reject code address "truncated adc r64, r64"
        else
        let! modrm := code_at code cursor in
        let cursor := size_add cursor 1 in
        let mode := Z.land (Z.shiftr modrm 6) 3 in
        if negb (mode =? 3) then
          reject code address "only register-direct ADC r32/r64, r32/r64 is supported"
        else
        let width := if rexW then 64 else 32 in
        let instruction := with_opcode X_AdcRegReg instruction in
        let! register96 := decodeRegister (Z.land modrm 7) rexB in
        let instruction := push_operand (RegisterOperand register96 width 0) instruction in
        let! register97 := decodeRegister (Z.land (Z.shiftr modrm 3) 7) rexR in
        let instruction := push_operand (RegisterOperand register97 width 0) instruction in
        Ok (inr (cursor, instruction))
      else if opcode =? 0x13 then
        decodeGeneral_AdcRegReg cursor rexW rexB rexX rexR instruction
      else if opcode =? 1 then
        decodeGeneral_AddRegReg_2 cursor hasOperandSizeOverride rexW rexB rexX rexR instruction
      else if opcode =? 3 then
        decodeGeneral_AddRegMem_2 cursor hasOperandSizeOverride rexW rexB rexX rexR instruction
      else if opcode =? 8 then
        decodeGeneral_OrRegReg cursor hasRex rexB rexX rexR instruction
      else if opcode =? 9 then
        decodeGeneral_OrRegReg_2 cursor hasOperandSizeOverride rexW rexB rexX rexR instruction
      else if opcode =? 0xA then
        decodeGeneral_OrRegMem cursor hasRex rexB rexX rexR instruction
      else if opcode =? 0xB then
        decodeGeneral_OrRegReg_3 cursor hasOperandSizeOverride rexW rexB rexX rexR instruction
      else if opcode =? 0x2B then
        decodeGeneral_SubRegMem cursor rexW rexB rexX rexR instruction
      else if opcode =? 0x19 then
        if zlength code <=? cursor then
          reject code address "truncated SBB register, register"
        else
        let! modrm := code_at code cursor in
        let cursor := size_add cursor 1 in
        let mode := Z.land (Z.shiftr modrm 6) 3 in
        let! source := decodeRegister (Z.land (Z.shiftr modrm 3) 7) rexR in
        let! destination := decodeRegister (Z.land modrm 7) rexB in
        if negb (mode =? 3) || rexX || negb (bool_decide (source = destination)) then
          reject code address "only register-direct SBB r32/r64 with identical operands is supported"
        else
        let width := if rexW then 64 else 32 in
        let instruction := with_opcode X_SbbRegReg instruction in
        let instruction := push_operand (RegisterOperand destination width 0) instruction in
        let instruction := push_operand (RegisterOperand source width 0) instruction in
        Ok (inr (cursor, instruction))
      else if opcode =? 0x20 then
        if size_sub (zlength code) cursor <? 1 then
          reject code address "truncated and r8, r8"
        else
        let! modrm := code_at code cursor in
        let cursor := size_add cursor 1 in
        let mode := Z.land (Z.shiftr modrm 6) 3 in
        let sourceEncoding := Z.land (Z.shiftr modrm 3) 7 in
        let destinationEncoding := Z.land modrm 7 in
        if negb (mode =? 3) || (negb hasRex && ((4 <=? sourceEncoding) || (4 <=? destinationEncoding))) then
          reject code address "only register-direct representable low-byte AND from opcode 20 is supported"
        else
        let instruction := with_opcode X_AndRegReg instruction in
        let! register193 := decodeRegister destinationEncoding rexB in
        let instruction := push_operand (RegisterOperand register193 8 0) instruction in
        let! register194 := decodeRegister sourceEncoding rexR in
        let instruction := push_operand (RegisterOperand register194 8 0) instruction in
        Ok (inr (cursor, instruction))
      else if opcode =? 0x21 then
        decodeGeneral_AndRegReg cursor hasOperandSizeOverride rexW rexB rexX rexR instruction
      else if opcode =? 0x28 then
        decodeGeneral_SubRegReg cursor hasRex rexB rexX rexR instruction
      else if opcode =? 0x29 then
        decodeGeneral_SubRegReg_2 cursor rexW rexB rexX rexR instruction
      else if opcode =? 0x30 then
        if size_sub (zlength code) cursor <? 1 then
          reject code address "truncated xor byte register, register"
        else
        let! modrm := code_at code cursor in
        let cursor := size_add cursor 1 in
        let mode := Z.land (Z.shiftr modrm 6) 3 in
        let sourceEncoding := Z.land (Z.shiftr modrm 3) 7 in
        let destinationEncoding := Z.land modrm 7 in
        if negb (mode =? 3) || (negb hasRex && ((4 <=? sourceEncoding) || (4 <=? destinationEncoding))) then
          reject code address "only register-direct representable low-byte XOR from opcode 30 is supported"
        else
        let instruction := with_opcode X_XorRegReg instruction in
        let! register227 := decodeRegister destinationEncoding rexB in
        let instruction := push_operand (RegisterOperand register227 8 0) instruction in
        let! register228 := decodeRegister sourceEncoding rexR in
        let instruction := push_operand (RegisterOperand register228 8 0) instruction in
        Ok (inr (cursor, instruction))
      else if opcode =? 0x31 then
        if size_sub (zlength code) cursor <? 1 then
          reject code address "truncated xor register, register"
        else
        let! modrm := code_at code cursor in
        let cursor := size_add cursor 1 in
        let mode := Z.land (Z.shiftr modrm 6) 3 in
        if negb (mode =? 3) || rexX then
          reject code address "only register-direct XOR from opcode 31 is supported"
        else
        let width := if rexW then 64 else 32 in
        let! source := decodeRegister (Z.land (Z.shiftr modrm 3) 7) rexR in
        let! destination := decodeRegister (Z.land modrm 7) rexB in
        let instruction := with_opcode X_XorRegReg instruction in
        let instruction := push_operand (RegisterOperand destination width 0) instruction in
        let instruction := push_operand (RegisterOperand source width 0) instruction in
        Ok (inr (cursor, instruction))
      else if opcode =? 0x32 then
        decodeGeneral_XorRegMem cursor hasRex rexB rexX rexR instruction
      else if opcode =? 0x63 then
        decodeGeneral_MovsxdRegReg cursor rexW rexB rexX rexR instruction
      else if opcode =? 0x33 then
        decodeGeneral_XorRegReg cursor hasOperandSizeOverride rexW rexB rexX rexR instruction
      else if opcode =? 0x38 then
        decodeGeneral_CmpRegReg cursor hasRex rexW rexB rexX rexR instruction
      else if opcode =? 0x39 then
        decodeGeneral_CmpRegReg_2 cursor hasOperandSizeOverride hasGsOverride rexW rexB rexX rexR instruction
      else if opcode =? 0x3A then
        decodeGeneral_CmpRegMem cursor hasRex rexB rexX rexR instruction
      else if opcode =? 0x3B then
        decodeGeneral_CmpRegMem_2 cursor hasOperandSizeOverride hasGsOverride rexW rexB rexX rexR instruction
      else if opcode =? 0x86 then
        decodeGeneral_XchgMemReg cursor hasRex rexB rexX rexR instruction
      else if opcode =? 0x87 then
        decodeGeneral_XchgMemReg_2 cursor rexW rexB rexX rexR instruction
      else if opcode =? 0x88 then
        decodeGeneral_MovRegReg cursor hasRex rexW rexB rexX rexR instruction
      else if opcode =? 0x8A then
        decodeGeneral_MovRegMem cursor hasRex rexW rexB rexX rexR instruction
      else if (opcode =? 0x89) || (opcode =? 0x8B) then
        decodeGeneral_MovMemReg_2 cursor hasOperandSizeOverride hasGsOverride rexW rexB rexX rexR opcode
            instruction
      else if opcode =? 0x22 then
        decodeGeneral_AndRegMem cursor hasRex rexB rexX rexR instruction
      else if opcode =? 0x23 then
        decodeGeneral_AndRegMem_2 cursor rexW rexB rexX rexR instruction
      else if opcode =? 0x84 then
        decodeGeneral_TestReg8Reg8 cursor hasRex rexB rexX rexR instruction
      else if opcode =? 0x85 then
        decodeGeneral_TestRegReg cursor rexW rexB rexX rexR instruction
      else if opcode =? 0x8D then
        decodeGeneral_LeaRegRipRelative cursor rexW rexB rexX rexR instruction
      else if opcode =? 0xC0 then
        if size_sub (zlength code) cursor <? 2 then
          reject code address "truncated byte shift register, imm8"
        else
        let! modrm := code_at code cursor in
        let cursor := size_add cursor 1 in
        let mode := Z.land (Z.shiftr modrm 6) 3 in
        let extension := Z.land (Z.shiftr modrm 3) 7 in
        let rmEncoding := Z.land modrm 7 in
        if rexW || rexR || rexX || negb (mode =? 3) || (negb (extension =? 4) && negb (extension =? 5)) ||
            (negb hasRex && (4 <=? rmEncoding)) then
          reject code address "only SHL/SHR representable-byte-register, imm8 from opcode C0 is supported"
        else
        let instruction := with_opcode (if extension =? 4 then X_ShlRegImm else X_ShrRegImm) instruction in
        let! register437 := decodeRegister rmEncoding rexB in
        let instruction := push_operand (RegisterOperand register437 8 0) instruction in
        let! byte438 := code_at code cursor in
        let instruction := push_operand (ImmediateOperand byte438 8) instruction in
        let cursor := size_add cursor 1 in
        Ok (inr (cursor, instruction))
      else if opcode =? 0xC1 then
        decodeGeneral_ShrMemImm cursor rexW rexB rexX rexR instruction
      else if opcode =? 0xD0 then
        if zlength code <=? cursor then
          reject code address "truncated implicit-count byte shift"
        else
        let! modrm := code_at code cursor in
        let cursor := size_add cursor 1 in
        let mode := Z.land (Z.shiftr modrm 6) 3 in
        let extension := Z.land (Z.shiftr modrm 3) 7 in
        let rmEncoding := Z.land modrm 7 in
        if negb (mode =? 3) || negb (extension =? 5) || (negb hasRex && (4 <=? rmEncoding)) then
          reject code address "only SHR representable-byte-register, 1 from opcode D0 /5 is supported"
        else
        let instruction := with_opcode X_ShrRegImm instruction in
        let! register453 := decodeRegister rmEncoding rexB in
        let instruction := push_operand (RegisterOperand register453 8 0) instruction in
        let instruction := push_operand (ImmediateOperand 1 8) instruction in
        Ok (inr (cursor, instruction))
      else if opcode =? 0xD1 then
        if zlength code <=? cursor then
          reject code address "truncated implicit-count shift register"
        else
        let! modrm := code_at code cursor in
        let cursor := size_add cursor 1 in
        let mode := Z.land (Z.shiftr modrm 6) 3 in
        let extension := Z.land (Z.shiftr modrm 3) 7 in
        if rexR || rexX || negb (mode =? 3) || (negb (extension =? 0) && negb (extension =? 5) && negb
            (extension =? 7)) then
          reject code address "only register-direct ROL/SHR/SAR r32/r64, 1 from opcode D1 /0, /5, and /7 are supported"
        else
        let instruction := with_opcode (if extension =? 0 then X_RolRegImm else if extension =? 5 then
            X_ShrRegImm else X_SarRegImm) instruction in
        let! register455 := decodeRegister (Z.land modrm 7) rexB in
        let instruction := push_operand (RegisterOperand register455 (if rexW then 64 else 32) 0) instruction in
        let instruction := push_operand (ImmediateOperand 1 8) instruction in
        Ok (inr (cursor, instruction))
      else if opcode =? 0xD2 then
        if zlength code <=? cursor then
          reject code address "truncated byte shift register, cl"
        else
        let! modrm := code_at code cursor in
        let cursor := size_add cursor 1 in
        let mode := Z.land (Z.shiftr modrm 6) 3 in
        let extension := Z.land (Z.shiftr modrm 3) 7 in
        let rmEncoding := Z.land modrm 7 in
        if negb (mode =? 3) || negb (extension =? 4) || rexW || (negb hasRex && (4 <=? rmEncoding)) then
          reject code address "only SHL representable-byte-register, CL from opcode D2 /4 is supported"
        else
        let instruction := with_opcode X_ShlRegCl instruction in
        let! register457 := decodeRegister rmEncoding rexB in
        let instruction := push_operand (RegisterOperand register457 8 0) instruction in
        Ok (inr (cursor, instruction))
      else if opcode =? 0xD3 then
        if size_sub (zlength code) cursor <? 1 then
          reject code address "truncated shl register, cl"
        else
        let! modrm := code_at code cursor in
        let cursor := size_add cursor 1 in
        let mode := Z.land (Z.shiftr modrm 6) 3 in
        let extension := Z.land (Z.shiftr modrm 3) 7 in
        if negb (mode =? 3) || (negb (extension =? 0) && negb (extension =? 1) && negb (extension =? 4) && negb
            (extension =? 5) && negb (extension =? 7)) || ((extension =? 0) && rexW) || rexR || rexX then
          reject code address "only register-direct ROL r32 /0, ROR r64 /1 and SHL/SHR/SAR r32/r64 /4,/5,/7 from opcode D3 are supported"
        else if (extension =? 1) && negb rexW then
          reject code address "only 64-bit ROR by CL is supported from opcode D3 /1"
        else
        let instruction := with_opcode (if extension =? 0 then X_RolRegCl else if extension =? 1 then
            X_RorRegCl else if extension =? 4 then X_ShlRegCl else if extension =? 5 then X_ShrRegCl else
            X_SarRegCl) instruction in
        let! register459 := decodeRegister (Z.land modrm 7) rexB in
        let instruction := push_operand (RegisterOperand register459 (if rexW then 64 else 32) 0) instruction in
        Ok (inr (cursor, instruction))
      else if opcode =? 0xF7 then
        decodeGeneral_IdivReg cursor hasOperandSizeOverride rexW rexB rexX rexR instruction
      else if opcode =? 0xC6 then
        decodeGeneral_MovMemImm cursor rexB rexX rexR instruction
      else if opcode =? 0xC7 then
        decodeGeneral_MovRegImm cursor hasGsOverride rexW rexB rexX rexR instruction
      else if opcode =? 0x80 then
        decodeGeneral_AddRegImm cursor hasRex rexW rexB rexX rexR instruction
      else if opcode =? 0x81 then
        decodeGeneral_AddRegImm_2 cursor rexW rexB rexX rexR instruction
      else if opcode =? 0xFE then
        decodeGeneral_IncReg cursor hasRex rexB rexX rexR instruction
      else if opcode =? 0xFF then
        decodeGeneral_IncMem cursor hasOperandSizeOverride rexW rexB rexX rexR instruction
      else if opcode =? 0x83 then
        if size_sub (zlength code) cursor <? 2 then
          reject code address "truncated add r64, imm8"
        else
        let! modrm := code_at code cursor in
        let cursor := size_add cursor 1 in
        let mode := Z.land (Z.shiftr modrm 6) 3 in
        let extension := Z.land (Z.shiftr modrm 3) 7 in
        let rmEncoding := Z.land modrm 7 in
        if (extension =? 4) && (mode <=? 2) && rexW && negb rexR then
          decodeGeneral_AndMemImm_3 cursor rexB rexX mode rmEncoding instruction
        else if (extension =? 4) && (mode <=? 2) && negb rexW && negb rexR then
          decodeGeneral_AndMemImm_4 cursor rexB rexX mode rmEncoding instruction
        else if (extension =? 1) && (mode <=? 2) && negb rexR then
          decodeGeneral_OrMemImm_2 cursor rexW rexB rexX mode rmEncoding instruction
        else if (extension =? 0) && (mode <=? 2) && negb rexR then
          decodeGeneral_AddMemImm cursor rexW rexB rexX mode rmEncoding instruction
        else if (extension =? 5) && (mode <=? 2) && negb rexR then
          let! (memory692, cursor) := decodeModrmMemory code address cursor modrm rex (if rexW then 64 else 32)
              in
          let memory := memory692 in
          if zlength code <=? cursor then
            reject code address "truncated SUB memory immediate"
          else
          let! byte693 := code_at code cursor in
          let immediate := signed 8 byte693 in
          let cursor := size_add cursor 1 in
          let instruction := with_opcode X_SubMemImm instruction in
          let instruction := push_operand (MemoryOp memory) instruction in
          let instruction := push_operand (ImmediateOperand (u64 immediate) 8) instruction in
          Ok (inr (cursor, instruction))
        else if (extension =? 7) && (mode <=? 2) && negb rexR then
          decodeGeneral_CmpMemImm_2 cursor rexW rexB rexX mode rmEncoding instruction
        else if negb rexW && negb (extension =? 0) && negb (extension =? 1) && negb (extension =? 2) && negb
            (extension =? 3) && negb (extension =? 4) && negb (extension =? 5) && negb (extension =? 6) && negb
            (extension =? 7) then
          reject code address "only 32-bit ADD /0, OR /1, ADC /2, SBB /3, AND /4, SUB /5, XOR /6, and CMP /7 are supported from legacy opcode 83"
        else if negb (mode =? 3) || rexR || rexX || (negb (extension =? 0) && negb (extension =? 1) && negb
            (extension =? 2) && negb (extension =? 3) && negb (extension =? 4) && negb (extension =? 5) && negb
            (extension =? 6) && negb (extension =? 7)) then
          reject code address "only register-direct ADD /0, OR /1, ADC /2, SBB /3, AND /4, SUB /5, XOR /6, and CMP /7 from opcode 83 are supported"
        else
        let! byte705 := code_at code cursor in
        let immediate := signed 8 byte705 in
        let cursor := size_add cursor 1 in
        let instruction := with_opcode (if extension =? 0 then X_AddRegImm else if extension =? 1 then
            X_OrRegImm else if extension =? 2 then X_AdcRegImm else if extension =? 3 then X_SbbRegImm else if
            extension =? 4 then X_AndRegImm else if extension =? 5 then X_SubRegImm else if extension =? 6 then
            X_XorRegImm else X_CmpRegImm) instruction in
        let! register706 := decodeRegister (Z.land modrm 7) rexB in
        let instruction := push_operand (RegisterOperand register706 (if rexW then 64 else 32) 0) instruction in
        let instruction := push_operand (ImmediateOperand (u64 immediate) 8) instruction in
        Ok (inr (cursor, instruction))
      else reject code address "opcode is not in the current Rosa subset") in
  let len := size_sub cursor 0 in
  if 15 <? len then
    reject code address "instruction exceeds 15-byte x86 limit"
  else
  let instruction := with_length (u8 len) instruction in
  let! instruction := copy_bytes code 0 len instruction in
  Ok (inl instruction).

End Decode.
