(* ===== verification/Decoder.v ===== *)
(** The x86 decoder ([src/x86/Decoder.cpp]): one instruction, through the recognition
    families in their order of priority, and a basic block of instructions. *)
From S2P Require Import Prelude X86State ExecutionContext IR X86Instruction DecodeBase DecodeVex DecodeScalarSpecial DecodeOperandOverride DecodeSimdLanes DecodeSimdMemory DecodeRepeat DecodeControlTransfer DecodeAtomic DecodeExtended DecodeGeneral.

(** ** Diagnostics *)

Local Open Scope string_scope.

(** [std::setw(2) << std::setfill('0')] on a byte in hexadecimal. *)
Definition hex_byte (b : Z) : string := if (b <? 16)%Z then "0" +:+ hex_digits 2 b else hex_digits 2 b.

Definition makeErrorMessage (address : Z) (remaining : list Z) (reason : string) : string :=
  "unsupported or malformed x86 instruction at guest RIP 0x" +:+ hex_digits 16 address +:+ ": " +:+ reason +:+ "; bytes:" +:+
  String.concat "" (map (fun b => " " +:+ hex_byte b) (take 15 remaining)).

(** [DecodeError::what]. *)
Definition error_message (e : exn) : option string :=
  match e with decode_error address remaining reason => Some (makeErrorMessage address remaining reason) | _ => None end.

Local Close Scope string_scope.

(** ** One instruction *)

Definition decodeFamilies (code : list Z) (address : Z) (instruction : DecodedInstruction) : outcome Recognition :=
  next! (cursor, instruction) := decodeVex code address 0 instruction in
  next! (cursor, instruction) := decodeScalarSpecial code address cursor instruction in
  next! (cursor, instruction) := decodeOperandOverride code address cursor instruction in
  next! (cursor, instruction) := decodeSimdLanes code address cursor instruction in
  next! (cursor, instruction) := decodeSimdMemory code address cursor instruction in
  next! (cursor, instruction) := decodeRepeat code address cursor instruction in
  next! (cursor, instruction) := decodeControlTransfer code address cursor instruction in
  next! (cursor, instruction) := decodeAtomic code address cursor instruction in
  next! (cursor, instruction) := decodeExtended code address cursor instruction in
  decodeGeneral code address cursor instruction.

Definition decodeInstruction (code : list Z) (address : Z) : outcome DecodedInstruction :=
  match code with
  | [] => Throw (decode_error address code "cannot decode an empty instruction")
  | front :: _ =>
      let instruction := newInstruction address in
      if front =? 0xC3 then Ok (with_byte 0 front (with_length 1 (with_opcode X_Ret instruction)))
      else
        let! recognition := decodeFamilies code address instruction in
        match recognition with
        | inl instruction => Ok instruction
        | inr _ => Throw (decode_error address code "opcode is not in the current Rosa subset")
        end
  end.

(** ** A block *)

(** The loop of [decodeBlock]. Every instruction has a byte at least, so one unit of
    fuel for each byte of code, and one more, is enough. *)
Fixpoint decodeBlock_loop (fuel : nat) (code : list Z) (start maximumInstructions cursor : Z)
    (result : list DecodedInstruction) : outcome (list DecodedInstruction) :=
  match fuel with
  | O => Undefined
  | S fuel =>
      if cursor <? zlength code then
        let! rest := subspan code cursor (size_sub (zlength code) cursor) in
        if UINT64_MAX - start <? cursor then Throw (decode_error start rest "guest RIP overflows")
        else
          let! instruction := decodeInstruction rest (u64 (start + cursor)) in
          let cursor := size_add cursor instruction.(d_length) in
          let terminates := terminatesBlock instruction.(d_opcode) in
          let result := result ++ [instruction] in
          if terminates || (zlength result =? maximumInstructions) then Ok result
          else decodeBlock_loop fuel code start maximumInstructions cursor result
      else Throw (decode_error (u64 (start + cursor)) [] "basic block ended without a supported terminator")
  end.

Definition decodeBlock (code : list Z) (start maximumInstructions : Z) : outcome (list DecodedInstruction) :=
  if maximumInstructions =? 0 then Throw (invalid_argument "x86 decoder instruction limit must be nonzero")
  else decodeBlock_loop (S (length code)) code start maximumInstructions 0 [].
