(* ===== verification/DecodeSpec.v ===== *)
(** What the decoder promises: the shape of a decoded instruction, and the rules
    with which the families are proved to keep the promise without reading
    outside the code bytes. *)
From S2P Require Import Prelude X86State ExecutionContext IR X86Instruction DecodeBase.

(** ** The promise *)

Inductive operand_kind : Type := K_Register | K_Immediate | K_Memory | K_Xmm.
#[export] Instance operand_kind_eq_dec : EqDecision operand_kind.
Proof. solve_decision. Defined.

Definition kind_of (o : Operand) : operand_kind :=
  match o with
  | RegisterOperand _ _ _ => K_Register
  | ImmediateOperand _ _ => K_Immediate
  | MemoryOp _ => K_Memory
  | XmmRegisterOperand _ => K_Xmm
  end.

(** The operands of each opcode; [Push] has three forms. *)
Definition operand_kinds (o : X86Opcode) : list (list operand_kind) :=
  match o with
  | X_MovRegImm | X_LeaRegRipRelative | X_AddRegImm | X_AdcRegImm | X_SubRegImm | X_SbbRegImm | X_ShlRegImm
  | X_ShrRegImm | X_SarRegImm | X_RolRegImm | X_RorRegImm | X_OrRegImm | X_XorRegImm | X_AndRegImm
  | X_BitTestRegImm | X_BitSetRegImm | X_BitResetRegImm | X_TestRegImm | X_CmpRegImm => [[K_Register; K_Immediate]]
  | X_MovRegReg | X_MovzxRegReg | X_MovsxRegReg | X_MovsxdRegReg | X_AdcRegReg | X_AddRegReg | X_SbbRegReg
  | X_SubRegReg | X_ImulRegReg | X_OrRegReg | X_XorRegReg | X_AndRegReg | X_BitTestRegReg | X_BitSetRegReg
  | X_BitScanForwardRegReg | X_BitScanReverseRegReg | X_TestRegReg | X_TestReg8Reg8 | X_CmpRegReg
  | X_CmovccReg => [[K_Register; K_Register]]
  | X_MovMemReg | X_AddMemReg | X_SubMemReg | X_OrMemReg | X_AndMemReg | X_TestMemReg | X_CmpMemReg
  | X_CmpxchgMemReg | X_XchgMemReg | X_LockAddMemReg | X_LockXaddMemReg | X_LockOrMemReg => [[K_Memory; K_Register]]
  | X_MovRegMem | X_MovsxRegMem | X_MovzxRegMem | X_MovsxdRegMem | X_LeaRegMem | X_AdcRegMem | X_AddRegMem
  | X_SubRegMem | X_ImulRegMem | X_OrRegMem | X_XorRegMem | X_AndRegMem | X_CmpRegMem | X_Cvttsd2siRegMem
  | X_CmovccRegMem => [[K_Register; K_Memory]]
  | X_Cdqe | X_Cwde | X_RepMovsb | X_RepStosb | X_RepStosd | X_RepStosq | X_Leave | X_Nop | X_Cld | X_Std
  | X_Lfence | X_Mfence | X_Rdtsc | X_Cpuid | X_Ret | X_Vzeroupper | X_JmpRelative | X_CallRelative
  | X_JccRelative | X_Syscall => [[]]
  | X_MovMemImm | X_AddMemImm | X_SubMemImm | X_ShlMemImm | X_ShrMemImm | X_OrMemImm | X_AndMemImm
  | X_BitTestMemImm | X_TestMemImm | X_CmpMemImm | X_LockBtsMemImm | X_LockOrMemImm | X_LockAndMemImm => [[K_Memory; K_Immediate]]
  | X_IncReg | X_DecReg | X_ShlRegCl | X_ShrRegCl | X_SarRegCl | X_RolRegCl | X_RorRegCl | X_BswapReg
  | X_NotReg | X_NegReg | X_MulReg | X_DivReg | X_IdivReg | X_ImulReg | X_Pop | X_JmpReg | X_CallReg
  | X_SetccReg => [[K_Register]]
  | X_IncMem | X_DecMem | X_MulMem | X_DivMem | X_ImulMem | X_Cmpxchg16bMem | X_LockIncMem | X_LockDecMem
  | X_SidtMem | X_JmpMem | X_CallMem | X_SetccMem => [[K_Memory]]
  | X_ImulRegRegImm | X_ShldRegRegImm | X_ShrdRegRegImm => [[K_Register; K_Register; K_Immediate]]
  | X_ImulRegMemImm => [[K_Register; K_Memory; K_Immediate]]
  | X_XorpsRegReg | X_XorpdRegReg | X_PxorRegReg | X_PorRegReg | X_PtestRegReg | X_PcmpeqbRegReg
  | X_PcmpeqdRegReg | X_PadddRegReg | X_PaddwRegReg | X_PaddqRegReg | X_PhadddRegReg | X_PmovzxbdXmmReg
  | X_PmovsxdqRegReg | X_PandRegReg | X_PandnRegReg | X_PshufbRegReg | X_PunpcklwdRegReg
  | X_PunpcklqdqRegReg | X_UnpckhpsRegReg | X_HaddpdRegReg | X_UnpcklpsRegReg | X_UcomisdRegReg
  | X_UcomissRegReg | X_MovapdRegReg | X_MovapsRegReg | X_MovdqaRegReg | X_MovlhpsRegReg | X_MovddupRegReg
  | X_PcmpeqqRegReg | X_BlendvpdRegReg | X_MovssXmmXmm | X_Cvtss2sdXmmReg | X_Cvtdq2pdXmmReg
  | X_AddsdXmmReg | X_SubsdXmmReg | X_MulsdXmmReg | X_DivsdXmmReg | X_SqrtsdXmmReg | X_MinsdXmmReg
  | X_MaxsdXmmReg | X_DivpdRegReg | X_SubpdRegReg | X_MulpdRegReg | X_AddpdRegReg | X_SqrtpdRegReg
  | X_VbroadcastssYmmReg => [[K_Xmm; K_Xmm]]
  | X_XorpsRegMem | X_PxorRegMem | X_PcmpeqbRegMem | X_PadddRegMem | X_PmovsxbdRegMem | X_PmovsxbqRegMem
  | X_PmovsxdqRegMem | X_PandRegMem | X_PshufbRegMem | X_UnpckhpsRegMem | X_HaddpdRegMem | X_UnpcklpsRegMem
  | X_UcomissRegMem | X_MovapsRegMem | X_MovapdRegMem | X_MovupsRegMem | X_VmovupsRegMem
  | X_VmovupsYmmRegMem | X_VmovapsYmmRegMem | X_MovdqaRegMem | X_MovdquRegMem | X_MovlhpsRegMem
  | X_MovddupRegMem | X_PcmpeqqRegMem | X_MovdXmmMem | X_MovssRegMem | X_MovsdRegMem | X_Cvtsi2sdXmmMem
  | X_Cvtss2sdXmmMem | X_Cvtdq2pdXmmMem | X_AddsdXmmMem | X_SubsdXmmMem | X_MulsdXmmMem | X_DivsdXmmMem
  | X_SqrtsdXmmMem | X_MinsdXmmMem | X_MaxsdXmmMem | X_DivpdRegMem | X_SubpdRegMem | X_MulpdRegMem
  | X_AddpdRegMem | X_SqrtpdRegMem | X_MovlpsRegMem | X_MovqXmmMem => [[K_Xmm; K_Memory]]
  | X_VxorpsRegRegReg | X_VxorpsYmmRegRegReg => [[K_Xmm; K_Xmm; K_Xmm]]
  | X_PslldRegImm | X_PsrldRegImm | X_PsrlqRegImm | X_PsrldqRegImm | X_PslldqRegImm => [[K_Xmm; K_Immediate]]
  | X_CmppdRegRegImm | X_PshufdRegRegImm | X_ShufpdRegRegImm | X_ShufpsRegRegImm | X_PalignrRegRegImm
  | X_PblendwRegRegImm => [[K_Xmm; K_Xmm; K_Immediate]]
  | X_PmovmskbRegXmm | X_MovmskpsRegXmm | X_MovmskpdRegXmm | X_Cvttsd2siRegXmm | X_MovdRegXmm
  | X_MovqRegXmm => [[K_Register; K_Xmm]]
  | X_PinsrbXmmReg | X_PinsrdXmmReg | X_PinsrwXmmReg => [[K_Xmm; K_Register; K_Immediate]]
  | X_PinsrbXmmMem | X_PinsrdXmmMem | X_PinsrwXmmMem => [[K_Xmm; K_Memory; K_Immediate]]
  | X_ExtractpsMemXmmImm => [[K_Memory; K_Xmm; K_Immediate]]
  | X_PextrwRegXmmImm | X_PextrdRegXmmImm => [[K_Register; K_Xmm; K_Immediate]]
  | X_MovapsMemReg | X_MovapdMemReg | X_MovupsMemReg | X_VmovupsMemReg | X_VmovupsYmmMemReg
  | X_VmovapsYmmMemReg | X_MovdqaMemReg | X_MovdquMemReg | X_MovdMemXmm | X_MovssMemXmm | X_MovsdMemXmm
  | X_MovlpsMemXmm | X_MovqMemXmm => [[K_Memory; K_Xmm]]
  | X_MovdXmmReg | X_MovqXmmReg | X_Cvtsi2sdXmmReg => [[K_Xmm; K_Register]]
  | X_Push => [[K_Register]; [K_Memory]; [K_Immediate]]
  end.

Definition has_condition (o : X86Opcode) : bool :=
  match o with X_SetccReg | X_SetccMem | X_CmovccReg | X_CmovccRegMem | X_JccRelative => true | _ => false end.
Definition has_branchTarget (o : X86Opcode) : bool :=
  match o with X_JmpRelative | X_JccRelative | X_CallRelative => true | _ => false end.
Definition has_fallthrough (o : X86Opcode) : bool :=
  match o with
  | X_JmpRelative | X_JccRelative | X_CallRelative | X_CallReg | X_CallMem | X_Syscall => true
  | _ => false
  end.

Definition is_present {A} (x : option A) : bool := match x with Some _ => true | None => false end.

(** Operand kinds, condition and successors are those of the opcode. *)
Definition well_typed (i : DecodedInstruction) : bool :=
  bool_decide (map kind_of i.(d_operands) ∈ operand_kinds i.(d_opcode)) &&
  eqb (is_present i.(d_condition)) (has_condition i.(d_opcode)) &&
  eqb (is_present i.(d_branchTarget)) (has_branchTarget i.(d_opcode)) &&
  eqb (is_present i.(d_fallthrough)) (has_fallthrough i.(d_opcode)).

(** Every field of an operand has a value the lowering knows. *)
Definition operand_ok (o : Operand) : Prop :=
  match o with
  | RegisterOperand _ width byteOffset =>
      width ∈ [8; 16; 32; 64] /\ (byteOffset = 0 \/ byteOffset = 1 /\ width = 8)
  | ImmediateOperand value width => in_range 64 value /\ width ∈ [8; 16; 32; 64]
  | MemoryOp m =>
      - 2 ^ 31 <= m.(mem_displacement) < 2 ^ 31 /\ m.(mem_width) ∈ [8; 16; 32; 64; 80; 128; 256] /\
      m.(mem_scale) ∈ [1; 2; 4; 8]
  | XmmRegisterOperand r => 0 <= r < 16
  end.

(** A displacement of a control transfer of [n] bytes: its last byte, or its last four. *)
Definition displacement_of (code : list Z) (n d : Z) : Prop :=
  (exists b, code !! Z.to_nat (n - 1) = Some b /\ d = signed 8 b) \/
  d = signed 32 (le_value (take 4 (drop (Z.to_nat (n - 4)) code))).

Definition target_ok (code : list Z) (address n : Z) (target : option Z) : Prop :=
  match target with
  | None => True
  | Some t => in_range 64 t /\ exists d, displacement_of code n d /\ t = address + n + d
  end.

Definition fallthrough_ok (address n : Z) (next : option Z) : Prop :=
  match next with None => True | Some f => f = u64 (address + n) end.

(** An instruction of [n] bytes before they are copied. *)
Record built (address n : Z) (i : DecodedInstruction) : Prop := {
  built_address : i.(d_address) = address;
  built_typed : well_typed i = true;
  built_operands : Forall operand_ok i.(d_operands);
  built_bytes : i.(d_bytes) = replicate 15 0;
  built_target : i.(d_branchTarget) = None;
  built_fallthrough : fallthrough_ok address n i.(d_fallthrough)
}.

(** A decoded instruction: it starts at [address], has at most fifteen bytes, all of
    them the code's, and is well typed. *)
Record instruction_ok (code : list Z) (address : Z) (i : DecodedInstruction) : Prop := {
  ok_address : i.(d_address) = address;
  ok_length : 1 <= i.(d_length) <= 15 /\ i.(d_length) <= zlength code;
  ok_bytes : i.(d_bytes) = take (Z.to_nat i.(d_length)) code ++ replicate (Z.to_nat (15 - i.(d_length))) 0;
  ok_typed : well_typed i = true;
  ok_operands : Forall operand_ok i.(d_operands);
  ok_target : target_ok code address i.(d_length) i.(d_branchTarget);
  ok_fallthrough : fallthrough_ok address i.(d_length) i.(d_fallthrough)
}.

(** What a family leaves: a decoded instruction, or the untouched state. *)
Definition recognised (code : list Z) (address : Z) (r : Recognition) : Prop :=
  match r with
  | inl i => instruction_ok code address i
  | inr (cursor, i) => cursor = 0 /\ i = newInstruction address
  end.

(** What a branch of the general decoder leaves: a decoded instruction, or one that
    lacks its length and bytes. *)
Definition constructed (code : list Z) (address : Z) (r : Recognition) : Prop :=
  match r with
  | inl i => instruction_ok code address i
  | inr (cursor, i) => 1 <= cursor <= zlength code /\ built address cursor i
  end.

(** A computation that is defined: it returns a value with [Q], or throws. *)
Definition post {A} (m : outcome A) (Q : A -> Prop) : Prop :=
  match m with Ok a => Q a | Throw _ => True | Undefined => False end.

Lemma post_bind {A B} (m : outcome A) (k : A -> outcome B) Q : post m (fun a => post (k a) Q) -> post (outcome_bind m k) Q.
Proof. by destruct m. Qed.

Lemma post_flow {A B C} (m : outcome (A + B)) (k : B -> outcome (A + C)) Q :
  post m (fun r => match r with inl a => Q (inl a) | inr b => post (k b) Q end) -> post (flow_bind m k) Q.
Proof. destruct m as [[a|b]|e|]; cbn; auto. Qed.

Lemma post_mono {A} (m : outcome A) (P Q : A -> Prop) : (forall a, P a -> Q a) -> post m P -> post m Q.
Proof. destruct m; cbn; auto. Qed.

(** A branch that leaves variables is left with what is known of them. *)
Lemma post_join {A B} (m : outcome A) (k : A -> outcome B) (P : A -> Prop) Q :
  post m P -> (forall a, P a -> post (k a) Q) -> post (outcome_bind m k) Q.
Proof. intros Hm Hk. apply post_bind. by apply (post_mono m P). Qed.

(** A conjunction that is evaluated from left to right: when it fails nothing is known;
    dually for a disjunction. *)
Lemma post_test {B} (m : outcome bool) (k : bool -> outcome B) Q :
  post (k false) Q -> post m (fun b => b = true -> post (k true) Q) -> post (outcome_bind m k) Q.
Proof. intros Hf Hm. apply post_bind. apply (post_mono m _ _) with (2 := Hm). intros [] H; auto. Qed.

Lemma post_test_or {B} (m : outcome bool) (k : bool -> outcome B) Q :
  post (k true) Q -> post m (fun b => b = false -> post (k false) Q) -> post (outcome_bind m k) Q.
Proof. intros Ht Hm. apply post_bind. apply (post_mono m _ _) with (2 := Hm). intros [] H; auto. Qed.

(** ** Reads *)

Definition code_ok (code : list Z) : Prop := Forall (in_range 8) code /\ zlength code < 2 ^ 62.

Lemma size_add_small a b : 0 <= a + b < 2 ^ 64 -> size_add a b = a + b.
Proof. intros H. unfold size_add, u64. by apply wrap_small. Qed.

Lemma size_sub_small a b : 0 <= a - b < 2 ^ 64 -> size_sub a b = a - b.
Proof. intros H. unfold size_sub, u64. by apply wrap_small. Qed.

Lemma u32_small x : 0 <= x < 2 ^ 32 -> u32 x = x.
Proof. intros H. unfold u32. by apply wrap_small. Qed.

Lemma post_code_at code i Q : code_ok code -> 0 <= i < zlength code ->
  (forall b, code !! Z.to_nat i = Some b -> in_range 8 b -> Q b) -> post (code_at code i) Q.
Proof.
  intros [Hc _] Hi H. unfold code_at. rewrite (proj2 (Z.leb_le 0 i)) by lia.
  destruct (code !! Z.to_nat i) as [b|] eqn:E.
  - apply H; [done|]. rewrite Forall_forall in Hc. by apply Hc, (list_elem_of_lookup_2 _ (Z.to_nat i)).
  - apply lookup_ge_None in E. unfold zlength in Hi. lia.
Qed.

Lemma post_code_at_known code i b (Q : Z -> Prop) : code !! Z.to_nat i = Some b -> 0 <= i -> Q b -> post (code_at code i) Q.
Proof. intros Hi H0 H. unfold code_at. by rewrite (proj2 (Z.leb_le 0 i) H0), Hi. Qed.

Definition span_ok (n : Z) (l : list Z) : Prop := zlength l = n /\ bytes_ok l.

Lemma post_subspan code i n Q : code_ok code -> 0 <= i -> 0 <= n -> i + n <= zlength code ->
  (forall l, span_ok n l -> l = take (Z.to_nat n) (drop (Z.to_nat i) code) -> Q l) -> post (subspan code i n) Q.
Proof.
  intros [Hc _] Hi Hn Hl H. unfold subspan.
  rewrite (proj2 (Z.leb_le 0 i)), (proj2 (Z.leb_le 0 n)), (proj2 (Z.leb_le _ _) Hl) by done. cbn [andb post].
  apply H; [|done]. split; [unfold zlength in *; rewrite length_take, length_drop; lia|].
  by apply Forall_take, Forall_drop.
Qed.

Lemma post_readI32 l Q : span_ok 4 l -> (forall v, - 2 ^ 31 <= v < 2 ^ 31 -> v = signed 32 (le_value l) -> Q v) -> post (readI32 l) Q.
Proof.
  intros [E Hb] H. unfold readI32. rewrite E. cbn [post].
  assert (take 4 l = l) as -> by (apply take_ge; unfold zlength in E; lia).
  apply H; [|done]. pose proof (le_value_range l Hb) as Hr. rewrite E in Hr.
  unfold in_range, signed in *. destruct (Z.leb_spec (2 ^ (32 - 1)) (le_value l)); lia.
Qed.

Lemma post_readU64 l Q : span_ok 8 l -> (forall v, in_range 64 v -> Q v) -> post (readU64 l) Q.
Proof.
  intros [E Hb] H. unfold readU64. rewrite E. apply H.
  assert (take 8 l = l) as -> by (apply take_ge; unfold zlength in E; lia).
  pose proof (le_value_range l Hb) as Hr. by rewrite E in Hr.
Qed.

(** A relative target is exact, or the decoder throws. *)
Lemma relativeTarget_exact a n d : in_range 64 a -> 0 <= n < 2 ^ 32 -> - 2 ^ 31 <= d < 2 ^ 31 ->
  post (relativeTarget a n d) (fun v => in_range 64 v /\ v = a + n + d /\ in_range 64 (a + n)).
Proof.
  unfold in_range, relativeTarget, UINT64_MAX. intros Ha Hn Hd.
  destruct (Z.ltb_spec (2 ^ 64 - 1 - n) a); [done|].
  assert (u64 (a + n) = a + n) as -> by (apply wrap_small; unfold in_range; lia).
  destruct (Z.leb_spec 0 d).
  - assert (u64 d = d) as -> by (apply wrap_small; unfold in_range; lia).
    destruct (Z.ltb_spec (2 ^ 64 - 1 - d) (a + n)); [done|]. cbn [post].
    assert (u64 (a + n + d) = a + n + d) as -> by (apply wrap_small; unfold in_range; lia). lia.
  - assert (u64 (- (d + 1)) = - (d + 1)) as -> by (apply wrap_small; unfold in_range; lia).
    assert (u64 (- (d + 1) + 1) = - d) as -> by (replace (- (d + 1) + 1) with (- d) by lia; apply wrap_small; unfold in_range; lia).
    destruct (Z.ltb_spec (a + n) (- d)); [done|]. cbn [post].
    replace (a + n - - d) with (a + n + d) by lia.
    assert (u64 (a + n + d) = a + n + d) as -> by (apply wrap_small; unfold in_range; lia). lia.
Qed.

Lemma post_relativeTarget a n d Q : in_range 64 a -> 0 <= n < 2 ^ 32 -> - 2 ^ 31 <= d < 2 ^ 31 ->
  (forall v, in_range 64 v -> v = a + n + d -> in_range 64 (a + n) -> Q v) -> post (relativeTarget a n d) Q.
Proof.
  intros Ha Hn Hd H. apply (post_mono _ _ _) with (2 := relativeTarget_exact a n d Ha Hn Hd). intros v (? & ? & ?). by apply H.
Qed.

Lemma post_register_cast e Q : 0 <= e < 16 -> (forall r, Q r) -> post (register_cast e) Q.
Proof.
  intros He H. unfold register_cast. rewrite (proj2 (Z.leb_le 0 e)) by lia.
  destruct (all_registers !! Z.to_nat e) eqn:E; [apply H|]. apply lookup_ge_None in E. cbn in E. lia.
Qed.

Lemma low_bits_range x n : 0 <= n -> 0 <= Z.land x (Z.ones n) < 2 ^ n.
Proof. intros Hn. rewrite Z.land_ones by done. apply Z.mod_pos_bound. lia. Qed.

Lemma post_decodeRegister low b Q : 0 <= low < 8 -> (forall r, Q r) -> post (decodeRegister low b) Q.
Proof.
  intros Hl H. unfold decodeRegister. apply post_register_cast; [|done].
  assert (in_range 4 (Z.lor low (if b then 8 else 0))) as Hr.
  { apply lor_range; [done|unfold in_range; lia|destruct b; unfold in_range; lia]. }
  unfold u8. rewrite wrap_small; [exact Hr|]. unfold in_range in *. lia.
Qed.

Lemma post_copy_bytes code off n i Q : 0 <= off -> 0 <= n -> off + n <= zlength code -> n <= 15 ->
  Q (with_bytes (take (Z.to_nat n) (drop (Z.to_nat off) code) ++ drop (Z.to_nat n) i.(d_bytes)) i) ->
  post (copy_bytes code off n i) Q.
Proof.
  intros Ho Hn Hl H15 H. unfold copy_bytes.
  by rewrite (proj2 (Z.leb_le 0 off)), (proj2 (Z.leb_le 0 n)), (proj2 (Z.leb_le _ _) Hl), (proj2 (Z.leb_le n 15)).
Qed.

(** ** Operands *)

Lemma xmm_range low high : 0 <= low < 8 -> high = 0 \/ high = 8 -> 0 <= Z.lor low high < 16.
Proof.
  intros Hl Hh. assert (in_range 4 (Z.lor low high)) as Hr; [|exact Hr].
  apply lor_range; [done|unfold in_range; lia|]. unfold in_range. lia.
Qed.

Lemma low3 x : 0 <= Z.land x 7 < 8.
Proof. apply (low_bits_range x 3). lia. Qed.

Lemma low_is_range4 x : 0 <= x < 8 -> 0 <= x < 16.
Proof. lia. Qed.

Lemma low3_16 x : 0 <= Z.land x 7 < 16.
Proof. pose proof (low3 x). lia. Qed.

Lemma low4 x : 0 <= Z.land x 15 < 16.
Proof. apply (low_bits_range x 4). lia. Qed.

Lemma low2 x : 0 <= Z.land x 3 < 4.
Proof. apply (low_bits_range x 2). lia. Qed.

Lemma scale_ok x : Z.shiftl 1 (Z.land x 3) ∈ [1; 2; 4; 8].
Proof.
  pose proof (low_bits_range x 2 ltac:(lia)) as H. change (Z.ones 2) with 3 in H. change (2 ^ 2) with 4 in H.
  assert (Z.land x 3 = 0 \/ Z.land x 3 = 1 \/ Z.land x 3 = 2 \/ Z.land x 3 = 3) as [-> | [-> | [-> | ->]]] by lia;
    by apply (bool_decide_unpack _).
Qed.

Lemma member_weaken (x : Z) (l l' : list Z) : x ∈ l -> forallb (fun y => bool_decide (y ∈ l')) l = true -> x ∈ l'.
Proof.
  intros Hx Hl. rewrite forallb_forall in Hl. apply (bool_decide_eq_true_1 _), Hl. by apply list_elem_of_In.
Qed.

Lemma scale_byte_ok b : in_range 8 b -> Z.shiftl 1 (Z.shiftr b 6) ∈ [1; 2; 4; 8].
Proof.
  unfold in_range. intros Hb.
  assert (0 <= Z.shiftr b 6 < 4) by (rewrite Z.shiftr_div_pow2 by lia; split; [apply Z.div_pos|apply Z.div_lt_upper_bound]; lia).
  rewrite <- (Z.mod_small (Z.shiftr b 6) (2 ^ 2)), <- Z.land_ones by lia. apply scale_ok.
Qed.

Lemma signed8_range b : in_range 8 b -> - 2 ^ 31 <= signed 8 b < 2 ^ 31.
Proof. unfold in_range, signed. intros H. destruct (Z.leb_spec (2 ^ (8 - 1)) b); lia. Qed.

Lemma byte_range64 b : in_range 8 b -> in_range 64 b.
Proof. intros H. by apply (in_range_le 8). Qed.

Lemma u64_in_range x : in_range 64 (u64 x).
Proof. apply wrap_range. lia. Qed.

Lemma u32_range64 x : in_range 64 (u32 x).
Proof. apply (in_range_le 32); [apply wrap_range|]; lia. Qed.

Lemma shifted_byte_range64 b k : in_range 8 b -> 0 <= k <= 56 -> in_range 64 (Z.shiftl b k).
Proof.
  unfold in_range. intros Hb Hk. rewrite Z.shiftl_mul_pow2 by lia.
  assert (2 ^ k <= 2 ^ 56) by (apply Z.pow_le_mono_r; lia).
  split; [apply Z.mul_nonneg_nonneg; lia|]. apply Z.le_lt_trans with (255 * 2 ^ 56); [apply Z.mul_le_mono_nonneg; lia|lia].
Qed.

(** ** Completion *)

Lemma complete_ok code address i n : i.(d_address) = address -> well_typed i = true -> Forall operand_ok i.(d_operands) ->
  i.(d_length) = n -> 1 <= n <= 15 -> n <= zlength code ->
  i.(d_bytes) = take (Z.to_nat n) (drop (Z.to_nat 0) code) ++ drop (Z.to_nat n) (replicate 15 0) ->
  target_ok code address n i.(d_branchTarget) -> fallthrough_ok address n i.(d_fallthrough) ->
  instruction_ok code address i.
Proof.
  intros Ha Ht Ho Hn Hr Hl Hb Hg Hf. split; [done|by rewrite Hn| |done|done|by rewrite Hn|by rewrite Hn].
  rewrite Hb, Hn, drop_replicate. change (drop (Z.to_nat 0) code) with code. do 2 f_equal. lia.
Qed.

(** Bytes stored one at a time. *)
Lemma one_byte code a : code !! 0%nat = Some a ->
  <[Z.to_nat 0 := a]> (replicate 15 0) = take (Z.to_nat 1) (drop (Z.to_nat 0) code) ++ drop (Z.to_nat 1) (replicate 15 0).
Proof. intros Ha. destruct code as [|x code]; [done|]. by injection Ha as ->. Qed.

Lemma two_bytes code a b : code !! 0%nat = Some a -> code !! 1%nat = Some b ->
  <[Z.to_nat 1 := b]> (<[Z.to_nat 0 := a]> (replicate 15 0)) =
  take (Z.to_nat 2) (drop (Z.to_nat 0) code) ++ drop (Z.to_nat 2) (replicate 15 0).
Proof.
  intros Ha Hb. destruct code as [|x [|y code]]; [done|done|]. injection Ha as ->. by injection Hb as ->.
Qed.

(** The end of the general decoder: the length and the bytes of a built instruction. *)
Lemma built_complete code address n i : built address n i -> 1 <= n <= 15 -> n <= zlength code ->
  instruction_ok code address
    (with_bytes (take (Z.to_nat n) (drop (Z.to_nat 0) code) ++ drop (Z.to_nat n) (d_bytes (with_length (u8 n) i)))
       (with_length (u8 n) i)).
Proof.
  intros [Ha Ht Ho Hb Hg Hf] Hn Hl.
  apply (complete_ok _ _ _ n); cbn [with_bytes with_length d_address d_operands d_length d_bytes d_branchTarget d_fallthrough]; try done.
  - by rewrite u8_small by lia.
  - by rewrite Hb.
  - by rewrite Hg.
Qed.

Lemma post_construct {B} code address (m : outcome Recognition) (k : Z * DecodedInstruction -> outcome (DecodedInstruction + B)) Q :
  post m (constructed code address) ->
  (forall i, instruction_ok code address i -> Q (inl i)) ->
  (forall c i, 1 <= c <= zlength code -> built address c i -> post (k (c, i)) Q) -> post (flow_bind m k) Q.
Proof.
  intros Hm Hl Hr. apply post_flow. apply (post_mono m _ _) with (2 := Hm).
  intros [i|[c i]] H; [by apply Hl|]. by apply Hr; destruct H.
Qed.

(** ** Steps of a proof *)

Create HintDb decoder.
#[export] Hint Extern 1 (code_ok _) => assumption : decoder.

(** Cursor arithmetic does not wrap: the innermost sums first. *)
Ltac inner a b := lazymatch constr:((a, b)) with context [size_add] => fail | context [size_sub] => fail | _ => idtac end.
Ltac small_sizes :=
  repeat match goal with
  | |- context [size_add ?a ?b] => inner a b; rewrite (size_add_small a b) by lia
  | |- context [size_sub ?a ?b] => inner a b; rewrite (size_sub_small a b) by lia
  end.
Ltac small_sizes_in E :=
  repeat match type of E with
  | context [size_add ?a ?b] => inner a b; rewrite (size_add_small a b) in E by lia
  | context [size_sub ?a ?b] => inner a b; rewrite (size_sub_small a b) in E by lia
  end.

(** A byte about which something is known decides its comparisons. *)
Ltac known x :=
  match goal with
  | H : x = _ |- _ => idtac
  | H : _ <= x |- _ => idtac
  | H : x <= _ |- _ => idtac
  end.

(** What a condition says about cursors and bytes. *)
Ltac facts E :=
  lazymatch type of E with
  | (_ && _) = true =>
      let E1 := fresh E in let E2 := fresh E in apply andb_prop in E; destruct E as [E1 E2]; facts E1; facts E2
  | (_ || _) = false =>
      let E1 := fresh E in let E2 := fresh E in apply orb_false_elim in E; destruct E as [E1 E2]; facts E1; facts E2
  | negb _ = true => apply negb_true_iff in E; facts E
  | negb _ = false => apply negb_false_iff in E; facts E
  | (_ <? _) = true => apply Z.ltb_lt in E; small_sizes_in E
  | (_ <? _) = false => apply Z.ltb_ge in E; small_sizes_in E
  | (_ <=? _) = true => apply Z.leb_le in E; small_sizes_in E
  | (_ <=? _) = false => apply Z.leb_gt in E; small_sizes_in E
  | ((_ <=? ?x) && (?x <=? _)) = false =>
      tryif (known x; apply andb_false_iff in E; rewrite !Z.leb_gt in E; exfalso; lia) then idtac else clear E
  | (?x =? _) = true => tryif is_var x then apply Z.eqb_eq in E else clear E
  | _ => clear E
  end.

Ltac decided x c :=
  first [replace (x =? c) with false by (symmetry; apply Z.eqb_neq; lia)
        |replace (x =? c) with true by (symmetry; apply Z.eqb_eq; lia)].

(** Case analysis on a condition. *)
Ltac constant_test b := lazymatch b with context [true] => idtac | context [false] => idtac end; progress cbn [andb orb negb].

Ltac decided_inside b :=
  match b with context [?x =? ?c] => is_var x; match goal with H : x = _ |- _ => idtac end; decided x c end.

Ltac split_test b :=
  tryif first [constant_test b|decided_inside b] then idtac else
  lazymatch b with
  | context [if ?c then _ else _] => split_test c
  | negb ?x => split_test x
  | (?x =? ?c) =>
      tryif is_var x; known x; decided x c then idtac
      else (let E := fresh "Hbound" in destruct b eqn:E; facts E)
  | _ => let E := fresh "Hbound" in destruct b eqn:E; facts E
  end; cbn [andb orb negb].

Ltac split_inside e := lazymatch e with context [if ?b then _ else _] => split_test b end.

Ltac low_range :=
  first [apply low3 | assumption | lia
        |repeat lazymatch goal with |- context [Z.land ?y 7] => pose proof (low3 y); generalize dependent (Z.land y 7); intros end;
         unfold in_range in *; rewrite ?u32_small by lia; rewrite ?u8_small by lia; lia].

Ltac low_range4 := apply low_is_range4; low_range.

(** The range of a value. *)
Ltac word :=
  lazymatch goal with
  | |- in_range 64 (Z.lor _ _) => apply lor_range; [lia|word|word]
  | |- in_range 64 (Z.shiftl _ _) => apply shifted_byte_range64; [assumption|lia]
  | |- in_range 64 _ => apply byte_range64; assumption
  end.

Ltac range x :=
  lazymatch x with
  | Z.lor _ (Z.shiftl _ _) => let H := fresh in assert (in_range 64 x) as H by word
  | Z.land ?y 3 => pose proof (low2 y)
  | Z.land ?y 7 => pose proof (low3 y)
  | Z.land ?y 15 => pose proof (low4 y)
  | Z.lor (Z.land ?y 7) ?h => pose proof (xmm_range (Z.land y 7) h (low3 y) ltac:(lia))
  | Z.lor ?y ?h => pose proof (xmm_range y h ltac:(lia) ltac:(lia))
  | signed 8 ?b => pose proof (signed8_range b ltac:(assumption))
  | u64 ?y => pose proof (u64_in_range y)
  | u32 ?y => pose proof (u32_range64 y)
  | u8 ?y => rewrite (u8_small y) by lia
  | _ => small_sizes
  end; unfold in_range in *; lia.

Ltac value :=
  lazymatch goal with
  | |- True => exact I
  | |- in_range _ ?x => first [assumption|unfold in_range; range x]
  | |- _ <= ?x <= _ => first [assumption|range x]
  | |- _ <= ?x < _ => first [assumption|range x]
  | |- _ /\ _ => split; value
  | |- (if ?b then _ else _) ∈ _ => destruct b; value
  | |- _ ∈ _ => first [assumption|apply scale_ok|apply scale_byte_ok; assumption|eapply member_weaken; [eassumption|reflexivity]|by apply (bool_decide_unpack _)]
  | |- operand_ok ?o => first [assumption|cbn [operand_ok mem_displacement mem_width mem_scale]; value]
  | |- ?x <= zlength _ => small_sizes; lia
  | |- ?x < zlength _ => small_sizes; lia
  | |- _ \/ _ => first [left; value|right; value]
  | |- _ => reflexivity
  end.

(** What the variables that a branch leaves are known to satisfy. *)
Ltac join_post code A :=
  lazymatch A with
  | (?B * ?C)%type =>
      let p := join_post code B in let q := join_post code C in constr:(fun x : (B * C)%type => p (fst x) /\ q (snd x))
  | cursor_in ?lo ?hi => constr:(fun c : Z => lo <= c <= hi /\ c <= zlength code)
  | within ?lo ?hi => constr:(fun c : Z => lo <= c <= hi)
  | one_of ?l => constr:(fun c : Z => c ∈ l)
  | MemoryOperand => constr:(fun m : MemoryOperand => operand_ok (MemoryOp m))
  | Register => constr:(fun _ : Register => True)
  | option Register => constr:(fun _ : option Register => True)
  | bool => constr:(fun _ : bool => True)
  | unit => constr:(fun _ : unit => True)
  end.

Ltac split_facts :=
  repeat match goal with
  | H : _ /\ _ |- _ => destruct H
  | H : True |- _ => clear H
  end.

Ltac join A B :=
  lazymatch goal with
  | H : code_ok ?code |- post (outcome_bind ?m ?k) ?Q =>
      let P := join_post code A in
      let A' := eval cbv delta [cursor_in within one_of] beta in A in
      change (post (@outcome_bind A' B m k) Q);
      apply (post_join m k P Q);
      [|cbn beta;
        let x := fresh "joined" in let Hx := fresh "Hjoined" in
        intros x Hx;
        repeat match goal with y : (_ * _)%type |- _ => destruct y end;
        cbn [fst snd] in Hx; split_facts]
  end.

(** Another recogniser, whose lemma is in the database. *)
Ltac call :=
  eapply post_mono; [|solve [eauto with decoder nocore]];
  let r := fresh "r" in let Hr := fresh "Hr" in
  intros r Hr; cbn beta in Hr;
  first [exact Hr
        |destruct r as [?|[? ?]]; [first [exact Hr|discriminate Hr]|first [injection Hr as -> ->|destruct Hr as [-> ->]]; cbn beta iota]].

Ltac fields := cbn [with_byte with_bytes with_length with_opcode push_operand with_branchTarget with_fallthrough with_condition
    newInstruction d_address d_opcode d_bytes d_length d_operands d_branchTarget d_fallthrough app].

(** [copy_n(..., instruction.length, ...)] after the length has been stored. *)
Ltac stored_length :=
  lazymatch goal with
  | |- post (copy_bytes _ _ (d_length ?i) _) _ =>
      let n := eval cbn [d_length with_length with_opcode with_condition push_operand with_branchTarget with_fallthrough] in (d_length i) in
      change (d_length i) with n;
      try lazymatch n with u8 ?m => rewrite (u8_small m) by lia end
  end.

Ltac step :=
  lazymatch goal with
  | |- post (@outcome_bind bool _ (if _ then Ok true else _) (fun b => if b then reject _ _ _ else _)) _ =>
      apply post_test_or; cbn beta
  | |- post (@outcome_bind bool _ (if _ then Ok true else _) _) _ => apply post_bind
  | |- post (@outcome_bind bool _ (if _ then _ else _) _) _ => apply post_test; cbn beta
  | |- post (@outcome_bind ?A ?B (if _ then _ else _) _) _ => first [join A B|apply post_bind]
  | |- post (outcome_bind _ _) _ => apply post_bind
  | |- post (flow_bind _ _) _ => apply post_flow
  | |- post (reject _ _ _) _ => exact I
  | |- post (Throw _) _ => exact I
  | |- post (let x := ?e in _) _ => cbv zeta
  | |- post (Ok _) _ => cbn [post]
  | |- post (if true then _ else _) _ => cbv iota
  | |- post (if false then _ else _) _ => cbv iota
  | |- post (if ?b then _ else _) _ => split_test b
  | |- post (code_at _ ?i) _ =>
      tryif split_inside i then idtac else
      (small_sizes;
       first [eapply post_code_at_known; [eassumption|lia|]
             |apply post_code_at; [assumption|lia|let b := fresh "byte" in intros b ?Hread ?Hbyte]])
  | |- post (subspan _ ?i ?n) _ =>
      tryif first [split_inside i|split_inside n] then idtac else
      (small_sizes; apply post_subspan; [assumption|lia|lia|lia|let l := fresh "span" in intros l ?Hspan ?Hslice])
  | |- post (readI32 _) _ => apply post_readI32; [assumption|let v := fresh "value" in intros v ?Hvalue ?Hread]
  | |- post (readU64 _) _ => apply post_readU64; [assumption|let v := fresh "value" in intros v ?Hvalue]
  | |- post (relativeTarget _ ?n _) _ =>
      tryif split_inside n then idtac else
      (small_sizes; apply post_relativeTarget; [assumption|lia|value|let v := fresh "target" in intros v ?Htarget ?Htarget ?Hnext])
  | |- post (register_cast ?e) _ =>
      tryif split_inside e then idtac else (apply post_register_cast; [first [low_range4|value]|let r := fresh "register" in intros r])
  | |- post (decodeRegister _ _) _ => apply post_decodeRegister; [try low_range|let r := fresh "register" in intros r]
  | |- post (copy_bytes _ _ (d_length _) _) _ => stored_length
  | |- post (copy_bytes _ _ ?n _) _ =>
      tryif split_inside n then idtac else (small_sizes; apply post_copy_bytes; [lia|lia|lia|lia|])
  | |- post (match ?x with (_, _) => _ end) _ => is_var x; destruct x
  | |- post (match ?x with (_, _) => _ end) _ => is_var x; destruct x
  | |- post _ _ => call
  | |- true = true -> _ => intros _
  | |- false = true -> _ => discriminate
  | |- false = false -> _ => intros _
  | |- true = false -> _ => discriminate
  | |- _ = true -> _ => let E := fresh "Htest" in intros E; facts E
  | |- _ = false -> _ => let E := fresh "Htest" in intros E; facts E
  end.

(** ** Ends of a path *)

Ltac split_ifs :=
  repeat match goal with
  | |- context [with_condition ?c _] => lazymatch c with context [if _ then _ else _] => generalize c; intros ? end
  end;
  repeat match goal with |- context [if ?b then _ else _] => split_test b end.

#[export] Hint Extern 1 (_ <= _ <= _) => value : decoder.
#[export] Hint Extern 1 (_ <= zlength _) => value : decoder.
#[export] Hint Extern 1 (_ < zlength _) => lia : decoder.
#[export] Hint Extern 1 (in_range _ _) => assumption : decoder.
#[export] Hint Extern 1 (_ ∈ _) => value : decoder.

Ltac operands := fields; repeat (apply Forall_cons_2; [value|]); apply Forall_nil_2.

(** The bytes of an instruction that are stored one at a time. *)
Ltac stored_bytes :=
  fields; subst;
  first [reflexivity|eapply one_byte; [eassumption..]|eapply two_bytes; [eassumption..]].

Ltac target :=
  fields; cbn [target_ok];
  first [exact I
        |split; [assumption|];
         first [eexists (signed 8 _); split; [left; eexists; split; [eassumption|reflexivity]|assumption]
               |subst; eexists; split; [right; reflexivity|reflexivity]]].

Ltac fallthrough :=
  fields; cbn [fallthrough_ok];
  first [exact I|reflexivity
        |symmetry; unfold in_range in *; rewrite u64_small by lia; lia
        |unfold size_add; small_sizes; f_equal; lia].

Ltac completed :=
  eapply complete_ok;
  [reflexivity|reflexivity|operands|fields; try (apply u8_small; lia); reflexivity|lia|lia|stored_bytes|target|fallthrough].

Ltac half_built := apply Build_built; [reflexivity|reflexivity|operands|reflexivity|reflexivity|fallthrough].

(** A path that ends: an instruction, an instruction without its bytes, or nothing; or
    the variables a branch leaves. *)
Ltac finish :=
  cbn [recognised constructed fst snd];
  lazymatch goal with
  | |- instruction_ok _ _ _ => split_ifs; completed
  | |- _ /\ built _ _ _ => split; [value|split_ifs; half_built]
  | |- _ = 0 /\ _ = newInstruction _ => split; reflexivity
  | |- _ => split_ifs; value
  end.

Ltac start :=
  lazymatch goal with H : code_ok ?code |- _ => pose proof (proj2 H) as Hsize end.

(** ** Memory operands *)

Lemma post_decodeModrmMemory code address cursor modrm rex width Q :
  code_ok code -> 0 <= cursor <= zlength code -> width ∈ [8; 16; 32; 64; 80; 128; 256] ->
  (forall m c, operand_ok (MemoryOp m) -> cursor <= c <= cursor + 5 -> c <= zlength code -> Q (m, c)) ->
  post (decodeModrmMemory code address cursor modrm rex width) Q.
Proof.
  intros Hcode Hcursor Hwidth H. start. unfold decodeModrmMemory. repeat step.
  all: apply H; [value|lia|lia].
Qed.

Ltac decode_step :=
  lazymatch goal with
  | |- post (decodeModrmMemory _ _ _ _ _ _) _ =>
      small_sizes; apply post_decodeModrmMemory; [assumption|lia|value|intros ? ? ? ? ?]
  | _ => step
  end.

Ltac decode := repeat decode_step; finish.
