(* ===== verification/DecodeFamiliesSpec.v ===== *)
(** All recognition families but the general one keep the promise of [DecodeSpec]: what they recognise is a
    well-formed instruction made of the code bytes, they never read outside them, and when
    they recognise nothing they leave the cursor and the instruction as they were. *)
From S2P Require Import Prelude X86State ExecutionContext IR X86Instruction DecodeBase DecodeVex DecodeRepeat DecodeControlTransfer DecodeExtended DecodeAtomic DecodeOperandOverride DecodeSimdLanes DecodeSimdMemory DecodeScalarSpecial DecodeSpec.

(** ** [decodeVex] *)
Section Vex.
Context (code : list Z) (address : Z) (Hcode : code_ok code) (Hcount : 0 < zlength code)
  (Haddress : in_range 64 address).
Hint Resolve Hcode Hcount : core.

Lemma decodeVex_VbroadcastssYmmReg_ok :
  post (decodeVex_VbroadcastssYmmReg code address 0 (newInstruction address)) (recognised code address).
Proof using Hcode Hcount Haddress. start; unfold decodeVex_VbroadcastssYmmReg; decode. Qed.
Hint Resolve decodeVex_VbroadcastssYmmReg_ok : decoder.

Lemma decodeVex_Vzeroupper_ok :
  post (decodeVex_Vzeroupper code address 0 (newInstruction address)) (recognised code address).
Proof using Hcode Hcount Haddress. start; unfold decodeVex_Vzeroupper, decodeVex_Vzeroupper_2,
    decodeVex_VmovupsYmmRegMem; decode. Qed.
Hint Resolve decodeVex_Vzeroupper_ok : decoder.

Lemma decodeVex_ok :
  post (decodeVex code address 0 (newInstruction address)) (recognised code address).
Proof using Hcode Hcount Haddress. start; unfold decodeVex; decode. Qed.
Hint Resolve decodeVex_ok : decoder.

End Vex.

(** ** [decodeRepeat] *)
Section Repeat.
Context (code : list Z) (address : Z) (Hcode : code_ok code) (Hcount : 0 < zlength code)
  (Haddress : in_range 64 address).
Hint Resolve Hcode Hcount : core.

Lemma decodeRepeat_RepMovsb_ok :
  post (decodeRepeat_RepMovsb code 0 (newInstruction address)) (recognised code address).
Proof using Hcode Hcount Haddress. start; unfold decodeRepeat_RepMovsb; decode. Qed.
Hint Resolve decodeRepeat_RepMovsb_ok : decoder.

Lemma decodeRepeat_RepStosb_ok :
  post (decodeRepeat_RepStosb code address 0 (newInstruction address)) (recognised code address).
Proof using Hcode Hcount Haddress. start; unfold decodeRepeat_RepStosb; decode. Qed.
Hint Resolve decodeRepeat_RepStosb_ok : decoder.

Lemma decodeRepeat_MovdquMemReg_ok :
  post (decodeRepeat_MovdquMemReg code address 0 (newInstruction address)) (recognised code address).
Proof using Hcode Hcount Haddress. start; unfold decodeRepeat_MovdquMemReg; decode. Qed.
Hint Resolve decodeRepeat_MovdquMemReg_ok : decoder.

Lemma decodeRepeat_MovdquMemReg_2_ok :
  post (decodeRepeat_MovdquMemReg_2 code address 0 (newInstruction address)) (recognised code address).
Proof using Hcode Hcount Haddress. start; unfold decodeRepeat_MovdquMemReg_2; decode. Qed.
Hint Resolve decodeRepeat_MovdquMemReg_2_ok : decoder.

Lemma decodeRepeat_MovdquRegMem_ok :
  post (decodeRepeat_MovdquRegMem code address 0 (newInstruction address)) (recognised code address).
Proof using Hcode Hcount Haddress. start; unfold decodeRepeat_MovdquRegMem, decodeRepeat_MovdquRegMem_2; decode. Qed.
Hint Resolve decodeRepeat_MovdquRegMem_ok : decoder.

Lemma decodeRepeat_ok :
  post (decodeRepeat code address 0 (newInstruction address)) (recognised code address).
Proof using Hcode Hcount Haddress. start; unfold decodeRepeat; decode. Qed.
Hint Resolve decodeRepeat_ok : decoder.

End Repeat.

(** ** [decodeControlTransfer] *)
Section ControlTransfer.
Context (code : list Z) (address : Z) (Hcode : code_ok code) (Hcount : 0 < zlength code)
  (Haddress : in_range 64 address).
Hint Resolve Hcode Hcount : core.

Lemma decodeControlTransfer_CallRelative_ok :
  post (decodeControlTransfer_CallRelative code address 0 (newInstruction address)) (recognised code address).
Proof using Hcode Hcount Haddress. start; unfold decodeControlTransfer_CallRelative; decode. Qed.
Hint Resolve decodeControlTransfer_CallRelative_ok : decoder.

Lemma decodeControlTransfer_JmpRelative_ok :
  post (decodeControlTransfer_JmpRelative code address 0 (newInstruction address)) (recognised code address).
Proof using Hcode Hcount Haddress. start; unfold decodeControlTransfer_JmpRelative; decode. Qed.
Hint Resolve decodeControlTransfer_JmpRelative_ok : decoder.

Lemma decodeControlTransfer_ok :
  post (decodeControlTransfer code address 0 (newInstruction address)) (recognised code address).
Proof using Hcode Hcount Haddress. start; unfold decodeControlTransfer; decode. Qed.
Hint Resolve decodeControlTransfer_ok : decoder.

End ControlTransfer.

(** ** [decodeExtended] *)
Section Extended.
Context (code : list Z) (address : Z) (Hcode : code_ok code) (Hcount : 0 < zlength code)
  (Haddress : in_range 64 address).
Hint Resolve Hcode Hcount : core.

Lemma decodeExtended_SidtMem_ok :
  post (decodeExtended_SidtMem code address 0 (newInstruction address)) (recognised code address).
Proof using Hcode Hcount Haddress. start; unfold decodeExtended_SidtMem, decodeExtended_SidtMem_2,
    decodeExtended_CmovccReg, decodeExtended_ImulRegReg; decode. Qed.
Hint Resolve decodeExtended_SidtMem_ok : decoder.

Lemma decodeExtended_MovRegImm_ok :
  post (decodeExtended_MovRegImm code address 0 (newInstruction address)) (recognised code address).
Proof using Hcode Hcount Haddress. start; unfold decodeExtended_MovRegImm; decode. Qed.
Hint Resolve decodeExtended_MovRegImm_ok : decoder.

Lemma decodeExtended_ok :
  post (decodeExtended code address 0 (newInstruction address)) (recognised code address).
Proof using Hcode Hcount Haddress. start; unfold decodeExtended; decode. Qed.
Hint Resolve decodeExtended_ok : decoder.

End Extended.

(** ** [decodeAtomic] *)
Section Atomic.
Context (code : list Z) (address : Z) (Hcode : code_ok code) (Hcount : 0 < zlength code)
  (Haddress : in_range 64 address).
Hint Resolve Hcode Hcount : core.

Lemma decodeAtomic_LockAddMemReg_ok :
  post (decodeAtomic_LockAddMemReg code address 0 (newInstruction address)) (recognised code address).
Proof using Hcode Hcount Haddress. start; unfold decodeAtomic_LockAddMemReg; decode. Qed.
Hint Resolve decodeAtomic_LockAddMemReg_ok : decoder.

Lemma decodeAtomic_LockOrMemImm_ok :
  post (decodeAtomic_LockOrMemImm code address 0 (newInstruction address)) (recognised code address).
Proof using Hcode Hcount Haddress. start; unfold decodeAtomic_LockOrMemImm; decode. Qed.
Hint Resolve decodeAtomic_LockOrMemImm_ok : decoder.

Lemma decodeAtomic_LockOrMemImm_2_ok :
  post (decodeAtomic_LockOrMemImm_2 code address 0 (newInstruction address)) (recognised code address).
Proof using Hcode Hcount Haddress. start; unfold decodeAtomic_LockOrMemImm_2; decode. Qed.
Hint Resolve decodeAtomic_LockOrMemImm_2_ok : decoder.

Lemma decodeAtomic_LockIncMem_ok :
  post (decodeAtomic_LockIncMem code address 0 (newInstruction address)) (recognised code address).
Proof using Hcode Hcount Haddress. start; unfold decodeAtomic_LockIncMem; decode. Qed.
Hint Resolve decodeAtomic_LockIncMem_ok : decoder.

Lemma decodeAtomic_Cmpxchg16bMem_ok :
  post (decodeAtomic_Cmpxchg16bMem code address 0 (newInstruction address)) (recognised code address).
Proof using Hcode Hcount Haddress. start; unfold decodeAtomic_Cmpxchg16bMem; decode. Qed.
Hint Resolve decodeAtomic_Cmpxchg16bMem_ok : decoder.

Lemma decodeAtomic_LockXaddMemReg_ok :
  post (decodeAtomic_LockXaddMemReg code address 0 (newInstruction address)) (recognised code address).
Proof using Hcode Hcount Haddress. start; unfold decodeAtomic_LockXaddMemReg; decode. Qed.
Hint Resolve decodeAtomic_LockXaddMemReg_ok : decoder.

Lemma decodeAtomic_LockIncMem_2_ok :
  post (decodeAtomic_LockIncMem_2 code address 0 (newInstruction address)) (recognised code address).
Proof using Hcode Hcount Haddress. start; unfold decodeAtomic_LockIncMem_2, decodeAtomic_LockIncMem_3,
    decodeAtomic_LockIncMem_4, decodeAtomic_LockBtsMemImm; decode. Qed.
Hint Resolve decodeAtomic_LockIncMem_2_ok : decoder.

Lemma decodeAtomic_ok :
  post (decodeAtomic code address 0 (newInstruction address)) (recognised code address).
Proof using Hcode Hcount Haddress. start; unfold decodeAtomic; decode. Qed.
Hint Resolve decodeAtomic_ok : decoder.

End Atomic.

(** ** [decodeOperandOverride] *)
Section OperandOverride.
Context (code : list Z) (address : Z) (Hcode : code_ok code) (Hcount : 0 < zlength code)
  (Haddress : in_range 64 address).
Hint Resolve Hcode Hcount : core.

Lemma decodeOperandOverride_UnpcklpsRegReg_ok :
  post (decodeOperandOverride_UnpcklpsRegReg code address 0 (newInstruction address)) (recognised code address).
Proof using Hcode Hcount Haddress. start; unfold decodeOperandOverride_UnpcklpsRegReg,
    decodeOperandOverride_UnpcklpsRegReg_2; decode. Qed.
Hint Resolve decodeOperandOverride_UnpcklpsRegReg_ok : decoder.

Lemma decodeOperandOverride_HaddpdRegReg_ok :
  post (decodeOperandOverride_HaddpdRegReg code address 0 (newInstruction address)) (recognised code address).
Proof using Hcode Hcount Haddress. start; unfold decodeOperandOverride_HaddpdRegReg,
    decodeOperandOverride_HaddpdRegReg_2; decode. Qed.
Hint Resolve decodeOperandOverride_HaddpdRegReg_ok : decoder.

Lemma decodeOperandOverride_UnpckhpsRegReg_ok :
  post (decodeOperandOverride_UnpckhpsRegReg code address 0 (newInstruction address)) (recognised code address).
Proof using Hcode Hcount Haddress. start; unfold decodeOperandOverride_UnpckhpsRegReg,
    decodeOperandOverride_UnpckhpsRegReg_2; decode. Qed.
Hint Resolve decodeOperandOverride_UnpckhpsRegReg_ok : decoder.

Lemma decodeOperandOverride_SqrtpdRegReg_ok :
  post (decodeOperandOverride_SqrtpdRegReg code address 0 (newInstruction address)) (recognised code address).
Proof using Hcode Hcount Haddress. start; unfold decodeOperandOverride_SqrtpdRegReg,
    decodeOperandOverride_SqrtpdRegReg_2; decode. Qed.
Hint Resolve decodeOperandOverride_SqrtpdRegReg_ok : decoder.

Lemma decodeOperandOverride_XorpdRegReg_ok :
  post (decodeOperandOverride_XorpdRegReg code address 0 (newInstruction address)) (recognised code address).
Proof using Hcode Hcount Haddress. start; unfold decodeOperandOverride_XorpdRegReg; decode. Qed.
Hint Resolve decodeOperandOverride_XorpdRegReg_ok : decoder.

Lemma decodeOperandOverride_MovqXmmReg_ok :
  post (decodeOperandOverride_MovqXmmReg code address 0 (newInstruction address)) (recognised code address).
Proof using Hcode Hcount Haddress. start; unfold decodeOperandOverride_MovqXmmReg,
    decodeOperandOverride_MovqXmmReg_2, decodeOperandOverride_MovqXmmReg_3, decodeOperandOverride_MovqRegXmm; decode.
    Qed.
Hint Resolve decodeOperandOverride_MovqXmmReg_ok : decoder.

Lemma decodeOperandOverride_AndMemImm_ok :
  post (decodeOperandOverride_AndMemImm code address 0 (newInstruction address)) (recognised code address).
Proof using Hcode Hcount Haddress. start; unfold decodeOperandOverride_AndMemImm; decode. Qed.
Hint Resolve decodeOperandOverride_AndMemImm_ok : decoder.

Lemma decodeOperandOverride_AndRegImm_ok :
  post (decodeOperandOverride_AndRegImm code address 0 (newInstruction address)) (recognised code address).
Proof using Hcode Hcount Haddress. start; unfold decodeOperandOverride_AndRegImm; decode. Qed.
Hint Resolve decodeOperandOverride_AndRegImm_ok : decoder.

Lemma decodeOperandOverride_IncReg_ok :
  post (decodeOperandOverride_IncReg code address 0 (newInstruction address)) (recognised code address).
Proof using Hcode Hcount Haddress. start; unfold decodeOperandOverride_IncReg; decode. Qed.
Hint Resolve decodeOperandOverride_IncReg_ok : decoder.

Lemma decodeOperandOverride_MovMemReg_ok :
  post (decodeOperandOverride_MovMemReg code address 0 (newInstruction address)) (recognised code address).
Proof using Hcode Hcount Haddress. start; unfold decodeOperandOverride_MovMemReg; decode. Qed.
Hint Resolve decodeOperandOverride_MovMemReg_ok : decoder.

Lemma decodeOperandOverride_MovMemImm_ok :
  post (decodeOperandOverride_MovMemImm code address 0 (newInstruction address)) (recognised code address).
Proof using Hcode Hcount Haddress. start; unfold decodeOperandOverride_MovMemImm; decode. Qed.
Hint Resolve decodeOperandOverride_MovMemImm_ok : decoder.

Lemma decodeOperandOverride_ok :
  post (decodeOperandOverride code address 0 (newInstruction address)) (recognised code address).
Proof using Hcode Hcount Haddress. start; unfold decodeOperandOverride; decode. Qed.
Hint Resolve decodeOperandOverride_ok : decoder.

End OperandOverride.

(** ** [decodeSimdLanes] *)
Section SimdLanes.
Context (code : list Z) (address : Z) (Hcode : code_ok code) (Hcount : 0 < zlength code)
  (Haddress : in_range 64 address).
Hint Resolve Hcode Hcount : core.

Lemma decodeSimdLanes_PshufbRegReg_ok :
  post (decodeSimdLanes_PshufbRegReg code address 0 (newInstruction address)) (recognised code address).
Proof using Hcode Hcount Haddress. start; unfold decodeSimdLanes_PshufbRegReg, decodeSimdLanes_PshufbRegReg_2,
    decodeSimdLanes_PshufbRegReg_3, decodeSimdLanes_PmovsxdqRegReg, decodeSimdLanes_PcmpeqqRegReg; decode. Qed.
Hint Resolve decodeSimdLanes_PshufbRegReg_ok : decoder.

Lemma decodeSimdLanes_PinsrwXmmReg_ok :
  post (decodeSimdLanes_PinsrwXmmReg code address 0 (newInstruction address)) (recognised code address).
Proof using Hcode Hcount Haddress. start; unfold decodeSimdLanes_PinsrwXmmReg, decodeSimdLanes_PinsrwXmmReg_2;
    decode. Qed.
Hint Resolve decodeSimdLanes_PinsrwXmmReg_ok : decoder.

Lemma decodeSimdLanes_PextrwRegXmmImm_ok :
  post (decodeSimdLanes_PextrwRegXmmImm code address 0 (newInstruction address)) (recognised code address).
Proof using Hcode Hcount Haddress. start; unfold decodeSimdLanes_PextrwRegXmmImm; decode. Qed.
Hint Resolve decodeSimdLanes_PextrwRegXmmImm_ok : decoder.

Lemma decodeSimdLanes_ExtractpsMemXmmImm_ok :
  post (decodeSimdLanes_ExtractpsMemXmmImm code address 0 (newInstruction address)) (recognised code address).
Proof using Hcode Hcount Haddress. start; unfold decodeSimdLanes_ExtractpsMemXmmImm; decode. Qed.
Hint Resolve decodeSimdLanes_ExtractpsMemXmmImm_ok : decoder.

Lemma decodeSimdLanes_PtestRegReg_ok :
  post (decodeSimdLanes_PtestRegReg code address 0 (newInstruction address)) (recognised code address).
Proof using Hcode Hcount Haddress. start; unfold decodeSimdLanes_PtestRegReg; decode. Qed.
Hint Resolve decodeSimdLanes_PtestRegReg_ok : decoder.

Lemma decodeSimdLanes_CmppdRegRegImm_ok :
  post (decodeSimdLanes_CmppdRegRegImm code address 0 (newInstruction address)) (recognised code address).
Proof using Hcode Hcount Haddress. start; unfold decodeSimdLanes_CmppdRegRegImm; decode. Qed.
Hint Resolve decodeSimdLanes_CmppdRegRegImm_ok : decoder.

Lemma decodeSimdLanes_PaddwRegReg_ok :
  post (decodeSimdLanes_PaddwRegReg code address 0 (newInstruction address)) (recognised code address).
Proof using Hcode Hcount Haddress. start; unfold decodeSimdLanes_PaddwRegReg; decode. Qed.
Hint Resolve decodeSimdLanes_PaddwRegReg_ok : decoder.

Lemma decodeSimdLanes_PsrldRegImm_ok :
  post (decodeSimdLanes_PsrldRegImm code address 0 (newInstruction address)) (recognised code address).
Proof using Hcode Hcount Haddress. start; unfold decodeSimdLanes_PsrldRegImm, decodeSimdLanes_PsrldRegImm_2,
    decodeSimdLanes_PsrldRegImm_3; decode. Qed.
Hint Resolve decodeSimdLanes_PsrldRegImm_ok : decoder.

Lemma decodeSimdLanes_PunpcklwdRegReg_ok :
  post (decodeSimdLanes_PunpcklwdRegReg code address 0 (newInstruction address)) (recognised code address).
Proof using Hcode Hcount Haddress. start; unfold decodeSimdLanes_PunpcklwdRegReg; decode. Qed.
Hint Resolve decodeSimdLanes_PunpcklwdRegReg_ok : decoder.

Lemma decodeSimdLanes_PorRegReg_ok :
  post (decodeSimdLanes_PorRegReg code address 0 (newInstruction address)) (recognised code address).
Proof using Hcode Hcount Haddress. start; unfold decodeSimdLanes_PorRegReg; decode. Qed.
Hint Resolve decodeSimdLanes_PorRegReg_ok : decoder.

Lemma decodeSimdLanes_PxorRegReg_ok :
  post (decodeSimdLanes_PxorRegReg code address 0 (newInstruction address)) (recognised code address).
Proof using Hcode Hcount Haddress. start; unfold decodeSimdLanes_PxorRegReg; decode. Qed.
Hint Resolve decodeSimdLanes_PxorRegReg_ok : decoder.

Lemma decodeSimdLanes_PandnRegReg_ok :
  post (decodeSimdLanes_PandnRegReg code address 0 (newInstruction address)) (recognised code address).
Proof using Hcode Hcount Haddress. start; unfold decodeSimdLanes_PandnRegReg; decode. Qed.
Hint Resolve decodeSimdLanes_PandnRegReg_ok : decoder.

Lemma decodeSimdLanes_PandRegReg_ok :
  post (decodeSimdLanes_PandRegReg code address 0 (newInstruction address)) (recognised code address).
Proof using Hcode Hcount Haddress. start; unfold decodeSimdLanes_PandRegReg; decode. Qed.
Hint Resolve decodeSimdLanes_PandRegReg_ok : decoder.

Lemma decodeSimdLanes_PcmpeqbRegReg_ok :
  post (decodeSimdLanes_PcmpeqbRegReg code address 0 (newInstruction address)) (recognised code address).
Proof using Hcode Hcount Haddress. start; unfold decodeSimdLanes_PcmpeqbRegReg; decode. Qed.
Hint Resolve decodeSimdLanes_PcmpeqbRegReg_ok : decoder.

Lemma decodeSimdLanes_PcmpeqdRegReg_ok :
  post (decodeSimdLanes_PcmpeqdRegReg code address 0 (newInstruction address)) (recognised code address).
Proof using Hcode Hcount Haddress. start; unfold decodeSimdLanes_PcmpeqdRegReg; decode. Qed.
Hint Resolve decodeSimdLanes_PcmpeqdRegReg_ok : decoder.

Lemma decodeSimdLanes_PshufdRegRegImm_ok :
  post (decodeSimdLanes_PshufdRegRegImm code address 0 (newInstruction address)) (recognised code address).
Proof using Hcode Hcount Haddress. start; unfold decodeSimdLanes_PshufdRegRegImm; decode. Qed.
Hint Resolve decodeSimdLanes_PshufdRegRegImm_ok : decoder.

Lemma decodeSimdLanes_UcomisdRegReg_ok :
  post (decodeSimdLanes_UcomisdRegReg code address 0 (newInstruction address)) (recognised code address).
Proof using Hcode Hcount Haddress. start; unfold decodeSimdLanes_UcomisdRegReg; decode. Qed.
Hint Resolve decodeSimdLanes_UcomisdRegReg_ok : decoder.

Lemma decodeSimdLanes_UcomissRegReg_ok :
  post (decodeSimdLanes_UcomissRegReg code address 0 (newInstruction address)) (recognised code address).
Proof using Hcode Hcount Haddress. start; unfold decodeSimdLanes_UcomissRegReg, decodeSimdLanes_UcomissRegReg_2;
    decode. Qed.
Hint Resolve decodeSimdLanes_UcomissRegReg_ok : decoder.

Lemma decodeSimdLanes_ShufpsRegRegImm_ok :
  post (decodeSimdLanes_ShufpsRegRegImm code address 0 (newInstruction address)) (recognised code address).
Proof using Hcode Hcount Haddress. start; unfold decodeSimdLanes_ShufpsRegRegImm; decode. Qed.
Hint Resolve decodeSimdLanes_ShufpsRegRegImm_ok : decoder.

Lemma decodeSimdLanes_MovmskpsRegXmm_ok :
  post (decodeSimdLanes_MovmskpsRegXmm code address 0 (newInstruction address)) (recognised code address).
Proof using Hcode Hcount Haddress. start; unfold decodeSimdLanes_MovmskpsRegXmm; decode. Qed.
Hint Resolve decodeSimdLanes_MovmskpsRegXmm_ok : decoder.

Lemma decodeSimdLanes_MovmskpdRegXmm_ok :
  post (decodeSimdLanes_MovmskpdRegXmm code address 0 (newInstruction address)) (recognised code address).
Proof using Hcode Hcount Haddress. start; unfold decodeSimdLanes_MovmskpdRegXmm; decode. Qed.
Hint Resolve decodeSimdLanes_MovmskpdRegXmm_ok : decoder.

Lemma decodeSimdLanes_ShufpdRegRegImm_ok :
  post (decodeSimdLanes_ShufpdRegRegImm code address 0 (newInstruction address)) (recognised code address).
Proof using Hcode Hcount Haddress. start; unfold decodeSimdLanes_ShufpdRegRegImm; decode. Qed.
Hint Resolve decodeSimdLanes_ShufpdRegRegImm_ok : decoder.

Lemma decodeSimdLanes_MovqMemXmm_ok :
  post (decodeSimdLanes_MovqMemXmm code address 0 (newInstruction address)) (recognised code address).
Proof using Hcode Hcount Haddress. start; unfold decodeSimdLanes_MovqMemXmm; decode. Qed.
Hint Resolve decodeSimdLanes_MovqMemXmm_ok : decoder.

Lemma decodeSimdLanes_ok :
  post (decodeSimdLanes code address 0 (newInstruction address)) (recognised code address).
Proof using Hcode Hcount Haddress. start; unfold decodeSimdLanes; decode. Qed.
Hint Resolve decodeSimdLanes_ok : decoder.

End SimdLanes.

(** ** [decodeSimdMemory] *)
Section SimdMemory.
Context (code : list Z) (address : Z) (Hcode : code_ok code) (Hcount : 0 < zlength code)
  (Haddress : in_range 64 address).
Hint Resolve Hcode Hcount : core.

Lemma decodeSimdMemory_MovsdRegMem_ok :
  post (decodeSimdMemory_MovsdRegMem code address 0 (newInstruction address)) (recognised code address).
Proof using Hcode Hcount Haddress. start; unfold decodeSimdMemory_MovsdRegMem, decodeSimdMemory_MovsdRegMem_2;
    decode. Qed.
Hint Resolve decodeSimdMemory_MovsdRegMem_ok : decoder.

Lemma decodeSimdMemory_MovlpsRegMem_ok :
  post (decodeSimdMemory_MovlpsRegMem code address 0 (newInstruction address)) (recognised code address).
Proof using Hcode Hcount Haddress. start; unfold decodeSimdMemory_MovlpsRegMem; decode. Qed.
Hint Resolve decodeSimdMemory_MovlpsRegMem_ok : decoder.

Lemma decodeSimdMemory_Cvttsd2siRegXmm_ok :
  post (decodeSimdMemory_Cvttsd2siRegXmm code address 0 (newInstruction address)) (recognised code address).
Proof using Hcode Hcount Haddress. start; unfold decodeSimdMemory_Cvttsd2siRegXmm,
    decodeSimdMemory_Cvttsd2siRegXmm_2; decode. Qed.
Hint Resolve decodeSimdMemory_Cvttsd2siRegXmm_ok : decoder.

Lemma decodeSimdMemory_Cvtsi2sdXmmReg_ok :
  post (decodeSimdMemory_Cvtsi2sdXmmReg code address 0 (newInstruction address)) (recognised code address).
Proof using Hcode Hcount Haddress. start; unfold decodeSimdMemory_Cvtsi2sdXmmReg, decodeSimdMemory_Cvtsi2sdXmmReg_2;
    decode. Qed.
Hint Resolve decodeSimdMemory_Cvtsi2sdXmmReg_ok : decoder.

Lemma decodeSimdMemory_Cvtss2sdXmmReg_ok :
  post (decodeSimdMemory_Cvtss2sdXmmReg code address 0 (newInstruction address)) (recognised code address).
Proof using Hcode Hcount Haddress. start; unfold decodeSimdMemory_Cvtss2sdXmmReg, decodeSimdMemory_Cvtss2sdXmmReg_2,
    decodeSimdMemory_Cvtss2sdXmmMem; decode. Qed.
Hint Resolve decodeSimdMemory_Cvtss2sdXmmReg_ok : decoder.

Lemma decodeSimdMemory_SqrtsdXmmReg_ok :
  post (decodeSimdMemory_SqrtsdXmmReg code address 0 (newInstruction address)) (recognised code address).
Proof using Hcode Hcount Haddress. start; unfold decodeSimdMemory_SqrtsdXmmReg, decodeSimdMemory_SqrtsdXmmReg_2;
    decode. Qed.
Hint Resolve decodeSimdMemory_SqrtsdXmmReg_ok : decoder.

Lemma decodeSimdMemory_MovddupRegReg_ok :
  post (decodeSimdMemory_MovddupRegReg code address 0 (newInstruction address)) (recognised code address).
Proof using Hcode Hcount Haddress. start; unfold decodeSimdMemory_MovddupRegReg; decode. Qed.
Hint Resolve decodeSimdMemory_MovddupRegReg_ok : decoder.

Lemma decodeSimdMemory_Cvtdq2pdXmmReg_ok :
  post (decodeSimdMemory_Cvtdq2pdXmmReg code address 0 (newInstruction address)) (recognised code address).
Proof using Hcode Hcount Haddress. start; unfold decodeSimdMemory_Cvtdq2pdXmmReg, decodeSimdMemory_Cvtdq2pdXmmMem;
    decode. Qed.
Hint Resolve decodeSimdMemory_Cvtdq2pdXmmReg_ok : decoder.

Lemma decodeSimdMemory_MovssXmmXmm_ok :
  post (decodeSimdMemory_MovssXmmXmm code address 0 (newInstruction address)) (recognised code address).
Proof using Hcode Hcount Haddress. start; unfold decodeSimdMemory_MovssXmmXmm; decode. Qed.
Hint Resolve decodeSimdMemory_MovssXmmXmm_ok : decoder.

Lemma decodeSimdMemory_MovqXmmMem_ok :
  post (decodeSimdMemory_MovqXmmMem code address 0 (newInstruction address)) (recognised code address).
Proof using Hcode Hcount Haddress. start; unfold decodeSimdMemory_MovqXmmMem; decode. Qed.
Hint Resolve decodeSimdMemory_MovqXmmMem_ok : decoder.

Lemma decodeSimdMemory_PmovmskbRegXmm_ok :
  post (decodeSimdMemory_PmovmskbRegXmm code address 0 (newInstruction address)) (recognised code address).
Proof using Hcode Hcount Haddress. start; unfold decodeSimdMemory_PmovmskbRegXmm; decode. Qed.
Hint Resolve decodeSimdMemory_PmovmskbRegXmm_ok : decoder.

Lemma decodeSimdMemory_MovapdMemReg_ok :
  post (decodeSimdMemory_MovapdMemReg code address 0 (newInstruction address)) (recognised code address).
Proof using Hcode Hcount Haddress. start; unfold decodeSimdMemory_MovapdMemReg; decode. Qed.
Hint Resolve decodeSimdMemory_MovapdMemReg_ok : decoder.

Lemma decodeSimdMemory_MovupsMemReg_ok :
  post (decodeSimdMemory_MovupsMemReg code address 0 (newInstruction address)) (recognised code address).
Proof using Hcode Hcount Haddress. start; unfold decodeSimdMemory_MovupsMemReg; decode. Qed.
Hint Resolve decodeSimdMemory_MovupsMemReg_ok : decoder.

Lemma decodeSimdMemory_MovapdRegReg_ok :
  post (decodeSimdMemory_MovapdRegReg code address 0 (newInstruction address)) (recognised code address).
Proof using Hcode Hcount Haddress. start; unfold decodeSimdMemory_MovapdRegReg; decode. Qed.
Hint Resolve decodeSimdMemory_MovapdRegReg_ok : decoder.

Lemma decodeSimdMemory_PextrdRegXmmImm_ok :
  post (decodeSimdMemory_PextrdRegXmmImm code address 0 (newInstruction address)) (recognised code address).
Proof using Hcode Hcount Haddress. start; unfold decodeSimdMemory_PextrdRegXmmImm; decode. Qed.
Hint Resolve decodeSimdMemory_PextrdRegXmmImm_ok : decoder.

Lemma decodeSimdMemory_PblendwRegRegImm_ok :
  post (decodeSimdMemory_PblendwRegRegImm code address 0 (newInstruction address)) (recognised code address).
Proof using Hcode Hcount Haddress. start; unfold decodeSimdMemory_PblendwRegRegImm; decode. Qed.
Hint Resolve decodeSimdMemory_PblendwRegRegImm_ok : decoder.

Lemma decodeSimdMemory_PinsrdXmmReg_ok :
  post (decodeSimdMemory_PinsrdXmmReg code address 0 (newInstruction address)) (recognised code address).
Proof using Hcode Hcount Haddress. start; unfold decodeSimdMemory_PinsrdXmmReg; decode. Qed.
Hint Resolve decodeSimdMemory_PinsrdXmmReg_ok : decoder.

Lemma decodeSimdMemory_PinsrdXmmReg_2_ok :
  post (decodeSimdMemory_PinsrdXmmReg_2 code address 0 (newInstruction address)) (recognised code address).
Proof using Hcode Hcount Haddress. start; unfold decodeSimdMemory_PinsrdXmmReg_2; decode. Qed.
Hint Resolve decodeSimdMemory_PinsrdXmmReg_2_ok : decoder.

Lemma decodeSimdMemory_PinsrbXmmMem_ok :
  post (decodeSimdMemory_PinsrbXmmMem code address 0 (newInstruction address)) (recognised code address).
Proof using Hcode Hcount Haddress. start; unfold decodeSimdMemory_PinsrbXmmMem, decodeSimdMemory_PinsrbXmmMem_2;
    decode. Qed.
Hint Resolve decodeSimdMemory_PinsrbXmmMem_ok : decoder.

Lemma decodeSimdMemory_PalignrRegRegImm_ok :
  post (decodeSimdMemory_PalignrRegRegImm code address 0 (newInstruction address)) (recognised code address).
Proof using Hcode Hcount Haddress. start; unfold decodeSimdMemory_PalignrRegRegImm; decode. Qed.
Hint Resolve decodeSimdMemory_PalignrRegRegImm_ok : decoder.

Lemma decodeSimdMemory_MovdqaMemReg_ok :
  post (decodeSimdMemory_MovdqaMemReg code address 0 (newInstruction address)) (recognised code address).
Proof using Hcode Hcount Haddress. start; unfold decodeSimdMemory_MovdqaMemReg; decode. Qed.
Hint Resolve decodeSimdMemory_MovdqaMemReg_ok : decoder.

Lemma decodeSimdMemory_MovdqaRegMem_ok :
  post (decodeSimdMemory_MovdqaRegMem code address 0 (newInstruction address)) (recognised code address).
Proof using Hcode Hcount Haddress. start; unfold decodeSimdMemory_MovdqaRegMem; decode. Qed.
Hint Resolve decodeSimdMemory_MovdqaRegMem_ok : decoder.

Lemma decodeSimdMemory_MovdqaRegReg_ok :
  post (decodeSimdMemory_MovdqaRegReg code address 0 (newInstruction address)) (recognised code address).
Proof using Hcode Hcount Haddress. start; unfold decodeSimdMemory_MovdqaRegReg; decode. Qed.
Hint Resolve decodeSimdMemory_MovdqaRegReg_ok : decoder.

Lemma decodeSimdMemory_ok :
  post (decodeSimdMemory code address 0 (newInstruction address)) (recognised code address).
Proof using Hcode Hcount Haddress. start; unfold decodeSimdMemory; decode. Qed.
Hint Resolve decodeSimdMemory_ok : decoder.

End SimdMemory.

(** ** [decodeScalarSpecial] *)
Section ScalarSpecial.
Context (code : list Z) (address : Z) (Hcode : code_ok code) (Hcount : 0 < zlength code)
  (Haddress : in_range 64 address).
Hint Resolve Hcode Hcount : core.

Lemma decodeScalarSpecial_Push_ok :
  post (decodeScalarSpecial_Push code address 0 (newInstruction address)) (recognised code address).
Proof using Hcode Hcount Haddress. start; unfold decodeScalarSpecial_Push; decode. Qed.
Hint Resolve decodeScalarSpecial_Push_ok : decoder.

Lemma decodeScalarSpecial_Push_2_ok :
  post (decodeScalarSpecial_Push_2 code address 0 (newInstruction address)) (recognised code address).
Proof using Hcode Hcount Haddress. start; unfold decodeScalarSpecial_Push_2; decode. Qed.
Hint Resolve decodeScalarSpecial_Push_2_ok : decoder.

Lemma decodeScalarSpecial_TestRegImm_ok :
  post (decodeScalarSpecial_TestRegImm code address 0 (newInstruction address)) (recognised code address).
Proof using Hcode Hcount Haddress. start; unfold decodeScalarSpecial_TestRegImm; decode. Qed.
Hint Resolve decodeScalarSpecial_TestRegImm_ok : decoder.

Lemma decodeScalarSpecial_TestRegImm_2_ok :
  post (decodeScalarSpecial_TestRegImm_2 code address 0 (newInstruction address)) (recognised code address).
Proof using Hcode Hcount Haddress. start; unfold decodeScalarSpecial_TestRegImm_2; decode. Qed.
Hint Resolve decodeScalarSpecial_TestRegImm_2_ok : decoder.

Lemma decodeScalarSpecial_RolRegImm_ok :
  post (decodeScalarSpecial_RolRegImm code address 0 (newInstruction address)) (recognised code address).
Proof using Hcode Hcount Haddress. start; unfold decodeScalarSpecial_RolRegImm; decode. Qed.
Hint Resolve decodeScalarSpecial_RolRegImm_ok : decoder.

Lemma decodeScalarSpecial_NotReg_ok :
  post (decodeScalarSpecial_NotReg code address 0 (newInstruction address)) (recognised code address).
Proof using Hcode Hcount Haddress. start; unfold decodeScalarSpecial_NotReg, decodeScalarSpecial_NotReg_2; decode.
    Qed.
Hint Resolve decodeScalarSpecial_NotReg_ok : decoder.

Lemma decodeScalarSpecial_AddRegImm_ok :
  post (decodeScalarSpecial_AddRegImm code address 0 (newInstruction address)) (recognised code address).
Proof using Hcode Hcount Haddress. start; unfold decodeScalarSpecial_AddRegImm; decode. Qed.
Hint Resolve decodeScalarSpecial_AddRegImm_ok : decoder.

Lemma decodeScalarSpecial_CmpRegImm_ok :
  post (decodeScalarSpecial_CmpRegImm code address 0 (newInstruction address)) (recognised code address).
Proof using Hcode Hcount Haddress. start; unfold decodeScalarSpecial_CmpRegImm; decode. Qed.
Hint Resolve decodeScalarSpecial_CmpRegImm_ok : decoder.

Lemma decodeScalarSpecial_CmpRegImm_2_ok :
  post (decodeScalarSpecial_CmpRegImm_2 code address 0 (newInstruction address)) (recognised code address).
Proof using Hcode Hcount Haddress. start; unfold decodeScalarSpecial_CmpRegImm_2; decode. Qed.
Hint Resolve decodeScalarSpecial_CmpRegImm_2_ok : decoder.

Lemma decodeScalarSpecial_MovRegImm_ok :
  post (decodeScalarSpecial_MovRegImm code address 0 (newInstruction address)) (recognised code address).
Proof using Hcode Hcount Haddress. start; unfold decodeScalarSpecial_MovRegImm; decode. Qed.
Hint Resolve decodeScalarSpecial_MovRegImm_ok : decoder.

Lemma decodeScalarSpecial_MovRegImm_2_ok :
  post (decodeScalarSpecial_MovRegImm_2 code address 0 (newInstruction address)) (recognised code address).
Proof using Hcode Hcount Haddress. start; unfold decodeScalarSpecial_MovRegImm_2; decode. Qed.
Hint Resolve decodeScalarSpecial_MovRegImm_2_ok : decoder.

Lemma decodeScalarSpecial_XorRegImm_ok :
  post (decodeScalarSpecial_XorRegImm code address 0 (newInstruction address)) (recognised code address).
Proof using Hcode Hcount Haddress. start; unfold decodeScalarSpecial_XorRegImm; decode. Qed.
Hint Resolve decodeScalarSpecial_XorRegImm_ok : decoder.

Lemma decodeScalarSpecial_OrRegImm_ok :
  post (decodeScalarSpecial_OrRegImm code address 0 (newInstruction address)) (recognised code address).
Proof using Hcode Hcount Haddress. start; unfold decodeScalarSpecial_OrRegImm; decode. Qed.
Hint Resolve decodeScalarSpecial_OrRegImm_ok : decoder.

Lemma decodeScalarSpecial_Push_3_ok :
  post (decodeScalarSpecial_Push_3 code 0 (newInstruction address)) (recognised code address).
Proof using Hcode Hcount Haddress. start; unfold decodeScalarSpecial_Push_3; decode. Qed.
Hint Resolve decodeScalarSpecial_Push_3_ok : decoder.

Lemma decodeScalarSpecial_Pop_ok :
  post (decodeScalarSpecial_Pop code 0 (newInstruction address)) (recognised code address).
Proof using Hcode Hcount Haddress. start; unfold decodeScalarSpecial_Pop; decode. Qed.
Hint Resolve decodeScalarSpecial_Pop_ok : decoder.

Lemma decodeScalarSpecial_Leave_ok :
  post (decodeScalarSpecial_Leave code address 0 (newInstruction address)) (recognised code address).
Proof using Hcode Hcount Haddress. start; unfold decodeScalarSpecial_Leave; decode. Qed.
Hint Resolve decodeScalarSpecial_Leave_ok : decoder.

(** The loop over the prefixes of a multi-byte NOP ends inside the code. *)
Lemma decodeScalarSpecial_skipPrefixes_ok fuel offset : 0 <= offset <= zlength code -> zlength code - offset <
    Z.of_nat fuel ->
  post (decodeScalarSpecial_skipPrefixes code fuel offset) (fun o => 0 <= o <= zlength code).
Proof using Hcode.
  revert offset. induction fuel as [|fuel IH]; intros offset Ho Hf; [lia|].
  start. cbn [decodeScalarSpecial_skipPrefixes]. apply post_test; [cbn; lia|].
  repeat step. small_sizes. apply IH; lia.
Qed.

Lemma decodeScalarSpecial_Nop_ok :
  post (decodeScalarSpecial_Nop code address 0 (newInstruction address)) (recognised code address).
Proof using Hcode Hcount Haddress.
  start; unfold decodeScalarSpecial_Nop. apply post_bind. eapply post_mono; [|apply
    decodeScalarSpecial_skipPrefixes_ok; [lia|unfold zlength in *; lia]].
  cbn beta. intros offset Hoffset. decode.
Qed.
Hint Resolve decodeScalarSpecial_Nop_ok : decoder.

Lemma decodeScalarSpecial_Cld_ok :
  post (decodeScalarSpecial_Cld code 0 (newInstruction address)) (recognised code address).
Proof using Hcode Hcount Haddress. start; unfold decodeScalarSpecial_Cld; decode. Qed.
Hint Resolve decodeScalarSpecial_Cld_ok : decoder.

Lemma decodeScalarSpecial_SetccReg_ok :
  post (decodeScalarSpecial_SetccReg code address 0 (newInstruction address)) (recognised code address).
Proof using Hcode Hcount Haddress. start; unfold decodeScalarSpecial_SetccReg; decode. Qed.
Hint Resolve decodeScalarSpecial_SetccReg_ok : decoder.

Lemma decodeScalarSpecial_MovsxRegReg_ok :
  post (decodeScalarSpecial_MovsxRegReg code address 0 (newInstruction address)) (recognised code address).
Proof using Hcode Hcount Haddress. start; unfold decodeScalarSpecial_MovsxRegReg; decode. Qed.
Hint Resolve decodeScalarSpecial_MovsxRegReg_ok : decoder.

Lemma decodeScalarSpecial_MovsxRegReg_2_ok :
  post (decodeScalarSpecial_MovsxRegReg_2 code address 0 (newInstruction address)) (recognised code address).
Proof using Hcode Hcount Haddress. start; unfold decodeScalarSpecial_MovsxRegReg_2; decode. Qed.
Hint Resolve decodeScalarSpecial_MovsxRegReg_2_ok : decoder.

Lemma decodeScalarSpecial_MovzxRegReg_ok :
  post (decodeScalarSpecial_MovzxRegReg code address 0 (newInstruction address)) (recognised code address).
Proof using Hcode Hcount Haddress. start; unfold decodeScalarSpecial_MovzxRegReg; decode. Qed.
Hint Resolve decodeScalarSpecial_MovzxRegReg_ok : decoder.

Lemma decodeScalarSpecial_MovzxRegReg_2_ok :
  post (decodeScalarSpecial_MovzxRegReg_2 code address 0 (newInstruction address)) (recognised code address).
Proof using Hcode Hcount Haddress. start; unfold decodeScalarSpecial_MovzxRegReg_2; decode. Qed.
Hint Resolve decodeScalarSpecial_MovzxRegReg_2_ok : decoder.

Lemma decodeScalarSpecial_BitScanForwardRegReg_ok :
  post (decodeScalarSpecial_BitScanForwardRegReg code address 0 (newInstruction address)) (recognised code address).
Proof using Hcode Hcount Haddress. start; unfold decodeScalarSpecial_BitScanForwardRegReg; decode. Qed.
Hint Resolve decodeScalarSpecial_BitScanForwardRegReg_ok : decoder.

Lemma decodeScalarSpecial_BswapReg_ok :
  post (decodeScalarSpecial_BswapReg code 0 (newInstruction address)) (recognised code address).
Proof using Hcode Hcount Haddress. start; unfold decodeScalarSpecial_BswapReg; decode. Qed.
Hint Resolve decodeScalarSpecial_BswapReg_ok : decoder.

Lemma decodeScalarSpecial_BswapReg_2_ok :
  post (decodeScalarSpecial_BswapReg_2 code 0 (newInstruction address)) (recognised code address).
Proof using Hcode Hcount Haddress. start; unfold decodeScalarSpecial_BswapReg_2; decode. Qed.
Hint Resolve decodeScalarSpecial_BswapReg_2_ok : decoder.

Lemma decodeScalarSpecial_MovlhpsRegReg_ok :
  post (decodeScalarSpecial_MovlhpsRegReg code address 0 (newInstruction address)) (recognised code address).
Proof using Hcode Hcount Haddress. start; unfold decodeScalarSpecial_MovlhpsRegReg,
    decodeScalarSpecial_MovlhpsRegReg_2; decode. Qed.
Hint Resolve decodeScalarSpecial_MovlhpsRegReg_ok : decoder.

Lemma decodeScalarSpecial_XorpsRegReg_ok :
  post (decodeScalarSpecial_XorpsRegReg code address 0 (newInstruction address)) (recognised code address).
Proof using Hcode Hcount Haddress. start; unfold decodeScalarSpecial_XorpsRegReg; decode. Qed.
Hint Resolve decodeScalarSpecial_XorpsRegReg_ok : decoder.

Lemma decodeScalarSpecial_ok :
  post (decodeScalarSpecial code address 0 (newInstruction address)) (recognised code address).
Proof using Hcode Hcount Haddress. start; unfold decodeScalarSpecial; decode. Qed.
Hint Resolve decodeScalarSpecial_ok : decoder.

End ScalarSpecial.
