(* ===== verification/DecodeGeneralSpec.v ===== *)
(** The family [decodeGeneral] keeps the promise of [DecodeSpec]: what it recognises is a
    well-formed instruction made of the code bytes, it never reads outside them, and when
    it recognises nothing it leaves the cursor and the instruction as they were. *)
From S2P Require Import Prelude X86State ExecutionContext IR X86Instruction DecodeBase DecodeGeneral DecodeSpec.
Section Spec.
Context (code : list Z) (address : Z) (Hcode : code_ok code) (Hcount : 0 < zlength code)
  (Haddress : in_range 64 address).
Hint Resolve Hcode Hcount : core.

Lemma decodeGeneral_requireRex_ok cursor hasRex : 0 <= cursor <= 2 -> cursor < zlength code ->
  post (decodeGeneral_requireRex code address cursor hasRex (newInstruction address))
    (fun r => r = inr (cursor, newInstruction address)).
Proof using Hcode Haddress. start; intros; unfold decodeGeneral_requireRex; decode. Qed.
Hint Resolve decodeGeneral_requireRex_ok : decoder.

Lemma decodeGeneral_requireRexW_ok cursor rexW opcode : 1 <= cursor <= 4 -> in_range 8 opcode -> cursor <= zlength
    code ->
  post (decodeGeneral_requireRexW code address cursor rexW opcode (newInstruction address))
    (fun r => r = inr (cursor, newInstruction address)).
Proof using Hcode Haddress. start; intros; unfold decodeGeneral_requireRexW; decode. Qed.
Hint Resolve decodeGeneral_requireRexW_ok : decoder.

Lemma decodeGeneral_ImulRegRegImm_ok cursor rexW rexB rexX rexR : 1 <= cursor <= 4 -> cursor <= zlength code ->
  post (decodeGeneral_ImulRegRegImm code address cursor rexW rexB rexX rexR (newInstruction address))
    (constructed code address).
Proof using Hcode Haddress. start; intros; unfold decodeGeneral_ImulRegRegImm; decode. Qed.
Hint Resolve decodeGeneral_ImulRegRegImm_ok : decoder.

Lemma decodeGeneral_BitTestMemImm_2_ok cursor rexW rexB rexX mode rmEncoding : 3 <= cursor <= 6 -> cursor <= zlength
    code -> 0 <= mode <= 3 -> 0 <= rmEncoding <= 7 ->
  post (decodeGeneral_BitTestMemImm_2 code address cursor rexW rexB rexX mode rmEncoding (newInstruction address))
    (constructed code address).
Proof using Hcode Haddress. start; intros; unfold decodeGeneral_BitTestMemImm_2; decode. Qed.
Hint Resolve decodeGeneral_BitTestMemImm_2_ok : decoder.

Lemma decodeGeneral_BitTestMemImm_ok cursor rexW rexB rexX rexR mode rmEncoding isBtMemory rawReg encodedRm : 3 <=
    cursor <= 6 -> 0 <= mode <= 3 -> 0 <= rmEncoding <= 7 -> 0 <= rawReg <= 7 -> cursor < zlength code ->
  post (decodeGeneral_BitTestMemImm code address cursor rexW rexB rexX rexR mode rmEncoding isBtMemory rawReg
    encodedRm (newInstruction address))
    (constructed code address).
Proof using Hcode Haddress. start; intros; unfold decodeGeneral_BitTestMemImm; decode. Qed.
Hint Resolve decodeGeneral_BitTestMemImm_ok : decoder.

Lemma decodeGeneral_MovsxRegMem_ok cursor rexW rexB rexX mode rmEncoding isMovsxMemory encodedReg encodedRm : 3 <=
    cursor <= 6 -> cursor <= zlength code -> 0 <= mode <= 3 -> 0 <= rmEncoding <= 7 ->
  post (decodeGeneral_MovsxRegMem code address cursor rexW rexB rexX mode rmEncoding isMovsxMemory encodedReg
    encodedRm (newInstruction address))
    (constructed code address).
Proof using Hcode Haddress. start; intros; unfold decodeGeneral_MovsxRegMem; decode. Qed.
Hint Resolve decodeGeneral_MovsxRegMem_ok : decoder.

Lemma decodeGeneral_CmovccRegMem_ok cursor rexW rexB secondOpcode mode rmEncoding isCmovMemory encodedReg encodedRm :
    3 <= cursor <= 6 -> cursor <= zlength code -> 0 <= secondOpcode <= 255 -> 0 <= mode <= 3 -> 0 <= rmEncoding <= 7
    ->
  post (decodeGeneral_CmovccRegMem code address cursor rexW rexB secondOpcode mode rmEncoding isCmovMemory encodedReg
    encodedRm (newInstruction address))
    (constructed code address).
Proof using Hcode Haddress. start; intros; unfold decodeGeneral_CmovccRegMem; decode. Qed.
Hint Resolve decodeGeneral_CmovccRegMem_ok : decoder.

Lemma decodeGeneral_BitTestRegReg_ok cursor rexW rexB rexX rexR : 1 <= cursor <= 4 -> cursor <= zlength code ->
  post (decodeGeneral_BitTestRegReg code address cursor rexW rexB rexX rexR (newInstruction address))
    (constructed code address).
Proof using Hcode Haddress.
  start; intros; unfold decodeGeneral_BitTestRegReg. do 3 decode_step. cbv zeta.
  lazymatch goal with |- post (if ?b then _ else _) _ => destruct b eqn:E; [exact I|] end.
  repeat (apply andb_false_iff in E; destruct E as [E|E]); apply negb_false_iff, Z.eqb_eq in E; decode.
Qed.
Hint Resolve decodeGeneral_BitTestRegReg_ok : decoder.

Lemma decodeGeneral_AddRegReg_ok cursor hasRex rexB rexX rexR : 1 <= cursor <= 4 -> cursor <= zlength code ->
  post (decodeGeneral_AddRegReg code address cursor hasRex rexB rexX rexR (newInstruction address))
    (constructed code address).
Proof using Hcode Haddress. start; intros; unfold decodeGeneral_AddRegReg; decode. Qed.
Hint Resolve decodeGeneral_AddRegReg_ok : decoder.

Lemma decodeGeneral_AddRegMem_ok cursor hasRex rexB rexX rexR : 1 <= cursor <= 4 -> cursor <= zlength code ->
  post (decodeGeneral_AddRegMem code address cursor hasRex rexB rexX rexR (newInstruction address))
    (constructed code address).
Proof using Hcode Haddress. start; intros; unfold decodeGeneral_AddRegMem; decode. Qed.
Hint Resolve decodeGeneral_AddRegMem_ok : decoder.

Lemma decodeGeneral_AdcRegMem_ok cursor rexB rexX mode rmEncoding destination width : 2 <= cursor <= 5 -> cursor <=
    zlength code -> 0 <= mode <= 3 -> 0 <= rmEncoding <= 7 -> width ∈ [32; 64] ->
  post (decodeGeneral_AdcRegMem code address cursor rexB rexX mode rmEncoding destination width (newInstruction
    address))
    (constructed code address).
Proof using Hcode Haddress. start; intros; unfold decodeGeneral_AdcRegMem; decode. Qed.
Hint Resolve decodeGeneral_AdcRegMem_ok : decoder.

Lemma decodeGeneral_AdcRegReg_ok cursor rexW rexB rexX rexR : 1 <= cursor <= 4 -> cursor <= zlength code ->
  post (decodeGeneral_AdcRegReg code address cursor rexW rexB rexX rexR (newInstruction address))
    (constructed code address).
Proof using Hcode Haddress. start; intros; unfold decodeGeneral_AdcRegReg; decode. Qed.
Hint Resolve decodeGeneral_AdcRegReg_ok : decoder.

Lemma decodeGeneral_AddMemReg_ok cursor hasOperandSizeOverride rexW rexB rexX mode rmEncoding source : 2 <= cursor <=
    5 -> cursor <= zlength code -> 0 <= mode <= 3 -> 0 <= rmEncoding <= 7 ->
  post (decodeGeneral_AddMemReg code address cursor hasOperandSizeOverride rexW rexB rexX mode rmEncoding source
    (newInstruction address))
    (constructed code address).
Proof using Hcode Haddress. start; intros; unfold decodeGeneral_AddMemReg; decode. Qed.
Hint Resolve decodeGeneral_AddMemReg_ok : decoder.

Lemma decodeGeneral_AddRegReg_2_ok cursor hasOperandSizeOverride rexW rexB rexX rexR : 1 <= cursor <= 4 -> cursor <=
    zlength code ->
  post (decodeGeneral_AddRegReg_2 code address cursor hasOperandSizeOverride rexW rexB rexX rexR (newInstruction
    address))
    (constructed code address).
Proof using Hcode Haddress. start; intros; unfold decodeGeneral_AddRegReg_2; decode. Qed.
Hint Resolve decodeGeneral_AddRegReg_2_ok : decoder.

Lemma decodeGeneral_AddRegMem_2_ok cursor hasOperandSizeOverride rexW rexB rexX rexR : 1 <= cursor <= 4 -> cursor <=
    zlength code ->
  post (decodeGeneral_AddRegMem_2 code address cursor hasOperandSizeOverride rexW rexB rexX rexR (newInstruction
    address))
    (constructed code address).
Proof using Hcode Haddress. start; intros; unfold decodeGeneral_AddRegMem_2; decode. Qed.
Hint Resolve decodeGeneral_AddRegMem_2_ok : decoder.

Lemma decodeGeneral_OrRegReg_ok cursor hasRex rexB rexX rexR : 1 <= cursor <= 4 -> cursor <= zlength code ->
  post (decodeGeneral_OrRegReg code address cursor hasRex rexB rexX rexR (newInstruction address))
    (constructed code address).
Proof using Hcode Haddress. start; intros; unfold decodeGeneral_OrRegReg; decode. Qed.
Hint Resolve decodeGeneral_OrRegReg_ok : decoder.

Lemma decodeGeneral_OrRegReg_2_ok cursor hasOperandSizeOverride rexW rexB rexX rexR : 1 <= cursor <= 4 -> cursor <=
    zlength code ->
  post (decodeGeneral_OrRegReg_2 code address cursor hasOperandSizeOverride rexW rexB rexX rexR (newInstruction
    address))
    (constructed code address).
Proof using Hcode Haddress. start; intros; unfold decodeGeneral_OrRegReg_2; decode. Qed.
Hint Resolve decodeGeneral_OrRegReg_2_ok : decoder.

Lemma decodeGeneral_OrRegMem_ok cursor hasRex rexB rexX rexR : 1 <= cursor <= 4 -> cursor <= zlength code ->
  post (decodeGeneral_OrRegMem code address cursor hasRex rexB rexX rexR (newInstruction address))
    (constructed code address).
Proof using Hcode Haddress. start; intros; unfold decodeGeneral_OrRegMem; decode. Qed.
Hint Resolve decodeGeneral_OrRegMem_ok : decoder.

Lemma decodeGeneral_OrRegReg_3_ok cursor hasOperandSizeOverride rexW rexB rexX rexR : 1 <= cursor <= 4 -> cursor <=
    zlength code ->
  post (decodeGeneral_OrRegReg_3 code address cursor hasOperandSizeOverride rexW rexB rexX rexR (newInstruction
    address))
    (constructed code address).
Proof using Hcode Haddress. start; intros; unfold decodeGeneral_OrRegReg_3; decode. Qed.
Hint Resolve decodeGeneral_OrRegReg_3_ok : decoder.

Lemma decodeGeneral_SubRegMem_ok cursor rexW rexB rexX rexR : 1 <= cursor <= 4 -> cursor <= zlength code ->
  post (decodeGeneral_SubRegMem code address cursor rexW rexB rexX rexR (newInstruction address))
    (constructed code address).
Proof using Hcode Haddress. start; intros; unfold decodeGeneral_SubRegMem; decode. Qed.
Hint Resolve decodeGeneral_SubRegMem_ok : decoder.

Lemma decodeGeneral_AndRegReg_ok cursor hasOperandSizeOverride rexW rexB rexX rexR : 1 <= cursor <= 4 -> cursor <=
    zlength code ->
  post (decodeGeneral_AndRegReg code address cursor hasOperandSizeOverride rexW rexB rexX rexR (newInstruction
    address))
    (constructed code address).
Proof using Hcode Haddress. start; intros; unfold decodeGeneral_AndRegReg; decode. Qed.
Hint Resolve decodeGeneral_AndRegReg_ok : decoder.

Lemma decodeGeneral_SubMemReg_ok cursor hasRex rexB rexX rexR mode sourceEncoding destinationEncoding : 2 <= cursor
    <= 5 -> cursor <= zlength code -> 0 <= mode <= 3 -> 0 <= sourceEncoding <= 7 -> 0 <= destinationEncoding <= 7 ->
  post (decodeGeneral_SubMemReg code address cursor hasRex rexB rexX rexR mode sourceEncoding destinationEncoding
    (newInstruction address))
    (constructed code address).
Proof using Hcode Haddress. start; intros; unfold decodeGeneral_SubMemReg; decode. Qed.
Hint Resolve decodeGeneral_SubMemReg_ok : decoder.

Lemma decodeGeneral_SubRegReg_ok cursor hasRex rexB rexX rexR : 1 <= cursor <= 4 -> cursor <= zlength code ->
  post (decodeGeneral_SubRegReg code address cursor hasRex rexB rexX rexR (newInstruction address))
    (constructed code address).
Proof using Hcode Haddress. start; intros; unfold decodeGeneral_SubRegReg; decode. Qed.
Hint Resolve decodeGeneral_SubRegReg_ok : decoder.

Lemma decodeGeneral_SubRegReg_2_ok cursor rexW rexB rexX rexR : 1 <= cursor <= 4 -> cursor <= zlength code ->
  post (decodeGeneral_SubRegReg_2 code address cursor rexW rexB rexX rexR (newInstruction address))
    (constructed code address).
Proof using Hcode Haddress. start; intros; unfold decodeGeneral_SubRegReg_2; decode. Qed.
Hint Resolve decodeGeneral_SubRegReg_2_ok : decoder.

Lemma decodeGeneral_XorRegMem_ok cursor hasRex rexB rexX rexR : 1 <= cursor <= 4 -> cursor <= zlength code ->
  post (decodeGeneral_XorRegMem code address cursor hasRex rexB rexX rexR (newInstruction address))
    (constructed code address).
Proof using Hcode Haddress. start; intros; unfold decodeGeneral_XorRegMem; decode. Qed.
Hint Resolve decodeGeneral_XorRegMem_ok : decoder.

Lemma decodeGeneral_MovsxdRegMem_ok cursor rexB rexX rexR modrm mode rmEncoding ripRelative : 2 <= cursor <= 5 ->
    cursor <= zlength code -> in_range 8 modrm -> 0 <= mode <= 3 -> 0 <= rmEncoding <= 7 ->
  post (decodeGeneral_MovsxdRegMem code address cursor rexB rexX rexR modrm mode rmEncoding ripRelative
    (newInstruction address))
    (constructed code address).
Proof using Hcode Haddress. start; intros; unfold decodeGeneral_MovsxdRegMem; decode. Qed.
Hint Resolve decodeGeneral_MovsxdRegMem_ok : decoder.

Lemma decodeGeneral_MovsxdRegReg_ok cursor rexW rexB rexX rexR : 1 <= cursor <= 4 -> cursor <= zlength code ->
  post (decodeGeneral_MovsxdRegReg code address cursor rexW rexB rexX rexR (newInstruction address))
    (constructed code address).
Proof using Hcode Haddress. start; intros; unfold decodeGeneral_MovsxdRegReg; decode. Qed.
Hint Resolve decodeGeneral_MovsxdRegReg_ok : decoder.

Lemma decodeGeneral_XorRegReg_ok cursor hasOperandSizeOverride rexW rexB rexX rexR : 1 <= cursor <= 4 -> cursor <=
    zlength code ->
  post (decodeGeneral_XorRegReg code address cursor hasOperandSizeOverride rexW rexB rexX rexR (newInstruction
    address))
    (constructed code address).
Proof using Hcode Haddress. start; intros; unfold decodeGeneral_XorRegReg; decode. Qed.
Hint Resolve decodeGeneral_XorRegReg_ok : decoder.

Lemma decodeGeneral_CmpRegReg_ok cursor hasRex rexW rexB rexX rexR : 1 <= cursor <= 4 -> cursor <= zlength code ->
  post (decodeGeneral_CmpRegReg code address cursor hasRex rexW rexB rexX rexR (newInstruction address))
    (constructed code address).
Proof using Hcode Haddress. start; intros; unfold decodeGeneral_CmpRegReg; decode. Qed.
Hint Resolve decodeGeneral_CmpRegReg_ok : decoder.

Lemma decodeGeneral_CmpMemReg_ok cursor hasGsOverride rexB rexX mode rmEncoding rhs width : 2 <= cursor <= 5 ->
    cursor <= zlength code -> 0 <= mode <= 3 -> 0 <= rmEncoding <= 7 -> width ∈ [16; 32; 64] ->
  post (decodeGeneral_CmpMemReg code address cursor hasGsOverride rexB rexX mode rmEncoding rhs width (newInstruction
    address))
    (constructed code address).
Proof using Hcode Haddress. start; intros; unfold decodeGeneral_CmpMemReg; decode. Qed.
Hint Resolve decodeGeneral_CmpMemReg_ok : decoder.

Lemma decodeGeneral_CmpRegReg_2_ok cursor hasOperandSizeOverride hasGsOverride rexW rexB rexX rexR : 1 <= cursor <= 4
    -> cursor <= zlength code ->
  post (decodeGeneral_CmpRegReg_2 code address cursor hasOperandSizeOverride hasGsOverride rexW rexB rexX rexR
    (newInstruction address))
    (constructed code address).
Proof using Hcode Haddress. start; intros; unfold decodeGeneral_CmpRegReg_2; decode. Qed.
Hint Resolve decodeGeneral_CmpRegReg_2_ok : decoder.

Lemma decodeGeneral_CmpRegMem_ok cursor hasRex rexB rexX rexR : 1 <= cursor <= 4 -> cursor <= zlength code ->
  post (decodeGeneral_CmpRegMem code address cursor hasRex rexB rexX rexR (newInstruction address))
    (constructed code address).
Proof using Hcode Haddress. start; intros; unfold decodeGeneral_CmpRegMem; decode. Qed.
Hint Resolve decodeGeneral_CmpRegMem_ok : decoder.

Lemma decodeGeneral_CmpRegMem_2_ok cursor hasOperandSizeOverride hasGsOverride rexW rexB rexX rexR : 1 <= cursor <= 4
    -> cursor <= zlength code ->
  post (decodeGeneral_CmpRegMem_2 code address cursor hasOperandSizeOverride hasGsOverride rexW rexB rexX rexR
    (newInstruction address))
    (constructed code address).
Proof using Hcode Haddress. start; intros; unfold decodeGeneral_CmpRegMem_2; decode. Qed.
Hint Resolve decodeGeneral_CmpRegMem_2_ok : decoder.

Lemma decodeGeneral_XchgMemReg_ok cursor hasRex rexB rexX rexR : 1 <= cursor <= 4 -> cursor <= zlength code ->
  post (decodeGeneral_XchgMemReg code address cursor hasRex rexB rexX rexR (newInstruction address))
    (constructed code address).
Proof using Hcode Haddress. start; intros; unfold decodeGeneral_XchgMemReg; decode. Qed.
Hint Resolve decodeGeneral_XchgMemReg_ok : decoder.

Lemma decodeGeneral_XchgMemReg_2_ok cursor rexW rexB rexX rexR : 1 <= cursor <= 4 -> cursor <= zlength code ->
  post (decodeGeneral_XchgMemReg_2 code address cursor rexW rexB rexX rexR (newInstruction address))
    (constructed code address).
Proof using Hcode Haddress. start; intros; unfold decodeGeneral_XchgMemReg_2; decode. Qed.
Hint Resolve decodeGeneral_XchgMemReg_2_ok : decoder.

Lemma decodeGeneral_MovMemReg_ok cursor hasRex rexB rexX rexR mode regEncoding rmEncoding ripRelative : 2 <= cursor
    <= 5 -> cursor <= zlength code -> 0 <= mode <= 3 -> 0 <= regEncoding <= 7 -> 0 <= rmEncoding <= 7 ->
  post (decodeGeneral_MovMemReg code address cursor hasRex rexB rexX rexR mode regEncoding rmEncoding ripRelative
    (newInstruction address))
    (constructed code address).
Proof using Hcode Haddress. start; intros; unfold decodeGeneral_MovMemReg; decode. Qed.
Hint Resolve decodeGeneral_MovMemReg_ok : decoder.

Lemma decodeGeneral_MovRegReg_ok cursor hasRex rexW rexB rexX rexR : 1 <= cursor <= 4 -> cursor <= zlength code ->
  post (decodeGeneral_MovRegReg code address cursor hasRex rexW rexB rexX rexR (newInstruction address))
    (constructed code address).
Proof using Hcode Haddress. start; intros; unfold decodeGeneral_MovRegReg; decode. Qed.
Hint Resolve decodeGeneral_MovRegReg_ok : decoder.

Lemma decodeGeneral_MovRegMem_ok cursor hasRex rexW rexB rexX rexR : 1 <= cursor <= 4 -> cursor <= zlength code ->
  post (decodeGeneral_MovRegMem code address cursor hasRex rexW rexB rexX rexR (newInstruction address))
    (constructed code address).
Proof using Hcode Haddress. start; intros; unfold decodeGeneral_MovRegMem; decode. Qed.
Hint Resolve decodeGeneral_MovRegMem_ok : decoder.

Lemma decodeGeneral_MovMemReg_3_ok cursor hasGsOverride rexB rexX opcode mode reg rm operandWidth rmEncoding : 2 <=
    cursor <= 5 -> cursor <= zlength code -> in_range 8 opcode -> 0 <= mode <= 3 -> operandWidth ∈ [16; 32; 64] -> 0
    <= rmEncoding <= 7 ->
  post (decodeGeneral_MovMemReg_3 code address cursor hasGsOverride rexB rexX opcode mode reg rm operandWidth
    rmEncoding (newInstruction address))
    (constructed code address).
Proof using Hcode Haddress. start; intros; unfold decodeGeneral_MovMemReg_3; decode. Qed.
Hint Resolve decodeGeneral_MovMemReg_3_ok : decoder.

Lemma decodeGeneral_MovMemReg_2_ok cursor hasOperandSizeOverride hasGsOverride rexW rexB rexX rexR opcode : 1 <=
    cursor <= 4 -> cursor <= zlength code -> in_range 8 opcode ->
  post (decodeGeneral_MovMemReg_2 code address cursor hasOperandSizeOverride hasGsOverride rexW rexB rexX rexR opcode
    (newInstruction address))
    (constructed code address).
Proof using Hcode Haddress. start; intros; unfold decodeGeneral_MovMemReg_2; decode. Qed.
Hint Resolve decodeGeneral_MovMemReg_2_ok : decoder.

Lemma decodeGeneral_AndRegMem_ok cursor hasRex rexB rexX rexR : 1 <= cursor <= 4 -> cursor <= zlength code ->
  post (decodeGeneral_AndRegMem code address cursor hasRex rexB rexX rexR (newInstruction address))
    (constructed code address).
Proof using Hcode Haddress. start; intros; unfold decodeGeneral_AndRegMem; decode. Qed.
Hint Resolve decodeGeneral_AndRegMem_ok : decoder.

Lemma decodeGeneral_AndRegMem_2_ok cursor rexW rexB rexX rexR : 1 <= cursor <= 4 -> cursor <= zlength code ->
  post (decodeGeneral_AndRegMem_2 code address cursor rexW rexB rexX rexR (newInstruction address))
    (constructed code address).
Proof using Hcode Haddress. start; intros; unfold decodeGeneral_AndRegMem_2; decode. Qed.
Hint Resolve decodeGeneral_AndRegMem_2_ok : decoder.

Lemma decodeGeneral_TestReg8Reg8_ok cursor hasRex rexB rexX rexR : 1 <= cursor <= 4 -> cursor <= zlength code ->
  post (decodeGeneral_TestReg8Reg8 code address cursor hasRex rexB rexX rexR (newInstruction address))
    (constructed code address).
Proof using Hcode Haddress. start; intros; unfold decodeGeneral_TestReg8Reg8; decode. Qed.
Hint Resolve decodeGeneral_TestReg8Reg8_ok : decoder.

Lemma decodeGeneral_TestRegReg_ok cursor rexW rexB rexX rexR : 1 <= cursor <= 4 -> cursor <= zlength code ->
  post (decodeGeneral_TestRegReg code address cursor rexW rexB rexX rexR (newInstruction address))
    (constructed code address).
Proof using Hcode Haddress. start; intros; unfold decodeGeneral_TestRegReg; decode. Qed.
Hint Resolve decodeGeneral_TestRegReg_ok : decoder.

Lemma decodeGeneral_LeaRegRipRelative_ok cursor rexW rexB rexX rexR : 1 <= cursor <= 4 -> cursor <= zlength code ->
  post (decodeGeneral_LeaRegRipRelative code address cursor rexW rexB rexX rexR (newInstruction address))
    (constructed code address).
Proof using Hcode Haddress. start; intros; unfold decodeGeneral_LeaRegRipRelative; decode. Qed.
Hint Resolve decodeGeneral_LeaRegRipRelative_ok : decoder.

Lemma decodeGeneral_ShrMemImm_ok cursor rexW rexB rexX rexR : 1 <= cursor <= 4 -> cursor <= zlength code ->
  post (decodeGeneral_ShrMemImm code address cursor rexW rexB rexX rexR (newInstruction address))
    (constructed code address).
Proof using Hcode Haddress. start; intros; unfold decodeGeneral_ShrMemImm; decode. Qed.
Hint Resolve decodeGeneral_ShrMemImm_ok : decoder.

Lemma decodeGeneral_IdivReg_ok cursor hasOperandSizeOverride rexW rexB rexX rexR : 1 <= cursor <= 4 -> cursor <=
    zlength code ->
  post (decodeGeneral_IdivReg code address cursor hasOperandSizeOverride rexW rexB rexX rexR (newInstruction address))
    (constructed code address).
Proof using Hcode Haddress. start; intros; unfold decodeGeneral_IdivReg; decode. Qed.
Hint Resolve decodeGeneral_IdivReg_ok : decoder.

Lemma decodeGeneral_MovMemImm_ok cursor rexB rexX rexR : 1 <= cursor <= 4 -> cursor <= zlength code ->
  post (decodeGeneral_MovMemImm code address cursor rexB rexX rexR (newInstruction address))
    (constructed code address).
Proof using Hcode Haddress. start; intros; unfold decodeGeneral_MovMemImm; decode. Qed.
Hint Resolve decodeGeneral_MovMemImm_ok : decoder.

Lemma decodeGeneral_MovRegImm_ok cursor hasGsOverride rexW rexB rexX rexR : 1 <= cursor <= 4 -> cursor <= zlength
    code ->
  post (decodeGeneral_MovRegImm code address cursor hasGsOverride rexW rexB rexX rexR (newInstruction address))
    (constructed code address).
Proof using Hcode Haddress. start; intros; unfold decodeGeneral_MovRegImm; decode. Qed.
Hint Resolve decodeGeneral_MovRegImm_ok : decoder.

Lemma decodeGeneral_OrMemImm_ok cursor rexB rexX mode rmEncoding : 2 <= cursor <= 5 -> cursor <= zlength code -> 0 <=
    mode <= 3 -> 0 <= rmEncoding <= 7 ->
  post (decodeGeneral_OrMemImm code address cursor rexB rexX mode rmEncoding (newInstruction address))
    (constructed code address).
Proof using Hcode Haddress. start; intros; unfold decodeGeneral_OrMemImm; decode. Qed.
Hint Resolve decodeGeneral_OrMemImm_ok : decoder.

Lemma decodeGeneral_AndMemImm_ok cursor rexB rexX mode rmEncoding : 2 <= cursor <= 5 -> cursor <= zlength code -> 0
    <= mode <= 3 -> 0 <= rmEncoding <= 7 ->
  post (decodeGeneral_AndMemImm code address cursor rexB rexX mode rmEncoding (newInstruction address))
    (constructed code address).
Proof using Hcode Haddress. start; intros; unfold decodeGeneral_AndMemImm; decode. Qed.
Hint Resolve decodeGeneral_AndMemImm_ok : decoder.

Lemma decodeGeneral_AddRegImm_ok cursor hasRex rexW rexB rexX rexR : 1 <= cursor <= 4 -> cursor <= zlength code ->
  post (decodeGeneral_AddRegImm code address cursor hasRex rexW rexB rexX rexR (newInstruction address))
    (constructed code address).
Proof using Hcode Haddress. start; intros; unfold decodeGeneral_AddRegImm; decode. Qed.
Hint Resolve decodeGeneral_AddRegImm_ok : decoder.

Lemma decodeGeneral_CmpMemImm_ok cursor rexW rexB rexX modrm mode : 2 <= cursor <= 5 -> cursor <= zlength code ->
    in_range 8 modrm -> 0 <= mode <= 3 ->
  post (decodeGeneral_CmpMemImm code address cursor rexW rexB rexX modrm mode (newInstruction address))
    (constructed code address).
Proof using Hcode Haddress. start; intros; unfold decodeGeneral_CmpMemImm; decode. Qed.
Hint Resolve decodeGeneral_CmpMemImm_ok : decoder.

Lemma decodeGeneral_AndMemImm_2_ok cursor rexW rexB rexX modrm mode : 2 <= cursor <= 5 -> cursor <= zlength code ->
    in_range 8 modrm -> 0 <= mode <= 3 ->
  post (decodeGeneral_AndMemImm_2 code address cursor rexW rexB rexX modrm mode (newInstruction address))
    (constructed code address).
Proof using Hcode Haddress. start; intros; unfold decodeGeneral_AndMemImm_2; decode. Qed.
Hint Resolve decodeGeneral_AndMemImm_2_ok : decoder.

Lemma decodeGeneral_AddRegImm_2_ok cursor rexW rexB rexX rexR : 1 <= cursor <= 4 -> cursor <= zlength code ->
  post (decodeGeneral_AddRegImm_2 code address cursor rexW rexB rexX rexR (newInstruction address))
    (constructed code address).
Proof using Hcode Haddress. start; intros; unfold decodeGeneral_AddRegImm_2; decode. Qed.
Hint Resolve decodeGeneral_AddRegImm_2_ok : decoder.

Lemma decodeGeneral_IncReg_ok cursor hasRex rexB rexX rexR : 1 <= cursor <= 4 -> cursor <= zlength code ->
  post (decodeGeneral_IncReg code address cursor hasRex rexB rexX rexR (newInstruction address))
    (constructed code address).
Proof using Hcode Haddress. start; intros; unfold decodeGeneral_IncReg; decode. Qed.
Hint Resolve decodeGeneral_IncReg_ok : decoder.

Lemma decodeGeneral_IncMem_2_ok cursor hasOperandSizeOverride rexW rexB rexX mode rmEncoding : 2 <= cursor <= 5 ->
    cursor <= zlength code -> 0 <= mode <= 3 -> 0 <= rmEncoding <= 7 ->
  post (decodeGeneral_IncMem_2 code address cursor hasOperandSizeOverride rexW rexB rexX mode rmEncoding
    (newInstruction address))
    (constructed code address).
Proof using Hcode Haddress. start; intros; unfold decodeGeneral_IncMem_2; decode. Qed.
Hint Resolve decodeGeneral_IncMem_2_ok : decoder.

Lemma decodeGeneral_IncMem_ok cursor hasOperandSizeOverride rexW rexB rexX rexR : 1 <= cursor <= 4 -> cursor <=
    zlength code ->
  post (decodeGeneral_IncMem code address cursor hasOperandSizeOverride rexW rexB rexX rexR (newInstruction address))
    (constructed code address).
Proof using Hcode Haddress. start; intros; unfold decodeGeneral_IncMem; decode. Qed.
Hint Resolve decodeGeneral_IncMem_ok : decoder.

Lemma decodeGeneral_AndMemImm_3_ok cursor rexB rexX mode rmEncoding : 2 <= cursor <= 5 -> cursor <= zlength code -> 0
    <= mode <= 3 -> 0 <= rmEncoding <= 7 ->
  post (decodeGeneral_AndMemImm_3 code address cursor rexB rexX mode rmEncoding (newInstruction address))
    (constructed code address).
Proof using Hcode Haddress. start; intros; unfold decodeGeneral_AndMemImm_3; decode. Qed.
Hint Resolve decodeGeneral_AndMemImm_3_ok : decoder.

Lemma decodeGeneral_AndMemImm_4_ok cursor rexB rexX mode rmEncoding : 2 <= cursor <= 5 -> cursor <= zlength code -> 0
    <= mode <= 3 -> 0 <= rmEncoding <= 7 ->
  post (decodeGeneral_AndMemImm_4 code address cursor rexB rexX mode rmEncoding (newInstruction address))
    (constructed code address).
Proof using Hcode Haddress. start; intros; unfold decodeGeneral_AndMemImm_4; decode. Qed.
Hint Resolve decodeGeneral_AndMemImm_4_ok : decoder.

Lemma decodeGeneral_OrMemImm_2_ok cursor rexW rexB rexX mode rmEncoding : 2 <= cursor <= 5 -> cursor <= zlength code
    -> 0 <= mode <= 3 -> 0 <= rmEncoding <= 7 ->
  post (decodeGeneral_OrMemImm_2 code address cursor rexW rexB rexX mode rmEncoding (newInstruction address))
    (constructed code address).
Proof using Hcode Haddress. start; intros; unfold decodeGeneral_OrMemImm_2; decode. Qed.
Hint Resolve decodeGeneral_OrMemImm_2_ok : decoder.

Lemma decodeGeneral_AddMemImm_ok cursor rexW rexB rexX mode rmEncoding : 2 <= cursor <= 5 -> cursor <= zlength code
    -> 0 <= mode <= 3 -> 0 <= rmEncoding <= 7 ->
  post (decodeGeneral_AddMemImm code address cursor rexW rexB rexX mode rmEncoding (newInstruction address))
    (constructed code address).
Proof using Hcode Haddress. start; intros; unfold decodeGeneral_AddMemImm; decode. Qed.
Hint Resolve decodeGeneral_AddMemImm_ok : decoder.

Lemma decodeGeneral_CmpMemImm_2_ok cursor rexW rexB rexX mode rmEncoding : 2 <= cursor <= 5 -> cursor <= zlength code
    -> 0 <= mode <= 3 -> 0 <= rmEncoding <= 7 ->
  post (decodeGeneral_CmpMemImm_2 code address cursor rexW rexB rexX mode rmEncoding (newInstruction address))
    (constructed code address).
Proof using Hcode Haddress. start; intros; unfold decodeGeneral_CmpMemImm_2; decode. Qed.
Hint Resolve decodeGeneral_CmpMemImm_2_ok : decoder.

Lemma decodeGeneral_ok :
  post (decodeGeneral code address 0 (newInstruction address)) (recognised code address).
Proof using Hcode Hcount Haddress.
  start; unfold decodeGeneral. do 2 decode_step. cbv zeta.
  apply (post_join _ _ (fun c : Z => 0 <= c <= 1 /\ c < zlength code)); [decode|]. intros c1 [H1 Hc1]. do 2
    decode_step. cbv zeta.
  apply (post_join _ _ (fun c : Z => 0 <= c <= 2 /\ c < zlength code)); [decode|]. intros c2 [H2 Hc2]. do 2
    decode_step.
  generalize ((64 <=? byte1) && (byte1 <=? 79)); intros hasRex. cbv zeta. do 2 decode_step. decode_step; [decode|].
  apply (post_join _ _ (fun c : Z => 0 <= c <= 3 /\ c < zlength code)); [decode|]. intros c3 [Hrange3 Hc3].
  do 2 decode_step. cbv zeta. do 2 (decode_step; [exact I|]). do 2 decode_step.
  apply (post_construct code address); [decode|by intros|].
  intros c i Hc Hi. repeat decode_step. small_sizes. cbn [recognised].
  replace (c - 0) with c in * by lia. apply built_complete; [done|lia|lia].
Qed.

End Spec.
