(* ===== verification/DecoderSpec.v ===== *)
(** The decoder keeps its promise: decoded instructions are well formed, and a decoded
    block is the run of instructions that the code spells. *)
From S2P Require Import Prelude X86State ExecutionContext IR X86Instruction DecodeBase DecodeVex DecodeScalarSpecial DecodeOperandOverride DecodeSimdLanes DecodeSimdMemory DecodeRepeat DecodeControlTransfer DecodeAtomic DecodeExtended DecodeGeneral DecodeSpec DecodeFamiliesSpec DecodeGeneralSpec Decoder.

(** ** One instruction *)

Section Instruction.
Context (code : list Z) (address : Z).
Context (Hcode : code_ok code) (Haddress : in_range 64 address).

Ltac family :=
  lazymatch goal with
  | |- post (decodeVex _ _ _ _) _ => apply decodeVex_ok
  | |- post (decodeScalarSpecial _ _ _ _) _ => apply decodeScalarSpecial_ok
  | |- post (decodeOperandOverride _ _ _ _) _ => apply decodeOperandOverride_ok
  | |- post (decodeSimdLanes _ _ _ _) _ => apply decodeSimdLanes_ok
  | |- post (decodeSimdMemory _ _ _ _) _ => apply decodeSimdMemory_ok
  | |- post (decodeRepeat _ _ _ _) _ => apply decodeRepeat_ok
  | |- post (decodeControlTransfer _ _ _ _) _ => apply decodeControlTransfer_ok
  | |- post (decodeAtomic _ _ _ _) _ => apply decodeAtomic_ok
  | |- post (decodeExtended _ _ _ _) _ => apply decodeExtended_ok
  | |- post (decodeGeneral _ _ _ _) _ => apply decodeGeneral_ok
  end.

Lemma decodeFamilies_ok : 0 < zlength code ->
  post (decodeFamilies code address (newInstruction address)) (recognised code address).
Proof using Hcode Haddress.
  intros Hcount. unfold decodeFamilies.
  do 9 (apply post_flow; eapply post_mono; [|family; assumption];
        intros [i|[c i]] Hr; [exact Hr|destruct Hr as [-> ->]; cbn beta iota]).
  family; assumption.
Qed.

(** What decoding an instruction promises: a well-formed instruction, or a C++ exception. *)
Definition promised (o : outcome DecodedInstruction) : Prop :=
  match o with
  | Ok i => instruction_ok code address i
  | Throw _ => True
  | Undefined => False
  end.

Lemma decodeInstruction_post : post (decodeInstruction code address) (instruction_ok code address).
Proof using Hcode Haddress.
  pose proof decodeFamilies_ok as H. unfold decodeInstruction.
  destruct code as [|front rest] eqn:E; [done|]. rewrite <- E in *.
  assert (0 < zlength code) as Hn by (rewrite E; unfold zlength; cbn; lia).
  destruct (Z.eqb_spec front 0xC3) as [->|_].
  - cbn [post]. completed.
  - apply post_bind. eapply post_mono; [|exact (H Hn)]. intros [i|[c i]] Hr; [exact Hr|done].
Qed.
End Instruction.

(** ** A block *)

Section Block.
Context (code : list Z) (start : Z).
Context (Hcode : code_ok code) (Hstart : in_range 64 start).

Definition decoded_at (c : Z) (o : outcome DecodedInstruction) : Prop :=
  0 <= c < zlength code /\ start + c < 2 ^ 64 /\ decodeInstruction (drop (Z.to_nat c) code) (start + c) = o.

(** Instructions that do not end the block, decoded one after the other. *)
Inductive run : Z -> list DecodedInstruction -> Z -> Prop :=
| run_nil c : run c [] c
| run_cons c i rest c' : decoded_at c (Ok i) -> terminatesBlock i.(d_opcode) = false ->
    run (c + i.(d_length)) rest c' -> run c (i :: rest) c'.

(** A block: a run and the instruction that ends it, or the one that fills it. *)
Definition block (maximum : Z) (l : list DecodedInstruction) : Prop :=
  exists init i c, l = init ++ [i] /\ run 0 init c /\ decoded_at c (Ok i) /\ zlength l <= maximum /\
    (terminatesBlock i.(d_opcode) = true \/ zlength l = maximum).

(** A run after which there is no block. *)
Definition no_block (maximum : Z) (e : exn) : Prop :=
  exists l c, run 0 l c /\ zlength l < maximum /\
    (decoded_at c (Throw e) \/
     c < zlength code /\ 2 ^ 64 <= start + c /\ e = decode_error start (drop (Z.to_nat c) code) "guest RIP overflows" \/
     c = zlength code /\ e = decode_error (u64 (start + c)) [] "basic block ended without a supported terminator").

Lemma run_snoc c l c' i : run c l c' -> decoded_at c' (Ok i) -> terminatesBlock i.(d_opcode) = false ->
  run c (l ++ [i]) (c' + i.(d_length)).
Proof. induction 1; intros Hi Ht; cbn; eapply run_cons; eauto using run_nil. Qed.

Lemma code_ok_drop n : code_ok (drop n code).
Proof using Hcode.
  destruct Hcode as [Hb Hl]. split; [by apply Forall_drop|]. unfold zlength in *. rewrite length_drop. lia.
Qed.

Lemma zlength_drop c : 0 <= c <= zlength code -> zlength (drop (Z.to_nat c) code) = zlength code - c.
Proof. unfold zlength. rewrite length_drop. lia. Qed.

Lemma decoded_ok c i : decoded_at c (Ok i) -> instruction_ok (drop (Z.to_nat c) code) (start + c) i.
Proof using Hcode Hstart.
  intros (Hc & Hs & Hi). pose proof (decodeInstruction_post (drop (Z.to_nat c) code) (start + c) (code_ok_drop _)) as H.
  rewrite Hi in H. apply H. unfold in_range in *. lia.
Qed.

Lemma decoded_length c i : decoded_at c (Ok i) -> 1 <= i.(d_length) <= 15 /\ c + i.(d_length) <= zlength code.
Proof using Hcode Hstart.
  intros Hi. pose proof (ok_length _ _ _ (decoded_ok c i Hi)) as [? Hl]. destruct Hi as [Hc _].
  rewrite zlength_drop in Hl by lia. lia.
Qed.

Lemma run_bounds c l c' : run c l c' -> 0 <= c <= zlength code -> c + zlength l <= c' <= zlength code.
Proof using Hcode Hstart.
  induction 1 as [c|c i rest c' Hi Ht Hr IH]; intros Hc; [unfold zlength in *; cbn [length]; lia|].
  apply decoded_length in Hi. pose proof (IH ltac:(lia)). unfold zlength in *. cbn [length]. lia.
Qed.

Lemma subspan_rest c : 0 <= c <= zlength code -> subspan code c (size_sub (zlength code) c) = Ok (drop (Z.to_nat c) code).
Proof using Hcode.
  intros Hc. destruct Hcode as [_ Hl]. rewrite size_sub_small by lia. unfold subspan.
  rewrite (proj2 (Z.leb_le 0 c)), (proj2 (Z.leb_le 0 (zlength code - c))), (proj2 (Z.leb_le (c + (zlength code - c)) _)) by lia.
  cbn [andb]. f_equal. apply take_ge. rewrite length_drop. unfold zlength in *. lia.
Qed.

Lemma decodeBlock_loop_ok maximum fuel : forall cursor result,
  run 0 result cursor -> zlength result < maximum -> zlength code - cursor < Z.of_nat fuel ->
  match decodeBlock_loop fuel code start maximum cursor result with
  | Ok l => block maximum l
  | Throw e => no_block maximum e
  | Undefined => False
  end.
Proof using Hcode Hstart.
  induction fuel as [|fuel IH]; intros cursor result Hrun Hmax Hfuel;
    pose proof (run_bounds _ _ _ Hrun ltac:(unfold zlength; lia)) as Hb;
    assert (0 <= zlength result) by (unfold zlength; lia); [lia|].
  pose proof (proj2 Hcode) as Hl.
  cbn [decodeBlock_loop]. destruct (Z.ltb_spec cursor (zlength code)) as [Hc|Hc].
  2: { exists result, cursor. split_and!; [done|done|right; right; split; [lia|done]]. }
  rewrite subspan_rest by lia. cbn [outcome_bind]. unfold UINT64_MAX.
  destruct (Z.ltb_spec (2 ^ 64 - 1 - start) cursor) as [Ho|Ho].
  { exists result, cursor. split_and!; [done|done|right; left; split_and!; [lia|lia|done]]. }
  rewrite u64_small by (unfold in_range in *; lia).
  assert (forall o, decodeInstruction (drop (Z.to_nat cursor) code) (start + cursor) = o -> decoded_at cursor o) as Hat.
  { intros o Ho'. split_and!; [lia|lia|lia|done]. }
  pose proof (decodeInstruction_post (drop (Z.to_nat cursor) code) (start + cursor) (code_ok_drop _)
                ltac:(unfold in_range in *; lia)) as Hpost.
  destruct (decodeInstruction (drop (Z.to_nat cursor) code) (start + cursor)) as [i|e|]; cbn [outcome_bind].
  - specialize (Hat _ eq_refl). pose proof (decoded_length _ _ Hat) as [Hi Hi'].
    rewrite size_add_small by lia.
    assert (zlength (result ++ [i]) = zlength result + 1) as Hlen by (unfold zlength; rewrite length_app; cbn [length]; lia).
    destruct (terminatesBlock (d_opcode i)) eqn:Ht; cbn [orb].
    { exists result, i, cursor. split_and!; [done|done|done|lia|by left]. }
    rewrite Hlen. destruct (Z.eqb_spec (zlength result + 1) maximum) as [He|He].
    { exists result, i, cursor. split_and!; [done|done|done|lia|right; lia]. }
    apply IH; [by apply run_snoc|lia|lia].
  - exists result, cursor. split_and!; [done|done|left; by apply Hat].
  - done.
Qed.
End Block.

(** ** What a block is made of *)

(** The bytes of an instruction. *)
Definition instruction_bytes (i : DecodedInstruction) : list Z := take (Z.to_nat i.(d_length)) i.(d_bytes).

(** Well-formed instructions, one after the other from [address]; only the last may end
    the block. *)
Inductive consecutive : Z -> list DecodedInstruction -> Prop :=
| consecutive_last address i : i.(d_address) = address -> well_typed i = true -> Forall operand_ok i.(d_operands) ->
    consecutive address [i]
| consecutive_next address i l : i.(d_address) = address -> well_typed i = true -> Forall operand_ok i.(d_operands) ->
    terminatesBlock i.(d_opcode) = false -> consecutive (address + i.(d_length)) l -> consecutive address (i :: l).

Section Tiles.
Context (code : list Z) (start : Z).
Context (Hcode : code_ok code) (Hstart : in_range 64 start).

Lemma instruction_bytes_ok c i : decoded_at code start c (Ok i) ->
  instruction_bytes i = take (Z.to_nat i.(d_length)) (drop (Z.to_nat c) code).
Proof using Hcode Hstart.
  intros Hi. pose proof (decoded_ok _ _ Hcode Hstart _ _ Hi) as [_ [Hl Hz] Hb _ _ _ _].
  unfold instruction_bytes. rewrite Hb. unfold zlength in Hz.
  rewrite take_app_le by (rewrite length_take; lia). rewrite take_take. f_equal. lia.
Qed.

(** A run covers the code without a gap. *)
Lemma run_tiles c l c' : run code start c l c' -> 0 <= c <= zlength code ->
  concat (map instruction_bytes l) = take (Z.to_nat (c' - c)) (drop (Z.to_nat c) code).
Proof using Hcode Hstart.
  induction 1 as [c|c i l c' Hi Ht Hr IH]; intros Hc; [by rewrite Z.sub_diag|].
  pose proof (decoded_length _ _ Hcode Hstart _ _ Hi) as [Hl Hl'].
  pose proof (run_bounds _ _ Hcode Hstart _ _ _ Hr ltac:(lia)) as Hb. assert (0 <= zlength l) by (unfold zlength; lia).
  cbn [map concat]. rewrite (instruction_bytes_ok c i Hi), IH by lia.
  replace (Z.to_nat (c + d_length i)) with (Z.to_nat c + Z.to_nat (d_length i))%nat by lia.
  rewrite <- drop_drop, take_take_drop. f_equal. lia.
Qed.

Lemma run_consecutive c l c' i : run code start c l c' -> decoded_at code start c' (Ok i) ->
  consecutive (start + c) (l ++ [i]).
Proof using Hcode Hstart.
  induction 1 as [c|c j l c' Hj Ht Hr IH]; intros Hi.
  - pose proof (decoded_ok _ _ Hcode Hstart _ _ Hi) as []. by apply consecutive_last.
  - pose proof (decoded_ok _ _ Hcode Hstart _ _ Hj) as []. cbn [app]. apply consecutive_next; try done.
    rewrite <- Z.add_assoc. by apply IH.
Qed.
End Tiles.

(** ** Properties *)

(** C2: decoding an instruction never reads outside the code: it throws, or returns an
    instruction that starts at the address, is made of the first one to fifteen bytes of
    the code, has the operands its opcode takes with values in their ranges, and whose
    branch target and fall-through address are exact. *)
Theorem decodeInstruction_correct code address :
  code_ok code -> in_range 64 address -> promised code address (decodeInstruction code address).
Proof. intros Hcode Haddress. exact (decodeInstruction_post code address Hcode Haddress). Qed.

Lemma decodeBlock_ok code start maximum :
  code_ok code -> in_range 64 start -> in_range 64 maximum ->
  match decodeBlock code start maximum with
  | Ok l => block code start maximum l
  | Throw e => maximum = 0 /\ e = invalid_argument "x86 decoder instruction limit must be nonzero" \/ no_block code start maximum e
  | Undefined => False
  end.
Proof.
  unfold in_range at 2. intros Hcode Hstart Hmax. unfold decodeBlock. destruct (Z.eqb_spec maximum 0); [by left|].
  pose proof (decodeBlock_loop_ok code start Hcode Hstart maximum (S (length code)) 0 [] (run_nil _ _ 0)
                ltac:(unfold zlength; cbn; lia) ltac:(unfold zlength; lia)) as H.
  destruct decodeBlock_loop; [done|by right|done].
Qed.

Lemma block_consecutive code start maximum l : code_ok code -> in_range 64 start ->
  block code start maximum l -> consecutive start l /\ 0 < zlength l <= maximum.
Proof.
  intros Hcode Hstart (init & i & c & -> & Hrun & Hi & Hle & _). split.
  - pose proof (run_consecutive _ _ Hcode Hstart _ _ _ _ Hrun Hi) as H'. by rewrite Z.add_0_r in H'.
  - unfold zlength in *. rewrite length_app in *. cbn [length] in *. lia.
Qed.

(** C3: decoding a block ends, and returns exactly the run of instructions that starts the
    code: up to the first one that ends a block, or to the limit. When there is no such
    block it throws: what decoding the missing instruction throws, or that the addresses
    overflow or the code ends. *)
Theorem decodeBlock_correct code start maximum :
  code_ok code -> in_range 64 start -> in_range 64 maximum ->
  match decodeBlock code start maximum with
  | Ok l => block code start maximum l
  | Throw e => maximum = 0 /\ e = invalid_argument "x86 decoder instruction limit must be nonzero" \/ no_block code start maximum e
  | Undefined => False
  end.
Proof. apply decodeBlock_ok. Qed.

(** C4: the instructions of a decoded block are well formed and lie one after the other from
    its start, only the last may end it, and their bytes, in order, are the code's. *)
Theorem decodeBlock_tiles code start maximum l :
  code_ok code -> in_range 64 start -> in_range 64 maximum -> decodeBlock code start maximum = Ok l ->
  consecutive start l /\ 0 < zlength l <= maximum /\
  exists n, 0 < n <= zlength code /\ concat (map instruction_bytes l) = take (Z.to_nat n) code.
Proof.
  intros Hcode Hstart Hmax E. pose proof (decodeBlock_ok code start maximum Hcode Hstart Hmax) as H. rewrite E in H.
  destruct (block_consecutive _ _ _ _ Hcode Hstart H) as [Hcons Hlen]. destruct H as (init & i & c & -> & Hrun & Hi & Hle & _).
  pose proof (run_bounds _ _ Hcode Hstart _ _ _ Hrun ltac:(unfold zlength; lia)) as Hb.
  pose proof (decoded_length _ _ Hcode Hstart _ _ Hi) as [Hl Hl'].
  assert (0 <= zlength init) by (unfold zlength; lia). split_and!.
  - done.
  - apply Hlen.
  - apply Hlen.
  - exists (c + d_length i). split; [lia|].
    rewrite map_app, concat_app. cbn [map concat]. rewrite app_nil_r.
    rewrite (run_tiles _ _ Hcode Hstart _ _ _ Hrun) by (unfold zlength; lia).
    rewrite (instruction_bytes_ok _ _ Hcode Hstart _ _ Hi), Z.sub_0_r.
    change (drop (Z.to_nat 0) code) with code. rewrite take_take_drop. f_equal. lia.
Qed.

(** ** At concrete inputs *)

(** [push rbp; mov rbp, rsp; xor eax, eax; je .+2; ret] *)
Definition sample_code : list Z := [0x55; 0x48; 0x89; 0xE5; 0x31; 0xC0; 0x74; 0x02; 0xC3].

Lemma sample_code_ok : code_ok sample_code.
Proof. split; [repeat (apply Forall_cons_2; [unfold in_range; lia|]); apply Forall_nil_2|reflexivity]. Qed.

Example sample_block :
  match decodeBlock sample_code 0x1000 100 with
  | Ok l => map (fun i => (d_address i, d_opcode i, d_branchTarget i)) l =
      [(0x1000, X_Push, None); (0x1001, X_MovRegReg, None); (0x1004, X_XorRegReg, None); (0x1006, X_JccRelative, Some 0x100A)]
  | _ => False
  end.
Proof. vm_compute. reflexivity. Qed.

(** What an instruction is, its length and its operands. *)
Definition summary (o : outcome DecodedInstruction) : option (X86Opcode * Z * list Operand) :=
  match o with Ok i => Some (i.(d_opcode), i.(d_length), i.(d_operands)) | _ => None end.

(** [add dword [rip + 16], 1]: with a REX.B, which RIP-relative addressing ignores, it is
    decoded as the four bytes of [add dword [r13], 16]. *)
Lemma rexB_rip_relative :
  summary (decodeInstruction [0x83; 0x05; 0x10; 0; 0; 0; 0x01] 0x1000) =
    Some (X_AddMemImm, 7, [MemoryOp (mkMemory Rax 16 32 None 1 false true Segment_None); ImmediateOperand 1 8]) /\
  summary (decodeInstruction [0x41; 0x83; 0x05; 0x10; 0; 0; 0; 0x01] 0x1000) =
    Some (X_AddMemImm, 4, [MemoryOp (mkMemory R13 0 32 None 1 true false Segment_None); ImmediateOperand 16 8]).
Proof. split; vm_compute; reflexivity. Qed.

(** [movsx eax, byte [0x10]] with a REX.B: a SIB byte without a base is decoded as the base
    R13 and its displacement is left in the stream. *)
Lemma rexB_sib_without_base :
  summary (decodeInstruction [0x41; 0x0F; 0xBE; 0x04; 0x25; 0x10; 0; 0; 0] 0x1000) =
    Some (X_MovsxRegMem, 5, [RegisterOperand Rax 32 0; MemoryOp (mkMemory R13 0 8 None 1 true false Segment_None)]).
Proof. vm_compute. reflexivity. Qed.

(** The message of an instruction that is cut short. *)
Example truncated_message :
  match decodeInstruction [0xE8; 0x05] 0x7F00 with
  | Throw e => error_message e = Some "unsupported or malformed x86 instruction at guest RIP 0x7f00: truncated rel32 control transfer; bytes: e8 05"%string
  | _ => False
  end.
Proof. vm_compute. reflexivity. Qed.

Lemma decodeInstruction_correct_witness :
  exists i, decodeInstruction [0x48; 0x89; 0xE5] 0x1000 = Ok i /\ instruction_ok [0x48; 0x89; 0xE5] 0x1000 i.
Proof.
  assert (code_ok [0x48; 0x89; 0xE5]) as Hc.
  { split; [repeat (apply Forall_cons_2; [unfold in_range; lia|]); apply Forall_nil_2|reflexivity]. }
  pose proof (decodeInstruction_correct [0x48; 0x89; 0xE5] 0x1000 Hc ltac:(unfold in_range; lia)) as H. unfold promised in H.
  destruct (decodeInstruction [0x48; 0x89; 0xE5] 0x1000) as [i|e|] eqn:E; [by exists i|vm_compute in E; discriminate E|destruct H].
Defined.

Lemma decodeBlock_correct_witness :
  exists l, decodeBlock sample_code 0x1000 100 = Ok l /\ block sample_code 0x1000 100 l.
Proof.
  pose proof (decodeBlock_correct sample_code 0x1000 100 sample_code_ok ltac:(unfold in_range; lia) ltac:(unfold in_range; lia)) as H.
  destruct (decodeBlock sample_code 0x1000 100) as [l|e|] eqn:E; [by exists l|vm_compute in E; discriminate E|destruct H].
Defined.

Lemma decodeBlock_tiles_witness :
  exists l, decodeBlock sample_code 0x1000 100 = Ok l /\ consecutive 0x1000 l.
Proof.
  destruct (decodeBlock sample_code 0x1000 100) as [l|e|] eqn:E; [|vm_compute in E; discriminate E|vm_compute in E; discriminate E].
  exists l. split; [done|].
  apply (decodeBlock_tiles sample_code 0x1000 100 l sample_code_ok); [unfold in_range; lia|unfold in_range; lia|exact E].
Defined.
