(* ===== verification/LoweringBase.v ===== *)
(** What the lowering of every instruction uses ([src/x86/Lowering.cpp]): its operands,
    optional values, loops with a constant bound and the effective address. *)
From S2P Require Import Prelude X86State IR IRBuilder IRVerify X86Instruction DecodeBase.

(** ** Operands

    [std::get] returns the alternative it names, or throws; the index of
    [instruction.operands] is not checked. *)

Record register_operand := mkRegisterOperand { ro_reg : Register; ro_width : Z; ro_byteOffset : Z }.
Record immediate_operand := mkImmediateOperand { io_value : Z; io_width : Z }.

Definition operand_at (instruction : DecodedInstruction) (n : Z) : M Block Operand :=
  match instruction.(d_operands) !! Z.to_nat n with Some o => ret o | None => undefined end.

Definition get_register (o : Operand) : M Block register_operand :=
  match o with
  | RegisterOperand reg width byteOffset => ret (mkRegisterOperand reg width byteOffset)
  | _ => throw bad_variant_access
  end.
Definition get_immediate (o : Operand) : M Block immediate_operand :=
  match o with ImmediateOperand value width => ret (mkImmediateOperand value width) | _ => throw bad_variant_access end.
Definition get_memory (o : Operand) : M Block MemoryOperand :=
  match o with MemoryOp memory => ret memory | _ => throw bad_variant_access end.
Definition get_xmm (o : Operand) : M Block XmmRegister :=
  match o with XmmRegisterOperand reg => ret reg | _ => throw bad_variant_access end.

Definition register_at (instruction : DecodedInstruction) (n : Z) : M Block register_operand :=
  do! o <- operand_at instruction n; get_register o.
Definition immediate_at (instruction : DecodedInstruction) (n : Z) : M Block immediate_operand :=
  do! o <- operand_at instruction n; get_immediate o.
Definition memory_at (instruction : DecodedInstruction) (n : Z) : M Block MemoryOperand :=
  do! o <- operand_at instruction n; get_memory o.
Definition xmm_at (instruction : DecodedInstruction) (n : Z) : M Block XmmRegister :=
  do! o <- operand_at instruction n; get_xmm o.

(** [std::holds_alternative]. *)
Definition holds_register (o : Operand) : bool := match o with RegisterOperand _ _ _ => true | _ => false end.
Definition holds_immediate (o : Operand) : bool := match o with ImmediateOperand _ _ => true | _ => false end.
Definition holds_memory (o : Operand) : bool := match o with MemoryOp _ => true | _ => false end.

#[export] Instance Segment_eq_dec : EqDecision Segment.
Proof. solve_decision. Defined.

(** ** Optional values *)

(** [*o]. *)
Definition deref {A} (o : option A) : M Block A := match o with Some a => ret a | None => undefined end.

(** ** Loops

    [for (i : l)] with the variables the body changes. *)
Fixpoint for_each {A} (l : list Z) (body : Z -> A -> M Block A) (a : A) : M Block A :=
  match l with
  | [] => ret a
  | i :: l => do! a <- body i a; for_each l body a
  end.

(** [std::countr_zero] of a [std::uint8_t]. *)
Fixpoint countr_zero_from (fuel : nat) (i x : Z) : Z :=
  match fuel with
  | O => 8
  | S fuel => if Z.testbit x i then i else countr_zero_from fuel (i + 1) x
  end.
Definition countr_zero8 (x : Z) : Z := countr_zero_from 8 0 x.

(** ** The address of a memory operand *)

Definition effectiveAddress (memory : MemoryOperand) (instruction : DecodedInstruction) : M Block ValueId :=
  let rip := instruction.(d_address) in
  if negb (bool_decide (memory.(mem_segment) = Segment_None)) && negb (bool_decide (memory.(mem_segment) =
      Segment_Gs)) then
    throw (runtime_error "only GS segment overrides are implemented")
  else
  if memory.(mem_ripRelative) then
    constant (u64 ((u64 (instruction.(d_address) + instruction.(d_length))) + (u64 memory.(mem_displacement)))) I64
        rip
  else
  let address := None in
  do! address <- (if memory.(mem_hasBase) then
      do! register1 <- readGuestRegister memory.(mem_base) I64 rip;
      ret (Some register1)
  else
      ret address);
  do! address <- (match memory.(mem_index) with
  | Some indexRegister =>
      do! index <- readGuestRegister indexRegister I64 rip;
      do! index <- (if negb (memory.(mem_scale) =? 1) then
          shiftLeft_imm index (u8 (countr_zero8 memory.(mem_scale))) I64 rip
      else
          ret index);
      do! choice1 <- match address with Some address' => add address' index I64 rip | None => ret index end;
      ret (Some choice1)
  | None =>
      ret address
  end);
  do! address <- (if negb (memory.(mem_displacement) =? 0) || absent address then
      do! displacement <- constant (u64 memory.(mem_displacement)) I64 rip;
      do! choice2 <- match address with Some address' => add address' displacement I64 rip | None => ret
          displacement end;
      ret (Some choice2)
  else
      ret address);
  do! address <- (if bool_decide (memory.(mem_segment) = Segment_Gs) then
      do! readGuestGsBase_1 <- readGuestGsBase rip;
      do! address1 <- deref address;
      do! add_3 <- add readGuestGsBase_1 address1 I64 rip;
      ret (Some add_3)
  else
      ret address);
  deref address.
