(* ===== verification/LowerData.v ===== *)
(** Lowering, moves, extensions, LEA, SETcc, CMOVcc, PUSH, POP and LEAVE ([src/x86/Lowering.cpp]): one definition for each case of
    the switch of [x86::lowerToIr], named after its first label. *)
From S2P Require Import Prelude X86State IR IRBuilder IRVerify X86Instruction DecodeBase LoweringBase.

(** [MovRegImm]. *)
Definition lowerMovRegImm (instruction : DecodedInstruction) : M Block unit :=
  if negb (zlength instruction.(d_operands) =? 2) then
    throw (runtime_error "internal decoder error: mov operand count")
  else
  do! reg <- register_at instruction 0;
  do! immediate <- immediate_at instruction 1;
  if reg.(ro_width) =? 8 then
    do! original <- readGuestRegister reg.(ro_reg) I64 instruction.(d_address);
    do! clearMask <- constant (not64 0xFF) I64 instruction.(d_address);
    do! cleared <- bitAnd original clearMask I64 instruction.(d_address);
    do! byte_ <- constant immediate.(io_value) I64 instruction.(d_address);
    do! result <- bitOr cleared byte_ I64 instruction.(d_address);
    writeGuestRegister reg.(ro_reg) result I64 instruction.(d_address)
  else
  let width := if reg.(ro_width) =? 16 then I16 else if reg.(ro_width) =? 32 then I32 else I64 in
  do! value <- constant immediate.(io_value) width instruction.(d_address);
  writeGuestRegister reg.(ro_reg) value width instruction.(d_address).

(** [MovRegReg]. *)
Definition lowerMovRegReg (instruction : DecodedInstruction) : M Block unit :=
  if negb (zlength instruction.(d_operands) =? 2) then
    throw (runtime_error "internal decoder error: mov register operand count")
  else
  do! destination <- register_at instruction 0;
  do! source <- register_at instruction 1;
  let width := if destination.(ro_width) =? 8 then I8 else if destination.(ro_width) =? 16 then I16 else if
      destination.(ro_width) =? 32 then I32 else I64 in
  do! value <- readGuestRegister source.(ro_reg) width instruction.(d_address);
  writeGuestRegister destination.(ro_reg) value width instruction.(d_address).

(** [MovMemReg]. *)
Definition lowerMovMemReg (instruction : DecodedInstruction) : M Block unit :=
  if negb (zlength instruction.(d_operands) =? 2) then
    throw (runtime_error "internal decoder error: mov store operand count")
  else
  do! memory <- memory_at instruction 0;
  do! source <- register_at instruction 1;
  let width := if source.(ro_width) =? 8 then I8 else if source.(ro_width) =? 16 then I16 else if source.(ro_width)
      =? 32 then I32 else I64 in
  let address := None in
  do! address <- (if memory.(mem_ripRelative) then
      do! constant1 <- constant (u64 (instruction.(d_address) + instruction.(d_length))) I64
          instruction.(d_address);
      ret (Some constant1)
  else
      (if memory.(mem_hasBase) then
          do! register2 <- readGuestRegister memory.(mem_base) I64 instruction.(d_address);
          ret (Some register2)
      else
          ret address));
  do! address <- (match memory.(mem_index) with
  | Some indexRegister =>
      do! index <- readGuestRegister indexRegister I64 instruction.(d_address);
      do! index <- (if negb (memory.(mem_scale) =? 1) then
          shiftLeft_imm index (u8 (countr_zero8 memory.(mem_scale))) I64 instruction.(d_address)
      else
          ret index);
      do! choice1 <- match address with Some address' => add address' index I64 instruction.(d_address) | None =>
          ret index end;
      ret (Some choice1)
  | None =>
      ret address
  end);
  do! address <- (if negb (memory.(mem_displacement) =? 0) then
      do! displacement <- constant (u64 memory.(mem_displacement)) I64 instruction.(d_address);
      do! choice2 <- match address with Some address' => add address' displacement I64 instruction.(d_address) |
          None => ret displacement end;
      ret (Some choice2)
  else
      ret address);
  do! address <- (if bool_decide (memory.(mem_segment) = Segment_Gs) then
      do! gsBase <- readGuestGsBase instruction.(d_address);
      do! choice3 <- match address with Some address' => add gsBase address' I64 instruction.(d_address) | None =>
          ret gsBase end;
      ret (Some choice3)
  else
      ret address);
  do! address <- (match address with
  | Some address' =>
      ret address
  | None =>
      do! constant3 <- constant 0 I64 instruction.(d_address);
      ret (Some constant3)
  end);
  if (1 <? source.(ro_byteOffset)) || ((source.(ro_byteOffset) =? 1) && negb (source.(ro_width) =? 8)) then
    throw (runtime_error "invalid byte-lane MOV store source")
  else
  do! value <- (if source.(ro_byteOffset) =? 0 then readGuestRegister source.(ro_reg) width instruction.(d_address)
      else do! register5 <- readGuestRegister source.(ro_reg) I64 instruction.(d_address); shiftRightLogical_imm
      register5 8 I64 instruction.(d_address));
  do! address1 <- deref address;
  storeGuest address1 value width instruction.(d_address).

(** [MovRegMem]. *)
Definition lowerMovRegMem (instruction : DecodedInstruction) : M Block unit :=
  if negb (zlength instruction.(d_operands) =? 2) then
    throw (runtime_error "internal decoder error: mov load operand count")
  else
  do! destination <- register_at instruction 0;
  do! memory <- memory_at instruction 1;
  let address := None in
  do! address <- (if memory.(mem_ripRelative) then
      do! constant1 <- constant (u64 (instruction.(d_address) + instruction.(d_length))) I64
          instruction.(d_address);
      ret (Some constant1)
  else
      (if memory.(mem_hasBase) then
          do! register2 <- readGuestRegister memory.(mem_base) I64 instruction.(d_address);
          ret (Some register2)
      else
          ret address));
  do! address <- (match memory.(mem_index) with
  | Some indexRegister =>
      do! index <- readGuestRegister indexRegister I64 instruction.(d_address);
      do! index <- (if negb (memory.(mem_scale) =? 1) then
          shiftLeft_imm index (u8 (countr_zero8 memory.(mem_scale))) I64 instruction.(d_address)
      else
          ret index);
      do! choice1 <- match address with Some address' => add address' index I64 instruction.(d_address) | None =>
          ret index end;
      ret (Some choice1)
  | None =>
      ret address
  end);
  do! address <- (if negb (memory.(mem_displacement) =? 0) then
      do! displacement <- constant (u64 memory.(mem_displacement)) I64 instruction.(d_address);
      do! choice2 <- match address with Some address' => add address' displacement I64 instruction.(d_address) |
          None => ret displacement end;
      ret (Some choice2)
  else
      ret address);
  do! address <- (if bool_decide (memory.(mem_segment) = Segment_Gs) then
      do! gsBase <- readGuestGsBase instruction.(d_address);
      do! choice3 <- match address with Some address' => add gsBase address' I64 instruction.(d_address) | None =>
          ret gsBase end;
      ret (Some choice3)
  else
      ret address);
  do! address <- (match address with
  | Some address' =>
      ret address
  | None =>
      do! constant3 <- constant 0 I64 instruction.(d_address);
      ret (Some constant3)
  end);
  let width := if destination.(ro_width) =? 8 then I8 else if destination.(ro_width) =? 16 then I16 else if
      destination.(ro_width) =? 32 then I32 else I64 in
  do! address1 <- deref address;
  do! value <- loadGuest address1 width instruction.(d_address);
  writeGuestRegister destination.(ro_reg) value width instruction.(d_address).

(** [MovzxRegReg]. *)
Definition lowerMovzxRegReg (instruction : DecodedInstruction) : M Block unit :=
  if negb (zlength instruction.(d_operands) =? 2) then
    throw (runtime_error "internal decoder error: movzx register operand count")
  else
  do! destination <- register_at instruction 0;
  do! source <- register_at instruction 1;
  do! value <- readGuestRegister source.(ro_reg) I64 instruction.(d_address);
  do! value <- (if negb (source.(ro_byteOffset) =? 0) then
      if negb (source.(ro_width) =? 8) || negb (source.(ro_byteOffset) =? 1) then
        throw (runtime_error "MOVZX register source has an invalid byte lane")
      else
      shiftRightLogical_imm value 8 I64 instruction.(d_address)
  else
      ret value);
  do! mask <- constant (if source.(ro_width) =? 8 then 0xFF else 0xFFFF) I64 instruction.(d_address);
  do! byte_ <- bitAnd value mask I64 instruction.(d_address);
  writeGuestRegister destination.(ro_reg) byte_ (if destination.(ro_width) =? 64 then I64 else I32)
      instruction.(d_address).

(** [MovsxRegReg]. *)
Definition lowerMovsxRegReg (instruction : DecodedInstruction) : M Block unit :=
  if negb (zlength instruction.(d_operands) =? 2) then
    throw (runtime_error "internal decoder error: movsx register operand count")
  else
  do! destination <- register_at instruction 0;
  do! source <- register_at instruction 1;
  do! value <- readGuestRegister source.(ro_reg) I64 instruction.(d_address);
  let shift := u8 (u32 (64 - source.(ro_width))) in
  do! shifted <- shiftLeft_imm value shift I64 instruction.(d_address);
  do! extended <- shiftRightArithmetic_imm shifted shift I64 instruction.(d_address);
  writeGuestRegister destination.(ro_reg) extended (if destination.(ro_width) =? 64 then I64 else I32)
      instruction.(d_address).

(** [MovsxRegMem]. *)
Definition lowerMovsxRegMem (instruction : DecodedInstruction) : M Block unit :=
  if negb (zlength instruction.(d_operands) =? 2) then
    throw (runtime_error "internal decoder error: movsx memory operand count")
  else
  do! destination <- register_at instruction 0;
  do! memory <- memory_at instruction 1;
  do! address <- (if memory.(mem_ripRelative) then constant (u64 (instruction.(d_address) +
      instruction.(d_length))) I64 instruction.(d_address) else (if memory.(mem_hasBase) then readGuestRegister
      memory.(mem_base) I64 instruction.(d_address) else constant 0 I64 instruction.(d_address)));
  do! address <- (match memory.(mem_index) with
  | Some indexRegister =>
      do! index <- readGuestRegister indexRegister I64 instruction.(d_address);
      do! index <- (if negb (memory.(mem_scale) =? 1) then
          shiftLeft_imm index (u8 (countr_zero8 memory.(mem_scale))) I64 instruction.(d_address)
      else
          ret index);
      add address index I64 instruction.(d_address)
  | None =>
      ret address
  end);
  do! address <- (if negb (memory.(mem_displacement) =? 0) then
      do! displacement <- constant (u64 memory.(mem_displacement)) I64 instruction.(d_address);
      add address displacement I64 instruction.(d_address)
  else
      ret address);
  do! value <- loadGuest address (if memory.(mem_width) =? 8 then I8 else I16) instruction.(d_address);
  let shift := u8 (u32 (64 - memory.(mem_width))) in
  do! shifted <- shiftLeft_imm value shift I64 instruction.(d_address);
  do! extended <- shiftRightArithmetic_imm shifted shift I64 instruction.(d_address);
  writeGuestRegister destination.(ro_reg) extended (if destination.(ro_width) =? 64 then I64 else I32)
      instruction.(d_address).

(** [MovzxRegMem]. *)
Definition lowerMovzxRegMem (instruction : DecodedInstruction) : M Block unit :=
  if negb (zlength instruction.(d_operands) =? 2) then
    throw (runtime_error "internal decoder error: movzx operand count")
  else
  do! destination <- register_at instruction 0;
  do! memory <- memory_at instruction 1;
  do! address <- (if memory.(mem_ripRelative) then constant (u64 (instruction.(d_address) +
      instruction.(d_length))) I64 instruction.(d_address) else (if memory.(mem_hasBase) then readGuestRegister
      memory.(mem_base) I64 instruction.(d_address) else constant 0 I64 instruction.(d_address)));
  do! address <- (match memory.(mem_index) with
  | Some indexRegister =>
      do! index <- readGuestRegister indexRegister I64 instruction.(d_address);
      do! index <- (if negb (memory.(mem_scale) =? 1) then
          shiftLeft_imm index (u8 (countr_zero8 memory.(mem_scale))) I64 instruction.(d_address)
      else
          ret index);
      add address index I64 instruction.(d_address)
  | None =>
      ret address
  end);
  do! displacement <- constant (u64 memory.(mem_displacement)) I64 instruction.(d_address);
  do! address <- add address displacement I64 instruction.(d_address);
  do! value <- loadGuest address (if memory.(mem_width) =? 8 then I8 else I16) instruction.(d_address);
  writeGuestRegister destination.(ro_reg) value (if destination.(ro_width) =? 64 then I64 else I32)
      instruction.(d_address).

(** [MovsxdRegReg]. *)
Definition lowerMovsxdRegReg (instruction : DecodedInstruction) : M Block unit :=
  do! destination <- register_at instruction 0;
  do! source <- register_at instruction 1;
  if negb (destination.(ro_width) =? 64) || negb (source.(ro_width) =? 32) then
    throw (runtime_error "MOVSXD register operands have invalid widths")
  else
  do! value <- readGuestRegister source.(ro_reg) I32 instruction.(d_address);
  do! extended <- signExtend32 value instruction.(d_address);
  writeGuestRegister destination.(ro_reg) extended I64 instruction.(d_address).

(** [MovsxdRegMem]. *)
Definition lowerMovsxdRegMem (instruction : DecodedInstruction) : M Block unit :=
  if negb (zlength instruction.(d_operands) =? 2) then
    throw (runtime_error "internal decoder error: movsxd operand count")
  else
  do! destination <- register_at instruction 0;
  do! memory <- memory_at instruction 1;
  do! address <- (if memory.(mem_ripRelative) then constant (u64 (instruction.(d_address) +
      instruction.(d_length))) I64 instruction.(d_address) else (if memory.(mem_hasBase) then readGuestRegister
      memory.(mem_base) I64 instruction.(d_address) else constant 0 I64 instruction.(d_address)));
  do! address <- (match memory.(mem_index) with
  | Some indexRegister =>
      do! index <- readGuestRegister indexRegister I64 instruction.(d_address);
      do! index <- (if negb (memory.(mem_scale) =? 1) then
          shiftLeft_imm index (u8 (countr_zero8 memory.(mem_scale))) I64 instruction.(d_address)
      else
          ret index);
      add address index I64 instruction.(d_address)
  | None =>
      ret address
  end);
  do! address <- (if negb (memory.(mem_displacement) =? 0) then
      do! displacement <- constant (u64 memory.(mem_displacement)) I64 instruction.(d_address);
      add address displacement I64 instruction.(d_address)
  else
      ret address);
  do! value <- loadGuest address I32 instruction.(d_address);
  do! extended <- signExtend32 value instruction.(d_address);
  writeGuestRegister destination.(ro_reg) extended I64 instruction.(d_address).

(** [Cdqe]. *)
Definition lowerCdqe (instruction : DecodedInstruction) : M Block unit :=
  if negb (zlength instruction.(d_operands) =? 0) then
    throw (runtime_error "internal decoder error: CDQE operands")
  else
  do! value <- readGuestRegister Rax I32 instruction.(d_address);
  do! extended <- signExtend32 value instruction.(d_address);
  writeGuestRegister Rax extended I64 instruction.(d_address).

(** [Cwde]. *)
Definition lowerCwde (instruction : DecodedInstruction) : M Block unit :=
  if negb (zlength instruction.(d_operands) =? 0) then
    throw (runtime_error "internal decoder error: CWDE operands")
  else
  do! value <- readGuestRegister Rax I16 instruction.(d_address);
  do! shifted <- shiftLeft_imm value 48 I64 instruction.(d_address);
  do! extended <- shiftRightArithmetic_imm shifted 48 I64 instruction.(d_address);
  writeGuestRegister Rax extended I32 instruction.(d_address).

(** [MovMemImm]. *)
Definition lowerMovMemImm (instruction : DecodedInstruction) : M Block unit :=
  if negb (zlength instruction.(d_operands) =? 2) then
    throw (runtime_error "internal decoder error: mov memory immediate count")
  else
  do! memory <- memory_at instruction 0;
  do! immediate <- immediate_at instruction 1;
  let width := if memory.(mem_width) =? 8 then I8 else if memory.(mem_width) =? 16 then I16 else if
      memory.(mem_width) =? 32 then I32 else I64 in
  let address := None in
  do! address <- (if memory.(mem_ripRelative) then
      do! constant1 <- constant (u64 (instruction.(d_address) + instruction.(d_length))) I64
          instruction.(d_address);
      ret (Some constant1)
  else
      (if memory.(mem_hasBase) then
          do! register1 <- readGuestRegister memory.(mem_base) I64 instruction.(d_address);
          ret (Some register1)
      else
          ret address));
  do! address <- (match memory.(mem_index) with
  | Some indexRegister =>
      do! index <- readGuestRegister indexRegister I64 instruction.(d_address);
      do! index <- (if negb (memory.(mem_scale) =? 1) then
          shiftLeft_imm index (u8 (countr_zero8 memory.(mem_scale))) I64 instruction.(d_address)
      else
          ret index);
      do! choice1 <- match address with Some address' => add address' index I64 instruction.(d_address) | None =>
          ret index end;
      ret (Some choice1)
  | None =>
      ret address
  end);
  do! address <- (if negb (memory.(mem_displacement) =? 0) then
      do! displacement <- constant (u64 memory.(mem_displacement)) I64 instruction.(d_address);
      do! choice2 <- match address with Some address' => add address' displacement I64 instruction.(d_address) |
          None => ret displacement end;
      ret (Some choice2)
  else
      ret address);
  do! address <- (if bool_decide (memory.(mem_segment) = Segment_Gs) then
      do! gsBase <- readGuestGsBase instruction.(d_address);
      do! choice3 <- match address with Some address' => add gsBase address' I64 instruction.(d_address) | None =>
          ret gsBase end;
      ret (Some choice3)
  else
      ret address);
  do! address <- (match address with
  | Some address' =>
      ret address
  | None =>
      do! constant3 <- constant 0 I64 instruction.(d_address);
      ret (Some constant3)
  end);
  do! value <- constant immediate.(io_value) width instruction.(d_address);
  do! address1 <- deref address;
  storeGuest address1 value width instruction.(d_address).

(** [LeaRegRipRelative]. *)
Definition lowerLeaRegRipRelative (instruction : DecodedInstruction) : M Block unit :=
  if negb (zlength instruction.(d_operands) =? 2) then
    throw (runtime_error "internal decoder error: lea operand count")
  else
  do! reg <- register_at instruction 0;
  do! address <- immediate_at instruction 1;
  do! value <- constant (if reg.(ro_width) =? 32 then u32 address.(io_value) else address.(io_value)) (if
      reg.(ro_width) =? 32 then I32 else I64) instruction.(d_address);
  writeGuestRegister reg.(ro_reg) value (if reg.(ro_width) =? 32 then I32 else I64) instruction.(d_address).

(** [LeaRegMem]. *)
Definition lowerLeaRegMem (instruction : DecodedInstruction) : M Block unit :=
  if negb (zlength instruction.(d_operands) =? 2) then
    throw (runtime_error "internal decoder error: lea memory operand count")
  else
  do! destination <- register_at instruction 0;
  do! memory <- memory_at instruction 1;
  let result := None in
  do! result <- (if memory.(mem_hasBase) then
      do! register2 <- readGuestRegister memory.(mem_base) I64 instruction.(d_address);
      ret (Some register2)
  else
      ret result);
  do! result <- (match memory.(mem_index) with
  | Some indexRegister =>
      do! index <- readGuestRegister indexRegister I64 instruction.(d_address);
      do! index <- (if negb (memory.(mem_scale) =? 1) then
          shiftLeft_imm index (u8 (countr_zero8 memory.(mem_scale))) I64 instruction.(d_address)
      else
          ret index);
      do! choice1 <- match result with Some result' => add result' index I64 instruction.(d_address) | None => ret
          index end;
      ret (Some choice1)
  | None =>
      ret result
  end);
  do! result <- (if negb (memory.(mem_displacement) =? 0) || absent result then
      do! displacement <- constant (u64 memory.(mem_displacement)) I64 instruction.(d_address);
      do! choice2 <- match result with Some result' => add result' displacement I64 instruction.(d_address) | None
          => ret displacement end;
      ret (Some choice2)
  else
      ret result);
  do! result <- (if destination.(ro_width) =? 32 then
      do! mask <- constant UINT32_MAX I64 instruction.(d_address);
      do! result1 <- deref result;
      do! bitAnd_1 <- bitAnd result1 mask I64 instruction.(d_address);
      ret (Some bitAnd_1)
  else
      ret result);
  do! result2 <- deref result;
  writeGuestRegister destination.(ro_reg) result2 (if destination.(ro_width) =? 32 then I32 else I64)
      instruction.(d_address).

(** [SetccReg]. *)
Definition lowerSetccReg (instruction : DecodedInstruction) : M Block unit :=
  if negb (zlength instruction.(d_operands) =? 1) || absent instruction.(d_condition) then
    throw (runtime_error "internal decoder error: setcc operand")
  else
  do! destination <- register_at instruction 0;
  do! condition1 <- deref instruction.(d_condition);
  do! value <- evaluateCondition condition1 instruction.(d_address);
  writeGuestRegister destination.(ro_reg) value I8 instruction.(d_address).

(** [SetccMem]. *)
Definition lowerSetccMem (instruction : DecodedInstruction) : M Block unit :=
  if negb (zlength instruction.(d_operands) =? 1) || absent instruction.(d_condition) then
    throw (runtime_error "internal decoder error: memory setcc operand")
  else
  do! memory <- memory_at instruction 0;
  if negb (memory.(mem_width) =? 8) || (memory.(mem_ripRelative) && memory.(mem_hasBase)) then
    throw (runtime_error "invalid byte memory SETcc operand")
  else
  do! address <- (if memory.(mem_ripRelative) then constant (u64 (instruction.(d_address) +
      instruction.(d_length))) I64 instruction.(d_address) else (if memory.(mem_hasBase) then readGuestRegister
      memory.(mem_base) I64 instruction.(d_address) else constant 0 I64 instruction.(d_address)));
  do! address <- (match memory.(mem_index) with
  | Some indexRegister =>
      do! index <- readGuestRegister indexRegister I64 instruction.(d_address);
      do! index <- (if negb (memory.(mem_scale) =? 1) then
          shiftLeft_imm index (u8 (countr_zero8 memory.(mem_scale))) I64 instruction.(d_address)
      else
          ret index);
      add address index I64 instruction.(d_address)
  | None =>
      ret address
  end);
  do! address <- (if negb (memory.(mem_displacement) =? 0) then
      do! displacement <- constant (u64 memory.(mem_displacement)) I64 instruction.(d_address);
      add address displacement I64 instruction.(d_address)
  else
      ret address);
  do! condition1 <- deref instruction.(d_condition);
  do! value <- evaluateCondition condition1 instruction.(d_address);
  storeGuest address value I8 instruction.(d_address).

(** [CmovccReg]. *)
Definition lowerCmovccReg (instruction : DecodedInstruction) : M Block unit :=
  if negb (zlength instruction.(d_operands) =? 2) || absent instruction.(d_condition) then
    throw (runtime_error "internal decoder error: cmovcc operand")
  else
  do! destination <- register_at instruction 0;
  do! source <- register_at instruction 1;
  if negb (destination.(ro_width) =? source.(ro_width)) || (negb (destination.(ro_width) =? 32) && negb
      (destination.(ro_width) =? 64)) then
    throw (runtime_error "only matching 32-bit and 64-bit register CMOV are implemented")
  else
  do! condition1 <- deref instruction.(d_condition);
  conditionalMoveGuestRegister_reg destination.(ro_reg) source.(ro_reg) condition1 (if destination.(ro_width) =? 32
      then I32 else I64) instruction.(d_address).

(** [CmovccRegMem]. *)
Definition lowerCmovccRegMem (instruction : DecodedInstruction) : M Block unit :=
  if negb (zlength instruction.(d_operands) =? 2) || absent instruction.(d_condition) then
    throw (runtime_error "internal decoder error: memory cmovcc operand")
  else
  do! destination <- register_at instruction 0;
  do! memory <- memory_at instruction 1;
  if negb (destination.(ro_width) =? memory.(mem_width)) || (negb (destination.(ro_width) =? 32) && negb
      (destination.(ro_width) =? 64)) || (memory.(mem_ripRelative) && memory.(mem_hasBase)) then
    throw (runtime_error "invalid 32-bit or 64-bit memory CMOV operand")
  else
  do! address <- (if memory.(mem_ripRelative) then constant (u64 (instruction.(d_address) +
      instruction.(d_length))) I64 instruction.(d_address) else (if memory.(mem_hasBase) then readGuestRegister
      memory.(mem_base) I64 instruction.(d_address) else constant 0 I64 instruction.(d_address)));
  do! address <- (match memory.(mem_index) with
  | Some indexRegister =>
      do! index <- readGuestRegister indexRegister I64 instruction.(d_address);
      do! index <- (if negb (memory.(mem_scale) =? 1) then
          shiftLeft_imm index (u8 (countr_zero8 memory.(mem_scale))) I64 instruction.(d_address)
      else
          ret index);
      add address index I64 instruction.(d_address)
  | None =>
      ret address
  end);
  do! address <- (if negb (memory.(mem_displacement) =? 0) then
      do! displacement <- constant (u64 memory.(mem_displacement)) I64 instruction.(d_address);
      add address displacement I64 instruction.(d_address)
  else
      ret address);
  do! source <- loadGuest address (if destination.(ro_width) =? 32 then I32 else I64) instruction.(d_address);
  do! condition1 <- deref instruction.(d_condition);
  conditionalMoveGuestRegister_value destination.(ro_reg) source condition1 (if destination.(ro_width) =? 32 then
      I32 else I64) instruction.(d_address).

(** [Push]. *)
Definition lowerPush (instruction : DecodedInstruction) : M Block unit :=
  if negb (zlength instruction.(d_operands) =? 1) then
    throw (runtime_error "internal decoder error: push operand count")
  else
  do! operand1 <- operand_at instruction 0;
  do! value <- (if holds_immediate operand1 then
      do! immediate1 <- immediate_at instruction 0;
      constant immediate1.(io_value) I64 instruction.(d_address)
  else
      do! operand2 <- operand_at instruction 0;
      (if holds_register operand2 then
          do! register1 <- register_at instruction 0;
          readGuestRegister register1.(ro_reg) I64 instruction.(d_address)
      else
          do! memory <- memory_at instruction 0;
          do! address <- readGuestRegister memory.(mem_base) I64 instruction.(d_address);
          do! address <- (match memory.(mem_index) with
          | Some indexRegister =>
              do! index <- readGuestRegister indexRegister I64 instruction.(d_address);
              do! index <- (if negb (memory.(mem_scale) =? 1) then
                  do! scale <- constant memory.(mem_scale) I64 instruction.(d_address);
                  multiplyLow index scale I64 instruction.(d_address)
              else
                  ret index);
              add address index I64 instruction.(d_address)
          | None =>
              ret address
          end);
          do! address <- (if negb (memory.(mem_displacement) =? 0) then
              do! displacement <- constant (u64 memory.(mem_displacement)) I64 instruction.(d_address);
              add address displacement I64 instruction.(d_address)
          else
              ret address);
          loadGuest address I64 instruction.(d_address)));
  do! stackPointer <- readGuestRegister Rsp I64 instruction.(d_address);
  do! eight <- constant 8 I64 instruction.(d_address);
  do! newStackPointer <- sub stackPointer eight I64 instruction.(d_address);
  push newStackPointer value I64 instruction.(d_address).

(** [Pop]. *)
Definition lowerPop (instruction : DecodedInstruction) : M Block unit :=
  if negb (zlength instruction.(d_operands) =? 1) then
    throw (runtime_error "internal decoder error: pop operand count")
  else
  do! destination <- register_at instruction 0;
  do! address <- readGuestRegister Rsp I64 instruction.(d_address);
  do! value <- loadGuest address I64 instruction.(d_address);
  do! stackPointer <- readGuestRegister Rsp I64 instruction.(d_address);
  do! eight <- constant 8 I64 instruction.(d_address);
  do! newStackPointer <- add stackPointer eight I64 instruction.(d_address);
  writeGuestRegister Rsp newStackPointer I64 instruction.(d_address) ;;;
  writeGuestRegister destination.(ro_reg) value I64 instruction.(d_address).

(** [Leave]. *)
Definition lowerLeave (instruction : DecodedInstruction) : M Block unit :=
  if negb (zlength instruction.(d_operands) =? 0) then
    throw (runtime_error "internal decoder error: LEAVE has operands")
  else
  do! framePointer <- readGuestRegister Rbp I64 instruction.(d_address);
  writeGuestRegister Rsp framePointer I64 instruction.(d_address) ;;;
  do! savedFrame <- loadGuest framePointer I64 instruction.(d_address);
  do! stackPointer <- readGuestRegister Rsp I64 instruction.(d_address);
  do! eight <- constant 8 I64 instruction.(d_address);
  do! newStackPointer <- add stackPointer eight I64 instruction.(d_address);
  writeGuestRegister Rsp newStackPointer I64 instruction.(d_address) ;;;
  writeGuestRegister Rbp savedFrame I64 instruction.(d_address).
