(* ===== verification/LowerArithmetic.v ===== *)
(** Lowering, addition, subtraction, increments, negation, multiplication, division and CMP ([src/x86/Lowering.cpp]): one definition for each case of
    the switch of [x86::lowerToIr], named after its first label. *)
From S2P Require Import Prelude X86State IR IRBuilder IRVerify X86Instruction DecodeBase LoweringBase.

(** [AddRegImm]. *)
Definition lowerAddRegImm (instruction : DecodedInstruction) : M Block unit :=
  if negb (zlength instruction.(d_operands) =? 2) then
    throw (runtime_error "internal decoder error: add operand count")
  else
  do! reg <- register_at instruction 0;
  do! immediate <- immediate_at instruction 1;
  if negb (reg.(ro_width) =? 8) && negb (reg.(ro_width) =? 32) && negb (reg.(ro_width) =? 64) then
    throw (runtime_error "only 8-bit, 32-bit, and 64-bit immediate ADD are implemented")
  else
  let width := if reg.(ro_width) =? 8 then I8 else if reg.(ro_width) =? 32 then I32 else I64 in
  do! lhs <- readGuestRegister reg.(ro_reg) width instruction.(d_address);
  do! rhs <- constant immediate.(io_value) width instruction.(d_address);
  do! result <- add lhs rhs width instruction.(d_address);
  writeGuestRegister reg.(ro_reg) result width instruction.(d_address) ;;;
  updateAddFlags lhs rhs result width instruction.(d_address).

(** [AdcRegReg]. *)
Definition lowerAdcRegReg (instruction : DecodedInstruction) : M Block unit :=
  if negb (zlength instruction.(d_operands) =? 2) then
    throw (runtime_error "internal decoder error: adc operand count")
  else
  do! destination <- register_at instruction 0;
  do! source <- register_at instruction 1;
  if negb (destination.(ro_width) =? source.(ro_width)) || (negb (destination.(ro_width) =? 32) && negb
      (destination.(ro_width) =? 64)) then
    throw (runtime_error "only ADC r32/r64, r32/r64 is implemented")
  else
  let width := if destination.(ro_width) =? 32 then I32 else I64 in
  do! lhs <- readGuestRegister destination.(ro_reg) width instruction.(d_address);
  do! rhs <- readGuestRegister source.(ro_reg) width instruction.(d_address);
  do! carry <- evaluateCondition Cond_Below instruction.(d_address);
  do! sum <- add lhs rhs width instruction.(d_address);
  do! result <- add sum carry width instruction.(d_address);
  writeGuestRegister destination.(ro_reg) result width instruction.(d_address) ;;;
  updateAdcFlags lhs rhs carry width instruction.(d_address).

(** [AdcRegMem]. *)
Definition lowerAdcRegMem (instruction : DecodedInstruction) : M Block unit :=
  if negb (zlength instruction.(d_operands) =? 2) then
    throw (runtime_error "internal decoder error: adc memory operand count")
  else
  do! destination <- register_at instruction 0;
  do! memory <- memory_at instruction 1;
  if negb (destination.(ro_width) =? memory.(mem_width)) || (negb (destination.(ro_width) =? 32) && negb
      (destination.(ro_width) =? 64)) then
    throw (runtime_error "only ADC r32/r64, m32/m64 is implemented")
  else
  let width := if destination.(ro_width) =? 32 then I32 else I64 in
  do! address <- (if memory.(mem_ripRelative) then constant (u64 (instruction.(d_address) +
      instruction.(d_length))) I64 instruction.(d_address) else readGuestRegister memory.(mem_base) I64
      instruction.(d_address));
  do! address <- (match memory.(mem_index) with
  | Some indexRegister =>
      do! index <- readGuestRegister indexRegister I64 instruction.(d_address);
      do! index <- (if negb (memory.(mem_scale) =? 1) then
          shiftLeft_imm index (u8 (countr_zero8 memory.(mem_scale))) I64 instruction.(d_address)
      else
          ret index);
      add address index I64 instruction.(d_address)
  | None =>
      ret address
  end);
  do! address <- (if negb (memory.(mem_displacement) =? 0) then
      do! displacement <- constant (u64 memory.(mem_displacement)) I64 instruction.(d_address);
      add address displacement I64 instruction.(d_address)
  else
      ret address);
  do! rhs <- loadGuest address width instruction.(d_address);
  do! lhs <- readGuestRegister destination.(ro_reg) width instruction.(d_address);
  do! carry <- evaluateCondition Cond_Below instruction.(d_address);
  do! sum <- add lhs rhs width instruction.(d_address);
  do! result <- add sum carry width instruction.(d_address);
  writeGuestRegister destination.(ro_reg) result width instruction.(d_address) ;;;
  updateAdcFlags lhs rhs carry width instruction.(d_address).

(** [AdcRegImm]. *)
Definition lowerAdcRegImm (instruction : DecodedInstruction) : M Block unit :=
  if negb (zlength instruction.(d_operands) =? 2) then
    throw (runtime_error "internal decoder error: adc operand count")
  else
  do! reg <- register_at instruction 0;
  do! immediate <- immediate_at instruction 1;
  if (negb (reg.(ro_width) =? 8) && negb (reg.(ro_width) =? 32) && negb (reg.(ro_width) =? 64)) || negb
      (reg.(ro_byteOffset) =? 0) || (negb (immediate.(io_width) =? 8) && negb (immediate.(io_width) =? 32)) then
    throw (runtime_error "only ADC r8/r32/r64, imm8/imm32 is implemented")
  else
  let width := if reg.(ro_width) =? 8 then I8 else if reg.(ro_width) =? 32 then I32 else I64 in
  do! lhs <- readGuestRegister reg.(ro_reg) width instruction.(d_address);
  do! rhs <- constant immediate.(io_value) width instruction.(d_address);
  do! carry <- evaluateCondition Cond_Below instruction.(d_address);
  do! sum <- add lhs rhs width instruction.(d_address);
  do! result <- add sum carry width instruction.(d_address);
  writeGuestRegister reg.(ro_reg) result width instruction.(d_address) ;;;
  updateAdcFlags lhs rhs carry width instruction.(d_address).

(** [AddRegReg]. *)
Definition lowerAddRegReg (instruction : DecodedInstruction) : M Block unit :=
  if negb (zlength instruction.(d_operands) =? 2) then
    throw (runtime_error "internal decoder error: register add operand count")
  else
  do! destination <- register_at instruction 0;
  do! source <- register_at instruction 1;
  if negb (destination.(ro_width) =? source.(ro_width)) || (negb (destination.(ro_width) =? 8) && negb
      (destination.(ro_width) =? 16) && negb (destination.(ro_width) =? 32) && negb (destination.(ro_width) =? 64))
      then
    throw (runtime_error "only 8-, 16-, 32-, and 64-bit register ADD are implemented")
  else
  let width := if destination.(ro_width) =? 8 then I8 else if destination.(ro_width) =? 16 then I16 else if
      destination.(ro_width) =? 32 then I32 else I64 in
  do! lhs <- readGuestRegister destination.(ro_reg) width instruction.(d_address);
  do! rhs <- readGuestRegister source.(ro_reg) width instruction.(d_address);
  do! result <- add lhs rhs width instruction.(d_address);
  writeGuestRegister destination.(ro_reg) result width instruction.(d_address) ;;;
  updateAddFlags lhs rhs result width instruction.(d_address).

(** [AddRegMem]. *)
Definition lowerAddRegMem (instruction : DecodedInstruction) : M Block unit :=
  if negb (zlength instruction.(d_operands) =? 2) then
    throw (runtime_error "internal decoder error: add memory operand count")
  else
  do! destination <- register_at instruction 0;
  do! memory <- memory_at instruction 1;
  if negb (destination.(ro_width) =? memory.(mem_width)) || (negb (destination.(ro_width) =? 8) && negb
      (destination.(ro_width) =? 16) && negb (destination.(ro_width) =? 32) && negb (destination.(ro_width) =? 64))
      then
    throw (runtime_error "only 8-bit, 16-bit, 32-bit, and 64-bit register-memory ADD are implemented")
  else
  do! address <- (if memory.(mem_ripRelative) then constant (u64 (instruction.(d_address) +
      instruction.(d_length))) I64 instruction.(d_address) else readGuestRegister memory.(mem_base) I64
      instruction.(d_address));
  do! address <- (match memory.(mem_index) with
  | Some indexRegister =>
      do! index <- readGuestRegister indexRegister I64 instruction.(d_address);
      do! index <- (if negb (memory.(mem_scale) =? 1) then
          shiftLeft_imm index (u8 (countr_zero8 memory.(mem_scale))) I64 instruction.(d_address)
      else
          ret index);
      add address index I64 instruction.(d_address)
  | None =>
      ret address
  end);
  do! address <- (if negb (memory.(mem_displacement) =? 0) then
      do! displacement <- constant (u64 memory.(mem_displacement)) I64 instruction.(d_address);
      add address displacement I64 instruction.(d_address)
  else
      ret address);
  let width := if destination.(ro_width) =? 8 then I8 else if destination.(ro_width) =? 16 then I16 else if
      destination.(ro_width) =? 32 then I32 else I64 in
  do! rhs <- loadGuest address width instruction.(d_address);
  do! lhs <- readGuestRegister destination.(ro_reg) width instruction.(d_address);
  do! result <- add lhs rhs width instruction.(d_address);
  writeGuestRegister destination.(ro_reg) result width instruction.(d_address) ;;;
  updateAddFlags lhs rhs result width instruction.(d_address).

(** [AddMemReg]. *)
Definition lowerAddMemReg (instruction : DecodedInstruction) : M Block unit :=
  if negb (zlength instruction.(d_operands) =? 2) then
    throw (runtime_error "internal decoder error: memory-destination add operand count")
  else
  do! memory <- memory_at instruction 0;
  do! source <- register_at instruction 1;
  if negb (memory.(mem_width) =? source.(ro_width)) || (negb (memory.(mem_width) =? 8) && negb (memory.(mem_width)
      =? 16) && negb (memory.(mem_width) =? 32) && negb (memory.(mem_width) =? 64)) then
    throw (runtime_error "only matching 8-, 16-, 32- and 64-bit memory-destination ADD is implemented")
  else
  let width := if memory.(mem_width) =? 8 then I8 else if memory.(mem_width) =? 16 then I16 else if
      memory.(mem_width) =? 32 then I32 else I64 in
  do! address <- (if memory.(mem_ripRelative) then constant (u64 (instruction.(d_address) +
      instruction.(d_length))) I64 instruction.(d_address) else (if memory.(mem_hasBase) then readGuestRegister
      memory.(mem_base) I64 instruction.(d_address) else constant 0 I64 instruction.(d_address)));
  do! address <- (match memory.(mem_index) with
  | Some indexRegister =>
      do! index <- readGuestRegister indexRegister I64 instruction.(d_address);
      do! index <- (if negb (memory.(mem_scale) =? 1) then
          shiftLeft_imm index (u8 (countr_zero8 memory.(mem_scale))) I64 instruction.(d_address)
      else
          ret index);
      add address index I64 instruction.(d_address)
  | None =>
      ret address
  end);
  do! address <- (if negb (memory.(mem_displacement) =? 0) then
      do! displacement <- constant (u64 memory.(mem_displacement)) I64 instruction.(d_address);
      add address displacement I64 instruction.(d_address)
  else
      ret address);
  do! sourceValue <- readGuestRegister source.(ro_reg) width instruction.(d_address);
  addGuestMemory address sourceValue width instruction.(d_address).

(** [AddMemImm]. *)
Definition lowerAddMemImm (instruction : DecodedInstruction) : M Block unit :=
  if negb (zlength instruction.(d_operands) =? 2) then
    throw (runtime_error "internal decoder error: memory immediate add operand count")
  else
  do! memory <- memory_at instruction 0;
  do! immediate <- immediate_at instruction 1;
  if negb (memory.(mem_width) =? 32) && negb (memory.(mem_width) =? 64) then
    throw (runtime_error "only 32- and 64-bit memory-destination short ADD is implemented")
  else
  if negb (immediate.(io_width) =? 8) then
    throw (runtime_error "only imm8 memory-destination short ADD is implemented")
  else
  let width := if memory.(mem_width) =? 32 then I32 else I64 in
  do! address <- (if memory.(mem_ripRelative) then constant (u64 (instruction.(d_address) +
      instruction.(d_length))) I64 instruction.(d_address) else (if memory.(mem_hasBase) then readGuestRegister
      memory.(mem_base) I64 instruction.(d_address) else constant 0 I64 instruction.(d_address)));
  do! address <- (if negb (memory.(mem_displacement) =? 0) then
      do! displacement <- constant (u64 memory.(mem_displacement)) I64 instruction.(d_address);
      add address displacement I64 instruction.(d_address)
  else
      ret address);
  do! sourceValue <- constant immediate.(io_value) width instruction.(d_address);
  addGuestMemory address sourceValue width instruction.(d_address).

(** [SubMemImm]. *)
Definition lowerSubMemImm (instruction : DecodedInstruction) : M Block unit :=
  if negb (zlength instruction.(d_operands) =? 2) then
    throw (runtime_error "internal decoder error: memory immediate sub operand count")
  else
  do! memory <- memory_at instruction 0;
  do! immediate <- immediate_at instruction 1;
  if negb (memory.(mem_width) =? 32) && negb (memory.(mem_width) =? 64) then
    throw (runtime_error "only 32- and 64-bit memory-destination SUB imm8 is implemented")
  else
  let width := if memory.(mem_width) =? 32 then I32 else I64 in
  do! address <- effectiveAddress memory instruction;
  do! constant1 <- constant immediate.(io_value) width instruction.(d_address);
  subGuestMemory address constant1 width instruction.(d_address).

(** [IncReg]. *)
Definition lowerIncReg (instruction : DecodedInstruction) : M Block unit :=
  if negb (zlength instruction.(d_operands) =? 1) then
    throw (runtime_error "internal decoder error: increment operand count")
  else
  do! destination <- register_at instruction 0;
  let width := if destination.(ro_width) =? 8 then I8 else if destination.(ro_width) =? 16 then I16 else if
      destination.(ro_width) =? 32 then I32 else I64 in
  do! original <- readGuestRegister destination.(ro_reg) width instruction.(d_address);
  do! one <- constant 1 width instruction.(d_address);
  do! result <- add original one width instruction.(d_address);
  do! result <- (if bool_decide (width = I32) then
      do! mask <- constant UINT32_MAX I64 instruction.(d_address);
      bitAnd result mask I64 instruction.(d_address)
  else
      ret result);
  writeGuestRegister destination.(ro_reg) result (if bool_decide (width = I8) || bool_decide (width = I16) then
      width else I64) instruction.(d_address) ;;;
  updateIncFlags original result width instruction.(d_address).

(** [DecReg]. *)
Definition lowerDecReg (instruction : DecodedInstruction) : M Block unit :=
  if negb (zlength instruction.(d_operands) =? 1) then
    throw (runtime_error "internal decoder error: decrement operand count")
  else
  do! destination <- register_at instruction 0;
  let width := if destination.(ro_width) =? 8 then I8 else if destination.(ro_width) =? 16 then I16 else if
      destination.(ro_width) =? 32 then I32 else I64 in
  do! original <- readGuestRegister destination.(ro_reg) width instruction.(d_address);
  do! one <- constant 1 width instruction.(d_address);
  do! result <- sub original one width instruction.(d_address);
  writeGuestRegister destination.(ro_reg) result (if bool_decide (width = I8) || bool_decide (width = I16) then
      width else I64) instruction.(d_address) ;;;
  updateDecFlags original result width instruction.(d_address).

(** [IncMem]. *)
Definition lowerIncMem (instruction : DecodedInstruction) : M Block unit :=
  if negb (zlength instruction.(d_operands) =? 1) then
    throw (runtime_error "internal decoder error: memory increment operand")
  else
  do! memory <- memory_at instruction 0;
  do! address <- (if memory.(mem_ripRelative) then constant (u64 (instruction.(d_address) +
      instruction.(d_length))) I64 instruction.(d_address) else (if memory.(mem_hasBase) then readGuestRegister
      memory.(mem_base) I64 instruction.(d_address) else constant 0 I64 instruction.(d_address)));
  do! address <- (match memory.(mem_index) with
  | Some indexRegister =>
      do! index <- readGuestRegister indexRegister I64 instruction.(d_address);
      do! index <- (if negb (memory.(mem_scale) =? 1) then
          shiftLeft_imm index (u8 (countr_zero8 memory.(mem_scale))) I64 instruction.(d_address)
      else
          ret index);
      add address index I64 instruction.(d_address)
  | None =>
      ret address
  end);
  do! address <- (if negb (memory.(mem_displacement) =? 0) then
      do! displacement <- constant (u64 memory.(mem_displacement)) I64 instruction.(d_address);
      add address displacement I64 instruction.(d_address)
  else
      ret address);
  incrementGuestMemory address (if memory.(mem_width) =? 8 then I8 else if memory.(mem_width) =? 16 then I16 else
      if memory.(mem_width) =? 32 then I32 else I64) instruction.(d_address).

(** [DecMem]. *)
Definition lowerDecMem (instruction : DecodedInstruction) : M Block unit :=
  if negb (zlength instruction.(d_operands) =? 1) then
    throw (runtime_error "internal decoder error: memory decrement operand")
  else
  do! memory <- memory_at instruction 0;
  do! address <- (if memory.(mem_ripRelative) then constant (u64 (instruction.(d_address) +
      instruction.(d_length))) I64 instruction.(d_address) else readGuestRegister memory.(mem_base) I64
      instruction.(d_address));
  do! address <- (match memory.(mem_index) with
  | Some indexRegister =>
      do! index <- readGuestRegister indexRegister I64 instruction.(d_address);
      do! index <- (if negb (memory.(mem_scale) =? 1) then
          shiftLeft_imm index (u8 (countr_zero8 memory.(mem_scale))) I64 instruction.(d_address)
      else
          ret index);
      add address index I64 instruction.(d_address)
  | None =>
      ret address
  end);
  do! address <- (if negb (memory.(mem_displacement) =? 0) then
      do! displacement <- constant (u64 memory.(mem_displacement)) I64 instruction.(d_address);
      add address displacement I64 instruction.(d_address)
  else
      ret address);
  decrementGuestMemory address (if memory.(mem_width) =? 8 then I8 else if memory.(mem_width) =? 16 then I16 else
      if memory.(mem_width) =? 32 then I32 else I64) instruction.(d_address).

(** [SubRegImm]. *)
Definition lowerSubRegImm (instruction : DecodedInstruction) : M Block unit :=
  if negb (zlength instruction.(d_operands) =? 2) then
    throw (runtime_error "internal decoder error: sub operand count")
  else
  do! reg <- register_at instruction 0;
  do! immediate <- immediate_at instruction 1;
  if negb (reg.(ro_width) =? 32) && negb (reg.(ro_width) =? 64) then
    throw (runtime_error "only 32-bit and 64-bit immediate SUB are implemented")
  else
  let width := if reg.(ro_width) =? 32 then I32 else I64 in
  do! lhs <- readGuestRegister reg.(ro_reg) width instruction.(d_address);
  do! rhs <- constant immediate.(io_value) width instruction.(d_address);
  do! result <- sub lhs rhs width instruction.(d_address);
  writeGuestRegister reg.(ro_reg) result width instruction.(d_address) ;;;
  updateSubFlags lhs rhs result width instruction.(d_address).

(** [SbbRegImm]. *)
Definition lowerSbbRegImm (instruction : DecodedInstruction) : M Block unit :=
  if negb (zlength instruction.(d_operands) =? 2) then
    throw (runtime_error "internal decoder error: sbb operand count")
  else
  do! reg <- register_at instruction 0;
  do! immediate <- immediate_at instruction 1;
  if (negb (reg.(ro_width) =? 8) && negb (reg.(ro_width) =? 16) && negb (reg.(ro_width) =? 32) && negb
      (reg.(ro_width) =? 64)) || negb (immediate.(io_width) =? 8) then
    throw (runtime_error "only SBB r8/r16/r32/r64, imm8 is implemented")
  else
  let width := if reg.(ro_width) =? 8 then I8 else if reg.(ro_width) =? 16 then I16 else if reg.(ro_width) =? 32
      then I32 else I64 in
  do! lhs <- readGuestRegister reg.(ro_reg) width instruction.(d_address);
  do! borrow <- evaluateCondition Cond_Below instruction.(d_address);
  do! rhs <- constant immediate.(io_value) width instruction.(d_address);
  do! subtrahend <- add rhs borrow width instruction.(d_address);
  do! result <- sub lhs subtrahend width instruction.(d_address);
  writeGuestRegister reg.(ro_reg) result width instruction.(d_address) ;;;
  updateSbbFlags lhs rhs borrow width instruction.(d_address).

(** [SbbRegReg]. *)
Definition lowerSbbRegReg (instruction : DecodedInstruction) : M Block unit :=
  if negb (zlength instruction.(d_operands) =? 2) then
    throw (runtime_error "internal decoder error: register SBB operand count")
  else
  do! destination <- register_at instruction 0;
  do! source <- register_at instruction 1;
  if negb (bool_decide (destination.(ro_reg) = source.(ro_reg))) || negb (destination.(ro_width) =?
      source.(ro_width)) || (negb (destination.(ro_width) =? 32) && negb (destination.(ro_width) =? 64)) then
    throw (runtime_error "only SBB r32/r64 with identical operands is implemented")
  else
  let width := if destination.(ro_width) =? 32 then I32 else I64 in
  do! borrow <- evaluateCondition Cond_Below instruction.(d_address);
  do! zero <- constant 0 width instruction.(d_address);
  do! result <- sub zero borrow width instruction.(d_address);
  writeGuestRegister destination.(ro_reg) result width instruction.(d_address) ;;;
  updateSubFlags zero borrow result width instruction.(d_address).

(** [SubRegReg]. *)
Definition lowerSubRegReg (instruction : DecodedInstruction) : M Block unit :=
  if negb (zlength instruction.(d_operands) =? 2) then
    throw (runtime_error "internal decoder error: register sub operand count")
  else
  do! destination <- register_at instruction 0;
  do! source <- register_at instruction 1;
  if negb (destination.(ro_width) =? source.(ro_width)) || (negb (destination.(ro_width) =? 8) && negb
      (destination.(ro_width) =? 32) && negb (destination.(ro_width) =? 64)) then
    throw (runtime_error "only matching 8-bit, 32-bit, and 64-bit register SUB are implemented")
  else
  let width := if destination.(ro_width) =? 8 then I8 else if destination.(ro_width) =? 32 then I32 else I64 in
  do! lhs <- readGuestRegister destination.(ro_reg) width instruction.(d_address);
  do! rhs <- readGuestRegister source.(ro_reg) width instruction.(d_address);
  do! result <- sub lhs rhs width instruction.(d_address);
  writeGuestRegister destination.(ro_reg) result width instruction.(d_address) ;;;
  updateSubFlags lhs rhs result width instruction.(d_address).

(** [SubRegMem]. *)
Definition lowerSubRegMem (instruction : DecodedInstruction) : M Block unit :=
  if negb (zlength instruction.(d_operands) =? 2) then
    throw (runtime_error "internal decoder error: sub memory operand count")
  else
  do! destination <- register_at instruction 0;
  do! memory <- memory_at instruction 1;
  do! address <- (if memory.(mem_ripRelative) then constant (u64 (instruction.(d_address) +
      instruction.(d_length))) I64 instruction.(d_address) else readGuestRegister memory.(mem_base) I64
      instruction.(d_address));
  do! address <- (match memory.(mem_index) with
  | Some indexRegister =>
      do! index <- readGuestRegister indexRegister I64 instruction.(d_address);
      do! index <- (if negb (memory.(mem_scale) =? 1) then
          shiftLeft_imm index (u8 (countr_zero8 memory.(mem_scale))) I64 instruction.(d_address)
      else
          ret index);
      add address index I64 instruction.(d_address)
  | None =>
      ret address
  end);
  do! address <- (if negb (memory.(mem_displacement) =? 0) then
      do! displacement <- constant (u64 memory.(mem_displacement)) I64 instruction.(d_address);
      add address displacement I64 instruction.(d_address)
  else
      ret address);
  let width := if destination.(ro_width) =? 32 then I32 else I64 in
  do! rhs <- loadGuest address width instruction.(d_address);
  do! lhs <- readGuestRegister destination.(ro_reg) width instruction.(d_address);
  do! result <- sub lhs rhs width instruction.(d_address);
  writeGuestRegister destination.(ro_reg) result width instruction.(d_address) ;;;
  updateSubFlags lhs rhs result width instruction.(d_address).

(** [SubMemReg]. *)
Definition lowerSubMemReg (instruction : DecodedInstruction) : M Block unit :=
  if negb (zlength instruction.(d_operands) =? 2) then
    throw (runtime_error "internal decoder error: memory-destination SUB operand count")
  else
  do! memory <- memory_at instruction 0;
  do! source <- register_at instruction 1;
  if negb (memory.(mem_width) =? source.(ro_width)) || (negb (memory.(mem_width) =? 8) && negb (memory.(mem_width)
      =? 32) && negb (memory.(mem_width) =? 64)) then
    throw (runtime_error "only matching 8-, 32-, and 64-bit memory-destination SUB is implemented")
  else
  let width := if memory.(mem_width) =? 8 then I8 else if memory.(mem_width) =? 32 then I32 else I64 in
  do! address <- (if memory.(mem_ripRelative) then constant (u64 (instruction.(d_address) +
      instruction.(d_length))) I64 instruction.(d_address) else (if memory.(mem_hasBase) then readGuestRegister
      memory.(mem_base) I64 instruction.(d_address) else constant 0 I64 instruction.(d_address)));
  do! address <- (match memory.(mem_index) with
  | Some indexRegister =>
      do! index <- readGuestRegister indexRegister I64 instruction.(d_address);
      do! index <- (if negb (memory.(mem_scale) =? 1) then
          shiftLeft_imm index (u8 (countr_zero8 memory.(mem_scale))) I64 instruction.(d_address)
      else
          ret index);
      add address index I64 instruction.(d_address)
  | None =>
      ret address
  end);
  do! address <- (if negb (memory.(mem_displacement) =? 0) then
      do! displacement <- constant (u64 memory.(mem_displacement)) I64 instruction.(d_address);
      add address displacement I64 instruction.(d_address)
  else
      ret address);
  do! sourceValue <- readGuestRegister source.(ro_reg) width instruction.(d_address);
  subGuestMemory address sourceValue width instruction.(d_address).

(** [NotReg]. *)
Definition lowerNotReg (instruction : DecodedInstruction) : M Block unit :=
  if negb (zlength instruction.(d_operands) =? 1) then
    throw (runtime_error "internal decoder error: not operand count")
  else
  do! reg <- register_at instruction 0;
  if negb (reg.(ro_width) =? 8) && negb (reg.(ro_width) =? 32) && negb (reg.(ro_width) =? 64) then
    throw (runtime_error "only 8-, 32-, and 64-bit NOT are implemented")
  else
  let width := if reg.(ro_width) =? 8 then I8 else if reg.(ro_width) =? 32 then I32 else I64 in
  let valueWidth := if reg.(ro_width) =? 8 then I64 else width in
  do! original <- readGuestRegister reg.(ro_reg) valueWidth instruction.(d_address);
  do! mask <- constant (if reg.(ro_width) =? 8 then 0xFF else if reg.(ro_width) =? 32 then UINT32_MAX else
      UINT64_MAX) valueWidth instruction.(d_address);
  do! result <- bitXor original mask valueWidth instruction.(d_address);
  writeGuestRegister reg.(ro_reg) result width instruction.(d_address).

(** [NegReg]. *)
Definition lowerNegReg (instruction : DecodedInstruction) : M Block unit :=
  if negb (zlength instruction.(d_operands) =? 1) then
    throw (runtime_error "internal decoder error: neg operand count")
  else
  do! reg <- register_at instruction 0;
  if negb (reg.(ro_width) =? 8) && negb (reg.(ro_width) =? 16) && negb (reg.(ro_width) =? 32) && negb
      (reg.(ro_width) =? 64) then
    throw (runtime_error "only 8-, 16-, 32-, and 64-bit NEG are implemented")
  else
  let width := if reg.(ro_width) =? 8 then I8 else if reg.(ro_width) =? 16 then I16 else if reg.(ro_width) =? 32
      then I32 else I64 in
  do! zero <- constant 0 width instruction.(d_address);
  do! original <- readGuestRegister reg.(ro_reg) width instruction.(d_address);
  do! result <- sub zero original width instruction.(d_address);
  writeGuestRegister reg.(ro_reg) result width instruction.(d_address) ;;;
  updateSubFlags zero original result width instruction.(d_address).

(** [MulReg]. *)
Definition lowerMulReg (instruction : DecodedInstruction) : M Block unit :=
  if negb (zlength instruction.(d_operands) =? 1) then
    throw (runtime_error "internal decoder error: mul operand count")
  else
  do! source <- register_at instruction 0;
  if negb (source.(ro_width) =? 32) && negb (source.(ro_width) =? 64) then
    throw (runtime_error "only unsigned dword and qword MUL are implemented")
  else
  let width := if source.(ro_width) =? 32 then I32 else I64 in
  do! lhs <- readGuestRegister Rax width instruction.(d_address);
  do! rhs <- readGuestRegister source.(ro_reg) width instruction.(d_address);
  (if source.(ro_width) =? 32 then
      do! product <- multiplyLow lhs rhs I64 instruction.(d_address);
      do! high <- shiftRightLogical_imm product 32 I64 instruction.(d_address);
      writeGuestRegister Rax product I32 instruction.(d_address) ;;;
      writeGuestRegister Rdx high I32 instruction.(d_address) ;;;
      updateMultiplyFlags high I32 instruction.(d_address)
  else
      do! low <- multiplyLow lhs rhs I64 instruction.(d_address);
      do! high <- multiplyHighUnsigned lhs rhs I64 instruction.(d_address);
      writeGuestRegister Rax low I64 instruction.(d_address) ;;;
      writeGuestRegister Rdx high I64 instruction.(d_address) ;;;
      updateMultiplyFlags high I64 instruction.(d_address)).

(** [ImulReg]. *)
Definition lowerImulReg (instruction : DecodedInstruction) : M Block unit :=
  if negb (zlength instruction.(d_operands) =? 1) then
    throw (runtime_error "internal decoder error: imul operand count")
  else
  do! source <- register_at instruction 0;
  if negb (source.(ro_width) =? 64) then
    throw (runtime_error "only qword register IMUL is implemented")
  else
  do! lhs <- readGuestRegister Rax I64 instruction.(d_address);
  do! rhs <- readGuestRegister source.(ro_reg) I64 instruction.(d_address);
  do! low <- multiplyLow lhs rhs I64 instruction.(d_address);
  do! high <- multiplyHighSigned lhs rhs I64 instruction.(d_address);
  writeGuestRegister Rax low I64 instruction.(d_address) ;;;
  writeGuestRegister Rdx high I64 instruction.(d_address) ;;;
  updateSignedMultiplyFlags lhs rhs I64 instruction.(d_address).

(** [MulMem]. *)
Definition lowerMulMem (instruction : DecodedInstruction) : M Block unit :=
  do! test1 <- (if negb (zlength instruction.(d_operands) =? 1) then ret true else do! operand1 <- operand_at
      instruction 0; ret (negb (holds_memory operand1)));
  if test1 then
    throw (runtime_error "internal decoder error: memory mul operand count")
  else
  do! memory <- memory_at instruction 0;
  if (negb (memory.(mem_width) =? 32) && negb (memory.(mem_width) =? 64)) || negb memory.(mem_hasBase) ||
      memory.(mem_ripRelative) || present memory.(mem_index) || negb (bool_decide (memory.(mem_segment) =
      Segment_None)) then
    throw (runtime_error "only based dword/qword memory MUL is implemented")
  else
  let width := if memory.(mem_width) =? 32 then I32 else I64 in
  do! address <- readGuestRegister memory.(mem_base) I64 instruction.(d_address);
  do! address <- (if negb (memory.(mem_displacement) =? 0) then
      do! displacement <- constant (u64 memory.(mem_displacement)) I64 instruction.(d_address);
      add address displacement I64 instruction.(d_address)
  else
      ret address);
  do! rhs <- loadGuest address width instruction.(d_address);
  do! lhs <- readGuestRegister Rax width instruction.(d_address);
  (if memory.(mem_width) =? 32 then
      do! product <- multiplyLow lhs rhs I64 instruction.(d_address);
      do! high <- shiftRightLogical_imm product 32 I64 instruction.(d_address);
      writeGuestRegister Rax product I32 instruction.(d_address) ;;;
      writeGuestRegister Rdx high I32 instruction.(d_address) ;;;
      updateMultiplyFlags high I32 instruction.(d_address)
  else
      do! low <- multiplyLow lhs rhs I64 instruction.(d_address);
      do! high <- multiplyHighUnsigned lhs rhs I64 instruction.(d_address);
      writeGuestRegister Rax low I64 instruction.(d_address) ;;;
      writeGuestRegister Rdx high I64 instruction.(d_address) ;;;
      updateMultiplyFlags high I64 instruction.(d_address)).

(** [ImulMem]. *)
Definition lowerImulMem (instruction : DecodedInstruction) : M Block unit :=
  do! test1 <- (if negb (zlength instruction.(d_operands) =? 1) then ret true else do! operand1 <- operand_at
      instruction 0; ret (negb (holds_memory operand1)));
  if test1 then
    throw (runtime_error "internal decoder error: memory imul operand count")
  else
  do! memory <- memory_at instruction 0;
  if negb (memory.(mem_width) =? 64) || negb memory.(mem_hasBase) || memory.(mem_ripRelative) || present
      memory.(mem_index) || negb (bool_decide (memory.(mem_segment) = Segment_None)) then
    throw (runtime_error "only based qword memory IMUL is implemented")
  else
  do! address <- readGuestRegister memory.(mem_base) I64 instruction.(d_address);
  do! address <- (if negb (memory.(mem_displacement) =? 0) then
      do! displacement <- constant (u64 memory.(mem_displacement)) I64 instruction.(d_address);
      add address displacement I64 instruction.(d_address)
  else
      ret address);
  do! rhs <- loadGuest address I64 instruction.(d_address);
  do! lhs <- readGuestRegister Rax I64 instruction.(d_address);
  do! low <- multiplyLow lhs rhs I64 instruction.(d_address);
  do! high <- multiplyHighSigned lhs rhs I64 instruction.(d_address);
  writeGuestRegister Rax low I64 instruction.(d_address) ;;;
  writeGuestRegister Rdx high I64 instruction.(d_address) ;;;
  updateSignedMultiplyFlags lhs rhs I64 instruction.(d_address).

(** [DivReg]. *)
Definition lowerDivReg (instruction : DecodedInstruction) : M Block unit :=
  if negb (zlength instruction.(d_operands) =? 1) then
    throw (runtime_error "internal decoder error: div operand count")
  else
  do! source <- register_at instruction 0;
  if negb (source.(ro_width) =? 8) && negb (source.(ro_width) =? 32) && negb (source.(ro_width) =? 64) then
    throw (runtime_error "only unsigned byte, dword, and qword register DIV are implemented")
  else
  do! divisor <- readGuestRegister source.(ro_reg) (if source.(ro_width) =? 8 then I8 else if source.(ro_width) =?
      32 then I32 else I64) instruction.(d_address);
  (if source.(ro_width) =? 8 then
      divideUnsignedByte divisor instruction.(d_address)
  else
      (if source.(ro_width) =? 32 then
          divideUnsignedDword divisor instruction.(d_address)
      else
          divideUnsignedQword divisor instruction.(d_address))).

(** [DivMem]. *)
Definition lowerDivMem (instruction : DecodedInstruction) : M Block unit :=
  do! test1 <- (if negb (zlength instruction.(d_operands) =? 1) then ret true else do! operand1 <- operand_at
      instruction 0; ret (negb (holds_memory operand1)));
  if test1 then
    throw (runtime_error "internal decoder error: memory div operand count")
  else
  do! memory <- memory_at instruction 0;
  if (negb (memory.(mem_width) =? 32) && negb (memory.(mem_width) =? 64)) || negb memory.(mem_hasBase) ||
      memory.(mem_ripRelative) || present memory.(mem_index) || negb (bool_decide (memory.(mem_segment) =
      Segment_None)) then
    throw (runtime_error "only based dword and qword memory DIV is implemented")
  else
  do! address <- readGuestRegister memory.(mem_base) I64 instruction.(d_address);
  do! address <- (if negb (memory.(mem_displacement) =? 0) then
      do! displacement <- constant (u64 memory.(mem_displacement)) I64 instruction.(d_address);
      add address displacement I64 instruction.(d_address)
  else
      ret address);
  (if memory.(mem_width) =? 64 then
      do! divisor <- loadGuest address I64 instruction.(d_address);
      divideUnsignedQword divisor instruction.(d_address)
  else
      do! divisor <- loadGuest address I32 instruction.(d_address);
      divideUnsignedDword divisor instruction.(d_address)).

(** [IdivReg]. *)
Definition lowerIdivReg (instruction : DecodedInstruction) : M Block unit :=
  if negb (zlength instruction.(d_operands) =? 1) then
    throw (runtime_error "internal decoder error: idiv operand count")
  else
  do! source <- register_at instruction 0;
  if negb (source.(ro_width) =? 32) then
    throw (runtime_error "only signed dword register IDIV is implemented")
  else
  do! divisor <- readGuestRegister source.(ro_reg) I32 instruction.(d_address);
  divideSignedDword divisor instruction.(d_address).

(** [ImulRegReg]. *)
Definition lowerImulRegReg (instruction : DecodedInstruction) : M Block unit :=
  if negb (zlength instruction.(d_operands) =? 2) then
    throw (runtime_error "internal decoder error: imul operand count")
  else
  do! destination <- register_at instruction 0;
  do! source <- register_at instruction 1;
  if negb (destination.(ro_width) =? source.(ro_width)) || (negb (destination.(ro_width) =? 32) && negb
      (destination.(ro_width) =? 64)) then
    throw (runtime_error "only matching 32-bit and 64-bit register IMUL are implemented")
  else
  let width := if destination.(ro_width) =? 32 then I32 else I64 in
  do! lhs <- readGuestRegister destination.(ro_reg) width instruction.(d_address);
  do! rhs <- readGuestRegister source.(ro_reg) width instruction.(d_address);
  do! result <- multiplyLow lhs rhs width instruction.(d_address);
  writeGuestRegister destination.(ro_reg) result width instruction.(d_address) ;;;
  updateSignedMultiplyFlags lhs rhs width instruction.(d_address).

(** [ImulRegMem]. *)
Definition lowerImulRegMem (instruction : DecodedInstruction) : M Block unit :=
  if negb (zlength instruction.(d_operands) =? 2) then
    throw (runtime_error "internal decoder error: IMUL memory operand count")
  else
  do! destination <- register_at instruction 0;
  do! memory <- memory_at instruction 1;
  if (negb (destination.(ro_width) =? 32) && negb (destination.(ro_width) =? 64)) || (negb (memory.(mem_width) =?
      32) && negb (memory.(mem_width) =? 64)) || ((memory.(mem_width) =? 32) && negb (destination.(ro_width) =?
      32)) || (if memory.(mem_ripRelative) then memory.(mem_hasBase) || present memory.(mem_index) else negb
      memory.(mem_hasBase)) then
    throw (runtime_error "only 32-bit and 64-bit register-from-memory IMUL are implemented")
  else
  let width := if (destination.(ro_width) =? 32) && (memory.(mem_width) =? 32) then I32 else I64 in
  do! address <- (if memory.(mem_ripRelative) then constant (u64 (instruction.(d_address) +
      instruction.(d_length))) I64 instruction.(d_address) else readGuestRegister memory.(mem_base) I64
      instruction.(d_address));
  do! address <- (match memory.(mem_index) with
  | Some indexRegister =>
      do! index <- readGuestRegister indexRegister I64 instruction.(d_address);
      do! index <- (if negb (memory.(mem_scale) =? 1) then
          shiftLeft_imm index (u8 (countr_zero8 memory.(mem_scale))) I64 instruction.(d_address)
      else
          ret index);
      add address index I64 instruction.(d_address)
  | None =>
      ret address
  end);
  do! address <- (if negb (memory.(mem_displacement) =? 0) then
      do! displacement <- constant (u64 memory.(mem_displacement)) I64 instruction.(d_address);
      add address displacement I64 instruction.(d_address)
  else
      ret address);
  do! rhs <- loadGuest address width instruction.(d_address);
  do! lhs <- readGuestRegister destination.(ro_reg) width instruction.(d_address);
  do! result <- multiplyLow lhs rhs width instruction.(d_address);
  writeGuestRegister destination.(ro_reg) result width instruction.(d_address) ;;;
  updateSignedMultiplyFlags lhs rhs width instruction.(d_address).

(** [ImulRegRegImm]. *)
Definition lowerImulRegRegImm (instruction : DecodedInstruction) : M Block unit :=
  if negb (zlength instruction.(d_operands) =? 3) then
    throw (runtime_error "internal decoder error: immediate imul operand count")
  else
  do! destination <- register_at instruction 0;
  do! source <- register_at instruction 1;
  do! immediate <- immediate_at instruction 2;
  if negb (destination.(ro_width) =? source.(ro_width)) || (negb (destination.(ro_width) =? 32) && negb
      (destination.(ro_width) =? 64)) then
    throw (runtime_error "only matching 32-bit and 64-bit immediate IMUL are implemented")
  else
  let width := if destination.(ro_width) =? 32 then I32 else I64 in
  do! lhs <- readGuestRegister source.(ro_reg) width instruction.(d_address);
  do! rhs <- constant immediate.(io_value) width instruction.(d_address);
  do! result <- multiplyLow lhs rhs width instruction.(d_address);
  writeGuestRegister destination.(ro_reg) result width instruction.(d_address) ;;;
  updateSignedMultiplyFlags lhs rhs width instruction.(d_address).

(** [ImulRegMemImm]. *)
Definition lowerImulRegMemImm (instruction : DecodedInstruction) : M Block unit :=
  if negb (zlength instruction.(d_operands) =? 3) then
    throw (runtime_error "internal decoder error: memory immediate IMUL operand count")
  else
  do! destination <- register_at instruction 0;
  do! memory <- memory_at instruction 1;
  do! immediate <- immediate_at instruction 2;
  if negb (destination.(ro_width) =? memory.(mem_width)) || (negb (destination.(ro_width) =? 32) && negb
      (destination.(ro_width) =? 64)) || present memory.(mem_index) || negb (bool_decide (memory.(mem_segment) =
      Segment_None)) then
    throw (runtime_error "unsupported memory immediate IMUL operand shape")
  else
  let width := if destination.(ro_width) =? 32 then I32 else I64 in
  do! address <- (if memory.(mem_ripRelative) then constant (u64 (instruction.(d_address) +
      instruction.(d_length))) I64 instruction.(d_address) else readGuestRegister memory.(mem_base) I64
      instruction.(d_address));
  do! address <- (if negb (memory.(mem_displacement) =? 0) then
      do! displacement <- constant (u64 memory.(mem_displacement)) I64 instruction.(d_address);
      add address displacement I64 instruction.(d_address)
  else
      ret address);
  do! lhs <- loadGuest address width instruction.(d_address);
  do! rhs <- constant immediate.(io_value) width instruction.(d_address);
  do! result <- multiplyLow lhs rhs width instruction.(d_address);
  writeGuestRegister destination.(ro_reg) result width instruction.(d_address) ;;;
  updateSignedMultiplyFlags lhs rhs width instruction.(d_address).

(** [CmpRegImm]. *)
Definition lowerCmpRegImm (instruction : DecodedInstruction) : M Block unit :=
  if negb (zlength instruction.(d_operands) =? 2) then
    throw (runtime_error "internal decoder error: cmp operand count")
  else
  do! reg <- register_at instruction 0;
  do! immediate <- immediate_at instruction 1;
  if (1 <? reg.(ro_byteOffset)) || ((reg.(ro_byteOffset) =? 1) && negb (reg.(ro_width) =? 8)) then
    throw (runtime_error "invalid byte-lane CMP register")
  else
  let width := if reg.(ro_width) =? 8 then I8 else if reg.(ro_width) =? 16 then I16 else if reg.(ro_width) =? 32
      then I32 else I64 in
  let lhs := 0 in
  do! lhs <- (if reg.(ro_byteOffset) =? 0 then
      readGuestRegister reg.(ro_reg) width instruction.(d_address)
  else
      do! parent <- readGuestRegister reg.(ro_reg) I64 instruction.(d_address);
      do! shifted <- shiftRightLogical_imm parent 8 I64 instruction.(d_address);
      do! laneMask <- constant 0xFF I64 instruction.(d_address);
      bitAnd shifted laneMask I64 instruction.(d_address));
  do! rhs <- (if reg.(ro_byteOffset) =? 0 then constant immediate.(io_value) width instruction.(d_address) else
      constant immediate.(io_value) I64 instruction.(d_address));
  do! result <- (if reg.(ro_byteOffset) =? 0 then sub lhs rhs width instruction.(d_address) else sub lhs rhs I64
      instruction.(d_address));
  updateSubFlags lhs rhs result (if reg.(ro_byteOffset) =? 0 then width else I8) instruction.(d_address).

(** [CmpRegReg]. *)
Definition lowerCmpRegReg (instruction : DecodedInstruction) : M Block unit :=
  if negb (zlength instruction.(d_operands) =? 2) then
    throw (runtime_error "internal decoder error: register cmp operand count")
  else
  do! lhsRegister <- register_at instruction 0;
  do! rhsRegister <- register_at instruction 1;
  if negb (lhsRegister.(ro_width) =? rhsRegister.(ro_width)) || (negb (lhsRegister.(ro_width) =? 8) && negb
      (lhsRegister.(ro_width) =? 16) && negb (lhsRegister.(ro_width) =? 32) && negb (lhsRegister.(ro_width) =? 64))
      then
    throw (runtime_error "only matching 8-bit, 16-bit, 32-bit, and 64-bit register CMP are implemented")
  else
  let width := if lhsRegister.(ro_width) =? 8 then I8 else if lhsRegister.(ro_width) =? 16 then I16 else if
      lhsRegister.(ro_width) =? 32 then I32 else I64 in
  do! lhs <- readGuestRegister lhsRegister.(ro_reg) width instruction.(d_address);
  do! rhs <- readGuestRegister rhsRegister.(ro_reg) width instruction.(d_address);
  do! result <- sub lhs rhs width instruction.(d_address);
  updateSubFlags lhs rhs result width instruction.(d_address).

(** [CmpRegMem]. *)
Definition lowerCmpRegMem (instruction : DecodedInstruction) : M Block unit :=
  if negb (zlength instruction.(d_operands) =? 2) then
    throw (runtime_error "internal decoder error: cmp memory operand count")
  else
  do! lhsRegister <- register_at instruction 0;
  do! memory <- memory_at instruction 1;
  let width := if lhsRegister.(ro_width) =? 8 then I8 else if lhsRegister.(ro_width) =? 16 then I16 else if
      lhsRegister.(ro_width) =? 32 then I32 else I64 in
  do! address <- (if memory.(mem_ripRelative) then constant (u64 (instruction.(d_address) +
      instruction.(d_length))) I64 instruction.(d_address) else (if memory.(mem_hasBase) then readGuestRegister
      memory.(mem_base) I64 instruction.(d_address) else constant 0 I64 instruction.(d_address)));
  do! address <- (match memory.(mem_index) with
  | Some indexRegister =>
      do! index <- readGuestRegister indexRegister I64 instruction.(d_address);
      do! index <- (if negb (memory.(mem_scale) =? 1) then
          shiftLeft_imm index (u8 (countr_zero8 memory.(mem_scale))) I64 instruction.(d_address)
      else
          ret index);
      add address index I64 instruction.(d_address)
  | None =>
      ret address
  end);
  do! address <- (if negb (memory.(mem_displacement) =? 0) then
      do! displacement <- constant (u64 memory.(mem_displacement)) I64 instruction.(d_address);
      add address displacement I64 instruction.(d_address)
  else
      ret address);
  do! address <- (if bool_decide (memory.(mem_segment) = Segment_Gs) then
      do! gsBase <- readGuestGsBase instruction.(d_address);
      add gsBase address I64 instruction.(d_address)
  else
      ret address);
  do! rhs <- loadGuest address width instruction.(d_address);
  do! lhs <- readGuestRegister lhsRegister.(ro_reg) width instruction.(d_address);
  do! result <- sub lhs rhs width instruction.(d_address);
  updateSubFlags lhs rhs result width instruction.(d_address).

(** [CmpMemReg]. *)
Definition lowerCmpMemReg (instruction : DecodedInstruction) : M Block unit :=
  if negb (zlength instruction.(d_operands) =? 2) then
    throw (runtime_error "internal decoder error: cmp memory-register operand count")
  else
  do! memory <- memory_at instruction 0;
  do! rhsRegister <- register_at instruction 1;
  if negb (memory.(mem_width) =? rhsRegister.(ro_width)) || (negb (memory.(mem_width) =? 8) && negb
      (memory.(mem_width) =? 16) && negb (memory.(mem_width) =? 32) && negb (memory.(mem_width) =? 64)) then
    throw (runtime_error "only matching 8-bit, 16-bit, 32-bit, and 64-bit memory-register CMP are implemented")
  else
  let width := if memory.(mem_width) =? 8 then I8 else if memory.(mem_width) =? 16 then I16 else if
      memory.(mem_width) =? 32 then I32 else I64 in
  do! address <- (if memory.(mem_ripRelative) then constant (u64 (instruction.(d_address) +
      instruction.(d_length))) I64 instruction.(d_address) else (if memory.(mem_hasBase) then readGuestRegister
      memory.(mem_base) I64 instruction.(d_address) else constant 0 I64 instruction.(d_address)));
  do! address <- (match memory.(mem_index) with
  | Some indexRegister =>
      do! index <- readGuestRegister indexRegister I64 instruction.(d_address);
      do! index <- (if negb (memory.(mem_scale) =? 1) then
          shiftLeft_imm index (u8 (countr_zero8 memory.(mem_scale))) I64 instruction.(d_address)
      else
          ret index);
      add address index I64 instruction.(d_address)
  | None =>
      ret address
  end);
  do! address <- (if negb (memory.(mem_displacement) =? 0) then
      do! displacement <- constant (u64 memory.(mem_displacement)) I64 instruction.(d_address);
      add address displacement I64 instruction.(d_address)
  else
      ret address);
  do! address <- (if bool_decide (memory.(mem_segment) = Segment_Gs) then
      do! gsBase <- readGuestGsBase instruction.(d_address);
      add gsBase address I64 instruction.(d_address)
  else
      ret address);
  do! lhs <- loadGuest address width instruction.(d_address);
  do! rhs <- readGuestRegister rhsRegister.(ro_reg) width instruction.(d_address);
  do! result <- sub lhs rhs width instruction.(d_address);
  updateSubFlags lhs rhs result width instruction.(d_address).

(** [CmpMemImm]. *)
Definition lowerCmpMemImm (instruction : DecodedInstruction) : M Block unit :=
  if negb (zlength instruction.(d_operands) =? 2) then
    throw (runtime_error "internal decoder error: cmp memory immediate count")
  else
  do! memory <- memory_at instruction 0;
  do! immediate <- immediate_at instruction 1;
  do! address <- (if memory.(mem_ripRelative) then constant (u64 (instruction.(d_address) +
      instruction.(d_length))) I64 instruction.(d_address) else readGuestRegister memory.(mem_base) I64
      instruction.(d_address));
  do! address <- (match memory.(mem_index) with
  | Some indexRegister =>
      do! index <- readGuestRegister indexRegister I64 instruction.(d_address);
      do! index <- (if negb (memory.(mem_scale) =? 1) then
          shiftLeft_imm index (u8 (countr_zero8 memory.(mem_scale))) I64 instruction.(d_address)
      else
          ret index);
      add address index I64 instruction.(d_address)
  | None =>
      ret address
  end);
  do! address <- (if negb (memory.(mem_displacement) =? 0) then
      do! displacement <- constant (u64 memory.(mem_displacement)) I64 instruction.(d_address);
      add address displacement I64 instruction.(d_address)
  else
      ret address);
  let width := if memory.(mem_width) =? 8 then I8 else if memory.(mem_width) =? 16 then I16 else if
      memory.(mem_width) =? 32 then I32 else I64 in
  do! lhs <- loadGuest address width instruction.(d_address);
  do! rhs <- constant immediate.(io_value) width instruction.(d_address);
  do! result <- sub lhs rhs width instruction.(d_address);
  updateSubFlags lhs rhs result width instruction.(d_address).
