(* ===== verification/LowerAtomic.v ===== *)
(** Lowering, exchanges and the LOCK prefix ([src/x86/Lowering.cpp]): one definition for each case of
    the switch of [x86::lowerToIr], named after its first label. *)
From S2P Require Import Prelude X86State IR IRBuilder IRVerify X86Instruction DecodeBase LoweringBase.

(** [LockBtsMemImm]. *)
Definition lowerLockBtsMemImm (instruction : DecodedInstruction) : M Block unit :=
  if negb (zlength instruction.(d_operands) =? 2) then
    throw (runtime_error "internal decoder error: LOCK BTS operand count")
  else
  do! memory <- memory_at instruction 0;
  do! bitIndex <- immediate_at instruction 1;
  if (negb (memory.(mem_width) =? 32) && negb (memory.(mem_width) =? 64)) || negb (bitIndex.(io_width) =? 8) then
    throw (runtime_error "only LOCK BTS dword/qword [base/index+disp], imm8 is implemented")
  else
  let width := if memory.(mem_width) =? 32 then I32 else I64 in
  do! address <- (if memory.(mem_ripRelative) then constant (u64 (instruction.(d_address) +
      instruction.(d_length))) I64 instruction.(d_address) else (if memory.(mem_hasBase) then readGuestRegister
      memory.(mem_base) I64 instruction.(d_address) else constant 0 I64 instruction.(d_address)));
  do! address <- (match memory.(mem_index) with
  | Some indexRegister =>
      do! index <- readGuestRegister indexRegister I64 instruction.(d_address);
      do! index <- (if negb (memory.(mem_scale) =? 1) then
          shiftLeft_imm index (u8 (countr_zero8 memory.(mem_scale))) I64 instruction.(d_address)
      else
          ret index);
      add address index I64 instruction.(d_address)
  | None =>
      ret address
  end);
  do! address <- (if negb (memory.(mem_displacement) =? 0) then
      do! displacement <- constant (u64 memory.(mem_displacement)) I64 instruction.(d_address);
      add address displacement I64 instruction.(d_address)
  else
      ret address);
  lockedBitSetGuestMemory address (u8 bitIndex.(io_value)) width instruction.(d_address).

(** [CmpxchgMemReg]. *)
Definition lowerCmpxchgMemReg (instruction : DecodedInstruction) : M Block unit :=
  if negb (zlength instruction.(d_operands) =? 2) then
    throw (runtime_error "internal decoder error: cmpxchg memory operand count")
  else
  do! memory <- memory_at instruction 0;
  do! source <- register_at instruction 1;
  if negb (memory.(mem_width) =? source.(ro_width)) || (negb (memory.(mem_width) =? 8) && negb (memory.(mem_width)
      =? 32) && negb (memory.(mem_width) =? 64)) || (negb (source.(ro_byteOffset) =? 0) && (negb (source.(ro_width)
      =? 8) || negb (source.(ro_byteOffset) =? 1))) then
    throw (runtime_error "only 8-, 32-, and 64-bit guest-memory CMPXCHG are implemented")
  else
  do! address <- (if memory.(mem_ripRelative) then constant (u64 (instruction.(d_address) +
      instruction.(d_length))) I64 instruction.(d_address) else (if memory.(mem_hasBase) then readGuestRegister
      memory.(mem_base) I64 instruction.(d_address) else constant 0 I64 instruction.(d_address)));
  do! address <- (match memory.(mem_index) with
  | Some indexRegister =>
      do! index <- readGuestRegister indexRegister I64 instruction.(d_address);
      do! index <- (if negb (memory.(mem_scale) =? 1) then
          shiftLeft_imm index (u8 (countr_zero8 memory.(mem_scale))) I64 instruction.(d_address)
      else
          ret index);
      add address index I64 instruction.(d_address)
  | None =>
      ret address
  end);
  do! address <- (if negb (memory.(mem_displacement) =? 0) then
      do! displacement <- constant (u64 memory.(mem_displacement)) I64 instruction.(d_address);
      add address displacement I64 instruction.(d_address)
  else
      ret address);
  let sourceValue := 0 in
  do! sourceValue <- (if source.(ro_byteOffset) =? 0 then
      readGuestRegister source.(ro_reg) (if source.(ro_width) =? 8 then I8 else if source.(ro_width) =? 32 then I32
          else I64) instruction.(d_address)
  else
      do! parent <- readGuestRegister source.(ro_reg) I64 instruction.(d_address);
      do! shifted <- shiftRightLogical_imm parent 8 I64 instruction.(d_address);
      do! laneMask <- constant 0xFF I64 instruction.(d_address);
      bitAnd shifted laneMask I64 instruction.(d_address));
  compareExchangeGuestMemory address sourceValue (if memory.(mem_width) =? 8 then I8 else if memory.(mem_width) =?
      32 then I32 else I64) instruction.(d_address).

(** [Cmpxchg16bMem]. *)
Definition lowerCmpxchg16bMem (instruction : DecodedInstruction) : M Block unit :=
  if negb (zlength instruction.(d_operands) =? 1) then
    throw (runtime_error "internal decoder error: cmpxchg16b operand count")
  else
  do! memory <- memory_at instruction 0;
  if negb (memory.(mem_width) =? 128) then
    throw (runtime_error "CMPXCHG16B requires a 128-bit memory operand")
  else
  do! base <- (if memory.(mem_ripRelative) then constant (u64 (instruction.(d_address) + instruction.(d_length)))
      I64 instruction.(d_address) else readGuestRegister memory.(mem_base) I64 instruction.(d_address));
  let address := base in
  do! address <- (if negb (memory.(mem_displacement) =? 0) then
      do! displacement <- constant (u64 memory.(mem_displacement)) I64 instruction.(d_address);
      add base displacement I64 instruction.(d_address)
  else
      ret address);
  compareExchangeGuestPair address instruction.(d_address).

(** [XchgMemReg]. *)
Definition lowerXchgMemReg (instruction : DecodedInstruction) : M Block unit :=
  if negb (zlength instruction.(d_operands) =? 2) then
    throw (runtime_error "internal decoder error: XCHG operand count")
  else
  do! memory <- memory_at instruction 0;
  do! source <- register_at instruction 1;
  if (negb (memory.(mem_width) =? 8) && negb (memory.(mem_width) =? 32) && negb (memory.(mem_width) =? 64)) || negb
      (source.(ro_width) =? memory.(mem_width)) || negb (source.(ro_byteOffset) =? 0) then
    throw (runtime_error "only matching 8-bit, 32-bit and 64-bit guest-memory XCHG with a low-byte source is implemented")
  else
  let width := if memory.(mem_width) =? 8 then I8 else if memory.(mem_width) =? 32 then I32 else I64 in
  do! address <- (if memory.(mem_ripRelative) then constant (u64 (instruction.(d_address) +
      instruction.(d_length))) I64 instruction.(d_address) else readGuestRegister memory.(mem_base) I64
      instruction.(d_address));
  do! address <- (match memory.(mem_index) with
  | Some indexRegister =>
      do! index <- readGuestRegister indexRegister I64 instruction.(d_address);
      do! index <- (if negb (memory.(mem_scale) =? 1) then
          shiftLeft_imm index (u8 (countr_zero8 memory.(mem_scale))) I64 instruction.(d_address)
      else
          ret index);
      add address index I64 instruction.(d_address)
  | None =>
      ret address
  end);
  do! address <- (if negb (memory.(mem_displacement) =? 0) then
      do! displacement <- constant (u64 memory.(mem_displacement)) I64 instruction.(d_address);
      add address displacement I64 instruction.(d_address)
  else
      ret address);
  do! sourceValue <- readGuestRegister source.(ro_reg) width instruction.(d_address);
  exchangeGuestMemory address sourceValue source.(ro_reg) width instruction.(d_address).

(** [LockAddMemReg]. *)
Definition lowerLockAddMemReg (instruction : DecodedInstruction) : M Block unit :=
  if negb (zlength instruction.(d_operands) =? 2) then
    throw (runtime_error "internal decoder error: LOCK ADD operand count")
  else
  do! memory <- memory_at instruction 0;
  do! source <- register_at instruction 1;
  if negb (memory.(mem_width) =? source.(ro_width)) || (negb (memory.(mem_width) =? 32) && negb (memory.(mem_width)
      =? 64)) then
    throw (runtime_error "only LOCK ADD dword/qword [base/RIP+disp], r32/r64 is implemented")
  else
  let width := if memory.(mem_width) =? 32 then I32 else I64 in
  do! address <- (if memory.(mem_ripRelative) then constant (u64 (instruction.(d_address) +
      instruction.(d_length))) I64 instruction.(d_address) else readGuestRegister memory.(mem_base) I64
      instruction.(d_address));
  do! address <- (if negb (memory.(mem_displacement) =? 0) then
      do! displacement <- constant (u64 memory.(mem_displacement)) I64 instruction.(d_address);
      add address displacement I64 instruction.(d_address)
  else
      ret address);
  do! sourceValue <- readGuestRegister source.(ro_reg) width instruction.(d_address);
  lockedAddGuestMemory address sourceValue width instruction.(d_address).

(** [LockXaddMemReg]. *)
Definition lowerLockXaddMemReg (instruction : DecodedInstruction) : M Block unit :=
  if negb (zlength instruction.(d_operands) =? 2) then
    throw (runtime_error "internal decoder error: LOCK XADD operand count")
  else
  do! memory <- memory_at instruction 0;
  do! source <- register_at instruction 1;
  if negb (memory.(mem_width) =? source.(ro_width)) || (negb (memory.(mem_width) =? 16) && negb (memory.(mem_width)
      =? 32) && negb (memory.(mem_width) =? 64)) then
    throw (runtime_error "only LOCK XADD word/dword/qword [base/index+disp], r16/r32/r64 is implemented")
  else
  do! address <- (if memory.(mem_ripRelative) then constant (u64 (instruction.(d_address) +
      instruction.(d_length))) I64 instruction.(d_address) else readGuestRegister memory.(mem_base) I64
      instruction.(d_address));
  do! address <- (match memory.(mem_index) with
  | Some indexRegister =>
      do! index <- readGuestRegister indexRegister I64 instruction.(d_address);
      do! index <- (if negb (memory.(mem_scale) =? 1) then
          shiftLeft_imm index (u8 (countr_zero8 memory.(mem_scale))) I64 instruction.(d_address)
      else
          ret index);
      add address index I64 instruction.(d_address)
  | None =>
      ret address
  end);
  do! address <- (if negb (memory.(mem_displacement) =? 0) then
      do! displacement <- constant (u64 memory.(mem_displacement)) I64 instruction.(d_address);
      add address displacement I64 instruction.(d_address)
  else
      ret address);
  do! sourceValue <- readGuestRegister source.(ro_reg) (if source.(ro_width) =? 16 then I16 else if
      source.(ro_width) =? 32 then I32 else I64) instruction.(d_address);
  lockedExchangeAddGuestMemory address sourceValue source.(ro_reg) (if memory.(mem_width) =? 16 then I16 else if
      memory.(mem_width) =? 32 then I32 else I64) instruction.(d_address).

(** [LockOrMemReg]. *)
Definition lowerLockOrMemReg (instruction : DecodedInstruction) : M Block unit :=
  if negb (zlength instruction.(d_operands) =? 2) then
    throw (runtime_error "internal decoder error: LOCK OR operand count")
  else
  do! memory <- memory_at instruction 0;
  do! source <- register_at instruction 1;
  if negb (memory.(mem_width) =? source.(ro_width)) || (negb (memory.(mem_width) =? 32) && negb (memory.(mem_width)
      =? 64)) then
    throw (runtime_error "only LOCK OR dword/qword [base/RIP+disp], r32/r64 is implemented")
  else
  let width := if memory.(mem_width) =? 32 then I32 else I64 in
  do! address <- (if memory.(mem_ripRelative) then constant (u64 (instruction.(d_address) +
      instruction.(d_length))) I64 instruction.(d_address) else readGuestRegister memory.(mem_base) I64
      instruction.(d_address));
  do! address <- (if negb (memory.(mem_displacement) =? 0) then
      do! displacement <- constant (u64 memory.(mem_displacement)) I64 instruction.(d_address);
      add address displacement I64 instruction.(d_address)
  else
      ret address);
  do! sourceValue <- readGuestRegister source.(ro_reg) width instruction.(d_address);
  lockedOrGuestMemory address sourceValue width instruction.(d_address).

(** [LockOrMemImm], [LockAndMemImm]. *)
Definition lowerLockOrMemImm (instruction : DecodedInstruction) : M Block unit :=
  if negb (zlength instruction.(d_operands) =? 2) then
    throw (runtime_error "internal decoder error: LOCK OR operand count")
  else
  do! memory <- memory_at instruction 0;
  do! immediate <- immediate_at instruction 1;
  let wordForm := (memory.(mem_width) =? 16) && ((immediate.(io_width) =? 8) || (immediate.(io_width) =? 16)) in
  let dwordForm := (memory.(mem_width) =? 32) && ((immediate.(io_width) =? 8) || (immediate.(io_width) =? 32)) in
  let qwordForm := (memory.(mem_width) =? 64) && ((immediate.(io_width) =? 8) || (immediate.(io_width) =? 32)) in
  let byteForm := (memory.(mem_width) =? 8) && (immediate.(io_width) =? 8) in
  if negb wordForm && negb dwordForm && negb qwordForm && negb byteForm then
    throw (runtime_error "only LOCK OR/AND byte [base+disp], imm8, LOCK OR/AND word [base+disp], imm8/imm16, LOCK OR/AND dword [base+disp], imm8/imm32, and LOCK OR/AND qword [base+disp], imm8/imm32 are implemented")
  else
  do! address <- (if memory.(mem_ripRelative) then constant (u64 (instruction.(d_address) +
      instruction.(d_length))) I64 instruction.(d_address) else readGuestRegister memory.(mem_base) I64
      instruction.(d_address));
  do! address <- (if negb (memory.(mem_displacement) =? 0) then
      do! displacement <- constant (u64 memory.(mem_displacement)) I64 instruction.(d_address);
      add address displacement I64 instruction.(d_address)
  else
      ret address);
  let width := if memory.(mem_width) =? 8 then I8 else if memory.(mem_width) =? 16 then I16 else if
      memory.(mem_width) =? 32 then I32 else I64 in
  do! value <- constant immediate.(io_value) width instruction.(d_address);
  (if bool_decide (instruction.(d_opcode) = X_LockOrMemImm) then
      lockedOrGuestMemory address value width instruction.(d_address)
  else
      lockedAndGuestMemory address value width instruction.(d_address)).

(** [LockIncMem], [LockDecMem]. *)
Definition lowerLockIncMem (instruction : DecodedInstruction) : M Block unit :=
  if negb (zlength instruction.(d_operands) =? 1) then
    throw (runtime_error "internal decoder error: LOCK INC/DEC operand count")
  else
  do! memory <- memory_at instruction 0;
  if negb (memory.(mem_width) =? 32) && negb (memory.(mem_width) =? 64) then
    throw (runtime_error "only LOCK INC/DEC dword/qword [base+disp] is implemented")
  else
  let width := if memory.(mem_width) =? 32 then I32 else I64 in
  do! base <- (if memory.(mem_ripRelative) then constant (u64 (instruction.(d_address) + instruction.(d_length)))
      I64 instruction.(d_address) else readGuestRegister memory.(mem_base) I64 instruction.(d_address));
  let address := base in
  do! address <- (if negb (memory.(mem_displacement) =? 0) then
      do! displacement <- constant (u64 memory.(mem_displacement)) I64 instruction.(d_address);
      add base displacement I64 instruction.(d_address)
  else
      ret address);
  (if bool_decide (instruction.(d_opcode) = X_LockIncMem) then
      lockedIncrementGuestMemory address width instruction.(d_address)
  else
      lockedDecrementGuestMemory address width instruction.(d_address)).
