(* ===== verification/LowerShift.v ===== *)
(** Lowering, shifts, rotations, BSWAP, bit tests and bit scans ([src/x86/Lowering.cpp]): one definition for each case of
    the switch of [x86::lowerToIr], named after its first label. *)
From S2P Require Import Prelude X86State IR IRBuilder IRVerify X86Instruction DecodeBase LoweringBase.

(** [ShlRegImm]. *)
Definition lowerShlRegImm (instruction : DecodedInstruction) : M Block unit :=
  if negb (zlength instruction.(d_operands) =? 2) then
    throw (runtime_error "internal decoder error: shl operand count")
  else
  do! reg <- register_at instruction 0;
  do! immediate <- immediate_at instruction 1;
  let width := if reg.(ro_width) =? 8 then I8 else if reg.(ro_width) =? 32 then I32 else I64 in
  let valueWidth := if reg.(ro_width) =? 8 then I64 else width in
  do! lhs <- readGuestRegister reg.(ro_reg) valueWidth instruction.(d_address);
  do! lhs <- (if reg.(ro_width) =? 8 then
      do! byteMask <- constant 0xFF I64 instruction.(d_address);
      bitAnd lhs byteMask I64 instruction.(d_address)
  else
      ret lhs);
  let count := u8 (Z.land immediate.(io_value) (if reg.(ro_width) =? 64 then 0x3F else 0x1F)) in
  do! result <- shiftLeft_imm lhs count valueWidth instruction.(d_address);
  writeGuestRegister reg.(ro_reg) result width instruction.(d_address) ;;;
  updateShiftLeftFlags_imm lhs result count width instruction.(d_address).

(** [ShlMemImm]. *)
Definition lowerShlMemImm (instruction : DecodedInstruction) : M Block unit :=
  if negb (zlength instruction.(d_operands) =? 2) then
    throw (runtime_error "internal decoder error: shl memory operand count")
  else
  do! memory <- memory_at instruction 0;
  do! immediate <- immediate_at instruction 1;
  if negb (memory.(mem_width) =? 64) then
    throw (runtime_error "internal decoder error: SHL memory width")
  else
  do! base <- readGuestRegister memory.(mem_base) I64 instruction.(d_address);
  do! displacement <- constant (u64 memory.(mem_displacement)) I64 instruction.(d_address);
  do! address <- add base displacement I64 instruction.(d_address);
  let count := u8 (Z.land immediate.(io_value) 0x3F) in
  shiftLeftGuestMemory address count I64 instruction.(d_address).

(** [ShrMemImm]. *)
Definition lowerShrMemImm (instruction : DecodedInstruction) : M Block unit :=
  if negb (zlength instruction.(d_operands) =? 2) then
    throw (runtime_error "internal decoder error: shr memory operand count")
  else
  do! memory <- memory_at instruction 0;
  do! immediate <- immediate_at instruction 1;
  if negb (memory.(mem_width) =? 32) && negb (memory.(mem_width) =? 64) then
    throw (runtime_error "internal decoder error: SHR memory width")
  else
  let width := if memory.(mem_width) =? 32 then I32 else I64 in
  do! base <- readGuestRegister memory.(mem_base) I64 instruction.(d_address);
  do! displacement <- constant (u64 memory.(mem_displacement)) I64 instruction.(d_address);
  do! address <- add base displacement I64 instruction.(d_address);
  let count := u8 (Z.land immediate.(io_value) (if memory.(mem_width) =? 64 then 0x3F else 0x1F)) in
  shiftRightLogicalGuestMemory address count width instruction.(d_address).

(** [ShlRegCl]. *)
Definition lowerShlRegCl (instruction : DecodedInstruction) : M Block unit :=
  if negb (zlength instruction.(d_operands) =? 1) then
    throw (runtime_error "internal decoder error: shl cl operand count")
  else
  do! reg <- register_at instruction 0;
  let width := if reg.(ro_width) =? 8 then I8 else if reg.(ro_width) =? 32 then I32 else I64 in
  do! lhs <- readGuestRegister reg.(ro_reg) (if reg.(ro_width) =? 8 then I64 else width) instruction.(d_address);
  do! lhs <- (if reg.(ro_width) =? 8 then
      do! byteMask <- constant 0xFF I64 instruction.(d_address);
      bitAnd lhs byteMask I64 instruction.(d_address)
  else
      ret lhs);
  do! count <- readGuestRegister Rcx I64 instruction.(d_address);
  do! countMask <- constant (if reg.(ro_width) =? 64 then 0x3F else 0x1F) I64 instruction.(d_address);
  do! maskedCount <- bitAnd count countMask I64 instruction.(d_address);
  do! result <- shiftLeft_value lhs maskedCount width instruction.(d_address);
  writeGuestRegister reg.(ro_reg) result width instruction.(d_address) ;;;
  updateShiftLeftFlags_value lhs result maskedCount width instruction.(d_address).

(** [ShrRegImm]. *)
Definition lowerShrRegImm (instruction : DecodedInstruction) : M Block unit :=
  if negb (zlength instruction.(d_operands) =? 2) then
    throw (runtime_error "internal decoder error: shr operand count")
  else
  do! reg <- register_at instruction 0;
  do! immediate <- immediate_at instruction 1;
  let width := if reg.(ro_width) =? 8 then I8 else if reg.(ro_width) =? 64 then I64 else I32 in
  do! lhs <- readGuestRegister reg.(ro_reg) (if reg.(ro_width) =? 8 then I64 else width) instruction.(d_address);
  do! lhs <- (if reg.(ro_width) =? 8 then
      do! mask <- constant 0xFF I64 instruction.(d_address);
      bitAnd lhs mask I64 instruction.(d_address)
  else
      ret lhs);
  let count := u8 (Z.land immediate.(io_value) (if reg.(ro_width) =? 64 then 0x3F else 0x1F)) in
  do! result <- shiftRightLogical_imm lhs count width instruction.(d_address);
  writeGuestRegister reg.(ro_reg) result width instruction.(d_address) ;;;
  updateShiftRightFlags_imm lhs result count width instruction.(d_address).

(** [ShrRegCl]. *)
Definition lowerShrRegCl (instruction : DecodedInstruction) : M Block unit :=
  if negb (zlength instruction.(d_operands) =? 1) then
    throw (runtime_error "internal decoder error: shr cl operand count")
  else
  do! reg <- register_at instruction 0;
  let width := if reg.(ro_width) =? 32 then I32 else I64 in
  do! lhs <- readGuestRegister reg.(ro_reg) width instruction.(d_address);
  do! count <- readGuestRegister Rcx I64 instruction.(d_address);
  do! countMask <- constant (if reg.(ro_width) =? 32 then 0x1F else 0x3F) I64 instruction.(d_address);
  do! maskedCount <- bitAnd count countMask I64 instruction.(d_address);
  do! result <- shiftRightLogical_value lhs maskedCount width instruction.(d_address);
  writeGuestRegister reg.(ro_reg) result width instruction.(d_address) ;;;
  updateShiftRightFlags_value lhs result maskedCount width instruction.(d_address).

(** [SarRegCl]. *)
Definition lowerSarRegCl (instruction : DecodedInstruction) : M Block unit :=
  if negb (zlength instruction.(d_operands) =? 1) then
    throw (runtime_error "internal decoder error: sar cl operand count")
  else
  do! reg <- register_at instruction 0;
  let width := if reg.(ro_width) =? 32 then I32 else I64 in
  do! lhs <- readGuestRegister reg.(ro_reg) width instruction.(d_address);
  do! count <- readGuestRegister Rcx I64 instruction.(d_address);
  do! countMask <- constant (if reg.(ro_width) =? 32 then 0x1F else 0x3F) I64 instruction.(d_address);
  do! maskedCount <- bitAnd count countMask I64 instruction.(d_address);
  do! result <- shiftRightArithmetic_value lhs maskedCount width instruction.(d_address);
  writeGuestRegister reg.(ro_reg) result width instruction.(d_address) ;;;
  updateShiftRightArithmeticFlags_value lhs result maskedCount width instruction.(d_address).

(** [SarRegImm]. *)
Definition lowerSarRegImm (instruction : DecodedInstruction) : M Block unit :=
  if negb (zlength instruction.(d_operands) =? 2) then
    throw (runtime_error "internal decoder error: sar operands")
  else
  do! reg <- register_at instruction 0;
  do! immediate <- immediate_at instruction 1;
  if negb (reg.(ro_width) =? 32) && negb (reg.(ro_width) =? 64) then
    throw (runtime_error "internal decoder error: SAR width is not 32 or 64 bits")
  else
  let width := if reg.(ro_width) =? 32 then I32 else I64 in
  do! lhs <- readGuestRegister reg.(ro_reg) width instruction.(d_address);
  let count := u8 (Z.land immediate.(io_value) (if reg.(ro_width) =? 64 then 0x3F else 0x1F)) in
  do! result <- shiftRightArithmetic_imm lhs count width instruction.(d_address);
  writeGuestRegister reg.(ro_reg) result width instruction.(d_address) ;;;
  updateShiftRightArithmeticFlags_imm lhs result count width instruction.(d_address).

(** [RolRegImm]. *)
Definition lowerRolRegImm (instruction : DecodedInstruction) : M Block unit :=
  if negb (zlength instruction.(d_operands) =? 2) then
    throw (runtime_error "internal decoder error: rol operands")
  else
  do! reg <- register_at instruction 0;
  do! immediate <- immediate_at instruction 1;
  if negb (reg.(ro_width) =? 16) && negb (reg.(ro_width) =? 32) && negb (reg.(ro_width) =? 64) then
    throw (runtime_error "internal decoder error: ROL width")
  else
  let operandBits := reg.(ro_width) in
  let count := u8 ((Z.land immediate.(io_value) (if reg.(ro_width) =? 64 then 0x3F else 0x1F)) mod operandBits) in
  let width := if reg.(ro_width) =? 16 then I16 else if reg.(ro_width) =? 32 then I32 else I64 in
  if count =? 0 then
    (if reg.(ro_width) =? 32 then
        do! register2 <- readGuestRegister reg.(ro_reg) width instruction.(d_address);
        writeGuestRegister reg.(ro_reg) register2 width instruction.(d_address)
    else
        ret tt)
  else
  do! unmasked <- readGuestRegister reg.(ro_reg) width instruction.(d_address);
  let original := unmasked in
  do! original <- (if reg.(ro_width) =? 16 then
      do! mask <- constant 0xFFFF width instruction.(d_address);
      bitAnd unmasked mask width instruction.(d_address)
  else
      ret original);
  do! left_ <- shiftLeft_imm original count width instruction.(d_address);
  do! right_ <- shiftRightLogical_imm original (u8 (operandBits - count)) width instruction.(d_address);
  do! combined <- bitOr left_ right_ width instruction.(d_address);
  writeGuestRegister reg.(ro_reg) combined width instruction.(d_address) ;;;
  updateRotateLeftFlags_imm combined count width instruction.(d_address).

(** [RolRegCl]. *)
Definition lowerRolRegCl (instruction : DecodedInstruction) : M Block unit :=
  if negb (zlength instruction.(d_operands) =? 1) then
    throw (runtime_error "internal decoder error: ROL CL operands")
  else
  do! reg <- register_at instruction 0;
  if negb (reg.(ro_width) =? 32) then
    throw (runtime_error "internal decoder error: ROL CL width")
  else
  do! original <- readGuestRegister reg.(ro_reg) I32 instruction.(d_address);
  do! cl <- readGuestRegister Rcx I64 instruction.(d_address);
  do! countMask <- constant 0x1F I64 instruction.(d_address);
  do! count <- bitAnd cl countMask I64 instruction.(d_address);
  do! left_ <- shiftLeft_value original count I32 instruction.(d_address);
  do! zero <- constant 0 I64 instruction.(d_address);
  do! negativeCount <- sub zero count I64 instruction.(d_address);
  do! rightCount <- bitAnd negativeCount countMask I64 instruction.(d_address);
  do! right_ <- shiftRightLogical_value original rightCount I32 instruction.(d_address);
  do! result <- bitOr left_ right_ I32 instruction.(d_address);
  writeGuestRegister reg.(ro_reg) result I32 instruction.(d_address) ;;;
  updateRotateLeftFlags_value result count I32 instruction.(d_address).

(** [RorRegImm]. *)
Definition lowerRorRegImm (instruction : DecodedInstruction) : M Block unit :=
  if negb (zlength instruction.(d_operands) =? 2) then
    throw (runtime_error "internal decoder error: ror operands")
  else
  do! reg <- register_at instruction 0;
  do! immediate <- immediate_at instruction 1;
  if negb (reg.(ro_width) =? 32) && negb (reg.(ro_width) =? 64) then
    throw (runtime_error "internal decoder error: ROR width")
  else
  let count := u8 (Z.land immediate.(io_value) (if reg.(ro_width) =? 64 then 0x3F else 0x1F)) in
  let width := if reg.(ro_width) =? 64 then I64 else I32 in
  if count =? 0 then
    (if reg.(ro_width) =? 32 then
        do! register2 <- readGuestRegister reg.(ro_reg) width instruction.(d_address);
        writeGuestRegister reg.(ro_reg) register2 width instruction.(d_address)
    else
        ret tt)
  else
  do! original <- readGuestRegister reg.(ro_reg) width instruction.(d_address);
  do! right_ <- shiftRightLogical_imm original count width instruction.(d_address);
  do! left_ <- shiftLeft_imm original (u8 (reg.(ro_width) - count)) width instruction.(d_address);
  do! result <- bitOr right_ left_ width instruction.(d_address);
  writeGuestRegister reg.(ro_reg) result width instruction.(d_address) ;;;
  updateRotateRightFlags_imm result count width instruction.(d_address).

(** [RorRegCl]. *)
Definition lowerRorRegCl (instruction : DecodedInstruction) : M Block unit :=
  if negb (zlength instruction.(d_operands) =? 1) then
    throw (runtime_error "internal decoder error: ror cl operand count")
  else
  do! reg <- register_at instruction 0;
  if negb (reg.(ro_width) =? 64) then
    throw (runtime_error "only 64-bit ROR by CL is implemented")
  else
  do! original <- readGuestRegister reg.(ro_reg) I64 instruction.(d_address);
  do! rawCount <- readGuestRegister Rcx I64 instruction.(d_address);
  do! countMask <- constant 0x3F I64 instruction.(d_address);
  do! count <- bitAnd rawCount countMask I64 instruction.(d_address);
  do! right_ <- shiftRightLogical_value original count I64 instruction.(d_address);
  do! constant2 <- constant 64 I64 instruction.(d_address);
  do! complement <- sub constant2 count I64 instruction.(d_address);
  do! left_ <- shiftLeft_value original complement I64 instruction.(d_address);
  do! result <- bitOr right_ left_ I64 instruction.(d_address);
  writeGuestRegister reg.(ro_reg) result I64 instruction.(d_address) ;;;
  updateRotateRightFlags_value result count I64 instruction.(d_address).

(** [BswapReg]. *)
Definition lowerBswapReg (instruction : DecodedInstruction) : M Block unit :=
  if negb (zlength instruction.(d_operands) =? 1) then
    throw (runtime_error "internal decoder error: bswap operand")
  else
  do! reg <- register_at instruction 0;
  if negb (reg.(ro_width) =? 32) && negb (reg.(ro_width) =? 64) then
    throw (runtime_error "internal decoder error: BSWAP width")
  else
  let width := if reg.(ro_width) =? 32 then I32 else I64 in
  do! original <- readGuestRegister reg.(ro_reg) width instruction.(d_address);
  do! result <- byteSwap original width instruction.(d_address);
  writeGuestRegister reg.(ro_reg) result width instruction.(d_address).

(** [ShrdRegRegImm]. *)
Definition lowerShrdRegRegImm (instruction : DecodedInstruction) : M Block unit :=
  if negb (zlength instruction.(d_operands) =? 3) then
    throw (runtime_error "internal decoder error: shrd operand count")
  else
  do! destination <- register_at instruction 0;
  do! source <- register_at instruction 1;
  do! immediate <- immediate_at instruction 2;
  do! original <- readGuestRegister destination.(ro_reg) I64 instruction.(d_address);
  do! high <- readGuestRegister source.(ro_reg) I64 instruction.(d_address);
  let count := u8 (Z.land immediate.(io_value) 0x3F) in
  do! result <- shiftRightDouble original high count I64 instruction.(d_address);
  writeGuestRegister destination.(ro_reg) result I64 instruction.(d_address) ;;;
  updateShiftRightDoubleFlags original result count I64 instruction.(d_address).

(** [ShldRegRegImm]. *)
Definition lowerShldRegRegImm (instruction : DecodedInstruction) : M Block unit :=
  if negb (zlength instruction.(d_operands) =? 3) then
    throw (runtime_error "internal decoder error: SHLD operand count")
  else
  do! destination <- register_at instruction 0;
  do! source <- register_at instruction 1;
  do! immediate <- immediate_at instruction 2;
  if negb (destination.(ro_width) =? 64) || negb (source.(ro_width) =? 64) then
    throw (runtime_error "internal decoder error: SHLD width")
  else
  do! original <- readGuestRegister destination.(ro_reg) I64 instruction.(d_address);
  do! sourceValue <- readGuestRegister source.(ro_reg) I64 instruction.(d_address);
  let count := u8 (Z.land immediate.(io_value) 0x3F) in
  let result := original in
  do! result <- (if negb (count =? 0) then
      do! left_ <- shiftLeft_imm original count I64 instruction.(d_address);
      do! right_ <- shiftRightLogical_imm sourceValue (u8 (u32 (64 - count))) I64 instruction.(d_address);
      bitOr left_ right_ I64 instruction.(d_address)
  else
      ret result);
  writeGuestRegister destination.(ro_reg) result I64 instruction.(d_address) ;;;
  updateShiftLeftFlags_imm original result count I64 instruction.(d_address).

(** [BitScanForwardRegReg]. *)
Definition lowerBitScanForwardRegReg (instruction : DecodedInstruction) : M Block unit :=
  if negb (zlength instruction.(d_operands) =? 2) then
    throw (runtime_error "internal decoder error: bsf operand count")
  else
  do! destination <- register_at instruction 0;
  do! source <- register_at instruction 1;
  bitScanForward destination.(ro_reg) source.(ro_reg) (if destination.(ro_width) =? 32 then I32 else I64)
      instruction.(d_address).

(** [BitTestRegImm]. *)
Definition lowerBitTestRegImm (instruction : DecodedInstruction) : M Block unit :=
  do! source <- register_at instruction 0;
  do! bitIndex <- immediate_at instruction 1;
  if negb (source.(ro_width) =? 32) && negb (source.(ro_width) =? 64) then
    throw (runtime_error "only 32-bit and 64-bit register BT are implemented")
  else
  let width := if source.(ro_width) =? 32 then I32 else I64 in
  do! value <- readGuestRegister source.(ro_reg) width instruction.(d_address);
  updateBitTestFlags value (u8 bitIndex.(io_value)) width instruction.(d_address).

(** [BitSetRegImm], [BitResetRegImm]. *)
Definition lowerBitSetRegImm (instruction : DecodedInstruction) : M Block unit :=
  if negb (zlength instruction.(d_operands) =? 2) then
    throw (runtime_error "internal decoder error: BTS/BTR operand count")
  else
  do! destination <- register_at instruction 0;
  do! bitIndex <- immediate_at instruction 1;
  if negb (destination.(ro_width) =? 32) && negb (destination.(ro_width) =? 64) then
    throw (runtime_error "only 32-bit and 64-bit register BTS/BTR are implemented")
  else
  let width := if destination.(ro_width) =? 32 then I32 else I64 in
  let maskedBit := u8 (Z.land bitIndex.(io_value) (if destination.(ro_width) =? 32 then 0x1F else 0x3F)) in
  do! value <- readGuestRegister destination.(ro_reg) width instruction.(d_address);
  do! mask <- constant (u64 (Z.shiftl 1 maskedBit)) width instruction.(d_address);
  do! result <- (if bool_decide (instruction.(d_opcode) = X_BitSetRegImm) then bitOr value mask width
      instruction.(d_address) else do! constant2 <- constant (not64 (u64 (Z.shiftl 1 maskedBit))) width
      instruction.(d_address); bitAnd value constant2 width instruction.(d_address));
  writeGuestRegister destination.(ro_reg) result width instruction.(d_address) ;;;
  updateBitTestFlags value maskedBit width instruction.(d_address).

(** [BitTestRegReg]. *)
Definition lowerBitTestRegReg (instruction : DecodedInstruction) : M Block unit :=
  if negb (zlength instruction.(d_operands) =? 2) then
    throw (runtime_error "internal decoder error: BT register operand count")
  else
  do! valueRegister <- register_at instruction 0;
  do! indexRegister <- register_at instruction 1;
  if negb (valueRegister.(ro_width) =? indexRegister.(ro_width)) || (negb (valueRegister.(ro_width) =? 32) && negb
      (valueRegister.(ro_width) =? 64)) then
    throw (runtime_error "only matching 32-bit and 64-bit register-indexed BT is implemented")
  else
  let width := if valueRegister.(ro_width) =? 32 then I32 else I64 in
  do! value <- readGuestRegister valueRegister.(ro_reg) width instruction.(d_address);
  do! index <- readGuestRegister indexRegister.(ro_reg) width instruction.(d_address);
  do! indexMask <- constant (u32 (valueRegister.(ro_width) - 1)) width instruction.(d_address);
  do! maskedIndex <- bitAnd index indexMask width instruction.(d_address);
  do! shifted <- shiftRightLogical_value value maskedIndex width instruction.(d_address);
  updateBitTestFlags shifted 0 width instruction.(d_address).

(** [BitSetRegReg]. *)
Definition lowerBitSetRegReg (instruction : DecodedInstruction) : M Block unit :=
  if negb (zlength instruction.(d_operands) =? 2) then
    throw (runtime_error "internal decoder error: BTS register operand count")
  else
  do! valueRegister <- register_at instruction 0;
  do! indexRegister <- register_at instruction 1;
  if negb (valueRegister.(ro_width) =? indexRegister.(ro_width)) || (negb (valueRegister.(ro_width) =? 32) && negb
      (valueRegister.(ro_width) =? 64)) then
    throw (runtime_error "only matching 32-bit and 64-bit register-indexed BTS is implemented")
  else
  let width := if valueRegister.(ro_width) =? 32 then I32 else I64 in
  do! value <- readGuestRegister valueRegister.(ro_reg) width instruction.(d_address);
  do! index <- readGuestRegister indexRegister.(ro_reg) width instruction.(d_address);
  do! indexMask <- constant (u32 (valueRegister.(ro_width) - 1)) width instruction.(d_address);
  do! maskedIndex <- bitAnd index indexMask width instruction.(d_address);
  do! shifted <- shiftRightLogical_value value maskedIndex width instruction.(d_address);
  do! one <- constant 1 width instruction.(d_address);
  do! mask <- shiftLeft_value one maskedIndex width instruction.(d_address);
  do! result <- bitOr value mask width instruction.(d_address);
  writeGuestRegister valueRegister.(ro_reg) result width instruction.(d_address) ;;;
  updateBitTestFlags shifted 0 width instruction.(d_address).

(** [BitTestMemImm]. *)
Definition lowerBitTestMemImm (instruction : DecodedInstruction) : M Block unit :=
  if negb (zlength instruction.(d_operands) =? 2) then
    throw (runtime_error "internal decoder error: BT memory operand count")
  else
  do! memory <- memory_at instruction 0;
  do! bitIndex <- immediate_at instruction 1;
  if (negb (memory.(mem_width) =? 32) && negb (memory.(mem_width) =? 64)) || negb (bitIndex.(io_width) =? 8) || (if
      memory.(mem_ripRelative) then memory.(mem_hasBase) || present memory.(mem_index) else negb
      memory.(mem_hasBase)) || negb (bool_decide (memory.(mem_segment) = Segment_None)) then
    throw (runtime_error "only based 32-bit and 64-bit BT memory operands are implemented")
  else
  let width := if memory.(mem_width) =? 32 then I32 else I64 in
  let maskedBit := u8 (Z.land bitIndex.(io_value) (if memory.(mem_width) =? 32 then 0x1F else 0x3F)) in
  do! address <- (if memory.(mem_ripRelative) then constant (u64 (instruction.(d_address) +
      instruction.(d_length))) I64 instruction.(d_address) else readGuestRegister memory.(mem_base) I64
      instruction.(d_address));
  do! address <- (match memory.(mem_index) with
  | Some indexRegister =>
      do! index <- readGuestRegister indexRegister I64 instruction.(d_address);
      do! index <- (if negb (memory.(mem_scale) =? 1) then
          shiftLeft_imm index (u8 (countr_zero8 memory.(mem_scale))) I64 instruction.(d_address)
      else
          ret index);
      add address index I64 instruction.(d_address)
  | None =>
      ret address
  end);
  do! address <- (if negb (memory.(mem_displacement) =? 0) then
      do! displacement <- constant (u64 memory.(mem_displacement)) I64 instruction.(d_address);
      add address displacement I64 instruction.(d_address)
  else
      ret address);
  do! value <- loadGuest address width instruction.(d_address);
  updateBitTestFlags value maskedBit width instruction.(d_address).

(** [BitScanReverseRegReg]. *)
Definition lowerBitScanReverseRegReg (instruction : DecodedInstruction) : M Block unit :=
  if negb (zlength instruction.(d_operands) =? 2) then
    throw (runtime_error "internal decoder error: bsr operand count")
  else
  do! destination <- register_at instruction 0;
  do! source <- register_at instruction 1;
  bitScanReverse destination.(ro_reg) source.(ro_reg) (if destination.(ro_width) =? 32 then I32 else I64)
      instruction.(d_address).
