(* ===== verification/LowerLogic.v ===== *)
(** Lowering, AND, OR, XOR and TEST ([src/x86/Lowering.cpp]): one definition for each case of
    the switch of [x86::lowerToIr], named after its first label. *)
From S2P Require Import Prelude X86State IR IRBuilder IRVerify X86Instruction DecodeBase LoweringBase.

(** [OrRegReg]. *)
Definition lowerOrRegReg (instruction : DecodedInstruction) : M Block unit :=
  if negb (zlength instruction.(d_operands) =? 2) then
    throw (runtime_error "internal decoder error: or operand count")
  else
  do! destination <- register_at instruction 0;
  do! source <- register_at instruction 1;
  let width := if destination.(ro_width) =? 8 then I8 else if destination.(ro_width) =? 16 then I16 else if
      destination.(ro_width) =? 32 then I32 else I64 in
  do! lhs <- readGuestRegister destination.(ro_reg) width instruction.(d_address);
  do! rhs <- readGuestRegister source.(ro_reg) width instruction.(d_address);
  do! result <- bitOr lhs rhs width instruction.(d_address);
  writeGuestRegister destination.(ro_reg) result width instruction.(d_address) ;;;
  updateLogicFlags result width instruction.(d_address).

(** [OrRegMem]. *)
Definition lowerOrRegMem (instruction : DecodedInstruction) : M Block unit :=
  if negb (zlength instruction.(d_operands) =? 2) then
    throw (runtime_error "internal decoder error: OR memory-load operand count")
  else
  do! destination <- register_at instruction 0;
  do! memory <- memory_at instruction 1;
  if negb (destination.(ro_width) =? memory.(mem_width)) || (negb (destination.(ro_width) =? 8) && negb
      (destination.(ro_width) =? 16) && negb (destination.(ro_width) =? 32) && negb (destination.(ro_width) =? 64))
      then
    throw (runtime_error "only byte/word/dword/qword register-from-memory OR is implemented")
  else
  let width := if destination.(ro_width) =? 8 then I8 else if destination.(ro_width) =? 16 then I16 else if
      destination.(ro_width) =? 32 then I32 else I64 in
  do! address <- (if memory.(mem_ripRelative) then constant (u64 (instruction.(d_address) +
      instruction.(d_length))) I64 instruction.(d_address) else readGuestRegister memory.(mem_base) I64
      instruction.(d_address));
  do! address <- (match memory.(mem_index) with
  | Some indexRegister =>
      do! index <- readGuestRegister indexRegister I64 instruction.(d_address);
      do! index <- (if negb (memory.(mem_scale) =? 1) then
          shiftLeft_imm index (u8 (countr_zero8 memory.(mem_scale))) I64 instruction.(d_address)
      else
          ret index);
      add address index I64 instruction.(d_address)
  | None =>
      ret address
  end);
  do! address <- (if negb (memory.(mem_displacement) =? 0) then
      do! displacement <- constant (u64 memory.(mem_displacement)) I64 instruction.(d_address);
      add address displacement I64 instruction.(d_address)
  else
      ret address);
  do! rhs <- loadGuest address width instruction.(d_address);
  do! lhs <- readGuestRegister destination.(ro_reg) width instruction.(d_address);
  do! result <- bitOr lhs rhs width instruction.(d_address);
  writeGuestRegister destination.(ro_reg) result width instruction.(d_address) ;;;
  updateLogicFlags result width instruction.(d_address).

(** [OrMemReg]. *)
Definition lowerOrMemReg (instruction : DecodedInstruction) : M Block unit :=
  if negb (zlength instruction.(d_operands) =? 2) then
    throw (runtime_error "internal decoder error: memory or operand count")
  else
  do! memory <- memory_at instruction 0;
  do! source <- register_at instruction 1;
  if negb (memory.(mem_width) =? source.(ro_width)) || (negb (memory.(mem_width) =? 8) && negb (memory.(mem_width)
      =? 16) && negb (memory.(mem_width) =? 32) && negb (memory.(mem_width) =? 64)) then
    throw (runtime_error "only matching byte, word, dword, and qword memory-destination OR is implemented")
  else
  let width := if memory.(mem_width) =? 8 then I8 else if memory.(mem_width) =? 16 then I16 else if
      memory.(mem_width) =? 32 then I32 else I64 in
  do! address <- (if memory.(mem_ripRelative) then constant (u64 (instruction.(d_address) +
      instruction.(d_length))) I64 instruction.(d_address) else (if memory.(mem_hasBase) then readGuestRegister
      memory.(mem_base) I64 instruction.(d_address) else constant 0 I64 instruction.(d_address)));
  do! address <- (match memory.(mem_index) with
  | Some indexRegister =>
      do! index <- readGuestRegister indexRegister I64 instruction.(d_address);
      do! index <- (if negb (memory.(mem_scale) =? 1) then
          shiftLeft_imm index (u8 (countr_zero8 memory.(mem_scale))) I64 instruction.(d_address)
      else
          ret index);
      add address index I64 instruction.(d_address)
  | None =>
      ret address
  end);
  do! address <- (if negb (memory.(mem_displacement) =? 0) then
      do! displacement <- constant (u64 memory.(mem_displacement)) I64 instruction.(d_address);
      add address displacement I64 instruction.(d_address)
  else
      ret address);
  do! sourceValue <- readGuestRegister source.(ro_reg) width instruction.(d_address);
  orGuestMemory address sourceValue width instruction.(d_address).

(** [OrMemImm]. *)
Definition lowerOrMemImm (instruction : DecodedInstruction) : M Block unit :=
  if negb (zlength instruction.(d_operands) =? 2) then
    throw (runtime_error "internal decoder error: memory immediate or operand count")
  else
  do! memory <- memory_at instruction 0;
  do! immediate <- immediate_at instruction 1;
  let byteForm := (memory.(mem_width) =? 8) && (immediate.(io_width) =? 8) in
  let wordShortForm := (memory.(mem_width) =? 16) && (immediate.(io_width) =? 8) in
  let wordFullForm := (memory.(mem_width) =? 16) && (immediate.(io_width) =? 16) in
  let dwordShortForm := (memory.(mem_width) =? 32) && (immediate.(io_width) =? 8) in
  let qwordShortForm := (memory.(mem_width) =? 64) && (immediate.(io_width) =? 8) in
  let dwordFullForm := (memory.(mem_width) =? 32) && (immediate.(io_width) =? 32) in
  let qwordFullForm := (memory.(mem_width) =? 64) && (immediate.(io_width) =? 32) in
  if (negb byteForm && negb wordShortForm && negb wordFullForm && negb dwordShortForm && negb qwordShortForm &&
      negb dwordFullForm && negb qwordFullForm) || negb (bool_decide (memory.(mem_segment) = Segment_None)) then
    throw (runtime_error "only OR byte [memory], imm8, OR word [memory], imm8/imm16, and OR dword/qword [memory], imm8/imm32 are implemented")
  else
  do! address <- (if memory.(mem_ripRelative) then constant (u64 (instruction.(d_address) +
      instruction.(d_length))) I64 instruction.(d_address) else (if memory.(mem_hasBase) then readGuestRegister
      memory.(mem_base) I64 instruction.(d_address) else constant 0 I64 instruction.(d_address)));
  do! address <- (match memory.(mem_index) with
  | Some indexRegister =>
      do! index <- readGuestRegister indexRegister I64 instruction.(d_address);
      do! index <- (if negb (memory.(mem_scale) =? 1) then
          shiftLeft_imm index (u8 (countr_zero8 memory.(mem_scale))) I64 instruction.(d_address)
      else
          ret index);
      add address index I64 instruction.(d_address)
  | None =>
      ret address
  end);
  do! address <- (if negb (memory.(mem_displacement) =? 0) then
      do! displacement <- constant (u64 memory.(mem_displacement)) I64 instruction.(d_address);
      add address displacement I64 instruction.(d_address)
  else
      ret address);
  let width := if byteForm then I8 else if wordShortForm || wordFullForm then I16 else if dwordShortForm ||
      dwordFullForm then I32 else I64 in
  do! sourceValue <- constant immediate.(io_value) width instruction.(d_address);
  orGuestMemory address sourceValue width instruction.(d_address).

(** [OrRegImm]. *)
Definition lowerOrRegImm (instruction : DecodedInstruction) : M Block unit :=
  if negb (zlength instruction.(d_operands) =? 2) then
    throw (runtime_error "internal decoder error: or immediate operand count")
  else
  do! destination <- register_at instruction 0;
  do! immediate <- immediate_at instruction 1;
  let width := if destination.(ro_width) =? 8 then I8 else if destination.(ro_width) =? 32 then I32 else I64 in
  do! lhs <- readGuestRegister destination.(ro_reg) width instruction.(d_address);
  do! rhs <- constant immediate.(io_value) width instruction.(d_address);
  do! result <- bitOr lhs rhs width instruction.(d_address);
  writeGuestRegister destination.(ro_reg) result width instruction.(d_address) ;;;
  updateLogicFlags result width instruction.(d_address).

(** [XorRegReg]. *)
Definition lowerXorRegReg (instruction : DecodedInstruction) : M Block unit :=
  if negb (zlength instruction.(d_operands) =? 2) then
    throw (runtime_error "internal decoder error: xor operand count")
  else
  do! destination <- register_at instruction 0;
  do! source <- register_at instruction 1;
  let width := if destination.(ro_width) =? 8 then I8 else if destination.(ro_width) =? 32 then I32 else I64 in
  do! result <- (if negb (bool_decide (width = I8)) && bool_decide (destination.(ro_reg) = source.(ro_reg)) then
      constant 0 width instruction.(d_address)
  else
      do! lhs <- readGuestRegister destination.(ro_reg) width instruction.(d_address);
      do! rhs <- readGuestRegister source.(ro_reg) width instruction.(d_address);
      bitXor lhs rhs width instruction.(d_address));
  writeGuestRegister destination.(ro_reg) result width instruction.(d_address) ;;;
  updateLogicFlags result width instruction.(d_address).

(** [XorRegMem]. *)
Definition lowerXorRegMem (instruction : DecodedInstruction) : M Block unit :=
  if negb (zlength instruction.(d_operands) =? 2) then
    throw (runtime_error "internal decoder error: xor memory operand count")
  else
  do! destination <- register_at instruction 0;
  do! memory <- memory_at instruction 1;
  if negb (destination.(ro_width) =? 8) && negb (destination.(ro_width) =? 16) && negb (destination.(ro_width) =?
      32) && negb (destination.(ro_width) =? 64) then
    throw (runtime_error "internal decoder error: XOR register, [memory] width")
  else
  let width := if destination.(ro_width) =? 8 then I8 else if destination.(ro_width) =? 16 then I16 else if
      destination.(ro_width) =? 32 then I32 else I64 in
  do! address <- (if memory.(mem_ripRelative) then constant (u64 (instruction.(d_address) +
      instruction.(d_length))) I64 instruction.(d_address) else readGuestRegister memory.(mem_base) I64
      instruction.(d_address));
  do! address <- (match memory.(mem_index) with
  | Some indexRegister =>
      do! index <- readGuestRegister indexRegister I64 instruction.(d_address);
      do! index <- (if negb (memory.(mem_scale) =? 1) then
          shiftLeft_imm index (u8 (countr_zero8 memory.(mem_scale))) I64 instruction.(d_address)
      else
          ret index);
      add address index I64 instruction.(d_address)
  | None =>
      ret address
  end);
  do! address <- (if negb (memory.(mem_displacement) =? 0) then
      do! displacement <- constant (u64 memory.(mem_displacement)) I64 instruction.(d_address);
      add address displacement I64 instruction.(d_address)
  else
      ret address);
  do! rhs <- loadGuest address width instruction.(d_address);
  do! lhs <- readGuestRegister destination.(ro_reg) width instruction.(d_address);
  do! result <- bitXor lhs rhs width instruction.(d_address);
  writeGuestRegister destination.(ro_reg) result width instruction.(d_address) ;;;
  updateLogicFlags result width instruction.(d_address).

(** [XorRegImm]. *)
Definition lowerXorRegImm (instruction : DecodedInstruction) : M Block unit :=
  if negb (zlength instruction.(d_operands) =? 2) then
    throw (runtime_error "internal decoder error: xor immediate operand count")
  else
  do! destination <- register_at instruction 0;
  do! immediate <- immediate_at instruction 1;
  let width := if destination.(ro_width) =? 8 then I8 else if destination.(ro_width) =? 32 then I32 else I64 in
  do! lhs <- readGuestRegister destination.(ro_reg) width instruction.(d_address);
  do! rhs <- constant immediate.(io_value) width instruction.(d_address);
  do! result <- bitXor lhs rhs width instruction.(d_address);
  writeGuestRegister destination.(ro_reg) result width instruction.(d_address) ;;;
  updateLogicFlags result width instruction.(d_address).

(** [AndRegReg]. *)
Definition lowerAndRegReg (instruction : DecodedInstruction) : M Block unit :=
  if negb (zlength instruction.(d_operands) =? 2) then
    throw (runtime_error "internal decoder error: register and operand count")
  else
  do! destination <- register_at instruction 0;
  do! source <- register_at instruction 1;
  let width := if destination.(ro_width) =? 8 then I8 else if destination.(ro_width) =? 16 then I16 else if
      destination.(ro_width) =? 32 then I32 else I64 in
  do! lhs <- readGuestRegister destination.(ro_reg) width instruction.(d_address);
  do! rhs <- readGuestRegister source.(ro_reg) width instruction.(d_address);
  do! result <- bitAnd lhs rhs width instruction.(d_address);
  writeGuestRegister destination.(ro_reg) result width instruction.(d_address) ;;;
  updateLogicFlags result width instruction.(d_address).

(** [AndRegMem]. *)
Definition lowerAndRegMem (instruction : DecodedInstruction) : M Block unit :=
  if negb (zlength instruction.(d_operands) =? 2) then
    throw (runtime_error "internal decoder error: and memory operand count")
  else
  do! destination <- register_at instruction 0;
  do! memory <- memory_at instruction 1;
  if negb (destination.(ro_width) =? memory.(mem_width)) || (negb (destination.(ro_width) =? 8) && negb
      (destination.(ro_width) =? 32) && negb (destination.(ro_width) =? 64)) then
    throw (runtime_error "only byte, dword, and qword register-from-memory AND are implemented")
  else
  let width := if destination.(ro_width) =? 8 then I8 else if destination.(ro_width) =? 32 then I32 else I64 in
  do! address <- (if memory.(mem_ripRelative) then constant (u64 (instruction.(d_address) +
      instruction.(d_length))) I64 instruction.(d_address) else (if memory.(mem_hasBase) then readGuestRegister
      memory.(mem_base) I64 instruction.(d_address) else constant 0 I64 instruction.(d_address)));
  do! address <- (match memory.(mem_index) with
  | Some indexRegister =>
      do! index <- readGuestRegister indexRegister I64 instruction.(d_address);
      do! index <- (if negb (memory.(mem_scale) =? 1) then
          shiftLeft_imm index (u8 (countr_zero8 memory.(mem_scale))) I64 instruction.(d_address)
      else
          ret index);
      add address index I64 instruction.(d_address)
  | None =>
      ret address
  end);
  do! address <- (if negb (memory.(mem_displacement) =? 0) then
      do! displacement <- constant (u64 memory.(mem_displacement)) I64 instruction.(d_address);
      add address displacement I64 instruction.(d_address)
  else
      ret address);
  do! rhs <- loadGuest address width instruction.(d_address);
  do! lhs <- readGuestRegister destination.(ro_reg) width instruction.(d_address);
  do! result <- bitAnd lhs rhs width instruction.(d_address);
  writeGuestRegister destination.(ro_reg) result width instruction.(d_address) ;;;
  updateLogicFlags result width instruction.(d_address).

(** [AndMemReg]. *)
Definition lowerAndMemReg (instruction : DecodedInstruction) : M Block unit :=
  if negb (zlength instruction.(d_operands) =? 2) then
    throw (runtime_error "internal decoder error: memory-destination AND operand count")
  else
  do! memory <- memory_at instruction 0;
  do! source <- register_at instruction 1;
  if negb (memory.(mem_width) =? source.(ro_width)) || (negb (memory.(mem_width) =? 16) && negb (memory.(mem_width)
      =? 32) && negb (memory.(mem_width) =? 64)) then
    throw (runtime_error "only matching 16-, 32- and 64-bit memory-destination AND is implemented")
  else
  let width := if memory.(mem_width) =? 16 then I16 else if memory.(mem_width) =? 32 then I32 else I64 in
  do! address <- (if memory.(mem_ripRelative) then constant (u64 (instruction.(d_address) +
      instruction.(d_length))) I64 instruction.(d_address) else (if memory.(mem_hasBase) then readGuestRegister
      memory.(mem_base) I64 instruction.(d_address) else constant 0 I64 instruction.(d_address)));
  do! address <- (match memory.(mem_index) with
  | Some indexRegister =>
      do! index <- readGuestRegister indexRegister I64 instruction.(d_address);
      do! index <- (if negb (memory.(mem_scale) =? 1) then
          shiftLeft_imm index (u8 (countr_zero8 memory.(mem_scale))) I64 instruction.(d_address)
      else
          ret index);
      add address index I64 instruction.(d_address)
  | None =>
      ret address
  end);
  do! address <- (if negb (memory.(mem_displacement) =? 0) then
      do! displacement <- constant (u64 memory.(mem_displacement)) I64 instruction.(d_address);
      add address displacement I64 instruction.(d_address)
  else
      ret address);
  do! sourceValue <- readGuestRegister source.(ro_reg) width instruction.(d_address);
  andGuestMemory address sourceValue width instruction.(d_address).

(** [AndMemImm]. *)
Definition lowerAndMemImm (instruction : DecodedInstruction) : M Block unit :=
  if negb (zlength instruction.(d_operands) =? 2) then
    throw (runtime_error "internal decoder error: memory immediate AND operand count")
  else
  do! memory <- memory_at instruction 0;
  do! immediate <- immediate_at instruction 1;
  let byteForm := (memory.(mem_width) =? 8) && (immediate.(io_width) =? 8) in
  let wordForm := (memory.(mem_width) =? 16) && (immediate.(io_width) =? 16) in
  let dwordShortForm := (memory.(mem_width) =? 32) && (immediate.(io_width) =? 8) in
  let qwordShortForm := (memory.(mem_width) =? 64) && (immediate.(io_width) =? 8) in
  let dwordFullForm := (memory.(mem_width) =? 32) && (immediate.(io_width) =? 32) in
  let qwordFullForm := (memory.(mem_width) =? 64) && (immediate.(io_width) =? 32) in
  if (negb byteForm && negb wordForm && negb dwordShortForm && negb qwordShortForm && negb dwordFullForm && negb
      qwordFullForm) || negb (bool_decide (memory.(mem_segment) = Segment_None)) then
    throw (runtime_error "only AND byte [memory], imm8, AND word [memory], imm16, and AND dword/qword [memory], imm8/imm32 are implemented")
  else
  do! address <- (if memory.(mem_ripRelative) then constant (u64 (instruction.(d_address) +
      instruction.(d_length))) I64 instruction.(d_address) else (if memory.(mem_hasBase) then readGuestRegister
      memory.(mem_base) I64 instruction.(d_address) else constant 0 I64 instruction.(d_address)));
  do! address <- (match memory.(mem_index) with
  | Some indexRegister =>
      do! index <- readGuestRegister indexRegister I64 instruction.(d_address);
      do! index <- (if negb (memory.(mem_scale) =? 1) then
          shiftLeft_imm index (u8 (countr_zero8 memory.(mem_scale))) I64 instruction.(d_address)
      else
          ret index);
      add address index I64 instruction.(d_address)
  | None =>
      ret address
  end);
  do! address <- (if negb (memory.(mem_displacement) =? 0) then
      do! displacement <- constant (u64 memory.(mem_displacement)) I64 instruction.(d_address);
      add address displacement I64 instruction.(d_address)
  else
      ret address);
  let width := if byteForm then I8 else if wordForm then I16 else if dwordShortForm || dwordFullForm then I32 else
      I64 in
  do! source <- constant immediate.(io_value) width instruction.(d_address);
  andGuestMemory address source width instruction.(d_address).

(** [AndRegImm]. *)
Definition lowerAndRegImm (instruction : DecodedInstruction) : M Block unit :=
  if negb (zlength instruction.(d_operands) =? 2) then
    throw (runtime_error "internal decoder error: and operand count")
  else
  do! reg <- register_at instruction 0;
  do! immediate <- immediate_at instruction 1;
  if (1 <? reg.(ro_byteOffset)) || ((reg.(ro_byteOffset) =? 1) && negb (reg.(ro_width) =? 8)) then
    throw (runtime_error "invalid byte-lane AND register")
  else
  let width := if reg.(ro_width) =? 8 then I8 else if reg.(ro_width) =? 16 then I16 else if reg.(ro_width) =? 32
      then I32 else I64 in
  if reg.(ro_byteOffset) =? 0 then
    do! lhs <- readGuestRegister reg.(ro_reg) width instruction.(d_address);
    do! rhs <- constant immediate.(io_value) width instruction.(d_address);
    do! result <- bitAnd lhs rhs width instruction.(d_address);
    writeGuestRegister reg.(ro_reg) result width instruction.(d_address) ;;;
    updateLogicFlags result width instruction.(d_address)
  else
  do! parent <- readGuestRegister reg.(ro_reg) I64 instruction.(d_address);
  do! shifted <- shiftRightLogical_imm parent 8 I64 instruction.(d_address);
  do! laneMask <- constant 0xFF I64 instruction.(d_address);
  do! lhs <- bitAnd shifted laneMask I64 instruction.(d_address);
  do! rhs <- constant immediate.(io_value) I64 instruction.(d_address);
  do! result <- bitAnd lhs rhs I64 instruction.(d_address);
  do! clearMask <- constant (not64 0xFF00) I64 instruction.(d_address);
  do! cleared <- bitAnd parent clearMask I64 instruction.(d_address);
  do! placed <- shiftLeft_imm result (u8 8) I64 instruction.(d_address);
  do! merged <- bitOr cleared placed I64 instruction.(d_address);
  writeGuestRegister reg.(ro_reg) merged I64 instruction.(d_address) ;;;
  updateLogicFlags result I8 instruction.(d_address).

(** [TestRegReg]. *)
Definition lowerTestRegReg (instruction : DecodedInstruction) : M Block unit :=
  if negb (zlength instruction.(d_operands) =? 2) then
    throw (runtime_error "internal decoder error: test operand count")
  else
  do! lhsRegister <- register_at instruction 0;
  do! rhsRegister <- register_at instruction 1;
  let width := if lhsRegister.(ro_width) =? 16 then I16 else if lhsRegister.(ro_width) =? 32 then I32 else I64 in
  do! lhs <- readGuestRegister lhsRegister.(ro_reg) width instruction.(d_address);
  do! rhs <- readGuestRegister rhsRegister.(ro_reg) width instruction.(d_address);
  do! result <- bitAnd lhs rhs width instruction.(d_address);
  updateLogicFlags result width instruction.(d_address).

(** [TestReg8Reg8]. *)
Definition lowerTestReg8Reg8 (instruction : DecodedInstruction) : M Block unit :=
  if negb (zlength instruction.(d_operands) =? 2) then
    throw (runtime_error "internal decoder error: test byte operand count")
  else
  do! lhsRegister <- register_at instruction 0;
  do! rhsRegister <- register_at instruction 1;
  do! lhs <- readGuestRegister lhsRegister.(ro_reg) I64 instruction.(d_address);
  do! rhs <- readGuestRegister rhsRegister.(ro_reg) I64 instruction.(d_address);
  do! mask <- constant 0xFF I64 instruction.(d_address);
  do! maskedLhs <- bitAnd lhs mask I64 instruction.(d_address);
  do! maskedRhs <- bitAnd rhs mask I64 instruction.(d_address);
  do! result <- bitAnd maskedLhs maskedRhs I64 instruction.(d_address);
  updateLogicFlags result I8 instruction.(d_address).

(** [TestMemReg]. *)
Definition lowerTestMemReg (instruction : DecodedInstruction) : M Block unit :=
  if negb (zlength instruction.(d_operands) =? 2) then
    throw (runtime_error "internal decoder error: test byte memory operand count")
  else
  do! memory <- memory_at instruction 0;
  do! reg <- register_at instruction 1;
  if negb (memory.(mem_width) =? reg.(ro_width)) || (negb (memory.(mem_width) =? 8) && negb (memory.(mem_width) =?
      32) && negb (memory.(mem_width) =? 64)) then
    throw (runtime_error "unsupported internal TEST memory width")
  else
  let width := if memory.(mem_width) =? 8 then I8 else if memory.(mem_width) =? 32 then I32 else I64 in
  do! address <- (if memory.(mem_ripRelative) then constant (u64 (instruction.(d_address) +
      instruction.(d_length))) I64 instruction.(d_address) else (if memory.(mem_hasBase) then readGuestRegister
      memory.(mem_base) I64 instruction.(d_address) else constant 0 I64 instruction.(d_address)));
  do! address <- (match memory.(mem_index) with
  | Some indexRegister =>
      do! index <- readGuestRegister indexRegister I64 instruction.(d_address);
      do! index <- (if negb (memory.(mem_scale) =? 1) then
          shiftLeft_imm index (u8 (countr_zero8 memory.(mem_scale))) I64 instruction.(d_address)
      else
          ret index);
      add address index I64 instruction.(d_address)
  | None =>
      ret address
  end);
  do! address <- (if negb (memory.(mem_displacement) =? 0) then
      do! displacement <- constant (u64 memory.(mem_displacement)) I64 instruction.(d_address);
      add address displacement I64 instruction.(d_address)
  else
      ret address);
  do! memoryValue <- loadGuest address width instruction.(d_address);
  do! registerValue <- readGuestRegister reg.(ro_reg) width instruction.(d_address);
  do! result <- bitAnd memoryValue registerValue width instruction.(d_address);
  updateLogicFlags result width instruction.(d_address).

(** [TestRegImm]. *)
Definition lowerTestRegImm (instruction : DecodedInstruction) : M Block unit :=
  if negb (zlength instruction.(d_operands) =? 2) then
    throw (runtime_error "internal decoder error: test immediate operand count")
  else
  do! reg <- register_at instruction 0;
  do! immediate <- immediate_at instruction 1;
  if ((reg.(ro_width) =? 8) && negb (immediate.(io_width) =? 8)) || ((reg.(ro_width) =? 16) && negb
      (immediate.(io_width) =? 16)) || ((reg.(ro_width) =? 32) && negb (immediate.(io_width) =? 32)) ||
      ((reg.(ro_width) =? 64) && negb (immediate.(io_width) =? 32)) || (negb (reg.(ro_width) =? 8) && negb
      (reg.(ro_width) =? 16) && negb (reg.(ro_width) =? 32) && negb (reg.(ro_width) =? 64)) then
    throw (runtime_error "unsupported internal TEST immediate width")
  else
  let width := if reg.(ro_width) =? 8 then I8 else if reg.(ro_width) =? 16 then I16 else if reg.(ro_width) =? 32
      then I32 else I64 in
  do! value <- readGuestRegister reg.(ro_reg) (if reg.(ro_width) =? 8 then I64 else width) instruction.(d_address);
  do! mask <- constant immediate.(io_value) (if reg.(ro_width) =? 8 then I64 else width) instruction.(d_address);
  do! result <- bitAnd value mask (if reg.(ro_width) =? 8 then I64 else width) instruction.(d_address);
  updateLogicFlags result width instruction.(d_address).

(** [TestMemImm]. *)
Definition lowerTestMemImm (instruction : DecodedInstruction) : M Block unit :=
  if negb (zlength instruction.(d_operands) =? 2) then
    throw (runtime_error "internal decoder error: test memory immediate operand count")
  else
  do! memory <- memory_at instruction 0;
  do! immediate <- immediate_at instruction 1;
  if negb (memory.(mem_width) =? immediate.(io_width)) || (negb (memory.(mem_width) =? 8) && negb
      (memory.(mem_width) =? 16) && negb (memory.(mem_width) =? 32) && negb (memory.(mem_width) =? 64)) then
    throw (runtime_error "unsupported internal TEST memory immediate width")
  else
  let width := if memory.(mem_width) =? 8 then I8 else if memory.(mem_width) =? 16 then I16 else if
      memory.(mem_width) =? 32 then I32 else I64 in
  do! address <- (if memory.(mem_ripRelative) then constant (u64 (instruction.(d_address) +
      instruction.(d_length))) I64 instruction.(d_address) else (if memory.(mem_hasBase) then readGuestRegister
      memory.(mem_base) I64 instruction.(d_address) else constant 0 I64 instruction.(d_address)));
  do! address <- (match memory.(mem_index) with
  | Some indexRegister =>
      do! index <- readGuestRegister indexRegister I64 instruction.(d_address);
      do! index <- (if negb (memory.(mem_scale) =? 1) then
          shiftLeft_imm index (u8 (countr_zero8 memory.(mem_scale))) I64 instruction.(d_address)
      else
          ret index);
      add address index I64 instruction.(d_address)
  | None =>
      ret address
  end);
  do! address <- (if negb (memory.(mem_displacement) =? 0) then
      do! displacement <- constant (u64 memory.(mem_displacement)) I64 instruction.(d_address);
      add address displacement I64 instruction.(d_address)
  else
      ret address);
  do! address <- (if bool_decide (memory.(mem_segment) = Segment_Gs) then
      do! gsBase <- readGuestGsBase instruction.(d_address);
      add gsBase address I64 instruction.(d_address)
  else
      ret address);
  do! value <- loadGuest address width instruction.(d_address);
  do! mask <- constant immediate.(io_value) width instruction.(d_address);
  do! result <- bitAnd value mask width instruction.(d_address);
  updateLogicFlags result width instruction.(d_address).
