(* ===== verification/LowerVectorMove.v ===== *)
(** Lowering, moves of vector registers ([src/x86/Lowering.cpp]): one definition for each case of
    the switch of [x86::lowerToIr], named after its first label. *)
From S2P Require Import Prelude X86State IR IRBuilder IRVerify X86Instruction DecodeBase LoweringBase.

(** [MovapsMemReg], [MovapdMemReg], [MovupsMemReg], [VmovupsMemReg], [MovdqaMemReg], [MovdquMemReg]. *)
Definition lowerMovapsMemReg (instruction : DecodedInstruction) : M Block unit :=
  if negb (zlength instruction.(d_operands) =? 2) then
    throw (runtime_error "internal decoder error: movaps store operand count")
  else
  do! memory <- memory_at instruction 0;
  do! source <- xmm_at instruction 1;
  do! address <- (if memory.(mem_ripRelative) then constant (u64 (instruction.(d_address) +
      instruction.(d_length))) I64 instruction.(d_address) else readGuestRegister memory.(mem_base) I64
      instruction.(d_address));
  do! address <- (match memory.(mem_index) with
  | Some indexRegister =>
      do! index <- readGuestRegister indexRegister I64 instruction.(d_address);
      do! index <- (if negb (memory.(mem_scale) =? 1) then
          shiftLeft_imm index (u8 (countr_zero8 memory.(mem_scale))) I64 instruction.(d_address)
      else
          ret index);
      add address index I64 instruction.(d_address)
  | None =>
      ret address
  end);
  do! address <- (if negb (memory.(mem_displacement) =? 0) then
      do! displacement <- constant (u64 memory.(mem_displacement)) I64 instruction.(d_address);
      add address displacement I64 instruction.(d_address)
  else
      ret address);
  storeGuestXmm address source (bool_decide (instruction.(d_opcode) = X_MovapsMemReg) || bool_decide
      (instruction.(d_opcode) = X_MovapdMemReg) || bool_decide (instruction.(d_opcode) = X_MovdqaMemReg))
      instruction.(d_address).

(** [VmovupsYmmMemReg], [VmovapsYmmMemReg]. *)
Definition lowerVmovupsYmmMemReg (instruction : DecodedInstruction) : M Block unit :=
  if negb (zlength instruction.(d_operands) =? 2) then
    throw (runtime_error "internal decoder error: YMM VMOVUPS store operand count")
  else
  do! memory <- memory_at instruction 0;
  do! source <- xmm_at instruction 1;
  if negb (memory.(mem_width) =? 256) then
    throw (runtime_error "internal decoder error: YMM VMOVUPS store width")
  else
  do! address <- (if memory.(mem_ripRelative) then constant (u64 (instruction.(d_address) +
      instruction.(d_length))) I64 instruction.(d_address) else readGuestRegister memory.(mem_base) I64
      instruction.(d_address));
  do! address <- (match memory.(mem_index) with
  | Some indexRegister =>
      do! index <- readGuestRegister indexRegister I64 instruction.(d_address);
      do! index <- (if negb (memory.(mem_scale) =? 1) then
          shiftLeft_imm index (u8 (countr_zero8 memory.(mem_scale))) I64 instruction.(d_address)
      else
          ret index);
      add address index I64 instruction.(d_address)
  | None =>
      ret address
  end);
  do! address <- (if negb (memory.(mem_displacement) =? 0) then
      do! displacement <- constant (u64 memory.(mem_displacement)) I64 instruction.(d_address);
      add address displacement I64 instruction.(d_address)
  else
      ret address);
  storeGuestYmm address source (bool_decide (instruction.(d_opcode) = X_VmovapsYmmMemReg)) instruction.(d_address).

(** [MovapdRegReg], [MovapsRegReg], [MovdqaRegReg]. *)
Definition lowerMovapdRegReg (instruction : DecodedInstruction) : M Block unit :=
  if negb (zlength instruction.(d_operands) =? 2) then
    throw (runtime_error "internal decoder error: aligned XMM register move operand count")
  else
  do! destination <- xmm_at instruction 0;
  do! source <- xmm_at instruction 1;
  do! low <- readGuestXmmLane source false instruction.(d_address);
  do! high <- readGuestXmmLane source true instruction.(d_address);
  writeGuestXmmLane destination false low instruction.(d_address) ;;;
  writeGuestXmmLane destination true high instruction.(d_address).

(** [MovlhpsRegReg]. *)
Definition lowerMovlhpsRegReg (instruction : DecodedInstruction) : M Block unit :=
  if negb (zlength instruction.(d_operands) =? 2) then
    throw (runtime_error "internal decoder error: MOVLHPS operand count")
  else
  do! destination <- xmm_at instruction 0;
  do! source <- xmm_at instruction 1;
  do! sourceLow <- readGuestXmmLane source false instruction.(d_address);
  writeGuestXmmLane destination true sourceLow instruction.(d_address).

(** [MovlhpsRegMem]. *)
Definition lowerMovlhpsRegMem (instruction : DecodedInstruction) : M Block unit :=
  if negb (zlength instruction.(d_operands) =? 2) then
    throw (runtime_error "internal decoder error: MOVLHPS memory operand count")
  else
  do! destination <- xmm_at instruction 0;
  do! memory <- memory_at instruction 1;
  if negb (memory.(mem_width) =? 64) || (if memory.(mem_ripRelative) then memory.(mem_hasBase) || present
      memory.(mem_index) else negb memory.(mem_hasBase)) || negb (bool_decide (memory.(mem_segment) =
      Segment_None)) then
    throw (runtime_error "unsupported qword MOVLHPS addressing")
  else
  do! address <- (if memory.(mem_ripRelative) then constant (u64 (instruction.(d_address) +
      instruction.(d_length))) I64 instruction.(d_address) else readGuestRegister memory.(mem_base) I64
      instruction.(d_address));
  do! address <- (if negb (memory.(mem_displacement) =? 0) then
      do! displacement <- constant (u64 memory.(mem_displacement)) I64 instruction.(d_address);
      add address displacement I64 instruction.(d_address)
  else
      ret address);
  do! value <- loadGuest address I64 instruction.(d_address);
  writeGuestXmmLane destination false value instruction.(d_address).

(** [MovddupRegReg], [MovddupRegMem]. *)
Definition lowerMovddupRegReg (instruction : DecodedInstruction) : M Block unit :=
  let fromMemory := bool_decide (instruction.(d_opcode) = X_MovddupRegMem) in
  if negb (zlength instruction.(d_operands) =? 2) then
    throw (runtime_error "internal decoder error: MOVDDUP operand count")
  else
  do! destination <- xmm_at instruction 0;
  let duplicated := 0 in
  do! duplicated <- (if negb fromMemory then
      do! source <- xmm_at instruction 1;
      readGuestXmmLane source false instruction.(d_address)
  else
      do! memory <- memory_at instruction 1;
      if negb (memory.(mem_width) =? 64) || (if memory.(mem_ripRelative) then memory.(mem_hasBase) || present
          memory.(mem_index) else negb memory.(mem_hasBase)) || negb (bool_decide (memory.(mem_segment) =
          Segment_None)) then
        throw (runtime_error "unsupported qword MOVDDUP addressing")
      else
      do! address <- (if memory.(mem_ripRelative) then constant (u64 (instruction.(d_address) +
          instruction.(d_length))) I64 instruction.(d_address) else readGuestRegister memory.(mem_base) I64
          instruction.(d_address));
      do! address <- (if negb (memory.(mem_displacement) =? 0) then
          do! displacement <- constant (u64 memory.(mem_displacement)) I64 instruction.(d_address);
          add address displacement I64 instruction.(d_address)
      else
          ret address);
      loadGuest address I64 instruction.(d_address));
  writeGuestXmmLane destination false duplicated instruction.(d_address) ;;;
  writeGuestXmmLane destination true duplicated instruction.(d_address).

(** [PcmpeqqRegReg], [PcmpeqqRegMem]. *)
Definition lowerPcmpeqqRegReg (instruction : DecodedInstruction) : M Block unit :=
  let fromMemory := bool_decide (instruction.(d_opcode) = X_PcmpeqqRegMem) in
  if negb (zlength instruction.(d_operands) =? 2) then
    throw (runtime_error "internal decoder error: PCMPEQQ operand count")
  else
  do! destination <- xmm_at instruction 0;
  (if negb fromMemory then
      do! source <- xmm_at instruction 1;
      compareEqualXmmQwords destination source instruction.(d_address)
  else
      do! memory <- memory_at instruction 1;
      if negb (memory.(mem_width) =? 128) || (if memory.(mem_ripRelative) then memory.(mem_hasBase) || present
          memory.(mem_index) else negb memory.(mem_hasBase) || present memory.(mem_index)) || negb (bool_decide
          (memory.(mem_segment) = Segment_None)) then
        throw (runtime_error "only RIP-relative or based PCMPEQQ xmm, m128 is implemented")
      else
      do! address <- (if memory.(mem_ripRelative) then constant (u64 (instruction.(d_address) +
          instruction.(d_length))) I64 instruction.(d_address) else readGuestRegister memory.(mem_base) I64
          instruction.(d_address));
      do! address <- (if negb (memory.(mem_displacement) =? 0) then
          do! displacement <- constant (u64 memory.(mem_displacement)) I64 instruction.(d_address);
          add address displacement I64 instruction.(d_address)
      else
          ret address);
      compareEqualGuestQwordsXmm address destination instruction.(d_address)).

(** [MovdXmmReg], [MovqXmmReg]. *)
Definition lowerMovdXmmReg (instruction : DecodedInstruction) : M Block unit :=
  if negb (zlength instruction.(d_operands) =? 2) then
    throw (runtime_error "internal decoder error: MOVD XMM register operand count")
  else
  do! destination <- xmm_at instruction 0;
  do! source <- register_at instruction 1;
  let width := if bool_decide (instruction.(d_opcode) = X_MovqXmmReg) then I64 else I32 in
  do! low <- readGuestRegister source.(ro_reg) width instruction.(d_address);
  do! zero <- constant 0 I64 instruction.(d_address);
  writeGuestXmmLane destination false low instruction.(d_address) ;;;
  writeGuestXmmLane destination true zero instruction.(d_address).

(** [MovdXmmMem]. *)
Definition lowerMovdXmmMem (instruction : DecodedInstruction) : M Block unit :=
  if negb (zlength instruction.(d_operands) =? 2) then
    throw (runtime_error "internal decoder error: MOVD XMM memory operand count")
  else
  do! destination <- xmm_at instruction 0;
  do! memory <- memory_at instruction 1;
  do! address <- (if memory.(mem_ripRelative) then constant (u64 (instruction.(d_address) +
      instruction.(d_length))) I64 instruction.(d_address) else readGuestRegister memory.(mem_base) I64
      instruction.(d_address));
  do! address <- (match memory.(mem_index) with
  | Some indexRegister =>
      do! index <- readGuestRegister indexRegister I64 instruction.(d_address);
      do! index <- (if negb (memory.(mem_scale) =? 1) then
          shiftLeft_imm index (u8 (countr_zero8 memory.(mem_scale))) I64 instruction.(d_address)
      else
          ret index);
      add address index I64 instruction.(d_address)
  | None =>
      ret address
  end);
  do! address <- (if negb (memory.(mem_displacement) =? 0) then
      do! displacement <- constant (u64 memory.(mem_displacement)) I64 instruction.(d_address);
      add address displacement I64 instruction.(d_address)
  else
      ret address);
  do! low <- loadGuest address I32 instruction.(d_address);
  do! zero <- constant 0 I64 instruction.(d_address);
  writeGuestXmmLane destination false low instruction.(d_address) ;;;
  writeGuestXmmLane destination true zero instruction.(d_address).

(** [MovsdRegMem], [MovsdMemXmm]. *)
Definition lowerMovsdRegMem (instruction : DecodedInstruction) : M Block unit :=
  let isLoad := bool_decide (instruction.(d_opcode) = X_MovsdRegMem) in
  do! memory <- memory_at instruction (if isLoad then 1 else 0);
  do! xmm <- xmm_at instruction (if isLoad then 0 else 1);
  if negb (zlength instruction.(d_operands) =? 2) || negb (memory.(mem_width) =? 64) || (if
      memory.(mem_ripRelative) then memory.(mem_hasBase) || present memory.(mem_index) else negb
      memory.(mem_hasBase)) || negb (bool_decide (memory.(mem_segment) = Segment_None)) then
    throw (runtime_error "unsupported qword scalar MOVSD addressing")
  else
  do! address <- (if memory.(mem_ripRelative) then constant (u64 (instruction.(d_address) +
      instruction.(d_length))) I64 instruction.(d_address) else (if memory.(mem_hasBase) then readGuestRegister
      memory.(mem_base) I64 instruction.(d_address) else constant 0 I64 instruction.(d_address)));
  do! address <- (match memory.(mem_index) with
  | Some indexRegister =>
      do! index <- readGuestRegister indexRegister I64 instruction.(d_address);
      do! index <- (if negb (memory.(mem_scale) =? 1) then
          shiftLeft_imm index (u8 (countr_zero8 memory.(mem_scale))) I64 instruction.(d_address)
      else
          ret index);
      add address index I64 instruction.(d_address)
  | None =>
      ret address
  end);
  do! address <- (if negb (memory.(mem_displacement) =? 0) then
      do! displacement <- constant (u64 memory.(mem_displacement)) I64 instruction.(d_address);
      add address displacement I64 instruction.(d_address)
  else
      ret address);
  (if isLoad then
      do! value <- loadGuest address I64 instruction.(d_address);
      writeGuestXmmLane xmm false value instruction.(d_address) ;;;
      do! constant4 <- constant 0 I64 instruction.(d_address);
      writeGuestXmmLane xmm true constant4 instruction.(d_address)
  else
      do! value <- readGuestXmmLane xmm false instruction.(d_address);
      storeGuest address value I64 instruction.(d_address)).

(** [MovlpsRegMem], [MovlpsMemXmm]. *)
Definition lowerMovlpsRegMem (instruction : DecodedInstruction) : M Block unit :=
  let isLoad := bool_decide (instruction.(d_opcode) = X_MovlpsRegMem) in
  do! memory <- memory_at instruction (if isLoad then 1 else 0);
  do! xmm <- xmm_at instruction (if isLoad then 0 else 1);
  if negb (zlength instruction.(d_operands) =? 2) || negb (memory.(mem_width) =? 64) || (if
      memory.(mem_ripRelative) then memory.(mem_hasBase) || present memory.(mem_index) else negb
      memory.(mem_hasBase)) || negb (bool_decide (memory.(mem_segment) = Segment_None)) then
    throw (runtime_error "unsupported qword MOVLPS addressing")
  else
  do! address <- (if memory.(mem_ripRelative) then constant (u64 (instruction.(d_address) +
      instruction.(d_length))) I64 instruction.(d_address) else (if memory.(mem_hasBase) then readGuestRegister
      memory.(mem_base) I64 instruction.(d_address) else constant 0 I64 instruction.(d_address)));
  do! address <- (match memory.(mem_index) with
  | Some indexRegister =>
      do! index <- readGuestRegister indexRegister I64 instruction.(d_address);
      do! index <- (if negb (memory.(mem_scale) =? 1) then
          shiftLeft_imm index (u8 (countr_zero8 memory.(mem_scale))) I64 instruction.(d_address)
      else
          ret index);
      add address index I64 instruction.(d_address)
  | None =>
      ret address
  end);
  do! address <- (if negb (memory.(mem_displacement) =? 0) then
      do! displacement <- constant (u64 memory.(mem_displacement)) I64 instruction.(d_address);
      add address displacement I64 instruction.(d_address)
  else
      ret address);
  (if isLoad then
      do! value <- loadGuest address I64 instruction.(d_address);
      writeGuestXmmLane xmm false value instruction.(d_address)
  else
      do! value <- readGuestXmmLane xmm false instruction.(d_address);
      storeGuest address value I64 instruction.(d_address)).

(** [MovdMemXmm], [MovssMemXmm]. *)
Definition lowerMovdMemXmm (instruction : DecodedInstruction) : M Block unit :=
  if negb (zlength instruction.(d_operands) =? 2) then
    throw (runtime_error "internal decoder error: scalar XMM memory-store operand count")
  else
  do! memory <- memory_at instruction 0;
  do! source <- xmm_at instruction 1;
  if negb (memory.(mem_width) =? 32) || (if memory.(mem_ripRelative) then memory.(mem_hasBase) || present
      memory.(mem_index) else negb memory.(mem_hasBase)) || negb (bool_decide (memory.(mem_segment) =
      Segment_None)) then
    throw (runtime_error "unsupported dword scalar XMM store addressing")
  else
  do! address <- (if memory.(mem_ripRelative) then constant (u64 (instruction.(d_address) +
      instruction.(d_length))) I64 instruction.(d_address) else readGuestRegister memory.(mem_base) I64
      instruction.(d_address));
  do! address <- (match memory.(mem_index) with
  | Some indexRegister =>
      do! index <- readGuestRegister indexRegister I64 instruction.(d_address);
      do! index <- (if negb (memory.(mem_scale) =? 1) then
          shiftLeft_imm index (u8 (countr_zero8 memory.(mem_scale))) I64 instruction.(d_address)
      else
          ret index);
      add address index I64 instruction.(d_address)
  | None =>
      ret address
  end);
  do! address <- (if negb (memory.(mem_displacement) =? 0) then
      do! displacement <- constant (u64 memory.(mem_displacement)) I64 instruction.(d_address);
      add address displacement I64 instruction.(d_address)
  else
      ret address);
  do! value <- readGuestXmmLane source false instruction.(d_address);
  storeGuest address value I32 instruction.(d_address).

(** [MovssRegMem]. *)
Definition lowerMovssRegMem (instruction : DecodedInstruction) : M Block unit :=
  if negb (zlength instruction.(d_operands) =? 2) then
    throw (runtime_error "internal decoder error: scalar XMM memory-load operand count")
  else
  do! destination <- xmm_at instruction 0;
  do! memory <- memory_at instruction 1;
  if negb (memory.(mem_width) =? 32) || (if memory.(mem_ripRelative) then memory.(mem_hasBase) || present
      memory.(mem_index) else negb memory.(mem_hasBase)) || negb (bool_decide (memory.(mem_segment) =
      Segment_None)) then
    throw (runtime_error "unsupported dword scalar XMM load addressing")
  else
  do! address <- (if memory.(mem_ripRelative) then constant (u64 (instruction.(d_address) +
      instruction.(d_length))) I64 instruction.(d_address) else readGuestRegister memory.(mem_base) I64
      instruction.(d_address));
  do! address <- (match memory.(mem_index) with
  | Some indexRegister =>
      do! index <- readGuestRegister indexRegister I64 instruction.(d_address);
      do! index <- (if negb (memory.(mem_scale) =? 1) then
          shiftLeft_imm index (u8 (countr_zero8 memory.(mem_scale))) I64 instruction.(d_address)
      else
          ret index);
      add address index I64 instruction.(d_address)
  | None =>
      ret address
  end);
  do! address <- (if negb (memory.(mem_displacement) =? 0) then
      do! displacement <- constant (u64 memory.(mem_displacement)) I64 instruction.(d_address);
      add address displacement I64 instruction.(d_address)
  else
      ret address);
  do! value <- loadGuest address I32 instruction.(d_address);
  writeGuestXmmLane destination false value instruction.(d_address) ;;;
  do! constant3 <- constant 0 I64 instruction.(d_address);
  writeGuestXmmLane destination true constant3 instruction.(d_address).

(** [MovssXmmXmm]. *)
Definition lowerMovssXmmXmm (instruction : DecodedInstruction) : M Block unit :=
  if negb (zlength instruction.(d_operands) =? 2) then
    throw (runtime_error "internal decoder error: MOVSS register operand count")
  else
  do! destination <- xmm_at instruction 0;
  do! source <- xmm_at instruction 1;
  do! sourceLow <- readGuestXmmLane source false instruction.(d_address);
  do! destinationLow <- readGuestXmmLane destination false instruction.(d_address);
  do! constant1 <- constant 0xFFFFFFFF00000000 I64 instruction.(d_address);
  do! bitAnd_1 <- bitAnd destinationLow constant1 I64 instruction.(d_address);
  do! constant2 <- constant 0xFFFFFFFF I64 instruction.(d_address);
  do! bitAnd_2 <- bitAnd sourceLow constant2 I64 instruction.(d_address);
  do! merged <- bitOr bitAnd_1 bitAnd_2 I64 instruction.(d_address);
  writeGuestXmmLane destination false merged instruction.(d_address).

(** [MovdRegXmm]. *)
Definition lowerMovdRegXmm (instruction : DecodedInstruction) : M Block unit :=
  if negb (zlength instruction.(d_operands) =? 2) then
    throw (runtime_error "internal decoder error: MOVD register-XMM operand count")
  else
  do! destination <- register_at instruction 0;
  do! source <- xmm_at instruction 1;
  do! value <- readGuestXmmLane source false instruction.(d_address);
  writeGuestRegister destination.(ro_reg) value I32 instruction.(d_address).

(** [MovqRegXmm]. *)
Definition lowerMovqRegXmm (instruction : DecodedInstruction) : M Block unit :=
  if negb (zlength instruction.(d_operands) =? 2) then
    throw (runtime_error "internal decoder error: MOVQ register-XMM operand count")
  else
  do! destination <- register_at instruction 0;
  do! source <- xmm_at instruction 1;
  if negb (destination.(ro_width) =? 64) then
    throw (runtime_error "only MOVQ r64, xmm is implemented")
  else
  do! value <- readGuestXmmLane source false instruction.(d_address);
  writeGuestRegister destination.(ro_reg) value I64 instruction.(d_address).

(** [VmovupsYmmRegMem], [VmovapsYmmRegMem]. *)
Definition lowerVmovupsYmmRegMem (instruction : DecodedInstruction) : M Block unit :=
  if negb (zlength instruction.(d_operands) =? 2) then
    throw (runtime_error "internal decoder error: YMM VMOVUPS load operand count")
  else
  do! destination <- xmm_at instruction 0;
  do! memory <- memory_at instruction 1;
  if negb (memory.(mem_width) =? 256) then
    throw (runtime_error "internal decoder error: YMM VMOVUPS load width")
  else
  do! address <- (if memory.(mem_ripRelative) then constant (u64 (instruction.(d_address) +
      instruction.(d_length))) I64 instruction.(d_address) else readGuestRegister memory.(mem_base) I64
      instruction.(d_address));
  do! address <- (match memory.(mem_index) with
  | Some indexRegister =>
      do! index <- readGuestRegister indexRegister I64 instruction.(d_address);
      do! index <- (if negb (memory.(mem_scale) =? 1) then
          shiftLeft_imm index (u8 (countr_zero8 memory.(mem_scale))) I64 instruction.(d_address)
      else
          ret index);
      add address index I64 instruction.(d_address)
  | None =>
      ret address
  end);
  do! address <- (if negb (memory.(mem_displacement) =? 0) then
      do! displacement <- constant (u64 memory.(mem_displacement)) I64 instruction.(d_address);
      add address displacement I64 instruction.(d_address)
  else
      ret address);
  loadGuestYmm address destination (bool_decide (instruction.(d_opcode) = X_VmovapsYmmRegMem))
      instruction.(d_address).

(** [MovapsRegMem], [MovapdRegMem], [MovupsRegMem], [VmovupsRegMem], [MovdquRegMem], [MovdqaRegMem]. *)
Definition lowerMovapsRegMem (instruction : DecodedInstruction) : M Block unit :=
  if negb (zlength instruction.(d_operands) =? 2) then
    throw (runtime_error "internal decoder error: movdqa load operand count")
  else
  do! destination <- xmm_at instruction 0;
  do! memory <- memory_at instruction 1;
  do! address <- (if memory.(mem_ripRelative) then constant (u64 (instruction.(d_address) +
      instruction.(d_length))) I64 instruction.(d_address) else readGuestRegister memory.(mem_base) I64
      instruction.(d_address));
  do! address <- (match memory.(mem_index) with
  | Some indexRegister =>
      do! index <- readGuestRegister indexRegister I64 instruction.(d_address);
      do! index <- (if negb (memory.(mem_scale) =? 1) then
          shiftLeft_imm index (u8 (countr_zero8 memory.(mem_scale))) I64 instruction.(d_address)
      else
          ret index);
      add address index I64 instruction.(d_address)
  | None =>
      ret address
  end);
  do! address <- (if negb (memory.(mem_displacement) =? 0) then
      do! displacement <- constant (u64 memory.(mem_displacement)) I64 instruction.(d_address);
      add address displacement I64 instruction.(d_address)
  else
      ret address);
  loadGuestXmm address destination (bool_decide (instruction.(d_opcode) = X_MovapsRegMem) || bool_decide
      (instruction.(d_opcode) = X_MovapdRegMem) || bool_decide (instruction.(d_opcode) = X_MovdqaRegMem))
      instruction.(d_address) ;;;
  (if bool_decide (instruction.(d_opcode) = X_VmovupsRegMem) then
      do! zero <- constant 0 I64 instruction.(d_address);
      writeGuestYmmUpperLane destination false zero instruction.(d_address) ;;;
      writeGuestYmmUpperLane destination true zero instruction.(d_address)
  else
      ret tt).

(** [MovqMemXmm]. *)
Definition lowerMovqMemXmm (instruction : DecodedInstruction) : M Block unit :=
  if negb (zlength instruction.(d_operands) =? 2) then
    throw (runtime_error "internal decoder error: movq store operands")
  else
  do! memory <- memory_at instruction 0;
  do! source <- xmm_at instruction 1;
  do! address <- (if memory.(mem_ripRelative) then constant (u64 (instruction.(d_address) +
      instruction.(d_length))) I64 instruction.(d_address) else readGuestRegister memory.(mem_base) I64
      instruction.(d_address));
  do! address <- (match memory.(mem_index) with
  | Some indexRegister =>
      do! index <- readGuestRegister indexRegister I64 instruction.(d_address);
      do! index <- (if negb (memory.(mem_scale) =? 1) then
          shiftLeft_imm index (u8 (countr_zero8 memory.(mem_scale))) I64 instruction.(d_address)
      else
          ret index);
      add address index I64 instruction.(d_address)
  | None =>
      ret address
  end);
  do! address <- (if negb (memory.(mem_displacement) =? 0) then
      do! displacement <- constant (u64 memory.(mem_displacement)) I64 instruction.(d_address);
      add address displacement I64 instruction.(d_address)
  else
      ret address);
  do! value <- readGuestXmmLane source false instruction.(d_address);
  storeGuest address value I64 instruction.(d_address).

(** [MovqXmmMem]. *)
Definition lowerMovqXmmMem (instruction : DecodedInstruction) : M Block unit :=
  if negb (zlength instruction.(d_operands) =? 2) then
    throw (runtime_error "internal decoder error: MOVQ XMM load operand count")
  else
  do! destination <- xmm_at instruction 0;
  do! memory <- memory_at instruction 1;
  do! address <- (if memory.(mem_ripRelative) then constant (u64 (instruction.(d_address) +
      instruction.(d_length))) I64 instruction.(d_address) else (if memory.(mem_hasBase) then readGuestRegister
      memory.(mem_base) I64 instruction.(d_address) else constant 0 I64 instruction.(d_address)));
  do! address <- (match memory.(mem_index) with
  | Some indexRegister =>
      do! index <- readGuestRegister indexRegister I64 instruction.(d_address);
      do! index <- (if negb (memory.(mem_scale) =? 1) then
          shiftLeft_imm index (u8 (countr_zero8 memory.(mem_scale))) I64 instruction.(d_address)
      else
          ret index);
      add address index I64 instruction.(d_address)
  | None =>
      ret address
  end);
  do! address <- (if negb (memory.(mem_displacement) =? 0) then
      do! displacement <- constant (u64 memory.(mem_displacement)) I64 instruction.(d_address);
      add address displacement I64 instruction.(d_address)
  else
      ret address);
  do! low <- loadGuest address I64 instruction.(d_address);
  do! zero <- constant 0 I64 instruction.(d_address);
  writeGuestXmmLane destination false low instruction.(d_address) ;;;
  writeGuestXmmLane destination true zero instruction.(d_address).
