(* ===== verification/LowerFloat.v ===== *)
(** Lowering, floating point ([src/x86/Lowering.cpp]): one definition for each case of
    the switch of [x86::lowerToIr], named after its first label. *)
From S2P Require Import Prelude X86State IR IRBuilder IRVerify X86Instruction DecodeBase LoweringBase.

(** [Cvttsd2siRegXmm], [Cvttsd2siRegMem]. *)
Definition lowerCvttsd2siRegXmm (instruction : DecodedInstruction) : M Block unit :=
  let fromMemory := bool_decide (instruction.(d_opcode) = X_Cvttsd2siRegMem) in
  if negb (zlength instruction.(d_operands) =? 2) then
    throw (runtime_error "internal decoder error: CVTTSD2SI operand count")
  else
  do! destination <- register_at instruction 0;
  if negb (destination.(ro_width) =? 32) && negb (destination.(ro_width) =? 64) then
    throw (runtime_error "only CVTTSD2SI r32/r64 is implemented")
  else
  let width := if destination.(ro_width) =? 32 then I32 else I64 in
  let bits := 0 in
  do! bits <- (if negb fromMemory then
      do! source <- xmm_at instruction 1;
      readGuestXmmLane source false instruction.(d_address)
  else
      do! memory <- memory_at instruction 1;
      if negb (memory.(mem_width) =? 64) || (if memory.(mem_ripRelative) then memory.(mem_hasBase) || present
          memory.(mem_index) else negb memory.(mem_hasBase)) || negb (bool_decide (memory.(mem_segment) =
          Segment_None)) then
        throw (runtime_error "unsupported CVTTSD2SI memory addressing")
      else
      do! address <- (if memory.(mem_ripRelative) then constant (u64 (instruction.(d_address) +
          instruction.(d_length))) I64 instruction.(d_address) else readGuestRegister memory.(mem_base) I64
          instruction.(d_address));
      do! address <- (if negb (memory.(mem_displacement) =? 0) then
          do! displacement <- constant (u64 memory.(mem_displacement)) I64 instruction.(d_address);
          add address displacement I64 instruction.(d_address)
      else
          ret address);
      loadGuest address I64 instruction.(d_address));
  convertDoubleToInt bits destination.(ro_reg) width instruction.(d_address).

(** [Cvtsi2sdXmmReg], [Cvtsi2sdXmmMem]. *)
Definition lowerCvtsi2sdXmmReg (instruction : DecodedInstruction) : M Block unit :=
  let fromMemory := bool_decide (instruction.(d_opcode) = X_Cvtsi2sdXmmMem) in
  if negb (zlength instruction.(d_operands) =? 2) then
    throw (runtime_error "internal decoder error: CVTSI2SD operand count")
  else
  do! destination <- xmm_at instruction 0;
  let width := I32 in
  let integer := 0 in
  do! (width, integer) <- (if negb fromMemory then
      do! source <- register_at instruction 1;
      if (negb (source.(ro_width) =? 32) && negb (source.(ro_width) =? 64)) || negb (source.(ro_byteOffset) =? 0)
          then
        throw (runtime_error "only 32-bit and 64-bit register CVTSI2SD is implemented")
      else
      let width := if source.(ro_width) =? 32 then I32 else I64 in
      do! integer <- readGuestRegister source.(ro_reg) width instruction.(d_address);
      ret (width, integer)
  else
      do! memory <- memory_at instruction 1;
      if (negb (memory.(mem_width) =? 32) && negb (memory.(mem_width) =? 64)) || (if memory.(mem_ripRelative) then
          memory.(mem_hasBase) || present memory.(mem_index) else negb memory.(mem_hasBase)) || negb (bool_decide
          (memory.(mem_segment) = Segment_None)) then
        throw (runtime_error "unsupported CVTSI2SD memory addressing")
      else
      let width := if memory.(mem_width) =? 32 then I32 else I64 in
      do! address <- (if memory.(mem_ripRelative) then constant (u64 (instruction.(d_address) +
          instruction.(d_length))) I64 instruction.(d_address) else readGuestRegister memory.(mem_base) I64
          instruction.(d_address));
      do! address <- (if negb (memory.(mem_displacement) =? 0) then
          do! displacement <- constant (u64 memory.(mem_displacement)) I64 instruction.(d_address);
          add address displacement I64 instruction.(d_address)
      else
          ret address);
      do! integer <- loadGuest address width instruction.(d_address);
      ret (width, integer));
  convertIntToDoubleXmm integer destination width instruction.(d_address).

(** [Cvtdq2pdXmmReg], [Cvtdq2pdXmmMem]. *)
Definition lowerCvtdq2pdXmmReg (instruction : DecodedInstruction) : M Block unit :=
  let fromMemory := bool_decide (instruction.(d_opcode) = X_Cvtdq2pdXmmMem) in
  if negb (zlength instruction.(d_operands) =? 2) then
    throw (runtime_error "internal decoder error: CVTDQ2PD operand count")
  else
  do! destination <- xmm_at instruction 0;
  let lowBits := 0 in
  do! lowBits <- (if negb fromMemory then
      do! source <- xmm_at instruction 1;
      readGuestXmmLane source false instruction.(d_address)
  else
      do! memory <- memory_at instruction 1;
      if negb (memory.(mem_width) =? 64) || (if memory.(mem_ripRelative) then memory.(mem_hasBase) || present
          memory.(mem_index) else negb memory.(mem_hasBase)) || negb (bool_decide (memory.(mem_segment) =
          Segment_None)) then
        throw (runtime_error "unsupported CVTDQ2PD memory addressing")
      else
      do! address <- (if memory.(mem_ripRelative) then constant (u64 (instruction.(d_address) +
          instruction.(d_length))) I64 instruction.(d_address) else readGuestRegister memory.(mem_base) I64
          instruction.(d_address));
      do! address <- (match memory.(mem_index) with
      | Some indexRegister =>
          do! index <- readGuestRegister indexRegister I64 instruction.(d_address);
          do! index <- (if negb (memory.(mem_scale) =? 1) then
              shiftLeft_imm index (u8 (countr_zero8 memory.(mem_scale))) I64 instruction.(d_address)
          else
              ret index);
          add address index I64 instruction.(d_address)
      | None =>
          ret address
      end);
      do! address <- (if negb (memory.(mem_displacement) =? 0) then
          do! displacement <- constant (u64 memory.(mem_displacement)) I64 instruction.(d_address);
          add address displacement I64 instruction.(d_address)
      else
          ret address);
      loadGuest address I64 instruction.(d_address));
  convertInt32x2ToDoubleXmm lowBits destination instruction.(d_address).

(** [Cvtss2sdXmmReg], [Cvtss2sdXmmMem]. *)
Definition lowerCvtss2sdXmmReg (instruction : DecodedInstruction) : M Block unit :=
  let fromMemory := bool_decide (instruction.(d_opcode) = X_Cvtss2sdXmmMem) in
  if negb (zlength instruction.(d_operands) =? 2) then
    throw (runtime_error "internal decoder error: CVTSS2SD operand count")
  else
  do! destination <- xmm_at instruction 0;
  let floatBits := 0 in
  do! floatBits <- (if negb fromMemory then
      do! source <- xmm_at instruction 1;
      readGuestXmmLane source false instruction.(d_address)
  else
      do! memory <- memory_at instruction 1;
      if negb (memory.(mem_width) =? 32) || (if memory.(mem_ripRelative) then memory.(mem_hasBase) || present
          memory.(mem_index) else negb memory.(mem_hasBase)) || negb (bool_decide (memory.(mem_segment) =
          Segment_None)) then
        throw (runtime_error "unsupported CVTSS2SD memory addressing")
      else
      do! address <- (if memory.(mem_ripRelative) then constant (u64 (instruction.(d_address) +
          instruction.(d_length))) I64 instruction.(d_address) else readGuestRegister memory.(mem_base) I64
          instruction.(d_address));
      do! address <- (match memory.(mem_index) with
      | Some indexRegister =>
          do! index <- readGuestRegister indexRegister I64 instruction.(d_address);
          do! index <- (if negb (memory.(mem_scale) =? 1) then
              shiftLeft_imm index (u8 (countr_zero8 memory.(mem_scale))) I64 instruction.(d_address)
          else
              ret index);
          add address index I64 instruction.(d_address)
      | None =>
          ret address
      end);
      do! address <- (if negb (memory.(mem_displacement) =? 0) then
          do! displacement <- constant (u64 memory.(mem_displacement)) I64 instruction.(d_address);
          add address displacement I64 instruction.(d_address)
      else
          ret address);
      loadGuest address I32 instruction.(d_address));
  convertFloatToDoubleXmm floatBits destination instruction.(d_address).

(** [AddsdXmmReg], [AddsdXmmMem], [SubsdXmmReg], [SubsdXmmMem], [MulsdXmmReg], [MulsdXmmMem], [DivsdXmmReg],
    [DivsdXmmMem], [SqrtsdXmmReg], [SqrtsdXmmMem], [MinsdXmmReg], [MinsdXmmMem], [MaxsdXmmReg], [MaxsdXmmMem]. *)
Definition lowerAddsdXmmReg (instruction : DecodedInstruction) : M Block unit :=
  if negb (zlength instruction.(d_operands) =? 2) then
    throw (runtime_error "internal decoder error: scalar-double operand count")
  else
  let operation := if bool_decide (instruction.(d_opcode) = X_AddsdXmmReg) || bool_decide (instruction.(d_opcode) =
      X_AddsdXmmMem) then 0 else if bool_decide (instruction.(d_opcode) = X_SubsdXmmReg) || bool_decide
      (instruction.(d_opcode) = X_SubsdXmmMem) then 1 else if bool_decide (instruction.(d_opcode) = X_MulsdXmmReg)
      || bool_decide (instruction.(d_opcode) = X_MulsdXmmMem) then 2 else if bool_decide (instruction.(d_opcode) =
      X_SqrtsdXmmReg) || bool_decide (instruction.(d_opcode) = X_SqrtsdXmmMem) then 4 else if bool_decide
      (instruction.(d_opcode) = X_MinsdXmmReg) || bool_decide (instruction.(d_opcode) = X_MinsdXmmMem) then 5 else
      if bool_decide (instruction.(d_opcode) = X_MaxsdXmmReg) || bool_decide (instruction.(d_opcode) =
      X_MaxsdXmmMem) then 6 else 3 in
  do! destination <- xmm_at instruction 0;
  let fromMemory := bool_decide (instruction.(d_opcode) = X_AddsdXmmMem) || bool_decide (instruction.(d_opcode) =
      X_SubsdXmmMem) || bool_decide (instruction.(d_opcode) = X_MulsdXmmMem) || bool_decide (instruction.(d_opcode)
      = X_DivsdXmmMem) || bool_decide (instruction.(d_opcode) = X_SqrtsdXmmMem) || bool_decide
      (instruction.(d_opcode) = X_MinsdXmmMem) || bool_decide (instruction.(d_opcode) = X_MaxsdXmmMem) in
  let sourceBits := 0 in
  do! sourceBits <- (if negb fromMemory then
      do! source <- xmm_at instruction 1;
      readGuestXmmLane source false instruction.(d_address)
  else
      do! memory <- memory_at instruction 1;
      if negb (memory.(mem_width) =? 64) || (if memory.(mem_ripRelative) then memory.(mem_hasBase) || present
          memory.(mem_index) else negb memory.(mem_hasBase)) || negb (bool_decide (memory.(mem_segment) =
          Segment_None)) then
        throw (runtime_error "unsupported scalar-double memory addressing")
      else
      do! address <- (if memory.(mem_ripRelative) then constant (u64 (instruction.(d_address) +
          instruction.(d_length))) I64 instruction.(d_address) else readGuestRegister memory.(mem_base) I64
          instruction.(d_address));
      do! address <- (if negb (memory.(mem_displacement) =? 0) then
          do! displacement <- constant (u64 memory.(mem_displacement)) I64 instruction.(d_address);
          add address displacement I64 instruction.(d_address)
      else
          ret address);
      loadGuest address I64 instruction.(d_address));
  scalarDoubleXmm sourceBits destination operation instruction.(d_address).

(** [DivpdRegReg], [DivpdRegMem], [SubpdRegReg], [SubpdRegMem], [MulpdRegReg], [MulpdRegMem], [AddpdRegReg],
    [AddpdRegMem], [SqrtpdRegReg], [SqrtpdRegMem]. *)
Definition lowerDivpdRegReg (instruction : DecodedInstruction) : M Block unit :=
  let fromMemory := bool_decide (instruction.(d_opcode) = X_DivpdRegMem) || bool_decide (instruction.(d_opcode) =
      X_SubpdRegMem) || bool_decide (instruction.(d_opcode) = X_MulpdRegMem) || bool_decide (instruction.(d_opcode)
      = X_AddpdRegMem) || bool_decide (instruction.(d_opcode) = X_SqrtpdRegMem) in
  if negb (zlength instruction.(d_operands) =? 2) then
    throw (runtime_error "internal decoder error: packed-double operand count")
  else
  let operation := if bool_decide (instruction.(d_opcode) = X_AddpdRegReg) || bool_decide (instruction.(d_opcode) =
      X_AddpdRegMem) then 0 else if bool_decide (instruction.(d_opcode) = X_SubpdRegReg) || bool_decide
      (instruction.(d_opcode) = X_SubpdRegMem) then 1 else if bool_decide (instruction.(d_opcode) = X_MulpdRegReg)
      || bool_decide (instruction.(d_opcode) = X_MulpdRegMem) then 2 else if bool_decide (instruction.(d_opcode) =
      X_SqrtpdRegReg) || bool_decide (instruction.(d_opcode) = X_SqrtpdRegMem) then 4 else 3 in
  do! destination <- xmm_at instruction 0;
  (if negb fromMemory then
      do! source <- xmm_at instruction 1;
      arithmeticPackedDoubleXmm destination source operation instruction.(d_address)
  else
      do! memory <- memory_at instruction 1;
      if negb (memory.(mem_width) =? 128) || (if memory.(mem_ripRelative) then memory.(mem_hasBase) || present
          memory.(mem_index) else negb memory.(mem_hasBase) || present memory.(mem_index)) || negb (bool_decide
          (memory.(mem_segment) = Segment_None)) then
        throw (runtime_error "only RIP-relative or based packed-double xmm, m128 is implemented")
      else
      do! address <- (if memory.(mem_ripRelative) then constant (u64 (instruction.(d_address) +
          instruction.(d_length))) I64 instruction.(d_address) else readGuestRegister memory.(mem_base) I64
          instruction.(d_address));
      do! address <- (if negb (memory.(mem_displacement) =? 0) then
          do! displacement <- constant (u64 memory.(mem_displacement)) I64 instruction.(d_address);
          add address displacement I64 instruction.(d_address)
      else
          ret address);
      arithmeticGuestMemoryPackedDoubleXmm address destination operation instruction.(d_address)).

(** [UnpckhpsRegReg], [UnpckhpsRegMem]. *)
Definition lowerUnpckhpsRegReg (instruction : DecodedInstruction) : M Block unit :=
  let fromMemory := bool_decide (instruction.(d_opcode) = X_UnpckhpsRegMem) in
  if negb (zlength instruction.(d_operands) =? 2) then
    throw (runtime_error "internal decoder error: UNPCKHPS operand count")
  else
  do! destination <- xmm_at instruction 0;
  (if negb fromMemory then
      do! source <- xmm_at instruction 1;
      unpackHighPackedSingleXmm destination source instruction.(d_address)
  else
      do! memory <- memory_at instruction 1;
      if negb (memory.(mem_width) =? 128) || (if memory.(mem_ripRelative) then memory.(mem_hasBase) || present
          memory.(mem_index) else negb memory.(mem_hasBase) || present memory.(mem_index)) || negb (bool_decide
          (memory.(mem_segment) = Segment_None)) then
        throw (runtime_error "only RIP-relative or based UNPCKHPS xmm, m128 is implemented")
      else
      do! address <- (if memory.(mem_ripRelative) then constant (u64 (instruction.(d_address) +
          instruction.(d_length))) I64 instruction.(d_address) else readGuestRegister memory.(mem_base) I64
          instruction.(d_address));
      do! address <- (if negb (memory.(mem_displacement) =? 0) then
          do! displacement <- constant (u64 memory.(mem_displacement)) I64 instruction.(d_address);
          add address displacement I64 instruction.(d_address)
      else
          ret address);
      unpackHighGuestPackedSingleXmm address destination instruction.(d_address)).

(** [HaddpdRegReg], [HaddpdRegMem]. *)
Definition lowerHaddpdRegReg (instruction : DecodedInstruction) : M Block unit :=
  let fromMemory := bool_decide (instruction.(d_opcode) = X_HaddpdRegMem) in
  if negb (zlength instruction.(d_operands) =? 2) then
    throw (runtime_error "internal decoder error: HADDPD operand count")
  else
  do! destination <- xmm_at instruction 0;
  (if negb fromMemory then
      do! source <- xmm_at instruction 1;
      horizontalAddPackedDoubleXmm destination source instruction.(d_address)
  else
      do! memory <- memory_at instruction 1;
      if negb (memory.(mem_width) =? 128) || (if memory.(mem_ripRelative) then memory.(mem_hasBase) || present
          memory.(mem_index) else negb memory.(mem_hasBase) || present memory.(mem_index)) || negb (bool_decide
          (memory.(mem_segment) = Segment_None)) then
        throw (runtime_error "only RIP-relative or based HADDPD xmm, m128 is implemented")
      else
      do! address <- (if memory.(mem_ripRelative) then constant (u64 (instruction.(d_address) +
          instruction.(d_length))) I64 instruction.(d_address) else readGuestRegister memory.(mem_base) I64
          instruction.(d_address));
      do! address <- (if negb (memory.(mem_displacement) =? 0) then
          do! displacement <- constant (u64 memory.(mem_displacement)) I64 instruction.(d_address);
          add address displacement I64 instruction.(d_address)
      else
          ret address);
      horizontalAddGuestPackedDoubleXmm address destination instruction.(d_address)).

(** [UnpcklpsRegReg], [UnpcklpsRegMem]. *)
Definition lowerUnpcklpsRegReg (instruction : DecodedInstruction) : M Block unit :=
  let fromMemory := bool_decide (instruction.(d_opcode) = X_UnpcklpsRegMem) in
  if negb (zlength instruction.(d_operands) =? 2) then
    throw (runtime_error "internal decoder error: UNPCKLPS operand count")
  else
  do! destination <- xmm_at instruction 0;
  (if negb fromMemory then
      do! source <- xmm_at instruction 1;
      unpackLowPackedSingleXmm destination source instruction.(d_address)
  else
      do! memory <- memory_at instruction 1;
      if negb (memory.(mem_width) =? 128) || (if memory.(mem_ripRelative) then memory.(mem_hasBase) || present
          memory.(mem_index) else negb memory.(mem_hasBase) || present memory.(mem_index)) || negb (bool_decide
          (memory.(mem_segment) = Segment_None)) then
        throw (runtime_error "only RIP-relative or based UNPCKLPS xmm, m128 is implemented")
      else
      do! address <- (if memory.(mem_ripRelative) then constant (u64 (instruction.(d_address) +
          instruction.(d_length))) I64 instruction.(d_address) else readGuestRegister memory.(mem_base) I64
          instruction.(d_address));
      do! address <- (if negb (memory.(mem_displacement) =? 0) then
          do! displacement <- constant (u64 memory.(mem_displacement)) I64 instruction.(d_address);
          add address displacement I64 instruction.(d_address)
      else
          ret address);
      unpackLowGuestPackedSingleXmm address destination instruction.(d_address)).

(** [UcomisdRegReg]. *)
Definition lowerUcomisdRegReg (instruction : DecodedInstruction) : M Block unit :=
  if negb (zlength instruction.(d_operands) =? 2) then
    throw (runtime_error "internal decoder error: UCOMISD operand count")
  else
  do! destination <- xmm_at instruction 0;
  do! source <- xmm_at instruction 1;
  do! destinationBits <- readGuestXmmLane destination false instruction.(d_address);
  do! sourceBits <- readGuestXmmLane source false instruction.(d_address);
  updateUnorderedDoubleFlags destinationBits sourceBits instruction.(d_address).

(** [UcomissRegReg]. *)
Definition lowerUcomissRegReg (instruction : DecodedInstruction) : M Block unit :=
  if negb (zlength instruction.(d_operands) =? 2) then
    throw (runtime_error "internal decoder error: UCOMISS operand count")
  else
  do! destination <- xmm_at instruction 0;
  do! source <- xmm_at instruction 1;
  do! destinationBits <- readGuestXmmLane destination false instruction.(d_address);
  do! sourceBits <- readGuestXmmLane source false instruction.(d_address);
  updateUnorderedFloatFlags destinationBits sourceBits instruction.(d_address).

(** [UcomissRegMem]. *)
Definition lowerUcomissRegMem (instruction : DecodedInstruction) : M Block unit :=
  if negb (zlength instruction.(d_operands) =? 2) then
    throw (runtime_error "internal decoder error: UCOMISS memory operand count")
  else
  do! destination <- xmm_at instruction 0;
  do! memory <- memory_at instruction 1;
  if negb (memory.(mem_width) =? 32) || (if memory.(mem_ripRelative) then memory.(mem_hasBase) || present
      memory.(mem_index) else negb memory.(mem_hasBase)) || negb (bool_decide (memory.(mem_segment) =
      Segment_None)) then
    throw (runtime_error "unsupported UCOMISS memory addressing")
  else
  do! address <- (if memory.(mem_ripRelative) then constant (u64 (instruction.(d_address) +
      instruction.(d_length))) I64 instruction.(d_address) else readGuestRegister memory.(mem_base) I64
      instruction.(d_address));
  do! address <- (match memory.(mem_index) with
  | Some indexRegister =>
      do! index <- readGuestRegister indexRegister I64 instruction.(d_address);
      do! index <- (if negb (memory.(mem_scale) =? 1) then
          shiftLeft_imm index (u8 (countr_zero8 memory.(mem_scale))) I64 instruction.(d_address)
      else
          ret index);
      add address index I64 instruction.(d_address)
  | None =>
      ret address
  end);
  do! address <- (if negb (memory.(mem_displacement) =? 0) then
      do! displacement <- constant (u64 memory.(mem_displacement)) I64 instruction.(d_address);
      add address displacement I64 instruction.(d_address)
  else
      ret address);
  do! sourceBits <- loadGuest address I32 instruction.(d_address);
  do! destinationBits <- readGuestXmmLane destination false instruction.(d_address);
  updateUnorderedFloatFlags destinationBits sourceBits instruction.(d_address).
