(* ===== verification/LowerVector.v ===== *)
(** Lowering, integer vectors, shuffles, insertions and extractions ([src/x86/Lowering.cpp]): one definition for each case of
    the switch of [x86::lowerToIr], named after its first label. *)
From S2P Require Import Prelude X86State IR IRBuilder IRVerify X86Instruction DecodeBase LoweringBase.

(** [PsrldqRegImm], [PslldqRegImm]. *)
Definition lowerPsrldqRegImm (instruction : DecodedInstruction) : M Block unit :=
  if negb (zlength instruction.(d_operands) =? 2) then
    throw (runtime_error "internal decoder error: byte-shift operand count")
  else
  do! reg <- xmm_at instruction 0;
  do! immediate1 <- immediate_at instruction 1;
  let bytes := Z.land immediate1.(io_value) 0xFF in
  let right_ := bool_decide (instruction.(d_opcode) = X_PsrldqRegImm) in
  let rip := instruction.(d_address) in
  if bytes =? 0 then
    ret tt
  else
  do! zero <- constant 0 I64 rip;
  if 16 <=? bytes then
    writeGuestXmmLane reg false zero rip ;;;
    writeGuestXmmLane reg true zero rip
  else
  do! low <- readGuestXmmLane reg false rip;
  do! high <- readGuestXmmLane reg true rip;
  if 8 <=? bytes then
    let bits := u8 (u64 ((u64 (bytes - 8)) * 8)) in
    let source := if right_ then high else low in
    do! moved <- (if bits =? 0 then ret source else (if right_ then shiftRightLogical_imm source bits I64 rip else
        shiftLeft_imm source bits I64 rip));
    writeGuestXmmLane reg (negb right_) moved rip ;;;
    writeGuestXmmLane reg right_ zero rip
  else
  let bits := u8 (u64 (bytes * 8)) in
  let carry := u8 (64 - bits) in
  (if right_ then
      do! shiftRightLogical_2 <- shiftRightLogical_imm low bits I64 rip;
      do! shiftLeft_2 <- shiftLeft_imm high carry I64 rip;
      do! newLow <- bitOr shiftRightLogical_2 shiftLeft_2 I64 rip;
      do! newHigh <- shiftRightLogical_imm high bits I64 rip;
      writeGuestXmmLane reg false newLow rip ;;;
      writeGuestXmmLane reg true newHigh rip
  else
      do! shiftLeft_3 <- shiftLeft_imm high bits I64 rip;
      do! shiftRightLogical_4 <- shiftRightLogical_imm low carry I64 rip;
      do! newHigh <- bitOr shiftLeft_3 shiftRightLogical_4 I64 rip;
      do! newLow <- shiftLeft_imm low bits I64 rip;
      writeGuestXmmLane reg false newLow rip ;;;
      writeGuestXmmLane reg true newHigh rip).

(** [XorpsRegReg], [XorpdRegReg], [PxorRegReg]. *)
Definition lowerXorpsRegReg (instruction : DecodedInstruction) : M Block unit :=
  if negb (zlength instruction.(d_operands) =? 2) then
    throw (runtime_error "internal decoder error: vector xor operand count")
  else
  do! destination <- xmm_at instruction 0;
  do! source <- xmm_at instruction 1;
  do! destinationLow <- readGuestXmmLane destination false instruction.(d_address);
  do! sourceLow <- readGuestXmmLane source false instruction.(d_address);
  do! low <- bitXor destinationLow sourceLow I64 instruction.(d_address);
  writeGuestXmmLane destination false low instruction.(d_address) ;;;
  do! destinationHigh <- readGuestXmmLane destination true instruction.(d_address);
  do! sourceHigh <- readGuestXmmLane source true instruction.(d_address);
  do! high <- bitXor destinationHigh sourceHigh I64 instruction.(d_address);
  writeGuestXmmLane destination true high instruction.(d_address).

(** [VxorpsRegRegReg], [VxorpsYmmRegRegReg]. *)
Definition lowerVxorpsRegRegReg (instruction : DecodedInstruction) : M Block unit :=
  if negb (zlength instruction.(d_operands) =? 3) then
    throw (runtime_error "internal decoder error: VXORPS operand count")
  else
  do! destination <- xmm_at instruction 0;
  do! first <- xmm_at instruction 1;
  do! second <- xmm_at instruction 2;
  do! firstLow <- readGuestXmmLane first false instruction.(d_address);
  do! secondLow <- readGuestXmmLane second false instruction.(d_address);
  do! low <- bitXor firstLow secondLow I64 instruction.(d_address);
  do! firstHigh <- readGuestXmmLane first true instruction.(d_address);
  do! secondHigh <- readGuestXmmLane second true instruction.(d_address);
  do! high <- bitXor firstHigh secondHigh I64 instruction.(d_address);
  writeGuestXmmLane destination false low instruction.(d_address) ;;;
  writeGuestXmmLane destination true high instruction.(d_address) ;;;
  (if bool_decide (instruction.(d_opcode) = X_VxorpsYmmRegRegReg) then
      do! firstUpperLow <- readGuestYmmUpperLane first false instruction.(d_address);
      do! secondUpperLow <- readGuestYmmUpperLane second false instruction.(d_address);
      do! upperLow <- bitXor firstUpperLow secondUpperLow I64 instruction.(d_address);
      do! firstUpperHigh <- readGuestYmmUpperLane first true instruction.(d_address);
      do! secondUpperHigh <- readGuestYmmUpperLane second true instruction.(d_address);
      do! upperHigh <- bitXor firstUpperHigh secondUpperHigh I64 instruction.(d_address);
      writeGuestYmmUpperLane destination false upperLow instruction.(d_address) ;;;
      writeGuestYmmUpperLane destination true upperHigh instruction.(d_address)
  else
      do! zero <- constant 0 I64 instruction.(d_address);
      writeGuestYmmUpperLane destination false zero instruction.(d_address) ;;;
      writeGuestYmmUpperLane destination true zero instruction.(d_address)).

(** [VbroadcastssYmmReg]. *)
Definition lowerVbroadcastssYmmReg (instruction : DecodedInstruction) : M Block unit :=
  if negb (zlength instruction.(d_operands) =? 2) then
    throw (runtime_error "internal decoder error: VBROADCASTSS operand count")
  else
  do! destination <- xmm_at instruction 0;
  do! source <- xmm_at instruction 1;
  do! sourceLow <- readGuestXmmLane source false instruction.(d_address);
  do! dwordMask <- constant UINT32_MAX I64 instruction.(d_address);
  do! dword <- bitAnd sourceLow dwordMask I64 instruction.(d_address);
  do! upperDword <- shiftLeft_imm dword 32 I64 instruction.(d_address);
  do! packed <- bitOr dword upperDword I64 instruction.(d_address);
  writeGuestXmmLane destination false packed instruction.(d_address) ;;;
  writeGuestXmmLane destination true packed instruction.(d_address) ;;;
  writeGuestYmmUpperLane destination false packed instruction.(d_address) ;;;
  writeGuestYmmUpperLane destination true packed instruction.(d_address).

(** [PxorRegMem]. *)
Definition lowerPxorRegMem (instruction : DecodedInstruction) : M Block unit :=
  if negb (zlength instruction.(d_operands) =? 2) then
    throw (runtime_error "internal decoder error: PXOR memory operand count")
  else
  do! destination <- xmm_at instruction 0;
  do! memory <- memory_at instruction 1;
  do! address <- (if memory.(mem_ripRelative) then constant (u64 (instruction.(d_address) +
      instruction.(d_length))) I64 instruction.(d_address) else readGuestRegister memory.(mem_base) I64
      instruction.(d_address));
  do! address <- (if negb (memory.(mem_displacement) =? 0) then
      do! displacement <- constant (u64 memory.(mem_displacement)) I64 instruction.(d_address);
      add address displacement I64 instruction.(d_address)
  else
      ret address);
  xorGuestMemoryXmm address destination instruction.(d_address).

(** [XorpsRegMem]. *)
Definition lowerXorpsRegMem (instruction : DecodedInstruction) : M Block unit :=
  if negb (zlength instruction.(d_operands) =? 2) then
    throw (runtime_error "internal decoder error: XORPS memory operand count")
  else
  do! destination <- xmm_at instruction 0;
  do! memory <- memory_at instruction 1;
  do! address <- (if memory.(mem_ripRelative) then constant (u64 (instruction.(d_address) +
      instruction.(d_length))) I64 instruction.(d_address) else readGuestRegister memory.(mem_base) I64
      instruction.(d_address));
  do! address <- (if negb (memory.(mem_displacement) =? 0) then
      do! displacement <- constant (u64 memory.(mem_displacement)) I64 instruction.(d_address);
      add address displacement I64 instruction.(d_address)
  else
      ret address);
  xorGuestMemoryXmm address destination instruction.(d_address).

(** [PandRegReg]. *)
Definition lowerPandRegReg (instruction : DecodedInstruction) : M Block unit :=
  if negb (zlength instruction.(d_operands) =? 2) then
    throw (runtime_error "internal decoder error: PAND register operand count")
  else
  do! destination <- xmm_at instruction 0;
  do! source <- xmm_at instruction 1;
  do! destinationLow <- readGuestXmmLane destination false instruction.(d_address);
  do! sourceLow <- readGuestXmmLane source false instruction.(d_address);
  do! low <- bitAnd destinationLow sourceLow I64 instruction.(d_address);
  do! destinationHigh <- readGuestXmmLane destination true instruction.(d_address);
  do! sourceHigh <- readGuestXmmLane source true instruction.(d_address);
  do! high <- bitAnd destinationHigh sourceHigh I64 instruction.(d_address);
  writeGuestXmmLane destination false low instruction.(d_address) ;;;
  writeGuestXmmLane destination true high instruction.(d_address).

(** [PandRegMem]. *)
Definition lowerPandRegMem (instruction : DecodedInstruction) : M Block unit :=
  if negb (zlength instruction.(d_operands) =? 2) then
    throw (runtime_error "internal decoder error: PAND memory operand count")
  else
  do! destination <- xmm_at instruction 0;
  do! memory <- memory_at instruction 1;
  do! address <- (if memory.(mem_ripRelative) then constant (u64 (instruction.(d_address) +
      instruction.(d_length))) I64 instruction.(d_address) else readGuestRegister memory.(mem_base) I64
      instruction.(d_address));
  do! address <- (if negb (memory.(mem_displacement) =? 0) then
      do! displacement <- constant (u64 memory.(mem_displacement)) I64 instruction.(d_address);
      add address displacement I64 instruction.(d_address)
  else
      ret address);
  andGuestMemoryXmm address destination instruction.(d_address).

(** [PtestRegReg]. *)
Definition lowerPtestRegReg (instruction : DecodedInstruction) : M Block unit :=
  if negb (zlength instruction.(d_operands) =? 2) then
    throw (runtime_error "internal decoder error: PTEST operand count")
  else
  do! destination <- xmm_at instruction 0;
  do! source <- xmm_at instruction 1;
  testXmmBits destination source instruction.(d_address).

(** [PcmpeqbRegMem]. *)
Definition lowerPcmpeqbRegMem (instruction : DecodedInstruction) : M Block unit :=
  if negb (zlength instruction.(d_operands) =? 2) then
    throw (runtime_error "internal decoder error: pcmpeqb operand count")
  else
  do! destination <- xmm_at instruction 0;
  do! memory <- memory_at instruction 1;
  do! base <- readGuestRegister memory.(mem_base) I64 instruction.(d_address);
  do! displacement <- constant (u64 memory.(mem_displacement)) I64 instruction.(d_address);
  do! address <- add base displacement I64 instruction.(d_address);
  compareEqualGuestBytesXmm address destination instruction.(d_address).

(** [PcmpeqbRegReg]. *)
Definition lowerPcmpeqbRegReg (instruction : DecodedInstruction) : M Block unit :=
  if negb (zlength instruction.(d_operands) =? 2) then
    throw (runtime_error "internal decoder error: pcmpeqb register operand count")
  else
  do! destination <- xmm_at instruction 0;
  do! source <- xmm_at instruction 1;
  compareEqualXmmBytes destination source instruction.(d_address).

(** [PcmpeqdRegReg]. *)
Definition lowerPcmpeqdRegReg (instruction : DecodedInstruction) : M Block unit :=
  if negb (zlength instruction.(d_operands) =? 2) then
    throw (runtime_error "internal decoder error: PCMPEQD register operand count")
  else
  do! destination <- xmm_at instruction 0;
  do! source <- xmm_at instruction 1;
  compareEqualXmmDwords destination source instruction.(d_address).

(** [PslldRegImm]. *)
Definition lowerPslldRegImm (instruction : DecodedInstruction) : M Block unit :=
  if negb (zlength instruction.(d_operands) =? 2) then
    throw (runtime_error "internal decoder error: PSLLD operand count")
  else
  do! destination <- xmm_at instruction 0;
  do! immediate <- immediate_at instruction 1;
  shiftLeftXmmDwords destination (u8 immediate.(io_value)) instruction.(d_address).

(** [PsrldRegImm]. *)
Definition lowerPsrldRegImm (instruction : DecodedInstruction) : M Block unit :=
  if negb (zlength instruction.(d_operands) =? 2) then
    throw (runtime_error "internal decoder error: PSRLD operand count")
  else
  do! destination <- xmm_at instruction 0;
  do! immediate1 <- immediate_at instruction 1;
  let count := u8 immediate1.(io_value) in
  if 32 <=? count then
    do! zero <- constant 0 I64 instruction.(d_address);
    writeGuestXmmLane destination false zero instruction.(d_address) ;;;
    writeGuestXmmLane destination true zero instruction.(d_address)
  else
  do! dwordMask <- constant 0xFFFFFFFF I64 instruction.(d_address);
  for_each (seqZ 0 2) (fun lane _ =>
      let high := negb (lane =? 0) in
      do! laneValue <- readGuestXmmLane destination high instruction.(d_address);
      do! lowDword <- bitAnd laneValue dwordMask I64 instruction.(d_address);
      do! highDword <- shiftRightLogical_imm laneValue 32 I64 instruction.(d_address);
      do! shiftedLow <- shiftRightLogical_imm lowDword count I64 instruction.(d_address);
      do! shiftedHigh <- shiftRightLogical_imm highDword count I64 instruction.(d_address);
      do! shiftLeft_1 <- shiftLeft_imm shiftedHigh 32 I64 instruction.(d_address);
      do! combined <- bitOr shiftedLow shiftLeft_1 I64 instruction.(d_address);
      writeGuestXmmLane destination high combined instruction.(d_address)) tt.

(** [PsrlqRegImm]. *)
Definition lowerPsrlqRegImm (instruction : DecodedInstruction) : M Block unit :=
  if negb (zlength instruction.(d_operands) =? 2) then
    throw (runtime_error "internal decoder error: PSRLQ operand count")
  else
  do! destination <- xmm_at instruction 0;
  do! immediate1 <- immediate_at instruction 1;
  let immediate := u8 immediate1.(io_value) in
  if 64 <=? immediate then
    do! zero <- constant 0 I64 instruction.(d_address);
    writeGuestXmmLane destination false zero instruction.(d_address) ;;;
    writeGuestXmmLane destination true zero instruction.(d_address)
  else
  do! low <- readGuestXmmLane destination false instruction.(d_address);
  do! high <- readGuestXmmLane destination true instruction.(d_address);
  do! shiftedLow <- shiftRightLogical_imm low immediate I64 instruction.(d_address);
  do! shiftedHigh <- shiftRightLogical_imm high immediate I64 instruction.(d_address);
  writeGuestXmmLane destination false shiftedLow instruction.(d_address) ;;;
  writeGuestXmmLane destination true shiftedHigh instruction.(d_address).

(** [PadddRegReg]. *)
Definition lowerPadddRegReg (instruction : DecodedInstruction) : M Block unit :=
  if negb (zlength instruction.(d_operands) =? 2) then
    throw (runtime_error "internal decoder error: PADDD operand count")
  else
  do! destination <- xmm_at instruction 0;
  do! source <- xmm_at instruction 1;
  addXmmDwords destination source instruction.(d_address).

(** [PaddwRegReg]. *)
Definition lowerPaddwRegReg (instruction : DecodedInstruction) : M Block unit :=
  if negb (zlength instruction.(d_operands) =? 2) then
    throw (runtime_error "internal decoder error: PADDW operand count")
  else
  do! destination <- xmm_at instruction 0;
  do! source <- xmm_at instruction 1;
  addXmmWords destination source instruction.(d_address).

(** [BlendvpdRegReg]. *)
Definition lowerBlendvpdRegReg (instruction : DecodedInstruction) : M Block unit :=
  if negb (zlength instruction.(d_operands) =? 2) then
    throw (runtime_error "internal decoder error: BLENDVPD operand count")
  else
  do! destination <- xmm_at instruction 0;
  do! source <- xmm_at instruction 1;
  do! destinationLow <- readGuestXmmLane destination false instruction.(d_address);
  do! destinationHigh <- readGuestXmmLane destination true instruction.(d_address);
  do! sourceLow <- readGuestXmmLane source false instruction.(d_address);
  do! sourceHigh <- readGuestXmmLane source true instruction.(d_address);
  do! maskLow <- readGuestXmmLane 0 false instruction.(d_address);
  do! maskHigh <- readGuestXmmLane 0 true instruction.(d_address);
  let selectLane (destinationLane : ValueId) (sourceLane : ValueId) (maskLane : ValueId) : M Block ValueId :=
    do! selector <- shiftRightArithmetic_imm maskLane 63 I64 instruction.(d_address);
    do! allOnes <- constant UINT64_MAX I64 instruction.(d_address);
    do! inverted <- bitXor selector allOnes I64 instruction.(d_address);
    do! kept <- bitAnd destinationLane inverted I64 instruction.(d_address);
    do! taken <- bitAnd sourceLane selector I64 instruction.(d_address);
    bitOr kept taken I64 instruction.(d_address) in
  do! selectLane_1 <- selectLane destinationLow sourceLow maskLow;
  writeGuestXmmLane destination false selectLane_1 instruction.(d_address) ;;;
  do! selectLane_2 <- selectLane destinationHigh sourceHigh maskHigh;
  writeGuestXmmLane destination true selectLane_2 instruction.(d_address).

(** [CmppdRegRegImm]. *)
Definition lowerCmppdRegRegImm (instruction : DecodedInstruction) : M Block unit :=
  if negb (zlength instruction.(d_operands) =? 3) then
    throw (runtime_error "internal decoder error: CMPPD operand count")
  else
  do! destination <- xmm_at instruction 0;
  do! source <- xmm_at instruction 1;
  do! predicate <- immediate_at instruction 2;
  if negb (predicate.(io_width) =? 8) || (7 <? predicate.(io_value)) then
    throw (runtime_error "only CMPPD with predicate 0-7 is implemented")
  else
  comparePackedDoubleXmm destination source (u8 predicate.(io_value)) instruction.(d_address).

(** [PadddRegMem]. *)
Definition lowerPadddRegMem (instruction : DecodedInstruction) : M Block unit :=
  if negb (zlength instruction.(d_operands) =? 2) then
    throw (runtime_error "internal decoder error: PADDD memory operand count")
  else
  do! destination <- xmm_at instruction 0;
  do! memory <- memory_at instruction 1;
  if negb (memory.(mem_width) =? 128) || (if memory.(mem_ripRelative) then memory.(mem_hasBase) || present
      memory.(mem_index) else negb memory.(mem_hasBase) || present memory.(mem_index)) || negb (bool_decide
      (memory.(mem_segment) = Segment_None)) then
    throw (runtime_error "only RIP-relative or based PADDD xmm, m128 is implemented")
  else
  do! address <- (if memory.(mem_ripRelative) then constant (u64 (instruction.(d_address) +
      instruction.(d_length))) I64 instruction.(d_address) else readGuestRegister memory.(mem_base) I64
      instruction.(d_address));
  do! address <- (if negb (memory.(mem_displacement) =? 0) then
      do! displacement <- constant (u64 memory.(mem_displacement)) I64 instruction.(d_address);
      add address displacement I64 instruction.(d_address)
  else
      ret address);
  addGuestMemoryXmm address destination instruction.(d_address).

(** [PaddqRegReg]. *)
Definition lowerPaddqRegReg (instruction : DecodedInstruction) : M Block unit :=
  if negb (zlength instruction.(d_operands) =? 2) then
    throw (runtime_error "internal decoder error: PADDQ operand count")
  else
  do! destination <- xmm_at instruction 0;
  do! source <- xmm_at instruction 1;
  do! destinationLow <- readGuestXmmLane destination false instruction.(d_address);
  do! sourceLow <- readGuestXmmLane source false instruction.(d_address);
  do! low <- add destinationLow sourceLow I64 instruction.(d_address);
  do! destinationHigh <- readGuestXmmLane destination true instruction.(d_address);
  do! sourceHigh <- readGuestXmmLane source true instruction.(d_address);
  do! high <- add destinationHigh sourceHigh I64 instruction.(d_address);
  writeGuestXmmLane destination false low instruction.(d_address) ;;;
  writeGuestXmmLane destination true high instruction.(d_address).

(** [PhadddRegReg]. *)
Definition lowerPhadddRegReg (instruction : DecodedInstruction) : M Block unit :=
  if negb (zlength instruction.(d_operands) =? 2) then
    throw (runtime_error "internal decoder error: PHADDD operand count")
  else
  do! destination <- xmm_at instruction 0;
  do! source <- xmm_at instruction 1;
  horizontalAddXmmDwords destination source instruction.(d_address).

(** [PmovzxbdXmmReg]. *)
Definition lowerPmovzxbdXmmReg (instruction : DecodedInstruction) : M Block unit :=
  if negb (zlength instruction.(d_operands) =? 2) then
    throw (runtime_error "internal decoder error: PMOVZXBD operand count")
  else
  do! destination <- xmm_at instruction 0;
  do! source <- xmm_at instruction 1;
  do! sourceLow <- readGuestXmmLane source false instruction.(d_address);
  do! byteMask <- constant 0xFF I64 instruction.(d_address);
  let lowWidened := None in
  let highWidened := None in
  do! (lowWidened, highWidened) <- for_each (seqZ 0 4) (fun lane '(lowWidened, highWidened) =>
      let byte_ := sourceLow in
      do! byte_ <- (if negb (lane =? 0) then
          shiftRightLogical_imm sourceLow (u8 (lane * 8)) I64 instruction.(d_address)
      else
          ret byte_);
      do! byte_ <- bitAnd byte_ byteMask I64 instruction.(d_address);
      let shift := u8 (u32 ((lane mod 2) * 32)) in
      do! byte_ <- (if negb (shift =? 0) then
          shiftLeft_imm byte_ shift I64 instruction.(d_address)
      else
          ret byte_);
      do! (lowWidened, highWidened) <- (if lane <? 2 then
          do! choice1 <- match lowWidened with Some lowWidened' => bitOr lowWidened' byte_ I64
              instruction.(d_address) | None => ret byte_ end;
          let lowWidened := Some choice1 in
          ret (lowWidened, highWidened)
      else
          do! choice2 <- match highWidened with Some highWidened' => bitOr highWidened' byte_ I64
              instruction.(d_address) | None => ret byte_ end;
          let highWidened := Some choice2 in
          ret (lowWidened, highWidened));
      ret (lowWidened, highWidened)) (lowWidened, highWidened);
  do! lowWidened1 <- deref lowWidened;
  writeGuestXmmLane destination false lowWidened1 instruction.(d_address) ;;;
  do! highWidened1 <- deref highWidened;
  writeGuestXmmLane destination true highWidened1 instruction.(d_address).

(** [PorRegReg]. *)
Definition lowerPorRegReg (instruction : DecodedInstruction) : M Block unit :=
  if negb (zlength instruction.(d_operands) =? 2) then
    throw (runtime_error "internal decoder error: POR register operand count")
  else
  do! destination <- xmm_at instruction 0;
  do! source <- xmm_at instruction 1;
  do! destinationLow <- readGuestXmmLane destination false instruction.(d_address);
  do! sourceLow <- readGuestXmmLane source false instruction.(d_address);
  do! low <- bitOr destinationLow sourceLow I64 instruction.(d_address);
  do! destinationHigh <- readGuestXmmLane destination true instruction.(d_address);
  do! sourceHigh <- readGuestXmmLane source true instruction.(d_address);
  do! high <- bitOr destinationHigh sourceHigh I64 instruction.(d_address);
  writeGuestXmmLane destination false low instruction.(d_address) ;;;
  writeGuestXmmLane destination true high instruction.(d_address).

(** [PunpcklwdRegReg]. *)
Definition lowerPunpcklwdRegReg (instruction : DecodedInstruction) : M Block unit :=
  if negb (zlength instruction.(d_operands) =? 2) then
    throw (runtime_error "internal decoder error: PUNPCKLWD operand count")
  else
  do! xmm1 <- xmm_at instruction 0;
  do! xmm2 <- xmm_at instruction 1;
  unpackLowXmmWords xmm1 xmm2 instruction.(d_address).

(** [PunpcklqdqRegReg]. *)
Definition lowerPunpcklqdqRegReg (instruction : DecodedInstruction) : M Block unit :=
  if negb (zlength instruction.(d_operands) =? 2) then
    throw (runtime_error "internal decoder error: PUNPCKLQDQ operand count")
  else
  do! destination <- xmm_at instruction 0;
  do! source <- xmm_at instruction 1;
  do! sourceLow <- readGuestXmmLane source false instruction.(d_address);
  writeGuestXmmLane destination true sourceLow instruction.(d_address).

(** [PandnRegReg]. *)
Definition lowerPandnRegReg (instruction : DecodedInstruction) : M Block unit :=
  if negb (zlength instruction.(d_operands) =? 2) then
    throw (runtime_error "internal decoder error: pandn register operand count")
  else
  do! destination <- xmm_at instruction 0;
  do! source <- xmm_at instruction 1;
  andNotXmm destination source instruction.(d_address).

(** [PmovmskbRegXmm]. *)
Definition lowerPmovmskbRegXmm (instruction : DecodedInstruction) : M Block unit :=
  if negb (zlength instruction.(d_operands) =? 2) then
    throw (runtime_error "internal decoder error: pmovmskb operand count")
  else
  do! register1 <- register_at instruction 0;
  let destination := register1.(ro_reg) in
  do! source <- xmm_at instruction 1;
  moveXmmByteMask destination source instruction.(d_address).

(** [PshufbRegReg]. *)
Definition lowerPshufbRegReg (instruction : DecodedInstruction) : M Block unit :=
  if negb (zlength instruction.(d_operands) =? 2) then
    throw (runtime_error "internal decoder error: PSHUFB operand count")
  else
  do! xmm1 <- xmm_at instruction 0;
  do! xmm2 <- xmm_at instruction 1;
  shuffleXmmBytes xmm1 xmm2 instruction.(d_address).

(** [PshufbRegMem]. *)
Definition lowerPshufbRegMem (instruction : DecodedInstruction) : M Block unit :=
  if negb (zlength instruction.(d_operands) =? 2) then
    throw (runtime_error "internal decoder error: memory PSHUFB operand count")
  else
  do! destination <- xmm_at instruction 0;
  do! memory <- memory_at instruction 1;
  if negb (memory.(mem_width) =? 128) then
    throw (runtime_error "internal decoder error: PSHUFB memory width")
  else
  do! address1 <- effectiveAddress memory instruction;
  shuffleGuestMemoryXmmBytes address1 destination instruction.(d_address).

(** [PshufdRegRegImm]. *)
Definition lowerPshufdRegRegImm (instruction : DecodedInstruction) : M Block unit :=
  if negb (zlength instruction.(d_operands) =? 3) then
    throw (runtime_error "internal decoder error: pshufd operand count")
  else
  do! xmm1 <- xmm_at instruction 0;
  do! xmm2 <- xmm_at instruction 1;
  do! immediate1 <- immediate_at instruction 2;
  shuffleXmmDwords xmm1 xmm2 (u8 immediate1.(io_value)) instruction.(d_address).

(** [ShufpdRegRegImm]. *)
Definition lowerShufpdRegRegImm (instruction : DecodedInstruction) : M Block unit :=
  if negb (zlength instruction.(d_operands) =? 3) then
    throw (runtime_error "internal decoder error: shufpd operand count")
  else
  do! destination <- xmm_at instruction 0;
  do! source <- xmm_at instruction 1;
  do! immediate1 <- immediate_at instruction 2;
  let control := u8 immediate1.(io_value) in
  do! low <- readGuestXmmLane destination (negb (Z.land control 0x1 =? 0)) instruction.(d_address);
  do! high <- readGuestXmmLane source (negb (Z.land control 0x2 =? 0)) instruction.(d_address);
  writeGuestXmmLane destination false low instruction.(d_address) ;;;
  writeGuestXmmLane destination true high instruction.(d_address).

(** [ShufpsRegRegImm]. *)
Definition lowerShufpsRegRegImm (instruction : DecodedInstruction) : M Block unit :=
  if negb (zlength instruction.(d_operands) =? 3) then
    throw (runtime_error "internal decoder error: shufps operand count")
  else
  do! destination <- xmm_at instruction 0;
  do! source <- xmm_at instruction 1;
  do! immediate1 <- immediate_at instruction 2;
  let control := u8 immediate1.(io_value) in
  do! destinationLow <- readGuestXmmLane destination false instruction.(d_address);
  do! destinationHigh <- readGuestXmmLane destination true instruction.(d_address);
  do! sourceLow <- readGuestXmmLane source false instruction.(d_address);
  do! sourceHigh <- readGuestXmmLane source true instruction.(d_address);
  do! dwordMask <- constant 0xFFFFFFFF I64 instruction.(d_address);
  let selectDword (pairLow : ValueId) (pairHigh : ValueId) (field : Z) : M Block ValueId :=
    let lane := if negb (Z.land field 2 =? 0) then pairHigh else pairLow in
    do! dword <- (if negb (Z.land field 1 =? 0) then shiftRightLogical_imm lane 32 I64 instruction.(d_address) else
        ret lane);
    bitAnd dword dwordMask I64 instruction.(d_address) in
  do! selectDword_1 <- selectDword destinationLow destinationHigh (u8 (Z.land control 0x3));
  do! selectDword_2 <- selectDword destinationLow destinationHigh (u8 (Z.land (Z.shiftr control 2) 0x3));
  do! shiftLeft_1 <- shiftLeft_imm selectDword_2 32 I64 instruction.(d_address);
  do! low <- bitOr selectDword_1 shiftLeft_1 I64 instruction.(d_address);
  do! selectDword_3 <- selectDword sourceLow sourceHigh (u8 (Z.land (Z.shiftr control 4) 0x3));
  do! selectDword_4 <- selectDword sourceLow sourceHigh (u8 (Z.land (Z.shiftr control 6) 0x3));
  do! shiftLeft_2 <- shiftLeft_imm selectDword_4 32 I64 instruction.(d_address);
  do! high <- bitOr selectDword_3 shiftLeft_2 I64 instruction.(d_address);
  writeGuestXmmLane destination false low instruction.(d_address) ;;;
  writeGuestXmmLane destination true high instruction.(d_address).

(** [PinsrbXmmReg]. *)
Definition lowerPinsrbXmmReg (instruction : DecodedInstruction) : M Block unit :=
  if negb (zlength instruction.(d_operands) =? 3) then
    throw (runtime_error "internal decoder error: PINSRB operand count")
  else
  do! destination <- xmm_at instruction 0;
  do! source <- register_at instruction 1;
  do! immediate <- immediate_at instruction 2;
  do! value <- readGuestRegister source.(ro_reg) I64 instruction.(d_address);
  writeGuestXmmByte destination (u8 (Z.land immediate.(io_value) 0x0F)) value instruction.(d_address).

(** [PinsrbXmmMem]. *)
Definition lowerPinsrbXmmMem (instruction : DecodedInstruction) : M Block unit :=
  if negb (zlength instruction.(d_operands) =? 3) then
    throw (runtime_error "internal decoder error: PINSRB memory operand count")
  else
  do! destination <- xmm_at instruction 0;
  do! memory <- memory_at instruction 1;
  do! immediate <- immediate_at instruction 2;
  if negb (memory.(mem_width) =? 8) || negb memory.(mem_hasBase) || present memory.(mem_index) ||
      memory.(mem_ripRelative) || negb (bool_decide (memory.(mem_segment) = Segment_None)) then
    throw (runtime_error "only based byte PINSRB memory operands are implemented")
  else
  do! address <- readGuestRegister memory.(mem_base) I64 instruction.(d_address);
  do! address <- (if negb (memory.(mem_displacement) =? 0) then
      do! displacement <- constant (u64 memory.(mem_displacement)) I64 instruction.(d_address);
      add address displacement I64 instruction.(d_address)
  else
      ret address);
  do! value <- loadGuest address I8 instruction.(d_address);
  writeGuestXmmByte destination (u8 (Z.land immediate.(io_value) 0x0F)) value instruction.(d_address).

(** [PinsrdXmmMem]. *)
Definition lowerPinsrdXmmMem (instruction : DecodedInstruction) : M Block unit :=
  if negb (zlength instruction.(d_operands) =? 3) then
    throw (runtime_error "internal decoder error: PINSRD operand count")
  else
  do! destination <- xmm_at instruction 0;
  do! memory <- memory_at instruction 1;
  do! immediate <- immediate_at instruction 2;
  do! address <- readGuestRegister memory.(mem_base) I64 instruction.(d_address);
  do! address <- (if negb (memory.(mem_displacement) =? 0) then
      do! displacement <- constant (u64 memory.(mem_displacement)) I64 instruction.(d_address);
      add address displacement I64 instruction.(d_address)
  else
      ret address);
  do! value <- loadGuest address I32 instruction.(d_address);
  writeGuestXmmDword destination (u8 (Z.land immediate.(io_value) 3)) value instruction.(d_address).

(** [PinsrdXmmReg]. *)
Definition lowerPinsrdXmmReg (instruction : DecodedInstruction) : M Block unit :=
  if negb (zlength instruction.(d_operands) =? 3) then
    throw (runtime_error "internal decoder error: PINSRD register operand count")
  else
  do! destination <- xmm_at instruction 0;
  do! source <- register_at instruction 1;
  do! immediate <- immediate_at instruction 2;
  (if source.(ro_width) =? 64 then
      do! value <- readGuestRegister source.(ro_reg) I64 instruction.(d_address);
      writeGuestXmmLane destination (negb (Z.land immediate.(io_value) 1 =? 0)) value instruction.(d_address)
  else
      if source.(ro_width) =? 32 then
        do! value <- readGuestRegister source.(ro_reg) I32 instruction.(d_address);
        writeGuestXmmDword destination (u8 (Z.land immediate.(io_value) 3)) value instruction.(d_address)
      else
      throw (runtime_error "PINSRD/PINSRQ source has an unsupported width")).

(** [PextrwRegXmmImm]. *)
Definition lowerPextrwRegXmmImm (instruction : DecodedInstruction) : M Block unit :=
  if negb (zlength instruction.(d_operands) =? 3) then
    throw (runtime_error "internal decoder error: PEXTRW operand count")
  else
  do! destination <- register_at instruction 0;
  do! source <- xmm_at instruction 1;
  do! count <- immediate_at instruction 2;
  if negb (destination.(ro_width) =? 32) || negb (count.(io_width) =? 8) || (7 <? count.(io_value)) then
    throw (runtime_error "only PEXTRW r32, xmm, word-index is implemented")
  else
  do! lane <- readGuestXmmLane source (negb (Z.land count.(io_value) 4 =? 0)) instruction.(d_address);
  let shift := u8 (u64 ((Z.land count.(io_value) 3) * 16)) in
  let word := lane in
  do! word <- (if negb (shift =? 0) then
      shiftRightLogical_imm word shift I64 instruction.(d_address)
  else
      ret word);
  do! constant1 <- constant 0xFFFF I64 instruction.(d_address);
  do! word <- bitAnd word constant1 I64 instruction.(d_address);
  writeGuestRegister destination.(ro_reg) word I32 instruction.(d_address).

(** [MovmskpsRegXmm]. *)
Definition lowerMovmskpsRegXmm (instruction : DecodedInstruction) : M Block unit :=
  if negb (zlength instruction.(d_operands) =? 2) then
    throw (runtime_error "internal decoder error: MOVMSKPS operand count")
  else
  do! destination <- register_at instruction 0;
  do! source <- xmm_at instruction 1;
  if negb (destination.(ro_width) =? 32) then
    throw (runtime_error "only MOVMSKPS r32, xmm is implemented")
  else
  do! low <- readGuestXmmLane source false instruction.(d_address);
  do! high <- readGuestXmmLane source true instruction.(d_address);
  do! one <- constant 1 I64 instruction.(d_address);
  do! shiftRightLogical_1 <- shiftRightLogical_imm low 31 I64 instruction.(d_address);
  do! bit0 <- bitAnd shiftRightLogical_1 one I64 instruction.(d_address);
  do! bit1 <- shiftRightLogical_imm low 63 I64 instruction.(d_address);
  do! bit1Shifted <- shiftLeft_imm bit1 1 I64 instruction.(d_address);
  do! shiftRightLogical_3 <- shiftRightLogical_imm high 31 I64 instruction.(d_address);
  do! bit2 <- bitAnd shiftRightLogical_3 one I64 instruction.(d_address);
  do! bit2Shifted <- shiftLeft_imm bit2 2 I64 instruction.(d_address);
  do! bit3 <- shiftRightLogical_imm high 63 I64 instruction.(d_address);
  do! bit3Shifted <- shiftLeft_imm bit3 3 I64 instruction.(d_address);
  do! mask <- bitOr bit0 bit1Shifted I64 instruction.(d_address);
  do! mask <- bitOr mask bit2Shifted I64 instruction.(d_address);
  do! mask <- bitOr mask bit3Shifted I64 instruction.(d_address);
  writeGuestRegister destination.(ro_reg) mask I32 instruction.(d_address).

(** [MovmskpdRegXmm]. *)
Definition lowerMovmskpdRegXmm (instruction : DecodedInstruction) : M Block unit :=
  if negb (zlength instruction.(d_operands) =? 2) then
    throw (runtime_error "internal decoder error: MOVMSKPD operand count")
  else
  do! destination <- register_at instruction 0;
  do! source <- xmm_at instruction 1;
  if negb (destination.(ro_width) =? 32) then
    throw (runtime_error "only MOVMSKPD r32, xmm is implemented")
  else
  do! low <- readGuestXmmLane source false instruction.(d_address);
  do! high <- readGuestXmmLane source true instruction.(d_address);
  do! bit0 <- shiftRightLogical_imm low 63 I64 instruction.(d_address);
  do! bit1 <- shiftRightLogical_imm high 63 I64 instruction.(d_address);
  do! bit1Shifted <- shiftLeft_imm bit1 1 I64 instruction.(d_address);
  do! mask <- bitOr bit0 bit1Shifted I64 instruction.(d_address);
  writeGuestRegister destination.(ro_reg) mask I32 instruction.(d_address).

(** [PextrdRegXmmImm]. *)
Definition lowerPextrdRegXmmImm (instruction : DecodedInstruction) : M Block unit :=
  if negb (zlength instruction.(d_operands) =? 3) then
    throw (runtime_error "internal decoder error: PEXTRD operand count")
  else
  do! destination <- register_at instruction 0;
  do! source <- xmm_at instruction 1;
  do! count <- immediate_at instruction 2;
  if negb (destination.(ro_width) =? 32) || negb (count.(io_width) =? 8) || (3 <? count.(io_value)) then
    throw (runtime_error "only PEXTRD r32, xmm, dword-index is implemented")
  else
  do! lane <- readGuestXmmLane source (negb (Z.land count.(io_value) 2 =? 0)) instruction.(d_address);
  let dword := lane in
  do! dword <- (if negb (Z.land count.(io_value) 1 =? 0) then
      shiftRightLogical_imm lane 32 I64 instruction.(d_address)
  else
      ret dword);
  do! constant1 <- constant 0xFFFFFFFF I64 instruction.(d_address);
  do! dword <- bitAnd dword constant1 I64 instruction.(d_address);
  writeGuestRegister destination.(ro_reg) dword I32 instruction.(d_address).

(** [PinsrwXmmMem], [PinsrwXmmReg]. *)
Definition lowerPinsrwXmmMem (instruction : DecodedInstruction) : M Block unit :=
  let fromMemory := bool_decide (instruction.(d_opcode) = X_PinsrwXmmMem) in
  if negb (zlength instruction.(d_operands) =? 3) then
    throw (runtime_error "internal decoder error: PINSRW operand count")
  else
  do! destination <- xmm_at instruction 0;
  do! count <- immediate_at instruction 2;
  if negb (count.(io_width) =? 8) || (7 <? count.(io_value)) then
    throw (runtime_error "only PINSRW word counts 0-7 are implemented")
  else
  let inserted := 0 in
  do! inserted <- (if negb fromMemory then
      do! source <- register_at instruction 1;
      if (negb (source.(ro_width) =? 32) && negb (source.(ro_width) =? 64)) || negb (source.(ro_byteOffset) =? 0)
          then
        throw (runtime_error "only PINSRW xmm, r32/r64, imm8 is implemented")
      else
      do! sourceValue <- readGuestRegister source.(ro_reg) I64 instruction.(d_address);
      do! constant1 <- constant 0xFFFF I64 instruction.(d_address);
      bitAnd sourceValue constant1 I64 instruction.(d_address)
  else
      do! memory <- memory_at instruction 1;
      if negb (memory.(mem_width) =? 16) || negb memory.(mem_hasBase) || present memory.(mem_index) ||
          memory.(mem_ripRelative) || negb (bool_decide (memory.(mem_segment) = Segment_None)) then
        throw (runtime_error "only based PINSRW xmm, m16, imm8 is implemented")
      else
      do! address <- readGuestRegister memory.(mem_base) I64 instruction.(d_address);
      do! address <- (if negb (memory.(mem_displacement) =? 0) then
          do! displacement <- constant (u64 memory.(mem_displacement)) I64 instruction.(d_address);
          add address displacement I64 instruction.(d_address)
      else
          ret address);
      loadGuest address I16 instruction.(d_address));
  let high := negb (Z.land count.(io_value) 4 =? 0) in
  let shift := u8 (u64 ((Z.land count.(io_value) 3) * 16)) in
  do! lane <- readGuestXmmLane destination high instruction.(d_address);
  do! constant3 <- constant 0xFFFF I64 instruction.(d_address);
  do! wordMask <- shiftLeft_imm constant3 shift I64 instruction.(d_address);
  do! allOnes <- constant UINT64_MAX I64 instruction.(d_address);
  do! bitXor_1 <- bitXor wordMask allOnes I64 instruction.(d_address);
  do! cleared <- bitAnd lane bitXor_1 I64 instruction.(d_address);
  let placed := inserted in
  do! placed <- (if negb (shift =? 0) then
      shiftLeft_imm inserted shift I64 instruction.(d_address)
  else
      ret placed);
  do! combined <- bitOr cleared placed I64 instruction.(d_address);
  writeGuestXmmLane destination high combined instruction.(d_address).

(** [ExtractpsMemXmmImm]. *)
Definition lowerExtractpsMemXmmImm (instruction : DecodedInstruction) : M Block unit :=
  if negb (zlength instruction.(d_operands) =? 3) then
    throw (runtime_error "internal decoder error: EXTRACTPS operand count")
  else
  do! memory <- memory_at instruction 0;
  do! source <- xmm_at instruction 1;
  do! immediate <- immediate_at instruction 2;
  if negb (memory.(mem_width) =? 32) || negb memory.(mem_hasBase) || memory.(mem_ripRelative) || present
      memory.(mem_index) || negb (bool_decide (memory.(mem_segment) = Segment_None)) || negb (immediate.(io_width)
      =? 8) then
    throw (runtime_error "only based dword EXTRACTPS memory destinations are implemented")
  else
  do! address <- readGuestRegister memory.(mem_base) I64 instruction.(d_address);
  do! address <- (if negb (memory.(mem_displacement) =? 0) then
      do! displacement <- constant (u64 memory.(mem_displacement)) I64 instruction.(d_address);
      add address displacement I64 instruction.(d_address)
  else
      ret address);
  let lane := u8 (Z.land immediate.(io_value) 0x3) in
  do! value <- readGuestXmmLane source (2 <=? lane) instruction.(d_address);
  do! value <- (if negb (Z.land lane 1 =? 0) then
      shiftRightLogical_imm value 32 I64 instruction.(d_address)
  else
      ret value);
  storeGuest address value I32 instruction.(d_address).

(** [PmovsxbdRegMem]. *)
Definition lowerPmovsxbdRegMem (instruction : DecodedInstruction) : M Block unit :=
  if negb (zlength instruction.(d_operands) =? 2) then
    throw (runtime_error "internal decoder error: PMOVSXBD operand count")
  else
  do! destination <- xmm_at instruction 0;
  do! memory <- memory_at instruction 1;
  if negb memory.(mem_ripRelative) || memory.(mem_hasBase) || present memory.(mem_index) || negb
      (memory.(mem_width) =? 32) then
    throw (runtime_error "only RIP-relative PMOVSXBD memory is implemented")
  else
  do! base <- constant (u64 (instruction.(d_address) + instruction.(d_length))) I64 instruction.(d_address);
  do! displacement <- constant (u64 memory.(mem_displacement)) I64 instruction.(d_address);
  do! address <- add base displacement I64 instruction.(d_address);
  loadGuestSignExtendedBytesXmm address destination instruction.(d_address).

(** [PmovsxbqRegMem]. *)
Definition lowerPmovsxbqRegMem (instruction : DecodedInstruction) : M Block unit :=
  if negb (zlength instruction.(d_operands) =? 2) then
    throw (runtime_error "internal decoder error: PMOVSXBQ operand count")
  else
  do! destination <- xmm_at instruction 0;
  do! memory <- memory_at instruction 1;
  if negb memory.(mem_ripRelative) || memory.(mem_hasBase) || present memory.(mem_index) || negb
      (memory.(mem_width) =? 16) then
    throw (runtime_error "only RIP-relative PMOVSXBQ memory is implemented")
  else
  do! address <- constant (u64 ((u64 (instruction.(d_address) + instruction.(d_length))) + (u64
      memory.(mem_displacement)))) I64 instruction.(d_address);
  do! word <- loadGuest address I16 instruction.(d_address);
  let lanes := (0, 0) in
  do! lanes <- for_each (seqZ 0 2) (fun lane lanes =>
      do! shiftLeft_1 <- shiftLeft_imm word (u8 (u64 (56 - (u64 (8 * lane))))) I64 instruction.(d_address);
      do! shiftRightArithmetic_1 <- shiftRightArithmetic_imm shiftLeft_1 56 I64 instruction.(d_address);
      ret (if lane =? 0 then (shiftRightArithmetic_1, lanes.2) else (lanes.1, shiftRightArithmetic_1))) lanes;
  writeGuestXmmLane destination false lanes.1 instruction.(d_address) ;;;
  writeGuestXmmLane destination true lanes.2 instruction.(d_address).

(** [PmovsxdqRegReg]. *)
Definition lowerPmovsxdqRegReg (instruction : DecodedInstruction) : M Block unit :=
  if negb (zlength instruction.(d_operands) =? 2) then
    throw (runtime_error "internal decoder error: PMOVSXDQ operand count")
  else
  do! destination <- xmm_at instruction 0;
  do! source <- xmm_at instruction 1;
  do! packed <- readGuestXmmLane source false instruction.(d_address);
  do! dwordMask <- constant 0xFFFFFFFF I64 instruction.(d_address);
  do! lowDword <- bitAnd packed dwordMask I64 instruction.(d_address);
  do! shifted <- shiftRightLogical_imm packed 32 I64 instruction.(d_address);
  do! highDword <- bitAnd shifted dwordMask I64 instruction.(d_address);
  do! signExtend32_1 <- signExtend32 lowDword instruction.(d_address);
  writeGuestXmmLane destination false signExtend32_1 instruction.(d_address) ;;;
  do! signExtend32_2 <- signExtend32 highDword instruction.(d_address);
  writeGuestXmmLane destination true signExtend32_2 instruction.(d_address).

(** [PmovsxdqRegMem]. *)
Definition lowerPmovsxdqRegMem (instruction : DecodedInstruction) : M Block unit :=
  if negb (zlength instruction.(d_operands) =? 2) then
    throw (runtime_error "internal decoder error: PMOVSXDQ operand count")
  else
  do! destination <- xmm_at instruction 0;
  do! memory <- memory_at instruction 1;
  if negb memory.(mem_ripRelative) || memory.(mem_hasBase) || present memory.(mem_index) || negb
      (memory.(mem_width) =? 64) then
    throw (runtime_error "only RIP-relative PMOVSXDQ memory is implemented")
  else
  do! base <- constant (u64 (instruction.(d_address) + instruction.(d_length))) I64 instruction.(d_address);
  do! displacement <- constant (u64 memory.(mem_displacement)) I64 instruction.(d_address);
  do! address <- add base displacement I64 instruction.(d_address);
  loadGuestSignExtendedDwordsXmm address destination instruction.(d_address).

(** [PblendwRegRegImm]. *)
Definition lowerPblendwRegRegImm (instruction : DecodedInstruction) : M Block unit :=
  if negb (zlength instruction.(d_operands) =? 3) then
    throw (runtime_error "internal decoder error: PBLENDW operand count")
  else
  do! destination <- xmm_at instruction 0;
  do! source <- xmm_at instruction 1;
  do! immediate <- immediate_at instruction 2;
  blendXmmWords destination source (u8 immediate.(io_value)) instruction.(d_address).

(** [PalignrRegRegImm]. *)
Definition lowerPalignrRegRegImm (instruction : DecodedInstruction) : M Block unit :=
  if negb (zlength instruction.(d_operands) =? 3) then
    throw (runtime_error "internal decoder error: palignr operand count")
  else
  do! xmm1 <- xmm_at instruction 0;
  do! xmm2 <- xmm_at instruction 1;
  do! immediate1 <- immediate_at instruction 2;
  alignRightXmmBytes xmm1 xmm2 (u8 immediate1.(io_value)) instruction.(d_address).
