(* ===== verification/LowerControl.v ===== *)
(** Lowering, fences, string instructions, system instructions and the exits of a block ([src/x86/Lowering.cpp]): one definition for each case of
    the switch of [x86::lowerToIr], named after its first label. *)
From S2P Require Import Prelude X86State IR IRBuilder IRVerify X86Instruction DecodeBase LoweringBase.

(** [Nop]. *)
Definition lowerNop (instruction : DecodedInstruction) : M Block unit :=
  ret tt.

(** [Vzeroupper]. *)
Definition lowerVzeroupper (instruction : DecodedInstruction) : M Block unit :=
  do! zero <- constant 0 I64 instruction.(d_address);
  for_each (seqZ 0 16) (fun encoded _ =>
      let reg := encoded in
      writeGuestYmmUpperLane reg false zero instruction.(d_address) ;;;
      writeGuestYmmUpperLane reg true zero instruction.(d_address)) tt.

(** [Lfence]. *)
Definition lowerLfence (instruction : DecodedInstruction) : M Block unit :=
  loadFence instruction.(d_address).

(** [Cld], [Std]. *)
Definition lowerCld (instruction : DecodedInstruction) : M Block unit :=
  writeDirectionFlag (bool_decide (instruction.(d_opcode) = X_Std)) instruction.(d_address).

(** [Mfence]. *)
Definition lowerMfence (instruction : DecodedInstruction) : M Block unit :=
  storeFence instruction.(d_address).

(** [SidtMem]. *)
Definition lowerSidtMem (instruction : DecodedInstruction) : M Block unit :=
  do! test1 <- (if negb (zlength instruction.(d_operands) =? 1) then ret true else do! operand1 <- operand_at
      instruction 0; ret (negb (holds_memory operand1)));
  if test1 then
    throw (runtime_error "internal decoder error: SIDT operand differs")
  else
  do! memory <- memory_at instruction 0;
  if negb (memory.(mem_width) =? 80) || negb memory.(mem_hasBase) || memory.(mem_ripRelative) || present
      memory.(mem_index) || negb (bool_decide (memory.(mem_segment) = Segment_None)) then
    throw (runtime_error "only based 80-bit SIDT memory operands are implemented")
  else
  do! address <- readGuestRegister memory.(mem_base) I64 instruction.(d_address);
  do! address <- (if negb (memory.(mem_displacement) =? 0) then
      do! displacement <- constant (u64 memory.(mem_displacement)) I64 instruction.(d_address);
      add address displacement I64 instruction.(d_address)
  else
      ret address);
  storeGuestIdtr address instruction.(d_address).

(** [RepMovsb]. *)
Definition lowerRepMovsb (instruction : DecodedInstruction) : M Block unit :=
  repeatMoveByte instruction.(d_address).

(** [RepStosb], [RepStosd], [RepStosq]. *)
Definition lowerRepStosb (instruction : DecodedInstruction) : M Block unit :=
  let width := if bool_decide (instruction.(d_opcode) = X_RepStosb) then I8 else if bool_decide
      (instruction.(d_opcode) = X_RepStosd) then I32 else I64 in
  repeatStore width instruction.(d_address).

(** [Rdtsc]. *)
Definition lowerRdtsc (instruction : DecodedInstruction) : M Block unit :=
  readTimestampCounter instruction.(d_address).

(** [Cpuid]. *)
Definition lowerCpuid (instruction : DecodedInstruction) : M Block unit :=
  cpuid instruction.(d_address).

(** [JmpRelative]. *)
Definition lowerJmpRelative (instruction : DecodedInstruction) : M Block unit :=
  do! branchTarget1 <- deref instruction.(d_branchTarget);
  exitDirect_address branchTarget1 instruction.(d_address).

(** [JmpReg]. *)
Definition lowerJmpReg (instruction : DecodedInstruction) : M Block unit :=
  if negb (zlength instruction.(d_operands) =? 1) then
    throw (runtime_error "internal decoder error: indirect jump operand count")
  else
  do! register1 <- register_at instruction 0;
  do! target <- readGuestRegister register1.(ro_reg) I64 instruction.(d_address);
  exitDirect_value target instruction.(d_address).

(** [JmpMem]. *)
Definition lowerJmpMem (instruction : DecodedInstruction) : M Block unit :=
  if negb (zlength instruction.(d_operands) =? 1) then
    throw (runtime_error "internal decoder error: memory-indirect jump operand count")
  else
  do! memory <- memory_at instruction 0;
  if negb (memory.(mem_width) =? 64) || (memory.(mem_ripRelative) && memory.(mem_hasBase)) || (negb
      memory.(mem_ripRelative) && negb memory.(mem_hasBase)) then
    throw (runtime_error "only based and RIP-relative qword memory JMP are implemented")
  else
  do! address <- (if memory.(mem_ripRelative) then constant (u64 (instruction.(d_address) +
      instruction.(d_length))) I64 instruction.(d_address) else readGuestRegister memory.(mem_base) I64
      instruction.(d_address));
  do! address <- (match memory.(mem_index) with
  | Some indexRegister =>
      do! index <- readGuestRegister indexRegister I64 instruction.(d_address);
      do! index <- (if negb (memory.(mem_scale) =? 1) then
          shiftLeft_imm index (u8 (countr_zero8 memory.(mem_scale))) I64 instruction.(d_address)
      else
          ret index);
      add address index I64 instruction.(d_address)
  | None =>
      ret address
  end);
  do! address <- (if negb (memory.(mem_displacement) =? 0) then
      do! displacement <- constant (u64 memory.(mem_displacement)) I64 instruction.(d_address);
      add address displacement I64 instruction.(d_address)
  else
      ret address);
  do! target <- loadGuest address I64 instruction.(d_address);
  exitDirect_value target instruction.(d_address).

(** [JccRelative]. *)
Definition lowerJccRelative (instruction : DecodedInstruction) : M Block unit :=
  do! condition1 <- deref instruction.(d_condition);
  do! branchTarget1 <- deref instruction.(d_branchTarget);
  do! fallthrough1 <- deref instruction.(d_fallthrough);
  exitConditional condition1 branchTarget1 fallthrough1 instruction.(d_address).

(** [CallRelative]. *)
Definition lowerCallRelative (instruction : DecodedInstruction) : M Block unit :=
  do! branchTarget1 <- deref instruction.(d_branchTarget);
  do! fallthrough1 <- deref instruction.(d_fallthrough);
  exitCall_address branchTarget1 fallthrough1 instruction.(d_address).

(** [CallReg]. *)
Definition lowerCallReg (instruction : DecodedInstruction) : M Block unit :=
  if negb (zlength instruction.(d_operands) =? 1) || absent instruction.(d_fallthrough) then
    throw (runtime_error "internal decoder error: register-indirect call operands")
  else
  do! register1 <- register_at instruction 0;
  do! target <- readGuestRegister register1.(ro_reg) I64 instruction.(d_address);
  do! fallthrough1 <- deref instruction.(d_fallthrough);
  exitCall_value target fallthrough1 instruction.(d_address).

(** [CallMem]. *)
Definition lowerCallMem (instruction : DecodedInstruction) : M Block unit :=
  if negb (zlength instruction.(d_operands) =? 1) || absent instruction.(d_fallthrough) then
    throw (runtime_error "internal decoder error: indirect call operands")
  else
  do! memory <- memory_at instruction 0;
  if negb (memory.(mem_width) =? 64) || (memory.(mem_ripRelative) && memory.(mem_hasBase)) || (negb
      memory.(mem_ripRelative) && negb memory.(mem_hasBase)) then
    throw (runtime_error "only based and RIP-relative qword memory CALL are implemented")
  else
  do! address <- (if memory.(mem_ripRelative) then constant (u64 (instruction.(d_address) +
      instruction.(d_length))) I64 instruction.(d_address) else readGuestRegister memory.(mem_base) I64
      instruction.(d_address));
  do! address <- (match memory.(mem_index) with
  | Some indexRegister =>
      do! index <- readGuestRegister indexRegister I64 instruction.(d_address);
      do! index <- (if negb (memory.(mem_scale) =? 1) then
          shiftLeft_imm index (u8 (countr_zero8 memory.(mem_scale))) I64 instruction.(d_address)
      else
          ret index);
      add address index I64 instruction.(d_address)
  | None =>
      ret address
  end);
  do! address <- (if negb (memory.(mem_displacement) =? 0) then
      do! displacement <- constant (u64 memory.(mem_displacement)) I64 instruction.(d_address);
      add address displacement I64 instruction.(d_address)
  else
      ret address);
  do! target <- loadGuest address I64 instruction.(d_address);
  do! fallthrough1 <- deref instruction.(d_fallthrough);
  exitCall_value target fallthrough1 instruction.(d_address).

(** [Syscall]. *)
Definition lowerSyscall (instruction : DecodedInstruction) : M Block unit :=
  do! fallthrough1 <- deref instruction.(d_fallthrough);
  exitSyscall fallthrough1 instruction.(d_address).

(** [Ret]. *)
Definition lowerRet (instruction : DecodedInstruction) : M Block unit :=
  exitBlock instruction.(d_address).
