(* ===== verification/Lowering.v ===== *)
(** The lowering of a block ([x86::lowerToIr] of [src/x86/Lowering.cpp]).  The checks of a
    debug build are those of the parameter [debug]. *)
From S2P Require Import Prelude X86State IR IRBuilder IRVerify X86Instruction DecodeBase LoweringBase LowerData LowerArithmetic LowerAtomic LowerShift LowerLogic LowerVectorMove LowerFloat LowerVector LowerControl.

(** The switch over the opcode. *)
Definition lowerInstruction (instruction : DecodedInstruction) : M Block unit :=
  match instruction.(d_opcode) with
  | X_MovRegImm => lowerMovRegImm instruction
  | X_MovRegReg => lowerMovRegReg instruction
  | X_MovMemReg => lowerMovMemReg instruction
  | X_MovRegMem => lowerMovRegMem instruction
  | X_MovzxRegReg => lowerMovzxRegReg instruction
  | X_MovsxRegReg => lowerMovsxRegReg instruction
  | X_MovsxRegMem => lowerMovsxRegMem instruction
  | X_MovzxRegMem => lowerMovzxRegMem instruction
  | X_MovsxdRegReg => lowerMovsxdRegReg instruction
  | X_MovsxdRegMem => lowerMovsxdRegMem instruction
  | X_Cdqe => lowerCdqe instruction
  | X_Cwde => lowerCwde instruction
  | X_MovMemImm => lowerMovMemImm instruction
  | X_MovapsMemReg | X_MovapdMemReg | X_MovupsMemReg | X_VmovupsMemReg | X_MovdqaMemReg | X_MovdquMemReg =>
      lowerMovapsMemReg instruction
  | X_VmovupsYmmMemReg | X_VmovapsYmmMemReg => lowerVmovupsYmmMemReg instruction
  | X_MovapdRegReg | X_MovapsRegReg | X_MovdqaRegReg => lowerMovapdRegReg instruction
  | X_MovlhpsRegReg => lowerMovlhpsRegReg instruction
  | X_MovlhpsRegMem => lowerMovlhpsRegMem instruction
  | X_MovddupRegReg | X_MovddupRegMem => lowerMovddupRegReg instruction
  | X_PcmpeqqRegReg | X_PcmpeqqRegMem => lowerPcmpeqqRegReg instruction
  | X_MovdXmmReg | X_MovqXmmReg => lowerMovdXmmReg instruction
  | X_MovdXmmMem => lowerMovdXmmMem instruction
  | X_MovsdRegMem | X_MovsdMemXmm => lowerMovsdRegMem instruction
  | X_Cvttsd2siRegXmm | X_Cvttsd2siRegMem => lowerCvttsd2siRegXmm instruction
  | X_Cvtsi2sdXmmReg | X_Cvtsi2sdXmmMem => lowerCvtsi2sdXmmReg instruction
  | X_Cvtdq2pdXmmReg | X_Cvtdq2pdXmmMem => lowerCvtdq2pdXmmReg instruction
  | X_Cvtss2sdXmmReg | X_Cvtss2sdXmmMem => lowerCvtss2sdXmmReg instruction
  | X_AddsdXmmReg | X_AddsdXmmMem | X_SubsdXmmReg | X_SubsdXmmMem | X_MulsdXmmReg | X_MulsdXmmMem | X_DivsdXmmReg |
      X_DivsdXmmMem | X_SqrtsdXmmReg | X_SqrtsdXmmMem | X_MinsdXmmReg | X_MinsdXmmMem | X_MaxsdXmmReg |
      X_MaxsdXmmMem => lowerAddsdXmmReg instruction
  | X_DivpdRegReg | X_DivpdRegMem | X_SubpdRegReg | X_SubpdRegMem | X_MulpdRegReg | X_MulpdRegMem | X_AddpdRegReg |
      X_AddpdRegMem | X_SqrtpdRegReg | X_SqrtpdRegMem => lowerDivpdRegReg instruction
  | X_UnpckhpsRegReg | X_UnpckhpsRegMem => lowerUnpckhpsRegReg instruction
  | X_HaddpdRegReg | X_HaddpdRegMem => lowerHaddpdRegReg instruction
  | X_UnpcklpsRegReg | X_UnpcklpsRegMem => lowerUnpcklpsRegReg instruction
  | X_MovlpsRegMem | X_MovlpsMemXmm => lowerMovlpsRegMem instruction
  | X_MovdMemXmm | X_MovssMemXmm => lowerMovdMemXmm instruction
  | X_MovssRegMem => lowerMovssRegMem instruction
  | X_MovssXmmXmm => lowerMovssXmmXmm instruction
  | X_MovdRegXmm => lowerMovdRegXmm instruction
  | X_MovqRegXmm => lowerMovqRegXmm instruction
  | X_VmovupsYmmRegMem | X_VmovapsYmmRegMem => lowerVmovupsYmmRegMem instruction
  | X_MovapsRegMem | X_MovapdRegMem | X_MovupsRegMem | X_VmovupsRegMem | X_MovdquRegMem | X_MovdqaRegMem =>
      lowerMovapsRegMem instruction
  | X_MovqMemXmm => lowerMovqMemXmm instruction
  | X_MovqXmmMem => lowerMovqXmmMem instruction
  | X_LeaRegRipRelative => lowerLeaRegRipRelative instruction
  | X_LeaRegMem => lowerLeaRegMem instruction
  | X_AddRegImm => lowerAddRegImm instruction
  | X_AdcRegReg => lowerAdcRegReg instruction
  | X_AdcRegMem => lowerAdcRegMem instruction
  | X_AdcRegImm => lowerAdcRegImm instruction
  | X_AddRegReg => lowerAddRegReg instruction
  | X_AddRegMem => lowerAddRegMem instruction
  | X_AddMemReg => lowerAddMemReg instruction
  | X_AddMemImm => lowerAddMemImm instruction
  | X_SubMemImm => lowerSubMemImm instruction
  | X_PsrldqRegImm | X_PslldqRegImm => lowerPsrldqRegImm instruction
  | X_IncReg => lowerIncReg instruction
  | X_DecReg => lowerDecReg instruction
  | X_IncMem => lowerIncMem instruction
  | X_DecMem => lowerDecMem instruction
  | X_LockBtsMemImm => lowerLockBtsMemImm instruction
  | X_CmpxchgMemReg => lowerCmpxchgMemReg instruction
  | X_Cmpxchg16bMem => lowerCmpxchg16bMem instruction
  | X_XchgMemReg => lowerXchgMemReg instruction
  | X_LockAddMemReg => lowerLockAddMemReg instruction
  | X_LockXaddMemReg => lowerLockXaddMemReg instruction
  | X_LockOrMemReg => lowerLockOrMemReg instruction
  | X_LockOrMemImm | X_LockAndMemImm => lowerLockOrMemImm instruction
  | X_LockIncMem | X_LockDecMem => lowerLockIncMem instruction
  | X_SubRegImm => lowerSubRegImm instruction
  | X_SbbRegImm => lowerSbbRegImm instruction
  | X_SbbRegReg => lowerSbbRegReg instruction
  | X_SubRegReg => lowerSubRegReg instruction
  | X_SubRegMem => lowerSubRegMem instruction
  | X_SubMemReg => lowerSubMemReg instruction
  | X_ShlRegImm => lowerShlRegImm instruction
  | X_ShlMemImm => lowerShlMemImm instruction
  | X_ShrMemImm => lowerShrMemImm instruction
  | X_ShlRegCl => lowerShlRegCl instruction
  | X_ShrRegImm => lowerShrRegImm instruction
  | X_ShrRegCl => lowerShrRegCl instruction
  | X_SarRegCl => lowerSarRegCl instruction
  | X_SarRegImm => lowerSarRegImm instruction
  | X_RolRegImm => lowerRolRegImm instruction
  | X_RolRegCl => lowerRolRegCl instruction
  | X_RorRegImm => lowerRorRegImm instruction
  | X_RorRegCl => lowerRorRegCl instruction
  | X_BswapReg => lowerBswapReg instruction
  | X_NotReg => lowerNotReg instruction
  | X_NegReg => lowerNegReg instruction
  | X_MulReg => lowerMulReg instruction
  | X_ImulReg => lowerImulReg instruction
  | X_MulMem => lowerMulMem instruction
  | X_ImulMem => lowerImulMem instruction
  | X_DivReg => lowerDivReg instruction
  | X_DivMem => lowerDivMem instruction
  | X_IdivReg => lowerIdivReg instruction
  | X_ImulRegReg => lowerImulRegReg instruction
  | X_ImulRegMem => lowerImulRegMem instruction
  | X_ImulRegRegImm => lowerImulRegRegImm instruction
  | X_ImulRegMemImm => lowerImulRegMemImm instruction
  | X_ShrdRegRegImm => lowerShrdRegRegImm instruction
  | X_ShldRegRegImm => lowerShldRegRegImm instruction
  | X_OrRegReg => lowerOrRegReg instruction
  | X_OrRegMem => lowerOrRegMem instruction
  | X_OrMemReg => lowerOrMemReg instruction
  | X_OrMemImm => lowerOrMemImm instruction
  | X_OrRegImm => lowerOrRegImm instruction
  | X_XorRegReg => lowerXorRegReg instruction
  | X_XorRegMem => lowerXorRegMem instruction
  | X_XorRegImm => lowerXorRegImm instruction
  | X_AndRegReg => lowerAndRegReg instruction
  | X_AndRegMem => lowerAndRegMem instruction
  | X_AndMemReg => lowerAndMemReg instruction
  | X_AndMemImm => lowerAndMemImm instruction
  | X_BitScanForwardRegReg => lowerBitScanForwardRegReg instruction
  | X_BitTestRegImm => lowerBitTestRegImm instruction
  | X_BitSetRegImm | X_BitResetRegImm => lowerBitSetRegImm instruction
  | X_BitTestRegReg => lowerBitTestRegReg instruction
  | X_BitSetRegReg => lowerBitSetRegReg instruction
  | X_BitTestMemImm => lowerBitTestMemImm instruction
  | X_BitScanReverseRegReg => lowerBitScanReverseRegReg instruction
  | X_XorpsRegReg | X_XorpdRegReg | X_PxorRegReg => lowerXorpsRegReg instruction
  | X_VxorpsRegRegReg | X_VxorpsYmmRegRegReg => lowerVxorpsRegRegReg instruction
  | X_VbroadcastssYmmReg => lowerVbroadcastssYmmReg instruction
  | X_PxorRegMem => lowerPxorRegMem instruction
  | X_XorpsRegMem => lowerXorpsRegMem instruction
  | X_PandRegReg => lowerPandRegReg instruction
  | X_PandRegMem => lowerPandRegMem instruction
  | X_PtestRegReg => lowerPtestRegReg instruction
  | X_PcmpeqbRegMem => lowerPcmpeqbRegMem instruction
  | X_PcmpeqbRegReg => lowerPcmpeqbRegReg instruction
  | X_PcmpeqdRegReg => lowerPcmpeqdRegReg instruction
  | X_PslldRegImm => lowerPslldRegImm instruction
  | X_PsrldRegImm => lowerPsrldRegImm instruction
  | X_PsrlqRegImm => lowerPsrlqRegImm instruction
  | X_PadddRegReg => lowerPadddRegReg instruction
  | X_PaddwRegReg => lowerPaddwRegReg instruction
  | X_BlendvpdRegReg => lowerBlendvpdRegReg instruction
  | X_CmppdRegRegImm => lowerCmppdRegRegImm instruction
  | X_PadddRegMem => lowerPadddRegMem instruction
  | X_PaddqRegReg => lowerPaddqRegReg instruction
  | X_PhadddRegReg => lowerPhadddRegReg instruction
  | X_PmovzxbdXmmReg => lowerPmovzxbdXmmReg instruction
  | X_PorRegReg => lowerPorRegReg instruction
  | X_PunpcklwdRegReg => lowerPunpcklwdRegReg instruction
  | X_PunpcklqdqRegReg => lowerPunpcklqdqRegReg instruction
  | X_PandnRegReg => lowerPandnRegReg instruction
  | X_PmovmskbRegXmm => lowerPmovmskbRegXmm instruction
  | X_PshufbRegReg => lowerPshufbRegReg instruction
  | X_PshufbRegMem => lowerPshufbRegMem instruction
  | X_PshufdRegRegImm => lowerPshufdRegRegImm instruction
  | X_ShufpdRegRegImm => lowerShufpdRegRegImm instruction
  | X_ShufpsRegRegImm => lowerShufpsRegRegImm instruction
  | X_PinsrbXmmReg => lowerPinsrbXmmReg instruction
  | X_PinsrbXmmMem => lowerPinsrbXmmMem instruction
  | X_PinsrdXmmMem => lowerPinsrdXmmMem instruction
  | X_PinsrdXmmReg => lowerPinsrdXmmReg instruction
  | X_PextrwRegXmmImm => lowerPextrwRegXmmImm instruction
  | X_MovmskpsRegXmm => lowerMovmskpsRegXmm instruction
  | X_MovmskpdRegXmm => lowerMovmskpdRegXmm instruction
  | X_PextrdRegXmmImm => lowerPextrdRegXmmImm instruction
  | X_UcomisdRegReg => lowerUcomisdRegReg instruction
  | X_UcomissRegReg => lowerUcomissRegReg instruction
  | X_UcomissRegMem => lowerUcomissRegMem instruction
  | X_PinsrwXmmMem | X_PinsrwXmmReg => lowerPinsrwXmmMem instruction
  | X_ExtractpsMemXmmImm => lowerExtractpsMemXmmImm instruction
  | X_PmovsxbdRegMem => lowerPmovsxbdRegMem instruction
  | X_PmovsxbqRegMem => lowerPmovsxbqRegMem instruction
  | X_PmovsxdqRegReg => lowerPmovsxdqRegReg instruction
  | X_PmovsxdqRegMem => lowerPmovsxdqRegMem instruction
  | X_PblendwRegRegImm => lowerPblendwRegRegImm instruction
  | X_PalignrRegRegImm => lowerPalignrRegRegImm instruction
  | X_AndRegImm => lowerAndRegImm instruction
  | X_TestRegReg => lowerTestRegReg instruction
  | X_TestReg8Reg8 => lowerTestReg8Reg8 instruction
  | X_TestMemReg => lowerTestMemReg instruction
  | X_TestRegImm => lowerTestRegImm instruction
  | X_TestMemImm => lowerTestMemImm instruction
  | X_CmpRegImm => lowerCmpRegImm instruction
  | X_CmpRegReg => lowerCmpRegReg instruction
  | X_CmpRegMem => lowerCmpRegMem instruction
  | X_CmpMemReg => lowerCmpMemReg instruction
  | X_CmpMemImm => lowerCmpMemImm instruction
  | X_SetccReg => lowerSetccReg instruction
  | X_SetccMem => lowerSetccMem instruction
  | X_CmovccReg => lowerCmovccReg instruction
  | X_CmovccRegMem => lowerCmovccRegMem instruction
  | X_Push => lowerPush instruction
  | X_Pop => lowerPop instruction
  | X_Leave => lowerLeave instruction
  | X_Nop => lowerNop instruction
  | X_Vzeroupper => lowerVzeroupper instruction
  | X_Lfence => lowerLfence instruction
  | X_Cld | X_Std => lowerCld instruction
  | X_Mfence => lowerMfence instruction
  | X_SidtMem => lowerSidtMem instruction
  | X_RepMovsb => lowerRepMovsb instruction
  | X_RepStosb | X_RepStosd | X_RepStosq => lowerRepStosb instruction
  | X_Rdtsc => lowerRdtsc instruction
  | X_Cpuid => lowerCpuid instruction
  | X_JmpRelative => lowerJmpRelative instruction
  | X_JmpReg => lowerJmpReg instruction
  | X_JmpMem => lowerJmpMem instruction
  | X_JccRelative => lowerJccRelative instruction
  | X_CallRelative => lowerCallRelative instruction
  | X_CallReg => lowerCallReg instruction
  | X_CallMem => lowerCallMem instruction
  | X_Syscall => lowerSyscall instruction
  | X_Ret => lowerRet instruction
  end.

(** [for (const auto &instruction : decoded)]. *)
Fixpoint lowerInstructions (decoded : list DecodedInstruction) : M Block unit :=
  match decoded with
  | [] => ret tt
  | instruction :: decoded => lowerInstruction instruction ;;; lowerInstructions decoded
  end.

(** The exit of a block whose last instruction does not end it. *)
Definition lowerFallthrough (last : DecodedInstruction) : M Block unit :=
  if negb (terminatesBlock last.(d_opcode)) then
    if UINT64_MAX - last.(d_length) <? last.(d_address) then
      throw (runtime_error "x86 instruction fallthrough overflows guest RIP")
    else exitDirect_address (u64 (last.(d_address) + last.(d_length))) last.(d_address)
  else ret tt.

Definition lowerToIr (debug : bool) (decoded : list DecodedInstruction) : outcome Block :=
  match decoded with
  | [] => Throw (runtime_error "cannot lower an empty x86 block")
  | front :: rest =>
      let! block := ((lowerInstructions decoded ;;; lowerFallthrough (List.last rest front) ;;; finish)
                       (newBuilder front.(d_address))).2 in
      match if debug then verify block else [] with
      | error :: _ => Throw (runtime_error (String.append "IR verification failed: " error))
      | [] => Ok block
      end
  end.
