(* ===== verification/LoweringRules.v ===== *)
(** The interface between the builder and its clients: a client that gives a method
    values the block has gets an open block with one more operation back. *)
From stdpp Require Import relations.
From S2P Require Import Prelude X86State IR IRBuilder IRVerify IRVerifySpec IRBuilderSpec.

(** [v] is one of the first [n] values. *)
Definition is_value (n : Z) (v : ValueId) : Prop := 0 <= v < n.

(** A method that appends an operation with a result: its operands must satisfy [P] of
    the number of values. *)
Definition Returns (m : M Block ValueId) (P : Z -> Prop) : Prop := forall b,
  P b.(b_valueCount) -> has_room b -> 0 <= b.(b_valueCount) ->
  builder_step b (m b).1 /\ (m b).2 = Ok b.(b_valueCount) /\ (m b).1.(b_valueCount) = b.(b_valueCount) + 1.

(** A method that appends an operation without a result. *)
Definition Appends (m : M Block unit) (P : Z -> Prop) : Prop := forall b,
  P b.(b_valueCount) -> builder_step b (m b).1 /\ (m b).2 = Ok tt /\ (m b).1.(b_valueCount) = b.(b_valueCount).

(** A method that ends the block. *)
Definition Exits (m : M Block unit) (P : Z -> Prop) : Prop := forall b,
  P b.(b_valueCount) -> builder_exit b (m b).1 /\ (m b).2 = Ok tt.

Lemma nextValue_count b : has_room b -> 0 <= b.(b_valueCount) -> u32 (b.(b_valueCount) + 1) = b.(b_valueCount) + 1.
Proof. unfold has_room. intros Hr H0. unfold u32. apply wrap_small. unfold in_range. lia. Qed.

Ltac operands_of H := repeat match type of H with _ /\ _ => destruct H as [? H] end.
Ltac returns rule :=
  intros b H Hr H0; operands_of H; split_and!;
  [apply rule; assumption|reflexivity|exact (nextValue_count b Hr H0)].
Ltac appends rule := intros b H; operands_of H; split_and!; [apply rule; assumption|reflexivity|reflexivity].
Ltac exits rule := intros b H; operands_of H; split; [apply rule; assumption|reflexivity].

(** The lemmas are found by the name of the method. *)
Create HintDb builder discriminated.
#[export] Hint Constants Opaque : builder.
#[export] Hint Variables Opaque : builder.

(** ** Operations *)

Lemma Returns_constant value width rip : Returns (constant value width rip) (fun _ => True).
Proof. returns step_constant. Qed.
Lemma Returns_readGuestRegister reg width rip : Returns (readGuestRegister reg width rip) (fun _ => True).
Proof. returns step_readGuestRegister. Qed.
Lemma Returns_readGuestGsBase rip : Returns (readGuestGsBase rip) (fun _ => True).
Proof. returns step_readGuestGsBase. Qed.
Lemma Appends_writeGuestRegister reg value width rip :
  Appends (writeGuestRegister reg value width rip) (fun n => is_value n value).
Proof. appends step_writeGuestRegister. Qed.
Lemma Appends_conditionalMoveGuestRegister_reg destination source condition width rip :
  Appends (conditionalMoveGuestRegister_reg destination source condition width rip) (fun _ => True).
Proof. appends step_conditionalMoveGuestRegister_reg. Qed.
Lemma Appends_conditionalMoveGuestRegister_value destination source condition width rip :
  Appends (conditionalMoveGuestRegister_value destination source condition width rip)
    (fun n => is_value n source).
Proof. appends step_conditionalMoveGuestRegister_value. Qed.
Lemma Returns_readGuestXmmLane reg high rip : Returns (readGuestXmmLane reg high rip) (fun _ => True).
Proof. returns step_readGuestXmmLane. Qed.
Lemma Returns_readGuestYmmUpperLane reg high rip : Returns (readGuestYmmUpperLane reg high rip) (fun _ => True).
Proof. returns step_readGuestYmmUpperLane. Qed.
Lemma Appends_writeGuestXmmLane reg high value rip :
  Appends (writeGuestXmmLane reg high value rip) (fun n => is_value n value).
Proof. appends step_writeGuestXmmLane. Qed.
Lemma Appends_writeGuestYmmUpperLane reg high value rip :
  Appends (writeGuestYmmUpperLane reg high value rip) (fun n => is_value n value).
Proof. appends step_writeGuestYmmUpperLane. Qed.
Lemma Appends_writeGuestXmmByte reg lane value rip :
  Appends (writeGuestXmmByte reg lane value rip) (fun n => is_value n value /\ lane < 16).
Proof. appends step_writeGuestXmmByte. Qed.
Lemma Appends_writeGuestXmmDword reg lane value rip :
  Appends (writeGuestXmmDword reg lane value rip) (fun n => is_value n value /\ lane < 4).
Proof. appends step_writeGuestXmmDword. Qed.
Lemma Returns_add lhs rhs width rip :
  Returns (add lhs rhs width rip) (fun n => is_value n lhs /\ is_value n rhs).
Proof. returns step_add. Qed.
Lemma Returns_sub lhs rhs width rip :
  Returns (sub lhs rhs width rip) (fun n => is_value n lhs /\ is_value n rhs).
Proof. returns step_sub. Qed.
Lemma Returns_shiftLeft_imm value count width rip :
  Returns (shiftLeft_imm value count width rip) (fun n => is_value n value).
Proof. returns step_shiftLeft_imm. Qed.
Lemma Returns_shiftLeft_value value count width rip :
  Returns (shiftLeft_value value count width rip) (fun n => is_value n value /\ is_value n count).
Proof. returns step_shiftLeft_value. Qed.
Lemma Returns_shiftRightLogical_imm value count width rip :
  Returns (shiftRightLogical_imm value count width rip) (fun n => is_value n value).
Proof. returns step_shiftRightLogical_imm. Qed.
Lemma Returns_shiftRightLogical_value value count width rip :
  Returns (shiftRightLogical_value value count width rip) (fun n => is_value n value /\ is_value n count).
Proof. returns step_shiftRightLogical_value. Qed.
Lemma Returns_shiftRightArithmetic_imm value count width rip :
  Returns (shiftRightArithmetic_imm value count width rip) (fun n => is_value n value).
Proof. returns step_shiftRightArithmetic_imm. Qed.
Lemma Returns_shiftRightArithmetic_value value count width rip :
  Returns (shiftRightArithmetic_value value count width rip) (fun n => is_value n value /\ is_value n count).
Proof. returns step_shiftRightArithmetic_value. Qed.
Lemma Returns_multiplyLow lhs rhs width rip :
  Returns (multiplyLow lhs rhs width rip) (fun n => is_value n lhs /\ is_value n rhs).
Proof. returns step_multiplyLow. Qed.
Lemma Returns_multiplyHighUnsigned lhs rhs width rip :
  Returns (multiplyHighUnsigned lhs rhs width rip) (fun n => is_value n lhs /\ is_value n rhs).
Proof. returns step_multiplyHighUnsigned. Qed.
Lemma Returns_multiplyHighSigned lhs rhs width rip :
  Returns (multiplyHighSigned lhs rhs width rip) (fun n => is_value n lhs /\ is_value n rhs).
Proof. returns step_multiplyHighSigned. Qed.
Lemma Returns_shiftRightDouble low high count width rip :
  Returns (shiftRightDouble low high count width rip) (fun n => is_value n low /\ is_value n high).
Proof. returns step_shiftRightDouble. Qed.
Lemma Returns_bitAnd lhs rhs width rip :
  Returns (bitAnd lhs rhs width rip) (fun n => is_value n lhs /\ is_value n rhs).
Proof. returns step_bitAnd. Qed.
Lemma Returns_bitOr lhs rhs width rip :
  Returns (bitOr lhs rhs width rip) (fun n => is_value n lhs /\ is_value n rhs).
Proof. returns step_bitOr. Qed.
Lemma Returns_bitXor lhs rhs width rip :
  Returns (bitXor lhs rhs width rip) (fun n => is_value n lhs /\ is_value n rhs).
Proof. returns step_bitXor. Qed.
Lemma Returns_byteSwap value width rip :
  Returns (byteSwap value width rip) (fun n => is_value n value /\ width ∈ [I32; I64]).
Proof. returns step_byteSwap. Qed.
Lemma Returns_signExtend32 value rip : Returns (signExtend32 value rip) (fun n => is_value n value).
Proof. returns step_signExtend32. Qed.
Lemma Returns_evaluateCondition condition rip : Returns (evaluateCondition condition rip) (fun _ => True).
Proof. returns step_evaluateCondition. Qed.
Lemma Returns_loadGuest address width rip : Returns (loadGuest address width rip) (fun n => is_value n address).
Proof. returns step_loadGuest. Qed.
Lemma Appends_storeGuest address value width rip :
  Appends (storeGuest address value width rip) (fun n => is_value n address /\ is_value n value).
Proof. appends step_storeGuest. Qed.
Lemma Appends_storeGuestXmm address reg aligned rip :
  Appends (storeGuestXmm address reg aligned rip) (fun n => is_value n address).
Proof. appends step_storeGuestXmm. Qed.
Lemma Appends_storeGuestYmm address reg aligned rip :
  Appends (storeGuestYmm address reg aligned rip) (fun n => is_value n address).
Proof. appends step_storeGuestYmm. Qed.
Lemma Appends_loadGuestXmm address reg aligned rip :
  Appends (loadGuestXmm address reg aligned rip) (fun n => is_value n address).
Proof. appends step_loadGuestXmm. Qed.
Lemma Appends_loadGuestYmm address reg aligned rip :
  Appends (loadGuestYmm address reg aligned rip) (fun n => is_value n address).
Proof. appends step_loadGuestYmm. Qed.
Lemma Appends_loadGuestSignExtendedBytesXmm address reg rip :
  Appends (loadGuestSignExtendedBytesXmm address reg rip) (fun n => is_value n address).
Proof. appends step_loadGuestSignExtendedBytesXmm. Qed.
Lemma Appends_loadGuestSignExtendedDwordsXmm address reg rip :
  Appends (loadGuestSignExtendedDwordsXmm address reg rip) (fun n => is_value n address).
Proof. appends step_loadGuestSignExtendedDwordsXmm. Qed.
Lemma Appends_xorGuestMemoryXmm address reg rip :
  Appends (xorGuestMemoryXmm address reg rip) (fun n => is_value n address).
Proof. appends step_xorGuestMemoryXmm. Qed.
Lemma Appends_andGuestMemoryXmm address reg rip :
  Appends (andGuestMemoryXmm address reg rip) (fun n => is_value n address).
Proof. appends step_andGuestMemoryXmm. Qed.
Lemma Appends_addGuestMemoryXmm address reg rip :
  Appends (addGuestMemoryXmm address reg rip) (fun n => is_value n address).
Proof. appends step_addGuestMemoryXmm. Qed.
Lemma Appends_testXmmBits destination source rip : Appends (testXmmBits destination source rip) (fun _ => True).
Proof. appends step_testXmmBits. Qed.
Lemma Appends_compareEqualGuestBytesXmm address reg rip :
  Appends (compareEqualGuestBytesXmm address reg rip) (fun n => is_value n address).
Proof. appends step_compareEqualGuestBytesXmm. Qed.
Lemma Appends_compareEqualGuestQwordsXmm address reg rip :
  Appends (compareEqualGuestQwordsXmm address reg rip) (fun n => is_value n address).
Proof. appends step_compareEqualGuestQwordsXmm. Qed.
Lemma Appends_compareEqualXmmBytes destination source rip :
  Appends (compareEqualXmmBytes destination source rip) (fun _ => True).
Proof. appends step_compareEqualXmmBytes. Qed.
Lemma Appends_compareEqualXmmDwords destination source rip :
  Appends (compareEqualXmmDwords destination source rip) (fun _ => True).
Proof. appends step_compareEqualXmmDwords. Qed.
Lemma Appends_compareEqualXmmQwords destination source rip :
  Appends (compareEqualXmmQwords destination source rip) (fun _ => True).
Proof. appends step_compareEqualXmmQwords. Qed.
Lemma Appends_shiftLeftXmmDwords destination count rip :
  Appends (shiftLeftXmmDwords destination count rip) (fun _ => True).
Proof. appends step_shiftLeftXmmDwords. Qed.
Lemma Appends_addXmmWords destination source rip : Appends (addXmmWords destination source rip) (fun _ => True).
Proof. appends step_addXmmWords. Qed.
Lemma Appends_comparePackedDoubleXmm destination source predicate rip :
  Appends (comparePackedDoubleXmm destination source predicate rip) (fun _ => True).
Proof. appends step_comparePackedDoubleXmm. Qed.
Lemma Appends_arithmeticPackedDoubleXmm destination source operation rip :
  Appends (arithmeticPackedDoubleXmm destination source operation rip) (fun _ => operation <= 4).
Proof. appends step_arithmeticPackedDoubleXmm. Qed.
Lemma Appends_arithmeticGuestMemoryPackedDoubleXmm address destination operation rip :
  Appends (arithmeticGuestMemoryPackedDoubleXmm address destination operation rip)
    (fun n => is_value n address /\ operation <= 4).
Proof. appends step_arithmeticGuestMemoryPackedDoubleXmm. Qed.
Lemma Appends_unpackHighPackedSingleXmm destination source rip :
  Appends (unpackHighPackedSingleXmm destination source rip) (fun _ => True).
Proof. appends step_unpackHighPackedSingleXmm. Qed.
Lemma Appends_unpackHighGuestPackedSingleXmm address destination rip :
  Appends (unpackHighGuestPackedSingleXmm address destination rip) (fun n => is_value n address).
Proof. appends step_unpackHighGuestPackedSingleXmm. Qed.
Lemma Appends_horizontalAddPackedDoubleXmm destination source rip :
  Appends (horizontalAddPackedDoubleXmm destination source rip) (fun _ => True).
Proof. appends step_horizontalAddPackedDoubleXmm. Qed.
Lemma Appends_horizontalAddGuestPackedDoubleXmm address destination rip :
  Appends (horizontalAddGuestPackedDoubleXmm address destination rip) (fun n => is_value n address).
Proof. appends step_horizontalAddGuestPackedDoubleXmm. Qed.
Lemma Appends_unpackLowPackedSingleXmm destination source rip :
  Appends (unpackLowPackedSingleXmm destination source rip) (fun _ => True).
Proof. appends step_unpackLowPackedSingleXmm. Qed.
Lemma Appends_unpackLowGuestPackedSingleXmm address destination rip :
  Appends (unpackLowGuestPackedSingleXmm address destination rip) (fun n => is_value n address).
Proof. appends step_unpackLowGuestPackedSingleXmm. Qed.
Lemma Appends_updateUnorderedDoubleFlags destinationBits sourceBits rip :
  Appends (updateUnorderedDoubleFlags destinationBits sourceBits rip)
    (fun n => is_value n destinationBits /\ is_value n sourceBits).
Proof. appends step_updateUnorderedDoubleFlags. Qed.
Lemma Appends_updateUnorderedFloatFlags destinationBits sourceBits rip :
  Appends (updateUnorderedFloatFlags destinationBits sourceBits rip)
    (fun n => is_value n destinationBits /\ is_value n sourceBits).
Proof. appends step_updateUnorderedFloatFlags. Qed.
Lemma Appends_convertIntToDoubleXmm value destination width rip :
  Appends (convertIntToDoubleXmm value destination width rip) (fun n => is_value n value /\ width ∈ [I32; I64]).
Proof. appends step_convertIntToDoubleXmm. Qed.
Lemma Appends_convertDoubleToInt bits destination width rip :
  Appends (convertDoubleToInt bits destination width rip) (fun n => is_value n bits /\ width ∈ [I32; I64]).
Proof. appends step_convertDoubleToInt. Qed.
Lemma Appends_convertFloatToDoubleXmm value destination rip :
  Appends (convertFloatToDoubleXmm value destination rip) (fun n => is_value n value).
Proof. appends step_convertFloatToDoubleXmm. Qed.
Lemma Appends_convertInt32x2ToDoubleXmm lowBits destination rip :
  Appends (convertInt32x2ToDoubleXmm lowBits destination rip) (fun n => is_value n lowBits).
Proof. appends step_convertInt32x2ToDoubleXmm. Qed.
Lemma Appends_scalarDoubleXmm sourceBits destination operation rip :
  Appends (scalarDoubleXmm sourceBits destination operation rip)
    (fun n => is_value n sourceBits /\ operation <= 6).
Proof. appends step_scalarDoubleXmm. Qed.
Lemma Appends_addXmmDwords destination source rip :
  Appends (addXmmDwords destination source rip) (fun _ => True).
Proof. appends step_addXmmDwords. Qed.
Lemma Appends_horizontalAddXmmDwords destination source rip :
  Appends (horizontalAddXmmDwords destination source rip) (fun _ => True).
Proof. appends step_horizontalAddXmmDwords. Qed.
Lemma Appends_andNotXmm destination source rip : Appends (andNotXmm destination source rip) (fun _ => True).
Proof. appends step_andNotXmm. Qed.
Lemma Appends_moveXmmByteMask destination source rip :
  Appends (moveXmmByteMask destination source rip) (fun _ => True).
Proof. appends step_moveXmmByteMask. Qed.
Lemma Appends_shuffleXmmBytes destination source rip :
  Appends (shuffleXmmBytes destination source rip) (fun _ => True).
Proof. appends step_shuffleXmmBytes. Qed.
Lemma Appends_shuffleGuestMemoryXmmBytes address destination rip :
  Appends (shuffleGuestMemoryXmmBytes address destination rip) (fun n => is_value n address).
Proof. appends step_shuffleGuestMemoryXmmBytes. Qed.
Lemma Appends_shuffleXmmDwords destination source control rip :
  Appends (shuffleXmmDwords destination source control rip) (fun _ => control <= 0xFF).
Proof. appends step_shuffleXmmDwords. Qed.
Lemma Appends_alignRightXmmBytes destination source count rip :
  Appends (alignRightXmmBytes destination source count rip) (fun _ => count <= 0xFF).
Proof. appends step_alignRightXmmBytes. Qed.
Lemma Appends_blendXmmWords destination source mask rip :
  Appends (blendXmmWords destination source mask rip) (fun _ => mask <= 0xFF).
Proof. appends step_blendXmmWords. Qed.
Lemma Appends_unpackLowXmmWords destination source rip :
  Appends (unpackLowXmmWords destination source rip) (fun _ => True).
Proof. appends step_unpackLowXmmWords. Qed.
Lemma Appends_bitScanForward destination source width rip :
  Appends (bitScanForward destination source width rip) (fun _ => True).
Proof. appends step_bitScanForward. Qed.
Lemma Appends_bitScanReverse destination source width rip :
  Appends (bitScanReverse destination source width rip) (fun _ => True).
Proof. appends step_bitScanReverse. Qed.
Lemma Appends_repeatMoveByte rip : Appends (repeatMoveByte rip) (fun _ => True).
Proof. appends step_repeatMoveByte. Qed.
Lemma Appends_repeatStore width rip : Appends (repeatStore width rip) (fun _ => True).
Proof. appends step_repeatStore. Qed.
Lemma Appends_divideUnsignedByte divisor rip :
  Appends (divideUnsignedByte divisor rip) (fun n => is_value n divisor).
Proof. appends step_divideUnsignedByte. Qed.
Lemma Appends_divideUnsignedDword divisor rip :
  Appends (divideUnsignedDword divisor rip) (fun n => is_value n divisor).
Proof. appends step_divideUnsignedDword. Qed.
Lemma Appends_divideUnsignedQword divisor rip :
  Appends (divideUnsignedQword divisor rip) (fun n => is_value n divisor).
Proof. appends step_divideUnsignedQword. Qed.
Lemma Appends_divideSignedDword divisor rip :
  Appends (divideSignedDword divisor rip) (fun n => is_value n divisor).
Proof. appends step_divideSignedDword. Qed.
Lemma Appends_push newStackPointer value width rip :
  Appends (push newStackPointer value width rip) (fun n => is_value n newStackPointer /\ is_value n value).
Proof. appends step_push. Qed.
Lemma Appends_addGuestMemory address source width rip :
  Appends (addGuestMemory address source width rip) (fun n => is_value n address /\ is_value n source).
Proof. appends step_addGuestMemory. Qed.
Lemma Appends_subGuestMemory address source width rip :
  Appends (subGuestMemory address source width rip)
    (fun n => is_value n address /\ is_value n source /\ width ∈ [I8; I32; I64]).
Proof. appends step_subGuestMemory. Qed.
Lemma Appends_orGuestMemory address source width rip :
  Appends (orGuestMemory address source width rip) (fun n => is_value n address /\ is_value n source).
Proof. appends step_orGuestMemory. Qed.
Lemma Appends_andGuestMemory address source width rip :
  Appends (andGuestMemory address source width rip) (fun n => is_value n address /\ is_value n source).
Proof. appends step_andGuestMemory. Qed.
Lemma Appends_shiftLeftGuestMemory address count width rip :
  Appends (shiftLeftGuestMemory address count width rip) (fun n => is_value n address /\ width ∈ [I64]).
Proof. appends step_shiftLeftGuestMemory. Qed.
Lemma Appends_shiftRightLogicalGuestMemory address count width rip :
  Appends (shiftRightLogicalGuestMemory address count width rip)
    (fun n => is_value n address /\ width ∈ [I32; I64]).
Proof. appends step_shiftRightLogicalGuestMemory. Qed.
Lemma Appends_incrementGuestMemory address width rip :
  Appends (incrementGuestMemory address width rip) (fun n => is_value n address).
Proof. appends step_incrementGuestMemory. Qed.
Lemma Appends_decrementGuestMemory address width rip :
  Appends (decrementGuestMemory address width rip) (fun n => is_value n address).
Proof. appends step_decrementGuestMemory. Qed.
Lemma Appends_compareExchangeGuestMemory address source width rip :
  Appends (compareExchangeGuestMemory address source width rip)
    (fun n => is_value n address /\ is_value n source /\ width ∈ [I8; I32; I64]).
Proof. appends step_compareExchangeGuestMemory. Qed.
Lemma Appends_compareExchangeGuestPair address rip :
  Appends (compareExchangeGuestPair address rip) (fun n => is_value n address).
Proof. appends step_compareExchangeGuestPair. Qed.
Lemma Appends_exchangeGuestMemory address source destination width rip :
  Appends (exchangeGuestMemory address source destination width rip)
    (fun n => is_value n address /\ is_value n source /\ width ∈ [I8; I32; I64]).
Proof. appends step_exchangeGuestMemory. Qed.
Lemma Appends_lockedAddGuestMemory address source width rip :
  Appends (lockedAddGuestMemory address source width rip)
    (fun n => is_value n address /\ is_value n source /\ width ∈ [I32; I64]).
Proof. appends step_lockedAddGuestMemory. Qed.
Lemma Appends_lockedExchangeAddGuestMemory address source sourceRegister width rip :
  Appends (lockedExchangeAddGuestMemory address source sourceRegister width rip)
    (fun n => is_value n address /\ is_value n source /\ width ∈ [I16; I32; I64]).
Proof. appends step_lockedExchangeAddGuestMemory. Qed.
Lemma Appends_lockedIncrementGuestMemory address width rip :
  Appends (lockedIncrementGuestMemory address width rip) (fun n => is_value n address /\ width ∈ [I32; I64]).
Proof. appends step_lockedIncrementGuestMemory. Qed.
Lemma Appends_lockedDecrementGuestMemory address width rip :
  Appends (lockedDecrementGuestMemory address width rip) (fun n => is_value n address /\ width ∈ [I32; I64]).
Proof. appends step_lockedDecrementGuestMemory. Qed.
Lemma Appends_lockedOrGuestMemory address immediate width rip :
  Appends (lockedOrGuestMemory address immediate width rip) (fun n => is_value n address /\ is_value n immediate).
Proof. appends step_lockedOrGuestMemory. Qed.
Lemma Appends_lockedAndGuestMemory address immediate width rip :
  Appends (lockedAndGuestMemory address immediate width rip)
    (fun n => is_value n address /\ is_value n immediate /\ width ∈ [I16; I32; I64]).
Proof. appends step_lockedAndGuestMemory. Qed.
Lemma Appends_storeGuestIdtr address rip : Appends (storeGuestIdtr address rip) (fun n => is_value n address).
Proof. appends step_storeGuestIdtr. Qed.
Lemma Appends_loadFence rip : Appends (loadFence rip) (fun _ => True).
Proof. appends step_loadFence. Qed.
Lemma Appends_writeDirectionFlag set rip : Appends (writeDirectionFlag set rip) (fun _ => True).
Proof. appends step_writeDirectionFlag. Qed.
Lemma Appends_storeFence rip : Appends (storeFence rip) (fun _ => True).
Proof. appends step_storeFence. Qed.
Lemma Appends_readTimestampCounter rip : Appends (readTimestampCounter rip) (fun _ => True).
Proof. appends step_readTimestampCounter. Qed.
Lemma Appends_cpuid rip : Appends (cpuid rip) (fun _ => True).
Proof. appends step_cpuid. Qed.
Lemma Appends_updateAddFlags lhs rhs result width rip :
  Appends (updateAddFlags lhs rhs result width rip)
    (fun n => is_value n lhs /\ is_value n rhs /\ is_value n result).
Proof. appends step_updateAddFlags. Qed.
Lemma Appends_updateAdcFlags lhs rhs carry width rip :
  Appends (updateAdcFlags lhs rhs carry width rip)
    (fun n => is_value n lhs /\ is_value n rhs /\ is_value n carry /\ width ∈ [I8; I32; I64]).
Proof. appends step_updateAdcFlags. Qed.
Lemma Appends_updateSbbFlags lhs rhs borrow width rip :
  Appends (updateSbbFlags lhs rhs borrow width rip)
    (fun n => is_value n lhs /\ is_value n rhs /\ is_value n borrow).
Proof. appends step_updateSbbFlags. Qed.
Lemma Appends_updateIncFlags original result width rip :
  Appends (updateIncFlags original result width rip) (fun n => is_value n original /\ is_value n result).
Proof. appends step_updateIncFlags. Qed.
Lemma Appends_updateDecFlags original result width rip :
  Appends (updateDecFlags original result width rip) (fun n => is_value n original /\ is_value n result).
Proof. appends step_updateDecFlags. Qed.
Lemma Appends_updateSubFlags lhs rhs result width rip :
  Appends (updateSubFlags lhs rhs result width rip)
    (fun n => is_value n lhs /\ is_value n rhs /\ is_value n result).
Proof. appends step_updateSubFlags. Qed.
Lemma Appends_updateLogicFlags result width rip :
  Appends (updateLogicFlags result width rip) (fun n => is_value n result).
Proof. appends step_updateLogicFlags. Qed.
Lemma Appends_updateShiftLeftFlags_imm lhs result count width rip :
  Appends (updateShiftLeftFlags_imm lhs result count width rip) (fun n => is_value n lhs /\ is_value n result).
Proof. appends step_updateShiftLeftFlags_imm. Qed.
Lemma Appends_updateShiftLeftFlags_value lhs result count width rip :
  Appends (updateShiftLeftFlags_value lhs result count width rip)
    (fun n => is_value n lhs /\ is_value n result /\ is_value n count).
Proof. appends step_updateShiftLeftFlags_value. Qed.
Lemma Appends_updateShiftRightFlags_imm lhs result count width rip :
  Appends (updateShiftRightFlags_imm lhs result count width rip) (fun n => is_value n lhs /\ is_value n result).
Proof. appends step_updateShiftRightFlags_imm. Qed.
Lemma Appends_updateShiftRightFlags_value lhs result count width rip :
  Appends (updateShiftRightFlags_value lhs result count width rip)
    (fun n => is_value n lhs /\ is_value n result /\ is_value n count).
Proof. appends step_updateShiftRightFlags_value. Qed.
Lemma Appends_updateShiftRightArithmeticFlags_imm lhs result count width rip :
  Appends (updateShiftRightArithmeticFlags_imm lhs result count width rip)
    (fun n => is_value n lhs /\ is_value n result).
Proof. appends step_updateShiftRightArithmeticFlags_imm. Qed.
Lemma Appends_updateShiftRightArithmeticFlags_value lhs result count width rip :
  Appends (updateShiftRightArithmeticFlags_value lhs result count width rip)
    (fun n => is_value n lhs /\ is_value n result /\ is_value n count).
Proof. appends step_updateShiftRightArithmeticFlags_value. Qed.
Lemma Appends_updateRotateLeftFlags_imm result count width rip :
  Appends (updateRotateLeftFlags_imm result count width rip)
    (fun n => is_value n result /\ width ∈ [I16; I32; I64]).
Proof. appends step_updateRotateLeftFlags_imm. Qed.
Lemma Appends_updateRotateLeftFlags_value result count width rip :
  Appends (updateRotateLeftFlags_value result count width rip)
    (fun n => is_value n result /\ is_value n count /\ width ∈ [I16; I32; I64]).
Proof. appends step_updateRotateLeftFlags_value. Qed.
Lemma Appends_updateRotateRightFlags_imm result count width rip :
  Appends (updateRotateRightFlags_imm result count width rip) (fun n => is_value n result /\ width ∈ [I32; I64]).
Proof. appends step_updateRotateRightFlags_imm. Qed.
Lemma Appends_updateRotateRightFlags_value result count width rip :
  Appends (updateRotateRightFlags_value result count width rip)
    (fun n => is_value n result /\ is_value n count /\ width ∈ [I32; I64]).
Proof. appends step_updateRotateRightFlags_value. Qed.
Lemma Appends_updateMultiplyFlags high width rip :
  Appends (updateMultiplyFlags high width rip) (fun n => is_value n high).
Proof. appends step_updateMultiplyFlags. Qed.
Lemma Appends_updateSignedMultiplyFlags lhs rhs width rip :
  Appends (updateSignedMultiplyFlags lhs rhs width rip)
    (fun n => is_value n lhs /\ is_value n rhs /\ width ∈ [I32; I64]).
Proof. appends step_updateSignedMultiplyFlags. Qed.
Lemma Appends_updateShiftRightDoubleFlags original result count width rip :
  Appends (updateShiftRightDoubleFlags original result count width rip)
    (fun n => is_value n original /\ is_value n result).
Proof. appends step_updateShiftRightDoubleFlags. Qed.
Lemma Appends_updateBitTestFlags value bitIndex width rip :
  Appends (updateBitTestFlags value bitIndex width rip) (fun n => is_value n value /\ width ∈ [I32; I64]).
Proof. appends step_updateBitTestFlags. Qed.
Lemma Appends_lockedBitSetGuestMemory address bitIndex width rip :
  Appends (lockedBitSetGuestMemory address bitIndex width rip)
    (fun n => is_value n address /\ width ∈ [I32; I64]).
Proof. appends step_lockedBitSetGuestMemory. Qed.

(** ** Exits *)

Lemma Exits_exitBlock rip : Exits (exitBlock rip) (fun _ => True).
Proof. exits finish_exitBlock. Qed.
Lemma Exits_exitDirect_address target rip : Exits (exitDirect_address target rip) (fun _ => True).
Proof. exits finish_exitDirect_address. Qed.
Lemma Exits_exitDirect_value target rip : Exits (exitDirect_value target rip) (fun n => is_value n target).
Proof. exits finish_exitDirect_value. Qed.
Lemma Exits_exitConditional condition target fallthrough rip :
  Exits (exitConditional condition target fallthrough rip) (fun _ => True).
Proof. exits finish_exitConditional. Qed.
Lemma Exits_exitCall_address target returnAddress rip :
  Exits (exitCall_address target returnAddress rip) (fun _ => True).
Proof. exits finish_exitCall_address. Qed.
Lemma Exits_exitCall_value target returnAddress rip :
  Exits (exitCall_value target returnAddress rip) (fun n => is_value n target).
Proof. exits finish_exitCall_value. Qed.
Lemma Exits_exitSyscall nextRip rip : Exits (exitSyscall nextRip rip) (fun _ => True).
Proof. exits finish_exitSyscall. Qed.

#[export] Hint Resolve Returns_constant Returns_readGuestRegister Returns_readGuestGsBase
  Appends_writeGuestRegister Appends_conditionalMoveGuestRegister_reg Appends_conditionalMoveGuestRegister_value
  Returns_readGuestXmmLane Returns_readGuestYmmUpperLane Appends_writeGuestXmmLane
  Appends_writeGuestYmmUpperLane Appends_writeGuestXmmByte Appends_writeGuestXmmDword Returns_add Returns_sub
  Returns_shiftLeft_imm Returns_shiftLeft_value Returns_shiftRightLogical_imm Returns_shiftRightLogical_value
  Returns_shiftRightArithmetic_imm Returns_shiftRightArithmetic_value Returns_multiplyLow
  Returns_multiplyHighUnsigned Returns_multiplyHighSigned Returns_shiftRightDouble Returns_bitAnd Returns_bitOr
  Returns_bitXor Returns_byteSwap Returns_signExtend32 Returns_evaluateCondition Returns_loadGuest
  Appends_storeGuest Appends_storeGuestXmm Appends_storeGuestYmm Appends_loadGuestXmm Appends_loadGuestYmm
  Appends_loadGuestSignExtendedBytesXmm Appends_loadGuestSignExtendedDwordsXmm Appends_xorGuestMemoryXmm
  Appends_andGuestMemoryXmm Appends_addGuestMemoryXmm Appends_testXmmBits Appends_compareEqualGuestBytesXmm
  Appends_compareEqualGuestQwordsXmm Appends_compareEqualXmmBytes Appends_compareEqualXmmDwords
  Appends_compareEqualXmmQwords Appends_shiftLeftXmmDwords Appends_addXmmWords Appends_comparePackedDoubleXmm
  Appends_arithmeticPackedDoubleXmm Appends_arithmeticGuestMemoryPackedDoubleXmm
  Appends_unpackHighPackedSingleXmm Appends_unpackHighGuestPackedSingleXmm Appends_horizontalAddPackedDoubleXmm
  Appends_horizontalAddGuestPackedDoubleXmm Appends_unpackLowPackedSingleXmm
  Appends_unpackLowGuestPackedSingleXmm Appends_updateUnorderedDoubleFlags Appends_updateUnorderedFloatFlags
  Appends_convertIntToDoubleXmm Appends_convertDoubleToInt Appends_convertFloatToDoubleXmm
  Appends_convertInt32x2ToDoubleXmm Appends_scalarDoubleXmm Appends_addXmmDwords Appends_horizontalAddXmmDwords
  Appends_andNotXmm Appends_moveXmmByteMask Appends_shuffleXmmBytes Appends_shuffleGuestMemoryXmmBytes
  Appends_shuffleXmmDwords Appends_alignRightXmmBytes Appends_blendXmmWords Appends_unpackLowXmmWords
  Appends_bitScanForward Appends_bitScanReverse Appends_repeatMoveByte Appends_repeatStore
  Appends_divideUnsignedByte Appends_divideUnsignedDword Appends_divideUnsignedQword Appends_divideSignedDword
  Appends_push Appends_addGuestMemory Appends_subGuestMemory Appends_orGuestMemory Appends_andGuestMemory
  Appends_shiftLeftGuestMemory Appends_shiftRightLogicalGuestMemory Appends_incrementGuestMemory
  Appends_decrementGuestMemory Appends_compareExchangeGuestMemory Appends_compareExchangeGuestPair
  Appends_exchangeGuestMemory Appends_lockedAddGuestMemory Appends_lockedExchangeAddGuestMemory
  Appends_lockedIncrementGuestMemory Appends_lockedDecrementGuestMemory Appends_lockedOrGuestMemory
  Appends_lockedAndGuestMemory Appends_storeGuestIdtr Appends_loadFence Appends_writeDirectionFlag
  Appends_storeFence Appends_readTimestampCounter Appends_cpuid Appends_updateAddFlags Appends_updateAdcFlags
  Appends_updateSbbFlags Appends_updateIncFlags Appends_updateDecFlags Appends_updateSubFlags
  Appends_updateLogicFlags Appends_updateShiftLeftFlags_imm Appends_updateShiftLeftFlags_value
  Appends_updateShiftRightFlags_imm Appends_updateShiftRightFlags_value
  Appends_updateShiftRightArithmeticFlags_imm Appends_updateShiftRightArithmeticFlags_value
  Appends_updateRotateLeftFlags_imm Appends_updateRotateLeftFlags_value Appends_updateRotateRightFlags_imm
  Appends_updateRotateRightFlags_value Appends_updateMultiplyFlags Appends_updateSignedMultiplyFlags
  Appends_updateShiftRightDoubleFlags Appends_updateBitTestFlags Appends_lockedBitSetGuestMemory Exits_exitBlock
  Exits_exitDirect_address Exits_exitDirect_value Exits_exitConditional Exits_exitCall_address
  Exits_exitCall_value Exits_exitSyscall : builder.
