(* ===== verification/LoweringSpec.v ===== *)
(** What lowering an instruction promises: it uses the builder only as its contract allows.
    The rules and tactics that carry a proof through the code of a case. *)
From stdpp Require Import relations.
From S2P Require Import Prelude X86State IR IRBuilder IRVerify IRVerifySpec IRBuilderSpec X86Instruction DecodeBase DecodeSpec LoweringBase LoweringRules.

(** ** The promise *)

(** Checks of operand widths, about which the decoder's promise says nothing. *)
Definition width_errors : list string :=
  ["internal decoder error: YMM VMOVUPS store width"; "internal decoder error: YMM VMOVUPS load width";
   "internal decoder error: SHL memory width"; "internal decoder error: SHR memory width";
   "internal decoder error: SAR width is not 32 or 64 bits"; "internal decoder error: ROL width";
   "internal decoder error: ROL CL width"; "internal decoder error: ROR width";
   "internal decoder error: BSWAP width"; "internal decoder error: SHLD width";
   "internal decoder error: XOR register, [memory] width"; "internal decoder error: PSHUFB memory width"]%string.

(** What lowering may throw: that it does not support an instruction or a width; never
    that the decoder made an instruction with other operands than its opcode has. *)
Definition expected_error (e : exn) : Prop :=
  exists what, e = runtime_error what /\
    (String.prefix "internal decoder error" what = false \/ what ∈ width_errors).

(** An open block with [n] values. *)
Definition opened (start : GuestAddress) (n : Z) (b : Block) : Prop :=
  rtc builder_step (newBuilder start) b /\ b.(b_valueCount) = n.

(** A block that was just closed. *)
Definition closed_block (start : GuestAddress) (b : Block) : Prop :=
  exists b0, rtc builder_step (newBuilder start) b0 /\ builder_exit b0 b.

Definition runs {A} (r : Block * outcome A) (Q : A -> Block -> Prop) : Prop :=
  match r with
  | (b, Ok a) => Q a b
  | (_, Throw e) => expected_error e
  | (_, Undefined) => False
  end.

(** [lock and byte [m], imm8] is decoded and lowered, but neither the verifier nor the
    backend accepts an 8-bit locked AND. *)
Definition lock_and_byte (i : DecodedInstruction) : bool :=
  match i.(d_opcode), i.(d_operands) with
  | X_LockAndMemImm, MemoryOp memory :: _ => memory.(mem_width) =? 8
  | _, _ => false
  end.

(** An instruction whose operands are those of its opcode. *)
Record decoded_ok (i : DecodedInstruction) : Prop := {
  decoded_typed : well_typed i = true;
  decoded_operands : Forall operand_ok i.(d_operands);
  decoded_lock : lock_and_byte i = false
}.

(** Room for the values of an instruction. *)
Definition most_values : Z := 1024.

Lemma opened_range start n b : opened start n b -> 0 <= n < 2 ^ 32.
Proof.
  intros [Hs <-]. assert (builder_ok b) as Hb by (eapply builder_steps_ok; [apply newBuilder_ok|done]). apply Hb.
Qed.

Section Judgement.
Context (start : GuestAddress).

(** From an open block with [n] values, [m] throws as expected or leaves an open block;
    [Q] holds of its result and the number of values. *)
Definition lowers {A} (n : Z) (m : M Block A) (Q : A -> Z -> Prop) : Prop :=
  forall b, opened start n b -> runs (m b) (fun a b' => exists n', opened start n' b' /\ Q a n').

(** From an open block with [n] values, [m] throws as expected or closes the block. *)
Definition ends (n : Z) (m : M Block unit) : Prop :=
  forall b, opened start n b -> runs (m b) (fun _ b' => closed_block start b').

Lemma lowers_ret {A} n (a : A) (Q : A -> Z -> Prop) : Q a n -> lowers n (ret a) Q.
Proof. intros HQ b Hb. cbn. eauto. Qed.

Lemma lowers_throw {A} n e (Q : A -> Z -> Prop) : expected_error e -> lowers n (throw e) Q.
Proof. by intros He b Hb. Qed.

Lemma ends_throw n e : expected_error e -> ends n (throw e).
Proof. by intros He b Hb. Qed.

Lemma lowers_bind {A B} n (m : M Block A) (k : A -> M Block B) Q :
  lowers n m (fun a n' => lowers n' (k a) Q) -> lowers n (bind m k) Q.
Proof.
  intros Hm b Hb. specialize (Hm b Hb). unfold bind. destruct (m b) as [b' [a|e|]]; [|done|done].
  destruct Hm as (n' & Hb' & Hk). by apply Hk.
Qed.

Lemma ends_bind {A} n (m : M Block A) k : lowers n m (fun a n' => ends n' (k a)) -> ends n (bind m k).
Proof.
  intros Hm b Hb. specialize (Hm b Hb). unfold bind. destruct (m b) as [b' [a|e|]]; [|done|done].
  destruct Hm as (n' & Hb' & Hk). by apply Hk.
Qed.

Lemma lowers_mono {A} n (m : M Block A) (P Q : A -> Z -> Prop) :
  (forall a n', P a n' -> Q a n') -> lowers n m P -> lowers n m Q.
Proof.
  intros HPQ Hm b Hb. specialize (Hm b Hb). destruct (m b) as [b' [a|e|]]; [|done|done].
  destruct Hm as (n' & Hb' & Ha). exists n'. auto.
Qed.

Lemma lowers_returns (P : Z -> Prop) (m : M Block ValueId) n Q :
  Returns m P -> P n -> n + 1 < 2 ^ 32 -> Q n (n + 1) -> lowers n m Q.
Proof.
  intros Hm HP Hn HQ b [Hs Hc]. assert (0 <= n) as H0 by (subst n; by apply (opened_range start _ b)).
  destruct (Hm b) as (Hstep & Hr & Hc'); [by subst n|unfold has_room; lia|lia|].
  unfold runs. destruct (m b) as [b' r]. cbn in *. subst r. exists (n + 1).
  split; [|by subst n]. split; [|lia]. by eapply rtc_r.
Qed.

Lemma lowers_appends (P : Z -> Prop) (m : M Block unit) n (Q : unit -> Z -> Prop) :
  Appends m P -> P n -> Q tt n -> lowers n m Q.
Proof.
  intros Hm HP HQ b [Hs Hc]. destruct (Hm b) as (Hstep & Hr & Hc'); [by subst n|].
  unfold runs. destruct (m b) as [b' r]. cbn in *. subst r. exists n. split; [|done]. split; [|lia]. by eapply rtc_r.
Qed.

Lemma ends_exits (P : Z -> Prop) (m : M Block unit) n : Exits m P -> P n -> ends n m.
Proof.
  intros Hm HP b [Hs Hc]. destruct (Hm b) as (Hexit & Hr); [by subst n|].
  unfold runs. destruct (m b) as [b' r]. cbn in *. subst r. by exists b.
Qed.
End Judgement.

(** Lowering an instruction with one of these opcodes leaves an open block, or closes it. *)
Definition lowered_by (opcodes : list X86Opcode) (f : DecodedInstruction -> M Block unit) : Prop :=
  forall start n i, d_opcode i ∈ opcodes -> decoded_ok i -> 0 <= n -> n + most_values < 2 ^ 32 ->
  lowers start n (f i) (fun _ n' => n <= n' <= n + most_values).
Definition ended_by (opcodes : list X86Opcode) (f : DecodedInstruction -> M Block unit) : Prop :=
  forall start n i, d_opcode i ∈ opcodes -> decoded_ok i -> 0 <= n -> n + most_values < 2 ^ 32 -> ends start n (f i).

Lemma lowered_apply opcodes f start n i : lowered_by opcodes f -> d_opcode i ∈ opcodes -> decoded_ok i ->
  0 <= n -> n + most_values < 2 ^ 32 -> lowers start n (f i) (fun _ n' => n <= n' <= n + most_values).
Proof. intros H. apply H. Qed.

Lemma ended_apply opcodes f start n i : ended_by opcodes f -> d_opcode i ∈ opcodes -> decoded_ok i ->
  0 <= n -> n + most_values < 2 ^ 32 -> ends start n (f i).
Proof. intros H. apply H. Qed.

(** The lemmas about the cases of the switch. *)
Create HintDb lowered discriminated.
#[export] Hint Constants Opaque : lowered.
#[export] Hint Variables Opaque : lowered.

(** ** Values that leave a branch *)

Class Valid (A : Type) := valid : Z -> A -> Prop.
#[export] Instance Valid_value : Valid ValueId := is_value.
#[export] Instance Valid_unit : Valid unit := fun _ _ => True.
#[export] Instance Valid_option : Valid (option ValueId) := fun n o => match o with Some v => is_value n v | None => True end.
#[export] Instance Valid_options : Valid (option ValueId * option ValueId) := fun n o => valid n o.1 /\ valid n o.2.

(** A branch is left with what is known of its result; it adds at most [c] values. *)
Lemma lowers_join start c {A B} `{!Valid A} n (m : M Block A) (k : A -> M Block B) Q :
  lowers start n m (fun a n' => n <= n' <= n + c /\ valid n' a) ->
  (forall a n', n <= n' <= n + c -> valid n' a -> lowers start n' (k a) Q) -> lowers start n (bind m k) Q.
Proof. intros Hm Hk. apply lowers_bind. eapply lowers_mono; [|exact Hm]. intros a n' [? ?]. auto. Qed.

(** The same for an optional value that is always present. *)
Lemma lowers_join_some start c {B} n (m : M Block (option ValueId)) (k : option ValueId -> M Block B) Q :
  lowers start n m (fun o n' => n <= n' <= n + c /\ match o with Some v => is_value n' v | None => False end) ->
  (forall v n', n <= n' <= n + c -> is_value n' v -> lowers start n' (k (Some v)) Q) -> lowers start n (bind m k) Q.
Proof. intros Hm Hk. apply lowers_bind. eapply lowers_mono; [|exact Hm]. intros [v|] n' [? Hv]; [auto|done]. Qed.

Lemma ends_join start c {A} `{!Valid A} n (m : M Block A) k :
  lowers start n m (fun a n' => n <= n' <= n + c /\ valid n' a) ->
  (forall a n', n <= n' <= n + c -> valid n' a -> ends start n' (k a)) -> ends start n (bind m k).
Proof. intros Hm Hk. apply ends_bind. eapply lowers_mono; [|exact Hm]. intros a n' [? ?]. auto. Qed.

(** ** Tactics *)

(** The operands of a decoded instruction, one goal for each form. *)
Ltac operands_as H :=
  repeat lazymatch type of H with
  | map kind_of [] = _ :: _ => discriminate H
  | map kind_of ?l = _ :: _ =>
      let o := fresh "operand" in let l' := fresh "l" in let E := fresh in
      destruct l as [|o l']; [discriminate H|]; cbn [map] in H; injection H as E H;
      destruct o; try discriminate E; clear E
  | map kind_of ?l = [] => let E := fresh in assert (l = []) as E by (by destruct l); subst l; clear H
  end.

Ltac instruction :=
  intros start n i Ho [Ht Hops Hlock] Hn Hroom;
  destruct i as [address opcode bytes len operands branchTarget fallthrough condition];
  cbn [d_opcode d_operands] in Ho, Hops; unfold lock_and_byte in Hlock; cbn [d_opcode d_operands] in Hlock; rewrite ?elem_of_cons, elem_of_nil in Ho;
  unfold well_typed in Ht; cbn [d_opcode d_operands d_condition d_branchTarget d_fallthrough] in Ht;
  rewrite !andb_true_iff in Ht; let Hk := fresh "Hk" in let Hc := fresh in let Hb := fresh in let Hf := fresh in
  destruct Ht as [[[Hk Hc] Hb] Hf]; apply bool_decide_eq_true in Hk;
  repeat match type of Ho with _ \/ _ => destruct Ho as [Ho|Ho] end; try contradiction; subst opcode;
  cbn [operand_kinds] in Hk; rewrite ?elem_of_cons, elem_of_nil in Hk;
  cbn [has_condition has_branchTarget has_fallthrough] in Hc, Hb, Hf;
  destruct condition; try discriminate Hc; destruct branchTarget; try discriminate Hb;
  destruct fallthrough; try discriminate Hf; clear Hc Hb Hf;
  repeat match type of Hk with _ \/ _ => destruct Hk as [Hk|Hk] end; try contradiction;
  operands_as Hk;
  repeat match type of Hops with
  | Forall _ (_ :: _) => let H := fresh "Hop" in apply Forall_cons in Hops as [H Hops]; cbn [operand_ok] in H
  | Forall _ [] => clear Hops
  end.

(** One statement. *)
Ltac decide_test c := first [change c with true|change c with false|destruct c eqn:?]; cbv iota.

Ltac side :=
  unfold valid, Valid_value, Valid_unit, Valid_option, Valid_options, is_value; cbn [fst snd];
  repeat match goal with |- _ /\ _ => split end;
  try first [lia|exact I];
  try match goal with
  | |- _ ∈ _ => repeat case_match; bool_to_prop; first [repeat constructor; fail|congruence|lia]
  | |- u8 ?x <= 255 => pose proof (u8_range x); lia
  | |- u8 (Z.land ?x 15) < _ => pose proof (low4 x); rewrite u8_small; lia
  | |- u8 (Z.land ?x 3) < _ => pose proof (low2 x); rewrite u8_small; lia
  | |- _ <= _ => first [vm_compute; discriminate|repeat case_match; cbn [fst snd] in *; lia]
  | |- _ < _ => repeat case_match; cbn [fst snd] in *; lia
  | |- match ?o with Some _ => _ | None => _ end =>
      is_var o; unfold valid, Valid_option, is_value in *; destruct o;
      [lia|first [exact I|rewrite ?orb_true_r in *; discriminate|contradiction]]
  end.

Ltac expected :=
  eexists; split; [reflexivity|first [left; vm_compute; reflexivity|right; repeat constructor; fail]].

(** Comparisons of opcodes have known results. *)
Ltac known_opcodes :=
  repeat match goal with
  | |- context [@bool_decide (?a = ?b) ?d] =>
      lazymatch type of a with X86Opcode => let v := eval vm_compute in (@bool_decide (a = b) d) in change (@bool_decide (a = b) d) with v end
  end; cbn [orb andb negb].

Ltac joined := intros ? ? ? ?; unfold valid, Valid_value, Valid_unit, Valid_option, Valid_options, is_value in *; cbn [fst snd] in *.

Ltac lowering_step most :=
  cbv beta zeta iota; cbn [fst snd];
  lazymatch goal with
  | |- lowers _ _ (throw _) _ => apply lowers_throw; expected
  | |- lowers _ _ (ret _) _ => apply lowers_ret
  | |- lowers _ _ (bind (if ?c then _ else _) _) _ =>
      first [change c with true|change c with false|lowering_join most]
  | |- lowers _ _ (bind (match ?o with Some _ => _ | None => _ end) _) _ =>
      let v := eval hnf in o in
      lazymatch v with Some _ => idtac | None => idtac | _ => lowering_join most end
  | |- lowers _ _ (bind (for_each (seqZ ?a ?b) _ _) _) _ =>
      let v := eval vm_compute in (seqZ a b) in change (seqZ a b) with v; cbn [for_each]
  | |- lowers _ _ (bind _ _) _ => apply lowers_bind
  | |- lowers _ _ (if ?c then _ else _) _ => decide_test c
  | |- lowers _ _ (match ?o with Some _ => _ | None => _ end) _ => destruct o eqn:?
  | |- lowers _ _ (for_each (seqZ ?a ?b) _ _) _ =>
      let v := eval vm_compute in (seqZ a b) in change (seqZ a b) with v; cbn [for_each]
  | |- lowers _ _ (operand_at _ _) _ => refine (lowers_ret _ _ _ _ _)
  | |- lowers _ _ (register_at _ _) _ => refine (lowers_ret _ _ (mkRegisterOperand _ _ _) _ _); cbn [ro_reg ro_width ro_byteOffset]
  | |- lowers _ _ (immediate_at _ _) _ => refine (lowers_ret _ _ (mkImmediateOperand _ _) _ _); cbn [io_value io_width]
  | |- lowers _ _ (memory_at _ _) _ => refine (lowers_ret _ _ _ _ _)
  | |- lowers _ _ (xmm_at _ _) _ => refine (lowers_ret _ _ _ _ _)
  | |- lowers _ _ (deref (Some _)) _ => apply lowers_ret
  | |- lowers _ _ _ _ =>
      first [eapply lowers_returns; [solve [eauto 1 with builder nocore]|cbv beta; side|lia|] |
             eapply lowers_appends; [solve [eauto 1 with builder nocore]|cbv beta; side|]]
  end
with lowering_join most :=
  let fewer := eval vm_compute in (Z.div most 4) in
  first [apply (lowers_join_some _ most); [solve [repeat lowering_step fewer; side]|joined]
        |eapply (lowers_join _ most); [repeat lowering_step fewer; side|joined]
        |apply lowers_bind].

Lemma effectiveAddress_lowers start n memory i (Q : ValueId -> Z -> Prop) :
  0 <= n -> n + 256 < 2 ^ 32 -> (forall v n', n <= n' <= n + 256 -> is_value n' v -> Q v n') ->
  lowers start n (effectiveAddress memory i) Q.
Proof.
  intros Hn Hroom HQ. apply (lowers_mono _ _ _ (fun v n' => n <= n' <= n + 256 /\ is_value n' v)); [intros v n' []; by apply HQ|].
  unfold effectiveAddress. repeat lowering_step constr:(32); side.
Qed.

Ltac address_step :=
  lazymatch goal with
  | |- lowers _ _ (effectiveAddress _ _) _ =>
      apply effectiveAddress_lowers; [lia|lia|intros ? ? ? ?; unfold is_value in *]
  end.

Ltac lowering :=
  unfold lowered_by, most_values; instruction;
  lazymatch goal with |- lowers _ _ (?f _) _ => unfold f end;
  cbn [d_address d_opcode d_bytes d_length d_operands d_branchTarget d_fallthrough d_condition];
  known_opcodes; repeat first [lowering_step constr:(64)|address_step]; side.

Ltac ending_step :=
  cbv beta zeta iota;
  lazymatch goal with
  | |- ends _ _ (throw _) => apply ends_throw; expected
  | |- ends _ _ (bind (if ?c then _ else _) _) => first [change c with true|change c with false|ending_join]
  | |- ends _ _ (bind (match ?o with Some _ => _ | None => _ end) _) => ending_join
  | |- ends _ _ (bind _ _) => apply ends_bind; repeat lowering_step constr:(64)
  | |- ends _ _ (if ?c then _ else _) => decide_test c
  | |- ends _ _ _ => eapply ends_exits; [solve [eauto 1 with builder nocore]|cbv beta; side]
  end
with ending_join := eapply (ends_join _ 64); [repeat lowering_step constr:(16); side|joined].

Ltac ending :=
  unfold ended_by, most_values; instruction;
  lazymatch goal with |- ends _ _ (?f _) => unfold f end;
  cbn [d_address d_opcode d_bytes d_length d_operands d_branchTarget d_fallthrough d_condition];
  repeat ending_step; side.
