(* ===== verification/LowerScalarSpec.v ===== *)
(** The cases of [x86::lowerToIr] on general registers, memory and control use the builder as its
    contract allows. *)
From S2P Require Import Prelude X86State IR IRBuilder IRVerify IRBuilderSpec X86Instruction DecodeBase DecodeSpec LoweringBase LoweringRules LoweringSpec LowerData LowerArithmetic LowerAtomic LowerShift LowerLogic LowerControl.

(** ** [LowerData] *)

Lemma lowerMovRegImm_ok : lowered_by [X_MovRegImm] lowerMovRegImm.
Proof. lowering. Qed.
Lemma lowerMovRegReg_ok : lowered_by [X_MovRegReg] lowerMovRegReg.
Proof. lowering. Qed.
Lemma lowerMovMemReg_ok : lowered_by [X_MovMemReg] lowerMovMemReg.
Proof. lowering. Qed.
Lemma lowerMovRegMem_ok : lowered_by [X_MovRegMem] lowerMovRegMem.
Proof. lowering. Qed.
Lemma lowerMovzxRegReg_ok : lowered_by [X_MovzxRegReg] lowerMovzxRegReg.
Proof. lowering. Qed.
Lemma lowerMovsxRegReg_ok : lowered_by [X_MovsxRegReg] lowerMovsxRegReg.
Proof. lowering. Qed.
Lemma lowerMovsxRegMem_ok : lowered_by [X_MovsxRegMem] lowerMovsxRegMem.
Proof. lowering. Qed.
Lemma lowerMovzxRegMem_ok : lowered_by [X_MovzxRegMem] lowerMovzxRegMem.
Proof. lowering. Qed.
Lemma lowerMovsxdRegReg_ok : lowered_by [X_MovsxdRegReg] lowerMovsxdRegReg.
Proof. lowering. Qed.
Lemma lowerMovsxdRegMem_ok : lowered_by [X_MovsxdRegMem] lowerMovsxdRegMem.
Proof. lowering. Qed.
Lemma lowerCdqe_ok : lowered_by [X_Cdqe] lowerCdqe.
Proof. lowering. Qed.
Lemma lowerCwde_ok : lowered_by [X_Cwde] lowerCwde.
Proof. lowering. Qed.
Lemma lowerMovMemImm_ok : lowered_by [X_MovMemImm] lowerMovMemImm.
Proof. lowering. Qed.
Lemma lowerLeaRegRipRelative_ok : lowered_by [X_LeaRegRipRelative] lowerLeaRegRipRelative.
Proof. lowering. Qed.
Lemma lowerLeaRegMem_ok : lowered_by [X_LeaRegMem] lowerLeaRegMem.
Proof. lowering. Qed.
Lemma lowerSetccReg_ok : lowered_by [X_SetccReg] lowerSetccReg.
Proof. lowering. Qed.
Lemma lowerSetccMem_ok : lowered_by [X_SetccMem] lowerSetccMem.
Proof. lowering. Qed.
Lemma lowerCmovccReg_ok : lowered_by [X_CmovccReg] lowerCmovccReg.
Proof. lowering. Qed.
Lemma lowerCmovccRegMem_ok : lowered_by [X_CmovccRegMem] lowerCmovccRegMem.
Proof. lowering. Qed.
Lemma lowerPush_ok : lowered_by [X_Push] lowerPush.
Proof. lowering. Qed.
Lemma lowerPop_ok : lowered_by [X_Pop] lowerPop.
Proof. lowering. Qed.
Lemma lowerLeave_ok : lowered_by [X_Leave] lowerLeave.
Proof. lowering. Qed.
#[export] Hint Resolve lowerMovRegImm_ok lowerMovRegReg_ok lowerMovMemReg_ok lowerMovRegMem_ok
  lowerMovzxRegReg_ok lowerMovsxRegReg_ok lowerMovsxRegMem_ok lowerMovzxRegMem_ok lowerMovsxdRegReg_ok
  lowerMovsxdRegMem_ok lowerCdqe_ok lowerCwde_ok lowerMovMemImm_ok lowerLeaRegRipRelative_ok lowerLeaRegMem_ok
  lowerSetccReg_ok lowerSetccMem_ok lowerCmovccReg_ok lowerCmovccRegMem_ok lowerPush_ok lowerPop_ok
  lowerLeave_ok : lowered.

(** ** [LowerArithmetic] *)

Lemma lowerAddRegImm_ok : lowered_by [X_AddRegImm] lowerAddRegImm.
Proof. lowering. Qed.
Lemma lowerAdcRegReg_ok : lowered_by [X_AdcRegReg] lowerAdcRegReg.
Proof. lowering. Qed.
Lemma lowerAdcRegMem_ok : lowered_by [X_AdcRegMem] lowerAdcRegMem.
Proof. lowering. Qed.
Lemma lowerAdcRegImm_ok : lowered_by [X_AdcRegImm] lowerAdcRegImm.
Proof. lowering. Qed.
Lemma lowerAddRegReg_ok : lowered_by [X_AddRegReg] lowerAddRegReg.
Proof. lowering. Qed.
Lemma lowerAddRegMem_ok : lowered_by [X_AddRegMem] lowerAddRegMem.
Proof. lowering. Qed.
Lemma lowerAddMemReg_ok : lowered_by [X_AddMemReg] lowerAddMemReg.
Proof. lowering. Qed.
Lemma lowerAddMemImm_ok : lowered_by [X_AddMemImm] lowerAddMemImm.
Proof. lowering. Qed.
Lemma lowerSubMemImm_ok : lowered_by [X_SubMemImm] lowerSubMemImm.
Proof. lowering. Qed.
Lemma lowerIncReg_ok : lowered_by [X_IncReg] lowerIncReg.
Proof. lowering. Qed.
Lemma lowerDecReg_ok : lowered_by [X_DecReg] lowerDecReg.
Proof. lowering. Qed.
Lemma lowerIncMem_ok : lowered_by [X_IncMem] lowerIncMem.
Proof. lowering. Qed.
Lemma lowerDecMem_ok : lowered_by [X_DecMem] lowerDecMem.
Proof. lowering. Qed.
Lemma lowerSubRegImm_ok : lowered_by [X_SubRegImm] lowerSubRegImm.
Proof. lowering. Qed.
Lemma lowerSbbRegImm_ok : lowered_by [X_SbbRegImm] lowerSbbRegImm.
Proof. lowering. Qed.
Lemma lowerSbbRegReg_ok : lowered_by [X_SbbRegReg] lowerSbbRegReg.
Proof. lowering. Qed.
Lemma lowerSubRegReg_ok : lowered_by [X_SubRegReg] lowerSubRegReg.
Proof. lowering. Qed.
Lemma lowerSubRegMem_ok : lowered_by [X_SubRegMem] lowerSubRegMem.
Proof. lowering. Qed.
Lemma lowerSubMemReg_ok : lowered_by [X_SubMemReg] lowerSubMemReg.
Proof. lowering. Qed.
Lemma lowerNotReg_ok : lowered_by [X_NotReg] lowerNotReg.
Proof. lowering. Qed.
Lemma lowerNegReg_ok : lowered_by [X_NegReg] lowerNegReg.
Proof. lowering. Qed.
Lemma lowerMulReg_ok : lowered_by [X_MulReg] lowerMulReg.
Proof. lowering. Qed.
Lemma lowerImulReg_ok : lowered_by [X_ImulReg] lowerImulReg.
Proof. lowering. Qed.
Lemma lowerMulMem_ok : lowered_by [X_MulMem] lowerMulMem.
Proof. lowering. Qed.
Lemma lowerImulMem_ok : lowered_by [X_ImulMem] lowerImulMem.
Proof. lowering. Qed.
Lemma lowerDivReg_ok : lowered_by [X_DivReg] lowerDivReg.
Proof. lowering. Qed.
Lemma lowerDivMem_ok : lowered_by [X_DivMem] lowerDivMem.
Proof. lowering. Qed.
Lemma lowerIdivReg_ok : lowered_by [X_IdivReg] lowerIdivReg.
Proof. lowering. Qed.
Lemma lowerImulRegReg_ok : lowered_by [X_ImulRegReg] lowerImulRegReg.
Proof. lowering. Qed.
Lemma lowerImulRegMem_ok : lowered_by [X_ImulRegMem] lowerImulRegMem.
Proof. lowering. Qed.
Lemma lowerImulRegRegImm_ok : lowered_by [X_ImulRegRegImm] lowerImulRegRegImm.
Proof. lowering. Qed.
Lemma lowerImulRegMemImm_ok : lowered_by [X_ImulRegMemImm] lowerImulRegMemImm.
Proof. lowering. Qed.
Lemma lowerCmpRegImm_ok : lowered_by [X_CmpRegImm] lowerCmpRegImm.
Proof. lowering. Qed.
Lemma lowerCmpRegReg_ok : lowered_by [X_CmpRegReg] lowerCmpRegReg.
Proof. lowering. Qed.
Lemma lowerCmpRegMem_ok : lowered_by [X_CmpRegMem] lowerCmpRegMem.
Proof. lowering. Qed.
Lemma lowerCmpMemReg_ok : lowered_by [X_CmpMemReg] lowerCmpMemReg.
Proof. lowering. Qed.
Lemma lowerCmpMemImm_ok : lowered_by [X_CmpMemImm] lowerCmpMemImm.
Proof. lowering. Qed.
#[export] Hint Resolve lowerAddRegImm_ok lowerAdcRegReg_ok lowerAdcRegMem_ok lowerAdcRegImm_ok lowerAddRegReg_ok
  lowerAddRegMem_ok lowerAddMemReg_ok lowerAddMemImm_ok lowerSubMemImm_ok lowerIncReg_ok lowerDecReg_ok
  lowerIncMem_ok lowerDecMem_ok lowerSubRegImm_ok lowerSbbRegImm_ok lowerSbbRegReg_ok lowerSubRegReg_ok
  lowerSubRegMem_ok lowerSubMemReg_ok lowerNotReg_ok lowerNegReg_ok lowerMulReg_ok lowerImulReg_ok
  lowerMulMem_ok lowerImulMem_ok lowerDivReg_ok lowerDivMem_ok lowerIdivReg_ok lowerImulRegReg_ok
  lowerImulRegMem_ok lowerImulRegRegImm_ok lowerImulRegMemImm_ok lowerCmpRegImm_ok lowerCmpRegReg_ok
  lowerCmpRegMem_ok lowerCmpMemReg_ok lowerCmpMemImm_ok : lowered.

(** ** [LowerAtomic] *)

Lemma lowerLockBtsMemImm_ok : lowered_by [X_LockBtsMemImm] lowerLockBtsMemImm.
Proof. lowering. Qed.
Lemma lowerCmpxchgMemReg_ok : lowered_by [X_CmpxchgMemReg] lowerCmpxchgMemReg.
Proof. lowering. Qed.
Lemma lowerCmpxchg16bMem_ok : lowered_by [X_Cmpxchg16bMem] lowerCmpxchg16bMem.
Proof. lowering. Qed.
Lemma lowerXchgMemReg_ok : lowered_by [X_XchgMemReg] lowerXchgMemReg.
Proof. lowering. Qed.
Lemma lowerLockAddMemReg_ok : lowered_by [X_LockAddMemReg] lowerLockAddMemReg.
Proof. lowering. Qed.
Lemma lowerLockXaddMemReg_ok : lowered_by [X_LockXaddMemReg] lowerLockXaddMemReg.
Proof. lowering. Qed.
Lemma lowerLockOrMemReg_ok : lowered_by [X_LockOrMemReg] lowerLockOrMemReg.
Proof. lowering. Qed.
Lemma lowerLockOrMemImm_ok : lowered_by [X_LockOrMemImm; X_LockAndMemImm] lowerLockOrMemImm.
Proof. lowering. Qed.
Lemma lowerLockIncMem_ok : lowered_by [X_LockIncMem; X_LockDecMem] lowerLockIncMem.
Proof. lowering. Qed.
#[export] Hint Resolve lowerLockBtsMemImm_ok lowerCmpxchgMemReg_ok lowerCmpxchg16bMem_ok lowerXchgMemReg_ok
  lowerLockAddMemReg_ok lowerLockXaddMemReg_ok lowerLockOrMemReg_ok lowerLockOrMemImm_ok lowerLockIncMem_ok :
  lowered.

(** ** [LowerShift] *)

Lemma lowerShlRegImm_ok : lowered_by [X_ShlRegImm] lowerShlRegImm.
Proof. lowering. Qed.
Lemma lowerShlMemImm_ok : lowered_by [X_ShlMemImm] lowerShlMemImm.
Proof. lowering. Qed.
Lemma lowerShrMemImm_ok : lowered_by [X_ShrMemImm] lowerShrMemImm.
Proof. lowering. Qed.
Lemma lowerShlRegCl_ok : lowered_by [X_ShlRegCl] lowerShlRegCl.
Proof. lowering. Qed.
Lemma lowerShrRegImm_ok : lowered_by [X_ShrRegImm] lowerShrRegImm.
Proof. lowering. Qed.
Lemma lowerShrRegCl_ok : lowered_by [X_ShrRegCl] lowerShrRegCl.
Proof. lowering. Qed.
Lemma lowerSarRegCl_ok : lowered_by [X_SarRegCl] lowerSarRegCl.
Proof. lowering. Qed.
Lemma lowerSarRegImm_ok : lowered_by [X_SarRegImm] lowerSarRegImm.
Proof. lowering. Qed.
Lemma lowerRolRegImm_ok : lowered_by [X_RolRegImm] lowerRolRegImm.
Proof. lowering. Qed.
Lemma lowerRolRegCl_ok : lowered_by [X_RolRegCl] lowerRolRegCl.
Proof. lowering. Qed.
Lemma lowerRorRegImm_ok : lowered_by [X_RorRegImm] lowerRorRegImm.
Proof. lowering. Qed.
Lemma lowerRorRegCl_ok : lowered_by [X_RorRegCl] lowerRorRegCl.
Proof. lowering. Qed.
Lemma lowerBswapReg_ok : lowered_by [X_BswapReg] lowerBswapReg.
Proof. lowering. Qed.
Lemma lowerShrdRegRegImm_ok : lowered_by [X_ShrdRegRegImm] lowerShrdRegRegImm.
Proof. lowering. Qed.
Lemma lowerShldRegRegImm_ok : lowered_by [X_ShldRegRegImm] lowerShldRegRegImm.
Proof. lowering. Qed.
Lemma lowerBitScanForwardRegReg_ok : lowered_by [X_BitScanForwardRegReg] lowerBitScanForwardRegReg.
Proof. lowering. Qed.
Lemma lowerBitTestRegImm_ok : lowered_by [X_BitTestRegImm] lowerBitTestRegImm.
Proof. lowering. Qed.
Lemma lowerBitSetRegImm_ok : lowered_by [X_BitSetRegImm; X_BitResetRegImm] lowerBitSetRegImm.
Proof. lowering. Qed.
Lemma lowerBitTestRegReg_ok : lowered_by [X_BitTestRegReg] lowerBitTestRegReg.
Proof. lowering. Qed.
Lemma lowerBitSetRegReg_ok : lowered_by [X_BitSetRegReg] lowerBitSetRegReg.
Proof. lowering. Qed.
Lemma lowerBitTestMemImm_ok : lowered_by [X_BitTestMemImm] lowerBitTestMemImm.
Proof. lowering. Qed.
Lemma lowerBitScanReverseRegReg_ok : lowered_by [X_BitScanReverseRegReg] lowerBitScanReverseRegReg.
Proof. lowering. Qed.
#[export] Hint Resolve lowerShlRegImm_ok lowerShlMemImm_ok lowerShrMemImm_ok lowerShlRegCl_ok lowerShrRegImm_ok
  lowerShrRegCl_ok lowerSarRegCl_ok lowerSarRegImm_ok lowerRolRegImm_ok lowerRolRegCl_ok lowerRorRegImm_ok
  lowerRorRegCl_ok lowerBswapReg_ok lowerShrdRegRegImm_ok lowerShldRegRegImm_ok lowerBitScanForwardRegReg_ok
  lowerBitTestRegImm_ok lowerBitSetRegImm_ok lowerBitTestRegReg_ok lowerBitSetRegReg_ok lowerBitTestMemImm_ok
  lowerBitScanReverseRegReg_ok : lowered.

(** ** [LowerLogic] *)

Lemma lowerOrRegReg_ok : lowered_by [X_OrRegReg] lowerOrRegReg.
Proof. lowering. Qed.
Lemma lowerOrRegMem_ok : lowered_by [X_OrRegMem] lowerOrRegMem.
Proof. lowering. Qed.
Lemma lowerOrMemReg_ok : lowered_by [X_OrMemReg] lowerOrMemReg.
Proof. lowering. Qed.
Lemma lowerOrMemImm_ok : lowered_by [X_OrMemImm] lowerOrMemImm.
Proof. lowering. Qed.
Lemma lowerOrRegImm_ok : lowered_by [X_OrRegImm] lowerOrRegImm.
Proof. lowering. Qed.
Lemma lowerXorRegReg_ok : lowered_by [X_XorRegReg] lowerXorRegReg.
Proof. lowering. Qed.
Lemma lowerXorRegMem_ok : lowered_by [X_XorRegMem] lowerXorRegMem.
Proof. lowering. Qed.
Lemma lowerXorRegImm_ok : lowered_by [X_XorRegImm] lowerXorRegImm.
Proof. lowering. Qed.
Lemma lowerAndRegReg_ok : lowered_by [X_AndRegReg] lowerAndRegReg.
Proof. lowering. Qed.
Lemma lowerAndRegMem_ok : lowered_by [X_AndRegMem] lowerAndRegMem.
Proof. lowering. Qed.
Lemma lowerAndMemReg_ok : lowered_by [X_AndMemReg] lowerAndMemReg.
Proof. lowering. Qed.
Lemma lowerAndMemImm_ok : lowered_by [X_AndMemImm] lowerAndMemImm.
Proof. lowering. Qed.
Lemma lowerAndRegImm_ok : lowered_by [X_AndRegImm] lowerAndRegImm.
Proof. lowering. Qed.
Lemma lowerTestRegReg_ok : lowered_by [X_TestRegReg] lowerTestRegReg.
Proof. lowering. Qed.
Lemma lowerTestReg8Reg8_ok : lowered_by [X_TestReg8Reg8] lowerTestReg8Reg8.
Proof. lowering. Qed.
Lemma lowerTestMemReg_ok : lowered_by [X_TestMemReg] lowerTestMemReg.
Proof. lowering. Qed.
Lemma lowerTestRegImm_ok : lowered_by [X_TestRegImm] lowerTestRegImm.
Proof. lowering. Qed.
Lemma lowerTestMemImm_ok : lowered_by [X_TestMemImm] lowerTestMemImm.
Proof. lowering. Qed.
#[export] Hint Resolve lowerOrRegReg_ok lowerOrRegMem_ok lowerOrMemReg_ok lowerOrMemImm_ok lowerOrRegImm_ok
  lowerXorRegReg_ok lowerXorRegMem_ok lowerXorRegImm_ok lowerAndRegReg_ok lowerAndRegMem_ok lowerAndMemReg_ok
  lowerAndMemImm_ok lowerAndRegImm_ok lowerTestRegReg_ok lowerTestReg8Reg8_ok lowerTestMemReg_ok
  lowerTestRegImm_ok lowerTestMemImm_ok : lowered.

(** ** [LowerControl] *)

Lemma lowerNop_ok : lowered_by [X_Nop] lowerNop.
Proof. lowering. Qed.
Lemma lowerVzeroupper_ok : lowered_by [X_Vzeroupper] lowerVzeroupper.
Proof. lowering. Qed.
Lemma lowerLfence_ok : lowered_by [X_Lfence] lowerLfence.
Proof. lowering. Qed.
Lemma lowerCld_ok : lowered_by [X_Cld; X_Std] lowerCld.
Proof. lowering. Qed.
Lemma lowerMfence_ok : lowered_by [X_Mfence] lowerMfence.
Proof. lowering. Qed.
Lemma lowerSidtMem_ok : lowered_by [X_SidtMem] lowerSidtMem.
Proof. lowering. Qed.
Lemma lowerRepMovsb_ok : lowered_by [X_RepMovsb] lowerRepMovsb.
Proof. lowering. Qed.
Lemma lowerRepStosb_ok : lowered_by [X_RepStosb; X_RepStosd; X_RepStosq] lowerRepStosb.
Proof. lowering. Qed.
Lemma lowerRdtsc_ok : lowered_by [X_Rdtsc] lowerRdtsc.
Proof. lowering. Qed.
Lemma lowerCpuid_ok : lowered_by [X_Cpuid] lowerCpuid.
Proof. lowering. Qed.
Lemma lowerJmpRelative_ok : ended_by [X_JmpRelative] lowerJmpRelative.
Proof. ending. Qed.
Lemma lowerJmpReg_ok : ended_by [X_JmpReg] lowerJmpReg.
Proof. ending. Qed.
Lemma lowerJmpMem_ok : ended_by [X_JmpMem] lowerJmpMem.
Proof. ending. Qed.
Lemma lowerJccRelative_ok : ended_by [X_JccRelative] lowerJccRelative.
Proof. ending. Qed.
Lemma lowerCallRelative_ok : ended_by [X_CallRelative] lowerCallRelative.
Proof. ending. Qed.
Lemma lowerCallReg_ok : ended_by [X_CallReg] lowerCallReg.
Proof. ending. Qed.
Lemma lowerCallMem_ok : ended_by [X_CallMem] lowerCallMem.
Proof. ending. Qed.
Lemma lowerSyscall_ok : ended_by [X_Syscall] lowerSyscall.
Proof. ending. Qed.
Lemma lowerRet_ok : ended_by [X_Ret] lowerRet.
Proof. ending. Qed.
#[export] Hint Resolve lowerNop_ok lowerVzeroupper_ok lowerLfence_ok lowerCld_ok lowerMfence_ok lowerSidtMem_ok
  lowerRepMovsb_ok lowerRepStosb_ok lowerRdtsc_ok lowerCpuid_ok lowerJmpRelative_ok lowerJmpReg_ok
  lowerJmpMem_ok lowerJccRelative_ok lowerCallRelative_ok lowerCallReg_ok lowerCallMem_ok lowerSyscall_ok
  lowerRet_ok : lowered.
