(* ===== verification/LowerVectorSpec.v ===== *)
(** The cases of [x86::lowerToIr] on vector registers use the builder as its contract allows. *)
From S2P Require Import Prelude X86State IR IRBuilder IRVerify IRBuilderSpec X86Instruction DecodeBase DecodeSpec LoweringBase LoweringRules LoweringSpec LowerVectorMove LowerFloat LowerVector.

(** ** [LowerVectorMove] *)

Lemma lowerMovapsMemReg_ok : lowered_by [X_MovapsMemReg; X_MovapdMemReg; X_MovupsMemReg; X_VmovupsMemReg;
  X_MovdqaMemReg; X_MovdquMemReg] lowerMovapsMemReg.
Proof. lowering. Qed.
Lemma lowerVmovupsYmmMemReg_ok : lowered_by [X_VmovupsYmmMemReg; X_VmovapsYmmMemReg] lowerVmovupsYmmMemReg.
Proof. lowering. Qed.
Lemma lowerMovapdRegReg_ok : lowered_by [X_MovapdRegReg; X_MovapsRegReg; X_MovdqaRegReg] lowerMovapdRegReg.
Proof. lowering. Qed.
Lemma lowerMovlhpsRegReg_ok : lowered_by [X_MovlhpsRegReg] lowerMovlhpsRegReg.
Proof. lowering. Qed.
Lemma lowerMovlhpsRegMem_ok : lowered_by [X_MovlhpsRegMem] lowerMovlhpsRegMem.
Proof. lowering. Qed.
Lemma lowerMovddupRegReg_ok : lowered_by [X_MovddupRegReg; X_MovddupRegMem] lowerMovddupRegReg.
Proof. lowering. Qed.
Lemma lowerPcmpeqqRegReg_ok : lowered_by [X_PcmpeqqRegReg; X_PcmpeqqRegMem] lowerPcmpeqqRegReg.
Proof. lowering. Qed.
Lemma lowerMovdXmmReg_ok : lowered_by [X_MovdXmmReg; X_MovqXmmReg] lowerMovdXmmReg.
Proof. lowering. Qed.
Lemma lowerMovdXmmMem_ok : lowered_by [X_MovdXmmMem] lowerMovdXmmMem.
Proof. lowering. Qed.
Lemma lowerMovsdRegMem_ok : lowered_by [X_MovsdRegMem; X_MovsdMemXmm] lowerMovsdRegMem.
Proof. lowering. Qed.
Lemma lowerMovlpsRegMem_ok : lowered_by [X_MovlpsRegMem; X_MovlpsMemXmm] lowerMovlpsRegMem.
Proof. lowering. Qed.
Lemma lowerMovdMemXmm_ok : lowered_by [X_MovdMemXmm; X_MovssMemXmm] lowerMovdMemXmm.
Proof. lowering. Qed.
Lemma lowerMovssRegMem_ok : lowered_by [X_MovssRegMem] lowerMovssRegMem.
Proof. lowering. Qed.
Lemma lowerMovssXmmXmm_ok : lowered_by [X_MovssXmmXmm] lowerMovssXmmXmm.
Proof. lowering. Qed.
Lemma lowerMovdRegXmm_ok : lowered_by [X_MovdRegXmm] lowerMovdRegXmm.
Proof. lowering. Qed.
Lemma lowerMovqRegXmm_ok : lowered_by [X_MovqRegXmm] lowerMovqRegXmm.
Proof. lowering. Qed.
Lemma lowerVmovupsYmmRegMem_ok : lowered_by [X_VmovupsYmmRegMem; X_VmovapsYmmRegMem] lowerVmovupsYmmRegMem.
Proof. lowering. Qed.
Lemma lowerMovapsRegMem_ok : lowered_by [X_MovapsRegMem; X_MovapdRegMem; X_MovupsRegMem; X_VmovupsRegMem;
  X_MovdquRegMem; X_MovdqaRegMem] lowerMovapsRegMem.
Proof. lowering. Qed.
Lemma lowerMovqMemXmm_ok : lowered_by [X_MovqMemXmm] lowerMovqMemXmm.
Proof. lowering. Qed.
Lemma lowerMovqXmmMem_ok : lowered_by [X_MovqXmmMem] lowerMovqXmmMem.
Proof. lowering. Qed.
#[export] Hint Resolve lowerMovapsMemReg_ok lowerVmovupsYmmMemReg_ok lowerMovapdRegReg_ok lowerMovlhpsRegReg_ok
  lowerMovlhpsRegMem_ok lowerMovddupRegReg_ok lowerPcmpeqqRegReg_ok lowerMovdXmmReg_ok lowerMovdXmmMem_ok
  lowerMovsdRegMem_ok lowerMovlpsRegMem_ok lowerMovdMemXmm_ok lowerMovssRegMem_ok lowerMovssXmmXmm_ok
  lowerMovdRegXmm_ok lowerMovqRegXmm_ok lowerVmovupsYmmRegMem_ok lowerMovapsRegMem_ok lowerMovqMemXmm_ok
  lowerMovqXmmMem_ok : lowered.

(** ** [LowerFloat] *)

Lemma lowerCvttsd2siRegXmm_ok : lowered_by [X_Cvttsd2siRegXmm; X_Cvttsd2siRegMem] lowerCvttsd2siRegXmm.
Proof. lowering. Qed.
Lemma lowerCvtsi2sdXmmReg_ok : lowered_by [X_Cvtsi2sdXmmReg; X_Cvtsi2sdXmmMem] lowerCvtsi2sdXmmReg.
Proof. lowering. Qed.
Lemma lowerCvtdq2pdXmmReg_ok : lowered_by [X_Cvtdq2pdXmmReg; X_Cvtdq2pdXmmMem] lowerCvtdq2pdXmmReg.
Proof. lowering. Qed.
Lemma lowerCvtss2sdXmmReg_ok : lowered_by [X_Cvtss2sdXmmReg; X_Cvtss2sdXmmMem] lowerCvtss2sdXmmReg.
Proof. lowering. Qed.
Lemma lowerAddsdXmmReg_ok : lowered_by [X_AddsdXmmReg; X_AddsdXmmMem; X_SubsdXmmReg; X_SubsdXmmMem;
  X_MulsdXmmReg; X_MulsdXmmMem; X_DivsdXmmReg; X_DivsdXmmMem; X_SqrtsdXmmReg; X_SqrtsdXmmMem; X_MinsdXmmReg;
  X_MinsdXmmMem; X_MaxsdXmmReg; X_MaxsdXmmMem] lowerAddsdXmmReg.
Proof. lowering. Qed.
Lemma lowerDivpdRegReg_ok : lowered_by [X_DivpdRegReg; X_DivpdRegMem; X_SubpdRegReg; X_SubpdRegMem;
  X_MulpdRegReg; X_MulpdRegMem; X_AddpdRegReg; X_AddpdRegMem; X_SqrtpdRegReg; X_SqrtpdRegMem]
  lowerDivpdRegReg.
Proof. lowering. Qed.
Lemma lowerUnpckhpsRegReg_ok : lowered_by [X_UnpckhpsRegReg; X_UnpckhpsRegMem] lowerUnpckhpsRegReg.
Proof. lowering. Qed.
Lemma lowerHaddpdRegReg_ok : lowered_by [X_HaddpdRegReg; X_HaddpdRegMem] lowerHaddpdRegReg.
Proof. lowering. Qed.
Lemma lowerUnpcklpsRegReg_ok : lowered_by [X_UnpcklpsRegReg; X_UnpcklpsRegMem] lowerUnpcklpsRegReg.
Proof. lowering. Qed.
Lemma lowerUcomisdRegReg_ok : lowered_by [X_UcomisdRegReg] lowerUcomisdRegReg.
Proof. lowering. Qed.
Lemma lowerUcomissRegReg_ok : lowered_by [X_UcomissRegReg] lowerUcomissRegReg.
Proof. lowering. Qed.
Lemma lowerUcomissRegMem_ok : lowered_by [X_UcomissRegMem] lowerUcomissRegMem.
Proof. lowering. Qed.
#[export] Hint Resolve lowerCvttsd2siRegXmm_ok lowerCvtsi2sdXmmReg_ok lowerCvtdq2pdXmmReg_ok
  lowerCvtss2sdXmmReg_ok lowerAddsdXmmReg_ok lowerDivpdRegReg_ok lowerUnpckhpsRegReg_ok lowerHaddpdRegReg_ok
  lowerUnpcklpsRegReg_ok lowerUcomisdRegReg_ok lowerUcomissRegReg_ok lowerUcomissRegMem_ok : lowered.

(** ** [LowerVector] *)

Lemma lowerPsrldqRegImm_ok : lowered_by [X_PsrldqRegImm; X_PslldqRegImm] lowerPsrldqRegImm.
Proof. lowering. Qed.
Lemma lowerXorpsRegReg_ok : lowered_by [X_XorpsRegReg; X_XorpdRegReg; X_PxorRegReg] lowerXorpsRegReg.
Proof. lowering. Qed.
Lemma lowerVxorpsRegRegReg_ok : lowered_by [X_VxorpsRegRegReg; X_VxorpsYmmRegRegReg] lowerVxorpsRegRegReg.
Proof. lowering. Qed.
Lemma lowerVbroadcastssYmmReg_ok : lowered_by [X_VbroadcastssYmmReg] lowerVbroadcastssYmmReg.
Proof. lowering. Qed.
Lemma lowerPxorRegMem_ok : lowered_by [X_PxorRegMem] lowerPxorRegMem.
Proof. lowering. Qed.
Lemma lowerXorpsRegMem_ok : lowered_by [X_XorpsRegMem] lowerXorpsRegMem.
Proof. lowering. Qed.
Lemma lowerPandRegReg_ok : lowered_by [X_PandRegReg] lowerPandRegReg.
Proof. lowering. Qed.
Lemma lowerPandRegMem_ok : lowered_by [X_PandRegMem] lowerPandRegMem.
Proof. lowering. Qed.
Lemma lowerPtestRegReg_ok : lowered_by [X_PtestRegReg] lowerPtestRegReg.
Proof. lowering. Qed.
Lemma lowerPcmpeqbRegMem_ok : lowered_by [X_PcmpeqbRegMem] lowerPcmpeqbRegMem.
Proof. lowering. Qed.
Lemma lowerPcmpeqbRegReg_ok : lowered_by [X_PcmpeqbRegReg] lowerPcmpeqbRegReg.
Proof. lowering. Qed.
Lemma lowerPcmpeqdRegReg_ok : lowered_by [X_PcmpeqdRegReg] lowerPcmpeqdRegReg.
Proof. lowering. Qed.
Lemma lowerPslldRegImm_ok : lowered_by [X_PslldRegImm] lowerPslldRegImm.
Proof. lowering. Qed.
Lemma lowerPsrldRegImm_ok : lowered_by [X_PsrldRegImm] lowerPsrldRegImm.
Proof. lowering. Qed.
Lemma lowerPsrlqRegImm_ok : lowered_by [X_PsrlqRegImm] lowerPsrlqRegImm.
Proof. lowering. Qed.
Lemma lowerPadddRegReg_ok : lowered_by [X_PadddRegReg] lowerPadddRegReg.
Proof. lowering. Qed.
Lemma lowerPaddwRegReg_ok : lowered_by [X_PaddwRegReg] lowerPaddwRegReg.
Proof. lowering. Qed.
Lemma lowerBlendvpdRegReg_ok : lowered_by [X_BlendvpdRegReg] lowerBlendvpdRegReg.
Proof. lowering. Qed.
Lemma lowerCmppdRegRegImm_ok : lowered_by [X_CmppdRegRegImm] lowerCmppdRegRegImm.
Proof. lowering. Qed.
Lemma lowerPadddRegMem_ok : lowered_by [X_PadddRegMem] lowerPadddRegMem.
Proof. lowering. Qed.
Lemma lowerPaddqRegReg_ok : lowered_by [X_PaddqRegReg] lowerPaddqRegReg.
Proof. lowering. Qed.
Lemma lowerPhadddRegReg_ok : lowered_by [X_PhadddRegReg] lowerPhadddRegReg.
Proof. lowering. Qed.
Lemma lowerPmovzxbdXmmReg_ok : lowered_by [X_PmovzxbdXmmReg] lowerPmovzxbdXmmReg.
Proof. lowering. Qed.
Lemma lowerPorRegReg_ok : lowered_by [X_PorRegReg] lowerPorRegReg.
Proof. lowering. Qed.
Lemma lowerPunpcklwdRegReg_ok : lowered_by [X_PunpcklwdRegReg] lowerPunpcklwdRegReg.
Proof. lowering. Qed.
Lemma lowerPunpcklqdqRegReg_ok : lowered_by [X_PunpcklqdqRegReg] lowerPunpcklqdqRegReg.
Proof. lowering. Qed.
Lemma lowerPandnRegReg_ok : lowered_by [X_PandnRegReg] lowerPandnRegReg.
Proof. lowering. Qed.
Lemma lowerPmovmskbRegXmm_ok : lowered_by [X_PmovmskbRegXmm] lowerPmovmskbRegXmm.
Proof. lowering. Qed.
Lemma lowerPshufbRegReg_ok : lowered_by [X_PshufbRegReg] lowerPshufbRegReg.
Proof. lowering. Qed.
Lemma lowerPshufbRegMem_ok : lowered_by [X_PshufbRegMem] lowerPshufbRegMem.
Proof. lowering. Qed.
Lemma lowerPshufdRegRegImm_ok : lowered_by [X_PshufdRegRegImm] lowerPshufdRegRegImm.
Proof. lowering. Qed.
Lemma lowerShufpdRegRegImm_ok : lowered_by [X_ShufpdRegRegImm] lowerShufpdRegRegImm.
Proof. lowering. Qed.
Lemma lowerShufpsRegRegImm_ok : lowered_by [X_ShufpsRegRegImm] lowerShufpsRegRegImm.
Proof. lowering. Qed.
Lemma lowerPinsrbXmmReg_ok : lowered_by [X_PinsrbXmmReg] lowerPinsrbXmmReg.
Proof. lowering. Qed.
Lemma lowerPinsrbXmmMem_ok : lowered_by [X_PinsrbXmmMem] lowerPinsrbXmmMem.
Proof. lowering. Qed.
Lemma lowerPinsrdXmmMem_ok : lowered_by [X_PinsrdXmmMem] lowerPinsrdXmmMem.
Proof. lowering. Qed.
Lemma lowerPinsrdXmmReg_ok : lowered_by [X_PinsrdXmmReg] lowerPinsrdXmmReg.
Proof. lowering. Qed.
Lemma lowerPextrwRegXmmImm_ok : lowered_by [X_PextrwRegXmmImm] lowerPextrwRegXmmImm.
Proof. lowering. Qed.
Lemma lowerMovmskpsRegXmm_ok : lowered_by [X_MovmskpsRegXmm] lowerMovmskpsRegXmm.
Proof. lowering. Qed.
Lemma lowerMovmskpdRegXmm_ok : lowered_by [X_MovmskpdRegXmm] lowerMovmskpdRegXmm.
Proof. lowering. Qed.
Lemma lowerPextrdRegXmmImm_ok : lowered_by [X_PextrdRegXmmImm] lowerPextrdRegXmmImm.
Proof. lowering. Qed.
Lemma lowerPinsrwXmmMem_ok : lowered_by [X_PinsrwXmmMem; X_PinsrwXmmReg] lowerPinsrwXmmMem.
Proof. lowering. Qed.
Lemma lowerExtractpsMemXmmImm_ok : lowered_by [X_ExtractpsMemXmmImm] lowerExtractpsMemXmmImm.
Proof. lowering. Qed.
Lemma lowerPmovsxbdRegMem_ok : lowered_by [X_PmovsxbdRegMem] lowerPmovsxbdRegMem.
Proof. lowering. Qed.
Lemma lowerPmovsxbqRegMem_ok : lowered_by [X_PmovsxbqRegMem] lowerPmovsxbqRegMem.
Proof. lowering. Qed.
Lemma lowerPmovsxdqRegReg_ok : lowered_by [X_PmovsxdqRegReg] lowerPmovsxdqRegReg.
Proof. lowering. Qed.
Lemma lowerPmovsxdqRegMem_ok : lowered_by [X_PmovsxdqRegMem] lowerPmovsxdqRegMem.
Proof. lowering. Qed.
Lemma lowerPblendwRegRegImm_ok : lowered_by [X_PblendwRegRegImm] lowerPblendwRegRegImm.
Proof. lowering. Qed.
Lemma lowerPalignrRegRegImm_ok : lowered_by [X_PalignrRegRegImm] lowerPalignrRegRegImm.
Proof. lowering. Qed.
#[export] Hint Resolve lowerPsrldqRegImm_ok lowerXorpsRegReg_ok lowerVxorpsRegRegReg_ok
  lowerVbroadcastssYmmReg_ok lowerPxorRegMem_ok lowerXorpsRegMem_ok lowerPandRegReg_ok lowerPandRegMem_ok
  lowerPtestRegReg_ok lowerPcmpeqbRegMem_ok lowerPcmpeqbRegReg_ok lowerPcmpeqdRegReg_ok lowerPslldRegImm_ok
  lowerPsrldRegImm_ok lowerPsrlqRegImm_ok lowerPadddRegReg_ok lowerPaddwRegReg_ok lowerBlendvpdRegReg_ok
  lowerCmppdRegRegImm_ok lowerPadddRegMem_ok lowerPaddqRegReg_ok lowerPhadddRegReg_ok lowerPmovzxbdXmmReg_ok
  lowerPorRegReg_ok lowerPunpcklwdRegReg_ok lowerPunpcklqdqRegReg_ok lowerPandnRegReg_ok lowerPmovmskbRegXmm_ok
  lowerPshufbRegReg_ok lowerPshufbRegMem_ok lowerPshufdRegRegImm_ok lowerShufpdRegRegImm_ok
  lowerShufpsRegRegImm_ok lowerPinsrbXmmReg_ok lowerPinsrbXmmMem_ok lowerPinsrdXmmMem_ok lowerPinsrdXmmReg_ok
  lowerPextrwRegXmmImm_ok lowerMovmskpsRegXmm_ok lowerMovmskpdRegXmm_ok lowerPextrdRegXmmImm_ok
  lowerPinsrwXmmMem_ok lowerExtractpsMemXmmImm_ok lowerPmovsxbdRegMem_ok lowerPmovsxbqRegMem_ok
  lowerPmovsxdqRegReg_ok lowerPmovsxdqRegMem_ok lowerPblendwRegRegImm_ok lowerPalignrRegRegImm_ok : lowered.
