(* ===== verification/LoweringCorrect.v ===== *)
(** Lowering is correct: a decoded block becomes a block the verifier accepts. *)
From stdpp Require Import relations.
From S2P Require Import Prelude X86State IR IRBuilder IRVerify IRVerifySpec IRBuilderSpec X86Instruction DecodeBase DecodeSpec Decoder DecoderSpec LoweringBase LoweringRules LoweringSpec LowerScalarSpec LowerVectorSpec Lowering.

(** ** One instruction *)

Lemma lowerInstruction_lowers start n i :
  terminatesBlock i.(d_opcode) = false -> decoded_ok i -> 0 <= n -> n + most_values < 2 ^ 32 ->
  lowers start n (lowerInstruction i) (fun _ n' => n <= n' <= n + most_values).
Proof.
  intros Ht Hi Hn Hroom. unfold lowerInstruction.
  destruct (d_opcode i) eqn:E; try discriminate Ht; cbv iota;
    (eapply lowered_apply; [solve [eauto 1 with lowered nocore]|rewrite E; repeat constructor; fail|assumption..]).
Qed.

Lemma lowerInstruction_ends start n i :
  terminatesBlock i.(d_opcode) = true -> decoded_ok i -> 0 <= n -> n + most_values < 2 ^ 32 ->
  ends start n (lowerInstruction i).
Proof.
  intros Ht Hi Hn Hroom. unfold lowerInstruction.
  destruct (d_opcode i) eqn:E; try discriminate Ht; cbv iota;
    (eapply ended_apply; [solve [eauto 1 with lowered nocore]|rewrite E; repeat constructor; fail|assumption..]).
Qed.

(** ** A block *)

(** Instructions to be lowered: well formed, and only the last one may end the block. *)
Inductive lowerable : list DecodedInstruction -> Prop :=
| lowerable_last i : decoded_ok i -> lowerable [i]
| lowerable_next i l : decoded_ok i -> terminatesBlock i.(d_opcode) = false -> lowerable l -> lowerable (i :: l).

Lemma ends_assoc {A B} start n (a : M Block A) (f : A -> M Block B) (g : B -> M Block unit) :
  ends start n (bind a (fun x => bind (f x) g)) -> ends start n (bind (bind a f) g).
Proof. intros H b Hb. specialize (H b Hb). unfold bind in *. by destruct (a b) as [? []]. Qed.

Lemma ends_then start n (m k : M Block unit) : ends start n m -> (forall b, k b = (b, Ok tt)) -> ends start n (m ;;; k).
Proof. intros H Hk b Hb. specialize (H b Hb). unfold bind. destruct (m b) as [b' [[]|e|]]; [by rewrite Hk|done|done]. Qed.

Lemma lowerFallthrough_ends start n i : terminatesBlock i.(d_opcode) = false -> ends start n (lowerFallthrough i).
Proof. intros Ht. unfold lowerFallthrough. rewrite Ht. repeat ending_step. Qed.

Lemma lowerInstructions_ends start l : lowerable l -> forall n d, 0 <= n -> n + zlength l * most_values < 2 ^ 32 ->
  ends start n (lowerInstructions l ;;; lowerFallthrough (List.last l d)).
Proof.
  unfold zlength. induction 1 as [i Hi|i l Hi Ht Hl IH]; intros n d Hn Hroom; cbn [lowerInstructions length] in *;
    assert (n + most_values < 2 ^ 32) as Hn' by (unfold most_values in *; lia).
  - apply ends_assoc. destruct (terminatesBlock (d_opcode i)) eqn:Ht.
    + apply ends_then; [apply lowerInstruction_ends; [done..]|].
      intros b. unfold bind, ret, lowerFallthrough. cbn [List.last]. by rewrite Ht.
    + apply ends_bind. eapply lowers_mono; [|apply lowerInstruction_lowers; [done..]].
      intros a n' _. cbn beta. apply ends_bind, lowers_ret. by apply lowerFallthrough_ends.
  - apply ends_assoc, ends_bind. eapply lowers_mono; [|apply lowerInstruction_lowers; [done..]].
    intros a n' Hc. cbn beta. replace (List.last (i :: l) d) with (List.last l d) by (by inversion Hl).
    unfold most_values in *. apply IH; lia.
Qed.

(** Lowering a block: a closed block, or an expected exception. *)
Definition lowered (start : GuestAddress) (o : outcome Block) : Prop :=
  match o with
  | Ok b => closed_block start b
  | Throw e => expected_error e
  | Undefined => False
  end.

Lemma closed_block_verified start b : closed_block start b -> verify b = [] /\ b.(b_start) = start.
Proof.
  intros (b0 & Hs & Hexit). assert (builder_ok b0) as Hb by (eapply builder_steps_ok; [apply newBuilder_ok|done]).
  destruct (exit_ok b0 b Hb Hexit) as (Hv & Hst & _). by rewrite Hst, (steps_start _ _ Hs).
Qed.

Lemma lowerToIr_lowered debug i l : lowerable (i :: l) -> zlength (i :: l) * most_values < 2 ^ 32 ->
  lowered i.(d_address) (lowerToIr debug (i :: l)).
Proof.
  intros Hl Hroom. unfold lowerToIr.
  replace (List.last l i) with (List.last (i :: l) i) by (by destruct l).
  assert (opened (d_address i) 0 (newBuilder (d_address i))) as Ho by (split; [apply rtc_refl|done]).
  pose proof (lowerInstructions_ends (d_address i) (i :: l) Hl 0 i ltac:(lia) ltac:(lia) _ Ho) as H.
  set (m := lowerInstructions (i :: l)) in *. set (k := lowerFallthrough (List.last (i :: l) i)) in *.
  assert ((m ;;; k ;;; finish) (newBuilder (d_address i)) = (((m ;;; k) ;;; finish) (newBuilder (d_address i)))) as ->.
  { unfold bind. by destruct (m _) as [? []]. }
  unfold bind at 1. destruct ((m ;;; k) (newBuilder (d_address i))) as [b [u|e|]]; [|done|done]. cbn [snd finish get outcome_bind].
  destruct (closed_block_verified _ _ H) as [Hv _]. destruct debug; [rewrite Hv|]; done.
Qed.

(** What the decoder leaves can be lowered. *)
Lemma consecutive_lowerable address l : consecutive address l -> Forall (fun i => lock_and_byte i = false) l ->
  lowerable l /\ exists i rest, l = i :: rest /\ i.(d_address) = address.
Proof.
  induction 1 as [address i Ha Ht Hops|address i l Ha Ht Hops Hterm Hl IH]; intros Hlock;
    apply Forall_cons in Hlock as [Hi Hlock].
  - split; [by apply lowerable_last|by exists i, []].
  - destruct (IH Hlock) as [IHl _]. split; [by apply lowerable_next|by exists i, l].
Qed.

(** ** Properties *)

(** C8: lowering the instructions of a decoded block, of a length for which the value
    numbers suffice and without an 8-bit LOCK AND, makes a block the verifier accepts that
    starts at its address, or throws that an instruction is not supported: it never reads an
    operand that is missing or of another kind, and the checks of a debug build never fail. *)
Theorem lowerToIr_correct debug address l :
  consecutive address l -> Forall (fun i => lock_and_byte i = false) l -> zlength l * most_values < 2 ^ 32 ->
  lowered address (lowerToIr debug l) /\ forall b, lowerToIr debug l = Ok b -> verify b = [] /\ b.(b_start) = address.
Proof.
  intros Hl Hlock Hroom. destruct (consecutive_lowerable _ _ Hl Hlock) as (Hlow & i & rest & -> & <-).
  pose proof (lowerToIr_lowered debug i rest Hlow Hroom) as H. split; [done|].
  intros b E. rewrite E in H. by apply closed_block_verified.
Qed.

(** [add rax, rcx] at 4096 and [ret]. *)
Definition sample_instructions : list DecodedInstruction :=
  [mkInstruction 4096 X_AddRegReg (replicate 15 0) 3 [RegisterOperand Rax 64 0; RegisterOperand Rcx 64 0] None None None;
   mkInstruction 4099 X_Ret (replicate 15 0) 1 [] None None None].

Lemma lowerToIr_correct_witness :
  exists b, lowerToIr true sample_instructions = Ok b /\ verify b = [] /\ b.(b_start) = 4096.
Proof.
  assert (consecutive 4096 sample_instructions) as Hc.
  { apply consecutive_next; [done|done| |done|apply consecutive_last; [done|done|apply Forall_nil_2]].
    repeat (apply Forall_cons_2; [split; [repeat constructor|by left]|]). apply Forall_nil_2. }
  assert (Forall (fun i => lock_and_byte i = false) sample_instructions) as Hl
    by (repeat (apply Forall_cons_2; [done|]); apply Forall_nil_2).
  destruct (lowerToIr_correct true 4096 sample_instructions Hc Hl ltac:(done)) as [H Hv].
  destruct (lowerToIr true sample_instructions) as [b|e|] eqn:E; [|vm_compute in E; discriminate E|destruct H].
  exists b. split; [done|]. by apply Hv.
Defined.
