(* ===== verification/BackendAnalysis.v ===== *)
(** The analyses of the ARM64 backend ([src/arm64/Backend.cpp], before [compile]): which
    flag updates can be skipped, deferred or sunk, and the allocation of host registers.

    A position in the block is a [nat], a [ValueId] its number and an [XRegister] its
    encoding.  Reading [block.operations] or a vector of values out of range is undefined. *)
From S2P Require Import Prelude X86State IR IRVerify Optimization.

(** ** Flag updates *)

Record ZeroFlagSource := mkZeroFlagSource { z_value : ValueId; z_width : Width }.

Definition zeroFlagSourceForUpdate (operation : Operation) : option ZeroFlagSource :=
  match operation.(o_opcode) with
  | Op_UpdateAddFlags =>
      match operation.(o_third) with
      | Some third => Some (mkZeroFlagSource third operation.(o_width))
      | None => None
      end
  | Op_UpdateSubFlags =>
      match operation.(o_third) with
      | Some third =>
          if width_is I8 operation || width_is I64 operation
          then Some (mkZeroFlagSource third operation.(o_width)) else None
      | None => None
      end
  | Op_UpdateLogicFlags =>
      match operation.(o_lhs) with
      | Some lhs => Some (mkZeroFlagSource lhs operation.(o_width))
      | None => None
      end
  | _ => None
  end.

Definition isAnyFlagUpdate (opcode : Opcode) : bool :=
  match opcode with
  | Op_UpdateAddFlags | Op_UpdateAdcFlags | Op_UpdateSbbFlags | Op_UpdateIncFlags | Op_UpdateDecFlags
  | Op_UpdateSubFlags | Op_UpdateLogicFlags | Op_UpdateShiftLeftFlags | Op_UpdateShiftRightFlags
  | Op_UpdateShiftRightArithmeticFlags | Op_UpdateRotateLeftFlags | Op_UpdateRotateRightFlags
  | Op_UpdateMultiplyFlags | Op_UpdateSignedMultiplyFlags | Op_UpdateShiftRightDoubleFlags
  | Op_UpdateBitTestFlags => true
  | _ => false
  end.

Definition preservesZeroFlagSource (opcode : Opcode) : bool :=
  match opcode with
  | Op_Constant | Op_ReadGuestReg | Op_WriteGuestReg | Op_Add | Op_Sub | Op_ShiftLeft | Op_ShiftRightLogical
  | Op_ShiftRightArithmetic | Op_MultiplyLow | Op_MultiplyHighUnsigned | Op_MultiplyHighSigned
  | Op_ShiftRightDouble | Op_And | Op_Or | Op_Xor | Op_SignExtend32 | Op_ByteSwap | Op_EvaluateCondition
  | Op_ConditionalMoveGuestReg => true
  | _ => false
  end.

Definition fullyReplacesArithmeticFlags (opcode : Opcode) : bool :=
  match opcode with
  | Op_UpdateAddFlags | Op_UpdateAdcFlags | Op_UpdateSbbFlags | Op_UpdateSubFlags | Op_UpdateLogicFlags => true
  | _ => false
  end.

Definition isFlagSinkPure (opcode : Opcode) : bool :=
  match opcode with
  | Op_Constant | Op_ReadGuestReg | Op_WriteGuestReg | Op_Add | Op_Sub | Op_ShiftLeft | Op_ShiftRightLogical
  | Op_ShiftRightArithmetic | Op_MultiplyLow | Op_MultiplyHighUnsigned | Op_MultiplyHighSigned
  | Op_ShiftRightDouble | Op_And | Op_Or | Op_Xor | Op_SignExtend32 | Op_ByteSwap => true
  | _ => false
  end.

(** The loop of [logicFlagSinkTarget] over the operations from [index] on. *)
Fixpoint logicFlagSinkTarget_loop (operations : list Operation) (index : nat) (target : option nat) : option nat :=
  match operations with
  | [] => None
  | operation :: rest =>
      if isFlagSinkPure operation.(o_opcode) then logicFlagSinkTarget_loop rest (S index) target
      else if absent target && opcode_is Op_LoadGuest operation && width_is I8 operation
      then logicFlagSinkTarget_loop rest (S index) (Some index)
      else if present target && fullyReplacesArithmeticFlags operation.(o_opcode) then target
      else None
  end.

Definition logicFlagSinkTarget (block : Block) (updateIndex : nat) : option nat :=
  match block.(b_operations) !! updateIndex with
  | Some update =>
      if opcode_is Op_UpdateLogicFlags update
      then logicFlagSinkTarget_loop (drop (S updateIndex) block.(b_operations)) (S updateIndex) None
      else None
  | None => None
  end.

Definition sunkLogicFlagUpdateAt (block : Block) (loadIndex : nat) : option nat :=
  List.find (fun index => bool_decide (logicFlagSinkTarget block index = Some loadIndex)) (seq 0 loadIndex).

Fixpoint zeroFlagSourceAt (block : Block) (operationIndex : nat) : outcome (option ZeroFlagSource) :=
  match operationIndex with
  | O => Ok None
  | S index =>
      match block.(b_operations) !! index with
      | None => Undefined
      | Some candidate =>
          if isAnyFlagUpdate candidate.(o_opcode) then Ok (zeroFlagSourceForUpdate candidate)
          else if negb (preservesZeroFlagSource candidate.(o_opcode)) then Ok None
          else zeroFlagSourceAt block index
      end
  end.

Fixpoint zeroFlagUpdateIndexAt (block : Block) (operationIndex : nat) : outcome (option nat) :=
  match operationIndex with
  | O => Ok None
  | S index =>
      match block.(b_operations) !! index with
      | None => Undefined
      | Some candidate =>
          if isAnyFlagUpdate candidate.(o_opcode)
          then Ok (if present (zeroFlagSourceForUpdate candidate) then Some index else None)
          else if negb (preservesZeroFlagSource candidate.(o_opcode)) then Ok None
          else zeroFlagUpdateIndexAt block index
      end
  end.

(** The loops of the backend read operations at positions in range. *)
Definition operation_at (block : Block) (index : nat) : outcome Operation :=
  match block.(b_operations) !! index with Some operation => Ok operation | None => Undefined end.

Definition deferredExitFlagUpdate (block : Block) (internalSelfEdge : bool) : outcome (option nat) :=
  if negb internalSelfEdge || (zlength block.(b_operations) =? 0) then Ok None
  else
    let exitIndex := (length block.(b_operations) - 1)%nat in
    let! exit := operation_at block exitIndex in
    match exit.(o_condition) with
    | Some condition =>
        if negb (opcode_is Op_ExitBlock exit) || exit_is_not Exit_Conditional exit then Ok None
        else if bool_decide (condition = Cond_ParityEven) || bool_decide (condition = Cond_ParityOdd) then Ok None
        else
          let! updateIndex := zeroFlagUpdateIndexAt block exitIndex in
          match updateIndex with
          | None => Ok None
          | Some updateIndex =>
              let! update := operation_at block updateIndex in
              if negb (opcode_is Op_UpdateSubFlags update) || negb (width_is I64 update) then Ok None
              else Ok (Some updateIndex)
          end
    | None => Ok None
    end.

Definition consumesOnlyZeroFlag (operation : Operation) : bool :=
  (opcode_is Op_EvaluateCondition operation || opcode_is Op_ConditionalMoveGuestReg operation) &&
  match operation.(o_condition) with
  | Some condition => bool_decide (condition = Cond_Equal) || bool_decide (condition = Cond_NotEqual)
  | None => false
  end.

Definition replacesArithmeticFlags (opcode : Opcode) : bool := fullyReplacesArithmeticFlags opcode.

Definition isPureBetweenFlagUpdates (opcode : Opcode) : bool :=
  match opcode with
  | Op_Constant | Op_ReadGuestReg | Op_WriteGuestReg | Op_Add | Op_Sub | Op_ShiftLeft | Op_ShiftRightLogical
  | Op_ShiftRightArithmetic | Op_MultiplyLow | Op_MultiplyHighUnsigned | Op_MultiplyHighSigned
  | Op_ShiftRightDouble | Op_And | Op_Or | Op_Xor | Op_SignExtend32 | Op_ByteSwap => true
  | _ => false
  end.

(** The loop of [isDeadFlagUpdate] over the operations after the update. *)
Fixpoint isDeadFlagUpdate_loop (fuseZeroFlagConsumers : bool) (operations : list Operation) : bool :=
  match operations with
  | [] => false
  | operation :: rest =>
      if replacesArithmeticFlags operation.(o_opcode) then true
      else if fuseZeroFlagConsumers && consumesOnlyZeroFlag operation
      then isDeadFlagUpdate_loop fuseZeroFlagConsumers rest
      else if negb (isPureBetweenFlagUpdates operation.(o_opcode)) then false
      else isDeadFlagUpdate_loop fuseZeroFlagConsumers rest
  end.

Definition isDeadFlagUpdate (block : Block) (index : nat) (fuseZeroFlagConsumers : bool) : bool :=
  match block.(b_operations) !! index with
  | None => false
  | Some update =>
      if negb (replacesArithmeticFlags update.(o_opcode)) then false
      else if fuseZeroFlagConsumers && absent (zeroFlagSourceForUpdate update) then false
      else isDeadFlagUpdate_loop fuseZeroFlagConsumers (drop (S index) block.(b_operations))
  end.

(** ** Host registers *)

Definition firstRegister : Z := 8.
Definition registerCount : nat := 8.

(** [lastUses] and [defined] while the operations are scanned. *)
Record Liveness := mkLiveness { l_lastUses : list nat; l_defined : list bool }.

Definition checkValue (block : Block) (value : ValueId) : outcome unit :=
  if block.(b_valueCount) <=? value
  then Throw (runtime_error "R1 register allocation saw an out-of-range IR value") else Ok tt.

Definition define (index : nat) (value : ValueId) (s : Liveness) : Liveness :=
  mkLiveness (<[Z.to_nat value := index]> s.(l_lastUses)) (<[Z.to_nat value := true]> s.(l_defined)).
(** [lastUses[value] = std::max(lastUses[value], index)]. *)
Definition extend (index : nat) (value : ValueId) (s : Liveness) : Liveness :=
  mkLiveness (alter (fun last => Nat.max last index) (Z.to_nat value) s.(l_lastUses)) s.(l_defined).

Fixpoint extend_all (block : Block) (index : nat) (values : list (option ValueId)) (s : Liveness) : outcome Liveness :=
  match values with
  | [] => Ok s
  | None :: rest => extend_all block index rest s
  | Some value :: rest => let! _ := checkValue block value in extend_all block index rest (extend index value s)
  end.

Definition liveness_step (block : Block) (fuseZeroFlagConsumers sinkLogicFlags : bool) (index : nat)
    (operation : Operation) (s : Liveness) : outcome Liveness :=
  let! s :=
    match operation.(o_result) with
    | Some result => let! _ := checkValue block result in Ok (define index result s)
    | None => Ok s
    end in
  let! s := extend_all block index [operation.(o_lhs); operation.(o_rhs); operation.(o_third)] s in
  let! s :=
    if fuseZeroFlagConsumers && consumesOnlyZeroFlag operation then
      let! source := zeroFlagSourceAt block index in
      match source with
      | Some source => extend_all block index [Some source.(z_value)] s
      | None => Ok s
      end
    else Ok s in
  if sinkLogicFlags then
    match logicFlagSinkTarget block index with
    | Some target => extend_all block target [operation.(o_lhs)] s
    | None => Ok s
    end
  else Ok s.

Fixpoint liveness_loop (block : Block) (fuseZeroFlagConsumers sinkLogicFlags : bool) (index : nat)
    (operations : list Operation) (s : Liveness) : outcome Liveness :=
  match operations with
  | [] => Ok s
  | operation :: rest =>
      let! s := liveness_step block fuseZeroFlagConsumers sinkLogicFlags index operation s in
      liveness_loop block fuseZeroFlagConsumers sinkLogicFlags (S index) rest s
  end.

(** The operands of a deferred flag update stay live to the end of the block. *)
Fixpoint keep_to_end (block : Block) (values : list (option ValueId)) (s : Liveness) : outcome Liveness :=
  match values with
  | [] => Ok s
  | None :: rest => keep_to_end block rest s
  | Some value :: rest =>
      let! _ := checkValue block value in
      keep_to_end block rest
        (mkLiveness (<[Z.to_nat value := (length block.(b_operations) - 1)%nat]> s.(l_lastUses)) s.(l_defined))
  end.

Definition liveness (block : Block) (fuseZeroFlagConsumers sinkLogicFlags : bool)
    (deferredExitUpdate : option nat) : outcome Liveness :=
  let n := Z.to_nat block.(b_valueCount) in
  let! s := liveness_loop block fuseZeroFlagConsumers sinkLogicFlags 0 block.(b_operations)
    (mkLiveness (replicate n 0%nat) (replicate n false)) in
  match deferredExitUpdate with
  | Some update =>
      let! update := operation_at block update in
      keep_to_end block [update.(o_lhs); update.(o_rhs); update.(o_third)] s
  | None => Ok s
  end.

(** [active], [assignments] and [assigned]. *)
Record Scan := mkScan { s_active : list (option ValueId); s_assignments : list Z; s_assigned : list bool }.

(** Slots whose value is no longer used become free. *)
Definition expire (lastUses : list nat) (index : nat) (active : list (option ValueId)) : list (option ValueId) :=
  map (fun slot : option ValueId =>
    match slot with
    | Some value => if (nth (Z.to_nat value) lastUses 0 <? index)%nat then None else Some value
    | None => None
    end) active.

(** [std::ranges::find_if(active, !value)]: the first free slot. *)
Fixpoint first_free (active : list (option ValueId)) : option nat :=
  match active with
  | [] => None
  | None :: _ => Some O
  | Some _ :: rest => option_map S (first_free rest)
  end.

Definition exhausted (rip : GuestAddress) : exn :=
  runtime_error (String.append "R1 linear-scan register allocator exhausted x8...x15"
    (String.append " at guest RIP 0x" (hex_digits 16 rip))).

Fixpoint scan_loop (lastUses : list nat) (index : nat) (operations : list Operation) (s : Scan) : outcome Scan :=
  match operations with
  | [] => Ok s
  | operation :: rest =>
      let active := expire lastUses index s.(s_active) in
      match operation.(o_result) with
      | None => scan_loop lastUses (S index) rest (mkScan active s.(s_assignments) s.(s_assigned))
      | Some result =>
          match first_free active with
          | None => Throw (exhausted operation.(o_guestRip))
          | Some slot =>
              scan_loop lastUses (S index) rest
                (mkScan (<[slot := Some result]> active)
                   (<[Z.to_nat result := firstRegister + Z.of_nat slot]> s.(s_assignments))
                   (<[Z.to_nat result := true]> s.(s_assigned)))
          end
      end
  end.

Definition allocateHostRegisters (block : Block) (fuseZeroFlagConsumers sinkLogicFlags : bool)
    (deferredExitUpdate : option nat) : outcome (list Z) :=
  let n := Z.to_nat block.(b_valueCount) in
  let! live := liveness block fuseZeroFlagConsumers sinkLogicFlags deferredExitUpdate in
  let! scan := scan_loop live.(l_lastUses) 0 block.(b_operations)
    (mkScan (replicate registerCount None) (replicate n 0) (replicate n false)) in
  if existsb (fun '(defined, assigned) => defined && negb assigned) (zip live.(l_defined) scan.(s_assigned))
  then Throw (runtime_error "R1 register allocation left an IR value unassigned")
  else Ok scan.(s_assignments).
