(* ===== verification/BackendPlan.v ===== *)
(** What [compile] of [src/arm64/Backend.cpp] works out before it emits code: folded
    immediates, the loop constant and the guest registers kept in host registers, widened
    byte writes, the loads and stores that go straight to memory, and what the prologue saves.

    Vectors indexed by value or by position are lists; reading out of range is undefined. *)
From S2P Require Import Prelude X86State IR IRVerify Optimization BackendAnalysis.

Definition at_index {A} (l : list A) (i : nat) : outcome A :=
  match l !! i with Some a => Ok a | None => Undefined end.
Definition at_value {A} (l : list A) (v : ValueId) : outcome A := at_index l (Z.to_nat v).
(** [l[i] = a]. *)
Definition put_index {A} (l : list A) (i : nat) (a : A) : outcome (list A) :=
  let! _ := at_index l i in Ok (<[i := a]> l).
Definition put_value {A} (l : list A) (v : ValueId) (a : A) : outcome (list A) := put_index l (Z.to_nat v) a.

(** A loop over the operations and their positions. *)
Fixpoint for_operations {A} (body : nat -> Operation -> A -> outcome A) (index : nat) (operations : list Operation)
    (s : A) : outcome A :=
  match operations with
  | [] => Ok s
  | operation :: rest => let! s := body index operation s in for_operations body (S index) rest s
  end.

(** ** Definitions and uses *)

(** [definitions] and [definitionIndices]. *)
Record Definitions := mkDefinitions { defs_operation : list (option Operation); defs_index : list nat }.

Definition collectDefinitions (block : Block) : outcome Definitions :=
  let n := Z.to_nat block.(b_valueCount) in
  for_operations (fun index operation s =>
    match operation.(o_result) with
    | Some result =>
        let! definitions := put_value s.(defs_operation) result (Some operation) in
        let! indices := put_value s.(defs_index) result index in
        Ok (mkDefinitions definitions indices)
    | None => Ok s
    end) 0 block.(b_operations) (mkDefinitions (replicate n None) (replicate n O)).

Definition definingOperation (definitions : list (option Operation)) (value : ValueId) : option Operation :=
  if zlength definitions <=? value then None else default None (definitions !! Z.to_nat value).

(** [emittedUseCounts] and [emittedLastUses]. *)
Record Uses := mkUses { u_counts : list Z; u_last : list nat }.

Fixpoint count_uses (index : nat) (values : list (option ValueId)) (s : Uses) : outcome Uses :=
  match values with
  | [] => Ok s
  | None :: rest => count_uses index rest s
  | Some value :: rest =>
      let! count := at_value s.(u_counts) value in
      let! counts := put_value s.(u_counts) value (count + 1) in
      let! last := put_value s.(u_last) value index in
      count_uses index rest (mkUses counts last)
  end.

Definition collectUses (block : Block) (eliminateFusedFlagUpdates : bool) : outcome Uses :=
  let n := Z.to_nat block.(b_valueCount) in
  for_operations (fun index operation s =>
    if isDeadFlagUpdate block index eliminateFusedFlagUpdates then Ok s
    else count_uses index [operation.(o_lhs); operation.(o_rhs); operation.(o_third)] s)
    0 block.(b_operations) (mkUses (replicate n 0) (replicate n O)).

Definition isZeroExtendedDefinition (definition : option Operation) : bool :=
  match definition with
  | Some definition =>
      width_is I32 definition &&
      match definition.(o_opcode) with
      | Op_Constant | Op_ReadGuestReg | Op_Add | Op_Sub | Op_And | Op_Or | Op_Xor | Op_LoadGuest => true
      | _ => false
      end
  | None => false
  end.

Section Analyses.
Context (block : Block) (defs : Definitions) (uses : Uses).
Local Abbreviation defining := (definingOperation defs.(defs_operation)).

(** [deferredExitResultOperation]. *)
Definition deferredResult (deferredExitUpdate : option nat) : outcome (option nat) :=
  match deferredExitUpdate with
  | None => Ok None
  | Some updateIndex =>
      let! update := operation_at block updateIndex in
      match update.(o_third) with
      | None => Ok None
      | Some third =>
          match defining third with
          | Some definition =>
              if opcode_is Op_Sub definition && width_is I64 definition then
                let! count := at_value uses.(u_counts) third in
                if count =? 1 then let! index := at_value defs.(defs_index) third in Ok (Some index) else Ok None
              else Ok None
          | None => Ok None
          end
      end
  end.

(** [foldedImmediate]. *)
Definition foldImmediates : outcome (list bool) :=
  for_operations (fun _ operation folded =>
    match operation.(o_rhs) with
    | Some rhs =>
        if negb (opcode_is Op_Add operation || opcode_is Op_Sub operation) || negb (tracked_width operation)
        then Ok folded
        else
          match defining rhs with
          | Some definition =>
              if opcode_is Op_Constant definition && (definition.(o_immediate) <=? 0x0FFF) then
                let! count := at_value uses.(u_counts) rhs in
                if count =? 1 then put_value folded rhs true else Ok folded
              else Ok folded
          | None => Ok folded
          end
    | None => Ok folded
    end) 0 block.(b_operations) (replicate (Z.to_nat block.(b_valueCount)) false).

(** The instructions of the shorter of the MOVZ and MOVN sequences. *)
Definition constantMaterializationCost (value : Z) : Z :=
  let halfwords := map (fun shift => u16 (Z.shiftr value shift)) [0; 16; 32; 48] in
  let movzCost := zlength (filter (fun halfword => halfword <> 0) halfwords) in
  let movnCost := zlength (filter (fun halfword => halfword <> 0xFFFF) halfwords) in
  Z.max 1 (Z.min movzCost movnCost).

(** The value of a constant operation. *)
Definition constant_value (operation : Operation) : Z :=
  if width_is I32 operation then Z.land operation.(o_immediate) UINT32_MAX else operation.(o_immediate).

(** [pinnedLoopConstant], with [pinnedLoopConstantCost]. *)
Definition choosePinnedConstant (folded : list bool) : outcome (option ValueId * Z) :=
  for_operations (fun _ operation '(pinned, pinnedCost) =>
    match operation.(o_result) with
    | Some result =>
        if negb (opcode_is Op_Constant operation) then Ok (pinned, pinnedCost)
        else
          let! isFolded := at_value folded result in
          let! count := at_value uses.(u_counts) result in
          if isFolded || (count =? 0) then Ok (pinned, pinnedCost)
          else
            let cost := constantMaterializationCost (constant_value operation) in
            if pinnedCost <? cost then Ok (Some result, cost) else Ok (pinned, pinnedCost)
    | None => Ok (pinned, pinnedCost)
    end) 0 block.(b_operations) (None, 0).

(** ** Guest registers in host registers *)

Definition byte_load (operation : Operation) : bool := opcode_is Op_LoadGuest operation && width_is I8 operation.
Definition byte_store (operation : Operation) : bool := opcode_is Op_StoreGuest operation && width_is I8 operation.

(** The operations of a loop that leaves the caller-saved registers alone. *)
Definition keepsCallerSaved (operation : Operation) : bool :=
  match operation.(o_opcode) with
  | Op_Constant | Op_ReadGuestReg | Op_WriteGuestReg | Op_Add | Op_Sub | Op_And | Op_Or | Op_Xor
  | Op_EvaluateCondition | Op_ConditionalMoveGuestReg | Op_ExitBlock => true
  | Op_LoadGuest | Op_StoreGuest => width_is I8 operation
  | Op_UpdateAddFlags | Op_UpdateLogicFlags => true
  | Op_UpdateSubFlags => width_is I8 operation || width_is I64 operation
  | _ => false
  end.

(** [guestRegisterUses]. *)
Definition countRegisterUses : list Z :=
  fold_left (fun counts operation =>
    match operation.(o_guestRegister) with
    | Some register =>
        match operation.(o_opcode) with
        | Op_ReadGuestReg | Op_WriteGuestReg | Op_ConditionalMoveGuestReg =>
            alter (fun count => count + 1) (Register_encoding register) counts
        | _ => counts
        end
    | None => counts
    end) block.(b_operations) (replicate 16 0).

(** [std::ranges::max_element]: the position and the value of the first greatest element. *)
Fixpoint max_element (l : list Z) (index : nat) (best : nat) (greatest : Z) : nat * Z :=
  match l with
  | [] => (best, greatest)
  | x :: l => if greatest <? x then max_element l (S index) index x else max_element l (S index) best greatest
  end.

(** The loop over [pinCandidates]. *)
Fixpoint pinRegisters (candidates : list (option Z)) (counts : list Z) (pinned : list (option Z)) : list (option Z) :=
  match candidates with
  | [] => pinned
  | None :: rest => pinRegisters rest counts pinned
  | Some candidate :: rest =>
      let '(index, mostUsed) := max_element (drop 1 counts) 1 0 (hd 0 counts) in
      if mostUsed =? 0 then pinned
      else pinRegisters rest (<[index := 0]> counts) (<[index := Some candidate]> pinned)
  end.

Definition pinCandidates (canPinCallerSavedGuestRegisters : bool) : list (option Z) :=
  [Some 26; Some 27; Some 28] ++
  (if canPinCallerSavedGuestRegisters then [Some 5; Some 6; Some 7; Some 30] else [None; None; None; None]).

Definition pinnedGuestRegister (pinned : list (option Z)) (guestRegister : Register) : option Z :=
  default None (pinned !! Register_encoding guestRegister).

(** [std::optional<x86::Register> == x86::Register]. *)
Definition names_register (operation : Operation) (guestRegister : Register) : bool :=
  bool_decide (operation.(o_guestRegister) = Some guestRegister).
Definition writes_register (operation : Operation) : bool :=
  opcode_is Op_WriteGuestReg operation || opcode_is Op_ConditionalMoveGuestReg operation.

Fixpoint nextGuestWrite_loop (guestRegister : Register) (operations : list Operation) (index : nat) : nat :=
  match operations with
  | [] => index
  | candidate :: rest =>
      if names_register candidate guestRegister && writes_register candidate then index
      else nextGuestWrite_loop guestRegister rest (S index)
  end.
Definition nextGuestWrite (operationIndex : nat) (guestRegister : Register) : nat :=
  nextGuestWrite_loop guestRegister (drop (S operationIndex) block.(b_operations)) (S operationIndex).

(** [interferes]: another value lives in the host register past [definitionIndex]. *)
Definition interferes (pinnedValues : list (option Z)) (pinned : Z) (definitionIndex : nat) : bool :=
  existsb (fun '(register, lastUse) =>
    match register with
    | Some register => (register =? pinned) && (definitionIndex <? lastUse)%nat
    | None => false
    end) (zip pinnedValues uses.(u_last)).

(** The values that can live in the host register of a pinned guest register. *)
Definition pinValues (pinnedRegisters : list (option Z)) (pinnedValues : list (option Z)) : outcome (list (option Z)) :=
  for_operations (fun index operation pinnedValues =>
    match operation.(o_guestRegister) with
    | None => Ok pinnedValues
    | Some guestRegister =>
        match pinnedGuestRegister pinnedRegisters guestRegister with
        | None => Ok pinnedValues
        | Some pinned =>
            if opcode_is Op_ReadGuestReg operation && present operation.(o_result) then
              match operation.(o_result) with
              | Some result =>
                  let! last := at_value uses.(u_last) result in
                  if (last <=? nextGuestWrite index guestRegister)%nat
                  then put_value pinnedValues result (Some pinned) else Ok pinnedValues
              | None => Ok pinnedValues
              end
            else
              match operation.(o_lhs) with
              | Some source =>
                  if negb (opcode_is Op_WriteGuestReg operation) ||
                     (negb (width_is I64 operation) && negb (isZeroExtendedDefinition (defining source)))
                  then Ok pinnedValues
                  else
                    let nextWrite := nextGuestWrite index guestRegister in
                    let! last := at_value uses.(u_last) source in
                    let! current := at_value pinnedValues source in
                    if (nextWrite <? last)%nat ||
                       match current with Some register => negb (register =? pinned) | None => false end
                    then Ok pinnedValues
                    else
                      let! definitionIndex := at_value defs.(defs_index) source in
                      if interferes pinnedValues pinned definitionIndex then Ok pinnedValues
                      else put_value pinnedValues source (Some pinned)
              | None => Ok pinnedValues
              end
        end
    end) 0 block.(b_operations) pinnedValues.

(** ** Byte writes of a register known to be zero *)

Definition clears_known_zero (operation : Operation) : bool :=
  match operation.(o_opcode) with
  | Op_Push | Op_RepeatMoveByte | Op_RepeatStore | Op_DivideUnsignedByte | Op_DivideUnsignedDword
  | Op_DivideUnsignedQword | Op_DivideSignedDword => true
  | _ => false
  end.

(** [promotesNarrowGuestWrite], with [guestRegisterKnownZero]. *)
Definition promoteWrites : outcome (list bool * list bool) :=
  for_operations (fun index operation '(promotes, knownZero) =>
    match operation.(o_opcode), operation.(o_guestRegister), operation.(o_lhs) with
    | Op_WriteGuestReg, Some guestRegister, Some lhs =>
        let guestIndex := Register_encoding guestRegister in
        let is_zero := match defining lhs with
                       | Some definition => opcode_is Op_Constant definition && (definition.(o_immediate) =? 0)
                       | None => false
                       end in
        let is_condition := match defining lhs with
                            | Some definition => opcode_is Op_EvaluateCondition definition
                            | None => false
                            end in
        if tracked_width operation && is_zero then Ok (promotes, <[guestIndex := true]> knownZero)
        else if width_is I8 operation && default false (knownZero !! guestIndex) && is_condition then
          let! promotes := put_index promotes index true in
          Ok (promotes, <[guestIndex := false]> knownZero)
        else Ok (promotes, <[guestIndex := false]> knownZero)
    | Op_ConditionalMoveGuestReg, Some guestRegister, _ =>
        Ok (promotes, <[Register_encoding guestRegister := false]> knownZero)
    | _, _, _ =>
        if clears_known_zero operation then Ok (promotes, map (fun _ => false) knownZero) else Ok (promotes, knownZero)
    end) 0 block.(b_operations) (replicate (length block.(b_operations)) false, replicate 16 false).

(** ** Byte loads straight from memory *)

Record DirectReadSpan := mkDirectReadSpan {
  dr_firstLoadOperationIndex : nat;
  dr_address : ValueId;
  dr_induction : ValueId;
  dr_step : Z;
  dr_maximumOffset : Z;
  dr_limit : Z
}.

Record AdjacentDirectRead := mkAdjacentDirectRead { ad_first : bool; ad_offset : Z; ad_maximumOffset : Z }.
Record ReadCandidate := mkReadCandidate { rc_operationIndex : nat; rc_root : ValueId; rc_offset : Z }.

(** [while (const auto *definition = definingOperation(root))]: each round goes to an earlier
    definition, so [valueCount] rounds are enough. *)
Fixpoint peelOffsets (fuel : nat) (root : ValueId) (offset : Z) : outcome (ValueId * Z) :=
  match fuel with
  | O => Undefined
  | S fuel =>
      match defining root with
      | None => Ok (root, offset)
      | Some definition =>
          match definition.(o_lhs), definition.(o_rhs) with
          | Some lhs, Some rhs =>
              if negb (opcode_is Op_Add definition) || negb (width_is I64 definition) then Ok (root, offset)
              else
                match defining rhs with
                | Some constant =>
                    if negb (opcode_is Op_Constant constant) || (0xFFFF - offset <? constant.(o_immediate))
                    then Ok (root, offset)
                    else peelOffsets fuel lhs (offset + constant.(o_immediate))
                | None => Ok (root, offset)
                end
          | _, _ => Ok (root, offset)
          end
      end
  end.

Definition readCandidates : outcome (list ReadCandidate) :=
  for_operations (fun index operation candidates =>
    match operation.(o_lhs) with
    | Some lhs =>
        if byte_load operation then
          let! peeled := peelOffsets (S (Z.to_nat block.(b_valueCount))) lhs 0 in
          Ok (candidates ++ [mkReadCandidate index peeled.1 peeled.2])
        else Ok candidates
    | None => Ok candidates
    end) 0 block.(b_operations) [].

(** [group]: the loads from the same root at [first] or later. *)
Definition readGroup (first : ReadCandidate) (candidates : list ReadCandidate) : list ReadCandidate :=
  List.filter (fun candidate =>
    (first.(rc_operationIndex) <=? candidate.(rc_operationIndex))%nat &&
    (candidate.(rc_root) =? first.(rc_root)) && (candidate.(rc_offset) <=? 0x0FFF)) candidates.

(** The operations strictly between two positions, with their positions. *)
Definition between (first last : nat) : list (nat * Operation) :=
  List.filter (fun '(index, _) => (first <? index)%nat && (index <? last)%nat)
    (zip (seq 0 (length block.(b_operations))) block.(b_operations)).

Definition keepsScratchRegisters (group : list ReadCandidate) (first last : nat)
    (eliminateFusedFlagUpdates sinkLogicFlags : bool) (deferredExitUpdate : option nat) : bool :=
  forallb (fun '(index, operation) =>
    negb (opcode_is Op_LoadGuest operation &&
          negb (existsb (fun member => (member.(rc_operationIndex) =? index)%nat) group)) &&
    negb (isAnyFlagUpdate operation.(o_opcode) &&
          negb (isDeadFlagUpdate block index eliminateFusedFlagUpdates) &&
          negb (sinkLogicFlags && present (logicFlagSinkTarget block index)) &&
          negb (bool_decide (deferredExitUpdate = Some index)))) (between first last).

(** [std::ranges::max_element] by offset. *)
Definition maximumOffset (group : list ReadCandidate) : Z :=
  fold_left (fun greatest member => Z.max greatest member.(rc_offset)) group 0.

(** The guest register [guestRegister] is written somewhere in the block. *)
Definition register_changes (guestRegister : option Register) : bool :=
  existsb (fun operation => bool_decide (operation.(o_guestRegister) = guestRegister) && writes_register operation)
    block.(b_operations).

(** A 64-bit read of a guest register. *)
Definition full_register_read (operation : option Operation) : option Register :=
  match operation with
  | Some operation =>
      if opcode_is Op_ReadGuestReg operation && width_is I64 operation then operation.(o_guestRegister) else None
  | None => None
  end.

(** The operand of [increment] that is not [induction]. *)
Definition other_operand (increment : Operation) (induction : ValueId) : option ValueId :=
  match increment.(o_lhs), increment.(o_rhs) with
  | Some lhs, Some rhs => if lhs =? induction then Some rhs else if rhs =? induction then Some lhs else None
  | _, _ => None
  end.

(** The 64-bit addition that a write of the induction register stores, when the update
    compares the stored value. *)
Definition induction_increment (write update : Operation) (inductionRegister : Register) : option Operation :=
  match write.(o_lhs) with
  | Some lhs =>
      if opcode_is Op_WriteGuestReg write && names_register write inductionRegister && width_is I64 write &&
         bool_decide (update.(o_lhs) = Some lhs)
      then
        match defining lhs with
        | Some increment => if opcode_is Op_Add increment && width_is I64 increment then Some increment else None
        | None => None
        end
      else None
  | None => None
  end.

(** The step of the induction register at a write after the loads. *)
Definition constant_step (induction : ValueId) (inductionRegister : Register) (update write : Operation) : option Z :=
  match induction_increment write update inductionRegister with
  | Some increment =>
      match other_operand increment induction with
      | Some stepValue =>
          match defining stepValue with
          | Some step =>
              if opcode_is Op_Constant step && negb (step.(o_immediate) =? 0) && (step.(o_immediate) <=? 0x0FFF)
              then Some step.(o_immediate) else None
          | None => None
          end
      | None => None
      end
  | None => None
  end.

(** The first of a list that [f] accepts. *)
Fixpoint find_map {A B} (f : A -> option B) (l : list A) : option B :=
  match l with
  | [] => None
  | a :: l => match f a with Some b => Some b | None => find_map f l end
  end.

(** The pairs of the induction and the fixed register of an address. *)
Definition address_pairs (address : Operation) : list (ValueId * ValueId) :=
  match address.(o_lhs), address.(o_rhs) with
  | Some lhs, Some rhs => [(lhs, rhs); (rhs, lhs)]
  | _, _ => []
  end.

(** A 64-bit addition. *)
Definition full_add (operation : option Operation) : option Operation :=
  match operation with
  | Some operation =>
      if opcode_is Op_Add operation && width_is I64 operation && present operation.(o_lhs) && present operation.(o_rhs)
      then Some operation else None
  | None => None
  end.

(** The constant the deferred comparison has on its right. *)
Definition comparison_limit (update : Operation) : option Z :=
  match update.(o_rhs) with
  | Some rhs =>
      match defining rhs with
      | Some limit =>
          if opcode_is Op_Constant limit && negb (limit.(o_immediate) =? 0) then Some limit.(o_immediate) else None
      | None => None
      end
  | None => None
  end.

(** The block loops back to its start on [condition]. *)
Definition loops_on (condition : Condition) (exit : Operation) : bool :=
  opcode_is Op_ExitBlock exit && exit_is Exit_Conditional exit &&
  bool_decide (exit.(o_condition) = Some condition) && bool_decide (exit.(o_target) = Some block.(b_start)).

Definition findReadSpan (first : ReadCandidate) (lastIndex : nat) (greatest : Z) (exit update : Operation) :
    option DirectReadSpan :=
  match comparison_limit update, full_add (defining first.(rc_root)) with
  | Some limit, Some address =>
      if loops_on Cond_NotEqual exit && opcode_is Op_UpdateSubFlags update && width_is I64 update then
        find_map (fun '(induction, offset) =>
          match full_register_read (defining induction), full_register_read (defining offset) with
          | Some inductionRegister, Some offsetRegister =>
              if register_changes (Some offsetRegister) then None
              else
                match find_map (constant_step induction inductionRegister update)
                        (drop (S lastIndex) block.(b_operations)) with
                | Some step =>
                    Some (mkDirectReadSpan first.(rc_operationIndex) first.(rc_root) induction (u16 step) (u16 greatest) limit)
                | None => None
                end
          | _, _ => None
          end) (address_pairs address)
      else None
  | _, _ => None
  end.

(** [adjacentDirectReads] and [directReadSpan]. *)
Definition ReadPlan : Type := list (option AdjacentDirectRead) * option DirectReadSpan.

Definition members_adjacent (members : list ReadCandidate) (reads : list (option AdjacentDirectRead)) :
    list (option AdjacentDirectRead) :=
  fold_left (fun reads member =>
    <[member.(rc_operationIndex) := Some (mkAdjacentDirectRead false (u16 member.(rc_offset)) 0)]> reads) members reads.

Fixpoint planReads_loop (eliminateFusedFlagUpdates sinkLogicFlags : bool) (deferredExitUpdate : option nat)
    (candidates remaining : list ReadCandidate) (reads : list (option AdjacentDirectRead)) : outcome ReadPlan :=
  match remaining with
  | [] => Ok (reads, None)
  | first :: remaining =>
      let group := readGroup first candidates in
      match negb (first.(rc_offset) =? 0) || (zlength group <? 2), List.last group first with
      | true, _ => planReads_loop eliminateFusedFlagUpdates sinkLogicFlags deferredExitUpdate candidates remaining reads
      | false, last =>
          let lastIndex := last.(rc_operationIndex) in
          if negb (keepsScratchRegisters group first.(rc_operationIndex) lastIndex eliminateFusedFlagUpdates
                     sinkLogicFlags deferredExitUpdate)
          then planReads_loop eliminateFusedFlagUpdates sinkLogicFlags deferredExitUpdate candidates remaining reads
          else
            let greatest := maximumOffset group in
            let reads := <[first.(rc_operationIndex) := Some (mkAdjacentDirectRead true 0 (u16 greatest))]> reads in
            let reads := members_adjacent (drop 1 group) reads in
            match deferredExitUpdate with
            | Some updateIndex =>
                let! exit := operation_at block (length block.(b_operations) - 1) in
                let! update := operation_at block updateIndex in
                Ok (reads, findReadSpan first lastIndex greatest exit update)
            | None => Ok (reads, None)
            end
      end
  end.

Definition planReads (enabled eliminateFusedFlagUpdates sinkLogicFlags : bool) (deferredExitUpdate : option nat) :
    outcome ReadPlan :=
  let reads := replicate (length block.(b_operations)) None in
  if enabled then
    let! candidates := readCandidates in
    planReads_loop eliminateFusedFlagUpdates sinkLogicFlags deferredExitUpdate candidates candidates reads
  else Ok (reads, None).

(** ** The byte store of a loop *)

Record DirectWriteSpan := mkDirectWriteSpan {
  dw_storeOperationIndex : nat;
  dw_address : ValueId;
  dw_addressLhs : ValueId;
  dw_addressRhs : ValueId;
  dw_induction : ValueId;
  dw_offset : ValueId;
  dw_step : Z;
  dw_limit : Z
}.

(** The host register that holds the step. *)
Definition register_step (pinned : list (option Z)) (induction : ValueId) (inductionRegister : Register)
    (update write : Operation) : option Z :=
  match induction_increment write update inductionRegister with
  | Some increment =>
      match other_operand increment induction with
      | Some stepValue =>
          match defining stepValue with
          | Some stepRead =>
              match opcode_is Op_ReadGuestReg stepRead, stepRead.(o_guestRegister) with
              | true, Some register => pinnedGuestRegister pinned register
              | _, _ => None
              end
          | None => None
          end
      | None => None
      end
  | None => None
  end.

Definition findWriteSpan (pinned : list (option Z)) (exit update : Operation) (storeIndex : nat) (store : Operation) :
    option DirectWriteSpan :=
  match store.(o_lhs) with
  | Some storeAddress =>
      if negb (byte_store store) then None
      else
        match full_add (defining storeAddress), comparison_limit update with
        | Some address, Some limit =>
            if loops_on Cond_Below exit then
              find_map (fun '(induction, offset) =>
                match full_register_read (defining induction), full_register_read (defining offset) with
                | Some inductionRegister, Some offsetRegister =>
                    if register_changes (Some offsetRegister) then None
                    else
                      match find_map (register_step pinned induction inductionRegister update)
                              (drop (S storeIndex) block.(b_operations)),
                            address.(o_lhs), address.(o_rhs) with
                      | Some step, Some addressLhs, Some addressRhs =>
                          Some (mkDirectWriteSpan storeIndex storeAddress addressLhs addressRhs induction offset step limit)
                      | _, _, _ => None
                      end
                | _, _ => None
                end) (address_pairs address)
            else None
        | _, _ => None
        end
  | None => None
  end.

Definition planWrite (enabled : bool) (pinned : list (option Z)) (deferredExitUpdate : option nat) :
    outcome (option DirectWriteSpan) :=
  match deferredExitUpdate with
  | Some updateIndex =>
      if enabled && (zlength (List.filter byte_store block.(b_operations)) =? 1) then
        let! exit := operation_at block (length block.(b_operations) - 1) in
        let! update := operation_at block updateIndex in
        Ok (find_map (fun '(index, store) => findWriteSpan pinned exit update index store)
              (zip (seq 0 (length block.(b_operations))) block.(b_operations)))
      else Ok None
  | None => Ok None
  end.

End Analyses.

(** ** What the prologue saves *)

(** The operation calls a helper. *)
Definition callsHelper (operation : Operation) : bool :=
  match operation.(o_opcode) with
  | Op_UpdateDecFlags => negb (width_is I64 operation)
  | Op_UpdateSubFlags => negb (width_is I8 operation) && negb (width_is I64 operation)
  | Op_UpdateAdcFlags | Op_UpdateSbbFlags | Op_UpdateIncFlags | Op_UpdateShiftLeftFlags
  | Op_UpdateShiftRightFlags | Op_UpdateShiftRightArithmeticFlags | Op_UpdateRotateLeftFlags
  | Op_UpdateRotateRightFlags | Op_UpdateMultiplyFlags | Op_UpdateSignedMultiplyFlags
  | Op_UpdateShiftRightDoubleFlags | Op_UpdateBitTestFlags | Op_Push | Op_AddGuestMemory | Op_SubGuestMemory
  | Op_OrGuestMemory | Op_AndGuestMemory | Op_ShiftLeftGuestMemory | Op_ShiftRightGuestMemory
  | Op_IncrementGuestMemory | Op_DecrementGuestMemory | Op_CompareExchangeGuestMemory
  | Op_CompareExchangeGuestPair | Op_ExchangeGuestMemory | Op_LockedAddGuestMemory
  | Op_LockedExchangeAddGuestMemory | Op_LockedIncrementGuestMemory | Op_LockedDecrementGuestMemory
  | Op_LockedOrGuestMemory | Op_LockedBitSetGuestMemory | Op_LockedAndGuestMemory | Op_StoreGuestIdtr
  | Op_StoreGuest | Op_StoreGuestXmm | Op_StoreGuestYmm | Op_LoadGuestXmm | Op_LoadGuestYmm
  | Op_LoadGuestSignExtendedBytesXmm | Op_LoadGuestSignExtendedDwordsXmm | Op_XorGuestMemoryXmm
  | Op_AndGuestMemoryXmm | Op_AddGuestMemoryXmm | Op_TestXmmBits | Op_CompareEqualGuestBytesXmm
  | Op_CompareEqualGuestQwordsXmm | Op_ArithmeticGuestMemoryPackedDoubleXmm | Op_UnpackHighGuestPackedSingleXmm
  | Op_HorizontalAddGuestPackedDoubleXmm | Op_UnpackLowGuestPackedSingleXmm | Op_CompareEqualXmmBytes
  | Op_CompareEqualXmmDwords | Op_CompareEqualXmmQwords | Op_ShiftLeftXmmDwords | Op_AddXmmWords
  | Op_ComparePackedDoubleXmm | Op_ArithmeticPackedDoubleXmm | Op_UnpackHighPackedSingleXmm
  | Op_HorizontalAddPackedDoubleXmm | Op_UnpackLowPackedSingleXmm | Op_UpdateUnorderedDoubleFlags
  | Op_UpdateUnorderedFloatFlags | Op_ConvertIntToDoubleXmm | Op_ConvertDoubleToInt | Op_ConvertFloatToDoubleXmm
  | Op_ConvertInt32x2ToDoubleXmm | Op_ScalarDoubleXmm | Op_AddXmmDwords | Op_HorizontalAddXmmDwords
  | Op_AndNotXmm | Op_MoveXmmByteMask | Op_ShuffleXmmBytes | Op_ShuffleXmmDwords | Op_AlignRightXmmBytes
  | Op_BlendXmmWords | Op_UnpackLowXmmWords | Op_BitScanForward | Op_BitScanReverse | Op_RepeatMoveByte
  | Op_RepeatStore | Op_DivideUnsignedByte | Op_DivideUnsignedDword | Op_DivideUnsignedQword
  | Op_DivideSignedDword | Op_LoadGuest | Op_ReadTimestampCounter | Op_Cpuid => true
  | _ => false
  end.

(** The operation passes the execution context to a helper. *)
Definition callsWithContext (operation : Operation) : bool :=
  match operation.(o_opcode) with
  | Op_ShuffleXmmBytes => present operation.(o_lhs)
  | Op_Push | Op_DivideUnsignedByte | Op_DivideUnsignedDword | Op_DivideUnsignedQword | Op_DivideSignedDword
  | Op_AddGuestMemory | Op_SubGuestMemory | Op_OrGuestMemory | Op_AndGuestMemory | Op_ShiftLeftGuestMemory
  | Op_ShiftRightGuestMemory | Op_IncrementGuestMemory | Op_DecrementGuestMemory | Op_CompareExchangeGuestMemory
  | Op_CompareExchangeGuestPair | Op_ExchangeGuestMemory | Op_LockedAddGuestMemory
  | Op_LockedExchangeAddGuestMemory | Op_LockedIncrementGuestMemory | Op_LockedDecrementGuestMemory
  | Op_LockedOrGuestMemory | Op_LockedBitSetGuestMemory | Op_LockedAndGuestMemory | Op_StoreGuestIdtr
  | Op_StoreGuest | Op_StoreGuestXmm | Op_StoreGuestYmm | Op_LoadGuestXmm | Op_LoadGuestYmm
  | Op_LoadGuestSignExtendedBytesXmm | Op_LoadGuestSignExtendedDwordsXmm | Op_XorGuestMemoryXmm
  | Op_AndGuestMemoryXmm | Op_AddGuestMemoryXmm | Op_CompareEqualGuestBytesXmm | Op_CompareEqualGuestQwordsXmm
  | Op_ArithmeticGuestMemoryPackedDoubleXmm | Op_UnpackHighGuestPackedSingleXmm
  | Op_HorizontalAddGuestPackedDoubleXmm | Op_UnpackLowGuestPackedSingleXmm | Op_RepeatMoveByte | Op_RepeatStore
  | Op_LoadGuest | Op_ReadTimestampCounter => true
  | _ => false
  end.

(** ** Everything the emission of the code needs *)

Record Plan := mkPlan {
  p_internalSelfEdge : bool;
  p_deferredExitUpdate : option nat;
  p_hostRegisters : list Z;
  p_definitions : list (option Operation);
  p_deferredExitResultOperation : option nat;
  p_foldedImmediate : list bool;
  p_pinnedLoopConstant : option ValueId;
  p_pinnedValueRegisters : list (option Z);
  p_pinsDirectRead : bool;
  p_pinsDirectWrite : bool;
  p_mayStopRepeating : bool;
  p_pinnedGuestRegisters : list (option Z);
  p_promotesNarrowGuestWrite : list bool;
  p_adjacentDirectReads : list (option AdjacentDirectRead);
  p_directReadSpan : option DirectReadSpan;
  p_directWriteSpan : option DirectWriteSpan;
  p_hasHelperCall : bool;
  p_hasExecutionContextCall : bool
}.

(** [fuseZeroFlagConsumers], [eliminateFusedFlagUpdates] and [sinkLogicFlags] are all
    [internalSelfEdge]. *)
Definition makePlan (block : Block) : outcome Plan :=
  let internalSelfEdge := hasInternalSelfEdge block in
  let any f := existsb f block.(b_operations) in
  let! deferredExitUpdate := deferredExitFlagUpdate block internalSelfEdge in
  let! hostRegisters := allocateHostRegisters block internalSelfEdge internalSelfEdge deferredExitUpdate in
  let! defs := collectDefinitions block in
  let! uses := collectUses block internalSelfEdge in
  let! deferredExitResultOperation := deferredResult block defs uses deferredExitUpdate in
  let! foldedImmediate := foldImmediates block defs uses in
  let! pinned :=
    if internalSelfEdge && present deferredExitUpdate then choosePinnedConstant block uses foldedImmediate
    else Ok (None, 0) in
  let pinnedLoopConstant := pinned.1 in
  let pinnedValueRegisters := replicate (Z.to_nat block.(b_valueCount)) None in
  let! pinnedValueRegisters :=
    match pinnedLoopConstant with
    | Some value => put_value pinnedValueRegisters value (Some 24)
    | None => Ok pinnedValueRegisters
    end in
  let pinsDirectRead := internalSelfEdge && any byte_load in
  let pinsDirectWrite := internalSelfEdge && negb pinsDirectRead && any byte_store in
  let mayStopRepeating := internalSelfEdge && any (opcode_is Op_StoreGuest) in
  let canPinCallerSavedGuestRegisters :=
    (pinsDirectRead || pinsDirectWrite) && forallb keepsCallerSaved block.(b_operations) in
  let guestRegisterUses := if internalSelfEdge then countRegisterUses block else replicate 16 0 in
  let pinnedGuestRegisters :=
    pinRegisters (pinCandidates canPinCallerSavedGuestRegisters) guestRegisterUses (replicate 16 None) in
  let! pinnedValueRegisters := pinValues block defs uses pinnedGuestRegisters pinnedValueRegisters in
  let! promoted := promoteWrites block defs in
  let! reads := planReads block defs (canPinCallerSavedGuestRegisters && pinsDirectRead) internalSelfEdge
    internalSelfEdge deferredExitUpdate in
  let! write := planWrite block defs (canPinCallerSavedGuestRegisters && pinsDirectWrite) pinnedGuestRegisters
    deferredExitUpdate in
  Ok (mkPlan internalSelfEdge deferredExitUpdate hostRegisters defs.(defs_operation) deferredExitResultOperation
        foldedImmediate pinnedLoopConstant pinnedValueRegisters pinsDirectRead pinsDirectWrite mayStopRepeating
        pinnedGuestRegisters promoted.1 reads.1 reads.2 write (any callsHelper)
        (any callsWithContext || internalSelfEdge)).
