(* ===== verification/BackendAnalysisSpec.v ===== *)
(** The analyses of the ARM64 backend are right: values that are live together never share
    a host register and the allocator gives up only where a value is made while eight others
    are live; an immediate is folded only when its one use takes it from the instruction, and a byte write
    is widened only where the register is known to be zero. *)
From S2P Require Import Prelude X86State IR IRBuilder IRBuilderSpec IRVerify IRVerifySpec OptimizationInv BuilderClosed Optimization BackendAnalysis BackendPlan.

(** ** Uses of a value *)

Section Allocation.
Context (block : Block) (fuse sink : bool) (deferred : option nat).
Local Abbreviation ops := block.(b_operations).
Local Abbreviation n := block.(b_valueCount).
Context (Hclosed : closed n ops) (Hn : 0 <= n).
Context (Hdeferred : forall u, deferred = Some u -> (u < length ops)%nat).

(** The operation at [i] asks for [v] at [j]: as an operand, as the source of a fused zero
    flag, or as the operand of a sunk flag update. *)
Inductive requires (i : nat) (v : ValueId) (j : nat) : Prop :=
| requires_operand o : ops !! i = Some o -> Some v ∈ operand_slots o -> j = i -> requires i v j
| requires_fused o w : fuse = true -> ops !! i = Some o -> consumesOnlyZeroFlag o = true ->
    zeroFlagSourceAt block i = Ok (Some (mkZeroFlagSource v w)) -> j = i -> requires i v j
| requires_sunk o : sink = true -> ops !! i = Some o -> o.(o_lhs) = Some v ->
    logicFlagSinkTarget block i = Some j -> requires i v j.

(** [v] is still needed at position [j]. *)
Inductive used_at (v : ValueId) (j : nat) : Prop :=
| used_required i : requires i v j -> used_at v j
| used_deferred u o : deferred = Some u -> ops !! u = Some o -> Some v ∈ operand_slots o ->
    j = (length ops - 1)%nat -> used_at v j.

Definition defined_by (v : ValueId) (i : nat) : Prop := exists o, ops !! i = Some o /\ o.(o_result) = Some v.
(** [v] was defined before position [k] and is used there or later. *)
Definition live_at (v : ValueId) (k : nat) : Prop :=
  (exists i, defined_by v i /\ (i < k)%nat) /\ exists j, used_at v j /\ (k <= j)%nat.

(** ** Facts about the block *)

Lemma op_follows i o : ops !! i = Some o -> follows n (take i ops) o.
Proof using Hclosed. apply Hclosed. Qed.

Lemma result_defined k v : v ∈ results (take k ops) <-> exists i, defined_by v i /\ (i < k)%nat.
Proof.
  unfold results, defined_by. rewrite list_elem_of_omap. split.
  - intros (o & Ho & Hr). apply list_elem_of_lookup in Ho as [i Hi]. apply lookup_take_Some in Hi as [Hi ?].
    by exists i; split; [exists o|].
  - intros (i & (o & Ho & Hr) & Hi). exists o. split; [|done]. apply list_elem_of_lookup. exists i.
    by apply lookup_take_Some.
Qed.

Lemma defined_range v i : defined_by v i -> 0 <= v < n.
Proof using Hclosed.
  intros (o & Ho & Hr). destruct (op_follows i o Ho) as [Hm _ Hu].
  split; [by apply Hu|]. by apply (new_result _ _ _ Hm).
Qed.

Lemma results_range k v : v ∈ results (take k ops) -> 0 <= v < n.
Proof using Hclosed. intros (i & Hd & _)%result_defined. by apply (defined_range v i). Qed.

Lemma defined_once v i j : defined_by v i -> defined_by v j -> i = j.
Proof using Hclosed.
  assert (forall i j, defined_by v i -> defined_by v j -> (i < j)%nat -> False) as H.
  { intros a b Ha (o & Ho & Hr) Hab. destruct (op_follows b o Ho) as [Hm _ _].
    destruct (new_result _ _ _ Hm v Hr) as [_ []]. apply result_defined. by exists a. }
  intros Hi Hj. destruct (Nat.lt_trichotomy i j) as [?|[?|?]]; [exfalso; eauto|done|exfalso; eauto].
Qed.

Lemma operand_defined i o v : ops !! i = Some o -> Some v ∈ operand_slots o -> v ∈ results (take i ops).
Proof using Hclosed. intros Ho Hv. by apply (follows_closed _ _ _ (op_follows i o Ho)). Qed.

Lemma results_mono k k' v : (k <= k')%nat -> v ∈ results (take k ops) -> v ∈ results (take k' ops).
Proof. intros Hk (i & ? & ?)%result_defined. apply result_defined. exists i. split; [done|lia]. Qed.

Lemma zeroFlagSourceAt_ok k : (k <= length ops)%nat -> exists source, zeroFlagSourceAt block k = Ok source /\
  forall v w, source = Some (mkZeroFlagSource v w) -> v ∈ results (take k ops).
Proof using Hclosed.
  induction k as [|k IH]; intros Hk; cbn [zeroFlagSourceAt]; [by exists None|].
  destruct (lookup_lt_is_Some_2 ops k ltac:(lia)) as [o Ho]. rewrite Ho.
  destruct (isAnyFlagUpdate (o_opcode o)).
  { eexists; split; [done|]. intros v w Hz. apply (results_mono k); [lia|]. apply (operand_defined k o v Ho).
    unfold zeroFlagSourceForUpdate in Hz. unfold operand_slots.
    destruct (o_opcode o), (o_third o), (o_lhs o); try discriminate;
      try (destruct (_ || _)); simplify_eq; rewrite !elem_of_cons; auto. }
  destruct (negb _); [by exists None|]. destruct (IH ltac:(lia)) as (s & Hs & Hv). exists s. split; [done|].
  intros v w E. apply (results_mono k); [lia|by eapply Hv].
Qed.

Lemma sink_loop_bounds l index target j : logicFlagSinkTarget_loop l index target = Some j ->
  match target with Some t => (t < index)%nat | None => True end ->
  (target = Some j \/ target = None /\ (index <= j)%nat) /\ (j < index + length l)%nat.
Proof.
  revert index target. induction l as [|o l IH]; intros index target; cbn [logicFlagSinkTarget_loop length]; [done|].
  destruct (isFlagSinkPure _). { intros H Ht. apply IH in H; [|destruct target; lia]. destruct H as [[?|[? ?]] ?]; split; auto; try lia.
    right. split; [done|lia]. }
  destruct (absent target && _ && _) eqn:E.
  { apply andb_prop in E as [[E _]%andb_prop _]. destruct target; [done|]. intros H Ht.
    apply IH in H; [|lia]. destruct H as [[[= ->]|[? ?]] ?]; [|done]. split; [right; split; [done|lia]|lia]. }
  destruct (present target && _); [|done]. intros -> Ht. split; [by left|lia].
Qed.

Lemma sink_target_bounds i j : logicFlagSinkTarget block i = Some j -> (i < j < length ops)%nat.
Proof.
  unfold logicFlagSinkTarget. destruct (ops !! i) as [u|] eqn:E; [|done]. destruct (opcode_is _ _); [|done].
  intros H. apply sink_loop_bounds in H as [H H']; [|done]. rewrite length_drop in H'.
  apply lookup_lt_Some in E. destruct H as [?|[_ ?]]; [done|]. split; lia.
Qed.

Lemma requires_defined i v j : requires i v j -> v ∈ results (take i ops) /\ (i <= j < length ops)%nat.
Proof using Hclosed.
  destruct 1 as [o Ho Hv ->|o w _ Ho _ Hz ->|o _ Ho Hl Ht].
  - split; [by eapply operand_defined|]. apply lookup_lt_Some in Ho. lia.
  - apply lookup_lt_Some in Ho. destruct (zeroFlagSourceAt_ok i ltac:(lia)) as (s & Hs & Hr).
    rewrite Hs in Hz. injection Hz as ->. split; [by eapply Hr|lia].
  - apply sink_target_bounds in Ht. split; [|lia]. apply (operand_defined i o v Ho). unfold operand_slots. rewrite Hl. by left.
Qed.

(** ** The last uses *)

Definition last_of (s : list nat) (v : ValueId) : nat := nth (Z.to_nat v) s O.

(** The table when the operations before [k] defined their results and [needs] are the uses
    seen so far. *)
Record last_uses (k : nat) (needs : ValueId -> nat -> Prop) (s : Liveness) : Prop := {
  lu_uses : length s.(l_lastUses) = Z.to_nat n;
  lu_defined : length s.(l_defined) = Z.to_nat n;
  lu_results : forall v, 0 <= v < n -> nth (Z.to_nat v) s.(l_defined) false = true <-> v ∈ results (take k ops);
  lu_upper : forall v j, needs v j -> (j <= last_of s.(l_lastUses) v)%nat;
  lu_lower : forall v, v ∈ results (take k ops) ->
    defined_by v (last_of s.(l_lastUses) v) \/ needs v (last_of s.(l_lastUses) v)
}.

Lemma nth_insert {A} (l : list A) i j x d : (i < length l)%nat ->
  nth j (<[i := x]> l) d = if (decide (i = j)) then x else nth j l d.
Proof.
  intros Hi. rewrite !nth_lookup. case_decide as E; [subst; by rewrite list_lookup_insert_eq|by rewrite list_lookup_insert_ne].
Qed.

Lemma nth_alter (f : nat -> nat) (l : list nat) i j : (i < length l)%nat ->
  nth j (alter f i l) O = if decide (i = j) then f (nth j l O) else nth j l O.
Proof.
  intros Hi. rewrite !nth_lookup. case_decide as E; [subst|by rewrite list_lookup_alter_ne].
  rewrite list_lookup_alter_eq. destruct (lookup_lt_is_Some_2 l j Hi) as [y ->]. done.
Qed.

Lemma last_uses_ext k needs needs' s : (forall v j, needs v j <-> needs' v j) -> last_uses k needs s -> last_uses k needs' s.
Proof.
  intros He [H1 H2 H3 H4 H5]. split; try done.
  - intros v j H. by apply H4, He.
  - intros v Hv. destruct (H5 v Hv) as [?|H]; [auto|]. right. by apply He.
Qed.

Lemma extend_ok k j v needs s : v ∈ results (take k ops) -> last_uses k needs s ->
  last_uses k (fun w i => needs w i \/ w = v /\ i = j) (extend j v s).
Proof using Hclosed.
  intros Hr [H1 H2 H3 H4 H5]. pose proof (results_range k v Hr) as Hv.
  split; cbn [extend l_lastUses l_defined]; unfold last_of in *; [by rewrite length_alter|done|done| |].
  - intros w i Hw. rewrite nth_alter by lia. destruct Hw as [Hw|[-> ->]]; [specialize (H4 w i Hw)|]; case_decide; lia.
  - intros w Hw. rewrite nth_alter by lia. specialize (H5 w Hw).
    case_decide as E; [|tauto]. apply (results_range k w) in Hw. assert (w = v) as -> by lia.
    destruct (Nat.max_spec (nth (Z.to_nat v) (l_lastUses s) O) j) as [[_ ->]|[_ ->]]; tauto.
Qed.

Lemma checkValue_ok k v : v ∈ results (take k ops) -> checkValue block v = Ok tt.
Proof using Hclosed.
  intros Hr. pose proof (results_range k v Hr). unfold checkValue. by destruct (Z.leb_spec n v); [lia|].
Qed.

Lemma extend_all_ok k j values needs s : last_uses k needs s -> (forall v, Some v ∈ values -> v ∈ results (take k ops)) ->
  exists s', extend_all block j values s = Ok s' /\ last_uses k (fun v i => needs v i \/ Some v ∈ values /\ i = j) s'.
Proof using Hclosed.
  revert needs s. induction values as [|[v|] values IH]; intros needs s Hs Hv; cbn [extend_all].
  - exists s. split; [done|]. revert Hs. apply last_uses_ext. intros v i. rewrite elem_of_nil. tauto.
  - rewrite (checkValue_ok k) by (apply Hv; by left). cbn [outcome_bind].
    destruct (IH _ _ (extend_ok k j v needs s (Hv v ltac:(by left)) Hs)) as (s' & Hs' & Hl); [intros w Hw; apply Hv; by right|].
    exists s'. split; [done|]. revert Hl. apply last_uses_ext. intros w i. rewrite elem_of_cons.
    split; [intros [[?|[-> ?]]|[? ?]]|intros [?|[[[= ->]|?] ?]]]; auto.
  - destruct (IH needs s Hs) as (s' & Hs' & Hl); [intros w Hw; apply Hv; by right|].
    exists s'. split; [done|]. revert Hl. apply last_uses_ext. intros w i. rewrite elem_of_cons.
    split; [intros [?|[? ?]]|intros [?|[[[=]|?] ?]]]; auto.
Qed.

Lemma results_S k o : ops !! k = Some o ->
  results (take (S k) ops) = results (take k ops) ++ match o.(o_result) with Some r => [r] | None => [] end.
Proof. intros Ho. by rewrite (take_S_r _ _ _ Ho), results_snoc. Qed.

Lemma results_none k o : ops !! k = Some o -> o.(o_result) = None -> results (take (S k) ops) = results (take k ops).
Proof. intros Ho Hr. by rewrite (results_S k o Ho), Hr, app_nil_r. Qed.

Definition required_before (k : nat) (v : ValueId) (j : nat) : Prop := exists i, (i < k)%nat /\ requires i v j.

Lemma define_ok k o r s : ops !! k = Some o -> o.(o_result) = Some r -> last_uses k (required_before k) s ->
  last_uses (S k) (required_before k) (define k r s).
Proof using Hclosed.
  intros Ho Hr [H1 H2 H3 H4 H5].
  assert (defined_by r k) as Hd by (by exists o). pose proof (defined_range r k Hd) as Hrange.
  assert (r ∉ results (take k ops)) as Hnew.
  { intros (i & Hi & Hik)%result_defined. pose proof (defined_once r i k Hi Hd). lia. }
  split; cbn [define l_lastUses l_defined]; unfold last_of in *.
  - by rewrite length_insert.
  - by rewrite length_insert.
  - intros v Hv. rewrite nth_insert, (results_S k o Ho), Hr, elem_of_app, list_elem_of_singleton by lia.
    case_decide as E; [split; [right; lia|done]|]. rewrite H3 by done. split; [auto|intros [?| ->]; [done|lia]].
  - intros v j Hv. rewrite nth_insert by lia. case_decide as E; [|by apply H4]. destruct Hv as (i & Hi & Hreq).
    apply requires_defined in Hreq as [Hres _]. apply (results_mono i k) in Hres; [|lia].
    pose proof (results_range k v Hres). assert (v = r) as -> by lia. contradiction.
  - intros v. rewrite (results_S k o Ho), Hr, elem_of_app, list_elem_of_singleton. intros Hv. rewrite nth_insert by lia.
    case_decide as E.
    + destruct Hv as [Hv| ->]; [|by left]. pose proof (results_range k v Hv). assert (v = r) as -> by lia. contradiction.
    + destruct Hv as [Hv| ->]; [by apply H5|lia].
Qed.

Lemma defining_step k o s : ops !! k = Some o -> last_uses k (required_before k) s ->
  exists s', match o.(o_result) with
             | Some result => let! _ := checkValue block result in Ok (define k result s)
             | None => Ok s
             end = Ok s' /\ last_uses (S k) (required_before k) s'.
Proof using Hclosed.
  intros Ho Hs. destruct (o_result o) as [r|] eqn:Hr.
  - exists (define k r s). split; [|by apply (define_ok k o)]. rewrite (checkValue_ok (S k)); [done|].
    apply result_defined. exists k. split; [by exists o|lia].
  - exists s. split; [done|]. destruct Hs as [H1 H2 H3 H4 H5]. by split; rewrite ?(results_none k o Ho Hr).
Qed.

Lemma requires_S k o v j : ops !! k = Some o -> required_before (S k) v j <->
  ((required_before k v j \/ Some v ∈ operand_slots o /\ j = k) \/
   fuse = true /\ consumesOnlyZeroFlag o = true /\
     (exists w, zeroFlagSourceAt block k = Ok (Some (mkZeroFlagSource v w))) /\ j = k) \/
  sink = true /\ o.(o_lhs) = Some v /\ logicFlagSinkTarget block k = Some j.
Proof.
  intros Ho. unfold required_before. split.
  - intros (i & Hi & Hr). destruct (decide (i = k)) as [-> |]; [|left; left; left; exists i; split; [lia|done]].
    destruct Hr as [o' Ho' Hv ->|o' w Hf Ho' Hc Hz ->|o' Hs Ho' Hl Ht]; rewrite Ho in Ho'; injection Ho' as <-; eauto 8.
  - intros [[[(i & Hi & Hr)|[Hv ->]]|(Hf & Hc & (w & Hz) & ->)]|(Hs & Hl & Ht)].
    + exists i. split; [lia|done].
    + exists k. split; [lia|]. by eapply requires_operand.
    + exists k. split; [lia|]. by eapply requires_fused.
    + exists k. split; [lia|]. by eapply requires_sunk.
Qed.

Lemma liveness_step_ok k o s : ops !! k = Some o -> last_uses k (required_before k) s ->
  exists s', liveness_step block fuse sink k o s = Ok s' /\ last_uses (S k) (required_before (S k)) s'.
Proof using Hclosed.
  intros Ho Hs. unfold liveness_step. destruct (defining_step k o s Ho Hs) as (s1 & -> & H1). cbn [outcome_bind].
  destruct (extend_all_ok (S k) k [o_lhs o; o_rhs o; o_third o] _ _ H1) as (s2 & -> & H2).
  { intros v Hv. apply (results_mono k); [lia|]. by apply (operand_defined k o). }
  cbn [outcome_bind].
  assert (exists s3, (if fuse && consumesOnlyZeroFlag o then
      let! source := zeroFlagSourceAt block k in
      match source with Some source => extend_all block k [Some source.(z_value)] s2 | None => Ok s2 end
      else Ok s2) = Ok s3 /\
    last_uses (S k) (fun v j => (required_before k v j \/ Some v ∈ operand_slots o /\ j = k) \/
      fuse = true /\ consumesOnlyZeroFlag o = true /\
        (exists w, zeroFlagSourceAt block k = Ok (Some (mkZeroFlagSource v w))) /\ j = k) s3) as (s3 & -> & H3).
  { destruct (fuse && consumesOnlyZeroFlag o) eqn:E.
    - apply andb_prop in E as [Hf Hc]. pose proof (lookup_lt_Some _ _ _ Ho) as Hk.
      destruct (zeroFlagSourceAt_ok k ltac:(lia)) as (src & Hsrc & Hr). rewrite Hsrc. cbn [outcome_bind].
      destruct src as [[v w]|].
      + destruct (extend_all_ok (S k) k [Some v] _ _ H2) as (s3 & Hs3 & H3).
        { intros x Hx. apply list_elem_of_singleton in Hx. injection Hx as ->. apply (results_mono k); [lia|]. by eapply Hr. }
        exists s3. split; [done|]. revert H3. apply last_uses_ext. intros x j. rewrite list_elem_of_singleton.
        apply or_iff_compat_l. split; [intros [[= ->] ->]; eauto 6|intros (_ & _ & (w' & [= -> _]) & ->); done].
      + exists s2. split; [done|]. revert H2. apply last_uses_ext. intros x j.
        split; [auto|intros [?|(_ & _ & (w' & [=]) & _)]; done].
    - exists s2. split; [done|]. revert H2. apply last_uses_ext. intros x j.
      split; [auto|]. intros [?|(Hf & Hc & _)]; [done|]. by rewrite Hf, Hc in E. }
  cbn [outcome_bind].
  enough (exists s4, (if sink then match logicFlagSinkTarget block k with
      Some target => extend_all block target [o_lhs o] s3 | None => Ok s3 end else Ok s3) = Ok s4 /\
    last_uses (S k) (fun v j => ((required_before k v j \/ Some v ∈ operand_slots o /\ j = k) \/
      fuse = true /\ consumesOnlyZeroFlag o = true /\
        (exists w, zeroFlagSourceAt block k = Ok (Some (mkZeroFlagSource v w))) /\ j = k) \/
      sink = true /\ o.(o_lhs) = Some v /\ logicFlagSinkTarget block k = Some j) s4) as (s4 & Hs4 & H4).
  { exists s4. split; [done|]. revert H4. apply last_uses_ext. intros v j. symmetry. by apply requires_S. }
  destruct sink.
  - destruct (logicFlagSinkTarget block k) as [t|] eqn:Et.
    + destruct (extend_all_ok (S k) t [o_lhs o] _ _ H3) as (s4 & Hs4 & H4).
      { intros x Hx. apply list_elem_of_singleton in Hx. apply (results_mono k); [lia|]. apply (operand_defined k o); [done|].
        unfold operand_slots. rewrite <- Hx. by left. }
      exists s4. split; [done|]. revert H4. apply last_uses_ext. intros x j. rewrite list_elem_of_singleton.
      apply or_iff_compat_l. split; [intros [? ->]; auto|intros (_ & ? & [= ->]); auto].
    + exists s3. split; [done|]. revert H3. apply last_uses_ext. intros x j. split; [auto|intros [?|(_ & _ & [=])]; done].
  - exists s3. split; [done|]. revert H3. apply last_uses_ext. intros x j. split; [auto|intros [?|([=] & _)]; done].
Qed.

Lemma liveness_loop_ok k rest s : drop k ops = rest -> last_uses k (required_before k) s ->
  exists s', liveness_loop block fuse sink k rest s = Ok s' /\
    last_uses (length ops) (required_before (length ops)) s'.
Proof using Hclosed.
  revert k s. induction rest as [|o rest IH]; intros k s Hrest Hs; cbn [liveness_loop].
  - exists s. split; [done|]. apply (f_equal length) in Hrest. rewrite length_drop in Hrest. cbn in Hrest.
    destruct Hs as [H1 H2 H3 H4 H5]. assert (take k ops = take (length ops) ops) as Ht by (rewrite !take_ge by lia; done).
    split; rewrite <- ?Ht; try done.
    + intros v j (i & Hi & Hr). apply H4. exists i. split; [|done]. lia.
    + intros v Hv. destruct (H5 v Hv) as [?|(i & Hi & Hr)]; [by left|]. right. exists i. split; [|done].
      apply requires_defined in Hr. lia.
  - assert (ops !! k = Some o) as Ho.
    { rewrite <- (Nat.add_0_r k), <- lookup_drop, Hrest. done. }
    destruct (liveness_step_ok k o s Ho Hs) as (s1 & -> & H1). cbn [outcome_bind]. apply IH; [|done].
    by rewrite <- (drop_drop _ k 1), Hrest || by rewrite (drop_S _ _ _ Ho) in Hrest; injection Hrest.
Qed.

Lemma keep_value_ok k v needs s : v ∈ results (take k ops) -> (forall w j, needs w j -> (j < length ops)%nat) ->
  last_uses k needs s ->
  last_uses k (fun w i => needs w i \/ w = v /\ i = (length ops - 1)%nat)
    (mkLiveness (<[Z.to_nat v := (length ops - 1)%nat]> s.(l_lastUses)) s.(l_defined)).
Proof using Hclosed.
  intros Hr Hb [H1 H2 H3 H4 H5]. pose proof (results_range k v Hr) as Hv.
  split; cbn [l_lastUses l_defined]; unfold last_of in *; [by rewrite length_insert|done|done| |].
  - intros w i Hw. rewrite nth_insert by lia. destruct Hw as [Hw|[-> ->]]; [pose proof (Hb w i Hw); specialize (H4 w i Hw)|]; case_decide; lia.
  - intros w Hw. rewrite nth_insert by lia. specialize (H5 w Hw).
    case_decide as E; [|tauto]. apply (results_range k w) in Hw. assert (w = v) as -> by lia. auto.
Qed.

Lemma keep_to_end_ok k values needs s : last_uses k needs s -> (forall v, Some v ∈ values -> v ∈ results (take k ops)) ->
  (0 < length ops)%nat -> (forall w j, needs w j -> (j < length ops)%nat) ->
  exists s', keep_to_end block values s = Ok s' /\
    last_uses k (fun v i => needs v i \/ Some v ∈ values /\ i = (length ops - 1)%nat) s'.
Proof using Hclosed.
  revert needs s. induction values as [|[v|] values IH]; intros needs s Hs Hv Hpos Hb; cbn [keep_to_end].
  - exists s. split; [done|]. revert Hs. apply last_uses_ext. intros v i. rewrite elem_of_nil. tauto.
  - rewrite (checkValue_ok k) by (apply Hv; by left). cbn [outcome_bind].
    destruct (IH _ _ (keep_value_ok k v needs s (Hv v ltac:(by left)) Hb Hs)) as (s' & Hs' & Hl).
    { intros w Hw; apply Hv; by right. } { done. } { intros w j [?|[_ ->]]; [by eapply Hb|lia]. }
    exists s'. split; [done|]. revert Hl. apply last_uses_ext. intros w i. rewrite elem_of_cons.
    split; [intros [[?|[-> ?]]|[? ?]]|intros [?|[[[= ->]|?] ?]]]; auto.
  - destruct (IH needs s Hs) as (s' & Hs' & Hl); [intros w Hw; apply Hv; by right|done|done|].
    exists s'. split; [done|]. revert Hl. apply last_uses_ext. intros w i. rewrite elem_of_cons.
    split; [intros [?|[? ?]]|intros [?|[[[=]|?] ?]]]; auto.
Qed.

Lemma liveness_ok : exists s, liveness block fuse sink deferred = Ok s /\ last_uses (length ops) used_at s.
Proof using Hclosed Hn Hdeferred.
  unfold liveness.
  destruct (liveness_loop_ok 0 ops (mkLiveness (replicate (Z.to_nat n) O) (replicate (Z.to_nat n) false))) as (s & -> & Hs).
  { done. }
  { split; cbn [l_lastUses l_defined]; rewrite ?length_replicate; try done.
    - intros v Hv. rewrite nth_lookup, lookup_replicate_2 by lia. split; [done|by intros ?%elem_of_nil].
    - intros v j (i & Hi & _). lia.
    - intros v Hv. by apply elem_of_nil in Hv. }
  cbn [outcome_bind].
  assert (forall v j, used_at v j <-> required_before (length ops) v j \/
    exists u o, deferred = Some u /\ ops !! u = Some o /\ Some v ∈ operand_slots o /\ j = (length ops - 1)%nat) as Hused.
  { intros v j. split.
    - intros [i Hr|u o Hd Ho Hv ->]; [left|right; eauto 8]. exists i. split; [|done]. apply requires_defined in Hr. lia.
    - intros [(i & _ & Hr)|(u & o & Hd & Ho & Hv & ->)]; [by eapply used_required|by eapply used_deferred]. }
  destruct deferred as [u|].
  - pose proof (Hdeferred u eq_refl) as Hu. destruct (lookup_lt_is_Some_2 ops u Hu) as [o Ho].
    unfold operation_at. rewrite Ho. cbn [outcome_bind].
    destruct (keep_to_end_ok (length ops) [o_lhs o; o_rhs o; o_third o] _ _ Hs) as (s' & Hs' & Hl).
    + intros v Hv. apply (results_mono u); [lia|]. by apply (operand_defined u o).
    + lia.
    + intros w j (i & _ & Hr). apply requires_defined in Hr. lia.
    + exists s'. split; [done|]. revert Hl. apply last_uses_ext. intros v j. rewrite Hused. apply or_iff_compat_l.
      split; [intros [Hv ->]; eauto 8|]. intros (u' & o' & [= <-] & Ho' & Hv & ->). rewrite Ho in Ho'. by injection Ho' as <-.
  - exists s. split; [done|]. revert Hs. apply last_uses_ext. intros v j. rewrite Hused. split; [auto|].
    intros [?|(? & ? & [=] & _)]; done.
Qed.

(** ** The scan *)

Section Scan.
Context (lastUses : list nat).
Local Abbreviation last v := (last_of lastUses v).

Definition assignment (s : Scan) (v : ValueId) : Z := nth (Z.to_nat v) s.(s_assignments) 0.

(** The state before the operation at [k]. *)
Record scanned_to (k : nat) (s : Scan) : Prop := {
  sc_active : length s.(s_active) = registerCount;
  sc_assignments : length s.(s_assignments) = Z.to_nat n;
  sc_assigned_length : length s.(s_assigned) = Z.to_nat n;
  sc_assigned : forall v, v ∈ results (take k ops) -> nth (Z.to_nat v) s.(s_assigned) false = true;
  sc_slot : forall slot v, s.(s_active) !! slot = Some (Some v) ->
    v ∈ results (take k ops) /\ assignment s v = firstRegister + Z.of_nat slot;
  sc_live : forall v, v ∈ results (take k ops) -> (k <= last v)%nat -> exists slot, s.(s_active) !! slot = Some (Some v);
  sc_range : forall v, v ∈ results (take k ops) -> 8 <= assignment s v <= 15;
  sc_apart : forall v w i j, defined_by v i -> defined_by w j -> (i < j < k)%nat -> (j <= last v)%nat ->
    assignment s v <> assignment s w
}.

Lemma first_free_some active slot : first_free active = Some slot -> active !! slot = Some None.
Proof.
  revert slot. induction active as [|[v|] active IH]; intros slot; cbn [first_free]; [done| |by intros [= <-]].
  destruct (first_free active) as [i|]; [|done]. cbn. intros [= <-]. cbn. by apply IH.
Qed.

Lemma first_free_none active : first_free active = None -> forall slot, (slot < length active)%nat ->
  exists v, active !! slot = Some (Some v).
Proof.
  induction active as [|[v|] active IH]; cbn [first_free length]; [lia| |done].
  intros H [|slot] Hs; [by exists v|]. apply IH; [by destruct (first_free active)|lia].
Qed.

Lemma lookup_expire index active slot v :
  expire lastUses index active !! slot = Some (Some v) <-> active !! slot = Some (Some v) /\ (index <= last v)%nat.
Proof.
  revert slot. induction active as [|a active IH]; intros slot; [by split; [|intros [? _]]|].
  destruct slot as [|slot]; [|apply IH]. unfold last_of. destruct a as [w|]; cbn [expire map lookup list_lookup]; [|by split; [|intros [[=] _]]].
  destruct (Nat.ltb_spec (nth (Z.to_nat w) lastUses O) index).
  - split; [done|]. intros [[= ->] ?]. lia.
  - split; [intros [= ->]|intros [[= ->] ?]]; done.
Qed.

Lemma expire_ok k s : scanned_to k s -> scanned_to k (mkScan (expire lastUses k s.(s_active)) s.(s_assignments) s.(s_assigned)).
Proof.
  intros [H1 H2 H3 H4 H5 H6 H7 H8]. split; cbn [s_active s_assignments s_assigned]; try done.
  - unfold expire. by rewrite length_map.
  - intros slot v [Hv _]%lookup_expire. by apply H5.
  - intros v Hv Hk. destruct (H6 v Hv Hk) as [slot Hs]. exists slot. by apply lookup_expire.
Qed.

Lemma defined_before_S k v i : ops !! k = None \/ (exists o, ops !! k = Some o /\ o.(o_result) = None) ->
  defined_by v i -> (i < S k)%nat -> (i < k)%nat.
Proof.
  intros Hk (o & Ho & Hr) Hi. destruct (decide (i = k)) as [->|]; [|lia].
  destruct Hk as [Hk|(o' & Hk & Hr')]; [by rewrite Hk in Ho|]. rewrite Ho in Hk. injection Hk as <-. by rewrite Hr in Hr'.
Qed.

Lemma scan_skip k o s : ops !! k = Some o -> o.(o_result) = None -> scanned_to k s -> scanned_to (S k) s.
Proof.
  intros Ho Hr [H1 H2 H3 H4 H5 H6 H7 H8]. pose proof (results_none k o Ho Hr) as E. split; rewrite ?E; try done.
  - intros v Hv Hk. apply H6; [done|lia].
  - intros v w i j Hv Hw [Hij Hj] Hlast. apply (H8 v w i j); try done. split; [done|]. apply (defined_before_S k w); [right; by exists o|done|done].
Qed.

Lemma scan_define k o r s slot : ops !! k = Some o -> o.(o_result) = Some r -> first_free s.(s_active) = Some slot ->
  scanned_to k s ->
  scanned_to (S k) (mkScan (<[slot := Some r]> s.(s_active))
    (<[Z.to_nat r := firstRegister + Z.of_nat slot]> s.(s_assignments)) (<[Z.to_nat r := true]> s.(s_assigned))).
Proof using Hclosed.
  intros Ho Hr Hfree [H1 H2 H3 H4 H5 H6 H7 H8]. apply first_free_some in Hfree.
  assert (defined_by r k) as Hd by (by exists o). pose proof (defined_range r k Hd) as Hrange.
  assert (r ∉ results (take k ops)) as Hnew.
  { intros (i & Hi & Hik)%result_defined. pose proof (defined_once r i k Hi Hd). lia. }
  assert (slot < registerCount)%nat as Hslot by (rewrite <- H1; by eapply lookup_lt_Some).
  assert (forall v, v ∈ results (take (S k) ops) <-> v ∈ results (take k ops) \/ v = r) as Hres.
  { intros v. by rewrite (results_S k o Ho), Hr, elem_of_app, list_elem_of_singleton. }
  set (s' := mkScan _ _ _).
  assert (assignment s' r = firstRegister + Z.of_nat slot) as Er.
  { unfold assignment, s'. cbn [s_assignments]. rewrite nth_insert by lia. by case_decide. }
  assert (forall v, v ∈ results (take k ops) -> assignment s' v = assignment s v) as Eold.
  { intros v Hv. unfold assignment, s'. cbn [s_assignments]. rewrite nth_insert by lia. case_decide as E; [|done].
    pose proof (results_range k v Hv). assert (v = r) as -> by lia. contradiction. }
  unfold registerCount, firstRegister in *.
  split; cbn [s' s_active s_assignments s_assigned]; rewrite ?length_insert; try done.
  - intros v Hv. rewrite nth_insert by lia. case_decide as E; [done|]. apply H4. apply Hres in Hv as [?| ->]; [done|lia].
  - intros slot' v Hv. apply list_lookup_insert_Some in Hv as [(<- & [= ->] & _)|(Hne & Hv)].
    + split; [apply Hres; by right|done].
    + destruct (H5 slot' v Hv) as [Hv' Ha]. split; [apply Hres; by left|]. by rewrite Eold.
  - intros v Hv Hk. apply Hres in Hv as [Hv| ->].
    + destruct (H6 v Hv ltac:(lia)) as [slot' Hs]. exists slot'. rewrite list_lookup_insert_ne; [done|].
      intros <-. by rewrite Hs in Hfree.
    + exists slot. apply list_lookup_insert_eq. lia.
  - intros v Hv. apply Hres in Hv as [Hv| ->]; [rewrite Eold by done; by apply H7|]. rewrite Er. lia.
  - intros v w i j Hv Hw [Hij Hj] Hlast. assert (v ∈ results (take k ops)) as Hvr.
    { apply result_defined. exists i. split; [done|lia]. }
    rewrite (Eold v Hvr). destruct (decide (j = k)) as [->|].
    + destruct Hw as (o' & Ho' & Hr'). rewrite Ho in Ho'. injection Ho' as <-. rewrite Hr in Hr'. injection Hr' as <-.
      rewrite Er. destruct (H6 v Hvr Hlast) as [slot' Hs]. destruct (H5 slot' v Hs) as [_ ->].
      intros E. assert (slot' = slot) as -> by lia. by rewrite Hs in Hfree.
    + assert (w ∈ results (take k ops)) as Hwr by (apply result_defined; exists j; split; [done|lia]).
      rewrite (Eold w Hwr). apply (H8 v w i j); try done. lia.
Qed.

(** The slots are full: the values in them, all still needed at [k]. *)
Definition full_at (k : nat) : Prop := exists l : list ValueId, length l = 8%nat /\ NoDup l /\
  Forall (fun v => v ∈ results (take k ops) /\ (k <= last v)%nat) l.

Lemma full_slots k s : scanned_to k s -> first_free (expire lastUses k s.(s_active)) = None -> full_at k.
Proof.
  intros Hs Hfull. pose proof (expire_ok k s Hs) as He. set (active := expire _ _ _) in *.
  exists (omap id active). pose proof (sc_active _ _ He) as Hlen. cbn [s_active] in Hlen.
  pose proof (first_free_none active Hfull) as Hall. split_and!.
  - transitivity (length active); [|done]. clear -Hall. induction active as [|[v|] active IH]; cbn; [done| |].
    + f_equal. apply IH. intros slot Hs. apply (Hall (S slot)). cbn. lia.
    + destruct (Hall O ltac:(cbn; lia)) as [v [=]].
  - assert (forall i j v, active !! i = Some (Some v) -> active !! j = Some (Some v) -> i = j) as Hinj.
    { intros i j v Hi Hj. pose proof (sc_slot _ _ He i v Hi) as [_ E1]. pose proof (sc_slot _ _ He j v Hj) as [_ E2]. lia. }
    clear -Hinj. induction active as [|[v|] active IH]; cbn; [constructor| |].
    + constructor.
      * intros H. apply list_elem_of_omap in H as (x & Hx & Ex). cbn in Ex. subst x. apply list_elem_of_lookup in Hx as [i Hi].
        specialize (Hinj O (S i) v eq_refl Hi). lia.
      * apply IH. intros i j w Hi Hj. specialize (Hinj (S i) (S j) w Hi Hj). lia.
    + apply IH. intros i j w Hi Hj. specialize (Hinj (S i) (S j) w Hi Hj). lia.
  - apply Forall_forall. intros v Hv. apply list_elem_of_omap in Hv as (x & Hx & Ex). cbn in Ex. subst x.
    apply list_elem_of_lookup in Hx as [slot Hx]. split; [by apply (sc_slot _ _ He slot)|]. by apply lookup_expire in Hx as [_ ?].
Qed.

Lemma scan_loop_ok k rest s : drop k ops = rest -> (k <= length ops)%nat -> scanned_to k s ->
  match scan_loop lastUses k rest s with
  | Ok s' => scanned_to (length ops) s'
  | Throw e => exists i o r, ops !! i = Some o /\ o.(o_result) = Some r /\ full_at i /\ e = exhausted o.(o_guestRip)
  | Undefined => False
  end.
Proof using Hclosed.
  revert k s. induction rest as [|o rest IH]; intros k s Hrest Hk Hs; cbn [scan_loop].
  - apply (f_equal length) in Hrest. rewrite length_drop in Hrest. cbn in Hrest.
    by replace (length ops) with k by lia.
  - assert (ops !! k = Some o) as Ho by (rewrite <- (Nat.add_0_r k), <- lookup_drop, Hrest; done).
    assert (drop (S k) ops = rest) as Hrest' by (rewrite (drop_S _ _ _ Ho) in Hrest; by injection Hrest).
    pose proof (lookup_lt_Some _ _ _ Ho). pose proof (expire_ok k s Hs) as He.
    destruct (o_result o) as [r|] eqn:Hr.
    + destruct (first_free (expire lastUses k (s_active s))) as [slot|] eqn:Hfree.
      * apply IH; [done|lia|]. exact (scan_define k o r (mkScan (expire lastUses k s.(s_active)) s.(s_assignments) s.(s_assigned)) slot Ho Hr Hfree He).
      * exists k, o, r. split_and!; try done. by apply (full_slots k s).
    + apply IH; [done|lia|]. by apply (scan_skip k o).
Qed.
End Scan.

(** Two values whose host registers must differ: the second is defined while the first is
    still needed. *)
Definition interfere (v w : ValueId) : Prop := exists i j k,
  defined_by v i /\ defined_by w j /\ (i < j)%nat /\ used_at v k /\ (j <= k)%nat.

(** An assignment of host registers that is right. *)
Definition allocated (assignments : list Z) : Prop :=
  length assignments = Z.to_nat n /\
  (forall v i, defined_by v i -> 8 <= nth (Z.to_nat v) assignments 0 <= 15) /\
  (forall v w, interfere v w -> nth (Z.to_nat v) assignments 0 <> nth (Z.to_nat w) assignments 0).

(** Eight values are needed at the operation [i], or later, when it makes one more. *)
Definition overloaded (i : nat) : Prop := exists l, length l = 8%nat /\ NoDup l /\ Forall (fun v => live_at v i) l.

Lemma allocation_result :
  match allocateHostRegisters block fuse sink deferred with
  | Ok assignments => allocated assignments
  | Throw e => exists i o r, ops !! i = Some o /\ o.(o_result) = Some r /\ overloaded i /\ e = exhausted o.(o_guestRip)
  | Undefined => False
  end.
Proof using Hclosed Hn Hdeferred.
  unfold allocateHostRegisters. destruct liveness_ok as (live & -> & [L1 L2 L3 L4 L5]). cbn [outcome_bind].
  set (start := mkScan _ _ _).
  assert (scanned_to live.(l_lastUses) 0 start) as Hstart.
  { split; cbn [start s_active s_assignments s_assigned]; rewrite ?length_replicate; try done;
      try (intros ? Hv; by apply elem_of_nil in Hv).
    - intros slot v Hv. apply lookup_replicate in Hv as [[=] _].
    - intros v w i j _ _ [_ Hj]. lia. }
  pose proof (scan_loop_ok live.(l_lastUses) 0 ops start eq_refl ltac:(lia) Hstart) as H.
  destruct (scan_loop _ _ _ _) as [s|e|]; cbn [outcome_bind]; [|destruct H as (i & o & r & Ho & Hr & (l & Hl & Hd & Hf) & ->)|done].
  - destruct (existsb _ _) eqn:E.
    { exfalso. apply existsb_exists in E as ([d a] & Hin & Hda). apply andb_prop in Hda as [-> Ha].
      apply negb_true_iff in Ha. subst a. apply list_elem_of_In, list_elem_of_lookup in Hin as [i Hi].
      rewrite lookup_zip_Some in Hi. destruct Hi as [Hd Ha]. pose proof (lookup_lt_Some _ _ _ Hd) as Hlt.
      assert (Z.to_nat (Z.of_nat i) = i) as Ei by lia.
      assert (Z.of_nat i ∈ results (take (length ops) ops)) as Hr.
      { apply L3; [lia|]. rewrite Ei. by apply nth_lookup_Some. }
      apply (sc_assigned _ _ _ H) in Hr. rewrite Ei in Hr. rewrite (nth_lookup_Some _ _ _ _ Ha) in Hr. done. }
    split_and!.
    + apply (sc_assignments _ _ _ H).
    + intros v i Hd. apply (sc_range _ _ _ H). apply result_defined. exists i. split; [done|].
      destruct Hd as (o & Ho & _). by eapply lookup_lt_Some.
    + intros v w (i & j & k & Hv & Hw & Hij & Hk & Hjk). apply (sc_apart _ _ _ H v w i j Hv Hw).
      * split; [done|]. destruct Hw as (o & Ho & _). by eapply lookup_lt_Some.
      * apply (Nat.le_trans _ k); [done|]. by apply L4.
  - exists i, o, r. split_and!; try done. exists l. split_and!; [done|done|].
    apply (Forall_impl _ _ _ Hf). intros v [Hv Hlast]. pose proof Hv as Hv'. apply result_defined in Hv' as (a & Ha & Hai).
    split; [by exists a|]. apply (results_mono i (length ops)) in Hv; [|apply lookup_lt_Some in Ho; lia].
    destruct (L5 v Hv) as [Hdef|Hu]; [|by exists (last_of live.(l_lastUses) v)].
    pose proof (defined_once _ _ _ Ha Hdef). lia.
Qed.

End Allocation.

(** C7: the allocator of host registers is right: two values never share a register while
    both are needed, every value of the block gets one of the eight registers, and it gives
    up only at an operation that makes a value while eight others are needed, there or
    later.  The block may be one that ends in a self edge, with fused compares, sunk logic flags and an exit update
    deferred to its end. *)
Theorem allocateHostRegisters_correct (block : Block) (fuse sink : bool) (deferred : option nat) :
  closed block.(b_valueCount) block.(b_operations) -> 0 <= block.(b_valueCount) ->
  (forall u, deferred = Some u -> (u < length block.(b_operations))%nat) ->
  match allocateHostRegisters block fuse sink deferred with
  | Ok assignments => allocated block fuse sink deferred assignments
  | Throw e => exists i o r, block.(b_operations) !! i = Some o /\ o.(o_result) = Some r /\
      overloaded block fuse sink deferred i /\ e = exhausted o.(o_guestRip)
  | Undefined => False
  end.
Proof. apply allocation_result. Qed.

(** [l: sub rdi, 1; jne l], whose flag update is deferred to the exit. *)
Definition countdownBuilder : Block :=
  let b := (constant 1 I64 4096 (newBuilder 4096)).1 in
  let b := (readGuestRegister Rdi I64 4096 b).1 in
  let b := (sub 1 0 I64 4096 b).1 in
  let b := (writeGuestRegister Rdi 2 I64 4096 b).1 in
  (updateSubFlags 1 0 2 I64 4096 b).1.
Definition countdown : Block := (exitConditional Cond_NotEqual 4096 4102 4100 countdownBuilder).1.

Lemma countdown_closed : 0 <= countdown.(b_valueCount) /\ closed countdown.(b_valueCount) countdown.(b_operations).
Proof.
  destruct (built_closed 4096 countdownBuilder countdown) as (Hn & Hc & _); [|apply finish_exitConditional|done].
  unfold countdownBuilder.
  eapply rtc_l; [apply (step_constant _ 1 I64 4096); by unfold has_room|].
  eapply rtc_l; [apply (step_readGuestRegister _ Rdi I64 4096); by unfold has_room|].
  eapply rtc_l; [apply (step_sub _ 1 0 I64 4096); [by unfold has_room|by split|by split]|].
  eapply rtc_l; [apply (step_writeGuestRegister _ Rdi 2 I64 4096); by split|].
  eapply rtc_l; [apply (step_updateSubFlags _ 1 0 2 I64 4096); by split|]. apply rtc_refl.
Qed.

(** The update keeps its operands alive to the end, so that the difference gets a register of
    its own. *)
Example countdown_deferred : deferredExitFlagUpdate countdown (hasInternalSelfEdge countdown) = Ok (Some 4%nat) /\
  allocateHostRegisters countdown true true (Some 4%nat) = Ok [8; 9; 10].
Proof. split; reflexivity. Qed.

Lemma allocateHostRegisters_correct_witness :
  allocateHostRegisters countdown true true (Some 4%nat) = Ok [8; 9; 10] /\ allocated countdown true true (Some 4%nat) [8; 9; 10].
Proof.
  destruct countdown_closed as [Hn Hc].
  pose proof (allocateHostRegisters_correct countdown true true (Some 4%nat) Hc Hn
    ltac:(intros u [= <-]; cbn; lia)) as H.
  replace (allocateHostRegisters countdown true true (Some 4%nat)) with (@Ok (list Z) [8; 9; 10]) in H by reflexivity.
  split; [reflexivity|exact H].
Defined.

(** ** The plan of a block that does not loop to itself *)

Section Plan.
Context (block : Block).
Local Abbreviation ops := block.(b_operations).
Local Abbreviation n := block.(b_valueCount).
Context (Hclosed : closed n ops) (Hn : 0 <= n).

Lemma for_operations_ok {A} (body : nat -> Operation -> A -> outcome A) (I : nat -> A -> Prop) s0 : I O s0 ->
  (forall k o s, ops !! k = Some o -> I k s -> exists s', body k o s = Ok s' /\ I (S k) s') ->
  exists s, for_operations body 0 ops s0 = Ok s /\ I (length ops) s.
Proof.
  intros H0 Hstep. assert (forall rest k s, drop k ops = rest -> (k <= length ops)%nat -> I k s ->
    exists s', for_operations body k rest s = Ok s' /\ I (length ops) s') as H.
  { induction rest as [|o rest IH]; intros k s Hd Hk Hs; cbn [for_operations].
    - exists s. split; [done|]. apply (f_equal length) in Hd. rewrite length_drop in Hd. cbn in Hd.
      by replace (length ops) with k by lia.
    - assert (ops !! k = Some o) as Ho by (rewrite <- (Nat.add_0_r k), <- lookup_drop, Hd; done).
      destruct (Hstep k o s Ho Hs) as (s' & -> & Hs'). cbn [outcome_bind]. apply IH; [|apply lookup_lt_Some in Ho; lia|done].
      rewrite (drop_S _ _ _ Ho) in Hd. by injection Hd. }
  apply (H ops O); [by rewrite drop_0|lia|done].
Qed.

Lemma at_put {A} (l : list A) v a : 0 <= v < n -> length l = Z.to_nat n -> put_value l v a = Ok (<[Z.to_nat v := a]> l).
Proof.
  intros Hv Hl. unfold put_value, put_index, at_index. destruct (lookup_lt_is_Some_2 l (Z.to_nat v)) as [x ->]; [lia|done].
Qed.

Lemma at_got {A} (l : list A) v : 0 <= v < n -> length l = Z.to_nat n -> exists a, l !! Z.to_nat v = Some a /\ at_value l v = Ok a.
Proof.
  intros Hv Hl. unfold at_value, at_index. destruct (lookup_lt_is_Some_2 l (Z.to_nat v)) as [x ->]; [lia|]. by exists x.
Qed.

Lemma result_in_range k o r : ops !! k = Some o -> o.(o_result) = Some r -> 0 <= r < n.
Proof using Hclosed. intros Ho Hr. apply (defined_range block Hclosed r k). by exists o. Qed.

Lemma operand_range k o v : ops !! k = Some o -> Some v ∈ operand_slots o -> 0 <= v < n.
Proof using Hclosed. intros Ho Hv. by apply (results_range block Hclosed k), (operand_defined block Hclosed k o). Qed.

(** ** Definitions *)

(** The table holds the operations that define the values. *)
Definition defines (s : Definitions) : Prop := forall v d, 0 <= v ->
  definingOperation s.(defs_operation) v = Some d <-> exists i, ops !! i = Some d /\ d.(o_result) = Some v.

Lemma collectDefinitions_ok : exists s, collectDefinitions block = Ok s /\ length s.(defs_operation) = Z.to_nat n /\
  length s.(defs_index) = Z.to_nat n /\ defines s.
Proof using Hclosed Hn.
  unfold collectDefinitions. destruct (for_operations_ok (fun index operation s =>
    match operation.(o_result) with
    | Some result =>
        let! definitions := put_value s.(defs_operation) result (Some operation) in
        let! indices := put_value s.(defs_index) result index in
        Ok (mkDefinitions definitions indices)
    | None => Ok s
    end) (fun k s => length s.(defs_operation) = Z.to_nat n /\ length s.(defs_index) = Z.to_nat n /\
      forall v d, 0 <= v -> s.(defs_operation) !! Z.to_nat v = Some (Some d) <->
        exists i, (i < k)%nat /\ ops !! i = Some d /\ d.(o_result) = Some v)
    (mkDefinitions (replicate (Z.to_nat n) None) (replicate (Z.to_nat n) O))) as (s & -> & H1 & H2 & H3).
  - cbn [defs_operation defs_index]. rewrite !length_replicate. split_and!; [done..|]. intros v d Hv. split.
    + by intros [[=] _]%lookup_replicate.
    + intros (i & Hi & _). lia.
  - intros k o s Ho (I1 & I2 & I3).
    assert (forall v d, (exists i, (i < S k)%nat /\ ops !! i = Some d /\ d.(o_result) = Some v) <->
      (exists i, (i < k)%nat /\ ops !! i = Some d /\ d.(o_result) = Some v) \/ d = o /\ o.(o_result) = Some v) as HS.
    { intros v d. split.
      - intros (i & Hi & Hd & Hr). destruct (decide (i = k)) as [->|]; [right; split; congruence|left; exists i; split; [lia|done]].
      - intros [(i & Hi & Hd)|[-> Hr]]; [exists i; split; [lia|done]|exists k; split; [lia|done]]. }
    destruct (o_result o) as [r|] eqn:Hr.
    + pose proof (result_in_range k o r Ho Hr) as Rr. rewrite !at_put by done. cbn [outcome_bind]. eexists. split; [done|].
      cbn [defs_operation defs_index]. rewrite !length_insert. split_and!; [done..|]. intros v d Hv. rewrite HS, <- I3 by done.
      destruct (decide (v = r)) as [->|Hne].
      * rewrite list_lookup_insert_eq by lia. split; [intros [= ->]; auto|].
        intros [Hd|[-> _]]; [|done]. apply I3 in Hd as (i & Hi & Hd & Hd'); [|done].
        assert (i = k) by (apply (defined_once block Hclosed r); [by exists d|by exists o]). lia.
      * rewrite list_lookup_insert_ne by lia. split; [auto|]. intros [?|[_ [= ->]]]; done.
    + eexists. split; [done|]. split_and!; [done..|]. intros v d Hv. rewrite HS, <- I3 by done. split; [auto|]. by intros [?|[_ [=]]].
  - exists s. split_and!; [done..|]. intros v d Hv. unfold definingOperation.
    unfold zlength. rewrite H1. destruct (Z.leb_spec (Z.of_nat (Z.to_nat n)) v) as [Hle|Hlt].
    + split; [done|]. intros (i & Hd & Hr). pose proof (result_in_range i d v Hd Hr). lia.
    + destruct (lookup_lt_is_Some_2 s.(defs_operation) (Z.to_nat v)) as [x Hx]; [lia|]. rewrite Hx. cbn [default].
      assert (x = Some d <-> s.(defs_operation) !! Z.to_nat v = Some (Some d)) as -> by (rewrite Hx; split; congruence).
      rewrite H3 by done. split.
      * intros (i & _ & H). by exists i.
      * intros (i & Hd & Hr). exists i. split; [by eapply lookup_lt_Some|done].
Qed.

(** ** Uses *)

(** How often the operation reads the value. *)
Definition occurs (v : ValueId) (o : Operation) : Z :=
  Z.b2z (bool_decide (o.(o_lhs) = Some v)) + Z.b2z (bool_decide (o.(o_rhs) = Some v)) + Z.b2z (bool_decide (o.(o_third) = Some v)).

(** How often the code of the operation at [k] reads it. *)
Definition reads_at (v : ValueId) (k : nat) : Z :=
  match ops !! k with Some o => if isDeadFlagUpdate block k false then 0 else occurs v o | None => 0 end.
Fixpoint reads_until (v : ValueId) (k : nat) : Z :=
  match k with O => 0 | S k => reads_until v k + reads_at v k end.

Lemma reads_at_nonneg v k : 0 <= reads_at v k.
Proof.
  unfold reads_at, occurs. destruct (ops !! k); [|lia]. destruct (isDeadFlagUpdate _ _ _); [lia|].
  repeat match goal with |- context [Z.b2z ?b] => destruct b; cbn [Z.b2z] end; lia.
Qed.

Lemma reads_mono v k k' : (k <= k')%nat -> reads_until v k <= reads_until v k'.
Proof. intros Hk. induction Hk as [|k' Hk IH]; [lia|]. cbn [reads_until]. pose proof (reads_at_nonneg v k'). lia. Qed.

Lemma reads_one v k : (k < length ops)%nat -> reads_at v k <= reads_until v (length ops).
Proof.
  intros Hk. transitivity (reads_until v (S k)); [|by apply reads_mono]. cbn [reads_until].
  pose proof (reads_mono v 0 k ltac:(lia)). cbn [reads_until] in *. lia.
Qed.

Lemma reads_two v i j : (i < j < length ops)%nat -> reads_at v i + reads_at v j <= reads_until v (length ops).
Proof.
  intros Hij. transitivity (reads_until v (S j)); [|apply reads_mono; lia]. cbn [reads_until].
  pose proof (reads_mono v (S i) j ltac:(lia)). pose proof (reads_mono v 0 i ltac:(lia)). cbn [reads_until] in *. lia.
Qed.

(** The table holds the counts [f]. *)
Definition counted (f : ValueId -> Z) (s : Uses) : Prop := length s.(u_counts) = Z.to_nat n /\ length s.(u_last) = Z.to_nat n /\
  forall v, 0 <= v < n -> s.(u_counts) !! Z.to_nat v = Some (f v).

Lemma count_uses_ok k values : forall f s, counted f s -> (forall v, Some v ∈ values -> 0 <= v < n) ->
  exists s', count_uses k values s = Ok s' /\
    counted (fun v => f v + foldr (fun slot sum => Z.b2z (bool_decide (slot = Some v)) + sum) 0 values) s'.
Proof.
  induction values as [|[v|] values IH]; intros f s Hs Hv; cbn [count_uses foldr].
  - exists s. split; [done|]. destruct Hs as (H1 & H2 & H3). split_and!; [done..|]. intros w Hw. rewrite H3 by done. f_equal. lia.
  - destruct Hs as (H1 & H2 & H3). pose proof (Hv v ltac:(by left)) as Rv.
    unfold at_value, at_index. rewrite H3 by done. cbn [outcome_bind]. rewrite !at_put by done. cbn [outcome_bind].
    destruct (IH (fun w => f w + Z.b2z (bool_decide (Some v = Some w)))
      (mkUses (<[Z.to_nat v := f v + 1]> s.(u_counts)) (<[Z.to_nat v := k]> s.(u_last)))) as (s' & -> & C1 & C2 & C3).
    + split_and!; cbn [u_counts u_last]; rewrite ?length_insert; try done. intros w Hw. destruct (decide (v = w)) as [<-|Hne].
      * rewrite list_lookup_insert_eq by lia. by rewrite bool_decide_true.
      * rewrite list_lookup_insert_ne, H3 by lia. rewrite bool_decide_false by congruence. f_equal. cbn. lia.
    + intros w Hw. apply Hv. by right.
    + exists s'. split; [done|]. split_and!; [done..|]. intros w Hw. rewrite C3 by done. f_equal. lia.
  - destruct (IH f s Hs) as (s' & -> & C1 & C2 & C3); [intros w Hw; apply Hv; by right|].
    exists s'. split; [done|]. split_and!; [done..|]. intros w Hw. rewrite C3 by done. by rewrite bool_decide_false.
Qed.

Lemma collectUses_ok : exists s, collectUses block false = Ok s /\ counted (fun v => reads_until v (length ops)) s.
Proof using Hclosed.
  unfold collectUses. apply (for_operations_ok _ (fun k => counted (fun v => reads_until v k))).
  - split_and!; cbn [u_counts u_last]; rewrite ?length_replicate; try done. intros v Hv. cbn [reads_until].
    apply lookup_replicate. split; [done|lia].
  - intros k o s Ho Hs. cbn [reads_until]. unfold reads_at. rewrite Ho. destruct (isDeadFlagUpdate block k false).
    + exists s. split; [done|]. destruct Hs as (H1 & H2 & H3). split_and!; [done..|]. intros v Hv. rewrite H3 by done. f_equal. lia.
    + destruct (count_uses_ok k [o.(o_lhs); o.(o_rhs); o.(o_third)] _ _ Hs (fun v => operand_range k o v Ho)) as (s' & -> & H1 & H2 & H3).
      exists s'. split; [done|]. split_and!; [done..|]. intros v Hv. rewrite H3 by done. cbn [foldr]. unfold occurs. f_equal. lia.
Qed.

(** ** Folded immediates *)

Section Defined.
Context (defs : Definitions) (uses : Uses).
Context (Huses : counted (fun v => reads_until v (length ops)) uses).
Local Abbreviation defining := (definingOperation defs.(defs_operation)).

(** The one read of [v] is the right operand of the addition or subtraction [o]. *)
Definition folds (v : ValueId) (i : nat) (o d : Operation) : Prop :=
  ops !! i = Some o /\ opcode_is Op_Add o || opcode_is Op_Sub o = true /\ o.(o_rhs) = Some v /\
  defining v = Some d /\ opcode_is Op_Constant d = true /\ d.(o_immediate) <= 0xFFF /\ reads_until v (length ops) = 1.

Definition folded_right (folded : list bool) : Prop := length folded = Z.to_nat n /\
  forall v, 0 <= v < n -> folded !! Z.to_nat v = Some true -> exists i o d, folds v i o d.

Lemma foldImmediates_ok : exists folded, foldImmediates block defs uses = Ok folded /\ folded_right folded.
Proof using Hclosed Huses block defs uses.
  unfold foldImmediates. apply (for_operations_ok _ (fun _ => folded_right)).
  - split; [by rewrite length_replicate|]. by intros v _ [[=] _]%lookup_replicate.
  - intros k o folded Ho Hf. destruct (o_rhs o) as [r|] eqn:Hr; [|by exists folded].
    destruct (negb (opcode_is Op_Add o || opcode_is Op_Sub o) || negb (tracked_width o)) eqn:E1; [by exists folded|].
    apply orb_false_elim in E1 as [E1%negb_false_iff _]. destruct (defining r) as [d|] eqn:Ed; [|by exists folded].
    destruct (opcode_is Op_Constant d && (o_immediate d <=? 4095)) eqn:E2; [|by exists folded].
    apply andb_prop in E2 as [E2 E3%Z.leb_le].
    assert (0 <= r < n) as Rr by (apply (operand_range k o r Ho); unfold operand_slots; rewrite Hr; right; by left).
    unfold at_value, at_index. destruct Huses as (U1 & U2 & U3). rewrite U3 by done. cbn [outcome_bind].
    destruct (Z.eqb_spec (reads_until r (length ops)) 1) as [E4|]; [|by exists folded].
    destruct Hf as [F1 F2]. rewrite at_put by done. eexists. split; [done|]. split; [by rewrite length_insert|].
    intros v Hv. destruct (decide (v = r)) as [->|Hne]; [|rewrite list_lookup_insert_ne by lia; by apply F2].
    intros _. by exists k, o, d.
Qed.

(** No other operation of the code reads a folded value, and that one reads it there only. *)
Lemma folds_only v i o d k o' : folds v i o d -> ops !! k = Some o' -> isDeadFlagUpdate block k false = false ->
  Some v ∈ operand_slots o' -> k = i /\ o'.(o_lhs) <> Some v /\ o'.(o_third) <> Some v.
Proof using block defs.
  intros (Hi & Hop & Hr & _ & _ & _ & H1) Hk Hlive Hv.
  assert (reads_at v k = occurs v o') as Ek by (unfold reads_at; by rewrite Hk, Hlive).
  assert (1 <= occurs v o') as Hocc.
  { unfold occurs. unfold operand_slots in Hv. rewrite !elem_of_cons in Hv.
    destruct Hv as [<-|[<-|[<-|Hv%elem_of_nil]]]; [..|done]; rewrite (bool_decide_true (Some v = Some v)) by done;
      repeat match goal with |- context [Z.b2z (bool_decide ?P)] => destruct (bool_decide P) end; cbn; lia. }
  assert (reads_at v i = occurs v o) as Ei.
  { unfold reads_at. rewrite Hi. unfold isDeadFlagUpdate. rewrite Hi. unfold opcode_is in Hop.
    by destruct (o_opcode o). }
  assert (1 <= occurs v o) as Hocc'.
  { unfold occurs. rewrite Hr, (bool_decide_true (Some v = Some v)) by done.
    repeat match goal with |- context [Z.b2z (bool_decide ?P)] => destruct (bool_decide P) end; cbn; lia. }
  pose proof (lookup_lt_Some _ _ _ Hi). pose proof (lookup_lt_Some _ _ _ Hk).
  assert (k = i) as ->.
  { destruct (lt_eq_lt_dec k i) as [[Hlt| ->]|Hlt]; [pose proof (reads_two v k i ltac:(lia)); lia|done|
      pose proof (reads_two v i k ltac:(lia)); lia]. }
  rewrite Hi in Hk. injection Hk as <-. pose proof (reads_one v i ltac:(lia)). split; [done|].
  unfold occurs in *. rewrite Hr, (bool_decide_true (Some v = Some v)) in * by done.
  split; intros E; rewrite E, (bool_decide_true (Some v = Some v)) in * by done;
    repeat match goal with _ : context [Z.b2z (bool_decide ?P)] |- _ => destruct (bool_decide P) end; cbn in *; lia.
Qed.

(** ** Widened writes *)

Definition writes (r : Register) (o : Operation) : Prop :=
  (o.(o_opcode) = Op_WriteGuestReg \/ o.(o_opcode) = Op_ConditionalMoveGuestReg) /\ o.(o_guestRegister) = Some r.

(** The last write of [r] before [k] is of a zero. *)
Definition zero_at (k : nat) (r : Register) : Prop := exists i o l d, (i < k)%nat /\ ops !! i = Some o /\
  o.(o_opcode) = Op_WriteGuestReg /\ o.(o_guestRegister) = Some r /\ o.(o_lhs) = Some l /\ tracked_width o = true /\
  defining l = Some d /\ opcode_is Op_Constant d = true /\ d.(o_immediate) = 0 /\
  forall j o', (i < j < k)%nat -> ops !! j = Some o' -> ~ writes r o'.

(** The byte write at [k] is of a condition, to a register that is zero. *)
Definition promotable (k : nat) : Prop := exists o r l d, ops !! k = Some o /\ o.(o_opcode) = Op_WriteGuestReg /\
  width_is I8 o = true /\ o.(o_guestRegister) = Some r /\ o.(o_lhs) = Some l /\ defining l = Some d /\
  opcode_is Op_EvaluateCondition d = true /\ zero_at k r.

Lemma zero_at_S k r o : ops !! k = Some o -> ~ writes r o -> zero_at k r -> zero_at (S k) r.
Proof using block defs.
  intros Ho Hw (i & oi & l & d & Hi & H1 & H2 & H3 & H4 & H5 & H6 & H7 & H8 & H9).
  exists i, oi, l, d. split_and!; try done; [lia|]. intros j o' Hj Ho'. destruct (decide (j = k)) as [->|].
  - rewrite Ho in Ho'. by injection Ho' as <-.
  - apply (H9 j); [lia|done].
Qed.

(** A write has a source, by the verifier. *)
Lemma write_source k o : ops !! k = Some o -> o.(o_opcode) = Op_WriteGuestReg -> present o.(o_lhs) = true.
Proof using Hclosed.
  intros Ho Hop. destruct (is_complete _ _ _ (follows_verified _ _ _ (op_follows block Hclosed k o Ho))) as [defined Hc].
  unfold check_operation in Hc. rewrite Hop in Hc. apply app_nil in Hc as [Hc _]. by destruct (o_lhs o).
Qed.

Definition promotes_right (k : nat) (s : list bool * list bool) : Prop := length s.1 = length ops /\
  (forall i, s.1 !! i = Some true -> promotable i) /\
  forall r, s.2 !! Register_encoding r = Some true -> zero_at k r.

(** A step that writes at most [r]: what is known of the others stays. *)
Lemma promotes_step k o r promotes zeros b : ops !! k = Some o -> (forall r', writes r' o -> r' = r) ->
  promotes_right k (promotes, zeros) -> (b = true -> zero_at (S k) r) -> forall promotes', length promotes' = length promotes ->
  (forall i, promotes' !! i = Some true -> promotable i) -> promotes_right (S k) (promotes', <[Register_encoding r := b]> zeros).
Proof using block defs.
  intros Ho Hw (P1 & P2 & P3) Hb promotes' Hl Hp. cbn [fst snd] in *. split_and!; cbn [fst snd]; [lia|done|].
  intros r' Hr'. apply list_lookup_insert_Some in Hr' as [(E & -> & _)|(Hne & Hr')].
  - assert (r = r') as <- by (by destruct r, r'). by apply Hb.
  - apply (zero_at_S k r' o Ho); [|by apply P3]. intros ->%Hw. done.
Qed.

Lemma promoteWrites_ok : exists s, promoteWrites block defs = Ok s /\ promotes_right (length ops) s.
Proof using Hclosed block defs.
  unfold promoteWrites. apply (for_operations_ok _ promotes_right).
  - split_and!; cbn [fst snd]; [by rewrite length_replicate|by intros i [[=] _]%lookup_replicate|by intros r [[=] _]%lookup_replicate].
  - intros k o [promotes zeros] Ho Hs.
    assert (forall r', o.(o_opcode) <> Op_WriteGuestReg -> o.(o_opcode) <> Op_ConditionalMoveGuestReg -> ~ writes r' o) as Hnot.
    { intros r' ? ? [[?|?] _]; done. }
    assert ((forall r', ~ writes r' o) -> exists s', (if clears_known_zero o then Ok (promotes, map (fun _ => false) zeros)
      else Ok (promotes, zeros)) = Ok s' /\ promotes_right (S k) s') as Hother.
    { intros Hw. destruct Hs as (P1 & P2 & P3). destruct (clears_known_zero o); eexists; (split; [done|]);
        split_and!; cbn [fst snd] in *; try done.
      - intros r Hr. apply list_lookup_fmap_Some in Hr as (? & [=] & _).
      - intros r Hr. apply (zero_at_S k r o Ho); auto. }
    destruct (o_opcode o) eqn:Hop; try (apply Hother; intros r'; by apply Hnot).
    + destruct (o_guestRegister o) as [r|] eqn:Hr; [|apply Hother; by intros r' [_ ?]; congruence].
      pose proof (write_source k o Ho Hop) as Hsrc. destruct (o_lhs o) as [l|] eqn:Hl; [|done]. clear Hsrc.
      assert (forall r', writes r' o -> r' = r) as Hw by (intros r' [_ E]; congruence).
      set (zero := match defining l with Some d => _ | None => false end).
      destruct (tracked_width o && zero) eqn:E1.
      * eexists. split; [done|]. apply (promotes_step k o r promotes zeros true Ho Hw Hs); [|done|apply Hs]. intros _.
        apply andb_prop in E1 as [E1 E2]. unfold zero in E2. destruct (defining l) as [d|] eqn:Ed; [|done].
        apply andb_prop in E2 as [E2 E3%Z.eqb_eq]. exists k, o, l, d. split_and!; try done; [lia|]. intros j o' ?. lia.
      * set (condition := match defining l with Some d => _ | None => false end).
        destruct (width_is I8 o && default false (zeros !! Register_encoding r) && condition) eqn:E2.
        -- destruct Hs as (P1 & P2 & P3). pose proof (conj P1 (conj P2 P3)) as Hs. cbn [fst snd] in *.
           apply andb_prop in E2 as [[E2 E3]%andb_prop E4]. unfold put_index, at_index.
           destruct (lookup_lt_is_Some_2 promotes k) as [x ->]; [rewrite P1; by eapply lookup_lt_Some|]. cbn [outcome_bind].
           eexists. split; [done|]. apply (promotes_step k o r promotes zeros false Ho Hw Hs); [done|by rewrite length_insert|].
           intros i Hi. apply list_lookup_insert_Some in Hi as [(<- & _ & _)|(_ & Hi)]; [|by apply P2].
           unfold condition in E4. destruct (defining l) as [d|] eqn:Ed; [|done]. exists o, r, l, d. split_and!; try done.
           apply P3. by destruct (zeros !! Register_encoding r) as [[]|].
        -- eexists. split; [done|]. by apply (promotes_step k o r promotes zeros false Ho Hw Hs); [|done|apply Hs].
    + destruct (o_guestRegister o) as [r|] eqn:Hr; [|apply Hother; by intros r' [_ ?]; congruence].
      eexists. split; [done|]. apply (promotes_step k o r promotes zeros false Ho); [by intros r' [_ E]; congruence|done|done|done|apply Hs].
Qed.
End Defined.

(** ** The plan *)

(** The plan of the block. *)
Record planned (p : Plan) : Prop := {
  pl_plain : p.(p_internalSelfEdge) = false /\ p.(p_deferredExitUpdate) = None /\ p.(p_deferredExitResultOperation) = None /\
    p.(p_pinnedLoopConstant) = None /\ p.(p_pinnedValueRegisters) = replicate (Z.to_nat n) None /\
    p.(p_pinnedGuestRegisters) = replicate 16 None /\ p.(p_directReadSpan) = None /\ p.(p_directWriteSpan) = None /\
    p.(p_hasHelperCall) = existsb callsHelper ops /\ p.(p_hasExecutionContextCall) = existsb callsWithContext ops;
  pl_hosts : allocated block false false None p.(p_hostRegisters);
  pl_definitions : forall v d, 0 <= v ->
    definingOperation p.(p_definitions) v = Some d <-> exists i, ops !! i = Some d /\ d.(o_result) = Some v;
  pl_folded : length p.(p_foldedImmediate) = Z.to_nat n;
  pl_folds : exists defs, defs.(defs_operation) = p.(p_definitions) /\ folded_right defs p.(p_foldedImmediate) /\
    length p.(p_promotesNarrowGuestWrite) = length ops /\
    forall k, p.(p_promotesNarrowGuestWrite) !! k = Some true -> promotable defs k
}.

Lemma for_operations_idle {A} (body : nat -> Operation -> A -> outcome A) s : (forall k o, body k o s = Ok s) ->
  forall l k, for_operations body k l s = Ok s.
Proof. intros Hb. induction l as [|o l IH]; intros k; cbn [for_operations]; [done|]. rewrite Hb. apply IH. Qed.

Lemma pinValues_none defs uses values : pinValues block defs uses (replicate 16 None) values = Ok values.
Proof.
  apply for_operations_idle. intros k o. destruct (o_guestRegister o) as [r|]; [|done].
  by replace (pinnedGuestRegister (replicate 16 None) r) with (@None Z) by (by destruct r).
Qed.

Lemma makePlan_ok : hasInternalSelfEdge block = false ->
  match makePlan block with
  | Ok p => planned p
  | Throw e => exists i o r, ops !! i = Some o /\ o.(o_result) = Some r /\ overloaded block false false None i /\
      e = exhausted o.(o_guestRip)
  | Undefined => False
  end.
Proof using Hclosed Hn.
  intros Hedge. unfold makePlan. rewrite Hedge. unfold deferredExitFlagUpdate. cbn [negb orb outcome_bind andb].
  pose proof (allocation_result block false false None Hclosed Hn ltac:(done)) as Halloc.
  destruct (allocateHostRegisters block false false None) as [hosts|e|]; cbn [outcome_bind]; [|done|done].
  destruct collectDefinitions_ok as (defs & -> & D1 & D2 & D3). cbn [outcome_bind].
  destruct collectUses_ok as (uses & -> & U). cbn [outcome_bind deferredResult].
  destruct (foldImmediates_ok defs uses U) as (folded & -> & F). cbn [outcome_bind fst snd present andb orb].
  replace (pinRegisters _ _ _) with (replicate 16 (@None Z)) by reflexivity.
  rewrite pinValues_none. cbn [outcome_bind].
  destruct (promoteWrites_ok defs) as (s & -> & P1 & P2 & _). cbn [outcome_bind planReads planWrite fst snd].
  rewrite orb_false_r. split; [by repeat split|done|done|apply F|by exists defs].
Qed.
End Plan.
