(* ===== verification/BackendBase.v ===== *)
(** The state and the shared pieces of the code generator: [compile] of
    [src/arm64/Backend.cpp] between the analyses and the loop over the operations.

    Code is emitted into the [Assembler]; what the analyses found is the [Plan].  The
    addresses of the runtime helpers the code calls depend on the process that runs it, so
    they are the parameter [g_pointer].  Offsets into [X86State] and
    [GuestExecutionContext] are those of the LP64 layout the source is built for. *)
From S2P Require Import Prelude X86State ExecutionContext Assembler IR IRVerify Optimization BackendAnalysis BackendPlan.

(** ** Host registers *)

Definition x0 : Z := 0.
Definition x1 : Z := 1.
Definition x2 : Z := 2.
Definition x3 : Z := 3.
Definition x4 : Z := 4.
Definition x5 : Z := 5.
Definition x16 : Z := 16.
Definition x17 : Z := 17.
Definition x19 : Z := 19.
Definition x20 : Z := 20.
Definition x21 : Z := 21.
Definition x22 : Z := 22.
Definition x23 : Z := 23.
Definition x24 : Z := 24.
Definition x25 : Z := 25.

(** [BranchCondition]. *)
Definition B_Equal : Z := 0.
Definition B_NotEqual : Z := 1.
Definition B_UnsignedHigherOrSame : Z := 2.
Definition B_UnsignedLower : Z := 3.
Definition B_Negative : Z := 4.
Definition B_NonNegative : Z := 5.
Definition B_Overflow : Z := 6.
Definition B_NoOverflow : Z := 7.
Definition B_UnsignedHigher : Z := 8.
Definition B_UnsignedLowerOrSame : Z := 9.
Definition B_SignedGreaterOrEqual : Z := 10.
Definition B_SignedLess : Z := 11.
Definition B_SignedGreater : Z := 12.
Definition B_SignedLessOrEqual : Z := 13.

(** [BlockExit]. *)
Definition BlockExit_Continue : Z := 0.
Definition BlockExit_Call : Z := 1.
Definition BlockExit_Return : Z := 2.
Definition BlockExit_Syscall : Z := 3.
Definition BlockExit_MemoryFault : Z := 4.
Definition BlockExit_ExecutionFault : Z := 5.

(** ** [GuestExecutionContext] and [DirectGuestMemoryCache] *)

Definition loadedValueOffset : Z := 40.
Definition remainingBlockExecutionsOffset : Z := 56.
Definition stopRepeatingOffset : Z := 64.
Definition directReadOffset : Z := 80.
Definition directWriteOffset : Z := 112.
Definition faultRipOffset : Z := 144.
Definition cacheBaseOffset : Z := 0.
Definition cacheSizeOffset : Z := 8.
Definition cacheBytesOffset : Z := 16.

(** ** What the emission reads *)

Record CodeGen := mkCodeGen { g_block : Block; g_plan : Plan; g_pointer : string -> Z }.

Section Accessors.
Context (g : CodeGen).

Definition internalSelfEdge : bool := g.(g_plan).(p_internalSelfEdge).
Definition fuseZeroFlagConsumers : bool := internalSelfEdge.
Definition eliminateFusedFlagUpdates : bool := fuseZeroFlagConsumers.
Definition sinkLogicFlags : bool := internalSelfEdge.
Definition deferredExitUpdate : option nat := g.(g_plan).(p_deferredExitUpdate).
Definition deferredExitResultOperation : option nat := g.(g_plan).(p_deferredExitResultOperation).
Definition foldedImmediate : list bool := g.(g_plan).(p_foldedImmediate).
Definition pinnedLoopConstant : option ValueId := g.(g_plan).(p_pinnedLoopConstant).
Definition pinsDirectRead : bool := g.(g_plan).(p_pinsDirectRead).
Definition pinsDirectWrite : bool := g.(g_plan).(p_pinsDirectWrite).
Definition mayStopRepeating : bool := g.(g_plan).(p_mayStopRepeating).
Definition promotesNarrowGuestWrite : list bool := g.(g_plan).(p_promotesNarrowGuestWrite).
Definition adjacentDirectReads : list (option AdjacentDirectRead) := g.(g_plan).(p_adjacentDirectReads).
Definition directReadSpan : option DirectReadSpan := g.(g_plan).(p_directReadSpan).
Definition directWriteSpan : option DirectWriteSpan := g.(g_plan).(p_directWriteSpan).
Definition hasHelperCall : bool := g.(g_plan).(p_hasHelperCall).
Definition hasExecutionContextCall : bool := g.(g_plan).(p_hasExecutionContextCall).
Definition pinnedGuestRegisters : list (option Z) := g.(g_plan).(p_pinnedGuestRegisters).
Definition hasPinnedGuestRegisters : bool := existsb present pinnedGuestRegisters.
Definition pinnedDirectCacheOffset : Z := if pinsDirectRead then directReadOffset else directWriteOffset.

Definition at_value_in {A} (l : list A) (v : ValueId) : M Assembler A := lift (at_value l v).
Definition at_index_in {A} (l : list A) (i : nat) : M Assembler A := lift (at_index l i).
(** [*optional]. *)
Definition deref {A} (x : option A) : M Assembler A :=
  match x with Some a => ret a | None => undefined end.

Definition register_value (r : Register) : Z := Z.of_nat (Register_encoding r).

Definition hostRegister (value : ValueId) : M Assembler Z :=
  if zlength g.(g_plan).(p_hostRegisters) <=? value then
    throw (runtime_error "R1 code generation referenced an unallocated IR value")
  else
    do! pinned <- at_value_in g.(g_plan).(p_pinnedValueRegisters) value;
    match pinned with
    | Some register => ret register
    | None => at_value_in g.(g_plan).(p_hostRegisters) value
    end.

Definition defining (value : ValueId) : option Operation := definingOperation g.(g_plan).(p_definitions) value.
Definition pinnedGuest (r : Register) : option Z := pinnedGuestRegister pinnedGuestRegisters r.

(** A loop over the guest registers that live in host registers. *)
Fixpoint for_pinned (f : Z -> Z -> M Assembler unit) (index : nat) (pinned : list (option Z)) : M Assembler unit :=
  match pinned with
  | [] => ret tt
  | Some register :: rest => f register (registerOffset (register_of (Z.of_nat index))) ;;; for_pinned f (S index) rest
  | None :: rest => for_pinned f (S index) rest
  end.

(** ** Entry and exits of the block *)

Definition emitPrologue : M Assembler unit :=
  (if hasHelperCall then pushFrameRecord else ret tt) ;;;
  if hasExecutionContextCall then
    (if internalSelfEdge then
       pushCalleeSaved19Through24 ;;;
       (if hasPinnedGuestRegisters then pushCalleeSaved25Through28 else ret tt)
     else pushCalleeSaved19Through22) ;;;
    mov x19 x1 ;;;
    (if internalSelfEdge then
       (if hasPinnedGuestRegisters then
          mov x25 x0 ;;; for_pinned (fun register offset => ldr register x25 offset) 0 pinnedGuestRegisters
        else ret tt) ;;;
       ldr x23 x19 remainingBlockExecutionsOffset ;;;
       match pinnedLoopConstant with
       | Some value =>
           do! definition <- deref (defining value);
           movImmediate x24 (if width_is I32 definition then Z.land definition.(o_immediate) UINT32_MAX
                             else definition.(o_immediate))
       | None => movImmediate x24 g.(g_block).(b_start)
       end
     else ret tt) ;;;
    (if pinsDirectRead || pinsDirectWrite then
       ldr x20 x19 (pinnedDirectCacheOffset + cacheBytesOffset) ;;;
       ldr x21 x19 (pinnedDirectCacheOffset + cacheBaseOffset) ;;;
       ldr x22 x19 (pinnedDirectCacheOffset + cacheSizeOffset)
     else ret tt) ;;;
    (if present directWriteSpan then movImmediate x4 0 else ret tt)
  else ret tt.

(** [repeatedEntry] is the first label the function makes. *)
Definition repeatedEntry : Z := 0.

Definition emitEpilogue : M Assembler unit :=
  (if hasExecutionContextCall then
     if internalSelfEdge then
       (if hasPinnedGuestRegisters then
          for_pinned (fun register offset => str register x25 offset) 0 pinnedGuestRegisters ;;;
          popCalleeSaved25Through28
        else ret tt) ;;;
       str x23 x19 remainingBlockExecutionsOffset ;;;
       popCalleeSaved19Through24
     else popCalleeSaved19Through22
   else ret tt) ;;;
  (if hasHelperCall then popFrameRecord else ret tt).

Definition emitStopRepeatingCheck (returnToDispatcher : Z) : M Assembler unit :=
  if negb mayStopRepeating then ret tt
  else if pinsDirectWrite then
    do! directMapping <- makeLabel;
    cbnz x20 directMapping ;;;
    ldr x1 x19 stopRepeatingOffset ;;;
    cbnz x1 returnToDispatcher ;;;
    bindLabel directMapping
  else
    ldr x1 x19 stopRepeatingOffset ;;;
    cbnz x1 returnToDispatcher.

End Accessors.
