(* ===== verification/BackendScalar.v ===== *)
(** The code generator for registers, arithmetic, flags and exits: the cases of the switch of
    [compile] ([src/arm64/Backend.cpp]) that need no guest memory, one definition per opcode,
    and the sequences the cases share. *)
From S2P Require Import Prelude X86State ExecutionContext Assembler IR IRVerify Optimization BackendAnalysis BackendPlan BackendBase.

Definition emitFaultExit (g : CodeGen) (exit : Z) (rip : Z) : M Assembler unit :=
  movImmediate x16 rip ;;;
  str x16 x19 faultRipOffset ;;;
  emitEpilogue g ;;;
  movImmediate x0 exit ;;;
  emitRet.

Definition emitLogicFlags (g : CodeGen) (result : Z) (width : Width) : M Assembler unit :=
  do! parityDone <- makeLabel;
  do! zeroDone <- makeLabel;
  let signBit := if bool_decide (width = I8) then 7 else if bool_decide (width = I16) then 15 else if bool_decide
      (width = I32) then 31 else 63 in
  (if bool_decide (width = I64) then
      mov x1 result
  else
      let valueMask := if bool_decide (width = I8) then 0xFF else if bool_decide (width = I16) then 0xFFFF else
          UINT32_MAX in
      movImmediate x17 valueMask ;;;
      bitAnd x1 result x17) ;;;
  ldr x16 x0 rflagsOffset ;;;
  movImmediate x17 (not64 arithmeticFlagMask) ;;;
  bitAnd x16 x16 x17 ;;;
  movImmediate x17 flagReservedOne ;;;
  bitOr x16 x16 x17 ;;;
  mov x17 x1 ;;;
  bitXorShiftedRight x17 x17 x17 4 ;;;
  bitXorShiftedRight x17 x17 x17 2 ;;;
  bitXorShiftedRight x17 x17 x17 1 ;;;
  tbnz x17 0 parityDone ;;;
  movImmediate x17 flagParity ;;;
  bitOr x16 x16 x17 ;;;
  bindLabel parityDone ;;;
  cbnz x1 zeroDone ;;;
  movImmediate x17 flagZero ;;;
  bitOr x16 x16 x17 ;;;
  bindLabel zeroDone ;;;
  lsrImmediate x17 x1 (u8 signBit) ;;;
  bitOrShiftedLeft x16 x16 x17 7 ;;;
  str x16 x0 rflagsOffset.

Definition emitSubFlags64 (g : CodeGen) (lhs : Z) (rhs : Z) (result : Z) : M Assembler unit :=
  do! carryDone <- makeLabel;
  do! parityDone <- makeLabel;
  do! auxiliaryDone <- makeLabel;
  do! zeroDone <- makeLabel;
  do! overflowDone <- makeLabel;
  ldr x16 x0 rflagsOffset ;;;
  movImmediate x17 (not64 arithmeticFlagMask) ;;;
  bitAnd x16 x16 x17 ;;;
  movImmediate x17 flagReservedOne ;;;
  bitOr x16 x16 x17 ;;;
  compare lhs rhs ;;;
  bUnsignedHigherOrSame carryDone ;;;
  movImmediate x17 flagCarry ;;;
  bitOr x16 x16 x17 ;;;
  bindLabel carryDone ;;;
  mov x17 result ;;;
  bitXorShiftedRight x17 x17 x17 4 ;;;
  bitXorShiftedRight x17 x17 x17 2 ;;;
  bitXorShiftedRight x17 x17 x17 1 ;;;
  tbnz x17 0 parityDone ;;;
  movImmediate x17 flagParity ;;;
  bitOr x16 x16 x17 ;;;
  bindLabel parityDone ;;;
  bitXor x17 lhs rhs ;;;
  bitXor x17 x17 result ;;;
  tbz x17 4 auxiliaryDone ;;;
  movImmediate x17 flagAuxiliaryCarry ;;;
  bitOr x16 x16 x17 ;;;
  bindLabel auxiliaryDone ;;;
  cbnz result zeroDone ;;;
  movImmediate x17 flagZero ;;;
  bitOr x16 x16 x17 ;;;
  bindLabel zeroDone ;;;
  lsrImmediate x17 result 63 ;;;
  bitOrShiftedLeft x16 x16 x17 7 ;;;
  bitXor x17 lhs rhs ;;;
  bitXor x1 lhs result ;;;
  bitAnd x17 x17 x1 ;;;
  tbz x17 63 overflowDone ;;;
  movImmediate x17 flagOverflow ;;;
  bitOr x16 x16 x17 ;;;
  bindLabel overflowDone ;;;
  str x16 x0 rflagsOffset.

Definition emit_Constant (g : CodeGen) (operation : Operation) : M Assembler unit :=
  do! result1 <- deref operation.(o_result);
  do! folded1 <- at_value_in (foldedImmediate g) result1;
  do! test2 <- (if folded1 then ret true else (if present (pinnedLoopConstant g) then do! pinnedLoopConstant1 <-
      deref (pinnedLoopConstant g); ret (result1 =? pinnedLoopConstant1) else ret false));
  if test2 then
    ret tt
  else
  do! host1 <- hostRegister g result1;
  movImmediate host1 (if width_is I32 operation then Z.land operation.(o_immediate) UINT32_MAX else
      operation.(o_immediate)).

Definition emit_ReadGuestReg (g : CodeGen) (operation : Operation) : M Assembler unit :=
  do! register1 <- deref operation.(o_guestRegister);
  match pinnedGuest g register1 with
  | Some pinned' =>
      do! result1 <- deref operation.(o_result);
      do! host1 <- hostRegister g result1;
      if host1 =? pinned' then
        ret tt
      else if width_is I32 operation then
        do! host2 <- hostRegister g result1;
        mov32 host2 pinned'
      else
        do! host3 <- hostRegister g result1;
        mov host3 pinned'
  | None =>
      if width_is I32 operation then
        do! result2 <- deref operation.(o_result);
        do! host4 <- hostRegister g result2;
        ldr32 host4 x0 (registerOffset register1)
      else
        do! result3 <- deref operation.(o_result);
        do! host5 <- hostRegister g result3;
        ldr host5 x0 (registerOffset register1)
  end.

Definition emit_ReadGuestGsBase (g : CodeGen) (operation : Operation) : M Assembler unit :=
  do! result1 <- deref operation.(o_result);
  do! host1 <- hostRegister g result1;
  ldr host1 x0 gsBaseOffset.

Definition emit_ReadGuestXmmLane (g : CodeGen) (operation : Operation) : M Assembler unit :=
  do! result1 <- deref operation.(o_result);
  do! host1 <- hostRegister g result1;
  do! xmm1 <- deref operation.(o_guestXmmRegister);
  ldr host1 x0 (u32 (xmmLaneOffset xmm1 (negb (operation.(o_immediate) =? 0)))).

Definition emit_ReadGuestYmmUpperLane (g : CodeGen) (operation : Operation) : M Assembler unit :=
  do! result1 <- deref operation.(o_result);
  do! host1 <- hostRegister g result1;
  do! xmm1 <- deref operation.(o_guestXmmRegister);
  ldr host1 x0 (u32 (ymmUpperLaneOffset xmm1 (negb (operation.(o_immediate) =? 0)))).

Definition emit_WriteGuestReg (g : CodeGen) (operation : Operation) (operationIndex : nat) : M Assembler unit :=
  do! promotes1 <- at_index_in (promotesNarrowGuestWrite g) operationIndex;
  if promotes1 then
    do! register1 <- deref operation.(o_guestRegister);
    (match pinnedGuest g register1 with
    | Some pinned' =>
        do! lhs1 <- deref operation.(o_lhs);
        do! host1 <- hostRegister g lhs1;
        (if negb (host1 =? pinned') then
            do! host2 <- hostRegister g lhs1;
            mov pinned' host2
        else
            ret tt)
    | None =>
        do! lhs2 <- deref operation.(o_lhs);
        do! host3 <- hostRegister g lhs2;
        str host3 x0 (registerOffset register1)
    end)
  else if width_is I8 operation || width_is I16 operation then
    do! register2 <- deref operation.(o_guestRegister);
    let offset := (registerOffset register2) in
    let pinned := pinnedGuest g register2 in
    (match pinned with
    | Some pinned' =>
        mov x16 pinned'
    | None =>
        ldr x16 x0 offset
    end) ;;;
    let valueMask := if width_is I8 operation then 0xFF else 0xFFFF in
    movImmediate x17 (not64 valueMask) ;;;
    bitAnd x16 x16 x17 ;;;
    movImmediate x17 valueMask ;;;
    do! lhs3 <- deref operation.(o_lhs);
    do! host4 <- hostRegister g lhs3;
    bitAnd x17 host4 x17 ;;;
    bitOr x16 x16 x17 ;;;
    match pinned with
    | Some pinned' =>
        mov pinned' x16
    | None =>
        str x16 x0 offset
    end
  else if width_is I32 operation then
    do! lhs4 <- deref operation.(o_lhs);
    let definition := defining g lhs4 in
    let alreadyZeroExtended := isZeroExtendedDefinition definition in
    if alreadyZeroExtended then
      do! register3 <- deref operation.(o_guestRegister);
      match pinnedGuest g register3 with
      | Some pinned' =>
          do! host5 <- hostRegister g lhs4;
          if negb (host5 =? pinned') then
            do! host6 <- hostRegister g lhs4;
            mov pinned' host6
          else
            ret tt
      | None =>
          do! host7 <- hostRegister g lhs4;
          str host7 x0 (registerOffset register3)
      end
    else
      do! register4 <- deref operation.(o_guestRegister);
      match pinnedGuest g register4 with
      | Some pinned' =>
          do! host8 <- hostRegister g lhs4;
          mov32 pinned' host8
      | None =>
          movImmediate x16 UINT32_MAX ;;;
          do! host9 <- hostRegister g lhs4;
          bitAnd x16 host9 x16 ;;;
          str x16 x0 (registerOffset register4)
      end
  else
    do! register5 <- deref operation.(o_guestRegister);
    match pinnedGuest g register5 with
    | Some pinned' =>
        do! lhs5 <- deref operation.(o_lhs);
        do! host10 <- hostRegister g lhs5;
        if negb (host10 =? pinned') then
          do! host11 <- hostRegister g lhs5;
          mov pinned' host11
        else
          ret tt
    | None =>
        do! lhs6 <- deref operation.(o_lhs);
        do! host12 <- hostRegister g lhs6;
        str host12 x0 (registerOffset register5)
    end.

Definition emitConditionalMoveTest (g : CodeGen) (operation : Operation) (carryFlagBit : Z) (zeroFlagBit : Z)
    (signFlagBit : Z) (notTaken : Z) : M Assembler unit :=
  ldr x16 x0 rflagsOffset ;;;
  do! condition1 <- deref operation.(o_condition);
  if bool_decide (condition1 = Cond_Below) then
    tbz x16 carryFlagBit notTaken
  else if bool_decide (condition1 = Cond_BelowOrEqual) then
    do! taken <- makeLabel;
    tbnz x16 carryFlagBit taken ;;;
    tbz x16 zeroFlagBit notTaken ;;;
    bindLabel taken
  else if bool_decide (condition1 = Cond_AboveOrEqual) then
    tbnz x16 carryFlagBit notTaken
  else if bool_decide (condition1 = Cond_Equal) then
    tbz x16 zeroFlagBit notTaken
  else if bool_decide (condition1 = Cond_NotEqual) then
    tbnz x16 zeroFlagBit notTaken
  else if bool_decide (condition1 = Cond_Sign) then
    tbz x16 signFlagBit notTaken
  else if bool_decide (condition1 = Cond_NotSign) then
    tbnz x16 signFlagBit notTaken
  else if bool_decide (condition1 = Cond_Overflow) then
    let overflowFlagBit := 11 in
    tbz x16 overflowFlagBit notTaken
  else if bool_decide (condition1 = Cond_NotOverflow) then
    let overflowFlagBit := 11 in
    tbnz x16 overflowFlagBit notTaken
  else if bool_decide (condition1 = Cond_ParityEven) then
    let parityFlagBit := 2 in
    tbz x16 parityFlagBit notTaken
  else if bool_decide (condition1 = Cond_ParityOdd) then
    let parityFlagBit := 2 in
    tbnz x16 parityFlagBit notTaken
  else if bool_decide (condition1 = Cond_Less) then
    let overflowFlagBit := 11 in
    lsrImmediate x17 x16 (u32 (overflowFlagBit - signFlagBit)) ;;;
    bitXor x17 x16 x17 ;;;
    tbz x17 signFlagBit notTaken
  else if bool_decide (condition1 = Cond_GreaterOrEqual) then
    let overflowFlagBit := 11 in
    lsrImmediate x17 x16 (u32 (overflowFlagBit - signFlagBit)) ;;;
    bitXor x17 x16 x17 ;;;
    tbnz x17 signFlagBit notTaken
  else if bool_decide (condition1 = Cond_LessOrEqual) then
    let overflowFlagBit := 11 in
    do! taken <- makeLabel;
    tbnz x16 zeroFlagBit taken ;;;
    lsrImmediate x17 x16 (u32 (overflowFlagBit - signFlagBit)) ;;;
    bitXor x17 x16 x17 ;;;
    tbz x17 signFlagBit notTaken ;;;
    bindLabel taken
  else if bool_decide (condition1 = Cond_Greater) then
    let overflowFlagBit := 11 in
    tbnz x16 zeroFlagBit notTaken ;;;
    lsrImmediate x17 x16 (u32 (overflowFlagBit - signFlagBit)) ;;;
    bitXor x17 x16 x17 ;;;
    tbnz x17 signFlagBit notTaken
  else
    tbnz x16 carryFlagBit notTaken ;;;
    tbnz x16 zeroFlagBit notTaken.

Definition emitConditionalMoveBranch (g : CodeGen) (operation : Operation) (carryFlagBit : Z) (zeroFlagBit : Z)
    (signFlagBit : Z) (notTaken : Z) (zeroSource : option ZeroFlagSource) : M Assembler unit :=
  (match zeroSource with
  | Some zeroSource' =>
      do! sourceRegister <- hostRegister g zeroSource'.(z_value);
      (if bool_decide (zeroSource'.(z_width) = I64) then
          mov x16 sourceRegister
      else
          let valueMask := if bool_decide (zeroSource'.(z_width) = I8) then 0xFF else if bool_decide
              (zeroSource'.(z_width) = I16) then 0xFFFF else UINT32_MAX in
          movImmediate x17 valueMask ;;;
          bitAnd x16 sourceRegister x17) ;;;
      do! condition1 <- deref operation.(o_condition);
      (if bool_decide (condition1 = Cond_Equal) then
          cbnz x16 notTaken
      else
          cbz x16 notTaken)
  | None =>
      emitConditionalMoveTest g operation carryFlagBit zeroFlagBit signFlagBit notTaken
  end) ;;;
  (match operation.(o_lhs) with
  | Some lhs' =>
      do! host2 <- hostRegister g lhs';
      mov x17 host2
  | None =>
      let source := register_of operation.(o_immediate) in
      (match pinnedGuest g source with
      | Some pinned' =>
          mov x17 pinned'
      | None =>
          ldr x17 x0 (registerOffset source)
      end)
  end) ;;;
  (if width_is I32 operation then
      mov32 x17 x17
  else
      ret tt) ;;;
  do! register1 <- deref operation.(o_guestRegister);
  (match pinnedGuest g register1 with
  | Some pinned' =>
      mov pinned' x17
  | None =>
      str x17 x0 (registerOffset register1)
  end) ;;;
  bindLabel notTaken ;;;
  if width_is I32 operation then
    match pinnedGuest g register1 with
    | Some pinned' =>
        mov32 pinned' pinned'
    | None =>
        let destinationOffset := (registerOffset register1) in
        ldr x17 x0 destinationOffset ;;;
        mov32 x17 x17 ;;;
        str x17 x0 destinationOffset
    end
  else
    ret tt.

Definition emit_ConditionalMoveGuestReg (g : CodeGen) (operation : Operation) (operationIndex : nat) : M Assembler
    unit :=
  do! test1 <- (if (negb (width_is I32 operation) && negb (width_is I64 operation)) then ret true else do!
      condition1 <- deref operation.(o_condition); ret (negb (bool_decide (condition1 = Cond_Below)) && negb
      (bool_decide (condition1 = Cond_BelowOrEqual)) && negb (bool_decide (condition1 = Cond_AboveOrEqual)) && negb
      (bool_decide (condition1 = Cond_Above)) && negb (bool_decide (condition1 = Cond_Equal)) && negb (bool_decide
      (condition1 = Cond_NotEqual)) && negb (bool_decide (condition1 = Cond_Overflow)) && negb (bool_decide
      (condition1 = Cond_NotOverflow)) && negb (bool_decide (condition1 = Cond_ParityEven)) && negb (bool_decide
      (condition1 = Cond_ParityOdd)) && negb (bool_decide (condition1 = Cond_Sign)) && negb (bool_decide
      (condition1 = Cond_NotSign)) && negb (bool_decide (condition1 = Cond_Less)) && negb (bool_decide (condition1
      = Cond_GreaterOrEqual)) && negb (bool_decide (condition1 = Cond_LessOrEqual)) && negb (bool_decide
      (condition1 = Cond_Greater))));
  if test1 then
    throw (runtime_error "ARM64 backend only implements 32- and 64-bit register CMOVO/CMOVNO/CMOVP/CMOVNP/CMOVB/CMOVBE/CMOVAE/CMOVE/CMOVNE/CMOVA/CMOVS/CMOVNS/CMOVL/CMOVGE/CMOVLE/CMOVG")
  else
  let carryFlagBit := 0 in
  let zeroFlagBit := 6 in
  let signFlagBit := 7 in
  do! notTaken <- makeLabel;
  do! zeroSource <- (if fuseZeroFlagConsumers g && consumesOnlyZeroFlag operation then lift (zeroFlagSourceAt
      (g_block g) operationIndex) else ret None);
  match zeroSource with
  | Some zeroSource' =>
      do! zeroSourceRegister <- hostRegister g zeroSource'.(z_value);
      let compared := zeroSourceRegister in
      do! compared <- (if negb (bool_decide (zeroSource'.(z_width) = I64)) then
          let valueMask := if bool_decide (zeroSource'.(z_width) = I8) then 0xFF else if bool_decide
              (zeroSource'.(z_width) = I16) then 0xFFFF else UINT32_MAX in
          movImmediate x17 valueMask ;;;
          bitAnd x16 zeroSourceRegister x17 ;;;
          ret x16
      else
          ret compared);
      compareZero compared ;;;
      let trueValue := 0 in
      do! trueValue <- (match operation.(o_lhs) with
      | Some lhs' =>
          hostRegister g lhs'
      | None =>
          let source := register_of operation.(o_immediate) in
          (match pinnedGuest g source with
          | Some pinned' =>
              ret pinned'
          | None =>
              ldr x17 x0 (registerOffset source) ;;;
              ret x17
          end)
      end);
      do! register1 <- deref operation.(o_guestRegister);
      let destinationPinned := pinnedGuest g register1 in
      let falseValue := 0 in
      let destination := 0 in
      do! (falseValue, destination) <- (match destinationPinned with
      | Some destinationPinned' =>
          let falseValue := destinationPinned' in
          let destination := destinationPinned' in
          ret (falseValue, destination)
      | None =>
          ldr x16 x0 (registerOffset register1) ;;;
          let falseValue := x16 in
          let destination := x17 in
          ret (falseValue, destination)
      end);
      do! condition2 <- deref operation.(o_condition);
      let condition := if bool_decide (condition2 = Cond_Equal) then B_Equal else B_NotEqual in
      (if width_is I32 operation then
          conditionalSelect32 destination trueValue falseValue condition
      else
          conditionalSelect destination trueValue falseValue condition) ;;;
      (match destinationPinned with
      | Some _ =>
          ret tt
      | None =>
          str destination x0 (registerOffset register1)
      end)
  | None =>
      emitConditionalMoveBranch g operation carryFlagBit zeroFlagBit signFlagBit notTaken zeroSource
  end.

Definition emit_WriteGuestXmmLane (g : CodeGen) (operation : Operation) : M Assembler unit :=
  do! lhs1 <- deref operation.(o_lhs);
  do! host1 <- hostRegister g lhs1;
  do! xmm1 <- deref operation.(o_guestXmmRegister);
  str host1 x0 (u32 (xmmLaneOffset xmm1 (negb (operation.(o_immediate) =? 0)))).

Definition emit_WriteGuestYmmUpperLane (g : CodeGen) (operation : Operation) : M Assembler unit :=
  do! lhs1 <- deref operation.(o_lhs);
  do! host1 <- hostRegister g lhs1;
  do! xmm1 <- deref operation.(o_guestXmmRegister);
  str host1 x0 (u32 (ymmUpperLaneOffset xmm1 (negb (operation.(o_immediate) =? 0)))).

Definition emit_WriteGuestXmmByte (g : CodeGen) (operation : Operation) : M Assembler unit :=
  let lane := u8 operation.(o_immediate) in
  let byte := u8 (Z.land lane 7) in
  let shift := u8 (u32 (byte * 8)) in
  do! xmm1 <- deref operation.(o_guestXmmRegister);
  let offset := u32 (xmmLaneOffset xmm1 (8 <=? lane)) in
  ldr x16 x0 offset ;;;
  movImmediate x17 (not64 (u64 (Z.shiftl 0xFF shift))) ;;;
  bitAnd x16 x16 x17 ;;;
  movImmediate x17 0xFF ;;;
  do! lhs1 <- deref operation.(o_lhs);
  do! host1 <- hostRegister g lhs1;
  bitAnd x17 host1 x17 ;;;
  (if negb (shift =? 0) then
      lslImmediate x17 x17 shift
  else
      ret tt) ;;;
  bitOr x16 x16 x17 ;;;
  str x16 x0 offset.

Definition emit_WriteGuestXmmDword (g : CodeGen) (operation : Operation) : M Assembler unit :=
  let lane := u8 operation.(o_immediate) in
  do! xmm1 <- deref operation.(o_guestXmmRegister);
  let offset := u32 (xmmLaneOffset xmm1 (2 <=? lane)) in
  ldr x16 x0 offset ;;;
  movImmediate x17 (if Z.land lane 1 =? 0 then 0xFFFFFFFF00000000 else UINT32_MAX) ;;;
  bitAnd x16 x16 x17 ;;;
  movImmediate x17 UINT32_MAX ;;;
  do! lhs1 <- deref operation.(o_lhs);
  do! host1 <- hostRegister g lhs1;
  bitAnd x17 host1 x17 ;;;
  (if negb (Z.land lane 1 =? 0) then
      lslImmediate x17 x17 32
  else
      ret tt) ;;;
  bitOr x16 x16 x17 ;;;
  str x16 x0 offset.

Definition emit_Add (g : CodeGen) (operation : Operation) : M Assembler unit :=
  do! test1 <- (if present (directWriteSpan g) then do! directWriteSpan1 <- deref (directWriteSpan g); ret
      (bool_decide (operation.(o_result) = Some directWriteSpan1.(dw_address))) else ret false);
  if test1 then
    ret tt
  else
  do! test2 <- (if present operation.(o_rhs) then do! rhs1 <- deref operation.(o_rhs); at_value_in (foldedImmediate
      g) rhs1 else ret false);
  if test2 then
    do! rhs2 <- deref operation.(o_rhs);
    do! definition1 <- deref (defining g rhs2);
    let immediate := u16 definition1.(o_immediate) in
    if width_is I32 operation then
      do! result1 <- deref operation.(o_result);
      do! host1 <- hostRegister g result1;
      do! lhs1 <- deref operation.(o_lhs);
      do! host2 <- hostRegister g lhs1;
      addImmediate32 host1 host2 immediate
    else
      do! result2 <- deref operation.(o_result);
      do! host3 <- hostRegister g result2;
      do! lhs2 <- deref operation.(o_lhs);
      do! host4 <- hostRegister g lhs2;
      addImmediate host3 host4 immediate
  else if width_is I32 operation then
    do! result3 <- deref operation.(o_result);
    do! host5 <- hostRegister g result3;
    do! lhs3 <- deref operation.(o_lhs);
    do! host6 <- hostRegister g lhs3;
    do! rhs3 <- deref operation.(o_rhs);
    do! host7 <- hostRegister g rhs3;
    add32 host5 host6 host7
  else
    do! result4 <- deref operation.(o_result);
    do! host8 <- hostRegister g result4;
    do! lhs4 <- deref operation.(o_lhs);
    do! host9 <- hostRegister g lhs4;
    do! rhs4 <- deref operation.(o_rhs);
    do! host10 <- hostRegister g rhs4;
    add host8 host9 host10.

Definition emit_Sub (g : CodeGen) (operation : Operation) : M Assembler unit :=
  do! test1 <- (if present operation.(o_rhs) then do! rhs1 <- deref operation.(o_rhs); at_value_in (foldedImmediate
      g) rhs1 else ret false);
  if test1 then
    do! rhs2 <- deref operation.(o_rhs);
    do! definition1 <- deref (defining g rhs2);
    let immediate := u16 definition1.(o_immediate) in
    if width_is I32 operation then
      do! result1 <- deref operation.(o_result);
      do! host1 <- hostRegister g result1;
      do! lhs1 <- deref operation.(o_lhs);
      do! host2 <- hostRegister g lhs1;
      subImmediate32 host1 host2 immediate
    else
      do! result2 <- deref operation.(o_result);
      do! host3 <- hostRegister g result2;
      do! lhs2 <- deref operation.(o_lhs);
      do! host4 <- hostRegister g lhs2;
      subImmediate host3 host4 immediate
  else if width_is I32 operation then
    do! result3 <- deref operation.(o_result);
    do! host5 <- hostRegister g result3;
    do! lhs3 <- deref operation.(o_lhs);
    do! host6 <- hostRegister g lhs3;
    do! rhs3 <- deref operation.(o_rhs);
    do! host7 <- hostRegister g rhs3;
    sub32 host5 host6 host7
  else
    do! result4 <- deref operation.(o_result);
    do! host8 <- hostRegister g result4;
    do! lhs4 <- deref operation.(o_lhs);
    do! host9 <- hostRegister g lhs4;
    do! rhs4 <- deref operation.(o_rhs);
    do! host10 <- hostRegister g rhs4;
    sub host8 host9 host10.

Definition emit_ShiftLeft (g : CodeGen) (operation : Operation) : M Assembler unit :=
  match operation.(o_rhs) with
  | Some rhs' =>
      do! result1 <- deref operation.(o_result);
      do! host1 <- hostRegister g result1;
      do! lhs1 <- deref operation.(o_lhs);
      do! host2 <- hostRegister g lhs1;
      do! host3 <- hostRegister g rhs';
      lslVariable host1 host2 host3
  | None =>
      do! result2 <- deref operation.(o_result);
      do! host4 <- hostRegister g result2;
      do! lhs2 <- deref operation.(o_lhs);
      do! host5 <- hostRegister g lhs2;
      lslImmediate host4 host5 (u8 operation.(o_immediate))
  end.

Definition emit_ShiftRightLogical (g : CodeGen) (operation : Operation) : M Assembler unit :=
  match operation.(o_rhs) with
  | Some rhs' =>
      do! result1 <- deref operation.(o_result);
      do! host1 <- hostRegister g result1;
      do! lhs1 <- deref operation.(o_lhs);
      do! host2 <- hostRegister g lhs1;
      do! host3 <- hostRegister g rhs';
      lsrVariable host1 host2 host3
  | None =>
      do! result2 <- deref operation.(o_result);
      do! host4 <- hostRegister g result2;
      do! lhs2 <- deref operation.(o_lhs);
      do! host5 <- hostRegister g lhs2;
      lsrImmediate host4 host5 (u8 operation.(o_immediate))
  end.

Definition emit_ShiftRightArithmetic (g : CodeGen) (operation : Operation) : M Assembler unit :=
  match operation.(o_rhs) with
  | Some rhs' =>
      if width_is I32 operation then
        do! result1 <- deref operation.(o_result);
        do! host1 <- hostRegister g result1;
        do! lhs1 <- deref operation.(o_lhs);
        do! host2 <- hostRegister g lhs1;
        do! host3 <- hostRegister g rhs';
        asrVariable32 host1 host2 host3
      else
        do! result2 <- deref operation.(o_result);
        do! host4 <- hostRegister g result2;
        do! lhs2 <- deref operation.(o_lhs);
        do! host5 <- hostRegister g lhs2;
        do! host6 <- hostRegister g rhs';
        asrVariable host4 host5 host6
  | None =>
      if width_is I32 operation then
        do! result3 <- deref operation.(o_result);
        do! host7 <- hostRegister g result3;
        do! lhs3 <- deref operation.(o_lhs);
        do! host8 <- hostRegister g lhs3;
        asrImmediate32 host7 host8 (u8 operation.(o_immediate))
      else
        do! result4 <- deref operation.(o_result);
        do! host9 <- hostRegister g result4;
        do! lhs4 <- deref operation.(o_lhs);
        do! host10 <- hostRegister g lhs4;
        asrImmediate host9 host10 (u8 operation.(o_immediate))
  end.

Definition emit_MultiplyLow (g : CodeGen) (operation : Operation) : M Assembler unit :=
  do! result1 <- deref operation.(o_result);
  do! host1 <- hostRegister g result1;
  do! lhs1 <- deref operation.(o_lhs);
  do! host2 <- hostRegister g lhs1;
  do! rhs1 <- deref operation.(o_rhs);
  do! host3 <- hostRegister g rhs1;
  multiplyLow host1 host2 host3.

Definition emit_MultiplyHighUnsigned (g : CodeGen) (operation : Operation) : M Assembler unit :=
  do! result1 <- deref operation.(o_result);
  do! host1 <- hostRegister g result1;
  do! lhs1 <- deref operation.(o_lhs);
  do! host2 <- hostRegister g lhs1;
  do! rhs1 <- deref operation.(o_rhs);
  do! host3 <- hostRegister g rhs1;
  multiplyHighUnsigned host1 host2 host3.

Definition emit_MultiplyHighSigned (g : CodeGen) (operation : Operation) : M Assembler unit :=
  do! result1 <- deref operation.(o_result);
  do! host1 <- hostRegister g result1;
  do! lhs1 <- deref operation.(o_lhs);
  do! host2 <- hostRegister g lhs1;
  do! rhs1 <- deref operation.(o_rhs);
  do! host3 <- hostRegister g rhs1;
  multiplyHighSigned host1 host2 host3.

Definition emit_ShiftRightDouble (g : CodeGen) (operation : Operation) : M Assembler unit :=
  do! result1 <- deref operation.(o_result);
  do! host1 <- hostRegister g result1;
  do! rhs1 <- deref operation.(o_rhs);
  do! host2 <- hostRegister g rhs1;
  do! lhs1 <- deref operation.(o_lhs);
  do! host3 <- hostRegister g lhs1;
  extract host1 host2 host3 (u8 operation.(o_immediate)).

Definition emit_And (g : CodeGen) (operation : Operation) : M Assembler unit :=
  if width_is I32 operation then
    do! result1 <- deref operation.(o_result);
    do! host1 <- hostRegister g result1;
    do! lhs1 <- deref operation.(o_lhs);
    do! host2 <- hostRegister g lhs1;
    do! rhs1 <- deref operation.(o_rhs);
    do! host3 <- hostRegister g rhs1;
    bitAnd32 host1 host2 host3
  else
    do! result2 <- deref operation.(o_result);
    do! host4 <- hostRegister g result2;
    do! lhs2 <- deref operation.(o_lhs);
    do! host5 <- hostRegister g lhs2;
    do! rhs2 <- deref operation.(o_rhs);
    do! host6 <- hostRegister g rhs2;
    bitAnd host4 host5 host6.

Definition emit_Or (g : CodeGen) (operation : Operation) : M Assembler unit :=
  if width_is I32 operation then
    do! result1 <- deref operation.(o_result);
    do! host1 <- hostRegister g result1;
    do! lhs1 <- deref operation.(o_lhs);
    do! host2 <- hostRegister g lhs1;
    do! rhs1 <- deref operation.(o_rhs);
    do! host3 <- hostRegister g rhs1;
    bitOr32 host1 host2 host3
  else
    do! result2 <- deref operation.(o_result);
    do! host4 <- hostRegister g result2;
    do! lhs2 <- deref operation.(o_lhs);
    do! host5 <- hostRegister g lhs2;
    do! rhs2 <- deref operation.(o_rhs);
    do! host6 <- hostRegister g rhs2;
    bitOr host4 host5 host6.

Definition emit_Xor (g : CodeGen) (operation : Operation) : M Assembler unit :=
  if width_is I32 operation then
    do! result1 <- deref operation.(o_result);
    do! host1 <- hostRegister g result1;
    do! lhs1 <- deref operation.(o_lhs);
    do! host2 <- hostRegister g lhs1;
    do! rhs1 <- deref operation.(o_rhs);
    do! host3 <- hostRegister g rhs1;
    bitXor32 host1 host2 host3
  else
    do! result2 <- deref operation.(o_result);
    do! host4 <- hostRegister g result2;
    do! lhs2 <- deref operation.(o_lhs);
    do! host5 <- hostRegister g lhs2;
    do! rhs2 <- deref operation.(o_rhs);
    do! host6 <- hostRegister g rhs2;
    bitXor host4 host5 host6.

Definition emit_SignExtend32 (g : CodeGen) (operation : Operation) : M Assembler unit :=
  do! result1 <- deref operation.(o_result);
  do! host1 <- hostRegister g result1;
  do! lhs1 <- deref operation.(o_lhs);
  do! host2 <- hostRegister g lhs1;
  signExtend32 host1 host2.

Definition emit_ByteSwap (g : CodeGen) (operation : Operation) : M Assembler unit :=
  if width_is I32 operation then
    do! result1 <- deref operation.(o_result);
    do! host1 <- hostRegister g result1;
    do! lhs1 <- deref operation.(o_lhs);
    do! host2 <- hostRegister g lhs1;
    reverseBytes32 host1 host2
  else
    do! result2 <- deref operation.(o_result);
    do! host3 <- hostRegister g result2;
    do! lhs2 <- deref operation.(o_lhs);
    do! host4 <- hostRegister g lhs2;
    reverseBytes64 host3 host4.

Definition emitConditionTest (g : CodeGen) (operation : Operation) (carryFlagBit : Z) (zeroFlagBit : Z)
    (signFlagBit : Z) (overflowFlagBit : Z) (done : Z) (satisfied : Z) (destination : Z) : M Assembler unit :=
  movImmediate destination 0 ;;;
  ldr x16 x0 rflagsOffset ;;;
  do! condition1 <- deref operation.(o_condition);
  (if bool_decide (condition1 = Cond_Overflow) then
      tbz x16 overflowFlagBit done
  else if bool_decide (condition1 = Cond_NotOverflow) then
      tbnz x16 overflowFlagBit done
  else if bool_decide (condition1 = Cond_ParityEven) then
      let parityFlagBit := 2 in
      tbz x16 parityFlagBit done
  else if bool_decide (condition1 = Cond_ParityOdd) then
      let parityFlagBit := 2 in
      tbnz x16 parityFlagBit done
  else if bool_decide (condition1 = Cond_Equal) then
      tbz x16 zeroFlagBit done
  else if bool_decide (condition1 = Cond_NotEqual) then
      tbnz x16 zeroFlagBit done
  else if bool_decide (condition1 = Cond_Below) then
      tbz x16 carryFlagBit done
  else if bool_decide (condition1 = Cond_BelowOrEqual) then
      tbnz x16 carryFlagBit satisfied ;;;
      tbz x16 zeroFlagBit done
  else if bool_decide (condition1 = Cond_AboveOrEqual) then
      tbnz x16 carryFlagBit done
  else if bool_decide (condition1 = Cond_Above) then
      tbnz x16 carryFlagBit done ;;;
      tbnz x16 zeroFlagBit done
  else if bool_decide (condition1 = Cond_Sign) then
      tbz x16 signFlagBit done
  else if bool_decide (condition1 = Cond_NotSign) then
      tbnz x16 signFlagBit done
  else if bool_decide (condition1 = Cond_Less) then
      lsrImmediate x17 x16 4 ;;;
      bitXor x17 x16 x17 ;;;
      tbz x17 signFlagBit done
  else if bool_decide (condition1 = Cond_GreaterOrEqual) then
      lsrImmediate x17 x16 4 ;;;
      bitXor x17 x16 x17 ;;;
      tbnz x17 signFlagBit done
  else if bool_decide (condition1 = Cond_LessOrEqual) then
      tbnz x16 zeroFlagBit satisfied ;;;
      lsrImmediate x17 x16 4 ;;;
      bitXor x17 x16 x17 ;;;
      tbz x17 signFlagBit done
  else
      tbnz x16 zeroFlagBit done ;;;
      lsrImmediate x17 x16 4 ;;;
      bitXor x17 x16 x17 ;;;
      tbnz x17 signFlagBit done) ;;;
  bindLabel satisfied ;;;
  movImmediate destination 1 ;;;
  bindLabel done.

Definition emit_EvaluateCondition (g : CodeGen) (operation : Operation) (operationIndex : nat) : M Assembler unit :=
  do! condition1 <- deref operation.(o_condition);
  if negb (bool_decide (condition1 = Cond_Overflow)) && negb (bool_decide (condition1 = Cond_NotOverflow)) && negb
      (bool_decide (condition1 = Cond_ParityEven)) && negb (bool_decide (condition1 = Cond_ParityOdd)) && negb
      (bool_decide (condition1 = Cond_Equal)) && negb (bool_decide (condition1 = Cond_NotEqual)) && negb
      (bool_decide (condition1 = Cond_Below)) && negb (bool_decide (condition1 = Cond_BelowOrEqual)) && negb
      (bool_decide (condition1 = Cond_Less)) && negb (bool_decide (condition1 = Cond_Greater)) && negb (bool_decide
      (condition1 = Cond_GreaterOrEqual)) && negb (bool_decide (condition1 = Cond_LessOrEqual)) && negb
      (bool_decide (condition1 = Cond_AboveOrEqual)) && negb (bool_decide (condition1 = Cond_Above)) && negb
      (bool_decide (condition1 = Cond_Sign)) && negb (bool_decide (condition1 = Cond_NotSign)) then
    throw (runtime_error "ARM64 backend only implements overflow/not-overflow/parity/parity-odd/equality/below/below-or-equal/less/greater/greater-or-equal/less-or-equal/above-or-equal/above/sign/not-sign condition values")
  else
  let carryFlagBit := 0 in
  let zeroFlagBit := 6 in
  let signFlagBit := 7 in
  let overflowFlagBit := 11 in
  do! done <- makeLabel;
  do! satisfied <- makeLabel;
  do! result1 <- deref operation.(o_result);
  do! destination <- hostRegister g result1;
  if fuseZeroFlagConsumers g && consumesOnlyZeroFlag operation then
    do! source <- lift (zeroFlagSourceAt (g_block g) operationIndex);
    match source with
    | Some source' =>
        do! sourceRegister <- hostRegister g source'.(z_value);
        let compared := sourceRegister in
        do! compared <- (if bool_decide (source'.(z_width) = I64) then
            ret sourceRegister
        else
            let valueMask := if bool_decide (source'.(z_width) = I8) then 0xFF else if bool_decide
                (source'.(z_width) = I16) then 0xFFFF else UINT32_MAX in
            movImmediate x17 valueMask ;;;
            bitAnd x16 sourceRegister x17 ;;;
            ret x16);
        compareZero compared ;;;
        conditionalSet destination (if bool_decide (condition1 = Cond_Equal) then B_Equal else B_NotEqual)
    | None =>
        emitConditionTest g operation carryFlagBit zeroFlagBit signFlagBit overflowFlagBit done satisfied
            destination
    end
  else
    emitConditionTest g operation carryFlagBit zeroFlagBit signFlagBit overflowFlagBit done satisfied destination.

Definition emit_LoadFence (g : CodeGen) (operation : Operation) : M Assembler unit :=
  dmbIsh ;;;
  isb.

Definition emit_StoreFence (g : CodeGen) (operation : Operation) : M Assembler unit :=
  dmbIsh.

Definition emit_WriteDirectionFlag (g : CodeGen) (operation : Operation) : M Assembler unit :=
  ldr x16 x0 rflagsOffset ;;;
  movImmediate x17 (if negb (operation.(o_immediate) =? 0) then flagDirection else not64 flagDirection) ;;;
  (if negb (operation.(o_immediate) =? 0) then
      bitOr x16 x16 x17
  else
      bitAnd x16 x16 x17) ;;;
  str x16 x0 rflagsOffset.

Definition emitAddFlags (g : CodeGen) (operation : Operation) : M Assembler unit :=
  do! lhs1 <- deref operation.(o_lhs);
  do! lhs <- hostRegister g lhs1;
  do! rhs1 <- deref operation.(o_rhs);
  do! rhs <- hostRegister g rhs1;
  do! third1 <- deref operation.(o_third);
  do! result <- hostRegister g third1;
  do! carryDone <- makeLabel;
  do! parityDone <- makeLabel;
  do! auxiliaryDone <- makeLabel;
  do! zeroDone <- makeLabel;
  do! overflowDone <- makeLabel;
  let signBit := if width_is I8 operation then 7 else if width_is I16 operation then 15 else if width_is I32
      operation then 31 else 63 in
  (if width_is I64 operation then
      mov x1 lhs ;;;
      mov x2 rhs ;;;
      mov x3 result
  else
      let valueMask := if width_is I8 operation then 0xFF else if width_is I16 operation then 0xFFFF else
          UINT32_MAX in
      movImmediate x17 valueMask ;;;
      bitAnd x1 lhs x17 ;;;
      bitAnd x2 rhs x17 ;;;
      bitAnd x3 result x17) ;;;
  ldr x16 x0 rflagsOffset ;;;
  movImmediate x17 (not64 arithmeticFlagMask) ;;;
  bitAnd x16 x16 x17 ;;;
  movImmediate x17 flagReservedOne ;;;
  bitOr x16 x16 x17 ;;;
  compare x3 x1 ;;;
  bUnsignedHigherOrSame carryDone ;;;
  movImmediate x17 flagCarry ;;;
  bitOr x16 x16 x17 ;;;
  bindLabel carryDone ;;;
  mov x17 x3 ;;;
  bitXorShiftedRight x17 x17 x17 4 ;;;
  bitXorShiftedRight x17 x17 x17 2 ;;;
  bitXorShiftedRight x17 x17 x17 1 ;;;
  tbnz x17 0 parityDone ;;;
  movImmediate x17 flagParity ;;;
  bitOr x16 x16 x17 ;;;
  bindLabel parityDone ;;;
  bitXor x17 x1 x2 ;;;
  bitXor x17 x17 x3 ;;;
  tbz x17 4 auxiliaryDone ;;;
  movImmediate x17 flagAuxiliaryCarry ;;;
  bitOr x16 x16 x17 ;;;
  bindLabel auxiliaryDone ;;;
  cbnz x3 zeroDone ;;;
  movImmediate x17 flagZero ;;;
  bitOr x16 x16 x17 ;;;
  bindLabel zeroDone ;;;
  lsrImmediate x17 x3 (u8 signBit) ;;;
  bitOrShiftedLeft x16 x16 x17 7 ;;;
  bitXor x17 x1 x3 ;;;
  bitXor x1 x2 x3 ;;;
  bitAnd x17 x17 x1 ;;;
  tbz x17 (u8 signBit) overflowDone ;;;
  movImmediate x17 flagOverflow ;;;
  bitOr x16 x16 x17 ;;;
  bindLabel overflowDone ;;;
  str x16 x0 rflagsOffset.

Definition emitSubFlags8 (g : CodeGen) (operation : Operation) : M Assembler unit :=
  do! lhs1 <- deref operation.(o_lhs);
  do! lhs <- hostRegister g lhs1;
  do! rhs1 <- deref operation.(o_rhs);
  do! rhs <- hostRegister g rhs1;
  do! third1 <- deref operation.(o_third);
  do! result <- hostRegister g third1;
  do! carryDone <- makeLabel;
  do! parityDone <- makeLabel;
  do! auxiliaryDone <- makeLabel;
  do! zeroDone <- makeLabel;
  do! overflowDone <- makeLabel;
  movImmediate x17 0xFF ;;;
  bitAnd x1 lhs x17 ;;;
  bitAnd x2 rhs x17 ;;;
  bitAnd x3 result x17 ;;;
  ldr x16 x0 rflagsOffset ;;;
  movImmediate x17 (not64 arithmeticFlagMask) ;;;
  bitAnd x16 x16 x17 ;;;
  movImmediate x17 flagReservedOne ;;;
  bitOr x16 x16 x17 ;;;
  compare x1 x2 ;;;
  bUnsignedHigherOrSame carryDone ;;;
  movImmediate x17 flagCarry ;;;
  bitOr x16 x16 x17 ;;;
  bindLabel carryDone ;;;
  mov x17 x3 ;;;
  bitXorShiftedRight x17 x17 x17 4 ;;;
  bitXorShiftedRight x17 x17 x17 2 ;;;
  bitXorShiftedRight x17 x17 x17 1 ;;;
  tbnz x17 0 parityDone ;;;
  movImmediate x17 flagParity ;;;
  bitOr x16 x16 x17 ;;;
  bindLabel parityDone ;;;
  bitXor x17 x1 x2 ;;;
  bitXor x17 x17 x3 ;;;
  tbz x17 4 auxiliaryDone ;;;
  movImmediate x17 flagAuxiliaryCarry ;;;
  bitOr x16 x16 x17 ;;;
  bindLabel auxiliaryDone ;;;
  cbnz x3 zeroDone ;;;
  movImmediate x17 flagZero ;;;
  bitOr x16 x16 x17 ;;;
  bindLabel zeroDone ;;;
  lsrImmediate x17 x3 7 ;;;
  bitOrShiftedLeft x16 x16 x17 7 ;;;
  bitXor x17 x1 x2 ;;;
  bitXor x1 x1 x3 ;;;
  bitAnd x17 x17 x1 ;;;
  tbz x17 7 overflowDone ;;;
  movImmediate x17 flagOverflow ;;;
  bitOr x16 x16 x17 ;;;
  bindLabel overflowDone ;;;
  str x16 x0 rflagsOffset.

Definition emit_UpdateAddFlags (g : CodeGen) (operation : Operation) : M Assembler unit :=
  if opcode_is Op_UpdateAddFlags operation then
    emitAddFlags g operation
  else if opcode_is Op_UpdateSubFlags operation && width_is I8 operation then
    emitSubFlags8 g operation
  else if opcode_is Op_UpdateSubFlags operation && width_is I64 operation then
    do! lhs1 <- deref operation.(o_lhs);
    do! host1 <- hostRegister g lhs1;
    do! rhs1 <- deref operation.(o_rhs);
    do! host2 <- hostRegister g rhs1;
    do! third1 <- deref operation.(o_third);
    do! host3 <- hostRegister g third1;
    emitSubFlags64 g host1 host2 host3
  else
  do! lhs2 <- deref operation.(o_lhs);
  do! host4 <- hostRegister g lhs2;
  mov x1 host4 ;;;
  do! rhs2 <- deref operation.(o_rhs);
  do! host5 <- hostRegister g rhs2;
  mov x2 host5 ;;;
  do! third2 <- deref operation.(o_third);
  do! host6 <- hostRegister g third2;
  mov x3 host6 ;;;
  (if opcode_is Op_UpdateAddFlags operation then
      movImmediate_pointer x16 (if width_is I8 operation then g_pointer g "updateAddFlags8"%string else if width_is
          I16 operation then g_pointer g "updateAddFlags16"%string else if width_is I32 operation then g_pointer g
          "updateAddFlags32"%string else g_pointer g "updateAddFlags64"%string)
  else
      movImmediate_pointer x16 (if width_is I8 operation then g_pointer g "updateSubFlags8"%string else if width_is
          I16 operation then g_pointer g "updateSubFlags16"%string else if width_is I32 operation then g_pointer g
          "updateSubFlags32"%string else g_pointer g "updateSubFlags64"%string)) ;;;
  blr x16.

Definition emit_UpdateAdcFlags (g : CodeGen) (operation : Operation) : M Assembler unit :=
  do! lhs1 <- deref operation.(o_lhs);
  do! host1 <- hostRegister g lhs1;
  mov x1 host1 ;;;
  do! rhs1 <- deref operation.(o_rhs);
  do! host2 <- hostRegister g rhs1;
  mov x2 host2 ;;;
  do! third1 <- deref operation.(o_third);
  do! host3 <- hostRegister g third1;
  mov x3 host3 ;;;
  movImmediate_pointer x16 (if width_is I8 operation then g_pointer g "updateAdcFlags8"%string else if width_is I32
      operation then g_pointer g "updateAdcFlags32"%string else g_pointer g "updateAdcFlags64"%string) ;;;
  blr x16.

Definition emit_UpdateSbbFlags (g : CodeGen) (operation : Operation) : M Assembler unit :=
  do! lhs1 <- deref operation.(o_lhs);
  do! host1 <- hostRegister g lhs1;
  mov x1 host1 ;;;
  do! rhs1 <- deref operation.(o_rhs);
  do! host2 <- hostRegister g rhs1;
  mov x2 host2 ;;;
  do! third1 <- deref operation.(o_third);
  do! host3 <- hostRegister g third1;
  mov x3 host3 ;;;
  movImmediate_pointer x16 (if width_is I8 operation then g_pointer g "updateSbbFlags8"%string else if width_is I16
      operation then g_pointer g "updateSbbFlags16"%string else if width_is I32 operation then g_pointer g
      "updateSbbFlags32"%string else g_pointer g "updateSbbFlags64"%string) ;;;
  blr x16.

Definition emit_UpdateIncFlags (g : CodeGen) (operation : Operation) : M Assembler unit :=
  do! lhs1 <- deref operation.(o_lhs);
  do! host1 <- hostRegister g lhs1;
  mov x1 host1 ;;;
  do! rhs1 <- deref operation.(o_rhs);
  do! host2 <- hostRegister g rhs1;
  mov x2 host2 ;;;
  movImmediate_pointer x16 (if width_is I8 operation then g_pointer g "updateIncFlags8"%string else if width_is I16
      operation then g_pointer g "updateIncFlags16"%string else if width_is I32 operation then g_pointer g
      "updateIncFlags32"%string else g_pointer g "updateIncFlags64"%string) ;;;
  blr x16.

Definition emit_UpdateDecFlags (g : CodeGen) (operation : Operation) : M Assembler unit :=
  if width_is I64 operation then
    do! lhs1 <- deref operation.(o_lhs);
    do! original <- hostRegister g lhs1;
    do! rhs1 <- deref operation.(o_rhs);
    do! result <- hostRegister g rhs1;
    do! parityDone <- makeLabel;
    do! auxiliaryDone <- makeLabel;
    do! zeroDone <- makeLabel;
    ldr x16 x0 rflagsOffset ;;;
    movImmediate x17 (not64 (Z.land arithmeticFlagMask (not64 flagCarry))) ;;;
    bitAnd x16 x16 x17 ;;;
    movImmediate x17 flagReservedOne ;;;
    bitOr x16 x16 x17 ;;;
    mov x17 result ;;;
    bitXorShiftedRight x17 x17 x17 4 ;;;
    bitXorShiftedRight x17 x17 x17 2 ;;;
    bitXorShiftedRight x17 x17 x17 1 ;;;
    tbnz x17 0 parityDone ;;;
    movImmediate x17 flagParity ;;;
    bitOr x16 x16 x17 ;;;
    bindLabel parityDone ;;;
    bitXor x17 original result ;;;
    tbz x17 4 auxiliaryDone ;;;
    movImmediate x17 flagAuxiliaryCarry ;;;
    bitOr x16 x16 x17 ;;;
    bindLabel auxiliaryDone ;;;
    cbnz result zeroDone ;;;
    movImmediate x17 flagZero ;;;
    bitOr x16 x16 x17 ;;;
    bindLabel zeroDone ;;;
    lsrImmediate x17 result 63 ;;;
    bitOrShiftedLeft x16 x16 x17 7 ;;;
    movImmediate x17 (Z.shiftl 1 63) ;;;
    compare original x17 ;;;
    movImmediate x17 flagOverflow ;;;
    bitOr x17 x16 x17 ;;;
    conditionalSelectEqual x16 x17 x16 ;;;
    str x16 x0 rflagsOffset
  else
    do! lhs2 <- deref operation.(o_lhs);
    do! host3 <- hostRegister g lhs2;
    mov x1 host3 ;;;
    do! rhs2 <- deref operation.(o_rhs);
    do! host4 <- hostRegister g rhs2;
    mov x2 host4 ;;;
    movImmediate_pointer x16 (if width_is I8 operation then g_pointer g "updateDecFlags8"%string else if width_is
        I16 operation then g_pointer g "updateDecFlags16"%string else g_pointer g "updateDecFlags32"%string) ;;;
    blr x16.

Definition emit_UpdateLogicFlags (g : CodeGen) (operation : Operation) : M Assembler unit :=
  do! lhs1 <- deref operation.(o_lhs);
  do! host1 <- hostRegister g lhs1;
  emitLogicFlags g host1 operation.(o_width).

Definition emit_UpdateShiftLeftFlags (g : CodeGen) (operation : Operation) : M Assembler unit :=
  do! lhs1 <- deref operation.(o_lhs);
  do! host1 <- hostRegister g lhs1;
  mov x1 host1 ;;;
  do! rhs1 <- deref operation.(o_rhs);
  do! host2 <- hostRegister g rhs1;
  mov x2 host2 ;;;
  (match operation.(o_third) with
  | Some third' =>
      do! host3 <- hostRegister g third';
      mov x3 host3
  | None =>
      movImmediate x3 operation.(o_immediate)
  end) ;;;
  movImmediate_pointer x16 (if width_is I8 operation then g_pointer g "updateShiftLeftFlags8"%string else if
      width_is I32 operation then g_pointer g "updateShiftLeftFlags32"%string else g_pointer g
      "updateShiftLeftFlags64"%string) ;;;
  blr x16.

Definition emit_UpdateShiftRightFlags (g : CodeGen) (operation : Operation) : M Assembler unit :=
  do! lhs1 <- deref operation.(o_lhs);
  do! host1 <- hostRegister g lhs1;
  mov x1 host1 ;;;
  do! rhs1 <- deref operation.(o_rhs);
  do! host2 <- hostRegister g rhs1;
  mov x2 host2 ;;;
  (match operation.(o_third) with
  | Some third' =>
      do! host3 <- hostRegister g third';
      mov x3 host3
  | None =>
      movImmediate x3 operation.(o_immediate)
  end) ;;;
  movImmediate_pointer x16 (if width_is I8 operation then g_pointer g "updateShiftRightFlags8"%string else if
      width_is I32 operation then g_pointer g "updateShiftRightFlags32"%string else g_pointer g
      "updateShiftRightFlags64"%string) ;;;
  blr x16.

Definition emit_UpdateShiftRightArithmeticFlags (g : CodeGen) (operation : Operation) : M Assembler unit :=
  do! lhs1 <- deref operation.(o_lhs);
  do! host1 <- hostRegister g lhs1;
  mov x1 host1 ;;;
  do! rhs1 <- deref operation.(o_rhs);
  do! host2 <- hostRegister g rhs1;
  mov x2 host2 ;;;
  (match operation.(o_third) with
  | Some third' =>
      do! host3 <- hostRegister g third';
      mov x3 host3
  | None =>
      movImmediate x3 operation.(o_immediate)
  end) ;;;
  movImmediate_pointer x16 (if width_is I32 operation then g_pointer g "updateShiftRightArithmeticFlags32"%string
      else g_pointer g "updateShiftRightArithmeticFlags64"%string) ;;;
  blr x16.

Definition emit_UpdateRotateLeftFlags (g : CodeGen) (operation : Operation) : M Assembler unit :=
  do! lhs1 <- deref operation.(o_lhs);
  do! host1 <- hostRegister g lhs1;
  mov x1 host1 ;;;
  (match operation.(o_rhs) with
  | Some rhs' =>
      do! host2 <- hostRegister g rhs';
      mov x2 host2
  | None =>
      movImmediate x2 operation.(o_immediate)
  end) ;;;
  movImmediate_pointer x16 (if width_is I16 operation then g_pointer g "updateRotateLeftFlags16"%string else if
      width_is I32 operation then g_pointer g "updateRotateLeftFlags32"%string else g_pointer g
      "updateRotateLeftFlags64"%string) ;;;
  blr x16.

Definition emit_UpdateRotateRightFlags (g : CodeGen) (operation : Operation) : M Assembler unit :=
  do! lhs1 <- deref operation.(o_lhs);
  do! host1 <- hostRegister g lhs1;
  mov x1 host1 ;;;
  (match operation.(o_rhs) with
  | Some rhs' =>
      do! host2 <- hostRegister g rhs';
      mov x2 host2
  | None =>
      movImmediate x2 operation.(o_immediate)
  end) ;;;
  movImmediate_pointer x16 (if width_is I32 operation then g_pointer g "updateRotateRightFlags32"%string else
      g_pointer g "updateRotateRightFlags64"%string) ;;;
  blr x16.

Definition emit_UpdateMultiplyFlags (g : CodeGen) (operation : Operation) : M Assembler unit :=
  do! lhs1 <- deref operation.(o_lhs);
  do! host1 <- hostRegister g lhs1;
  mov x1 host1 ;;;
  movImmediate_pointer x16 (g_pointer g "updateMultiplyFlags64"%string) ;;;
  blr x16.

Definition emit_UpdateSignedMultiplyFlags (g : CodeGen) (operation : Operation) : M Assembler unit :=
  do! lhs1 <- deref operation.(o_lhs);
  do! host1 <- hostRegister g lhs1;
  mov x1 host1 ;;;
  do! rhs1 <- deref operation.(o_rhs);
  do! host2 <- hostRegister g rhs1;
  mov x2 host2 ;;;
  movImmediate_pointer x16 (if width_is I32 operation then g_pointer g "updateSignedMultiplyFlags32"%string else
      g_pointer g "updateSignedMultiplyFlags64"%string) ;;;
  blr x16.

Definition emit_UpdateShiftRightDoubleFlags (g : CodeGen) (operation : Operation) : M Assembler unit :=
  do! lhs1 <- deref operation.(o_lhs);
  do! host1 <- hostRegister g lhs1;
  mov x1 host1 ;;;
  do! rhs1 <- deref operation.(o_rhs);
  do! host2 <- hostRegister g rhs1;
  mov x2 host2 ;;;
  movImmediate x3 operation.(o_immediate) ;;;
  movImmediate_pointer x16 (g_pointer g "updateShiftRightDoubleFlags64"%string) ;;;
  blr x16.

Definition emit_UpdateBitTestFlags (g : CodeGen) (operation : Operation) : M Assembler unit :=
  do! lhs1 <- deref operation.(o_lhs);
  do! host1 <- hostRegister g lhs1;
  mov x1 host1 ;;;
  movImmediate x2 operation.(o_immediate) ;;;
  movImmediate_pointer x16 (if width_is I64 operation then g_pointer g "updateBitTestFlags64"%string else g_pointer
      g "updateBitTestFlags32"%string) ;;;
  blr x16.

Definition emitDeferredExitTest (g : CodeGen) (operation : Operation) (notTaken : Z) (deferredExitUpdate' : nat) :
    M Assembler unit :=
  do! update <- lift (operation_at (g_block g) deferredExitUpdate');
  do! lhs1 <- deref update.(o_lhs);
  do! host1 <- hostRegister g lhs1;
  do! rhs1 <- deref update.(o_rhs);
  do! host2 <- hostRegister g rhs1;
  compare host1 host2 ;;;
  do! condition1 <- deref operation.(o_condition);
  match condition1 with
  | Cond_Overflow =>
      bConditional B_NoOverflow notTaken
  | Cond_NotOverflow =>
      bConditional B_Overflow notTaken
  | Cond_ParityEven | Cond_ParityOdd =>
      throw (runtime_error "ARM64 backend cannot test parity from deferred NZCV")
  | Cond_Equal =>
      bConditional B_NotEqual notTaken
  | Cond_NotEqual =>
      bConditional B_Equal notTaken
  | Cond_Below =>
      bConditional B_UnsignedHigherOrSame notTaken
  | Cond_AboveOrEqual =>
      bConditional B_UnsignedLower notTaken
  | Cond_Above =>
      bConditional B_UnsignedLowerOrSame notTaken
  | Cond_BelowOrEqual =>
      bConditional B_UnsignedHigher notTaken
  | Cond_Sign =>
      bConditional B_NonNegative notTaken
  | Cond_NotSign =>
      bConditional B_Negative notTaken
  | Cond_Less =>
      bConditional B_SignedGreaterOrEqual notTaken
  | Cond_GreaterOrEqual =>
      bConditional B_SignedLess notTaken
  | Cond_LessOrEqual =>
      bConditional B_SignedGreater notTaken
  | Cond_Greater =>
      bConditional B_SignedLessOrEqual notTaken
  end.

Definition emitExitTest (g : CodeGen) (operation : Operation) (zeroFlagBit : Z) (carryFlagBit : Z) (signFlagBit :
    Z) (overflowFlagBit : Z) (notTaken : Z) (taken : Z) : M Assembler unit :=
  ldr x16 x0 rflagsOffset ;;;
  do! condition1 <- deref operation.(o_condition);
  if bool_decide (condition1 = Cond_Overflow) then
    tbz x16 overflowFlagBit notTaken
  else if bool_decide (condition1 = Cond_NotOverflow) then
    tbnz x16 overflowFlagBit notTaken
  else if bool_decide (condition1 = Cond_ParityEven) then
    let parityFlagBit := 2 in
    tbz x16 parityFlagBit notTaken
  else if bool_decide (condition1 = Cond_ParityOdd) then
    let parityFlagBit := 2 in
    tbnz x16 parityFlagBit notTaken
  else if bool_decide (condition1 = Cond_Equal) then
    tbz x16 zeroFlagBit notTaken
  else if bool_decide (condition1 = Cond_NotEqual) then
    tbnz x16 zeroFlagBit notTaken
  else if bool_decide (condition1 = Cond_Below) then
    tbz x16 carryFlagBit notTaken
  else if bool_decide (condition1 = Cond_AboveOrEqual) then
    tbnz x16 carryFlagBit notTaken
  else if bool_decide (condition1 = Cond_Above) then
    tbnz x16 carryFlagBit notTaken ;;;
    tbnz x16 zeroFlagBit notTaken
  else if bool_decide (condition1 = Cond_BelowOrEqual) then
    tbnz x16 carryFlagBit taken ;;;
    tbz x16 zeroFlagBit notTaken
  else if bool_decide (condition1 = Cond_Sign) then
    tbz x16 signFlagBit notTaken
  else if bool_decide (condition1 = Cond_NotSign) then
    tbnz x16 signFlagBit notTaken
  else if bool_decide (condition1 = Cond_Less) then
    lsrImmediate x17 x16 4 ;;;
    bitXor x17 x16 x17 ;;;
    tbz x17 signFlagBit notTaken
  else if bool_decide (condition1 = Cond_GreaterOrEqual) then
    lsrImmediate x17 x16 4 ;;;
    bitXor x17 x16 x17 ;;;
    tbnz x17 signFlagBit notTaken
  else if bool_decide (condition1 = Cond_Greater) then
    tbnz x16 zeroFlagBit notTaken ;;;
    lsrImmediate x17 x16 4 ;;;
    bitXor x17 x16 x17 ;;;
    tbnz x17 signFlagBit notTaken
  else if bool_decide (condition1 = Cond_LessOrEqual) then
    tbnz x16 zeroFlagBit taken ;;;
    lsrImmediate x17 x16 4 ;;;
    bitXor x17 x16 x17 ;;;
    tbz x17 signFlagBit notTaken
  else
    throw (runtime_error "ARM64 backend received unsupported branch condition").

Definition emitInternalConditionalExit (g : CodeGen) (operation : Operation) (directWriteFastEntry : option Z)
    (directReadFastEntry : option Z) (notTaken : Z) (taken : Z) : M Assembler unit :=
  do! returnSelf <- makeLabel;
  do! returnSelected <- makeLabel;
  let emitSelfEdge : M Assembler unit :=
    cbz x23 returnSelf ;;;
    (match directWriteFastEntry with
    | Some directWriteFastEntry' =>
        cbnz x4 directWriteFastEntry'
    | None =>
        ret tt
    end) ;;;
    (match directReadFastEntry with
    | Some directReadFastEntry' =>
        do! checkedEntry <- makeLabel;
        cbz x4 checkedEntry ;;;
        do! directReadSpan1 <- deref (directReadSpan g);
        addImmediate x3 x3 directReadSpan1.(dr_step) ;;;
        b directReadFastEntry' ;;;
        bindLabel checkedEntry
    | None =>
        ret tt
    end) ;;;
    emitStopRepeatingCheck g returnSelf ;;;
    b repeatedEntry in
  let emitSideExit (address : Z) : M Assembler unit :=
    movImmediate x16 address ;;;
    b returnSelected in
  bindLabel taken ;;;
  do! target1 <- deref operation.(o_target);
  (if target1 =? b_start (g_block g) then
      emitSelfEdge
  else
      emitSideExit target1) ;;;
  bindLabel notTaken ;;;
  do! fallthrough1 <- deref operation.(o_fallthrough);
  (if fallthrough1 =? b_start (g_block g) then
      emitSelfEdge
  else
      emitSideExit fallthrough1) ;;;
  bindLabel returnSelf ;;;
  (match pinnedLoopConstant g with
  | Some _ =>
      movImmediate x16 (b_start (g_block g))
  | None =>
      mov x16 x24
  end) ;;;
  bindLabel returnSelected ;;;
  str x16 x0 ripOffset ;;;
  (match deferredExitUpdate g with
  | Some deferredExitUpdate' =>
      do! update <- lift (operation_at (g_block g) deferredExitUpdate');
      (match deferredExitResultOperation g with
      | Some _ =>
          do! third1 <- deref update.(o_third);
          do! host1 <- hostRegister g third1;
          do! lhs1 <- deref update.(o_lhs);
          do! host2 <- hostRegister g lhs1;
          do! rhs1 <- deref update.(o_rhs);
          do! host3 <- hostRegister g rhs1;
          sub host1 host2 host3
      | None =>
          ret tt
      end) ;;;
      do! lhs2 <- deref update.(o_lhs);
      do! host4 <- hostRegister g lhs2;
      do! rhs2 <- deref update.(o_rhs);
      do! host5 <- hostRegister g rhs2;
      do! third2 <- deref update.(o_third);
      do! host6 <- hostRegister g third2;
      emitSubFlags64 g host4 host5 host6
  | None =>
      ret tt
  end) ;;;
  emitEpilogue g ;;;
  movImmediate x0 BlockExit_Continue ;;;
  emitRet.

Definition emitRepeatDirect (g : CodeGen) : M Assembler unit :=
  do! returnToDispatcher <- makeLabel;
  subImmediate x23 x23 1 ;;;
  cbz x23 returnToDispatcher ;;;
  emitStopRepeatingCheck g returnToDispatcher ;;;
  (match pinnedLoopConstant g with
  | Some _ =>
      movImmediate x1 (b_start (g_block g)) ;;;
      bitXor x1 x16 x1
  | None =>
      bitXor x1 x16 x24
  end) ;;;
  cbnz x1 returnToDispatcher ;;;
  b repeatedEntry ;;;
  bindLabel returnToDispatcher ;;;
  match deferredExitUpdate g with
  | Some deferredExitUpdate' =>
      do! update <- lift (operation_at (g_block g) deferredExitUpdate');
      (match deferredExitResultOperation g with
      | Some _ =>
          do! third1 <- deref update.(o_third);
          do! host1 <- hostRegister g third1;
          do! lhs1 <- deref update.(o_lhs);
          do! host2 <- hostRegister g lhs1;
          do! rhs1 <- deref update.(o_rhs);
          do! host3 <- hostRegister g rhs1;
          sub host1 host2 host3
      | None =>
          ret tt
      end) ;;;
      do! lhs2 <- deref update.(o_lhs);
      do! host4 <- hostRegister g lhs2;
      do! rhs2 <- deref update.(o_rhs);
      do! host5 <- hostRegister g rhs2;
      do! third2 <- deref update.(o_third);
      do! host6 <- hostRegister g third2;
      emitSubFlags64 g host4 host5 host6
  | None =>
      ret tt
  end.

Definition emit_ExitBlock (g : CodeGen) (operation : Operation) (directWriteFastEntry directReadFastEntry : option
    Z) : M Assembler unit :=
  let exit := BlockExit_Continue in
  let emittedInternalConditionalExit := false in
  do! (exit, emittedInternalConditionalExit) <- (match operation.(o_exitKind) with
  | Exit_Return =>
      movImmediate x16 operation.(o_guestRip) ;;;
      let exit := BlockExit_Return in
      ret (exit, emittedInternalConditionalExit)
  | Exit_Direct =>
      (match operation.(o_lhs) with
      | Some lhs' =>
          do! host1 <- hostRegister g lhs';
          mov x16 host1
      | None =>
          do! target1 <- deref operation.(o_target);
          movImmediate x16 target1
      end) ;;;
      ret (exit, emittedInternalConditionalExit)
  | Exit_Call =>
      (match operation.(o_lhs) with
      | Some lhs' =>
          do! host2 <- hostRegister g lhs';
          mov x16 host2
      | None =>
          do! target2 <- deref operation.(o_target);
          movImmediate x16 target2
      end) ;;;
      let exit := BlockExit_Call in
      ret (exit, emittedInternalConditionalExit)
  | Exit_Syscall =>
      do! target3 <- deref operation.(o_target);
      movImmediate x16 target3 ;;;
      str x16 x0 (registerOffset Rcx) ;;;
      ldr x17 x0 rflagsOffset ;;;
      str x17 x0 (registerOffset R11) ;;;
      let exit := BlockExit_Syscall in
      ret (exit, emittedInternalConditionalExit)
  | Exit_Conditional =>
      let zeroFlagBit := 6 in
      let carryFlagBit := 0 in
      let signFlagBit := 7 in
      let overflowFlagBit := 11 in
      do! notTaken <- makeLabel;
      do! taken <- makeLabel;
      do! selected <- makeLabel;
      (if internalSelfEdge g then
          subImmediate x23 x23 1
      else
          ret tt) ;;;
      (match deferredExitUpdate g with
      | Some deferredExitUpdate' =>
          emitDeferredExitTest g operation notTaken deferredExitUpdate'
      | None =>
          emitExitTest g operation zeroFlagBit carryFlagBit signFlagBit overflowFlagBit notTaken taken
      end) ;;;
      if internalSelfEdge g then
        emitInternalConditionalExit g operation directWriteFastEntry directReadFastEntry notTaken taken ;;;
        let emittedInternalConditionalExit := true in
        ret (exit, emittedInternalConditionalExit)
      else
      bindLabel taken ;;;
      do! target4 <- deref operation.(o_target);
      movImmediate x16 target4 ;;;
      b selected ;;;
      bindLabel notTaken ;;;
      do! fallthrough1 <- deref operation.(o_fallthrough);
      movImmediate x16 fallthrough1 ;;;
      bindLabel selected ;;;
      ret (exit, emittedInternalConditionalExit)
  end);
  if emittedInternalConditionalExit then
    ret tt
  else
  str x16 x0 ripOffset ;;;
  (if internalSelfEdge g && (exit =? BlockExit_Continue) then
      emitRepeatDirect g
  else
      ret tt) ;;;
  emitEpilogue g ;;;
  movImmediate x0 exit ;;;
  emitRet.
