(* ===== verification/BackendMemory.v ===== *)
(** The code generator for guest memory, vectors and the other runtime helpers: the remaining
    cases of the switch of [compile] ([src/arm64/Backend.cpp]), one definition per opcode.  A
    helper is called through its address ([g_pointer]) with its arguments in [x0] and up. *)
From S2P Require Import Prelude X86State ExecutionContext Assembler IR IRVerify Optimization BackendAnalysis BackendPlan BackendBase BackendScalar.

Definition emit_Push (g : CodeGen) (operation : Operation) : M Assembler unit :=
  do! fault <- makeLabel;
  do! committed <- makeLabel;
  mov x4 x0 ;;;
  mov x1 x4 ;;;
  do! lhs1 <- deref operation.(o_lhs);
  do! host1 <- hostRegister g lhs1;
  mov x2 host1 ;;;
  do! rhs1 <- deref operation.(o_rhs);
  do! host2 <- hostRegister g rhs1;
  mov x3 host2 ;;;
  mov x0 x19 ;;;
  movImmediate_pointer x16 (g_pointer g "commitPush64"%string) ;;;
  blr x16 ;;;
  cbz x0 fault ;;;
  b committed ;;;
  bindLabel fault ;;;
  emitFaultExit g BlockExit_MemoryFault operation.(o_guestRip) ;;;
  bindLabel committed.

Definition emit_RepeatMoveByte (g : CodeGen) (operation : Operation) : M Assembler unit :=
  do! fault <- makeLabel;
  do! completed <- makeLabel;
  mov x1 x0 ;;;
  mov x0 x19 ;;;
  movImmediate_pointer x16 (g_pointer g "repeatMoveByte"%string) ;;;
  blr x16 ;;;
  cbz x0 fault ;;;
  b completed ;;;
  bindLabel fault ;;;
  emitFaultExit g BlockExit_MemoryFault operation.(o_guestRip) ;;;
  bindLabel completed.

Definition emit_RepeatStore (g : CodeGen) (operation : Operation) : M Assembler unit :=
  do! fault <- makeLabel;
  do! completed <- makeLabel;
  mov x1 x0 ;;;
  movImmediate x2 (if width_is I8 operation then 1 else if width_is I16 operation then 2 else if width_is I32
      operation then 4 else 8) ;;;
  mov x0 x19 ;;;
  movImmediate_pointer x16 (g_pointer g "repeatStore"%string) ;;;
  blr x16 ;;;
  cbz x0 fault ;;;
  b completed ;;;
  bindLabel fault ;;;
  emitFaultExit g BlockExit_MemoryFault operation.(o_guestRip) ;;;
  bindLabel completed.

Definition emit_DivideUnsignedByte (g : CodeGen) (operation : Operation) : M Assembler unit :=
  do! fault <- makeLabel;
  do! completed <- makeLabel;
  mov x1 x0 ;;;
  do! lhs1 <- deref operation.(o_lhs);
  do! host1 <- hostRegister g lhs1;
  mov x2 host1 ;;;
  mov x0 x19 ;;;
  movImmediate_pointer x16 (g_pointer g "divideUnsignedByte"%string) ;;;
  blr x16 ;;;
  cbz x0 fault ;;;
  b completed ;;;
  bindLabel fault ;;;
  emitFaultExit g BlockExit_ExecutionFault operation.(o_guestRip) ;;;
  bindLabel completed.

Definition emit_DivideUnsignedDword (g : CodeGen) (operation : Operation) : M Assembler unit :=
  do! fault <- makeLabel;
  do! completed <- makeLabel;
  mov x1 x0 ;;;
  do! lhs1 <- deref operation.(o_lhs);
  do! host1 <- hostRegister g lhs1;
  mov x2 host1 ;;;
  mov x0 x19 ;;;
  movImmediate_pointer x16 (g_pointer g "divideUnsignedDword"%string) ;;;
  blr x16 ;;;
  cbz x0 fault ;;;
  b completed ;;;
  bindLabel fault ;;;
  emitFaultExit g BlockExit_ExecutionFault operation.(o_guestRip) ;;;
  bindLabel completed.

Definition emit_DivideSignedDword (g : CodeGen) (operation : Operation) : M Assembler unit :=
  do! fault <- makeLabel;
  do! completed <- makeLabel;
  mov x1 x0 ;;;
  do! lhs1 <- deref operation.(o_lhs);
  do! host1 <- hostRegister g lhs1;
  mov x2 host1 ;;;
  mov x0 x19 ;;;
  movImmediate_pointer x16 (g_pointer g "divideSignedDword"%string) ;;;
  blr x16 ;;;
  cbz x0 fault ;;;
  b completed ;;;
  bindLabel fault ;;;
  emitFaultExit g BlockExit_ExecutionFault operation.(o_guestRip) ;;;
  bindLabel completed.

Definition emit_DivideUnsignedQword (g : CodeGen) (operation : Operation) : M Assembler unit :=
  do! fault <- makeLabel;
  do! completed <- makeLabel;
  mov x1 x0 ;;;
  do! lhs1 <- deref operation.(o_lhs);
  do! host1 <- hostRegister g lhs1;
  mov x2 host1 ;;;
  mov x0 x19 ;;;
  movImmediate_pointer x16 (g_pointer g "divideUnsignedQword"%string) ;;;
  blr x16 ;;;
  cbz x0 fault ;;;
  b completed ;;;
  bindLabel fault ;;;
  emitFaultExit g BlockExit_ExecutionFault operation.(o_guestRip) ;;;
  bindLabel completed.

Definition emit_AddGuestMemory (g : CodeGen) (operation : Operation) : M Assembler unit :=
  if negb (width_is I8 operation) && negb (width_is I16 operation) && negb (width_is I32 operation) && negb
      (width_is I64 operation) then
    throw (runtime_error "ARM64 backend only implements 8-, 16-, 32-, or 64-bit guest memory add")
  else
  do! fault <- makeLabel;
  do! committed <- makeLabel;
  mov x4 x0 ;;;
  mov x1 x4 ;;;
  do! lhs1 <- deref operation.(o_lhs);
  do! host1 <- hostRegister g lhs1;
  mov x2 host1 ;;;
  do! rhs1 <- deref operation.(o_rhs);
  do! host2 <- hostRegister g rhs1;
  mov x3 host2 ;;;
  mov x0 x19 ;;;
  movImmediate_pointer x16 (if width_is I8 operation then g_pointer g "addGuest8"%string else if width_is I16
      operation then g_pointer g "addGuest16"%string else if width_is I32 operation then g_pointer g
      "addGuest32"%string else g_pointer g "addGuest64"%string) ;;;
  blr x16 ;;;
  cbz x0 fault ;;;
  b committed ;;;
  bindLabel fault ;;;
  emitFaultExit g BlockExit_MemoryFault operation.(o_guestRip) ;;;
  bindLabel committed.

Definition emit_SubGuestMemory (g : CodeGen) (operation : Operation) : M Assembler unit :=
  if negb (width_is I8 operation) && negb (width_is I32 operation) && negb (width_is I64 operation) then
    throw (runtime_error "ARM64 backend only implements 8-, 32-, or 64-bit guest memory subtract")
  else
  do! fault <- makeLabel;
  do! committed <- makeLabel;
  mov x4 x0 ;;;
  mov x1 x4 ;;;
  do! lhs1 <- deref operation.(o_lhs);
  do! host1 <- hostRegister g lhs1;
  mov x2 host1 ;;;
  do! rhs1 <- deref operation.(o_rhs);
  do! host2 <- hostRegister g rhs1;
  mov x3 host2 ;;;
  mov x0 x19 ;;;
  movImmediate_pointer x16 (if width_is I8 operation then g_pointer g "subGuest8"%string else if width_is I32
      operation then g_pointer g "subGuest32"%string else g_pointer g "subGuest64"%string) ;;;
  blr x16 ;;;
  cbz x0 fault ;;;
  b committed ;;;
  bindLabel fault ;;;
  emitFaultExit g BlockExit_MemoryFault operation.(o_guestRip) ;;;
  bindLabel committed.

Definition emit_OrGuestMemory (g : CodeGen) (operation : Operation) : M Assembler unit :=
  if negb (width_is I8 operation) && negb (width_is I16 operation) && negb (width_is I32 operation) && negb
      (width_is I64 operation) then
    throw (runtime_error "ARM64 backend only implements 8-, 16-, 32-, or 64-bit guest memory OR")
  else
  do! fault <- makeLabel;
  do! committed <- makeLabel;
  mov x4 x0 ;;;
  mov x1 x4 ;;;
  do! lhs1 <- deref operation.(o_lhs);
  do! host1 <- hostRegister g lhs1;
  mov x2 host1 ;;;
  do! rhs1 <- deref operation.(o_rhs);
  do! host2 <- hostRegister g rhs1;
  mov x3 host2 ;;;
  mov x0 x19 ;;;
  movImmediate_pointer x16 (if width_is I8 operation then g_pointer g "orGuest8"%string else if width_is I16
      operation then g_pointer g "orGuest16"%string else if width_is I32 operation then g_pointer g
      "orGuest32"%string else g_pointer g "orGuest64"%string) ;;;
  blr x16 ;;;
  cbz x0 fault ;;;
  b committed ;;;
  bindLabel fault ;;;
  emitFaultExit g BlockExit_MemoryFault operation.(o_guestRip) ;;;
  bindLabel committed.

Definition emit_AndGuestMemory (g : CodeGen) (operation : Operation) : M Assembler unit :=
  if negb (width_is I8 operation) && negb (width_is I16 operation) && negb (width_is I32 operation) && negb
      (width_is I64 operation) then
    throw (runtime_error "ARM64 backend only implements 8-, 16-, 32-, or 64-bit guest memory AND")
  else
  do! fault <- makeLabel;
  do! committed <- makeLabel;
  mov x4 x0 ;;;
  mov x1 x4 ;;;
  do! lhs1 <- deref operation.(o_lhs);
  do! host1 <- hostRegister g lhs1;
  mov x2 host1 ;;;
  do! rhs1 <- deref operation.(o_rhs);
  do! host2 <- hostRegister g rhs1;
  mov x3 host2 ;;;
  mov x0 x19 ;;;
  movImmediate_pointer x16 (if width_is I8 operation then g_pointer g "andGuest8"%string else if width_is I16
      operation then g_pointer g "andGuest16"%string else if width_is I32 operation then g_pointer g
      "andGuest32"%string else g_pointer g "andGuest64"%string) ;;;
  blr x16 ;;;
  cbz x0 fault ;;;
  b committed ;;;
  bindLabel fault ;;;
  emitFaultExit g BlockExit_MemoryFault operation.(o_guestRip) ;;;
  bindLabel committed.

Definition emit_ShiftLeftGuestMemory (g : CodeGen) (operation : Operation) : M Assembler unit :=
  do! fault <- makeLabel;
  do! committed <- makeLabel;
  mov x1 x0 ;;;
  do! lhs1 <- deref operation.(o_lhs);
  do! host1 <- hostRegister g lhs1;
  mov x2 host1 ;;;
  movImmediate x3 operation.(o_immediate) ;;;
  mov x0 x19 ;;;
  movImmediate_pointer x16 (g_pointer g "shiftLeftGuest64"%string) ;;;
  blr x16 ;;;
  cbz x0 fault ;;;
  b committed ;;;
  bindLabel fault ;;;
  emitFaultExit g BlockExit_MemoryFault operation.(o_guestRip) ;;;
  bindLabel committed.

Definition emit_ShiftRightGuestMemory (g : CodeGen) (operation : Operation) : M Assembler unit :=
  if negb (width_is I32 operation) && negb (width_is I64 operation) then
    throw (runtime_error "ARM64 backend only implements 32- and 64-bit guest memory shift right")
  else
  do! fault <- makeLabel;
  do! committed <- makeLabel;
  mov x1 x0 ;;;
  do! lhs1 <- deref operation.(o_lhs);
  do! host1 <- hostRegister g lhs1;
  mov x2 host1 ;;;
  movImmediate x3 operation.(o_immediate) ;;;
  mov x0 x19 ;;;
  movImmediate_pointer x16 (if width_is I32 operation then g_pointer g "shiftRightGuest32"%string else g_pointer g
      "shiftRightGuest64"%string) ;;;
  blr x16 ;;;
  cbz x0 fault ;;;
  b committed ;;;
  bindLabel fault ;;;
  emitFaultExit g BlockExit_MemoryFault operation.(o_guestRip) ;;;
  bindLabel committed.

Definition emit_IncrementGuestMemory (g : CodeGen) (operation : Operation) : M Assembler unit :=
  if negb (width_is I8 operation) && negb (width_is I16 operation) && negb (width_is I32 operation) && negb
      (width_is I64 operation) then
    throw (runtime_error "ARM64 backend only implements 8-, 16-, 32-, and 64-bit guest memory increment")
  else
  do! fault <- makeLabel;
  do! committed <- makeLabel;
  mov x4 x0 ;;;
  mov x1 x4 ;;;
  do! lhs1 <- deref operation.(o_lhs);
  do! host1 <- hostRegister g lhs1;
  mov x2 host1 ;;;
  mov x0 x19 ;;;
  movImmediate_pointer x16 (if width_is I8 operation then g_pointer g "incrementGuest8"%string else if width_is I16
      operation then g_pointer g "incrementGuest16"%string else if width_is I32 operation then g_pointer g
      "incrementGuest32"%string else g_pointer g "incrementGuest64"%string) ;;;
  blr x16 ;;;
  cbz x0 fault ;;;
  b committed ;;;
  bindLabel fault ;;;
  emitFaultExit g BlockExit_MemoryFault operation.(o_guestRip) ;;;
  bindLabel committed.

Definition emit_DecrementGuestMemory (g : CodeGen) (operation : Operation) : M Assembler unit :=
  if negb (width_is I8 operation) && negb (width_is I16 operation) && negb (width_is I32 operation) && negb
      (width_is I64 operation) then
    throw (runtime_error "ARM64 backend only implements 8-, 16-, 32-, and 64-bit guest memory decrement")
  else
  do! fault <- makeLabel;
  do! committed <- makeLabel;
  mov x4 x0 ;;;
  mov x1 x4 ;;;
  do! lhs1 <- deref operation.(o_lhs);
  do! host1 <- hostRegister g lhs1;
  mov x2 host1 ;;;
  mov x0 x19 ;;;
  movImmediate_pointer x16 (if width_is I8 operation then g_pointer g "decrementGuest8"%string else if width_is I16
      operation then g_pointer g "decrementGuest16"%string else if width_is I32 operation then g_pointer g
      "decrementGuest32"%string else g_pointer g "decrementGuest64"%string) ;;;
  blr x16 ;;;
  cbz x0 fault ;;;
  b committed ;;;
  bindLabel fault ;;;
  emitFaultExit g BlockExit_MemoryFault operation.(o_guestRip) ;;;
  bindLabel committed.

Definition emit_CompareExchangeGuestMemory (g : CodeGen) (operation : Operation) : M Assembler unit :=
  if negb (width_is I8 operation) && negb (width_is I32 operation) && negb (width_is I64 operation) then
    throw (runtime_error "ARM64 backend only implements 8-, 32-, and 64-bit guest-memory CMPXCHG")
  else
  do! fault <- makeLabel;
  do! committed <- makeLabel;
  mov x4 x0 ;;;
  mov x1 x4 ;;;
  do! lhs1 <- deref operation.(o_lhs);
  do! host1 <- hostRegister g lhs1;
  mov x2 host1 ;;;
  do! rhs1 <- deref operation.(o_rhs);
  do! host2 <- hostRegister g rhs1;
  mov x3 host2 ;;;
  mov x0 x19 ;;;
  movImmediate_pointer x16 (if width_is I8 operation then g_pointer g "compareExchangeGuest8"%string else if
      width_is I32 operation then g_pointer g "compareExchangeGuest32"%string else g_pointer g
      "compareExchangeGuest64"%string) ;;;
  blr x16 ;;;
  cbz x0 fault ;;;
  b committed ;;;
  bindLabel fault ;;;
  emitFaultExit g BlockExit_MemoryFault operation.(o_guestRip) ;;;
  bindLabel committed.

Definition emit_CompareExchangeGuestPair (g : CodeGen) (operation : Operation) : M Assembler unit :=
  do! fault <- makeLabel;
  do! committed <- makeLabel;
  mov x1 x0 ;;;
  do! lhs1 <- deref operation.(o_lhs);
  do! host1 <- hostRegister g lhs1;
  mov x2 host1 ;;;
  mov x0 x19 ;;;
  movImmediate_pointer x16 (g_pointer g "compareExchangeGuestPair"%string) ;;;
  blr x16 ;;;
  cbz x0 fault ;;;
  b committed ;;;
  bindLabel fault ;;;
  emitFaultExit g BlockExit_MemoryFault operation.(o_guestRip) ;;;
  bindLabel committed.

Definition emit_ExchangeGuestMemory (g : CodeGen) (operation : Operation) : M Assembler unit :=
  if (negb (width_is I8 operation) && negb (width_is I32 operation) && negb (width_is I64 operation)) || absent
      operation.(o_guestRegister) then
    throw (runtime_error "ARM64 backend only implements 8-bit, 32-bit and 64-bit guest-memory XCHG")
  else
  do! fault <- makeLabel;
  do! committed <- makeLabel;
  mov x1 x0 ;;;
  do! lhs1 <- deref operation.(o_lhs);
  do! host1 <- hostRegister g lhs1;
  mov x2 host1 ;;;
  do! rhs1 <- deref operation.(o_rhs);
  do! host2 <- hostRegister g rhs1;
  mov x3 host2 ;;;
  do! register1 <- deref operation.(o_guestRegister);
  movImmediate x4 (register_value register1) ;;;
  mov x0 x19 ;;;
  movImmediate_pointer x16 (if width_is I8 operation then g_pointer g "exchangeGuest8"%string else if width_is I32
      operation then g_pointer g "exchangeGuest32"%string else g_pointer g "exchangeGuest64"%string) ;;;
  blr x16 ;;;
  cbz x0 fault ;;;
  b committed ;;;
  bindLabel fault ;;;
  emitFaultExit g BlockExit_MemoryFault operation.(o_guestRip) ;;;
  bindLabel committed.

Definition emit_LockedAddGuestMemory (g : CodeGen) (operation : Operation) : M Assembler unit :=
  if negb (width_is I32 operation) && negb (width_is I64 operation) then
    throw (runtime_error "ARM64 backend only implements 32- and 64-bit guest-memory LOCK ADD")
  else
  do! fault <- makeLabel;
  do! committed <- makeLabel;
  mov x4 x0 ;;;
  mov x1 x4 ;;;
  do! lhs1 <- deref operation.(o_lhs);
  do! host1 <- hostRegister g lhs1;
  mov x2 host1 ;;;
  do! rhs1 <- deref operation.(o_rhs);
  do! host2 <- hostRegister g rhs1;
  mov x3 host2 ;;;
  mov x0 x19 ;;;
  movImmediate_pointer x16 (if width_is I32 operation then g_pointer g "lockedAddGuest32"%string else g_pointer g
      "lockedAddGuest64"%string) ;;;
  blr x16 ;;;
  cbz x0 fault ;;;
  b committed ;;;
  bindLabel fault ;;;
  emitFaultExit g BlockExit_MemoryFault operation.(o_guestRip) ;;;
  bindLabel committed.

Definition emit_LockedExchangeAddGuestMemory (g : CodeGen) (operation : Operation) : M Assembler unit :=
  if (negb (width_is I16 operation) && negb (width_is I32 operation) && negb (width_is I64 operation)) || absent
      operation.(o_guestRegister) then
    throw (runtime_error "ARM64 backend only implements 16-, 32-, and 64-bit guest-memory LOCK XADD")
  else
  do! fault <- makeLabel;
  do! committed <- makeLabel;
  mov x1 x0 ;;;
  do! lhs1 <- deref operation.(o_lhs);
  do! host1 <- hostRegister g lhs1;
  mov x2 host1 ;;;
  do! rhs1 <- deref operation.(o_rhs);
  do! host2 <- hostRegister g rhs1;
  mov x3 host2 ;;;
  do! register1 <- deref operation.(o_guestRegister);
  movImmediate x4 (register_value register1) ;;;
  mov x0 x19 ;;;
  movImmediate_pointer x16 (if width_is I16 operation then g_pointer g "lockedExchangeAddGuest16"%string else if
      width_is I32 operation then g_pointer g "lockedExchangeAddGuest32"%string else g_pointer g
      "lockedExchangeAddGuest64"%string) ;;;
  blr x16 ;;;
  cbz x0 fault ;;;
  b committed ;;;
  bindLabel fault ;;;
  emitFaultExit g BlockExit_MemoryFault operation.(o_guestRip) ;;;
  bindLabel committed.

Definition emit_LockedOrGuestMemory (g : CodeGen) (operation : Operation) : M Assembler unit :=
  if negb (width_is I8 operation) && negb (width_is I16 operation) && negb (width_is I32 operation) && negb
      (width_is I64 operation) then
    throw (runtime_error "ARM64 backend only implements 8-, 16-, 32-, and 64-bit guest-memory LOCK OR")
  else
  do! fault <- makeLabel;
  do! committed <- makeLabel;
  mov x4 x0 ;;;
  mov x1 x4 ;;;
  do! lhs1 <- deref operation.(o_lhs);
  do! host1 <- hostRegister g lhs1;
  mov x2 host1 ;;;
  do! rhs1 <- deref operation.(o_rhs);
  do! host2 <- hostRegister g rhs1;
  mov x3 host2 ;;;
  mov x0 x19 ;;;
  movImmediate_pointer x16 (if width_is I8 operation then g_pointer g "lockedOrGuest8"%string else if width_is I16
      operation then g_pointer g "lockedOrGuest16"%string else if width_is I32 operation then g_pointer g
      "lockedOrGuest32"%string else g_pointer g "lockedOrGuest64"%string) ;;;
  blr x16 ;;;
  cbz x0 fault ;;;
  b committed ;;;
  bindLabel fault ;;;
  emitFaultExit g BlockExit_MemoryFault operation.(o_guestRip) ;;;
  bindLabel committed.

Definition emit_LockedBitSetGuestMemory (g : CodeGen) (operation : Operation) : M Assembler unit :=
  if negb (width_is I32 operation) && negb (width_is I64 operation) then
    throw (runtime_error "ARM64 backend only implements 32- and 64-bit guest-memory LOCK BTS")
  else
  do! fault <- makeLabel;
  do! committed <- makeLabel;
  mov x1 x0 ;;;
  do! lhs1 <- deref operation.(o_lhs);
  do! host1 <- hostRegister g lhs1;
  mov x2 host1 ;;;
  movImmediate x3 operation.(o_immediate) ;;;
  mov x0 x19 ;;;
  movImmediate_pointer x16 (if width_is I32 operation then g_pointer g "lockedBitSetGuest32"%string else g_pointer
      g "lockedBitSetGuest64"%string) ;;;
  blr x16 ;;;
  cbz x0 fault ;;;
  b committed ;;;
  bindLabel fault ;;;
  emitFaultExit g BlockExit_MemoryFault operation.(o_guestRip) ;;;
  bindLabel committed.

Definition emit_LockedAndGuestMemory (g : CodeGen) (operation : Operation) : M Assembler unit :=
  if negb (width_is I16 operation) && negb (width_is I32 operation) && negb (width_is I64 operation) then
    throw (runtime_error "ARM64 backend only implements 16-, 32-, and 64-bit guest-memory LOCK AND")
  else
  do! fault <- makeLabel;
  do! committed <- makeLabel;
  mov x4 x0 ;;;
  mov x1 x4 ;;;
  do! lhs1 <- deref operation.(o_lhs);
  do! host1 <- hostRegister g lhs1;
  mov x2 host1 ;;;
  do! rhs1 <- deref operation.(o_rhs);
  do! host2 <- hostRegister g rhs1;
  mov x3 host2 ;;;
  mov x0 x19 ;;;
  movImmediate_pointer x16 (if width_is I16 operation then g_pointer g "lockedAndGuest16"%string else if width_is
      I32 operation then g_pointer g "lockedAndGuest32"%string else g_pointer g "lockedAndGuest64"%string) ;;;
  blr x16 ;;;
  cbz x0 fault ;;;
  b committed ;;;
  bindLabel fault ;;;
  emitFaultExit g BlockExit_MemoryFault operation.(o_guestRip) ;;;
  bindLabel committed.

Definition emit_LockedIncrementGuestMemory (g : CodeGen) (operation : Operation) : M Assembler unit :=
  if negb (width_is I32 operation) && negb (width_is I64 operation) then
    throw (runtime_error "ARM64 backend only implements 32- and 64-bit guest-memory LOCK INC/DEC")
  else
  do! fault <- makeLabel;
  do! committed <- makeLabel;
  mov x4 x0 ;;;
  mov x1 x4 ;;;
  do! lhs1 <- deref operation.(o_lhs);
  do! host1 <- hostRegister g lhs1;
  mov x2 host1 ;;;
  mov x0 x19 ;;;
  movImmediate_pointer x16 (if opcode_is Op_LockedIncrementGuestMemory operation then if width_is I32 operation
      then g_pointer g "lockedIncrementGuest32"%string else g_pointer g "lockedIncrementGuest64"%string else if
      width_is I32 operation then g_pointer g "lockedDecrementGuest32"%string else g_pointer g
      "lockedDecrementGuest64"%string) ;;;
  blr x16 ;;;
  cbz x0 fault ;;;
  b committed ;;;
  bindLabel fault ;;;
  emitFaultExit g BlockExit_MemoryFault operation.(o_guestRip) ;;;
  bindLabel committed.

Definition emitWriteSpanGuard (g : CodeGen) (directWriteSpan' : DirectWriteSpan) : M Assembler unit :=
  do! rejected <- makeLabel;
  do! guarded <- makeLabel;
  cbz x20 rejected ;;;
  compareZero directWriteSpan'.(dw_step) ;;;
  bConditional B_Equal rejected ;;;
  movImmediate x16 directWriteSpan'.(dw_limit) ;;;
  do! host1 <- hostRegister g directWriteSpan'.(dw_induction);
  compare host1 x16 ;;;
  bUnsignedHigherOrSame rejected ;;;
  movImmediate x17 (u64 (UINT64_MAX - (u64 (directWriteSpan'.(dw_limit) - 1)))) ;;;
  compare directWriteSpan'.(dw_step) x17 ;;;
  bConditional B_UnsignedHigher rejected ;;;
  movImmediate x17 (u64 (directWriteSpan'.(dw_limit) - 1)) ;;;
  do! host2 <- hostRegister g directWriteSpan'.(dw_offset);
  add x16 host2 x17 ;;;
  do! host3 <- hostRegister g directWriteSpan'.(dw_offset);
  compare x16 host3 ;;;
  bConditional B_UnsignedLower rejected ;;;
  sub x17 x16 x21 ;;;
  compare x17 x22 ;;;
  bUnsignedHigherOrSame rejected ;;;
  do! host4 <- hostRegister g directWriteSpan'.(dw_address);
  sub x17 host4 x21 ;;;
  compare x17 x22 ;;;
  bUnsignedHigherOrSame rejected ;;;
  add x3 x20 x17 ;;;
  add x3 x3 directWriteSpan'.(dw_step) ;;;
  movImmediate x4 1 ;;;
  b guarded ;;;
  bindLabel rejected ;;;
  movImmediate x4 0 ;;;
  bindLabel guarded.

Definition emit_StoreGuest (g : CodeGen) (operation : Operation) (directWriteFastEntry : option Z) : M Assembler
    (option Z) :=
  do! fault <- makeLabel;
  do! committed <- makeLabel;
  let directByteWrite := pinsDirectWrite g && width_is I8 operation in
  do! checkedHelper <- makeLabel;
  do! directFast <- makeLabel;
  do! directWriteFastEntry <- (match directWriteSpan g with
  | Some _ =>
      ret (Some directFast)
  | None =>
      ret directWriteFastEntry
  end);
  (if directByteWrite then
      cbnz (match directWriteSpan g with Some _ => x4 | None => x20 end) directFast ;;;
      bindLabel checkedHelper
  else
      ret tt) ;;;
  (match directWriteSpan g with
  | Some directWriteSpan' =>
      do! host1 <- hostRegister g directWriteSpan'.(dw_address);
      do! host2 <- hostRegister g directWriteSpan'.(dw_addressLhs);
      do! host3 <- hostRegister g directWriteSpan'.(dw_addressRhs);
      add host1 host2 host3
  | None =>
      ret tt
  end) ;;;
  mov x4 x0 ;;;
  do! lhs1 <- deref operation.(o_lhs);
  do! host4 <- hostRegister g lhs1;
  mov x2 host4 ;;;
  do! rhs1 <- deref operation.(o_rhs);
  do! host5 <- hostRegister g rhs1;
  mov x3 host5 ;;;
  mov x1 x4 ;;;
  mov x0 x19 ;;;
  movImmediate_pointer x16 (if width_is I8 operation then g_pointer g "storeGuest8"%string else if width_is I16
      operation then g_pointer g "storeGuest16"%string else if width_is I32 operation then g_pointer g
      "storeGuest32"%string else g_pointer g "storeGuest64"%string) ;;;
  (if directByteWrite then
      pushCallerSaved5Through15
  else
      ret tt) ;;;
  blr x16 ;;;
  (if directByteWrite then
      popCallerSaved5Through15
  else
      ret tt) ;;;
  cbz x0 fault ;;;
  (if directByteWrite then
      ldr x20 x19 (u32 (directWriteOffset + cacheBytesOffset)) ;;;
      ldr x21 x19 (u32 (directWriteOffset + cacheBaseOffset)) ;;;
      ldr x22 x19 (u32 (directWriteOffset + cacheSizeOffset)) ;;;
      (match directWriteSpan g with
      | Some directWriteSpan' =>
          emitWriteSpanGuard g directWriteSpan'
      | None =>
          ret tt
      end)
  else
      ret tt) ;;;
  b committed ;;;
  bindLabel fault ;;;
  emitFaultExit g BlockExit_MemoryFault operation.(o_guestRip) ;;;
  (if directByteWrite then
      bindLabel directFast ;;;
      (match directWriteSpan g with
      | Some directWriteSpan' =>
          do! host6 <- hostRegister g rhs1;
          str8 host6 x3 0 ;;;
          add x3 x3 directWriteSpan'.(dw_step)
      | None =>
          do! host7 <- hostRegister g lhs1;
          sub x17 host7 x21 ;;;
          compare x17 x22 ;;;
          bUnsignedHigherOrSame checkedHelper ;;;
          add x16 x20 x17 ;;;
          do! host8 <- hostRegister g rhs1;
          str8 host8 x16 0
      end)
  else
      ret tt) ;;;
  bindLabel committed ;;;
  ret directWriteFastEntry.

Definition emit_StoreGuestIdtr (g : CodeGen) (operation : Operation) : M Assembler unit :=
  do! fault <- makeLabel;
  do! committed <- makeLabel;
  mov x4 x0 ;;;
  mov x1 x4 ;;;
  do! lhs1 <- deref operation.(o_lhs);
  do! host1 <- hostRegister g lhs1;
  mov x2 host1 ;;;
  mov x0 x19 ;;;
  movImmediate_pointer x16 (g_pointer g "storeGuestIdtr"%string) ;;;
  blr x16 ;;;
  cbz x0 fault ;;;
  b committed ;;;
  bindLabel fault ;;;
  emitFaultExit g BlockExit_MemoryFault operation.(o_guestRip) ;;;
  bindLabel committed.

Definition emit_StoreGuestXmm (g : CodeGen) (operation : Operation) : M Assembler unit :=
  do! fault <- makeLabel;
  do! committed <- makeLabel;
  mov x1 x0 ;;;
  do! lhs1 <- deref operation.(o_lhs);
  do! host1 <- hostRegister g lhs1;
  mov x2 host1 ;;;
  do! xmm1 <- deref operation.(o_guestXmmRegister);
  movImmediate x3 xmm1 ;;;
  movImmediate x4 operation.(o_immediate) ;;;
  mov x0 x19 ;;;
  movImmediate_pointer x16 (g_pointer g "storeGuestXmm128"%string) ;;;
  blr x16 ;;;
  cbz x0 fault ;;;
  b committed ;;;
  bindLabel fault ;;;
  emitFaultExit g BlockExit_MemoryFault operation.(o_guestRip) ;;;
  bindLabel committed.

Definition emit_StoreGuestYmm (g : CodeGen) (operation : Operation) : M Assembler unit :=
  do! fault <- makeLabel;
  do! committed <- makeLabel;
  mov x1 x0 ;;;
  do! lhs1 <- deref operation.(o_lhs);
  do! host1 <- hostRegister g lhs1;
  mov x2 host1 ;;;
  do! xmm1 <- deref operation.(o_guestXmmRegister);
  movImmediate x3 xmm1 ;;;
  movImmediate x4 operation.(o_immediate) ;;;
  mov x0 x19 ;;;
  movImmediate_pointer x16 (g_pointer g "storeGuestYmm256"%string) ;;;
  blr x16 ;;;
  cbz x0 fault ;;;
  b committed ;;;
  bindLabel fault ;;;
  emitFaultExit g BlockExit_MemoryFault operation.(o_guestRip) ;;;
  bindLabel committed.

Definition emit_LoadGuestXmm (g : CodeGen) (operation : Operation) : M Assembler unit :=
  do! fault <- makeLabel;
  do! loaded <- makeLabel;
  mov x1 x0 ;;;
  do! lhs1 <- deref operation.(o_lhs);
  do! host1 <- hostRegister g lhs1;
  mov x2 host1 ;;;
  do! xmm1 <- deref operation.(o_guestXmmRegister);
  movImmediate x3 xmm1 ;;;
  movImmediate x4 operation.(o_immediate) ;;;
  mov x0 x19 ;;;
  movImmediate_pointer x16 (g_pointer g "loadGuestXmm128"%string) ;;;
  blr x16 ;;;
  cbz x0 fault ;;;
  b loaded ;;;
  bindLabel fault ;;;
  emitFaultExit g BlockExit_MemoryFault operation.(o_guestRip) ;;;
  bindLabel loaded.

Definition emit_LoadGuestYmm (g : CodeGen) (operation : Operation) : M Assembler unit :=
  do! fault <- makeLabel;
  do! loaded <- makeLabel;
  mov x1 x0 ;;;
  do! lhs1 <- deref operation.(o_lhs);
  do! host1 <- hostRegister g lhs1;
  mov x2 host1 ;;;
  do! xmm1 <- deref operation.(o_guestXmmRegister);
  movImmediate x3 xmm1 ;;;
  movImmediate x4 operation.(o_immediate) ;;;
  mov x0 x19 ;;;
  movImmediate_pointer x16 (g_pointer g "loadGuestYmm256"%string) ;;;
  blr x16 ;;;
  cbz x0 fault ;;;
  b loaded ;;;
  bindLabel fault ;;;
  emitFaultExit g BlockExit_MemoryFault operation.(o_guestRip) ;;;
  bindLabel loaded.

Definition emit_LoadGuestSignExtendedBytesXmm (g : CodeGen) (operation : Operation) : M Assembler unit :=
  do! fault <- makeLabel;
  do! loaded <- makeLabel;
  mov x1 x0 ;;;
  do! lhs1 <- deref operation.(o_lhs);
  do! host1 <- hostRegister g lhs1;
  mov x2 host1 ;;;
  do! xmm1 <- deref operation.(o_guestXmmRegister);
  movImmediate x3 xmm1 ;;;
  mov x0 x19 ;;;
  movImmediate_pointer x16 (g_pointer g "loadGuestSignExtendedBytesXmm"%string) ;;;
  blr x16 ;;;
  cbz x0 fault ;;;
  b loaded ;;;
  bindLabel fault ;;;
  emitFaultExit g BlockExit_MemoryFault operation.(o_guestRip) ;;;
  bindLabel loaded.

Definition emit_LoadGuestSignExtendedDwordsXmm (g : CodeGen) (operation : Operation) : M Assembler unit :=
  do! fault <- makeLabel;
  do! loaded <- makeLabel;
  mov x1 x0 ;;;
  do! lhs1 <- deref operation.(o_lhs);
  do! host1 <- hostRegister g lhs1;
  mov x2 host1 ;;;
  do! xmm1 <- deref operation.(o_guestXmmRegister);
  movImmediate x3 xmm1 ;;;
  mov x0 x19 ;;;
  movImmediate_pointer x16 (g_pointer g "loadGuestSignExtendedDwordsXmm"%string) ;;;
  blr x16 ;;;
  cbz x0 fault ;;;
  b loaded ;;;
  bindLabel fault ;;;
  emitFaultExit g BlockExit_MemoryFault operation.(o_guestRip) ;;;
  bindLabel loaded.

Definition emit_CompareEqualGuestBytesXmm (g : CodeGen) (operation : Operation) : M Assembler unit :=
  do! fault <- makeLabel;
  do! compared <- makeLabel;
  mov x1 x0 ;;;
  do! lhs1 <- deref operation.(o_lhs);
  do! host1 <- hostRegister g lhs1;
  mov x2 host1 ;;;
  do! xmm1 <- deref operation.(o_guestXmmRegister);
  movImmediate x3 xmm1 ;;;
  mov x0 x19 ;;;
  movImmediate_pointer x16 (g_pointer g "compareEqualGuestBytesXmm128"%string) ;;;
  blr x16 ;;;
  cbz x0 fault ;;;
  b compared ;;;
  bindLabel fault ;;;
  emitFaultExit g BlockExit_MemoryFault operation.(o_guestRip) ;;;
  bindLabel compared.

Definition emit_CompareEqualGuestQwordsXmm (g : CodeGen) (operation : Operation) : M Assembler unit :=
  do! fault <- makeLabel;
  do! compared <- makeLabel;
  mov x1 x0 ;;;
  do! lhs1 <- deref operation.(o_lhs);
  do! host1 <- hostRegister g lhs1;
  mov x2 host1 ;;;
  do! xmm1 <- deref operation.(o_guestXmmRegister);
  movImmediate x3 xmm1 ;;;
  mov x0 x19 ;;;
  movImmediate_pointer x16 (g_pointer g "compareEqualGuestQwordsXmm128"%string) ;;;
  blr x16 ;;;
  cbz x0 fault ;;;
  b compared ;;;
  bindLabel fault ;;;
  emitFaultExit g BlockExit_MemoryFault operation.(o_guestRip) ;;;
  bindLabel compared.

Definition emit_ArithmeticGuestMemoryPackedDoubleXmm (g : CodeGen) (operation : Operation) : M Assembler unit :=
  do! fault <- makeLabel;
  do! applied <- makeLabel;
  mov x1 x0 ;;;
  do! lhs1 <- deref operation.(o_lhs);
  do! host1 <- hostRegister g lhs1;
  mov x2 host1 ;;;
  do! xmm1 <- deref operation.(o_guestXmmRegister);
  movImmediate x3 xmm1 ;;;
  movImmediate x4 operation.(o_immediate) ;;;
  mov x0 x19 ;;;
  movImmediate_pointer x16 (g_pointer g "arithmeticGuestMemoryPackedDoubleXmm128"%string) ;;;
  blr x16 ;;;
  cbz x0 fault ;;;
  b applied ;;;
  bindLabel fault ;;;
  emitFaultExit g BlockExit_MemoryFault operation.(o_guestRip) ;;;
  bindLabel applied.

Definition emit_UnpackHighGuestPackedSingleXmm (g : CodeGen) (operation : Operation) : M Assembler unit :=
  do! fault <- makeLabel;
  do! unpacked <- makeLabel;
  mov x1 x0 ;;;
  do! lhs1 <- deref operation.(o_lhs);
  do! host1 <- hostRegister g lhs1;
  mov x2 host1 ;;;
  do! xmm1 <- deref operation.(o_guestXmmRegister);
  movImmediate x3 xmm1 ;;;
  mov x0 x19 ;;;
  movImmediate_pointer x16 (g_pointer g "unpackHighGuestPackedSingleXmm128"%string) ;;;
  blr x16 ;;;
  cbz x0 fault ;;;
  b unpacked ;;;
  bindLabel fault ;;;
  emitFaultExit g BlockExit_MemoryFault operation.(o_guestRip) ;;;
  bindLabel unpacked.

Definition emit_HorizontalAddGuestPackedDoubleXmm (g : CodeGen) (operation : Operation) : M Assembler unit :=
  do! fault <- makeLabel;
  do! added <- makeLabel;
  mov x1 x0 ;;;
  do! lhs1 <- deref operation.(o_lhs);
  do! host1 <- hostRegister g lhs1;
  mov x2 host1 ;;;
  do! xmm1 <- deref operation.(o_guestXmmRegister);
  movImmediate x3 xmm1 ;;;
  mov x0 x19 ;;;
  movImmediate_pointer x16 (g_pointer g "horizontalAddGuestPackedDoubleXmm128"%string) ;;;
  blr x16 ;;;
  cbz x0 fault ;;;
  b added ;;;
  bindLabel fault ;;;
  emitFaultExit g BlockExit_MemoryFault operation.(o_guestRip) ;;;
  bindLabel added.

Definition emit_UnpackLowGuestPackedSingleXmm (g : CodeGen) (operation : Operation) : M Assembler unit :=
  do! fault <- makeLabel;
  do! unpacked <- makeLabel;
  mov x1 x0 ;;;
  do! lhs1 <- deref operation.(o_lhs);
  do! host1 <- hostRegister g lhs1;
  mov x2 host1 ;;;
  do! xmm1 <- deref operation.(o_guestXmmRegister);
  movImmediate x3 xmm1 ;;;
  mov x0 x19 ;;;
  movImmediate_pointer x16 (g_pointer g "unpackLowGuestPackedSingleXmm128"%string) ;;;
  blr x16 ;;;
  cbz x0 fault ;;;
  b unpacked ;;;
  bindLabel fault ;;;
  emitFaultExit g BlockExit_MemoryFault operation.(o_guestRip) ;;;
  bindLabel unpacked.

Definition emit_XorGuestMemoryXmm (g : CodeGen) (operation : Operation) : M Assembler unit :=
  do! fault <- makeLabel;
  do! completed <- makeLabel;
  mov x1 x0 ;;;
  do! lhs1 <- deref operation.(o_lhs);
  do! host1 <- hostRegister g lhs1;
  mov x2 host1 ;;;
  do! xmm1 <- deref operation.(o_guestXmmRegister);
  movImmediate x3 xmm1 ;;;
  mov x0 x19 ;;;
  movImmediate_pointer x16 (g_pointer g "xorGuestMemoryXmm128"%string) ;;;
  blr x16 ;;;
  cbz x0 fault ;;;
  b completed ;;;
  bindLabel fault ;;;
  emitFaultExit g BlockExit_MemoryFault operation.(o_guestRip) ;;;
  bindLabel completed.

Definition emit_AndGuestMemoryXmm (g : CodeGen) (operation : Operation) : M Assembler unit :=
  do! fault <- makeLabel;
  do! completed <- makeLabel;
  mov x1 x0 ;;;
  do! lhs1 <- deref operation.(o_lhs);
  do! host1 <- hostRegister g lhs1;
  mov x2 host1 ;;;
  do! xmm1 <- deref operation.(o_guestXmmRegister);
  movImmediate x3 xmm1 ;;;
  mov x0 x19 ;;;
  movImmediate_pointer x16 (g_pointer g "andGuestMemoryXmm128"%string) ;;;
  blr x16 ;;;
  cbz x0 fault ;;;
  b completed ;;;
  bindLabel fault ;;;
  emitFaultExit g BlockExit_MemoryFault operation.(o_guestRip) ;;;
  bindLabel completed.

Definition emit_AddGuestMemoryXmm (g : CodeGen) (operation : Operation) : M Assembler unit :=
  do! fault <- makeLabel;
  do! completed <- makeLabel;
  mov x1 x0 ;;;
  do! lhs1 <- deref operation.(o_lhs);
  do! host1 <- hostRegister g lhs1;
  mov x2 host1 ;;;
  do! xmm1 <- deref operation.(o_guestXmmRegister);
  movImmediate x3 xmm1 ;;;
  mov x0 x19 ;;;
  movImmediate_pointer x16 (g_pointer g "addGuestMemoryXmm128"%string) ;;;
  blr x16 ;;;
  cbz x0 fault ;;;
  b completed ;;;
  bindLabel fault ;;;
  emitFaultExit g BlockExit_MemoryFault operation.(o_guestRip) ;;;
  bindLabel completed.

Definition emit_TestXmmBits (g : CodeGen) (operation : Operation) : M Assembler unit :=
  do! xmm1 <- deref operation.(o_guestXmmRegister);
  movImmediate x1 xmm1 ;;;
  do! source1 <- deref operation.(o_sourceGuestXmmRegister);
  movImmediate x2 source1 ;;;
  movImmediate_pointer x16 (g_pointer g "testXmmBits128"%string) ;;;
  blr x16.

Definition emit_CompareEqualXmmBytes (g : CodeGen) (operation : Operation) : M Assembler unit :=
  do! xmm1 <- deref operation.(o_guestXmmRegister);
  movImmediate x1 xmm1 ;;;
  do! source1 <- deref operation.(o_sourceGuestXmmRegister);
  movImmediate x2 source1 ;;;
  movImmediate_pointer x16 (g_pointer g "compareEqualXmmBytes128"%string) ;;;
  blr x16.

Definition emit_CompareEqualXmmDwords (g : CodeGen) (operation : Operation) : M Assembler unit :=
  do! xmm1 <- deref operation.(o_guestXmmRegister);
  movImmediate x1 xmm1 ;;;
  do! source1 <- deref operation.(o_sourceGuestXmmRegister);
  movImmediate x2 source1 ;;;
  movImmediate_pointer x16 (g_pointer g "compareEqualXmmDwords128"%string) ;;;
  blr x16.

Definition emit_CompareEqualXmmQwords (g : CodeGen) (operation : Operation) : M Assembler unit :=
  do! xmm1 <- deref operation.(o_guestXmmRegister);
  movImmediate x1 xmm1 ;;;
  do! source1 <- deref operation.(o_sourceGuestXmmRegister);
  movImmediate x2 source1 ;;;
  movImmediate_pointer x16 (g_pointer g "compareEqualXmmQwords128"%string) ;;;
  blr x16.

Definition emit_ShiftLeftXmmDwords (g : CodeGen) (operation : Operation) : M Assembler unit :=
  do! xmm1 <- deref operation.(o_guestXmmRegister);
  movImmediate x1 xmm1 ;;;
  movImmediate x2 operation.(o_immediate) ;;;
  movImmediate_pointer x16 (g_pointer g "shiftLeftXmmDwords128"%string) ;;;
  blr x16.

Definition emit_AddXmmWords (g : CodeGen) (operation : Operation) : M Assembler unit :=
  do! xmm1 <- deref operation.(o_guestXmmRegister);
  movImmediate x1 xmm1 ;;;
  do! source1 <- deref operation.(o_sourceGuestXmmRegister);
  movImmediate x2 source1 ;;;
  movImmediate_pointer x16 (g_pointer g "addXmmWords128"%string) ;;;
  blr x16.

Definition emit_ComparePackedDoubleXmm (g : CodeGen) (operation : Operation) : M Assembler unit :=
  do! xmm1 <- deref operation.(o_guestXmmRegister);
  movImmediate x1 xmm1 ;;;
  do! source1 <- deref operation.(o_sourceGuestXmmRegister);
  movImmediate x2 source1 ;;;
  movImmediate x3 operation.(o_immediate) ;;;
  movImmediate_pointer x16 (g_pointer g "comparePackedDoubleXmm"%string) ;;;
  blr x16.

Definition emit_ArithmeticPackedDoubleXmm (g : CodeGen) (operation : Operation) : M Assembler unit :=
  do! xmm1 <- deref operation.(o_guestXmmRegister);
  movImmediate x1 xmm1 ;;;
  do! source1 <- deref operation.(o_sourceGuestXmmRegister);
  movImmediate x2 source1 ;;;
  movImmediate x3 operation.(o_immediate) ;;;
  movImmediate_pointer x16 (g_pointer g "arithmeticPackedDoubleXmm"%string) ;;;
  blr x16.

Definition emit_UnpackHighPackedSingleXmm (g : CodeGen) (operation : Operation) : M Assembler unit :=
  do! xmm1 <- deref operation.(o_guestXmmRegister);
  movImmediate x1 xmm1 ;;;
  do! source1 <- deref operation.(o_sourceGuestXmmRegister);
  movImmediate x2 source1 ;;;
  movImmediate_pointer x16 (g_pointer g "unpackHighPackedSingleXmm"%string) ;;;
  blr x16.

Definition emit_HorizontalAddPackedDoubleXmm (g : CodeGen) (operation : Operation) : M Assembler unit :=
  do! xmm1 <- deref operation.(o_guestXmmRegister);
  movImmediate x1 xmm1 ;;;
  do! source1 <- deref operation.(o_sourceGuestXmmRegister);
  movImmediate x2 source1 ;;;
  movImmediate_pointer x16 (g_pointer g "horizontalAddPackedDoubleXmm"%string) ;;;
  blr x16.

Definition emit_UnpackLowPackedSingleXmm (g : CodeGen) (operation : Operation) : M Assembler unit :=
  do! xmm1 <- deref operation.(o_guestXmmRegister);
  movImmediate x1 xmm1 ;;;
  do! source1 <- deref operation.(o_sourceGuestXmmRegister);
  movImmediate x2 source1 ;;;
  movImmediate_pointer x16 (g_pointer g "unpackLowPackedSingleXmm"%string) ;;;
  blr x16.

Definition emit_UpdateUnorderedDoubleFlags (g : CodeGen) (operation : Operation) : M Assembler unit :=
  do! lhs1 <- deref operation.(o_lhs);
  do! host1 <- hostRegister g lhs1;
  mov x1 host1 ;;;
  do! rhs1 <- deref operation.(o_rhs);
  do! host2 <- hostRegister g rhs1;
  mov x2 host2 ;;;
  movImmediate_pointer x16 (g_pointer g "updateUnorderedDoubleFlags"%string) ;;;
  blr x16.

Definition emit_UpdateUnorderedFloatFlags (g : CodeGen) (operation : Operation) : M Assembler unit :=
  do! lhs1 <- deref operation.(o_lhs);
  do! host1 <- hostRegister g lhs1;
  mov x1 host1 ;;;
  do! rhs1 <- deref operation.(o_rhs);
  do! host2 <- hostRegister g rhs1;
  mov x2 host2 ;;;
  movImmediate_pointer x16 (g_pointer g "updateUnorderedFloatFlags"%string) ;;;
  blr x16.

Definition emit_ConvertIntToDoubleXmm (g : CodeGen) (operation : Operation) : M Assembler unit :=
  if negb (width_is I32 operation) && negb (width_is I64 operation) then
    throw (runtime_error "ARM64 backend only implements 32- and 64-bit integer to double conversion")
  else
  do! xmm1 <- deref operation.(o_guestXmmRegister);
  movImmediate x1 xmm1 ;;;
  do! lhs1 <- deref operation.(o_lhs);
  do! host1 <- hostRegister g lhs1;
  mov x2 host1 ;;;
  movImmediate_pointer x16 (if width_is I32 operation then g_pointer g "convertInt32ToDoubleXmm"%string else
      g_pointer g "convertInt64ToDoubleXmm"%string) ;;;
  blr x16.

Definition emit_ConvertDoubleToInt (g : CodeGen) (operation : Operation) : M Assembler unit :=
  if negb (width_is I32 operation) && negb (width_is I64 operation) then
    throw (runtime_error "ARM64 backend only implements 32- and 64-bit double to integer conversion")
  else
  do! register1 <- deref operation.(o_guestRegister);
  let destination := register_value register1 in
  movImmediate x1 destination ;;;
  do! lhs1 <- deref operation.(o_lhs);
  do! host1 <- hostRegister g lhs1;
  mov x2 host1 ;;;
  movImmediate_pointer x16 (if width_is I32 operation then g_pointer g "convertDoubleToInt32"%string else g_pointer
      g "convertDoubleToInt64"%string) ;;;
  blr x16.

Definition emit_ConvertFloatToDoubleXmm (g : CodeGen) (operation : Operation) : M Assembler unit :=
  do! xmm1 <- deref operation.(o_guestXmmRegister);
  movImmediate x1 xmm1 ;;;
  do! lhs1 <- deref operation.(o_lhs);
  do! host1 <- hostRegister g lhs1;
  mov x2 host1 ;;;
  movImmediate_pointer x16 (g_pointer g "convertFloatToDoubleXmm"%string) ;;;
  blr x16.

Definition emit_ConvertInt32x2ToDoubleXmm (g : CodeGen) (operation : Operation) : M Assembler unit :=
  do! xmm1 <- deref operation.(o_guestXmmRegister);
  movImmediate x1 xmm1 ;;;
  do! lhs1 <- deref operation.(o_lhs);
  do! host1 <- hostRegister g lhs1;
  mov x2 host1 ;;;
  movImmediate_pointer x16 (g_pointer g "convertInt32x2ToDoubleXmm"%string) ;;;
  blr x16.

Definition emit_ScalarDoubleXmm (g : CodeGen) (operation : Operation) : M Assembler unit :=
  do! xmm1 <- deref operation.(o_guestXmmRegister);
  movImmediate x1 xmm1 ;;;
  do! lhs1 <- deref operation.(o_lhs);
  do! host1 <- hostRegister g lhs1;
  mov x2 host1 ;;;
  movImmediate x3 operation.(o_immediate) ;;;
  movImmediate_pointer x16 (g_pointer g "scalarDoubleXmm"%string) ;;;
  blr x16.

Definition emit_AddXmmDwords (g : CodeGen) (operation : Operation) : M Assembler unit :=
  do! xmm1 <- deref operation.(o_guestXmmRegister);
  movImmediate x1 xmm1 ;;;
  do! source1 <- deref operation.(o_sourceGuestXmmRegister);
  movImmediate x2 source1 ;;;
  movImmediate_pointer x16 (g_pointer g "addXmmDwords128"%string) ;;;
  blr x16.

Definition emit_HorizontalAddXmmDwords (g : CodeGen) (operation : Operation) : M Assembler unit :=
  do! xmm1 <- deref operation.(o_guestXmmRegister);
  movImmediate x1 xmm1 ;;;
  do! source1 <- deref operation.(o_sourceGuestXmmRegister);
  movImmediate x2 source1 ;;;
  movImmediate_pointer x16 (g_pointer g "horizontalAddXmmDwords128"%string) ;;;
  blr x16.

Definition emit_AndNotXmm (g : CodeGen) (operation : Operation) : M Assembler unit :=
  do! xmm1 <- deref operation.(o_guestXmmRegister);
  movImmediate x1 xmm1 ;;;
  do! source1 <- deref operation.(o_sourceGuestXmmRegister);
  movImmediate x2 source1 ;;;
  movImmediate_pointer x16 (g_pointer g "andNotXmm128"%string) ;;;
  blr x16.

Definition emit_MoveXmmByteMask (g : CodeGen) (operation : Operation) : M Assembler unit :=
  do! register1 <- deref operation.(o_guestRegister);
  movImmediate x1 (register_value register1) ;;;
  do! xmm1 <- deref operation.(o_guestXmmRegister);
  movImmediate x2 xmm1 ;;;
  movImmediate_pointer x16 (g_pointer g "moveXmmByteMask32"%string) ;;;
  blr x16.

Definition emit_ShuffleXmmBytes (g : CodeGen) (operation : Operation) : M Assembler unit :=
  match operation.(o_lhs) with
  | Some lhs' =>
      do! fault <- makeLabel;
      do! completed <- makeLabel;
      mov x1 x0 ;;;
      do! host1 <- hostRegister g lhs';
      mov x2 host1 ;;;
      do! xmm1 <- deref operation.(o_guestXmmRegister);
      movImmediate x3 xmm1 ;;;
      mov x0 x19 ;;;
      movImmediate_pointer x16 (g_pointer g "shuffleGuestMemoryXmmBytes"%string) ;;;
      blr x16 ;;;
      cbz x0 fault ;;;
      b completed ;;;
      bindLabel fault ;;;
      emitFaultExit g BlockExit_MemoryFault operation.(o_guestRip) ;;;
      bindLabel completed
  | None =>
      do! xmm2 <- deref operation.(o_guestXmmRegister);
      movImmediate x1 xmm2 ;;;
      do! source1 <- deref operation.(o_sourceGuestXmmRegister);
      movImmediate x2 source1 ;;;
      movImmediate_pointer x16 (g_pointer g "shuffleXmmBytes"%string) ;;;
      blr x16
  end.

Definition emit_ShuffleXmmDwords (g : CodeGen) (operation : Operation) : M Assembler unit :=
  do! xmm1 <- deref operation.(o_guestXmmRegister);
  movImmediate x1 xmm1 ;;;
  do! source1 <- deref operation.(o_sourceGuestXmmRegister);
  movImmediate x2 source1 ;;;
  movImmediate x3 operation.(o_immediate) ;;;
  movImmediate_pointer x16 (g_pointer g "shuffleXmmDwords"%string) ;;;
  blr x16.

Definition emit_AlignRightXmmBytes (g : CodeGen) (operation : Operation) : M Assembler unit :=
  do! xmm1 <- deref operation.(o_guestXmmRegister);
  movImmediate x1 xmm1 ;;;
  do! source1 <- deref operation.(o_sourceGuestXmmRegister);
  movImmediate x2 source1 ;;;
  movImmediate x3 operation.(o_immediate) ;;;
  movImmediate_pointer x16 (g_pointer g "alignRightXmmBytes"%string) ;;;
  blr x16.

Definition emit_BlendXmmWords (g : CodeGen) (operation : Operation) : M Assembler unit :=
  do! xmm1 <- deref operation.(o_guestXmmRegister);
  movImmediate x1 xmm1 ;;;
  do! source1 <- deref operation.(o_sourceGuestXmmRegister);
  movImmediate x2 source1 ;;;
  movImmediate x3 operation.(o_immediate) ;;;
  movImmediate_pointer x16 (g_pointer g "blendXmmWords"%string) ;;;
  blr x16.

Definition emit_UnpackLowXmmWords (g : CodeGen) (operation : Operation) : M Assembler unit :=
  do! xmm1 <- deref operation.(o_guestXmmRegister);
  movImmediate x1 xmm1 ;;;
  do! source1 <- deref operation.(o_sourceGuestXmmRegister);
  movImmediate x2 source1 ;;;
  movImmediate_pointer x16 (g_pointer g "unpackLowXmmWords"%string) ;;;
  blr x16.

Definition emit_BitScanForward (g : CodeGen) (operation : Operation) : M Assembler unit :=
  do! register1 <- deref operation.(o_guestRegister);
  movImmediate x1 (register_value register1) ;;;
  movImmediate x2 operation.(o_immediate) ;;;
  movImmediate x3 (Width_bits operation.(o_width)) ;;;
  movImmediate_pointer x16 (g_pointer g "bitScanForward"%string) ;;;
  blr x16.

Definition emit_BitScanReverse (g : CodeGen) (operation : Operation) : M Assembler unit :=
  do! register1 <- deref operation.(o_guestRegister);
  movImmediate x1 (register_value register1) ;;;
  movImmediate x2 operation.(o_immediate) ;;;
  movImmediate x3 (Width_bits operation.(o_width)) ;;;
  movImmediate_pointer x16 (g_pointer g "bitScanReverse"%string) ;;;
  blr x16.

Definition emitReadSpanGuard (g : CodeGen) : M Assembler unit :=
  do! rejected <- makeLabel;
  do! guarded <- makeLabel;
  pushCallerSaved5Through15 ;;;
  do! directReadSpan1 <- deref (directReadSpan g);
  do! host1 <- hostRegister g directReadSpan1.(dr_address);
  mov x1 host1 ;;;
  do! host2 <- hostRegister g directReadSpan1.(dr_induction);
  mov x2 host2 ;;;
  movImmediate x3 directReadSpan1.(dr_step) ;;;
  movImmediate x4 directReadSpan1.(dr_limit) ;;;
  movImmediate x5 directReadSpan1.(dr_maximumOffset) ;;;
  mov x0 x19 ;;;
  movImmediate_pointer x16 (g_pointer g "validateDirectGuestReadSpan"%string) ;;;
  blr x16 ;;;
  popCallerSaved5Through15 ;;;
  mov x3 x0 ;;;
  mov x0 x25 ;;;
  cbz x3 rejected ;;;
  movImmediate x4 1 ;;;
  b guarded ;;;
  bindLabel rejected ;;;
  movImmediate x4 0 ;;;
  movImmediate x20 0 ;;;
  bindLabel guarded.

Definition emit_LoadGuest (g : CodeGen) (operation : Operation) (operationIndex : nat) (directReadFastEntry :
    option Z) : M Assembler (option Z) :=
  do! fault <- makeLabel;
  do! loaded <- makeLabel;
  do! completed <- makeLabel;
  let directByteRead := pinsDirectRead g && width_is I8 operation in
  do! checkedHelper <- makeLabel;
  do! directFast <- makeLabel;
  do! adjacent <- at_index_in (adjacentDirectReads g) operationIndex;
  do! test1 <- (if present (directReadSpan g) then do! directReadSpan1 <- deref (directReadSpan g); ret
      ((operationIndex =? directReadSpan1.(dr_firstLoadOperationIndex))%nat) else ret false);
  do! directReadFastEntry <- (if test1 then
      ret (Some directFast)
  else
      ret directReadFastEntry);
  (if directByteRead then
      do! test2 <- (if present adjacent then do! adjacent1 <- deref adjacent; ret (negb adjacent1.(ad_first)) else
          ret false);
      cbnz (if test2 then x4 else x20) directFast ;;;
      bindLabel checkedHelper ;;;
      (if sinkLogicFlags g then
          (match sunkLogicFlagUpdateAt (g_block g) operationIndex with
          | Some updateIndex' =>
              do! update <- lift (operation_at (g_block g) updateIndex');
              do! lhs1 <- deref update.(o_lhs);
              do! host1 <- hostRegister g lhs1;
              emitLogicFlags g host1 update.(o_width)
          | None =>
              ret tt
          end)
      else
          ret tt)
  else
      ret tt) ;;;
  mov x4 x0 ;;;
  do! lhs2 <- deref operation.(o_lhs);
  do! host2 <- hostRegister g lhs2;
  mov x2 host2 ;;;
  mov x1 x4 ;;;
  mov x0 x19 ;;;
  movImmediate_pointer x16 (if width_is I8 operation then g_pointer g "loadGuest8"%string else if width_is I16
      operation then g_pointer g "loadGuest16"%string else if width_is I32 operation then g_pointer g
      "loadGuest32"%string else g_pointer g "loadGuest64"%string) ;;;
  (if directByteRead then
      pushCallerSaved5Through15
  else
      ret tt) ;;;
  blr x16 ;;;
  (if directByteRead then
      popCallerSaved5Through15
  else
      ret tt) ;;;
  cbz x0 fault ;;;
  b loaded ;;;
  bindLabel fault ;;;
  emitFaultExit g BlockExit_MemoryFault operation.(o_guestRip) ;;;
  bindLabel loaded ;;;
  do! result1 <- deref operation.(o_result);
  do! host3 <- hostRegister g result1;
  ldr host3 x19 loadedValueOffset ;;;
  (if directByteRead then
      ldr x20 x19 (u32 (directReadOffset + cacheBytesOffset)) ;;;
      ldr x21 x19 (u32 (directReadOffset + cacheBaseOffset)) ;;;
      ldr x22 x19 (u32 (directReadOffset + cacheSizeOffset)) ;;;
      do! test3 <- (if present (directReadSpan g) then do! directReadSpan2 <- deref (directReadSpan g); ret
          ((operationIndex =? directReadSpan2.(dr_firstLoadOperationIndex))%nat) else ret false);
      (if test3 then
          emitReadSpanGuard g
      else
          (match adjacent with
          | Some _ =>
              movImmediate x4 0
          | None =>
              ret tt
          end)) ;;;
      b completed ;;;
      bindLabel directFast ;;;
      do! test4 <- (if present (directReadSpan g) then do! directReadSpan3 <- deref (directReadSpan g); ret
          ((operationIndex =? directReadSpan3.(dr_firstLoadOperationIndex))%nat) else ret false);
      (if test4 then
          do! host4 <- hostRegister g result1;
          ldr8 host4 x3 0
      else
          do! test5 <- (if present adjacent then do! adjacent2 <- deref adjacent; ret (negb adjacent2.(ad_first))
              else ret false);
          (if test5 then
              do! host5 <- hostRegister g result1;
              do! adjacent3 <- deref adjacent;
              ldr8 host5 x3 adjacent3.(ad_offset)
          else
              do! host6 <- hostRegister g lhs2;
              sub x17 host6 x21 ;;;
              (match adjacent with
              | Some adjacent' =>
                  addImmediate x16 x17 adjacent'.(ad_maximumOffset) ;;;
                  compare x16 x22
              | None =>
                  compare x17 x22
              end) ;;;
              bUnsignedHigherOrSame checkedHelper ;;;
              add (match adjacent with Some _ => x3 | None => x16 end) x20 x17 ;;;
              do! host7 <- hostRegister g result1;
              ldr8 host7 (match adjacent with Some _ => x3 | None => x16 end) 0 ;;;
              (match adjacent with
              | Some _ =>
                  movImmediate x4 1
              | None =>
                  ret tt
              end)))
  else
      ret tt) ;;;
  bindLabel completed ;;;
  ret directReadFastEntry.

Definition emit_Cpuid (g : CodeGen) (operation : Operation) : M Assembler unit :=
  movImmediate_pointer x16 (g_pointer g "cpuidGuest"%string) ;;;
  blr x16.

Definition emit_ReadTimestampCounter (g : CodeGen) (operation : Operation) : M Assembler unit :=
  do! fault <- makeLabel;
  do! sampled <- makeLabel;
  mov x4 x0 ;;;
  mov x1 x4 ;;;
  mov x0 x19 ;;;
  movImmediate_pointer x16 (g_pointer g "readTimestampCounter"%string) ;;;
  blr x16 ;;;
  cbz x0 fault ;;;
  b sampled ;;;
  bindLabel fault ;;;
  emitFaultExit g BlockExit_ExecutionFault operation.(o_guestRip) ;;;
  bindLabel sampled.
