(* ===== verification/Backend.v ===== *)
(** The code generator: [compile] of [src/arm64/Backend.cpp].

    The analyses ([makePlan]), the prologue, the cases of the switch in the order of the
    operations, and the patching of the branches. *)
From S2P Require Import Prelude X86State Assembler IR IRVerify Optimization BackendAnalysis BackendPlan BackendBase BackendScalar BackendMemory.

(** The switch; the two fast entries are the labels of the loop's direct store and load. *)
Definition emitOperation (g : CodeGen) (operation : Operation) (operationIndex : nat)
    (directWriteFastEntry directReadFastEntry : option Z) : M Assembler (option Z * option Z) :=
  let keep := ret (directWriteFastEntry, directReadFastEntry) in
  match operation.(o_opcode) with
  | Op_Constant => emit_Constant g operation ;;; keep
  | Op_ReadGuestReg => emit_ReadGuestReg g operation ;;; keep
  | Op_ReadGuestGsBase => emit_ReadGuestGsBase g operation ;;; keep
  | Op_ReadGuestXmmLane => emit_ReadGuestXmmLane g operation ;;; keep
  | Op_ReadGuestYmmUpperLane => emit_ReadGuestYmmUpperLane g operation ;;; keep
  | Op_WriteGuestReg => emit_WriteGuestReg g operation operationIndex ;;; keep
  | Op_ConditionalMoveGuestReg => emit_ConditionalMoveGuestReg g operation operationIndex ;;; keep
  | Op_WriteGuestXmmLane => emit_WriteGuestXmmLane g operation ;;; keep
  | Op_WriteGuestYmmUpperLane => emit_WriteGuestYmmUpperLane g operation ;;; keep
  | Op_WriteGuestXmmByte => emit_WriteGuestXmmByte g operation ;;; keep
  | Op_WriteGuestXmmDword => emit_WriteGuestXmmDword g operation ;;; keep
  | Op_Add => emit_Add g operation ;;; keep
  | Op_Sub => emit_Sub g operation ;;; keep
  | Op_ShiftLeft => emit_ShiftLeft g operation ;;; keep
  | Op_ShiftRightLogical => emit_ShiftRightLogical g operation ;;; keep
  | Op_ShiftRightArithmetic => emit_ShiftRightArithmetic g operation ;;; keep
  | Op_MultiplyLow => emit_MultiplyLow g operation ;;; keep
  | Op_MultiplyHighUnsigned => emit_MultiplyHighUnsigned g operation ;;; keep
  | Op_MultiplyHighSigned => emit_MultiplyHighSigned g operation ;;; keep
  | Op_ShiftRightDouble => emit_ShiftRightDouble g operation ;;; keep
  | Op_And => emit_And g operation ;;; keep
  | Op_Or => emit_Or g operation ;;; keep
  | Op_Xor => emit_Xor g operation ;;; keep
  | Op_SignExtend32 => emit_SignExtend32 g operation ;;; keep
  | Op_ByteSwap => emit_ByteSwap g operation ;;; keep
  | Op_EvaluateCondition => emit_EvaluateCondition g operation operationIndex ;;; keep
  | Op_Push => emit_Push g operation ;;; keep
  | Op_RepeatMoveByte => emit_RepeatMoveByte g operation ;;; keep
  | Op_RepeatStore => emit_RepeatStore g operation ;;; keep
  | Op_DivideUnsignedByte => emit_DivideUnsignedByte g operation ;;; keep
  | Op_DivideUnsignedDword => emit_DivideUnsignedDword g operation ;;; keep
  | Op_DivideSignedDword => emit_DivideSignedDword g operation ;;; keep
  | Op_DivideUnsignedQword => emit_DivideUnsignedQword g operation ;;; keep
  | Op_AddGuestMemory => emit_AddGuestMemory g operation ;;; keep
  | Op_SubGuestMemory => emit_SubGuestMemory g operation ;;; keep
  | Op_OrGuestMemory => emit_OrGuestMemory g operation ;;; keep
  | Op_AndGuestMemory => emit_AndGuestMemory g operation ;;; keep
  | Op_ShiftLeftGuestMemory => emit_ShiftLeftGuestMemory g operation ;;; keep
  | Op_ShiftRightGuestMemory => emit_ShiftRightGuestMemory g operation ;;; keep
  | Op_IncrementGuestMemory => emit_IncrementGuestMemory g operation ;;; keep
  | Op_DecrementGuestMemory => emit_DecrementGuestMemory g operation ;;; keep
  | Op_CompareExchangeGuestMemory => emit_CompareExchangeGuestMemory g operation ;;; keep
  | Op_CompareExchangeGuestPair => emit_CompareExchangeGuestPair g operation ;;; keep
  | Op_ExchangeGuestMemory => emit_ExchangeGuestMemory g operation ;;; keep
  | Op_LockedAddGuestMemory => emit_LockedAddGuestMemory g operation ;;; keep
  | Op_LockedExchangeAddGuestMemory => emit_LockedExchangeAddGuestMemory g operation ;;; keep
  | Op_LockedOrGuestMemory => emit_LockedOrGuestMemory g operation ;;; keep
  | Op_LockedBitSetGuestMemory => emit_LockedBitSetGuestMemory g operation ;;; keep
  | Op_LockedAndGuestMemory => emit_LockedAndGuestMemory g operation ;;; keep
  | Op_LockedIncrementGuestMemory | Op_LockedDecrementGuestMemory => emit_LockedIncrementGuestMemory g operation
      ;;; keep
  | Op_StoreGuest => do! fast <- emit_StoreGuest g operation directWriteFastEntry; ret (fast, directReadFastEntry)
  | Op_StoreGuestIdtr => emit_StoreGuestIdtr g operation ;;; keep
  | Op_StoreGuestXmm => emit_StoreGuestXmm g operation ;;; keep
  | Op_StoreGuestYmm => emit_StoreGuestYmm g operation ;;; keep
  | Op_LoadGuestXmm => emit_LoadGuestXmm g operation ;;; keep
  | Op_LoadGuestYmm => emit_LoadGuestYmm g operation ;;; keep
  | Op_LoadGuestSignExtendedBytesXmm => emit_LoadGuestSignExtendedBytesXmm g operation ;;; keep
  | Op_LoadGuestSignExtendedDwordsXmm => emit_LoadGuestSignExtendedDwordsXmm g operation ;;; keep
  | Op_CompareEqualGuestBytesXmm => emit_CompareEqualGuestBytesXmm g operation ;;; keep
  | Op_CompareEqualGuestQwordsXmm => emit_CompareEqualGuestQwordsXmm g operation ;;; keep
  | Op_ArithmeticGuestMemoryPackedDoubleXmm => emit_ArithmeticGuestMemoryPackedDoubleXmm g operation ;;; keep
  | Op_UnpackHighGuestPackedSingleXmm => emit_UnpackHighGuestPackedSingleXmm g operation ;;; keep
  | Op_HorizontalAddGuestPackedDoubleXmm => emit_HorizontalAddGuestPackedDoubleXmm g operation ;;; keep
  | Op_UnpackLowGuestPackedSingleXmm => emit_UnpackLowGuestPackedSingleXmm g operation ;;; keep
  | Op_XorGuestMemoryXmm => emit_XorGuestMemoryXmm g operation ;;; keep
  | Op_AndGuestMemoryXmm => emit_AndGuestMemoryXmm g operation ;;; keep
  | Op_AddGuestMemoryXmm => emit_AddGuestMemoryXmm g operation ;;; keep
  | Op_TestXmmBits => emit_TestXmmBits g operation ;;; keep
  | Op_CompareEqualXmmBytes => emit_CompareEqualXmmBytes g operation ;;; keep
  | Op_CompareEqualXmmDwords => emit_CompareEqualXmmDwords g operation ;;; keep
  | Op_CompareEqualXmmQwords => emit_CompareEqualXmmQwords g operation ;;; keep
  | Op_ShiftLeftXmmDwords => emit_ShiftLeftXmmDwords g operation ;;; keep
  | Op_AddXmmWords => emit_AddXmmWords g operation ;;; keep
  | Op_ComparePackedDoubleXmm => emit_ComparePackedDoubleXmm g operation ;;; keep
  | Op_ArithmeticPackedDoubleXmm => emit_ArithmeticPackedDoubleXmm g operation ;;; keep
  | Op_UnpackHighPackedSingleXmm => emit_UnpackHighPackedSingleXmm g operation ;;; keep
  | Op_HorizontalAddPackedDoubleXmm => emit_HorizontalAddPackedDoubleXmm g operation ;;; keep
  | Op_UnpackLowPackedSingleXmm => emit_UnpackLowPackedSingleXmm g operation ;;; keep
  | Op_UpdateUnorderedDoubleFlags => emit_UpdateUnorderedDoubleFlags g operation ;;; keep
  | Op_UpdateUnorderedFloatFlags => emit_UpdateUnorderedFloatFlags g operation ;;; keep
  | Op_ConvertIntToDoubleXmm => emit_ConvertIntToDoubleXmm g operation ;;; keep
  | Op_ConvertDoubleToInt => emit_ConvertDoubleToInt g operation ;;; keep
  | Op_ConvertFloatToDoubleXmm => emit_ConvertFloatToDoubleXmm g operation ;;; keep
  | Op_ConvertInt32x2ToDoubleXmm => emit_ConvertInt32x2ToDoubleXmm g operation ;;; keep
  | Op_ScalarDoubleXmm => emit_ScalarDoubleXmm g operation ;;; keep
  | Op_AddXmmDwords => emit_AddXmmDwords g operation ;;; keep
  | Op_HorizontalAddXmmDwords => emit_HorizontalAddXmmDwords g operation ;;; keep
  | Op_AndNotXmm => emit_AndNotXmm g operation ;;; keep
  | Op_MoveXmmByteMask => emit_MoveXmmByteMask g operation ;;; keep
  | Op_ShuffleXmmBytes => emit_ShuffleXmmBytes g operation ;;; keep
  | Op_ShuffleXmmDwords => emit_ShuffleXmmDwords g operation ;;; keep
  | Op_AlignRightXmmBytes => emit_AlignRightXmmBytes g operation ;;; keep
  | Op_BlendXmmWords => emit_BlendXmmWords g operation ;;; keep
  | Op_UnpackLowXmmWords => emit_UnpackLowXmmWords g operation ;;; keep
  | Op_BitScanForward => emit_BitScanForward g operation ;;; keep
  | Op_BitScanReverse => emit_BitScanReverse g operation ;;; keep
  | Op_LoadGuest => do! fast <- emit_LoadGuest g operation operationIndex directReadFastEntry; ret
      (directWriteFastEntry, fast)
  | Op_LoadFence => emit_LoadFence g operation ;;; keep
  | Op_StoreFence => emit_StoreFence g operation ;;; keep
  | Op_WriteDirectionFlag => emit_WriteDirectionFlag g operation ;;; keep
  | Op_Cpuid => emit_Cpuid g operation ;;; keep
  | Op_ReadTimestampCounter => emit_ReadTimestampCounter g operation ;;; keep
  | Op_UpdateAddFlags | Op_UpdateSubFlags => emit_UpdateAddFlags g operation ;;; keep
  | Op_UpdateAdcFlags => emit_UpdateAdcFlags g operation ;;; keep
  | Op_UpdateSbbFlags => emit_UpdateSbbFlags g operation ;;; keep
  | Op_UpdateIncFlags => emit_UpdateIncFlags g operation ;;; keep
  | Op_UpdateDecFlags => emit_UpdateDecFlags g operation ;;; keep
  | Op_UpdateLogicFlags => emit_UpdateLogicFlags g operation ;;; keep
  | Op_UpdateShiftLeftFlags => emit_UpdateShiftLeftFlags g operation ;;; keep
  | Op_UpdateShiftRightFlags => emit_UpdateShiftRightFlags g operation ;;; keep
  | Op_UpdateShiftRightArithmeticFlags => emit_UpdateShiftRightArithmeticFlags g operation ;;; keep
  | Op_UpdateRotateLeftFlags => emit_UpdateRotateLeftFlags g operation ;;; keep
  | Op_UpdateRotateRightFlags => emit_UpdateRotateRightFlags g operation ;;; keep
  | Op_UpdateMultiplyFlags => emit_UpdateMultiplyFlags g operation ;;; keep
  | Op_UpdateSignedMultiplyFlags => emit_UpdateSignedMultiplyFlags g operation ;;; keep
  | Op_UpdateShiftRightDoubleFlags => emit_UpdateShiftRightDoubleFlags g operation ;;; keep
  | Op_UpdateBitTestFlags => emit_UpdateBitTestFlags g operation ;;; keep
  | Op_ExitBlock => emit_ExitBlock g operation directWriteFastEntry directReadFastEntry ;;; keep
  end.

(** The operations no code is emitted for: dead, sunk and deferred flag updates, and the
    subtraction of the deferred one. *)
Definition skipsOperation (g : CodeGen) (operationIndex : nat) : bool :=
  isDeadFlagUpdate g.(g_block) operationIndex (eliminateFusedFlagUpdates g) ||
  (sinkLogicFlags g && present (logicFlagSinkTarget g.(g_block) operationIndex)) ||
  bool_decide (deferredExitUpdate g = Some operationIndex) ||
  bool_decide (deferredExitResultOperation g = Some operationIndex).

Fixpoint emitOperations (g : CodeGen) (operations : list Operation) (operationIndex : nat)
    (directWriteFastEntry directReadFastEntry : option Z) : M Assembler unit :=
  match operations with
  | [] => ret tt
  | operation :: rest =>
      if skipsOperation g operationIndex then emitOperations g rest (S operationIndex) directWriteFastEntry directReadFastEntry
      else
        do! (write, read) <- emitOperation g operation operationIndex directWriteFastEntry directReadFastEntry;
        emitOperations g rest (S operationIndex) write read
  end.

Definition emitBlock (g : CodeGen) : M Assembler unit :=
  emitPrologue g ;;;
  do! entry <- makeLabel;
  bindLabel entry ;;;
  emitOperations g g.(g_block).(b_operations) 0 None None.

Definition compile (pointer : string -> Z) (block : Block) (retainProgramListing : bool) : outcome Program :=
  let! plan := makePlan block in
  match emitBlock (mkCodeGen block plan pointer) (newAssembler retainProgramListing) with
  | (assembler, Ok _) => finish assembler
  | (_, Throw e) => Throw e
  | (_, Undefined) => Undefined
  end.
