(* ===== verification/BackendLogic.v ===== *)
(** Reasoning about emitted code: the A64 control flow the reference [AArch64] leaves out,
    and a logic of emission functions.

    [triple n O O' E c P Q]: in every assembler state where the labels [O] wait to be bound,
    [c] emits code and leaves [O'] waiting; wherever the finished program puts that code,
    running it from a machine in [P] falls out of its end in [Q], or jumps to a label of [E]
    in the assertion [E] gives it.  [n] bounds the labels [c] makes. *)
From stdpp Require Import relations.
From S2P Require Import Prelude AArch64 Assembler AssemblerSpec AssemblerFlow AssemblerBranch.

(** ** Programs *)

(** One instruction at [pc], branches included. *)
Definition next (i : instr) (pc : Z) (m : machine) : option (Z * machine) :=
  match i with
  | Branch d => Some (pc + d, m)
  | BranchCond c d => Some (if cond_holds m c then pc + d else pc + 1, m)
  | CompareBranch nonzero rt d => Some (if xorb nonzero (rX m true rt =? 0) then pc + d else pc + 1, m)
  | TestBranch nonzero rt bit d =>
      Some (if Bool.eqb nonzero (Z.testbit (rX m true rt) bit) then pc + d else pc + 1, m)
  | _ => m' ← exec i m; Some (pc + 1, m')
  end.

Definition Code : Type := Z -> option instr.

(** The instructions of a finished program. *)
Definition code_of (p : Program) : Code := fun pc =>
  if (0 <=? pc) && (4 * pc <? zlength p.(p_bytes)) then decode (word_at p.(p_bytes) (Z.to_nat pc)) else None.

Definition steps (F : Code) (s s' : Z * machine) : Prop := exists i, F s.1 = Some i /\ next i s.1 s.2 = Some s'.

(** Execution up to a RET. *)
Fixpoint execute (F : Code) (fuel : nat) (pc : Z) (m : machine) : option machine :=
  match F pc with
  | Some (Return _) => Some m
  | Some i =>
      match fuel with
      | O => None
      | S fuel => match next i pc m with Some (pc, m) => execute F fuel pc m | None => None end
      end
  | None => None
  end.

Lemma execute_reaches F s s' r : rtc (steps F) s s' -> F s'.1 = Some (Return r) ->
  exists fuel, forall more, (fuel <= more)%nat -> execute F more s.1 s.2 = Some s'.2.
Proof.
  induction 1 as [s|s s1 s' (i & Hi & Hn) _ IH]; intros Hr.
  - exists O. intros more _. destruct more; cbn; by rewrite Hr.
  - destruct (IH Hr) as [fuel Hf]. exists (S fuel). intros [|more] Hm; [lia|]. cbn [execute]. rewrite Hi, Hn.
    destruct s1 as [pc1 m1]. cbn [fst snd] in *. rewrite Hf by lia. by destruct i.
Qed.

(** [decode] looks at 32 bits. *)
Lemma field_wrap w lo n : 0 <= lo -> 0 <= n -> lo + n <= 32 -> field (wrap 32 w) lo n = field w lo n.
Proof.
  intros Hlo Hn Hle. apply Z.bits_inj'. intros i Hi. unfold field.
  rewrite !Z.land_spec, !Z.shiftr_spec, wrap_testbit, Z.testbit_ones_nonneg by lia.
  destruct (Z.ltb_spec i n); [|by rewrite !andb_false_r]. by destruct (Z.ltb_spec (i + lo) 32); [|lia].
Qed.

Lemma flag_wrap w lo : 0 <= lo < 32 -> flag (wrap 32 w) lo = flag w lo.
Proof. intros H. unfold flag. rewrite wrap_testbit by lia. by destruct (Z.ltb_spec lo 32); [|lia]. Qed.

Lemma decode_wrap w : decode (wrap 32 w) = decode w.
Proof.
  unfold decode, decode_branch_register, decode_system, decode_logical, decode_addsub_shifted, decode_addsub_imm,
    decode_wide, decode_bitfield, decode_extract, decode_load_store, decode_pair, decode_two_source,
    decode_one_source, decode_three_source, decode_select.
  rewrite !field_wrap by lia. by rewrite !flag_wrap by lia.
Qed.

(** ** Assembler states *)

(** The part of [wf] that decoding needs. *)
Record sound (a : Assembler) : Prop := {
  sound_fixups : Forall (fixup_ok a.(labelPositions_) a.(words_)) a.(fixups_);
  sound_distinct : NoDup (map f_wordIndex a.(fixups_));
  sound_positions : Forall (position_ok (zlength a.(words_))) a.(labelPositions_)
}.

(** [a'] holds the code of [a], at the same place, and more. *)
Record grows (a a' : Assembler) : Prop := {
  grows_words : exists ws, a'.(words_) = a.(words_) ++ ws;
  grows_fixups : exists fs, a'.(fixups_) = a.(fixups_) ++ fs /\
    Forall (fun fx => (length a.(words_) <= fx.(f_wordIndex))%nat) fs;
  grows_labels : forall l p, a.(labelPositions_) !! l = Some (Some p) -> a'.(labelPositions_) !! l = Some (Some p)
}.

(** The program [F] with the label positions [L] contains the code of [a]. *)
Record agrees (F : Code) (L : list (option Z)) (a : Assembler) : Prop := {
  agrees_words : forall i w, i ∉ map f_wordIndex a.(fixups_) -> a.(words_) !! i = Some w -> F (Z.of_nat i) = decode w;
  agrees_fixups : forall fx, fx ∈ a.(fixups_) -> forall word f, a.(words_) !! fx.(f_wordIndex) = Some word ->
    branch_word fx.(f_kind) word f -> exists target,
      L !! Z.to_nat fx.(f_label) = Some (Some target) /\
      F (Z.of_nat fx.(f_wordIndex)) = Some (f (target - Z.of_nat fx.(f_wordIndex)));
  agrees_labels : forall l p, a.(labelPositions_) !! l = Some (Some p) -> L !! l = Some (Some p)
}.

Lemma grows_refl a : grows a a.
Proof.
  split; [exists []; by rewrite app_nil_r|exists []; split; [by rewrite app_nil_r|constructor]|done].
Qed.

Lemma grows_length a a' : grows a a' -> (length a.(words_) <= length a'.(words_))%nat.
Proof. intros [[ws ->] _ _]. rewrite length_app. lia. Qed.

Lemma grows_trans a b c : grows a b -> grows b c -> grows a c.
Proof.
  intros Hab [[ws2 E2] [fs2 [F2 G2]] L2]. pose proof (grows_length _ _ Hab). destruct Hab as [[ws1 E1] [fs1 [F1 G1]] L1].
  split.
  - exists (ws1 ++ ws2). by rewrite E2, E1, app_assoc.
  - exists (fs1 ++ fs2). split; [by rewrite F2, F1, app_assoc|]. apply Forall_app. split; [done|].
    eapply Forall_impl; [exact G2|]. cbn. intros fx. lia.
  - intros l p Hl. by apply L2, L1.
Qed.

Lemma agrees_grows F L a a' : sound a -> grows a a' -> agrees F L a' -> agrees F L a.
Proof.
  intros Hs [[ws Ew] [fs [Ef Gf]] Gl] [A1 A2 A3]. split.
  - intros i w Hi Hw. apply A1; [|rewrite Ew; by apply lookup_app_l_Some].
    rewrite Ef, map_app, not_elem_of_app. split; [done|]. intros (fx & -> & Hfx)%list_elem_of_fmap.
    apply lookup_lt_Some in Hw. rewrite Forall_forall in Gf. specialize (Gf fx Hfx). lia.
  - intros fx Hfx word f Hw Hb. apply (A2 fx) with word; [rewrite Ef; apply elem_of_app; by left| |done].
    rewrite Ew. by apply lookup_app_l_Some.
  - intros l p Hl. by apply A3, Gl.
Qed.

Lemma le_value_bytes_wrap n v : le_value (le_bytes n v) = wrap (8 * Z.of_nat n) v.
Proof.
  revert v. induction n as [|n IH]; intros v; cbn [le_bytes le_value]; [unfold wrap; by rewrite Z.mod_1_r|].
  rewrite IH. apply Z.bits_inj'. intros i Hi.
  rewrite Z.lor_spec, Z.shiftl_spec by lia. unfold u8. rewrite wrap_testbit by lia.
  destruct (Z.ltb_spec i 8).
  - rewrite (Z.testbit_neg_r _ (i - 8)) by lia. rewrite wrap_testbit by lia. rewrite orb_false_r.
    by destruct (Z.ltb_spec i (8 * Z.of_nat (S n))); [|lia].
  - cbn [andb orb]. rewrite !wrap_testbit, Z.shiftr_spec by lia. replace (i - 8 + 8) with i by lia.
    destruct (Z.ltb_spec (i - 8) (8 * Z.of_nat n)), (Z.ltb_spec i (8 * Z.of_nat (S n))); (done || lia).
Qed.

Lemma word_at_decodes words : forall i w, words !! i = Some w ->
  decode (word_at (concat (map word_bytes words)) i) = decode w.
Proof.
  unfold word_at. induction words as [|v words IH]; intros [|i] w Hi; try done; cbn [map concat].
  - injection Hi as ->. rewrite word_bytes_le. change (4 * 0)%nat with 0%nat.
    rewrite drop_0, take_app_length' by done. rewrite le_value_bytes_wrap. apply decode_wrap.
  - rewrite drop_app_ge by (cbn; lia). cbn [length word_bytes].
    replace (4 * S i - 4)%nat with (4 * i)%nat by lia. by apply IH.
Qed.

(** What [finish] makes of a sound state. *)
Lemma finish_sound a : sound a ->
  match finish a with
  | Ok p => agrees (code_of p) a.(labelPositions_) a /\ zlength p.(p_bytes) = 4 * zlength a.(words_)
  | Throw e => 2 ^ 62 <= zlength a.(words_) \/
      exists fixup, fixup ∈ a.(fixups_) /\ unresolvable a.(labelPositions_) fixup e
  | Undefined => False
  end.
Proof.
  intros [Hf Hd Hp]. unfold finish. destruct (Z.ltb_spec (2 ^ 63 - 1) (zlength a.(words_))); [left; lia|].
  assert (Forall (fun fx => 0 <= fx.(f_label) < zlength a.(labelPositions_) /\
    (fx.(f_wordIndex) < length a.(words_))%nat) a.(fixups_)) as Hr.
  { eapply Forall_impl; [exact Hf|]. intros fx Hfx. split; [apply Hfx|]. by eapply fixup_index. }
  pose proof (apply_fixups_spec _ _ _ Hr Hd) as H1.
  destruct (apply_fixups _ _ _) as [ws|e|]; cbn [outcome_bind]; [|by right|done].
  destruct H1 as (Hlen & Hout & Hin).
  assert (zlength ws = zlength a.(words_)) as Hz by (unfold zlength; by rewrite Hlen).
  rewrite Hz. destruct (Z.ltb_spec (UINT64_MAX / 4) (zlength a.(words_))) as [Hbig|_].
  { left. change (UINT64_MAX / 4) with (2 ^ 62 - 1) in Hbig. lia. }
  split; [|cbn [p_bytes]; by rewrite length_program_bytes, Hz].
  assert (forall i w, ws !! i = Some w -> code_of (mkProgram (concat (map word_bytes ws)) (listing_ a)
    (pointerRelocations_ a)) (Z.of_nat i) = decode w) as Hcode.
  { intros i w Hi. unfold code_of. cbn [p_bytes]. rewrite length_program_bytes. apply lookup_lt_Some in Hi as Hlt.
    destruct (Z.leb_spec 0 (Z.of_nat i)); [|lia]. unfold zlength.
    destruct (Z.ltb_spec (4 * Z.of_nat i) (4 * Z.of_nat (length ws))); [|lia]. cbn [andb].
    rewrite Nat2Z.id. by apply word_at_decodes. }
  split.
  - intros i w Hi Hw. apply Hcode. by rewrite Hout.
  - intros fx Hfx word f Hw Hb. destruct (Hin fx Hfx) as (target & w & El & Ew & Hreach & E).
    rewrite Hw in Ew. injection Ew as <-. exists target. split; [done|].
    rewrite (Hcode _ _ E). by apply Hb.
  - done.
Qed.

(** ** The logic *)

Definition Assertion : Type := machine -> Prop.
(** Labels that may be jumped to, with what holds there. *)
Definition Exits : Type := list (Z * Assertion).

(** The labels [O] wait to be bound; every other branch has its target. *)
Record opened (O : list Z) (a : Assembler) : Prop := {
  opened_distinct : NoDup O;
  opened_pending : forall l, l ∈ O -> 0 <= l /\ a.(labelPositions_) !! Z.to_nat l = Some None;
  opened_fixups : forall fx, fx ∈ a.(fixups_) -> fx.(f_label) ∈ O \/
    exists p, a.(labelPositions_) !! Z.to_nat fx.(f_label) = Some (Some p)
}.

Definition label_count (a : Assembler) : Z := zlength a.(labelPositions_).

(** Where the code of a triple leaves the machine. *)
Definition leaves (L : list (option Z)) (E : Exits) (last pc : Z) (Q : Assertion) (m : machine) : Prop :=
  (pc = last /\ Q m) \/ exists l I, (l, I) ∈ E /\ L !! Z.to_nat l = Some (Some pc) /\ I m.

Definition triple (n : Z) (O O' : list Z) (E : Exits) (c : M Assembler unit) (P Q : Assertion) : Prop :=
  forall a, sound a -> opened O a -> label_count a + n <= 2 ^ 32 ->
  exists a', c a = (a', Ok tt) /\ sound a' /\ opened O' a' /\ label_count a' <= label_count a + n /\ grows a a' /\
    forall F L, agrees F L a' -> forall m, P m ->
    exists pc m', rtc (steps F) (zlength a.(words_), m) (pc, m') /\ leaves L E (zlength a'.(words_)) pc Q m'.

(** [c] computes [x] and leaves the assembler alone. *)
Definition returns {A} (c : M Assembler A) (x : A) : Prop := forall a, c a = (a, Ok x).

Lemma returns_ret {A} (x : A) : returns (ret x) x.
Proof. done. Qed.

Lemma returns_bind {A B} (c : M Assembler A) (k : A -> M Assembler B) x y : returns c x -> returns (k x) y ->
  returns (do! x <- c; k x) y.
Proof. intros Hc Hk a. unfold bind. by rewrite Hc. Qed.

Lemma triple_returns {A} n O O' E (c : M Assembler A) k x P Q : returns c x -> triple n O O' E (k x) P Q ->
  triple n O O' E (do! x <- c; k x) P Q.
Proof. intros Hc H a. unfold bind. rewrite Hc. apply H. Qed.

(** Two computations that do the same. *)
Definition same {A} (c d : M Assembler A) : Prop := forall a, c a = d a.

Lemma same_assoc {A B C} (c : M Assembler A) (k : A -> M Assembler B) (h : B -> M Assembler C) :
  same (do! y <- (do! x <- c; k x); h y) (do! x <- c; do! y <- k x; h y).
Proof. intros a. unfold bind. by destruct (c a) as [a1 [x|e|]]. Qed.

Lemma same_bind {A B} (c d : M Assembler A) (k h : A -> M Assembler B) : same c d -> (forall x, same (k x) (h x)) ->
  same (do! x <- c; k x) (do! x <- d; h x).
Proof. intros Hc Hk a. unfold bind. rewrite Hc. destruct (d a) as [a1 [x|e|]]; [apply Hk|done|done]. Qed.

Lemma triple_same n O O' E c d P Q : same c d -> triple n O O' E d P Q -> triple n O O' E c P Q.
Proof. intros Hs H a. rewrite Hs. apply H. Qed.

Lemma triple_conseq n n' O O' (E : Exits) c (P P' Q Q' : Assertion) : n' <= n -> (forall m, P m -> P' m) ->
  (forall m, Q' m -> Q m) -> triple n' O O' E c P' Q' -> triple n O O' E c P Q.
Proof.
  intros Hn HP HQ H a Hs Ho Hl. destruct (H a Hs Ho ltac:(lia)) as (a' & Ec & Hs' & Ho' & Hl' & Hg & Hr).
  exists a'. split_and!; try done; [lia|]. intros F L Hag m Hm.
  destruct (Hr F L Hag m (HP m Hm)) as (pc & m' & Hsteps & Hq). exists pc, m'. split; [done|].
  destruct Hq as [[-> Hq]|Hq]; [left|by right]. auto.
Qed.

Lemma triple_pre n O O' E c (P P' Q : Assertion) : (forall m, P m -> P' m) -> triple n O O' E c P' Q ->
  triple n O O' E c P Q.
Proof. intros HP. by apply triple_conseq. Qed.

Lemma triple_post n O O' E c (P Q Q' : Assertion) : (forall m, Q' m -> Q m) -> triple n O O' E c P Q' ->
  triple n O O' E c P Q.
Proof. intros HQ. by apply triple_conseq. Qed.

(** A fact about the assertion can be assumed. *)
Lemma triple_exists {A} n O O' E c (P : A -> Assertion) Q : (forall x, triple n O O' E c (P x) Q) ->
  A -> triple n O O' E c (fun m => exists x, P x m) Q.
Proof.
  intros H x a Hs Ho Hl. destruct (H x a Hs Ho Hl) as (a' & Ec & Hs' & Ho' & Hl' & Hg & _).
  exists a'. split_and!; try done. intros F L Hag m (y & Hy).
  destruct (H y a Hs Ho Hl) as (a2 & Ec2 & _ & _ & _ & _ & Hr). rewrite Ec in Ec2. injection Ec2 as <-. by apply Hr.
Qed.

Lemma triple_ret O E (P : Assertion) : triple 0 O O E (ret tt) P P.
Proof.
  intros a Hs Ho Hl. exists a. split_and!; try done; [unfold label_count; lia|apply grows_refl|].
  intros F L Hag m Hm. exists (zlength a.(words_)), m. split; [apply rtc_refl|by left].
Qed.

Lemma triple_seq n1 n2 O O1 O2 E c d (P Q R : Assertion) : 0 <= n1 -> 0 <= n2 ->
  triple n1 O O1 E c P Q -> triple n2 O1 O2 E d Q R -> triple (n1 + n2) O O2 E (c ;;; d) P R.
Proof.
  intros Hn1 Hn2 Hc Hd a Hs Ho Hl. destruct (Hc a Hs Ho ltac:(lia)) as (a1 & Ec & Hs1 & Ho1 & Hl1 & Hg1 & Hr1).
  destruct (Hd a1 Hs1 Ho1 ltac:(lia)) as (a2 & Ed & Hs2 & Ho2 & Hl2 & Hg2 & Hr2).
  exists a2. unfold bind. rewrite Ec. split_and!; try done; [lia|by eapply grows_trans|].
  intros F L Hag m Hm. destruct (Hr1 F L (agrees_grows _ _ _ _ Hs1 Hg2 Hag) m Hm) as (pc & m1 & Hs1' & [[-> Hq]|Hq]).
  - destruct (Hr2 F L Hag m1 Hq) as (pc & m2 & Hs2' & Hq2). exists pc, m2. split; [by etrans|done].
  - exists pc, m1. split; [done|by right].
Qed.

Lemma triple_exits n O O' (E E' : Exits) c P Q : (forall x, x ∈ E' -> x ∈ E) -> triple n O O' E' c P Q ->
  triple n O O' E c P Q.
Proof.
  intros Hsub H a Hs Ho Hl. destruct (H a Hs Ho Hl) as (a' & Ec & Hs' & Ho' & Hl' & Hg & Hr).
  exists a'. split_and!; try done. intros F L Hag m Hm. destruct (Hr F L Hag m Hm) as (pc & m' & Hst & Hq).
  exists pc, m'. split; [done|]. destruct Hq as [Hq|(l & I & Hin & Hq)]; [by left|]. right. exists l, I. by split; [apply Hsub|].
Qed.

(** ** Straight-line code *)

Lemma run_steps F ws : forall pc m m', (forall i w, ws !! i = Some w -> F (pc + Z.of_nat i) = decode w) ->
  run ws m = Some m' -> rtc (steps F) (pc, m) (pc + zlength ws, m').
Proof.
  unfold zlength. induction ws as [|w ws IH]; intros pc m m' HF Hrun; cbn [run length] in *.
  - injection Hrun as <-. rewrite Z.add_0_r. apply rtc_refl.
  - destruct (decode w) as [i|] eqn:Ei; [|done]. cbn in Hrun. destruct (exec i m) as [m1|] eqn:Em; [|done]. cbn in Hrun.
    eapply rtc_l; [|replace (pc + Z.of_nat (S (length ws))) with (pc + 1 + Z.of_nat (length ws)) by lia; apply IH; [|exact Hrun]].
    + exists i. split; [cbn; rewrite <- (Z.add_0_r pc), <- Ei; by apply (HF O)|].
      cbn [fst snd]. unfold next. rewrite Em. by destruct i.
    + intros j v Hj. rewrite <- (HF (S j) v Hj). f_equal. lia.
Qed.

Lemma grows_appended a ws texts : grows a (appended a ws texts).
Proof.
  split; [by exists ws|exists []; split; [by rewrite app_nil_r|constructor]|done].
Qed.

Lemma sound_appended a ws texts : sound a -> sound (appended a ws texts).
Proof.
  intros [F D P]. split; cbn.
  - eapply Forall_impl; [exact F|]. intros. by eapply fixup_ok_mono.
  - done.
  - eapply Forall_impl; [exact P|]. intros p. apply position_ok_mono. unfold zlength. rewrite length_app. lia.
Qed.

Lemma triple_implements O E c f (Q : Assertion) : implements c f -> triple 0 O O E c (fun m => Q (f m)) Q.
Proof.
  intros (ws & (texts & _ & Ec) & Hrun) a Hs Ho Hl. exists (appended a ws texts).
  split_and!; [apply Ec|by apply sound_appended| |unfold label_count in *; cbn in *; lia|apply grows_appended|].
  - destruct Ho as [H1 H2 H3]. by split.
  - intros F L Hag m Hm. exists (zlength (a.(words_) ++ ws)), (f m). split; [|by left].
    replace (zlength (a.(words_) ++ ws)) with (zlength a.(words_) + zlength ws) by (unfold zlength; rewrite length_app; lia).
    apply run_steps; [|apply Hrun]. intros i w Hw. unfold zlength.
    replace (Z.of_nat (length (words_ a)) + Z.of_nat i) with (Z.of_nat (length (words_ a) + i)) by lia.
    apply (agrees_words _ _ _ Hag); cbn [appended words_ fixups_].
    + intros (fx & Hi & Hfx)%list_elem_of_fmap. pose proof (sound_fixups _ Hs) as Hf. rewrite Forall_forall in Hf.
      specialize (Hf fx Hfx). apply fixup_index in Hf. lia.
    + rewrite lookup_app_r by lia. by replace (length (words_ a) + i - length (words_ a))%nat with i by lia.
Qed.

(** ** Labels and branches *)

Lemma make_label a : label_count a + 1 <= 2 ^ 32 ->
  makeLabel a = (set_labels (a.(labelPositions_) ++ [None]) a, Ok (label_count a)).
Proof.
  intros Hl. unfold label_count in *. unfold makeLabel, bind, get.
  destruct (Z.ltb_spec UINT32_MAX (zlength a.(labelPositions_))); [unfold UINT32_MAX in *; lia|].
  cbn. unfold ret. do 2 f_equal. apply wrap_small. unfold in_range. unfold zlength in *. lia.
Qed.

Lemma sound_more_labels a labels : sound a -> zlength a.(labelPositions_) <= zlength labels ->
  Forall (position_ok (zlength a.(words_))) labels -> sound (set_labels labels a).
Proof.
  intros [F D P] Hl Hp. split; cbn; try done.
  eapply Forall_impl; [exact F|]. intros fx Hfx. rewrite <- (app_nil_r (words_ a)). by eapply fixup_ok_mono.
Qed.

Lemma lookup_snoc_old {A} (l : list A) x i y : l !! i = Some y -> (l ++ [x]) !! i = Some y.
Proof. apply lookup_app_l_Some. Qed.

Lemma made_label a O : sound a -> opened O a ->
  let a' := set_labels (a.(labelPositions_) ++ [None]) a in
  sound a' /\ opened O a' /\ opened (label_count a :: O) a' /\ grows a a' /\ label_count a' = label_count a + 1.
Proof.
  intros Hs [H1 H2 H3] a'.
  assert (label_count a' = label_count a + 1) as Hc.
  { unfold label_count, zlength. cbn. rewrite length_app. cbn. lia. }
  assert (forall l, l ∈ O -> 0 <= l /\ labelPositions_ a' !! Z.to_nat l = Some None) as H2'.
  { intros l Hl. destruct (H2 l Hl). split; [done|]. by apply lookup_snoc_old. }
  assert (forall fx, fx ∈ fixups_ a' -> f_label fx ∈ O \/ exists p, labelPositions_ a' !! Z.to_nat (f_label fx) = Some (Some p)) as H3'.
  { intros fx Hfx. destruct (H3 fx Hfx) as [?|[p Hp]]; [by left|]. right. exists p. by apply lookup_snoc_old. }
  split_and!; try done.
  - apply sound_more_labels; [done| |].
    + unfold zlength. rewrite length_app. lia.
    + apply Forall_app. split; [apply Hs|]. by apply Forall_singleton.
  - split.
    + apply NoDup_cons. split; [|done]. intros Hin. destruct (H2 _ Hin) as [_ Hl]. apply lookup_lt_Some in Hl.
      unfold label_count, zlength in Hl. lia.
    + intros l [->|Hl]%elem_of_cons; [|by apply H2']. unfold label_count, zlength. split; [lia|].
      rewrite Nat2Z.id. cbn. by apply list_lookup_middle.
    + intros fx Hfx. destruct (H3' fx Hfx) as [?|?]; [left; by right|by right].
  - split; [exists []; cbn; by rewrite app_nil_r|exists []; cbn; split; [by rewrite app_nil_r|constructor]|].
    intros l p Hl. by apply lookup_snoc_old.
Qed.

Lemma triple_make_gen n O O0 O' E k P Q :
  (forall l a, sound a -> opened O a -> l = label_count a ->
    opened (O0 l) (set_labels (a.(labelPositions_) ++ [None]) a)) ->
  (forall l, triple n (O0 l) O' E (k l) P Q) -> 0 <= n -> triple (1 + n) O O' E (do! l <- makeLabel; k l) P Q.
Proof.
  intros HO H Hn a Hs Ho Hl. unfold bind. rewrite make_label by lia.
  destruct (made_label a O Hs Ho) as (Hs1 & _ & _ & Hg & Hc). specialize (HO _ a Hs Ho eq_refl).
  set (a1 := set_labels _ a) in *. destruct (H (label_count a) a1 Hs1 HO ltac:(lia)) as (a' & Ec & Hs' & Ho' & Hl' & Hg' & Hr).
  exists a'. split_and!; try done; [lia|by eapply grows_trans].
Qed.

(** A label that will be bound. *)
Lemma triple_make n O O' E k P Q : 0 <= n -> (forall l, triple n (l :: O) O' E (k l) P Q) ->
  triple (1 + n) O O' E (do! l <- makeLabel; k l) P Q.
Proof.
  intros Hn H. apply (triple_make_gen n O (fun l => l :: O)); try done.
  intros l a Hs Ho ->. by apply made_label.
Qed.

(** A label that is never used. *)
Lemma triple_make_unused n O O' E k P Q : 0 <= n -> (forall l, triple n O O' E (k l) P Q) ->
  triple (1 + n) O O' E (do! l <- makeLabel; k l) P Q.
Proof.
  intros Hn H. apply (triple_make_gen n O (fun _ => O)); try done.
  intros l a Hs Ho ->. by apply made_label.
Qed.

(** [c], then the label it may have jumped to. *)
Lemma triple_bind n O O' E l c (P Q : Assertion) : 0 <= n ->
  triple n O (l :: O') ((l, Q) :: E) c P Q -> triple n O O' E (c ;;; bindLabel l) P Q.
Proof.
  intros Hn H a Hs Ho Hl. destruct (H a Hs Ho ltac:(lia)) as (a1 & Ec & Hs1 & [D1 D2 D3] & Hl1 & Hg1 & Hr1).
  destruct (D2 l ltac:(by left)) as [Hpos Hpend]. apply NoDup_cons in D1 as [Hnew D1].
  set (a2 := set_labels (<[Z.to_nat l := Some (zlength a1.(words_))]> a1.(labelPositions_)) a1).
  assert (forall k, k ∈ O' -> Z.to_nat k <> Z.to_nat l) as Hne.
  { intros k Hk E'. apply Hnew. destruct (D2 k ltac:(by right)). by replace l with k by lia. }
  assert (forall i p, labelPositions_ a1 !! i = Some (Some p) -> labelPositions_ a2 !! i = Some (Some p)) as Hkeep.
  { intros i p Hi. cbn. rewrite list_lookup_insert_ne; [done|]. intros <-. by rewrite Hpend in Hi. }
  assert (labelPositions_ a2 !! Z.to_nat l = Some (Some (zlength a1.(words_)))) as Hbound.
  { cbn. apply list_lookup_insert_eq. by eapply lookup_lt_Some. }
  assert (grows a1 a2) as Hg2.
  { split; [exists []; cbn; by rewrite app_nil_r|exists []; cbn; split; [by rewrite app_nil_r|constructor]|done]. }
  exists a2. split_and!.
  - unfold bind. rewrite Ec. unfold bindLabel, bind, get. by rewrite Hpend.
  - apply sound_more_labels; [done| |].
    + unfold zlength. by rewrite length_insert.
    + apply Forall_insert; [apply Hs1|]. cbn. unfold zlength. lia.
  - split.
    + done.
    + intros k Hk. destruct (D2 k ltac:(by right)) as [? Hk']. split; [done|]. cbn.
      rewrite list_lookup_insert_ne; [done|]. by apply not_eq_sym, Hne.
    + intros fx Hfx. destruct (D3 fx Hfx) as [[->|Hin]%elem_of_cons|[p Hp]].
      * right. by exists (zlength a1.(words_)).
      * by left.
      * right. exists p. by apply Hkeep.
  - unfold label_count, zlength in *. cbn. by rewrite length_insert.
  - by eapply grows_trans.
  - intros F L Hag m Hm. destruct (Hr1 F L (agrees_grows _ _ _ _ Hs1 Hg2 Hag) m Hm) as (pc & m' & Hst & Hq).
    exists pc, m'. split; [done|]. destruct Hq as [Hq|(k & I & Hin & HL & HI)]; [by left|].
    apply elem_of_cons in Hin as [[= -> ->]|Hin]; [|right; by exists k, I].
    left. split; [|done]. apply (agrees_labels _ _ _ Hag) in Hbound. rewrite Hbound in HL. by injection HL.
Qed.

(** [f d] jumps by [d] in the machines of [J] and does nothing in the others. *)
Definition jumps (f : Z -> instr) (J : machine -> bool) : Prop :=
  forall d pc m, next (f d) pc m = Some (if J m then pc + d else pc + 1, m).

Lemma triple_branch O E br kind l f J (P Q I : Assertion) : records_branch br kind l f -> jumps f J ->
  l ∈ O -> (l, I) ∈ E -> (forall m, P m -> if J m then I m else Q m) -> triple 0 O O E br P Q.
Proof.
  intros Hbr HJ Hl HI HP a Hs [D1 D2 D3] Hn. destruct (D2 l Hl) as [Hpos Hpend].
  assert (l < zlength a.(labelPositions_)) as Hlt.
  { apply lookup_lt_Some in Hpend. unfold zlength. lia. }
  destruct (Hbr a Hlt) as (word & _ & Hb & Hok & Ew & Ef & El & _).
  destruct (br a) as [a' o] eqn:Ebr. cbn [fst snd] in *. subst o.
  assert (grows a a') as Hg.
  { split; [by exists [word]| |by rewrite El]. eexists. split; [exact Ef|]. by apply Forall_singleton. }
  exists a'. split_and!; try done.
  - destruct Hs as [F D Pp]. split; rewrite ?Ew, ?Ef, ?El.
    + apply Forall_app. split.
      * eapply Forall_impl; [exact F|]. intros. by eapply fixup_ok_mono.
      * apply Forall_singleton. split; [cbn; lia|]. exists word, f. split; [|done]. cbn. by apply list_lookup_middle.
    + rewrite map_app. apply NoDup_app. split; [done|]. split; [|apply NoDup_singleton].
      intros i (fx & -> & Hfx)%list_elem_of_fmap. cbn. intros Hin%list_elem_of_singleton.
      rewrite Forall_forall in F. apply F, fixup_index in Hfx. lia.
    + eapply Forall_impl; [exact Pp|]. intros p. apply position_ok_mono. unfold zlength. rewrite length_app. lia.
  - split; rewrite ?El; try done. intros fx. rewrite Ef, elem_of_app, list_elem_of_singleton.
    intros [Hfx| ->]; [by apply D3|]. by left.
  - unfold label_count in *. rewrite El. lia.
  - intros F L Hag m Hm.
    destruct (agrees_fixups _ _ _ Hag (mkFixup kind (length a.(words_)) l)) with (word := word) (f := f) as (t & HL & HF);
      [rewrite Ef; apply elem_of_app; right; by apply list_elem_of_singleton|cbn; rewrite Ew; by apply list_lookup_middle|done|].
    cbn in HL, HF. specialize (HP m Hm).
    exists (if J m then t else zlength a.(words_) + 1), m. split.
    + apply rtc_once. exists (f (t - Z.of_nat (length (words_ a)))). split; [exact HF|]. cbn [fst snd]. rewrite HJ.
      unfold zlength. by replace (Z.of_nat (length (words_ a)) + (t - Z.of_nat (length (words_ a)))) with t by lia.
    + destruct (J m).
      * right. by exists l, I.
      * left. split; [|done]. rewrite Ew. unfold zlength. rewrite length_app. cbn. lia.
Qed.

(** A branch over [body]. *)
Lemma triple_guard n O E br kind l f J body (P Q : Assertion) : 0 <= n -> records_branch br kind l f -> jumps f J ->
  (forall m, P m -> J m = true -> Q m) ->
  triple n (l :: O) (l :: O) ((l, Q) :: E) body (fun m => P m /\ J m = false) Q ->
  triple n (l :: O) O E ((br ;;; body) ;;; bindLabel l) P Q.
Proof.
  intros Hn Hbr HJ HQ Hbody. apply triple_bind; [done|]. change n with (0 + n). apply (triple_seq 0 n _ (l :: O) _ _ _ _ _ (fun m => P m /\ J m = false)); [done|done| |done].
  apply (triple_branch _ _ _ kind l f J _ _ Q); [done|done|by left|by left|].
  intros m Hm. destruct (J m) eqn:E'; auto.
Qed.

(** ** The branches of the assembler *)

Lemma jumps_b : jumps Branch (fun _ => true).
Proof. by intros d pc m. Qed.
Lemma jumps_compare nonzero r : jumps (CompareBranch nonzero r) (fun m => xorb nonzero (rX m true r =? 0)).
Proof. by intros d pc m. Qed.
Lemma jumps_test nonzero r bit : jumps (TestBranch nonzero r bit) (fun m => Bool.eqb nonzero (Z.testbit (rX m true r) bit)).
Proof. by intros d pc m. Qed.
Lemma jumps_condition c : jumps (BranchCond c) (fun m => cond_holds m c).
Proof. by intros d pc m. Qed.

Ltac branch_entry k := apply (list_elem_of_lookup_2 _ k); cbn [branch_functions lookup list_lookup];
  rewrite ?(proj2 (Z.leb_le _ _)), ?(proj2 (Z.ltb_lt _ _)) by lia; reflexivity.

Lemma records_b l : records_branch (b l) Branch26 l Branch.
Proof. apply (branch_accepted l 0 0 0); [lia..|branch_entry O]. Qed.
Lemma records_cbz r l : reg r -> records_branch (cbz r l) CompareBranch19 l (CompareBranch false r).
Proof. intros [H0 H1]. apply (branch_accepted l r 0 0); [lia..|branch_entry 1%nat]. Qed.
Lemma records_cbnz r l : reg r -> records_branch (cbnz r l) CompareBranch19 l (CompareBranch true r).
Proof. intros [H0 H1]. apply (branch_accepted l r 0 0); [lia..|branch_entry 2%nat]. Qed.
Lemma records_condition c l : 0 <= c <= 13 -> records_branch (bConditional c l) CompareBranch19 l (BranchCond c).
Proof. intros [H0 H1]. apply (branch_accepted l 0 c 0); [lia..|branch_entry 3%nat]. Qed.
Lemma records_tbz r bit l : reg r -> 0 <= bit < 64 -> records_branch (tbz r bit l) TestBranch14 l (TestBranch false r bit).
Proof. intros [H0 H1] Hb. apply (branch_accepted l r 0 bit); [lia..|branch_entry 4%nat]. Qed.
Lemma records_tbnz r bit l : reg r -> 0 <= bit < 64 -> records_branch (tbnz r bit l) TestBranch14 l (TestBranch true r bit).
Proof. intros [H0 H1] Hb. apply (branch_accepted l r 0 bit); [lia..|branch_entry 5%nat]. Qed.

(** ** Derived rules *)

(** An instruction in front. *)
Lemma triple_do n O O' E c f rest (P P' Q : Assertion) : 0 <= n -> implements c f -> (forall m, P m -> P' (f m)) ->
  triple n O O' E rest P' Q -> triple n O O' E (c ;;; rest) P Q.
Proof.
  intros Hn Hc HP H. replace n with (0 + n) by lia. apply (triple_seq 0 n _ O _ _ _ _ _ P'); [done|done| |done].
  apply (triple_pre _ _ _ _ _ _ (fun m => P' (f m))); [done|]. by apply triple_implements.
Qed.

(** A last instruction. *)
Lemma triple_last O E c f (P Q : Assertion) : implements c f -> (forall m, P m -> Q (f m)) -> triple 0 O O E c P Q.
Proof. intros Hc HP. apply (triple_pre _ _ _ _ _ _ (fun m => Q (f m))); [done|]. by apply triple_implements. Qed.

Lemma opened_permutation O O' a : O ≡ₚ O' -> opened O a -> opened O' a.
Proof.
  intros Hp [H1 H2 H3]. split; [by rewrite <- Hp|intros l; rewrite <- Hp; apply H2|].
  intros fx Hfx. rewrite <- Hp. by apply H3.
Qed.

Lemma triple_permutation n O1 O O' E c P Q : O1 ≡ₚ O -> triple n O O' E c P Q -> triple n O1 O' E c P Q.
Proof. intros Hp H a Hs Ho. apply H; [done|]. by apply (opened_permutation O1). Qed.

(** Code, the label its exits go to, and the rest. *)
Lemma triple_until n1 n2 O O1 O' E l c rest (P Q R : Assertion) : 0 <= n1 -> 0 <= n2 ->
  triple n1 O (l :: O1) ((l, Q) :: E) c P Q -> triple n2 O1 O' E rest Q R ->
  triple (n1 + n2) O O' E ((c ;;; bindLabel l) ;;; rest) P R.
Proof. intros. apply (triple_seq _ _ _ O1 _ _ _ _ _ Q); try done. by apply triple_bind. Qed.

(** ** Code that ends at a RET *)

Definition ends (n : Z) (O O' : list Z) (c : M Assembler unit) (P R : Assertion) : Prop :=
  forall a, sound a -> opened O a -> label_count a + n <= 2 ^ 32 ->
  exists a', c a = (a', Ok tt) /\ sound a' /\ opened O' a' /\ label_count a' <= label_count a + n /\ grows a a' /\
    forall F L, agrees F L a' -> forall m, P m ->
    exists pc m' r, rtc (steps F) (zlength a.(words_), m) (pc, m') /\ F pc = Some (Return r) /\ R m'.

Lemma ends_same n O O' c d P R : same c d -> ends n O O' d P R -> ends n O O' c P R.
Proof. intros Hs H a. rewrite Hs. apply H. Qed.

Lemma ends_returns {A} n O O' (c : M Assembler A) k x P R : returns c x -> ends n O O' (k x) P R ->
  ends n O O' (do! x <- c; k x) P R.
Proof. intros Hc H a. unfold bind. rewrite Hc. apply H. Qed.

Lemma ends_conseq n n' O O' c (P P' R R' : Assertion) : n' <= n -> (forall m, P m -> P' m) ->
  (forall m, R' m -> R m) -> ends n' O O' c P' R' -> ends n O O' c P R.
Proof.
  intros Hn HP HR H a Hs Ho Hl. destruct (H a Hs Ho ltac:(lia)) as (a' & Ec & Hs' & Ho' & Hl' & Hg & Hr).
  exists a'. split_and!; try done; [lia|]. intros F L Hag m Hm.
  destruct (Hr F L Hag m (HP m Hm)) as (pc & m' & r & Hst & Hf & Hq). exists pc, m', r. auto.
Qed.

Lemma ends_seq n1 n2 O O1 O2 c d (P Q R : Assertion) : 0 <= n1 -> 0 <= n2 ->
  triple n1 O O1 [] c P Q -> ends n2 O1 O2 d Q R -> ends (n1 + n2) O O2 (c ;;; d) P R.
Proof.
  intros Hn1 Hn2 Hc Hd a Hs Ho Hl. destruct (Hc a Hs Ho ltac:(lia)) as (a1 & Ec & Hs1 & Ho1 & Hl1 & Hg1 & Hr1).
  destruct (Hd a1 Hs1 Ho1 ltac:(lia)) as (a2 & Ed & Hs2 & Ho2 & Hl2 & Hg2 & Hr2).
  exists a2. unfold bind. rewrite Ec. split_and!; try done; [lia|by eapply grows_trans|].
  intros F L Hag m Hm.
  destruct (Hr1 F L (agrees_grows _ _ _ _ Hs1 Hg2 Hag) m Hm) as (pc & m1 & Hs1' & [[-> Hq]|(l & I & Hin & _)]);
    [|by apply elem_of_nil in Hin].
  destruct (Hr2 F L Hag m1 Hq) as (pc & m2 & r & Hs2' & Hf & Hq2). exists pc, m2, r. split; [by etrans|done].
Qed.

Lemma ends_ret O P : ends 0 O O emitRet P P.
Proof.
  intros a Hs Ho Hl. assert (emits emitRet [0xD65F03C0]) as (t & _ & Et) by apply emits_emit.
  exists (appended a [0xD65F03C0] t).
  split_and!; [apply Et|by apply sound_appended| |unfold label_count in *; cbn in *; lia|apply grows_appended|].
  { destruct Ho as [H1 H2 H3]. by split. }
  intros F L Hag m Hm. exists (zlength a.(words_)), m, 30. split_and!; [apply rtc_refl| |done].
  change (Some (Return 30)) with (decode 0xD65F03C0).
  apply (agrees_words _ _ _ Hag); cbn [appended words_ fixups_]; [|by apply list_lookup_middle].
  intros (fx & Hi & Hfx)%list_elem_of_fmap. pose proof (sound_fixups _ Hs) as Hf. rewrite Forall_forall in Hf.
  specialize (Hf fx Hfx). apply fixup_index in Hf. lia.
Qed.

(** A fresh assembler is sound. *)
Lemma sound_new listing : sound (newAssembler listing) /\ opened [] (newAssembler listing).
Proof.
  split; [by split; constructor|]. split; [constructor|intros l Hl; by apply elem_of_nil in Hl|intros fx Hfx; by apply elem_of_nil in Hfx].
Qed.
