(* ===== verification/BackendFlags.v ===== *)
(** The flag code of the ARM64 backend: what the inline sequences of
    [src/arm64/Backend.cpp] leave in RFLAGS is what the helpers of
    [src/dbt/FlagHelpers.cpp] compute. *)
From stdpp Require Import relations.
From S2P Require Import Prelude X86State FlagSpec FlagHelpers AArch64 Assembler AssemblerSpec AssemblerFlow AssemblerBranch IR IRVerify Optimization BackendAnalysis BackendPlan BackendBase BackendScalar BackendLogic IRSemantics.

(** ** The machine while flags are computed *)

(** [M] but for [x16], which is [V], and for [x17] and NZCV. *)
Definition junk (M : machine) (V : Z) : Assertion := fun m => exists t n z c v,
  m = mkMachine (<[16:=V]> (<[17:=t]> M.(mx))) M.(msp) n z c v M.(mmem).

Lemma rX_set_eq r x m : reg r -> in_range 64 x -> rX (set_x r x m) true r = x.
Proof.
  intros [H0 H1] Hx. unfold rX, reg_of. destruct (Z.eqb_spec r 31); [lia|]. cbn. rewrite lookup_insert_eq.
  by apply wrap_small.
Qed.

Lemma rX_set_ne r r' x sf m : r <> r' -> rX (set_x r x m) sf r' = rX m sf r'.
Proof. intros Hne. unfold rX, reg_of. cbn. by rewrite lookup_insert_ne. Qed.

Section Junk.
Context (M : machine) (V : Z).

Lemma junk_read m sf r : junk M V m -> r <> 16 -> r <> 17 -> rX m sf r = rX M sf r.
Proof using Type.
  intros (t & n & z & c & v & ->) H16 H17. unfold rX, reg_of. cbn. by rewrite !lookup_insert_ne.
Qed.

Lemma junk_value m : junk M V m -> in_range 64 V -> rX m true 16 = V.
Proof using Type.
  intros (t & n & z & c & v & ->) HV. unfold rX, reg_of. cbn. rewrite lookup_insert_eq. by apply wrap_small.
Qed.

Lemma junk_base m r : junk M V m -> r <> 16 -> r <> 17 -> reg_of m r = reg_of M r.
Proof using Type. intros (t & n & z & c & v & ->) H16 H17. unfold reg_of. cbn. by rewrite !lookup_insert_ne. Qed.

Lemma junk_memory m : junk M V m -> m.(mmem) = M.(mmem).
Proof using Type. by intros (t & n & z & c & v & ->). Qed.

Lemma junk_set17 m t : junk M V m -> junk M V (set_x 17 t m).
Proof using Type.
  intros (t' & n & z & c & v & ->). exists t, n, z, c, v. unfold set_x. cbn. f_equal.
  rewrite insert_insert_ne by done. by rewrite insert_insert_eq.
Qed.

Lemma junk_set16 m V' : junk M V m -> junk M V' (set_x 16 V' m).
Proof using Type.
  intros (t & n & z & c & v & ->). exists t, n, z, c, v. unfold set_x. cbn. f_equal. by rewrite insert_insert_eq.
Qed.

Lemma junk_set m r x : junk M V m -> r <> 16 -> r <> 17 -> junk (set_x r x M) V (set_x r x m).
Proof using Type.
  intros (t & n & z & c & v & ->) H16 H17. exists t, n, z, c, v. unfold set_x. cbn. f_equal.
  by rewrite insert_insert_ne, (insert_insert_ne _ r 17).
Qed.

Lemma junk_flags m n z c v : junk M V m -> junk M V (set_nzcv n z c v m).
Proof using Type. intros (t & n' & z' & c' & v' & ->). by exists t, n, z, c, v. Qed.
End Junk.


(** ** Three-register instructions *)

Ltac alu_entry := unfold alu_ops; repeat (first [left; reflexivity | right]).

Lemma bitOr_ok d l r : reg d -> reg l -> reg r ->
  implements (bitOr d l r) (fun m => set_x d (Z.lor (rX m true l) (rX m true r)) m).
Proof. apply (alu_correct bitOr true Z.lor). alu_entry. Qed.
Lemma bitAnd_ok d l r : reg d -> reg l -> reg r ->
  implements (bitAnd d l r) (fun m => set_x d (Z.land (rX m true l) (rX m true r)) m).
Proof. apply (alu_correct bitAnd true Z.land). alu_entry. Qed.
Lemma bitXor_ok d l r : reg d -> reg l -> reg r ->
  implements (bitXor d l r) (fun m => set_x d (Z.lxor (rX m true l) (rX m true r)) m).
Proof. apply (alu_correct bitXor true Z.lxor). alu_entry. Qed.

(** ** One flag *)

(** [if (b) flags |= F]: a branch over the OR when [b] is false. *)
Lemma triple_setflag n l O O' E br kind f J F b M V (P : Assertion) rest Q :
  records_branch br kind l f -> jumps f J -> in_range 64 V -> in_range 64 F -> 0 <= n ->
  (forall m, P m -> junk M V m /\ J m = negb b) ->
  triple n O O' E rest (junk M (set_if b F V)) Q ->
  triple n (l :: O) O' E (br ;;; movImmediate x17 F ;;; bitOr x16 x16 x17 ;;; bindLabel l ;;; rest) P Q.
Proof.
  intros Hbr HJ HV HF Hn HP Hrest.
  apply (triple_same _ _ _ _ _ (((br ;;; (movImmediate x17 F ;;; bitOr x16 x16 x17)) ;;; bindLabel l) ;;; rest)).
  { intros a. unfold bind. destruct (br a) as [a1 [[]| |]]; [|done..].
    destruct (movImmediate x17 F a1) as [a2 [[]| |]]; [|done..]. by destruct (bitOr x16 x16 x17 a2) as [a3 [[]| |]]. }
  replace n with (0 + n) by lia.
  apply (triple_seq 0 n _ O _ _ _ _ _ (junk M (set_if b F V))); [done|done| |done].
  apply (triple_guard 0 O E br kind l f J); [done|done|done| |].
  - intros m Hm HJm. destruct (HP m Hm) as [Hj Hb]. rewrite HJm in Hb. destruct b; [done|]. done.
  - apply (triple_do 0 _ _ _ _ (set_x 17 F) _ _ (fun m => junk M V m /\ rX m true 17 = F /\ b = true)); [done|by apply movImmediate_implements| |].
    + intros m [Hm HJm]. destruct (HP m Hm) as [Hj Hb]. rewrite HJm in Hb.
      split_and!; [by apply junk_set17|by apply rX_set_eq|by destruct b].
    + eapply triple_last; [by apply bitOr_ok|]. intros m (Hj & H17 & ->). unfold x16, x17. rewrite H17, (junk_value M V) by done.
      by eapply junk_set16.
Qed.

Definition parity_fold (x : Z) : Z :=
  let x := Z.lxor x (Z.shiftr x 4) in
  let x := Z.lxor x (Z.shiftr x 2) in
  Z.lxor x (Z.shiftr x 1).

Lemma parity_fold_bit x : 0 <= x -> Z.testbit (parity_fold x) 0 = negb (parity_even x).
Proof.
  intros Hx. unfold parity_fold, parity_even.
  rewrite !Z.lxor_spec, !Z.shiftr_spec, !Z.lxor_spec, !Z.shiftr_spec, !Z.lxor_spec, !Z.shiftr_spec by lia.
  cbn [map fold_right]. repeat match goal with |- context [Z.testbit x ?k] =>
    let v := eval vm_compute in k in progress change (Z.testbit x k) with (Z.testbit x v) end.
  destruct (Z.testbit x 0), (Z.testbit x 1), (Z.testbit x 2), (Z.testbit x 3), (Z.testbit x 4), (Z.testbit x 5),
    (Z.testbit x 6), (Z.testbit x 7); reflexivity.
Qed.

(** A register the flag code does not use for itself. *)
Definition plain (r : Z) : Prop := reg r /\ r <> 16 /\ r <> 17.

Section Macros.
Context (n : Z) (O O' : list Z) (E : Exits) (M : machine) (V : Z) (rest : Prelude.M Assembler unit) (Q : Assertion).
Context (Hn : 0 <= n).

Lemma set17 m x : in_range 64 x -> junk M V m -> junk M V (set_x 17 x m) /\ rX (set_x 17 x m) true 17 = x.
Proof using Type. intros Hx Hm. split; [by apply junk_set17|by apply rX_set_eq]. Qed.

(** A step that computes [x] into x17. *)
Lemma triple_x17 c f (x y : Z) : implements c (fun m => set_x 17 (f m) m) -> in_range 64 y ->
  (forall m, junk M V m -> rX m true 17 = x -> f m = y) ->
  triple n O O' E rest (fun m => junk M V m /\ rX m true 17 = y) Q ->
  triple n O O' E (c ;;; rest) (fun m => junk M V m /\ rX m true 17 = x) Q.
Proof using Hn.
  intros Hc Hy Hf Hrest. apply (triple_do n _ _ _ _ _ _ _ (fun m => junk M V m /\ rX m true 17 = y) _ Hn Hc); [|done].
  intros m [Hm Hx]. rewrite (Hf m Hm Hx). by apply set17.
Qed.

(** The same from any x17. *)
Lemma triple_any17 c f (y : Z) : implements c (fun m => set_x 17 (f m) m) -> in_range 64 y ->
  (forall m, junk M V m -> f m = y) ->
  triple n O O' E rest (fun m => junk M V m /\ rX m true 17 = y) Q ->
  triple n O O' E (c ;;; rest) (junk M V) Q.
Proof using Hn.
  intros Hc Hy Hf Hrest. apply (triple_do n _ _ _ _ _ _ _ (fun m => junk M V m /\ rX m true 17 = y) _ Hn Hc); [|done].
  intros m Hm. rewrite (Hf m Hm). by apply set17.
Qed.
(** x17 := a ^ b. *)
Lemma xor_code a b : plain a -> plain b ->
  triple n O O' E rest (fun m => junk M V m /\ rX m true 17 = Z.lxor (rX M true a) (rX M true b)) Q ->
  triple n O O' E (bitXor x17 a b ;;; rest) (junk M V) Q.
Proof using Hn.
  intros (Ha & Ha16 & Ha17) (Hb & Hb16 & Hb17) Hrest.
  eapply triple_any17; [by apply bitXor_ok| |intros m Hm; cbn beta; by rewrite !(junk_read M V m true)|done].
  by apply lxor_range, (rX_range M true b); [lia|apply (rX_range M true)].
Qed.

End Macros.

Section Codes.
Context (n : Z) (O O' : list Z) (E : Exits) (l : Z) (M : machine) (V : Z) (rest : Prelude.M Assembler unit) (Q : Assertion).
Context (Hn : 0 <= n) (HV : in_range 64 V).

Local Abbreviation flag_code br F := (br ;;; movImmediate x17 F ;;; bitOr x16 x16 x17 ;;; bindLabel l ;;; rest).

Lemma carry_code x y : plain x -> plain y ->
  triple n O O' E rest (junk M (set_if (rX M true x <? rX M true y) flagCarry V)) Q ->
  triple n (l :: O) O' E (compare x y ;;; flag_code (bUnsignedHigherOrSame l) flagCarry) (junk M V) Q.
Proof using Hn HV.
  intros (Hx & Hx16 & Hx17) (Hy & Hy16 & Hy17) Hrest.
  apply (triple_do n _ _ _ _ _ _ _ (fun m => junk M V m /\ cond_holds m 2 = negb (rX M true x <? rX M true y))
    _ Hn (compare_correct x y Hx Hy)).
  - intros m Hm. split; [by apply junk_flags|].
    rewrite conditions_of_subtraction by (try apply (rX_range m true); lia). cbn [relation].
    rewrite !(junk_read M V m true) by done. by rewrite Z.ltb_antisym, negb_involutive.
  - eapply (triple_setflag n l O O' E _ _ _ _ flagCarry (rX M true x <? rX M true y) M V);
      [by apply records_condition|by apply jumps_condition|done..| |done].
    by intros m [Hm Hc].
Qed.

(** A flag decided by a bit of x17: set when [TBNZ] or [TBZ] does not jump. *)
Lemma bit_code (nonzero : bool) br F bit x b : (if nonzero then tbnz x17 bit l else tbz x17 bit l) = br -> 0 <= bit < 64 ->
  in_range 64 F -> b = xorb nonzero (Z.testbit x bit) ->
  triple n O O' E rest (junk M (set_if b F V)) Q ->
  triple n (l :: O) O' E (flag_code br F) (fun m => junk M V m /\ rX m true 17 = x) Q.
Proof using Hn HV.
  intros <- Hbit HF Hb Hrest.
  eapply (triple_setflag n l O O' E _ _ (TestBranch nonzero 17 bit) _ F b M V);
    [destruct nonzero; [by apply records_tbnz|by apply records_tbz]|by apply jumps_test|done..| |done].
  intros m [Hm E1]. split; [done|]. rewrite E1, Hb. by destruct nonzero, (Z.testbit x bit).
Qed.

Lemma parity_code r : plain r ->
  triple n O O' E rest (junk M (set_if (parity_even (rX M true r)) flagParity V)) Q ->
  triple n (l :: O) O' E (mov x17 r ;;; bitXorShiftedRight x17 x17 x17 4 ;;; bitXorShiftedRight x17 x17 x17 2 ;;;
    bitXorShiftedRight x17 x17 x17 1 ;;; flag_code (tbnz x17 0 l) flagParity) (junk M V) Q.
Proof using Hn HV.
  intros (Hr & H16 & H17) Hrest. assert (reg x17) as R17 by done.
  assert (forall k, 0 <= k < 64 -> implements (bitXorShiftedRight x17 x17 x17 k)
    (fun m => set_x 17 (Z.lxor (rX m true 17) (Z.shiftr (rX m true 17) k)) m)) as Hxor.
  { intros k Hk. by apply combining_correct. }
  assert (forall k x, 0 <= k -> in_range 64 x -> in_range 64 (Z.lxor x (Z.shiftr x k))) as Hrange.
  { intros k x Hk Hx. apply lxor_range; [lia|done|]. by apply shiftr_range. }
  pose proof (rX_range M true r) as Hr64.
  eapply triple_any17; [done|by apply mov_correct|exact Hr64|intros m Hm; by apply (junk_read M V)|].
  set (x0 := rX M true r) in *. set (x1 := Z.lxor x0 (Z.shiftr x0 4)). set (x2 := Z.lxor x1 (Z.shiftr x1 2)).
  assert (in_range 64 x1) by (by apply Hrange). assert (in_range 64 x2) by (by apply Hrange).
  eapply (triple_x17 n _ _ _ _ _ _ _ Hn _ _ x0 x1); [by apply Hxor|done|by intros m _ Ex; cbn beta; rewrite Ex|].
  eapply (triple_x17 n _ _ _ _ _ _ _ Hn _ _ x1 x2); [by apply Hxor|done|by intros m _ Ex; cbn beta; rewrite Ex|].
  eapply (triple_x17 n _ _ _ _ _ _ _ Hn _ _ x2 (parity_fold x0)); [by apply Hxor|by apply Hrange|by intros m _ Ex; cbn beta; rewrite Ex|].
  apply (bit_code true _ _ 0 _ (parity_even x0)); [done|lia|done| |done].
  rewrite parity_fold_bit by apply Hr64. by destruct (parity_even x0).
Qed.

Lemma auxiliary_code a b c : plain a -> plain b -> plain c ->
  triple n O O' E rest (junk M (set_if (negb (Z.land (Z.lxor (Z.lxor (rX M true a) (rX M true b)) (rX M true c)) 0x10 =? 0))
    flagAuxiliaryCarry V)) Q ->
  triple n (l :: O) O' E (bitXor x17 a b ;;; bitXor x17 x17 c ;;; flag_code (tbz x17 4 l) flagAuxiliaryCarry) (junk M V) Q.
Proof using Hn HV.
  intros Ha Hb (Hc & Hc16 & Hc17) Hrest. pose proof (rX_range M true a) as Ra. pose proof (rX_range M true b) as Rb.
  apply (xor_code n _ _ _ M V _ _ Hn a b); [done..|].
  eapply (triple_x17 n _ _ _ _ _ _ _ Hn _ _ _ (Z.lxor (Z.lxor (rX M true a) (rX M true b)) (rX M true c)));
    [by apply bitXor_ok| | |].
  - by apply lxor_range, (rX_range M true c); [lia|apply lxor_range, Rb; [lia|]].
  - intros m Hm Ex. cbn beta. unfold x17. by rewrite Ex, (junk_read M V m true).
  - eapply (bit_code false _ _ 4); [done|lia|done| |exact Hrest].
    change 0x10 with (2 ^ 4). by rewrite land_pow2_testbit, negb_involutive by lia.
Qed.

Lemma zero_code r : plain r ->
  triple n O O' E rest (junk M (set_if (rX M true r =? 0) flagZero V)) Q ->
  triple n (l :: O) O' E (flag_code (cbnz r l) flagZero) (junk M V) Q.
Proof using Hn HV.
  intros (Hr & H16 & H17) Hrest.
  eapply (triple_setflag n l O O' E _ _ _ _ flagZero (rX M true r =? 0) M V);
    [by apply records_cbnz|by apply jumps_compare|done..| |done].
  intros m Hm. split; [done|]. by rewrite (junk_read M V m true).
Qed.

(** The sign moves from bit [s] to bit 7. *)
Lemma sign_code r s w : plain r -> 0 <= s < 64 -> w = s + 1 -> in_range w (rX M true r) ->
  triple n O O' E rest (junk M (set_if (2 ^ s <=? rX M true r) flagSign V)) Q ->
  triple n O O' E (lsrImmediate x17 r s ;;; bitOrShiftedLeft x16 x16 x17 7 ;;; rest) (junk M V) Q.
Proof using Hn HV.
  intros (Hr & H16 & H17) Hs -> Hrange Hrest. pose proof (rX_range M true r) as Hr64.
  assert (Z.shiftr (rX M true r) s = Z.b2z (2 ^ s <=? rX M true r)) as Hbit.
  { destruct Hrange as [H0 H1]. rewrite Z.pow_add_r in H1 by lia. rewrite Z.shiftr_div_pow2 by lia.
    assert (0 < 2 ^ s) by (apply Z.pow_pos_nonneg; lia).
    destruct (Z.leb_spec (2 ^ s) (rX M true r)); [|by apply Z.div_small].
    symmetry. apply Z.div_unique with (rX M true r - 2 ^ s); cbn [Z.b2z]; lia. }
  eapply (triple_any17 n _ _ _ _ _ _ _ Hn _ _ (Z.b2z (2 ^ s <=? rX M true r))).
  { by apply lsrImmediate_correct. }
  { by destruct (_ <=? _). }
  { intros m Hm. cbn beta. by rewrite (junk_read M V m true). }
  apply (triple_do n _ _ _ _ _ _ _ (junk M (set_if (2 ^ s <=? rX M true r) flagSign V)) _ Hn
    (proj1 (proj2 (combining_correct x16 x16 x17 7 ltac:(done) ltac:(done) ltac:(done) ltac:(done))))); [|done].
  intros m [Hm E1]. unfold x16, x17. rewrite E1, (junk_value M V) by done. destruct (_ <=? _); cbn [Z.b2z set_if].
  - by apply (junk_set16 M V).
  - rewrite Z.shiftl_0_l. change (u64 0) with 0. rewrite Z.lor_0_r. by apply (junk_set16 M V).
Qed.
End Codes.

Section Whole.
Context (n : Z) (O O' : list Z) (E : Exits) (M : machine) (Q : Assertion) (Hn : 0 <= n).

(** The overflow flag is bit [s] of [(a ^ b) & (c ^ d)]. *)
Lemma overflow_code V l rest a b c d s : in_range 64 V -> plain a -> plain b -> plain c -> plain d -> 0 <= s < 64 ->
  (let x := Z.lxor (rX M true a) (rX M true b) in let y := Z.lxor (rX M true c) (rX M true d) in
   triple n O O' E rest (junk (set_x 1 y M) (set_if (Z.testbit (Z.land x y) s) flagOverflow V)) Q) ->
  triple n (l :: O) O' E (bitXor x17 a b ;;; bitXor x1 c d ;;; bitAnd x17 x17 x1 ;;; tbz x17 s l ;;;
    movImmediate x17 flagOverflow ;;; bitOr x16 x16 x17 ;;; bindLabel l ;;; rest) (junk M V) Q.
Proof using Hn.
  intros HV Ha Hb (Hc & Hc16 & Hc17) (Hd & Hd16 & Hd17) Hs Hrest. cbv zeta in Hrest.
  set (x := Z.lxor (rX M true a) (rX M true b)) in *. set (y := Z.lxor (rX M true c) (rX M true d)) in *.
  assert (in_range 64 y) as Hy by (by apply lxor_range, (rX_range M true d); [lia|apply (rX_range M true)]).
  assert (in_range 64 x) as Hx by (by apply lxor_range, (rX_range M true b); [lia|apply (rX_range M true)]).
  apply (xor_code n _ _ _ M V _ _ Hn a b); [done..|].
  apply (triple_do n _ _ _ _ _ _ _ (fun m => junk (set_x 1 y M) V m /\ rX m true 17 = x /\ rX m true 1 = y) _ Hn
    (bitXor_ok x1 c d ltac:(done) Hc Hd)).
  { intros m [Hm E1]. rewrite !(junk_read M V m true) by done. fold y. split_and!.
    - by apply junk_set.
    - unfold x1. by rewrite rX_set_ne.
    - by apply rX_set_eq. }
  apply (triple_do n _ _ _ _ _ _ _ (fun m => junk (set_x 1 y M) V m /\ rX m true 17 = Z.land x y) _ Hn
    (bitAnd_ok x17 x17 x1 ltac:(done) ltac:(done) ltac:(done))).
  { intros m (Hm & E1 & E2). unfold x17, x1. rewrite E1, E2. apply set17; [|done]. by apply land_range_r. }
  eapply (bit_code n O O' E l (set_x 1 y M) V rest Q Hn HV false _ _ s (Z.land x y)); [done|done|done|done|exact Hrest].
Qed.

(** The old flags but for the bits [~K]; the reserved bit is one. *)
Lemma start_code K rest : in_range 64 K ->
  triple n O O' E rest (junk M (Z.lor (Z.land (u64 (load_word M (reg_of M 0 + rflagsOffset) 8)) K) flagReservedOne)) Q ->
  triple n O O' E (ldr x16 x0 rflagsOffset ;;; movImmediate x17 K ;;; bitAnd x16 x16 x17 ;;;
    movImmediate x17 flagReservedOne ;;; bitOr x16 x16 x17 ;;; rest) (eq M) Q.
Proof using Hn.
  intros HK Hrest. set (old := u64 _) in *. assert (in_range 64 old) as Hold by (by apply wrap_range).
  assert (in_range 64 (Z.land old K)) by (by apply land_range_r).
  assert (reg x16) as R16 by done. assert (reg x17) as R17 by done.
  apply (triple_do n _ _ _ _ _ _ _ (eq (set_x 16 old M)) _ Hn (proj1 (doubleword_correct x16 x0 rflagsOffset R16
    ltac:(done) ltac:(done) eq_refl))); [by intros m <-|].
  apply (triple_do n _ _ _ _ _ _ _ (fun m => junk M old m /\ rX m true 17 = K) _ Hn (movImmediate_implements x17 K R17 HK)).
  { intros m <-. split; [|by apply rX_set_eq]. exists K, M.(mN), M.(mZ), M.(mC), M.(mV).
    unfold set_x. cbn. f_equal. by rewrite insert_insert_ne. }
  apply (triple_do n _ _ _ _ _ _ _ (junk M (Z.land old K)) _ Hn (bitAnd_ok x16 x16 x17 R16 R16 R17)).
  { intros m [Hm E1]. unfold x16, x17. rewrite E1, (junk_value M old) by done. by eapply junk_set16. }
  apply (triple_do n _ _ _ _ _ _ _ (fun m => junk M (Z.land old K) m /\ rX m true 17 = flagReservedOne) _ Hn
    (movImmediate_implements x17 flagReservedOne R17 ltac:(done))); [intros m; by apply set17|].
  apply (triple_do n _ _ _ _ _ _ _ (junk M (Z.lor (Z.land old K) flagReservedOne)) _ Hn (bitOr_ok x16 x16 x17 R16 R16 R17)).
  { intros m [Hm E1]. unfold x16, x17. rewrite E1, (junk_value M (Z.land old K)) by done. by eapply junk_set16. }
  exact Hrest.
Qed.
End Whole.

(** The flags go back to the state. *)
Lemma store_code O E M V (Q : Assertion) : in_range 64 V ->
  (forall m, junk M V m -> Q (store_word (reg_of M 0 + rflagsOffset) 8 V m)) ->
  triple 0 O O E (str x16 x0 rflagsOffset) (junk M V) Q.
Proof.
  intros HV HQ. eapply triple_last; [by apply (doubleword_correct x16 x0 rflagsOffset)|]. intros m Hm. cbn beta.
  rewrite (junk_value M V) by done. rewrite (junk_base M V) by done. by apply HQ.
Qed.

(** Five labels at once, and two. *)
Lemma triple_make5 n O O' E k P Q : 0 <= n ->
  (forall l1 l2 l3 l4 l5, triple n (l1 :: l2 :: l3 :: l4 :: l5 :: O) O' E (k l1 l2 l3 l4 l5) P Q) ->
  triple (5 + n) O O' E (do! l1 <- makeLabel; do! l2 <- makeLabel; do! l3 <- makeLabel; do! l4 <- makeLabel;
    do! l5 <- makeLabel; k l1 l2 l3 l4 l5) P Q.
Proof.
  intros Hn H. replace (5 + n) with (1 + (1 + (1 + (1 + (1 + n))))) by lia.
  do 5 (apply triple_make; [lia|intros ?]). eapply triple_permutation; [|apply H].
  change (rev [l; l0; l1; l2; l3] ++ O ≡ₚ [l; l0; l1; l2; l3] ++ O). by rewrite <- Permutation_rev.
Qed.

Lemma triple_make2 n O O' E k P Q : 0 <= n ->
  (forall l1 l2, triple n (l1 :: l2 :: O) O' E (k l1 l2) P Q) ->
  triple (2 + n) O O' E (do! l1 <- makeLabel; do! l2 <- makeLabel; k l1 l2) P Q.
Proof.
  intros Hn H. replace (2 + n) with (1 + (1 + n)) by lia.
  do 2 (apply triple_make; [lia|intros ?]). eapply triple_permutation; [|apply H]. apply Permutation_swap.
Qed.

(** ** The flag updates as one chain *)

Definition bits (w : Width) : Z := match w with I8 => 8 | I16 => 16 | I32 => 32 | I64 => 64 end.

(** The flags of a result of [w] bits: carry, auxiliary carry and overflow are given. *)
Definition flag_chain (old w res : Z) (cf af oflow : bool) : Z :=
  set_if oflow flagOverflow (set_if (2 ^ (w - 1) <=? res) flagSign (set_if (res =? 0) flagZero
    (set_if af flagAuxiliaryCarry (set_if (parity_even res) flagParity (set_if cf flagCarry
      (Z.lor (Z.land old (not64 arithmeticFlagMask)) flagReservedOne)))))).

Definition auxiliary (x y z : Z) : bool := negb (Z.land (Z.lxor (Z.lxor x y) z) 0x10 =? 0).

Lemma bits_pos w : 8 <= bits w <= 64.
Proof. destruct w; cbn; lia. Qed.

Lemma wrap_bits_range w x : in_range (bits w) (wrap (bits w) x) /\ in_range 64 (wrap (bits w) x).
Proof.
  pose proof (bits_pos w). assert (in_range (bits w) (wrap (bits w) x)) as H' by (apply wrap_range; lia).
  split; [done|]. apply (in_range_le (bits w)); [done|lia].
Qed.

Lemma set_flag_range b F V : in_range 64 F -> in_range 64 V -> in_range 64 (set_if b F V).
Proof. intros. destruct b; [by apply lor_range|done]. Qed.

(** The sign bit of a difference of words, read by a shift or by a mask. *)
Lemma sign_bit_shift w x : 0 < w -> in_range w x -> negb (Z.shiftr x (w - 1) =? 0) = Z.testbit x (w - 1).
Proof. intros. by rewrite shiftr_msb, negb_involutive, testbit_msb. Qed.

Lemma sign_bit_mask w x : 0 < w -> negb (Z.land x (2 ^ (w - 1)) =? 0) = Z.testbit x (w - 1).
Proof. intros. by rewrite land_pow2_testbit, negb_involutive by lia. Qed.

Lemma parity_byte x : in_range 8 x -> (popcount x mod 2 =? 0) = parity_even x.
Proof. intros H. by apply parity_even_byte. Qed.

Lemma add_overflow_bit x y z i : 0 <= i ->
  Z.testbit (Z.land (Z.lnot (Z.lxor x y)) (Z.lxor x z)) i = Z.testbit (Z.land (Z.lxor x z) (Z.lxor y z)) i.
Proof.
  intros Hi. rewrite !Z.land_spec, Z.lnot_spec, !Z.lxor_spec by lia.
  by destruct (Z.testbit x i), (Z.testbit y i), (Z.testbit z i).
Qed.

Section Chains.
Context (st : X86State) (w : Width) (x y z : Z).
Local Abbreviation X := (wrap (bits w) x).
Local Abbreviation Y := (wrap (bits w) y).
Local Abbreviation R := (wrap (bits w) z).

Lemma logic_chain : (w = I64 -> in_range 64 z) ->
  rflags (logic_flags w st z) = flag_chain st.(rflags) (bits w) R false false false.
Proof using Type.
  intros Hz. destruct (wrap_bits_range w z) as [Hr _]. unfold flag_chain. cbn [set_if].
  rewrite <- testbit_msb, <- sign_bit_shift by (done || pose proof (bits_pos w); lia).
  destruct w; cbn [bits logic_flags] in *; [unfold updateLogicFlags8|unfold updateLogicFlags16|unfold updateLogicFlags32|
    unfold updateLogicFlags64; rewrite (wrap_small 64 z) in * by auto]; cbn [rflags set_rflags];
    unfold u8, u16, u32 in *; rewrite ?popcount_low_parity, ?parity_byte by done; reflexivity.
Qed.

Lemma sub_chain : w = I8 \/ w = I64 /\ in_range 64 x /\ in_range 64 y /\ in_range 64 z ->
  rflags (sub_flags w st x y z) = flag_chain st.(rflags) (bits w) R (X <? Y) (auxiliary X Y R)
    (Z.testbit (Z.land (Z.lxor X Y) (Z.lxor X R)) (bits w - 1)).
Proof using Type.
  intros Hw. destruct (wrap_bits_range w x) as [Hx _], (wrap_bits_range w y) as [Hy _], (wrap_bits_range w z) as [Hz _].
  unfold flag_chain. assert (0 < bits w) by (pose proof (bits_pos w); lia).
  rewrite <- (testbit_msb (bits w) R), <- !(sign_bit_shift (bits w)) by
    (done || (apply land_range_r; [lia|]; apply lxor_range; (done || lia))).
  destruct Hw as [->|(-> & Hx' & Hy' & Hz')]; cbn [bits sub_flags] in *.
  - unfold updateSubFlags8. cbn [rflags set_rflags]. unfold u8. rewrite parity_byte by done. reflexivity.
  - unfold updateSubFlags64. cbn [rflags set_rflags]. rewrite !wrap_small by done. rewrite popcount_low_parity. reflexivity.
Qed.

Lemma add_chain : w = I64 /\ in_range 64 x /\ in_range 64 y /\ in_range 64 z \/ w <> I64 /\ R = wrap (bits w) (x + y) ->
  rflags (add_flags w st x y z) = flag_chain st.(rflags) (bits w) R (R <? X) (auxiliary X Y R)
    (Z.testbit (Z.land (Z.lxor X R) (Z.lxor Y R)) (bits w - 1)).
Proof using Type.
  intros Hw. destruct (wrap_bits_range w x) as [Hx _], (wrap_bits_range w y) as [Hy _], (wrap_bits_range w z) as [Hz _].
  assert (0 < bits w) by (pose proof (bits_pos w); lia).
  rewrite <- add_overflow_bit by lia. unfold flag_chain.
  destruct Hw as [(-> & Hx' & Hy' & Hz')|(Hne & E)].
  - rewrite <- (testbit_msb (bits I64) _), <- !(sign_bit_shift (bits I64)) by
      (done || (apply land_range_r; [lia|]; apply lxor_range; (done || lia))).
    cbn [bits add_flags] in *. unfold updateAddFlags64. cbn [rflags set_rflags]. rewrite !wrap_small by done.
    rewrite popcount_low_parity. reflexivity.
  - assert ((R <? X) = (2 ^ bits w - 1 <? X + Y)) as ->.
    { rewrite E. unfold wrap. rewrite Z.add_mod by lia. fold (wrap (bits w) x) (wrap (bits w) y).
      unfold in_range in Hx, Hy. destruct (Z.ltb_spec (2 ^ bits w - 1) (X + Y)).
      - rewrite <- (Z_mod_plus_full _ (-1)), Z.mod_small by lia. apply Z.ltb_lt. lia.
      - rewrite Z.mod_small by lia. apply Z.ltb_ge. lia. }
    rewrite <- (testbit_msb (bits w) R), <- !(sign_bit_mask (bits w)) by done.
    clear E. destruct w; cbn [bits add_flags] in *; [unfold updateAddFlags8|unfold updateAddFlags16|unfold updateAddFlags32|done];
      cbn [rflags set_rflags]; unfold u8, u16, u32; rewrite ?popcount_low_parity, ?parity_byte by done; reflexivity.
Qed.
End Chains.

(** ** The inline flag updates *)

(** RFLAGS in the state x0 points to. *)
Definition flags_slot (m : machine) : Z := u64 (load_word m (reg_of m 0 + rflagsOffset) 8).

(** [M] after its flags became [V]; the scratch registers and NZCV changed. *)
Definition flagged (M : machine) (V : Z) (m : machine) : Prop :=
  m.(msp) = M.(msp) /\ m.(mmem) = (store_word (reg_of M 0 + rflagsOffset) 8 V M).(mmem) /\
  forall r, r ∉ [1; 2; 3; 16; 17] -> m.(mx) !! r = M.(mx) !! r.

(** Registers that keep flag code's operands. *)
Definition operand_register (r : Z) : Prop := reg r /\ r ∉ [1; 2; 3; 16; 17].

Lemma operand_plain r : operand_register r -> plain r.
Proof. intros [Hr Hn]. split; [done|]. rewrite !not_elem_of_cons in Hn. tauto. Qed.

Lemma junk_flagged M M' V m : junk M' V m -> M'.(msp) = M.(msp) -> M'.(mmem) = M.(mmem) ->
  (forall r, r ∉ [1; 2; 3; 16; 17] -> M'.(mx) !! r = M.(mx) !! r) ->
  flagged M V (store_word (reg_of M' 0 + rflagsOffset) 8 V m).
Proof.
  intros (t & n & z & c & v & ->) Hsp Hmem Hx. assert (reg_of M' 0 = reg_of M 0) as ->.
  { unfold reg_of. rewrite Hx; [done|]. rewrite !not_elem_of_cons. split_and!; [done..|apply not_elem_of_nil]. }
  split_and!; [done|unfold store_word; cbn; by rewrite Hmem|].
  intros r Hr. cbn. rewrite !not_elem_of_cons in Hr. rewrite !lookup_insert_ne by (intros <-; tauto).
  apply Hx. rewrite !not_elem_of_cons. tauto.
Qed.

Ltac chain_range := repeat first [assumption | done | apply set_flag_range | apply lor_range | apply land_range_r].

Lemma start_range old : in_range 64 (Z.lor (Z.land old (not64 arithmeticFlagMask)) flagReservedOne).
Proof. apply lor_range; [done|by apply land_range_r|done]. Qed.

Lemma emitSubFlags64_code g O E M lhs rhs result : operand_register lhs -> operand_register rhs -> operand_register result ->
  triple 5 O O E (emitSubFlags64 g lhs rhs result) (eq M)
    (flagged M (flag_chain (flags_slot M) 64 (rX M true result) (rX M true lhs <? rX M true rhs)
      (auxiliary (rX M true lhs) (rX M true rhs) (rX M true result))
      (Z.testbit (Z.land (Z.lxor (rX M true lhs) (rX M true rhs)) (Z.lxor (rX M true lhs) (rX M true result))) 63))).
Proof.
  intros Hl%operand_plain Hr%operand_plain Hz%operand_plain. pose proof (start_range (flags_slot M)) as Hs.
  apply (triple_make5 0); [done|]. intros l1 l2 l3 l4 l5.
  apply start_code; [done..|]. fold (flags_slot M).
  apply carry_code; [done|chain_range|done..|].
  apply parity_code; [done|chain_range|done..|].
  apply auxiliary_code; [done|chain_range|done..|].
  apply zero_code; [done|chain_range|done..|].
  eapply (sign_code _ _ _ _ _ _ _ _) with (w := 64); [done|chain_range|done..|apply (rX_range M true)|].
  apply (overflow_code _ _ _ _ M _ ltac:(done) _ l5); [chain_range|done..|]. cbv zeta.
  apply store_code; [chain_range|]. intros m Hm. apply (junk_flagged M _ _ _ Hm); [done..|].
  intros r Hne. cbn. rewrite !not_elem_of_cons in Hne. by rewrite lookup_insert_ne by (intros <-; tauto).
Qed.

(** *** Narrow operands *)

Lemma triple_assoc3 n O O' E (c1 c2 c3 k : Prelude.M Assembler unit) P Q :
  triple n O O' E (c1 ;;; c2 ;;; c3 ;;; k) P Q -> triple n O O' E ((c1 ;;; c2 ;;; c3) ;;; k) P Q.
Proof.
  apply triple_same. intros a. unfold bind. destruct (c1 a) as [a1 [[]| |]]; [|done..].
  by destruct (c2 a1) as [a2 [[]| |]].
Qed.

Lemma triple_assoc4 n O O' E (c1 c2 c3 c4 k : Prelude.M Assembler unit) P Q :
  triple n O O' E (c1 ;;; c2 ;;; c3 ;;; c4 ;;; k) P Q -> triple n O O' E ((c1 ;;; c2 ;;; c3 ;;; c4) ;;; k) P Q.
Proof.
  apply triple_same. intros a. unfold bind. destruct (c1 a) as [a1 [[]| |]]; [|done..].
  destruct (c2 a1) as [a2 [[]| |]]; [|done..]. by destruct (c3 a2) as [a3 [[]| |]].
Qed.

Lemma land_bits x b : 0 <= b -> Z.land x (2 ^ b - 1) = wrap b x.
Proof. intros Hb. rewrite wrap_land by done. f_equal. rewrite Z.ones_equiv. lia. Qed.


(** Reads of registers just set. *)
Ltac read_registers :=
  repeat first [rewrite rX_set_eq by done | rewrite rX_set_ne by (done || lia || tauto || (intros <-; tauto))].

(** The operands in x1, x2 and x3. *)
Definition operands_in (M : machine) (X Y R : Z) (t : option Z) : machine :=
  set_x 3 R (set_x 2 Y (set_x 1 X (match t with Some v => set_x 17 v M | None => M end))).

Section Operands.
Context (n : Z) (O O' : list Z) (E : Exits) (M : machine) (Q : Assertion) (Hn : 0 <= n).
Context (lhs rhs result : Z) (Hl : operand_register lhs) (Hr : operand_register rhs) (Hz : operand_register result).
Context (rest : Prelude.M Assembler unit).

Lemma masked_operands b mask : mask = 2 ^ b - 1 -> 0 <= b < 64 ->
  triple n O O' E rest (eq (operands_in M (wrap b (rX M true lhs)) (wrap b (rX M true rhs)) (wrap b (rX M true result)) (Some mask))) Q ->
  triple n O O' E (movImmediate x17 mask ;;; bitAnd x1 lhs x17 ;;; bitAnd x2 rhs x17 ;;; bitAnd x3 result x17 ;;; rest) (eq M) Q.
Proof using Hn Hl Hr Hz.
  intros -> Hb Hrest. destruct Hl as [Rl Nl], Hr as [Rr Nr], Hz as [Rz Nz]. rewrite !not_elem_of_cons in Nl, Nr, Nz.
  assert (in_range 64 (2 ^ b - 1)) as Hm.
  { pose proof (Z.pow_lt_mono_r 2 b 64). pose proof (Z.pow_pos_nonneg 2 b). unfold in_range. lia. }
  eapply triple_do; [done|by apply movImmediate_implements|intros m <-; exact eq_refl|].
  eapply triple_do; [done|by apply bitAnd_ok|intros m <-; exact eq_refl|].
  eapply triple_do; [done|by apply bitAnd_ok|intros m <-; exact eq_refl|].
  eapply triple_do; [done|by apply bitAnd_ok|intros m <-; exact eq_refl|].
  unfold operands_in in Hrest. unfold x1, x2, x3, x17. read_registers. rewrite !land_bits by lia. exact Hrest.
Qed.

Lemma moved_operands :
  triple n O O' E rest (eq (operands_in M (rX M true lhs) (rX M true rhs) (rX M true result) None)) Q ->
  triple n O O' E (mov x1 lhs ;;; mov x2 rhs ;;; mov x3 result ;;; rest) (eq M) Q.
Proof using Hn Hl Hr Hz.
  intros Hrest. destruct Hl as [Rl Nl], Hr as [Rr Nr], Hz as [Rz Nz]. rewrite !not_elem_of_cons in Nl, Nr, Nz.
  eapply triple_do; [done|by apply mov_correct|intros m <-; exact eq_refl|].
  eapply triple_do; [done|by apply mov_correct|intros m <-; exact eq_refl|].
  eapply triple_do; [done|by apply mov_correct|intros m <-; exact eq_refl|].
  unfold operands_in in Hrest. unfold x1, x2, x3. read_registers. exact Hrest.
Qed.
End Operands.

Section InPlace.
Context (M : machine) (X Y R : Z) (t : option Z).
Context (HX : in_range 64 X) (HY : in_range 64 Y) (HR : in_range 64 R).
Local Abbreviation M' := (operands_in M X Y R t).

Lemma operands_read : rX M' true x1 = X /\ rX M' true x2 = Y /\ rX M' true x3 = R.
Proof using HX HY HR. unfold operands_in, x1, x2, x3. split_and!; by read_registers. Qed.

Lemma operands_other r : r ∉ [1; 2; 3; 16; 17] -> M'.(mx) !! r = M.(mx) !! r.
Proof using Type.
  rewrite !not_elem_of_cons. intros Hne. unfold operands_in. cbn.
  rewrite !lookup_insert_ne by (intros <-; tauto). destruct t; [|done]. cbn. by rewrite lookup_insert_ne by (intros <-; tauto).
Qed.

Lemma operands_base : reg_of M' 0 = reg_of M 0.
Proof using Type.
  unfold reg_of. rewrite operands_other; [done|]. rewrite !not_elem_of_cons. split_and!; [done..|apply not_elem_of_nil].
Qed.

Lemma operands_slot : flags_slot M' = flags_slot M.
Proof using Type. unfold flags_slot. rewrite operands_base. by destruct t. Qed.

Lemma operands_junk v V m : in_range 64 v ->
  junk (set_x 1 v M') V m -> flagged M V (store_word (reg_of (set_x 1 v M') 0 + rflagsOffset) 8 V m).
Proof using Type.
  intros Hv Hm. apply (junk_flagged M _ _ _ Hm); [by destruct t..|]. intros r Hne. cbn [set_x mx].
  pose proof Hne as Hne'. rewrite !not_elem_of_cons in Hne'. rewrite lookup_insert_ne by (intros <-; tauto). by apply operands_other.
Qed.

Lemma operands_junk_plain V m : junk M' V m -> flagged M V (store_word (reg_of M' 0 + rflagsOffset) 8 V m).
Proof using Type. intros Hm. apply (junk_flagged M _ _ _ Hm); [by destruct t..|]. apply operands_other. Qed.
End InPlace.

Lemma plain123 : plain 1 /\ plain 2 /\ plain 3.
Proof. by split_and!. Qed.

Section Updates.
Context (g : CodeGen) (O : list Z) (E : Exits) (M : machine) (o : Operation).
Context (lhs rhs result : ValueId) (l r z : Z).
Context (Hl : o.(o_lhs) = Some lhs /\ returns (hostRegister g lhs) l /\ operand_register l).
Context (Hr : o.(o_rhs) = Some rhs /\ returns (hostRegister g rhs) r /\ operand_register r).
Context (Hz : o.(o_third) = Some result /\ returns (hostRegister g result) z /\ operand_register z).
Local Abbreviation b := (bits o.(o_width)).
Local Abbreviation X := (wrap b (rX M true l)).
Local Abbreviation Y := (wrap b (rX M true r)).
Local Abbreviation R := (wrap b (rX M true z)).

Lemma emitSubFlags8_code : o.(o_width) = I8 ->
  triple 5 O O E (emitSubFlags8 g o) (eq M)
    (flagged M (flag_chain (flags_slot M) b R (X <? Y) (auxiliary X Y R) (Z.testbit (Z.land (Z.lxor X Y) (Z.lxor X R)) (b - 1)))).
Proof using Hl Hr Hz.
  intros Hw. destruct Hl as (El & Rl & Ol), Hr as (Er & Rr & Or), Hz as (Ez & Rz & Oz). unfold emitSubFlags8.
  rewrite El, Er, Ez. eapply triple_returns; [apply returns_ret|]. eapply triple_returns; [exact Rl|].
  eapply triple_returns; [apply returns_ret|]. eapply triple_returns; [exact Rr|].
  eapply triple_returns; [apply returns_ret|]. eapply triple_returns; [exact Rz|].
  apply (triple_make5 0); [done|]. intros l1 l2 l3 l4 l5.
  apply (masked_operands _ _ _ _ _ _ ltac:(done) l r z ltac:(done) ltac:(done) ltac:(done) _ 8); [done..|].
  rewrite Hw. cbn [bits]. assert (forall x, in_range 64 (wrap 8 x)) as H8 by (apply (wrap_bits_range I8)).
  set (X := wrap 8 (rX M true l)). set (Y := wrap 8 (rX M true r)). set (R := wrap 8 (rX M true z)).
  destruct (operands_read M X Y R (Some 255)) as (E1 & E2 & E3); [apply H8..|].
  pose proof (operands_slot M X Y R (Some 255)) as Es. pose proof (start_range (flags_slot M)) as Hs.
  set (M' := operands_in _ _ _ _ _) in *. destruct plain123 as (P1 & P2 & P3).
  apply start_code; [done..|]. fold (flags_slot M'). rewrite Es.
  apply carry_code; [done|chain_range|done..|]. rewrite E1, E2.
  apply parity_code; [done|chain_range|done..|]. rewrite E3.
  apply auxiliary_code; [done|chain_range|done..|]. rewrite E1, E2, E3.
  apply zero_code; [done|chain_range|done..|]. rewrite E3.
  eapply (sign_code _ _ _ _ _ _ _ _) with (w := 8); [done|chain_range|done..| |]; rewrite E3; [by apply wrap_range|].
  apply (overflow_code _ _ _ _ M' _ ltac:(done) _ l5); [chain_range|done..|]. cbv zeta. rewrite E1, E2, E3.
  apply store_code; [chain_range|]. intros m Hm. unfold M'. apply operands_junk; [|exact Hm].
  apply lxor_range; [done|apply H8..].
Qed.

(** The operands of an addition, brought to the width of the operation. *)
Lemma operands_code n O1 O2 rest Q : 0 <= n ->
  (forall t, triple n O1 O2 E rest (eq (operands_in M X Y R t)) Q) ->
  triple n O1 O2 E ((if width_is I64 o then mov x1 l ;;; mov x2 r ;;; mov x3 z
    else
      let valueMask := if width_is I8 o then 0xFF else if width_is I16 o then 0xFFFF else UINT32_MAX in
      movImmediate x17 valueMask ;;; bitAnd x1 l x17 ;;; bitAnd x2 r x17 ;;; bitAnd x3 z x17) ;;; rest) (eq M) Q.
Proof using Hl Hr Hz.
  intros Hn Hrest. destruct Hl as (El & Rl & Ol), Hr as (Er & Rr & Or), Hz as (Ez & Rz & Oz).
  unfold width_is. destruct (o_width o) eqn:Hw; cbn [bits] in Hrest; cbv zeta; do 4 (try case_bool_decide; try done).
  - apply triple_assoc4. by eapply (masked_operands n _ _ _ _ _ Hn l r z Ol Or Oz _ 8).
  - apply triple_assoc4. by eapply (masked_operands n _ _ _ _ _ Hn l r z Ol Or Oz _ 16).
  - apply triple_assoc4. by eapply (masked_operands n _ _ _ _ _ Hn l r z Ol Or Oz _ 32).
  - apply triple_assoc3. apply (moved_operands n _ _ _ _ _ Hn l r z Ol Or Oz). specialize (Hrest None).
    rewrite !wrap_small in Hrest by apply (rX_range M true). done.
Qed.

Lemma emitAddFlags_code :
  triple 5 O O E (emitAddFlags g o) (eq M)
    (flagged M (flag_chain (flags_slot M) b R (R <? X) (auxiliary X Y R) (Z.testbit (Z.land (Z.lxor X R) (Z.lxor Y R)) (b - 1)))).
Proof using Hl Hr Hz.
  pose proof operands_code as Hcode.
  destruct Hl as (El & Rl & Ol), Hr as (Er & Rr & Or), Hz as (Ez & Rz & Oz). unfold emitAddFlags.
  rewrite El, Er, Ez. eapply triple_returns; [apply returns_ret|]. eapply triple_returns; [exact Rl|].
  eapply triple_returns; [apply returns_ret|]. eapply triple_returns; [exact Rr|].
  eapply triple_returns; [apply returns_ret|]. eapply triple_returns; [exact Rz|].
  assert ((if width_is I8 o then 7 else if width_is I16 o then 15 else if width_is I32 o then 31 else 63) = b - 1) as ->.
  { unfold width_is. by destruct (o_width o). }
  assert (u8 (b - 1) = b - 1) as -> by by destruct (o_width o).
  apply (triple_make5 0); [done|]. intros l1 l2 l3 l4 l5. cbv zeta.
  assert (forall x, in_range 64 (wrap b x)) as H64 by apply wrap_bits_range. pose proof (bits_pos (o_width o)) as Hb.
  set (X := wrap b (rX M true l)) in *. set (Y := wrap b (rX M true r)) in *. set (R := wrap b (rX M true z)) in *.
  apply Hcode; [done|]. intros t.
  destruct (operands_read M X Y R t) as (E1 & E2 & E3); [apply H64..|].
  pose proof (operands_slot M X Y R t) as Es. pose proof (start_range (flags_slot M)) as Hs.
  pose proof (operands_junk M X Y R t) as Hjunk.
  set (M' := operands_in _ _ _ _ _) in *. destruct plain123 as (P1 & P2 & P3).
  apply start_code; [done..|]. fold (flags_slot M'). rewrite Es.
  apply carry_code; [done|chain_range|done..|]. rewrite E1, E3.
  apply parity_code; [done|chain_range|done..|]. rewrite E3.
  apply auxiliary_code; [done|chain_range|done..|]. rewrite E1, E2, E3.
  apply zero_code; [done|chain_range|done..|]. rewrite E3.
  eapply (sign_code _ _ _ _ _ _ _ _) with (w := b); [done|chain_range|done|lia|lia| |]; rewrite E3; [by apply wrap_bits_range|].
  apply (overflow_code _ _ _ _ M' _ ltac:(done) _ l5); [chain_range|done..|lia|]. cbv zeta. rewrite E1, E2, E3.
  apply store_code; [chain_range|]. intros m Hm. apply Hjunk in Hm; [exact Hm|].
  apply lxor_range; [done|apply H64..].
Qed.
End Updates.

Lemma emitLogicFlags_code g O E M result (w : Width) : operand_register result -> let R := wrap (bits w) (rX M true result) in
  triple 2 O O E (emitLogicFlags g result w) (eq M) (flagged M (flag_chain (flags_slot M) (bits w) R false false false)).
Proof.
  intros [Rr Nr] R. unfold emitLogicFlags. rewrite !not_elem_of_cons in Nr.
  assert ((if bool_decide (w = I8) then 7 else if bool_decide (w = I16) then 15 else if bool_decide (w = I32) then 31 else 63)
    = bits w - 1) as -> by by destruct w.
  assert (u8 (bits w - 1) = bits w - 1) as -> by by destruct w.
  apply (triple_make2 0); [done|]. intros l1 l2. cbv zeta.
  assert (in_range (bits w) R /\ in_range 64 R) as [HR HR'] by apply wrap_bits_range. pose proof (bits_pos w) as Hb.
  apply (triple_seq 0 0 _ (l1 :: l2 :: O) _ _ _ _ _ (fun m => exists t, m = set_x 1 R (match t with Some v => set_x 17 v M | None => M end)));
    [done..| |].
  { case_bool_decide as E1; cbv zeta.
    - eapply triple_last; [by apply mov_correct|]. intros m <-. exists None. unfold x1, R. rewrite E1.
      by rewrite wrap_small by apply (rX_range M true).
    - set (mask := if bool_decide (w = I8) then 0xFF else if bool_decide (w = I16) then 0xFFFF else UINT32_MAX). assert (mask = 2 ^ bits w - 1 /\ in_range 64 mask) as [Hmask Hmr].
      { unfold mask. by destruct w. }
      eapply triple_do; [done|by apply movImmediate_implements|intros m <-; exact eq_refl|].
      eapply triple_last; [by apply bitAnd_ok|]. intros m <-. exists (Some mask). cbn beta. unfold x1, x17, R. read_registers.
      by rewrite Hmask, land_bits by lia. }
  apply triple_exists; [|exact None]. intros t.
  set (M' := set_x 1 R _). assert (rX M' true x1 = R) as E1 by (unfold M', x1; by read_registers).
  assert (forall r, r ∉ [1; 2; 3; 16; 17] -> M'.(mx) !! r = M.(mx) !! r) as Hx.
  { intros r. rewrite !not_elem_of_cons. intros Hne. unfold M'. cbn. rewrite lookup_insert_ne by (intros <-; tauto).
    destruct t; [|done]. cbn. by rewrite lookup_insert_ne by (intros <-; tauto). }
  assert (flags_slot M' = flags_slot M) as Es.
  { unfold flags_slot, reg_of. rewrite Hx; [by destruct t|]. rewrite !not_elem_of_cons. split_and!; [done..|apply not_elem_of_nil]. }
  pose proof (start_range (flags_slot M)) as Hs. destruct plain123 as (P1 & P2 & P3).
  eapply (triple_pre _ _ _ _ _ _ (eq M')); [by intros m ->|].
  apply start_code; [done..|]. fold (flags_slot M'). rewrite Es.
  apply parity_code; [done|chain_range|done..|]. rewrite E1.
  apply zero_code; [done|chain_range|done..|]. rewrite E1.
  eapply (sign_code _ _ _ _ _ _ _ _) with (w := bits w); [done|chain_range|done|lia|lia|by rewrite E1|]. rewrite E1.
  apply store_code; [chain_range|]. intros m Hm. apply (junk_flagged M _ _ _ Hm); [by destruct t..|exact Hx].
Qed.
