(* ===== verification/BackendSelect.v ===== *)
(** Instruction selection of the ARM64 backend: the code of each operation of a block that
    stays in the guest registers and flags ([emit_*] of [BackendScalar]) has, on the A64
    reference, the effect [IRSemantics] gives the operation. *)
From stdpp Require Import relations.
From S2P Require Import Prelude X86State FlagSpec FlagHelpers AArch64 Assembler AssemblerSpec AssemblerStack AssemblerFlow AssemblerBranch ExecutionContext IR IRVerify IRSemantics Optimization BackendAnalysis BackendPlan BackendBase BackendScalar BackendLogic BackendFlags.

(** ** The guest state in memory *)

(** The word LDR reads at [off] bytes into the state. *)
Definition slot (base off : Z) (m : machine) : Z := u64 (load_word m (base + off) 8).

(** Memory cells hold bytes. *)
Definition memory_ok (m : machine) : Prop := map_Forall (fun _ => is_byte) m.(mmem).

Lemma memory_ok_load m a n : memory_ok m -> bytes_ok (load_bytes m.(mmem) a n).
Proof.
  intros Hm. revert a. induction n as [|n IH]; intros a; cbn [load_bytes]; constructor; [|apply IH].
  destruct (m.(mmem) !! u64 a) eqn:E; [by apply (Hm (u64 a))|cbn; unfold is_byte; lia].
Qed.

Lemma memory_ok_stored a bs : forall f, bytes_ok bs -> map_Forall (fun _ => is_byte) f ->
  map_Forall (fun _ => is_byte) (store_bytes f a bs).
Proof.
  revert a. induction bs as [|b bs IH]; intros a f Hb Hf; cbn [store_bytes]; [done|].
  apply Forall_cons in Hb as [Hb Hbs]. apply IH; [done|]. by apply map_Forall_insert_2.
Qed.

Lemma memory_ok_store a n v m : memory_ok m -> memory_ok (store_word a n v m).
Proof. intros Hm. apply memory_ok_stored; [apply le_bytes_ok|done]. Qed.

Lemma le_value_take k : forall l, bytes_ok l -> le_value (take k l) = wrap (8 * Z.of_nat k) (le_value l).
Proof.
  induction k as [|k IH]; intros l Hl; [unfold wrap; by rewrite Z.mod_1_r|]. destruct l as [|b l]; [done|].
  apply Forall_cons in Hl as [Hb Hl]. cbn [take le_value]. rewrite IH by done. unfold is_byte in Hb.
  apply Z.bits_inj'. intros i Hi. rewrite wrap_testbit, !Z.lor_spec, !Z.shiftl_spec by lia.
  destruct (Z.ltb_spec i 8).
  - rewrite !(Z.testbit_neg_r _ (i - 8)) by lia. by destruct (Z.ltb_spec i (8 * Z.of_nat (S k))); [|lia].
  - rewrite (testbit_above 8 b), wrap_testbit by (unfold in_range; lia). cbn [orb].
    destruct (Z.ltb_spec (i - 8) (8 * Z.of_nat k)), (Z.ltb_spec i (8 * Z.of_nat (S k))); (done || lia).
Qed.

Lemma load_bytes_take f k n : forall a, (k <= n)%nat -> take k (load_bytes f a n) = load_bytes f a k.
Proof.
  revert n. induction k as [|k IH]; intros [|n] a Hk; try done; [lia|]. cbn [load_bytes take]. f_equal. apply IH. lia.
Qed.

(** The four-byte load sees the low half of the word. *)
Lemma load_low m a : memory_ok m -> u64 (load_word m a 4) = wrap 32 (u64 (load_word m a 8)).
Proof.
  intros Hm. unfold load_word. rewrite <- (load_bytes_take (mmem m) 4 8 a) by lia.
  rewrite le_value_take by by apply memory_ok_load. change (8 * Z.of_nat 4) with 32.
  unfold u64. rewrite (wrap_wrap_le 32 64) by lia. apply wrap_small. apply (in_range_le 32); [by apply wrap_range|lia].
Qed.

(** The bytes of the state generated code writes: registers, RIP and RFLAGS. *)
Definition written_size : Z := 144.

Section Memory.
Context (base : Z) (Hbase : 0 <= base) (Hend : base + state_size <= 2 ^ 64).

Lemma slot_store_eq off v m : in_range 64 v -> slot base off (store_word (base + off) 8 v m) = v.
Proof.
  intros Hv. unfold slot, load_word, store_word. cbn [mmem set_mem].
  pose proof (load_stored (le_bytes 8 v) (mmem m) (base + off)) as H. rewrite length_le_bytes in H.
  rewrite H by (unfold zlength; by rewrite length_le_bytes).
  rewrite le_value_bytes_wrap. change (8 * Z.of_nat 8) with 64. rewrite (wrap_small 64 v Hv). by apply wrap_small.
Qed.

Lemma state_address off i : 0 <= off <= 664 -> 0 <= i < 8 -> u64 (base + off + i) = base + off + i.
Proof using Hbase Hend base. unfold state_size in *. intros. apply wrap_small. unfold in_range. lia. Qed.

Lemma slot_store_ne off off' v m : 0 <= off <= 664 -> 0 <= off' <= 664 -> off + 8 <= off' \/ off' + 8 <= off ->
  slot base off' (store_word (base + off) 8 v m) = slot base off' m.
Proof using Hbase Hend base.
  intros Ho Ho' Hd. unfold slot, load_word, store_word. cbn [mmem set_mem]. do 2 f_equal.
  apply load_bytes_ext. intros i Hi. apply store_bytes_other. unfold zlength. rewrite length_le_bytes.
  intros j Hj. rewrite !state_address by lia. lia.
Qed.

Lemma store_outside off v m a : 0 <= off <= 136 -> ~ (base <= a < base + written_size) ->
  (store_word (base + off) 8 v m).(mmem) !! a = m.(mmem) !! a.
Proof using Hbase Hend base.
  intros Ho Ha. unfold store_word. cbn [mmem set_mem]. apply store_bytes_other. unfold zlength. rewrite length_le_bytes.
  intros j Hj. rewrite state_address by lia. unfold written_size in Ha. lia.
Qed.

Lemma registerOffset_range r : 0 <= registerOffset r <= 120.
Proof. destruct r; cbn; lia. Qed.

Lemma registerOffset_apart r r' : r <> r' ->
  registerOffset r + 8 <= registerOffset r' \/ registerOffset r' + 8 <= registerOffset r.
Proof. destruct r, r'; cbn; intros; (done || lia). Qed.
End Memory.

(** The state at [base], but for RFLAGS and the vector registers. *)
Record in_memory (base : Z) (st : X86State) (m : machine) : Prop := {
  im_gpr : forall r, slot base (registerOffset r) m = get_gpr r st;
  im_gs : slot base gsBaseOffset m = u64 st.(gsBase)
}.

(** ** The machine between two operations *)

(** What the flags have in common when the last update was skipped. *)
Definition other_flags (x : Z) : Z := Z.land x (not64 (Z.lor arithmeticFlagMask flagReservedOne)).

(** The registers the code of a block uses. *)
Definition scratch : list Z := [1; 2; 3; 8; 9; 10; 11; 12; 13; 14; 15; 16; 17].

Section Select.
Context (base : Z) (host : ValueId -> Z) (M0 : machine).

(** Values [live] are in their registers; [exact]: the flags are those of the state. *)
Record point (live : ValueId -> Prop) (exact : bool) (env : gmap Z Z) (st : X86State) (m : machine) : Prop := {
  p_base : reg_of m 0 = base;
  p_state : in_memory base st m;
  p_flags : if exact then slot base rflagsOffset m = st.(rflags)
            else other_flags (slot base rflagsOffset m) = other_flags st.(rflags);
  p_hosts : forall v x, live v -> env !! v = Some x -> rX m true (host v) = x;
  p_sp : m.(msp) = M0.(msp);
  p_memory : forall a, ~ (base <= a < base + written_size) -> m.(mmem) !! a = M0.(mmem) !! a;
  p_registers : forall r, r ∉ scratch -> m.(mx) !! r = M0.(mx) !! r;
  p_bytes : memory_ok m
}.

Context (Hbase : 0 <= base) (Hend : base + state_size <= 2 ^ 64).

(** A machine with the same memory and the same registers, scratch apart. *)
Definition undisturbed (m m' : machine) : Prop :=
  m'.(mmem) = m.(mmem) /\ m'.(msp) = m.(msp) /\ forall r, r ∉ [1; 2; 3; 16; 17] -> m'.(mx) !! r = m.(mx) !! r.

Lemma undisturbed_refl m : undisturbed m m.
Proof. done. Qed.

Lemma undisturbed_trans m1 m2 m3 : undisturbed m1 m2 -> undisturbed m2 m3 -> undisturbed m1 m3.
Proof.
  intros (A1 & A2 & A3) (B1 & B2 & B3). split_and!; [congruence..|]. intros r Hr. by rewrite B3, A3.
Qed.

Lemma undisturbed_set m r x : r ∈ [1; 2; 3; 16; 17] -> undisturbed m (set_x r x m).
Proof. intros Hr. split_and!; [done..|]. intros r' Hr'. cbn. apply lookup_insert_ne. by intros ->. Qed.

Lemma undisturbed_flags m n z c v : undisturbed m (set_nzcv n z c v m).
Proof. done. Qed.

Lemma undisturbed_slot m m' off : undisturbed m m' -> slot base off m' = slot base off m.
Proof. intros (E & _ & _). unfold slot, load_word. by rewrite E. Qed.

Lemma undisturbed_read m m' sf r : undisturbed m m' -> r ∉ [1; 2; 3; 16; 17] -> rX m' sf r = rX m sf r.
Proof. intros (_ & _ & E) Hr. unfold rX, reg_of. by rewrite E. Qed.

Lemma in_memory_same st m m' : (forall off, slot base off m' = slot base off m) -> in_memory base st m -> in_memory base st m'.
Proof. intros E [H1 H2]. split; [intros r|]; by rewrite E. Qed.

Lemma zero_not_scratch : (0 : Z) ∉ [1; 2; 3; 16; 17].
Proof. rewrite !not_elem_of_cons. split_and!; [done..|apply not_elem_of_nil]. Qed.

Lemma scratch_sub r : r ∉ scratch -> r ∉ [1; 2; 3; 16; 17].
Proof using base host. unfold scratch. rewrite !not_elem_of_cons. tauto. Qed.

(** A host register: one of x8 to x15. *)
Definition allocated_register (r : Z) : Prop := 8 <= r <= 15.

Lemma allocated_operand r : allocated_register r -> operand_register r.
Proof.
  intros H. unfold allocated_register in H. split; [unfold reg; lia|]. rewrite !not_elem_of_cons. split_and!; [lia..|apply not_elem_of_nil].
Qed.

Lemma point_undisturbed live exact env st m m' : (forall v, live v -> allocated_register (host v)) ->
  point live exact env st m -> undisturbed m m' -> point live exact env st m'.
Proof.
  intros Hlive [P1 P2 P3 P4 P5 P6 P7 P8] U. pose proof (undisturbed_slot m m') as Hslot. split.
  - destruct U as (_ & _ & U). unfold reg_of. rewrite U by apply zero_not_scratch. exact P1.
  - apply (in_memory_same st m); [|done]. intros off. by apply Hslot.
  - by rewrite Hslot.
  - intros v x Hv Hx. rewrite (undisturbed_read m) by (done || by apply allocated_operand, Hlive). by apply P4.
  - destruct U as (_ & -> & _). exact P5.
  - intros a Ha. destruct U as (-> & _ & _). by apply P6.
  - intros r Hr. destruct U as (_ & _ & U). rewrite U by by apply scratch_sub. by apply P7.
  - unfold memory_ok. by destruct U as (-> & _ & _).
Qed.

Lemma point_live (live live' : ValueId -> Prop) exact env st m : (forall v, live' v -> live v) ->
  point live exact env st m -> point live' exact env st m.
Proof. intros Hl [P1 P2 P3 P4 P5 P6 P7 P8]. split; try (by apply (in_memory_same st m)); try exact P3; try done. intros v x Hv. by apply P4, Hl. Qed.

Lemma point_inexact live env st m exact : point live true env st m -> point live exact env st m.
Proof. intros [P1 P2 P3 P4 P5 P6 P7 P8]. split; try (by apply (in_memory_same st m)); try exact P3; try done. rewrite P3. by destruct exact. Qed.

(** A value goes to its register. *)
Lemma point_define (live live' : ValueId -> Prop) exact env st m r x :
  (forall v, live' v -> v = r \/ live v /\ host v <> host r) -> allocated_register (host r) -> in_range 64 x ->
  point live exact env st m -> point live' exact (<[r := x]> env) st (set_x (host r) x m).
Proof.
  intros Hl Hr Hx [P1 P2 P3 P4 P5 P6 P7 P8]. unfold allocated_register in Hr. split; try (by apply (in_memory_same st m)); try exact P3; try done.
  - unfold reg_of. cbn. rewrite lookup_insert_ne by lia. exact P1.
  - intros v y Hv. destruct (decide (v = r)) as [->|Hne].
    + rewrite lookup_insert_eq. intros [= <-]. apply rX_set_eq; [unfold reg; lia|done].
    + rewrite lookup_insert_ne by done. intros Hy. destruct (Hl v Hv) as [?|[Hv' Hh]]; [done|].
      rewrite rX_set_ne by done. by apply P4.
  - intros r' Hr'. cbn. rewrite lookup_insert_ne; [by apply P7|]. intros <-. unfold scratch in Hr'.
    rewrite !not_elem_of_cons in Hr'. lia.
Qed.

(** A value without a register that is read. *)
Lemma point_unlive (live live' : ValueId -> Prop) exact env st m r x :
  (forall v, live' v -> v <> r /\ live v) -> point live exact env st m -> point live' exact (<[r := x]> env) st m.
Proof.
  intros Hl [P1 P2 P3 P4 P5 P6 P7 P8]. split; try (by apply (in_memory_same st m)); try exact P3; try done. intros v y Hv. destruct (Hl v Hv).
  rewrite lookup_insert_ne by done. by apply P4.
Qed.

(** [M] after a word of its state became [V]; scratch registers apart. *)
Record stored (off V : Z) (M m : machine) : Prop := {
  s_slot : slot base off m = V;
  s_others : forall off', 0 <= off' <= 664 -> off + 8 <= off' \/ off' + 8 <= off -> slot base off' m = slot base off' M;
  s_outside : forall a, ~ (base <= a < base + written_size) -> m.(mmem) !! a = M.(mmem) !! a;
  s_sp : m.(msp) = M.(msp);
  s_registers : forall r, r ∉ [1; 2; 3; 16; 17] -> m.(mx) !! r = M.(mx) !! r;
  s_bytes : memory_ok M -> memory_ok m
}.

Lemma stored_undisturbed off V M m m' : stored off V M m -> undisturbed m m' -> stored off V M m'.
Proof using Type.
  intros [S1 S2 S3 S4 S5 S6] U. pose proof (undisturbed_slot m m') as Hslot. split.
  - by rewrite Hslot.
  - intros off' H1 H2. rewrite Hslot by done. by apply S2.
  - intros a Ha. destruct U as (-> & _ & _). by apply S3.
  - destruct U as (_ & -> & _). exact S4.
  - intros r Hr. destruct U as (_ & _ & U). rewrite U by done. by apply S5.
  - intros Hm. unfold memory_ok. destruct U as (-> & _ & _). by apply S6.
Qed.

Lemma stored_store off V M m : 0 <= off <= 136 -> in_range 64 V -> undisturbed M m ->
  stored off V M (store_word (base + off) 8 V m).
Proof using Hbase Hend.
  intros Ho HV U. split; try apply U.
  - by apply slot_store_eq.
  - intros off' H1 H2. rewrite slot_store_ne by (done || lia). by apply undisturbed_slot.
  - intros a Ha. rewrite store_outside by done. by destruct U as (-> & _ & _).
  - intros Hm. apply memory_ok_store. unfold memory_ok. by destruct U as (-> & _ & _).
Qed.

Lemma stored_again off V V' M m : 0 <= off <= 136 -> in_range 64 V' -> stored off V M m ->
  stored off V' M (store_word (base + off) 8 V' m).
Proof using Hbase Hend.
  intros Ho HV [S1 S2 S3 S4 S5 S6]. split; try done.
  - by apply slot_store_eq.
  - intros off' H1 H2. rewrite slot_store_ne by (done || lia). by apply S2.
  - intros a Ha. rewrite store_outside by done. by apply S3.
  - intros Hm. by apply memory_ok_store, S6.
Qed.

(** A register of the state is stored. *)
Lemma point_stored (live : ValueId -> Prop) exact env st M m r v : (forall v, live v -> allocated_register (host v)) ->
  length st.(gpr) = 16%nat -> point live exact env st M ->
  stored (registerOffset r) v M m -> point live exact env (set_gpr r v st) m.
Proof using Type.
  intros Hlive Hgpr [P1 [P2 P2'] P3 P4 P5 P6 P7 P8] [S1 S2 S3 S4 S5 S6]. pose proof (registerOffset_range r) as Hr. split.
  - unfold reg_of. rewrite S5 by apply zero_not_scratch. exact P1.
  - split.
    + intros r'. pose proof (registerOffset_range r'). destruct (decide (r = r')) as [<-|Hne].
      * by rewrite get_set_gpr_eq.
      * rewrite S2 by (lia || by apply registerOffset_apart). by rewrite get_set_gpr_ne.
    + rewrite S2 by (unfold gsBaseOffset; lia). exact P2'.
  - rewrite S2 by (unfold rflagsOffset; lia). exact P3.
  - intros v' x Hv Hx. unfold rX, reg_of. rewrite S5 by by apply allocated_operand, Hlive. by apply P4.
  - congruence.
  - intros a Ha. rewrite S3 by done. by apply P6.
  - intros r' Hr'. rewrite S5 by by apply scratch_sub. by apply P7.
  - by apply S6.
Qed.

(** New flags. *)
Lemma point_flagged (live : ValueId -> Prop) exact env st m m' V : (forall v, live v -> allocated_register (host v)) ->
  in_range 64 V -> point live exact env st m -> flagged m V m' -> point live true env (set_rflags V st) m'.
Proof using Hbase Hend M0 base host.
  intros Hlive HV [P1 [P2 P2'] P3 P4 P5 P6 P7 P8] (F1 & F2 & F3). rewrite P1 in F2.
  assert (forall off, slot base off m' = slot base off (store_word (base + rflagsOffset) 8 V m)) as Hslot.
  { intros off. unfold slot, load_word. by rewrite F2. }
  split.
  - unfold reg_of. rewrite F3 by apply zero_not_scratch. exact P1.
  - split; [intros r; pose proof (registerOffset_range r)|];
      rewrite Hslot, slot_store_ne by (done || unfold rflagsOffset, gsBaseOffset; lia); [apply P2|exact P2'].
  - rewrite Hslot. by apply slot_store_eq.
  - intros v x Hv Hx. unfold rX, reg_of. rewrite F3 by by apply allocated_operand, Hlive. by apply P4.
  - congruence.
  - intros a Ha. rewrite F2, store_outside by (done || unfold rflagsOffset; lia). by apply P6.
  - intros r Hr. rewrite F3 by by apply scratch_sub. by apply P7.
  - unfold memory_ok. rewrite F2. by apply memory_ok_store.
Qed.
End Select.

(** An emission function from each of the machines [Pre0] allows. *)
Lemma triple_each n O O' E c (Pre0 : machine -> Prop) (R : machine -> Assertion) (P Q : Assertion) (M : machine) :
  Pre0 M -> (forall M, Pre0 M -> triple n O O' E c (eq M) (R M)) -> (forall m, P m -> Pre0 m) ->
  (forall M m, P M -> R M m -> Q m) -> triple n O O' E c P Q.
Proof.
  intros HM H HP HQ a Hs Ho Hl. destruct (H M HM a Hs Ho Hl) as (a' & Ec & Hs' & Ho' & Hl' & Hg & _).
  exists a'. split_and!; try done. intros F L Hag m Hm.
  destruct (H m (HP m Hm) a Hs Ho Hl) as (a2 & Ec2 & _ & _ & _ & _ & Hr). rewrite Ec in Ec2. injection Ec2 as <-.
  destruct (Hr F L Hag m eq_refl) as (pc & m' & Hst & Hq). exists pc, m'. split; [done|].
  destruct Hq as [[-> Hq]|Hq]; [left|by right]. split; [done|]. by apply (HQ m).
Qed.

(** ** Conditions on RFLAGS *)

Section Tests.
Context (M : machine) (fl : Z).

(** The flags are in x16 and [F] is known of them. *)
Definition known (F : Prop) (m : machine) : Prop := (undisturbed M m /\ rX m true x16 = fl) /\ F.

Section Labels.
Context (O : list Z) (E : Exits) (F : Prop) (l : Z) (I : Assertion) (Hl : l ∈ O) (HI : (l, I) ∈ E).

Lemma bit_test (nonzero : bool) r bit (m_ok : machine -> Prop) (x : Z) : reg r -> 0 <= bit < 64 ->
  (forall m, m_ok m -> (undisturbed M m /\ rX m true x16 = fl) /\ F /\ rX m true r = x) ->
  (forall m, undisturbed M m -> F -> Z.testbit x bit = nonzero -> I m) ->
  triple 0 O O E (if nonzero then tbnz r bit l else tbz r bit l) m_ok (known (F /\ Z.testbit x bit = negb nonzero)).
Proof using Hl HI.
  intros Hr Hb Hok Hjump.
  eapply (triple_branch O E _ _ l (TestBranch nonzero r bit) _ _ _ I);
    [destruct nonzero; [by apply records_tbnz|by apply records_tbz]|by apply jumps_test|done..|].
  intros m Hm. cbn beta. destruct (Hok m Hm) as ((U & E16) & HF & Er). rewrite Er.
  destruct (Bool.eqb nonzero (Z.testbit x bit)) eqn:Eb.
  - apply Hjump; [done..|]. symmetry. by apply Bool.eqb_prop.
  - split; [done|]. split; [done|]. by destruct nonzero, (Z.testbit x bit).
Qed.

Lemma tbz_test bit : 0 <= bit < 64 -> (forall m, undisturbed M m -> F -> Z.testbit fl bit = false -> I m) ->
  triple 0 O O E (tbz x16 bit l) (known F) (known (F /\ Z.testbit fl bit = true)).
Proof using Hl HI. intros Hb Hj. apply (bit_test false); [done..| |done]. by intros m [[U E1] HF]. Qed.

Lemma tbnz_test bit : 0 <= bit < 64 -> (forall m, undisturbed M m -> F -> Z.testbit fl bit = true -> I m) ->
  triple 0 O O E (tbnz x16 bit l) (known F) (known (F /\ Z.testbit fl bit = false)).
Proof using Hl HI. intros Hb Hj. apply (bit_test true); [done..| |done]. by intros m [[U E1] HF]. Qed.

(** SF against OF. *)
Lemma signs_code n O1 O' E' c (Q : Assertion) : 0 <= n ->
  triple n O1 O' E' c (fun m => (undisturbed M m /\ rX m true x16 = fl) /\ F /\ rX m true x17 = Z.lxor fl (Z.shiftr fl 4)) Q ->
  triple n O1 O' E' (lsrImmediate x17 x16 4 ;;; bitXor x17 x16 x17 ;;; c) (known F) Q.
Proof using Type.
  intros Hn Hc.
  eapply (triple_do n _ _ _ _ _ _ _ (fun m => known F m /\ rX m true x17 = Z.shiftr fl 4)); [done|by apply lsrImmediate_correct| |].
  { intros m [[U E1] HF]. rewrite E1. assert (in_range 64 (Z.shiftr fl 4)) as Hr.
    { rewrite <- E1. apply shiftr_range; [done..|apply (rX_range m true)]. }
    split; [split; [split|done]|by apply rX_set_eq].
    - eapply undisturbed_trans; [done|]. apply undisturbed_set. unfold x17. by rewrite !elem_of_cons; auto 10.
    - unfold x17, x16 in *. by rewrite rX_set_ne. }
  eapply triple_do; [done|by apply bitXor_ok| |exact Hc].
  intros m [[[U E1] HF] E2]. assert (in_range 64 (Z.lxor fl (Z.shiftr fl 4))) as Hr.
  { rewrite <- E2, <- E1. apply lxor_range; [done|apply (rX_range m true)..]. }
  rewrite E1, E2. split_and!; [|unfold x17, x16 in *; by rewrite rX_set_ne|done|by apply rX_set_eq].
  eapply undisturbed_trans; [done|]. apply undisturbed_set. unfold x17. by rewrite !elem_of_cons; auto 10.
Qed.

Lemma signs_bit : 0 <= fl -> Z.testbit (Z.lxor fl (Z.shiftr fl 4)) 7 = xorb (Z.testbit fl 7) (Z.testbit fl 11).
Proof using Type. intros H. by rewrite Z.lxor_spec, Z.shiftr_spec by lia. Qed.

Lemma signs_test (nonzero : bool) : 0 <= fl ->
  (forall m, undisturbed M m -> F -> xorb (Z.testbit fl 7) (Z.testbit fl 11) = nonzero -> I m) ->
  triple 0 O O E (lsrImmediate x17 x16 4 ;;; bitXor x17 x16 x17 ;;; if nonzero then tbnz x17 7 l else tbz x17 7 l)
    (known F) (known (F /\ xorb (Z.testbit fl 7) (Z.testbit fl 11) = negb nonzero)).
Proof using Hl HI.
  intros Hfl Hj. apply signs_code; [done|]. rewrite <- (signs_bit Hfl) in *. apply (bit_test nonzero); [done..| |].
  - by intros m (H1 & H2 & H3).
  - exact Hj.
Qed.
End Labels.

(** The flags are loaded. *)
Lemma load_flags n O O' E c (Q : Assertion) : 0 <= n -> flags_slot M = fl ->
  triple n O O' E c (known True) Q -> triple n O O' E (ldr x16 x0 rflagsOffset ;;; c) (eq M) Q.
Proof using Type.
  intros Hn Hfl Hc. eapply triple_do; [done|by apply (doubleword_correct x16 x0 rflagsOffset)| |exact Hc].
  intros m <-. change (u64 (load_word M (reg_of M x0 + rflagsOffset) 8)) with (flags_slot M). rewrite Hfl. split_and!; [|apply rX_set_eq; [done|]|done].
  - apply undisturbed_set. unfold x16. by rewrite !elem_of_cons; auto 10.
  - rewrite <- Hfl. by apply wrap_range.
Qed.
End Tests.

(** The choice among the conditions, one test, and what the bits tested say of the condition. *)
Ltac pick := repeat (rewrite bool_decide_false by done); try rewrite bool_decide_true by done.
Ltac facts :=
  match goal with |- condition_holds _ ?fl = _ =>
    cbn [condition_holds negb] in *; destruct_and?;
    destruct (Z.testbit fl 0), (Z.testbit fl 2), (Z.testbit fl 6), (Z.testbit fl 7), (Z.testbit fl 11); done
  end.
Ltac reached m U :=
  match goal with J : forall m, undisturbed _ m -> condition_holds _ _ = _ -> _ |- _ => apply (J m U); facts end.
Ltac jumped := let m := fresh in let U := fresh in intros m U ? ?; reached m U.
Ltac test :=
  first [eapply tbz_test; [eassumption..|done|jumped] | eapply tbnz_test; [eassumption..|done|jumped]
        |eapply signs_test with (nonzero := false); [eassumption..|jumped]
        |eapply signs_test with (nonzero := true); [eassumption..|jumped]].
Ltac tests :=
  lazymatch goal with
  | |- triple _ _ _ _ (tbz _ _ _ ;;; _) _ _ => eapply (triple_seq 0 0); [done|done|test|tests]
  | |- triple _ _ _ _ (tbnz _ _ _ ;;; _) _ _ => eapply (triple_seq 0 0); [done|done|test|tests]
  | |- _ => eapply triple_post; [|test]
  end.
Ltac condition_tests c :=
  destruct c; pick; tests; let m := fresh in let U := fresh in intros m ((U & _) & ?); reached m U.

Lemma triple_tail n O O' E (c1 c2 c3 c4 : Prelude.M Assembler unit) P Q : triple n O O' E ((c1 ;;; c2 ;;; c3) ;;; c4) P Q ->
  triple n O O' E (c1 ;;; c2 ;;; c3 ;;; c4) P Q.
Proof.
  apply triple_same. intros a. unfold bind. destruct (c1 a) as [a1 [[]| |]]; [|done..].
  by destruct (c2 a1) as [a2 [[]| |]].
Qed.

Lemma triple_tail4 n O O' E (c1 c2 c3 c4 c5 : Prelude.M Assembler unit) P Q :
  triple n O O' E ((c1 ;;; c2 ;;; c3 ;;; c4) ;;; c5) P Q -> triple n O O' E (c1 ;;; c2 ;;; c3 ;;; c4 ;;; c5) P Q.
Proof.
  apply triple_same. intros a. unfold bind. destruct (c1 a) as [a1 [[]| |]]; [|done..].
  destruct (c2 a1) as [a2 [[]| |]]; [|done..]. by destruct (c3 a2) as [a3 [[]| |]].
Qed.

Lemma triple_head n O O' E (c1 c2 c3 : Prelude.M Assembler unit) P Q : triple n O O' E ((c1 ;;; c2) ;;; c3) P Q -> triple n O O' E (c1 ;;; c2 ;;; c3) P Q.
Proof. apply triple_same. intros a. unfold bind. by destruct (c1 a) as [a1 [[]| |]]. Qed.

Section Emitted.
Context (g : CodeGen) (o : Operation) (M : machine) (c : Condition) (Hc : o.(o_condition) = Some c).
Local Abbreviation holds := (condition_holds c (flags_slot M)).
Local Abbreviation met b := (fun m => undisturbed M m /\ holds = b).

Lemma flags_nonneg m : 0 <= flags_slot m.
Proof using Type. by apply (wrap_range 64). Qed.

(** The exit of a block: [yes] or falling through when the condition holds, [no] otherwise. *)
Lemma exit_test O E no yes : no ∈ O -> yes ∈ O -> (no, met false) ∈ E -> (yes, met true) ∈ E ->
  triple 0 O O E (emitExitTest g o 6 0 7 11 no yes) (eq M) (met true).
Proof using Hc.
  intros Hno Hyes Eno Eyes. unfold emitExitTest. eapply load_flags; [done..|]. rewrite Hc.
  eapply triple_returns; [apply returns_ret|]. pose proof (flags_nonneg M) as H0.
  assert (forall m, undisturbed M m -> holds = false -> met false m) as Jno by done.
  assert (forall m, undisturbed M m -> holds = true -> met true m) as Jyes by done.
  condition_tests c.
Qed.

(** The conditional move: a second label inside two of the tests. *)
Lemma move_test O E no (Ino : Assertion) : no ∈ O -> (no, Ino) ∈ E -> (forall m, undisturbed M m -> holds = false -> Ino m) ->
  triple 1 O O E (emitConditionalMoveTest g o 0 6 7 no) (eq M) (met true).
Proof using Hc.
  intros Hno Eno Jno. unfold emitConditionalMoveTest. change (u32 (11 - 7)) with 4. eapply load_flags; [done..|]. rewrite Hc.
  eapply triple_returns; [apply returns_ret|]. pose proof (flags_nonneg M) as H0.
  assert (forall m, undisturbed M m -> holds = true -> met true m) as Jyes by done.
  destruct c; pick;
    lazymatch goal with
    | |- triple _ _ _ _ (bind makeLabel _) _ _ =>
        apply (triple_make 0); [done|]; intros l; pose proof (list_elem_of_here l O); pose proof (list_elem_of_further no l O Hno);
        first [apply triple_tail4, triple_bind; [done|] | apply triple_head, triple_bind; [done|]];
        match goal with |- triple _ _ _ (?p :: ?E0) _ _ _ =>
          assert (p ∈ p :: E0) by (by left); assert ((no, Ino) ∈ p :: E0) by (by right)
        end
    | |- _ => eapply (triple_conseq 1 0); [lia|intros ? HP; exact HP|intros ? HP; exact HP|]
    end.
  all: try (tests; let m := fresh in let U := fresh in intros m ((U & _) & ?); reached m U).
Qed.

(** The value of a condition. *)
Lemma value_test O E no yes d : operand_register d -> d <> 0 ->
  triple 0 (yes :: no :: O) O E (emitConditionTest g o 0 6 7 11 no yes d) (eq M)
    (undisturbed (set_x d (Z.b2z holds) M)).
Proof using Hc.
  intros [Hd Hn] Hd0. set (Q := undisturbed _). set (M1 := set_x d 0 M). unfold emitConditionTest.
  eapply triple_do; [done|by apply movImmediate_implements|intros m <-; exact (eq_refl M1)|].
  assert (flags_slot M1 = flags_slot M) as Es by (unfold flags_slot, M1, reg_of; cbn; by rewrite lookup_insert_ne).
  apply (load_flags M1 (flags_slot M)); [done..|]. rewrite Hc. eapply triple_returns; [apply returns_ret|].
  pose proof (flags_nonneg M) as H0.
  apply triple_tail, triple_bind; [done|]. apply triple_head.
  apply (triple_seq 0 0 _ (no :: O) _ _ _ _ _ (fun m => undisturbed M1 m /\ holds = true)); [done|done| |].
  - apply triple_bind; [done|]. set (E' := _ :: _ :: E).
    assert (yes ∈ yes :: no :: O) by by left. assert (no ∈ yes :: no :: O) by (right; by left).
    assert ((yes, fun m => undisturbed M1 m /\ holds = true) ∈ E') by by left. assert ((no, Q) ∈ E') by (right; by left).
    assert (forall m, undisturbed M1 m -> holds = false -> Q m) as Jno.
    { intros m U Hf. unfold Q. by rewrite Hf. }
    assert (forall m, undisturbed M1 m -> holds = true -> undisturbed M1 m /\ holds = true) as Jyes by done.
    condition_tests c.
  - eapply triple_last; [by apply movImmediate_implements|]. intros m [(U1 & U2 & U3) Ht]. unfold Q. rewrite Ht.
    split_and!; [exact U1|exact U2|]. intros r Hr. cbn. destruct (decide (r = d)) as [->|Hne].
    + by rewrite !lookup_insert_eq.
    + rewrite !lookup_insert_ne by done. rewrite U3 by done. unfold M1. cbn. by rewrite lookup_insert_ne.
Qed.
End Emitted.

(** ** Operations that compute a value *)

Lemma rX_narrow m r : rX m false r = wrap 32 (rX m true r).
Proof.
  unfold rX. destruct (r =? 31); [done|]. cbn [width]. by rewrite wrap_wrap_le.
Qed.

Lemma lor_shiftl_add w x y : 0 <= w -> in_range w x -> Z.lor (Z.shiftl y w) x = y * 2 ^ w + x.
Proof.
  intros Hw Hx. rewrite <- Z.shiftl_mul_pow2 by done. rewrite Z.add_nocarry_lxor, Z.lxor_lor; [done|..].
  all: apply Z.bits_inj'; intros i Hi; rewrite Z.land_spec, Z.bits_0, Z.shiftl_spec by done.
  all: destruct (Z.ltb_spec i w); [by rewrite (Z.testbit_neg_r _ (i - w)) by lia|].
  all: by rewrite (testbit_above w x), andb_false_r by (done || lia).
Qed.

Lemma wrap_bitwise w x y : 0 <= w -> Z.land (wrap w x) (wrap w y) = wrap w (Z.land x y) /\
  Z.lor (wrap w x) (wrap w y) = wrap w (Z.lor x y) /\ Z.lxor (wrap w x) (wrap w y) = wrap w (Z.lxor x y).
Proof.
  intros Hw. split_and!; apply Z.bits_inj'; intros i Hi;
    rewrite ?Z.land_spec, ?Z.lor_spec, ?Z.lxor_spec, !wrap_testbit, ?Z.land_spec, ?Z.lor_spec, ?Z.lxor_spec by done;
    by destruct (i <? w).
Qed.

Section Operations.
Context (g : CodeGen) (base : Z) (host : ValueId -> Z).
Context (Hbase : 0 <= base) (Hend : base + state_size <= 2 ^ 64).
Context (Hedge : internalSelfEdge g = false) (Hguest : forall r, pinnedGuest g r = None) (Hspan : directWriteSpan g = None).

(** The value has a host register. *)
Definition hosted (v : ValueId) : Prop := returns (hostRegister g v) (host v) /\ allocated_register (host v).

Lemma hosted_reg v : hosted v -> reg (host v).
Proof using Type. intros [_ H]. unfold allocated_register in H. unfold reg. lia. Qed.

Ltac bring := repeat (eapply triple_returns; [first [apply returns_ret | eassumption | eapply returns_bind; [apply returns_ret|eassumption]]|]; cbv beta iota).

(** The operations whose code is one instruction on their operands. *)
Definition emit_value (o : Operation) : M Assembler unit :=
  match o.(o_opcode) with
  | Op_Add => emit_Add g o | Op_Sub => emit_Sub g o
  | Op_And => emit_And g o | Op_Or => emit_Or g o | Op_Xor => emit_Xor g o
  | Op_ShiftLeft => emit_ShiftLeft g o | Op_ShiftRightLogical => emit_ShiftRightLogical g o
  | Op_ShiftRightArithmetic => emit_ShiftRightArithmetic g o
  | Op_MultiplyLow => emit_MultiplyLow g o | Op_MultiplyHighUnsigned => emit_MultiplyHighUnsigned g o
  | Op_MultiplyHighSigned => emit_MultiplyHighSigned g o | Op_ShiftRightDouble => emit_ShiftRightDouble g o
  | Op_SignExtend32 => emit_SignExtend32 g o | Op_ByteSwap => emit_ByteSwap g o
  | _ => throw (runtime_error "not a value")
  end.

(** Its fields are those the instruction needs. *)
Definition value_operation (o : Operation) : bool :=
  match o.(o_opcode), o.(o_lhs), o.(o_rhs) with
  | (Op_Add | Op_Sub | Op_And | Op_Or | Op_Xor | Op_MultiplyLow | Op_MultiplyHighUnsigned | Op_MultiplyHighSigned
    | Op_ShiftLeft | Op_ShiftRightLogical | Op_ShiftRightArithmetic), Some _, Some _ => true
  | (Op_ShiftLeft | Op_ShiftRightLogical | Op_ShiftRightArithmetic), Some _, None =>
      (0 <=? o.(o_immediate)) && (o.(o_immediate) <? value_width o.(o_width))
  | Op_ShiftRightDouble, Some _, Some _ => (0 <=? o.(o_immediate)) && (o.(o_immediate) <? 64)
  | (Op_SignExtend32 | Op_ByteSwap), Some _, None => true
  | _, _, _ => false
  end.

Section Value.
Context (O : list Z) (E : Exits) (M : machine) (st : X86State) (o : Operation) (res l : ValueId) (v : Z).
Context (Hres : o.(o_result) = Some res) (Hl : o.(o_lhs) = Some l) (Rres : hosted res) (Rl : hosted l).
Context (Hop : value_operation o = true).
Local Abbreviation x := (rX M true (host l)).

Lemma x_range : in_range 64 x.
Proof using Type. apply (rX_range M true). Qed.

Lemma wide_width : o.(o_width) <> I32 -> value_width o.(o_width) = 64.
Proof using Type. by destruct (o_width o). Qed.

Lemma value_code_unary : o.(o_rhs) = None -> pure_value o st (Some x) None = Some v ->
  triple 0 O O E (emit_value o) (eq M) (eq (set_x (host res) v M)).
Proof using Hres Hl Rres Rl Hop.
  intros Hr Hv. unfold emit_value, value_operation in *. rewrite Hr, Hl in Hop. unfold pure_value in Hv.
  pose proof (hosted_reg _ Rres) as Dres. pose proof (hosted_reg _ Rl) as Dl. pose proof x_range as Hx.
  destruct Rres as [Rres' _], Rl as [Rl' _].
  assert (forall k, 0 <= k < 64 -> u8 k = k) as Hu8 by (intros; apply wrap_small; unfold in_range; lia).
  assert (value_width (o_width o) <= 64) as Hw by (by destruct (o_width o)).
  destruct (o_opcode o) eqn:Eop; try done.
  - unfold emit_ShiftLeft. rewrite Hr, Hres, Hl. bring. apply andb_prop in Hop as [H0%Z.leb_le H1%Z.ltb_lt].
    rewrite Hu8 by lia. eapply triple_last; [by apply lslImmediate_correct; (done || lia)|]. intros m <-. congruence.
  - unfold emit_ShiftRightLogical. rewrite Hr, Hres, Hl. bring. apply andb_prop in Hop as [H0%Z.leb_le H1%Z.ltb_lt].
    rewrite Hu8 by lia. eapply triple_last; [by apply lsrImmediate_correct; (done || lia)|]. intros m <-.
    injection Hv as <-. f_equal. by apply wrap_small, shiftr_range.
  - unfold emit_ShiftRightArithmetic. rewrite Hr, Hres, Hl. apply andb_prop in Hop as [H0%Z.leb_le H1%Z.ltb_lt].
    rewrite Hu8 by lia. injection Hv as <-. unfold width_is. case_bool_decide as Ew; bring.
    + rewrite Ew in *. eapply triple_last; [by apply asrImmediate32_correct|]. intros m <-. by rewrite rX_narrow.
    + rewrite wide_width in * by done. eapply triple_last; [by apply asrImmediate_correct|]. intros m <-.
      by rewrite (wrap_small 64 x) by done.
  - unfold emit_SignExtend32. rewrite Hres, Hl. bring. injection Hv as <-.
    eapply triple_last; [by apply unary_correct|]. intros m <-. by rewrite rX_narrow.
  - unfold emit_ByteSwap. rewrite Hres, Hl. injection Hv as <-. unfold width_is. case_bool_decide as Ew; bring.
    + rewrite Ew. eapply triple_last; [by apply unary_correct|]. intros m <-. f_equal. rewrite rX_narrow.
      change (Z.to_nat (value_width I32 / 8)) with 4%nat. rewrite <- (le_bytes_wrap 4 x). change (8 * Z.of_nat 4) with 32.
      apply wrap_small, (in_range_le 32); [apply (byte_swap_range 4)|lia].
    + rewrite wide_width by done. eapply triple_last; [by apply unary_correct|]. intros m <-. f_equal.
      apply wrap_small, (byte_swap_range 8).
Qed.

Lemma value_code_binary r : o.(o_rhs) = Some r -> hosted r ->
  (opcode_is Op_Add o || opcode_is Op_Sub o = true -> returns (at_value_in (foldedImmediate g) r) false) ->
  pure_value o st (Some x) (Some (rX M true (host r))) = Some v ->
  triple 0 O O E (emit_value o) (eq M) (eq (set_x (host res) v M)).
Proof using E Hl Hop Hres Hspan M O Rl Rres g host l o res st v.
  intros Hr Rr Hfold Hv. unfold emit_value, value_operation in *. rewrite Hr, Hl in Hop. unfold pure_value in Hv.
  pose proof (hosted_reg _ Rres) as Dres. pose proof (hosted_reg _ Rl) as Dl. pose proof x_range as Hx.
  pose proof (hosted_reg _ Rr) as Dr. pose proof (rX_range M true (host r)) as Hy. cbn [width] in Hy.
  destruct Rres as [Rres' _], Rl as [Rl' _], Rr as [Rr' _].
  assert (forall c d f, (c, (d, f)) ∈ alu_ops -> f (rX M d (host l)) (rX M d (host r)) = v ->
    triple 0 O O E (c (host res) (host l) (host r)) (eq M) (eq (set_x (host res) v M))) as Halu.
  { intros c d f Hin <-. eapply triple_last; [by apply alu_correct|]. by intros m <-. }
  unfold opcode_is in Hfold.
  destruct (o_opcode o) eqn:Eop; try done; first [specialize (Hfold eq_refl) | clear Hfold].
  - unfold emit_Add. rewrite Hspan, Hr, Hres, Hl. cbn [present]. bring.
    unfold width_is. case_bool_decide as Ew; bring.
    + apply (Halu add32 false (fun x y => u32 (x + y))); [alu_entry|]. rewrite Ew in Hv. injection Hv as <-.
      rewrite !rX_narrow. unfold u32, wrap. by rewrite <- Z.add_mod by lia.
    + apply (Halu add true (fun x y => u64 (x + y))); [alu_entry|]. rewrite wide_width in Hv by done. by injection Hv as <-.
  - unfold emit_Sub. rewrite Hr, Hres, Hl. cbn [present]. bring.
    unfold width_is. case_bool_decide as Ew; bring.
    + apply (Halu sub32 false (fun x y => u32 (x - y))); [alu_entry|]. rewrite Ew in Hv. injection Hv as <-.
      rewrite !rX_narrow. unfold u32, wrap. by rewrite <- Zminus_mod.
    + apply (Halu sub true (fun x y => u64 (x - y))); [alu_entry|]. rewrite wide_width in Hv by done. by injection Hv as <-.
  - unfold emit_ShiftLeft. rewrite Hr, Hres, Hl. bring.
    apply (Halu lslVariable true (fun x y => u64 (Z.shiftl x (y mod 64)))); [alu_entry|]. by injection Hv as <-.
  - unfold emit_ShiftRightLogical. rewrite Hr, Hres, Hl. bring.
    apply (Halu lsrVariable true (fun x y => Z.shiftr x (y mod 64))); [alu_entry|]. injection Hv as <-.
    symmetry. apply wrap_small, shiftr_range; [done|by apply Z.mod_pos_bound|done].
  - unfold emit_ShiftRightArithmetic. rewrite Hr, Hres, Hl. unfold width_is. case_bool_decide as Ew; bring.
    + apply (Halu asrVariable32 false (fun x y => u32 (Z.shiftr (signed 32 x) (y mod 32)))); [alu_entry|].
      rewrite Ew in Hv. injection Hv as <-. rewrite !rX_narrow. unfold u32. cbn [value_width]. do 2 f_equal.
      unfold wrap. change (2 ^ 32) with (32 * 2 ^ 27). rewrite Z.rem_mul_r by lia.
      by rewrite Z.mul_comm, Z_mod_plus_full, Z.mod_mod.
    + apply (Halu asrVariable true (fun x y => u64 (Z.shiftr (signed 64 x) (y mod 64)))); [alu_entry|].
      rewrite wide_width in Hv by done. injection Hv as <-. by rewrite (wrap_small 64 x) by done.
  - unfold emit_MultiplyLow. rewrite Hr, Hres, Hl. bring.
    apply (Halu multiplyLow true (fun x y => u64 (x * y))); [alu_entry|]. by injection Hv as <-.
  - unfold emit_MultiplyHighUnsigned. rewrite Hr, Hres, Hl. bring.
    apply (Halu multiplyHighUnsigned true (fun x y => u64 (x * y / 2 ^ 64))); [alu_entry|]. injection Hv as <-.
    by rewrite Z.shiftr_div_pow2.
  - unfold emit_MultiplyHighSigned. rewrite Hr, Hres, Hl. bring.
    apply (Halu multiplyHighSigned true (fun x y => u64 (signed 64 x * signed 64 y / 2 ^ 64))); [alu_entry|].
    injection Hv as <-. by rewrite Z.shiftr_div_pow2.
  - unfold emit_ShiftRightDouble. rewrite Hr, Hres, Hl. bring. apply andb_prop in Hop as [H0%Z.leb_le H1%Z.ltb_lt].
    assert (u8 (o_immediate o) = o_immediate o) as -> by (apply wrap_small; unfold in_range; lia). injection Hv as <-.
    eapply triple_last; [by apply combining_correct|]. intros m <-. by rewrite lor_shiftl_add.
  - unfold emit_And. rewrite Hr, Hres, Hl. unfold width_is. case_bool_decide as Ew; bring.
    + apply (Halu bitAnd32 false Z.land); [alu_entry|]. rewrite Ew in Hv. injection Hv as <-. rewrite !rX_narrow.
      by apply wrap_bitwise.
    + apply (Halu bitAnd true Z.land); [alu_entry|]. rewrite wide_width in Hv by done. injection Hv as <-.
      symmetry. by apply wrap_land_id.
  - unfold emit_Or. rewrite Hr, Hres, Hl. unfold width_is. case_bool_decide as Ew; bring.
    + apply (Halu bitOr32 false Z.lor); [alu_entry|]. rewrite Ew in Hv. injection Hv as <-. rewrite !rX_narrow.
      by apply wrap_bitwise.
    + apply (Halu bitOr true Z.lor); [alu_entry|]. rewrite wide_width in Hv by done. injection Hv as <-.
      symmetry. by apply wrap_lor_id.
  - unfold emit_Xor. rewrite Hr, Hres, Hl. unfold width_is. case_bool_decide as Ew; bring.
    + apply (Halu bitXor32 false Z.lxor); [alu_entry|]. rewrite Ew in Hv. injection Hv as <-. rewrite !rX_narrow.
      by apply wrap_bitwise.
    + apply (Halu bitXor true Z.lxor); [alu_entry|]. rewrite wide_width in Hv by done. injection Hv as <-.
      symmetry. by apply wrap_lxor_id.
Qed.

(** An addition or subtraction of a folded constant. *)
Lemma value_code_folded r d : opcode_is Op_Add o || opcode_is Op_Sub o = true -> o.(o_rhs) = Some r ->
  returns (at_value_in (foldedImmediate g) r) true -> defining g r = Some d -> 0 <= d.(o_immediate) <= 0xFFF ->
  pure_value o st (Some x) (Some d.(o_immediate)) = Some v ->
  triple 0 O O E (emit_value o) (eq M) (eq (set_x (host res) v M)).
Proof using Hres Hl Rres Rl Hspan.
  intros Hop' Hr Hfold Hd Hi Hv. unfold emit_value. unfold pure_value in Hv.
  pose proof (hosted_reg _ Rres) as Dres. pose proof (hosted_reg _ Rl) as Dl. pose proof x_range as Hx.
  destruct Rres as [Rres' _], Rl as [Rl' _].
  assert (u16 (o_immediate d) = o_immediate d) as Hu by (apply wrap_small; unfold in_range; lia).
  assert (in_range 12 (o_immediate d)) as H12 by (unfold in_range; lia).
  destruct (addImmediate_correct (host res) (host l) Dres Dl (o_immediate d) H12) as (C1 & C2 & C3 & C4).
  unfold opcode_is in Hop'. destruct (o_opcode o) eqn:Eop; try done; clear Hop'.
  - unfold emit_Add. rewrite Hspan, Hr, Hres, Hl. cbn [present]. bring. rewrite Hd. bring. rewrite Hu.
    unfold width_is. case_bool_decide as Ew; bring.
    + eapply triple_last; [exact C2|]. intros m <-. rewrite Ew in Hv. injection Hv as <-. rewrite rX_narrow. f_equal.
      unfold u32, wrap. by rewrite Zplus_mod_idemp_l.
    + eapply triple_last; [exact C1|]. intros m <-. rewrite wide_width in Hv by done. by injection Hv as <-.
  - unfold emit_Sub. rewrite Hr, Hres, Hl. cbn [present]. bring. rewrite Hd. bring. rewrite Hu.
    unfold width_is. case_bool_decide as Ew; bring.
    + eapply triple_last; [exact C4|]. intros m <-. rewrite Ew in Hv. injection Hv as <-. rewrite rX_narrow. f_equal.
      unfold u32, wrap. by rewrite Zminus_mod_idemp_l.
    + eapply triple_last; [exact C3|]. intros m <-. rewrite wide_width in Hv by done. by injection Hv as <-.
Qed.
End Value.

(** ** Registers and flags of the guest *)

Section State.
Context (O : list Z) (E : Exits) (M : machine) (o : Operation) (Hx0 : reg_of M 0 = base).

Lemma slot_load off : u64 (load_word M (reg_of M x0 + off) 8) = slot base off M.
Proof using Hx0. unfold slot, x0. by rewrite Hx0. Qed.

(** A constant that is not folded. *)
Lemma constant_code res : o.(o_result) = Some res -> hosted res -> returns (at_value_in (foldedImmediate g) res) false ->
  pinnedLoopConstant g = None -> in_range 64 o.(o_immediate) ->
  triple 0 O O E (emit_Constant g o) (eq M) (eq (set_x (host res) (wrap (value_width o.(o_width)) o.(o_immediate)) M)).
Proof using Type.
  intros Hres Rres Hf Hp Hi. pose proof (hosted_reg _ Rres) as Dres. destruct Rres as [Rres _]. unfold emit_Constant.
  rewrite Hres, Hp. bring. set (v := wrap _ _).
  assert ((if width_is I32 o then Z.land (o_immediate o) UINT32_MAX else o_immediate o) = v) as ->.
  { unfold v, width_is. destruct (o_width o); cbn [value_width bool_decide decide decide_rel Width_eq_dec]; try (by rewrite wrap_small).
    unfold UINT32_MAX. by rewrite wrap_land by done. }
  assert (in_range 64 v) as Hv.
  { unfold v. destruct (o_width o); cbn [value_width]; try (by apply wrap_range). apply (in_range_le 32); [by apply wrap_range|done]. }
  eapply triple_last; [by apply movImmediate_implements|]. by intros m <-.
Qed.

Lemma read_code res r : o.(o_result) = Some res -> hosted res -> o.(o_guestRegister) = Some r -> memory_ok M ->
  triple 0 O O E (emit_ReadGuestReg g o) (eq M)
    (eq (set_x (host res) (wrap (value_width o.(o_width)) (slot base (registerOffset r) M)) M)).
Proof using Hx0 Hguest.
  intros Hres Rres Hr Hm. pose proof (hosted_reg _ Rres) as Dres. destruct Rres as [Rres _]. pose proof (registerOffset_range r).
  unfold emit_ReadGuestReg. rewrite Hr. bring. rewrite Hguest, Hres. unfold width_is. case_bool_decide as Ew; bring.
  - rewrite Ew. eapply triple_last; [apply (word_correct (host res) x0 (registerOffset r)); [done..|lia|by destruct r]|].
    intros m <-. by rewrite load_low, slot_load.
  - assert (value_width (o_width o) = 64) as -> by by destruct (o_width o).
    eapply triple_last; [apply (doubleword_correct (host res) x0 (registerOffset r)); [done..|lia|by destruct r]|].
    intros m <-. rewrite slot_load, (wrap_small 64 (slot _ _ _)); [done|]. by apply wrap_range.
Qed.

Lemma gs_code res : o.(o_result) = Some res -> hosted res ->
  triple 0 O O E (emit_ReadGuestGsBase g o) (eq M) (eq (set_x (host res) (slot base gsBaseOffset M) M)).
Proof using Hx0.
  intros Hres Rres. pose proof (hosted_reg _ Rres) as Dres. destruct Rres as [Rres _].
  unfold emit_ReadGuestGsBase. rewrite Hres. bring.
  eapply triple_last; [by apply (doubleword_correct (host res) x0 gsBaseOffset)|]. intros m <-. by rewrite slot_load.
Qed.

(** The values of x16 and x17 on the way. *)
Definition work (A B : Z) (m : machine) : Prop := undisturbed M m /\ rX m true x16 = A /\ rX m true x17 = B.

Lemma work_start : work (rX M true x16) (rX M true x17) M.
Proof using Type. by split. Qed.

Lemma work_set16 A A' B m : in_range 64 A' -> work A B m -> work A' B (set_x x16 A' m).
Proof using Type.
  intros HA (U & H16 & H17). split_and!; [|by apply rX_set_eq|unfold x16, x17 in *; by rewrite rX_set_ne].
  eapply undisturbed_trans; [exact U|]. apply undisturbed_set. unfold x16. by rewrite !elem_of_cons; auto 10.
Qed.

Lemma work_set17 A B B' m : in_range 64 B' -> work A B m -> work A B' (set_x x17 B' m).
Proof using Type.
  intros HB (U & H16 & H17). split_and!; [|unfold x16, x17 in *; by rewrite rX_set_ne|by apply rX_set_eq].
  eapply undisturbed_trans; [exact U|]. apply undisturbed_set. unfold x17. by rewrite !elem_of_cons; auto 10.
Qed.

Lemma work_load A B m off : work A B m -> u64 (load_word m (reg_of m x0 + off) 8) = slot base off M.
Proof using Hx0.
  intros ((U1 & _ & U3) & _). unfold slot, load_word, reg_of, x0. rewrite U1, U3 by apply zero_not_scratch.
  fold (reg_of M 0). by rewrite Hx0.
Qed.

Lemma work_read A B m r : work A B m -> operand_register r -> rX m true r = rX M true r.
Proof using Type. intros (U & _) [_ Hr]. by apply undisturbed_read. Qed.

Lemma str_ok d r : reg d -> implements (str d x0 (registerOffset r))
  (fun m => store_word (reg_of m x0 + registerOffset r) 8 (rX m true d) m).
Proof using Type.
  intros Hd. pose proof (registerOffset_range r). apply (doubleword_correct d x0 (registerOffset r)); [done..|lia|by destruct r].
Qed.

Lemma ldr_ok d r : reg d -> implements (ldr d x0 (registerOffset r))
  (fun m => set_x d (u64 (load_word m (reg_of m x0 + registerOffset r) 8)) m).
Proof using Type.
  intros Hd. pose proof (registerOffset_range r). apply (doubleword_correct d x0 (registerOffset r)); [done..|lia|by destruct r].
Qed.

Lemma slot_range off m : in_range 64 (slot base off m).
Proof using Type. by apply wrap_range. Qed.

Lemma undisturbed_base m : undisturbed M m -> reg_of m x0 = base.
Proof using Hx0. intros (_ & _ & U3). unfold reg_of, x0. rewrite U3 by apply zero_not_scratch. exact Hx0. Qed.

Lemma store_of m d r V : undisturbed M m -> rX m true d = V ->
  stored base (registerOffset r) V M (store_word (reg_of m x0 + registerOffset r) 8 (rX m true d) m).
Proof using Hx0 Hbase Hend.
  intros U <-. pose proof (registerOffset_range r). rewrite undisturbed_base by done. apply stored_store; [done..|lia| |done].
  apply (rX_range m true).
Qed.

Lemma stored_code d r : reg d ->
  triple 0 O O E (str d x0 (registerOffset r)) (eq M) (stored base (registerOffset r) (rX M true d) M).
Proof using Hx0 Hbase Hend.
  intros Hd. eapply triple_last; [by apply str_ok|]. intros m <-. by apply store_of; [apply undisturbed_refl|].
Qed.

Definition narrow_mask (w : Width) : Z := if bool_decide (w = I8) then 0xFF else 0xFFFF.

(** What a write leaves in the register. *)
Definition write_value (promotes extended : bool) (w : Width) (old x : Z) : Z :=
  if promotes then x else
  match w with
  | I8 | I16 => Z.lor (Z.land old (not64 (narrow_mask w))) (Z.land x (narrow_mask w))
  | I32 => if extended then x else u32 x
  | I64 => x
  end.

Lemma write_code r l k promotes : o.(o_guestRegister) = Some r -> o.(o_lhs) = Some l -> hosted l ->
  returns (at_index_in (promotesNarrowGuestWrite g) k) promotes ->
  triple 0 O O E (emit_WriteGuestReg g o k) (eq M)
    (stored base (registerOffset r) (write_value promotes (isZeroExtendedDefinition (defining g l)) o.(o_width)
      (slot base (registerOffset r) M) (rX M true (host l))) M).
Proof using Hx0 Hguest Hbase Hend.
  intros Hr Hl Rl Hp. pose proof (hosted_reg _ Rl) as Dl. destruct (Rl) as [Rl' Al]. unfold emit_WriteGuestReg. rewrite Hr, Hl.
  pose proof (rX_range M true (host l)) as Hx. cbn [width] in Hx. set (x := rX M true (host l)) in *.
  eapply triple_returns; [exact Hp|]. unfold write_value. destruct promotes; bring.
  { rewrite Hguest. bring. by apply stored_code. }
  unfold width_is.
  assert (forall mask, in_range 64 mask ->
    triple 0 O O E (ldr x16 x0 (registerOffset r) ;;; movImmediate x17 (not64 mask) ;;; bitAnd x16 x16 x17 ;;;
      movImmediate x17 mask ;;; do! lhs3 <- deref (Some l); do! host4 <- hostRegister g lhs3;
      bitAnd x17 host4 x17 ;;; bitOr x16 x16 x17 ;;; str x16 x0 (registerOffset r)) (eq M)
      (stored base (registerOffset r) (Z.lor (Z.land (slot base (registerOffset r) M) (not64 mask)) (Z.land x mask)) M)) as Hnarrow.
  { intros mask Hmask. pose proof (slot_range (registerOffset r) M) as Hslot. set (old := slot _ _ M) in *.
    assert (in_range 64 (not64 mask)) as Hn by by apply wrap_range.
    assert (in_range 64 (Z.land old (not64 mask))) as H1 by by apply land_range_r.
    assert (in_range 64 (Z.land x mask)) as H2 by by apply land_range_r.
    assert (reg x16) as R16 by done. assert (reg x17) as R17 by done.
    eapply (triple_do _ _ _ _ _ _ _ _ (work old _)); [done|by apply ldr_ok| |].
    { intros m <-. rewrite (work_load _ _ _ _ work_start). by eapply work_set16, work_start. }
    eapply (triple_do _ _ _ _ _ _ _ _ (work old (not64 mask))); [done|by apply movImmediate_implements|by intros m; apply work_set17|].
    eapply (triple_do _ _ _ _ _ _ _ _ (work (Z.land old (not64 mask)) (not64 mask))); [done|by apply bitAnd_ok| |].
    { intros m W. destruct (W) as (_ & -> & ->). by eapply work_set16. }
    eapply (triple_do _ _ _ _ _ _ _ _ (work (Z.land old (not64 mask)) mask)); [done|by apply movImmediate_implements|by intros m; apply work_set17|].
    bring. eapply (triple_do _ _ _ _ _ _ _ _ (work (Z.land old (not64 mask)) (Z.land x mask))); [done|by apply bitAnd_ok| |].
    { intros m W. cbn beta. rewrite (work_read _ _ _ _ W) by by apply allocated_operand. destruct (W) as (_ & _ & ->). by eapply work_set17. }
    eapply (triple_do _ _ _ _ _ _ _ _ (work (Z.lor (Z.land old (not64 mask)) (Z.land x mask)) _)); [done|by apply bitOr_ok| |].
    { intros m W. destruct (W) as (_ & E16 & E17). rewrite E16, E17. eapply work_set16, W. by apply lor_range. }
    eapply triple_last; [by apply str_ok|]. intros m (U & E16 & _). by apply store_of. }
  destruct (o_width o); cbn [bool_decide decide decide_rel Width_eq_dec orb]; bring.
  - rewrite Hguest. apply (Hnarrow 0xFF). done.
  - rewrite Hguest. apply (Hnarrow 0xFFFF). done.
  - destruct (isZeroExtendedDefinition _); bring; rewrite Hguest; bring; [by apply stored_code|].
    eapply (triple_do _ _ _ _ _ _ _ _ (work UINT32_MAX _)); [done|by apply movImmediate_implements|intros m <-; by eapply work_set16, work_start|].
    bring. eapply (triple_do _ _ _ _ _ _ _ _ (work (u32 x) _)); [done|by apply bitAnd_ok| |].
    { intros m W. cbn beta. rewrite (work_read _ _ _ _ W) by by apply allocated_operand. destruct (W) as (_ & -> & _).
      fold x. change UINT32_MAX with (2 ^ 32 - 1). rewrite land_bits by done. eapply work_set16, W.
      apply (in_range_le 32); [by apply wrap_range|done]. }
    eapply triple_last; [by apply str_ok|]. intros m (U & E16 & _). by apply store_of.
  - rewrite Hguest. bring. by apply stored_code.
Qed.

Lemma slot_flags : flags_slot M = slot base rflagsOffset M.
Proof using Hx0. unfold flags_slot, slot. by rewrite Hx0. Qed.

Lemma fuse_off : fuseZeroFlagConsumers g = false.
Proof using Hedge. exact Hedge. Qed.

Lemma evaluate_code res c k : o.(o_result) = Some res -> hosted res -> o.(o_condition) = Some c ->
  triple 2 O O E (emit_EvaluateCondition g o k) (eq M)
    (undisturbed (set_x (host res) (Z.b2z (condition_holds c (slot base rflagsOffset M))) M)).
Proof using Hx0 Hedge.
  intros Hres Rres Hc. pose proof (allocated_operand _ (proj2 Rres)) as Dres. destruct Rres as [Rres Ares].
  unfold emit_EvaluateCondition. rewrite Hc. bring.
  match goal with |- triple _ _ _ _ (if ?b then _ else _) _ _ => replace b with false by by destruct c end.
  apply (triple_make2 0); [done|]. intros no yes. cbv zeta. rewrite Hres. bring. rewrite fuse_off. cbn [andb].
  rewrite <- slot_flags. eapply triple_permutation; [apply Permutation_swap|].
  apply value_test; [done..|]. unfold allocated_register in Ares. lia.
Qed.

(** The label between the move and what follows it. *)
Lemma triple_region n n1 n2 O1 (c1 c2 c3 : Prelude.M Assembler unit) (c4 rest : Register -> Prelude.M Assembler unit) l
    (r : Register) (P Q R : Assertion) : n = n1 + n2 -> 0 <= n1 -> 0 <= n2 ->
  triple n1 (l :: O1) (l :: O1) ((l, Q) :: E) (c1 ;;; c2 ;;; c3 ;;; c4 r) P Q -> triple n2 O1 O1 E (rest r) Q R ->
  triple n (l :: O1) O1 E (c1 ;;; c2 ;;; c3 ;;; do! r <- deref (Some r); c4 r ;;; bindLabel l ;;; rest r) P R.
Proof using Type.
  intros -> Hn1 Hn2 Hcode Hrest.
  apply (triple_same _ _ _ _ _ (((c1 ;;; c2 ;;; c3 ;;; c4 r) ;;; bindLabel l) ;;; rest r)).
  { intros a. unfold bind, deref, ret. destruct (c1 a) as [a1 [[]| |]]; [|done..]. destruct (c2 a1) as [a2 [[]| |]]; [|done..].
    destruct (c3 a2) as [a3 [[]| |]]; [|done..]. by destruct (c4 r a3) as [a4 [[]| |]]. }
  by eapply triple_until.
Qed.

(** The value a conditional move reads. *)
Definition moved_value (source : option ValueId) : Z :=
  match source with
  | Some l => rX M true (host l)
  | None => slot base (registerOffset (register_of o.(o_immediate))) M
  end.

Lemma narrow32 n O1 O' E' c V (F : Prop) (Q : Assertion) : 0 <= n -> in_range 64 V ->
  triple n O1 O' E' c (fun m => (exists A, work A (wrap (value_width o.(o_width)) V) m) /\ F) Q ->
  triple n O1 O' E' ((if width_is I32 o then mov32 x17 x17 else ret tt) ;;; c) (fun m => (exists A, work A V m) /\ F) Q.
Proof using Type.
  intros Hn HV Hc. unfold width_is. case_bool_decide as Ew.
  - eapply triple_do; [done|by apply mov32_correct| |exact Hc]. intros m [[A W] HF]. split; [|done]. exists A. cbn beta.
    rewrite rX_narrow. destruct (W) as (_ & _ & ->). rewrite Ew. eapply work_set17, W.
    apply (in_range_le 32); [by apply wrap_range|done].
  - assert (value_width (o_width o) = 64) as E1 by by destruct (o_width o). rewrite E1, (wrap_small 64 V HV) in Hc.
    by eapply triple_returns; [apply returns_ret|].
Qed.

Lemma undisturbed_work m : undisturbed M m -> exists A B, work A B m.
Proof using Type. intros U. by exists (rX m true x16), (rX m true x17). Qed.

Lemma stored_same off m : undisturbed M m -> stored base off (slot base off M) M m.
Proof using Type.
  intros U. split; try apply U.
  - by apply undisturbed_slot.
  - intros off' _ _. by apply undisturbed_slot.
  - intros a _. by destruct U as (-> & _ & _).
  - intros Hm. unfold memory_ok. by destruct U as (-> & _ & _).
Qed.

Lemma move_code r c k : o.(o_guestRegister) = Some r -> o.(o_condition) = Some c -> o.(o_width) = I32 \/ o.(o_width) = I64 ->
  (forall l, o.(o_lhs) = Some l -> hosted l) ->
  triple 2 O O E (emit_ConditionalMoveGuestReg g o k) (eq M)
    (stored base (registerOffset r) (wrap (value_width o.(o_width))
      (if condition_holds c (slot base rflagsOffset M) then moved_value o.(o_lhs) else slot base (registerOffset r) M)) M).
Proof using Hx0 Hedge Hguest Hbase Hend.
  intros Hr Hc Hw Hl. unfold emit_ConditionalMoveGuestReg. rewrite Hc.
  match goal with |- triple _ _ _ _ (bind ?t _) _ _ => assert (returns t false) as Ht end.
  { intros a. unfold width_is. destruct Hw as [-> | ->]; cbn; by destruct c. }
  eapply triple_returns; [exact Ht|]. clear Ht. cbv beta iota zeta. apply (triple_make 1); [done|]. intros no.
  rewrite fuse_off. cbn [andb]. bring. unfold emitConditionalMoveBranch.
  set (old := slot base (registerOffset r) M). set (source := moved_value (o_lhs o)). set (b := condition_holds c _).
  assert (in_range 64 source) as Hs.
  { unfold source, moved_value. destruct (o_lhs o); [apply (rX_range M true)|apply slot_range]. }
  assert (forall x, in_range 64 (wrap (value_width (o_width o)) x)) as Hwr.
  { intros x. destruct Hw as [-> | ->]; [apply (in_range_le 32); [by apply wrap_range|done]|by apply wrap_range]. }
  set (V := if b then wrap (value_width (o_width o)) source else old).
  rewrite Hr. apply (triple_region 1 1 0 O _ _ _ _ _ no r _ (stored base (registerOffset r) V M)); [done..| |].
  - set (E' := _ :: E). apply (triple_seq 1 0 _ (no :: O) _ _ _ _ _ (fun m => undisturbed M m /\ b = true)); [done|done| |].
    { unfold b. rewrite <- slot_flags. apply (move_test g o M c Hc _ _ no (stored base (registerOffset r) V M)); [by left|by left|].
      intros m U Hb. rewrite slot_flags in Hb. unfold V, b. rewrite Hb. by apply stored_same. }
    apply (triple_seq 0 0 _ (no :: O) _ _ _ _ _ (fun m => (exists A, work A source m) /\ b = true)); [done|done| |].
    { unfold source, moved_value. destruct (o_lhs o) as [l|] eqn:El.
      - pose proof (Hl l eq_refl) as Rl. pose proof (hosted_reg _ Rl) as Dl. destruct Rl as [Rl' Al].
        eapply triple_returns; [exact Rl'|]. eapply triple_last; [by apply mov_correct|]. intros m [U Hb]. split; [|done].
        destruct (undisturbed_work m U) as (A & B & W). exists A. cbn beta.
        rewrite (work_read _ _ _ _ W) by by apply allocated_operand. eapply work_set17, W. apply (rX_range M true).
      - rewrite Hguest. eapply triple_last; [by apply ldr_ok|]. intros m [U Hb]. split; [|done].
        destruct (undisturbed_work m U) as (A & B & W). exists A. cbn beta. rewrite (work_load _ _ _ _ W).
        eapply work_set17, W. apply slot_range. }
    apply narrow32; [done|done|]. rewrite Hguest. eapply triple_last; [by apply str_ok|].
    intros m [[A (U & _ & E17)] Hb]. unfold V. rewrite Hb. by apply store_of.
  - unfold width_is. case_bool_decide as Ew.
    + rewrite Hguest. set (off := registerOffset r). assert (in_range 64 (wrap 32 V)) as HV.
      { apply (in_range_le 32); [by apply wrap_range|done]. }
      eapply (triple_do _ _ _ _ _ _ _ _ (fun m => stored base off V M m /\ rX m true x17 = V)); [done|by apply ldr_ok| |].
      { intros m S. cbn beta. assert (in_range 64 V) as HV'. { rewrite <- (s_slot _ _ _ _ _ S). apply slot_range. }
        assert (u64 (load_word m (reg_of m x0 + registerOffset r) 8) = V) as ->.
        { unfold reg_of, x0. rewrite (s_registers _ _ _ _ _ S) by apply zero_not_scratch. fold (reg_of M 0). rewrite Hx0.
          apply (s_slot _ _ _ _ _ S). }
        split; [|by apply rX_set_eq]. eapply stored_undisturbed; [exact S|]. apply undisturbed_set. by rewrite !elem_of_cons; auto 10. }
      eapply (triple_do _ _ _ _ _ _ _ _ (fun m => stored base off V M m /\ rX m true x17 = wrap 32 V)); [done|by apply mov32_correct| |].
      { intros m [S E17]. cbn beta. rewrite rX_narrow, E17. split; [|by apply rX_set_eq].
        eapply stored_undisturbed; [exact S|]. apply undisturbed_set. by rewrite !elem_of_cons; auto 10. }
      eapply triple_last; [by apply str_ok|]. intros m [S E17]. cbn beta. rewrite E17.
      assert (reg_of m x0 = base) as ->.
      { unfold reg_of, x0. rewrite (s_registers _ _ _ _ _ S) by apply zero_not_scratch. exact Hx0. }
      rewrite Ew. cbn [value_width]. assert (wrap 32 V = wrap 32 (if b then source else old)) as EV.
      { unfold V. rewrite Ew. destruct b; [|done]. cbn [value_width]. by rewrite wrap_wrap_le. }
      rewrite <- EV. pose proof (registerOffset_range r). eapply stored_again; [done..|unfold off in *; lia|done|exact S].
    + destruct Hw as [Hw|Hw]; [done|]. eapply triple_post; [|apply triple_ret]. intros m Hm. unfold V in Hm.
      assert (forall x, in_range 64 x -> wrap (value_width (o_width o)) x = x) as Hx by (rewrite Hw; apply wrap_small).
      destruct b; [done|]. by rewrite Hx by apply slot_range.
Qed.
End State.

(** ** Flag updates *)

(** Only the other flags of the old value matter. *)
Lemma chain_other a a' w res cf af oflow : other_flags a = other_flags a' ->
  flag_chain a w res cf af oflow = flag_chain a' w res cf af oflow.
Proof using Type.
  intros H. unfold flag_chain. do 6 f_equal. apply Z.bits_inj'. intros i Hi. apply (f_equal (fun x => Z.testbit x i)) in H.
  unfold other_flags, not64, u64 in *. rewrite !Z.lor_spec, !Z.land_spec, !wrap_testbit, !Z.lnot_spec in * by lia.
  rewrite Z.lor_spec in H. destruct (Z.testbit flagReservedOne i); [by rewrite !orb_true_r|].
  by rewrite !orb_false_r in *.
Qed.

Section Update.
Context (O : list Z) (E : Exits) (M : machine) (o : Operation).
Local Abbreviation read v := (rX M true (host v)).

Lemma logic_code l : o.(o_lhs) = Some l -> hosted l ->
  triple 2 O O E (emit_UpdateLogicFlags g o) (eq M) (fun m => forall st, other_flags (flags_slot M) = other_flags st.(rflags) ->
    flagged M (rflags (logic_flags o.(o_width) st (read l))) m).
Proof using Type.
  intros Hl Rl. pose proof (allocated_operand _ (proj2 Rl)). destruct Rl as [Rl _].
  unfold emit_UpdateLogicFlags. rewrite Hl. eapply triple_returns; [apply returns_ret|]. eapply triple_returns; [exact Rl|].
  eapply triple_post; [|by apply emitLogicFlags_code]. intros m Hm st Hst. rewrite logic_chain by (intros; apply (rX_range M true)).
  by rewrite <- (chain_other _ _ _ _ _ _ _ Hst).
Qed.

Section Three.
Context (l r t : ValueId).
Context (Hl : o.(o_lhs) = Some l /\ hosted l) (Hr : o.(o_rhs) = Some r /\ hosted r) (Ht : o.(o_third) = Some t /\ hosted t).

Lemma operand_of v f : f = Some v /\ hosted v -> f = Some v /\ returns (hostRegister g v) (host v) /\ operand_register (host v).
Proof using Type. intros (Hf & Hv & Av). split; [done|]. split; [done|]. by apply allocated_operand. Qed.

Lemma add_code : o.(o_opcode) = Op_UpdateAddFlags ->
  (o.(o_width) = I64 \/ wrap (bits o.(o_width)) (read t) = wrap (bits o.(o_width)) (read l + read r)) ->
  triple 5 O O E (emit_UpdateAddFlags g o) (eq M) (fun m => forall st, other_flags (flags_slot M) = other_flags st.(rflags) ->
    flagged M (rflags (add_flags o.(o_width) st (read l) (read r) (read t))) m).
Proof using Hl Hr Ht.
  intros Hop Hsum. unfold emit_UpdateAddFlags, opcode_is. rewrite Hop. cbn [bool_decide decide decide_rel].
  rewrite bool_decide_true by done.
  eapply triple_post; [|by apply (emitAddFlags_code g O E M o l r t _ _ _ (operand_of _ _ Hl) (operand_of _ _ Hr) (operand_of _ _ Ht))].
  intros m Hm st Hst. rewrite add_chain; [by rewrite <- (chain_other _ _ _ _ _ _ _ Hst)|].
  pose proof (rX_range M true (host l)). pose proof (rX_range M true (host r)). pose proof (rX_range M true (host t)).
  destruct (decide (o_width o = I64)); [by left|]. right. split; [done|]. by destruct Hsum.
Qed.

Lemma sub_code : o.(o_opcode) = Op_UpdateSubFlags -> o.(o_width) = I8 \/ o.(o_width) = I64 ->
  triple 5 O O E (emit_UpdateAddFlags g o) (eq M) (fun m => forall st, other_flags (flags_slot M) = other_flags st.(rflags) ->
    flagged M (rflags (sub_flags o.(o_width) st (read l) (read r) (read t))) m).
Proof using Hl Hr Ht.
  intros Hop Hw. unfold emit_UpdateAddFlags, opcode_is. rewrite Hop.
  rewrite bool_decide_false by done. rewrite bool_decide_true by done. cbn [andb]. unfold width_is.
  pose proof (rX_range M true (host l)) as Rl. pose proof (rX_range M true (host r)) as Rr. pose proof (rX_range M true (host t)) as Rt.
  assert (forall m, flagged M (flag_chain (flags_slot M) (bits o.(o_width)) (wrap (bits o.(o_width)) (read t))
      (wrap (bits o.(o_width)) (read l) <? wrap (bits o.(o_width)) (read r))
      (auxiliary (wrap (bits o.(o_width)) (read l)) (wrap (bits o.(o_width)) (read r)) (wrap (bits o.(o_width)) (read t)))
      (Z.testbit (Z.land (Z.lxor (wrap (bits o.(o_width)) (read l)) (wrap (bits o.(o_width)) (read r)))
        (Z.lxor (wrap (bits o.(o_width)) (read l)) (wrap (bits o.(o_width)) (read t)))) (bits o.(o_width) - 1))) m ->
    forall st, other_flags (flags_slot M) = other_flags st.(rflags) ->
      flagged M (rflags (sub_flags o.(o_width) st (read l) (read r) (read t))) m) as Hpost.
  { intros m Hm st Hst. rewrite sub_chain by (destruct Hw as [-> | ->]; auto). by rewrite <- (chain_other _ _ _ _ _ _ _ Hst). }
  destruct Hw as [Ew|Ew]; rewrite Ew.
  - rewrite bool_decide_true by done. rewrite <- Ew. eapply triple_post; [exact Hpost|].
    by apply (emitSubFlags8_code g O E M o l r t _ _ _ (operand_of _ _ Hl) (operand_of _ _ Hr) (operand_of _ _ Ht)).
  - rewrite bool_decide_false by done. rewrite bool_decide_true by done. rewrite <- Ew.
    destruct (operand_of _ _ Hl) as (-> & Rl' & Ol), (operand_of _ _ Hr) as (-> & Rr' & Or), (operand_of _ _ Ht) as (-> & Rt' & Ot).
    bring. eapply triple_post; [exact Hpost|]. rewrite Ew. cbn [bits]. rewrite !wrap_small by done. by apply emitSubFlags64_code.
Qed.
End Three.
End Update.
End Operations.
