(* ===== verification/BackendCorrect.v ===== *)
(** The code generated for a block computes what the block means: [compile] of
    [src/arm64/Backend.cpp] against [IRSemantics], for blocks that stay in the guest registers
    and flags and do not loop to themselves. *)
From stdpp Require Import relations.
From S2P Require Import Prelude IR IRBuilder X86State RuntimeMemory FlagSpec FlagHelpers AArch64 Assembler AssemblerSpec AssemblerStack AssemblerFlow AssemblerBranch ExecutionContext IR IRVerify IRVerifySpec IRSemantics OptimizationInv Optimization OptimizationSpec BackendAnalysis BackendAnalysisSpec BackendPlan BackendBase BackendScalar BackendMemory Backend BackendLogic BackendFlags BackendSelect.

(** ** Exits *)

(** What the exit of a block does: the new state and the exit code. *)
Definition exit_effect (o : Operation) (lhs : option Z) (st : X86State) : option (X86State * Z) :=
  let indirect code :=
    match lhs, o.(o_target) with
    | Some target, _ | None, Some target => Some (set_rip target st, code)
    | None, None => None
    end in
  match o.(o_exitKind) with
  | Exit_Return => Some (set_rip o.(o_guestRip) st, BlockExit_Return)
  | Exit_Direct => indirect BlockExit_Continue
  | Exit_Call => indirect BlockExit_Call
  | Exit_Syscall =>
      target ← o.(o_target);
      Some (set_rip target (set_gpr R11 st.(rflags) (set_gpr Rcx target st)), BlockExit_Syscall)
  | Exit_Conditional =>
      target ← o.(o_target); next ← o.(o_fallthrough); c ← o.(o_condition);
      Some (set_rip (if condition_holds c st.(rflags) then target else next) st, BlockExit_Continue)
  end.

(** The machine when the code of a block returns. *)
Record finished (base : Z) (M0 : machine) (st : X86State) (code : Z) (m : machine) : Prop := {
  fi_code : reg_of m 0 = code;
  fi_state : in_memory base st m;
  fi_rip : slot base ripOffset m = st.(rip);
  fi_flags : slot base rflagsOffset m = st.(rflags);
  fi_sp : m.(msp) = M0.(msp);
  fi_memory : forall a, ~ (base <= a < base + written_size) -> m.(mmem) !! a = M0.(mmem) !! a;
  fi_registers : forall r, r ∉ 0 :: scratch -> m.(mx) !! r = M0.(mx) !! r
}.

Section Exit.
Context (g : CodeGen) (base : Z) (host : ValueId -> Z).
Context (Hbase : 0 <= base) (Hend : base + state_size <= 2 ^ 64).
Context (Hedge : internalSelfEdge g = false) (Hguest : forall r, pinnedGuest g r = None).
Context (Hdeferred : deferredExitUpdate g = None).
Context (Hhelper : hasHelperCall g = false) (Hcontext : hasExecutionContextCall g = false).
Local Abbreviation hosted := (hosted g host).

Lemma point_exit (live : ValueId -> Prop) env st M0 M m rip code : point base host M0 live true env st M ->
  in_range 64 rip -> stored base ripOffset rip M m ->
  finished base M0 (set_rip rip st) code (set_x 0 code m).
Proof using Type.
  intros [P1 [P2 P2'] P3 P4 P5 P6 P7 P8] Hr [S1 S2 S3 S4 S5 S6].
  assert (forall off, slot base off (set_x 0 code m) = slot base off m) as Hslot by done.
  split.
  - unfold reg_of. cbn. by rewrite lookup_insert_eq.
  - split; [intros r; pose proof (registerOffset_range r)|]; rewrite Hslot, S2 by (unfold ripOffset, gsBaseOffset; lia);
      [apply P2|exact P2'].
  - exact S1.
  - rewrite Hslot, S2 by (unfold ripOffset, rflagsOffset; lia). exact P3.
  - cbn. congruence.
  - intros a Ha. cbn. rewrite S3 by done. by apply P6.
  - intros r Hr'. cbn. apply not_elem_of_cons in Hr' as [Hr0 Hr']. rewrite lookup_insert_ne by done.
    rewrite S5 by by apply scratch_sub. by apply P7.
Qed.

(** The tail every exit shares. *)
Lemma exit_tail (Sel : Assertion) code rip : in_range 64 code -> in_range 64 rip ->
  (forall m, Sel m -> reg_of m 0 = base /\ rX m true x16 = rip) ->
  forall O, ends 0 O O (str x16 x0 ripOffset ;;;
    (if internalSelfEdge g && (code =? BlockExit_Continue) then emitRepeatDirect g else ret tt) ;;;
    emitEpilogue g ;;; movImmediate x0 code ;;; emitRet) Sel
    (fun m => exists M m', Sel M /\ stored base ripOffset rip M m' /\ m = set_x 0 code m').
Proof using Hbase Hend Hedge Hhelper Hcontext.
  intros Hcode Hrip Hsel O.
  apply (ends_seq 0 0 _ O _ _ _ _ (fun m => exists M, Sel M /\ stored base ripOffset rip M m)); [done|done| |].
  { eapply triple_last; [by apply (doubleword_correct x16 x0 ripOffset)|]. intros m Hm. destruct (Hsel m Hm) as [E0 E16].
    exists m. split; [done|]. cbn beta. rewrite E16. unfold x0. rewrite E0. apply stored_store; [done..|apply undisturbed_refl]. }
  rewrite Hedge. cbn [andb]. eapply ends_returns; [apply returns_ret|].
  eapply ends_returns; [unfold emitEpilogue; rewrite Hhelper, Hcontext; eapply returns_bind; apply returns_ret|].
  apply (ends_seq 0 0 _ O _ _ _ _ (fun m => exists M m', Sel M /\ stored base ripOffset rip M m' /\ m = set_x 0 code m')); [done|done| |].
  { eapply triple_last; [by apply movImmediate_implements|]. intros m (M & HM & HS). by exists M, m. }
  apply ends_ret.
Qed.

Lemma ends_pair {A} n O O' (c : Prelude.M Assembler A) (d : Prelude.M Assembler unit) x (k : A -> Prelude.M Assembler unit) P R : same c (d ;;; ret x) -> ends n O O' (d ;;; k x) P R ->
  ends n O O' (do! p <- c; k p) P R.
Proof using Type.
  intros Hs. apply ends_same. intros a. unfold bind at 1. rewrite Hs. unfold bind, ret. by destruct (d a) as [a1 [[]| |]].
Qed.

Ltac run_out :=
  intros ?a; unfold deref, bind, ret;
  repeat match goal with |- context [match ?X with (_, _) => _ end] => destruct X as [? [?| |]]; try done end.

Section Emit.
Context (O : list Z) (M : machine) (o : Operation) (Hx0 : reg_of M 0 = base).

Definition exit_rip : option Z :=
  match o.(o_exitKind) with
  | Exit_Return => Some o.(o_guestRip)
  | Exit_Direct | Exit_Call =>
      match o.(o_lhs) with Some l => Some (rX M true (host l)) | None => o.(o_target) end
  | Exit_Syscall => o.(o_target)
  | Exit_Conditional =>
      target ← o.(o_target); next ← o.(o_fallthrough); c ← o.(o_condition);
      Some (if condition_holds c (slot base rflagsOffset M) then target else next)
  end.

Definition exit_code : Z :=
  match o.(o_exitKind) with
  | Exit_Return => BlockExit_Return
  | Exit_Direct | Exit_Conditional => BlockExit_Continue
  | Exit_Call => BlockExit_Call
  | Exit_Syscall => BlockExit_Syscall
  end.

(** x16 holds the address the block goes to. *)
Definition selected (rip : Z) (m : machine) : Prop := undisturbed M m /\ rX m true x16 = rip.

Lemma selected_ready rip m : selected rip m -> reg_of m 0 = base /\ rX m true x16 = rip.
Proof using Hx0.
  intros [U E16]. split; [|done]. by apply (undisturbed_base base M Hx0).
Qed.

Lemma select_value rip : in_range 64 rip -> triple 0 O O [] (movImmediate x16 rip) (eq M) (selected rip).
Proof using Type.
  intros Hr. eapply triple_last; [by apply movImmediate_implements|]. intros m <-.
  split; [apply undisturbed_set; by rewrite !elem_of_cons; auto 10|by apply rX_set_eq].
Qed.

Lemma select_register l : hosted l -> triple 0 O O [] (mov x16 (host l)) (eq M) (selected (rX M true (host l))).
Proof using Type.
  intros [_ Al]. destruct (allocated_operand _ Al) as [Rl _]. eapply triple_last; [by apply mov_correct|]. intros m <-.
  split; [apply undisturbed_set; by rewrite !elem_of_cons; auto 10|]. apply rX_set_eq; [done|apply (rX_range M true)].
Qed.

Lemma exit_simple rip : o.(o_exitKind) <> Exit_Syscall -> o.(o_exitKind) <> Exit_Conditional ->
  (forall l, o.(o_lhs) = Some l -> o.(o_exitKind) <> Exit_Return -> hosted l) -> exit_rip = Some rip -> in_range 64 rip ->
  ends 0 O O (emit_ExitBlock g o None None) (eq M)
    (fun m => exists m1 m', selected rip m1 /\ stored base ripOffset rip m1 m' /\ m = set_x 0 exit_code m').
Proof using All.
  intros Hs Hc Hl Hrip Hr. unfold emit_ExitBlock, exit_rip, exit_code in *.
  assert (forall c (k : Z * bool -> Prelude.M Assembler unit) code (d : Prelude.M Assembler unit), same c (d ;;; ret (code, false)) -> in_range 64 code -> triple 0 O O [] d (eq M) (selected rip) ->
    k (code, false) = (str x16 x0 ripOffset ;;; (if internalSelfEdge g && (code =? BlockExit_Continue) then emitRepeatDirect g else ret tt) ;;;
      emitEpilogue g ;;; movImmediate x0 code ;;; emitRet) ->
    ends 0 O O (do! p <- c; k p) (eq M)
      (fun m => exists m1 m', selected rip m1 /\ stored base ripOffset rip m1 m' /\ m = set_x 0 code m')) as Hgo.
  { intros c k code d Hsame Hcode Hd Hk. eapply ends_pair; [exact Hsame|]. rewrite Hk.
    apply (ends_seq 0 0 _ O _ _ _ _ (selected rip)); [done..|]. apply exit_tail; [done..|]. apply selected_ready. }
  destruct (o_exitKind o) eqn:Ek; try done.
  - injection Hrip as <-. eapply (Hgo _ _ BlockExit_Return (movImmediate x16 (o_guestRip o))); [run_out|done|by apply select_value|done].
  - destruct (o_lhs o) as [l|] eqn:El.
    + injection Hrip as <-. specialize (Hl l eq_refl ltac:(done)). pose proof (proj1 Hl) as Rl.
      eapply (Hgo _ _ BlockExit_Continue (mov x16 (host l))); [|done|by apply select_register|done].
      intros a. unfold bind. rewrite Rl. by destruct (mov x16 (host l) a) as [? [| |]].
    + rewrite Hrip. eapply (Hgo _ _ BlockExit_Continue (movImmediate x16 rip)); [|done|by apply select_value|done]. run_out.
  - destruct (o_lhs o) as [l|] eqn:El.
    + injection Hrip as <-. specialize (Hl l eq_refl ltac:(done)). pose proof (proj1 Hl) as Rl.
      eapply (Hgo _ _ BlockExit_Call (mov x16 (host l))); [|done|by apply select_register|done].
      intros a. unfold bind. rewrite Rl. by destruct (mov x16 (host l) a) as [? [| |]].
    + rewrite Hrip. eapply (Hgo _ _ BlockExit_Call (movImmediate x16 rip)); [|done|by apply select_value|done]. run_out.
Qed.

Definition conditional_code (target next : Z) : Prelude.M Assembler unit :=
  do! no <- makeLabel; do! yes <- makeLabel; do! sel <- makeLabel;
  (((((emitExitTest g o 6 0 7 11 no yes ;;; bindLabel yes) ;;; movImmediate x16 target) ;;; b sel) ;;;
    bindLabel no) ;;; movImmediate x16 next) ;;; bindLabel sel.

Lemma conditional_triple target next c : o.(o_condition) = Some c -> in_range 64 target -> in_range 64 next ->
  triple 3 O O [] (conditional_code target next) (eq M)
    (selected (if condition_holds c (slot base rflagsOffset M) then target else next)).
Proof using Hx0.
  intros Hc Ht Hn. rewrite <- (slot_flags base M Hx0). set (holds := condition_holds c (flags_slot M)) in *.
  set (rip := if holds then target else next). unfold conditional_code.
  change 3 with (1 + (1 + (1 + 0))). do 3 (apply triple_make; [done|intros ?]).
  rename l into no, l0 into yes, l1 into sel.
  apply (triple_permutation _ _ (yes :: no :: sel :: O)); [apply (Permutation_middle [yes; no] O sel)|].
  assert (forall m b a, undisturbed M m /\ holds = b -> in_range 64 a -> a = rip \/ holds = negb b -> selected rip (set_x x16 a m)) as Hset.
  { intros m b0 a [U Hb] Ha Hrip. assert (a = rip) as -> by (destruct Hrip as [?|Hne]; [done|]; rewrite Hb in Hne; by destruct b0).
    split; [|by apply rX_set_eq]. eapply undisturbed_trans; [exact U|]. apply undisturbed_set. by rewrite !elem_of_cons; auto 10. }
  apply triple_bind; [done|]. set (E1 := _ :: []).
  apply (triple_seq 0 0 _ (sel :: O) _ _ _ _ _ (fun m => undisturbed M m /\ holds = false)); [done|done| |].
  - apply triple_bind; [done|]. set (E2 := _ :: E1).
    apply (triple_seq 0 0 _ (no :: sel :: O) _ _ _ _ _ (selected rip)); [done|done| |].
    + apply (triple_seq 0 0 _ (no :: sel :: O) _ _ _ _ _ (fun m => undisturbed M m /\ holds = true)); [done|done| |].
      * apply triple_bind; [done|]. apply exit_test; [done|right; by left|by left|right; by left|by left].
      * eapply triple_last; [by apply movImmediate_implements|]. intros m Hm. eapply Hset; [exact Hm|done|]. left. unfold rip. by rewrite (proj2 Hm).
    + apply (triple_branch _ _ _ Branch26 sel Branch (fun _ => true) _ _ (selected rip)); [apply records_b|apply jumps_b|right; by left|right; by left|done].
  - eapply triple_last; [by apply movImmediate_implements|]. intros m Hm. eapply Hset; [exact Hm|done|]. left. unfold rip. by rewrite (proj2 Hm).
Qed.

Lemma exit_conditional target next c : o.(o_exitKind) = Exit_Conditional -> o.(o_target) = Some target ->
  o.(o_fallthrough) = Some next -> o.(o_condition) = Some c -> in_range 64 target -> in_range 64 next ->
  let rip := if condition_holds c (slot base rflagsOffset M) then target else next in
  ends 3 O O (emit_ExitBlock g o None None) (eq M)
    (fun m => exists m1 m', selected rip m1 /\ stored base ripOffset rip m1 m' /\ m = set_x 0 exit_code m').
Proof using All.
  intros Ek Et En Ec Ht Hn rip. unfold emit_ExitBlock, exit_code. rewrite Ek, Hedge, Hdeferred, Et, En.
  eapply (ends_pair _ _ _ _ (conditional_code target next)); [unfold conditional_code; run_out|].
  apply (ends_seq 3 0 _ O _ _ _ _ (selected rip)); [done..|by apply conditional_triple|].
  rewrite <- Hedge. apply exit_tail; [done..|by unfold rip; destruct (condition_holds _ _)|]. apply selected_ready.
Qed.

(** SYSCALL puts the return address in RCX and the flags in R11. *)
Definition called (target : Z) (m : machine) : Prop :=
  exists M1, stored base (registerOffset Rcx) target M M1 /\ stored base (registerOffset R11) (slot base rflagsOffset M) M1 m.

Lemma called_triple target : in_range 64 target ->
  triple 0 O O [] (movImmediate x16 target ;;; str x16 x0 (registerOffset Rcx) ;;; ldr x17 x0 rflagsOffset ;;;
    str x17 x0 (registerOffset R11)) (eq M) (fun m => called target m /\ rX m true x16 = target).
Proof using Hbase Hend Hx0.
  intros Ht. set (fl := slot base rflagsOffset M). assert (in_range 64 fl) as Hfl by by apply wrap_range.
  eapply (triple_do _ _ _ _ _ _ _ _ (selected target)); [done|by apply movImmediate_implements| |].
  { intros m <-. split; [apply undisturbed_set; by rewrite !elem_of_cons; auto 10|by apply rX_set_eq]. }
  eapply (triple_do _ _ _ _ _ _ _ _ (fun m => stored base (registerOffset Rcx) target M m /\ rX m true x16 = target)); [done|by apply str_ok| |].
  { intros m [U E16]. split; [|done]. by apply store_of. }
  eapply (triple_do _ _ _ _ _ _ _ _ (fun m => stored base (registerOffset Rcx) target M m /\ rX m true x16 = target /\ rX m true x17 = fl));
    [done|by apply (doubleword_correct x17 x0 rflagsOffset)| |].
  { intros m [S E16]. cbn beta. assert (u64 (load_word m (reg_of m x0 + rflagsOffset) 8) = fl) as ->.
    { unfold reg_of, x0. rewrite (s_registers _ _ _ _ _ S) by apply zero_not_scratch. fold (reg_of M 0). rewrite Hx0.
      apply (s_others _ _ _ _ _ S); unfold rflagsOffset; cbn; lia. }
    split_and!; [|unfold x16, x17 in *; by rewrite rX_set_ne|by apply rX_set_eq].
    eapply stored_undisturbed; [exact S|]. apply undisturbed_set. by rewrite !elem_of_cons; auto 10. }
  eapply triple_last; [by apply str_ok|]. intros m (S & E16 & E17). split; [|done]. exists m. split; [done|].
  assert (reg_of m 0 = base) as H0.
  { unfold reg_of. rewrite (s_registers _ _ _ _ _ S) by apply zero_not_scratch. exact Hx0. }
  by apply (store_of base Hbase Hend m H0 m x17 R11 _ (undisturbed_refl m)).
Qed.

Lemma called_base target m : called target m -> reg_of m 0 = base.
Proof using Hx0.
  intros (M1 & S1 & S2). unfold reg_of.
  rewrite (s_registers _ _ _ _ _ S2), (s_registers _ _ _ _ _ S1) by apply zero_not_scratch. exact Hx0.
Qed.

Lemma exit_syscall target : o.(o_exitKind) = Exit_Syscall -> o.(o_target) = Some target -> in_range 64 target ->
  ends 0 O O (emit_ExitBlock g o None None) (eq M)
    (fun m => exists m1 m', called target m1 /\ stored base ripOffset target m1 m' /\ m = set_x 0 exit_code m').
Proof using All.
  intros Ek Et Ht. unfold emit_ExitBlock, exit_code. rewrite Ek, Et.
  eapply (ends_pair _ _ _ _ (movImmediate x16 target ;;; str x16 x0 (registerOffset Rcx) ;;; ldr x17 x0 rflagsOffset ;;;
    str x17 x0 (registerOffset R11))); [run_out|].
  apply (ends_seq 0 0 _ O _ _ _ _ (fun m => called target m /\ rX m true x16 = target)); [done..|by apply called_triple|].
  eapply ends_conseq; [|intros m Hm; exact Hm| |apply (exit_tail (fun m => called target m /\ rX m true x16 = target) BlockExit_Syscall target)];
    [done| |done..|].
  - intros m (m1 & m' & [Hc _] & S & ->). by exists m1, m'.
  - intros m [Hc E16]. split; [by eapply called_base|done].
Qed.
End Emit.

Lemma ends_each n O O' c (Pre0 : machine -> Prop) (R : machine -> Assertion) (P Q : Assertion) (M : machine) :
  Pre0 M -> (forall M, Pre0 M -> ends n O O' c (eq M) (R M)) -> (forall m, P m -> Pre0 m) ->
  (forall M m, P M -> R M m -> Q m) -> ends n O O' c P Q.
Proof using Type.
  intros HM H HP HQ a Hs Ho Hl. destruct (H M HM a Hs Ho Hl) as (a' & Ec & Hs' & Ho' & Hl' & Hg & _).
  exists a'. split_and!; try done. intros F L Hag m Hm.
  destruct (H m (HP m Hm) a Hs Ho Hl) as (a2 & Ec2 & _ & _ & _ & _ & Hr). rewrite Ec in Ec2. injection Ec2 as <-.
  destruct (Hr F L Hag m eq_refl) as (pc & m' & r & Hst & Hf & Hq). exists pc, m', r. split_and!; [done|done|]. by apply (HQ m).
Qed.

(** A machine whose x0 is the base. *)
Definition based : machine := mkMachine {[0 := base]} 0 false false false false ∅.

Lemma based_ok : reg_of based 0 = base /\ memory_ok based.
Proof using Type. split; [unfold reg_of; cbn; by rewrite lookup_singleton_eq|]. apply map_Forall_empty. Qed.
End Exit.

(** ** The blocks *)

Definition word_immediate (x : Z) : bool := (0 <=? x) && (x <? 2 ^ 64).
Definition word_option (x : option Z) : bool := match x with Some a => word_immediate a | None => true end.

(** The operations whose code stays in the guest registers and flags: no guest memory, no
    vector, no helper. *)
Definition native_operation (o : Operation) : bool :=
  match o.(o_opcode) with
  | Op_Constant => present o.(o_result) && word_immediate o.(o_immediate)
  | Op_ReadGuestReg => present o.(o_result) && present o.(o_guestRegister)
  | Op_ReadGuestGsBase => present o.(o_result)
  | Op_EvaluateCondition => present o.(o_result) && present o.(o_condition)
  | Op_WriteGuestReg => absent o.(o_result) && present o.(o_guestRegister) && present o.(o_lhs)
  | Op_ConditionalMoveGuestReg =>
      absent o.(o_result) && present o.(o_guestRegister) && present o.(o_condition) && tracked_width o
  | Op_UpdateLogicFlags => absent o.(o_result) && present o.(o_lhs)
  | Op_UpdateAddFlags => absent o.(o_result) && present o.(o_lhs) && present o.(o_rhs) && present o.(o_third)
  | Op_UpdateSubFlags =>
      absent o.(o_result) && present o.(o_lhs) && present o.(o_rhs) && present o.(o_third) &&
      (width_is I8 o || width_is I64 o)
  | _ => present o.(o_result) && value_operation o
  end.

(** The exit has the fields its kind needs. *)
Definition native_exit (o : Operation) : bool :=
  opcode_is Op_ExitBlock o && absent o.(o_result) && word_immediate o.(o_guestRip) && word_option o.(o_target) &&
  word_option o.(o_fallthrough) &&
  match o.(o_exitKind) with
  | Exit_Return => true
  | Exit_Direct | Exit_Call => present o.(o_lhs) || present o.(o_target)
  | Exit_Syscall => present o.(o_target)
  | Exit_Conditional => present o.(o_target) && present o.(o_fallthrough) && present o.(o_condition)
  end.

Fixpoint native_operations (ops : list Operation) : bool :=
  match ops with
  | [] => false
  | [o] => native_exit o
  | o :: rest => native_operation o && native_operations rest
  end.

(** The third operand of a narrow flag update is the sum of the other two. *)
Definition sums_up (ops : list Operation) (o : Operation) : bool :=
  negb (opcode_is Op_UpdateAddFlags o) || width_is I64 o ||
  existsb (fun d => opcode_is Op_Add d && bool_decide (d.(o_result) = o.(o_third)) && bool_decide (d.(o_lhs) = o.(o_lhs)) &&
    bool_decide (d.(o_rhs) = o.(o_rhs)) && bool_decide (d.(o_width) = o.(o_width))) ops.

(** Value numbers are unsigned and an operation reads the operands the verifier checks. *)
Definition typed_operation (o : Operation) : bool :=
  match o.(o_result) with Some r => 0 <=? r | None => true end &&
  forallb (fun v => absent v || existsb (fun w => bool_decide (w = v)) (operands o)) (operand_slots o).

(** A block of such operations that does not loop to itself. *)
Definition native_block (block : Block) : bool :=
  (0 <=? block.(b_valueCount)) && forallb typed_operation block.(b_operations) &&
  negb (hasInternalSelfEdge block) && native_operations block.(b_operations) &&
  forallb (sums_up block.(b_operations)) block.(b_operations).

(** The exit is the effect [IRSemantics] leaves open: it goes to a 64-bit address. *)
Definition exits (o : Operation) (l r t : option Z) (m : Machine) : Effect :=
  match exit_effect o l m.2 with
  | Some (st, _) => if word_immediate st.(rip) then ((m.1, st), Ok None) else (m, Undefined)
  | None => (m, Undefined)
  end.

Lemma word_in_range x : word_immediate x = true <-> in_range 64 x.
Proof. unfold word_immediate, in_range. rewrite andb_true_iff, Z.leb_le, Z.ltb_lt. done. Qed.

Lemma exit_effect_ok o l st st' code : exit_effect o l st = Some (st', code) -> state_ok st -> in_range 64 st'.(rip) -> state_ok st'.
Proof.
  intros He [[G1 G2] G3 G4] Hr.
  assert (forall a, st' = set_rip a st -> state_ok st') as Hrip by (intros a ->; by split).
  unfold exit_effect in He. destruct (o_exitKind o).
  - injection He as <- _. by eapply Hrip.
  - destruct l, (o_target o); try done; injection He as <- _; by eapply Hrip.
  - destruct (o_target o), (o_fallthrough o), (o_condition o); try done. injection He as <- _. by eapply Hrip.
  - destruct l, (o_target o); try done; injection He as <- _; by eapply Hrip.
  - destruct (o_target o) as [a|]; [|done]. injection He as <- _. split; [|done|done]. cbn in Hr |- *. rewrite !length_insert.
    split; [done|]. by repeat apply Forall_insert.
Qed.

Lemma exits_well_behaved : well_behaved exits.
Proof.
  intros o l r t m m' res _ _ _ Hm. unfold exits. pose proof Hm as [Hs Hd Hsp].
  destruct (exit_effect o l m.2) as [[st code]|] eqn:E; [|by intros [= <- <-]].
  destruct (word_immediate (rip st)) eqn:Hr; [|by intros [= <- <-]]. apply word_in_range in Hr.
  intros [= <- <-]. split; [|by intros v [= <-]]. split; [|done|done]. by eapply exit_effect_ok.
Qed.

Lemma verified_closed block : verify block = [] -> native_block block = true ->
  0 <= block.(b_valueCount) /\ closed block.(b_valueCount) block.(b_operations).
Proof.
  unfold native_block. rewrite !andb_true_iff. intros Hv ((((Hn%Z.leb_le & Ht) & _) & _) & _). split; [done|].
  rewrite forallb_forall in Ht.
  assert (forall i o, block.(b_operations) !! i = Some o -> typed_operation o = true) as Htyped.
  { intros i o Ho. apply Ht, list_elem_of_In. by eapply list_elem_of_lookup_2. }
  assert (ids_unsigned block.(b_operations)) as Hids.
  { apply Forall_forall. intros o (i & Ho)%list_elem_of_lookup r Hr. specialize (Htyped i o Ho). unfold typed_operation in Htyped.
    rewrite Hr in Htyped. apply andb_prop in Htyped as [Hr0 _]. by apply Z.leb_le. }
  apply verify_nil in Hv as [Hf _]; [|done|done]. intros i o Ho. specialize (Hf i o Ho). split; [done| |].
  - intros v Hin. specialize (Htyped i o Ho). apply andb_prop in Htyped as [_ Hs]. rewrite forallb_forall in Hs.
    specialize (Hs (Some v) ltac:(by apply list_elem_of_In)). cbn [absent present negb orb] in Hs.
    apply existsb_exists in Hs as (w & Hw & ->%bool_decide_eq_true). apply list_elem_of_In in Hw.
    pose proof (reads_before _ _ _ Hf) as Hr. rewrite Forall_forall in Hr. by destruct (Hr (Some v) Hw) as (x & [= ->] & ?).
  - intros r Hr. unfold ids_unsigned in Hids. rewrite Forall_forall in Hids. apply (Hids o); [by eapply list_elem_of_lookup_2|done].
Qed.

(** ** The code of an operation *)

Definition emit_native (g : CodeGen) (o : Operation) (k : nat) : Prelude.M Assembler unit :=
  match o.(o_opcode) with
  | Op_Constant => emit_Constant g o
  | Op_ReadGuestReg => emit_ReadGuestReg g o
  | Op_ReadGuestGsBase => emit_ReadGuestGsBase g o
  | Op_EvaluateCondition => emit_EvaluateCondition g o k
  | Op_WriteGuestReg => emit_WriteGuestReg g o k
  | Op_ConditionalMoveGuestReg => emit_ConditionalMoveGuestReg g o k
  | Op_UpdateLogicFlags => emit_UpdateLogicFlags g o
  | Op_UpdateAddFlags | Op_UpdateSubFlags => emit_UpdateAddFlags g o
  | Op_ExitBlock => emit_ExitBlock g o None None
  | _ => emit_value g o
  end.

Lemma emit_native_operation g o k : native_operation o = true \/ native_exit o = true ->
  emitOperation g o k None None = (emit_native g o k ;;; ret (None, None)).
Proof.
  unfold native_operation, native_exit, value_operation, emitOperation, emit_native, emit_value, opcode_is.
  destruct (o_opcode o); intros [H|H]; try reflexivity; by rewrite ?andb_false_r in H.
Qed.

Section Compile.
Context (block : Block) (p : Plan) (pointer : string -> Z) (defs : Definitions).
Local Abbreviation ops := block.(b_operations).
Local Abbreviation n := block.(b_valueCount).
Context (Hclosed : closed n ops) (Hn : 0 <= n) (Hplan : planned block p) (Hdefs : defs.(defs_operation) = p.(p_definitions)).
Context (Hfolded : folded_right block defs p.(p_foldedImmediate)).
Context (Hpromotes : length p.(p_promotesNarrowGuestWrite) = length ops /\
  forall k, p.(p_promotesNarrowGuestWrite) !! k = Some true -> promotable block defs k).
Context (Hhelpers : p.(p_hasHelperCall) = false /\ p.(p_hasExecutionContextCall) = false).
Local Abbreviation g := (mkCodeGen block p pointer).

Definition host (v : ValueId) : Z := nth (Z.to_nat v) p.(p_hostRegisters) 0.
Definition folded (v : ValueId) : bool := nth (Z.to_nat v) p.(p_foldedImmediate) false.
(** The values in registers before the operation at [k]. *)
Definition live (k : nat) (v : ValueId) : Prop := live_at block false false None v k /\ folded v = false.
(** The flags in memory are right. *)
Definition exact (k : nat) : bool := negb (isDeadFlagUpdate_loop false (drop k ops)).

Lemma plain : internalSelfEdge g = false /\ (forall r, pinnedGuest g r = None) /\ directWriteSpan g = None /\
  deferredExitUpdate g = None /\ pinnedLoopConstant g = None /\ hasHelperCall g = false /\ hasExecutionContextCall g = false.
Proof using Hplan Hhelpers.
  destruct (pl_plain _ _ Hplan) as (E1 & E2 & E3 & E4 & E5 & E6 & E7 & E8 & _). destruct Hhelpers as [H1 H2].
  unfold internalSelfEdge, pinnedGuest, pinnedGuestRegisters, directWriteSpan, deferredExitUpdate, pinnedLoopConstant,
    hasHelperCall, hasExecutionContextCall. cbn [g_plan]. split_and!; try done. intros r. rewrite E6. by destruct r.
Qed.

Lemma defined_hosted v i : defined_by block v i -> hosted g host v.
Proof using Hclosed Hn Hplan Hpromotes block defs p pointer.
  intros Hd. destruct (pl_hosts _ _ Hplan) as (H1 & H2 & _). pose proof (defined_range block Hclosed v i Hd) as Rv.
  split; [|exact (H2 v i Hd)]. intros a. unfold hostRegister, at_value_in, lift. cbn [g_plan].
  unfold zlength. rewrite H1. destruct (Z.leb_spec (Z.of_nat (Z.to_nat n)) v); [lia|]. unfold bind, at_value, at_index.
  destruct (pl_plain _ _ Hplan) as (_ & _ & _ & _ & -> & _). rewrite (proj2 (lookup_replicate _ _ _ _)) by (split; [done|lia]).
  unfold host. destruct (lookup_lt_is_Some_2 p.(p_hostRegisters) (Z.to_nat v)) as [x Hx]; [lia|].
  rewrite Hx. by rewrite (nth_lookup_Some _ _ _ _ Hx).
Qed.

Lemma live_allocated k v : live k v -> allocated_register (host v).
Proof using Hclosed Hn Hplan Hpromotes block defs p pointer. intros [[(i & Hd & _) _] _]. by apply (defined_hosted v i). Qed.

Lemma operand_hosted k o v : ops !! k = Some o -> Some v ∈ operand_slots o -> hosted g host v.
Proof using Hclosed Hn Hplan Hpromotes block defs p pointer.
  intros Ho Hv. apply (operand_defined block Hclosed) with (v := v) in Ho as (i & Hd & _)%result_defined; [|done].
  by apply (defined_hosted v i).
Qed.

(** An operand of code is in its register, or folded. *)
Lemma operand_live k o v : ops !! k = Some o -> isDeadFlagUpdate block k false = false -> Some v ∈ operand_slots o ->
  o.(o_lhs) = Some v \/ o.(o_third) = Some v \/ opcode_is Op_Add o || opcode_is Op_Sub o = false -> live k v.
Proof using Hclosed Hfolded Hn Hpromotes block defs p.
  intros Ho Hd Hv Hslot. pose proof (operand_defined block Hclosed k o v Ho Hv) as Hr. split.
  - split; [by apply result_defined in Hr as (i & ? & ?); exists i|]. exists k. split; [|done].
    apply (used_required _ _ _ _ _ _ k). by eapply requires_operand.
  - destruct (folded v) eqn:E; [|done]. exfalso. destruct Hfolded as [F1 F2].
    pose proof (results_range block Hclosed k v Hr) as Rv.
    destruct (F2 v Rv) as (i & oi & d & Hf).
    { unfold folded in E. destruct (lookup_lt_is_Some_2 p.(p_foldedImmediate) (Z.to_nat v)) as [x Hx]; [lia|].
      rewrite (nth_lookup_Some _ _ _ _ Hx) in E. by rewrite Hx, E. }
    destruct (folds_only block defs v i oi d k o Hf Ho Hd Hv) as (-> & Hl & Ht). destruct Hf as (Hi & Hop & _).
    rewrite Hi in Ho. injection Ho as <-. destruct Hslot as [?|[?|?]]; [done|done|congruence].
Qed.

Lemma live_after k o v : ops !! k = Some o -> o.(o_result) = None -> live (S k) v -> live k v.
Proof using Hpromotes block defs p.
  intros Ho Hr [[(i & Hd & Hi) (j & Hu & Hj)] Hf]. split; [|done]. split; [|exists j; split; [done|lia]].
  exists i. split; [done|]. destruct (decide (i = k)) as [->|]; [|lia]. destruct Hd as (o' & Ho' & Hr'). congruence.
Qed.

Lemma live_result k o r v : ops !! k = Some o -> o.(o_result) = Some r -> live (S k) v ->
  v = r \/ v <> r /\ live k v /\ host v <> host r.
Proof using Hclosed Hplan Hpromotes block defs p.
  intros Ho Hr [[(i & Hd & Hi) (j & Hu & Hj)] Hf]. assert (defined_by block r k) as Hdr by by exists o.
  destruct (decide (v = r)) as [->|Hne]; [by left|right]. split; [done|].
  assert (i <> k) as Hik. { intros ->. destruct Hd as (o' & Ho' & Hr'). congruence. }
  split; [split; [split; [exists i; split; [done|lia]|exists j; split; [done|lia]]|done]|].
  apply (pl_hosts _ _ Hplan). exists i, k, j. split_and!; try done; lia.
Qed.

(** ** What is known of the values *)

Definition value_fact (env : gmap Z Z) (d : Operation) (x : Z) : Prop :=
  (d.(o_opcode) = Op_Constant -> x = wrap (value_width d.(o_width)) d.(o_immediate)) /\
  (d.(o_opcode) = Op_EvaluateCondition -> x = 0 \/ x = 1) /\
  (isZeroExtendedDefinition (Some d) = true -> in_range 32 x) /\
  (d.(o_opcode) = Op_Add -> forall l r xl xr, d.(o_lhs) = Some l -> d.(o_rhs) = Some r -> env !! l = Some xl ->
    env !! r = Some xr -> x = wrap (value_width d.(o_width)) (xl + xr)).

(** The values computed before the operation at [k]. *)
Record env_ok (k : nat) (env : gmap Z Z) : Prop := {
  e_domain : forall v, is_Some (env !! v) <-> v ∈ results (take k ops);
  e_range : forall v x, env !! v = Some x -> in_range 64 x;
  e_facts : forall i d v x, (i < k)%nat -> ops !! i = Some d -> d.(o_result) = Some v -> env !! v = Some x -> value_fact env d x
}.

(** What is known of the state there. *)
Record known_state (k : nat) (st : X86State) : Prop := {
  k_gpr : length st.(gpr) = 16%nat;
  k_zero : forall r, zero_at block defs k r -> get_gpr r st = 0
}.

Lemma env_operands k o env : ops !! k = Some o -> env_ok k env -> exists l r t, read_operand env o.(o_lhs) = Some l /\
  read_operand env o.(o_rhs) = Some r /\ read_operand env o.(o_third) = Some t.
Proof using Hclosed.
  intros Ho He. assert (forall f, f ∈ operand_slots o -> exists x, read_operand env f = Some x) as H.
  { intros [v|] Hv; [|by eexists]. apply (operand_defined block Hclosed k o v Ho) in Hv. apply (e_domain k env He) in Hv as [x Hx].
    exists (Some x). unfold read_operand, ValueId in *. by rewrite Hx. }
  destruct (H o.(o_lhs)) as [l Hl]; [by left|]. destruct (H o.(o_rhs)) as [r Hr]; [right; by left|].
  destruct (H o.(o_third)) as [t Ht]; [right; right; by left|]. by exists l, r, t.
Qed.

Lemma operand_known k o env v : ops !! k = Some o -> env_ok k env -> Some v ∈ operand_slots o ->
  exists x, env !! v = Some x /\ in_range 64 x.
Proof using Hclosed.
  intros Ho He Hv. apply (operand_defined block Hclosed k o v Ho), (e_domain k env He) in Hv as [x Hx].
  exists x. split; [done|]. by apply (e_range k env He v).
Qed.

Lemma env_next k o env : ops !! k = Some o -> o.(o_result) = None -> env_ok k env -> env_ok (S k) env.
Proof using Hpromotes block defs p.
  intros Ho Hr [E1 E2 E3]. split.
  - intros v. by rewrite (results_none block k o Ho Hr).
  - done.
  - intros i d v x Hi Hd Hv. apply (E3 i); [|done..]. destruct (decide (i = k)) as [->|]; [congruence|lia].
Qed.

(** A pure operation gives its value what is known of it. *)
Lemma pure_fact o env st l r x : pure_value o st l r = Some x -> read_operand env o.(o_lhs) = Some l ->
  read_operand env o.(o_rhs) = Some r -> (forall v, o.(o_result) = Some v -> o.(o_lhs) <> Some v /\ o.(o_rhs) <> Some v) ->
  forall v, o.(o_result) = Some v -> value_fact (<[v := x]> env) o x.
Proof using Type.
  intros Hx Hl Hr Hne v Hv. destruct (Hne v Hv) as [Nl Nr]. unfold pure_value in Hx. split_and!.
  - intros E. rewrite E in Hx. by injection Hx.
  - intros E. rewrite E in Hx. destruct (o_condition o); [|done]. injection Hx as <-. destruct (condition_holds _ _); auto.
  - unfold isZeroExtendedDefinition, width_is. intros [Ew%bool_decide_eq_true E]%andb_prop. rewrite Ew in Hx. cbn [value_width] in Hx.
    destruct (o_opcode o), l, r; try done; try (destruct (o_guestRegister o)); cbn in Hx; try done; injection Hx as <-; by apply wrap_range.
  - intros E a b xa xb Ha Hb Hxa Hxb. rewrite E in Hx. rewrite Ha in Hl, Nl. rewrite Hb in Hr, Nr. cbn in Hl, Hr.
    rewrite lookup_insert_ne in Hxa, Hxb by congruence. rewrite Hxa in Hl. rewrite Hxb in Hr. injection Hl as <-. injection Hr as <-.
    by injection Hx.
Qed.

Lemma env_define k o env st l r x v : ops !! k = Some o -> o.(o_result) = Some v -> env_ok k env ->
  read_operand env o.(o_lhs) = Some l -> read_operand env o.(o_rhs) = Some r -> pure_value o st l r = Some x ->
  env_ok (S k) (<[v := x]> env).
Proof using Hclosed Hpromotes block defs p.
  intros Ho Hv He Hl Hr Hx. pose proof He as [E1 E2 E3].
  assert (v ∉ results (take k ops)) as Hnew by (apply (new_result _ _ _ (follows_verified _ _ _ (op_follows block Hclosed k o Ho)) v Hv)).
  split.
  - intros w. rewrite (results_S block k o Ho), Hv, elem_of_app, list_elem_of_singleton, <- E1.
    destruct (decide (w = v)) as [->|Hne]; [rewrite lookup_insert_eq; split; [by right|by eexists]|].
    rewrite lookup_insert_ne by done. split; [by left|by intros [?|?]].
  - intros w y. destruct (decide (w = v)) as [->|Hne]; [|rewrite lookup_insert_ne by done; apply E2].
    rewrite lookup_insert_eq. intros [= <-]. by eapply pure_value_range.
  - intros i d w y Hi Hd Hw Hy. assert (forall f, f ∈ operand_slots d -> f <> Some v) as Hold.
    { intros f Hf ->. apply Hnew. apply (results_mono block i k); [lia|]. by apply (operand_defined block Hclosed i d). }
    destruct (decide (i = k)) as [->|].
    + rewrite Ho in Hd. injection Hd as <-. rewrite Hv in Hw. injection Hw as <-. rewrite lookup_insert_eq in Hy. injection Hy as <-.
      eapply (pure_fact o); try done. intros w Hw. rewrite Hv in Hw. injection Hw as <-.
      split; apply Hold; [by left|right; by left].
    + assert (w <> v) as Hne.
      { intros ->. apply Hnew, result_defined. exists i. split; [by exists d|lia]. }
      rewrite lookup_insert_ne in Hy by done. destruct (E3 i d w y ltac:(lia) Hd Hw Hy) as (F1 & F2 & F3 & F4).
      split_and!; try done. intros Eop a b xa xb Ha Hb Hxa Hxb. apply (F4 Eop a b); try done.
      * rewrite lookup_insert_ne in Hxa; [done|]. intros ->. by apply (Hold (Some a)); [rewrite <- Ha; left|].
      * rewrite lookup_insert_ne in Hxb; [done|]. intros ->. by apply (Hold (Some b)); [rewrite <- Hb; right; left|].
Qed.

(** The value of an operand and the operation that computed it. *)
Lemma operand_fact k o env v x : ops !! k = Some o -> env_ok k env -> Some v ∈ operand_slots o -> env !! v = Some x ->
  exists d, definingOperation p.(p_definitions) v = Some d /\ value_fact env d x.
Proof using Hclosed Hplan.
  intros Ho He Hv Hx. apply (operand_defined block Hclosed k o v Ho) in Hv as (i & (d & Hd & Hr) & Hi)%result_defined.
  exists d. split; [|by apply (e_facts k env He i d v)]. apply (pl_definitions _ _ Hplan).
  - apply (result_in_range block Hclosed i d v Hd Hr).
  - by exists i.
Qed.

(** ** The code of pure operations *)

Context (base : Z) (M0 : machine) (Hbase : 0 <= base) (Hend : base + state_size <= 2 ^ 64).
Local Abbreviation at_point k := (point base host M0 (live k) (exact k)).

Definition ready (m : machine) : Prop := reg_of m 0 = base /\ memory_ok m.

Lemma point_ready L e env st m : point base host M0 L e env st m -> ready m.
Proof using Type. intros [P1 _ _ _ _ _ _ P8]. by split. Qed.

Lemma drop_at k o : ops !! k = Some o -> drop k ops = o :: drop (S k) ops.
Proof using Type. apply drop_S. Qed.

Lemma exact_step k o : ops !! k = Some o -> replacesArithmeticFlags o.(o_opcode) = false ->
  exact k = true \/ exact k = exact (S k).
Proof using Type.
  intros Ho Hr. unfold exact. rewrite (drop_at k o Ho). cbn [isDeadFlagUpdate_loop]. rewrite Hr. cbn [andb].
  destruct (isPureBetweenFlagUpdates (o_opcode o)); cbn; auto.
Qed.

Lemma exact_reader k o : ops !! k = Some o -> replacesArithmeticFlags o.(o_opcode) = false ->
  isPureBetweenFlagUpdates o.(o_opcode) = false -> exact k = true.
Proof using Type.
  intros Ho Hr Hp. unfold exact. rewrite (drop_at k o Ho). cbn [isDeadFlagUpdate_loop]. by rewrite Hr, Hp.
Qed.

Lemma point_exact L k o env st m : ops !! k = Some o -> replacesArithmeticFlags o.(o_opcode) = false ->
  point base host M0 L (exact k) env st m -> point base host M0 L (exact (S k)) env st m.
Proof using Type.
  intros Ho Hr Hp. destruct (exact_step k o Ho Hr) as [E|E]; [|by rewrite <- E]. rewrite E in Hp. by apply point_inexact.
Qed.

Lemma define_post k o v x env st M m : ops !! k = Some o -> o.(o_result) = Some v -> replacesArithmeticFlags o.(o_opcode) = false ->
  in_range 64 x -> at_point k env st M -> undisturbed (set_x (host v) x M) m -> at_point (S k) (<[v := x]> env) st m.
Proof using Hclosed Hn Hplan Hpromotes M0 base block defs p pointer.
  intros Ho Hv Hr Hx HP U. eapply point_undisturbed; [apply live_allocated| |exact U].
  apply (point_define _ _ _ (live k)); [|by apply (defined_hosted v k); exists o|done|by eapply point_exact].
  intros w Hw. destruct (live_result k o v w Ho Hv Hw) as [?|(_ & ? & ?)]; [by left|by right].
Qed.

Lemma pure_triple O k o v x X env st c : ops !! k = Some o -> o.(o_result) = Some v -> replacesArithmeticFlags o.(o_opcode) = false ->
  in_range 64 x -> (forall M, ready M -> triple 5 O O [] c (eq M) (undisturbed (set_x (host v) (X M) M))) ->
  (forall M, at_point k env st M -> X M = x) -> triple 5 O O [] c (at_point k env st) (at_point (S k) (<[v := x]> env) st).
Proof using Hclosed Hn Hplan Hpromotes M0 base block defs p pointer.
  intros Ho Hv Hr Hx Hc HX. eapply (triple_each _ _ _ _ _ ready (fun M => undisturbed (set_x (host v) (X M) M)) _ _ (based base)); [apply based_ok|exact Hc|intros m; apply point_ready|].
  intros M m HP U. cbn beta in U. rewrite (HX M HP) in U. by eapply define_post.
Qed.

Lemma triple_word n O E c M m' : n <= 5 -> triple n O O E c (eq M) (eq m') -> triple 5 O O E c (eq M) (undisturbed m').
Proof using Type. intros Hle H. eapply triple_conseq; [exact Hle|intros m Hm; exact Hm| |exact H]. by intros m <-. Qed.

Lemma at_folded v : 0 <= v < n -> returns (at_value_in (foldedImmediate g) v) (folded v).
Proof using Hfolded Hpromotes block defs p pointer.
  intros Rv a. unfold at_value_in, lift, at_value, at_index, foldedImmediate, folded. cbn [g_plan].
  destruct (lookup_lt_is_Some_2 p.(p_foldedImmediate) (Z.to_nat v)) as [x Hx]; [destruct Hfolded; lia|].
  by rewrite Hx, (nth_lookup_Some _ _ _ _ Hx).
Qed.

Lemma read_host k o env st M v x : ops !! k = Some o -> isDeadFlagUpdate block k false = false -> Some v ∈ operand_slots o ->
  o.(o_lhs) = Some v \/ o.(o_third) = Some v \/ opcode_is Op_Add o || opcode_is Op_Sub o = false ->
  at_point k env st M -> env !! v = Some x -> rX M true (host v) = x.
Proof using Hclosed Hfolded Hn Hpromotes M0 base block defs p.
  intros Ho Hd Hv Hs HP Hx. apply (p_hosts _ _ _ _ _ _ _ _ HP); [by eapply operand_live|done].
Qed.

(** A folded constant. *)
Lemma folded_constant k o v : ops !! k = Some o -> Some v ∈ operand_slots o -> folded v = true ->
  exists d, definingOperation p.(p_definitions) v = Some d /\ d.(o_opcode) = Op_Constant /\ d.(o_immediate) <= 0xFFF.
Proof using Hclosed Hdefs Hfolded Hpromotes block defs p.
  intros Ho Hv E. pose proof (operand_range block Hclosed k o v Ho Hv) as Rv. destruct Hfolded as [F1 F2].
  destruct (F2 v Rv) as (i & oi & d & _ & _ & _ & Hd & Hc & Hi & _).
  { unfold folded in E. destruct (lookup_lt_is_Some_2 p.(p_foldedImmediate) (Z.to_nat v)) as [x Hx]; [lia|].
    rewrite (nth_lookup_Some _ _ _ _ Hx) in E. by rewrite Hx, E. }
  exists d. rewrite <- Hdefs. split_and!; [done| |done]. by apply bool_decide_eq_true in Hc.
Qed.

Context (Hnative : forall i o, ops !! i = Some o -> native_operation o = true \/ native_exit o = true).

Lemma not_dead k o : ops !! k = Some o -> replacesArithmeticFlags o.(o_opcode) = false -> isDeadFlagUpdate block k false = false.
Proof using Type. intros Ho Hr. unfold isDeadFlagUpdate. by rewrite Ho, Hr. Qed.

Lemma value_total o st x y : value_operation o = true -> present y = present o.(o_rhs) ->
  exists v, pure_value o st (Some x) y = Some v.
Proof using Type.
  unfold value_operation, pure_value. intros Hv Hy.
  destruct (o_opcode o), (o_lhs o), (o_rhs o), y; try done; by eexists.
Qed.

(** The operand code reads: a register, or a folded constant. *)
Definition operand_in (M : machine) (o : Operation) (v : ValueId) : Z :=
  if (opcode_is Op_Add o || opcode_is Op_Sub o) && folded v then
    match definingOperation p.(p_definitions) v with Some d => d.(o_immediate) | None => 0 end
  else rX M true (host v).

Lemma value_code O k o v l st M x : ops !! k = Some o -> o.(o_result) = Some v -> o.(o_lhs) = Some l ->
  value_operation o = true -> pure_value o st (Some (rX M true (host l))) (operand_in M o <$> o.(o_rhs)) = Some x ->
  triple 0 O O [] (emit_value g o) (eq M) (eq (set_x (host v) x M)).
Proof using Hclosed Hdefs Hfolded Hhelpers Hn Hnative Hplan Hpromotes block defs p pointer.
  intros Ho Hv Hl Hop Hx. destruct plain as (_ & _ & Hspan & _).
  assert (hosted g host v) as Rv by (apply (defined_hosted v k); by exists o).
  assert (hosted g host l) as Rl by (apply (operand_hosted k o l Ho); unfold operand_slots; rewrite Hl; by left).
  destruct (o_rhs o) as [r|] eqn:Hr; cbn [fmap option_fmap option_map] in Hx.
  - assert (Some r ∈ operand_slots o) as Sr by (unfold operand_slots; rewrite Hr; right; by left).
    pose proof (operand_hosted k o r Ho Sr) as Rr. pose proof (operand_range block Hclosed k o r Ho Sr) as Er. unfold operand_in in Hx.
    destruct (opcode_is Op_Add o || opcode_is Op_Sub o) eqn:Eop; [destruct (folded r) eqn:Ef|]; cbn [andb] in Hx.
    + destruct (folded_constant k o r Ho Sr Ef) as (d & Hd & Hc & Hi). rewrite Hd in Hx.
      apply (value_code_folded g host Hspan O [] M st o v l x Hv Hl Rv Rl r d); try done.
      * rewrite <- Ef. by apply at_folded.
      * split; [|done]. apply (pl_definitions _ _ Hplan) in Hd as (i & Hd & _); [|lia].
        destruct (Hnative i d Hd) as [Hd'|Hd'].
        -- unfold native_operation in Hd'. rewrite Hc in Hd'. unfold word_immediate in Hd'. destruct (present _); cbn in Hd'; [lia|done].
        -- unfold native_exit, opcode_is in Hd'. by rewrite Hc in Hd'.
    + apply (value_code_binary g host Hspan O [] M st o v l x Hv Hl Rv Rl Hop r); try done. intros _. rewrite <- Ef. by apply at_folded.
    + apply (value_code_binary g host Hspan O [] M st o v l x Hv Hl Rv Rl Hop r); try done. intros E. congruence.
  - by apply (value_code_unary g host O [] M st o v l x Hv Hl Rv Rl Hop).
Qed.

(** What the operands are worth, at the point before the operation. *)
Lemma operand_in_value k o env st M v x : ops !! k = Some o -> replacesArithmeticFlags o.(o_opcode) = false -> env_ok k env ->
  Some v ∈ operand_slots o -> at_point k env st M -> env !! v = Some x -> operand_in M o v = x.
Proof using Hclosed Hdefs Hfolded Hn Hnative Hplan Hpromotes M0 base block defs p.
  intros Ho Hr He Hv HP Hx. pose proof (not_dead k o Ho Hr) as Hd. unfold operand_in.
  destruct ((opcode_is Op_Add o || opcode_is Op_Sub o) && folded v) eqn:E.
  - apply andb_prop in E as [E Ef]. destruct (folded_constant k o v Ho Hv Ef) as (d & Hdef & Hc & Hi). rewrite Hdef.
    destruct (operand_fact k o env v x Ho He Hv Hx) as (d' & Hd' & F1 & _). rewrite Hdef in Hd'. injection Hd' as <-.
    rewrite (F1 Hc). symmetry. apply wrap_small.
    apply (pl_definitions _ _ Hplan) in Hdef as (i & Hi' & _); [|apply (operand_range block Hclosed k o v Ho Hv)].
    assert (0 <= o_immediate d) as H0.
    { destruct (Hnative i d Hi') as [Hd'|Hd']; [|unfold native_exit, opcode_is in Hd'; by rewrite Hc in Hd'].
      unfold native_operation in Hd'. rewrite Hc in Hd'. unfold word_immediate in Hd'. destruct (present _); cbn in Hd'; [lia|done]. }
    unfold in_range. destruct (o_width d); cbn [value_width]; lia.
  - apply (p_hosts _ _ _ _ _ _ _ _ HP); [|done]. apply andb_false_iff in E. destruct E as [E|Ef].
    + apply (operand_live k o v Ho Hd Hv). auto.
    + split; [|done]. pose proof (operand_defined block Hclosed k o v Ho Hv) as Hr'.
      split; [by apply result_defined in Hr' as (i & ? & ?); exists i|]. exists k. split; [|done].
      apply (used_required _ _ _ _ _ _ k). by eapply requires_operand.
Qed.

Lemma read_some env (v : ValueId) r : read_operand env (Some v) = Some r -> exists x, env !! v = Some x /\ r = Some x.
Proof using Type. unfold read_operand, ValueId in *. destruct (env !! v) as [x|]; [|done]. intros [= <-]. by exists x. Qed.

Lemma read_present env f r : read_operand env f = Some r -> present r = present f.
Proof using Type. destruct f as [v|]; [intros H; by apply read_some in H as (x & _ & ->)|by intros [= <-]]. Qed.

Lemma value_triple O k o v l env st : ops !! k = Some o -> o.(o_result) = Some v -> o.(o_lhs) = Some l ->
  value_operation o = true -> replacesArithmeticFlags o.(o_opcode) = false -> env_ok k env ->
  exists x y r, env !! l = Some x /\ read_operand env o.(o_rhs) = Some r /\ pure_value o st (Some x) r = Some y /\
  triple 5 O O [] (emit_value g o) (at_point k env st) (at_point (S k) (<[v := y]> env) st).
Proof using All.
  intros Ho Hv Hl Hop Hr He. assert (Some l ∈ operand_slots o) as Sl by (unfold operand_slots; rewrite Hl; by left).
  destruct (operand_known k o env l Ho He Sl) as (x & Hx & _).
  destruct (env_operands k o env Ho He) as (_ & r & _ & _ & Er & _).
  pose proof (read_present _ _ _ Er) as Hp.
  destruct (value_total o st x r Hop Hp) as (y & Hy). exists x, y, r. split_and!; try done.
  set (X := fun M => default 0 (pure_value o st (Some (rX M true (host l))) (operand_in M o <$> o.(o_rhs)))).
  apply (pure_triple O k o v y X); try done; [by eapply pure_value_range|..].
  - intros M HM. apply (triple_word 0); [lia|]. unfold X.
    destruct (value_total o st (rX M true (host l)) (operand_in M o <$> o.(o_rhs)) Hop) as (z & Hz); [by destruct (o_rhs o)|].
    rewrite Hz. by apply (value_code O k o v l st M z).
  - intros M HP. unfold X. assert (rX M true (host l) = x) as ->.
    { eapply (read_host k o env st M l x); try done; [by eapply not_dead|by left]. }
    assert (operand_in M o <$> o.(o_rhs) = r) as ->; [|by rewrite Hy].
    destruct (o_rhs o) as [w|] eqn:Ew; [|by injection Er as <-]. cbn [fmap option_fmap option_map].
    apply read_some in Er as (z & Hz & ->). f_equal.
    apply (operand_in_value k o env st M w z Ho Hr He); [|done|done]. unfold operand_slots. rewrite Ew. right. by left.
Qed.

Lemma constant_triple O k o v env st : ops !! k = Some o -> o.(o_opcode) = Op_Constant -> o.(o_result) = Some v ->
  word_immediate o.(o_immediate) = true ->
  triple 5 O O [] (emit_Constant g o) (at_point k env st) (at_point (S k) (<[v := wrap (value_width o.(o_width)) o.(o_immediate)]> env) st).
Proof using Hclosed Hfolded Hhelpers Hn Hplan Hpromotes M0 base block defs p pointer.
  intros Ho Hop Hv Hi. assert (replacesArithmeticFlags (o_opcode o) = false) as Hr by by rewrite Hop.
  pose proof (result_in_range block Hclosed k o v Ho Hv) as Rv. unfold word_immediate in Hi.
  destruct plain as (_ & _ & _ & _ & Hp & _). destruct (folded v) eqn:Ef.
  - apply (triple_same _ _ _ _ _ (ret tt)).
    { intros a. unfold emit_Constant. rewrite Hv. unfold deref, bind, ret. rewrite at_folded by done. by rewrite Ef. }
    eapply triple_conseq; [|intros m Hm; exact Hm| |apply triple_ret]; [lia|]. intros m HP.
    apply (point_exact _ k o); [done..|]. eapply point_unlive; [|exact HP]. intros w Hw. split; [intros ->; by destruct Hw; congruence|].
    destruct (live_result k o v w Ho Hv Hw) as [->|(_ & ? & _)]; [destruct Hw; congruence|done].
  - apply (pure_triple O k o v _ (fun _ => wrap (value_width o.(o_width)) o.(o_immediate))); try done.
    + apply (in_range_le (value_width (o_width o))); [apply wrap_range|]; apply value_width_bounds.
    + intros M [H0 _]. apply (triple_word 0); [lia|].
      apply (constant_code g host O [] M o v); try done; [apply (defined_hosted v k); by exists o| |unfold in_range; lia].
      rewrite <- Ef. by apply at_folded.
Qed.

Lemma read_triple O k o v r env st : ops !! k = Some o -> o.(o_opcode) = Op_ReadGuestReg -> o.(o_result) = Some v ->
  o.(o_guestRegister) = Some r ->
  triple 5 O O [] (emit_ReadGuestReg g o) (at_point k env st) (at_point (S k) (<[v := wrap (value_width o.(o_width)) (get_gpr r st)]> env) st).
Proof using Hclosed Hhelpers Hn Hplan Hpromotes M0 base block defs p pointer.
  intros Ho Hop Hv Hreg. assert (replacesArithmeticFlags (o_opcode o) = false) as Hr by by rewrite Hop.
  destruct plain as (_ & Hguest & _).
  apply (pure_triple O k o v _ (fun M => wrap (value_width o.(o_width)) (slot base (registerOffset r) M))); try done.
  - apply (in_range_le (value_width (o_width o))); [apply wrap_range|]; apply value_width_bounds.
  - intros M [H0 Hm]. apply (triple_word 0); [lia|].
    apply (read_code g base host Hguest O [] M o H0 v r); try done. apply (defined_hosted v k). by exists o.
  - intros M HP. f_equal. apply (p_state _ _ _ _ _ _ _ _ HP).
Qed.

Lemma gs_triple O k o v env st : ops !! k = Some o -> o.(o_opcode) = Op_ReadGuestGsBase -> o.(o_result) = Some v ->
  triple 5 O O [] (emit_ReadGuestGsBase g o) (at_point k env st) (at_point (S k) (<[v := wrap 64 (gsBase st)]> env) st).
Proof using Hclosed Hn Hplan Hpromotes M0 base block defs p pointer.
  intros Ho Hop Hv. assert (replacesArithmeticFlags (o_opcode o) = false) as Hr by by rewrite Hop.
  apply (pure_triple O k o v _ (fun M => slot base gsBaseOffset M)); try done.
  - by apply wrap_range.
  - intros M [H0 Hm]. apply (triple_word 0); [lia|].
    apply (gs_code g base host O [] M o H0 v); try done. apply (defined_hosted v k). by exists o.
  - intros M HP. apply (p_state _ _ _ _ _ _ _ _ HP).
Qed.

Lemma evaluate_triple O k o v c env st : ops !! k = Some o -> o.(o_opcode) = Op_EvaluateCondition -> o.(o_result) = Some v ->
  o.(o_condition) = Some c ->
  triple 5 O O [] (emit_EvaluateCondition g o k) (at_point k env st)
    (at_point (S k) (<[v := if condition_holds c (rflags st) then 1 else 0]> env) st).
Proof using Hclosed Hhelpers Hn Hplan Hpromotes M0 base block defs p pointer.
  intros Ho Hop Hv Hc. assert (replacesArithmeticFlags (o_opcode o) = false) as Hr by by rewrite Hop.
  destruct plain as (Hedge & _).
  apply (pure_triple O k o v _ (fun M => Z.b2z (condition_holds c (slot base rflagsOffset M)))); try done.
  - by destruct (condition_holds _ _).
  - intros M [H0 Hm]. eapply triple_conseq; [|intros m Hm'; exact Hm'| |apply (evaluate_code g base host Hedge O [] M o H0 v c k)];
      try done. apply (defined_hosted v k). by exists o.
  - intros M HP. pose proof (p_flags _ _ _ _ _ _ _ _ HP) as Hf. rewrite (exact_reader k o Ho) in Hf by by rewrite Hop.
    rewrite Hf. by destruct (condition_holds _ _).
Qed.

Lemma pure_code O k o v env st : ops !! k = Some o -> native_operation o = true -> is_pure o = true -> o.(o_result) = Some v ->
  env_ok k env -> exists l r x, read_operand env o.(o_lhs) = Some l /\ read_operand env o.(o_rhs) = Some r /\
  pure_value o st l r = Some x /\ triple 5 O O [] (emit_native g o k) (at_point k env st) (at_point (S k) (<[v := x]> env) st).
Proof using All.
  intros Ho Hnat Hp Hv He. destruct (env_operands k o env Ho He) as (l & r & _ & El & Er & _).
  unfold native_operation in Hnat. rewrite Hv in Hnat. cbn [present andb] in Hnat.
  assert (value_operation o = true -> emit_native g o k = emit_value g o -> exists l r x, read_operand env o.(o_lhs) = Some l /\
    read_operand env o.(o_rhs) = Some r /\ pure_value o st l r = Some x /\
    triple 5 O O [] (emit_native g o k) (at_point k env st) (at_point (S k) (<[v := x]> env) st)) as Hval.
  { intros Hop ->. assert (exists w, o_lhs o = Some w) as [w Hw].
    { unfold value_operation in Hop. destruct (o_lhs o) as [w|]; [by exists w|]. by destruct (o_opcode o). }
    destruct (value_triple O k o v w env st Ho Hv Hw Hop) as (x & y & r' & Hx & Hr' & Hy & Ht); [|done|].
    { unfold is_pure in Hp. by destruct (o_opcode o). }
    exists (Some x), r', y. split_and!; try done. unfold read_operand, ValueId in *. by rewrite Hw, Hx. }
  unfold emit_native, is_pure in *. destruct (o_opcode o) eqn:Hop; try done; try (by apply Hval); clear Hval;
    exists l, r; unfold pure_value; rewrite Hop.
  - eexists. split_and!; [done..|]. by apply constant_triple.
  - destruct (o_guestRegister o) as [reg|] eqn:Hreg; [|done]. eexists. split_and!; [done..|]. by apply read_triple.
  - eexists. split_and!; [done..|]. by apply gs_triple.
  - destruct (o_condition o) as [c|] eqn:Hc; [|done]. eexists. split_and!; [done..|]. by apply evaluate_triple.
Qed.

(** ** The code of writes *)

(** What the operation at [k] leaves of the registers known to be zero. *)
Lemma zero_before k o r : ops !! k = Some o -> zero_at block defs (S k) r ->
  zero_at block defs k r /\ ~ writes r o \/
  o.(o_opcode) = Op_WriteGuestReg /\ o.(o_guestRegister) = Some r /\ tracked_width o = true /\ exists l d, o.(o_lhs) = Some l /\
    definingOperation p.(p_definitions) l = Some d /\ d.(o_opcode) = Op_Constant /\ d.(o_immediate) = 0.
Proof using Hdefs Hpromotes block defs p.
  intros Ho (i & oi & l & d & Hi & H1 & H2 & H3 & H4 & H5 & H6 & H7 & H8 & H9). destruct (decide (i = k)) as [->|Hne].
  - right. rewrite Ho in H1. injection H1 as <-. rewrite Hdefs in H6. apply bool_decide_eq_true in H7. split_and!; try done. by exists l, d.
  - left. split; [|apply (H9 k o); [lia|done]]. exists i, oi, l, d. split_and!; try done; [lia|]. intros j o' Hj. apply H9. lia.
Qed.

Lemma known_next k o st : ops !! k = Some o -> o.(o_opcode) <> Op_WriteGuestReg -> o.(o_opcode) <> Op_ConditionalMoveGuestReg ->
  known_state k st -> known_state (S k) st.
Proof using Hdefs Hpromotes block defs p.
  intros Ho H1 H2 [K1 K2]. split; [done|]. intros r Hr. apply K2. by destruct (zero_before k o r Ho Hr) as [[? _]|(? & _)].
Qed.

Lemma known_set k o st r x : ops !! k = Some o -> writes r o -> known_state k st ->
  (zero_at block defs (S k) r -> x = 0) -> known_state (S k) (set_gpr r x st).
Proof using Hdefs Hpromotes block defs p.
  intros Ho Hw [K1 K2] Hx. split; [cbn; by rewrite length_insert|]. intros r' Hr'. destruct (decide (r = r')) as [<-|Hne].
  - rewrite get_set_gpr_eq by done. by apply Hx.
  - rewrite get_set_gpr_ne by done. apply K2. destruct (zero_before k o r' Ho Hr') as [[? _]|(_ & E & _)]; [done|].
    destruct Hw as [_ Hw]. congruence.
Qed.

Lemma stored_next k o env st M r x m : ops !! k = Some o -> o.(o_result) = None -> replacesArithmeticFlags o.(o_opcode) = false ->
  known_state k st -> at_point k env st M -> stored base (registerOffset r) x M m -> at_point (S k) env (set_gpr r x st) m.
Proof using Hclosed Hn Hplan Hpromotes M0 base block defs p pointer.
  intros Ho Hr Hf [K1 _] HP S. apply (point_exact _ k o _ _ _ Ho Hf). apply (point_live base host M0 (live k)); [intros v; by apply live_after with o|].
  eapply point_stored; [apply live_allocated|done|exact HP|exact S].
Qed.

Lemma at_promotes k : (k < length ops)%nat -> exists b, p.(p_promotesNarrowGuestWrite) !! k = Some b /\
  returns (at_index_in (promotesNarrowGuestWrite g) k) b.
Proof using Hpromotes.
  intros Hk. destruct Hpromotes as [H1 _]. destruct (lookup_lt_is_Some_2 p.(p_promotesNarrowGuestWrite) k) as [b Hb]; [lia|].
  exists b. split; [done|]. intros a. unfold at_index_in, lift, at_index, promotesNarrowGuestWrite. cbn [g_plan]. by rewrite Hb.
Qed.

(** The code writes what the operation means, widened or not. *)
Lemma write_value_written k o env st l r x b : ops !! k = Some o -> o.(o_opcode) = Op_WriteGuestReg ->
  o.(o_guestRegister) = Some r -> o.(o_lhs) = Some l -> env_ok k env -> known_state k st -> env !! l = Some x ->
  p.(p_promotesNarrowGuestWrite) !! k = Some b ->
  write_value b (isZeroExtendedDefinition (defining g l)) o.(o_width) (get_gpr r st) x = written o.(o_width) (get_gpr r st) x.
Proof using Hclosed Hplan Hpromotes Hdefs.
  intros Ho Hop Hr Hl He [_ Hz] Hx Hb. assert (Some l ∈ operand_slots o) as Sl by (unfold operand_slots; rewrite Hl; by left).
  destruct (operand_fact k o env l x Ho He Sl Hx) as (d & Hd & _ & F2 & F3 & _). unfold defining. cbn [g_plan]. rewrite Hd.
  unfold write_value, written. destruct b.
  - destruct Hpromotes as [_ H]. destruct (H k Hb) as (o' & r' & l' & d' & Ho' & _ & Hw & Hr' & Hl' & Hd' & Hc & Hzero).
    rewrite Ho in Ho'. injection Ho' as <-. rewrite Hr in Hr'. injection Hr' as <-. rewrite Hl in Hl'. injection Hl' as <-.
    rewrite Hdefs, Hd in Hd'. injection Hd' as <-. apply bool_decide_eq_true in Hc, Hw. rewrite Hw, (Hz r Hzero).
    by destruct (F2 Hc) as [-> | ->].
  - destruct (o_width o); try done. destruct (isZeroExtendedDefinition (Some d)); [|done]. symmetry. by apply wrap_small, F3.
Qed.

Lemma write_triple O k o env st l r x : ops !! k = Some o -> o.(o_opcode) = Op_WriteGuestReg -> o.(o_result) = None ->
  o.(o_guestRegister) = Some r -> o.(o_lhs) = Some l -> env_ok k env -> known_state k st -> env !! l = Some x ->
  let st' := set_gpr r (written o.(o_width) (get_gpr r st) x) st in
  known_state (S k) st' /\ triple 5 O O [] (emit_WriteGuestReg g o k) (at_point k env st) (at_point (S k) env st').
Proof using All.
  intros Ho Hop Hres Hr Hl He Hk Hx st'. assert (replacesArithmeticFlags (o_opcode o) = false) as Hf by by rewrite Hop.
  assert (Some l ∈ operand_slots o) as Sl by (unfold operand_slots; rewrite Hl; by left).
  pose proof (not_dead k o Ho Hf) as Hd. destruct plain as (_ & Hguest & _). split.
  - apply (known_set k o st r _ Ho); [split; auto|done|]. intros Hz. destruct (zero_before k o r Ho Hz) as [[_ Hw]|(_ & _ & Hw & l' & d & Hl' & Hd' & Hc & Hi)].
    { destruct Hw. split; auto. }
    rewrite Hl in Hl'. injection Hl' as <-. destruct (operand_fact k o env l x Ho He Sl Hx) as (d' & Hd2 & F1 & _).
    rewrite Hd' in Hd2. injection Hd2 as <-. specialize (F1 Hc). rewrite Hi in F1.
    assert (x = 0) as -> by (rewrite F1; by destruct (o_width d)).
    unfold tracked_width, width_is in Hw. by destruct (o_width o).
  - destruct (at_promotes k) as (b & Hb & Rb); [by eapply lookup_lt_Some|].
    eapply (triple_each _ _ _ _ _ ready (fun M => stored base (registerOffset r)
      (write_value b (isZeroExtendedDefinition (defining g l)) o.(o_width) (slot base (registerOffset r) M) (rX M true (host l))) M)
      _ _ (based base)); [apply based_ok| |intros m; apply point_ready|].
    + intros M [H0 _]. eapply triple_conseq; [|intros m Hm; exact Hm| |
        apply (write_code g base host Hbase Hend Hguest O [] M o H0 r l k b Hr Hl)]; [lia|done| |done].
      by apply (operand_hosted k o).
    + intros M m HP S. apply (stored_next k o env st M r _ m Ho Hres Hf Hk HP).
      rewrite (im_gpr _ _ _ (p_state _ _ _ _ _ _ _ _ HP)) in S.
      rewrite (read_host k o env st M l x Ho Hd Sl) in S by auto. by rewrite (write_value_written k o env st l r x b) in S by done.
Qed.

Lemma move_triple O k o env st r c t : ops !! k = Some o -> o.(o_opcode) = Op_ConditionalMoveGuestReg -> o.(o_result) = None ->
  o.(o_guestRegister) = Some r -> o.(o_condition) = Some c -> tracked_width o = true -> env_ok k env -> known_state k st ->
  read_operand env o.(o_lhs) = Some t ->
  let source := default (get_gpr (register_of o.(o_immediate)) st) t in
  let st' := set_gpr r (wrap (value_width o.(o_width)) (if condition_holds c st.(rflags) then source else get_gpr r st)) st in
  known_state (S k) st' /\ triple 5 O O [] (emit_ConditionalMoveGuestReg g o k) (at_point k env st) (at_point (S k) env st').
Proof using All.
  intros Ho Hop Hres Hr Hc Hw He Hk Ht source st'. assert (replacesArithmeticFlags (o_opcode o) = false) as Hf by by rewrite Hop.
  pose proof (not_dead k o Ho Hf) as Hd. destruct plain as (Hedge & Hguest & _). split.
  - apply (known_set k o st r _ Ho); [split; auto|done|]. intros Hz.
    destruct (zero_before k o r Ho Hz) as [[_ Hw']|(Hop' & _)]; [|congruence]. destruct Hw'. split; auto.
  - eapply (triple_each _ _ _ _ _ ready (fun M => stored base (registerOffset r) (wrap (value_width o.(o_width))
      (if condition_holds c (slot base rflagsOffset M) then moved_value base host M o o.(o_lhs) else slot base (registerOffset r) M)) M)
      _ _ (based base)); [apply based_ok| |intros m; apply point_ready|].
    + intros M [H0 _]. eapply triple_conseq; [|intros m Hm; exact Hm| |
        apply (move_code g base host Hbase Hend Hedge Hguest O [] M o H0 r c k Hr Hc)]; [lia|done| |].
      * apply orb_prop in Hw as [Hw|Hw]; apply bool_decide_eq_true in Hw; auto.
      * intros l Hl. apply (operand_hosted k o l Ho). unfold operand_slots. rewrite Hl. by left.
    + intros M m HP S. apply (stored_next k o env st M r _ m Ho Hres Hf Hk HP).
      pose proof (p_flags _ _ _ _ _ _ _ _ HP) as Hfl. rewrite (exact_reader k o Ho Hf) in Hfl by by rewrite Hop.
      rewrite Hfl, (im_gpr _ _ _ (p_state _ _ _ _ _ _ _ _ HP)) in S.
      assert (moved_value base host M o o.(o_lhs) = source) as E; [|by rewrite E in S].
      unfold moved_value, source. destruct (o_lhs o) as [l|] eqn:Hl.
      * apply read_some in Ht as (x & Hx & ->). cbn [default]. apply (read_host k o env st M l x Ho Hd); [|auto|done|done].
        unfold operand_slots. rewrite Hl. by left.
      * injection Ht as <-. apply (p_state _ _ _ _ _ _ _ _ HP).
Qed.

(** ** The code of flag updates *)

Lemma set_if_other c F V : F ∈ [flagCarry; flagParity; flagAuxiliaryCarry; flagZero; flagSign; flagOverflow] ->
  other_flags (set_if c F V) = other_flags V.
Proof using Type.
  intros HF. destruct c; [|done]. cbn [set_if]. unfold other_flags. rewrite Z.land_lor_distr_l.
  assert (Z.land F (not64 (Z.lor arithmeticFlagMask flagReservedOne)) = 0) as ->; [|apply Z.lor_0_r].
  rewrite !elem_of_cons in HF. destruct HF as [-> |[-> |[-> |[-> |[-> |[-> |HF%elem_of_nil]]]]]]; [reflexivity..|done].
Qed.

Lemma chain_keeps old w res cf af ov : other_flags (flag_chain old w res cf af ov) = other_flags old.
Proof using Hpromotes block defs p.
  unfold flag_chain. rewrite !set_if_other by (rewrite !elem_of_cons; auto 10).
  unfold other_flags. apply Z.bits_inj'. intros i Hi. rewrite !Z.land_spec, Z.lor_spec, Z.land_spec.
  unfold not64, u64. rewrite !wrap_testbit, !Z.lnot_spec, Z.lor_spec by lia.
  destruct (Z.testbit old i), (Z.testbit arithmeticFlagMask i), (Z.testbit flagReservedOne i), (i <? 64); done.
Qed.

(** A new value of RFLAGS that keeps the other flags. *)
Definition updates (st : X86State) (f : X86State) : Prop :=
  f = set_rflags f.(rflags) st /\ in_range 64 f.(rflags) /\ other_flags f.(rflags) = other_flags st.(rflags).

Lemma update_keeps f st : (exists V, in_range 64 V /\ f = set_rflags V st) ->
  (exists w res cf af ov, f.(rflags) = flag_chain st.(rflags) w res cf af ov) -> updates st f.
Proof using Hpromotes block defs p.
  intros (V & HV & ->) (w & res & cf & af & ov & E). split_and!; [done|done|]. rewrite E. apply chain_keeps.
Qed.

(** The operands of an update, and the value it gives the flags. *)
Lemma sums_to k o env x y z l r t : ops !! k = Some o -> sums_up ops o = true -> o.(o_opcode) = Op_UpdateAddFlags ->
  o.(o_width) <> I64 -> o.(o_lhs) = Some l -> o.(o_rhs) = Some r -> o.(o_third) = Some t -> env_ok k env ->
  env !! l = Some x -> env !! r = Some y -> env !! t = Some z ->
  wrap (bits o.(o_width)) z = wrap (bits o.(o_width)) (x + y).
Proof using Hclosed Hpromotes block defs p.
  intros Ho Hs Hop Hw Hl Hr Ht He Hx Hy Hz. unfold sums_up, opcode_is, width_is in Hs. rewrite Hop, !bool_decide_true in Hs by done.
  rewrite bool_decide_false in Hs by done. cbn [negb orb] in Hs.
  apply existsb_exists in Hs as (d & Hin & Hd). apply list_elem_of_In, list_elem_of_lookup in Hin as [i Hi].
  rewrite !andb_true_iff, !bool_decide_eq_true in Hd. destruct Hd as ((((Hd & Hdt) & Hdl) & Hdr) & Hdw).
  assert (t ∈ results (take k ops)) as (j & (d' & Hd' & Hr') & Hj)%result_defined.
  { apply (e_domain k env He). by eexists. }
  assert (i = j) as -> by (apply (defined_once block Hclosed t); [exists d; split; [done|congruence]|by exists d']).
  rewrite Hi in Hd'. injection Hd' as <-. destruct (e_facts k env He j d t z Hj Hi Hr' Hz) as (_ & _ & _ & F).
  rewrite (F Hd l r x y) by congruence. apply wrap_weaken. rewrite Hdw. destruct (o_width o); cbn; lia.
Qed.

Lemma flagged_next k o env st f M m : ops !! k = Some o -> o.(o_result) = None -> updates st f -> at_point k env st M ->
  (forall st', other_flags (flags_slot M) = other_flags st'.(rflags) -> st'.(rflags) = st.(rflags) -> flagged M f.(rflags) m) ->
  at_point (S k) env f m.
Proof using Hbase Hclosed Hend Hn Hplan Hpromotes M0 base block defs p pointer.
  intros Ho Hr (Ef & HV & _) HP Hf. rewrite Ef. apply (point_live base host M0 (live k)); [intros v; by apply live_after with o|].
  apply point_inexact. eapply point_flagged; [done|done|apply live_allocated|done|exact HP|]. apply (Hf st); [|done].
  unfold flags_slot. destruct HP as [P1 _ P3 _ _ _ _ _]. rewrite P1. unfold slot in P3. destruct (exact k); [by rewrite P3|done].
Qed.

(** The operands of an update are in registers. *)
Lemma update_operand k o env st M v x : ops !! k = Some o -> isDeadFlagUpdate block k false = false ->
  replacesArithmeticFlags o.(o_opcode) = true -> Some v ∈ operand_slots o -> at_point k env st M -> env !! v = Some x ->
  rX M true (host v) = x.
Proof using Hclosed Hfolded Hn Hpromotes M0 base block defs p.
  intros Ho Hd Hf Hv HP Hx. apply (read_host k o env st M v x Ho Hd Hv); [|done|done]. right; right.
  unfold opcode_is. by destruct (o_opcode o).
Qed.

Lemma logic_triple O k o env st l x : ops !! k = Some o -> o.(o_opcode) = Op_UpdateLogicFlags -> o.(o_result) = None ->
  o.(o_lhs) = Some l -> env !! l = Some x -> env_ok k env -> updates st (logic_flags o.(o_width) st x) /\
  (isDeadFlagUpdate block k false = false ->
   triple 5 O O [] (emit_UpdateLogicFlags g o) (at_point k env st) (at_point (S k) env (logic_flags o.(o_width) st x))).
Proof using All.
  intros Ho Hop Hres Hl Hx He. assert (replacesArithmeticFlags (o_opcode o) = true) as Hf by by rewrite Hop.
  assert (Some l ∈ operand_slots o) as Sl by (unfold operand_slots; rewrite Hl; by left).
  assert (updates st (logic_flags o.(o_width) st x)) as Hu.
  { destruct (flag_updates o.(o_width) st x 0 0) as (_ & _ & V & E & HV). apply update_keeps; [by exists V|].
    do 5 eexists. apply logic_chain. intros _. by apply (e_range k env He l). }
  split; [done|]. intros Hd.
  eapply (triple_each _ _ _ _ _ ready (fun M m => forall st', other_flags (flags_slot M) = other_flags st'.(rflags) ->
    flagged M (rflags (logic_flags o.(o_width) st' (rX M true (host l)))) m) _ _ (based base));
    [apply based_ok| |intros m; apply point_ready|].
  - intros M _. eapply triple_conseq; [|intros m Hm; exact Hm|intros m Hm; exact Hm|apply (logic_code g host O [] M o l Hl)]; [lia|].
    by apply (operand_hosted k o).
  - intros M m HP H. eapply (flagged_next k o env st _ M m Ho Hres Hu HP). intros st' Hst Est.
    rewrite <- (update_operand k o env st M l x Ho Hd Hf Sl HP Hx). apply H. by rewrite Hst, Est.
Qed.

Section Three.
Context (O : list Z) (k : nat) (o : Operation) (env : gmap Z Z) (st : X86State) (l r t : ValueId) (x y z : Z).
Context (Ho : ops !! k = Some o) (Hres : o.(o_result) = None) (Hf : replacesArithmeticFlags o.(o_opcode) = true) (He : env_ok k env).
Context (Hl : o.(o_lhs) = Some l) (Hr : o.(o_rhs) = Some r) (Ht : o.(o_third) = Some t).
Context (Hx : env !! l = Some x) (Hy : env !! r = Some y) (Hz : env !! t = Some z).

Lemma three_slots : Some l ∈ operand_slots o /\ Some r ∈ operand_slots o /\ Some t ∈ operand_slots o.
Proof using Hl Hr Ht. unfold operand_slots. rewrite Hl, Hr, Ht. split_and!; [by left|right; by left|right; right; by left]. Qed.

Lemma three_ranges : in_range 64 x /\ in_range 64 y /\ in_range 64 z.
Proof using He Hx Hy Hz. split_and!; by eapply (e_range k env He). Qed.

Lemma three_triple (Pre0 : machine -> Prop) (f : X86State -> Z -> Z -> Z -> X86State) : Pre0 (based base) ->
  (forall M, at_point k env st M -> Pre0 M) -> updates st (f st x y z) ->
  (forall M, Pre0 M -> triple 5 O O [] (emit_UpdateAddFlags g o) (eq M) (fun m => forall st', other_flags (flags_slot M) = other_flags st'.(rflags) ->
     flagged M (rflags (f st' (rX M true (host l)) (rX M true (host r)) (rX M true (host t)))) m)) ->
  isDeadFlagUpdate block k false = false ->
  triple 5 O O [] (emit_UpdateAddFlags g o) (at_point k env st) (at_point (S k) env (f st x y z)).
Proof using All.
  intros HB HP0 Hu Hc Hd. destruct three_slots as (Sl & Sr & St).
  eapply (triple_each _ _ _ _ _ Pre0 _ _ _ (based base)); [done|exact Hc|done|].
  intros M m HP H. eapply (flagged_next k o env st _ M m Ho Hres Hu HP). intros st' Hst Est. cbn beta in H.
  rewrite (update_operand k o env st M l x Ho Hd Hf Sl HP Hx), (update_operand k o env st M r y Ho Hd Hf Sr HP Hy),
    (update_operand k o env st M t z Ho Hd Hf St HP Hz) in H. apply H. by rewrite Hst, Est.
Qed.

Lemma based_zero v : hosted g host v -> rX (based base) true (host v) = 0.
Proof using Hpromotes base block defs p pointer.
  intros [_ Hv]. unfold allocated_register in Hv. unfold rX, reg_of, based. cbn [mx].
  rewrite lookup_singleton_ne by lia. cbn. by destruct (host v =? 31).
Qed.

Lemma add_triple : o.(o_opcode) = Op_UpdateAddFlags -> sums_up ops o = true ->
  updates st (add_flags o.(o_width) st x y z) /\ (isDeadFlagUpdate block k false = false ->
   triple 5 O O [] (emit_UpdateAddFlags g o) (at_point k env st) (at_point (S k) env (add_flags o.(o_width) st x y z))).
Proof using All.
  intros Hop Hs. destruct three_slots as (Sl & Sr & St). destruct three_ranges as (Rx & Ry & Rz).
  assert (o.(o_width) = I64 \/ o.(o_width) <> I64 /\ wrap (bits o.(o_width)) z = wrap (bits o.(o_width)) (x + y)) as Hsum.
  { destruct (decide (o.(o_width) = I64)); [by left|right]. split; [done|]. by eapply sums_to. }
  assert (updates st (add_flags o.(o_width) st x y z)) as Hu.
  { destruct (flag_updates o.(o_width) st x y z) as ((V & E & HV) & _). apply update_keeps; [by exists V|].
    do 5 eexists. apply add_chain. destruct Hsum as [?|?]; auto. }
  split; [done|]. intros Hd. set (read M v := rX M true (host v)).
  apply (three_triple (fun M => o.(o_width) = I64 \/ wrap (bits o.(o_width)) (read M t) = wrap (bits o.(o_width)) (read M l + read M r))).
  - right. unfold read. by rewrite !based_zero by by apply (operand_hosted k o).
  - intros M HP. unfold read. rewrite (update_operand k o env st M l x Ho Hd Hf Sl HP Hx),
      (update_operand k o env st M r y Ho Hd Hf Sr HP Hy), (update_operand k o env st M t z Ho Hd Hf St HP Hz).
    destruct Hsum as [?|[_ ?]]; auto.
  - done.
  - intros M HM. apply (add_code g host O [] M o l r t); try done; split; try done; by apply (operand_hosted k o).
  - done.
Qed.

Lemma sub_triple : o.(o_opcode) = Op_UpdateSubFlags -> o.(o_width) = I8 \/ o.(o_width) = I64 ->
  updates st (sub_flags o.(o_width) st x y z) /\ (isDeadFlagUpdate block k false = false ->
   triple 5 O O [] (emit_UpdateAddFlags g o) (at_point k env st) (at_point (S k) env (sub_flags o.(o_width) st x y z))).
Proof using All.
  intros Hop Hw. destruct three_slots as (Sl & Sr & St). destruct three_ranges as (Rx & Ry & Rz).
  assert (updates st (sub_flags o.(o_width) st x y z)) as Hu.
  { destruct (flag_updates o.(o_width) st x y z) as (_ & (V & E & HV) & _). apply update_keeps; [by exists V|].
    do 5 eexists. apply sub_chain. destruct Hw as [?|?]; auto. }
  split; [done|]. apply (three_triple (fun _ => True)); try done.
  intros M HM. apply (sub_code g host O [] M o l r t); try done; split; try done; by apply (operand_hosted k o).
Qed.
End Three.

(** ** An operation *)

(** A skipped update: the flags in memory are not those of the state any more. *)
Lemma point_dead k o env st f m : ops !! k = Some o -> o.(o_result) = None -> isDeadFlagUpdate block k false = true ->
  updates st f -> at_point k env st m -> at_point (S k) env f m.
Proof using Hpromotes M0 base block defs p.
  intros Ho Hr Hd (Ef & _ & Hother) HP. assert (exact k = false /\ exact (S k) = false) as [E1 E2].
  { unfold isDeadFlagUpdate in Hd. rewrite Ho in Hd. destruct (replacesArithmeticFlags (o_opcode o)) eqn:E; [|done]. cbn in Hd.
    unfold exact. rewrite (drop_at k o Ho). cbn [isDeadFlagUpdate_loop]. by rewrite E, Hd. }
  rewrite E2. rewrite E1 in HP. rewrite Ef. apply (point_live base host M0 (live k)); [intros v; by apply live_after with o|].
  destruct HP as [P1 P2 P3 P4 P5 P6 P7 P8]. split; try done.
  - destruct P2 as [G1 G2]. by split.
  - cbn [rflags set_rflags]. by rewrite P3.
Qed.

Lemma known_flags k o st f : ops !! k = Some o -> replacesArithmeticFlags o.(o_opcode) = true -> updates st f ->
  known_state k st -> known_state (S k) f.
Proof using Hdefs Hpromotes block defs p.
  intros Ho Hf (-> & _ & _) Hk. apply (known_next k o) in Hk; [|done|by destruct (o_opcode o)..].
  destruct Hk as [K1 K2]. by split.
Qed.

(** What is shown of the operation at [k]. *)
Definition simulated (O : list Z) (k : nat) (o : Operation) (env : gmap Z Z) (st : X86State) : Prop := exists env' st',
  (forall c, step exits o env (c, st) = Next env' (c, st')) /\ env_ok (S k) env' /\ known_state (S k) st' /\
  if isDeadFlagUpdate block k false then forall m, at_point k env st m -> at_point (S k) env' st' m
  else triple 5 O O [] (emit_native g o k) (at_point k env st) (at_point (S k) env' st').

Lemma update_simulated O k o env st l r t f : ops !! k = Some o -> o.(o_result) = None -> replacesArithmeticFlags o.(o_opcode) = true ->
  env_ok k env -> known_state k st ->
  read_operand env o.(o_lhs) = Some l -> read_operand env o.(o_rhs) = Some r -> read_operand env o.(o_third) = Some t ->
  (forall c, effect exits o l r t (c, st) = ((c, f), Ok None)) -> updates st f /\ (isDeadFlagUpdate block k false = false ->
   triple 5 O O [] (emit_native g o k) (at_point k env st) (at_point (S k) env f)) -> simulated O k o env st.
Proof using Hdefs Hpromotes M0 base block defs p pointer.
  intros Ho Hr Hf He Hk El Er Et Heff [Hu Hc]. exists env, f. split_and!.
  - intros c. unfold step. by rewrite El, Er, Et, Heff, Hr.
  - by eapply env_next.
  - by eapply known_flags.
  - destruct (isDeadFlagUpdate block k false) eqn:Hd; [|by apply Hc]. intros m. by apply (point_dead k o).
Qed.

Lemma native_simulated O k o env st : ops !! k = Some o -> native_operation o = true -> sums_up ops o = true ->
  env_ok k env -> known_state k st -> simulated O k o env st.
Proof using All.
  intros Ho Hnat Hs He Hk. destruct (is_pure o) eqn:Hp.
  - assert (exists v, o.(o_result) = Some v) as [v Hv].
    { unfold native_operation, is_pure in *. destruct (o_result o) as [v|]; [by exists v|]. by destruct (o_opcode o). }
    assert (replacesArithmeticFlags (o_opcode o) = false) as Hf by (unfold is_pure in Hp; by destruct (o_opcode o)).
    destruct (pure_code O k o v env st Ho Hnat Hp Hv He) as (l & r & x & El & Er & Hx & Ht).
    destruct (env_operands k o env Ho He) as (_ & _ & t & _ & _ & Et).
    exists (<[v := x]> env), st. split_and!.
    + intros c. unfold step, effect. cbn [snd]. by rewrite El, Er, Et, Hp, Hx, Hv.
    + by eapply env_define.
    + apply (known_next k o); try done; unfold is_pure in Hp; by destruct (o_opcode o).
    + by rewrite (not_dead k o Ho Hf).
  - destruct (env_operands k o env Ho He) as (l & r & t & El & Er & Et).
    pose proof (read_present _ _ _ El) as Pl. pose proof (read_present _ _ _ Er) as Pr. pose proof (read_present _ _ _ Et) as Pt.
    unfold native_operation in Hnat. destruct (o_opcode o) eqn:Hop; unfold is_pure in Hp; rewrite Hop in Hp; try done;
      try (unfold value_operation in Hnat; rewrite Hop, andb_false_r in Hnat; done).
    all: rewrite !andb_true_iff in Hnat; destruct (o_result o) eqn:Hres; [exfalso; cbn in Hnat; intuition discriminate|].
    + destruct (o_guestRegister o) as [reg|] eqn:Hreg; [|exfalso; cbn in Hnat; intuition discriminate]. destruct (o_lhs o) as [vl|] eqn:Hl; [|exfalso; cbn in Hnat; intuition discriminate].
      apply read_some in El as (x & Hx & ->). destruct (write_triple O k o env st vl reg x) as [Hk' Ht]; try done.
      exists env, (set_gpr reg (written (o_width o) (get_gpr reg st) x) st). split_and!; try done.
      * intros c. unfold step, effect, is_pure. rewrite Hop, Hreg, Hl, Hres, Er, Et. unfold read_operand, ValueId in *. by rewrite Hx.
      * by eapply env_next.
      * rewrite (not_dead k o Ho) by by rewrite Hop. unfold emit_native. by rewrite Hop.
    + destruct (o_guestRegister o) as [reg|] eqn:Hreg; [|exfalso; cbn in Hnat; intuition discriminate]. destruct (o_condition o) as [cond|] eqn:Hc; [|exfalso; cbn in Hnat; intuition discriminate].
      destruct (move_triple O k o env st reg cond l) as [Hk' Ht]; try tauto. eexists env, _. split_and!; [|by eapply env_next|exact Hk'|].
      * intros c. unfold step, effect, is_pure. by rewrite Hop, Hreg, Hc, Hres, El, Er, Et.
      * rewrite (not_dead k o Ho) by by rewrite Hop. unfold emit_native. by rewrite Hop.
    + destruct (o_lhs o) as [vl|] eqn:Hl; [|exfalso; cbn in Hnat; intuition discriminate]. destruct (o_rhs o) as [vr|] eqn:Hr; [|exfalso; cbn in Hnat; intuition discriminate]. destruct (o_third o) as [vt|] eqn:Hv; [|exfalso; cbn in Hnat; intuition discriminate].
      apply read_some in El as (x & Hx & ->), Er as (y & Hy & ->), Et as (z & Hz & ->).
      apply (update_simulated O k o env st (Some x) (Some y) (Some z) (add_flags (o_width o) st x y z)); try done;
        rewrite ?Hop, ?Hl, ?Hr, ?Hv; try done; try (by unfold read_operand, ValueId in *; rewrite ?Hx, ?Hy, ?Hz);
        [intros c; unfold effect, is_pure; by rewrite Hop|].
      unfold emit_native. rewrite Hop. apply (add_triple O k o env st vl vr vt x y z); (done || by rewrite Hop).
    + destruct (o_lhs o) as [vl|] eqn:Hl; [|exfalso; cbn in Hnat; intuition discriminate]. destruct (o_rhs o) as [vr|] eqn:Hr; [|exfalso; cbn in Hnat; intuition discriminate]. destruct (o_third o) as [vt|] eqn:Hv; [|exfalso; cbn in Hnat; intuition discriminate].
      apply read_some in El as (x & Hx & ->), Er as (y & Hy & ->), Et as (z & Hz & ->).
      apply (update_simulated O k o env st (Some x) (Some y) (Some z) (sub_flags (o_width o) st x y z)); try done;
        rewrite ?Hop, ?Hl, ?Hr, ?Hv; try done; try (by unfold read_operand, ValueId in *; rewrite ?Hx, ?Hy, ?Hz);
        [intros c; unfold effect, is_pure; by rewrite Hop|].
      unfold emit_native. rewrite Hop. apply (sub_triple O k o env st vl vr vt x y z); try (done || by rewrite Hop).
      destruct Hnat as [_ Hw%orb_prop]. destruct Hw as [Hw|Hw]; apply bool_decide_eq_true in Hw; auto.
    + destruct (o_lhs o) as [vl|] eqn:Hl; [|exfalso; cbn in Hnat; intuition discriminate]. apply read_some in El as (x & Hx & ->).
      apply (update_simulated O k o env st (Some x) r t (logic_flags (o_width o) st x)); try done; rewrite ?Hop, ?Hl; try done;
        try (by unfold read_operand, ValueId in *; rewrite ?Hx); [intros c; unfold effect, is_pure; by rewrite Hop|].
      unfold emit_native. rewrite Hop. by apply (logic_triple O k o env st vl x).
Qed.

(** ** The exit *)

Lemma selected_finished k env st M rip m1 m code : exact k = true -> at_point k env st M -> in_range 64 rip ->
  selected M rip m1 -> stored base ripOffset rip m1 m -> finished base M0 (set_rip rip st) code (set_x 0 code m).
Proof using Hclosed Hn Hplan Hpromotes M0 base block defs p pointer.
  intros Ek HP Hr [U _] S. rewrite Ek in HP. eapply point_exit; [|done|exact S].
  eapply point_undisturbed; [apply live_allocated|exact HP|exact U].
Qed.

(** The code that selects the address, from each machine at the point. *)
Lemma exit_jump k o env st rip : exact k = true ->
  (forall M, ready M -> exists r, exit_rip base host M o = Some r /\ in_range 64 r /\
    ends 3 [] [] (emit_ExitBlock g o None None) (eq M)
      (fun m => exists m1 m', selected M r m1 /\ stored base ripOffset r m1 m' /\ m = set_x 0 (exit_code o) m')) ->
  (forall M, at_point k env st M -> exit_rip base host M o = Some rip) ->
  ends 3 [] [] (emit_ExitBlock g o None None) (at_point k env st) (finished base M0 (set_rip rip st) (exit_code o)).
Proof using Hclosed Hn Hplan Hpromotes M0 base block defs p pointer.
  intros Ek Hc Hrip. eapply (ends_each _ _ _ _ ready (fun M m => exists r m1 m', exit_rip base host M o = Some r /\ in_range 64 r /\
    selected M r m1 /\ stored base ripOffset r m1 m' /\ m = set_x 0 (exit_code o) m') _ _ (based base));
    [apply based_ok| |intros m; apply point_ready|].
  - intros M HM. destruct (Hc M HM) as (r & Hr & Rr & H). eapply ends_conseq; [|intros m Hm; exact Hm| |exact H]; [lia|].
    intros m (m1 & m' & S & S' & ->). by exists r, m1, m'.
  - intros M m HP (r & m1 & m' & Hr & Rr & S & S' & ->). rewrite (Hrip M HP) in Hr. injection Hr as <-.
    by eapply selected_finished.
Qed.

Lemma exit_simulated k o env st : ops !! k = Some o -> native_exit o = true -> env_ok k env -> known_state k st ->
  exists st', (forall c, step exits o env (c, st) = Next env (c, st')) /\
    ends 3 [] [] (emit_ExitBlock g o None None) (at_point k env st) (finished base M0 st' (exit_code o)).
Proof using All.
  intros Ho Hnat He Hk. unfold native_exit in Hnat. rewrite !andb_true_iff in Hnat.
  destruct Hnat as (((((Hop & Hres) & Hrip) & Htarget) & Hnext) & Hkind). apply bool_decide_eq_true in Hop.
  assert (replacesArithmeticFlags (o_opcode o) = false) as Hf by by rewrite Hop.
  assert (exact k = true) as Ek by (apply (exact_reader k o); [done|done|by rewrite Hop]).
  pose proof (not_dead k o Ho Hf) as Hd. destruct plain as (Hedge & Hguest & _ & Hdef & _ & Hhelp & Hctx).
  destruct (o_result o) eqn:Er; [done|]. clear Hres.
  destruct (env_operands k o env Ho He) as (l & r & t & El & Er' & Et).
  assert (forall st' code, exit_effect o l st = Some (st', code) -> in_range 64 st'.(rip) ->
    forall c, step exits o env (c, st) = Next env (c, st')) as Hstep.
  { intros st' code E Hr%word_in_range c. unfold step, effect, is_pure. rewrite El, Er', Et, Hop, Er. unfold exits. cbn [fst snd].
    replace (exit_effect (erase o) l st) with (exit_effect o l st) by done. rewrite E, Hr. by destruct l, r, t. }
  assert (forall M, at_point k env st M -> slot base rflagsOffset M = rflags st) as Hflags.
  { intros M HP. pose proof (p_flags _ _ _ _ _ _ _ _ HP) as H. by rewrite Ek in H. }
  assert (forall target, o_target o = Some target -> in_range 64 target) as Rt.
  { intros target E. rewrite E in Htarget. by apply word_in_range. }
  assert (forall l, o_lhs o = Some l -> Some l ∈ operand_slots o) as Sl by (intros v E; unfold operand_slots; rewrite E; by left).
  assert (forall rip, o_exitKind o <> Exit_Syscall -> o_exitKind o <> Exit_Conditional -> (forall M, exists r, exit_rip base host M o = Some r /\ in_range 64 r) ->
    (forall M, at_point k env st M -> exit_rip base host M o = Some rip) ->
    ends 3 [] [] (emit_ExitBlock g o None None) (at_point k env st) (finished base M0 (set_rip rip st) (exit_code o))) as Hsimple.
  { intros rip H1 H2 H3 H4. apply (exit_jump k o env st rip Ek); [|done]. intros M HM. destruct (H3 M) as (r' & Hr' & Rr').
    exists r'. split_and!; [done..|]. eapply ends_conseq; [|intros m Hm; exact Hm|intros m Hm; exact Hm|
      apply (exit_simple g base host Hbase Hend Hedge Hguest Hdef Hhelp Hctx [] M o (proj1 HM) r' H1 H2)]; [lia| |done|done].
    intros v Hv _. by apply (operand_hosted k o v Ho), Sl. }
  destruct (o_exitKind o) eqn:Hkd.
  - exists (set_rip (o_guestRip o) st). split; [eapply Hstep; [unfold exit_effect; by rewrite Hkd|by apply word_in_range]|].
    apply Hsimple; try done; intros M; unfold exit_rip; rewrite Hkd; [|done].
    eexists. split; [done|]. by apply word_in_range.
  - destruct (o_lhs o) as [v|] eqn:Hl.
    + apply read_some in El as (x & Hx & ->). exists (set_rip x st). split; [eapply Hstep; [unfold exit_effect; by rewrite Hkd|by eapply (e_range k env He)]|].
      apply Hsimple; try done; intros M; unfold exit_rip; rewrite Hkd, Hl; [eexists; split; [done|]; apply (rX_range M true)|].
      intros HP. f_equal. apply (read_host k o env st M v x Ho Hd); auto.
    + injection El as <-. destruct (o_target o) as [target|] eqn:Ht; [|done]. exists (set_rip target st).
      split; [eapply Hstep; [unfold exit_effect; by rewrite Hkd, Ht|cbn; auto]|].
      apply Hsimple; try done; intros M; unfold exit_rip; rewrite Hkd, Hl, Ht; [eexists; split; [done|]; auto|done].
  - destruct (o_target o) as [target|] eqn:Ht; [|done]. destruct (o_fallthrough o) as [next|] eqn:Hnx; [|done].
    destruct (o_condition o) as [c|] eqn:Hc; [|done]. apply word_in_range in Hnext.
    exists (set_rip (if condition_holds c (rflags st) then target else next) st).
    split; [eapply Hstep; [unfold exit_effect; by rewrite Hkd, Ht, Hnx, Hc|cbn; destruct (condition_holds _ _); auto]|].
    apply (exit_jump k o env st _ Ek).
    + intros M HM. eexists. split; [unfold exit_rip; by rewrite Hkd, Ht, Hnx, Hc|]. split; [destruct (condition_holds _ _); auto|].
      apply (exit_conditional g base host Hbase Hend Hedge Hguest Hdef Hhelp Hctx [] M o (proj1 HM)); auto.
    + intros M HP. unfold exit_rip. rewrite Hkd, Ht, Hnx, Hc. cbn. by rewrite (Hflags M HP).
  - destruct (o_lhs o) as [v|] eqn:Hl.
    + apply read_some in El as (x & Hx & ->). exists (set_rip x st). split; [eapply Hstep; [unfold exit_effect; by rewrite Hkd|by eapply (e_range k env He)]|].
      apply Hsimple; try done; intros M; unfold exit_rip; rewrite Hkd, Hl; [eexists; split; [done|]; apply (rX_range M true)|].
      intros HP. f_equal. apply (read_host k o env st M v x Ho Hd); auto.
    + injection El as <-. destruct (o_target o) as [target|] eqn:Ht; [|done]. exists (set_rip target st).
      split; [eapply Hstep; [unfold exit_effect; by rewrite Hkd, Ht|cbn; auto]|].
      apply Hsimple; try done; intros M; unfold exit_rip; rewrite Hkd, Hl, Ht; [eexists; split; [done|]; auto|done].
  - destruct (o_target o) as [target|] eqn:Ht; [|done].
    exists (set_rip target (set_gpr R11 (rflags st) (set_gpr Rcx target st))).
    split; [eapply Hstep; [unfold exit_effect; by rewrite Hkd, Ht|cbn; auto]|].
    eapply (ends_each _ _ _ _ ready (fun M m => exists m1 m', called base M target m1 /\ stored base ripOffset target m1 m' /\
      m = set_x 0 (exit_code o) m') _ _ (based base)); [apply based_ok| |intros m; apply point_ready|].
    + intros M [H0 _]. eapply ends_conseq; [|intros m Hm; exact Hm|intros m Hm; exact Hm|
        apply (exit_syscall g base host Hbase Hend Hedge Hguest Hdef Hhelp Hctx [] M o H0 target Hkd Ht)]; [lia|auto].
    + intros M m HP (m1 & m' & (M1 & S1 & S2) & S & ->). rewrite (Hflags M HP) in S2.
      eapply point_exit; [|auto|exact S].
      apply (point_stored base host M0 (live k) true env _ M1); [apply live_allocated|cbn; rewrite length_insert; apply Hk| |exact S2].
      rewrite Ek in HP. eapply point_stored; [apply live_allocated|apply Hk|exact HP|exact S1].
Qed.

(** ** The loop over the operations *)

Context (Hsums : forall i o, ops !! i = Some o -> sums_up ops o = true).

Lemma skips k : skipsOperation g k = isDeadFlagUpdate block k false.
Proof using Hplan Hhelpers.
  destruct plain as (Hedge & _ & _ & Hdef & _). destruct (pl_plain _ _ Hplan) as (_ & _ & Hres & _).
  unfold skipsOperation, eliminateFusedFlagUpdates, sinkLogicFlags, fuseZeroFlagConsumers. rewrite Hedge, Hdef.
  unfold deferredExitResultOperation. cbn [g_plan g_block]. rewrite Hres. cbn. by rewrite !orb_false_r.
Qed.

Lemma emit_cons k o rest : isDeadFlagUpdate block k false = false -> native_operation o = true \/ native_exit o = true ->
  same (emitOperations g (o :: rest) k None None) (emit_native g o k ;;; emitOperations g rest (S k) None None).
Proof using Hplan Hhelpers.
  intros Hd Ho a. cbn [emitOperations]. rewrite skips, Hd, emit_native_operation by done. unfold bind, ret.
  by destruct (emit_native g o k a) as [a' [[]| |]].
Qed.

Lemma operations_simulated rest : forall k env st, drop k ops = rest -> native_operations rest = true -> env_ok k env ->
  known_state k st -> exists st' o, last rest = Some o /\ (forall c, run exits rest env (c, st) = Done (c, st')) /\
    ends (5 * zlength rest) [] [] (emitOperations g rest k None None) (at_point k env st) (finished base M0 st' (exit_code o)).
Proof using All.
  induction rest as [|o rest IH]; intros k env st Hdrop Hnat He Hk; [done|].
  assert (ops !! k = Some o) as Ho by (rewrite <- (Nat.add_0_r k), <- lookup_drop, Hdrop; done).
  assert (drop (S k) ops = rest) as Hdrop' by (rewrite (drop_S _ _ _ Ho) in Hdrop; by injection Hdrop).
  destruct rest as [|o2 rest].
  - cbn [native_operations] in Hnat. destruct (exit_simulated k o env st Ho Hnat He Hk) as (st' & Hrun & Hc). exists st', o.
    assert (o_opcode o = Op_ExitBlock) as Hop.
    { unfold native_exit in Hnat. rewrite !andb_true_iff in Hnat. apply (bool_decide_eq_true (o_opcode o = Op_ExitBlock)). apply Hnat. }
    assert (isDeadFlagUpdate block k false = false) as Hd by (apply (not_dead k o Ho); by rewrite Hop).
    split_and!; [done|intros c; cbn [run]; by rewrite Hrun|].
    eapply ends_same; [|eapply ends_conseq; [|intros m Hm; exact Hm|intros m Hm; exact Hm|exact Hc]; unfold zlength; cbn; lia].
    intros a. rewrite emit_cons by auto. unfold emit_native. rewrite Hop. cbn [emitOperations]. unfold bind, ret.
    by destruct (emit_ExitBlock g o None None a) as [a' [[]| |]].
  - cbn [native_operations] in Hnat. apply andb_prop in Hnat as [Hnat Hrest].
    destruct (native_simulated [] k o env st Ho Hnat (Hsums k o Ho) He Hk) as (env' & st1 & Hrun & He' & Hk' & Hc).
    destruct (IH (S k) env' st1 Hdrop' Hrest He' Hk') as (st' & last & Hlast & Hrun' & Hc'). exists st', last.
    split_and!; [done|intros c; cbn [run]; rewrite Hrun; apply Hrun'|].
    assert (5 * zlength (o :: o2 :: rest) = 5 + 5 * zlength (o2 :: rest)) as -> by (unfold zlength; cbn [length]; lia).
    destruct (isDeadFlagUpdate block k false) eqn:Hd.
    + eapply ends_same; [intros a; cbn [emitOperations]; rewrite skips, Hd; reflexivity|].
      eapply ends_conseq; [|exact Hc|intros m Hm; exact Hm|exact Hc']. lia.
    + eapply ends_same; [apply emit_cons; auto|]. eapply (ends_seq 5 (5 * zlength (o2 :: rest)) _ [] _ _ _ _ _); [done| |exact Hc|exact Hc'].
      unfold zlength. lia.
Qed.
End Compile.

(** ** The program *)

(** The machine that enters a block: x0 holds the address of the state. *)
Record entered (base : Z) (st : X86State) (m : machine) : Prop := {
  en_base : reg_of m 0 = base;
  en_state : in_memory base st m;
  en_flags : slot base rflagsOffset m = st.(rflags);
  en_bytes : memory_ok m;
  en_gpr : length st.(gpr) = 16%nat
}.

Lemma entry_label P : triple 1 [] [] [] (do! entry <- makeLabel; bindLabel entry) P P.
Proof.
  change 1 with (1 + 0). apply triple_make; [done|]. intros l. apply (triple_same _ _ _ _ _ (ret tt ;;; bindLabel l)); [done|].
  apply triple_bind; [done|]. apply triple_ret.
Qed.

(** ** The length of the code *)

Definition adds {A} (c : Prelude.M Assembler A) (k : Z) : Prop := forall a,
  zlength a.(words_) <= zlength (c a).1.(words_) <= zlength a.(words_) + k.

Lemma adds_bind {A B} (c : Prelude.M Assembler A) (f : A -> Prelude.M Assembler B) i j : adds c i -> (forall x, adds (f x) j) ->
  adds (bind c f) (i + Z.max 0 j).
Proof.
  intros Hc Hf a. specialize (Hc a). unfold bind. destruct (c a) as [a' [x| |]]; cbn [fst] in *; [|lia|lia].
  specialize (Hf x a'). lia.
Qed.

Lemma adds_if {A} (b : bool) (c d : Prelude.M Assembler A) i j : adds c i -> adds d j -> adds (if b then c else d) (Z.max i j).
Proof. intros Hc Hd a. specialize (Hc a). specialize (Hd a). destruct b; lia. Qed.

Lemma adds_option {A B} (o : option A) (f : A -> Prelude.M Assembler B) d i j : (forall x, adds (f x) i) -> adds d j ->
  adds (match o with Some x => f x | None => d end) (Z.max i j).
Proof. intros Hf Hd a. specialize (Hd a). destruct o as [x|]; [specialize (Hf x a)|]; lia. Qed.

Lemma adds_same {A} (c : Prelude.M Assembler A) : (forall a, (c a).1.(words_) = a.(words_)) -> adds c 0.
Proof. intros H a. rewrite H. lia. Qed.

Lemma adds_get {B} (f : Assembler -> Prelude.M Assembler B) j : (forall x, adds (f x) j) -> adds (bind get f) j.
Proof. intros Hf a. unfold bind, get. apply Hf. Qed.

Lemma adds_emit word text : adds (emit word text) 1.
Proof. intros a. cbn. unfold zlength. rewrite length_app. cbn. lia. Qed.

Lemma adds_fixup word text kind l : adds (emitFixup word text kind l) 1.
Proof. intros a. cbn. unfold zlength. rewrite length_app. cbn. lia. Qed.

Lemma adds_makeLabel : adds makeLabel 0.
Proof. apply adds_same. intros a. unfold makeLabel, bind, get. by destruct (_ <? _). Qed.

Lemma adds_bindLabel l : adds (bindLabel l) 0.
Proof. apply adds_same. intros a. unfold bindLabel, bind, get. by destruct (_ !! _) as [[|]|]. Qed.

Lemma adds_requireRegister r : adds (requireRegister r) 0.
Proof. apply adds_same. intros a. unfold requireRegister. by destruct (_ <? _). Qed.

Lemma adds_hostRegister g v : adds (hostRegister g v) 0.
Proof.
  apply adds_same. intros a. unfold hostRegister, at_value_in, lift, bind, ret. destruct (_ <=? _); [done|].
  by destruct (at_value _ _) as [[|]| |]; try destruct (at_value _ _).
Qed.

Lemma adds_deref {A} (x : option A) : adds (deref x) 0.
Proof. apply adds_same. intros a. by destruct x. Qed.

Lemma adds_lift {A} (x : outcome A) : adds (lift x) 0.
Proof. apply adds_same. intros a. by destruct x. Qed.

Lemma adds_loop d v movn l : forall h first, adds (movImmediate_loop d v movn l h first) (zlength l).
Proof.
  induction l as [|w l IH]; intros h first; cbn [movImmediate_loop]; [by apply adds_same|].
  assert (zlength (w :: l) = 1 + zlength l) as -> by (unfold zlength; cbn [length]; lia).
  intros a. destruct (_ && _); [specialize (IH (h + 1) first a); lia|].
  match goal with |- context [bind (emit ?x ?t) ?f] => pose proof (adds_bind (emit x t) f 1 (zlength l) (adds_emit x t) (fun _ => IH (h + 1) true) a) end.
  unfold zlength in *. lia.
Qed.

Lemma adds_le {A} (c : Prelude.M Assembler A) i j : adds c i -> (i <=? j) = true -> adds c j.
Proof. intros H Hij%Z.leb_le a. specialize (H a). lia. Qed.

Lemma adds_movImmediate d v : adds (movImmediate d v) 4.
Proof.
  unfold movImmediate. cbv zeta. eapply adds_le; [eapply adds_bind; [apply adds_requireRegister|intros ?; apply adds_loop]|reflexivity].
Qed.

(** Adds up the instructions of emission code. *)
Ltac adds_up :=
  cbv zeta beta;
  lazymatch goal with
  | |- adds (bind get _) _ => eapply adds_get; intros ?; adds_up
  | |- adds (bind _ _) _ => eapply adds_bind; [adds_up|intros ?; adds_up]
  | |- adds (match _ with Some _ => _ | None => _ end) _ => eapply adds_option; [intros ?; adds_up|adds_up]
  | |- adds (if _ then _ else _) _ => eapply adds_if; [adds_up|adds_up]
  | |- adds (match ?x with (_, _) => _ end) _ => destruct x; adds_up
  | |- adds (emit _ _) _ => apply adds_emit
  | |- adds (emitFixup _ _ _ _) _ => apply adds_fixup
  | |- adds makeLabel _ => apply adds_makeLabel
  | |- adds (bindLabel _) _ => apply adds_bindLabel
  | |- adds (requireRegister _) _ => apply adds_requireRegister
  | |- adds (hostRegister _ _) _ => apply adds_hostRegister
  | |- adds (deref _) _ => apply adds_deref
  | |- adds (lift _) _ => apply adds_lift
  | |- adds (ret _) _ => by apply adds_same
  | |- adds (throw _) _ => by apply adds_same
  | |- adds undefined _ => by apply adds_same
  | |- adds (movImmediate _ _) _ => apply adds_movImmediate
  | |- adds ?c _ => let h := head_of c in unfold h; adds_up
  end
with head_of c := lazymatch c with ?f _ => head_of f | _ => c end.

Ltac count_words := eapply adds_le; [adds_up|vm_compute; reflexivity].

Lemma adds_test g o k1 k2 k3 l : adds (emitConditionalMoveTest g o k1 k2 k3 l) 12.
Proof. count_words. Qed.

Lemma adds_update g o : native_operation o = true -> o.(o_opcode) = Op_UpdateAddFlags \/ o.(o_opcode) = Op_UpdateSubFlags ->
  adds (emit_UpdateAddFlags g o) 80.
Proof.
  unfold emit_UpdateAddFlags, native_operation, opcode_is, width_is. intros Hnat [E|E]; rewrite E in *.
  - rewrite bool_decide_true by done. count_words.
  - rewrite bool_decide_false, bool_decide_true by done. rewrite !andb_true_iff in Hnat. destruct Hnat as [_ Hw%orb_prop].
    destruct Hw as [Hw|Hw]; rewrite ?Hw; cbn [andb]; [count_words|].
    destruct (bool_decide (o_width o = I8)); count_words.
Qed.

(** No operation takes more than 80 instructions. *)
Lemma adds_native g o k : internalSelfEdge g = false -> hasHelperCall g = false -> hasExecutionContextCall g = false ->
  deferredExitUpdate g = None -> native_operation o = true \/ native_exit o = true -> adds (emit_native g o k) 80.
Proof.
  intros Hedge Hhelp Hctx Hdef Ho. unfold emit_native, emit_value. destruct (o_opcode o) eqn:Eop; try count_words;
    try (apply adds_update; [|by auto]; destruct Ho as [?|Ho]; [done|]; unfold native_exit, opcode_is in Ho; by rewrite Eop in Ho).
  unfold emit_ExitBlock, emitEpilogue. rewrite ?Hedge, ?Hdef, ?Hhelp, ?Hctx. destruct (o_exitKind o); cbn [andb]; count_words.
Qed.

Lemma native_all l : native_operations l = true -> forall i o, l !! i = Some o -> native_operation o = true \/ native_exit o = true.
Proof.
  induction l as [|o l IH]; [done|]. intros H [|i] o' Hi.
  - injection Hi as <-. destruct l; cbn [native_operations] in H; [by right|]. apply andb_prop in H as [? _]. by left.
  - cbn in Hi. apply (IH ltac:(destruct l; [done|cbn [native_operations] in H |- *; by apply andb_prop in H as [_ ?]]) i o' Hi).
Qed.

Lemma native_no_helper o : native_operation o = true \/ native_exit o = true -> callsHelper o = false /\ callsWithContext o = false.
Proof.
  unfold native_operation, native_exit, opcode_is, callsHelper, callsWithContext, value_operation. intros [H|H].
  - destruct (o_opcode o) eqn:E; try done; rewrite ?andb_false_r in H; try done.
    rewrite !andb_true_iff in H. destruct H as [_ H]. destruct (width_is I8 o), (width_is I64 o); done.
  - rewrite !andb_true_iff in H. destruct H as (((((H & _) & _) & _) & _) & _). apply bool_decide_eq_true in H. by rewrite H.
Qed.

Lemma adds_operations g : internalSelfEdge g = false -> hasHelperCall g = false -> hasExecutionContextCall g = false ->
  deferredExitUpdate g = None -> forall l, (forall i o, l !! i = Some o -> native_operation o = true \/ native_exit o = true) ->
  forall k, adds (emitOperations g l k None None) (80 * zlength l).
Proof.
  intros Hedge Hhelp Hctx Hdef. induction l as [|o l IH]; intros Ho k; cbn [emitOperations]; [by apply adds_same|].
  assert (80 * zlength (o :: l) = 80 + 80 * zlength l) as -> by (unfold zlength; cbn [length]; lia).
  assert (forall k, adds (emitOperations g l k None None) (80 * zlength l)) as Hl by (apply IH; intros i o' Hi; by apply (Ho (S i))).
  assert (0 <= zlength l) by (unfold zlength; lia).
  destruct (skipsOperation g k); [intros a; specialize (Hl (S k) a); lia|].
  pose proof (Ho O o eq_refl) as Hn. rewrite emit_native_operation by done. intros a.
  pose proof (adds_native g o k Hedge Hhelp Hctx Hdef Hn a) as H1. unfold bind, ret.
  destruct (emit_native g o k a) as [a' [x| |]]; cbn [fst] in *; [|lia|lia]. specialize (Hl (S k) a'). lia.
Qed.

(** Branches inside 8000 instructions reach their labels. *)
Lemma short_finish a : sound a -> opened [] a -> zlength a.(words_) <= 8000 ->
  exists p, finish a = Ok p /\ agrees (code_of p) a.(labelPositions_) a.
Proof.
  intros Hs [_ _ Ho] Hlen. pose proof (finish_sound a Hs) as H. destruct (finish a) as [p|e|]; [exists p; tauto| |done].
  exfalso. destruct H as [H|(fx & Hfx & H)]; [lia|]. destruct (Ho fx Hfx) as [Hl%elem_of_nil|[q Hq]]; [done|].
  destruct H as [[Hu _]|(t & Ht & Hr & _)]; [congruence|]. rewrite Hq in Ht. injection Ht as <-. apply Hr.
  destruct Hs as [Hf _ Hp]. rewrite Forall_forall in Hf. rewrite Forall_forall in Hp. specialize (Hf fx Hfx). apply fixup_index in Hf.
  apply list_elem_of_lookup_2, Hp in Hq. unfold position_ok in Hq. unfold in_reach, zlength in *. destruct (f_kind fx); cbn; lia.
Qed.

(** ** Compilation *)

Lemma zero_at_start block defs r : ~ zero_at block defs 0 r.
Proof. intros (i & _ & _ & _ & Hi & _). lia. Qed.

Lemma native_block_facts block : native_block block = true -> hasInternalSelfEdge block = false /\
  native_operations block.(b_operations) = true /\ forall i o, block.(b_operations) !! i = Some o -> sums_up block.(b_operations) o = true.
Proof.
  unfold native_block. rewrite !andb_true_iff, negb_true_iff. intros (((_ & H1) & H2) & H3). split_and!; [done|done|].
  intros i o Ho. rewrite forallb_forall in H3. apply H3, list_elem_of_In. by eapply list_elem_of_lookup_2.
Qed.

(** What running the program of a block does. *)
Definition runs_as (block : Block) (base : Z) (c : GuestExecutionContext) (st : X86State) (M0 : machine) (p : Program) : Prop :=
  exists st' exit fuel m, last block.(b_operations) = Some exit /\ run exits block.(b_operations) ∅ (c, st) = Done (c, st') /\
  (forall more, (fuel <= more)%nat -> execute (code_of p) more 0 M0 = Some m) /\ finished base M0 st' (exit_code exit) m.

Section Whole.
Context (pointer : string -> Z) (listing : bool) (block : Block) (p : Plan).
Local Abbreviation ops := block.(b_operations).
Context (Hclosed : closed block.(b_valueCount) ops) (Hn : 0 <= block.(b_valueCount)) (Hnative : native_block block = true).
Context (Hlength : zlength ops <= 100) (Hplan : planned block p).
Context (base : Z) (c : GuestExecutionContext) (st : X86State) (M0 : machine).
Context (Hbase : 0 <= base) (Hend : base + state_size <= 2 ^ 64) (Hin : entered base st M0).
Local Abbreviation g := (mkCodeGen block p pointer).

Lemma whole_operations : exists st' exit, last ops = Some exit /\ (forall c, run exits ops ∅ (c, st) = Done (c, st')) /\
  ends (5 * zlength ops) [] [] (emitOperations g ops 0 None None) (eq M0) (finished base M0 st' (exit_code exit)).
Proof using Hclosed Hn Hnative Hplan Hbase Hend Hin.
  destruct (native_block_facts block Hnative) as (Hedge & Hops & Hsums). pose proof (native_all _ Hops) as Hall.
  assert (p_hasHelperCall p = false /\ p_hasExecutionContextCall p = false) as Hhelpers.
  { destruct (pl_plain _ _ Hplan) as (_ & _ & _ & _ & _ & _ & _ & _ & -> & ->).
    split; apply not_true_iff_false; intros (o & Ho%list_elem_of_In & E)%existsb_exists;
      apply list_elem_of_lookup in Ho as [i Ho]; destruct (native_no_helper o (Hall i o Ho)); congruence. }
  destruct (pl_folds _ _ Hplan) as (defs & Hdefs & Hfold & Hp1 & Hp2).
  destruct (operations_simulated block p pointer defs Hclosed Hn Hplan Hdefs Hfold (conj Hp1 Hp2) Hhelpers base M0 Hbase Hend Hall Hsums
    ops 0 ∅ st) as (st' & o & Hlast & Hrun & Hc); [by rewrite drop_0|done| | |].
  - split; [|done|lia]. intros v. rewrite lookup_empty. split; [by intros [? [=]]|by intros H%elem_of_nil].
  - split; [apply Hin|]. intros r Hr. by apply zero_at_start in Hr.
  - exists st', o. split_and!; [done|done|]. eapply ends_conseq; [|intros m Hm|intros m Hm; exact Hm|exact Hc]; [done|]. subst m.
    destruct Hin as [I1 I2 I3 I4 _]. apply point_inexact. by split.
Qed.

Lemma whole_compiled : exists a', emitBlock g (newAssembler listing) = (a', Ok tt) /\ exists program, finish a' = Ok program /\
  runs_as block base c st M0 program.
Proof using All.
  destruct whole_operations as (st' & exit & Hlast & Hrun & Hc). destruct (native_block_facts block Hnative) as (Hedge & Hops & _).
  destruct (pl_plain _ _ Hplan) as (E1 & E2 & _ & _ & _ & _ & _ & _ & E7 & E8). pose proof (native_all _ Hops) as Hall.
  assert (hasHelperCall g = false /\ hasExecutionContextCall g = false) as [Hh Hx].
  { unfold hasHelperCall, hasExecutionContextCall. cbn [g_plan]. rewrite E7, E8.
    split; apply not_true_iff_false; intros (o & Ho%list_elem_of_In & E)%existsb_exists;
      apply list_elem_of_lookup in Ho as [i Ho]; destruct (native_no_helper o (Hall i o Ho)); congruence. }
  assert (same (emitBlock g) ((do! entry <- makeLabel; bindLabel entry) ;;; emitOperations g ops 0 None None)) as Hsame.
  { intros a. unfold emitBlock, emitPrologue. rewrite Hh, Hx. unfold bind, ret. destruct (makeLabel a) as [a1 [l| |]]; done. }
  assert (ends (1 + 5 * zlength ops) [] [] (emitBlock g) (eq M0) (finished base M0 st' (exit_code exit))) as Hends.
  { eapply ends_same; [exact Hsame|]. apply (ends_seq 1 (5 * zlength ops) _ [] _ _ _ _ (eq M0)); [done|unfold zlength; lia|apply entry_label|done]. }
  destruct (sound_new listing) as [Hs Ho].
  destruct (Hends _ Hs Ho) as (a' & Ea & Hs' & Ho' & _ & _ & Hr); [change (label_count (newAssembler listing)) with 0; lia|].
  exists a'. split; [done|]. assert (zlength a'.(words_) <= 8000) as Hlen.
  { assert (adds (emitBlock g) (80 * zlength ops)) as Hadds.
    { intros a. rewrite Hsame. apply (adds_le _ _ _ (adds_bind _ _ _ _ (adds_bind _ _ _ _ adds_makeLabel adds_bindLabel)
        (fun _ => adds_operations g E1 Hh Hx E2 ops Hall 0))). apply Z.leb_le. unfold zlength. lia. }
    specialize (Hadds (newAssembler listing)). rewrite Ea in Hadds. change (zlength (words_ (newAssembler listing))) with 0 in Hadds. cbn [fst] in Hadds. lia. }
  destruct (short_finish a' Hs' Ho' Hlen) as (program & Hf & Hag). exists program. split; [done|].
  destruct (Hr _ _ Hag M0 eq_refl) as (pc & m & r & Hsteps & Hret & Hfin).
  destruct (execute_reaches _ _ _ _ Hsteps Hret) as [fuel Hfuel]. by exists st', exit, fuel, m.
Qed.
End Whole.

Lemma compile_result pointer listing block base c st M0 : closed block.(b_valueCount) block.(b_operations) ->
  0 <= block.(b_valueCount) -> native_block block = true -> zlength block.(b_operations) <= 100 ->
  0 <= base -> base + state_size <= 2 ^ 64 -> entered base st M0 ->
  match compile pointer block listing with
  | Ok p => runs_as block base c st M0 p
  | Throw e => exists i o r, block.(b_operations) !! i = Some o /\ o.(o_result) = Some r /\
      overloaded block false false None i /\ e = exhausted o.(o_guestRip)
  | Undefined => False
  end.
Proof.
  intros Hc Hn Hnat Hlen Hb He Hin. destruct (native_block_facts block Hnat) as (Hedge & _).
  unfold compile. pose proof (makePlan_ok block Hc Hn Hedge) as Hp. destruct (makePlan block) as [p|e|]; [|done|done]. cbn [outcome_bind].
  destruct (whole_compiled pointer listing block p Hc Hn Hnat Hlen Hp base c st M0 Hb He Hin) as (a' & -> & program & -> & H). exact H.
Qed.


(** ** At a concrete input *)

(** [xor eax, eax; cmp rdi, rsi; setb al; add rax, rdx; jne]. *)
Definition nativeBlock : Block :=
  let b := IRBuilder.newBuilder 4096 in
  let b := (IRBuilder.constant 0 I32 4096 b).1 in
  let b := (IRBuilder.writeGuestRegister Rax 0 I32 4096 b).1 in
  let b := (IRBuilder.updateLogicFlags 0 I32 4096 b).1 in
  let b := (IRBuilder.readGuestRegister Rdi I64 4098 b).1 in
  let b := (IRBuilder.readGuestRegister Rsi I64 4098 b).1 in
  let b := (IRBuilder.sub 1 2 I64 4098 b).1 in
  let b := (IRBuilder.updateSubFlags 1 2 3 I64 4098 b).1 in
  let b := (IRBuilder.evaluateCondition Cond_Below 4101 b).1 in
  let b := (IRBuilder.writeGuestRegister Rax 4 I8 4101 b).1 in
  let b := (IRBuilder.readGuestRegister Rax I64 4104 b).1 in
  let b := (IRBuilder.readGuestRegister Rdx I64 4104 b).1 in
  let b := (IRBuilder.add 5 6 I64 4104 b).1 in
  let b := (IRBuilder.writeGuestRegister Rax 7 I64 4104 b).1 in
  let b := (IRBuilder.updateAddFlags 5 6 7 I64 4104 b).1 in
  (IRBuilder.exitConditional Cond_NotEqual 4111 4109 4107 b).1.

(** RDI is below RSI, and RDX is 40. *)
Definition nativeState : X86State := set_gpr Rdi 5 (set_gpr Rsi 7 (set_gpr Rdx 40 initialState)).
Definition nativeMachine : machine :=
  let put r m := store_word (65536 + registerOffset r) 8 (get_gpr r nativeState) m in
  store_word (65536 + rflagsOffset) 8 nativeState.(rflags) (put Rdi (put Rsi (put Rdx (based 65536)))).

Lemma nativeMachine_entered : entered 65536 nativeState nativeMachine.
Proof.
  split; [reflexivity|split; [intros r; destruct r; vm_compute; reflexivity|vm_compute; reflexivity]|vm_compute; reflexivity| |reflexivity].
  unfold nativeMachine. repeat apply memory_ok_store. apply based_ok.
Qed.

(** The code runs: RAX is 41, and the branch is taken. *)
Example nativeBlock_runs :
  match compile (fun _ => 0) nativeBlock false with
  | Ok p => option_map (fun m => (slot 65536 (registerOffset Rax) m, slot 65536 ripOffset m, reg_of m 0)) (execute (code_of p) 200 0 nativeMachine)
  | _ => None
  end = Some (41, 4111, BlockExit_Continue).
Proof. vm_compute. reflexivity. Qed.

