(* ===== verification/Translator.v ===== *)
(** The translation of guest code: [Translator::translate] of [src/dbt/Translator.cpp], which
    decodes a block, lowers it, optimises it and compiles it for ARM64. *)
From stdpp Require Import relations.
From S2P Require Import Prelude AArch64 Assembler RuntimeMemory RuntimeArith BackendLogic BackendPlan BackendBase Backend BackendAnalysis BackendAnalysisSpec BackendSelect BackendCorrect X86State ExecutionContext IR IRBuilder IRVerify IRVerifySpec IRBuilderSpec Optimization IRSemantics OptimizationInv BuilderClosed OptimizationSpec X86Instruction DecodeBase DecodeSpec Decoder DecoderSpec LoweringBase LoweringSpec Lowering LoweringCorrect.

Definition translateToIr (debug : bool) (code : list Z) (start maximumInstructions : Z) :
    outcome (list DecodedInstruction * Block) :=
  let! decoded := decodeBlock code start maximumInstructions in
  let! intermediate := lowerToIr debug decoded in
  let! intermediate := optimizeBlock debug intermediate in
  Ok (decoded, intermediate).

(** [pointer] gives the addresses of the runtime helpers, [listing] asks for the program's
    text. *)
Definition translate (pointer : string -> Z) (listing debug : bool) (code : list Z) (start maximumInstructions : Z) :
    outcome (list DecodedInstruction * Block * Program) :=
  let! translation := translateToIr debug code start maximumInstructions in
  let! program := compile pointer translation.2 listing in
  Ok (translation, program).

(** ** Correctness *)

(** [b] is verified, starts at [start] and means what [b0] means. *)
Definition optimised (start : GuestAddress) (b0 b : Block) : Prop :=
  verify b = [] /\ b.(b_start) = start /\
  forall other m, well_behaved other -> machine_ok m ->
    IRSemantics.run other b.(b_operations) ∅ m = IRSemantics.run other b0.(b_operations) ∅ m.

Lemma optimizeBlock_optimised debug start b0 : closed_block start b0 ->
  exists b, optimizeBlock debug b0 = Ok b /\ optimised start b0 b.
Proof.
  intros Hclosed. pose proof (closed_block_verified _ _ Hclosed) as [_ Hstart].
  destruct Hclosed as (b1 & Hsteps & Hexit). destruct (built_closed start b1 b0 Hsteps Hexit) as (Hn & Hc & He).
  destruct (optimize_closed debug idle b0 directMachine idle_well_behaved Hn Hc He directMachine_ok) as (b & Hb & Hv & Hs & _).
  exists b. split; [done|]. split_and!; [done|by rewrite Hs|]. intros other m Hother Hm.
  destruct (optimize_closed debug other b0 m Hother Hn Hc He Hm) as (b' & Hb' & _ & _ & _ & Hr).
  rewrite Hb in Hb'. by injection Hb' as <-.
Qed.

(** What translating promises: the decoded block, verified code that starts where it starts
    and means what lowering it means; or the exception of the decoder or of lowering. *)
Definition translated (debug : bool) (code : list Z) (start maximum : Z) (o : outcome (list DecodedInstruction * Block)) : Prop :=
  match o with
  | Ok (l, b) => block code start maximum l /\ exists b0, lowerToIr debug l = Ok b0 /\ optimised start b0 b
  | Throw e =>
      no_block code start maximum e \/
      exists l, block code start maximum l /\ lowerToIr debug l = Throw e /\ expected_error e
  | Undefined => False
  end.

(** Translating guest code to intermediate code: the verifier and the optimiser never reject
    what lowering made, and no part of the pipeline has undefined behaviour. *)
Lemma translateToIr_translated debug code start maximum :
  code_ok code -> in_range 64 start -> 0 < maximum < 2 ^ 22 ->
  (forall l, decodeBlock code start maximum = Ok l -> Forall (fun i => lock_and_byte i = false) l) ->
  translated debug code start maximum (translateToIr debug code start maximum).
Proof.
  intros Hcode Hstart Hmax Hlock. assert (in_range 64 maximum) as Hmax' by (unfold in_range; lia).
  unfold translateToIr. pose proof (decodeBlock_ok code start maximum Hcode Hstart Hmax') as Hd.
  destruct (decodeBlock code start maximum) as [l|e|]; cbn [outcome_bind]; [|destruct Hd as [[? _]|Hd]; [lia|by left]|done].
  destruct (block_consecutive _ _ _ _ Hcode Hstart Hd) as [Hcons Hlen].
  destruct (consecutive_lowerable _ _ Hcons (Hlock l eq_refl)) as (Hlow & i & rest & -> & <-).
  pose proof (lowerToIr_lowered debug i rest Hlow ltac:(unfold most_values; lia)) as Hl.
  destruct (lowerToIr debug (i :: rest)) as [b0|e|] eqn:E; cbn [outcome_bind]; [|right; by exists (i :: rest)|done].
  destruct (optimizeBlock_optimised debug _ _ Hl) as (b & -> & Hb). cbn [outcome_bind]. split; [done|]. by exists b0.
Qed.

(** Running the program does, on this machine, what the block the decoder found means when it
    is lowered without optimisation. *)
Definition executes (debug : bool) (l : list DecodedInstruction) (b : Block) (base : Z) (c : GuestExecutionContext) (st : X86State)
    (M0 : machine) (p : Program) : Prop :=
  exists b0 st' exit fuel m, lowerToIr debug l = Ok b0 /\ IRSemantics.run exits b0.(b_operations) ∅ (c, st) = Done (c, st') /\
    last b.(b_operations) = Some exit /\
    (forall more, (fuel <= more)%nat -> execute (code_of p) more 0 M0 = Some m) /\ finished base M0 st' (exit_code exit) m.

(** The blocks for which the whole translation is proved: straight code on the guest registers
    and flags, of at most 100 operations. *)
Definition straight (b : Block) : Prop := native_block b = true /\ zlength b.(b_operations) <= 100.

(** What stops the backend on a verified block: on a straight one only the want of a register,
    at an operation where eight values are needed. *)
Definition stopped (b : Block) (e : exn) : Prop := straight b -> exists i o r,
  b.(b_operations) !! i = Some o /\ o.(o_result) = Some r /\ overloaded b false false None i /\ e = exhausted o.(o_guestRip).

Lemma straight_compiled pointer listing b : verify b = [] ->
  match compile pointer b listing with
  | Ok p => straight b -> forall base c st M0, 0 <= base -> base + state_size <= 2 ^ 64 -> entered base st M0 -> runs_as b base c st M0 p
  | Throw e => stopped b e
  | Undefined => ~ straight b
  end.
Proof.
  intros Hv.
  assert (forall base c st M0, straight b -> 0 <= base -> base + state_size <= 2 ^ 64 -> entered base st M0 ->
    match compile pointer b listing with Ok p => runs_as b base c st M0 p | Throw e => stopped b e | Undefined => False end) as H.
  { intros base c st M0 [Hnat Hlen] Hb He Hin. destruct (verified_closed b Hv Hnat) as [Hn Hc].
    pose proof (compile_result pointer listing b base c st M0 Hc Hn Hnat Hlen Hb He Hin) as H. destruct (compile pointer b listing); [done|by intros _|done]. }
  assert (0 <= 65536 /\ 65536 + state_size <= 2 ^ 64) as [Hb He] by (unfold state_size; lia).
  specialize (fun Hs => H 65536 directContext nativeState nativeMachine Hs Hb He nativeMachine_entered) as H'.
  destruct (compile pointer b listing) as [p|e|]; [|intros Hs; exact (H' Hs Hs)|exact H'].
  intros Hs base c st M0 Hb' He' Hin. by apply H.
Qed.

(** What translating to machine code promises. *)
Definition compiled (pointer : string -> Z) (listing debug : bool) (code : list Z) (start maximum : Z)
    (o : outcome (list DecodedInstruction * Block * Program)) : Prop :=
  match o with
  | Ok (l, b, p) => block code start maximum l /\ (exists b0, lowerToIr debug l = Ok b0 /\ optimised start b0 b) /\
      (straight b -> forall base c st M0, 0 <= base -> base + state_size <= 2 ^ 64 ->
       entered base st M0 -> machine_ok (c, st) -> executes debug l b base c st M0 p)
  | Throw e =>
      no_block code start maximum e \/
      (exists l, block code start maximum l /\ lowerToIr debug l = Throw e /\ expected_error e) \/
      exists l b, translateToIr debug code start maximum = Ok (l, b) /\ compile pointer b listing = Throw e /\ stopped b e
  | Undefined => exists l b, translateToIr debug code start maximum = Ok (l, b) /\ compile pointer b listing = Undefined /\ ~ straight b
  end.


(** ** At concrete inputs *)

(** [push rbp; mov rbp, rsp; xor eax, eax; je .+2] becomes one block of verified code. *)
Example sample_translation :
  match translateToIr true sample_code 0x1000 100 with
  | Ok (l, b) => zlength l = 4 /\ zlength b.(b_operations) = 11 /\ b.(b_valueCount) = 6
  | _ => False
  end.
Proof. vm_compute. done. Qed.

(** [lock and byte [rax], 1; ret]. *)
Definition lock_and_byte_code : list Z := [0xF0; 0x80; 0x20; 0x01; 0xC3].

(** An 8-bit LOCK AND is decoded and lowered, but the block is not one the verifier accepts:
    a debug build throws. *)
Lemma lock_and_byte_rejected :
  match decodeBlock lock_and_byte_code 0x1000 100 with
  | Ok l =>
      map lock_and_byte l = [true; false] /\
      (exists b, lowerToIr false l = Ok b /\ verify b = ["locked_and_guest_memory currently requires i16, i32, or i64"%string]) /\
      lowerToIr true l =
        Throw (runtime_error "IR verification failed: locked_and_guest_memory currently requires i16, i32, or i64")
  | _ => False
  end.
Proof. vm_compute. split; [done|]. split; [|done]. eexists. split; [reflexivity|]. vm_compute. done. Qed.

Lemma sample_lock_free l : decodeBlock sample_code 0x1000 100 = Ok l -> Forall (fun i => lock_and_byte i = false) l.
Proof. intros E. vm_compute in E. injection E as <-. repeat (apply Forall_cons_2; [reflexivity|]). apply Forall_nil_2. Qed.

(** [xor eax, eax; cmp rdi, rsi; setb al; add rax, rdx; jne .+2]. *)
Definition native_code : list Z := [0x31; 0xC0; 0x48; 0x39; 0xF7; 0x0F; 0x92; 0xC0; 0x48; 0x01; 0xD0; 0x75; 0x02].

Lemma native_code_ok : code_ok native_code.
Proof. split; [|reflexivity]. repeat (apply Forall_cons_2; [done|]). apply Forall_nil_2. Qed.

Lemma native_lock_free l : decodeBlock native_code 0x1000 100 = Ok l -> Forall (fun i => lock_and_byte i = false) l.
Proof. intros E. vm_compute in E. injection E as <-. repeat (apply Forall_cons_2; [reflexivity|]). apply Forall_nil_2. Qed.

Lemma nativeState_ok : machine_ok (directContext, nativeState).
Proof.
  destruct directMachine_ok as [_ Hd Hs]. split; [|exact Hd|exact Hs].
  split; [split; [reflexivity|]|split; [discriminate|reflexivity]..].
  change (gpr nativeState) with [0; 0; 40; 0; 0; 0; 7; 5; 0; 0; 0; 0; 0; 0; 0; 0].
  repeat (apply Forall_cons_2; [split; [discriminate|reflexivity]|]). apply Forall_nil_2.
Qed.


(** ** Where the backend goes wrong *)

(** The block a translation makes, and its plan. *)
Definition block_of (code : list Z) : Block :=
  match translateToIr true code 0x1000 100 with Ok (_, b) => b | _ => mkBlock 0 [] 0 end.

(** [xor ecx, ecx; cpuid; setb cl; jmp .+0]: CPUID leaves "ntel" in ECX, but the byte write is
    widened, as if ECX were still zero. *)
Lemma cpuid_write_widened :
  let b := block_of [0x31; 0xC9; 0x0F; 0xA2; 0x0F; 0x92; 0xC1; 0xEB; 0x00] in
  map o_opcode b.(b_operations) = [Op_Constant; Op_WriteGuestReg; Op_UpdateLogicFlags; Op_Cpuid; Op_EvaluateCondition;
    Op_WriteGuestReg; Op_ExitBlock] /\
  match makePlan b with Ok p => p.(p_promotesNarrowGuestWrite) !! 5%nat = Some true | _ => False end /\
  get_gpr Rcx (cpuidGuest initialState) = 0x6C65746E.
Proof. vm_compute. done. Qed.

(** [l: setb al; sub rdi, 1; jne l] from RDI = 2 and CF = 1. *)
Definition stale_code : list Z := [0x0F; 0x92; 0xC0; 0x48; 0x83; 0xEF; 0x01; 0x75; 0xF7].
Definition staleState : X86State := set_rflags 3 (set_gpr Rdi 2 initialState).
Definition staleMachine : machine :=
  let m := store_word (65536 + rflagsOffset) 8 3 (store_word (65536 + registerOffset Rdi) 8 2 (based 65536)) in
  let m := store_word (131072 + remainingBlockExecutionsOffset) 8 100 m in
  set_x 1 131072 (mkMachine m.(mx) 1048576 false false false false m.(mmem)).

Lemma staleMachine_entered : entered 65536 staleState staleMachine.
Proof.
  split; [reflexivity|split; [intros r; destruct r; vm_compute; reflexivity|vm_compute; reflexivity]|vm_compute; reflexivity| |reflexivity].
  unfold staleMachine. change (memory_ok (store_word (131072 + remainingBlockExecutionsOffset) 8 100
    (store_word (65536 + rflagsOffset) 8 3 (store_word (65536 + registerOffset Rdi) 8 2 (based 65536))))).
  repeat apply memory_ok_store. apply based_ok.
Qed.

(** The second iteration reads the flags the first began with: the SUB of the first is deferred
    past the SETB.  The block, run twice, leaves AL clear; its code leaves it set. *)
Lemma deferred_flags_stale :
  let b := block_of stale_code in
  match IRSemantics.run exits b.(b_operations) ∅ (directContext, staleState) with
  | Done (c, st1) => st1.(rip) = 0x1000 /\
      match IRSemantics.run exits b.(b_operations) ∅ (c, st1) with
      | Done (_, st2) => st2.(rip) = 0x1009 /\ get_gpr Rdi st2 = 0 /\ get_gpr Rax st2 = 0
      | _ => False
      end
  | _ => False
  end /\
  match compile (fun _ => 0) b false with
  | Ok p => option_map (fun m => (slot 65536 ripOffset m, slot 65536 (registerOffset Rdi) m, slot 65536 (registerOffset Rax) m))
      (execute (code_of p) 400 0 staleMachine) = Some (0x1009, 0, 1)
  | _ => False
  end.
Proof. vm_compute. done. Qed.

(** [l: movzx eax, byte [rdi+rcx]; movzx edx, byte [rdi+rcx+1]; add rcx, 1; setb r8b;
    cmp rcx, 64; jne l]: the loop keeps the host address of the bytes in x3, and the code of the
    flag update at 14, emitted for SETB, puts the sum there. *)
Lemma span_register_overwritten :
  let b := block_of [0x0F; 0xB6; 0x04; 0x0F; 0x0F; 0xB6; 0x54; 0x0F; 0x01; 0x48; 0x83; 0xC1; 0x01; 0x41; 0x0F; 0x92; 0xC0;
    0x48; 0x83; 0xF9; 0x40; 0x75; 0xE9] in
  match makePlan b with
  | Ok p =>
      let g := mkCodeGen b p (fun _ => 0) in
      option_map dr_firstLoadOperationIndex (directReadSpan g) = Some 5%nat /\
      option_map o_opcode (b.(b_operations) !! 14%nat) = Some Op_UpdateAddFlags /\ skipsOperation g 14 = false
  | _ => False
  end.
Proof. vm_compute. done. Qed.
